(* ===== verification/_CoqProject ===== *)
-Q . S2P
Prelude.v
ArithUint256.v
Compact.v
Chain.v
ActiveChain.v
MedianTime.v
Pow.v
VersionBits.v
Opcodes.v
Transaction.v
Script.v
Coins.v
CoinsDB.v
CoinsSpec.v
TxUndo.v
Merkle.v
PartialMerkle.v
Interpreter.v
InterpreterSafe.v
Spends.v
Serialize.v
Compressor.v
TxVerify.v
Hasher.v
Fips180.v
Sha256.v
Sha256D64.v
Sha512.v
Sha1.v
Ripemd160.v
Hashes.v
SipHash.v
Standard.v
ProTx.v
Bloom.v
RollingBloom.v
SmartnodeList.v
SmartnodeDiff.v
SmartnodeBlock.v
SmartnodePayee.v
Llmq.v
SmartnodeManager.v
Base58.v
Address.v
StrEncodings.v
Numbers.v
NetAddress.v
TxFormat.v
ProTxFormat.v
SigHash.v
AddrMan.v
AddrManInv.v
Spork.v
CacheMap.v
GovernanceObject.v
ProTxCheck.v
ProTxBlock.v
Subsidy.v
Superblock.v
Rewards.v
