(* ===== verification/Prelude.v ===== *)
(** * A verification library for the RavenCash node

    RavenCash is a full node of a proof-of-work currency with deterministic smartnodes (a descendant
    of Bitcoin, Dash and Ravencoin). This library translates the deterministic core of the node, the C++ code under
    [src/src/], into executable definitions and proves what that code promises. Every definition that
    models code names its function in a comment; names are those of the source wherever the language
    allows it.

    ** The program and how its parts interact

    Headers enter the _block index_ ([chain.cpp], [AddToBlockIndex]), a tree with skip pointers and
    cumulative work; the _active chain_ is the path to the best tip. A header is accepted when its hash meets the _target_ that
    the difficulty rule ([pow.cpp]) computes with 256-bit arithmetic
    ([arith_uint256.cpp]), and soft forks are switched on by _version bits_ ([versionbits.cpp]) read from the
    same tree. The transactions of a block are committed to by a _Merkle root_ ([consensus/merkle.cpp]); each input
    is checked against the _unspent coins_ ([coins.cpp], [txdb.cpp]), its lock times
    ([consensus/tx_verify.cpp]) and by running its _scripts_ ([script/]). Connecting a block writes undo records in a
    _compressed disk format_ ([compressor.cpp], [serialize.h], [undo.h]), and disconnecting replays them. Special
    transactions change the _smartnode list_ ([evo/deterministicmns.cpp]), from which the payee of each block and the
    quorums are derived. The smartnodes vote on _governance objects_ ([governance/]), of which the triggers of superblocks pay out of the subsidy; _sporks_
    ([spork.cpp]) switch such rules on and off, and the _reward rules_ ([validation.cpp], [smartnode/smartnode-payments.cpp], [founder_payment.cpp]) check what the
    first transaction of a block pays. Light clients
    follow their coins through _Bloom filters_ ([bloom.cpp]), and the addresses of peers are kept by the _address manager_ ([addrman.cpp], [netaddress.cpp]). All of it rests on the _hash functions_ ([crypto/], [hash.cpp]).

    ** Conventions

    A machine integer is a [Z]; [u8], [u32], [u64], [s32], [s64] (this file) truncate wherever the C++
    conversion does, and [is_u32] and its like are the range predicates. Bytes are integers, byte strings and scripts are
    lists of them, and a hash is a number or its bytes. [std::map], [std::unordered_map] and [immer::map] are [gmap], vectors are lists.
    A failed assertion, a null dereference or an access out of bounds is [None]; a refusal that the code reports is a value of [result]
    (this file) or of the component's own error type. Pointers that can be shared are addresses into
    a heap ([Chain.v]). Code outside the tree (LevelDB, secp256k1, BLS), and the asset layer as far as it is not modelled,
    is a type class whose laws are stated apart ([Class X] and [Class XSpec]), and every theorem that uses such laws has a
    witness with a concrete instance.

    Loops whose recursion is not structural take fuel. The fuel is a measure of the state
    that the loop decreases, is computed by the caller in the model, and
    the theorems prove that it suffices: the height difference for [GetAncestor] and [LastCommonAncestor], the length of the rest of the script for [EvalScript], [GetOp2] loops and
    [Solver], the number of periods back to the genesis block for [GetStateFor], the number of leaves for [MerkleComputation], the number of bytes for the hash classes,
    ten digits for [CompressAmount].

    ** Files

    - [Prelude.v]: machine integers, [result], loop and list lemmas, the hint databases.
    - [ArithUint256.v], [Compact.v]: [base_uint] on 32-bit limbs and the compact target encoding.
    - [Chain.v], [ActiveChain.v], [MedianTime.v]: the block index as a heap of [CBlockIndex] entries, skip list, cumulative work; [CChain]; the
      median time past.
    - [Pow.v]: [DarkGravityWave] and the older rule, [CheckProofOfWork].
    - [VersionBits.v]: [AbstractThresholdConditionChecker] with its cache, [ComputeBlockVersion].
    - [Opcodes.v], [Transaction.v]: constants and data shared by the rest.
    - [Coins.v], [CoinsDB.v], [CoinsSpec.v], [TxUndo.v]: [CCoinsViewCache] over any [CoinsView], the database view with its crash points, the
      contract of the cache, connecting and disconnecting transactions. Which scripts carry assets is that of [Script.v]; what is done to the asset cache for them
      ([AssetOperations]) is an interface without laws, whose operations may fail.
    - [Merkle.v], [PartialMerkle.v]: Merkle roots, branches, partial trees.
    - [Script.v], [Interpreter.v], [InterpreterSafe.v], [Spends.v], [Standard.v]: scripts, [EvalScript] and [VerifyScript], the
      limits, what spends a standard output, [Solver] and the script constructors.
    - [Serialize.v], [Compressor.v]: integers and vectors on streams, compressed coins and undo records.
    - [TxVerify.v]: lock times and [CheckTxInputs].
    - [Hasher.v], [Sha256.v], [Sha256D64.v], [Sha512.v], [Sha1.v], [Ripemd160.v], [Hashes.v], [SipHash.v]: the hash classes, with their unrolled transforms; [Fips180.v]
      is the specification, written as the standards are.
    - [Bloom.v], [RollingBloom.v]: the filters and the messages that set them.
    - [ProTx.v], [SmartnodeList.v], [SmartnodeDiff.v], [SmartnodeBlock.v], [SmartnodePayee.v], [SmartnodeManager.v]: payloads of special transactions, the list and its
      indexes, differences, what a block does to the list, the payment queue, the store of the lists with its caches.
    - [ProTxFormat.v], [ProTxCheck.v], [ProTxBlock.v]: the payloads as bytes, the checks of special transactions, and what a checked block can do to the list.
    - [Llmq.v]: the parameters of the quorums and how they follow the number of smartnodes.
    - [Base58.v], [Address.v], [StrEncodings.v], [Numbers.v]: base 58 and the addresses and keys in it, hexadecimal, base 64 and 32, numbers and amounts as text.
    - [TxFormat.v], [SigHash.v]: transactions as bytes, and what a signature in a script signs, with the reference of the tests.
    - [NetAddress.v], [AddrMan.v], [AddrManInv.v]: network addresses and subnets, and the manager of the addresses of peers with its consistency.
    - [Spork.v]: signed messages that switch rules on and off, and the manager that counts them.
    - [CacheMap.v]: the bounded caches [CacheMap] and [CacheMultiMap].
    - [GovernanceObject.v], [Superblock.v]: votes of smartnodes on governance objects, the triggers of superblocks and their payments.
    - [Subsidy.v], [Rewards.v]: the coins of a block, with the floating-point arithmetic of the code; who is paid by a block, what the miner
      builds and what the rules accept.

    ** What the theorems show

    - _Refinement_: limb arithmetic computes modulo [2^256], except [x *= x], which is zero; [GetStateFor] with any cache left by earlier calls is the recursive BIP9 state; stacks of coin
      caches over the database are a plain map of coins; the store of smartnode lists answers, where keys and addresses do not pass between nodes within a block, as if every list were computed from the first block on; the hash classes fed in any pieces are the published functions, and HMAC is RFC 2104; a bounded cache is a list, newest first, and holds no more than its maximum as long as that is positive and not set below its size.
    - _Invariants_: the block index stays a well-formed tree; the tables of the address manager stay consistent and no assertion of it fails; median times grow; the smartnode list keeps exact indexes through every block, so no two nodes
      share a collateral, address or key.
    - _Equivalence_: skip-list ancestors are [pprev] walks; the constant-space Merkle root is the recursive tree; the unrolled double hash is hashing twice; both special
      SipHashes are the general one; the hash to sign is that of the changed copy of the transaction; votes count the same in whatever order they come, unless the check of rates refuses some.
    - _Safety and bounds_: required work can be computed and stays at most the limit; scripts terminate within their limits; an interrupted flush is detectable; peers cannot break a
      filter; a checked block never runs into an assertion of the smartnode list unless two of its transactions set the same operator key, and changes no node without a
      signature; partial Merkle trees with the block's number of transactions prove nothing false, and others at most inner nodes; a witness signature fixes what it should except the type and payload of special transactions; a spork needs a majority of the keys; the coinbase a miner builds under fair parameters pays out exactly what there is and is accepted, but for superblocks with special fees; the
      subsidies reach the largest valid amount and pass it.
    - _Round trips_: connect and disconnect, transactions as bytes, compact targets, disk formats, Merkle branches, standard scripts, list differences, addresses, text
      encodings, amounts.
    - _Liveness_: in a chain that leaves the smartnodes alone every valid node of two or more is paid within one round.
    - _Errors_: what [AddCoin] leaves behind when it throws, the wrapping product of [DarkGravityWave], which can ask for a target of zero, outputs that can never be spent, blocks that run
      into an assertion of the list, burnt coins that are registered without a signature, addresses lost when the address manager is read from its file.

    ** Not modelled

    Sockets, threads, locks, logging, user interfaces, RPC and the wallet: input and output around the modelled functions. LevelDB, secp256k1, BLS and univalue: bundled
    libraries, interfaces here. The proof-of-work hash chains ([crypto/sph_*], [cryptonote/], KawPow): large third-party designs; a block hash is
    a parameter of [CheckProofOfWork]. The quorum protocols ([llmq/]) and coin mixing: distributed protocols over the network layer. The memory pool and the fee
    estimator, the asset database, the governance manager: not translated; where the modelled code calls them they are interfaces. The double-valued
    sizes of the Bloom filter constructors are arguments of the model. *)

(** ** This file

    Shared vocabulary of the development: machine-width integers as [Z] with
    their wrap-around written out, bytes, the loop combinators and the small
    amount of automation every component uses. *)

From stdpp Require Import prelude.
From Stdlib Require Import ZArith Lia.

Open Scope Z_scope.

(** ** Machine integers

    A C++ integer of width [w] is a [Z] in range; every operation of the
    source that can leave the range is followed by the truncation the
    conversion of the source performs. *)

Definition u8 (x : Z) : Z := x mod 2 ^ 8.
Definition u32 (x : Z) : Z := x mod 2 ^ 32.
Definition u64 (x : Z) : Z := x mod 2 ^ 64.

(** Two's complement reading of the low [w] bits. *)
Definition swrap (w x : Z) : Z := (x + 2 ^ (w - 1)) mod 2 ^ w - 2 ^ (w - 1).
Definition s32 (x : Z) : Z := swrap 32 x.
Definition s64 (x : Z) : Z := swrap 64 x.

Definition is_u8 (x : Z) : Prop := 0 <= x < 2 ^ 8.
Definition is_u32 (x : Z) : Prop := 0 <= x < 2 ^ 32.
Definition is_u64 (x : Z) : Prop := 0 <= x < 2 ^ 64.
Definition is_s32 (x : Z) : Prop := - 2 ^ 31 <= x < 2 ^ 31.
Definition is_s64 (x : Z) : Prop := - 2 ^ 63 <= x < 2 ^ 63.

Definition INT_MAX : Z := 2147483647.
Definition INT64_MAX : Z := 9223372036854775807.

Create HintDb width discriminated.
Create Rewrite HintDb width.

Lemma u8_range x : is_u8 (u8 x).
Proof. unfold is_u8, u8. apply Z.mod_pos_bound. lia. Qed.

Lemma u32_range x : is_u32 (u32 x).
Proof. unfold is_u32, u32. apply Z.mod_pos_bound. lia. Qed.

Lemma u64_range x : is_u64 (u64 x).
Proof. unfold is_u64, u64. apply Z.mod_pos_bound. lia. Qed.

Lemma u8_id x : is_u8 x -> u8 x = x.
Proof. apply Z.mod_small. Qed.

Lemma u32_id x : is_u32 x -> u32 x = x.
Proof. apply Z.mod_small. Qed.

Lemma u64_id x : is_u64 x -> u64 x = x.
Proof. apply Z.mod_small. Qed.

Lemma swrap_id w x : 0 < w -> - 2 ^ (w - 1) <= x < 2 ^ (w - 1) -> swrap w x = x.
Proof.
  intros Hw Hx. unfold swrap.
  assert (2 ^ w = 2 * 2 ^ (w - 1)) as E.
  { rewrite <- Z.pow_succ_r by lia. f_equal. lia. }
  rewrite Z.mod_small; lia.
Qed.

Lemma s32_id x : is_s32 x -> s32 x = x.
Proof. intros H. apply swrap_id; [lia|exact H]. Qed.

Lemma s64_id x : is_s64 x -> s64 x = x.
Proof. intros H. apply swrap_id; [lia|exact H]. Qed.

#[export] Hint Resolve u8_range u32_range u64_range : width.
#[export] Hint Rewrite u8_id u32_id u64_id s32_id s64_id using (unfold is_u8, is_u32, is_u64, is_s32, is_s64 in *; lia) : width.

(** Truncation to [w] bits as the masks of the source. *)
Lemma land_mask32 x : Z.land x 0xffffffff = x mod 2 ^ 32.
Proof. change 0xffffffff with (Z.ones 32). apply Z.land_ones. lia. Qed.

Lemma land_mask8 x : Z.land x 0xff = x mod 2 ^ 8.
Proof. change 0xff with (Z.ones 8). apply Z.land_ones. lia. Qed.

Lemma shiftr32 x : Z.shiftr x 32 = x / 2 ^ 32.
Proof. apply Z.shiftr_div_pow2. lia. Qed.

#[export] Hint Rewrite land_mask32 land_mask8 shiftr32 : width.

(** ** Bits *)

Lemma testbit_high x n i : 0 <= x < 2 ^ n -> 0 <= n -> n <= i -> Z.testbit x i = false.
Proof.
  intros Hx Hn Hi. destruct (decide (x = 0)) as [->|Hne]; [apply Z.testbit_0_l|].
  apply Z.bits_above_log2; [lia|].
  apply Z.lt_le_trans with n; [|lia]. apply Z.log2_lt_pow2; lia.
Qed.

(** A non-negative number whose bits from [n] on are clear is below [2^n]. *)
Lemma bits_bound x n :
  0 <= x -> 0 <= n -> (forall i, n <= i -> Z.testbit x i = false) -> x < 2 ^ n.
Proof.
  intros Hx Hn Hb. destruct (decide (x = 0)) as [->|Hne]; [lia|].
  apply Z.log2_lt_pow2; [lia|].
  destruct (Z.lt_ge_cases (Z.log2 x) n) as [|Hge]; [done|].
  specialize (Hb _ Hge). rewrite Z.bit_log2 in Hb by lia. done.
Qed.

Lemma testbit_add_low x y n i :
  0 <= x < 2 ^ n -> 0 <= n -> 0 <= i ->
  Z.testbit (x + 2 ^ n * y) i = if i <? n then Z.testbit x i else Z.testbit y (i - n).
Proof.
  intros Hx Hn Hi.
  assert (x + 2 ^ n * y = Z.lor x (Z.shiftl y n)) as ->.
  { rewrite Z.shiftl_mul_pow2 by lia. rewrite (Z.mul_comm y).
    rewrite <- Z.add_lor_land.
    assert (Z.land x (2 ^ n * y) = 0) as ->; [|lia].
    apply Z.bits_inj'; intros j Hj. rewrite Z.land_spec, Z.bits_0.
    rewrite Z.mul_comm, Z.mul_pow2_bits by lia.
    destruct (Z.ltb_spec j n).
    - rewrite (Z.testbit_neg_r y) by lia. apply andb_false_r.
    - rewrite (testbit_high x n j) by lia. done. }
  rewrite Z.lor_spec, Z.shiftl_spec by lia.
  destruct (Z.ltb_spec i n).
  - rewrite (Z.testbit_neg_r y) by lia. apply orb_false_r.
  - rewrite (testbit_high x n i) by lia. done.
Qed.

(** Joining a low part and a shifted high part with [|]. *)
Lemma lor_shiftl_add x y n :
  0 <= x < 2 ^ n -> 0 <= n -> Z.lor x (Z.shiftl y n) = x + 2 ^ n * y.
Proof.
  intros Hx Hn. apply Z.bits_inj'; intros i Hi.
  rewrite testbit_add_low, Z.lor_spec, Z.shiftl_spec by lia.
  destruct (Z.ltb_spec i n).
  - rewrite (Z.testbit_neg_r y) by lia. apply orb_false_r.
  - rewrite (testbit_high x n i) by lia. done.
Qed.

(** ** Loops

    [iter_range f lo n s] is [for (i = lo; i < lo + n; i++) s = f(i, s)]. *)
Fixpoint iter_range {S : Type} (f : Z -> S -> S) (lo : Z) (n : nat) (s : S) : S :=
  match n with
  | O => s
  | Datatypes.S n' => iter_range f (lo + 1) n' (f lo s)
  end.

Lemma iter_range_snoc {S : Type} (f : Z -> S -> S) lo n s :
  iter_range f lo (Datatypes.S n) s = f (lo + Z.of_nat n) (iter_range f lo n s).
Proof.
  revert lo s. induction n as [|n IH]; intros lo s.
  - simpl. f_equal. lia.
  - change (iter_range f lo (Datatypes.S (Datatypes.S n)) s)
      with (iter_range f (lo + 1) (Datatypes.S n) (f lo s)).
    rewrite IH. simpl. f_equal; lia.
Qed.

(** The loop rule: an invariant that every step preserves holds at the end. *)
Lemma iter_range_ind {S : Type} (P : Z -> S -> Prop) (f : Z -> S -> S) lo n s :
  P lo s ->
  (forall i s, lo <= i < lo + Z.of_nat n -> P i s -> P (i + 1) (f i s)) ->
  P (lo + Z.of_nat n) (iter_range f lo n s).
Proof.
  intros H0 Hstep. induction n as [|n IH].
  - simpl. replace (lo + Z.of_nat 0) with lo by lia. done.
  - rewrite iter_range_snoc. replace (lo + Z.of_nat (Datatypes.S n)) with (lo + Z.of_nat n + 1) by lia.
    apply Hstep; [lia|]. apply IH. intros i s' Hi. apply Hstep. lia.
Qed.

(** ** Arrays

    A C++ array read at an index the code keeps in range: the default is
    never read by a well-formed program. *)
Definition aget (l : list Z) (i : Z) : Z := default 0 (l !! Z.to_nat i).
Definition aset (l : list Z) (i x : Z) : list Z := <[Z.to_nat i := x]> l.

Lemma length_aset l i x : length (aset l i x) = length l.
Proof. apply length_insert. Qed.

Lemma aget_aset l i j x :
  0 <= i < Z.of_nat (length l) -> 0 <= j ->
  aget (aset l i x) j = if i =? j then x else aget l j.
Proof.
  intros Hi Hj. unfold aget, aset. destruct (Z.eqb_spec i j) as [->|Hne].
  - rewrite list_lookup_insert_eq by lia. done.
  - rewrite list_lookup_insert_ne by lia. done.
Qed.

Lemma aget_out l i : Z.of_nat (length l) <= i -> aget l i = 0.
Proof. intros H. unfold aget. rewrite lookup_ge_None_2 by lia. done. Qed.

Lemma aget_cons_0 x l : aget (x :: l) 0 = x.
Proof. done. Qed.

Lemma aget_cons_S x l i : 0 < i -> aget (x :: l) i = aget l (i - 1).
Proof.
  intros Hi. unfold aget. replace (Z.to_nat i) with (S (Z.to_nat (i - 1))) by lia. done.
Qed.

Lemma aget_Forall (P : Z -> Prop) l i : P 0 -> Forall P l -> P (aget l i).
Proof.
  intros H0 Hl. unfold aget. destruct (l !! Z.to_nat i) eqn:E; [|done].
  simpl. by eapply Forall_lookup_1.
Qed.

Lemma list_eq_aget (l k : list Z) :
  length l = length k ->
  (forall i, 0 <= i < Z.of_nat (length l) -> aget l i = aget k i) -> l = k.
Proof.
  intros Hlen H. apply (list_eq_same_length _ _ (length l)); [done..|].
  intros i x y Hi Hx Hy. specialize (H (Z.of_nat i)).
  unfold aget in H. rewrite Nat2Z.id, Hx, Hy in H. apply H. lia.
Qed.

(** Evaluate reads at constant positions of explicit arrays. *)
Ltac compute_aget :=
  repeat match goal with
  | |- context [aget ?l ?n] =>
      let v := eval vm_compute in (aget l n) in change (aget l n) with v
  end.

(** [l[i] |= x] *)
Definition aor (l : list Z) (i x : Z) : list Z := aset l i (Z.lor (aget l i) x).

Lemma length_aor l i x : length (aor l i x) = length l.
Proof. apply length_aset. Qed.

Lemma aget_aor l i j x :
  0 <= i -> 0 <= j < Z.of_nat (length l) ->
  aget (aor l i x) j = Z.lor (aget l j) (if i =? j then x else 0).
Proof.
  intros Hi Hj. unfold aor. destruct (Z.lt_ge_cases i (Z.of_nat (length l))).
  - rewrite aget_aset by lia. destruct (Z.eqb_spec i j) as [->|]; [done|].
    by rewrite Z.lor_0_r.
  - unfold aset. rewrite list_insert_ge by lia.
    destruct (Z.eqb_spec i j); [lia|]. by rewrite Z.lor_0_r.
Qed.

(** ** Errors

    [CValidationState::DoS] and the early [return false]s of the source are
    values: a check that fails carries the reject reason. *)
Inductive result (E A : Type) : Type :=
| Ok (a : A)
| Err (e : E).
Arguments Ok {E A} _.
Arguments Err {E A} _.

Definition rbind {E A B : Type} (m : result E A) (f : A -> result E B) : result E B :=
  match m with Ok a => f a | Err e => Err e end.

Declare Scope result_scope.
Delimit Scope result_scope with result.
Notation "'let?' x ':=' c1 'in' c2" := (rbind c1 (fun x => c2))
  (at level 10, x pattern, c1 at level 100, c2 at level 200) : result_scope.

(** [guard c e k]: [if (c) return e; k]. *)
Definition reject_if {E A : Type} (c : bool) (e : E) (k : result E A) : result E A :=
  if c then Err e else k.

Lemma reject_if_Ok {E A : Type} (c : bool) (e : E) (k : result E A) a :
  reject_if c e k = Ok a <-> c = false /\ k = Ok a.
Proof. destruct c; simpl; intuition congruence. Qed.

(** Case analysis on the boolean tests of the source. *)
Ltac bool_cases :=
  repeat match goal with
  | |- context [Z.ltb ?a ?b] => destruct (Z.ltb_spec a b)
  | |- context [Z.leb ?a ?b] => destruct (Z.leb_spec a b)
  | |- context [Z.eqb ?a ?b] => destruct (Z.eqb_spec a b)
  end.

(** ** Bytes in memory *)

(** [memcmp(a, b) < 0] *)
Fixpoint memcmp_lt (a b : list Z) : bool :=
  match a, b with
  | x :: a, y :: b => if x =? y then memcmp_lt a b else x <? y
  | _, _ => false
  end.
Lemma memcmp_lt_irrefl a : memcmp_lt a a = false.
Proof. induction a as [|x a IH]; [done|]. cbn. by rewrite Z.eqb_refl. Qed.

Lemma memcmp_lt_trans a : forall b c, memcmp_lt a b = true -> memcmp_lt b c = true -> memcmp_lt a c = true.
Proof.
  induction a as [|x a IH]; intros [|y b] [|z c]; cbn; try done.
  destruct (Z.eqb_spec x y) as [->|Hxy], (Z.eqb_spec y z) as [->|Hyz]; rewrite ?Z.ltb_lt.
  - apply IH.
  - done.
  - intros ? _. rewrite (proj2 (Z.eqb_neq x z) Hxy). by apply Z.ltb_lt.
  - intros ? ?. rewrite (proj2 (Z.eqb_neq x z)) by lia. apply Z.ltb_lt. lia.
Qed.

Lemma memcmp_lt_total a : forall b, length a = length b -> a = b \/ memcmp_lt a b = true \/ memcmp_lt b a = true.
Proof.
  induction a as [|x a IH]; intros [|y b]; cbn; try done; [by left|]. intros [= Hl].
  destruct (Z.eqb_spec x y) as [->|Hxy].
  - rewrite Z.eqb_refl. destruct (IH b Hl) as [->|]; [by left|by right].
  - rewrite (proj2 (Z.eqb_neq y x)) by lia. right. rewrite !Z.ltb_lt. lia.
Qed.
