(* ===== verification/ArithUint256.v ===== *)
(** [arith_uint256.h], [arith_uint256.cpp]: the unsigned big integers of the
    program, [base_uint<BITS>], as the arrays of 32-bit limbs the code keeps
    (least significant first), with every operator translated loop by loop,
    and the refinement of each operator to arithmetic on [Z] modulo [2^BITS].
    The last part is the "compact" target encoding of block headers. *)

From stdpp Require Import prelude.
From Stdlib Require Import ZArith Lia.
From S2P Require Import Prelude.

Open Scope Z_scope.

(** [uint32_t pn[WIDTH]] *)
Abbreviation base_uint := (list Z).

(** The number an array of limbs stands for, and well-formedness at a width:
    these are the abstraction function and the type invariant. *)
Fixpoint value (pn : base_uint) : Z :=
  match pn with
  | [] => 0
  | x :: r => x + 2 ^ 32 * value r
  end.

Definition limbs_ok (pn : base_uint) : Prop := Forall is_u32 pn.

Definition wf (WIDTH : nat) (pn : base_uint) : Prop :=
  length pn = WIDTH /\ limbs_ok pn.

Definition modulus (WIDTH : nat) : Z := 2 ^ (32 * Z.of_nat WIDTH).

Module BaseUint.
Section Ops.
Variable WIDTH : nat.

(** [base_uint()] *)
Definition zero : base_uint := replicate WIDTH 0.

(** [base_uint(uint64_t b)] and [operator=(uint64_t b)] *)
Definition of_u64 (b : Z) : base_uint :=
  iter_range (fun i pn => aset pn i 0) 2 (WIDTH - 2)
    (aset (aset zero 0 (u32 b)) 1 (u32 (Z.shiftr b 32))).

(** [operator!] *)
Definition op_not (pn : base_uint) : bool :=
  forallb (fun x => x =? 0) pn.

(** [operator~] *)
Definition op_compl (pn : base_uint) : base_uint :=
  map (fun x => u32 (Z.lnot x)) pn.

(** [operator++]: [while (i < WIDTH && ++pn[i] == 0) i++] *)
Fixpoint incr (pn : base_uint) : base_uint :=
  match pn with
  | [] => []
  | x :: r => let x' := u32 (x + 1) in
              if x' =? 0 then x' :: incr r else x' :: r
  end.

(** [operator--]: [while (i < WIDTH && --pn[i] == (uint32_t)-1) i++] *)
Fixpoint decr (pn : base_uint) : base_uint :=
  match pn with
  | [] => []
  | x :: r => let x' := u32 (x - 1) in
              if x' =? u32 (-1) then x' :: decr r else x' :: r
  end.

(** unary [operator-] *)
Definition op_neg (pn : base_uint) : base_uint := incr (op_compl pn).

(** [operator+=]: one 64-bit accumulator carried along the limbs *)
Fixpoint add_loop (carry : Z) (a b : base_uint) : base_uint :=
  match a, b with
  | x :: a', y :: b' =>
      let n := u64 (carry + x + y) in
      Z.land n 0xffffffff :: add_loop (Z.shiftr n 32) a' b'
  | _, _ => a
  end.
Definition add_assign (a b : base_uint) : base_uint := add_loop 0 a b.

(** [operator-=]: [*this += -b] *)
Definition sub_assign (a b : base_uint) : base_uint := add_assign a (op_neg b).

(** [operator*=(uint32_t b32)] *)
Fixpoint mul32_loop (b32 carry : Z) (a : base_uint) : base_uint :=
  match a with
  | [] => []
  | x :: a' =>
      let n := u64 (carry + u64 (b32 * x)) in
      Z.land n 0xffffffff :: mul32_loop b32 (Z.shiftr n 32) a'
  end.
Definition mul32_assign (a : base_uint) (b32 : Z) : base_uint := mul32_loop b32 0 a.

(** [operator*=(const base_uint& b)]: row [j] adds [a.pn[j] * b] at limb [j],
    stopping at the top limb. [b] is here another object than [*this]. *)
Fixpoint mul_row (aj carry : Z) (pn b : base_uint) : base_uint :=
  match pn, b with
  | p :: pn', x :: b' =>
      let n := u64 (carry + p + u64 (aj * x)) in
      Z.land n 0xffffffff :: mul_row aj (Z.shiftr n 32) pn' b'
  | _, _ => pn
  end.
Fixpoint mul_loop (a b pn : base_uint) (j : nat) : base_uint :=
  match a with
  | [] => pn
  | aj :: a' => mul_loop a' b (take j pn ++ mul_row aj 0 (drop j pn) b) (S j)
  end.
Definition mul_assign (a b : base_uint) : base_uint := mul_loop a b zero 0.

(** [x *= x]: [b] is [*this], so that [b.pn[i]] is read from the limbs that
    are being written. *)
Definition mul_self_step (aj : Z) (j i : nat) (s : base_uint * Z) : base_uint * Z :=
  let '(pn, carry) := s in
  let n := u64 (carry + aget pn (Z.of_nat (i + j)) + u64 (aj * aget pn (Z.of_nat i))) in
  (aset pn (Z.of_nat (i + j)) (Z.land n 0xffffffff), Z.shiftr n 32).
Definition mul_self_row (aj : Z) (j : nat) (pn : base_uint) : base_uint :=
  fst (foldl (fun s i => mul_self_step aj j i s) (pn, 0) (seq 0 (WIDTH - j))).
Fixpoint mul_self_loop (a pn : base_uint) (j : nat) : base_uint :=
  match a with
  | [] => pn
  | aj :: a' => mul_self_loop a' (mul_self_row aj j pn) (S j)
  end.
Definition mul_assign_self (a : base_uint) : base_uint := mul_self_loop a zero 0.

(** [operator*(a, b)]: [base_uint(a) *= b] multiplies into a copy, which is
    another object than [b] even where [a] and [b] are one. *)
Definition op_mul (a b : base_uint) : base_uint := mul_assign a b.

(** [operator<<=]: [k] whole limbs and [shift] bits; each source limb lands
    in two target limbs. *)
Definition shl_step (a : base_uint) (k shift i : Z) (pn : base_uint) : base_uint :=
  let pn1 := if (i + k + 1 <? Z.of_nat WIDTH) && negb (shift =? 0)
             then aor pn (i + k + 1) (Z.shiftr (aget a i) (32 - shift)) else pn in
  if i + k <? Z.of_nat WIDTH
  then aor pn1 (i + k) (u32 (Z.shiftl (aget a i) shift)) else pn1.
Definition shl_assign (a : base_uint) (shift : Z) : base_uint :=
  iter_range (shl_step a (shift / 32) (shift mod 32)) 0 WIDTH zero.

(** [operator>>=] *)
Definition shr_step (a : base_uint) (k shift i : Z) (pn : base_uint) : base_uint :=
  let pn1 := if (0 <=? i - k - 1) && negb (shift =? 0)
             then aor pn (i - k - 1) (u32 (Z.shiftl (aget a i) (32 - shift))) else pn in
  if 0 <=? i - k then aor pn1 (i - k) (Z.shiftr (aget a i) shift) else pn1.
Definition shr_assign (a : base_uint) (shift : Z) : base_uint :=
  iter_range (shr_step a (shift / 32) (shift mod 32)) 0 WIDTH zero.

(** [CompareTo]: from the top limb down *)
Fixpoint compare_loop (n : nat) (a b : base_uint) : Z :=
  match n with
  | O => 0
  | S i => if aget a (Z.of_nat i) <? aget b (Z.of_nat i) then -1
           else if aget b (Z.of_nat i) <? aget a (Z.of_nat i) then 1
           else compare_loop i a b
  end.
Definition CompareTo (a b : base_uint) : Z := compare_loop WIDTH a b.
Definition gt (a b : base_uint) : bool := 0 <? CompareTo a b.
Definition ge (a b : base_uint) : bool := 0 <=? CompareTo a b.
Definition lt (a b : base_uint) : bool := CompareTo a b <? 0.

(** [EqualTo(uint64_t b)] *)
Definition EqualTo (a : base_uint) (b : Z) : bool :=
  if forallb (fun x => x =? 0) (drop 2 a)
  then (aget a 1 =? Z.shiftr b 32) && (aget a 0 =? Z.land b 0xffffffff)
  else false.

(** [bits()]: position of the highest set bit, plus one *)
Fixpoint limb_bits (nbits : nat) (x : Z) : Z :=
  match nbits with
  | O => 1
  | S n => if negb (Z.land x (Z.shiftl 1 (Z.of_nat nbits)) =? 0)
           then Z.of_nat nbits + 1 else limb_bits n x
  end.
Fixpoint bits_loop (n : nat) (a : base_uint) : Z :=
  match n with
  | O => 0
  | S pos => if negb (aget a (Z.of_nat pos) =? 0)
             then 32 * Z.of_nat pos + limb_bits 31 (aget a (Z.of_nat pos))
             else bits_loop pos a
  end.
Definition bits (a : base_uint) : Z := bits_loop WIDTH a.

(** [operator/=]: shift-and-subtract; [None] is the [uint_error] of a zero
    divisor. The loop runs from [shift] down to [0]. *)
Fixpoint div_loop (n : nat) (num div quo : base_uint) : base_uint * base_uint :=
  match n with
  | O => (quo, num)
  | S n' =>
      let shift := Z.of_nat n' in
      let '(num', quo') :=
        if ge num div
        then (sub_assign num div,
              aor quo (shift / 32) (u32 (Z.shiftl 1 (Z.land shift 31))))
        else (num, quo) in
      div_loop n' num' (shr_assign div 1) quo'
  end.
Definition div_assign (a b : base_uint) : option base_uint :=
  let num_bits := bits a in
  let div_bits := bits b in
  if div_bits =? 0 then None
  else if num_bits <? div_bits then Some zero
  else let shift := num_bits - div_bits in
       Some (fst (div_loop (Z.to_nat (shift + 1)) a (shl_assign b shift) zero)).

(** [GetLow64] *)
Definition GetLow64 (a : base_uint) : Z :=
  Z.lor (aget a 0) (Z.shiftl (aget a 1) 32).
End Ops.
End BaseUint.

(** ** The abstraction function *)

Section ValueFacts.
Implicit Types (pn a b : base_uint) (i n : Z).

Lemma modulus_pos W : 0 < modulus W.
Proof. unfold modulus. lia. Qed.

Lemma modulus_S W : modulus (S W) = 2 ^ 32 * modulus W.
Proof. unfold modulus. rewrite <- Z.pow_add_r by lia. f_equal. lia. Qed.

Lemma modulus_add V W : modulus (V + W) = modulus V * modulus W.
Proof. unfold modulus. rewrite <- Z.pow_add_r by lia. f_equal. lia. Qed.

Lemma value_range pn : limbs_ok pn -> 0 <= value pn < modulus (length pn).
Proof.
  induction 1 as [|x pn Hx _ IH]; [done|].
  simpl value. simpl length. rewrite modulus_S. unfold is_u32 in Hx. nia.
Qed.

Lemma value_app a b : value (a ++ b) = value a + modulus (length a) * value b.
Proof.
  induction a as [|x a IH].
  - change (value ([] ++ b)) with (value b). unfold modulus. simpl. destruct (value b); done.
  - simpl value. simpl length. rewrite modulus_S, IH. ring.
Qed.

Lemma value_zero W : value (replicate W 0) = 0.
Proof. induction W as [|W IH]; [done|]. simpl value. rewrite IH. done. Qed.

Lemma limbs_ok_aget pn i : limbs_ok pn -> is_u32 (aget pn i).
Proof. apply aget_Forall. unfold is_u32. lia. Qed.

Lemma testbit_value pn i :
  limbs_ok pn -> 0 <= i ->
  Z.testbit (value pn) i = Z.testbit (aget pn (i / 32)) (i mod 32).
Proof.
  intros Hpn. revert i. induction Hpn as [|x pn Hx Hpn IH]; intros i Hi.
  - unfold aget. rewrite lookup_nil. simpl. by rewrite !Z.testbit_0_l.
  - simpl value. rewrite testbit_add_low by (unfold is_u32 in Hx; lia).
    destruct (Z.ltb_spec i 32) as [Hlt|Hge].
    + rewrite Z.div_small, Z.mod_small by lia. done.
    + rewrite IH by lia. rewrite aget_cons_S by (Z.div_mod_to_equations; lia).
      f_equal; [f_equal|]; Z.div_mod_to_equations; lia.
Qed.

Lemma value_inj a b :
  limbs_ok a -> limbs_ok b -> length a = length b -> value a = value b -> a = b.
Proof.
  intros Ha. revert b. induction Ha as [|x a Hx Ha IH]; intros b Hb Hlen Hv;
    destruct Hb as [|y b Hy Hb]; try done.
  simpl in Hlen, Hv. unfold is_u32 in *.
  assert (x = y) as -> by lia. f_equal. apply IH; [done|lia|lia].
Qed.

Lemma wf_range W pn : wf W pn -> 0 <= value pn < modulus W.
Proof. intros [<- H]. by apply value_range. Qed.

(** The step of every carry loop: one limb out, the carry into the rest. *)
Lemma carry_step n z B M :
  0 < B -> 0 < M -> (n + B * z) mod (B * M) = n mod B + B * ((n / B + z) mod M).
Proof.
  intros HB HM. rewrite Z.rem_mul_r by lia. rewrite (Z.mul_comm B z).
  rewrite Z.mod_add, Z.div_add by lia. done.
Qed.

Lemma value_take_S pn (n : nat) :
  (n < length pn)%nat ->
  value (take (S n) pn) = value (take n pn) + modulus n * aget pn (Z.of_nat n).
Proof.
  intros Hn. destruct (lookup_lt_is_Some_2 pn n Hn) as [x Hx].
  rewrite (take_S_r _ _ _ Hx), value_app. unfold aget. rewrite Nat2Z.id, Hx.
  rewrite length_take_le by lia. simpl. ring.
Qed.

Lemma limbs_ok_take pn (n : nat) : limbs_ok pn -> limbs_ok (take n pn).
Proof. apply Forall_take. Qed.

Lemma value_take_range pn (n : nat) :
  limbs_ok pn -> (n <= length pn)%nat -> 0 <= value (take n pn) < modulus n.
Proof.
  intros H Hn. rewrite <- (length_take_le pn n) at 3 by lia.
  by apply value_range, limbs_ok_take.
Qed.

Lemma limbs_ok_aset pn i x : limbs_ok pn -> is_u32 x -> limbs_ok (aset pn i x).
Proof. intros H Hx. by apply Forall_insert. Qed.

Lemma wf_aset W pn i x : wf W pn -> is_u32 x -> wf W (aset pn i x).
Proof. intros [Hl Ho] Hx. split; [by rewrite length_aset|by apply limbs_ok_aset]. Qed.

Lemma wf_replicate W : wf W (replicate W 0).
Proof.
  split; [apply length_replicate|]. apply Forall_replicate. unfold is_u32. lia.
Qed.
End ValueFacts.

Create HintDb uint discriminated.
#[export] Hint Resolve wf_aset wf_replicate u32_range : uint.

Module BaseUintFacts.
Import BaseUint.
Implicit Types (pn a b : base_uint).

Ltac u32_unfold := unfold limbs_ok, is_u32, u32, u64 in *.

(** *** Addition, negation, subtraction *)

Lemma add_loop_spec carry a b :
  0 <= carry <= 1 -> limbs_ok a -> limbs_ok b -> length a = length b ->
  wf (length a) (add_loop carry a b) /\
  value (add_loop carry a b) = (carry + value a + value b) mod modulus (length a).
Proof.
  intros Hc Ha. revert carry b Hc. induction Ha as [|x a Hx Ha IH];
    intros carry b Hc Hb Hlen; destruct Hb as [|y b Hy Hb]; try done.
  - simpl. rewrite Z.mod_1_r. repeat constructor.
  - simpl add_loop. u32_unfold. simpl in Hlen.
    rewrite (Z.mod_small (carry + x + y)) by lia. rewrite land_mask32, shiftr32.
    destruct (IH ((carry + x + y) / 2 ^ 32) b) as [[Hl Ho] Hv];
      [Z.div_mod_to_equations; lia|done|lia|].
    split; [split|].
    + simpl. lia.
    + constructor; [apply Z.mod_pos_bound; lia|done].
    + simpl value. simpl length. rewrite Hv, modulus_S.
      rewrite <- (Z.add_assoc ((carry + x + y) / 2 ^ 32)).
      rewrite <- carry_step by (pose proof (modulus_pos (length a)); lia).
      f_equal. ring.
Qed.

Lemma add_assign_spec W a b :
  wf W a -> wf W b ->
  wf W (add_assign a b) /\ value (add_assign a b) = (value a + value b) mod modulus W.
Proof.
  intros [<- Ha] [Hl Hb]. apply (add_loop_spec 0); [lia|done..].
Qed.

Lemma incr_spec pn :
  limbs_ok pn ->
  wf (length pn) (incr pn) /\ value (incr pn) = (value pn + 1) mod modulus (length pn).
Proof.
  induction 1 as [|x pn Hx Hpn [[Hl Ho] Hv]].
  - simpl. rewrite Z.mod_1_r. repeat constructor.
  - simpl incr. pose proof (value_range _ Hpn) as Hr. pose proof (modulus_pos (length pn)).
    destruct (Z.eqb_spec (u32 (x + 1)) 0) as [E|E]; simpl length; rewrite modulus_S.
    + u32_unfold. assert (x = 2 ^ 32 - 1) as -> by (Z.div_mod_to_equations; lia).
      split; [split; simpl; [lia|constructor; [apply Z.mod_pos_bound; lia|done]]|].
      simpl value. rewrite Hv. rewrite E.
      replace (2 ^ 32 - 1 + 2 ^ 32 * value pn + 1) with (2 ^ 32 * (value pn + 1)) by ring.
      rewrite Z.mul_mod_distr_l by lia. done.
    + u32_unfold. assert (x + 1 < 2 ^ 32) by (Z.div_mod_to_equations; lia).
      rewrite (Z.mod_small (x + 1)) by lia.
      split; [split; simpl; [done|constructor; [unfold is_u32; lia|done]]|].
      simpl value. rewrite Z.mod_small by nia. ring.
Qed.

Lemma decr_spec pn :
  limbs_ok pn ->
  wf (length pn) (decr pn) /\ value (decr pn) = (value pn - 1) mod modulus (length pn).
Proof.
  induction 1 as [|x pn Hx Hpn [[Hl Ho] Hv]].
  - simpl. rewrite Z.mod_1_r. repeat constructor.
  - simpl decr. pose proof (value_range _ Hpn) as Hr. pose proof (modulus_pos (length pn)).
    destruct (Z.eqb_spec (u32 (x - 1)) (u32 (-1))) as [E|E]; simpl length; rewrite modulus_S.
    + u32_unfold. change (-1 mod 2 ^ 32) with (2 ^ 32 - 1) in E.
      assert (x = 0) as -> by (Z.div_mod_to_equations; lia).
      split; [split; simpl; [lia|constructor; [apply Z.mod_pos_bound; lia|done]]|].
      simpl value. rewrite Hv, E.
      replace (0 + 2 ^ 32 * value pn - 1) with ((2 ^ 32 - 1) + 2 ^ 32 * (value pn - 1)) by ring.
      rewrite carry_step by lia. rewrite (Z.mod_small (2 ^ 32 - 1)), (Z.div_small (2 ^ 32 - 1)) by lia. done.
    + u32_unfold. change (-1 mod 2 ^ 32) with (2 ^ 32 - 1) in E.
      assert (1 <= x) by (Z.div_mod_to_equations; lia).
      rewrite (Z.mod_small (x - 1)) by lia.
      split; [split; simpl; [done|constructor; [unfold is_u32; lia|done]]|].
      simpl value. rewrite Z.mod_small by nia. ring.
Qed.

Lemma op_compl_spec W pn :
  wf W pn -> wf W (op_compl pn) /\ value (op_compl pn) = modulus W - 1 - value pn.
Proof.
  intros [<- H]. induction H as [|x pn Hx Hpn [[Hl Ho] Hv]].
  - repeat constructor.
  - simpl op_compl. u32_unfold.
    assert (Z.lnot x mod 2 ^ 32 = 2 ^ 32 - 1 - x) as E.
    { unfold Z.lnot. Z.div_mod_to_equations. lia. }
    split; [split|].
    + simpl. by rewrite Hl.
    + constructor; [apply Z.mod_pos_bound; lia|done].
    + simpl value. simpl length. rewrite modulus_S, E, Hv. ring.
Qed.

Lemma op_neg_spec W pn :
  wf W pn -> wf W (op_neg pn) /\ value (op_neg pn) = (- value pn) mod modulus W.
Proof.
  intros H. destruct (op_compl_spec _ _ H) as [[Hl Ho] Hv].
  destruct (incr_spec _ Ho) as [Hw Hi]. rewrite Hl in Hw, Hi.
  split; [done|]. unfold op_neg. rewrite Hi, Hv.
  replace (modulus W - 1 - value pn + 1) with (- value pn + 1 * modulus W) by ring.
  apply Z.mod_add. pose proof (modulus_pos W). lia.
Qed.

Lemma sub_assign_spec W a b :
  wf W a -> wf W b ->
  wf W (sub_assign a b) /\ value (sub_assign a b) = (value a - value b) mod modulus W.
Proof.
  intros Ha Hb. destruct (op_neg_spec _ _ Hb) as [Hn Hv].
  destruct (add_assign_spec _ _ _ Ha Hn) as [Hw Hs].
  split; [done|]. unfold sub_assign. rewrite Hs, Hv.
  rewrite Z.add_mod_idemp_r by (pose proof (modulus_pos W); lia). f_equal.
Qed.

(** *** Multiplication *)

Lemma mul32_loop_spec (b32 carry : Z) a :
  is_u32 b32 -> is_u32 carry -> limbs_ok a ->
  wf (length a) (mul32_loop b32 carry a) /\
  value (mul32_loop b32 carry a) = (carry + b32 * value a) mod modulus (length a).
Proof.
  intros Hb Hc Ha. revert carry Hc. induction Ha as [|x a Hx Ha IH]; intros carry Hc.
  - simpl. rewrite Z.mod_1_r. repeat constructor.
  - simpl mul32_loop. u32_unfold.
    rewrite (Z.mod_small (b32 * x)) by nia.
    rewrite (Z.mod_small (carry + b32 * x)) by nia. rewrite land_mask32, shiftr32.
    destruct (IH ((carry + b32 * x) / 2 ^ 32)) as [[Hl Ho] Hv].
    { split; [apply Z.div_pos; nia|apply Z.div_lt_upper_bound; nia]. }
    split; [split|].
    + simpl. lia.
    + constructor; [apply Z.mod_pos_bound; lia|done].
    + simpl value. simpl length. rewrite Hv, modulus_S.
      rewrite <- carry_step by (pose proof (modulus_pos (length a)); lia).
      f_equal. ring.
Qed.

Lemma mul32_assign_spec W a (b32 : Z) :
  wf W a -> is_u32 b32 ->
  wf W (mul32_assign a b32) /\ value (mul32_assign a b32) = (value a * b32) mod modulus W.
Proof.
  intros [<- Ha] Hb. destruct (mul32_loop_spec b32 0 a) as [Hw Hv]; [done|by unfold is_u32; lia|done|].
  split; [done|]. unfold mul32_assign. rewrite Hv. f_equal. ring.
Qed.

Lemma mul_row_spec aj carry pn b :
  is_u32 aj -> is_u32 carry -> limbs_ok pn -> limbs_ok b -> (length pn <= length b)%nat ->
  wf (length pn) (mul_row aj carry pn b) /\
  value (mul_row aj carry pn b) = (carry + value pn + aj * value b) mod modulus (length pn).
Proof.
  intros Haj Hc Hpn. revert carry b Hc. induction Hpn as [|p pn Hp Hpn IH];
    intros carry b Hc Hb Hlen.
  - simpl. rewrite Z.mod_1_r. repeat constructor.
  - destruct Hb as [|x b Hx Hb]; [simpl in Hlen; lia|].
    simpl mul_row. simpl in Hlen. u32_unfold.
    rewrite (Z.mod_small (aj * x)) by nia.
    rewrite (Z.mod_small (carry + p + aj * x)) by nia. rewrite land_mask32, shiftr32.
    destruct (IH ((carry + p + aj * x) / 2 ^ 32) b) as [[Hl Ho] Hv];
      [split; [apply Z.div_pos; nia|apply Z.div_lt_upper_bound; nia]|done|lia|].
    split; [split|].
    + simpl. lia.
    + constructor; [apply Z.mod_pos_bound; lia|done].
    + simpl value. simpl length. rewrite Hv, modulus_S.
      rewrite <- (Z.add_assoc ((carry + p + aj * x) / 2 ^ 32)).
      rewrite <- carry_step by (pose proof (modulus_pos (length pn)); lia).
      f_equal. ring.
Qed.

(** One row of the schoolbook product, at its offset. *)
Lemma mul_step_spec W aj b pn (j : nat) :
  is_u32 aj -> wf W b -> wf W pn -> (j <= W)%nat ->
  wf W (take j pn ++ mul_row aj 0 (drop j pn) b) /\
  value (take j pn ++ mul_row aj 0 (drop j pn) b)
    = (value pn + modulus j * (aj * value b)) mod modulus W.
Proof.
  intros Haj [Hbl Hb] [Hpl Hp] Hj.
  destruct (mul_row_spec aj 0 (drop j pn) b) as [[Hl Ho] Hv];
    [done|by unfold is_u32; lia|by apply Forall_drop|done|rewrite length_drop; lia|].
  split; [split|].
  - rewrite length_app, Hl, length_take_le, length_drop; lia.
  - apply Forall_app. split; [by apply Forall_take|done].
  - rewrite value_app, Hv, length_take_le, length_drop by lia.
    assert (value pn = value (take j pn) + modulus j * value (drop j pn)) as ->.
    { rewrite <- (take_drop j pn) at 1. rewrite value_app, length_take_le by lia. done. }
    rewrite Hpl. replace (modulus W) with (modulus j * modulus (W - j))
      by (rewrite <- modulus_add; f_equal; lia).
    pose proof (modulus_pos j). pose proof (modulus_pos (W - j)).
    pose proof (value_take_range pn j Hp ltac:(lia)) as Hr.
    replace (value (take j pn) + modulus j * value (drop j pn) + modulus j * (aj * value b))
      with (value (take j pn) + modulus j * (value (drop j pn) + aj * value b)) by ring.
    rewrite carry_step by lia. rewrite (Z.mod_small (value _)), (Z.div_small (value _)) by lia.
    done.
Qed.

Lemma mul_loop_spec W a b pn (j : nat) :
  limbs_ok a -> wf W b -> wf W pn -> (j + length a = W)%nat ->
  wf W (mul_loop a b pn j) /\
  value (mul_loop a b pn j) = (value pn + modulus j * (value a * value b)) mod modulus W.
Proof.
  intros Ha Hb. revert pn j. induction Ha as [|aj a Haj Ha IH]; intros pn j Hpn Hj.
  - simpl. rewrite Z.mul_0_r, Z.add_0_r. rewrite Z.mod_small by (by apply wf_range). done.
  - simpl in Hj. destruct (mul_step_spec W aj b pn j) as [Hw Hv]; [done..|lia|].
    destruct (IH _ (S j) Hw) as [Hw' Hv']; [lia|].
    split; [done|]. simpl mul_loop. rewrite Hv', Hv.
    rewrite Z.add_mod_idemp_l by (pose proof (modulus_pos W); lia).
    f_equal. rewrite modulus_S. simpl value. ring.
Qed.

Lemma mul_assign_spec W a b :
  wf W a -> wf W b ->
  wf W (mul_assign W a b) /\ value (mul_assign W a b) = (value a * value b) mod modulus W.
Proof.
  intros [Hl Ha] Hb. unfold mul_assign, zero.
  destruct (mul_loop_spec W a b (replicate W 0) 0) as [Hw Hv]; [done..|apply wf_replicate|lia|].
  split; [done|]. rewrite Hv, value_zero. change (modulus 0) with 1. f_equal. ring.
Qed.

(** Multiplied into itself, a number is read as the zero that is written over it
    first. *)
Lemma aget_zero W i : aget (zero W) i = 0.
Proof.
  unfold aget, zero. destruct (_ !! _) as [x|] eqn:E; [|done].
  by apply lookup_replicate in E as [-> _].
Qed.

Lemma aset_zero W i : aset (zero W) i 0 = zero W.
Proof.
  unfold aset, zero. apply list_insert_id'. intros Hlt. rewrite length_replicate in Hlt. by apply lookup_replicate_2.
Qed.

Lemma mul_self_row_zero W aj j : mul_self_row W aj j (zero W) = zero W.
Proof.
  unfold mul_self_row. assert (forall l, foldl (fun s i => mul_self_step aj j i s) (zero W, 0) l = (zero W, 0)) as ->; [|done].
  induction l as [|i l IH]; [done|]. cbn [foldl]. unfold mul_self_step at 2.
  rewrite !aget_zero, Z.mul_0_r. change (u64 (0 + 0 + u64 0)) with 0. change (Z.land 0 0xffffffff) with 0.
  change (Z.shiftr 0 32) with 0. by rewrite aset_zero.
Qed.

Lemma mul_assign_self_zero W a : mul_assign_self W a = zero W.
Proof.
  unfold mul_assign_self. generalize 0%nat as j. induction a as [|aj a IH]; intros j; [done|].
  cbn [mul_self_loop]. by rewrite mul_self_row_zero.
Qed.

(** *** Shifts *)

Lemma lor_u32 x y : is_u32 x -> is_u32 y -> is_u32 (Z.lor x y).
Proof.
  unfold is_u32. intros Hx Hy. split; [apply Z.lor_nonneg; lia|].
  apply bits_bound; [apply Z.lor_nonneg; lia|lia|]. intros i Hi.
  rewrite Z.lor_spec, (testbit_high x 32 i), (testbit_high y 32 i) by lia. done.
Qed.

Lemma shiftr_u32 x n : is_u32 x -> 0 <= n -> is_u32 (Z.shiftr x n).
Proof.
  unfold is_u32. intros Hx Hn. rewrite Z.shiftr_div_pow2 by lia.
  split; [apply Z.div_pos; lia|]. apply Z.div_lt_upper_bound; [lia|]. nia.
Qed.

Lemma wf_aor W pn i x : wf W pn -> is_u32 x -> wf W (aor pn i x).
Proof.
  intros Hw Hx. apply wf_aset; [done|]. apply lor_u32; [|done].
  apply limbs_ok_aget. by destruct Hw.
Qed.

#[local] Hint Resolve lor_u32 shiftr_u32 limbs_ok_aget wf_aor : uint.

(** The guarded [|=] of the shift loops: a write outside the array is skipped. *)
Lemma aor_if_spec W (c : bool) pn i x :
  wf W pn -> is_u32 x -> 0 <= i \/ c = false ->
  wf W (if c then aor pn i x else pn) /\
  forall t, 0 <= t < Z.of_nat W ->
    aget (if c then aor pn i x else pn) t = Z.lor (aget pn t) (if c && (i =? t) then x else 0).
Proof.
  intros Hw Hx Hi. destruct c; [|split; [done|]; intros; by rewrite Z.lor_0_r].
  destruct Hi as [Hi|]; [|done]. split; [eauto with uint|].
  intros t Ht. apply aget_aor; [done|]. destruct Hw. lia.
Qed.

(** Bit [n] of the loop's array after the source limbs below [i]: the source
    bit that the shift moves there, if its limb has been processed. *)
Definition shifted (a : base_uint) (shift i n : Z) : bool :=
  (0 <=? n - shift) && (n - shift <? 32 * i) && Z.testbit (value a) (n - shift).

Definition shift_inv (W : nat) (a : base_uint) (shift i : Z) (pn : base_uint) : Prop :=
  wf W pn /\ forall n, 0 <= n < 32 * Z.of_nat W -> Z.testbit (value pn) n = shifted a shift i n.

Lemma shifted_S a shift i n :
  limbs_ok a -> 0 <= i ->
  shifted a shift (i + 1) n = shifted a shift i n
    || (((n - shift) / 32 =? i) && Z.testbit (aget a i) ((n - shift) mod 32)).
Proof.
  intros Ha Hi. unfold shifted. remember (n - shift) as m eqn:E; clear E.
  destruct (Z.leb_spec 0 m) as [Hm|Hm]; cbn [andb].
  2: { destruct (Z.eqb_spec (m / 32) i); [Z.div_mod_to_equations; lia|done]. }
  destruct (Z.ltb_spec m (32 * (i + 1))), (Z.ltb_spec m (32 * i)),
    (Z.eqb_spec (m / 32) i) as [E|E]; cbn [andb orb]; try (Z.div_mod_to_equations; lia).
  - by rewrite orb_false_r.
  - subst i. by apply testbit_value.
Qed.

(** One iteration of a shift loop adds exactly the bits of source limb [i]. *)
Lemma shift_inv_step W a shift i pn pn' :
  limbs_ok a -> 0 <= i -> shift_inv W a shift i pn -> wf W pn' ->
  (forall q r, 0 <= q < Z.of_nat W -> 0 <= r < 32 ->
     Z.testbit (aget pn' q) r = Z.testbit (aget pn q) r
       || (((32 * q + r - shift) / 32 =? i)
            && Z.testbit (aget a i) ((32 * q + r - shift) mod 32))) ->
  shift_inv W a shift (i + 1) pn'.
Proof.
  intros Ha Hi [Hw Hb] Hw' Hstep. split; [done|]. intros n Hn.
  rewrite shifted_S, <- Hb by done.
  rewrite !testbit_value by (done || (by destruct Hw) || (by destruct Hw') || lia).
  rewrite Hstep by (Z.div_mod_to_equations; lia).
  replace (32 * (n / 32) + n mod 32) with n by (Z.div_mod_to_equations; lia). done.
Qed.

Lemma shl_step_inv W a k s i pn :
  limbs_ok a -> 0 <= k -> 0 <= s < 32 -> 0 <= i ->
  shift_inv W a (32 * k + s) i pn ->
  shift_inv W a (32 * k + s) (i + 1) (shl_step W a k s i pn).
Proof.
  intros Ha Hk Hs Hi Hinv. pose proof Hinv as [Hw _].
  pose proof (limbs_ok_aget a i Ha) as Hx.
  unfold shl_step.
  destruct (aor_if_spec W ((i + k + 1 <? Z.of_nat W) && negb (s =? 0)) pn (i + k + 1)
    (Z.shiftr (aget a i) (32 - s))) as [Hw1 Hg1]; [done|apply shiftr_u32; [done|lia]|lia|].
  revert Hw1 Hg1. generalize (if (i + k + 1 <? Z.of_nat W) && negb (s =? 0)
    then aor pn (i + k + 1) (Z.shiftr (aget a i) (32 - s)) else pn). intros pn1 Hw1 Hg1.
  destruct (aor_if_spec W (i + k <? Z.of_nat W) pn1 (i + k)
    (u32 (Z.shiftl (aget a i) s))) as [Hw2 Hg2]; [done|apply u32_range|lia|].
  apply (shift_inv_step W a _ i pn); [done..|].
  intros q r Hq Hr. rewrite Hg2, Hg1, !Z.lor_spec by done. rewrite <- orb_assoc. f_equal.
  unfold is_u32 in Hx.
  destruct (Z.eqb_spec (i + k + 1) q) as [<-|Hne1].
  - destruct (Z.eqb_spec (i + k) (i + k + 1)); [lia|]. rewrite andb_false_r, Z.testbit_0_l, orb_false_r.
    destruct (Z.ltb_spec (i + k + 1) (Z.of_nat W)); [|lia]. cbn [andb]. rewrite andb_true_r.
    destruct (Z.eqb_spec ((32 * (i + k + 1) + r - (32 * k + s)) / 32) i) as [E|E]; cbn [andb].
    + destruct (Z.eqb_spec s 0); [Z.div_mod_to_equations; lia|]. cbn [negb].
      rewrite Z.shiftr_spec by lia. f_equal. Z.div_mod_to_equations; lia.
    + destruct (negb (s =? 0)); [|apply Z.testbit_0_l]. rewrite Z.shiftr_spec by lia.
      apply (testbit_high _ 32); [lia..|]. Z.div_mod_to_equations; lia.
  - rewrite andb_false_r, Z.testbit_0_l. cbn [orb].
    destruct (Z.eqb_spec (i + k) q) as [<-|Hne2].
    + destruct (Z.ltb_spec (i + k) (Z.of_nat W)); [|lia]. cbn [andb].
      unfold u32. rewrite Z.mod_pow2_bits_low, Z.shiftl_spec by lia.
      destruct (Z.eqb_spec ((32 * (i + k) + r - (32 * k + s)) / 32) i) as [E|E]; cbn [andb].
      * f_equal. Z.div_mod_to_equations; lia.
      * apply Z.testbit_neg_r. Z.div_mod_to_equations; lia.
    + rewrite andb_false_r, Z.testbit_0_l.
      destruct (Z.eqb_spec ((32 * q + r - (32 * k + s)) / 32) i); [Z.div_mod_to_equations; lia|done].
Qed.

Lemma shr_step_inv W a k s i pn :
  limbs_ok a -> 0 <= k -> 0 <= s < 32 -> 0 <= i ->
  shift_inv W a (- (32 * k + s)) i pn ->
  shift_inv W a (- (32 * k + s)) (i + 1) (shr_step a k s i pn).
Proof.
  intros Ha Hk Hs Hi Hinv. pose proof Hinv as [Hw _].
  pose proof (limbs_ok_aget a i Ha) as Hx.
  unfold shr_step.
  destruct (aor_if_spec W ((0 <=? i - k - 1) && negb (s =? 0)) pn (i - k - 1)
    (u32 (Z.shiftl (aget a i) (32 - s)))) as [Hw1 Hg1];
    [done|apply u32_range|bool_cases; auto|].
  revert Hw1 Hg1. generalize (if (0 <=? i - k - 1) && negb (s =? 0)
    then aor pn (i - k - 1) (u32 (Z.shiftl (aget a i) (32 - s))) else pn). intros pn1 Hw1 Hg1.
  destruct (aor_if_spec W (0 <=? i - k) pn1 (i - k) (Z.shiftr (aget a i) s)) as [Hw2 Hg2];
    [done|apply shiftr_u32; [done|lia]|bool_cases; auto|].
  apply (shift_inv_step W a _ i pn); [done..|].
  intros q r Hq Hr. rewrite Hg2, Hg1, !Z.lor_spec by done. rewrite <- orb_assoc. f_equal.
  unfold is_u32 in Hx.
  destruct (Z.eqb_spec (i - k - 1) q) as [<-|Hne1].
  - destruct (Z.eqb_spec (i - k) (i - k - 1)); [lia|]. rewrite andb_false_r, Z.testbit_0_l, orb_false_r.
    destruct (Z.leb_spec 0 (i - k - 1)); [|lia]. cbn [andb]. rewrite andb_true_r.
    destruct (Z.eqb_spec ((32 * (i - k - 1) + r - - (32 * k + s)) / 32) i) as [E|E]; cbn [andb].
    + destruct (Z.eqb_spec s 0); [Z.div_mod_to_equations; lia|]. cbn [negb].
      unfold u32. rewrite Z.mod_pow2_bits_low, Z.shiftl_spec by lia. f_equal. Z.div_mod_to_equations; lia.
    + destruct (negb (s =? 0)); [|apply Z.testbit_0_l].
      unfold u32. rewrite Z.mod_pow2_bits_low, Z.shiftl_spec by lia.
      apply Z.testbit_neg_r. Z.div_mod_to_equations; lia.
  - rewrite andb_false_r, Z.testbit_0_l. cbn [orb].
    destruct (Z.eqb_spec (i - k) q) as [<-|Hne2].
    + destruct (Z.leb_spec 0 (i - k)); [|lia]. cbn [andb]. rewrite Z.shiftr_spec by lia.
      destruct (Z.eqb_spec ((32 * (i - k) + r - - (32 * k + s)) / 32) i) as [E|E]; cbn [andb].
      * f_equal. Z.div_mod_to_equations; lia.
      * apply (testbit_high _ 32); [lia..|]. Z.div_mod_to_equations; lia.
    + rewrite andb_false_r, Z.testbit_0_l.
      destruct (Z.eqb_spec ((32 * q + r - - (32 * k + s)) / 32) i); [Z.div_mod_to_equations; lia|done].
Qed.

Lemma shift_inv_zero W a shift : shift_inv W a shift 0 (zero W).
Proof.
  split; [apply wf_replicate|]. intros n Hn. unfold zero, shifted.
  rewrite value_zero, Z.testbit_0_l.
  destruct (Z.leb_spec 0 (n - shift)), (Z.ltb_spec (n - shift) (32 * 0)); done || lia.
Qed.

Lemma shift_inv_value W a shift pn :
  wf W a -> shift_inv W a shift (Z.of_nat W) pn ->
  value pn = Z.shiftl (value a) shift mod modulus W.
Proof.
  intros Ha [Hw Hb]. pose proof (wf_range _ _ Ha) as Hr.
  pose proof (wf_range _ _ Hw) as Hp. unfold modulus in *.
  apply Z.bits_inj'; intros n Hn.
  destruct (Z.lt_ge_cases n (32 * Z.of_nat W)) as [Hlt|Hge].
  - rewrite Hb, Z.mod_pow2_bits_low, Z.shiftl_spec by lia. unfold shifted.
    destruct (Z.leb_spec 0 (n - shift)); cbn [andb]; [|symmetry; apply Z.testbit_neg_r; lia].
    destruct (Z.ltb_spec (n - shift) (32 * Z.of_nat W)); [done|].
    symmetry. apply (testbit_high _ (32 * Z.of_nat W)); lia.
  - rewrite Z.mod_pow2_bits_high by lia. apply (testbit_high _ (32 * Z.of_nat W)); lia.
Qed.

(** [<<=] multiplies by a power of two, dropping what leaves the width. *)
Lemma shl_assign_spec W a shift :
  wf W a -> 0 <= shift ->
  wf W (shl_assign W a shift) /\
  value (shl_assign W a shift) = (value a * 2 ^ shift) mod modulus W.
Proof.
  intros Ha Hs.
  assert (shift_inv W a shift (Z.of_nat W) (shl_assign W a shift)) as Hi.
  { apply (iter_range_ind (shift_inv W a shift) _ 0 W); [apply shift_inv_zero|].
    intros i pn Hi HP. replace shift with (32 * (shift / 32) + shift mod 32) in HP |- * at 1
      by (Z.div_mod_to_equations; lia).
    apply shl_step_inv; [by destruct Ha|Z.div_mod_to_equations; lia..|lia|done]. }
  split; [by destruct Hi|]. rewrite <- Z.shiftl_mul_pow2 by done. by apply shift_inv_value.
Qed.

(** [>>=] divides by a power of two, rounding down. *)
Lemma shr_assign_spec W a shift :
  wf W a -> 0 <= shift ->
  wf W (shr_assign W a shift) /\ value (shr_assign W a shift) = value a / 2 ^ shift.
Proof.
  intros Ha Hs. pose proof (wf_range _ _ Ha) as Hr.
  assert (shift_inv W a (- shift) (Z.of_nat W) (shr_assign W a shift)) as Hi.
  { apply (iter_range_ind (shift_inv W a (- shift)) _ 0 W); [apply shift_inv_zero|].
    intros i pn Hi HP. replace shift with (32 * (shift / 32) + shift mod 32) in HP |- * at 1
      by (Z.div_mod_to_equations; lia).
    apply shr_step_inv; [by destruct Ha|Z.div_mod_to_equations; lia..|lia|done]. }
  split; [by destruct Hi|]. rewrite (shift_inv_value W a (- shift)) by done.
  rewrite <- Z.shiftr_opp_r, Z.opp_involutive, Z.shiftr_div_pow2 by done.
  apply Z.mod_small. split; [apply Z.div_pos; lia|].
  apply Z.div_lt_upper_bound; [lia|]. nia.
Qed.

(** *** Comparison *)

Lemma compare_loop_spec (n : nat) a b :
  limbs_ok a -> limbs_ok b -> (n <= length a)%nat -> (n <= length b)%nat ->
  compare_loop n a b = Z.sgn (value (take n a) - value (take n b)).
Proof.
  intros Ha Hb. induction n as [|n IH]; intros Hla Hlb; [done|].
  cbn [compare_loop]. rewrite !value_take_S by lia.
  pose proof (value_take_range a n Ha ltac:(lia)). pose proof (value_take_range b n Hb ltac:(lia)).
  destruct (Z.ltb_spec (aget a (Z.of_nat n)) (aget b (Z.of_nat n))); [symmetry; apply Z.sgn_neg; nia|].
  destruct (Z.ltb_spec (aget b (Z.of_nat n)) (aget a (Z.of_nat n))); [symmetry; apply Z.sgn_pos; nia|].
  rewrite IH by lia. f_equal.
  replace (aget a (Z.of_nat n)) with (aget b (Z.of_nat n)) by lia. ring.
Qed.

Lemma CompareTo_spec W a b :
  wf W a -> wf W b -> CompareTo W a b = Z.sgn (value a - value b).
Proof.
  intros [Hla Ha] [Hlb Hb]. unfold CompareTo. rewrite compare_loop_spec by (done || lia).
  rewrite !firstn_all2 by lia. done.
Qed.

Lemma gt_spec W a b : wf W a -> wf W b -> gt W a b = (value b <? value a).
Proof.
  intros Ha Hb. unfold gt. rewrite (CompareTo_spec W) by done.
  destruct (Z.ltb_spec (value b) (value a)); [rewrite Z.sgn_pos by lia; done|].
  destruct (Z.ltb_spec 0 (Z.sgn (value a - value b))); [|done].
  apply Z.sgn_pos_iff in H0. lia.
Qed.

Lemma ge_spec W a b : wf W a -> wf W b -> ge W a b = (value b <=? value a).
Proof.
  intros Ha Hb. unfold ge. rewrite (CompareTo_spec W) by done.
  destruct (Z.leb_spec (value b) (value a)).
  - destruct (Z.leb_spec 0 (Z.sgn (value a - value b))); [done|]. apply Z.sgn_neg_iff in H0. lia.
  - rewrite Z.sgn_neg by lia. done.
Qed.

Lemma lt_spec W a b : wf W a -> wf W b -> lt W a b = (value a <? value b).
Proof.
  intros Ha Hb. unfold lt. rewrite (CompareTo_spec W) by done.
  destruct (Z.ltb_spec (value a) (value b)); [rewrite Z.sgn_neg by lia; done|].
  destruct (Z.ltb_spec (Z.sgn (value a - value b)) 0) as [E|]; [|done].
  apply Z.sgn_neg_iff in E. lia.
Qed.

Lemma zeros_value pn : limbs_ok pn -> forallb (fun x => x =? 0) pn = (value pn =? 0).
Proof.
  induction 1 as [|x pn Hx Hpn IH]; [done|]. cbn [forallb value]. rewrite IH.
  pose proof (value_range _ Hpn). unfold is_u32 in Hx. bool_cases; lia || done.
Qed.

Lemma op_not_spec pn : limbs_ok pn -> op_not pn = (value pn =? 0).
Proof. apply zeros_value. Qed.

(** *** Words of 64 bits *)

Lemma two_limbs pn :
  (2 <= length pn)%nat -> limbs_ok pn ->
  value pn = aget pn 0 + 2 ^ 32 * aget pn 1 + 2 ^ 64 * value (drop 2 pn).
Proof.
  intros Hl _. destruct pn as [|x [|y pn]]; simpl in Hl; try lia.
  change (aget (x :: y :: pn) 0) with x. change (aget (x :: y :: pn) 1) with y.
  cbn [value]. change (drop 2 (x :: y :: pn)) with pn. change (2 ^ 64) with (2 ^ 32 * 2 ^ 32). ring.
Qed.

Lemma of_u64_eq W (b : Z) :
  (2 <= W)%nat -> of_u64 W b = u32 b :: u32 (Z.shiftr b 32) :: replicate (W - 2) 0.
Proof.
  intros HW. unfold of_u64, zero. destruct W as [|[|W]]; [lia..|].
  replace (S (S W) - 2)%nat with W by lia.
  change (aset (aset (replicate (S (S W)) 0) 0 (u32 b)) 1 (u32 (Z.shiftr b 32)))
    with (u32 b :: u32 (Z.shiftr b 32) :: replicate W 0).
  assert (forall n (pn : base_uint) lo, 2 <= lo -> pn = u32 b :: u32 (Z.shiftr b 32) :: replicate W 0 ->
    iter_range (fun i pn => aset pn i 0) lo n pn = pn) as Hloop; [|by apply Hloop].
  induction n as [|n IH]; intros pn lo Hlo ->; [done|]. cbn [iter_range].
  assert (aset (u32 b :: u32 (Z.shiftr b 32) :: replicate W 0) lo 0
    = u32 b :: u32 (Z.shiftr b 32) :: replicate W 0) as ->.
  { unfold aset. replace (Z.to_nat lo) with (S (S (Z.to_nat (lo - 2)))) by lia.
    simpl. do 2 f_equal. apply insert_replicate. }
  apply IH; [lia|done].
Qed.

Lemma of_u64_spec W (b : Z) :
  (2 <= W)%nat -> is_u64 b -> wf W (of_u64 W b) /\ value (of_u64 W b) = b.
Proof.
  intros HW Hb. rewrite of_u64_eq by done. split; [split|].
  - simpl. rewrite length_replicate. lia.
  - constructor; [apply u32_range|]. constructor; [apply u32_range|]. apply wf_replicate.
  - cbn [value]. rewrite value_zero, shiftr32. unfold u32, is_u64 in *.
    Z.div_mod_to_equations. lia.
Qed.

Lemma GetLow64_spec pn :
  (2 <= length pn)%nat -> limbs_ok pn -> GetLow64 pn = value pn mod 2 ^ 64.
Proof.
  intros Hl Ho. rewrite two_limbs by done. unfold GetLow64.
  pose proof (limbs_ok_aget pn 0 Ho). pose proof (limbs_ok_aget pn 1 Ho). unfold is_u32 in *.
  rewrite (Z.mul_comm (2 ^ 64)), Z.mod_add by lia. rewrite Z.mod_small by lia.
  apply Z.bits_inj'; intros n Hn. rewrite Z.lor_spec, Z.shiftl_spec by lia.
  rewrite testbit_add_low by lia. destruct (Z.ltb_spec n 32).
  - rewrite (Z.testbit_neg_r _ (n - 32)) by lia. apply orb_false_r.
  - rewrite (testbit_high _ 32 n) by lia. done.
Qed.

Lemma EqualTo_spec pn (b : Z) :
  (2 <= length pn)%nat -> limbs_ok pn -> is_u64 b -> EqualTo pn b = (value pn =? b).
Proof.
  intros Hl Ho Hb. unfold EqualTo. rewrite zeros_value by (by apply Forall_drop).
  rewrite (two_limbs pn) by done. rewrite land_mask32, shiftr32.
  pose proof (value_range _ (Forall_drop _ 2 _ Ho)).
  pose proof (limbs_ok_aget pn 0 Ho). pose proof (limbs_ok_aget pn 1 Ho). unfold is_u32, is_u64 in *.
  destruct (Z.eqb_spec (value (drop 2 pn)) 0) as [->|];
    bool_cases; cbn [andb]; try done; Z.div_mod_to_equations; lia.
Qed.

(** *** Bit length *)

(** Position of the highest set bit plus one, as a function on numbers. *)
Definition bit_length (x : Z) : Z := if x =? 0 then 0 else Z.log2 x + 1.

Lemma land_pow2 x m : 0 <= m -> (Z.land x (Z.shiftl 1 m) =? 0) = negb (Z.testbit x m).
Proof.
  intros Hm. destruct (Z.testbit x m) eqn:E; cbn [negb].
  - apply Z.eqb_neq. intros H. apply (f_equal (fun y => Z.testbit y m)) in H.
    rewrite Z.land_spec, Z.shiftl_spec, E, Z.sub_diag, Z.testbit_0_l in H by lia. done.
  - apply Z.eqb_eq. apply Z.bits_inj'; intros i Hi.
    rewrite Z.land_spec, Z.shiftl_spec, Z.testbit_0_l by lia.
    destruct (decide (i = m)) as [->|Hne]; [by rewrite E|].
    destruct (Z.lt_ge_cases i m); [rewrite (Z.testbit_neg_r 1) by lia; apply andb_false_r|].
    rewrite (testbit_high 1 1) by lia. apply andb_false_r.
Qed.

Lemma limb_bits_spec (n : nat) x :
  0 < x < 2 ^ (Z.of_nat n + 1) -> limb_bits n x = Z.log2 x + 1.
Proof.
  induction n as [|n IH]; intros Hx.
  - assert (x = 1) as -> by (simpl in Hx; lia). done.
  - cbn [limb_bits]. rewrite land_pow2 by lia. rewrite negb_involutive.
    destruct (Z.testbit x (Z.of_nat (S n))) eqn:E.
    + rewrite (Z.log2_unique x (Z.of_nat (S n))); [done|lia|].
      split; [|unfold Z.succ; lia].
      destruct (Z.lt_ge_cases x (2 ^ Z.of_nat (S n))); [|done].
      rewrite (testbit_high x (Z.of_nat (S n))) in E by lia. done.
    + apply IH. split; [lia|]. apply bits_bound; [lia..|]. intros i Hi.
      destruct (decide (i = Z.of_nat (S n))) as [->|]; [done|].
      apply (testbit_high _ (Z.of_nat (S n) + 1)); lia.
Qed.

Lemma bits_loop_spec (n : nat) a :
  limbs_ok a -> (n <= length a)%nat -> bits_loop n a = bit_length (value (take n a)).
Proof.
  intros Ha. induction n as [|n IH]; intros Hl; [done|].
  cbn [bits_loop]. rewrite value_take_S by lia.
  pose proof (value_take_range a n Ha ltac:(lia)) as Hr. pose proof (modulus_pos n) as Hm.
  pose proof (limbs_ok_aget a (Z.of_nat n) Ha) as Hx. unfold is_u32 in Hx.
  destruct (Z.eqb_spec (aget a (Z.of_nat n)) 0) as [->|Hne]; cbn [negb].
  { rewrite IH by lia. f_equal. ring. }
  rewrite limb_bits_spec by (simpl; lia). unfold bit_length.
  destruct (Z.eqb_spec (value (take n a) + modulus n * aget a (Z.of_nat n)) 0); [nia|].
  rewrite (Z.log2_unique (_ + _) (32 * Z.of_nat n + Z.log2 (aget a (Z.of_nat n)))); [lia| |].
  - pose proof (Z.log2_nonneg (aget a (Z.of_nat n))). lia.
  - pose proof (Z.log2_spec (aget a (Z.of_nat n)) ltac:(lia)) as [Hlo Hhi].
    pose proof (Z.log2_nonneg (aget a (Z.of_nat n))).
    rewrite <- Z.add_succ_r, !Z.pow_add_r by lia. fold (modulus n). nia.
Qed.

Lemma bits_spec W a : wf W a -> bits W a = bit_length (value a).
Proof.
  intros [Hl Ha]. unfold bits. rewrite bits_loop_spec by (done || lia).
  rewrite firstn_all2 by lia. done.
Qed.

Lemma bit_length_bounds x :
  0 < x -> 0 < bit_length x /\ 2 ^ (bit_length x - 1) <= x < 2 ^ bit_length x.
Proof.
  intros Hx. unfold bit_length. destruct (Z.eqb_spec x 0); [lia|].
  pose proof (Z.log2_nonneg x). pose proof (Z.log2_spec x Hx).
  rewrite Z.add_simpl_r, <- Z.add_1_r in *. lia.
Qed.

(** *** Division *)

(** Setting a clear bit adds the corresponding power of two. *)
Lemma set_bit_spec W quo m s :
  wf W quo -> 0 <= s < 32 * Z.of_nat W -> value quo = 2 ^ (s + 1) * m ->
  let quo' := aor quo (s / 32) (u32 (Z.shiftl 1 (Z.land s 31))) in
  wf W quo' /\ value quo' = value quo + 2 ^ s.
Proof.
  intros Hw Hs Hq quo'.
  assert (Z.land s 31 = s mod 32) as Hl by (change 31 with (Z.ones 5); by rewrite Z.land_ones by lia).
  assert (wf W quo') as Hw' by (apply wf_aor; [done|apply u32_range]).
  split; [done|].
  assert (value quo' = Z.lor (2 ^ s) (value quo)) as ->.
  { apply Z.bits_inj'; intros i Hi. rewrite Z.lor_spec, !testbit_value by (done || (by destruct Hw) || (by destruct Hw')).
    destruct (Z.lt_ge_cases i (32 * Z.of_nat W)) as [Hlt|Hge].
    2: { rewrite !aget_out by (destruct Hw, Hw'; Z.div_mod_to_equations; lia).
         rewrite Z.pow2_bits_false by lia. done. }
    unfold quo'. rewrite aget_aor, Z.lor_spec by (destruct Hw; Z.div_mod_to_equations; lia).
    rewrite orb_comm. f_equal. rewrite Hl.
    destruct (decide (i = s)) as [->|Hne].
    - rewrite Z.eqb_refl, Z.pow2_bits_true by lia. unfold u32.
      rewrite Z.mod_pow2_bits_low, Z.shiftl_spec, Z.sub_diag by (Z.div_mod_to_equations; lia). done.
    - rewrite Z.pow2_bits_false by lia. destruct (Z.eqb_spec (s / 32) (i / 32)); [|apply Z.testbit_0_l].
      unfold u32. rewrite Z.mod_pow2_bits_low, Z.shiftl_mul_pow2, Z.mul_1_l by (Z.div_mod_to_equations; lia).
      apply Z.pow2_bits_false. Z.div_mod_to_equations; lia. }
  rewrite Hq, (Z.add_comm (_ * _)). apply Z.bits_inj'; intros i Hi.
  rewrite testbit_add_low by (rewrite ?Z.pow_add_r by lia; lia).
  rewrite Z.lor_spec. rewrite (Z.mul_comm (2 ^ (s + 1))), Z.mul_pow2_bits by lia.
  destruct (Z.ltb_spec i (s + 1)).
  - rewrite (Z.testbit_neg_r m) by lia. apply orb_false_r.
  - rewrite Z.pow2_bits_false by lia. done.
Qed.

(** The division loop with [n] iterations to go: [num] is what is left to
    divide, [quo] the quotient bits from position [n] up. *)
Lemma div_loop_spec W (b : Z) (n : nat) num div quo (a : Z) :
  wf W num -> wf W div -> wf W quo -> 0 < b ->
  value div = b * 2 ^ (Z.of_nat n - 1) \/ n = O ->
  value num < b * 2 ^ Z.of_nat n ->
  (exists m, value quo = 2 ^ Z.of_nat n * m) ->
  a = value quo * b + value num -> Z.of_nat n <= 32 * Z.of_nat W ->
  let '(q, r) := div_loop W n num div quo in
  wf W q /\ wf W r /\ value q = a / b /\ value r = a mod b.
Proof.
  intros Hnum Hdiv Hquo Hb. revert num div quo Hnum Hdiv Hquo.
  induction n as [|n IH]; intros num div quo Hnum Hdiv Hquo Hd Hlt [m Hm] Ha Hn.
  { cbn [div_loop]. pose proof (wf_range _ _ Hnum). split; [done|]. split; [done|].
    simpl in Hlt. split; [apply Z.div_unique with (value num)|apply Z.mod_unique with (value quo)]; lia. }
  destruct Hd as [Hd|]; [|done]. replace (Z.of_nat (S n) - 1) with (Z.of_nat n) in Hd by lia.
  replace (Z.of_nat (S n)) with (Z.of_nat n + 1) in Hm, Hlt by lia.
  cbn [div_loop]. rewrite (ge_spec W) by done.
  destruct (shr_assign_spec W div 1 Hdiv ltac:(lia)) as [Hs Hsv].
  assert (value (shr_assign W div 1) = b * 2 ^ (Z.of_nat n - 1) \/ n = O) as Hd'.
  { destruct n as [|n']; [by right|left]. rewrite Hsv, Hd.
    replace (Z.of_nat (S n')) with (Z.of_nat (S n') - 1 + 1) at 1 by lia.
    rewrite Z.pow_add_r, Z.mul_assoc, Z.div_mul by lia. done. }
  pose proof (wf_range _ _ Hnum). pose proof (wf_range _ _ Hdiv).
  rewrite Z.pow_add_r in Hlt by lia. change (2 ^ 1) with 2 in Hlt.
  destruct (Z.leb_spec (value div) (value num)) as [Hge|Hl].
  - destruct (sub_assign_spec W num div Hnum Hdiv) as [Hsub Hsubv].
    rewrite Z.mod_small in Hsubv by lia.
    destruct (set_bit_spec W quo m (Z.of_nat n) Hquo ltac:(lia) Hm) as [Hq Hqv].
    apply IH; [done..|lia| |rewrite Hqv, Hsubv; nia|lia].
    exists (2 * m + 1). rewrite Hqv, Hm, Z.pow_add_r by lia. change (2 ^ 1) with 2. ring.
  - apply IH; [done..|lia| |done|lia].
    exists (2 * m). rewrite Hm, Z.pow_add_r by lia. change (2 ^ 1) with 2. ring.
Qed.

Lemma bit_length_lt x y : 0 <= x -> 0 < y -> bit_length x < bit_length y -> x < y.
Proof.
  intros Hx Hy Hlt. destruct (decide (x = 0)) as [->|]; [lia|].
  destruct (bit_length_bounds x) as [_ Hbx]; [lia|].
  destruct (bit_length_bounds y) as [_ Hby]; [lia|].
  assert (2 ^ bit_length x <= 2 ^ (bit_length y - 1)) by (apply Z.pow_le_mono_r; lia). lia.
Qed.

Lemma bit_length_width W x : 0 < x < modulus W -> bit_length x <= 32 * Z.of_nat W.
Proof.
  intros Hx. destruct (bit_length_bounds x) as [_ Hb]; [lia|].
  destruct (Z.lt_ge_cases (bit_length x - 1) (32 * Z.of_nat W)) as [|H]; [lia|].
  apply (Z.pow_le_mono_r 2) in H; [|lia]. unfold modulus in Hx. lia.
Qed.

(** Aligning the divisor under the dividend never drops bits of the divisor. *)
Lemma align_fits x y :
  0 < x -> 0 < y -> bit_length y <= bit_length x ->
  let shift := bit_length x - bit_length y in
  y * 2 ^ shift < 2 ^ bit_length x /\ x < y * 2 ^ (shift + 1).
Proof.
  intros Hx Hy Hle shift. destruct (bit_length_bounds x) as [Hnx Hbx]; [lia|].
  destruct (bit_length_bounds y) as [Hny Hby]; [lia|].
  assert (2 ^ bit_length x = 2 ^ bit_length y * 2 ^ shift) as E1
    by (rewrite <- Z.pow_add_r by lia; f_equal; lia).
  assert (2 ^ bit_length x = 2 ^ (bit_length y - 1) * 2 ^ (shift + 1)) as E2
    by (rewrite <- Z.pow_add_r by lia; f_equal; lia).
  assert (0 < 2 ^ shift) by lia. assert (0 < 2 ^ (shift + 1)) by lia. nia.
Qed.

(** Long division: the quotient of the numbers, and an error exactly on a
    zero divisor. *)
Lemma div_assign_spec W a b :
  wf W a -> wf W b ->
  match div_assign W a b with
  | None => value b = 0
  | Some q => value b <> 0 /\ wf W q /\ value q = value a / value b
  end.
Proof.
  intros Ha Hb. pose proof (wf_range _ _ Ha) as Hra. pose proof (wf_range _ _ Hb) as Hrb.
  unfold div_assign. rewrite !(bits_spec W) by done.
  destruct (Z.eqb_spec (bit_length (value b)) 0) as [E|E].
  { unfold bit_length in E. destruct (Z.eqb_spec (value b) 0); [done|].
    pose proof (Z.log2_nonneg (value b)). lia. }
  assert (value b <> 0) as Hb0 by (intros H; rewrite H in E; done).
  destruct (bit_length_bounds (value b)) as [Hnb _]; [lia|].
  destruct (Z.ltb_spec (bit_length (value a)) (bit_length (value b))) as [Hlt|Hge].
  { split; [done|]. split; [apply wf_replicate|]. unfold zero. rewrite value_zero.
    symmetry. apply Z.div_small. split; [lia|]. apply bit_length_lt; lia. }
  assert (0 < value a) as Ha0.
  { destruct (decide (value a = 0)) as [H|]; [|lia]. rewrite H in Hge.
    change (bit_length 0) with 0 in Hge. lia. }
  destruct (align_fits (value a) (value b)) as [Hfit Hlt]; [lia..|].
  pose proof (bit_length_width W (value a) ltac:(lia)) as HlW.
  remember (bit_length (value a) - bit_length (value b)) as shift eqn:Es.
  assert (2 ^ bit_length (value a) <= modulus W) by (apply Z.pow_le_mono_r; lia).
  destruct (shl_assign_spec W b shift Hb ltac:(lia)) as [Hs Hsv].
  rewrite Z.mod_small in Hsv by nia. split; [done|].
  pose proof (div_loop_spec W (value b) (Z.to_nat (shift + 1)) a (shl_assign W b shift) (zero W)
    (value a) Ha Hs (wf_replicate W) ltac:(lia)) as Hloop.
  rewrite !Z2Nat.id in Hloop by lia.
  destruct (div_loop W (Z.to_nat (shift + 1)) a (shl_assign W b shift) (zero W)) as [q r].
  destruct Hloop as (Hq & _ & Hqv & _); [|done| | |lia|done].
  - left. rewrite Hsv. do 2 f_equal. lia.
  - exists 0. unfold zero. rewrite value_zero. ring.
  - unfold zero. rewrite value_zero. ring.
Qed.
End BaseUintFacts.

(** ** Properties *)

(** C22. On arrays of any width, the operators [+=], [-=], [*=] (by another
    number and by a 32-bit word), [*], unary [-], [~], [++], [--], [<<=] and
    [>>=] keep the limbs in range and compute the corresponding operation on the
    numbers modulo [2^BITS].  The exception is [x *= x]: [*=] writes zero over [*this]
    before it reads its argument, so a number multiplied into itself is
    zero. *)
Theorem arith_ring_refinement (W : nat) (a b : base_uint) (b32 shift : Z) :
  wf W a -> wf W b -> is_u32 b32 -> 0 <= shift ->
  (wf W (BaseUint.add_assign a b)
    /\ value (BaseUint.add_assign a b) = (value a + value b) mod modulus W) /\
  (wf W (BaseUint.sub_assign a b)
    /\ value (BaseUint.sub_assign a b) = (value a - value b) mod modulus W) /\
  (wf W (BaseUint.mul_assign W a b)
    /\ value (BaseUint.mul_assign W a b) = (value a * value b) mod modulus W) /\
  (wf W (BaseUint.op_mul W a b)
    /\ value (BaseUint.op_mul W a b) = (value a * value b) mod modulus W) /\
  (wf W (BaseUint.mul_assign_self W a) /\ value (BaseUint.mul_assign_self W a) = 0) /\
  (wf W (BaseUint.mul32_assign a b32)
    /\ value (BaseUint.mul32_assign a b32) = (value a * b32) mod modulus W) /\
  (wf W (BaseUint.op_neg a) /\ value (BaseUint.op_neg a) = (- value a) mod modulus W) /\
  (wf W (BaseUint.op_compl a) /\ value (BaseUint.op_compl a) = modulus W - 1 - value a) /\
  (wf W (BaseUint.incr a) /\ value (BaseUint.incr a) = (value a + 1) mod modulus W) /\
  (wf W (BaseUint.decr a) /\ value (BaseUint.decr a) = (value a - 1) mod modulus W) /\
  (wf W (BaseUint.shl_assign W a shift)
    /\ value (BaseUint.shl_assign W a shift) = (value a * 2 ^ shift) mod modulus W) /\
  (wf W (BaseUint.shr_assign W a shift)
    /\ value (BaseUint.shr_assign W a shift) = value a / 2 ^ shift).
Proof.
  intros Ha Hb H32 Hs.
  split; [by apply BaseUintFacts.add_assign_spec|].
  split; [by apply BaseUintFacts.sub_assign_spec|].
  split; [by apply BaseUintFacts.mul_assign_spec|].
  split; [by apply BaseUintFacts.mul_assign_spec|].
  split; [rewrite BaseUintFacts.mul_assign_self_zero; split; [apply wf_replicate|apply value_zero]|].
  split; [by apply BaseUintFacts.mul32_assign_spec|].
  split; [by apply BaseUintFacts.op_neg_spec|].
  split; [by apply BaseUintFacts.op_compl_spec|].
  split; [destruct Ha as [<- Ho]; by apply BaseUintFacts.incr_spec|].
  split; [destruct Ha as [<- Ho]; by apply BaseUintFacts.decr_spec|].
  split; [by apply BaseUintFacts.shl_assign_spec|].
  by apply BaseUintFacts.shr_assign_spec.
Qed.

Lemma arith_ring_refinement_witness :
  wf 2 [5; 7] /\ wf 2 (BaseUint.add_assign [5; 7] [4294967295; 1]) /\
  BaseUint.op_mul 2 [5; 0] [5; 0] = [25; 0] /\ BaseUint.mul_assign_self 2 [5; 0] = [0; 0].
Proof.
  assert (wf 2 [5; 7] /\ wf 2 [4294967295; 1]) as [Ha Hb]
    by (repeat constructor; unfold is_u32; lia).
  split; [exact Ha|]. split; [|by split; vm_compute].
  exact (proj1 (proj1 (arith_ring_refinement 2 [5; 7] [4294967295; 1] 3 5
    Ha Hb ltac:(unfold is_u32; lia) ltac:(lia)))).
Defined.

(** C36. [operator/=] throws exactly when the divisor is zero, and otherwise
    returns a well-formed array holding the integer quotient.  The divisor is copied
    before [*this] is set to zero, so dividing a number by itself is no exception. *)
Theorem arith_division (W : nat) (a b : base_uint) :
  wf W a -> wf W b ->
  (BaseUint.div_assign W a b = None <-> value b = 0) /\
  (value b <> 0 -> exists q, BaseUint.div_assign W a b = Some q
     /\ wf W q /\ value q = value a / value b).
Proof.
  intros Ha Hb. pose proof (BaseUintFacts.div_assign_spec W a b Ha Hb) as H.
  destruct (BaseUint.div_assign W a b) as [q|].
  - destruct H as (Hb0 & Hq & Hv). split; [split; done|]. eauto.
  - split; [done|]. congruence.
Qed.

Lemma arith_division_witness :
  exists q, BaseUint.div_assign 2 [7; 100] [3; 0] = Some q /\ wf 2 q
            /\ value q = value [7; 100] / value [3; 0].
Proof.
  assert (wf 2 [7; 100] /\ wf 2 [3; 0]) as [Ha Hb]
    by (repeat constructor; unfold is_u32; lia).
  apply (proj2 (arith_division 2 [7; 100] [3; 0] Ha Hb)). discriminate.
Defined.

(** [CompareTo] orders arrays as the numbers they stand for, [EqualTo]
    compares with a 64-bit word, and [bits()] is the position of the highest
    set bit plus one. *)
Theorem arith_order (W : nat) (a b : base_uint) (w : Z) :
  (2 <= W)%nat -> wf W a -> wf W b -> is_u64 w ->
  BaseUint.CompareTo W a b = Z.sgn (value a - value b) /\
  BaseUint.EqualTo a w = (value a =? w) /\
  (value a = 0 -> BaseUint.bits W a = 0) /\
  (value a <> 0 ->
     2 ^ (BaseUint.bits W a - 1) <= value a < 2 ^ BaseUint.bits W a).
Proof.
  intros HW Ha Hb Hw. pose proof (wf_range _ _ Ha). pose proof Ha as [Hl Ho].
  split; [by apply BaseUintFacts.CompareTo_spec|].
  split; [apply BaseUintFacts.EqualTo_spec; by rewrite ?Hl|].
  rewrite (BaseUintFacts.bits_spec W) by done.
  split; [by intros ->|]. intros Hne. apply BaseUintFacts.bit_length_bounds. lia.
Qed.

Lemma arith_order_witness :
  BaseUint.CompareTo 2 [7; 100] [3; 100] = Z.sgn (value [7; 100] - value [3; 100]).
Proof.
  assert (wf 2 [7; 100] /\ wf 2 [3; 100]) as [Ha Hb]
    by (repeat constructor; unfold is_u32; lia).
  exact (proj1 (arith_order 2 [7; 100] [3; 100] 9 ltac:(lia) Ha Hb ltac:(unfold is_u64; lia))).
Defined.
