(* ===== verification/Compact.v ===== *)
(** [arith_uint256.cpp], the class [arith_uint256] over [base_uint<256>]: the
    compact ("nBits") encoding of targets, [SetCompact] and [GetCompact], and
    the conversion to and from the byte blob [uint256]. *)

From stdpp Require Import prelude.
From Stdlib Require Import ZArith Lia.
From S2P Require Import Prelude ArithUint256.

Open Scope Z_scope.

Import BaseUint BaseUintFacts.

(** [WIDTH] of [base_uint<256>]. *)
Definition W256 : nat := 8.

Definition wf256 (a : base_uint) : Prop := wf W256 a.

(** What [SetCompact] writes: [*this], [*pfNegative], [*pfOverflow]. *)
Record compact_result := {
  target : base_uint;
  fNegative : bool;
  fOverflow : bool
}.

Definition SetCompact (nCompact : Z) : compact_result :=
  let nSize := Z.shiftr nCompact 24 in
  let nWord := Z.land nCompact 0x007fffff in
  let nWord' := if nSize <=? 3 then Z.shiftr nWord (8 * (3 - nSize)) else nWord in
  {| target := if nSize <=? 3 then of_u64 W256 nWord'
               else shl_assign W256 (of_u64 W256 nWord) (8 * (nSize - 3));
     fNegative := negb (nWord' =? 0) && negb (Z.land nCompact 0x00800000 =? 0);
     fOverflow := negb (nWord' =? 0)
                  && ((34 <? nSize) || ((0xff <? nWord') && (33 <? nSize))
                      || ((0xffff <? nWord') && (32 <? nSize))) |}.

(** [GetCompact(fNegative)]; [None] is a failed assertion. *)
Definition GetCompact (a : base_uint) (neg : bool) : option Z :=
  let nSize := (bits W256 a + 7) / 8 in
  let nCompact :=
    if nSize <=? 3 then u32 (u64 (Z.shiftl (GetLow64 a) (8 * (3 - nSize))))
    else u32 (GetLow64 (shr_assign W256 a (8 * (nSize - 3)))) in
  let '(nCompact, nSize) :=
    if negb (Z.land nCompact 0x00800000 =? 0)
    then (Z.shiftr nCompact 8, nSize + 1) else (nCompact, nSize) in
  if negb (Z.land nCompact (u32 (Z.lnot 0x007fffff)) =? 0) then None
  else if negb (nSize <? 256) then None
  else
    let nCompact := Z.lor nCompact (u32 (Z.shiftl nSize 24)) in
    Some (Z.lor nCompact
            (if neg && negb (Z.land nCompact 0x007fffff =? 0) then 0x00800000 else 0)).

(** ** uint256 blobs *)

(** [ReadLE32] at a byte offset. *)
Definition ReadLE32 (bs : list Z) (off : Z) : Z :=
  aget bs off + 2 ^ 8 * aget bs (off + 1) + 2 ^ 16 * aget bs (off + 2) + 2 ^ 24 * aget bs (off + 3).

(** [WriteLE32]: the four bytes of a word. *)
Definition WriteLE32 (x : Z) : list Z :=
  [u8 x; u8 (Z.shiftr x 8); u8 (Z.shiftr x 16); u8 (Z.shiftr x 24)].

(** The loops write disjoint, consecutive words. *)
Definition UintToArith256 (b : list Z) : base_uint :=
  map (fun x => ReadLE32 b (4 * Z.of_nat x)) (seq 0 W256).

Definition ArithToUint256 (a : base_uint) : list Z :=
  flat_map (fun x => WriteLE32 (aget a (Z.of_nat x))) (seq 0 W256).

(** The number a blob stands for, least significant byte first. *)
Fixpoint le_bytes (bs : list Z) : Z :=
  match bs with
  | [] => 0
  | b :: r => b + 2 ^ 8 * le_bytes r
  end.

Definition blob256 (b : list Z) : Prop := length b = 32%nat /\ Forall is_u8 b.

Lemma le_bytes_word b0 b1 b2 b3 (r : list Z) :
  le_bytes (b0 :: b1 :: b2 :: b3 :: r)
  = (b0 + 2 ^ 8 * b1 + 2 ^ 16 * b2 + 2 ^ 24 * b3) + 2 ^ 32 * le_bytes r.
Proof. cbn [le_bytes]. ring. Qed.

Lemma ReadLE32_range bs off : Forall is_u8 bs -> is_u32 (ReadLE32 bs off).
Proof.
  intros H. assert (forall i, is_u8 (aget bs i)) as Hg
    by (intros i; apply aget_Forall; [unfold is_u8; lia|done]).
  unfold ReadLE32, is_u32. pose proof (Hg off). pose proof (Hg (off + 1)).
  pose proof (Hg (off + 2)). pose proof (Hg (off + 3)). unfold is_u8 in *. lia.
Qed.

Lemma UintToArith256_spec b :
  blob256 b -> wf256 (UintToArith256 b) /\ value (UintToArith256 b) = le_bytes b.
Proof.
  intros [Hl Hb]. split.
  { split; [done|]. apply List.Forall_map, List.Forall_forall. intros x _. by apply ReadLE32_range. }
  do 32 (destruct b as [|? b]; [discriminate|]). destruct b; [|discriminate]. clear Hl.
  rewrite !le_bytes_word. cbn [le_bytes].
  cbv [UintToArith256 W256 seq map ReadLE32]. cbn [value]. compute_aget. ring.
Qed.

Lemma WriteLE32_value x :
  is_u32 x ->
  u8 x + 2 ^ 8 * u8 (Z.shiftr x 8) + 2 ^ 16 * u8 (Z.shiftr x 16) + 2 ^ 24 * u8 (Z.shiftr x 24) = x.
Proof.
  unfold is_u32. intros Hx. unfold u8. rewrite !Z.shiftr_div_pow2 by lia.
  Z.div_mod_to_equations. lia.
Qed.

Lemma ArithToUint256_spec a :
  wf256 a -> blob256 (ArithToUint256 a) /\ le_bytes (ArithToUint256 a) = value a.
Proof.
  intros [Hl Ha]. split.
  { split; [done|]. apply List.Forall_flat_map, List.Forall_forall. intros x _.
    repeat constructor; apply u8_range. }
  unfold W256 in Hl. do 8 (destruct a as [|? a]; [discriminate|]). destruct a; [|discriminate].
  cbv [ArithToUint256 W256 seq flat_map WriteLE32]. cbn [app]. rewrite !le_bytes_word.
  rewrite !WriteLE32_value by (by apply limbs_ok_aget).
  cbn [le_bytes value]. compute_aget. ring.
Qed.

(** ** The encoding on numbers *)

(** Exponent byte and mantissa of the encoding of [x]: the mantissa keeps
    the top bit of its three bytes clear for the sign. *)
Definition compact_exp (x : Z) : Z := if x =? 0 then 0 else bit_length x / 8 + 1.

Definition scale256 (x k : Z) : Z :=
  if 0 <=? k then x * 2 ^ (8 * k) else x / 2 ^ (8 * - k).

Definition compact_encode (x : Z) : Z :=
  scale256 x (3 - compact_exp x) + 2 ^ 24 * compact_exp x.

Definition compact_decode (c : Z) : Z :=
  scale256 (c mod 2 ^ 23) (c / 2 ^ 24 - 3) mod modulus W256.

Lemma scale256_nonneg x k : 0 <= x -> 0 <= scale256 x k.
Proof.
  intros Hx. unfold scale256. destruct (Z.leb_spec 0 k); [lia|]. apply Z.div_pos; lia.
Qed.

Lemma compact_exp_bounds x :
  0 < x -> 0 < compact_exp x /\
  2 ^ (8 * compact_exp x - 8) <= 2 * x /\ x < 2 ^ (8 * compact_exp x - 1).
Proof.
  intros Hx. unfold compact_exp. destruct (Z.eqb_spec x 0) as [|Hne]; [lia|].
  destruct (bit_length_bounds x Hx) as [Hn [Hlo Hhi]].
  set (n := bit_length x) in *. split; [Z.div_mod_to_equations; lia|].
  assert (2 ^ (8 * (n / 8 + 1) - 8) <= 2 ^ n) by (apply Z.pow_le_mono_r; Z.div_mod_to_equations; lia).
  assert (2 ^ n <= 2 ^ (8 * (n / 8 + 1) - 1)) by (apply Z.pow_le_mono_r; Z.div_mod_to_equations; lia).
  assert (2 ^ n = 2 * 2 ^ (n - 1)) by (rewrite <- Z.pow_succ_r by lia; f_equal; lia).
  lia.
Qed.

(** The mantissa of a non-zero number has its sign bit clear and its top
    byte non-zero (or the bit just below the sign bit's byte set). *)
Lemma compact_mantissa_bounds x :
  0 < x -> 2 ^ 15 <= scale256 x (3 - compact_exp x) < 2 ^ 23.
Proof.
  intros Hx. destruct (compact_exp_bounds x Hx) as (Hs & Hlo & Hhi).
  set (s := compact_exp x) in *. unfold scale256. destruct (Z.leb_spec 0 (3 - s)).
  - assert (2 ^ 16 = 2 ^ (8 * s - 8) * 2 ^ (8 * (3 - s))) by (rewrite <- Z.pow_add_r by lia; f_equal; lia).
    assert (2 ^ 23 = 2 ^ (8 * s - 1) * 2 ^ (8 * (3 - s))) by (rewrite <- Z.pow_add_r by lia; f_equal; lia).
    assert (0 < 2 ^ (8 * (3 - s))) by lia. nia.
  - assert (2 ^ (8 * s - 8) = 2 ^ 16 * 2 ^ (8 * - (3 - s))) by (rewrite <- Z.pow_add_r by lia; f_equal; lia).
    assert (2 ^ (8 * s - 1) = 2 ^ 23 * 2 ^ (8 * - (3 - s))) by (rewrite <- Z.pow_add_r by lia; f_equal; lia).
    split; [apply Z.div_le_lower_bound; lia|apply Z.div_lt_upper_bound; lia].
Qed.

Lemma compact_exp_256 x : 0 <= x < modulus W256 -> 0 <= compact_exp x <= 33.
Proof.
  intros Hx. unfold compact_exp. destruct (Z.eqb_spec x 0); [lia|].
  pose proof (bit_length_width W256 x ltac:(lia)) as H.
  destruct (bit_length_bounds x ltac:(lia)) as [Hn _].
  change (32 * Z.of_nat W256) with 256 in H. Z.div_mod_to_equations; lia.
Qed.

(** Decoding an encoded number drops the bytes below the mantissa. *)
Lemma compact_decode_encode x :
  0 <= x < modulus W256 ->
  compact_decode (compact_encode x) = x - x mod 2 ^ (8 * Z.max 0 (compact_exp x - 3)).
Proof.
  intros Hx. unfold compact_decode, compact_encode.
  destruct (decide (x = 0)) as [->|Hne]; [done|].
  pose proof (compact_mantissa_bounds x ltac:(lia)) as Hm.
  pose proof (compact_exp_256 x Hx) as He.
  set (s := compact_exp x) in *. set (m := scale256 x (3 - s)) in *.
  replace ((m + 2 ^ 24 * s) mod 2 ^ 23) with m
    by (Z.div_mod_to_equations; lia).
  replace ((m + 2 ^ 24 * s) / 2 ^ 24) with s by (Z.div_mod_to_equations; lia).
  unfold m. clear m Hm. unfold scale256.
  destruct (Z.leb_spec 0 (3 - s)), (Z.leb_spec 0 (s - 3)); try lia.
  - assert (s = 3) as -> by lia. rewrite Z.mod_1_r. simpl. rewrite Z.mod_small; lia.
  - rewrite Z.max_l by lia. rewrite Z.mod_1_r. replace (8 * - (s - 3)) with (8 * (3 - s)) by lia.
    rewrite Z.div_mul, Z.mod_small; lia.
  - rewrite Z.max_r by lia. replace (8 * - (3 - s)) with (8 * (s - 3)) by lia.
    assert (x / 2 ^ (8 * (s - 3)) * 2 ^ (8 * (s - 3)) = x - x mod 2 ^ (8 * (s - 3))) as ->
      by (pose proof (Z.div_mod x (2 ^ (8 * (s - 3))) ltac:(lia)); lia).
    pose proof (Z.mod_pos_bound x (2 ^ (8 * (s - 3))) ltac:(lia)).
    pose proof (Z.mod_le x (2 ^ (8 * (s - 3))) ltac:(lia) ltac:(lia)).
    apply Z.mod_small. lia.
Qed.

(** ** The code computes the encoding *)

Lemma scale256_step x k :
  0 <= x -> scale256 x k / 2 ^ 8 = scale256 x (k - 1).
Proof.
  intros Hx. unfold scale256. destruct (Z.leb_spec 0 k), (Z.leb_spec 0 (k - 1)); try lia.
  - replace (8 * k) with (8 * (k - 1) + 8) by lia. rewrite Z.pow_add_r by lia.
    rewrite Z.mul_assoc, Z.div_mul by lia. done.
  - assert (k = 0) as -> by lia. rewrite Z.mul_1_r. done.
  - rewrite Z.div_div, <- Z.pow_add_r by lia. f_equal. f_equal. lia.
Qed.

(** The three top bytes [GetCompact] extracts before the sign adjustment. *)
Lemma GetCompact_bytes a :
  wf256 a -> let nSize := (bits W256 a + 7) / 8 in
  (if nSize <=? 3 then u32 (u64 (Z.shiftl (GetLow64 a) (8 * (3 - nSize))))
   else u32 (GetLow64 (shr_assign W256 a (8 * (nSize - 3)))))
  = scale256 (value a) (3 - nSize) /\ 0 <= scale256 (value a) (3 - nSize) < 2 ^ 24.
Proof.
  intros Ha nSize. pose proof (wf_range _ _ Ha) as Hr. pose proof Ha as [Hl Ho].
  assert (0 <= value a < 2 ^ (8 * nSize) /\ 0 <= nSize) as [Hn Hn0].
  { unfold nSize. rewrite (bits_spec W256) by done.
    destruct (decide (value a = 0)) as [->|Hne]; [done|].
    destruct (bit_length_bounds (value a)) as [Hb [_ Hhi]]; [lia|].
    split; [|Z.div_mod_to_equations; lia]. split; [lia|].
    eapply Z.lt_le_trans; [exact Hhi|]. apply Z.pow_le_mono_r; Z.div_mod_to_equations; lia. }
  clearbody nSize.
  assert (0 <= scale256 (value a) (3 - nSize) < 2 ^ 24) as Hm.
  { split; [apply scale256_nonneg; lia|]. unfold scale256. destruct (Z.leb_spec 0 (3 - nSize)).
    - assert (2 ^ 24 = 2 ^ (8 * nSize) * 2 ^ (8 * (3 - nSize))) by (rewrite <- Z.pow_add_r by lia; f_equal; lia).
      assert (0 < 2 ^ (8 * (3 - nSize))) by lia. nia.
    - apply Z.div_lt_upper_bound; [lia|]. rewrite <- Z.pow_add_r by lia.
      eapply Z.lt_le_trans; [apply Hn|]. apply Z.pow_le_mono_r; lia. }
  split; [|done]. revert Hm. unfold scale256.
  destruct (Z.leb_spec nSize 3), (Z.leb_spec 0 (3 - nSize)); intros Hm; try lia.
  - assert (value a < 2 ^ 24).
    { eapply Z.lt_le_trans; [apply Hn|]. apply Z.pow_le_mono_r; lia. }
    rewrite GetLow64_spec by (first [done | rewrite Hl; unfold W256; lia]). rewrite Z.mod_small by lia.
    rewrite Z.shiftl_mul_pow2 by lia. unfold u32, u64. rewrite (Z.mod_small _ (2 ^ 64)), Z.mod_small by lia. done.
  - destruct (shr_assign_spec W256 a (8 * (nSize - 3)) Ha ltac:(lia)) as [[Hl' Ho'] Hv].
    rewrite GetLow64_spec by (first [done | rewrite Hl'; unfold W256; lia]). rewrite Hv.
    replace (8 * - (3 - nSize)) with (8 * (nSize - 3)) in * by lia.
    unfold u32. rewrite (Z.mod_small _ (2 ^ 64)), Z.mod_small by lia. done.
Qed.

Lemma bit23_test m : 0 <= m < 2 ^ 24 -> (Z.land m 0x00800000 =? 0) = (m <? 2 ^ 23).
Proof.
  intros Hm. change 0x00800000 with (Z.shiftl 1 23). rewrite land_pow2 by lia.
  destruct (Z.ltb_spec m (2 ^ 23)) as [H|H].
  - rewrite (testbit_high m 23) by lia. done.
  - replace m with ((m - 2 ^ 23) + 2 ^ 23 * 1) by lia. rewrite testbit_add_low by lia. done.
Qed.

Lemma compact_exp_adjust x :
  let n := (bit_length x + 7) / 8 in
  0 <= x -> compact_exp x = if scale256 x (3 - n) <? 2 ^ 23 then n else n + 1.
Proof.
  intros n Hx. destruct (decide (x = 0)) as [->|Hne]; [done|].
  destruct (bit_length_bounds x) as [Hb [Hlo Hhi]]; [lia|].
  unfold compact_exp. destruct (Z.eqb_spec x 0); [done|].
  destruct (Z.eq_dec (bit_length x) (8 * n)) as [E|E].
  - (* the top byte has its high bit set *)
    destruct (Z.ltb_spec (scale256 x (3 - n)) (2 ^ 23)) as [H|H]; [|Z.div_mod_to_equations; lia].
    exfalso. revert H. apply Z.le_ngt. rewrite E in Hlo. unfold scale256.
    destruct (Z.leb_spec 0 (3 - n)).
    + assert (2 ^ 23 = 2 ^ (8 * n - 1) * 2 ^ (8 * (3 - n))) by (rewrite <- Z.pow_add_r by lia; f_equal; lia).
      assert (0 < 2 ^ (8 * (3 - n))) by lia. nia.
    + apply Z.div_le_lower_bound; [lia|]. rewrite <- Z.pow_add_r by lia.
      replace (8 * - (3 - n) + 23) with (8 * n - 1) by lia. done.
  - assert (bit_length x / 8 + 1 = n) as -> by (unfold n in *; Z.div_mod_to_equations; lia).
    destruct (Z.ltb_spec (scale256 x (3 - n)) (2 ^ 23)) as [H|H]; [done|].
    exfalso. revert H. apply Z.lt_nge.
    assert (n = compact_exp x) as ->.
    { unfold compact_exp. destruct (Z.eqb_spec x 0); [done|]. unfold n in *; Z.div_mod_to_equations; lia. }
    apply compact_mantissa_bounds. lia.
Qed.

Lemma GetCompact_spec a : wf256 a -> GetCompact a false = Some (compact_encode (value a)).
Proof.
  intros Ha. pose proof (wf_range _ _ Ha) as Hr. pose proof (compact_exp_256 _ Hr) as He.
  destruct (GetCompact_bytes a Ha) as [Hbytes Hm]. unfold GetCompact. rewrite Hbytes.
  rewrite bit23_test by done. rewrite (bits_spec W256) in * by done.
  pose proof (compact_exp_adjust (value a) ltac:(lia)) as Hadj. cbn zeta in Hadj.
  assert ((if negb (scale256 (value a) (3 - (bit_length (value a) + 7) / 8) <? 2 ^ 23)
    then (Z.shiftr (scale256 (value a) (3 - (bit_length (value a) + 7) / 8)) 8,
          (bit_length (value a) + 7) / 8 + 1)
    else (scale256 (value a) (3 - (bit_length (value a) + 7) / 8), (bit_length (value a) + 7) / 8))
    = (scale256 (value a) (3 - compact_exp (value a)), compact_exp (value a))) as ->.
  { destruct (scale256 _ _ <? 2 ^ 23); cbn [negb]; rewrite Hadj; [done|]. f_equal.
    rewrite Z.shiftr_div_pow2, scale256_step by lia. f_equal. lia. }
  assert (0 <= scale256 (value a) (3 - compact_exp (value a)) < 2 ^ 23) as Hm'.
  { destruct (decide (value a = 0)) as [->|]; [done|].
    pose proof (compact_mantissa_bounds (value a) ltac:(lia)). lia. }
  unfold compact_encode. cbv beta iota zeta. set (s := compact_exp _) in *. set (m := scale256 (value a) (3 - s)) in *.
    assert (Z.land m (u32 (Z.lnot 0x007fffff)) = 0) as ->.
  { change (u32 (Z.lnot 0x007fffff)) with (Z.shiftl 0x1ff 23).
    apply Z.bits_inj'; intros i Hi. rewrite Z.land_spec, Z.shiftl_spec, Z.testbit_0_l by lia.
    destruct (Z.lt_ge_cases i 23); [rewrite (Z.testbit_neg_r 0x1ff) by lia; apply andb_false_r|].
    rewrite (testbit_high m 23) by lia. done. }
  cbn [Z.eqb negb]. destruct (Z.ltb_spec s 256); [|lia]. cbn [negb andb].
  f_equal. rewrite Z.lor_0_r. unfold u32. rewrite Z.mod_small by (rewrite Z.shiftl_mul_pow2; lia).
  apply lor_shiftl_add; lia.
Qed.

Lemma SetCompact_fields c :
  is_u32 c ->
  Z.shiftr c 24 = c / 2 ^ 24 /\ Z.land c 0x007fffff = c mod 2 ^ 23 /\
  0 <= c / 2 ^ 24 < 256 /\ 0 <= c mod 2 ^ 23 < 2 ^ 23.
Proof.
  unfold is_u32. intros Hc. rewrite Z.shiftr_div_pow2 by lia.
  change 0x007fffff with (Z.ones 23). rewrite Z.land_ones by lia.
  Z.div_mod_to_equations; lia.
Qed.

Lemma SetCompact_target c :
  is_u32 c -> wf256 (target (SetCompact c)) /\ value (target (SetCompact c)) = compact_decode c.
Proof.
  intros Hc. destruct (SetCompact_fields c Hc) as (E1 & E2 & Hs & Hw).
  unfold SetCompact, compact_decode, scale256. cbn [target]. rewrite E1, E2.
  destruct (Z.leb_spec (c / 2 ^ 24) 3), (Z.leb_spec 0 (c / 2 ^ 24 - 3)); try lia.
  - replace (c / 2 ^ 24) with 3 by lia. simpl (8 * _). rewrite Z.shiftr_0_r.
    destruct (of_u64_spec W256 (c mod 2 ^ 23)) as [Hwf Hv]; [unfold W256; lia|unfold is_u64; lia|].
    split; [done|]. rewrite Hv, Z.mul_1_r. symmetry. apply Z.mod_small.
    change (modulus W256) with (2 ^ 256). lia.
  - rewrite Z.shiftr_div_pow2 by lia. replace (8 * (3 - c / 2 ^ 24)) with (8 * - (c / 2 ^ 24 - 3)) by lia.
    set (p := 8 * - (c / 2 ^ 24 - 3)).
    assert (0 <= c mod 2 ^ 23 / 2 ^ p < 2 ^ 23) as Hd.
    { split; [apply Z.div_pos; lia|]. apply Z.div_lt_upper_bound; [lia|]. nia. }
    destruct (of_u64_spec W256 (c mod 2 ^ 23 / 2 ^ p)) as [Hwf Hv];
      [unfold W256; lia|unfold is_u64; lia|].
    split; [done|]. rewrite Hv. symmetry. apply Z.mod_small.
    change (modulus W256) with (2 ^ 256). lia.
  - destruct (of_u64_spec W256 (c mod 2 ^ 23)) as [Hwf Hv]; [unfold W256; lia|unfold is_u64; lia|].
    destruct (shl_assign_spec W256 (of_u64 W256 (c mod 2 ^ 23)) (8 * (c / 2 ^ 24 - 3)) Hwf ltac:(lia))
      as [Hwf' Hv']. split; [done|]. rewrite Hv', Hv. done.
Qed.

(** The overflow flag is the exact test: the encoded number does not fit. *)
Lemma SetCompact_overflow c :
  is_u32 c ->
  fOverflow (SetCompact c) = (modulus W256 <=? scale256 (c mod 2 ^ 23) (c / 2 ^ 24 - 3)).
Proof.
  intros Hc. destruct (SetCompact_fields c Hc) as (E1 & E2 & Hs & Hw).
  unfold SetCompact. cbn [fOverflow]. rewrite E1, E2. clear E1 E2.
  remember (c / 2 ^ 24) as s eqn:Es. remember (c mod 2 ^ 23) as w eqn:Ew. clear Es Ew Hc.
  unfold scale256. change (modulus W256) with (2 ^ 256).
  destruct (Z.leb_spec s 3) as [H3|H3].
  - replace (34 <? s) with false by (bool_cases; lia || done).
    replace (33 <? s) with false by (bool_cases; lia || done).
    replace (32 <? s) with false by (bool_cases; lia || done).
    rewrite !andb_false_r. symmetry. apply Z.leb_gt.
    destruct (Z.leb_spec 0 (s - 3)).
    + replace s with 3 by lia. simpl. lia.
    + apply Z.div_lt_upper_bound; [lia|]. assert (1 <= 2 ^ (8 * - (s - 3))) by lia. nia.
  - destruct (Z.leb_spec 0 (s - 3)); [|lia].
    destruct (decide (w = 0)) as [->|Hw0]; [done|].
    replace (negb (w =? 0)) with true by (bool_cases; lia || done). cbn [andb].
    destruct (Z.le_gt_cases 35 s) as [H35|H35].
    { replace (34 <? s) with true by (bool_cases; lia || done). symmetry. apply Z.leb_le.
      assert (2 ^ 256 <= 2 ^ (8 * (s - 3))) by (apply Z.pow_le_mono_r; lia). nia. }
    replace (34 <? s) with false by (bool_cases; lia || done). cbn [orb].
    destruct (Z.le_gt_cases s 32) as [H32|H32].
    { replace (33 <? s) with false by (bool_cases; lia || done).
      replace (32 <? s) with false by (bool_cases; lia || done).
      rewrite !andb_false_r. symmetry. apply Z.leb_gt.
      assert (2 ^ (8 * (s - 3)) <= 2 ^ 232) by (apply Z.pow_le_mono_r; lia). nia. }
    assert (s = 33 \/ s = 34) as [-> | ->] by lia; simpl Z.mul; simpl Z.ltb;
      rewrite ?andb_true_r, ?andb_false_r; cbn [orb]; bool_cases; cbn [orb]; lia || done.
Qed.

Lemma compact_encode_mono x y :
  0 <= x <= y -> compact_encode x <= compact_encode y.
Proof.
  intros Hxy. destruct (decide (x = 0)) as [->|Hx].
  { unfold compact_encode at 1. change (scale256 0 (3 - compact_exp 0) + 2 ^ 24 * compact_exp 0) with 0.
    unfold compact_encode. pose proof (scale256_nonneg y (3 - compact_exp y) ltac:(lia)).
    assert (0 <= compact_exp y); [|lia]. unfold compact_exp.
    destruct (Z.eqb_spec y 0); [done|].
    destruct (bit_length_bounds y) as [Hb _]; [lia|].
    pose proof (Z.div_pos (bit_length y) 8 ltac:(lia) ltac:(lia)). lia. }
  assert (compact_exp x <= compact_exp y) as He.
  { unfold compact_exp. destruct (Z.eqb_spec x 0), (Z.eqb_spec y 0); try lia.
    assert (bit_length x <= bit_length y); [|Z.div_mod_to_equations; lia].
    unfold bit_length. destruct (Z.eqb_spec x 0), (Z.eqb_spec y 0); try lia.
    pose proof (Z.log2_le_mono x y). lia. }
  pose proof (compact_mantissa_bounds x ltac:(lia)). pose proof (compact_mantissa_bounds y ltac:(lia)).
  unfold compact_encode. destruct (Z.eq_dec (compact_exp x) (compact_exp y)) as [E|]; [|lia].
  rewrite E. enough (scale256 x (3 - compact_exp y) <= scale256 y (3 - compact_exp y)) by lia.
  unfold scale256. destruct (Z.leb_spec 0 (3 - compact_exp y)); [nia|]. apply Z.div_le_mono; lia.
Qed.

(** The fields of an encoded number, and the flags [SetCompact] gives it. *)
Lemma compact_encode_parts x :
  0 <= x < modulus W256 ->
  is_u32 (compact_encode x) /\ compact_encode x mod 2 ^ 24 < 2 ^ 23 /\
  compact_encode x mod 2 ^ 23 = scale256 x (3 - compact_exp x) /\
  compact_encode x / 2 ^ 24 = compact_exp x.
Proof.
  intros Hx. pose proof (compact_exp_256 _ Hx) as He.
  assert (0 <= scale256 x (3 - compact_exp x) < 2 ^ 23) as Hm.
  { destruct (decide (x = 0)) as [->|]; [done|].
    pose proof (compact_mantissa_bounds x ltac:(lia)). lia. }
  unfold is_u32, compact_encode. Z.div_mod_to_equations; lia.
Qed.

Lemma scale256_back x k : 0 <= x -> scale256 (scale256 x (- k)) k <= x.
Proof.
  intros Hx. unfold scale256. destruct (Z.leb_spec 0 k), (Z.leb_spec 0 (- k)); try lia.
  - replace k with 0 by lia. simpl. lia.
  - replace (8 * - - k) with (8 * k) by lia. rewrite Z.mul_comm. apply Z.mul_div_le. lia.
  - rewrite Z.div_mul; lia.
Qed.

Lemma SetCompact_encode_flags x :
  0 <= x < modulus W256 ->
  fOverflow (SetCompact (compact_encode x)) = false /\
  fNegative (SetCompact (compact_encode x)) = false.
Proof.
  intros Hx. destruct (compact_encode_parts x Hx) as (Hu & E1 & E2 & E3). split.
  - rewrite SetCompact_overflow, E2, E3 by done. apply Z.leb_gt.
    pose proof (scale256_back x (compact_exp x - 3) ltac:(lia)) as H.
    replace (- (compact_exp x - 3)) with (3 - compact_exp x) in H by lia. lia.
  - unfold SetCompact. cbn [fNegative]. apply andb_false_iff. right. apply negb_false_iff.
    change 0x00800000 with (Z.shiftl 1 23). rewrite land_pow2 by lia. apply negb_true_iff.
    rewrite <- (Z.mod_pow2_bits_low _ 24) by lia. apply (testbit_high _ 23); [|lia..].
    split; [apply Z.mod_pos_bound; lia|done].
Qed.

(** A canonical encoding: positive, normalised mantissa, no low bytes lost to
    the right shift of short exponents. *)
Definition canonical (c : Z) : Prop :=
  let s := c / 2 ^ 24 in let m := c mod 2 ^ 24 in
  1 <= s /\ 2 ^ 15 <= m < 2 ^ 23 /\ m mod 2 ^ (8 * Z.max 0 (3 - s)) = 0 /\
  scale256 m (s - 3) < 2 ^ 256.

Lemma compact_exp_unique x s :
  0 < x -> 2 ^ (8 * s - 8) <= 2 * x -> x < 2 ^ (8 * s - 1) -> 1 <= s -> compact_exp x = s.
Proof.
  intros Hx Hlo Hhi Hs. destruct (compact_exp_bounds x Hx) as (He & Hlo' & Hhi').
  assert (2 ^ (8 * s - 1) = 2 * 2 ^ (8 * s - 2)) by (rewrite <- Z.pow_succ_r by lia; f_equal; lia).
  assert (2 ^ (8 * compact_exp x - 1) = 2 * 2 ^ (8 * compact_exp x - 2))
    by (rewrite <- Z.pow_succ_r by lia; f_equal; lia).
  destruct (Z.lt_trichotomy (compact_exp x) s) as [H1|[H1|H1]]; [|done|].
  - assert (2 * 2 ^ (8 * compact_exp x - 1) <= 2 ^ (8 * s - 8)); [|lia].
    rewrite <- Z.pow_succ_r by lia. apply Z.pow_le_mono_r; lia.
  - assert (2 * 2 ^ (8 * s - 1) <= 2 ^ (8 * compact_exp x - 8)); [|lia].
    rewrite <- Z.pow_succ_r by lia. apply Z.pow_le_mono_r; lia.
Qed.

Lemma scale256_exact m s :
  0 <= m -> m mod 2 ^ (8 * Z.max 0 (3 - s)) = 0 ->
  scale256 (scale256 m (s - 3)) (3 - s) = m.
Proof.
  intros Hm Hd. unfold scale256.
  destruct (Z.leb_spec 0 (s - 3)), (Z.leb_spec 0 (3 - s)); try lia.
  - replace s with 3 by lia. simpl. lia.
  - replace (8 * - (3 - s)) with (8 * (s - 3)) by lia. rewrite Z.div_mul; lia.
  - replace (8 * - (s - 3)) with (8 * (3 - s)) by lia. rewrite Z.max_r in Hd by lia.
    pose proof (Z.div_mod m (2 ^ (8 * (3 - s))) ltac:(lia)). lia.
Qed.

Lemma canonical_exp m s :
  1 <= s -> 2 ^ 15 <= m < 2 ^ 23 -> m mod 2 ^ (8 * Z.max 0 (3 - s)) = 0 ->
  0 < scale256 m (s - 3) /\ compact_exp (scale256 m (s - 3)) = s.
Proof.
  intros Hs Hm Hd.
  enough (2 ^ (8 * s - 8) <= 2 * scale256 m (s - 3) /\ scale256 m (s - 3) < 2 ^ (8 * s - 1)) as [H1 H2].
  { assert (0 < 2 ^ (8 * s - 8)) by lia. split; [lia|]. apply compact_exp_unique; lia. }
  pose proof (scale256_exact m s ltac:(lia) Hd) as Hx.
  set (x := scale256 m (s - 3)) in *. unfold scale256 in Hx, x.
  destruct (Z.leb_spec 0 (s - 3)).
  - assert (2 ^ (8 * s - 8) = 2 ^ 16 * 2 ^ (8 * (s - 3))) by (rewrite <- Z.pow_add_r by lia; f_equal; lia).
    assert (2 ^ (8 * s - 1) = 2 ^ 23 * 2 ^ (8 * (s - 3))) by (rewrite <- Z.pow_add_r by lia; f_equal; lia).
    assert (0 < 2 ^ (8 * (s - 3))) by lia. nia.
  - clearbody x. destruct (Z.leb_spec 0 (3 - s)); [|lia].
    assert (2 ^ 16 = 2 ^ (8 * s - 8) * 2 ^ (8 * (3 - s))) by (rewrite <- Z.pow_add_r by lia; f_equal; lia).
    assert (2 ^ 23 = 2 ^ (8 * s - 1) * 2 ^ (8 * (3 - s))) by (rewrite <- Z.pow_add_r by lia; f_equal; lia).
    assert (0 < 2 ^ (8 * (3 - s))) by lia. nia.
Qed.

(** ** Properties *)

(** C23. For every 32-bit [nCompact], [SetCompact] stores the mantissa scaled
    by the base-256 exponent (truncated to 256 bits), sets [fOverflow] exactly
    when the scaled mantissa does not fit in 256 bits, and sets [fNegative]
    exactly when the sign bit is set and the mantissa, after the right shift
    of small exponents, is not zero. *)
Theorem SetCompact_meaning (c : Z) :
  is_u32 c ->
  let exact := scale256 (c mod 2 ^ 23) (c / 2 ^ 24 - 3) in
  wf256 (target (SetCompact c)) /\
  value (target (SetCompact c)) = exact mod 2 ^ 256 /\
  (fOverflow (SetCompact c) = true <-> 2 ^ 256 <= exact) /\
  (fNegative (SetCompact c) = true <-> exact <> 0 /\ Z.testbit c 23 = true).
Proof.
  intros Hc exact. destruct (SetCompact_target c Hc) as [Hw Hv].
  split; [done|]. split; [done|]. split.
  { rewrite SetCompact_overflow by done. apply Z.leb_le. }
  destruct (SetCompact_fields c Hc) as (E1 & E2 & Hs & Hm).
  unfold SetCompact. cbn [fNegative]. rewrite E1, E2.
  change 0x00800000 with (Z.shiftl 1 23). rewrite land_pow2, negb_involutive by lia.
  rewrite andb_true_iff, negb_true_iff, Z.eqb_neq.
  enough ((if c / 2 ^ 24 <=? 3 then Z.shiftr (c mod 2 ^ 23) (8 * (3 - c / 2 ^ 24)) else c mod 2 ^ 23) = 0
          <-> exact = 0) by tauto.
  unfold exact, scale256. destruct (Z.leb_spec (c / 2 ^ 24) 3), (Z.leb_spec 0 (c / 2 ^ 24 - 3)); try lia.
  - replace (c / 2 ^ 24) with 3 by lia. simpl (8 * _). rewrite Z.shiftr_0_r, Z.mul_1_r. done.
  - rewrite Z.shiftr_div_pow2 by lia. by replace (8 * - (c / 2 ^ 24 - 3)) with (8 * (3 - c / 2 ^ 24)) by lia.
Qed.

Lemma SetCompact_meaning_witness :
  value (target (SetCompact 0x1b0404cb)) = 0x404cb * 2 ^ (8 * 24) mod 2 ^ 256.
Proof.
  exact (proj1 (proj2 (SetCompact_meaning 0x1b0404cb ltac:(unfold is_u32; lia)))).
Defined.

(** [GetCompact] never fails its assertions on a 256-bit value; what
    [SetCompact] reads back is the value with the bytes below its three-byte
    mantissa cleared, with no sign or overflow; and the encoding preserves
    the order of targets. *)
Theorem GetCompact_meaning (a b : base_uint) :
  wf256 a -> wf256 b -> value a <= value b ->
  exists ca cb, GetCompact a false = Some ca /\ GetCompact b false = Some cb /\
    is_u32 ca /\ ca <= cb /\
    value (target (SetCompact ca))
      = value a - value a mod 2 ^ (8 * Z.max 0 (compact_exp (value a) - 3)) /\
    fOverflow (SetCompact ca) = false /\ fNegative (SetCompact ca) = false.
Proof.
  intros Ha Hb Hab. pose proof (wf_range _ _ Ha) as Hr.
  destruct (compact_encode_parts _ Hr) as [Hu _].
  exists (compact_encode (value a)), (compact_encode (value b)).
  split; [by apply GetCompact_spec|]. split; [by apply GetCompact_spec|].
  split; [done|]. split; [apply compact_encode_mono; lia|].
  split; [rewrite (proj2 (SetCompact_target _ Hu)); by apply compact_decode_encode|].
  by apply SetCompact_encode_flags.
Qed.

Lemma GetCompact_meaning_witness :
  exists ca cb, GetCompact (of_u64 8 0x12345678) false = Some ca
    /\ GetCompact (of_u64 8 0x92345678) false = Some cb /\ ca <= cb.
Proof.
  destruct (GetCompact_meaning (of_u64 8 0x12345678) (of_u64 8 0x92345678))
    as (ca & cb & H1 & H2 & _ & H3 & _).
  - repeat constructor; vm_compute; congruence.
  - repeat constructor; vm_compute; congruence.
  - vm_compute. congruence.
  - exact (ex_intro _ ca (ex_intro _ cb (conj H1 (conj H2 H3)))).
Defined.

(** Every canonical encoding survives the round trip through a 256-bit
    target: [GetCompact (SetCompact c) = c]. *)
Theorem compact_roundtrip (c : Z) :
  is_u32 c -> canonical c -> GetCompact (target (SetCompact c)) false = Some c.
Proof.
  intros Hc (Hs & Hm & Hd & Hov).
  destruct (SetCompact_target c Hc) as [Hw Hv]. rewrite GetCompact_spec, Hv by done.
  f_equal. unfold compact_decode.
  replace (c mod 2 ^ 23) with (c mod 2 ^ 24) by (Z.div_mod_to_equations; lia).
  destruct (canonical_exp _ _ Hs Hm Hd) as [Hpos He].
  rewrite Z.mod_small by (change (modulus W256) with (2 ^ 256); lia).
  unfold compact_encode. rewrite He, scale256_exact by (done || lia).
  rewrite Z.add_comm. symmetry. apply Z.div_mod. lia.
Qed.

Lemma compact_roundtrip_witness :
  GetCompact (target (SetCompact 0x1b0404cb)) false = Some 0x1b0404cb.
Proof.
  apply compact_roundtrip; [unfold is_u32; lia|].
  repeat split; vm_compute; congruence.
Defined.

