(* ===== verification/Chain.v ===== *)
(** [chain.h], [chain.cpp]: the block index (a tree of [CBlockIndex] entries
    linked by [pprev] and the skip pointers [pskip]) and the active chain
    [CChain].  Pointers are addresses into a heap of entries and [nullptr] is
    [None], so that pointer equality and sharing are those of the code.
    [AddToBlockIndex] of [validation.cpp] is the operation that grows the
    index. *)

From stdpp Require Import prelude gmap.
From Stdlib Require Import ZArith Lia.
From S2P Require Import Prelude ArithUint256 Compact.

Open Scope Z_scope.

(** ** Data *)

Abbreviation ptr := Z.

Record CBlockIndex := mkBlockIndex {
  phashBlock : Z;
  pprev : option ptr;
  pskip : option ptr;
  nHeight : Z;
  nChainWork : base_uint;
  nStatus : Z;
  nVersion : Z;
  nTime : Z;
  nBits : Z;
  nTimeMax : Z
}.

(** The heap of block index entries. *)
Abbreviation heap := (gmap ptr CBlockIndex).

(** A pointer-valued result: [None] is a failed assertion (or a null
    dereference), [Some None] is [nullptr]. *)
Abbreviation ptr_result := (option (option ptr)).

(** ** Skip heights *)

Definition InvertLowestOne (n : Z) : Z := Z.land n (n - 1).

Definition GetSkipHeight (height : Z) : Z :=
  if height <? 2 then 0
  else if negb (Z.land height 1 =? 0)
       then InvertLowestOne (InvertLowestOne (height - 1)) + 1
       else InvertLowestOne height.

(** The test of [GetAncestor]: follow [pskip] from height [heightWalk]? *)
Definition follow_skip (heightWalk height : Z) : bool :=
  let heightSkip := GetSkipHeight heightWalk in
  let heightSkipPrev := GetSkipHeight (heightWalk - 1) in
  (heightSkip =? height)
  || ((height <? heightSkip)
      && negb ((heightSkipPrev <? heightSkip - 2) && (height <=? heightSkipPrev))).

Section Walks.
Variable H : heap.

(** The [while (heightWalk > height)] loop of [GetAncestor]. Every iteration
    lowers [heightWalk], so [heightWalk - height] iterations are enough. *)
Fixpoint ancestor_loop (fuel : nat) (pindexWalk : ptr) (heightWalk height : Z) : option ptr :=
  if height <? heightWalk then
    match fuel with
    | O => None
    | S fuel' =>
        match H !! pindexWalk with
        | None => None
        | Some b =>
            match pskip b, follow_skip heightWalk height with
            | Some s, true => ancestor_loop fuel' s (GetSkipHeight heightWalk) height
            | _, _ =>
                match pprev b with
                | None => None
                | Some q => ancestor_loop fuel' q (heightWalk - 1) height
                end
            end
        end
    end
  else Some pindexWalk.

(** [CBlockIndex::GetAncestor] *)
Definition GetAncestor (p : ptr) (height : Z) : ptr_result :=
  match H !! p with
  | None => None
  | Some b =>
      if (nHeight b <? height) || (height <? 0) then Some None
      else option_map Some (ancestor_loop (Z.to_nat (nHeight b)) p (nHeight b) height)
  end.

(** The reference: [n] steps along [pprev]. *)
Fixpoint nth_prev (n : nat) (p : ptr) : option ptr :=
  match n with
  | O => Some p
  | S n' => match H !! p with
            | Some b => match pprev b with Some q => nth_prev n' q | None => None end
            | None => None
            end
  end.

(** [CBlockIndex::BuildSkip] for an entry [b] not yet in the heap. *)
Definition BuildSkip (b : CBlockIndex) : option CBlockIndex :=
  match pprev b with
  | None => Some b
  | Some q =>
      match GetAncestor q (GetSkipHeight (nHeight b)) with
      | None => None
      | Some s => Some (mkBlockIndex (phashBlock b) (pprev b) s (nHeight b) (nChainWork b)
                          (nStatus b) (nVersion b) (nTime b) (nBits b) (nTimeMax b))
      end
  end.

(** [while (pa != pb && pa && pb) { pa = pa->pprev; pb = pb->pprev; }] *)
Fixpoint lca_loop (fuel : nat) (pa pb : option ptr) : option (option ptr * option ptr) :=
  match pa, pb with
  | Some a, Some b =>
      if a =? b then Some (pa, pb)
      else match fuel with
           | O => None
           | S fuel' =>
               match H !! a, H !! b with
               | Some ba, Some bb => lca_loop fuel' (pprev ba) (pprev bb)
               | _, _ => None
               end
           end
  | _, _ => Some (pa, pb)
  end.

Definition LastCommonAncestor (pa pb : ptr) : ptr_result :=
  match H !! pa, H !! pb with
  | Some ba, Some bb =>
      let aligned :=
        if nHeight bb <? nHeight ba
        then option_map (fun a => (a, Some pb)) (GetAncestor pa (nHeight bb))
        else if nHeight ba <? nHeight bb
        then option_map (fun b => (Some pa, b)) (GetAncestor pb (nHeight ba))
        else Some (Some pa, Some pb) in
      match aligned with
      | None => None
      | Some (a, b) =>
          match lca_loop (Z.to_nat (nHeight ba) + Z.to_nat (nHeight bb) + 1) a b with
          | None => None
          | Some (x, y) => if decide (x = y) then Some x else None
          end
      end
  | _, _ => None
  end.
End Walks.

(** ** Work *)

(** [GetBlockProof]: [~bnTarget / (bnTarget + 1) + 1], zero for a target that
    is negative, overflowing or zero. *)
Definition GetBlockProof (bits : Z) : option base_uint :=
  let c := SetCompact bits in
  if fNegative c || fOverflow c || BaseUint.EqualTo (target c) 0
  then Some (BaseUint.of_u64 W256 0)
  else
    let one := BaseUint.of_u64 W256 1 in
    match BaseUint.div_assign W256 (BaseUint.op_compl (target c))
                              (BaseUint.add_assign (target c) one) with
    | None => None
    | Some q => Some (BaseUint.add_assign q one)
    end.

(** ** Growing the index *)

Definition BLOCK_VALID_TREE : Z := 2.
Definition BLOCK_VALID_MASK : Z := 7.
Definition BLOCK_FAILED_MASK : Z := 96.

Definition IsValid (b : CBlockIndex) (nUpTo : Z) : bool :=
  if negb (Z.land (nStatus b) BLOCK_FAILED_MASK =? 0) then false
  else nUpTo <=? Z.land (nStatus b) BLOCK_VALID_MASK.

Definition set_nStatus (b : CBlockIndex) (st : Z) : CBlockIndex :=
  mkBlockIndex (phashBlock b) (pprev b) (pskip b) (nHeight b) (nChainWork b)
    st (nVersion b) (nTime b) (nBits b) (nTimeMax b).

(** [RaiseValidity]: the entry afterwards, and whether it changed. *)
Definition RaiseValidity (b : CBlockIndex) (nUpTo : Z) : CBlockIndex * bool :=
  if negb (Z.land (nStatus b) BLOCK_FAILED_MASK =? 0) then (b, false)
  else if Z.land (nStatus b) BLOCK_VALID_MASK <? nUpTo
       then (set_nStatus b (Z.lor (Z.land (nStatus b) (Z.lnot BLOCK_VALID_MASK)) nUpTo), true)
       else (b, false).

(** The header fields [AddToBlockIndex] reads; [hHash] is the value of
    [block.GetHash()]. *)
Record CBlockHeader := mkHeader {
  hHash : Z;
  hashPrevBlock : Z;
  hVersion : Z;
  hTime : Z;
  hBits : Z;
  hHeight : Z
}.

(** The globals of [validation.cpp] that hold the index. *)
Record BlockIndexState := mkState {
  mapBlockIndex : gmap Z ptr;
  entries : heap;
  pindexBestHeader : option ptr;
  setDirtyBlockIndex : gset ptr;
  mapPrevBlockIndex : list (Z * ptr)
}.

(** [CBlockIndex(const CBlockHeader&)] after [SetNull]. *)
Definition index_of_header (block : CBlockHeader) : CBlockIndex :=
  mkBlockIndex (hHash block) None None (hHeight block) (BaseUint.zero W256)
    0 (hVersion block) (hTime block) (hBits block) 0.

(** The entry once linked to its parent: [pprev], [nHeight], [pskip],
    [nTimeMax] and [nChainWork]. *)
Definition link_entry (st : BlockIndexState) (block : CBlockHeader) : option CBlockIndex :=
  let b0 := index_of_header block in
  let parent := mapBlockIndex st !! hashPrevBlock block in
  let parent_entry := match parent with Some q => entries st !! q | None => None end in
  let linked :=
    match parent, parent_entry with
    | Some q, Some c =>
        BuildSkip (entries st)
          (mkBlockIndex (phashBlock b0) (Some q) None (nHeight c + 1) (nChainWork b0)
             (nStatus b0) (nVersion b0) (nTime b0) (nBits b0) (nTimeMax b0))
    | Some _, None => None
    | None, _ => Some b0
    end in
  match linked, GetBlockProof (hBits block) with
  | Some b1, Some proof =>
      let timeMax := match parent_entry with Some c => Z.max (nTimeMax c) (nTime b1) | None => nTime b1 end in
      let work := match parent_entry with Some c => nChainWork c | None => BaseUint.of_u64 W256 0 end in
      Some (mkBlockIndex (phashBlock b1) (pprev b1) (pskip b1) (nHeight b1)
              (BaseUint.add_assign work proof) (nStatus b1) (nVersion b1) (nTime b1) (nBits b1) timeMax)
  | _, _ => None
  end.

(** [AddToBlockIndex]; [pnew] is the address [new] returns. *)
Definition AddToBlockIndex (st : BlockIndexState) (block : CBlockHeader) (status : Z) (pnew : ptr)
    : option (BlockIndexState * ptr) :=
  match mapBlockIndex st !! hHash block with
  | Some p => Some (st, p)
  | None =>
      match link_entry (mkState (<[hHash block := pnew]> (mapBlockIndex st)) (entries st)
               (pindexBestHeader st) (setDirtyBlockIndex st) (mapPrevBlockIndex st)) block with
      | None => None
      | Some b =>
          let '(b', best) :=
            if negb (Z.land status BLOCK_VALID_MASK =? 0) then
              (fst (RaiseValidity b status),
               match pindexBestHeader st with
               | None => Some pnew
               | Some pb =>
                   match entries st !! pb with
                   | Some cb => if BaseUint.lt W256 (nChainWork cb) (nChainWork b)
                                then Some pnew else Some pb
                   | None => Some pb
                   end
               end)
            else
              let b1 := fst (RaiseValidity b BLOCK_VALID_TREE) in
              (set_nStatus b1 (Z.lor (nStatus b1) status), pindexBestHeader st) in
          let prevs := match pprev b' with
                       | Some q => match entries st !! q with
                                   | Some c => [(phashBlock c, pnew)]
                                   | None => []
                                   end
                       | None => []
                       end in
          Some (mkState (<[hHash block := pnew]> (mapBlockIndex st))
                  (<[pnew := b']> (entries st)) best
                  ({[pnew]} ∪ setDirtyBlockIndex st)
                  (mapPrevBlockIndex st ++ prevs), pnew)
      end
  end.

(** ** Skip heights go strictly down *)

Lemma land_le_r a b : 0 <= b -> Z.land a b <= b.
Proof.
  intros Hb. assert (b - Z.land a b = Z.ldiff b (Z.land a b)) as E.
  { apply Z.sub_nocarry_ldiff. apply Z.bits_inj'; intros i Hi.
    rewrite Z.ldiff_spec, Z.land_spec, Z.testbit_0_l. by destruct (Z.testbit a i), (Z.testbit b i). }
  assert (0 <= Z.ldiff b (Z.land a b)) by (apply Z.ldiff_nonneg; lia). lia.
Qed.

Lemma InvertLowestOne_bound n : 0 < n -> 0 <= InvertLowestOne n < n.
Proof.
  intros Hn. unfold InvertLowestOne. pose proof (land_le_r n (n - 1) ltac:(lia)).
  assert (0 <= Z.land n (n - 1)) by (apply Z.land_nonneg; lia). lia.
Qed.

Lemma GetSkipHeight_bound h : 0 < h -> 0 <= GetSkipHeight h < h.
Proof.
  intros Hh. unfold GetSkipHeight. destruct (Z.ltb_spec h 2); [lia|].
  destruct (negb _); [|by apply InvertLowestOne_bound].
  pose proof (InvertLowestOne_bound (h - 1) ltac:(lia)) as H1.
  destruct (decide (InvertLowestOne (h - 1) = 0)) as [E|].
  - rewrite E. change (InvertLowestOne 0) with 0. lia.
  - pose proof (InvertLowestOne_bound (InvertLowestOne (h - 1)) ltac:(lia)). lia.
Qed.

Lemma GetSkipHeight_0 : GetSkipHeight 0 = 0.
Proof. done. Qed.

(** ** The index invariant *)

(** Heights increase by one along [pprev], only the root has no parent, and
    a skip pointer leads to the ancestor at the skip height. *)
Definition wf_entry (H : heap) (p : ptr) (b : CBlockIndex) : Prop :=
  0 <= nHeight b /\
  match pprev b with
  | None => nHeight b = 0 /\ pskip b = None
  | Some q => exists c, H !! q = Some c /\ nHeight b = nHeight c + 1
  end /\
  (forall s, pskip b = Some s ->
     nth_prev H (Z.to_nat (nHeight b - GetSkipHeight (nHeight b))) p = Some s).

Definition wf_heap (H : heap) : Prop := forall p b, H !! p = Some b -> wf_entry H p b.

(** [q] is the entry [n] generations above [p]. *)
Definition is_ancestor (H : heap) (q p : ptr) : Prop := exists n, nth_prev H n p = Some q.

Section Ancestors.
Context (H : heap) (Hwf : wf_heap H).

Lemma nth_prev_add n m p :
  nth_prev H (n + m) p = match nth_prev H n p with Some q => nth_prev H m q | None => None end.
Proof.
  revert p. induction n as [|n IH]; intros p; [done|]. simpl.
  destruct (H !! p) as [b|]; [|done]. destruct (pprev b) as [q|]; [apply IH|done].
Qed.

Lemma nth_prev_Some n p b :
  H !! p = Some b -> (Z.of_nat n <= nHeight b) ->
  exists q c, nth_prev H n p = Some q /\ H !! q = Some c /\ nHeight c = nHeight b - Z.of_nat n.
Proof.
  revert p b. induction n as [|n IH]; intros p b Hp Hn.
  - exists p, b. simpl. split; [done|]. split; [done|]. lia.
  - simpl. rewrite Hp. destruct (Hwf p b Hp) as (H0 & Hprev & _).
    destruct (pprev b) as [q|]; [|lia]. destruct Hprev as (c & Hc & Hh).
    destruct (IH q c Hc ltac:(lia)) as (q' & c' & E1 & E2 & E3).
    exists q', c'. split; [done|]. split; [done|]. lia.
Qed.

Lemma nth_prev_height n p b q :
  H !! p = Some b -> nth_prev H n p = Some q ->
  exists c, H !! q = Some c /\ nHeight c = nHeight b - Z.of_nat n /\ Z.of_nat n <= nHeight b.
Proof.
  revert p b. induction n as [|n IH]; intros p b Hp Hn.
  - simplify_eq/=. exists b. split; [done|]. pose proof (Hwf _ _ Hp) as [H0 _]. lia.
  - simpl in Hn. rewrite Hp in Hn. destruct (Hwf p b Hp) as (H0 & Hprev & _).
    destruct (pprev b) as [r|]; [|done]. destruct Hprev as (c & Hc & Hh).
    destruct (IH r c Hc Hn) as (c' & E1 & E2 & E3).
    exists c'. split; [done|]. lia.
Qed.

Lemma nth_prev_inj n m p b q :
  H !! p = Some b -> nth_prev H n p = Some q -> nth_prev H m p = Some q -> n = m.
Proof.
  intros Hp Hn Hm.
  destruct (nth_prev_height _ _ _ _ Hp Hn) as (c & E1 & E2 & E3).
  destruct (nth_prev_height _ _ _ _ Hp Hm) as (c' & E1' & E2' & E3'). simplify_eq. lia.
Qed.

(** The skip list computes the same ancestor as walking [pprev]. *)
Lemma ancestor_loop_spec fuel p b height :
  H !! p = Some b -> 0 <= height <= nHeight b -> (Z.to_nat (nHeight b - height) <= fuel)%nat ->
  ancestor_loop H fuel p (nHeight b) height = nth_prev H (Z.to_nat (nHeight b - height)) p.
Proof.
  revert p b. induction fuel as [|fuel IH]; intros p b Hp Hh Hf.
  - simpl. destruct (Z.ltb_spec height (nHeight b)); [lia|].
    replace (nHeight b - height) with 0 by lia. done.
  - simpl. destruct (Z.ltb_spec height (nHeight b)) as [Hlt|Hge].
    2: { replace (nHeight b - height) with 0 by lia. done. }
    rewrite Hp. destruct (Hwf p b Hp) as (_ & Hprev & Hskip).
    assert (match pprev b with Some q => ancestor_loop H fuel q (nHeight b - 1) height | None => None end
            = nth_prev H (Z.to_nat (nHeight b - height)) p) as Hstep.
    { destruct (pprev b) as [q|] eqn:Ep; [|lia]. destruct Hprev as (c & Hc & Ehc).
      replace (nHeight b - 1) with (nHeight c) by lia. rewrite (IH q c Hc) by lia.
      replace (Z.to_nat (nHeight b - height)) with (S (Z.to_nat (nHeight c - height))) by lia.
      simpl. by rewrite Hp, Ep. }
    destruct (pskip b) as [s|] eqn:Es; [|done].
    destruct (follow_skip (nHeight b) height) eqn:Ef; [|done].
    specialize (Hskip s eq_refl).
    pose proof (GetSkipHeight_bound (nHeight b) ltac:(lia)) as Hsk.
    assert (height <= GetSkipHeight (nHeight b)) as Hle.
    { unfold follow_skip in Ef. apply orb_true_iff in Ef as [E|E]; [apply Z.eqb_eq in E; lia|].
      apply andb_true_iff in E as [E _]. apply Z.ltb_lt in E. lia. }
    destruct (nth_prev_height _ _ _ _ Hp Hskip) as (c & Hc & Ehc & _).
    replace (GetSkipHeight (nHeight b)) with (nHeight c) by lia.
    rewrite (IH s c Hc) by lia.
    replace (Z.to_nat (nHeight b - height))
      with (Z.to_nat (nHeight b - GetSkipHeight (nHeight b)) + Z.to_nat (nHeight c - height))%nat by lia.
    rewrite nth_prev_add, Hskip. done.
Qed.

Lemma GetAncestor_spec p b height :
  H !! p = Some b -> 0 <= height <= nHeight b ->
  GetAncestor H p height = Some (nth_prev H (Z.to_nat (nHeight b - height)) p).
Proof.
  intros Hp Hh. unfold GetAncestor. rewrite Hp.
  destruct (Z.ltb_spec (nHeight b) height); [lia|]. destruct (Z.ltb_spec height 0); [lia|]. simpl.
  rewrite ancestor_loop_spec by (done || lia).
  destruct (nth_prev_Some (Z.to_nat (nHeight b - height)) p b Hp ltac:(lia)) as (q & c & -> & _). done.
Qed.

Lemma GetAncestor_out p b height :
  H !! p = Some b -> height < 0 \/ nHeight b < height -> GetAncestor H p height = Some None.
Proof.
  intros Hp Hh. unfold GetAncestor. rewrite Hp.
  destruct (Z.ltb_spec (nHeight b) height), (Z.ltb_spec height 0); try lia; done.
Qed.

(** The form the rest of the development uses: the ancestor exists. *)
Lemma GetAncestor_Some p b height :
  H !! p = Some b -> 0 <= height <= nHeight b ->
  exists q c, GetAncestor H p height = Some (Some q) /\ H !! q = Some c
              /\ nHeight c = height /\ nth_prev H (Z.to_nat (nHeight b - height)) p = Some q.
Proof.
  intros Hp Hh. rewrite (GetAncestor_spec p b height Hp Hh).
  destruct (nth_prev_Some (Z.to_nat (nHeight b - height)) p b Hp ltac:(lia)) as (q & c & E1 & E2 & E3).
  exists q, c. rewrite E1. split; [done|]. split; [done|]. split; [lia|done].
Qed.
End Ancestors.

(** ** Block proofs *)

(** The expected number of hashes for a target [t]. *)
Definition proof_value (bits : Z) : Z :=
  let c := SetCompact bits in
  if fNegative c || fOverflow c || (value (target c) =? 0) then 0
  else 2 ^ 256 / (value (target c) + 1).

(** A target read from a header is never [2^256 - 1], so that [bnTarget + 1]
    does not wrap. *)
Lemma target_not_max bits :
  is_u32 bits -> fOverflow (SetCompact bits) = false ->
  value (target (SetCompact bits)) < 2 ^ 256 - 1.
Proof.
  intros Hb Hov. rewrite (proj2 (SetCompact_target bits Hb)).
  rewrite SetCompact_overflow in Hov by done. apply Z.leb_gt in Hov.
  destruct (SetCompact_fields bits Hb) as (_ & _ & Hs & Hw).
  unfold compact_decode. change (modulus W256) with (2 ^ 256) in *.
  rewrite Z.mod_small by (split; [apply scale256_nonneg; lia|done]).
  unfold scale256 in *. destruct (Z.leb_spec 0 (bits / 2 ^ 24 - 3)).
  - destruct (decide (bits / 2 ^ 24 = 3)) as [->|]; [simpl; lia|].
    replace (8 * (bits / 2 ^ 24 - 3)) with (8 * (bits / 2 ^ 24 - 3) - 1 + 1) in * by lia.
    rewrite Z.pow_add_r in * by lia. change (2 ^ 1) with 2 in *. lia.
  - assert (1 <= 2 ^ (8 * - (bits / 2 ^ 24 - 3))) by lia.
    assert (bits mod 2 ^ 23 / 2 ^ (8 * - (bits / 2 ^ 24 - 3)) <= bits mod 2 ^ 23)
      by (apply Z.div_le_upper_bound; nia). lia.
Qed.

Lemma GetBlockProof_spec bits :
  is_u32 bits ->
  exists pr, GetBlockProof bits = Some pr /\ wf256 pr /\ value pr = proof_value bits.
Proof.
  intros Hb. destruct (SetCompact_target bits Hb) as [Hw _].
  pose proof (target_not_max bits Hb) as Hmax.
  pose proof (wf_range _ _ Hw) as Hr. change (modulus W256) with (2 ^ 256) in Hr.
  destruct (BaseUintFacts.of_u64_spec W256 0) as [Hz Hzv]; [unfold W256; lia|unfold is_u64; lia|].
  destruct (BaseUintFacts.of_u64_spec W256 1) as [H1 H1v]; [unfold W256; lia|unfold is_u64; lia|].
  unfold GetBlockProof, proof_value.
  rewrite BaseUintFacts.EqualTo_spec by (destruct Hw as [Hl Ho]; rewrite ?Hl; done || unfold W256, is_u64; lia).
  destruct (fNegative (SetCompact bits)); [exact (ex_intro _ _ (conj eq_refl (conj Hz Hzv)))|].
  destruct (fOverflow (SetCompact bits)); [exact (ex_intro _ _ (conj eq_refl (conj Hz Hzv)))|].
  specialize (Hmax eq_refl). cbn [orb].
  destruct (Z.eqb_spec (value (target (SetCompact bits))) 0) as [E|E];
    [exact (ex_intro _ _ (conj eq_refl (conj Hz Hzv)))|].
  destruct (BaseUintFacts.op_compl_spec _ _ Hw) as [Hc Hcv].
  destruct (BaseUintFacts.add_assign_spec _ _ _ Hw H1) as [Hs Hsv].
  rewrite H1v, Z.mod_small in Hsv by (change (modulus W256) with (2 ^ 256); lia).
  pose proof (BaseUintFacts.div_assign_spec W256 _ _ Hc Hs) as Hd.
  destruct (BaseUint.div_assign W256 _ _) as [q|]; [|lia].
  destruct Hd as (_ & Hq & Hqv).
  destruct (BaseUintFacts.add_assign_spec _ _ _ Hq H1) as [Hq1 Hq1v].
  exists (BaseUint.add_assign q (BaseUint.of_u64 W256 1)). split; [reflexivity|]. split; [exact Hq1|].
  rewrite Hq1v, H1v, Hqv, Hcv, Hsv. change (modulus W256) with (2 ^ 256).
  set (t := value (target (SetCompact bits))) in *.
  assert ((2 ^ 256 - 1 - t) / (t + 1) + 1 = 2 ^ 256 / (t + 1)) as ->.
  { replace (2 ^ 256) with (2 ^ 256 - 1 - t + 1 * (t + 1)) at 2 by lia.
    rewrite Z.div_add by lia. done. }
  apply Z.mod_small. split; [apply Z.div_pos; lia|]. apply Z.div_lt_upper_bound; lia.
Qed.

Lemma proof_value_range bits : is_u32 bits -> 0 <= proof_value bits < 2 ^ 256.
Proof.
  intros Hb. destruct (GetBlockProof_spec bits Hb) as (pr & _ & Hw & <-). by apply (wf_range W256).
Qed.

(** ** Adding an entry keeps the invariant *)

(** Cumulative fields of an entry: total work and maximal time. *)
Definition parent_entry (H : heap) (b : CBlockIndex) : option CBlockIndex :=
  match pprev b with Some q => H !! q | None => None end.

Definition cumulative_ok (H : heap) (b : CBlockIndex) : Prop :=
  is_u32 (nBits b) /\ wf256 (nChainWork b) /\
  value (nChainWork b)
    = (match parent_entry H b with Some c => value (nChainWork c) | None => 0 end
       + proof_value (nBits b)) mod 2 ^ 256 /\
  nTimeMax b
    = match parent_entry H b with Some c => Z.max (nTimeMax c) (nTime b) | None => nTime b end.

Record index_ok (st : BlockIndexState) : Prop := {
  idx_heap : wf_heap (entries st);
  idx_map : forall h p, mapBlockIndex st !! h = Some p ->
              exists b, entries st !! p = Some b /\ phashBlock b = h;
  idx_back : forall p b, entries st !! p = Some b -> mapBlockIndex st !! phashBlock b = Some p;
  idx_cumulative : forall p b, entries st !! p = Some b -> cumulative_ok (entries st) b
}.

Lemma nth_prev_mono (H H' : heap) n p q :
  H ⊆ H' -> nth_prev H n p = Some q -> nth_prev H' n p = Some q.
Proof.
  intros Hsub. revert p. induction n as [|n IH]; intros p; [done|]. simpl.
  destruct (H !! p) as [b|] eqn:E; [|done]. rewrite (lookup_weaken _ _ _ _ E Hsub).
  destruct (pprev b); [apply IH|done].
Qed.

Lemma wf_entry_mono (H H' : heap) p b : H ⊆ H' -> wf_entry H p b -> wf_entry H' p b.
Proof.
  intros Hsub (H0 & Hp & Hs). split; [done|]. split.
  - destruct (pprev b); [|done]. destruct Hp as (c & Hc & Hh). exists c.
    split; [by eapply lookup_weaken|done].
  - intros s Es. eapply nth_prev_mono; eauto.
Qed.

(** The status bits do not take part in the invariant. *)
Lemma set_nStatus_fields b st :
  pprev (set_nStatus b st) = pprev b /\ pskip (set_nStatus b st) = pskip b /\
  nHeight (set_nStatus b st) = nHeight b /\ phashBlock (set_nStatus b st) = phashBlock b /\
  nChainWork (set_nStatus b st) = nChainWork b /\ nTime (set_nStatus b st) = nTime b /\
  nBits (set_nStatus b st) = nBits b /\ nTimeMax (set_nStatus b st) = nTimeMax b.
Proof. done. Qed.

Lemma RaiseValidity_eq b n : exists st, fst (RaiseValidity b n) = set_nStatus b st.
Proof.
  unfold RaiseValidity. assert (b = set_nStatus b (nStatus b)) as Hb by (by destruct b).
  destruct (negb _); [exists (nStatus b); exact Hb|].
  destruct (_ <? _); [|exists (nStatus b); exact Hb]. by eexists.
Qed.

(** What the linking code computes for a header whose parent is known, or
    for a root. *)
Lemma link_entry_spec st block :
  wf_heap (entries st) -> is_u32 (hBits block) ->
  (forall p b, entries st !! p = Some b -> wf256 (nChainWork b)) ->
  match mapBlockIndex st !! hashPrevBlock block with
  | Some q => exists c, entries st !! q = Some c
  | None => hHeight block = 0
  end ->
  exists b, link_entry st block = Some b /\
    (phashBlock b = hHash block /\ nBits b = hBits block /\ nStatus b = 0) /\
    pprev b = mapBlockIndex st !! hashPrevBlock block /\
    cumulative_ok (entries st) b /\
    match pprev b with
    | None => nHeight b = 0 /\ pskip b = None
    | Some q => exists c s, entries st !! q = Some c /\ nHeight b = nHeight c + 1 /\
        pskip b = Some s /\
        nth_prev (entries st) (Z.to_nat (nHeight c - GetSkipHeight (nHeight b))) q = Some s
    end.
Proof.
  intros Hwf Hbits Hwork Hpar. destruct (GetBlockProof_spec _ Hbits) as (pr & Epr & Hpw & Hpv).
  unfold link_entry. rewrite Epr.
  destruct (mapBlockIndex st !! hashPrevBlock block) as [q|] eqn:Eq.
  - destruct Hpar as [c Hc]. rewrite Hc. unfold BuildSkip. simpl pprev. simpl nHeight.
    pose proof (Hwf q c Hc) as [Hc0 _].
    pose proof (GetSkipHeight_bound (nHeight c + 1) ltac:(lia)) as Hsk.
    destruct (GetAncestor_Some _ Hwf q c (GetSkipHeight (nHeight c + 1)) Hc ltac:(lia))
      as (s & cs & -> & _ & _ & Hs).
    destruct (BaseUintFacts.add_assign_spec _ _ _ (Hwork q c Hc) Hpw) as [Haw Hav].
    eexists. split; [reflexivity|]. simpl. split; [done|]. split; [done|].
    split; [|exists c, s; done].
    split; [done|]. unfold parent_entry. simpl. rewrite Hc. rewrite Hav, Hpv. done.
  - destruct (BaseUintFacts.of_u64_spec W256 0) as [Hz Hzv]; [unfold W256; lia|unfold is_u64; lia|].
    destruct (BaseUintFacts.add_assign_spec _ _ _ Hz Hpw) as [Haw Hav].
    eexists. split; [reflexivity|]. simpl. split; [done|]. split; [done|].
    split; [|done].
    split; [done|]. unfold parent_entry. simpl. rewrite Hav, Hpv, Hzv. done.
Qed.

Lemma cumulative_ok_mono (H H' : heap) p b :
  H ⊆ H' -> wf_entry H p b -> cumulative_ok H b -> cumulative_ok H' b.
Proof.
  intros Hsub (_ & Hp & _) (H1 & H2 & H3 & H4).
  assert (parent_entry H' b = parent_entry H b) as E.
  { unfold parent_entry. destruct (pprev b) as [q|]; [|done]. destruct Hp as (c & Hc & _).
    rewrite Hc. by eapply lookup_weaken. }
  split; [done|]. split; [done|]. rewrite E. done.
Qed.

(** Inserting a linked entry at a fresh address. *)
Lemma insert_entry_ok (H : heap) pnew b :
  wf_heap H -> H !! pnew = None -> 0 <= nHeight b ->
  match pprev b with
  | None => nHeight b = 0 /\ pskip b = None
  | Some q => exists c s, H !! q = Some c /\ nHeight b = nHeight c + 1 /\ pskip b = Some s /\
      nth_prev H (Z.to_nat (nHeight c - GetSkipHeight (nHeight b))) q = Some s
  end -> wf_heap (<[pnew := b]> H).
Proof.
  intros Hwf Hfresh H0 Hl p c Hp.
  assert (H ⊆ <[pnew := b]> H) as Hsub by (by apply insert_subseteq).
  destruct (decide (pnew = p)) as [<-|Hne].
  - rewrite lookup_insert_eq in Hp. simplify_eq. split; [done|].
    destruct (pprev c) as [q|] eqn:Eq.
    + destruct Hl as (d & s & Hd & Hh & Es & Hs). split.
      { exists d. split; [by eapply lookup_weaken|done]. }
      intros s' Es'. simplify_eq.
      pose proof (GetSkipHeight_bound (nHeight c)) as Hb.
      pose proof (Hwf _ _ Hd) as [Hd0 _].
      replace (Z.to_nat (nHeight c - GetSkipHeight (nHeight c)))
        with (S (Z.to_nat (nHeight d - GetSkipHeight (nHeight c)))) by lia.
      simpl. rewrite lookup_insert_eq, Eq. by eapply nth_prev_mono.
    + destruct Hl as [Hh Es]. split; [done|]. intros s Es'. congruence.
  - rewrite lookup_insert_ne in Hp by done. eapply wf_entry_mono; eauto.
Qed.

Lemma wf_links b H :
  (forall p c, H !! p = Some c -> 0 <= nHeight c) ->
  match pprev b with
  | None => nHeight b = 0 /\ pskip b = None
  | Some q => exists c s, H !! q = Some c /\ nHeight b = nHeight c + 1 /\ pskip b = Some s /\
      nth_prev H (Z.to_nat (nHeight c - GetSkipHeight (nHeight b))) q = Some s
  end -> 0 <= nHeight b.
Proof.
  intros H0. destruct (pprev b).
  - intros (c & s & Hc & Hh & _). specialize (H0 _ _ Hc). lia.
  - intros [? _]. lia.
Qed.

(** A new entry in the state, whatever its status bits. *)
Lemma insert_state_ok st h pnew b best dirty prevs :
  index_ok st -> entries st !! pnew = None -> mapBlockIndex st !! h = None ->
  phashBlock b = h -> cumulative_ok (entries st) b ->
  match pprev b with
  | None => nHeight b = 0 /\ pskip b = None
  | Some q => exists c s, entries st !! q = Some c /\ nHeight b = nHeight c + 1 /\ pskip b = Some s /\
      nth_prev (entries st) (Z.to_nat (nHeight c - GetSkipHeight (nHeight b))) q = Some s
  end ->
  index_ok (mkState (<[h := pnew]> (mapBlockIndex st)) (<[pnew := b]> (entries st)) best dirty prevs).
Proof.
  intros [Hh Hm Hb Hc] Hfresh Hnew Ehash Hcum Hlink.
  assert (0 <= nHeight b) as H0.
  { eapply wf_links; [|exact Hlink]. intros p c Hp. by destruct (Hh p c Hp). }
  assert (entries st ⊆ <[pnew := b]> (entries st)) as Hsub by (by apply insert_subseteq).
  assert (wf_heap (<[pnew := b]> (entries st))) as Hwf by (by apply insert_entry_ok).
  split; simpl; [done| | |].
  - intros h' p Hp. destruct (decide (h = h')) as [<-|Hne].
    + rewrite lookup_insert_eq in Hp. simplify_eq. exists b. by rewrite lookup_insert_eq.
    + rewrite lookup_insert_ne in Hp by done. destruct (Hm _ _ Hp) as (c & Hpc & Ec).
      exists c. split; [by eapply lookup_weaken|done].
  - intros p c Hp. destruct (decide (pnew = p)) as [<-|Hne].
    + rewrite lookup_insert_eq in Hp. simplify_eq. by rewrite lookup_insert_eq.
    + rewrite lookup_insert_ne in Hp by done. pose proof (Hb _ _ Hp) as Hbk.
      rewrite lookup_insert_ne; [done|]. congruence.
  - intros p c Hp. destruct (decide (pnew = p)) as [<-|Hne].
    + rewrite lookup_insert_eq in Hp. simplify_eq.
      destruct Hcum as (A1 & A2 & A3 & A4). unfold cumulative_ok.
      replace (parent_entry (<[pnew := c]> (entries st)) c) with (parent_entry (entries st) c); [done|].
      unfold parent_entry. destruct (pprev c) as [q|]; [|done].
      destruct Hlink as (d & s & Hd & _). rewrite Hd. symmetry. by eapply lookup_weaken.
    + rewrite lookup_insert_ne in Hp by done. eapply cumulative_ok_mono; eauto.
Qed.

(** When a header may enter the index: it is new, its parent is known (or it
    is a root at height 0), and the allocator returns a fresh address. *)
Definition can_add (st : BlockIndexState) (block : CBlockHeader) (pnew : ptr) : Prop :=
  is_u32 (hBits block) /\ entries st !! pnew = None /\ hashPrevBlock block <> hHash block /\
  (mapBlockIndex st !! hashPrevBlock block = None -> hHeight block = 0).

Definition linked_as (st : BlockIndexState) (block : CBlockHeader) (b : CBlockIndex) : Prop :=
  phashBlock b = hHash block /\ nBits b = hBits block /\
  pprev b = mapBlockIndex st !! hashPrevBlock block.

(** The new entry of [AddToBlockIndex], before its status is set. *)
Lemma AddToBlockIndex_link st block pnew :
  index_ok st -> can_add st block pnew ->
  let st1 := mkState (<[hHash block := pnew]> (mapBlockIndex st)) (entries st)
               (pindexBestHeader st) (setDirtyBlockIndex st) (mapPrevBlockIndex st) in
  exists b, link_entry st1 block = Some b /\ linked_as st block b /\ nStatus b = 0 /\
    cumulative_ok (entries st) b /\
    match pprev b with
    | None => nHeight b = 0 /\ pskip b = None
    | Some q => exists c s, entries st !! q = Some c /\ nHeight b = nHeight c + 1 /\
        pskip b = Some s /\
        nth_prev (entries st) (Z.to_nat (nHeight c - GetSkipHeight (nHeight b))) q = Some s
    end.
Proof.
  intros Hok (Hbits & Hfresh & Hself & Hroot) st1.
  assert (mapBlockIndex st1 !! hashPrevBlock block = mapBlockIndex st !! hashPrevBlock block) as Eprev.
  { simpl. apply lookup_insert_ne. congruence. }
  destruct (link_entry_spec st1 block) as (b & E & (Eh & Eb & Es) & Ep & Hcum & Hlink);
    [apply Hok|done| | |].
  { intros p b Hp. by destruct (idx_cumulative _ Hok _ _ Hp) as (_ & Hw & _). }
  { rewrite Eprev. destruct (mapBlockIndex st !! hashPrevBlock block) as [q|] eqn:Eq; [|by apply Hroot].
    destruct (idx_map _ Hok _ _ Eq) as (c & Hc & _). by exists c. }
  rewrite Eprev in Ep. exists b. done.
Qed.

Lemma AddToBlockIndex_new st block status pnew :
  index_ok st -> can_add st block pnew -> mapBlockIndex st !! hHash block = None ->
  exists st' b, AddToBlockIndex st block status pnew = Some (st', pnew) /\
    index_ok st' /\ entries st' = <[pnew := b]> (entries st) /\
    mapBlockIndex st' = <[hHash block := pnew]> (mapBlockIndex st) /\
    linked_as st block b.
Proof.
  intros Hok Hadd Hnew. unfold AddToBlockIndex. rewrite Hnew.
  destruct (AddToBlockIndex_link st block pnew Hok Hadd) as (b & -> & Hl & _ & Hcum & Hlink).
  destruct (RaiseValidity_eq b status) as [s1 E1].
  destruct (RaiseValidity_eq b BLOCK_VALID_TREE) as [s2 E2].
  destruct Hadd as (_ & Hfresh & _). destruct Hl as (Eh & Hl).
  destruct (negb _); rewrite ?E1, ?E2; (eexists _, _; split; [reflexivity|]);
    (split; [|done]); eapply insert_state_ok; eauto.
Qed.

(** ** Reachable indexes *)

Definition BLOCK_CONFLICT_CHAINLOCK : Z := 256.

Definition empty_index : BlockIndexState := mkState ∅ ∅ None ∅ [].

(** [AcceptBlockHeader] and [LoadGenesisBlock] add headers with one of two statuses. *)
Definition add_status (conflict : bool) : Z :=
  if conflict then BLOCK_CONFLICT_CHAINLOCK else BLOCK_VALID_TREE.

Inductive index_reachable : BlockIndexState -> Prop :=
| reach_empty : index_reachable empty_index
| reach_add st block conflict pnew st' p :
    index_reachable st -> can_add st block pnew ->
    AddToBlockIndex st block (add_status conflict) pnew = Some (st', p) ->
    index_reachable st'.

(** The best header: an entry with the most work among the entries that do
    not conflict with a chain lock. *)
Definition best_ok (st : BlockIndexState) : Prop :=
  (forall pb, pindexBestHeader st = Some pb -> exists cb, entries st !! pb = Some cb) /\
  forall p b, entries st !! p = Some b -> Z.land (nStatus b) BLOCK_CONFLICT_CHAINLOCK = 0 ->
    exists pb cb, pindexBestHeader st = Some pb /\ entries st !! pb = Some cb /\
      value (nChainWork b) <= value (nChainWork cb).

Lemma AddToBlockIndex_known st block status pnew p :
  mapBlockIndex st !! hHash block = Some p -> AddToBlockIndex st block status pnew = Some (st, p).
Proof. intros H. unfold AddToBlockIndex. by rewrite H. Qed.

Lemma empty_index_ok : index_ok empty_index.
Proof.
  split; simpl.
  - intros p b. by rewrite lookup_empty.
  - intros h p. by rewrite lookup_empty.
  - intros p b. by rewrite lookup_empty.
  - intros p b. by rewrite lookup_empty.
Qed.

Lemma BLOCK_conflict_bit b : nStatus b = 0 ->
  Z.land (nStatus (set_nStatus (fst (RaiseValidity b BLOCK_VALID_TREE))
     (Z.lor (nStatus (fst (RaiseValidity b BLOCK_VALID_TREE))) BLOCK_CONFLICT_CHAINLOCK)))
    BLOCK_CONFLICT_CHAINLOCK <> 0.
Proof. intros E. unfold RaiseValidity. rewrite E. by vm_compute. Qed.

(** [best_ok] is kept when the entry at the fresh address [pnew] joins and the
    best header is replaced exactly when the new entry has more work. *)
Lemma best_ok_insert st pnew b best m dirty prevs :
  best_ok st -> entries st !! pnew = None ->
  ((Z.land (nStatus b) BLOCK_CONFLICT_CHAINLOCK <> 0 /\ best = pindexBestHeader st) \/
   best = match pindexBestHeader st with
          | None => Some pnew
          | Some pb => match entries st !! pb with
                       | Some cb => if value (nChainWork cb) <? value (nChainWork b)
                                    then Some pnew else Some pb
                       | None => Some pb
                       end
          end) ->
  best_ok (mkState m (<[pnew := b]> (entries st)) best dirty prevs).
Proof.
  intros [Hin Hmax] Hfresh Hbest.
  assert (forall p c, entries st !! p = Some c -> <[pnew := b]> (entries st) !! p = Some c) as Hw.
  { intros p c Hp. rewrite lookup_insert_ne; [done|congruence]. }
  assert (Hnew : <[pnew := b]> (entries st) !! pnew = Some b) by apply lookup_insert_eq.
  split; simpl.
  - intros pb ->. destruct Hbest as [[_ E]|E].
    + destruct (Hin pb (eq_sym E)) as [cb Hcb]. eauto.
    + destruct (pindexBestHeader st) as [pb'|]; [|simplify_eq; eauto].
      destruct (Hin pb' eq_refl) as [cb Hcb]. rewrite Hcb in E.
      destruct (_ <? _); simplify_eq; eauto.
  - intros p c Hp Hbit. destruct (decide (p = pnew)) as [->|Hne].
    + rewrite Hnew in Hp. simplify_eq. destruct Hbest as [[? _]| ->]; [done|].
      destruct (pindexBestHeader st) as [pb|] eqn:Eb; [|eexists _, _; split; [done|]; split; [done|lia]].
      destruct (Hin pb eq_refl) as [cb Hcb]. rewrite Hcb.
      destruct (Z.ltb_spec (value (nChainWork cb)) (value (nChainWork c)));
        [exists pnew, c|exists pb, cb]; (split; [done|]; split; [auto|lia]).
    + rewrite lookup_insert_ne in Hp by congruence.
      destruct (Hmax p c Hp Hbit) as (pb & cb & Eb & Hcb & Hle). rewrite Eb, Hcb in Hbest.
      destruct Hbest as [[_ ->]| ->]; [exists pb, cb; auto|].
      destruct (Z.ltb_spec (value (nChainWork cb)) (value (nChainWork b)));
        [exists pnew, b|exists pb, cb]; (split; [done|]; split; [auto|lia]).
Qed.

Lemma AddToBlockIndex_best st block conflict pnew st' p :
  index_ok st -> best_ok st -> can_add st block pnew ->
  AddToBlockIndex st block (add_status conflict) pnew = Some (st', p) -> best_ok st'.
Proof.
  intros Hok Hbest Hadd. pose proof Hadd as (_ & Hfresh & _). unfold AddToBlockIndex.
  destruct (mapBlockIndex st !! hHash block); [congruence|].
  destruct (AddToBlockIndex_link st block pnew Hok Hadd) as (b & -> & _ & Es & Hcum & _).
  destruct conflict; simpl; intros [= <- <-]; (apply best_ok_insert; [done..|]).
  - left. split; [by apply BLOCK_conflict_bit|done].
  - right. destruct (pindexBestHeader st) as [pb|]; [|done].
    destruct (entries st !! pb) as [cb|] eqn:Ec; [|done].
    destruct (idx_cumulative _ Hok _ _ Ec) as (_ & Hwc & _). destruct Hcum as (_ & Hwb & _).
    rewrite (BaseUintFacts.lt_spec _ _ _ Hwc Hwb).
    destruct (RaiseValidity_eq b BLOCK_VALID_TREE) as [s ->]. done.
Qed.

Lemma index_reachable_ok st : index_reachable st -> index_ok st /\ best_ok st.
Proof.
  induction 1 as [|st block conflict pnew st' p Hr [Hok Hbest] Hadd E].
  - split; [apply empty_index_ok|]. split; [done|]. intros p b. simpl. by rewrite lookup_empty.
  - split; [|by eapply AddToBlockIndex_best].
    destruct (mapBlockIndex st !! hHash block) as [q|] eqn:Em.
    + rewrite (AddToBlockIndex_known _ _ _ _ _ Em) in E. by simplify_eq.
    + destruct (AddToBlockIndex_new _ _ (add_status conflict) _ Hok Hadd Em)
        as (st2 & b & E2 & Hok2 & _). congruence.
Qed.

Lemma AddToBlockIndex_total st block status pnew :
  index_ok st -> can_add st block pnew ->
  exists st' p, AddToBlockIndex st block status pnew = Some (st', p) /\
    entries st ⊆ entries st' /\ mapBlockIndex st' !! hHash block = Some p.
Proof.
  intros Hok Hadd. destruct (mapBlockIndex st !! hHash block) as [p|] eqn:Em.
  - exists st, p. split; [by apply AddToBlockIndex_known|]. done.
  - destruct (AddToBlockIndex_new st block status pnew Hok Hadd Em)
      as (st' & b & E & _ & Ee & Ef & _).
    exists st', pnew. split; [done|]. rewrite Ee, Ef. split; [|apply lookup_insert_eq].
    apply insert_subseteq. apply Hadd.
Qed.

(** A small index: a root, a chain of four headers on it and a fork. *)
Definition example_headers : list (CBlockHeader * bool) :=
  [ (mkHeader 100 0 1 1000 545259519 0, false);
    (mkHeader 101 100 1 1060 545259519 0, false);
    (mkHeader 102 101 1 1120 545259519 0, false);
    (mkHeader 202 101 1 1130 545259519 0, true);
    (mkHeader 103 102 1 1180 545259519 0, false);
    (mkHeader 104 103 1 1240 486604799 0, false) ].

(** Headers added at consecutive addresses. *)
Fixpoint add_headers (st : BlockIndexState) (pnew : ptr) (l : list (CBlockHeader * bool))
    : option BlockIndexState :=
  match l with
  | [] => Some st
  | (h, conflict) :: l' =>
      match AddToBlockIndex st h (add_status conflict) pnew with
      | Some (st', _) => add_headers st' (pnew + 1) l'
      | None => None
      end
  end.

Definition example_index : BlockIndexState :=
  default empty_index (add_headers empty_index 1 example_headers).

Definition can_addb (st : BlockIndexState) (block : CBlockHeader) (pnew : ptr) : bool :=
  (0 <=? hBits block) && (hBits block <? 2 ^ 32) && bool_decide (entries st !! pnew = None)
  && negb (hashPrevBlock block =? hHash block)
  && (bool_decide (is_Some (mapBlockIndex st !! hashPrevBlock block)) || (hHeight block =? 0)).

Lemma can_addb_sound st block pnew : can_addb st block pnew = true -> can_add st block pnew.
Proof.
  unfold can_addb. rewrite !andb_true_iff. intros [[[[H1 H2] H3] H4] H5].
  apply bool_decide_eq_true in H3. split; [unfold is_u32; lia|]. split; [done|]. split; [lia|].
  intros E. rewrite E in H5. rewrite bool_decide_eq_false_2 in H5 by (by intros [? ?]). simpl in H5. lia.
Qed.

Fixpoint can_add_headers (st : BlockIndexState) (pnew : ptr) (l : list (CBlockHeader * bool)) : bool :=
  match l with
  | [] => true
  | (h, conflict) :: l' =>
      can_addb st h pnew &&
      match AddToBlockIndex st h (add_status conflict) pnew with
      | Some (st', _) => can_add_headers st' (pnew + 1) l'
      | None => false
      end
  end.

Lemma add_headers_reachable l st pnew st' :
  index_reachable st -> can_add_headers st pnew l = true -> add_headers st pnew l = Some st' ->
  index_reachable st'.
Proof.
  revert st pnew. induction l as [|[h c] l IH]; simpl; intros st pnew Hr Hc Ha; [congruence|].
  apply andb_true_iff in Hc as [Hc Hc'].
  destruct (AddToBlockIndex st h (add_status c) pnew) as [[st1 p]|] eqn:E; [|done].
  eapply IH; [|exact Hc'|exact Ha]. eapply reach_add; [exact Hr| |exact E]. by apply can_addb_sound.
Qed.

Lemma example_reachable : index_reachable example_index.
Proof.
  apply (add_headers_reachable example_headers empty_index 1); [constructor|..]; by vm_compute.
Qed.

Lemma example_tip : exists b, entries example_index !! 6 = Some b /\ nHeight b = 4.
Proof.
  destruct (entries example_index !! 6) as [b|] eqn:E; [|by vm_compute in E].
  exists b. split; [done|]. vm_compute in E. injection E as <-. reflexivity.
Qed.

(** C3. Every index built by [AddToBlockIndex] from the empty one is a
    well-formed tree: heights grow by one along [pprev], skip pointers lead to the
    ancestor at the skip height, the hash map and the entries agree, the
    cumulative work of an entry is its parent's work plus its own proof and
    [nTimeMax] is the maximum along its branch; the best header has the most work
    among the entries that do not conflict with a chain lock; and adding another
    header with a known parent succeeds and keeps all entries. *)
Theorem block_index_invariant st :
  index_reachable st ->
  index_ok st /\ best_ok st /\
  forall block status pnew, can_add st block pnew ->
    exists st' p, AddToBlockIndex st block status pnew = Some (st', p) /\
      entries st ⊆ entries st' /\ mapBlockIndex st' !! hHash block = Some p.
Proof.
  intros Hr. destruct (index_reachable_ok st Hr) as [Hok Hbest].
  split; [done|]. split; [done|]. intros. by apply AddToBlockIndex_total.
Qed.

Lemma block_index_invariant_witness :
  index_ok example_index /\ size (entries example_index) = 6%nat /\
  pindexBestHeader example_index = Some 6.
Proof.
  split; [|by vm_compute].
  exact (proj1 (block_index_invariant example_index example_reachable)).
Defined.

(** C25. In a reachable index the skip-list walk of [GetAncestor] returns, for
    every height up to the entry's own, the entry that following [pprev] step by step
    reaches, and a null pointer for any other height; it never fails. *)
Theorem GetAncestor_is_pprev_walk st p b height :
  index_reachable st -> entries st !! p = Some b ->
  GetAncestor (entries st) p height
    = Some (if (0 <=? height) && (height <=? nHeight b)
            then nth_prev (entries st) (Z.to_nat (nHeight b - height)) p else None) /\
  (0 <= height <= nHeight b ->
   exists q c, GetAncestor (entries st) p height = Some (Some q) /\
               entries st !! q = Some c /\ nHeight c = height).
Proof.
  intros Hr Hp. destruct (index_reachable_ok st Hr) as [[Hwf _ _ _] _]. split.
  - destruct (Z.leb_spec 0 height), (Z.leb_spec height (nHeight b)); simpl;
      [by apply GetAncestor_spec|eapply GetAncestor_out; eauto; lia..].
  - intros Hh. destruct (GetAncestor_Some _ Hwf p b height Hp Hh) as (q & c & E1 & E2 & E3 & _).
    by exists q, c.
Qed.

Lemma GetAncestor_is_pprev_walk_witness :
  GetAncestor (entries example_index) 6 1
    = Some (nth_prev (entries example_index) 3 6).
Proof.
  destruct example_tip as (b & E & Eh).
  pose proof (proj1 (GetAncestor_is_pprev_walk example_index 6 b 1 example_reachable E)) as Hw.
  rewrite Eh in Hw. exact Hw.
Defined.

(** [GetBlockProof] computes the expected number of hashes
    [2^256 / (target + 1)] although [2^256] is not representable, never divides by
    zero, and is 0 exactly for a negative, overflowing or zero target. *)
Theorem GetBlockProof_expected_hashes bits :
  is_u32 bits ->
  let c := SetCompact bits in
  exists proof, GetBlockProof bits = Some proof /\ wf256 proof /\
    value proof = (if fNegative c || fOverflow c || (value (target c) =? 0) then 0
                   else 2 ^ 256 / (value (target c) + 1)) /\
    (value proof = 0 <-> fNegative c || fOverflow c || (value (target c) =? 0) = true).
Proof.
  intros Hb c. destruct (GetBlockProof_spec bits Hb) as (pr & E & Hw & Hv).
  exists pr. split; [done|]. split; [done|]. split; [done|]. rewrite Hv. unfold proof_value. fold c.
  destruct (fNegative c || fOverflow c || (value (target c) =? 0)) eqn:Ec; [done|].
  split; [|done]. intros Hz. apply orb_false_iff in Ec as [Ec _].
  apply orb_false_iff in Ec as [_ Eo].
  pose proof (target_not_max bits Hb Eo) as Hlt. fold c in Hlt.
  destruct (SetCompact_target bits Hb) as [Hwt _]. fold c in Hwt.
  pose proof (wf_range _ _ Hwt) as Hr.
  assert (1 <= 2 ^ 256 / (value (target c) + 1)); [apply Z.div_le_lower_bound; lia|lia].
Qed.

Lemma GetBlockProof_expected_hashes_witness :
  exists proof, GetBlockProof 486604799 = Some proof /\ value proof = 4295032833.
Proof.
  destruct (GetBlockProof_expected_hashes 486604799) as (pr & E & _ & Hv & _);
    [unfold is_u32; lia|].
  exists pr. split; [exact E|]. rewrite Hv. by vm_compute.
Defined.
