(* ===== verification/ActiveChain.v ===== *)
(** [CChain] of [chain.h] and [chain.cpp]: the active chain as a vector of
    block index pointers, one per height.  [SetTip] rewrites it in place and
    stops at the first slot that already holds the right pointer; the theorems
    show that the vector is the path from the root to the tip and that
    [FindFork], [LastCommonAncestor], [Next] and [GetLocator] compute on that path
    what they promise. *)

From stdpp Require Import prelude gmap.
From Stdlib Require Import ZArith Lia.
From S2P Require Import Prelude ArithUint256 Compact Chain.

Open Scope Z_scope.

(** ** The active chain *)

(** [std::vector<CBlockIndex*> vChain] *)
Abbreviation CChain := (list (option ptr)).

Definition at_height (c : CChain) (h : Z) : option ptr :=
  if (h <? 0) || (Z.of_nat (length c) <=? h) then None else default None (c !! Z.to_nat h).

Definition Genesis (c : CChain) : option ptr :=
  if (0 <? length c)%nat then default None (c !! O) else None.

Definition Tip (c : CChain) : option ptr :=
  if (0 <? length c)%nat then default None (c !! (length c - 1)%nat) else None.

Definition Height (c : CChain) : Z := Z.of_nat (length c) - 1.

Definition Contains (H : heap) (c : CChain) (p : ptr) : bool :=
  match H !! p with
  | Some b => bool_decide (at_height c (nHeight b) = Some p)
  | None => false
  end.

Definition Next (H : heap) (c : CChain) (p : ptr) : option ptr :=
  if Contains H c p
  then match H !! p with Some b => at_height c (nHeight b + 1) | None => None end
  else None.

(** [vector::resize]: truncate, or extend with null pointers. *)
Definition vresize (c : CChain) (n : nat) : CChain := take n c ++ replicate (n - length c) None.

(** [while (pindex && vChain[pindex->nHeight] != pindex)] *)
Fixpoint settip_loop (H : heap) (fuel : nat) (c : CChain) (p : option ptr) : option CChain :=
  match p with
  | None => Some c
  | Some q =>
      match H !! q with
      | None => None
      | Some b =>
          if decide (c !! Z.to_nat (nHeight b) = Some (Some q)) then Some c
          else match fuel with
               | O => None
               | S fuel' =>
                   settip_loop H fuel' (<[Z.to_nat (nHeight b) := Some q]> c) (pprev b)
               end
      end
  end.

Definition SetTip (H : heap) (c : CChain) (p : option ptr) : option CChain :=
  match p with
  | None => Some []
  | Some q =>
      match H !! q with
      | None => None
      | Some b =>
          let n := Z.to_nat (nHeight b + 1) in
          settip_loop H n (vresize c n) (Some q)
      end
  end.

(** [FindFork] *)
Fixpoint fork_loop (H : heap) (fuel : nat) (c : CChain) (p : option ptr) : ptr_result :=
  match p with
  | None => Some None
  | Some q =>
      if Contains H c q then Some (Some q)
      else match fuel with
           | O => None
           | S fuel' =>
               match H !! q with
               | None => None
               | Some b => fork_loop H fuel' c (pprev b)
               end
           end
  end.

Definition FindFork (H : heap) (c : CChain) (p : option ptr) : ptr_result :=
  match p with
  | None => Some None
  | Some q =>
      match H !! q with
      | None => None
      | Some b =>
          let start := if Height c <? nHeight b then GetAncestor H q (Height c) else Some (Some q) in
          match start with
          | None => None
          | Some s => fork_loop H (Z.to_nat (nHeight b) + 1) c s
          end
      end
  end.

(** [GetLocator]: hashes at exponentially growing distances; the step doubles
    once more than ten hashes have been collected. *)
Fixpoint locator_loop (H : heap) (fuel : nat) (c : CChain) (p : option ptr)
    (nStep : Z) (vHave : list Z) : option (list Z) :=
  match p with
  | None => Some vHave
  | Some q =>
      match fuel with
      | O => None
      | S fuel' =>
          match H !! q with
          | None => None
          | Some b =>
              let vHave' := vHave ++ [phashBlock b] in
              if nHeight b =? 0 then Some vHave'
              else
                let h := Z.max (nHeight b - nStep) 0 in
                let next := if Contains H c q then Some (at_height c h) else GetAncestor H q h in
                let nStep' := if (10 <? length vHave')%nat then nStep * 2 else nStep in
                match next with
                | None => None
                | Some p' => locator_loop H fuel' c p' nStep' vHave'
                end
          end
      end
  end.

Definition GetLocator (H : heap) (c : CChain) (p : option ptr) : option (list Z) :=
  let start := match p with None => Tip c | Some _ => p end in
  let fuel := match start with
              | Some q => match H !! q with Some b => Z.to_nat (nHeight b) + 1 | None => 1 end
              | None => 1
              end%nat in
  locator_loop H fuel c start 1 [].

(** [FindEarliestAtLeast]: [std::lower_bound] on [GetBlockTimeMax], that is the
    binary search of the first slot whose [nTimeMax] is at least [time]. *)
Fixpoint lower_bound (H : heap) (fuel : nat) (c : CChain) (first count : nat) (time : Z) : option nat :=
  match count with
  | O => Some first
  | S _ =>
      match fuel with
      | O => None
      | S fuel' =>
          let step := (count / 2)%nat in
          match c !! (first + step)%nat with
          | Some (Some q) =>
              match H !! q with
              | Some b =>
                  if nTimeMax b <? time
                  then lower_bound H fuel' c (first + step + 1) (count - (step + 1)) time
                  else lower_bound H fuel' c first step time
              | None => None
              end
          | _ => None
          end
      end
  end.

Definition FindEarliestAtLeast (H : heap) (c : CChain) (time : Z) : ptr_result :=
  match lower_bound H (length c) c 0 (length c) time with
  | None => None
  | Some i => Some (if (i =? length c)%nat then None else default None (c !! i))
  end.

(** ** The path to a tip *)

(** [c] is the path from the root to [q], whose entry is [b]. *)
Definition path_to (H : heap) (c : CChain) (q : ptr) (b : CBlockIndex) : Prop :=
  H !! q = Some b /\ length c = S (Z.to_nat (nHeight b)) /\
  forall i, (i <= Z.to_nat (nHeight b))%nat ->
    c !! i = Some (nth_prev H (Z.to_nat (nHeight b) - i) q).

Definition is_path (H : heap) (c : CChain) : Prop := c = [] \/ exists q b, path_to H c q b.

Section Paths.
Context (H : heap) (Hwf : wf_heap H).

Lemma path_slot c q b i :
  path_to H c q b -> (i <= Z.to_nat (nHeight b))%nat ->
  exists p cb, c !! i = Some (Some p) /\ H !! p = Some cb /\ nHeight cb = Z.of_nat i
    /\ nth_prev H (Z.to_nat (nHeight b) - i) q = Some p.
Proof.
  intros (Hq & _ & Hp) Hi. pose proof (Hwf _ _ Hq) as [H0 _].
  destruct (nth_prev_Some H Hwf (Z.to_nat (nHeight b) - i) q b Hq ltac:(lia)) as (p & cb & E & Hc & Hh).
  exists p, cb. rewrite (Hp i Hi), E. split; [done|]. split; [done|]. split; [lia|done].
Qed.

(** Below a slot that holds [p], the slots hold the ancestors of [p]. *)
Lemma path_below c i p cb :
  is_path H c -> c !! i = Some (Some p) -> H !! p = Some cb ->
  nHeight cb = Z.of_nat i /\
  forall j, (j <= i)%nat -> c !! j = Some (nth_prev H (i - j) p).
Proof.
  intros [->|(q & b & Hpath)] Hi Hcb; [done|].
  assert (i <= Z.to_nat (nHeight b))%nat as Hle.
  { apply lookup_lt_Some in Hi. destruct Hpath as (_ & Hl & _). lia. }
  destruct (path_slot _ _ _ _ Hpath Hle) as (p' & cb' & E & Hcb' & Hh & Hn). simplify_eq.
  split; [done|]. intros j Hj. destruct Hpath as (Hq & Hl & Hp). rewrite Hp by lia. f_equal.
  replace (Z.to_nat (nHeight b) - j)%nat with ((Z.to_nat (nHeight b) - i) + (i - j))%nat by lia.
  by rewrite nth_prev_add, Hn.
Qed.

Lemma vresize_length c n : length (vresize c n) = n.
Proof. unfold vresize. rewrite length_app, length_take, length_replicate. lia. Qed.

Lemma vresize_lookup c n i p : vresize c n !! i = Some (Some p) -> c !! i = Some (Some p) /\ (i < n)%nat.
Proof.
  unfold vresize. intros E. apply lookup_app_Some in E as [E|[_ E]].
  - apply lookup_take_Some in E as [E Hi]. done.
  - apply lookup_replicate in E as [E _]. done.
Qed.

(** The loop of [SetTip]: slots above [i] are right, slots up to [i] are those
    of the old chain, and the loop fixes the latter. *)
Lemma settip_loop_spec c0 c q b fuel p cb i :
  is_path H c0 -> H !! q = Some b -> length c = S (Z.to_nat (nHeight b)) ->
  (i <= Z.to_nat (nHeight b))%nat -> nth_prev H (Z.to_nat (nHeight b) - i) q = Some p ->
  H !! p = Some cb -> nHeight cb = Z.of_nat i -> (i < fuel)%nat ->
  (forall j, (i < j <= Z.to_nat (nHeight b))%nat ->
     c !! j = Some (nth_prev H (Z.to_nat (nHeight b) - j) q)) ->
  (forall j r, (j <= i)%nat -> c !! j = Some (Some r) -> c0 !! j = Some (Some r)) ->
  (forall j r, (j <= i)%nat -> c0 !! j = Some (Some r) -> c !! j = Some (Some r)) ->
  exists c', settip_loop H fuel c (Some p) = Some c' /\ path_to H c' q b.
Proof.
  intros Hc0 Hq. revert c p cb i. induction fuel as [|fuel IH]; [lia|].
  intros c p cb i Hlen Hi Hp Hcb Hh Hf Habove Hold Hold'. cbn [settip_loop]. rewrite Hcb.
  replace (Z.to_nat (nHeight cb)) with i by lia.
  destruct (decide (c !! i = Some (Some p))) as [Hhit|Hmiss].
  - exists c. split; [done|]. split; [done|]. split; [done|]. intros j Hj.
    destruct (decide (i < j)%nat) as [|Hji]; [apply Habove; lia|].
    destruct (path_below _ _ _ _ Hc0 (Hold _ _ (Nat.le_refl i) Hhit) Hcb) as [_ Hbelow].
    pose proof (Hbelow j ltac:(lia)) as Hj0.
    destruct (nth_prev_Some H Hwf (i - j) p cb Hcb ltac:(lia)) as (r & cr & Er & _).
    rewrite Er in Hj0. rewrite (Hold' j r ltac:(lia) Hj0). f_equal.
    replace (Z.to_nat (nHeight b) - j)%nat with ((Z.to_nat (nHeight b) - i) + (i - j))%nat by lia.
    by rewrite nth_prev_add, Hp, Er.
  - assert (Hset : <[i := Some p]> c !! i = Some (Some p)) by (apply list_lookup_insert_eq; lia).
    destruct (Hwf _ _ Hcb) as (_ & Hprev & _). destruct (pprev cb) as [r|] eqn:Er.
    + destruct Hprev as (cr & Hcr & Hhr). pose proof (Hwf _ _ Hcr) as [Hr0 _].
      apply (IH _ r cr (i - 1)%nat); try done; try lia.
      * by rewrite length_insert.
      * replace (Z.to_nat (nHeight b) - (i - 1))%nat with ((Z.to_nat (nHeight b) - i) + 1)%nat by lia.
        rewrite nth_prev_add, Hp. simpl. by rewrite Hcb, Er.
      * intros j Hj. destruct (decide (j = i)) as [->|]; [by rewrite Hset, Hp|].
        rewrite list_lookup_insert_ne by done. apply Habove; lia.
      * intros j r' Hj. rewrite list_lookup_insert_ne by lia. apply Hold; lia.
      * intros j r' Hj. rewrite list_lookup_insert_ne by lia. apply Hold'; lia.
    + exists (<[i := Some p]> c). assert (i = 0%nat) as -> by lia.
      split; [by destruct fuel|]. split; [done|]. split; [by rewrite length_insert|].
      intros j Hj. destruct (decide (j = 0%nat)) as [->|]; [by rewrite Hset, Hp|].
      rewrite list_lookup_insert_ne by done. apply Habove; lia.
Qed.

Lemma SetTip_spec c0 q b :
  is_path H c0 -> H !! q = Some b ->
  exists c, SetTip H c0 (Some q) = Some c /\ path_to H c q b.
Proof.
  intros Hc0 Hq. unfold SetTip. rewrite Hq. pose proof (Hwf _ _ Hq) as [H0 _].
  replace (Z.to_nat (nHeight b + 1)) with (S (Z.to_nat (nHeight b))) by lia.
  apply (settip_loop_spec c0 _ q b _ q b (Z.to_nat (nHeight b))); try done; try lia.
  - apply vresize_length.
  - by replace (Z.to_nat (nHeight b) - Z.to_nat (nHeight b))%nat with 0%nat by lia.
  - intros j r _ E. by apply vresize_lookup in E as [E _].
  - intros j r Hj E. unfold vresize. rewrite lookup_app_l; [rewrite lookup_take_lt; [done|lia]|].
    apply lookup_lt_Some in E. rewrite length_take. lia.
Qed.
End Paths.

(** ** Common ancestors *)

(** [r] is the highest common ancestor of [a] and [b]. *)
Definition is_hca (H : heap) (a b r : ptr) : Prop :=
  is_ancestor H r a /\ is_ancestor H r b /\
  forall s, is_ancestor H s a -> is_ancestor H s b -> is_ancestor H s r.

(** What a search for a common ancestor returns: the highest one, or null when
    the two entries are in different trees. *)
Definition hca_result (H : heap) (a b : ptr) (r : option ptr) : Prop :=
  match r with
  | Some x => is_hca H a b x
  | None => forall s, is_ancestor H s a -> is_ancestor H s b -> False
  end.

Section Common.
Context (H : heap) (Hwf : wf_heap H).

Lemma is_ancestor_refl p : is_ancestor H p p.
Proof. by exists 0%nat. Qed.

Lemma is_ancestor_trans a b c : is_ancestor H a b -> is_ancestor H b c -> is_ancestor H a c.
Proof. intros [n Hn] [m Hm]. exists (m + n)%nat. by rewrite nth_prev_add, Hm. Qed.

Lemma is_ancestor_height a p b :
  is_ancestor H a p -> H !! p = Some b -> exists c, H !! a = Some c /\ nHeight c <= nHeight b.
Proof.
  intros [n Hn] Hp. destruct (nth_prev_height H Hwf _ _ _ _ Hp Hn) as (c & Hc & Hh & _).
  exists c. split; [done|lia].
Qed.

Lemma is_ancestor_linear a s p b ca cs :
  H !! p = Some b -> is_ancestor H a p -> is_ancestor H s p ->
  H !! a = Some ca -> H !! s = Some cs -> nHeight cs <= nHeight ca -> is_ancestor H s a.
Proof.
  intros Hp [n Hn] [m Hm] Ha Hs Hle.
  destruct (nth_prev_height H Hwf _ _ _ _ Hp Hn) as (ca' & Ha' & Hhn & _).
  destruct (nth_prev_height H Hwf _ _ _ _ Hp Hm) as (cs' & Hs' & Hhm & _). simplify_eq.
  exists (m - n)%nat. replace m with (n + (m - n))%nat in Hm by lia.
  by rewrite nth_prev_add, Hn in Hm.
Qed.

(** An ancestor is the entry itself or an ancestor of its parent. *)
Lemma is_ancestor_step a p b :
  H !! p = Some b ->
  is_ancestor H a p <-> a = p \/ exists q, pprev b = Some q /\ is_ancestor H a q.
Proof.
  intros Hp. split.
  - intros [[|n] Hn]; [left; by injection Hn|]. simpl in Hn. rewrite Hp in Hn.
    destruct (pprev b) as [q|]; [|done]. right. exists q. split; [done|]. by exists n.
  - intros [->|(q & Eq & n & Hn)]; [apply is_ancestor_refl|]. exists (S n). simpl. by rewrite Hp, Eq.
Qed.

Lemma is_ancestor_same_height a p b c :
  is_ancestor H a p -> H !! p = Some b -> H !! a = Some c -> nHeight c = nHeight b -> a = p.
Proof.
  intros [n Hn] Hp Ha Hh. destruct (nth_prev_height H Hwf _ _ _ _ Hp Hn) as (c' & Ha' & Hhn & _).
  simplify_eq. assert (n = 0%nat) as -> by lia. by injection Hn.
Qed.

(** The loop on two entries of the same height. *)
Lemma lca_loop_spec fuel a b ca cb :
  H !! a = Some ca -> H !! b = Some cb -> nHeight ca = nHeight cb ->
  (Z.to_nat (nHeight ca) < fuel)%nat ->
  exists r, lca_loop H fuel (Some a) (Some b) = Some (r, r) /\ hca_result H a b r.
Proof.
  revert a b ca cb. induction fuel as [|fuel IH]; [lia|]. intros a b ca cb Ha Hb Hh Hf.
  cbn [lca_loop]. destruct (Z.eqb_spec a b) as [->|Hne].
  { exists (Some b). split; [done|]. split; [apply is_ancestor_refl|]. split; [apply is_ancestor_refl|done]. }
  rewrite Ha, Hb.
  assert (forall s, is_ancestor H s a -> is_ancestor H s b ->
            exists qa qb, pprev ca = Some qa /\ pprev cb = Some qb /\
                          is_ancestor H s qa /\ is_ancestor H s qb) as Hup.
  { intros s Hsa Hsb. pose proof (proj1 (is_ancestor_step s a ca Ha) Hsa) as [->|(qa & Ea & Hqa)].
    { exfalso. apply Hne. by eapply is_ancestor_same_height. }
    pose proof (proj1 (is_ancestor_step s b cb Hb) Hsb) as [->|(qb & Eb & Hqb)].
    { exfalso. apply Hne. symmetry. by eapply is_ancestor_same_height. }
    by exists qa, qb. }
  destruct (Hwf _ _ Ha) as (H0 & Hpa & _), (Hwf _ _ Hb) as (_ & Hpb & _).
  destruct (pprev ca) as [qa|] eqn:Ea, (pprev cb) as [qb|] eqn:Eb.
  - destruct Hpa as (da & Hda & Ehda), Hpb as (db & Hdb & Ehdb).
    pose proof (Hwf _ _ Hda) as [Hd0 _].
    destruct (IH qa qb da db Hda Hdb ltac:(lia) ltac:(lia)) as (r & E & Hr).
    exists r. split; [done|]. destruct r as [x|]; simpl in *.
    + destruct Hr as (Hxa & Hxb & Hmax).
      split; [apply (is_ancestor_step x a ca Ha); eauto|].
      split; [apply (is_ancestor_step x b cb Hb); eauto|].
      intros s Hsa Hsb. destruct (Hup s Hsa Hsb) as (? & ? & [= <-] & [= <-] & ? & ?). auto.
    + intros s Hsa Hsb. destruct (Hup s Hsa Hsb) as (? & ? & [= <-] & [= <-] & ? & ?). eauto.
  - destruct Hpa as (da & Hda & Ehda). pose proof (Hwf _ _ Hda) as [Hd0 _]. lia.
  - destruct Hpb as (db & Hdb & Ehdb). pose proof (Hwf _ _ Hdb) as [Hd0 _]. lia.
  - exists None. split; [by destruct fuel|]. intros s Hsa Hsb.
    destruct (Hup s Hsa Hsb) as (? & ? & ? & _). done.
Qed.

Lemma hca_result_sym a b r : hca_result H a b r -> hca_result H b a r.
Proof.
  destruct r; simpl; [|eauto]. intros (H1 & H2 & H3). split; [done|]. split; [done|]. auto.
Qed.

Lemma hca_unique a b ca r r' :
  H !! a = Some ca -> hca_result H a b r -> hca_result H a b r' -> r = r'.
Proof.
  intros Ha. destruct r as [x|], r' as [y|]; simpl; try done.
  - intros (H1 & H2 & H3) (H1' & H2' & H3'). f_equal.
    pose proof (H3 y H1' H2') as Hyx. pose proof (H3' x H1 H2) as Hxy.
    destruct (is_ancestor_height x a ca H1 Ha) as (cx & Hx & _).
    destruct (is_ancestor_height y x cx Hyx Hx) as (cy & Hy & Hle).
    destruct (is_ancestor_height x y cy Hxy Hy) as (cx' & Hx' & Hle'). rewrite Hx in Hx'.
    injection Hx' as <-. apply (is_ancestor_same_height x y cy cx); [done..|lia].
  - intros (H1 & H2 & _) Hn. by destruct (Hn x).
  - intros Hn (H1 & H2 & _). by destruct (Hn y).
Qed.

(** Replacing the higher entry by its ancestor at the other's height. *)
Lemma hca_align a b a' ca cb ca' r :
  H !! a = Some ca -> H !! b = Some cb -> H !! a' = Some ca' -> is_ancestor H a' a ->
  nHeight cb <= nHeight ca' -> hca_result H a' b r -> hca_result H a b r.
Proof.
  intros Ha Hb Ha' Hanc Hh Hr.
  assert (forall s, is_ancestor H s a -> is_ancestor H s b -> is_ancestor H s a') as Hdown.
  { intros s Hsa Hsb. destruct (is_ancestor_height s b cb Hsb Hb) as (cs & Hs & Hle).
    eapply (is_ancestor_linear a' s a); eauto. lia. }
  destruct r as [x|]; simpl in *; [|eauto].
  destruct Hr as (H1 & H2 & H3). split; [exact (is_ancestor_trans _ _ _ H1 Hanc)|]. split; [done|]. auto.
Qed.

Lemma LastCommonAncestor_spec a b ca cb :
  H !! a = Some ca -> H !! b = Some cb ->
  exists r, LastCommonAncestor H a b = Some r /\ hca_result H a b r.
Proof.
  intros Ha Hb. unfold LastCommonAncestor. rewrite Ha, Hb.
  pose proof (Hwf _ _ Ha) as [Ha0 _]. pose proof (Hwf _ _ Hb) as [Hb0 _].
  destruct (Z.ltb_spec (nHeight cb) (nHeight ca)); [|destruct (Z.ltb_spec (nHeight ca) (nHeight cb))].
  - destruct (GetAncestor_Some H Hwf a ca (nHeight cb) Ha ltac:(lia)) as (a' & ca' & -> & Ha' & Hh & Hn).
    simpl. edestruct (lca_loop_spec (Z.to_nat (nHeight ca) + Z.to_nat (nHeight cb) + 1) a' b)
      as (r & -> & Hr); [done..|lia|].
    rewrite decide_True by done. exists r. split; [done|].
    eapply (hca_align a b a'); [done..|by eexists|lia|done].
  - destruct (GetAncestor_Some H Hwf b cb (nHeight ca) Hb ltac:(lia)) as (b' & cb' & -> & Hb' & Hh & Hn).
    simpl. edestruct (lca_loop_spec (Z.to_nat (nHeight ca) + Z.to_nat (nHeight cb) + 1) a b')
      as (r & -> & Hr); [done..|lia|].
    rewrite decide_True by done. exists r. split; [done|]. apply hca_result_sym.
    eapply (hca_align b a b'); [done..|by eexists|lia|by apply hca_result_sym].
  - edestruct (lca_loop_spec (Z.to_nat (nHeight ca) + Z.to_nat (nHeight cb) + 1) a b)
      as (r & -> & Hr); [done..|lia|lia|].
    rewrite decide_True by done. by exists r.
Qed.

(** ** Queries on the active chain *)

Lemma at_height_path c t tb h :
  path_to H c t tb -> 0 <= h <= nHeight tb ->
  exists p cb, at_height c h = Some p /\ H !! p = Some cb /\ nHeight cb = h /\ is_ancestor H p t.
Proof.
  intros Hpath Hh. destruct (path_slot H Hwf c t tb (Z.to_nat h) Hpath ltac:(lia))
    as (p & cb & E & Hp & Ehp & Hn).
  exists p, cb. unfold at_height. destruct Hpath as (_ & Hl & _). rewrite Hl.
  destruct (Z.ltb_spec h 0); [lia|]. destruct (Z.leb_spec (Z.of_nat (S (Z.to_nat (nHeight tb)))) h); [lia|].
  simpl. rewrite E. split; [done|]. split; [done|]. split; [lia|]. by eexists.
Qed.

Lemma at_height_out c t tb h :
  path_to H c t tb -> h < 0 \/ nHeight tb < h -> at_height c h = None.
Proof.
  intros (Ht & Hl & _) Hh. pose proof (Hwf _ _ Ht) as [H0 _]. unfold at_height. rewrite Hl.
  destruct (Z.ltb_spec h 0), (Z.leb_spec (Z.of_nat (S (Z.to_nat (nHeight tb)))) h); done || lia.
Qed.

Lemma Contains_spec c t tb p b :
  path_to H c t tb -> H !! p = Some b -> Contains H c p = true <-> is_ancestor H p t.
Proof.
  intros Hpath Hp. unfold Contains. rewrite Hp, bool_decide_eq_true.
  pose proof (Hwf _ _ Hp) as [H0 _]. split.
  - intros E. destruct (decide (nHeight b <= nHeight tb)).
    + destruct (at_height_path c t tb (nHeight b) Hpath ltac:(lia)) as (q & _ & E' & _ & _ & Ha).
      congruence.
    + rewrite (at_height_out c t tb) in E; [done|done|lia].
  - intros Ha. pose proof Hpath as (Ht & _). destruct (is_ancestor_height p t tb Ha Ht) as (b' & Hp' & Hle).
    rewrite Hp in Hp'. injection Hp' as <-. destruct (at_height_path c t tb (nHeight b) Hpath ltac:(lia)) as (q & cq & E & Hq & Hh & Haq).
    rewrite E. f_equal. eapply (is_ancestor_same_height q p); eauto.
    apply (is_ancestor_linear p q t tb b cq); eauto. lia.
Qed.

Lemma fork_loop_spec fuel c t tb p b :
  path_to H c t tb -> H !! p = Some b -> (Z.to_nat (nHeight b) < fuel)%nat ->
  exists r, fork_loop H fuel c (Some p) = Some r /\ hca_result H p t r.
Proof.
  intros Hpath. revert p b. induction fuel as [|fuel IH]; [lia|]. intros p b Hp Hf.
  cbn [fork_loop]. pose proof (Contains_spec c t tb p b Hpath Hp) as Hcont.
  destruct (Contains H c p).
  { exists (Some p). split; [done|]. split; [apply is_ancestor_refl|]. split; [by apply Hcont|done]. }
  assert (~ is_ancestor H p t) as Hnot by (intros ?%Hcont; done). rewrite Hp.
  destruct (Hwf _ _ Hp) as (H0 & Hprev & _). destruct (pprev b) as [q|] eqn:Eq.
  - destruct Hprev as (cq & Hq & Hh). pose proof (Hwf _ _ Hq) as [Hq0 _].
    destruct (IH q cq Hq ltac:(lia)) as (r & E & Hr). exists r. split; [done|].
    assert (forall s, is_ancestor H s p -> is_ancestor H s t -> is_ancestor H s q) as Hup.
    { intros s Hsp Hst. apply (is_ancestor_step s p b Hp) in Hsp as [->|(q' & Eq' & Hs)]; [done|].
      congruence. }
    destruct r as [x|]; simpl in *; [|eauto]. destruct Hr as (H1 & H2 & H3).
    split; [apply (is_ancestor_step x p b Hp); eauto|]. split; [done|]. auto.
  - exists None. split; [by destruct fuel|]. intros s Hsp Hst.
    apply (is_ancestor_step s p b Hp) in Hsp as [->|(q' & Eq' & Hs)]; [done|congruence].
Qed.

Lemma FindFork_spec c t tb q b :
  path_to H c t tb -> H !! q = Some b ->
  exists r, FindFork H c (Some q) = Some r /\ hca_result H q t r.
Proof.
  intros Hpath Hq. unfold FindFork. rewrite Hq. pose proof (Hwf _ _ Hq) as [H0 _].
  pose proof Hpath as (Ht & Hl & _). pose proof (Hwf _ _ Ht) as [Ht0 _].
  assert (Height c = nHeight tb) as -> by (unfold Height; lia).
  destruct (Z.ltb_spec (nHeight tb) (nHeight b)).
  - destruct (GetAncestor_Some H Hwf q b (nHeight tb) Hq ltac:(lia)) as (q' & b' & -> & Hq' & Hh & Hn).
    destruct (fork_loop_spec (Z.to_nat (nHeight b) + 1) c t tb q' b' Hpath Hq' ltac:(lia)) as (r & -> & Hr).
    exists r. split; [done|]. apply (hca_align q t q' b tb b'); [done..|by eexists|lia|done].
  - destruct (fork_loop_spec (Z.to_nat (nHeight b) + 1) c t tb q b Hpath Hq ltac:(lia)) as (r & -> & Hr).
    by exists r.
Qed.

Lemma Next_spec c t tb p b :
  path_to H c t tb -> H !! p = Some b ->
  (Contains H c p = false \/ p = t -> Next H c p = None) /\
  (Contains H c p = true -> p <> t ->
   exists q cq, Next H c p = Some q /\ H !! q = Some cq /\ pprev cq = Some p /\ is_ancestor H q t).
Proof.
  intros Hpath Hp. pose proof Hpath as (Ht & _). pose proof (Hwf _ _ Hp) as [H0 _].
  unfold Next. rewrite Hp. split.
  - intros [-> | ->]; [done|]. rewrite Ht in Hp. injection Hp as <-. destruct (Contains H c t); [|done].
    apply (at_height_out c t tb); [done|lia].
  - intros Hc Hne. rewrite Hc. apply (Contains_spec c t tb p b Hpath Hp) in Hc as Ha.
    destruct (is_ancestor_height p t tb Ha Ht) as (b' & Hb' & Hle). rewrite Hp in Hb'. injection Hb' as <-.
    assert (nHeight b <> nHeight tb) as Hneq.
    { intros E. apply Hne. by apply (is_ancestor_same_height p t tb b). }
    destruct (at_height_path c t tb (nHeight b + 1) Hpath ltac:(lia)) as (q & cq & E & Hq & Hh & Haq).
    exists q, cq. split; [done|]. split; [done|]. split; [|done].
    assert (is_ancestor H p q) as Hpq by (apply (is_ancestor_linear q p t tb cq b); eauto; lia).
    apply (is_ancestor_step p q cq Hq) in Hpq as [->|(q' & Eq & Hpq)]; [simplify_eq; lia|].
    rewrite Eq. f_equal. destruct (Hwf _ _ Hq) as (_ & Hprev & _). rewrite Eq in Hprev.
    destruct Hprev as (c' & Hc' & Hh'). symmetry.
    apply (is_ancestor_same_height p q' c' b); [done..|lia].
Qed.

(** A locator: ancestors in strictly descending order, down to the root. *)
Inductive locator_from : ptr -> list ptr -> Prop :=
| loc_root p b : H !! p = Some b -> nHeight b = 0 -> locator_from p [p]
| loc_step p b q c l :
    H !! p = Some b -> is_ancestor H q p -> H !! q = Some c -> nHeight c < nHeight b ->
    locator_from q l -> locator_from p (p :: l).

Definition hash_of (p : ptr) : Z := match H !! p with Some b => phashBlock b | None => 0 end.

(** The next entry of the locator is the ancestor at the height asked for,
    whether it comes from the chain vector or from the skip list. *)
Lemma locator_next c p b h :
  is_path H c -> H !! p = Some b -> 0 <= h <= nHeight b ->
  exists q cq,
    (if Contains H c p then Some (at_height c h) else GetAncestor H p h) = Some (Some q) /\
    H !! q = Some cq /\ nHeight cq = h /\ is_ancestor H q p.
Proof.
  intros Hpath Hp Hh.
  destruct (GetAncestor_Some H Hwf p b h Hp Hh) as (q & cq & E & Hq & Hhq & Hn).
  exists q, cq. split; [|split; [done|]; split; [done|by eexists]].
  destruct (Contains H c p) eqn:Ec; [|done]. unfold Contains in Ec. rewrite Hp in Ec.
  apply bool_decide_eq_true in Ec. unfold at_height in *.
  destruct ((nHeight b <? 0) || _) eqn:Eb; [done|]. apply orb_false_iff in Eb as [_ Eb].
  apply Z.leb_gt in Eb.
  destruct (c !! Z.to_nat (nHeight b)) as [s|] eqn:Es; [|done]. simpl in Ec. subst s.
  destruct (path_below H Hwf c _ p b Hpath Es Hp) as [_ Hbelow].
  destruct (Z.ltb_spec h 0); [lia|]. destruct (Z.leb_spec (Z.of_nat (length c)) h); [lia|]. simpl.
  rewrite (Hbelow (Z.to_nat h)) by lia.
  replace (Z.to_nat (nHeight b) - Z.to_nat h)%nat with (Z.to_nat (nHeight b - h)) by lia.
  by rewrite Hn.
Qed.

Lemma locator_loop_spec fuel c p b nStep vHave m :
  is_path H c -> H !! p = Some b -> (Z.to_nat (nHeight b) < fuel)%nat -> 1 <= nStep ->
  ((10 <= length vHave)%nat \/ nStep = 1) -> nHeight b <= nStep * (2 ^ Z.of_nat m - 1) ->
  exists l, locator_loop H fuel c (Some p) nStep vHave = Some (vHave ++ map hash_of l) /\
    locator_from p l /\ (length l <= (10 - length vHave) + m + 1)%nat.
Proof.
  intros Hpath. revert p b nStep vHave m. induction fuel as [|fuel IH]; [lia|].
  intros p b nStep vHave m Hp Hf Hs Hk Hm. cbn [locator_loop]. rewrite Hp.
  pose proof (Hwf _ _ Hp) as [H0 _].
  assert (hash_of p = phashBlock b) as Eh by (unfold hash_of; by rewrite Hp).
  destruct (Z.eqb_spec (nHeight b) 0) as [Hz|Hnz].
  { exists [p]. simpl. rewrite Eh. split; [done|]. split; [by econstructor|lia]. }
  destruct (locator_next c p b (Z.max (nHeight b - nStep) 0) Hpath Hp ltac:(lia))
    as (q & cq & -> & Hq & Hhq & Ha).
  assert (exists m', let s' := if (10 <? length (vHave ++ [phashBlock b]))%nat then nStep * 2 else nStep in
    nHeight cq <= s' * (2 ^ Z.of_nat m' - 1) /\
    (10 - (length vHave + 1) + m' + 2 <= 10 - length vHave + m + 1)%nat) as (m' & Hm' & Hlen).
  { rewrite length_app. simpl length. destruct (Nat.ltb_spec 10 (length vHave + 1)).
    - destruct m as [|m]; [simpl in Hm; lia|]. exists m. split; [|lia].
      rewrite Nat2Z.inj_succ, Z.pow_succ_r in Hm by lia.
      assert (1 <= 2 ^ Z.of_nat m) by lia. nia.
    - destruct (decide (length vHave = 10)%nat); [lia|].
      exists m. destruct Hk as [Hk| ->]; [lia|]. split; [|lia].
      assert (1 <= 2 ^ Z.of_nat m) by lia. lia. }
  destruct (IH q cq (if (10 <? length (vHave ++ [phashBlock b]))%nat then nStep * 2 else nStep)
              (vHave ++ [phashBlock b]) m' Hq) as (l & -> & Hl & Hlen'); [lia| | |done|].
  - destruct (_ <? _)%nat; lia.
  - destruct (Nat.ltb_spec 10 (length (vHave ++ [phashBlock b]))); [lia|].
    rewrite length_app in *. simpl in *. lia.
  - exists (p :: l). split; [by rewrite <- app_assoc; simpl; rewrite Eh|].
    split; [by eapply (loc_step p b q cq); try done; lia|]. rewrite length_app in Hlen'. simpl in *. lia.
Qed.

Lemma GetLocator_spec c p b m :
  is_path H c -> H !! p = Some b -> nHeight b < 2 ^ Z.of_nat m ->
  exists l, GetLocator H c (Some p) = Some (map hash_of l) /\ locator_from p l /\
    (length l <= 11 + m)%nat.
Proof.
  intros Hpath Hp Hm. pose proof (Hwf _ _ Hp) as [H0 _]. unfold GetLocator. rewrite Hp.
  destruct (locator_loop_spec (Z.to_nat (nHeight b) + 1) c p b 1 [] m Hpath Hp) as (l & E & Hl & Hlen);
    [lia..|]. exists l. split; [done|]. split; [done|]. simpl in Hlen. lia.
Qed.

(** ** The binary search by time *)

Definition slot_time (c : CChain) (i : nat) : option Z :=
  match c !! i with
  | Some (Some q) => option_map nTimeMax (H !! q)
  | _ => None
  end.

(** Every slot has a time, and times do not decrease with the height. *)
Definition times_sorted (c : CChain) : Prop :=
  (forall i, (i < length c)%nat -> exists t, slot_time c i = Some t) /\
  (forall i j t u, (i <= j)%nat -> slot_time c i = Some t -> slot_time c j = Some u -> t <= u).

Lemma nTimeMax_ancestor n p b q cq :
  (forall r d, H !! r = Some d -> cumulative_ok H d) ->
  H !! p = Some b -> nth_prev H n p = Some q -> H !! q = Some cq -> nTimeMax cq <= nTimeMax b.
Proof.
  intros Hcum. revert p b. induction n as [|n IH]; intros p b Hp Hn Hq.
  - injection Hn as <-. simplify_eq. lia.
  - simpl in Hn. rewrite Hp in Hn. destruct (pprev b) as [r|] eqn:Er; [|done].
    destruct (Hwf _ _ Hp) as (_ & Hprev & _). rewrite Er in Hprev. destruct Hprev as (d & Hd & _).
    pose proof (IH r d Hd Hn Hq). destruct (Hcum _ _ Hp) as (_ & _ & _ & Ht).
    unfold parent_entry in Ht. rewrite Er, Hd in Ht. lia.
Qed.

Lemma path_times_sorted c :
  (forall r d, H !! r = Some d -> cumulative_ok H d) -> is_path H c -> times_sorted c.
Proof.
  intros Hcum Hpath. assert (forall i p, c !! i = Some (Some p) -> is_Some (H !! p)) as Hin.
  { intros i p Hi. destruct Hpath as [->|(t & tb & Hpath)]; [done|].
    assert (i <= Z.to_nat (nHeight tb))%nat as Hle.
    { apply lookup_lt_Some in Hi. destruct Hpath as (_ & Hl & _). lia. }
    destruct (path_slot H Hwf c t tb i Hpath Hle) as (q & cq & E & Hq & _). simplify_eq. by exists cq. }
  split.
  - intros i Hi. destruct Hpath as [->|(t & tb & Hpath)]; [simpl in Hi; lia|].
    destruct (path_slot H Hwf c t tb i Hpath) as (q & cq & E & Hq & _).
    { destruct Hpath as (_ & Hl & _). lia. }
    exists (nTimeMax cq). unfold slot_time. by rewrite E, Hq.
  - intros i j t u Hij Hi Hj. unfold slot_time in *.
    destruct (c !! i) as [[p|]|] eqn:Ei; [|done..]. destruct (c !! j) as [[q|]|] eqn:Ej; [|done..].
    destruct (H !! p) as [bp|] eqn:Hp; [|done]. destruct (H !! q) as [bq|] eqn:Hq; [|done].
    simplify_eq/=. destruct (path_below H Hwf c j q bq Hpath Ej Hq) as [_ Hbelow].
    pose proof (Hbelow i Hij) as E. rewrite Ei in E. injection E as E.
    by apply (nTimeMax_ancestor (j - i) q bq p bp).
Qed.

Lemma lower_bound_spec fuel c first count time :
  times_sorted c -> (first + count <= length c)%nat -> (count <= fuel)%nat ->
  (forall j t, (j < first)%nat -> slot_time c j = Some t -> t < time) ->
  (forall j t, (first + count <= j)%nat -> slot_time c j = Some t -> time <= t) ->
  exists i, lower_bound H fuel c first count time = Some i /\ (i <= length c)%nat /\
    (forall j t, (j < i)%nat -> slot_time c j = Some t -> t < time) /\
    (forall j t, (i <= j)%nat -> slot_time c j = Some t -> time <= t).
Proof.
  intros [Hall Hmono]. revert first count.
  induction fuel as [|fuel IH]; intros first count Hb Hf Hlo Hhi.
  - destruct count; [|lia]. exists first. simpl. rewrite Nat.add_0_r in *. done.
  - destruct count as [|n]; [exists first; simpl; rewrite Nat.add_0_r in *; done|].
    cbn [lower_bound]. set (count := S n) in *.
    assert (count / 2 < count)%nat as Hhalf by (apply Nat.div_lt; lia).
    destruct (Hall (first + count / 2)%nat ltac:(lia)) as [t Ht]. pose proof Ht as Ht'.
    unfold slot_time in Ht. destruct (c !! (first + count / 2)%nat) as [[q|]|]; [|done..].
    destruct (H !! q) as [b|]; [|done]. simpl in Ht. injection Ht as Ht. rewrite Ht.
    destruct (Z.ltb_spec t time) as [Hlt|Hge].
    + apply IH; [lia|lia| |].
      * intros j u Hj Hu. assert (u <= t); [|lia]. eapply (Hmono j (first + count / 2)%nat); eauto. lia.
      * intros j u Hj Hu. eapply Hhi; [|done]. lia.
    + apply IH; [lia|lia|done|].
      intros j u Hj Hu. assert (t <= u); [|lia]. eapply (Hmono (first + count / 2)%nat j); eauto.
Qed.
End Common.

(** ** The index and the active chain together *)

Lemma is_path_mono (H H' : heap) c : wf_heap H -> H ⊆ H' -> is_path H c -> is_path H' c.
Proof.
  intros Hwf Hsub [->|(q & b & Hpath)]; [by left|]. right. exists q, b.
  pose proof Hpath as (Hq & Hl & _). split; [by eapply lookup_weaken|]. split; [done|].
  intros i Hi. destruct (path_slot H Hwf c q b i Hpath Hi) as (p & cp & E & _ & _ & Hn).
  rewrite E. f_equal. symmetry. by eapply nth_prev_mono.
Qed.

(** Headers arrive and the tip moves, in any order. *)
Inductive chain_reachable : BlockIndexState -> CChain -> Prop :=
| chain_start : chain_reachable empty_index []
| chain_add st c block conflict pnew st' p :
    chain_reachable st c -> can_add st block pnew ->
    AddToBlockIndex st block (add_status conflict) pnew = Some (st', p) ->
    chain_reachable st' c
| chain_settip st c q c' :
    chain_reachable st c ->
    match q with Some p => is_Some (entries st !! p) | None => True end ->
    SetTip (entries st) c q = Some c' ->
    chain_reachable st c'.

Lemma chain_reachable_ok st c :
  chain_reachable st c -> index_reachable st /\ wf_heap (entries st) /\ is_path (entries st) c /\
  (forall p b, entries st !! p = Some b -> cumulative_ok (entries st) b).
Proof.
  assert (forall st, index_reachable st -> wf_heap (entries st) /\
    (forall p b, entries st !! p = Some b -> cumulative_ok (entries st) b)) as Hidx.
  { intros s Hr. destruct (index_reachable_ok s Hr) as [[Hh _ _ Hc] _]. done. }
  induction 1 as [|st c block conflict pnew st' p _ (Hr & Hwf & Hpath & _) Hadd E|
                  st c q c' _ (Hr & Hwf & Hpath & Hcum) Hq E].
  - assert (index_reachable empty_index) as Hr by constructor. destruct (Hidx _ Hr).
    split; [done|]. split; [done|]. split; [by left|done].
  - assert (index_reachable st') as Hr' by (by eapply reach_add). destruct (Hidx _ Hr').
    split; [done|]. split; [done|]. split; [|done].
    destruct (index_reachable_ok st Hr) as [Hok _].
    destruct (AddToBlockIndex_total st block (add_status conflict) pnew Hok Hadd) as (st2 & p2 & E2 & Hsub & _).
    rewrite E in E2. injection E2 as <- <-. exact (is_path_mono _ _ _ Hwf Hsub Hpath).
  - split; [done|]. split; [done|]. split; [|done]. destruct q as [q|].
    + destruct Hq as [b Hb]. destruct (SetTip_spec _ Hwf c q b Hpath Hb) as (c2 & E2 & Hp2).
      rewrite E in E2. injection E2 as <-. right. by exists q, b.
    + injection E as <-. by left.
Qed.

Lemma path_Tip H c q b : path_to H c q b -> Tip c = Some q /\ Height c = Z.of_nat (Z.to_nat (nHeight b)).
Proof.
  intros (_ & Hl & Hp). unfold Tip, Height. rewrite Hl.
  replace (S (Z.to_nat (nHeight b)) - 1)%nat with (Z.to_nat (nHeight b)) by lia.
  rewrite (Hp (Z.to_nat (nHeight b))) by lia. rewrite Nat.sub_diag. split; [done|lia].
Qed.

(** The chain of the examples: the tip moves to the fork and then to the end
    of the longer branch. *)
Definition example_chain (q : ptr) : CChain :=
  default [] (c ← SetTip (entries example_index) [] (Some 4);
              SetTip (entries example_index) c (Some q)).

Lemma add_headers_chain l st c pnew st' :
  chain_reachable st c -> can_add_headers st pnew l = true -> add_headers st pnew l = Some st' ->
  chain_reachable st' c.
Proof.
  revert st pnew. induction l as [|[h f] l IH]; simpl; intros st pnew Hr Hc Ha; [congruence|].
  apply andb_true_iff in Hc as [Hc Hc'].
  destruct (AddToBlockIndex st h (add_status f) pnew) as [[st1 p]|] eqn:E; [|done].
  eapply IH; [|exact Hc'|exact Ha]. eapply chain_add; [exact Hr| |exact E]. by apply can_addb_sound.
Qed.

Lemma example_chain_reachable : chain_reachable example_index (example_chain 6).
Proof.
  assert (chain_reachable example_index []) as H0.
  { apply (add_headers_chain example_headers empty_index [] 1); [constructor|..]; by vm_compute. }
  assert (chain_reachable example_index (default [] (SetTip (entries example_index) [] (Some 4)))) as H1.
  { eapply (chain_settip _ [] (Some 4)); [exact H0|by apply is_Some_alt; vm_compute|by vm_compute]. }
  eapply (chain_settip _ _ (Some 6)); [exact H1|by apply is_Some_alt; vm_compute|by vm_compute].
Qed.

(** However headers arrive and tips are set, [SetTip] succeeds, and although
    it stops at the first slot that already holds the right pointer, the vector it leaves
    is exactly the path from the root to the new tip: [Contains] holds of the
    ancestors of the tip and of nothing else, and [Next] is the child on that path. *)
Theorem SetTip_gives_path st c q b :
  chain_reachable st c -> entries st !! q = Some b ->
  exists c', SetTip (entries st) c (Some q) = Some c' /\ path_to (entries st) c' q b /\
    Tip c' = Some q /\ Height c' = nHeight b /\
    forall p d, entries st !! p = Some d ->
      (Contains (entries st) c' p = true <-> is_ancestor (entries st) p q) /\
      (Contains (entries st) c' p = true -> p <> q ->
       exists n e, Next (entries st) c' p = Some n /\ entries st !! n = Some e /\ pprev e = Some p).
Proof.
  intros Hr Hq. destruct (chain_reachable_ok st c Hr) as (_ & Hwf & Hpath & _).
  destruct (SetTip_spec _ Hwf c q b Hpath Hq) as (c' & E & Hp').
  destruct (path_Tip _ _ _ _ Hp') as [Et Eh]. pose proof (Hwf _ _ Hq) as [H0 _].
  exists c'. split; [done|]. split; [done|]. split; [done|]. split; [lia|].
  intros p d Hd. split; [by apply (Contains_spec _ Hwf c' q b p d)|]. intros Hc Hne.
  destruct (proj2 (Next_spec _ Hwf c' q b p d Hp' Hd) Hc Hne) as (n & e & E1 & E2 & E3 & _).
  by exists n, e.
Qed.

Lemma SetTip_gives_path_witness :
  exists c', SetTip (entries example_index) (example_chain 6) (Some 4) = Some c' /\ Tip c' = Some 4.
Proof.
  destruct (entries example_index !! 4) as [b|] eqn:E; [|by vm_compute in E].
  destruct (SetTip_gives_path example_index (example_chain 6) 4 b example_chain_reachable E)
    as (c' & E1 & _ & E2 & _).
  exists c'. exact (conj E1 E2).
Defined.

(** C27. [FindFork] and [LastCommonAncestor] both return the highest common
    ancestor (of the entry and the tip, of the two entries), or a null pointer when the
    entries have no common ancestor; the final assertion of
    [LastCommonAncestor] never fails. *)
Theorem fork_is_highest_common_ancestor st c t q b d :
  chain_reachable st c -> path_to (entries st) c t b -> entries st !! q = Some d ->
  exists r, FindFork (entries st) c (Some q) = Some r /\
            LastCommonAncestor (entries st) q t = Some r /\
            hca_result (entries st) q t r.
Proof.
  intros Hr Hpath Hq. destruct (chain_reachable_ok st c Hr) as (_ & Hwf & _).
  destruct (FindFork_spec _ Hwf c t b q d Hpath Hq) as (r & E & Hres).
  pose proof Hpath as (Ht & _).
  destruct (LastCommonAncestor_spec _ Hwf q t d b Hq Ht) as (r2 & E2 & Hres2).
  exists r. split; [done|]. split; [|done]. rewrite E2. f_equal.
  by apply (hca_unique (entries st) Hwf q t d r2 r).
Qed.

Lemma example_path : exists b, path_to (entries example_index) (example_chain 6) 6 b /\ nHeight b = 4.
Proof.
  destruct example_tip as (b & E & Eh).
  exists b. split; [|done]. split; [done|]. rewrite Eh. split; [by vm_compute|].
  intros i Hi. change (Z.to_nat 4) with 4%nat in *.
  assert (i = 0 \/ i = 1 \/ i = 2 \/ i = 3 \/ i = 4)%nat as Hc by lia.
  destruct Hc as [->|[->|[->|[->| ->]]]]; by vm_compute.
Qed.

Lemma fork_is_highest_common_ancestor_witness :
  exists r, FindFork (entries example_index) (example_chain 6) (Some 4) = Some r /\ r = Some 2.
Proof.
  destruct example_path as (b & Hpath & _).
  destruct (entries example_index !! 4) as [d|] eqn:E; [|by vm_compute in E].
  destruct (fork_is_highest_common_ancestor example_index (example_chain 6) 6 4 b d
              example_chain_reachable Hpath E) as (r & E1 & _).
  exists r. split; [exact E1|]. revert E1. vm_compute. congruence.
Defined.

(** [GetLocator] terminates and yields the hashes of ancestors of the
    given block in strictly descending height, starting with the block itself and ending
    with the root; because the step doubles after ten hashes, a block below
    height [2^m] needs at most [11 + m] of them. *)
Theorem GetLocator_descends_to_root st c p b m :
  chain_reachable st c -> entries st !! p = Some b -> nHeight b < 2 ^ Z.of_nat m ->
  exists l, GetLocator (entries st) c (Some p) = Some (map (hash_of (entries st)) l) /\
    locator_from (entries st) p l /\ (length l <= 11 + m)%nat.
Proof.
  intros Hr Hp Hm. destruct (chain_reachable_ok st c Hr) as (_ & Hwf & Hpath & _).
  by apply (GetLocator_spec _ Hwf c p b m).
Qed.

Lemma GetLocator_descends_to_root_witness :
  exists l, GetLocator (entries example_index) (example_chain 6) (Some 6) = Some l /\
    l = [104; 103; 102; 101; 100].
Proof.
  destruct example_tip as (b & E & Eh).
  destruct (GetLocator_descends_to_root example_index (example_chain 6) 6 b 3
              example_chain_reachable E) as (l & E1 & _).
  { rewrite Eh. by vm_compute. }
  exists (map (hash_of (entries example_index)) l). split; [exact E1|].
  revert E1. generalize (map (hash_of (entries example_index)) l). intros l'. vm_compute. congruence.
Defined.

(** On an active chain, the binary search of [FindEarliestAtLeast] finds the
    lowest block whose running maximum of times is at least [time]: every block
    below it has a smaller [nTimeMax], and a null pointer means that all have. *)
Theorem FindEarliestAtLeast_is_lowest st c time :
  chain_reachable st c ->
  exists i, (i <= length c)%nat /\
    FindEarliestAtLeast (entries st) c time
      = Some (if (i =? length c)%nat then None else default None (c !! i)) /\
    (forall j t, (j < i)%nat -> slot_time (entries st) c j = Some t -> t < time) /\
    (forall j, (i <= j < length c)%nat -> exists t, slot_time (entries st) c j = Some t /\ time <= t).
Proof.
  intros Hr. destruct (chain_reachable_ok st c Hr) as (_ & Hwf & Hpath & Hcum).
  pose proof (path_times_sorted _ Hwf c Hcum Hpath) as Hsorted.
  destruct (lower_bound_spec (entries st) (length c) c 0 (length c) time Hsorted) as (i & E & Hi & Hlo & Hhi);
    [lia..| |].
  { intros j t Hj Ht. unfold slot_time in Ht.
    destruct (c !! j) as [s|] eqn:Ej; [apply lookup_lt_Some in Ej; lia|done]. }
  exists i. split; [done|]. unfold FindEarliestAtLeast. rewrite E. split; [done|]. split; [done|].
  intros j Hj. destruct (proj1 Hsorted j ltac:(lia)) as [t Ht]. exists t. split; [done|].
  apply (Hhi j t); [lia|done].
Qed.

Lemma FindEarliestAtLeast_is_lowest_witness :
  exists i, (i <= 5)%nat /\
    FindEarliestAtLeast (entries example_index) (example_chain 6) 1100 = Some (Some 3) /\
    (forall j t, (j < i)%nat -> slot_time (entries example_index) (example_chain 6) j = Some t -> t < 1100).
Proof.
  destruct (FindEarliestAtLeast_is_lowest example_index (example_chain 6) 1100 example_chain_reachable)
    as (i & Hi & _ & Hlo & _).
  exists i. split; [exact Hi|]. split; [by vm_compute|exact Hlo].
Defined.
