(* ===== verification/MedianTime.v ===== *)
(** [CBlockIndex::GetMedianTimePast] of [chain.h]: the median of the times of
    the last eleven blocks.  The header rule of [ContextualCheckBlockHeader]
    ([validation.cpp]: a block's time is above the median of its parent) makes it
    monotone along every branch, which time locks and deployments rely on. *)

From stdpp Require Import prelude gmap.
From Stdlib Require Import ZArith Lia Sorting.Sorted.
From S2P Require Import Prelude ArithUint256 Compact Chain ActiveChain.

Open Scope Z_scope.

Definition nMedianTimeSpan : nat := 11.

(** The loop that collects the times, from the block back along [pprev]. *)
Fixpoint past_times (H : heap) (n : nat) (p : option ptr) : list Z :=
  match n, p with
  | S n', Some q => match H !! q with
                    | Some b => nTime b :: past_times H n' (pprev b)
                    | None => []
                    end
  | _, _ => []
  end.

(** [std::sort] on integers, as insertion into a sorted list. *)
Fixpoint insert_sorted (x : Z) (l : list Z) : list Z :=
  match l with
  | [] => [x]
  | y :: r => if x <=? y then x :: l else y :: insert_sorted x r
  end.
Definition sort (l : list Z) : list Z := foldr insert_sorted [] l.

(** [pbegin[(pend - pbegin) / 2]] *)
Definition GetMedianTimePast (H : heap) (p : ptr) : Z :=
  let times := sort (past_times H nMedianTimeSpan (Some p)) in
  aget times (Z.of_nat (length times) / 2).

(** The check of [ContextualCheckBlockHeader]: [true] is "time-too-old". *)
Definition time_too_old (H : heap) (nBlockTime : Z) (pindexPrev : ptr) : bool :=
  nBlockTime <=? GetMedianTimePast H pindexPrev.

(** ** Sorting and counting *)

Fixpoint count_ge (m : Z) (l : list Z) : nat :=
  match l with [] => O | x :: r => (if (m <=? x)%Z then 1 else 0) + count_ge m r end%nat.

Lemma count_ge_insert m x l : count_ge m (insert_sorted x l) = count_ge m (x :: l).
Proof. induction l as [|y r IH]; [done|]. simpl. destruct (x <=? y); [done|]. simpl in *. lia. Qed.

Lemma count_ge_sort m l : count_ge m (sort l) = count_ge m l.
Proof. induction l as [|x r IH]; [done|]. simpl. rewrite count_ge_insert. simpl. by rewrite IH. Qed.

Lemma length_insert_sorted x l : length (insert_sorted x l) = S (length l).
Proof. induction l as [|y r IH]; [done|]. simpl. destruct (x <=? y); [done|]. simpl. by rewrite IH. Qed.

Lemma length_sort l : length (sort l) = length l.
Proof. induction l as [|x r IH]; [done|]. simpl. by rewrite length_insert_sorted, IH. Qed.

Lemma count_ge_length m l : (count_ge m l <= length l)%nat.
Proof. induction l as [|x r IH]; simpl; [lia|]. destruct (m <=? x); lia. Qed.

Lemma insert_sorted_Forall (P : Z -> Prop) x l : P x -> Forall P l -> Forall P (insert_sorted x l).
Proof.
  intros Hx. induction 1 as [|y r Hy Hr IH]; simpl; [by constructor|].
  destruct (x <=? y); repeat (constructor; try done).
Qed.

Lemma insert_sorted_ok x l : StronglySorted Z.le l -> StronglySorted Z.le (insert_sorted x l).
Proof.
  induction 1 as [|y r Hr IH Hy]; simpl; [repeat constructor|].
  destruct (Z.leb_spec x y).
  - constructor; [by constructor|]. constructor; [done|]. eapply Forall_impl; [exact Hy|]. simpl. lia.
  - constructor; [done|]. apply insert_sorted_Forall; [lia|done].
Qed.

Lemma sort_ok l : StronglySorted Z.le (sort l).
Proof. induction l as [|x r IH]; simpl; [constructor|]. by apply insert_sorted_ok. Qed.

Lemma count_ge_all m l : Forall (Z.le m) l -> count_ge m l = length l.
Proof. induction 1; simpl; [done|]. destruct (Z.leb_spec m x); lia. Qed.

(** The [k]-th smallest element is at least [m] when at most [k] elements are
    smaller. *)
Lemma sorted_count l k m :
  StronglySorted Z.le l -> (k < length l)%nat ->
  (m <= nth k l 0 <-> (length l <= k + count_ge m l)%nat).
Proof.
  intros Hs. revert k. induction Hs as [|x r Hr IH Hx]; intros k Hk; [simpl in Hk; lia|].
  destruct k as [|k]; simpl.
  - destruct (Z.leb_spec m x).
    + rewrite count_ge_all; [lia|]. eapply Forall_impl; [exact Hx|]. simpl. lia.
    + pose proof (count_ge_length m r). lia.
  - rewrite IH by (simpl in Hk; lia). destruct (Z.leb_spec m x); [|lia].
    assert (count_ge m r = length r) as ->; [|lia].
    apply count_ge_all. eapply Forall_impl; [exact Hx|]. simpl. lia.
Qed.

Definition median (l : list Z) : Z := aget (sort l) (Z.of_nat (length (sort l)) / 2).

Lemma median_ge l m :
  l <> [] -> m <= median l <-> (length l <= length l / 2 + count_ge m l)%nat.
Proof.
  intros Hne. unfold median, aget.
  assert (0 < length l)%nat as Hpos by (destruct l; [done|simpl; lia]).
  rewrite length_sort. change 2 with (Z.of_nat 2). rewrite <- Nat2Z.inj_div, Nat2Z.id.
  assert (length l / 2 < length l)%nat as Hhalf by (apply Nat.div_lt; lia).
  pose proof (sorted_count (sort l) (length l / 2) m (sort_ok l)) as Hc.
  rewrite length_sort, count_ge_sort in Hc. rewrite <- (Hc Hhalf).
  by rewrite <- nth_lookup.
Qed.

Lemma count_ge_take m n l : (count_ge m l <= count_ge m (take n l) + (length l - n))%nat.
Proof.
  revert n. induction l as [|x r IH]; intros [|n]; simpl; [lia..| |].
  - pose proof (count_ge_length m r). destruct (m <=? x); lia.
  - specialize (IH n). destruct (m <=? x); lia.
Qed.

(** A time above the median enters the window, the oldest one leaves it. *)
Lemma median_step t l n :
  l <> [] -> (length l <= S n)%nat -> median l < t -> median l <= median (t :: take n l).
Proof.
  intros Hne Hlen Ht. set (m := median l).
  assert (m <= median l) as Hm by (unfold m; lia).
  apply median_ge in Hm; [|done]. apply median_ge; [done|].
  pose proof (count_ge_take m n l) as Hc. cbn [length count_ge]. rewrite length_take.
  destruct (Z.leb_spec m t); [|unfold m in *; lia].
  destruct (decide (length l <= n)%nat).
  - rewrite take_ge in * by done. rewrite Nat.min_r by done.
    pose proof (Nat.Div0.div_le_mono (length l) (S (length l)) 2 ltac:(lia)). lia.
  - replace (length l) with (S n) in * by lia. rewrite Nat.min_l by lia. lia.
Qed.

Section Median.
Context (H : heap) (Hwf : wf_heap H).

Lemma past_times_take n p : past_times H n p = take n (past_times H (S n) p).
Proof.
  revert p. induction n as [|n IH]; intros p; [by destruct p|].
  destruct p as [q|]; [|done]. cbn [past_times]. destruct (H !! q) as [b|]; [|done].
  cbn [take]. f_equal. apply IH.
Qed.

Lemma past_times_length n p : (length (past_times H n p) <= n)%nat.
Proof.
  revert p. induction n as [|n IH]; intros [q|]; simpl; try lia.
  destruct (H !! q) as [b|]; simpl; [|lia]. specialize (IH (pprev b)). lia.
Qed.

(** The block rule lets the median time grow by one block. *)
Lemma median_time_step p b q :
  H !! p = Some b -> pprev b = Some q -> time_too_old H (nTime b) q = false ->
  GetMedianTimePast H q <= GetMedianTimePast H p.
Proof.
  intros Hp Eq Ht. apply Z.leb_gt in Ht. unfold GetMedianTimePast in *.
  change (median (past_times H 11 (Some q)) < nTime b) in Ht.
  change (median (past_times H 11 (Some q)) <= median (past_times H 11 (Some p))).
  destruct (Hwf _ _ Hp) as (_ & Hprev & _). rewrite Eq in Hprev. destruct Hprev as (c & Hc & _).
  replace (past_times H 11 (Some p)) with (nTime b :: past_times H 10 (Some q))
    by (cbn [past_times]; by rewrite Hp, Eq).
  rewrite (past_times_take 10). apply median_step; [|apply past_times_length|done].
  cbn [past_times]. by rewrite Hc.
Qed.

(** Every block of the index passed the rule when it was accepted. *)
Definition times_accepted : Prop :=
  forall p b q, H !! p = Some b -> pprev b = Some q -> time_too_old H (nTime b) q = false.

Lemma median_time_ancestor n p b a :
  times_accepted -> H !! p = Some b -> nth_prev H n p = Some a ->
  GetMedianTimePast H a <= GetMedianTimePast H p.
Proof.
  intros Hacc. revert p b. induction n as [|n IH]; intros p b Hp Hn.
  - injection Hn as <-. lia.
  - simpl in Hn. rewrite Hp in Hn. destruct (pprev b) as [q|] eqn:Eq; [|done].
    destruct (Hwf _ _ Hp) as (_ & Hprev & _). rewrite Eq in Hprev. destruct Hprev as (c & Hc & _).
    pose proof (IH q c Hc Hn). pose proof (median_time_step p b q Hp Eq (Hacc _ _ _ Hp Eq)). lia.
Qed.
End Median.

(** In an index whose blocks all passed the "time-too-old" check,
    [GetMedianTimePast] never decreases from an ancestor to a descendant, and half
    or more of the last eleven times are at least the median. *)
Theorem median_time_monotone st a p b :
  index_reachable st -> times_accepted (entries st) ->
  entries st !! p = Some b -> is_ancestor (entries st) a p ->
  GetMedianTimePast (entries st) a <= GetMedianTimePast (entries st) p /\
  let w := past_times (entries st) nMedianTimeSpan (Some p) in
  (length w <= length w / 2 + count_ge (GetMedianTimePast (entries st) p) w)%nat.
Proof.
  intros Hr Hacc Hp [n Hn]. destruct (index_reachable_ok st Hr) as [[Hwf _ _ _] _]. split.
  - by apply (median_time_ancestor _ Hwf n p b a).
  - intros w. apply median_ge.
    + unfold w, nMedianTimeSpan. cbn [past_times]. by rewrite Hp.
    + unfold GetMedianTimePast, median. fold w. lia.
Qed.

(** The acceptance rule on a concrete index, entry by entry. *)
Definition times_acceptedb (H : heap) : bool :=
  forallb (fun '(_, b) => match pprev b with
                          | Some q => negb (time_too_old H (nTime b) q)
                          | None => true
                          end) (map_to_list H).

Lemma times_acceptedb_sound H : times_acceptedb H = true -> times_accepted H.
Proof.
  unfold times_acceptedb. intros Hf p b q Hp Eq. apply forallb_forall with (x := (p, b)) in Hf.
  - rewrite Eq in Hf. by destruct (time_too_old H (nTime b) q).
  - by apply list_elem_of_In, elem_of_map_to_list.
Qed.

Lemma median_time_monotone_witness :
  GetMedianTimePast (entries example_index) 2 <= GetMedianTimePast (entries example_index) 6.
Proof.
  destruct example_tip as (b & E & _).
  refine (proj1 (median_time_monotone example_index 2 6 b example_reachable _ E _)).
  - apply times_acceptedb_sound. by vm_compute.
  - exists 3%nat. by vm_compute.
Defined.
