(* ===== verification/Pow.v ===== *)
(** [pow.cpp]: the proof-of-work target of the next block (DarkGravityWave and
    the older per-interval rule) and the check of a block hash against its
    target.  The arithmetic is that of [arith_uint256], modulo [2^256]; the
    theorems say when the result is the intended exact retargeting formula. *)

From stdpp Require Import prelude gmap.
From Stdlib Require Import ZArith Lia.
From S2P Require Import Prelude ArithUint256 Compact Chain.

Open Scope Z_scope.

(** The fields of [Consensus::Params] that [pow.cpp] reads; [powLimit] is the
    32-byte blob. *)
Record PowParams := mkPowParams {
  powLimit : list Z;
  fPowAllowMinDifficultyBlocks : bool;
  fPowNoRetargeting : bool;
  nPowTargetSpacing : Z;
  nPowTargetTimespan : Z;
  nPowDGWHeight : Z;
  nMinimumDifficultyBlocks : Z
}.

Definition DifficultyAdjustmentInterval (params : PowParams) : Z :=
  Z.quot (nPowTargetTimespan params) (nPowTargetSpacing params).

Definition KAWPOW_TIME : Z := 1651444217.
Definition nPastBlocks : Z := 180.

(** [bnNew *= nActualTimespan; bnNew /= nTargetTimespan;] then the cap at the
    limit.  The [int64_t] factor converts to the [uint32_t] overload of [*=]. *)
Definition retarget (bnNew : base_uint) (nActualTimespan nTargetTimespan : Z) (bnPowLimit : base_uint)
    : option base_uint :=
  match BaseUint.div_assign W256 (BaseUint.mul32_assign bnNew (u32 nActualTimespan))
                            (BaseUint.of_u64 W256 (u64 nTargetTimespan)) with
  | None => None
  | Some q => Some (if BaseUint.gt W256 q bnPowLimit then bnPowLimit else q)
  end.

(** The two comparisons that limit the adjustment step. *)
Definition limit_timespan (nActualTimespan lo hi : Z) : Z :=
  let a := if nActualTimespan <? lo then lo else nActualTimespan in
  if hi <? a then hi else a.

Section Pow.
Variable H : heap.
Variable params : PowParams.

Definition bnPowLimit : base_uint := UintToArith256 (powLimit params).

(** [while (pindex->pprev && pindex->nHeight % interval != 0 &&
    pindex->nBits == nProofOfWorkLimit) pindex = pindex->pprev;] *)
Fixpoint last_non_special (fuel : nat) (p : ptr) (nProofOfWorkLimit : Z) : option CBlockIndex :=
  match H !! p with
  | None => None
  | Some b =>
      match pprev b with
      | Some q =>
          if negb (Z.rem (nHeight b) (DifficultyAdjustmentInterval params) =? 0)
             && (nBits b =? nProofOfWorkLimit)
          then match fuel with O => None | S fuel' => last_non_special fuel' q nProofOfWorkLimit end
          else Some b
      | None => Some b
      end
  end.

(** The loop of [DarkGravityWave] from [nCountBlocks] on, [n] iterations left:
    the entry reached, the running average and the number of KAWPOW blocks.
    [None] is a failed assertion or a division by zero. *)
Fixpoint dgw_loop (n : nat) (nCountBlocks : Z) (p : ptr) (bnPastTargetAvg : base_uint)
    (nKAWPOWBlocksFound : Z) : option (CBlockIndex * base_uint * Z) :=
  match H !! p with
  | None => None
  | Some b =>
      let bnTarget := target (SetCompact (nBits b)) in
      let avg :=
        if nCountBlocks =? 1 then Some bnTarget
        else BaseUint.div_assign W256
               (BaseUint.add_assign (BaseUint.mul32_assign bnPastTargetAvg nCountBlocks) bnTarget)
               (BaseUint.of_u64 W256 (nCountBlocks + 1)) in
      match avg with
      | None => None
      | Some avg' =>
          let found := if KAWPOW_TIME <=? nTime b then nKAWPOWBlocksFound + 1 else nKAWPOWBlocksFound in
          match n with
          | O => Some (b, avg', found)
          | S n' =>
              match pprev b with
              | None => None
              | Some q => dgw_loop n' (nCountBlocks + 1) q avg' found
              end
          end
      end
  end.

Definition DarkGravityWave (pindexLast : ptr) (pblock : CBlockHeader) : option Z :=
  match H !! pindexLast, GetCompact bnPowLimit false with
  | Some last, Some nProofOfWorkLimit =>
      if nHeight last <? nPastBlocks then Some nProofOfWorkLimit
      else if fPowAllowMinDifficultyBlocks params && fPowNoRetargeting params then
        if nTime last + nPowTargetSpacing params * 2 <? hTime pblock then Some nProofOfWorkLimit
        else option_map nBits
               (last_non_special (Z.to_nat (nHeight last)) pindexLast nProofOfWorkLimit)
      else
        match dgw_loop (Z.to_nat (nPastBlocks - 1)) 1 pindexLast (BaseUint.zero W256) 0 with
        | None => None
        | Some (first, bnPastTargetAvg, nKAWPOWBlocksFound) =>
            if (KAWPOW_TIME <=? hTime pblock) && negb (nKAWPOWBlocksFound =? nPastBlocks)
            then Some nProofOfWorkLimit
            else
              let nTargetTimespan := nPastBlocks * nPowTargetSpacing params in
              let nActualTimespan :=
                limit_timespan (nTime last - nTime first)
                  (Z.quot nTargetTimespan 3) (nTargetTimespan * 3) in
              match retarget bnPastTargetAvg nActualTimespan nTargetTimespan bnPowLimit with
              | None => None
              | Some bnNew => GetCompact bnNew false
              end
        end
  | _, _ => None
  end.

Definition CalculateNextWorkRequired (last : CBlockIndex) (nFirstBlockTime : Z) : option Z :=
  if fPowNoRetargeting params then Some (nBits last)
  else
    let nActualTimespan :=
      limit_timespan (nTime last - nFirstBlockTime)
        (Z.quot (nPowTargetTimespan params) 4) (nPowTargetTimespan params * 4) in
    match retarget (target (SetCompact (nBits last))) nActualTimespan
                   (nPowTargetTimespan params) bnPowLimit with
    | None => None
    | Some bnNew => GetCompact bnNew false
    end.

Definition GetNextWorkRequiredBTC (pindexLast : ptr) (pblock : CBlockHeader) : option Z :=
  match H !! pindexLast, GetCompact bnPowLimit false with
  | Some last, Some nProofOfWorkLimit =>
      if negb (Z.rem (nHeight last + 1) (DifficultyAdjustmentInterval params) =? 0) then
        if fPowAllowMinDifficultyBlocks params then
          if nTime last + nPowTargetSpacing params * 2 <? hTime pblock then Some nProofOfWorkLimit
          else option_map nBits
                 (last_non_special (Z.to_nat (nHeight last)) pindexLast nProofOfWorkLimit)
        else Some (nBits last)
      else
        let nHeightFirst := nHeight last - (DifficultyAdjustmentInterval params - 1) in
        if nHeightFirst <? 0 then None
        else match GetAncestor H pindexLast nHeightFirst with
             | Some (Some pindexFirst) =>
                 match H !! pindexFirst with
                 | Some first => CalculateNextWorkRequired last (nTime first)
                 | None => None
                 end
             | _ => None
             end
  | _, _ => None
  end.

Definition GetNextWorkRequired (pindexLast : ptr) (pblock : CBlockHeader) : option Z :=
  match H !! pindexLast with
  | None => None
  | Some last =>
      if nHeight last <? nMinimumDifficultyBlocks params then GetCompact bnPowLimit false
      else if nHeight last + 1 <? nPowDGWHeight params then GetNextWorkRequiredBTC pindexLast pblock
      else DarkGravityWave pindexLast pblock
  end.

Definition CheckProofOfWork (hash : list Z) (bits : Z) : bool :=
  let c := SetCompact bits in
  if fNegative c || BaseUint.EqualTo (target c) 0 || fOverflow c
     || BaseUint.gt W256 (target c) bnPowLimit
  then false
  else negb (BaseUint.gt W256 (UintToArith256 hash) (target c)).
End Pow.

(** ** The arithmetic as integers *)

(** Parameters for which every intermediate conversion is exact. *)
Record pow_params_ok (params : PowParams) : Prop := {
  ok_limit : blob256 (powLimit params);
  ok_spacing : 0 < nPowTargetSpacing params /\ 3 * (nPastBlocks * nPowTargetSpacing params) < 2 ^ 32;
  ok_timespan : nPowTargetSpacing params <= nPowTargetTimespan params
                /\ 4 * nPowTargetTimespan params < 2 ^ 32
}.

Definition limit_value (params : PowParams) : Z := le_bytes (powLimit params).

Lemma retarget_spec bn actual T limit :
  wf256 bn -> wf256 limit -> 0 <= actual < 2 ^ 32 -> 0 < T < 2 ^ 32 ->
  exists r, retarget bn actual T limit = Some r /\ wf256 r /\
    value r = Z.min (value limit) ((value bn * actual) mod 2 ^ 256 / T).
Proof.
  intros Hb Hl Ha HT. unfold retarget, u32, u64. rewrite !Z.mod_small by lia.
  destruct (BaseUintFacts.mul32_assign_spec W256 bn actual Hb) as [Hm Hmv]; [done|].
  destruct (BaseUintFacts.of_u64_spec W256 T) as [Ht Htv]; [unfold W256; lia|unfold is_u64; lia|].
  pose proof (BaseUintFacts.div_assign_spec W256 _ _ Hm Ht) as Hd.
  destruct (BaseUint.div_assign W256 _ _) as [q|]; [|lia]. destruct Hd as (_ & Hq & Hqv).
  change (modulus W256) with (2 ^ 256) in Hmv. rewrite Hmv, Htv in Hqv.
  eexists. split; [reflexivity|]. rewrite (BaseUintFacts.gt_spec W256) by done.
  destruct (Z.ltb_spec (value limit) (value q)); split; try done; lia.
Qed.

Lemma limit_timespan_spec a lo hi : lo <= hi -> limit_timespan a lo hi = Z.max lo (Z.min hi a).
Proof.
  intros Hle. unfold limit_timespan.
  destruct (Z.ltb_spec a lo); [destruct (Z.ltb_spec hi lo); lia|destruct (Z.ltb_spec hi a); lia].
Qed.

(** The running average, modulo [2^256] and exactly. *)
Definition avg_step (avg count t : Z) : Z := (avg * count + t) / (count + 1).

Fixpoint avg_mod (count avg : Z) (ts : list Z) : Z :=
  match ts with
  | [] => avg
  | t :: r => avg_mod (count + 1)
                (if count =? 1 then t
                 else (((avg * count) mod 2 ^ 256 + t) mod 2 ^ 256) / (count + 1)) r
  end.

Fixpoint avg_exact (count avg : Z) (ts : list Z) : Z :=
  match ts with
  | [] => avg
  | t :: r => avg_exact (count + 1) (if count =? 1 then t else avg_step avg count t) r
  end.

(** No intermediate result wraps when all targets are at most [L] and
    [L * n < 2^256]. *)
Lemma avg_mod_exact L count avg ts :
  1 <= count -> 0 <= avg <= L -> Forall (fun t => 0 <= t <= L) ts ->
  L * (count + Z.of_nat (length ts)) < 2 ^ 256 ->
  avg_mod count avg ts = avg_exact count avg ts /\ 0 <= avg_exact count avg ts <= L.
Proof.
  intros Hc Ha Hts. revert count avg Hc Ha.
  induction Hts as [|t r Ht Hr IH]; intros count avg Hc Ha HL; [done|].
  cbn [avg_mod avg_exact]. cbn [length] in HL. rewrite Nat2Z.inj_succ in HL.
  destruct (count =? 1); [apply IH; lia|].
  assert (0 <= avg * count + t <= L * (count + 1)) as Hs by nia.
  assert (L * (count + 1) < 2 ^ 256) as HLc by nia.
  rewrite (Z.mod_small (avg * count)) by nia. rewrite Z.mod_small by lia. fold (avg_step avg count t).
  assert (0 <= avg_step avg count t <= L).
  { unfold avg_step. split; [apply Z.div_pos; lia|]. apply Z.div_le_upper_bound; lia. }
  apply IH; lia.
Qed.

(** The entries the loop visits: [p] and its [n] closest ancestors. *)
Fixpoint past_entries (H : heap) (n : nat) (p : ptr) : list CBlockIndex :=
  match H !! p with
  | None => []
  | Some b => b :: match n, pprev b with
                   | S n', Some q => past_entries H n' q
                   | _, _ => []
                   end
  end.

Definition target_of (b : CBlockIndex) : Z := value (target (SetCompact (nBits b))).

Definition kawpow_count (l : list CBlockIndex) : Z :=
  Z.of_nat (length (List.filter (fun b => KAWPOW_TIME <=? nTime b) l)).

Definition heap_bits_ok (H : heap) : Prop := forall p b, H !! p = Some b -> is_u32 (nBits b).

Lemma dgw_avg_step count avg bits :
  1 <= count < 1000 -> wf256 avg -> is_u32 bits ->
  exists a, (if count =? 1 then Some (target (SetCompact bits))
             else BaseUint.div_assign W256
                    (BaseUint.add_assign (BaseUint.mul32_assign avg count) (target (SetCompact bits)))
                    (BaseUint.of_u64 W256 (count + 1))) = Some a /\ wf256 a /\
    value a = if count =? 1 then value (target (SetCompact bits))
              else (((value avg * count) mod 2 ^ 256 + value (target (SetCompact bits))) mod 2 ^ 256)
                   / (count + 1).
Proof.
  intros Hc Ha Hb. destruct (SetCompact_target bits Hb) as [Ht _].
  destruct (count =? 1); [by exists (target (SetCompact bits))|].
  destruct (BaseUintFacts.mul32_assign_spec W256 avg count Ha) as [Hm Hmv]; [unfold is_u32; lia|].
  destruct (BaseUintFacts.add_assign_spec W256 _ _ Hm Ht) as [Hs Hsv].
  destruct (BaseUintFacts.of_u64_spec W256 (count + 1)) as [Hd Hdv]; [unfold W256; lia|unfold is_u64; lia|].
  pose proof (BaseUintFacts.div_assign_spec W256 _ _ Hs Hd) as Hq.
  destruct (BaseUint.div_assign W256 _ _) as [q|]; [|lia]. destruct Hq as (_ & Hq & Hqv).
  exists q. split; [done|]. split; [done|]. by rewrite Hqv, Hsv, Hmv, Hdv.
Qed.

Lemma dgw_loop_spec H n count p b avg found :
  wf_heap H -> heap_bits_ok H -> H !! p = Some b -> Z.of_nat n <= nHeight b ->
  1 <= count -> count + Z.of_nat n < 1000 -> wf256 avg ->
  exists first avg', dgw_loop H n count p avg found
      = Some (first, avg', found + kawpow_count (past_entries H n p)) /\
    last (past_entries H n p) = Some first /\ length (past_entries H n p) = S n /\
    wf256 avg' /\ value avg' = avg_mod count (value avg) (map target_of (past_entries H n p)).
Proof.
  intros Hwf Hbits. revert count p b avg found.
  induction n as [|n IH]; intros count p b avg found Hp Hn Hc Hcn Ha;
    cbn [dgw_loop past_entries]; rewrite Hp;
    destruct (dgw_avg_step count avg (nBits b)) as (a & -> & Hwa & Hva); try done; try lia;
    try (by eapply Hbits).
  - exists b, a. split; [|split; [done|]; split; [done|]; split; [done|]; simpl; by rewrite Hva].
    unfold kawpow_count. simpl. destruct (KAWPOW_TIME <=? nTime b); simpl; do 2 f_equal; lia.
  - destruct (Hwf _ _ Hp) as (_ & Hprev & _). destruct (pprev b) as [q|]; [|lia].
    destruct Hprev as (c & Hq & Hh).
    destruct (IH (count + 1) q c a (if KAWPOW_TIME <=? nTime b then found + 1 else found) Hq)
      as (first & avg' & -> & Hl & Hlen & Hw & Hv); [lia..|done|].
    exists first, avg'. split; [|split; [|split; [|split; [done|]]]].
    + unfold kawpow_count. simpl. destruct (KAWPOW_TIME <=? nTime b); simpl; do 2 f_equal; lia.
    + rewrite <- Hl. destruct (past_entries H n q) as [|x r]; [done|]. done.
    + simpl. by rewrite Hlen.
    + rewrite Hv. simpl. by rewrite Hva.
Qed.

Lemma past_targets_nonneg H (Hb : heap_bits_ok H) n p :
  Forall (fun c => 0 <= target_of c) (past_entries H n p).
Proof.
  revert p. induction n as [|n IH]; intros p; cbn [past_entries];
    (destruct (H !! p) as [b|] eqn:E; [|constructor]); (constructor;
    [destruct (SetCompact_target _ (Hb p b E)) as [Hw _]; apply (wf_range _ _ Hw)|]); [constructor|].
  destruct (pprev b); [apply IH|constructor].
Qed.

(** ** Total and in range *)

(** What [CheckProofOfWork] demands of [nBits], zero targets apart. *)
Definition good_bits (params : PowParams) (bits : Z) : Prop :=
  is_u32 bits /\ fNegative (SetCompact bits) = false /\ fOverflow (SetCompact bits) = false /\
  value (target (SetCompact bits)) <= limit_value params.

Lemma compact_decode_encode_le x : 0 <= x < 2 ^ 256 -> compact_decode (compact_encode x) <= x.
Proof.
  intros Hx. rewrite compact_decode_encode by done.
  assert (0 <= x mod 2 ^ (8 * Z.max 0 (compact_exp x - 3))); [|lia].
  apply Z.mod_pos_bound. lia.
Qed.

Lemma GetCompact_good params a :
  wf256 a -> value a <= limit_value params ->
  exists bits, GetCompact a false = Some bits /\ bits = compact_encode (value a) /\ good_bits params bits.
Proof.
  intros Ha Hle. pose proof (wf_range _ _ Ha) as Hr.
  exists (compact_encode (value a)). split; [by apply GetCompact_spec|]. split; [done|].
  destruct (compact_encode_parts _ Hr) as [Hu _]. destruct (SetCompact_encode_flags _ Hr) as [Ho Hn].
  split; [done|]. split; [done|]. split; [done|].
  rewrite (proj2 (SetCompact_target _ Hu)). pose proof (compact_decode_encode_le _ Hr). lia.
Qed.

Section Total.
Context (H : heap) (params : PowParams) (Hwf : wf_heap H) (Hok : pow_params_ok params).
Context (Hgood : forall p b, H !! p = Some b -> good_bits params (nBits b)).

Lemma bnPowLimit_spec : wf256 (bnPowLimit params) /\ value (bnPowLimit params) = limit_value params.
Proof. apply UintToArith256_spec, Hok. Qed.

Lemma bits_u32 : heap_bits_ok H.
Proof using Hgood. intros p b Hp. apply (Hgood p b Hp). Qed.

Lemma limit_compact :
  exists bits, GetCompact (bnPowLimit params) false = Some bits /\
    bits = compact_encode (limit_value params) /\ good_bits params bits.
Proof using Hok.
  destruct bnPowLimit_spec as [Hw Hv]. rewrite <- Hv. apply GetCompact_good; [done|lia].
Qed.

Lemma last_non_special_good fuel p b limit :
  H !! p = Some b -> nHeight b <= Z.of_nat fuel ->
  exists b', last_non_special H params fuel p limit = Some b' /\ good_bits params (nBits b') /\
    (pprev b' = None \/ Z.rem (nHeight b') (DifficultyAdjustmentInterval params) = 0 \/ nBits b' <> limit).
Proof using Hwf Hgood.
  revert p b. induction fuel as [|fuel IH]; intros p b Hp Hf; cbn [last_non_special]; rewrite Hp;
    destruct (Hwf _ _ Hp) as (H0 & Hprev & _); pose proof (Hgood _ _ Hp);
    (destruct (pprev b) as [q|] eqn:Eq; [|exists b; auto]);
    destruct Hprev as (c & Hc & Hh); pose proof (Hwf _ _ Hc) as [Hc0 _]; [lia|].
  destruct (Z.eqb_spec (Z.rem (nHeight b) (DifficultyAdjustmentInterval params)) 0); [exists b; auto|].
  destruct (Z.eqb_spec (nBits b) limit); [|exists b; auto]. simpl. apply (IH q c Hc). lia.
Qed.

Lemma retarget_good bn actual T :
  wf256 bn -> 0 <= actual < 2 ^ 32 -> 0 < T < 2 ^ 32 ->
  exists r bits, retarget bn actual T (bnPowLimit params) = Some r /\ GetCompact r false = Some bits /\
    bits = compact_encode (Z.min (limit_value params) ((value bn * actual) mod 2 ^ 256 / T)) /\
    good_bits params bits.
Proof using Hok.
  intros Hb Ha HT. destruct bnPowLimit_spec as [Hw Hv].
  destruct (retarget_spec bn actual T _ Hb Hw Ha HT) as (r & E & Hr & Hrv).
  destruct (GetCompact_good params r Hr) as (bits & E2 & E3 & Hg); [lia|].
  exists r, bits. split; [done|]. split; [done|]. split; [|done]. by rewrite E3, Hrv, Hv.
Qed.

Definition dgw_timespan (last first : CBlockIndex) : Z :=
  let T := nPastBlocks * nPowTargetSpacing params in
  Z.max (Z.quot T 3) (Z.min (T * 3) (nTime last - nTime first)).

(** The regular branch of [DarkGravityWave]. *)
Lemma DarkGravityWave_regular p b block :
  H !! p = Some b -> nPastBlocks <= nHeight b ->
  fPowAllowMinDifficultyBlocks params && fPowNoRetargeting params = false ->
  let past := past_entries H 179 p in
  exists first bits, last past = Some first /\ length past = 180%nat /\
    DarkGravityWave H params p block = Some bits /\ good_bits params bits /\
    bits = compact_encode
      (if (KAWPOW_TIME <=? hTime block) && negb (kawpow_count past =? nPastBlocks)
       then limit_value params
       else Z.min (limit_value params)
              ((avg_mod 1 0 (map target_of past) * dgw_timespan b first) mod 2 ^ 256
               / (nPastBlocks * nPowTargetSpacing params))).
Proof using Hok Hgood Hwf.
  intros Hp Hh Hmode past. unfold DarkGravityWave. rewrite Hp.
  destruct limit_compact as (lb & -> & Elb & Hlb).
  destruct (Z.ltb_spec (nHeight b) nPastBlocks); [lia|]. rewrite Hmode.
  change (Z.to_nat (nPastBlocks - 1)) with 179%nat.
  destruct (dgw_loop_spec H 179 1 p b (BaseUint.zero W256) 0 Hwf bits_u32 Hp)
    as (first & avg & -> & Hl & Hlen & Hwa & Hva); [unfold nPastBlocks in *; lia..|apply wf_replicate|].
  exists first. unfold BaseUint.zero in Hva. rewrite value_zero in Hva. rewrite Z.add_0_l. fold past.
  destruct (_ && negb (kawpow_count past =? nPastBlocks)); [by exists lb|].
  destruct (ok_spacing _ Hok) as [Hs1 Hs2]. set (T := nPastBlocks * nPowTargetSpacing params) in *.
  assert (0 < T) by (unfold T, nPastBlocks; lia).
  rewrite limit_timespan_spec by (pose proof (Z.quot_le_upper_bound T 3 T); lia).
  destruct (retarget_good avg (dgw_timespan b first) T Hwa) as (r & bits & E1 & E2 & E3 & Hg); [|lia|].
  { unfold dgw_timespan. fold T. pose proof (Z.quot_pos T 3). pose proof (Z.quot_le_upper_bound T 3 T). lia. }
  unfold dgw_timespan in E1 at 1. fold T in E1. rewrite E1, E2. exists bits. fold past in Hva. rewrite <- Hva. done.
Qed.

Lemma CalculateNextWorkRequired_spec b t :
  is_u32 (nBits b) -> good_bits params (nBits b) ->
  exists bits, CalculateNextWorkRequired params b t = Some bits /\ good_bits params bits /\
    (fPowNoRetargeting params = false ->
     let T := nPowTargetTimespan params in
     bits = compact_encode (Z.min (limit_value params)
              ((target_of b * Z.max (Z.quot T 4) (Z.min (T * 4) (nTime b - t))) mod 2 ^ 256 / T))).
Proof using Hok.
  intros Hu Hg. unfold CalculateNextWorkRequired.
  destruct (fPowNoRetargeting params); [by exists (nBits b)|].
  destruct (ok_timespan _ Hok) as [Hs1 Hs2]. destruct (ok_spacing _ Hok) as [Hs3 _].
  set (T := nPowTargetTimespan params) in *.
  pose proof (Z.quot_pos T 4). pose proof (Z.quot_le_upper_bound T 4 T).
  rewrite limit_timespan_spec by lia.
  destruct (retarget_good (target (SetCompact (nBits b)))
              (Z.max (Z.quot T 4) (Z.min (T * 4) (nTime b - t))) T) as (r & bits & -> & E2 & E3 & Hgb);
    [apply SetCompact_target, Hu|lia|lia|].
  exists bits. done.
Qed.

Lemma interval_pos : 0 < DifficultyAdjustmentInterval params.
Proof using Hok.
  destruct (ok_timespan _ Hok) as [Hs1 Hs2]. destruct (ok_spacing _ Hok) as [Hs3 _].
  unfold DifficultyAdjustmentInterval. apply Z.quot_str_pos. lia.
Qed.

Lemma GetNextWorkRequiredBTC_good p b block :
  H !! p = Some b ->
  exists bits, GetNextWorkRequiredBTC H params p block = Some bits /\ good_bits params bits.
Proof using Hok Hgood Hwf.
  intros Hp. unfold GetNextWorkRequiredBTC. rewrite Hp.
  destruct limit_compact as (lb & -> & Elb & Hlb). pose proof (Hwf _ _ Hp) as [H0 _].
  pose proof interval_pos as Hi.
  destruct (Z.eqb_spec (Z.rem (nHeight b + 1) (DifficultyAdjustmentInterval params)) 0) as [Hm|Hm]; simpl.
  - assert (DifficultyAdjustmentInterval params <= nHeight b + 1) as Hge.
    { rewrite Z.rem_mod_nonneg in Hm by lia. apply Z.mod_divide in Hm; [|lia].
      apply Z.divide_pos_le in Hm; lia. }
    destruct (Z.ltb_spec (nHeight b - (DifficultyAdjustmentInterval params - 1)) 0); [lia|].
    destruct (GetAncestor_Some H Hwf p b (nHeight b - (DifficultyAdjustmentInterval params - 1)) Hp)
      as (q & c & -> & Hc & _); [lia|]. rewrite Hc.
    destruct (CalculateNextWorkRequired_spec b (nTime c)) as (bits & E & Hg & _);
      [by eapply bits_u32|by eapply Hgood|]. by exists bits.
  - destruct (fPowAllowMinDifficultyBlocks params); [|exists (nBits b); eauto].
    destruct (_ <? _); [by exists lb|].
    destruct (last_non_special_good (Z.to_nat (nHeight b)) p b lb Hp) as (b' & -> & Hg & _); [lia|].
    by exists (nBits b').
Qed.

Lemma DarkGravityWave_good p b block :
  H !! p = Some b ->
  exists bits, DarkGravityWave H params p block = Some bits /\ good_bits params bits.
Proof using Hok Hgood Hwf.
  intros Hp. pose proof (Hwf _ _ Hp) as [H0 _].
  destruct (Z.ltb_spec (nHeight b) nPastBlocks) as [Hlow|Hhigh].
  { unfold DarkGravityWave. rewrite Hp. destruct limit_compact as (lb & -> & Elb & Hlb).
    destruct (Z.ltb_spec (nHeight b) nPastBlocks); [by exists lb|lia]. }
  destruct (fPowAllowMinDifficultyBlocks params && fPowNoRetargeting params) eqn:Em.
  - unfold DarkGravityWave. rewrite Hp, Em. destruct limit_compact as (lb & -> & Elb & Hlb).
    destruct (Z.ltb_spec (nHeight b) nPastBlocks); [lia|].
    destruct (_ <? _); [by exists lb|].
    destruct (last_non_special_good (Z.to_nat (nHeight b)) p b lb Hp) as (b' & -> & Hg & _); [lia|].
    by exists (nBits b').
  - destruct (DarkGravityWave_regular p b block Hp Hhigh Em) as (first & bits & _ & _ & E & Hg & _).
    by exists bits.
Qed.
End Total.

(** ** Properties *)

(** C12. For every well-formed block tree whose blocks have targets in range (not
    negative, not overflowing, at most the limit), and parameters as the networks have them ([pow_params_ok]: a
    256-bit limit, positive spacings, timespans whose multiples fit in 32 bits), [GetNextWorkRequired] returns: no
    assertion fails, no loop runs away and nothing is divided by zero; and the [nBits] it returns are in
    range again.  There is no lower bound: the product with the timespan is taken modulo [2^256], and the
    target can be 0 ([next_work_can_be_zero]). *)
Theorem next_work_in_range H params p b block :
  wf_heap H -> pow_params_ok params ->
  (forall q c, H !! q = Some c -> good_bits params (nBits c)) -> H !! p = Some b ->
  exists bits, GetNextWorkRequired H params p block = Some bits /\ good_bits params bits.
Proof.
  intros Hwf Hok Hgood Hp.
  unfold GetNextWorkRequired. rewrite Hp.
  destruct (_ <? _).
  - destruct (limit_compact params Hok) as (lb & E & _ & Hg). by exists lb.
  - destruct (_ <? _).
    + by apply (GetNextWorkRequiredBTC_good _ _ Hwf Hok Hgood p b).
    + by apply (DarkGravityWave_good _ _ Hwf Hok Hgood p b).
Qed.

(** The retargeting formula of [DarkGravityWave] over the integers. *)
Definition dgw_exact (params : PowParams) (past : list CBlockIndex) (last first : CBlockIndex) : Z :=
  Z.min (limit_value params)
    (avg_exact 1 0 (map target_of past) * dgw_timespan params last first
     / (nPastBlocks * nPowTargetSpacing params)).

(** C28. As long as the targets of the last 180 blocks are at most [L] with
    [L * 3T < 2^256] ([T] is the target timespan), 256-bit arithmetic does not wrap and
    [DarkGravityWave] encodes exactly the intended value: the weighted average of the
    past targets, scaled by the timespan limited to [T/3 .. 3T], capped at
    the limit. *)
Theorem DarkGravityWave_exact H params p b block L :
  wf_heap H -> pow_params_ok params ->
  (forall q c, H !! q = Some c -> good_bits params (nBits c)) ->
  H !! p = Some b -> nPastBlocks <= nHeight b ->
  fPowAllowMinDifficultyBlocks params && fPowNoRetargeting params = false ->
  let past := past_entries H 179 p in
  (KAWPOW_TIME <=? hTime block) && negb (kawpow_count past =? nPastBlocks) = false ->
  Forall (fun c => target_of c <= L) past ->
  L * (3 * (nPastBlocks * nPowTargetSpacing params)) < 2 ^ 256 ->
  exists first, last past = Some first /\ length past = 180%nat /\
    DarkGravityWave H params p block = Some (compact_encode (dgw_exact params past b first)) /\
    avg_exact 1 0 (map target_of past) <= L.
Proof.
  intros Hwf Hok Hgood Hp Hh Hm past Hk HL Hfit.
  destruct (DarkGravityWave_regular _ _ Hwf Hok Hgood p b block Hp Hh Hm)
    as (first & bits & Hl & Hlen & E & _ & Eb). fold past in Hl, Hlen, Eb. rewrite Hk in Eb.
  exists first. split; [done|]. split; [done|]. rewrite E, Eb.
  assert (heap_bits_ok H) as Hbits by (intros q c Hq; apply (Hgood q c Hq)).
  destruct (ok_spacing _ Hok) as [Hs1 Hs2]. set (T := nPastBlocks * nPowTargetSpacing params) in *.
  assert (180 <= T) as HT by (unfold T, nPastBlocks; lia).
  assert (Forall (fun t => 0 <= t <= L) (map target_of past)) as HtL.
  { apply List.Forall_map. pose proof (past_targets_nonneg _ Hbits 179 p) as Hpos. fold past in Hpos.
    eapply Forall_impl; [apply Forall_and; split; [exact Hpos|exact HL]|]. simpl. lia. }
  assert (0 <= L) as HL0.
  { destruct past as [|c r]; [done|]. apply Forall_cons_1 in HtL as [[? ?] _]. lia. }
  destruct (avg_mod_exact L 1 0 (map target_of past)) as [Ee Hle]; [lia|lia|done| |].
  { rewrite length_map, Hlen. change (1 + Z.of_nat 180) with 181. nia. }
  split; [|lia]. unfold dgw_exact. fold T. rewrite Ee. do 3 f_equal. rewrite Z.mod_small; [done|].
  assert (0 <= dgw_timespan params b first <= 3 * T) as Hd.
  { unfold dgw_timespan. fold T. pose proof (Z.quot_pos T 3). pose proof (Z.quot_le_upper_bound T 3 T). lia. }
  nia.
Qed.

(** ** Example chains *)

(** A chain of [n] blocks at addresses [1 .. n], one every [spacing] seconds,
    all with the same [bits]. *)
Definition chain_entry (spacing bits : Z) (i : nat) : CBlockIndex :=
  mkBlockIndex (1000 + Z.of_nat i) (if (i =? 1)%nat then None else Some (Z.of_nat i - 1)) None
    (Z.of_nat i - 1) (BaseUint.zero W256) 0 1 (1700000000 + spacing * Z.of_nat i) bits 0.

Definition chain_heap (n : nat) (spacing bits : Z) : heap :=
  list_to_map (map (fun i => (Z.of_nat i, chain_entry spacing bits i)) (seq 1 n)).

Lemma chain_heap_lookup n spacing bits p b :
  chain_heap n spacing bits !! p = Some b <->
  exists i, (1 <= i <= n)%nat /\ p = Z.of_nat i /\ b = chain_entry spacing bits i.
Proof.
  unfold chain_heap. rewrite <- elem_of_list_to_map.
  - rewrite list_elem_of_fmap. split.
    + intros (i & E & Hi). apply elem_of_seq in Hi. injection E as -> ->. exists i. split; [lia|done].
    + intros (i & Hi & -> & ->). exists i. split; [done|]. apply elem_of_seq. lia.
  - rewrite map_map. simpl. apply (NoDup_fmap_2 Z.of_nat), NoDup_seq.
Qed.

Lemma chain_heap_wf n spacing bits : wf_heap (chain_heap n spacing bits).
Proof.
  intros p b Hp. apply chain_heap_lookup in Hp as (i & Hi & -> & ->).
  split; [simpl; lia|]. split; [|done]. simpl. destruct (Nat.eqb_spec i 1) as [->|Hne]; [done|].
  exists (chain_entry spacing bits (i - 1)). split; [|simpl; lia].
  apply chain_heap_lookup. exists (i - 1)%nat. split; [lia|]. split; [lia|done].
Qed.

Lemma chain_heap_past n spacing bits k i :
  (k < i <= n)%nat ->
  past_entries (chain_heap n spacing bits) k (Z.of_nat i)
    = map (fun j => chain_entry spacing bits (i - j)) (seq 0 (S k)).
Proof.
  revert i. induction k as [|k IH]; intros i Hi; cbn [past_entries];
    (replace (chain_heap n spacing bits !! Z.of_nat i) with (Some (chain_entry spacing bits i))
       by (symmetry; apply chain_heap_lookup; exists i; split; [lia|done])).
  - simpl. by rewrite Nat.sub_0_r.
  - simpl pprev. destruct (Nat.eqb_spec i 1); [lia|].
    replace (Z.of_nat i - 1) with (Z.of_nat (i - 1)) by lia. rewrite IH by lia.
    change (seq 0 (S (S k))) with (0%nat :: seq 1 (S k)). rewrite <- (seq_shift (S k) 0).
    cbn [map]. rewrite Nat.sub_0_r. f_equal. rewrite map_map. apply map_ext. intros j. f_equal. lia.
Qed.

(** The main network's parameters. *)
Definition main_params : PowParams :=
  mkPowParams (replicate 31 255 ++ [0]) false false 60 (2016 * 60) 1 0.

Lemma main_params_ok : pow_params_ok main_params.
Proof.
  split; [|by vm_compute|by vm_compute]. split; [done|].
  apply Forall_app. split; [apply Forall_replicate|repeat constructor]; unfold is_u8; lia.
Qed.

Definition good_bitsb (params : PowParams) (bits : Z) : bool :=
  (0 <=? bits) && (bits <? 2 ^ 32) && negb (fNegative (SetCompact bits))
  && negb (fOverflow (SetCompact bits)) && (value (target (SetCompact bits)) <=? limit_value params).

Lemma good_bitsb_sound params bits : good_bitsb params bits = true -> good_bits params bits.
Proof.
  unfold good_bitsb. rewrite !andb_true_iff, !negb_true_iff. intros [[[[H1 H2] H3] H4] H5].
  split; [unfold is_u32; lia|]. split; [done|]. split; [done|]. lia.
Qed.

Lemma chain_heap_good n spacing bits :
  good_bitsb main_params bits = true ->
  forall q c, chain_heap n spacing bits !! q = Some c -> good_bits main_params (nBits c).
Proof.
  intros Hb q c Hq. apply chain_heap_lookup in Hq as (i & _ & _ & ->). by apply good_bitsb_sound.
Qed.

Definition example_block : CBlockHeader := mkHeader 5000 1181 1 1700010920 0 0.

Lemma chain_heap_tip bits : chain_heap 181 60 bits !! 181 = Some (chain_entry 60 bits 181).
Proof. apply chain_heap_lookup. exists 181%nat. split; [lia|done]. Qed.

Definition slow_bits : Z := 0x1b0404cb.
Definition slow_heap : heap := chain_heap 181 60 slow_bits.
Definition slow_tip : CBlockIndex := chain_entry 60 slow_bits 181.

Lemma slow_heap_wf : wf_heap slow_heap.
Proof. apply chain_heap_wf. Qed.

Lemma slow_heap_tip : slow_heap !! 181 = Some slow_tip.
Proof. apply chain_heap_tip. Qed.

Lemma slow_heap_good q c : slow_heap !! q = Some c -> good_bits main_params (nBits c).
Proof. apply (chain_heap_good 181 60 slow_bits). by vm_compute. Qed.

Lemma slow_heap_past :
  past_entries slow_heap 179 181 = map (fun j => chain_entry 60 slow_bits (181 - j)) (seq 0 180).
Proof. exact (chain_heap_past 181 60 slow_bits 179 181 ltac:(lia)). Qed.

Lemma slow_heap_kawpow : kawpow_count (past_entries slow_heap 179 181) = nPastBlocks.
Proof. rewrite slow_heap_past. by vm_compute. Qed.

Lemma next_work_in_range_witness :
  exists bits, GetNextWorkRequired slow_heap main_params 181 example_block = Some bits /\
    good_bits main_params bits.
Proof.
  exact (next_work_in_range slow_heap main_params 181 slow_tip example_block
           slow_heap_wf main_params_ok slow_heap_good slow_heap_tip).
Defined.

Lemma slow_heap_targets : Forall (fun c => target_of c <= 2 ^ 220) (past_entries slow_heap 179 181).
Proof.
  rewrite slow_heap_past. apply List.Forall_map, List.Forall_forall. intros j _.
  change (target_of (chain_entry 60 slow_bits (181 - j))) with (value (target (SetCompact slow_bits))).
  by vm_compute.
Qed.

Lemma DarkGravityWave_exact_witness :
  exists bits, DarkGravityWave slow_heap main_params 181 example_block = Some bits.
Proof.
  destruct (DarkGravityWave_exact slow_heap main_params 181 slow_tip example_block (2 ^ 220)
              slow_heap_wf main_params_ok slow_heap_good slow_heap_tip)
    as (first & _ & _ & E & _).
  - by vm_compute.
  - reflexivity.
  - rewrite slow_heap_kawpow. reflexivity.
  - exact slow_heap_targets.
  - by vm_compute.
  - exact (ex_intro _ _ E).
Defined.

(** ** Wrap-around at the limit *)

Lemma avg_exact_const t n count :
  1 <= count -> avg_exact count t (replicate n t) = t.
Proof.
  revert count. induction n as [|n IH]; intros count Hc; [done|]. cbn [replicate avg_exact].
  destruct (count =? 1); [apply IH; lia|].
  assert (avg_step t count t = t) as ->; [|apply IH; lia].
  unfold avg_step. replace (t * count + t) with (t * (count + 1)) by ring. apply Z.div_mul. lia.
Qed.

Lemma avg_exact_start t n : avg_exact 1 0 (replicate (S n) t) = t.
Proof. cbn [replicate avg_exact]. change (1 =? 1) with true. cbv iota. by apply avg_exact_const. Qed.

Lemma avg_mod_const t n :
  0 <= t -> t * (1 + Z.of_nat (S n)) < 2 ^ 256 -> avg_mod 1 0 (replicate (S n) t) = t.
Proof.
  intros H0 Hlt. destruct (avg_mod_exact t 1 0 (replicate (S n) t)) as [-> _]; [lia|lia| | |].
  - apply Forall_replicate. lia.
  - by rewrite length_replicate.
  - apply avg_exact_start.
Qed.

Lemma map_const_replicate {A} (f : A -> Z) t l : Forall (fun x => f x = t) l -> map f l = replicate (length l) t.
Proof. induction 1 as [|x l Hx _ IH]; simpl; [done|]. by rewrite Hx, IH. Qed.

(** C29. On the main network the product with the timespan does not fit in 256
    bits near the limit: when the last 180 blocks all have the limit's own [nBits] and are
    exactly on schedule (10740 seconds for 179 intervals), [DarkGravityWave] asks for a
    target more than 44 times smaller than the exact formula, which would keep
    it at 99% of the limit. *)
Theorem DarkGravityWave_wraps_at_limit H p b first block :
  wf_heap H -> (forall q c, H !! q = Some c -> good_bits main_params (nBits c)) ->
  H !! p = Some b -> nPastBlocks <= nHeight b ->
  let past := past_entries H 179 p in
  Forall (fun c => nBits c = compact_encode (limit_value main_params) /\ KAWPOW_TIME <= nTime c) past ->
  last past = Some first -> nTime b - nTime first = 179 * 60 ->
  exists bits, DarkGravityWave H main_params p block = Some bits /\
    44 * value (target (SetCompact bits)) < dgw_exact main_params past b first /\
    99 * limit_value main_params < 100 * dgw_exact main_params past b first.
Proof.
  intros Hwf Hgood Hp Hh past Hall Hlast Htime.
  destruct (DarkGravityWave_regular _ _ Hwf main_params_ok Hgood p b block Hp Hh eq_refl)
    as (first' & bits & Hl & Hlen & E & _ & Eb). fold past in Hl, Hlen, Eb.
  rewrite Hlast in Hl. injection Hl as <-. exists bits. split; [done|].
  assert (kawpow_count past = nPastBlocks) as Hk.
  { unfold kawpow_count. rewrite List.filter_ext_in with (g := fun _ => true).
    - rewrite List.forallb_filter_id; [by rewrite Hlen|]. by apply List.forallb_forall.
    - intros c Hc. rewrite Forall_forall in Hall. apply list_elem_of_In in Hc.
      apply Z.leb_le, (Hall c Hc). }
  rewrite Hk, andb_false_r in Eb.
  assert (map target_of past = replicate 180 (65535 * 2 ^ 232)) as Et.
  { rewrite <- Hlen. apply map_const_replicate. eapply Forall_impl; [exact Hall|].
    intros c [Hc _]. unfold target_of. rewrite Hc. by vm_compute. }
  assert (dgw_timespan main_params b first = 10740) as Ed.
  { unfold dgw_timespan. rewrite Htime. by vm_compute. }
  unfold dgw_exact. rewrite Et, Ed in *. rewrite (avg_mod_const (65535 * 2 ^ 232) 179) in Eb by lia.
  rewrite (avg_exact_start (65535 * 2 ^ 232) 179), Eb. clear. vm_compute. split; reflexivity.
Qed.

Definition limit_bits : Z := 0x2000ffff.
Definition limit_heap : heap := chain_heap 181 60 limit_bits.
Definition limit_tip : CBlockIndex := chain_entry 60 limit_bits 181.

Lemma limit_heap_good q c : limit_heap !! q = Some c -> good_bits main_params (nBits c).
Proof. apply (chain_heap_good 181 60 limit_bits). by vm_compute. Qed.

Lemma limit_heap_past :
  past_entries limit_heap 179 181 = map (fun j => chain_entry 60 limit_bits (181 - j)) (seq 0 180).
Proof. exact (chain_heap_past 181 60 limit_bits 179 181 ltac:(lia)). Qed.

Lemma limit_heap_bits :
  Forall (fun c => nBits c = compact_encode (limit_value main_params) /\ KAWPOW_TIME <= nTime c)
    (past_entries limit_heap 179 181).
Proof.
  rewrite limit_heap_past. apply List.Forall_map, List.Forall_forall. intros j _.
  split; [by vm_compute|]. unfold KAWPOW_TIME. simpl. lia.
Qed.

Lemma DarkGravityWave_wraps_at_limit_witness :
  exists bits, DarkGravityWave limit_heap main_params 181 example_block = Some bits.
Proof.
  destruct (DarkGravityWave_wraps_at_limit limit_heap 181 limit_tip (chain_entry 60 limit_bits 2)
              example_block (chain_heap_wf 181 60 limit_bits) limit_heap_good
              (chain_heap_tip limit_bits)) as (bits & E & _).
  - by vm_compute.
  - exact limit_heap_bits.
  - rewrite limit_heap_past. reflexivity.
  - reflexivity.
  - exact (ex_intro _ bits E).
Defined.

(** *** A target of zero *)

(** The target [2^247] for 180 blocks, the last of which is 5120 seconds after the first: the product is [5 * 2^257]. *)
Definition zero_bits : Z := 0x20008000.
Definition zero_tip : CBlockIndex :=
  mkBlockIndex 1181 (Some 180) None 180 (BaseUint.zero W256) 0 1 (1700000056 + 5120) zero_bits 0.
Definition zero_heap : heap := <[181 := zero_tip]> (chain_heap 180 28 zero_bits).

(** A block on top of a well-formed tree. *)
Lemma wf_heap_extend H p q b c : wf_heap H -> H !! p = None -> H !! q = Some c -> 0 <= nHeight b -> pprev b = Some q ->
  nHeight b = nHeight c + 1 -> pskip b = None -> wf_heap (<[p := b]> H).
Proof.
  intros Hwf Hp Hq Hb Ep Eh Es x e [[<- <-]|[Hne Hx]]%lookup_insert_Some.
  - split; [done|]. rewrite Ep, Es. split; [|done]. exists c. split; [|done]. rewrite lookup_insert_ne by congruence. done.
  - apply (wf_entry_mono H); [by apply insert_subseteq|by apply Hwf].
Qed.

Lemma zero_heap_wf : wf_heap zero_heap.
Proof.
  apply (wf_heap_extend _ _ 180 _ (chain_entry 28 zero_bits 180)); [apply chain_heap_wf| | |done..].
  - destruct (chain_heap 180 28 zero_bits !! 181) as [b|] eqn:E; [|done].
    apply chain_heap_lookup in E as (i & Hi & Hp & _). lia.
  - apply chain_heap_lookup. exists 180%nat. split; [lia|done].
Qed.

(** In a well-formed block tree of the main network whose targets are all in range, the target asked for can be 0, which no block meets. *)
Theorem next_work_can_be_zero :
  wf_heap zero_heap /\ (forall q c, zero_heap !! q = Some c -> good_bits main_params (nBits c) /\ 0 < value (target (SetCompact (nBits c)))) /\
  GetNextWorkRequired zero_heap main_params 181 example_block = Some 0 /\ value (target (SetCompact 0)) = 0.
Proof.
  split; [exact zero_heap_wf|]. split; [|split; vm_compute; reflexivity].
  intros q c Hq. assert (nBits c = zero_bits) as ->.
  { unfold zero_heap in Hq. rewrite lookup_insert_Some in Hq. destruct Hq as [[_ <-]|[_ (i & _ & _ & ->)%chain_heap_lookup]]; done. }
  split; [apply good_bitsb_sound; by vm_compute|by vm_compute].
Qed.

(** [CheckProofOfWork] accepts exactly the hashes that, read as a
    little-endian number, do not exceed a target that is positive, not negative,
    not overflowing and at most the limit. *)
Theorem CheckProofOfWork_meaning params hash bits :
  blob256 (powLimit params) -> blob256 hash -> is_u32 bits ->
  let c := SetCompact bits in
  CheckProofOfWork params hash bits = true <->
  fNegative c = false /\ fOverflow c = false /\
  0 < value (target c) <= limit_value params /\ le_bytes hash <= value (target c).
Proof.
  intros Hl Hh Hb c. destruct (UintToArith256_spec _ Hl) as [Hlw Hlv].
  destruct (UintToArith256_spec _ Hh) as [Hhw Hhv]. destruct (SetCompact_target bits Hb) as [Ht _].
  pose proof (wf_range _ _ Ht) as Hr. destruct Ht as [Htl Hto].
  unfold CheckProofOfWork, bnPowLimit. fold c in Htl, Hto, Hr |- *.
  rewrite BaseUintFacts.EqualTo_spec; [|rewrite Htl; unfold W256; lia|done|unfold is_u64; lia].
  rewrite !(BaseUintFacts.gt_spec W256), Hlv, Hhv by done. unfold limit_value.
  revert Hr. generalize (value (target c)), (le_bytes (powLimit params)), (le_bytes hash),
    (fNegative c), (fOverflow c). clear. intros t l h neg ovf Ht.
  destruct neg, ovf, (Z.eqb_spec t 0), (Z.ltb_spec l t), (Z.ltb_spec t h); simpl;
    intuition (discriminate || lia).
Qed.

Lemma CheckProofOfWork_meaning_witness :
  CheckProofOfWork main_params (replicate 28 255 ++ replicate 4 0) 0x1d00ffff = false /\
  CheckProofOfWork main_params (replicate 26 255 ++ replicate 6 0) 0x1d00ffff = true.
Proof.
  assert (forall n m, (n + m = 32)%nat -> blob256 (replicate n 255 ++ replicate m 0)) as Hblob.
  { intros n m Hnm. split; [rewrite length_app, !length_replicate; lia|].
    apply Forall_app. split; apply Forall_replicate; unfold is_u8; lia. }
  split; [by vm_compute|].
  apply (CheckProofOfWork_meaning main_params _ 0x1d00ffff); [apply main_params_ok|by apply Hblob| |].
  - unfold is_u32. lia.
  - by vm_compute.
Defined.
