(* ===== verification/VersionBits.v ===== *)
(** [versionbits.h], [versionbits.cpp]: BIP9 soft-fork deployments.
    [GetStateFor] memoises the state of a retarget period in a cache keyed by the
    period's last block and computes missing ones by walking back and then
    forward again.  [bip9_state] is the plain recursive definition of the BIP9 state
    machine; the theorems show that the cached routine computes it whatever
    the history of the cache, and that the machine only moves along its
    edges. *)

From stdpp Require Import prelude gmap.
From Stdlib Require Import ZArith Lia.
From S2P Require Import Prelude ArithUint256 Compact Chain ActiveChain MedianTime.

Open Scope Z_scope.

Inductive ThresholdState : Set :=
| THRESHOLD_DEFINED
| THRESHOLD_STARTED
| THRESHOLD_LOCKED_IN
| THRESHOLD_ACTIVE
| THRESHOLD_FAILED.

#[export] Instance ThresholdState_eq_dec : EqDecision ThresholdState.
Proof. solve_decision. Defined.

(** The virtual methods of [AbstractThresholdConditionChecker], for fixed
    consensus parameters. *)
Class ThresholdConditionChecker := {
  Condition : CBlockIndex -> bool;
  BeginTime : Z;
  EndTime : Z;
  Period : Z;
  Threshold : Z
}.

(** [std::map<const CBlockIndex*, ThresholdState>]; the key [None] is
    [nullptr]. *)
Abbreviation ThresholdConditionCache := (gmap (option ptr) ThresholdState).

Record BIP9Stats := mkBIP9Stats {
  stat_period : Z;
  stat_threshold : Z;
  stat_elapsed : Z;
  stat_count : Z;
  stat_possible : bool
}.

Section Checker.
Context `{chk : ThresholdConditionChecker} (H : heap).

(** The last block of the previous period: the height is rounded down to one
    below a multiple of the period. *)
Definition period_start (pindexPrev : option ptr) : ptr_result :=
  match pindexPrev with
  | None => Some None
  | Some p =>
      match H !! p with
      | None => None
      | Some b => GetAncestor H p (nHeight b - Z.rem (nHeight b + 1) Period)
      end
  end.

(** [while (cache.count(pindexPrev) == 0)]; [vToCompute] is kept with its back
    at the head. *)
Fixpoint walk_back (fuel : nat) (cache : ThresholdConditionCache) (pindexPrev : option ptr)
    (vToCompute : list ptr) : option (ThresholdConditionCache * option ptr * list ptr) :=
  match cache !! pindexPrev with
  | Some _ => Some (cache, pindexPrev, vToCompute)
  | None =>
      match pindexPrev with
      | None => Some (<[None := THRESHOLD_DEFINED]> cache, None, vToCompute)
      | Some p =>
          if GetMedianTimePast H p <? BeginTime
          then Some (<[Some p := THRESHOLD_DEFINED]> cache, Some p, vToCompute)
          else match fuel, H !! p with
               | S fuel', Some b =>
                   match GetAncestor H p (nHeight b - Period) with
                   | Some q => walk_back fuel' cache q (p :: vToCompute)
                   | None => None
                   end
               | _, _ => None
               end
      end
  end.

(** [for (int i = 0; i < nPeriod; i++)] over [pprev]; a null dereference is
    [None]. *)
Fixpoint count_signals (n : nat) (pindexCount : option ptr) (count : Z) : option Z :=
  match n with
  | O => Some count
  | S n' =>
      match pindexCount with
      | None => None
      | Some p =>
          match H !! p with
          | None => None
          | Some b => count_signals n' (pprev b) (if Condition b then count + 1 else count)
          end
      end
  end.

(** The [switch] of the forward walk. *)
Definition state_next (state : ThresholdState) (p : ptr) : option ThresholdState :=
  match state with
  | THRESHOLD_DEFINED =>
      Some (if EndTime <=? GetMedianTimePast H p then THRESHOLD_FAILED
            else if BeginTime <=? GetMedianTimePast H p then THRESHOLD_STARTED
            else THRESHOLD_DEFINED)
  | THRESHOLD_STARTED =>
      if EndTime <=? GetMedianTimePast H p then Some THRESHOLD_FAILED
      else match count_signals (Z.to_nat Period) (Some p) 0 with
           | None => None
           | Some count => Some (if Threshold <=? count then THRESHOLD_LOCKED_IN else THRESHOLD_STARTED)
           end
  | THRESHOLD_LOCKED_IN => Some THRESHOLD_ACTIVE
  | THRESHOLD_FAILED => Some THRESHOLD_FAILED
  | THRESHOLD_ACTIVE => Some THRESHOLD_ACTIVE
  end.

Fixpoint walk_forward (cache : ThresholdConditionCache) (state : ThresholdState) (vToCompute : list ptr)
    : option (ThresholdState * ThresholdConditionCache) :=
  match vToCompute with
  | [] => Some (state, cache)
  | p :: rest =>
      match state_next state p with
      | None => None
      | Some s => walk_forward (<[Some p := s]> cache) s rest
      end
  end.

(** Every step of the backward walk lowers the height by [nPeriod >= 1]. *)
Definition walk_fuel (p : option ptr) : nat :=
  match p with
  | Some q => match H !! q with Some b => Z.to_nat (nHeight b) + 1 | None => 0 end
  | None => 0
  end%nat.

Definition GetStateFor (pindexPrev : option ptr) (cache : ThresholdConditionCache)
    : option (ThresholdState * ThresholdConditionCache) :=
  match period_start pindexPrev with
  | None => None
  | Some start =>
      match walk_back (walk_fuel start) cache start [] with
      | None => None
      | Some (cache', p, vToCompute) =>
          match cache' !! p with
          | None => None
          | Some state => walk_forward cache' state vToCompute
          end
      end
  end.

(** [GetStateStatisticsFor] *)
Fixpoint stats_loop (fuel : nat) (endHeight : Z) (p : option ptr) (count : Z) : option Z :=
  match p with
  | None => None
  | Some q =>
      match H !! q with
      | None => None
      | Some b =>
          if nHeight b =? endHeight then Some count
          else match fuel with
               | O => None
               | S fuel' => stats_loop fuel' endHeight (pprev b) (if Condition b then count + 1 else count)
               end
      end
  end.

Definition GetStateStatisticsFor (pindex : option ptr) : option BIP9Stats :=
  match pindex with
  | None => Some (mkBIP9Stats Period Threshold 0 0 false)
  | Some p =>
      match H !! p, period_start pindex with
      | Some b, Some (Some e) =>
          match H !! e with
          | None => None
          | Some eb =>
              let elapsed := nHeight b - nHeight eb in
              match stats_loop (Z.to_nat elapsed) (nHeight eb) (Some p) 0 with
              | None => None
              | Some count =>
                  Some (mkBIP9Stats Period Threshold elapsed count
                          (elapsed - count <=? Period - Threshold))
              end
          end
      | _, _ => None
      end
  end.

(** [GetStateSinceHeightFor]: the loop over earlier periods. *)
Fixpoint since_loop (fuel : nat) (p : ptr) (initialState : ThresholdState) (cache : ThresholdConditionCache)
    : option (Z * ThresholdConditionCache) :=
  match H !! p with
  | None => None
  | Some b =>
      match GetAncestor H p (nHeight b - Period) with
      | None => None
      | Some None => Some (nHeight b + 1, cache)
      | Some (Some previousPeriodParent) =>
          match GetStateFor (Some previousPeriodParent) cache with
          | None => None
          | Some (s, cache') =>
              if decide (s = initialState)
              then match fuel with
                   | O => None
                   | S fuel' => since_loop fuel' previousPeriodParent initialState cache'
                   end
              else Some (nHeight b + 1, cache')
          end
      end
  end.

Definition GetStateSinceHeightFor (pindexPrev : option ptr) (cache : ThresholdConditionCache)
    : option (Z * ThresholdConditionCache) :=
  match GetStateFor pindexPrev cache with
  | None => None
  | Some (THRESHOLD_DEFINED, cache') => Some (0, cache')
  | Some (initialState, cache') =>
      match period_start pindexPrev with
      | Some (Some p) => since_loop (walk_fuel (Some p)) p initialState cache'
      | _ => None
      end
  end.
End Checker.

(** ** The BIP9 state machine *)

Section Bip9.
Context `{chk : ThresholdConditionChecker} (H : heap).

(** The parent of the previous period's first block. *)
Definition prev_period (q : ptr) : option ptr := nth_prev H (Z.to_nat Period) q.

(** The state of the period after block [p], without cache: genesis is
    DEFINED, and each period is one step from the period before. *)
Inductive bip9_state : option ptr -> ThresholdState -> Prop :=
| bip9_genesis : bip9_state None THRESHOLD_DEFINED
| bip9_next q s s' :
    bip9_state (prev_period q) s -> state_next H s q = Some s' -> bip9_state (Some q) s'.

(** Keys of the cache: [nullptr] or the last block of a period. *)
Definition boundary (p : option ptr) : Prop :=
  match p with
  | None => True
  | Some q => exists b, H !! q = Some b /\ (nHeight b + 1) mod Period = 0
  end.

Definition cache_ok (cache : ThresholdConditionCache) : Prop :=
  forall p s, cache !! p = Some s -> boundary p /\ bip9_state p s.

(** The boundary a block belongs to. *)
Definition period_parent (p : option ptr) : option ptr :=
  match p with
  | None => None
  | Some q => match H !! q with
              | Some b => nth_prev H (Z.to_nat ((nHeight b + 1) mod Period)) q
              | None => None
              end
  end.

Lemma bip9_state_det p s s' : bip9_state p s -> bip9_state p s' -> s = s'.
Proof.
  intros Hs. revert s'. induction Hs as [|q s t Hs IH Ht]; intros s' Hs'; inversion Hs'; subst; [done|].
  match goal with H1 : bip9_state (prev_period q) ?x |- _ => rewrite <- (IH x H1) in * end. congruence.
Qed.
End Bip9.

(** What the checker and the index must satisfy: a positive period, a start
    before the timeout, and median times that grow along branches (which the
    header checks provide). *)
Record checker_ok `{chk : ThresholdConditionChecker} (H : heap) : Prop := {
  chk_heap : wf_heap H;
  chk_times : times_accepted H;
  chk_period : 1 <= Period;
  chk_window : BeginTime <= EndTime
}.

Section Correct.
Context `{chk : ThresholdConditionChecker} (H : heap) (Hok : checker_ok H).

Lemma GetAncestor_back q b n :
  H !! q = Some b -> 0 <= n -> GetAncestor H q (nHeight b - n) = Some (nth_prev H (Z.to_nat n) q).
Proof using Hok.
  intros Hq Hn. destruct (decide (n <= nHeight b)) as [Hle|Hgt].
  - rewrite (GetAncestor_spec H (chk_heap _ Hok) q b) by (done || lia). do 3 f_equal. lia.
  - rewrite (GetAncestor_out H q b) by (done || lia). f_equal. symmetry.
    destruct (nth_prev H (Z.to_nat n) q) as [r|] eqn:E; [|done].
    destruct (nth_prev_height H (chk_heap _ Hok) _ _ _ _ Hq E) as (c & _ & _ & Hle). lia.
Qed.

Lemma prev_period_boundary q b :
  H !! q = Some b -> (nHeight b + 1) mod Period = 0 ->
  boundary H (prev_period H q) /\
  match prev_period H q with
  | None => nHeight b + 1 = Period
  | Some r => exists c, H !! r = Some c /\ nHeight c = nHeight b - Period
  end.
Proof using Hok.
  intros Hq Hm. pose proof (chk_period _ Hok) as HP. pose proof (chk_heap _ Hok _ _ Hq) as [H0 _].
  apply Z.mod_divide in Hm as [k Hk]; [|lia]. unfold prev_period.
  destruct (nth_prev H (Z.to_nat Period) q) as [r|] eqn:E.
  - destruct (nth_prev_height H (chk_heap _ Hok) _ _ _ _ Hq E) as (c & Hc & Hh & Hle).
    split; [|exists c; split; [done|lia]]. exists c. split; [done|].
    apply Z.mod_divide; [lia|]. exists (k - 1). lia.
  - split; [done|]. destruct (decide (Period <= nHeight b)) as [Hle|Hgt].
    + destruct (nth_prev_Some H (chk_heap _ Hok) (Z.to_nat Period) q b Hq ltac:(lia)) as (r & c & E' & _).
      congruence.
    + assert (k = 1) by nia. lia.
Qed.

Lemma count_signals_Some n p b count :
  H !! p = Some b -> Z.of_nat n <= nHeight b + 1 -> exists c, count_signals H n (Some p) count = Some c.
Proof using Hok.
  revert p b count. induction n as [|n IH]; intros p b count Hp Hn; [by exists count|].
  cbn [count_signals]. rewrite Hp. destruct (chk_heap _ Hok _ _ Hp) as (H0 & Hprev & _).
  destruct (pprev b) as [q|].
  - destruct Hprev as (c & Hc & Hh). apply (IH q c); [done|lia].
  - destruct n; [by eexists|lia].
Qed.

Lemma state_next_Some s q b :
  H !! q = Some b -> (nHeight b + 1) mod Period = 0 -> exists s', state_next H s q = Some s'.
Proof using Hok.
  intros Hq Hm. pose proof (chk_period _ Hok) as HP. pose proof (chk_heap _ Hok _ _ Hq) as [H0 _].
  destruct s; simpl; try (by eexists). destruct (_ <=? _); [by eexists|].
  destruct (count_signals_Some (Z.to_nat Period) q b 0 Hq) as [c ->]; [|by eexists].
  apply Z.mod_divide in Hm as [k Hk]; [|lia]. assert (1 <= k) by nia. nia.
Qed.

(** Every boundary has a state. *)
Lemma bip9_state_total p : boundary H p -> exists s, bip9_state H p s.
Proof using Hok.
  destruct p as [q|]; [|by eexists; constructor]. intros (b & Hq & Hm).
  remember (Z.to_nat (nHeight b)) as n eqn:En. revert q b Hq Hm En.
  induction n as [n IH] using lt_wf_ind. intros q b Hq Hm ->.
  pose proof (chk_period _ Hok) as HP. pose proof (chk_heap _ Hok _ _ Hq) as [H0 _].
  destruct (prev_period_boundary q b Hq Hm) as [Hbd Hpp].
  assert (exists s, bip9_state H (prev_period H q) s) as [s Hs].
  { destruct (prev_period H q) as [r|]; [|by eexists; constructor].
    destruct Hbd as (c & Hc & Hcm). destruct Hpp as (c' & Hc' & Hh). simplify_eq.
    pose proof (chk_heap _ Hok _ _ Hc) as [Hc0 _].
    by apply (IH (Z.to_nat (nHeight c)) ltac:(lia) r c). }
  destruct (state_next_Some s q b Hq Hm) as [s' Hs']. exists s'. by econstructor.
Qed.

(** Before the start time the state is DEFINED, as median times only grow. *)
Lemma bip9_before_start q b :
  H !! q = Some b -> (nHeight b + 1) mod Period = 0 -> GetMedianTimePast H q < BeginTime ->
  bip9_state H (Some q) THRESHOLD_DEFINED.
Proof using Hok.
  remember (Z.to_nat (nHeight b)) as n eqn:En. revert q b En.
  induction n as [n IH] using lt_wf_ind. intros q b -> Hq Hm Ht.
  pose proof (chk_period _ Hok) as HP. pose proof (chk_window _ Hok) as HW.
  pose proof (chk_heap _ Hok _ _ Hq) as [H0 _].
  destruct (prev_period_boundary q b Hq Hm) as [Hbd Hpp].
  apply (bip9_next H q THRESHOLD_DEFINED).
  - destruct (prev_period H q) as [r|] eqn:Er; [|constructor].
    destruct Hbd as (c & Hc & Hcm). destruct Hpp as (c' & Hc' & Hh). simplify_eq.
    pose proof (chk_heap _ Hok _ _ Hc) as [Hc0 _].
    pose proof (median_time_ancestor H (chk_heap _ Hok) _ q b r (chk_times _ Hok) Hq Er).
    apply (IH (Z.to_nat (nHeight c)) ltac:(lia) r c); [done..|lia].
  - simpl. destruct (Z.leb_spec EndTime (GetMedianTimePast H q)); [lia|].
    destruct (Z.leb_spec BeginTime (GetMedianTimePast H q)); [lia|done].
Qed.

(** Consecutive boundaries from [p] (excluded) up to [pend]. *)
Fixpoint forward_path (p : option ptr) (l : list ptr) (pend : option ptr) : Prop :=
  match l with
  | [] => p = pend
  | q :: r => prev_period H q = p /\ boundary H (Some q) /\ forward_path (Some q) r pend
  end.

Lemma forward_path_snoc p l q :
  forward_path p l (prev_period H q) -> boundary H (Some q) -> forward_path p (l ++ [q]) (Some q).
Proof.
  revert p. induction l as [|r l IH]; intros p Hp Hb; simpl in *; [by subst|].
  destruct Hp as (H1 & H2 & H3). split; [done|]. split; [done|]. by apply IH.
Qed.

Lemma cache_ok_insert cache p s :
  cache_ok H cache -> boundary H p -> bip9_state H p s -> cache_ok H (<[p := s]> cache).
Proof.
  intros Hc Hb Hs p' s' Hp. destruct (decide (p = p')) as [<-|Hne].
  - rewrite lookup_insert_eq in Hp. by simplify_eq.
  - rewrite lookup_insert_ne in Hp by done. by apply Hc.
Qed.

Lemma walk_back_spec fuel cache p v :
  cache_ok H cache -> boundary H p -> (walk_fuel H p <= fuel)%nat ->
  exists cache' p' l s, walk_back H fuel cache p v = Some (cache', p', l ++ v) /\
    cache_ok H cache' /\ cache' !! p' = Some s /\ forward_path p' l p.
Proof using Hok.
  intros Hc. revert p v. induction fuel as [|fuel IH]; intros p v Hb Hf;
    cbn [walk_back]; (destruct (cache !! p) as [s|] eqn:Ep; [by exists cache, p, [], s|]);
    (destruct p as [q|];
     [|exists (<[None := THRESHOLD_DEFINED]> cache), None, [], THRESHOLD_DEFINED;
       split; [done|]; split; [apply cache_ok_insert; [done|done|constructor]|];
       split; [apply lookup_insert_eq|done]]);
    pose proof Hb as (b & Hq & Hm);
    (destruct (Z.ltb_spec (GetMedianTimePast H q) BeginTime) as [Ht|Ht];
     [exists (<[Some q := THRESHOLD_DEFINED]> cache), (Some q), [], THRESHOLD_DEFINED;
      split; [done|]; split; [apply cache_ok_insert; [done|done|by eapply bip9_before_start]|];
      split; [apply lookup_insert_eq|done]|]).
  - exfalso. simpl in Hf. rewrite Hq in Hf. lia.
  - rewrite Hq. pose proof (chk_period _ Hok) as HP. pose proof (chk_heap _ Hok _ _ Hq) as [H0 _].
    rewrite (GetAncestor_back q b Period Hq) by lia. fold (prev_period H q).
    destruct (prev_period_boundary q b Hq Hm) as [Hbd Hpp].
    destruct (IH (prev_period H q) (q :: v) Hbd) as (cache' & p' & l & s & -> & Hc' & Hs & Hl).
    { simpl in Hf. rewrite Hq in Hf. destruct (prev_period H q) as [r|]; simpl; [|lia].
      destruct Hpp as (c & Hcc & Hh). rewrite Hcc. pose proof (chk_heap _ Hok _ _ Hcc) as [Hc0 _]. lia. }
    exists cache', p', (l ++ [q]), s. rewrite <- app_assoc. split; [done|]. split; [done|]. split; [done|].
    by apply forward_path_snoc.
Qed.

Lemma walk_forward_spec l cache p s pend :
  cache_ok H cache -> bip9_state H p s -> forward_path p l pend ->
  exists s' cache', walk_forward H cache s l = Some (s', cache') /\ cache_ok H cache' /\
    bip9_state H pend s'.
Proof using Hok.
  revert cache p s. induction l as [|q l IH]; intros cache p s Hc Hs Hl; simpl in Hl.
  - subst. by exists s, cache.
  - destruct Hl as (Hp & Hb & Hl). subst p. pose proof Hb as (b & Hq & Hm). cbn [walk_forward].
    destruct (state_next_Some s q b Hq Hm) as [s' Hs']. rewrite Hs'.
    assert (bip9_state H (Some q) s') as Hqs by (by econstructor).
    apply (IH _ (Some q)); [by apply cache_ok_insert|done|done].
Qed.

Lemma period_start_spec p :
  match p with Some q => is_Some (H !! q) | None => True end ->
  period_start H p = Some (period_parent H p) /\ boundary H (period_parent H p).
Proof using Hok.
  destruct p as [q|]; [|done]. intros [b Hq]. pose proof (chk_period _ Hok) as HP.
  pose proof (chk_heap _ Hok _ _ Hq) as [H0 _]. simpl. rewrite Hq, Z.rem_mod_nonneg by lia.
  assert (0 < Period) as HP0 by lia. pose proof (Z.mod_pos_bound (nHeight b + 1) Period HP0) as Hm.
  rewrite (GetAncestor_back q b) by (done || lia). split; [done|].
  destruct (nth_prev H (Z.to_nat ((nHeight b + 1) mod Period)) q) as [r|] eqn:E; [|done].
  destruct (nth_prev_height H (chk_heap _ Hok) _ _ _ _ Hq E) as (c & Hc & Hh & _).
  exists c. split; [done|]. rewrite Z2Nat.id in Hh by apply Hm.
  replace (nHeight c + 1) with (nHeight b + 1 - (nHeight b + 1) mod Period) by (rewrite Hh; ring).
  rewrite Zminus_mod_idemp_r, Z.sub_diag. apply Z.mod_0_l. lia.
Qed.

Lemma GetStateFor_spec p cache :
  cache_ok H cache -> match p with Some q => is_Some (H !! q) | None => True end ->
  exists s cache', GetStateFor H p cache = Some (s, cache') /\ cache_ok H cache' /\
    bip9_state H (period_parent H p) s.
Proof using Hok.
  intros Hc Hp. destruct (period_start_spec p Hp) as [E Hb]. unfold GetStateFor. rewrite E.
  destruct (walk_back_spec (walk_fuel H (period_parent H p)) cache (period_parent H p) [] Hc Hb)
    as (cache' & p' & l & s & -> & Hc' & Hs & Hl); [lia|].
  rewrite Hs, app_nil_r. apply (walk_forward_spec l cache' p' s); [done|by apply Hc'|done].
Qed.

(** ** Transitions *)

Inductive bip9_edge : ThresholdState -> ThresholdState -> Prop :=
| edge_stay_defined : bip9_edge THRESHOLD_DEFINED THRESHOLD_DEFINED
| edge_start : bip9_edge THRESHOLD_DEFINED THRESHOLD_STARTED
| edge_defined_fail : bip9_edge THRESHOLD_DEFINED THRESHOLD_FAILED
| edge_stay_started : bip9_edge THRESHOLD_STARTED THRESHOLD_STARTED
| edge_lock : bip9_edge THRESHOLD_STARTED THRESHOLD_LOCKED_IN
| edge_started_fail : bip9_edge THRESHOLD_STARTED THRESHOLD_FAILED
| edge_activate : bip9_edge THRESHOLD_LOCKED_IN THRESHOLD_ACTIVE
| edge_active : bip9_edge THRESHOLD_ACTIVE THRESHOLD_ACTIVE
| edge_failed : bip9_edge THRESHOLD_FAILED THRESHOLD_FAILED.

Lemma state_next_edge s q s' : state_next H s q = Some s' -> bip9_edge s s'.
Proof.
  destruct s; simpl; intros E.
  - destruct (_ <=? _); [simplify_eq; constructor|]. destruct (_ <=? _); simplify_eq; constructor.
  - destruct (_ <=? _); [simplify_eq; constructor|].
    destruct (count_signals _ _ _ _); [|done]. destruct (_ <=? _); simplify_eq; constructor.
  - simplify_eq. constructor.
  - simplify_eq. constructor.
  - simplify_eq. constructor.
Qed.

Lemma bip9_state_step q s' :
  bip9_state H (Some q) s' -> exists s, bip9_state H (prev_period H q) s /\ bip9_edge s s'.
Proof.
  inversion 1 as [|q' s t Hs Ht]; subst. exists s. split; [done|]. by eapply state_next_edge.
Qed.

(** ** Since when *)

(** [h] is the first height of the run of periods in state [s] that ends with
    the period after boundary [p]. *)
Inductive since_height (s : ThresholdState) : ptr -> Z -> Prop :=
| since_here p b :
    H !! p = Some b -> bip9_state H (Some p) s ->
    (forall s', bip9_state H (prev_period H p) s' -> prev_period H p = None \/ s' <> s) ->
    since_height s p (nHeight b + 1)
| since_earlier p q h :
    bip9_state H (Some p) s -> prev_period H p = Some q -> since_height s q h -> since_height s p h.

Lemma period_parent_boundary q b :
  H !! q = Some b -> (nHeight b + 1) mod Period = 0 -> period_parent H (Some q) = Some q.
Proof. intros Hq Hm. simpl. by rewrite Hq, Hm. Qed.

Lemma since_loop_spec fuel p b s cache :
  cache_ok H cache -> H !! p = Some b -> (nHeight b + 1) mod Period = 0 -> bip9_state H (Some p) s ->
  (Z.to_nat (nHeight b) <= fuel)%nat ->
  exists h cache', since_loop H fuel p s cache = Some (h, cache') /\ cache_ok H cache' /\
    since_height s p h.
Proof using Hok.
  revert p b cache. induction fuel as [|fuel IH]; intros p b cache Hc Hp Hm Hs Hf;
    cbn [since_loop]; rewrite Hp; pose proof (chk_period _ Hok) as HP;
    (rewrite (GetAncestor_back p b Period Hp) by lia); fold (prev_period H p);
    destruct (prev_period_boundary p b Hp Hm) as [Hbd Hpp];
    (destruct (prev_period H p) as [q|] eqn:Eq;
     [|exists (nHeight b + 1), cache; split; [done|]; split; [done|];
       eapply since_here; [done..|]; rewrite Eq; by left]);
    destruct Hpp as (c & Hq & Hh); pose proof Hbd as (c' & Hq' & Hcm);
    (assert (c' = c) as -> by congruence); pose proof (chk_heap _ Hok _ _ Hq) as [Hc0 _]; [lia|].
  destruct (GetStateFor_spec (Some q) cache Hc) as (s1 & cache1 & -> & Hc1 & Hs1); [by exists c|].
  rewrite (period_parent_boundary q c Hq Hcm) in Hs1.
  destruct (decide (s1 = s)) as [->|Hne].
  - destruct (IH q c cache1 Hc1 Hq Hcm Hs1) as (h & cache2 & -> & Hc2 & Hh2); [lia|].
    exists h, cache2. split; [done|]. split; [done|]. by eapply since_earlier.
  - exists (nHeight b + 1), cache1. split; [done|]. split; [done|].
    eapply since_here; [done..|]. rewrite Eq. intros s2 Hs2. right.
    by rewrite (bip9_state_det H _ _ _ Hs2 Hs1).
Qed.

Lemma GetStateSinceHeightFor_spec p cache :
  cache_ok H cache -> match p with Some q => is_Some (H !! q) | None => True end ->
  exists h cache' s, GetStateSinceHeightFor H p cache = Some (h, cache') /\ cache_ok H cache' /\
    bip9_state H (period_parent H p) s /\
    match s with
    | THRESHOLD_DEFINED => h = 0
    | _ => exists q, period_parent H p = Some q /\ since_height s q h
    end.
Proof using Hok.
  intros Hc Hp. unfold GetStateSinceHeightFor.
  destruct (GetStateFor_spec p cache Hc Hp) as (s & cache1 & -> & Hc1 & Hs).
  destruct (period_start_spec p Hp) as [-> Hb].
  destruct (decide (s = THRESHOLD_DEFINED)) as [->|Hne]; [by exists 0, cache1, THRESHOLD_DEFINED|].
  destruct (period_parent H p) as [q|]; [|inversion Hs; congruence].
  destruct Hb as (b & Hq & Hm).
  destruct (since_loop_spec (walk_fuel H (Some q)) q b s cache1 Hc1 Hq Hm Hs) as (h & cache2 & E & Hc2 & Hh).
  { simpl. rewrite Hq. lia. }
  exists h, cache2, s. rewrite E.
  destruct s; (split; [done|]); (split; [done|]); (split; [done|]); [done|eauto..].
Qed.
End Correct.

(** ** Deployments *)

Record BIP9Deployment := mkDeployment {
  dep_bit : Z;
  nStartTime : Z;
  nTimeout : Z;
  nWindowSize : Z;
  nThreshold : Z
}.

Definition VERSIONBITS_TOP_BITS : Z := 0x20000000.
Definition VERSIONBITS_TOP_BITS_ASSETS : Z := 0x30000000.
Definition VERSIONBITS_TOP_MASK : Z := s32 0xE0000000.

(** [VersionBitsConditionChecker::Mask] *)
Definition Mask (d : BIP9Deployment) : Z := u32 (Z.shiftl 1 (dep_bit d)).

(** [VersionBitsConditionChecker] for one deployment; [window] and [threshold]
    are the default [nMinerConfirmationWindow] and
    [nRuleChangeActivationThreshold]. *)
Definition VersionBitsConditionChecker (d : BIP9Deployment) (window threshold : Z)
    : ThresholdConditionChecker := {|
  Condition := fun b =>
    (Z.land (nVersion b) VERSIONBITS_TOP_MASK =? VERSIONBITS_TOP_BITS)
    && negb (Z.land (u32 (nVersion b)) (Mask d) =? 0);
  BeginTime := nStartTime d;
  EndTime := nTimeout d;
  Period := if nWindowSize d =? 0 then window else nWindowSize d;
  Threshold := if nThreshold d =? 0 then threshold else nThreshold d
|}.

(** [VersionBitsState] *)
Definition VersionBitsState (H : heap) (d : BIP9Deployment) (window threshold : Z)
    (pindexPrev : option ptr) (cache : ThresholdConditionCache)
    : option (ThresholdState * ThresholdConditionCache) :=
  GetStateFor (chk := VersionBitsConditionChecker d window threshold) H pindexPrev cache.

(** The loop of [ComputeBlockVersion] over the deployments and their caches. *)
Fixpoint version_loop (H : heap) (window threshold : Z) (pindexPrev : option ptr)
    (deps : list (BIP9Deployment * ThresholdConditionCache)) (nVersion : Z)
    : option (Z * list ThresholdConditionCache) :=
  match deps with
  | [] => Some (nVersion, [])
  | (d, cache) :: rest =>
      match VersionBitsState H d window threshold pindexPrev cache with
      | None => None
      | Some (state, cache') =>
          let nVersion' :=
            match state with
            | THRESHOLD_LOCKED_IN | THRESHOLD_STARTED => s32 (Z.lor (u32 nVersion) (Mask d))
            | _ => nVersion
            end in
          match version_loop H window threshold pindexPrev rest nVersion' with
          | None => None
          | Some (v, caches) => Some (v, cache' :: caches)
          end
      end
  end.

Definition ComputeBlockVersion (H : heap) (window threshold : Z) (pindexPrev : option ptr)
    (deps : list (BIP9Deployment * ThresholdConditionCache)) (assetsDeployed : bool)
    : option (Z * list ThresholdConditionCache) :=
  version_loop H window threshold pindexPrev deps
    (if assetsDeployed then VERSIONBITS_TOP_BITS_ASSETS else VERSIONBITS_TOP_BITS).

(** ** Statistics *)

Section Stats.
Context `{chk : ThresholdConditionChecker} (H : heap) (Hok : checker_ok H).

(** The number of signalling blocks among [p] and its [n - 1] ancestors. *)
Fixpoint signals (n : nat) (p : option ptr) : Z :=
  match n, p with
  | S n', Some q => match H !! q with
                    | Some b => (if Condition b then 1 else 0) + signals n' (pprev b)
                    | None => 0
                    end
  | _, _ => 0
  end.

Lemma stats_loop_spec n p b endHeight count :
  H !! p = Some b -> nHeight b - Z.of_nat n = endHeight -> 0 <= endHeight ->
  stats_loop H n endHeight (Some p) count = Some (count + signals n (Some p)).
Proof using Hok.
  revert p b count. induction n as [|n IH]; intros p b count Hp Hn He; cbn [stats_loop signals]; rewrite Hp.
  - destruct (Z.eqb_spec (nHeight b) endHeight); [|lia]. f_equal. lia.
  - destruct (Z.eqb_spec (nHeight b) endHeight); [lia|].
    destruct (chk_heap _ Hok _ _ Hp) as (H0 & Hprev & _). destruct (pprev b) as [q|] eqn:Eq; [|lia].
    destruct Hprev as (c & Hc & Hh). rewrite (IH q c) by (done || lia).
    f_equal. destruct (Condition b); lia.
Qed.

Lemma GetStateStatisticsFor_spec p b e :
  H !! p = Some b -> period_parent H (Some p) = Some e ->
  let elapsed := (nHeight b + 1) mod Period in
  let count := signals (Z.to_nat elapsed) (Some p) in
  GetStateStatisticsFor H (Some p)
    = Some (mkBIP9Stats Period Threshold elapsed count (elapsed - count <=? Period - Threshold)).
Proof using Hok.
  intros Hp He elapsed count. unfold GetStateStatisticsFor. rewrite Hp.
  destruct (period_start_spec H Hok (Some p)) as [-> _]; [by exists b|]. rewrite He.
  simpl in He. rewrite Hp in He. fold elapsed in He.
  pose proof (chk_period _ Hok) as HP. assert (0 < Period) as HP0 by lia.
  pose proof (Z.mod_pos_bound (nHeight b + 1) Period HP0) as Hm. fold elapsed in Hm.
  destruct (nth_prev_height H (chk_heap _ Hok) _ _ _ _ Hp He) as (c & Hc & Hh & Hle).
  rewrite Z2Nat.id in Hh, Hle by lia. rewrite Hc.
  replace (nHeight b - nHeight c) with elapsed by lia.
  rewrite (stats_loop_spec (Z.to_nat elapsed) p b) by (done || lia). by rewrite Z.add_0_l.
Qed.
End Stats.

Lemma s32_nonneg_lor v i : 0 <= v < 2 ^ 31 -> 0 <= i < 31 -> 0 <= Z.lor v (2 ^ i) < 2 ^ 31.
Proof.
  intros Hv Hi. assert (2 ^ i < 2 ^ 31) by (apply Z.pow_lt_mono_r; lia). assert (0 < 2 ^ i) by lia.
  assert (0 <= Z.lor v (2 ^ i)) by (apply Z.lor_nonneg; lia). split; [done|].
  apply bits_bound; [done|lia|]. intros j Hj.
  rewrite Z.lor_spec, (testbit_high v 31), (testbit_high (2 ^ i) 31) by lia. done.
Qed.

Lemma lor_version_bit v i : 0 <= v < 2 ^ 31 -> 0 <= i < 31 ->
  s32 (Z.lor (u32 v) (u32 (Z.shiftl 1 i))) = Z.lor v (2 ^ i).
Proof.
  intros Hv Hi. rewrite Z.shiftl_1_l. assert (2 ^ i < 2 ^ 31) by (apply Z.pow_lt_mono_r; lia).
  assert (0 < 2 ^ i) by lia. unfold u32. rewrite (Z.mod_small v) by lia. rewrite (Z.mod_small (2 ^ i)) by lia.
  pose proof (s32_nonneg_lor v i Hv Hi). unfold s32, swrap. rewrite Z.mod_small by lia. lia.
Qed.

(** The deployment's state makes miners signal for it. *)
Definition signalled (H : heap) (window threshold : Z) (p : option ptr) (d : BIP9Deployment) : Prop :=
  exists s, bip9_state (chk := VersionBitsConditionChecker d window threshold) H
              (period_parent (chk := VersionBitsConditionChecker d window threshold) H p) s /\
            (s = THRESHOLD_STARTED \/ s = THRESHOLD_LOCKED_IN).

Definition deployment_ok (H : heap) (window threshold : Z) (dc : BIP9Deployment * ThresholdConditionCache) : Prop :=
  0 <= dep_bit (fst dc) < 29 /\
  checker_ok (chk := VersionBitsConditionChecker (fst dc) window threshold) H /\
  cache_ok (chk := VersionBitsConditionChecker (fst dc) window threshold) H (snd dc).

Lemma VersionBitsState_spec H window threshold p d cache :
  deployment_ok H window threshold (d, cache) ->
  match p with Some q => is_Some (H !! q) | None => True end ->
  exists s cache', VersionBitsState H d window threshold p cache = Some (s, cache') /\
    bip9_state (chk := VersionBitsConditionChecker d window threshold) H
      (period_parent (chk := VersionBitsConditionChecker d window threshold) H p) s /\
    (signalled H window threshold p d <-> s = THRESHOLD_STARTED \/ s = THRESHOLD_LOCKED_IN).
Proof.
  intros (_ & Hok & Hc) Hp. simpl in *. destruct (GetStateFor_spec H Hok p cache Hc Hp) as (s & cache' & E & _ & Hs).
  exists s, cache'. split; [exact E|]. split; [done|]. split; [|intros ?; by exists s].
  intros (s' & Hs' & Hor). by rewrite (bip9_state_det H _ _ _ Hs Hs').
Qed.

Lemma version_loop_spec H window threshold p deps v :
  match p with Some q => is_Some (H !! q) | None => True end ->
  Forall (deployment_ok H window threshold) deps -> 0 <= v < 2 ^ 31 ->
  exists v' caches, version_loop H window threshold p deps v = Some (v', caches) /\
    length caches = length deps /\ 0 <= v' < 2 ^ 31 /\
    forall i, 0 <= i ->
      Z.testbit v' i = true <->
      Z.testbit v i = true \/ exists d c, In (d, c) deps /\ dep_bit d = i /\ signalled H window threshold p d.
Proof.
  intros Hp Hd. revert v. induction Hd as [|[d c] deps Hd Hds IH]; intros v Hv; cbn [version_loop].
  { exists v, []. split; [done|]. split; [done|]. split; [done|]. intros i Hi. split; [by left|].
    intros [?|(d & c & [] & _)]. done. }
  destruct (VersionBitsState_spec H window threshold p d c Hd Hp) as (s & c' & -> & Hs & Hsig).
  destruct Hd as (Hbit & _). simpl in Hbit.
  set (v1 := match s with THRESHOLD_LOCKED_IN | THRESHOLD_STARTED => _ | _ => _ end).
  assert (0 <= v1 < 2 ^ 31 /\ forall i, 0 <= i ->
    Z.testbit v1 i = true <-> Z.testbit v i = true \/ (dep_bit d = i /\ signalled H window threshold p d))
    as [Hv1 Hbits].
  { pose proof (lor_version_bit v (dep_bit d) Hv ltac:(lia)) as El. fold (Mask d) in El.
    assert (0 <= Z.lor v (2 ^ dep_bit d) < 2 ^ 31 /\ forall i, 0 <= i ->
      Z.testbit (Z.lor v (2 ^ dep_bit d)) i = true <-> Z.testbit v i = true \/ dep_bit d = i) as [Hr Hb].
    { split; [apply s32_nonneg_lor; lia|].
      intros i Hi. rewrite Z.lor_spec, Z.pow2_bits_eqb, orb_true_iff, Z.eqb_eq by lia. done. }
    destruct s; unfold v1; rewrite ?El; (split; [done|]); intros i Hi; rewrite ?Hb by done;
      intuition congruence. }
  destruct (IH v1 Hv1) as (v' & caches & -> & Hl & Hv' & Hi').
  exists v', (c' :: caches). split; [done|]. split; [simpl; by rewrite Hl|]. split; [done|].
  intros i Hi. rewrite Hi', Hbits by done. simpl. split.
  - intros [[?|[? ?]]|(d' & c2 & Hin & ? & ?)]; [by left|right; exists d, c; by auto|right; exists d', c2; by auto].
  - intros [?|(d' & c2 & [[= <- <-]|Hin] & ? & ?)]; [by left; left|by left; right|by right; exists d', c2].
Qed.

(** ** Properties *)

(** Caches as queries leave them, starting from an empty one. *)
Inductive cache_reachable `{chk : ThresholdConditionChecker} (H : heap) : ThresholdConditionCache -> Prop :=
| cache_empty : cache_reachable H ∅
| cache_query cache p s cache' :
    cache_reachable H cache -> match p with Some q => is_Some (H !! q) | None => True end ->
    GetStateFor H p cache = Some (s, cache') -> cache_reachable H cache'.

Lemma cache_reachable_ok `{chk : ThresholdConditionChecker} (H : heap) cache :
  checker_ok H -> cache_reachable H cache -> cache_ok H cache.
Proof.
  intros Hok. induction 1 as [|cache p s cache' _ IH Hp E]; [intros p s; by rewrite lookup_empty|].
  destruct (GetStateFor_spec H Hok p cache IH Hp) as (s1 & c1 & E1 & Hc1 & _). rewrite E in E1. by injection E1 as <- <-.
Qed.

(** Two headers signal per period; heights 1 and 3 end a period. *)
Definition example_checker : ThresholdConditionChecker := {|
  Condition := fun b => nVersion b =? 1;
  BeginTime := 0;
  EndTime := 2 ^ 40;
  Period := 2;
  Threshold := 2
|}.

Lemma example_checker_ok : checker_ok (chk := example_checker) (entries example_index).
Proof.
  destruct (index_reachable_ok _ example_reachable) as [[Hwf _ _ _] _].
  split; [done|apply times_acceptedb_sound; by vm_compute|simpl; lia|simpl; lia].
Qed.

(** C5. Whatever was queried before, [GetStateFor] returns (no assertion
    fails, no null pointer is followed, both loops end) and its answer is the state of
    the uncached BIP9 machine at the end of the last complete period: neither
    the cache nor the early exit before the start time changes the result. *)
Theorem GetStateFor_is_bip9 `{chk : ThresholdConditionChecker} (H : heap) cache p :
  checker_ok H -> cache_reachable H cache ->
  match p with Some q => is_Some (H !! q) | None => True end ->
  exists s cache', GetStateFor H p cache = Some (s, cache') /\ cache_reachable H cache' /\
    bip9_state H (period_parent H p) s.
Proof.
  intros Hok Hr Hp. pose proof (cache_reachable_ok H cache Hok Hr) as Hc.
  destruct (GetStateFor_spec H Hok p cache Hc Hp) as (s & cache' & E & _ & Hs).
  exists s, cache'. split; [done|]. split; [by eapply cache_query|done].
Qed.

Lemma GetStateFor_is_bip9_witness :
  exists s cache', GetStateFor (chk := example_checker) (entries example_index) (Some 6) ∅
    = Some (s, cache') /\ s = THRESHOLD_LOCKED_IN.
Proof.
  destruct (GetStateFor_is_bip9 (chk := example_checker) (entries example_index) ∅ (Some 6)
              example_checker_ok (cache_empty _)) as (s & cache' & E & _).
  - destruct example_tip as (b & E & _). exact (ex_intro _ b E).
  - exists s, cache'. split; [exact E|]. revert E. vm_compute. congruence.
Defined.

(** The periods that follow the period after boundary [q] on a branch. *)
Definition next_period `{chk : ThresholdConditionChecker} (H : heap) (q q' : ptr) : Prop :=
  prev_period H q' = Some q.

(** From one period to a later one on the same branch the state only moves
    along the edges of BIP9: defined, started, locked in, active, with failure only
    before lock-in; a locked-in deployment is active in the very next period,
    and the states active and failed are final. *)
Theorem bip9_only_legal_transitions `{chk : ThresholdConditionChecker} (H : heap) q q' s s' :
  rtc (next_period H) q q' -> bip9_state H (Some q) s -> bip9_state H (Some q') s' ->
  rtc bip9_edge s s' /\
  (s = THRESHOLD_ACTIVE -> s' = THRESHOLD_ACTIVE) /\ (s = THRESHOLD_FAILED -> s' = THRESHOLD_FAILED) /\
  (s = THRESHOLD_LOCKED_IN -> next_period H q q' -> s' = THRESHOLD_ACTIVE).
Proof.
  intros Hr Hs Hs'.
  assert (forall t, bip9_state H (Some q') t -> rtc bip9_edge s t) as Hedge.
  { clear s' Hs'. pattern q'. eapply rtc_ind_r; [| |exact Hr].
    - intros t Ht. by rewrite (bip9_state_det H _ _ _ Hs Ht).
    - clear q' Hr. intros r q' _ Hrq IH t Ht.
      destruct (bip9_state_step H q' t Ht) as (u & Hu & Hut). rewrite Hrq in Hu.
      eapply rtc_r; [by apply IH|done]. }
  specialize (Hedge s' Hs'). split; [done|].
  assert (forall a b, rtc bip9_edge a b -> a = THRESHOLD_ACTIVE -> b = THRESHOLD_ACTIVE) as Hact.
  { induction 1 as [|a b c Hab _ IH]; [done|]. intros ->. inversion Hab; subst. by apply IH. }
  assert (forall a b, rtc bip9_edge a b -> a = THRESHOLD_FAILED -> b = THRESHOLD_FAILED) as Hfail.
  { induction 1 as [|a b c Hab _ IH]; [done|]. intros ->. inversion Hab; subst. by apply IH. }
  split; [by apply Hact|]. split; [by apply Hfail|]. intros -> Hn.
  destruct (bip9_state_step H q' s' Hs') as (u & Hu & Hus). rewrite Hn in Hu.
  rewrite (bip9_state_det H _ _ _ Hu Hs) in Hus. by inversion Hus.
Qed.

Lemma example_bip9_states :
  bip9_state (chk := example_checker) (entries example_index) (Some 2) THRESHOLD_STARTED /\
  bip9_state (chk := example_checker) (entries example_index) (Some 5) THRESHOLD_LOCKED_IN.
Proof.
  assert (bip9_state (chk := example_checker) (entries example_index) (Some 2) THRESHOLD_STARTED) as H2.
  { apply (bip9_next (chk := example_checker) _ 2 THRESHOLD_DEFINED); [|by vm_compute].
    replace (prev_period (chk := example_checker) (entries example_index) 2) with (@None ptr) by by vm_compute.
    constructor. }
  split; [done|]. apply (bip9_next (chk := example_checker) _ 5 THRESHOLD_STARTED); [|by vm_compute].
  by replace (prev_period (chk := example_checker) (entries example_index) 5) with (Some 2) by by vm_compute.
Qed.

Lemma bip9_only_legal_transitions_witness : rtc bip9_edge THRESHOLD_STARTED THRESHOLD_LOCKED_IN.
Proof.
  destruct example_bip9_states as [H2 H5].
  refine (proj1 (bip9_only_legal_transitions (chk := example_checker) (entries example_index) 2 5
                   THRESHOLD_STARTED THRESHOLD_LOCKED_IN _ H2 H5)).
  apply rtc_once. by vm_compute.
Defined.

(** [GetStateSinceHeightFor] returns 0 in state DEFINED and otherwise the
    first height of the run of periods that have had the present state without
    interruption: every period from there on has it, the period before does not. *)
Theorem GetStateSinceHeightFor_is_first `{chk : ThresholdConditionChecker} (H : heap) cache p :
  checker_ok H -> cache_reachable H cache ->
  match p with Some q => is_Some (H !! q) | None => True end ->
  exists h cache' s, GetStateSinceHeightFor H p cache = Some (h, cache') /\
    bip9_state H (period_parent H p) s /\
    match s with
    | THRESHOLD_DEFINED => h = 0
    | _ => exists q, period_parent H p = Some q /\ since_height H s q h
    end.
Proof.
  intros Hok Hr Hp. pose proof (cache_reachable_ok H cache Hok Hr) as Hc.
  destruct (GetStateSinceHeightFor_spec H Hok p cache Hc Hp) as (h & c & s & E & _ & Hs & Hres).
  by exists h, c, s.
Qed.

Lemma GetStateSinceHeightFor_is_first_witness :
  exists h cache', GetStateSinceHeightFor (chk := example_checker) (entries example_index) (Some 6) ∅
    = Some (h, cache') /\ h = 4.
Proof.
  destruct (GetStateSinceHeightFor_is_first (chk := example_checker) (entries example_index) ∅ (Some 6)
              example_checker_ok (cache_empty _)) as (h & cache' & s & E & _).
  - destruct example_tip as (b & E & _). exact (ex_intro _ b E).
  - exists h, cache'. split; [exact E|]. revert E. vm_compute. congruence.
Defined.

(** In a period whose state is STARTED (the only case the callers ask
    about), [GetStateStatisticsFor] follows no null pointer, [elapsed] is the number of
    blocks since the period began, [count] the number of them that signal, and
    [possible] tells whether the threshold can still be met in the period. *)
Theorem GetStateStatisticsFor_counts `{chk : ThresholdConditionChecker} (H : heap) p b :
  checker_ok H -> H !! p = Some b -> bip9_state H (period_parent H (Some p)) THRESHOLD_STARTED ->
  let elapsed := (nHeight b + 1) mod Period in
  let count := signals H (Z.to_nat elapsed) (Some p) in
  exists possible, GetStateStatisticsFor H (Some p)
    = Some (mkBIP9Stats Period Threshold elapsed count possible) /\
  (possible = true <-> Threshold <= count + (Period - elapsed)).
Proof.
  intros Hok Hp Hs elapsed count.
  destruct (period_parent H (Some p)) as [e|] eqn:Ee; [|inversion Hs].
  exists (elapsed - count <=? Period - Threshold).
  split; [by apply (GetStateStatisticsFor_spec H Hok p b e)|].
  rewrite Z.leb_le. lia.
Qed.

Lemma GetStateStatisticsFor_counts_witness :
  exists b elapsed count possible,
    entries example_index !! 3 = Some b /\
    GetStateStatisticsFor (chk := example_checker) (entries example_index) (Some 3)
      = Some (mkBIP9Stats 2 2 elapsed count possible) /\ possible = true.
Proof.
  assert (exists b, entries example_index !! 3 = Some b) as [b E].
  { destruct (entries example_index !! 3) as [b|] eqn:E; [by exists b|by vm_compute in E]. }
  destruct (GetStateStatisticsFor_counts (chk := example_checker) (entries example_index) 3 b
              example_checker_ok E) as (possible & E1 & _).
  - replace (period_parent (chk := example_checker) (entries example_index) (Some 3)) with (Some 2)
      by by vm_compute.
    apply example_bip9_states.
  - eexists b, _, _, possible. split; [exact E|]. split; [exact E1|].
    revert E1. vm_compute in E. injection E as <-. vm_compute. congruence.
Defined.

(** [ComputeBlockVersion] returns a version that keeps the versionbits
    prefix, and below it sets exactly the bits of the deployments whose BIP9
    state is STARTED or LOCKED_IN (besides those of the base version). *)
Theorem ComputeBlockVersion_signals (H : heap) window threshold p deps (assetsDeployed : bool) :
  match p with Some q => is_Some (H !! q) | None => True end ->
  Forall (deployment_ok H window threshold) deps ->
  let base := if assetsDeployed then VERSIONBITS_TOP_BITS_ASSETS else VERSIONBITS_TOP_BITS in
  exists v caches, ComputeBlockVersion H window threshold p deps assetsDeployed = Some (v, caches) /\
    Z.land v VERSIONBITS_TOP_MASK = VERSIONBITS_TOP_BITS /\
    forall i, 0 <= i < 29 ->
      Z.testbit v i = true <->
      Z.testbit base i = true \/
      exists d c, In (d, c) deps /\ dep_bit d = i /\ signalled H window threshold p d.
Proof.
  intros Hp Hd base.
  destruct (version_loop_spec H window threshold p deps base Hp Hd) as (v & caches & E & _ & Hv & Hbits).
  { unfold base. destruct assetsDeployed; unfold VERSIONBITS_TOP_BITS_ASSETS, VERSIONBITS_TOP_BITS; lia. }
  exists v, caches. split; [done|]. split; [|intros i Hi; apply Hbits; lia].
  assert (forall i, 29 <= i -> Z.testbit v i = Z.testbit base i) as Htop.
  { intros i Hi. apply Bool.eq_iff_eq_true. rewrite Hbits by lia.
    split; [|by left]. intros [?|(d & c & Hin & Hdb & _)]; [done|].
    rewrite List.Forall_forall in Hd. destruct (Hd _ Hin) as [Hr _]. simpl in Hr. lia. }
  apply Z.bits_inj'. intros i Hi. rewrite Z.land_spec.
  destruct (decide (29 <= i)) as [Hge|Hlt].
  - rewrite Htop by done. rewrite <- Z.land_spec. unfold base. by destruct assetsDeployed.
  - replace (Z.testbit VERSIONBITS_TOP_MASK i) with false; [rewrite andb_false_r|].
    + symmetry. change VERSIONBITS_TOP_BITS with (2 ^ 29). apply Z.pow2_bits_false. lia.
    + symmetry. change VERSIONBITS_TOP_MASK with (- 2 ^ 29). rewrite Z.bits_opp by lia.
      change (Z.pred (2 ^ 29)) with (Z.ones 29). rewrite Z.ones_spec_low by lia. done.
Qed.

(** The deployment of the example: bit 3, started from the beginning. *)
Definition example_deployment : BIP9Deployment := mkDeployment 3 0 (2 ^ 40) 2 2.

Lemma example_deployment_ok :
  Forall (deployment_ok (entries example_index) 2016 1512) [(example_deployment, ∅)].
Proof.
  constructor; [|constructor]. split; [simpl; lia|]. split; [|intros p s; simpl; by rewrite lookup_empty].
  destruct (index_reachable_ok _ example_reachable) as [[Hwf _ _ _] _].
  split; [done|apply times_acceptedb_sound; by vm_compute|simpl; lia|simpl; lia].
Qed.

Lemma ComputeBlockVersion_signals_witness :
  exists v caches, ComputeBlockVersion (entries example_index) 2016 1512 (Some 6)
    [(example_deployment, ∅)] false = Some (v, caches) /\ v = 0x20000008.
Proof.
  destruct (ComputeBlockVersion_signals (entries example_index) 2016 1512 (Some 6)
              [(example_deployment, ∅)] false) as (v & caches & E & _).
  - destruct example_tip as (b & E & _). exact (ex_intro _ b E).
  - exact example_deployment_ok.
  - exists v, caches. split; [exact E|]. revert E. vm_compute. congruence.
Defined.
