(* ===== verification/Transaction.v ===== *)
(** [primitives/transaction.h], [amount.h] and the script predicate
    [CScript::IsUnspendable]: the data of transactions that the other components share.
    Hashes are numbers, scripts are lists of byte values. *)

From stdpp Require Import prelude gmap.
From Stdlib Require Import ZArith Lia.
From S2P Require Import Prelude Opcodes.

Open Scope Z_scope.

(** ** Consensus constants *)

Definition MAX_BLOCK_WEIGHT_RIP2 : Z := 8000000.
Definition WITNESS_SCALE_FACTOR : Z := 4.
Definition MIN_TRANSACTION_WEIGHT : Z := WITNESS_SCALE_FACTOR * 60.
Definition MAX_TX_EXTRA_PAYLOAD : Z := 10000.
Definition COINBASE_MATURITY : Z := 100.

(** The asset activation no longer matters: always the RIP2 limit. *)
Definition GetMaxBlockWeight : Z := MAX_BLOCK_WEIGHT_RIP2.

(** ** Amounts *)

Definition COIN : Z := 100000000.
Definition MAX_MONEY : Z := 200609375 * COIN.
Definition MoneyRange (nValue : Z) : bool := (0 <=? nValue) && (nValue <=? MAX_MONEY).

(** ** Outpoints, inputs, outputs *)

(** [COutPoint]: the hash of a transaction and an output index; a pair, so
    that it can index a map. *)
Abbreviation COutPoint := (Z * Z)%type.

Definition OutPoint_IsNull (o : COutPoint) : bool := (fst o =? 0) && (snd o =? u32 (-1)).

Abbreviation CScript := (list Z).

Record CTxIn := mkTxIn {
  prevout : COutPoint;
  scriptSig : CScript;
  nSequence : Z;
  scriptWitness : list (list Z)
}.

Record CTxOut := mkTxOut {
  nValue : Z;
  scriptPubKey : CScript;
  nRounds : Z
}.

Definition TxOut_SetNull : CTxOut := mkTxOut (-1) [] (-10).
Definition TxOut_IsNull (o : CTxOut) : bool := nValue o =? -1.

Definition SEQUENCE_FINAL : Z := 0xffffffff.
Definition SEQUENCE_LOCKTIME_DISABLE_FLAG : Z := Z.shiftl 1 31.
Definition SEQUENCE_LOCKTIME_TYPE_FLAG : Z := Z.shiftl 1 22.
Definition SEQUENCE_LOCKTIME_MASK : Z := 0x0000ffff.
Definition SEQUENCE_LOCKTIME_GRANULARITY : Z := 9.

(** A transaction; [txid] is its cached [hash]. *)
Record CTransaction := mkTx {
  txid : Z;
  tx_nVersion : Z;
  tx_nType : Z;
  vin : list CTxIn;
  vout : list CTxOut;
  nLockTime : Z;
  vExtraPayload : list Z
}.

Definition IsCoinBase (tx : CTransaction) : bool :=
  match vin tx with [i] => OutPoint_IsNull (prevout i) | _ => false end.

(** [CTransaction::GetValueOut]: [None] is the exception "value out of
    range". *)
Fixpoint value_out_loop (outs : list CTxOut) (nValueOut : Z) : option Z :=
  match outs with
  | [] => Some nValueOut
  | o :: rest =>
      let v := s64 (nValueOut + nValue o) in
      if negb (MoneyRange (nValue o)) || negb (MoneyRange v) then None
      else value_out_loop rest v
  end.
Definition GetValueOut (tx : CTransaction) : option Z := value_out_loop (vout tx) 0.

(** ** Scripts that can never be spent *)


(** What transactions ask of the asset layer: the asset amount a script
    carries ([GetAssetAmountFromScript]), if it is an asset script. *)
Class AssetScripts := GetAssetAmountFromScript : CScript -> option Z.

Definition IsUnspendable `{AssetScripts} (s : CScript) : bool :=
  match s with
  | op :: _ => (op =? OP_RETURN) || (op =? OP_RVH_ASSET)
  | [] => false
  end
  || (MAX_SCRIPT_SIZE <? Z.of_nat (length s))
  || match GetAssetAmountFromScript s with Some nAmount => nAmount =? 0 | None => false end.

(** ** Lemmas *)

#[export] Instance CTxIn_eq_dec : EqDecision CTxIn.
Proof. solve_decision. Defined.
#[export] Instance CTxOut_eq_dec : EqDecision CTxOut.
Proof. solve_decision. Defined.

Lemma MoneyRange_spec x : MoneyRange x = true <-> 0 <= x <= MAX_MONEY.
Proof. unfold MoneyRange. rewrite andb_true_iff, !Z.leb_le. done. Qed.

Lemma s64_small x : - 2 ^ 63 <= x < 2 ^ 63 -> s64 x = x.
Proof. intros H. unfold s64, swrap. rewrite Z.mod_small; lia. Qed.

Definition sum_values (outs : list CTxOut) : Z := foldr (fun o acc => nValue o + acc) 0 outs.

(** The running sum never overflows: every addend and every partial sum is in
    range, or the exception is thrown. *)
Lemma value_out_loop_spec outs acc :
  0 <= acc <= MAX_MONEY ->
  match value_out_loop outs acc with
  | Some v => v = acc + sum_values outs /\ Forall (fun o => 0 <= nValue o) outs /\ v <= MAX_MONEY
  | None => ~ (Forall (fun o => 0 <= nValue o) outs /\ acc + sum_values outs <= MAX_MONEY)
              \/ Exists (fun o => ~ is_s64 (nValue o)) outs
  end.
Proof.
  revert acc. induction outs as [|o outs IH]; intros acc Hacc; simpl.
  { split; [lia|]. split; [constructor|lia]. }
  destruct (decide (is_s64 (nValue o))) as [Hs|Hs].
  2: { destruct (MoneyRange (nValue o)) eqn:E; simpl.
       - apply MoneyRange_spec in E. exfalso. apply Hs. unfold is_s64, MAX_MONEY, COIN in *. lia.
       - right. by left. }
  destruct (MoneyRange (nValue o)) eqn:E; simpl.
  - apply MoneyRange_spec in E.
    assert (s64 (acc + nValue o) = acc + nValue o) as ->
      by (apply s64_small; unfold MAX_MONEY, COIN in *; lia).
    destruct (MoneyRange (acc + nValue o)) eqn:E2; simpl.
    + apply MoneyRange_spec in E2. specialize (IH (acc + nValue o) E2).
      destruct (value_out_loop outs (acc + nValue o)) as [v|].
      * destruct IH as (-> & Hf & Hle). split; [lia|]. split; [constructor; [lia|done]|lia].
      * destruct IH as [Hn|He]; [left|right; by right].
        intros [Hf Hle]. apply Hn. apply Forall_cons_1 in Hf as [_ Hf]. split; [done|lia].
    + left. intros [Hf Hle]. apply Forall_cons_1 in Hf as [_ Hf].
      assert (0 <= sum_values outs) as Hpos.
      { clear -Hf. induction Hf; simpl; lia. }
      assert (MoneyRange (acc + nValue o) = true); [|congruence].
      apply MoneyRange_spec. lia.
  - left. intros [Hf Hle]. apply Forall_cons_1 in Hf as [H0 Hf].
    assert (0 <= sum_values outs) as Hpos.
    { clear -Hf. induction Hf; simpl; lia. }
    assert (MoneyRange (nValue o) = true); [|congruence]. apply MoneyRange_spec. lia.
Qed.

Lemma GetValueOut_sum tx v :
  GetValueOut tx = Some v ->
  v = sum_values (vout tx) /\ Forall (fun o => 0 <= nValue o) (vout tx) /\ 0 <= v <= MAX_MONEY.
Proof.
  intros E. assert (0 <= 0 <= MAX_MONEY) as H0 by (unfold MAX_MONEY, COIN; lia).
  pose proof (value_out_loop_spec (vout tx) 0 H0) as H. unfold GetValueOut in E. rewrite E in H.
  destruct H as (-> & Hf & Hle). split; [done|]. split; [done|]. split; [|lia].
  clear -Hf. induction Hf; simpl; lia.
Qed.
