(* ===== verification/Script.v ===== *)
(** [script/script.h] and [script/script.cpp]: script numbers, building scripts
    with [operator<<], reading them with [GetOp2], and the predicates and counts on scripts.
    A script is a list of byte values and an iterator into it is the rest of the
    list from there on. *)

From stdpp Require Import prelude.
From Stdlib Require Import ZArith Lia.
From S2P Require Import Prelude Opcodes Transaction Compact.

Open Scope Z_scope.

(** [std::vector<unsigned char>] *)
Abbreviation valtype := (list Z).
Abbreviation size l := (Z.of_nat (length l)).

(** ** Script numbers *)

Definition INT64_MIN : Z := - 2 ^ 63.
Definition nDefaultMaxNumSize : Z := 4.

(** [vch.back()] and [vch[vch.size() - 2]] *)
Definition back (vch : valtype) : Z := default 0 (last vch).
Definition back2 (vch : valtype) : Z := aget vch (size vch - 2).

(** The loop of [set_vch]: [result |= (int64_t)vch[i] << 8*i]. *)
Fixpoint set_vch_loop (vch : valtype) (i : Z) (result : Z) : Z :=
  match vch with
  | [] => result
  | b :: rest => set_vch_loop rest (i + 1) (s64 (Z.lor result (Z.shiftl b (8 * i))))
  end.

Definition set_vch (vch : valtype) : Z :=
  match vch with
  | [] => 0
  | _ =>
      let result := set_vch_loop vch 0 0 in
      if negb (Z.land (back vch) 0x80 =? 0)
      then - s64 (Z.land (u64 result) (u64 (Z.lnot (u64 (Z.shiftl 0x80 (8 * (size vch - 1)))))))
      else result
  end.

(** The minimality test of the constructor. *)
Definition minimal_num (vch : valtype) : bool :=
  negb ((0 <? size vch) && (Z.land (back vch) 0x7f =? 0)
        && ((size vch <=? 1) || (Z.land (back2 vch) 0x80 =? 0))).

(** [CScriptNum(vch, fRequireMinimal, nMaxNumSize)]; [None] is a thrown
    [scriptnum_error]. *)
Definition CScriptNum (vch : valtype) (fRequireMinimal : bool) (nMaxNumSize : Z) : option Z :=
  if nMaxNumSize <? size vch then None
  else if fRequireMinimal && negb (minimal_num vch) then None
  else Some (set_vch vch).

(** [while (absvalue) { result.push_back(absvalue & 0xff); absvalue >>= 8; }];
    eight bytes exhaust 64 bits. *)
Fixpoint serialize_loop (fuel : nat) (absvalue : Z) : valtype :=
  match fuel with
  | O => []
  | S fuel' =>
      if absvalue =? 0 then []
      else Z.land absvalue 0xff :: serialize_loop fuel' (Z.shiftr absvalue 8)
  end.

(** [result.back() = x] *)
Definition set_back (l : valtype) (x : Z) : valtype := aset l (size l - 1) x.

(** [CScriptNum::serialize], which is also [getvch]. *)
Definition serialize (value : Z) : valtype :=
  if value =? 0 then []
  else
    let neg := value <? 0 in
    let absvalue := u64 (if neg then - value else value) in
    let result := serialize_loop 8 absvalue in
    if negb (Z.land (back result) 0x80 =? 0) then result ++ [if neg then 0x80 else 0]
    else if neg then set_back result (Z.lor (back result) 0x80)
    else result.

Definition getint (m_value : Z) : Z :=
  if INT_MAX <? m_value then INT_MAX
  else if m_value <? - 2 ^ 31 then - 2 ^ 31
  else m_value.

(** ** Building scripts *)

Definition WriteLE16 (x : Z) : valtype := [u8 x; u8 (Z.shiftr x 8)].
Definition ReadLE16 (l : valtype) : Z := Z.lor (aget l 0) (Z.shiftl (aget l 1) 8).

(** [operator<<(const std::vector<unsigned char>&)]: what is appended. *)
Definition push_data (b : valtype) : CScript :=
  (if size b <? OP_PUSHDATA1 then [u8 (size b)]
   else if size b <=? 0xff then [OP_PUSHDATA1; u8 (size b)]
   else if size b <=? 0xffff then OP_PUSHDATA2 :: WriteLE16 (u32 (size b))
   else OP_PUSHDATA4 :: WriteLE32 (u32 (size b))) ++ b.

(** [push_int64], which is [operator<<(int64_t)]. *)
Definition push_int64 (n : Z) : CScript :=
  if (n =? -1) || ((1 <=? n) && (n <=? 16)) then [n + (OP_1 - 1)]
  else if n =? 0 then [OP_0]
  else push_data (serialize n).

(** [DecodeOP_N] and [EncodeOP_N]; [None] is a failed assertion. *)
Definition DecodeOP_N (opcode : Z) : option Z :=
  if opcode =? OP_0 then Some 0
  else if (OP_1 <=? opcode) && (opcode <=? OP_16) then Some (opcode - (OP_1 - 1))
  else None.
Definition EncodeOP_N (n : Z) : option Z :=
  if (0 <=? n) && (n <=? 16) then Some (if n =? 0 then OP_0 else OP_1 + n - 1) else None.

(** ** Reading scripts *)

(** [GetOp2]: the opcode, its operand and the rest of the script. *)
Definition GetOp2 (pc : CScript) : option (Z * valtype * CScript) :=
  match pc with
  | [] => None
  | opcode :: pc1 =>
      if opcode <=? OP_PUSHDATA4 then
        let operand (nSize : Z) (pc2 : CScript) :=
          if size pc2 <? nSize then None
          else Some (opcode, take (Z.to_nat nSize) pc2, drop (Z.to_nat nSize) pc2) in
        if opcode <? OP_PUSHDATA1 then operand opcode pc1
        else if opcode =? OP_PUSHDATA1 then
          if size pc1 <? 1 then None else operand (aget pc1 0) (drop 1 pc1)
        else if opcode =? OP_PUSHDATA2 then
          if size pc1 <? 2 then None else operand (ReadLE16 pc1) (drop 2 pc1)
        else
          if size pc1 <? 4 then None else operand (ReadLE32 pc1 0) (drop 4 pc1)
      else if opcode =? OP_RVH_ASSET then Some (opcode, pc1, [])
      else Some (opcode, [], pc1)
  end.

(** [while (size >= b.size() && std::equal(b, pc)) pc += b.size()] for a
    non-empty [b]: the rest and the number of occurrences. *)
Fixpoint skip_copies (fuel : nat) (b pc : CScript) : CScript * Z :=
  match fuel with
  | O => (pc, 0)
  | S fuel' =>
      if bool_decide (take (length b) pc = b) then
        let '(pc', n) := skip_copies fuel' b (drop (length b) pc) in (pc', n + 1)
      else (pc, 0)
  end.

(** The loop of [FindAndDelete]: the instructions kept so far, the copies
    found; every pass reads one instruction. *)
Fixpoint find_and_delete_loop (fuel : nat) (b pc result : CScript) (nFound : Z) : CScript * Z :=
  let '(pc2, n) := skip_copies (length pc) b pc in
  match GetOp2 pc2, fuel with
  | Some (_, _, pc'), S fuel' =>
      find_and_delete_loop fuel' b pc' (result ++ take (length pc2 - length pc') pc2) (nFound + n)
  | _, _ => (result ++ pc2, nFound + n)
  end.

Definition FindAndDelete (script b : CScript) : CScript :=
  match b with
  | [] => script
  | _ =>
      let '(result, nFound) := find_and_delete_loop (length script) b script [] 0 in
      if 0 <? nFound then result else script
  end.

(** [while (pc < end()) { GetOp(...) ... }]: fold [f] over the instructions; it
    stops early when [f] or [GetOp] fails. *)
Fixpoint for_ops {S : Type} (fuel : nat) (f : S -> Z -> valtype -> option S) (pc : CScript) (s : S)
    : S * option bool :=
  match pc, fuel with
  | [], _ => (s, Some true)
  | _, O => (s, None)
  | _, Datatypes.S fuel' =>
      match GetOp2 pc with
      | None => (s, Some false)
      | Some (op, data, pc') =>
          match f s op data with
          | None => (s, Some false)
          | Some s' => for_ops fuel' f pc' s'
          end
      end
  end.

(** [GetSigOpCount(fAccurate)]: the state is the count and [lastOpcode]. *)
Definition sigop_step (fAccurate : bool) (s : Z * Z) (opcode : Z) : Z * Z :=
  let '(n, lastOpcode) := s in
  (if (opcode =? OP_CHECKSIG) || (opcode =? OP_CHECKSIGVERIFY) then u32 (n + 1)
   else if (opcode =? OP_CHECKMULTISIG) || (opcode =? OP_CHECKMULTISIGVERIFY) then
     if fAccurate && (OP_1 <=? lastOpcode) && (lastOpcode <=? OP_16)
     then u32 (n + default 0 (DecodeOP_N lastOpcode)) else u32 (n + MAX_PUBKEYS_PER_MULTISIG)
   else n, opcode).
Definition GetSigOpCount (script : CScript) (fAccurate : bool) : Z :=
  fst (fst (for_ops (length script) (fun s op _ => Some (sigop_step fAccurate s op)) script (0, OP_INVALIDOPCODE))).

Definition IsPayToPublicKeyHash (s : CScript) : bool :=
  (size s =? 25) && (aget s 0 =? OP_DUP) && (aget s 1 =? OP_HASH160) && (aget s 2 =? 0x14)
  && (aget s 23 =? OP_EQUALVERIFY) && (aget s 24 =? OP_CHECKSIG).

Definition IsPayToScriptHash (s : CScript) : bool :=
  (size s =? 23) && (aget s 0 =? OP_HASH160) && (aget s 1 =? 0x14) && (aget s 22 =? OP_EQUAL).

Definition IsPayToWitnessScriptHash (s : CScript) : bool :=
  (size s =? 34) && (aget s 0 =? OP_0) && (aget s 1 =? 0x20).

(** [IsWitnessProgram]: the version and the program. *)
Definition IsWitnessProgram (s : CScript) : option (Z * valtype) :=
  if (size s <? 4) || (42 <? size s) then None
  else if negb (aget s 0 =? OP_0) && ((aget s 0 <? OP_1) || (OP_16 <? aget s 0)) then None
  else if aget s 1 + 2 =? size s then Some (default 0 (DecodeOP_N (aget s 0)), drop 2 s)
  else None.

Definition IsPayToPublicKey (s : CScript) : bool :=
  if size s =? 35 then ((aget s 1 =? 0x02) || (aget s 1 =? 0x03)) && (aget s 34 =? OP_CHECKSIG)
  else if size s =? 67 then (aget s 1 =? 0x04) && (aget s 66 =? OP_CHECKSIG)
  else false.

Definition IsPushOnly (s : CScript) : bool :=
  match snd (for_ops (length s) (fun _ op _ => if OP_16 <? op then None else Some tt) s tt) with
  | Some b => b
  | None => false
  end.

Definition HasValidOps (s : CScript) : bool :=
  match snd (for_ops (length s)
               (fun _ op item => if (MAX_OPCODE <? op) || (MAX_SCRIPT_ELEMENT_SIZE <? size item)
                                 then None else Some tt) s tt) with
  | Some b => b
  | None => false
  end.

(** [GetSigOpCount(scriptSig)] of a script being spent: for pay-to-script-hash
    the count of the last item that [scriptSig] pushes. *)
Definition GetSigOpCount_sig (script scriptSig : CScript) : Z :=
  if negb (IsPayToScriptHash script) then GetSigOpCount script true
  else
    match for_ops (length scriptSig) (fun _ op data => if OP_16 <? op then None else Some data) scriptSig [] with
    | (vData, Some true) => GetSigOpCount vData true
    | _ => 0
    end.

(** ** Asset scripts *)

Inductive asset_type : Set := TX_TRANSFER_ASSET | TX_NEW_ASSET | TX_REISSUE_ASSET.

Definition RVH_N : Z := 114.
Definition RVH_E : Z := 118.
Definition RVH_X : Z := 110.
Definition RVH_T : Z := 116.
Definition RVH_Q : Z := 113.
Definition RVH_O : Z := 111.

(** [IsAssetScript(nType, fIsOwner, nStartingIndex)]; [fIsOwner] comes in as
    false from every caller. *)
Definition IsAssetScript (s : CScript) : option (asset_type * bool * Z) :=
  if (31 <? size s) && (aget s 25 =? OP_RVH_ASSET) then
    let index :=
      if aget s 27 =? RVH_N then
        if (aget s 28 =? RVH_E) && (aget s 29 =? RVH_X) then 30 else -1
      else if (aget s 28 =? RVH_N) && (aget s 29 =? RVH_E) && (aget s 30 =? RVH_X) then 31 else -1 in
    if 0 <? index then
      if aget s index =? RVH_T then Some (TX_TRANSFER_ASSET, false, index + 1)
      else if (aget s index =? RVH_Q) && (39 <? size s) then Some (TX_NEW_ASSET, false, index + 1)
      else if aget s index =? RVH_O then Some (TX_NEW_ASSET, true, index + 1)
      else if aget s index =? RVH_N then Some (TX_REISSUE_ASSET, false, index + 1)
      else None
    else None
  else None.

Definition IsNewAsset (s : CScript) : bool :=
  match IsAssetScript s with Some (TX_NEW_ASSET, false, _) => true | _ => false end.
Definition IsOwnerAsset (s : CScript) : bool :=
  match IsAssetScript s with Some (TX_NEW_ASSET, true, _) => true | _ => false end.
Definition IsReissueAsset (s : CScript) : bool :=
  match IsAssetScript s with Some (TX_REISSUE_ASSET, _, _) => true | _ => false end.
Definition IsTransferAsset (s : CScript) : bool :=
  match IsAssetScript s with Some (TX_TRANSFER_ASSET, _, _) => true | _ => false end.

Definition IsNullAssetTxDataScript (s : CScript) : bool :=
  (23 <? size s) && (aget s 0 =? OP_RVH_ASSET) && (aget s 1 =? 0x14).
Definition IsNullGlobalRestrictionAssetTxDataScript (s : CScript) : bool :=
  (6 <? size s) && (aget s 0 =? OP_RVH_ASSET) && (aget s 1 =? OP_RESERVED) && (aget s 2 =? OP_RESERVED).
Definition IsNullAssetVerifierTxDataScript (s : CScript) : bool :=
  (3 <? size s) && (aget s 0 =? OP_RVH_ASSET) && (aget s 1 =? OP_RESERVED) && negb (aget s 2 =? OP_RESERVED).
Definition IsNullAsset (s : CScript) : bool :=
  IsNullAssetTxDataScript s || IsNullGlobalRestrictionAssetTxDataScript s || IsNullAssetVerifierTxDataScript s.

(** ** Script numbers: lemmas *)

Lemma le_bytes_app a b : le_bytes (a ++ b) = le_bytes a + 2 ^ (8 * size a) * le_bytes b.
Proof.
  induction a as [|x a IH]; [simpl; lia|]. cbn [app le_bytes length]. rewrite IH.
  replace (8 * Z.of_nat (S (length a))) with (8 + 8 * size a) by lia. rewrite Z.pow_add_r by lia. ring.
Qed.

Lemma le_bytes_range l : Forall is_u8 l -> 0 <= le_bytes l < 2 ^ (8 * size l).
Proof.
  induction 1 as [|b l Hb Hl IH]; [simpl; lia|]. cbn [le_bytes length].
  replace (8 * Z.of_nat (S (length l))) with (8 + 8 * size l) by lia. rewrite Z.pow_add_r by lia.
  unfold is_u8 in Hb. nia.
Qed.

Lemma bytes_snoc l b : Forall is_u8 l -> is_u8 b -> Forall is_u8 (l ++ [b]).
Proof. intros Hl Hb. apply Forall_app. split; [done|]. by constructor. Qed.

Lemma pow8_mono a b : a <= b -> 2 ^ (8 * a) <= 2 ^ (8 * b).
Proof. intros Hab. apply Z.pow_le_mono_r; lia. Qed.

Lemma set_vch_loop_value vch i r :
  Forall is_u8 vch -> 0 <= i -> i + size vch <= 7 -> 0 <= r < 2 ^ (8 * i) ->
  set_vch_loop vch i r = r + 2 ^ (8 * i) * le_bytes vch.
Proof.
  intros Hv. revert i r. induction Hv as [|b vch Hb Hv IH]; intros i r Hi Hs Hr; [simpl; lia|].
  cbn [set_vch_loop le_bytes length] in *. rewrite lor_shiftl_add by lia.
  unfold is_u8 in Hb. pose proof (pow8_mono (i + 1) 7 ltac:(lia)) as Hm.
  assert (2 ^ (8 * (i + 1)) = 2 ^ (8 * i) * 2 ^ 8) as E by (rewrite <- Z.pow_add_r by lia; f_equal; lia).
  assert (0 <= r + 2 ^ (8 * i) * b < 2 ^ (8 * (i + 1))) as Hr' by (rewrite E; nia).
  rewrite (s64_id (r + 2 ^ (8 * i) * b)) by (unfold is_s64; lia).
  rewrite IH by lia. rewrite E. ring.
Qed.

Lemma back_snoc l b : back (l ++ [b]) = b.
Proof. unfold back. by rewrite last_snoc. Qed.

Lemma land_80_byte b : is_u8 b -> (Z.land b 0x80 =? 0) = (b <? 128).
Proof.
  unfold is_u8. intros Hb. assert (Forall (fun x => (Z.land x 0x80 =? 0) = (x <? 128)) (seqZ 0 256)) as HF
    by (vm_compute; repeat constructor).
  rewrite Forall_forall in HF. apply HF, elem_of_seqZ. lia.
Qed.

Lemma land_7f_byte b : is_u8 b -> Z.land b 0x7f = b mod 128.
Proof. intros _. change 0x7f with (Z.ones 7). by rewrite Z.land_ones by lia. Qed.

Lemma lor_80_byte b : is_u8 b -> b < 128 -> Z.lor b 0x80 = b + 128.
Proof. unfold is_u8. intros Hb Hlt. change (Z.lor b 0x80) with (Z.lor b (Z.shiftl 1 7)). rewrite lor_shiftl_add; lia. Qed.

(** Clearing the sign bit of the top byte. *)
Lemma clear_sign x k :
  0 <= k <= 6 -> 0 <= x < 2 ^ (8 * k + 7) ->
  Z.land (u64 (x + 128 * 2 ^ (8 * k))) (u64 (Z.lnot (u64 (Z.shiftl 0x80 (8 * k))))) = x.
Proof.
  intros Hk Hx. rewrite Z.shiftl_mul_pow2 by lia.
  replace (0x80 * 2 ^ (8 * k)) with (2 ^ (8 * k + 7)) by (rewrite Z.pow_add_r by lia; change (2 ^ 7) with 128; ring).
  pose proof (Z.pow_le_mono_r 2 (8 * k + 7) 55). unfold u64.
  rewrite (Z.mod_small (2 ^ (8 * k + 7))) by lia. rewrite (Z.mod_small (x + _)) by lia.
  apply Z.bits_inj'. intros i Hi. rewrite Z.land_spec, <- (Z.land_ones _ 64), Z.land_spec, Z.lnot_spec by lia.
  rewrite <- (Z.mul_1_r (2 ^ (8 * k + 7))) at 1. rewrite testbit_add_low by lia. rewrite Z.pow2_bits_eqb by lia.
  destruct (Z.ltb_spec i (8 * k + 7)).
  - rewrite (proj2 (Z.eqb_neq _ _)), Z.ones_spec_low, !andb_true_r by lia. done.
  - rewrite (testbit_high x (8 * k + 7) i) by lia. destruct (Z.eqb_spec (8 * k + 7) i) as [<-|].
    + by rewrite andb_false_r.
    + by rewrite (testbit_high 1 1) by lia.
Qed.

(** What a byte vector means as a script number. *)
Lemma set_vch_snoc l b :
  Forall is_u8 l -> is_u8 b -> size l <= 6 ->
  set_vch (l ++ [b]) =
  if b <? 128 then le_bytes l + 2 ^ (8 * size l) * b else - (le_bytes l + 2 ^ (8 * size l) * (b - 128)).
Proof.
  intros Hl Hb Hs. unfold set_vch. destruct (l ++ [b]) as [|x v] eqn:E; [by destruct l|]. rewrite <- E.
  rewrite back_snoc, land_80_byte, length_app by done.
  rewrite set_vch_loop_value; [|by apply bytes_snoc|lia|rewrite length_app; simpl; lia|simpl; lia].
  rewrite le_bytes_app. cbn [le_bytes length]. pose proof (le_bytes_range l Hl). unfold is_u8 in Hb.
  destruct (Z.ltb_spec b 128) as [Hlt|Hge]; cbn [negb]; [rewrite Z.mul_0_r; simpl (2 ^ (8 * 0)); lia|].
  f_equal. replace (8 * (Z.of_nat (length l + 1) - 1)) with (8 * size l) by lia.
  pose proof (Z.pow_add_r 2 (8 * size l) 7 ltac:(lia) ltac:(lia)) as Hp. change (2 ^ 7) with 128 in Hp.
  pose proof (Z.pow_le_mono_r 2 (8 * size l + 7) 55 ltac:(lia) ltac:(lia)).
  replace (0 + 2 ^ (8 * 0) * (le_bytes l + 2 ^ (8 * size l) * (b + 2 ^ 8 * 0)))
    with ((le_bytes l + 2 ^ (8 * size l) * (b - 128)) + 128 * 2 ^ (8 * size l)) by (simpl (2 ^ (8 * 0)); lia).
  assert (0 <= le_bytes l + 2 ^ (8 * size l) * (b - 128) < 2 ^ (8 * size l) * 128) by nia.
  rewrite clear_sign by lia. apply s64_id. unfold is_s64. lia.
Qed.

Lemma serialize_loop_value fuel x :
  0 <= x < 2 ^ (8 * Z.of_nat fuel) ->
  le_bytes (serialize_loop fuel x) = x /\ Forall is_u8 (serialize_loop fuel x) /\
  (forall k, 0 <= k -> x < 2 ^ (8 * k) -> size (serialize_loop fuel x) <= k) /\
  (0 < x -> exists l t, serialize_loop fuel x = l ++ [t] /\ 0 < t).
Proof.
  revert x. induction fuel as [|fuel IH]; intros x Hx; cbn [serialize_loop].
  { simpl in Hx. assert (x = 0) as -> by lia. repeat split; [constructor|simpl; lia|lia]. }
  destruct (Z.eqb_spec x 0) as [->|Hne]; [repeat split; [constructor|simpl; lia|lia]|].
  rewrite land_mask8, Z.shiftr_div_pow2 by lia.
  replace (8 * Z.of_nat (S fuel)) with (8 + 8 * Z.of_nat fuel) in Hx by lia. rewrite Z.pow_add_r in Hx by lia.
  destruct (IH (x / 2 ^ 8)) as (Hv & Hb & Hlen & Hlast).
  { split; [apply Z.div_pos; lia|]. apply Z.div_lt_upper_bound; lia. }
  pose proof (Z.mod_pos_bound x (2 ^ 8)). pose proof (Z.div_mod x (2 ^ 8)). split_and!.
  - cbn [le_bytes]. rewrite Hv. lia.
  - constructor; [unfold is_u8; lia|done].
  - intros k Hk Hxk. cbn [length]. assert (1 <= k) by (destruct (decide (k = 0)) as [->|]; [simpl in Hxk|]; lia).
    pose proof (Hlen (k - 1)). replace (8 * k) with (8 + 8 * (k - 1)) in Hxk by lia.
    rewrite Z.pow_add_r in Hxk by lia. assert (x / 2 ^ 8 < 2 ^ (8 * (k - 1))) by (apply Z.div_lt_upper_bound; lia).
    lia.
  - intros _. destruct (decide (0 < x / 2 ^ 8)) as [Hpos|].
    + destruct (Hlast Hpos) as (l & t & -> & Ht). by exists (x mod 2 ^ 8 :: l), t.
    + assert (x / 2 ^ 8 = 0) as E by (assert (0 <= x / 2 ^ 8) by (apply Z.div_pos; lia); lia).
      rewrite E. exists [], (x mod 2 ^ 8). split; [by destruct fuel|lia].
Qed.

(** Digits with a non-zero top digit are the ones the loop produces. *)
Lemma serialize_loop_digits fuel l t :
  Forall is_u8 l -> is_u8 t -> 0 < t -> (length l < fuel)%nat ->
  serialize_loop fuel (le_bytes (l ++ [t])) = l ++ [t].
Proof.
  intros Hl Ht Hpos. revert fuel. induction Hl as [|b l Hb Hl IH]; intros fuel Hf.
  - destruct fuel as [|fuel]; [simpl in Hf; lia|]. cbn [app le_bytes serialize_loop].
    rewrite Z.mul_0_r, Z.add_0_r, (proj2 (Z.eqb_neq t 0)) by lia. unfold is_u8 in Ht.
    rewrite land_mask8, Z.mod_small, Z.shiftr_div_pow2, Z.div_small by lia. by destruct fuel.
  - destruct fuel as [|fuel]; [simpl in Hf; lia|]. cbn [app le_bytes serialize_loop].
    pose proof (le_bytes_range (l ++ [t])) as Hr. unfold is_u8 in Hb.
    assert (0 < le_bytes (l ++ [t])).
    { rewrite le_bytes_app. cbn [le_bytes]. pose proof (le_bytes_range l Hl).
      pose proof (Z.pow_pos_nonneg 2 (8 * size l)). nia. }
    rewrite (proj2 (Z.eqb_neq _ 0)) by lia. rewrite land_mask8, Z.shiftr_div_pow2 by lia.
    assert ((b + 2 ^ 8 * le_bytes (l ++ [t])) mod 2 ^ 8 = b) as ->.
    { rewrite Z.mul_comm, Z.mod_add by lia. apply Z.mod_small. lia. }
    assert ((b + 2 ^ 8 * le_bytes (l ++ [t])) / 2 ^ 8 = le_bytes (l ++ [t])) as ->.
    { rewrite Z.mul_comm, Z.div_add by lia. rewrite Z.div_small by lia. lia. }
    rewrite IH; [done|]. simpl in Hf. lia.
Qed.

Lemma set_back_snoc l t x : set_back (l ++ [t]) x = l ++ [x].
Proof.
  unfold set_back, aset. rewrite length_app. simpl.
  replace (Z.to_nat (Z.of_nat (length l + 1) - 1)) with (length l + 0)%nat by lia.
  by rewrite insert_app_r.
Qed.

(** The encoding of a non-zero number from the digits of its absolute value. *)
Lemma serialize_digits v l t :
  v <> 0 -> Z.abs v < 2 ^ 63 -> serialize_loop 8 (Z.abs v) = l ++ [t] -> is_u8 t ->
  serialize v = if 128 <=? t then l ++ [t; if v <? 0 then 0x80 else 0]
                else l ++ [if v <? 0 then t + 128 else t].
Proof.
  intros Hv Hr Hd Ht. unfold serialize. rewrite (proj2 (Z.eqb_neq v 0)) by done.
  replace (u64 (if v <? 0 then - v else v)) with (Z.abs v).
  2:{ symmetry. unfold u64. destruct (Z.ltb_spec v 0); rewrite Z.mod_small; lia. }
  rewrite Hd, back_snoc, land_80_byte by done.
  destruct (Z.ltb_spec t 128), (Z.leb_spec 128 t); try lia; cbn [negb].
  - destruct (v <? 0); [|done]. by rewrite set_back_snoc, lor_80_byte.
  - by rewrite <- app_assoc.
Qed.

Lemma serialize_shape v :
  Z.abs v < 2 ^ 55 -> v <> 0 ->
  exists l t, le_bytes l + 2 ^ (8 * size l) * t = Z.abs v /\ Forall is_u8 l /\ is_u8 t /\ 0 < t /\
    size l <= 6 /\ (forall k, 0 <= k -> Z.abs v < 2 ^ (8 * k) -> size l + 1 <= k) /\
    serialize v = if 128 <=? t then l ++ [t; if v <? 0 then 0x80 else 0]
                  else l ++ [if v <? 0 then t + 128 else t].
Proof.
  intros Hr Hne. destruct (serialize_loop_value 8 (Z.abs v)) as (Hv & Hb & Hlen & Hlast).
  { change (8 * Z.of_nat 8) with 64. lia. }
  destruct Hlast as (l & t & E & Ht); [lia|]. rewrite E in *. apply Forall_app in Hb as [Hl Htb].
  apply Forall_cons in Htb as [Htb _]. exists l, t. rewrite length_app in Hlen. simpl in Hlen.
  split_and!; try done.
  - rewrite <- Hv, le_bytes_app. cbn [le_bytes]. lia.
  - pose proof (Hlen 7). change (8 * 7) with 56 in *. lia.
  - intros k Hk Hvk. pose proof (Hlen k Hk Hvk). lia.
  - apply serialize_digits; [done|lia|done|done].
Qed.

Lemma set_vch_serialize v : Z.abs v < 2 ^ 55 -> set_vch (serialize v) = v.
Proof.
  intros Hr. destruct (decide (v = 0)) as [->|Hne]; [done|].
  destruct (serialize_shape v Hr Hne) as (l & t & Hv & Hl & Ht & Hpos & Hs & Hk & ->). unfold is_u8 in Ht.
  destruct (Z.leb_spec 128 t) as [Hge|Hlt].
  - assert (size l <= 5) as Hs5.
    { destruct (decide (size l = 6)) as [E|]; [|lia]. exfalso. rewrite E in Hv. change (8 * 6) with 48 in Hv.
      pose proof (le_bytes_range l Hl). lia. }
    replace (l ++ [t; if v <? 0 then 128 else 0]) with ((l ++ [t]) ++ [if v <? 0 then 128 else 0])
      by (by rewrite <- app_assoc).
    rewrite set_vch_snoc; [|by apply bytes_snoc|unfold is_u8; destruct (v <? 0); lia|rewrite length_app; simpl; lia].
    rewrite le_bytes_app. cbn [le_bytes]. destruct (Z.ltb_spec v 0); simpl; lia.
  - rewrite set_vch_snoc; [|done|unfold is_u8; destruct (v <? 0); lia|lia].
    destruct (Z.ltb_spec v 0).
    + rewrite (proj2 (Z.ltb_ge (t + 128) 128)) by lia. lia.
    + rewrite (proj2 (Z.ltb_lt t 128)) by lia. lia.
Qed.

Lemma back2_snoc l a b : back2 (l ++ [a; b]) = a.
Proof.
  unfold back2, aget. rewrite length_app. simpl.
  replace (Z.to_nat (Z.of_nat (length l + 2) - 2)) with (length l + 0)%nat by lia.
  by rewrite lookup_app_r, Nat.add_0_r, Nat.sub_diag by lia.
Qed.

(** A vector is minimal when its top byte carries a digit, or is needed for the
    sign. *)
Lemma minimal_num_snoc l b :
  is_u8 b -> Forall is_u8 l ->
  minimal_num (l ++ [b]) = negb (b mod 128 =? 0) || match last l with Some a => 128 <=? a | None => false end.
Proof.
  intros Hb Hl. unfold minimal_num. rewrite back_snoc, land_7f_byte, length_app by done.
  rewrite (proj2 (Z.ltb_lt 0 _)) by (simpl; lia). destruct (b mod 128 =? 0); [|done]. cbn [negb orb andb length].
  destruct l as [|a l _] using rev_ind; [done|].
  rewrite <- app_assoc. cbn [app]. rewrite back2_snoc, last_snoc.
  apply Forall_app in Hl as [_ Ha%Forall_cons]. rewrite land_80_byte by apply Ha.
  rewrite length_app. rewrite (proj2 (Z.leb_gt _ 1)) by (simpl; lia). cbn [orb].
  destruct (Z.ltb_spec a 128), (Z.leb_spec 128 a); try lia; done.
Qed.

Lemma minimal_serialize v :
  Z.abs v < 2 ^ 55 -> minimal_num (serialize v) = true /\ Forall is_u8 (serialize v) /\
  (forall k, 0 <= k -> Z.abs v < 2 ^ (8 * k - 1) -> size (serialize v) <= k).
Proof.
  intros Hr. destruct (decide (v = 0)) as [->|Hne]; [repeat split; [constructor|simpl; lia]|].
  destruct (serialize_shape v Hr Hne) as (l & t & Hv & Hl & Ht & Hpos & Hs & Hk & ->). pose proof Ht as Ht'. unfold is_u8 in Ht.
  destruct (Z.leb_spec 128 t) as [Hge|Hlt].
  - replace (l ++ [t; if v <? 0 then 128 else 0]) with ((l ++ [t]) ++ [if v <? 0 then 128 else 0])
      by (by rewrite <- app_assoc).
    assert (is_u8 (if v <? 0 then 128 else 0)) by (unfold is_u8; destruct (v <? 0); lia).
    assert (Forall is_u8 (l ++ [t])) by (by apply bytes_snoc).
    rewrite minimal_num_snoc, last_snoc by done. rewrite (proj2 (Z.leb_le 128 t)), orb_true_r by lia.
    split; [done|]. split; [by apply bytes_snoc|].
    intros k Hk0 Hvk. rewrite !length_app. simpl. assert (k <> size l + 1).
    { intros ->. replace (8 * (size l + 1) - 1) with (8 * size l + 7) in Hvk by lia.
      rewrite Z.pow_add_r in Hvk by lia. pose proof (le_bytes_range l Hl). change (2 ^ 7) with 128 in Hvk. nia. }
    assert (Z.abs v < 2 ^ (8 * k)) by (pose proof (Z.pow_le_mono_r 2 (8 * k - 1) (8 * k)); lia).
    pose proof (Hk k Hk0). lia.
  - assert (is_u8 (if v <? 0 then t + 128 else t)) by (unfold is_u8; destruct (v <? 0); lia).
    rewrite minimal_num_snoc by done. split; [|split; [by apply bytes_snoc|]].
    + replace ((if v <? 0 then t + 128 else t) mod 128) with t; [by rewrite (proj2 (Z.eqb_neq t 0)) by lia|].
      symmetry. destruct (v <? 0); [|apply Z.mod_small; lia].
      replace (t + 128) with (t + 1 * 128) by lia. rewrite Z.mod_add, Z.mod_small; lia.
    + intros k Hk0 Hvk. rewrite length_app. simpl.
      assert (Z.abs v < 2 ^ (8 * k)) by (pose proof (Z.pow_le_mono_r 2 (8 * k - 1) (8 * k)); lia).
      pose proof (Hk k Hk0). lia.
Qed.

Lemma set_vch_bound vch : Forall is_u8 vch -> size vch <= 4 -> Z.abs (set_vch vch) < 2 ^ 31.
Proof.
  intros Hb Hs. destruct vch as [|b l _] using rev_ind; [simpl; lia|].
  apply Forall_app in Hb as [Hl Hb%Forall_cons]. destruct Hb as [Hb _]. rewrite length_app in Hs. simpl in Hs.
  rewrite set_vch_snoc by (done || lia). unfold is_u8 in Hb. pose proof (le_bytes_range l Hl).
  pose proof (pow8_mono (size l) 3 ltac:(lia)) as Hp. change (2 ^ (8 * 3)) with (2 ^ 24) in Hp.
  destruct (Z.ltb_spec b 128); nia.
Qed.

Lemma serialize_set_vch vch :
  Forall is_u8 vch -> size vch <= 7 -> minimal_num vch = true -> serialize (set_vch vch) = vch.
Proof.
  intros Hb Hs Hm. destruct vch as [|b l _] using rev_ind; [done|].
  apply Forall_app in Hb as [Hl Hb%Forall_cons]. destruct Hb as [Hb _]. rewrite length_app in Hs. simpl in Hs.
  rewrite minimal_num_snoc in Hm by done. rewrite set_vch_snoc by (done || lia).
  pose proof Hb as Hb'. unfold is_u8 in Hb'. pose proof (le_bytes_range l Hl) as Hlr.
  pose proof (pow8_mono (size l) 6 ltac:(lia)) as Hpw. change (2 ^ (8 * 6)) with (2 ^ 48) in Hpw.
  set (t := b mod 128) in *. assert (0 <= t < 128) by (apply Z.mod_pos_bound; lia).
  assert (b = t + if b <? 128 then 0 else 128) as Eb.
  { unfold t. destruct (Z.ltb_spec b 128); [rewrite Z.mod_small; lia|].
    pose proof (Z.div_mod b 128). assert (b / 128 = 1) by (symmetry; apply (Z.div_unique_pos b 128 1 (b - 128)); lia). lia. }
  set (x := le_bytes l + 2 ^ (8 * size l) * t).
  assert (0 <= x < 2 ^ 55) by (unfold x; nia).
  assert ((if b <? 128 then le_bytes l + 2 ^ (8 * size l) * b else - (le_bytes l + 2 ^ (8 * size l) * (b - 128)))
          = if b <? 128 then x else - x) as ->.
  { unfold x. destruct (b <? 128); [do 2 f_equal; lia|do 3 f_equal; lia]. }
  assert (x <> 0 -> Z.abs (if b <? 128 then x else - x) = x /\ ((if b <? 128 then x else - x) <? 0) = negb (b <? 128)) as Hsign.
  { intros Hx. destruct (Z.ltb_spec b 128); cbn [negb]; split; lia. }
  destruct (Z.eqb_spec t 0) as [Et|Ht]; cbn [negb orb] in Hm.
  - destruct l as [|a l _] using rev_ind; [done|]. rewrite last_snoc in Hm. apply Z.leb_le in Hm.
    apply Forall_app in Hl as [Hl Ha%Forall_cons]. destruct Ha as [Ha _].
    assert (x = le_bytes (l ++ [a])) as Ex by (unfold x; rewrite Et; lia).
    assert (0 < x).
    { rewrite Ex, le_bytes_app. cbn [le_bytes]. pose proof (le_bytes_range l Hl).
      pose proof (Z.pow_pos_nonneg 2 (8 * size l)). nia. }
    destruct Hsign as [Habs Hneg]; [lia|].
    rewrite (serialize_digits _ l a); [|destruct (b <? 128); lia|lia|rewrite Habs, Ex; apply serialize_loop_digits; try done; [lia|rewrite length_app in Hs; simpl in Hs; lia]|done].
    rewrite (proj2 (Z.leb_le 128 a)), Hneg, <- app_assoc by lia. cbn [app]. do 3 f_equal.
    rewrite Eb, Et. by destruct (b <? 128).
  - assert (x = le_bytes (l ++ [t])) as Ex by (unfold x; rewrite le_bytes_app; cbn [le_bytes]; lia).
    assert (0 < x) by (unfold x; pose proof (Z.pow_pos_nonneg 2 (8 * size l)); nia).
    destruct Hsign as [Habs Hneg]; [lia|]. assert (is_u8 t) by (unfold is_u8; lia).
    rewrite (serialize_digits _ l t); [|destruct (b <? 128); lia|lia|rewrite Habs, Ex; apply serialize_loop_digits; try done; lia|done].
    rewrite (proj2 (Z.leb_gt 128 t)), Hneg by lia. do 2 f_equal. rewrite Eb at 2. destruct (b <? 128); simpl; lia.
Qed.

(** ** Reading instructions: lemmas *)

(** Every instruction read consumes at least its opcode. *)
Lemma GetOp2_suffix pc op data pc' :
  GetOp2 pc = Some (op, data, pc') ->
  exists pre, pc = op :: pre ++ pc'.
Proof.
  unfold GetOp2. destruct pc as [|o pc1]; [done|].
  repeat case_match; try done; intros [= <- <- <-].
  all: lazymatch goal with
    | |- context [drop ?m (drop ?k ?l)] =>
        exists (take k l ++ take m (drop k l)); by rewrite <- app_assoc, !take_drop
    | |- context [drop ?m ?l] => exists (take m l); by rewrite take_drop
    | |- _ => first [by exists []|eexists; by rewrite app_nil_r]
    end.
Qed.

Lemma GetOp2_length pc op data pc' : GetOp2 pc = Some (op, data, pc') -> (length pc' < length pc)%nat.
Proof. intros E. destruct (GetOp2_suffix _ _ _ _ E) as [pre ->]. simpl. rewrite length_app. lia. Qed.

Lemma WriteLE16_read x r : 0 <= x < 2 ^ 16 -> ReadLE16 (WriteLE16 x ++ r) = x.
Proof.
  intros Hx. unfold ReadLE16, WriteLE16. cbn [app]. rewrite aget_cons_0, aget_cons_S, aget_cons_0 by lia.
  assert (0 <= u8 x < 2 ^ 8) by (apply u8_range). rewrite lor_shiftl_add by lia.
  unfold u8. rewrite Z.shiftr_div_pow2 by lia.
  rewrite (Z.mod_small (x / 2 ^ 8)) by (split; [apply Z.div_pos; lia|apply Z.div_lt_upper_bound; lia]).
  pose proof (Z.div_mod x (2 ^ 8)). lia.
Qed.

Lemma WriteLE32_read x r : is_u32 x -> ReadLE32 (WriteLE32 x ++ r) 0 = x.
Proof.
  intros Hx. unfold ReadLE32. unfold WriteLE32 at 1. cbn [app]. unfold WriteLE32. cbn [app].
  unfold aget. simpl. by apply WriteLE32_value.
Qed.

(** The opcode that [operator<<] chooses for a data push. *)
Definition push_opcode (b : valtype) : Z :=
  if size b <? OP_PUSHDATA1 then size b
  else if size b <=? 0xff then OP_PUSHDATA1
  else if size b <=? 0xffff then OP_PUSHDATA2
  else OP_PUSHDATA4.

Lemma GetOp2_push_data b rest :
  size b < 2 ^ 32 -> GetOp2 (push_data b ++ rest) = Some (push_opcode b, b, rest).
Proof.
  intros Hs. unfold push_data, push_opcode.
  assert (forall h : Z, ((if size (b ++ rest) <? size b then None
           else Some (h, take (Z.to_nat (size b)) (b ++ rest), drop (Z.to_nat (size b)) (b ++ rest)))
          = Some (h, b, rest))) as Hop.
  { intros h. rewrite (proj2 (Z.ltb_ge _ _)) by (rewrite length_app; lia).
    by rewrite Nat2Z.id, take_app_length, drop_app_length. }
  destruct (Z.ltb_spec (size b) OP_PUSHDATA1) as [H1|H1].
  - unfold OP_PUSHDATA1 in H1. cbn [app GetOp2].
    rewrite (u8_id (size b)) by (unfold is_u8; lia).
    rewrite (proj2 (Z.leb_le (size b) OP_PUSHDATA4)), (proj2 (Z.ltb_lt (size b) OP_PUSHDATA1))
      by (unfold OP_PUSHDATA1, OP_PUSHDATA4; lia). apply Hop.
  - destruct (Z.leb_spec (size b) 0xff) as [H2|H2]; [|destruct (Z.leb_spec (size b) 0xffff) as [H3|H3]].
    + cbn [app GetOp2]. change (OP_PUSHDATA1 <=? OP_PUSHDATA4) with true.
      change (OP_PUSHDATA1 <? OP_PUSHDATA1) with false. change (OP_PUSHDATA1 =? OP_PUSHDATA1) with true. cbv iota.
      rewrite (proj2 (Z.ltb_ge _ 1)) by (simpl; lia).
      rewrite aget_cons_0, (u8_id (size b)) by (unfold is_u8; lia). apply Hop.
    + rewrite <- app_assoc. cbn [app GetOp2]. change (OP_PUSHDATA2 <=? OP_PUSHDATA4) with true.
      change (OP_PUSHDATA2 <? OP_PUSHDATA1) with false. change (OP_PUSHDATA2 =? OP_PUSHDATA1) with false.
      change (OP_PUSHDATA2 =? OP_PUSHDATA2) with true. cbv iota.
      rewrite (u32_id (size b)) by (unfold is_u32; lia).
      rewrite (proj2 (Z.ltb_ge _ 2)) by (rewrite length_app; simpl; lia).
      rewrite WriteLE16_read by lia. apply Hop.
    + rewrite <- app_assoc. cbn [app GetOp2]. change (OP_PUSHDATA4 <=? OP_PUSHDATA4) with true.
      change (OP_PUSHDATA4 <? OP_PUSHDATA1) with false. change (OP_PUSHDATA4 =? OP_PUSHDATA1) with false.
      change (OP_PUSHDATA4 =? OP_PUSHDATA2) with false. cbv iota.
      rewrite (u32_id (size b)) by (unfold is_u32; lia).
      rewrite (proj2 (Z.ltb_ge _ 4)) by (rewrite length_app; simpl; lia).
      rewrite WriteLE32_read by (unfold is_u32; lia). apply Hop.
Qed.

(** A script that is a sequence of data pushes. *)
Fixpoint push_all (items : list valtype) : CScript :=
  match items with [] => [] | b :: rest => push_data b ++ push_all rest end.

Lemma push_data_nonempty b rest : exists x l, push_data b ++ rest = x :: l.
Proof. unfold push_data. repeat case_match; cbn [app]; by eexists _, _. Qed.

(** Reading the pushes back one by one. *)
Lemma for_ops_push_all {S : Type} (f : S -> Z -> valtype -> option S) (g : S -> valtype -> S) items fuel s :
  (forall s b, f s (push_opcode b) b = Some (g s b)) ->
  Forall (fun b => size b < 2 ^ 32) items -> (length (push_all items) <= fuel)%nat ->
  for_ops fuel f (push_all items) s = (foldl g s items, Some true).
Proof.
  intros Hf Hs. revert fuel s. induction Hs as [|b items Hb Hs IH]; intros fuel s Hfuel; [by destruct fuel|].
  cbn [push_all foldl] in *. destruct (push_data_nonempty b (push_all items)) as (x & l & E).
  destruct fuel as [|fuel]; [rewrite E in Hfuel; simpl in Hfuel; lia|].
  cbn [for_ops]. rewrite E, <- E, GetOp2_push_data by done. cbv iota beta. rewrite Hf. apply IH.
  pose proof (GetOp2_length _ _ _ _ (GetOp2_push_data b (push_all items) Hb)). lia.
Qed.

Lemma push_opcode_range b : 0 <= push_opcode b <= OP_PUSHDATA4.
Proof.
  unfold push_opcode, OP_PUSHDATA1, OP_PUSHDATA2, OP_PUSHDATA4.
  destruct (Z.ltb_spec (size b) 0x4c); [lia|]. destruct (size b <=? 0xff); [lia|]. destruct (size b <=? 0xffff); lia.
Qed.

Lemma IsPushOnly_push_all items :
  Forall (fun b => size b < 2 ^ 32) items -> IsPushOnly (push_all items) = true.
Proof.
  intros Hs. unfold IsPushOnly. rewrite (for_ops_push_all _ (fun _ _ => tt)); [done| |done|done].
  intros s b. pose proof (push_opcode_range b). unfold OP_PUSHDATA4 in *.
  rewrite (proj2 (Z.ltb_ge OP_16 _)) by (unfold OP_16; lia). by destruct s.
Qed.

(** ** Theorems *)

(** Script numbers: encoding a number below 2^55 in absolute value and
    decoding it gives it back, the encoding passes the minimality check and has
    at most four bytes for numbers below 2^31, so that the numeric operations
    accept exactly those; and every minimal encoding of at most seven bytes is the one
    [serialize] produces. *)
Theorem scriptnum_roundtrip (v : Z) (vch : valtype) :
  Z.abs v < 2 ^ 55 -> Forall is_u8 vch -> size vch <= 7 -> minimal_num vch = true ->
  (forall fRequireMinimal, CScriptNum (serialize v) fRequireMinimal nDefaultMaxNumSize
     = if Z.abs v <? 2 ^ 31 then Some v else None) /\
  (forall fRequireMinimal, CScriptNum (serialize v) fRequireMinimal 7 = Some v) /\
  CScriptNum vch true 7 = Some (set_vch vch) /\ serialize (set_vch vch) = vch.
Proof.
  intros Hv Hb Hs Hm. pose proof (minimal_serialize v Hv) as (Hmin & Hbytes & Hlen).
  pose proof (set_vch_serialize v Hv) as Hset.
  assert (forall (m : bool) k, size (serialize v) <= k -> CScriptNum (serialize v) m k = Some v) as Hok.
  { intros m k Hk. unfold CScriptNum. rewrite (proj2 (Z.ltb_ge k _)) by done.
    rewrite Hmin, Hset. by rewrite andb_false_r. }
  split_and!.
  - intros m. destruct (Z.ltb_spec (Z.abs v) (2 ^ 31)) as [Hlt|Hge].
    + apply Hok. apply (Hlen 4); [lia|]. exact Hlt.
    + unfold CScriptNum. rewrite (proj2 (Z.ltb_lt nDefaultMaxNumSize _)); [done|].
      unfold nDefaultMaxNumSize. apply Z.nle_gt. intros Hle.
      pose proof (set_vch_bound (serialize v) Hbytes Hle). rewrite Hset in *. lia.
  - intros m. apply Hok, Hlen; [lia|]. exact Hv.
  - unfold CScriptNum. rewrite (proj2 (Z.ltb_ge 7 _)) by lia. by rewrite Hm.
  - by apply serialize_set_vch.
Qed.

Lemma scriptnum_roundtrip_witness :
  (forall fRequireMinimal, CScriptNum (serialize (-255)) fRequireMinimal nDefaultMaxNumSize = Some (-255)) /\
  CScriptNum [0xff; 0x80] true 7 = Some (-255) /\ serialize (-255) = [0xff; 0x80].
Proof.
  destruct (scriptnum_roundtrip (-255) [0xff; 0x80]) as (H1 & _ & H3 & H4).
  - reflexivity.
  - repeat constructor; discriminate.
  - discriminate.
  - reflexivity.
  - split; [exact H1|]. split; [exact H3|exact H4].
Defined.

(** Data pushed with [operator<<] is read back unchanged by [GetOp2]: a
    script made of pushes is push-only, its instructions are exactly the pushed
    items, and it counts no signature operations. *)
Theorem push_read_roundtrip (items : list valtype) :
  Forall (fun b => size b < 2 ^ 32) items ->
  for_ops (length (push_all items)) (fun acc _ data => Some (acc ++ [data])) (push_all items) []
    = (items, Some true) /\
  IsPushOnly (push_all items) = true /\
  GetSigOpCount (push_all items) true = 0.
Proof.
  intros Hs. split_and!.
  - rewrite (for_ops_push_all _ (fun acc data => acc ++ [data])) by done.
    f_equal. assert (forall acc, foldl (fun acc data => acc ++ [data]) acc items = acc ++ items) as Hacc.
    { clear Hs. induction items as [|b items IH]; intros acc; cbn [foldl]; [by rewrite app_nil_r|].
      by rewrite IH, <- app_assoc. }
    apply Hacc.
  - by apply IsPushOnly_push_all.
  - unfold GetSigOpCount. rewrite (for_ops_push_all _ (fun s b => (fst s, push_opcode b))); [|..|done|done].
    + cbn [fst]. generalize OP_INVALIDOPCODE. clear Hs. induction items as [|b items IH]; intros o; [done|].
      cbn [foldl fst]. apply IH.
    + intros [k last] b. f_equal. unfold sigop_step. pose proof (push_opcode_range b). unfold OP_PUSHDATA4 in *.
      rewrite !(proj2 (Z.eqb_neq (push_opcode b) _))
        by (unfold OP_CHECKSIG, OP_CHECKSIGVERIFY, OP_CHECKMULTISIG, OP_CHECKMULTISIGVERIFY; lia). done.
Qed.

Lemma push_read_roundtrip_witness :
  for_ops (length (push_all [[1; 2]; []; replicate 80 7])) (fun acc _ data => Some (acc ++ [data]))
    (push_all [[1; 2]; []; replicate 80 7]) [] = ([[1; 2]; []; replicate 80 7], Some true).
Proof. apply (push_read_roundtrip [[1; 2]; []; replicate 80 7]). repeat constructor; reflexivity. Defined.
