(* ===== verification/Coins.v ===== *)
(** [coins.h], [coins.cpp]: the UTXO view and its write-back cache.
    [CoinsView] is the interface one view promises to the cache on top of it: an
    abstract set of unspent coins, reads that do not change it, and a batch write.
    [CCoinsViewCache] over any view is itself an instance, so caches stack to any
    depth as in the code (mempool view, connect-block view, tip view,
    database).  Reads fill the cache ([mutable] members), which the state passing
    makes explicit. *)

From stdpp Require Import prelude gmap.
From Stdlib Require Import ZArith Lia.
From S2P Require Import Prelude Transaction.

Open Scope Z_scope.

(** ** Coins and cache entries *)

Record Coin := mkCoin {
  out : CTxOut;
  fCoinBase : bool;
  coin_nHeight : Z
}.

Definition coinEmpty : Coin := mkCoin TxOut_SetNull false 0.
Definition IsSpent (c : Coin) : bool := TxOut_IsNull (out c).

(** [flags] has the two bits DIRTY and FRESH. *)
Record CCoinsCacheEntry := mkEntry {
  coin : Coin;
  DIRTY : bool;
  FRESH : bool
}.

Abbreviation CCoinsMap := (gmap COutPoint CCoinsCacheEntry).

(** ** Views *)

(** The virtual methods. A failed assertion or an exception of [BatchWrite] is
    [None]. *)
Class CoinsView (V : Type) := {
  view_GetCoin : V -> COutPoint -> option Coin * V;
  view_GetBestBlock : V -> Z * V;
  view_BatchWrite : V -> CCoinsMap -> Z -> option (bool * V)
}.

(** The coin an entry stands for. *)
Definition entry_coin (e : CCoinsCacheEntry) : option Coin :=
  if IsSpent (coin e) then None else Some (coin e).

(** The set of coins after a batch of dirty entries. *)
Definition batch_result (utxo : COutPoint -> option Coin) (m : CCoinsMap) (o : COutPoint) : option Coin :=
  match m !! o with
  | Some e => if DIRTY e then entry_coin e else utxo o
  | None => utxo o
  end.

(** A batch fits a view when its FRESH entries are not in the view. *)
Definition batch_fits (utxo : COutPoint -> option Coin) (m : CCoinsMap) : Prop :=
  forall o e, m !! o = Some e -> FRESH e = true -> utxo o = None.

(** What a view promises: [view_utxo] is the set it represents. *)
Class CoinsViewSpec (V : Type) `{CoinsView V} := {
  view_inv : V -> Prop;
  view_utxo : V -> COutPoint -> option Coin;
  view_best : V -> Z;
  view_unspent v o c : view_inv v -> view_utxo v o = Some c -> IsSpent c = false;
  view_GetCoin_ok v o : view_inv v ->
    fst (view_GetCoin v o) = view_utxo v o /\ view_inv (snd (view_GetCoin v o)) /\
    (forall o', view_utxo (snd (view_GetCoin v o)) o' = view_utxo v o') /\
    view_best (snd (view_GetCoin v o)) = view_best v;
  view_GetBestBlock_ok v : view_inv v ->
    fst (view_GetBestBlock v) = view_best v /\ view_inv (snd (view_GetBestBlock v)) /\
    (forall o', view_utxo (snd (view_GetBestBlock v)) o' = view_utxo v o') /\
    view_best (snd (view_GetBestBlock v)) = view_best v;
  view_BatchWrite_ok v m h : view_inv v -> batch_fits (view_utxo v) m -> h <> 0 ->
    exists v', view_BatchWrite v m h = Some (true, v') /\ view_inv v' /\ view_best v' = h /\
      forall o, view_utxo v' o = batch_result (view_utxo v) m o
}.

(** ** The cache *)

Record CCoinsViewCache (V : Type) := mkCache {
  base : V;
  hashBlock : Z;
  cacheCoins : CCoinsMap;
  cachedCoinsUsage : Z
}.
Arguments mkCache {V}. Arguments base {V}. Arguments hashBlock {V}.
Arguments cacheCoins {V}. Arguments cachedCoinsUsage {V}.

(** An operation that can throw leaves a state behind. *)
Inductive exn_result (S : Type) : Type :=
| Normal (s : S)
| Throws (s : S)
| AssertFails.
Arguments Normal {S}. Arguments Throws {S}. Arguments AssertFails {S}.

(** [memusage::DynamicUsage] of a script's storage. *)
Class ScriptUsage := DynamicUsage : CScript -> Z.

(** The asset cache that a spend or an undo also updates
    ([assets/assets.h]). *)
Class AssetsCache (A : Type) := {
  AreAssetsDeployed : bool;
  TrySpendCoin : A -> COutPoint -> CTxOut -> bool * A;
  UndoAssetCoin : A -> Coin -> COutPoint -> bool * A;
  (* the asset part of [AddCoins]: before the loop (transaction, height,
     block hash) and after each output *)
  AddTxAssets : A -> CTransaction -> Z -> Z -> A;
  AddOutputAssets : A -> CTransaction -> Z -> A;
  (* the asset part of [DisconnectBlock] for a transaction; [None] is
     [DISCONNECT_FAILED] *)
  RemoveTxAssets : A -> CTransaction -> option A
}.

Section Cache.
Context {V : Type} `{CoinsView V} `{ScriptUsage} `{AssetScripts}.

Definition coin_usage (c : Coin) : Z := DynamicUsage (scriptPubKey (out c)).

Definition set_coins (c : CCoinsViewCache V) (m : CCoinsMap) (usage : Z) : CCoinsViewCache V :=
  mkCache (base c) (hashBlock c) m (u64 usage).

(** [FetchCoin]: the iterator as the entry it points at, [None] for [end()]. *)
Definition FetchCoin (c : CCoinsViewCache V) (o : COutPoint) : option CCoinsCacheEntry * CCoinsViewCache V :=
  match cacheCoins c !! o with
  | Some e => (Some e, c)
  | None =>
      let '(r, base') := view_GetCoin (base c) o in
      match r with
      | None => (None, mkCache base' (hashBlock c) (cacheCoins c) (cachedCoinsUsage c))
      | Some tmp =>
          let ret := mkEntry tmp false (IsSpent tmp) in
          (Some ret, mkCache base' (hashBlock c) (<[o := ret]> (cacheCoins c))
                       (u64 (cachedCoinsUsage c + coin_usage tmp)))
      end
  end.

Definition GetCoin (c : CCoinsViewCache V) (o : COutPoint) : option Coin * CCoinsViewCache V :=
  let '(it, c') := FetchCoin c o in
  (match it with Some e => entry_coin e | None => None end, c').

Definition HaveCoin (c : CCoinsViewCache V) (o : COutPoint) : bool * CCoinsViewCache V :=
  let '(it, c') := FetchCoin c o in
  (match it with Some e => negb (IsSpent (coin e)) | None => false end, c').

Definition AccessCoin (c : CCoinsViewCache V) (o : COutPoint) : Coin * CCoinsViewCache V :=
  let '(it, c') := FetchCoin c o in
  (match it with Some e => coin e | None => coinEmpty end, c').

Definition HaveCoinInCache (c : CCoinsViewCache V) (o : COutPoint) : bool :=
  match cacheCoins c !! o with Some e => negb (IsSpent (coin e)) | None => false end.

Definition AddCoin (c : CCoinsViewCache V) (o : COutPoint) (cn : Coin) (possible_overwrite : bool)
    : exn_result (CCoinsViewCache V) :=
  if IsSpent cn then AssertFails
  else if IsUnspendable (scriptPubKey (out cn)) then Normal c
  else
    let found := cacheCoins c !! o in
    let e := default (mkEntry coinEmpty false false) found in
    let usage := match found with
                 | Some e => u64 (cachedCoinsUsage c - coin_usage (coin e))
                 | None => cachedCoinsUsage c
                 end in
    if negb possible_overwrite && negb (IsSpent (coin e))
    then Throws (set_coins c (<[o := e]> (cacheCoins c)) usage)
    else
      let fresh := negb possible_overwrite && negb (DIRTY e) in
      Normal (set_coins c (<[o := mkEntry cn true (FRESH e || fresh)]> (cacheCoins c))
                (usage + coin_usage cn)).

(** [SpendCoin]; [moveout] is the coin moved out, [true] the result. *)
Definition SpendCoin {A} `{AssetsCache A} (c : CCoinsViewCache V) (o : COutPoint) (assetsCache : option A)
    : bool * Coin * CCoinsViewCache V * option A :=
  let '(it, c') := FetchCoin c o in
  match it with
  | None => (false, coinEmpty, c', assetsCache)
  | Some e =>
      let tempCoin := coin e in
      let usage := cachedCoinsUsage c' - coin_usage (coin e) in
      let m := if FRESH e then delete o (cacheCoins c')
               else <[o := mkEntry coinEmpty true false]> (cacheCoins c') in
      let c'' := set_coins c' m usage in
      match assetsCache with
      | Some a =>
          if AreAssetsDeployed then
            let '(ok, a') := TrySpendCoin a o (out tempCoin) in (ok, tempCoin, c'', Some a')
          else (true, tempCoin, c'', Some a)
      | None => (true, tempCoin, c'', None)
      end
  end.

Definition GetBestBlock (c : CCoinsViewCache V) : Z * CCoinsViewCache V :=
  if hashBlock c =? 0 then
    let '(h, base') := view_GetBestBlock (base c) in
    (h, mkCache base' h (cacheCoins c) (cachedCoinsUsage c))
  else (hashBlock c, c).

Definition SetBestBlock (c : CCoinsViewCache V) (h : Z) : CCoinsViewCache V :=
  mkCache (base c) h (cacheCoins c) (cachedCoinsUsage c).

(** One entry of the loop of [BatchWrite]; [None] is the exception "FRESH
    flag misapplied". *)
Definition batch_entry (c : CCoinsViewCache V) (o : COutPoint) (it : CCoinsCacheEntry)
    : option (CCoinsViewCache V) :=
  if DIRTY it then
    match cacheCoins c !! o with
    | None =>
        if FRESH it && IsSpent (coin it) then Some c
        else Some (set_coins c (<[o := mkEntry (coin it) true (FRESH it)]> (cacheCoins c))
                     (cachedCoinsUsage c + coin_usage (coin it)))
    | Some itUs =>
        if FRESH it && negb (IsSpent (coin itUs)) then None
        else if FRESH itUs && IsSpent (coin it)
        then Some (set_coins c (delete o (cacheCoins c)) (cachedCoinsUsage c - coin_usage (coin itUs)))
        else Some (set_coins c (<[o := mkEntry (coin it) true (FRESH itUs)]> (cacheCoins c))
                     (cachedCoinsUsage c - coin_usage (coin itUs) + coin_usage (coin it)))
    end
  else Some c.

Fixpoint batch_loop (c : CCoinsViewCache V) (l : list (COutPoint * CCoinsCacheEntry))
    : option (CCoinsViewCache V) :=
  match l with
  | [] => Some c
  | (o, it) :: rest =>
      match batch_entry c o it with
      | None => None
      | Some c' => batch_loop c' rest
      end
  end.

Definition BatchWrite (c : CCoinsViewCache V) (mapCoins : CCoinsMap) (hashBlockIn : Z)
    : option (bool * CCoinsViewCache V) :=
  match batch_loop c (map_to_list mapCoins) with
  | None => None
  | Some c' => Some (true, SetBestBlock c' hashBlockIn)
  end.

Definition Flush (c : CCoinsViewCache V) : option (bool * CCoinsViewCache V) :=
  match view_BatchWrite (base c) (cacheCoins c) (hashBlock c) with
  | None => None
  | Some (fOk, base') => Some (fOk, mkCache base' (hashBlock c) ∅ 0)
  end.

Definition Uncache (c : CCoinsViewCache V) (o : COutPoint) : CCoinsViewCache V :=
  match cacheCoins c !! o with
  | Some e =>
      if negb (DIRTY e) && negb (FRESH e)
      then set_coins c (delete o (cacheCoins c)) (cachedCoinsUsage c - coin_usage (coin e))
      else c
  | None => c
  end.

Definition GetCacheSize (c : CCoinsViewCache V) : nat := size (cacheCoins c).
End Cache.

(** ** The invariant *)

(** An empty script owns no heap memory. *)
Class ScriptUsageSpec `{ScriptUsage} := DynamicUsage_nil : DynamicUsage [] = 0.

Section CacheSpec.
Context {V : Type} `{CoinsViewSpec V} `{ScriptUsageSpec} `{AssetScripts}.
Implicit Types c : CCoinsViewCache V.

(** The set of coins the cache stands for. *)
Definition cache_utxo c (o : COutPoint) : option Coin :=
  match cacheCoins c !! o with
  | Some e => entry_coin e
  | None => view_utxo (base c) o
  end.

Definition cache_best c : Z := if hashBlock c =? 0 then view_best (base c) else hashBlock c.

(** FRESH: the base has no such coin. Not DIRTY: the base agrees. *)
Definition entry_ok (utxo : COutPoint -> option Coin) (o : COutPoint) (e : CCoinsCacheEntry) : Prop :=
  (FRESH e = true -> utxo o = None) /\ (DIRTY e = false -> utxo o = entry_coin e).

Definition usage_sum (m : CCoinsMap) : Z := map_fold (fun _ e acc => coin_usage (coin e) + acc) 0 m.

Record cache_inv c : Prop := {
  inv_base : view_inv (base c);
  inv_entries : forall o e, cacheCoins c !! o = Some e -> entry_ok (view_utxo (base c)) o e;
  inv_usage : cachedCoinsUsage c = u64 (usage_sum (cacheCoins c))
}.

Lemma usage_sum_insert m o e :
  m !! o = None -> usage_sum (<[o := e]> m) = coin_usage (coin e) + usage_sum m.
Proof. intros Hm. unfold usage_sum. rewrite map_fold_insert_L; [done| |done]. intros. lia. Qed.

Lemma usage_sum_delete m o e :
  m !! o = Some e -> usage_sum (delete o m) = usage_sum m - coin_usage (coin e).
Proof. intros Hm. unfold usage_sum. rewrite (map_fold_delete_L _ _ o e m); [lia| |done]. intros. lia. Qed.

Lemma usage_sum_update m o e e' :
  m !! o = Some e ->
  usage_sum (<[o := e']> m) = usage_sum m - coin_usage (coin e) + coin_usage (coin e').
Proof.
  intros Hm. rewrite <- insert_delete_eq.
  rewrite usage_sum_insert by apply lookup_delete_eq. rewrite (usage_sum_delete m o e Hm). lia.
Qed.

Lemma usage_empty : usage_sum ∅ = 0.
Proof. apply map_fold_empty. Qed.

Lemma u64_add_l x y : u64 (u64 x + y) = u64 (x + y).
Proof. unfold u64. apply Zplus_mod_idemp_l. Qed.

Lemma u64_sub_l x y : u64 (u64 x - y) = u64 (x - y).
Proof. unfold u64. apply Zminus_mod_idemp_l. Qed.

Lemma coin_usage_empty : coin_usage coinEmpty = 0.
Proof. exact DynamicUsage_nil. Qed.

Lemma entry_coin_unspent e cn : entry_coin e = Some cn -> IsSpent cn = false.
Proof. unfold entry_coin. destruct (IsSpent (coin e)) eqn:E; [done|]. by intros [= <-]. Qed.

Lemma cache_utxo_unspent c o cn : cache_inv c -> cache_utxo c o = Some cn -> IsSpent cn = false.
Proof.
  intros Hc. unfold cache_utxo. destruct (cacheCoins c !! o) as [e|]; [apply entry_coin_unspent|].
  apply view_unspent, Hc.
Qed.

(** Replacing the base by one with the same coins. *)
Lemma cache_inv_base c base' :
  cache_inv c -> view_inv base' -> (forall o, view_utxo base' o = view_utxo (base c) o) ->
  cache_inv (mkCache base' (hashBlock c) (cacheCoins c) (cachedCoinsUsage c)).
Proof.
  intros [Hb He Hu] Hb' Heq. split; simpl; [done| |done].
  intros o e Ho. destruct (He o e Ho) as [Hfr Hdi]. split; rewrite Heq; auto.
Qed.

(** [FetchCoin] does not change the set, and finds exactly its coins. *)
Lemma FetchCoin_spec c o :
  cache_inv c ->
  let '(it, c') := FetchCoin c o in
  cache_inv c' /\ (forall o', cache_utxo c' o' = cache_utxo c o') /\ cache_best c' = cache_best c /\
  cacheCoins c' !! o = it /\ match it with Some e => entry_coin e | None => None end = cache_utxo c o.
Proof.
  intros Hc. unfold FetchCoin. destruct (cacheCoins c !! o) as [e|] eqn:Eo.
  { split; [done|]. split; [done|]. split; [done|]. split; [done|]. unfold cache_utxo. by rewrite Eo. }
  destruct (view_GetCoin_ok (base c) o (inv_base _ Hc)) as (Hr & Hi & Hu & Hbest).
  destruct (view_GetCoin (base c) o) as [r base'] eqn:Eg. simpl in *.
  assert (forall m u, cache_best (mkCache base' (hashBlock c) m u) = cache_best c) as Hb.
  { intros m u. unfold cache_best. simpl. by rewrite Hbest. }
  pose proof (cache_inv_base c base' Hc Hi Hu) as Hinv.
  destruct r as [tmp|].
  - pose proof (view_unspent _ _ _ (inv_base _ Hc) (eq_sym Hr)) as Hns. rewrite Hns.
    split; [|split; [|split; [apply Hb|split; [apply lookup_insert_eq|]]]].
    + destruct Hinv as [_ He Husage]. split; simpl in *; [done| |].
      * intros o' e' Ho'. destruct (decide (o = o')) as [<-|Hne].
        -- rewrite lookup_insert_eq in Ho'. simplify_eq. split; [done|].
           intros _. rewrite Hu, <- Hr. unfold entry_coin. simpl. by rewrite Hns.
        -- rewrite lookup_insert_ne in Ho' by done. by apply He.
      * rewrite Husage, u64_add_l, usage_sum_insert by done. f_equal. simpl. lia.
    + intros o'. unfold cache_utxo. simpl. destruct (decide (o = o')) as [<-|Hne].
      * rewrite lookup_insert_eq, Eo, <- Hr. unfold entry_coin. simpl. by rewrite Hns.
      * rewrite lookup_insert_ne by done. destruct (cacheCoins c !! o'); [done|apply Hu].
    + unfold entry_coin. simpl. rewrite Hns. unfold cache_utxo. by rewrite Eo.
  - split; [done|]. split; [|split; [apply Hb|]].
    + intros o'. unfold cache_utxo. simpl. destruct (cacheCoins c !! o'); [done|apply Hu].
    + simpl. split; [done|]. unfold cache_utxo. by rewrite Eo.
Qed.

(** Writing an entry: the new set, given that the entry is right. *)
Lemma set_entry_spec c o e usage :
  cache_inv c -> entry_ok (view_utxo (base c)) o e ->
  u64 usage = u64 (usage_sum (<[o := e]> (cacheCoins c))) ->
  let c' := set_coins c (<[o := e]> (cacheCoins c)) usage in
  cache_inv c' /\ cache_utxo c' o = entry_coin e /\
  (forall o', o' <> o -> cache_utxo c' o' = cache_utxo c o').
Proof.
  intros [Hb He Hu] Hok Hus c'. split; [split; simpl; [done| |done]|].
  - intros o' e' Ho'. destruct (decide (o = o')) as [<-|Hne].
    + rewrite lookup_insert_eq in Ho'. by simplify_eq.
    + rewrite lookup_insert_ne in Ho' by done. by apply He.
  - unfold cache_utxo. simpl. split; [by rewrite lookup_insert_eq|].
    intros o' Hne. by rewrite lookup_insert_ne by done.
Qed.

(** Erasing an entry lets the base shine through. *)
Lemma delete_entry_spec c o e usage :
  cache_inv c -> cacheCoins c !! o = Some e -> u64 usage = u64 (usage_sum (delete o (cacheCoins c))) ->
  let c' := set_coins c (delete o (cacheCoins c)) usage in
  cache_inv c' /\ cache_utxo c' o = view_utxo (base c) o /\
  (forall o', o' <> o -> cache_utxo c' o' = cache_utxo c o').
Proof.
  intros [Hb He Hu] Ho Hus c'. split; [split; simpl; [done| |done]|].
  - intros o' e' Ho'. apply lookup_delete_Some in Ho' as [_ Ho']. by apply He.
  - unfold cache_utxo. simpl. split; [by rewrite lookup_delete_eq|].
    intros o' Hne. by rewrite lookup_delete_ne by done.
Qed.

Lemma cache_best_set c m u : cache_best (set_coins c m u) = cache_best c.
Proof. done. Qed.

(** [AddCoin] stores the coin, provided [possible_overwrite] is honest. *)
Lemma AddCoin_spec c o cn overwrite :
  cache_inv c -> IsSpent cn = false -> (overwrite = true \/ cache_utxo c o = None) ->
  exists c', AddCoin c o cn overwrite = Normal c' /\ cache_inv c' /\ cache_best c' = cache_best c /\
    (forall o', cache_utxo c' o'
       = if decide (o' = o /\ IsUnspendable (scriptPubKey (out cn)) = false) then Some cn
         else cache_utxo c o').
Proof.
  intros Hc Hns Hover. unfold AddCoin. rewrite Hns.
  destruct (IsUnspendable (scriptPubKey (out cn))).
  { exists c. split; [done|]. split; [done|]. split; [done|]. intros o'. by rewrite decide_False by (by intros [_ ?]). }
  set (e := default _ (cacheCoins c !! o)).
  assert (entry_ok (view_utxo (base c)) o (mkEntry cn true
            (FRESH e || (negb overwrite && negb (DIRTY e))))) as Hok.
  { split; simpl; [|done]. intros Hfr. apply orb_true_iff in Hfr as [Hfr|Hfr].
    - unfold e in Hfr. destruct (cacheCoins c !! o) as [e0|] eqn:Eo; simpl in Hfr; [|done].
      by apply (inv_entries _ Hc o e0 Eo).
    - apply andb_true_iff in Hfr as [Hov Hdi]. apply negb_true_iff in Hov, Hdi.
      destruct Hover as [?|Hnone]; [congruence|]. unfold cache_utxo in Hnone. unfold e in Hdi.
      destruct (cacheCoins c !! o) as [e0|] eqn:Eo; [|done]. simpl in Hdi.
      destruct (inv_entries _ Hc o e0 Eo) as [_ Hd]. by rewrite Hd. }
  assert (negb overwrite && negb (IsSpent (coin e)) = false) as ->.
  { destruct Hover as [->|Hnone]; [done|]. unfold cache_utxo, e in *.
    destruct (cacheCoins c !! o) as [e0|]; simpl; [|by rewrite andb_false_r].
    unfold entry_coin in Hnone. destruct (IsSpent (coin e0)); [by rewrite andb_false_r|done]. }
  set (usage := match cacheCoins c !! o with Some _ => _ | None => _ end).
  destruct (set_entry_spec c o (mkEntry cn true (FRESH e || (negb overwrite && negb (DIRTY e))))
              (usage + coin_usage cn) Hc Hok) as (Hinv & Ho & Ho').
  { unfold usage. rewrite (inv_usage _ Hc). destruct (cacheCoins c !! o) as [e0|] eqn:Eo.
    - rewrite u64_sub_l, u64_add_l, (usage_sum_update _ o e0) by done; f_equal; simpl; lia.
    - rewrite u64_add_l, usage_sum_insert by done; f_equal; simpl; lia. }
  eexists. split; [reflexivity|]. split; [exact Hinv|]. split; [done|]. intros o'.
  destruct (decide (o' = o)) as [->|Hne].
  - rewrite decide_True by done. rewrite Ho. unfold entry_coin. simpl. by rewrite Hns.
  - rewrite decide_False by (by intros [? _]). by apply Ho'.
Qed.

(** [SpendCoin] removes the coin; it fails only when there is no entry. *)
Lemma SpendCoin_spec {A} `{AssetsCache A} c o (assets : option A) :
  cache_inv c ->
  let '(ok, moved, c', _) := SpendCoin c o assets in
  cache_inv c' /\ cache_best c' = cache_best c /\
  (forall o', cache_utxo c' o' = if decide (o' = o) then None else cache_utxo c o') /\
  (forall cn, cache_utxo c o = Some cn ->
     moved = cn /\
     ((forall a, AreAssetsDeployed = true -> fst (TrySpendCoin a o (out cn)) = true) -> ok = true)) /\
  (cache_utxo c o = None -> IsSpent moved = true).
Proof.
  intros Hc. unfold SpendCoin. pose proof (FetchCoin_spec c o Hc) as Hf.
  destruct (FetchCoin c o) as [it c1]. destruct Hf as (Hinv & Hutxo & Hbest & Hin & Hit).
  destruct it as [e|].
  2: { split; [done|]. split; [done|]. split; [|split; [by rewrite <- Hit|done]].
       intros o'. rewrite Hutxo. destruct (decide (o' = o)) as [->|]; [by rewrite <- Hit|done]. }
  set (m := if FRESH e then _ else _). set (c2 := set_coins c1 m _).
  assert (cache_inv c2 /\ cache_utxo c2 o = None /\
          (forall o', o' <> o -> cache_utxo c2 o' = cache_utxo c1 o')) as (Hinv2 & Ho & Hne).
  { unfold c2, m. destruct (FRESH e) eqn:Ef.
    - destruct (delete_entry_spec c1 o e (cachedCoinsUsage c1 - coin_usage (coin e)) Hinv Hin) as (? & Hd & ?).
      { rewrite (inv_usage _ Hinv), u64_sub_l, (usage_sum_delete _ o e Hin). done. }
      split; [done|]. split; [|done]. rewrite Hd. by apply (inv_entries _ Hinv o e Hin).
    - destruct (set_entry_spec c1 o (mkEntry coinEmpty true false)
                  (cachedCoinsUsage c1 - coin_usage (coin e)) Hinv) as (? & Hd & ?); [by split| |done].
      rewrite (inv_usage _ Hinv), u64_sub_l, (usage_sum_update _ o e _ Hin). f_equal. simpl.
      rewrite coin_usage_empty. lia. }
  assert (forall o', cache_utxo c2 o' = if decide (o' = o) then None else cache_utxo c o') as Hall.
  { intros o'. destruct (decide (o' = o)) as [->|Hn]; [done|]. by rewrite Hne, Hutxo. }
  assert (forall cn, cache_utxo c o = Some cn -> coin e = cn) as Hmoved.
  { intros cn Hcn. rewrite Hcn in Hit. unfold entry_coin in Hit. destruct (IsSpent (coin e)); congruence. }
  assert (cache_utxo c o = None -> IsSpent (coin e) = true) as Hspent.
  { intros Hn. rewrite Hn in Hit. unfold entry_coin in Hit. destruct (IsSpent (coin e)); [done|congruence]. }
  destruct assets as [a|]; [|by split; [|split; [|split; [|split; [split; auto|]]]]].
  destruct AreAssetsDeployed; [destruct (TrySpendCoin a o (out (coin e))) as [ok a'] eqn:Et|];
    (split; [done|]); (split; [done|]); (split; [done|]); (split; [|done]); intros cn Hcn;
    (split; [by auto|]); [|done].
  intros Hok. specialize (Hok a eq_refl). by rewrite <- (Hmoved cn Hcn), Et in Hok.
Qed.

Lemma Uncache_spec c o :
  cache_inv c ->
  cache_inv (Uncache c o) /\ cache_best (Uncache c o) = cache_best c /\
  (forall o', cache_utxo (Uncache c o) o' = cache_utxo c o').
Proof.
  intros Hc. unfold Uncache. destruct (cacheCoins c !! o) as [e|] eqn:Eo; [|done].
  destruct (negb (DIRTY e) && negb (FRESH e)) eqn:Ef; [|done].
  apply andb_true_iff in Ef as [Hd _]. apply negb_true_iff in Hd.
  destruct (delete_entry_spec c o e (cachedCoinsUsage c - coin_usage (coin e)) Hc Eo) as (Hinv & Ho & Hne).
  { rewrite (inv_usage _ Hc), u64_sub_l, (usage_sum_delete _ o e Eo). done. }
  split; [exact Hinv|]. split; [done|]. intros o'. destruct (decide (o' = o)) as [->|Hn]; [|by apply Hne].
  rewrite Ho. destruct (inv_entries _ Hc o e Eo) as [_ Hcl]. rewrite (Hcl Hd). unfold cache_utxo. by rewrite Eo.
Qed.

Lemma GetBestBlock_spec c :
  cache_inv c ->
  fst (GetBestBlock c) = cache_best c /\ cache_inv (snd (GetBestBlock c)) /\
  (forall o, cache_utxo (snd (GetBestBlock c)) o = cache_utxo c o) /\
  cache_best (snd (GetBestBlock c)) = cache_best c.
Proof.
  intros Hc. unfold GetBestBlock, cache_best. destruct (Z.eqb_spec (hashBlock c) 0) as [Hz|Hnz].
  - destruct (view_GetBestBlock_ok (base c) (inv_base _ Hc)) as (Hh & Hi & Hu & Hb).
    destruct (view_GetBestBlock (base c)) as [h base']. simpl in *.
    split; [done|]. split; [|split].
    + destruct (cache_inv_base c base' Hc Hi Hu) as [A1 A2 A3]. by split.
    + intros o. unfold cache_utxo. simpl. destruct (cacheCoins c !! o); [done|apply Hu].
    + destruct (Z.eqb_spec h 0); congruence.
  - simpl. destruct (Z.eqb_spec (hashBlock c) 0); done.
Qed.

(** ** Batch writes *)

Lemma batch_entry_spec c o it :
  cache_inv c -> (FRESH it = true -> cache_utxo c o = None) ->
  exists c', batch_entry c o it = Some c' /\ cache_inv c' /\
    forall o', cache_utxo c' o'
      = if decide (o' = o) then (if DIRTY it then entry_coin it else cache_utxo c o) else cache_utxo c o'.
Proof.
  intros Hc Hfresh. unfold batch_entry.
  destruct (DIRTY it); [|exists c; split; [done|]; split; [done|]; intros o';
                         by destruct (decide (o' = o)) as [->|]].
  destruct (cacheCoins c !! o) as [us|] eqn:Eo.
  - assert (FRESH it && negb (IsSpent (coin us)) = false) as ->.
    { destruct (FRESH it); [|done]. specialize (Hfresh eq_refl). unfold cache_utxo in Hfresh.
      rewrite Eo in Hfresh. unfold entry_coin in Hfresh. by destruct (IsSpent (coin us)). }
    destruct (FRESH us && IsSpent (coin it)) eqn:Ef.
    + apply andb_true_iff in Ef as [Hfu Hsp].
      destruct (delete_entry_spec c o us (cachedCoinsUsage c - coin_usage (coin us)) Hc Eo) as (Hinv & Ho & Hne).
      { rewrite (inv_usage _ Hc), u64_sub_l, (usage_sum_delete _ o us Eo). done. }
      eexists. split; [reflexivity|]. split; [exact Hinv|]. intros o'.
      destruct (decide (o' = o)) as [->|Hn]; [|by apply Hne]. rewrite Ho.
      destruct (inv_entries _ Hc o us Eo) as [Hf _]. rewrite (Hf Hfu). unfold entry_coin. by rewrite Hsp.
    + destruct (set_entry_spec c o (mkEntry (coin it) true (FRESH us))
                  (cachedCoinsUsage c - coin_usage (coin us) + coin_usage (coin it)) Hc) as (Hinv & Ho & Hne).
      { split; [|done]. simpl. intros Hfu. by apply (inv_entries _ Hc o us Eo). }
      { rewrite (inv_usage _ Hc), (usage_sum_update _ o us _ Eo). simpl.
        rewrite <- (u64_add_l (u64 _ - _)), u64_sub_l, u64_add_l. done. }
      eexists. split; [reflexivity|]. split; [exact Hinv|]. intros o'.
      destruct (decide (o' = o)) as [->|Hn]; [by rewrite Ho|by apply Hne].
  - assert (cache_utxo c o = view_utxo (base c) o) as Eu by (unfold cache_utxo; by rewrite Eo).
    destruct (FRESH it && IsSpent (coin it)) eqn:Ef.
    + apply andb_true_iff in Ef as [Hf Hs]. exists c. split; [done|]. split; [done|]. intros o'.
      destruct (decide (o' = o)) as [->|]; [|done]. rewrite (Hfresh Hf). unfold entry_coin. by rewrite Hs.
    + destruct (set_entry_spec c o (mkEntry (coin it) true (FRESH it))
                  (cachedCoinsUsage c + coin_usage (coin it)) Hc) as (Hinv & Ho & Hne).
      { split; [|done]. simpl. intros Hf. by rewrite <- Eu, (Hfresh Hf). }
      { rewrite (inv_usage _ Hc), u64_add_l, usage_sum_insert by done. f_equal; simpl; lia. }
      eexists. split; [reflexivity|]. split; [exact Hinv|]. intros o'.
      destruct (decide (o' = o)) as [->|Hn]; [by rewrite Ho|by apply Hne].
Qed.

Lemma batch_loop_spec l c :
  cache_inv c -> NoDup l.*1 -> (forall o e, (o, e) ∈ l -> FRESH e = true -> cache_utxo c o = None) ->
  exists c', batch_loop c l = Some c' /\ cache_inv c' /\
    forall o, cache_utxo c' o = batch_result (cache_utxo c) (list_to_map l) o.
Proof.
  revert c. induction l as [|[o it] l IH]; intros c Hc Hnd Hfit; cbn [batch_loop].
  { exists c. done. }
  rewrite fmap_cons in Hnd. apply NoDup_cons in Hnd as [Hnotin Hnd]. simpl in Hnotin.
  destruct (batch_entry_spec c o it Hc) as (c1 & -> & Hc1 & Hu1).
  { apply Hfit. left. }
  destruct (IH c1 Hc1 Hnd) as (c2 & E2 & Hc2 & Hu2).
  { intros o' e Hin Hf. rewrite Hu1. destruct (decide (o' = o)) as [->|].
    - exfalso. apply Hnotin. apply list_elem_of_fmap. by exists (o, e).
    - apply (Hfit o' e); [by right|done]. }
  exists c2. split; [done|]. split; [done|]. intros o'. rewrite Hu2. unfold batch_result. simpl.
  destruct (decide (o' = o)) as [->|Hne].
  - rewrite lookup_insert_eq, not_elem_of_list_to_map_1 by done. rewrite Hu1. by rewrite decide_True by done.
  - rewrite lookup_insert_ne by done. rewrite Hu1, decide_False by done. done.
Qed.

Lemma BatchWrite_spec c m h :
  cache_inv c -> batch_fits (cache_utxo c) m -> h <> 0 ->
  exists c', BatchWrite c m h = Some (true, c') /\ cache_inv c' /\ cache_best c' = h /\
    forall o, cache_utxo c' o = batch_result (cache_utxo c) m o.
Proof.
  intros Hc Hfit Hh. unfold BatchWrite.
  destruct (batch_loop_spec (map_to_list m) c Hc) as (c' & -> & [A1 A2 A3] & Hu).
  - apply NoDup_fst_map_to_list.
  - intros o e Hin. apply (Hfit o e). by apply elem_of_map_to_list.
  - exists (SetBestBlock c' h). split; [done|]. split; [by split|]. split.
    + unfold cache_best, SetBestBlock. simpl. destruct (Z.eqb_spec h 0); done.
    + intros o. rewrite <- (list_to_map_to_list m) at 1. apply Hu.
Qed.

(** A cache is itself a view. *)
#[export] Instance CCoinsViewCache_view : CoinsView (CCoinsViewCache V) := {|
  view_GetCoin := GetCoin;
  view_GetBestBlock := GetBestBlock;
  view_BatchWrite := BatchWrite
|}.

Lemma GetCoin_spec c o :
  cache_inv c ->
  fst (GetCoin c o) = cache_utxo c o /\ cache_inv (snd (GetCoin c o)) /\
  (forall o', cache_utxo (snd (GetCoin c o)) o' = cache_utxo c o') /\
  cache_best (snd (GetCoin c o)) = cache_best c.
Proof.
  intros Hc. unfold GetCoin. pose proof (FetchCoin_spec c o Hc) as Hf.
  destruct (FetchCoin c o) as [it c1]. destruct Hf as (Hinv & Hutxo & Hbest & _ & Hit). done.
Qed.

#[export] Instance CCoinsViewCache_spec : CoinsViewSpec (CCoinsViewCache V) := {|
  view_inv := cache_inv;
  view_utxo := cache_utxo;
  view_best := cache_best;
  view_unspent := fun c o cn Hc Hcn => cache_utxo_unspent c o cn Hc Hcn;
  view_GetCoin_ok := GetCoin_spec;
  view_GetBestBlock_ok := GetBestBlock_spec;
  view_BatchWrite_ok := BatchWrite_spec
|}.

(** [Flush]: the base becomes what the cache stood for. *)
Lemma Flush_spec c :
  cache_inv c -> hashBlock c <> 0 ->
  exists c', Flush c = Some (true, c') /\ cache_inv c' /\ cache_best c' = cache_best c /\
    view_best (base c') = hashBlock c /\
    (forall o, view_utxo (base c') o = cache_utxo c o) /\ (forall o, cache_utxo c' o = cache_utxo c o).
Proof.
  intros Hc Hh. unfold Flush.
  destruct (view_BatchWrite_ok (base c) (cacheCoins c) (hashBlock c) (inv_base _ Hc)) as (b' & -> & Hi & Hb & Hu);
    [|done|].
  { intros o e Ho Hf. by apply (inv_entries _ Hc o e Ho). }
  assert (forall o, view_utxo b' o = cache_utxo c o) as Hall.
  { intros o. rewrite Hu. unfold batch_result, cache_utxo. destruct (cacheCoins c !! o) as [e|] eqn:Eo; [|done].
    destruct (DIRTY e) eqn:Ed; [done|]. by apply (inv_entries _ Hc o e Eo). }
  eexists. split; [reflexivity|]. split; [|split; [|split; [done|split; [done|]]]].
  - split; simpl; [done| |by rewrite usage_empty]. intros o e. by rewrite lookup_empty.
  - unfold cache_best. simpl. destruct (Z.eqb_spec (hashBlock c) 0); done.
  - intros o. unfold cache_utxo at 1. simpl. by rewrite lookup_empty.
Qed.
End CacheSpec.
