(* ===== verification/CoinsDB.v ===== *)
(** [CCoinsViewDB] of [txdb.cpp]: the UTXO view at the bottom of the stack, on
    a key-value store whose batches are atomic (the store itself, LevelDB, is modelled by a
    map).  [BatchWrite] splits a large flush into several batches and brackets
    them with the markers [DB_HEAD_BLOCKS] and [DB_BEST_BLOCK]; the model keeps every
    state the store passes through, since the process can stop after any of
    them. *)

From stdpp Require Import prelude gmap.
From Stdlib Require Import ZArith Lia.
From S2P Require Import Prelude Transaction Coins.

Open Scope Z_scope.

(** The store: coins, [DB_BEST_BLOCK] and [DB_HEAD_BLOCKS]. *)
Record CCoinsViewDB := mkDB {
  db_coins : gmap COutPoint Coin;
  db_best : option Z;
  db_heads : option (list Z)
}.

(** The entries of a [CDBBatch]. *)
Inductive db_op : Type :=
| EraseCoin (o : COutPoint)
| WriteCoin (o : COutPoint) (c : Coin)
| EraseBest
| WriteBest (h : Z)
| EraseHeads
| WriteHeads (l : list Z).

Definition apply_op (db : CCoinsViewDB) (op : db_op) : CCoinsViewDB :=
  match op with
  | EraseCoin o => mkDB (delete o (db_coins db)) (db_best db) (db_heads db)
  | WriteCoin o c => mkDB (<[o := c]> (db_coins db)) (db_best db) (db_heads db)
  | EraseBest => mkDB (db_coins db) None (db_heads db)
  | WriteBest h => mkDB (db_coins db) (Some h) (db_heads db)
  | EraseHeads => mkDB (db_coins db) (db_best db) None
  | WriteHeads l => mkDB (db_coins db) (db_best db) (Some l)
  end.

(** [db.WriteBatch(batch)]: all entries at once, in order. *)
Definition WriteBatch (db : CCoinsViewDB) (batch : list db_op) : CCoinsViewDB :=
  foldl apply_op db batch.

Definition DB_GetCoin (db : CCoinsViewDB) (o : COutPoint) : option Coin := db_coins db !! o.
Definition DB_HaveCoin (db : CCoinsViewDB) (o : COutPoint) : bool :=
  bool_decide (is_Some (db_coins db !! o)).
Definition DB_GetBestBlock (db : CCoinsViewDB) : Z := default 0 (db_best db).
Definition DB_GetHeadBlocks (db : CCoinsViewDB) : list Z := default [] (db_heads db).

Section Batches.
(** Whether [batch.SizeEstimate() > batch_size] after the given number of
    processed entries. *)
Variable size_exceeded : nat -> bool.

(** The loop of [BatchWrite]: the pending batch, the store, and the states it
    has passed through. *)
Fixpoint coins_loop (l : list (COutPoint * CCoinsCacheEntry)) (count : nat) (batch : list db_op)
    (db : CCoinsViewDB) (trace : list CCoinsViewDB) : list db_op * CCoinsViewDB * list CCoinsViewDB :=
  match l with
  | [] => (batch, db, trace)
  | (o, e) :: rest =>
      let batch' := if DIRTY e
                    then batch ++ [if IsSpent (coin e) then EraseCoin o else WriteCoin o (coin e)]
                    else batch in
      if size_exceeded (S count)
      then let db' := WriteBatch db batch' in coins_loop rest (S count) [] db' (trace ++ [db'])
      else coins_loop rest (S count) batch' db trace
  end.

(** [BatchWrite]: the final store and the states of the store after each
    [WriteBatch]; [None] is a failed assertion. *)
Definition DB_BatchWrite (db : CCoinsViewDB) (mapCoins : CCoinsMap) (hashBlock : Z)
    : option (CCoinsViewDB * list CCoinsViewDB) :=
  if hashBlock =? 0 then None
  else
    let best := DB_GetBestBlock db in
    let old_tip :=
      if best =? 0 then
        match DB_GetHeadBlocks db with
        | [new_head; old_head] => if new_head =? hashBlock then Some old_head else None
        | _ => Some best
        end
      else Some best in
    match old_tip with
    | None => None
    | Some tip =>
        let '(batch, db', trace) :=
          coins_loop (map_to_list mapCoins) 0 [EraseBest; WriteHeads [hashBlock; tip]] db [] in
        let final := WriteBatch db' (batch ++ [EraseHeads; WriteBest hashBlock]) in
        Some (final, trace ++ [final])
    end.

#[export] Instance CCoinsViewDB_view : CoinsView CCoinsViewDB := {|
  view_GetCoin db o := (DB_GetCoin db o, db);
  view_GetBestBlock db := (DB_GetBestBlock db, db);
  view_BatchWrite db m h :=
    match DB_BatchWrite db m h with Some (db', _) => Some (true, db') | None => None end
|}.

(** ** What a flush leaves behind *)

(** A coin of the store is the old or the new one. *)
Definition old_or_new (old : CCoinsViewDB) (m : CCoinsMap) (db : CCoinsViewDB) : Prop :=
  forall o, db_coins db !! o = db_coins old !! o
            \/ db_coins db !! o = batch_result (fun o => db_coins old !! o) m o.

(** The state of the loop: the store with the pending batch applied has the
    new coins for the entries done and the old ones for the rest, and the
    markers of a transition. *)
Definition loop_state (old : CCoinsViewDB) (done : CCoinsMap) (h tip : Z) (batch : list db_op)
    (db : CCoinsViewDB) : Prop :=
  let db' := WriteBatch db batch in
  (forall o, db_coins db' !! o = batch_result (fun o => db_coins old !! o) done o) /\
  db_best db' = None /\ db_heads db' = Some [h; tip].

(** A partial write: the markers name the transition. *)
Definition partial_write (old : CCoinsViewDB) (m : CCoinsMap) (h tip : Z) (db : CCoinsViewDB) : Prop :=
  db_best db = None /\ db_heads db = Some [h; tip] /\ old_or_new old m db.

Lemma WriteBatch_app db b1 b2 : WriteBatch db (b1 ++ b2) = WriteBatch (WriteBatch db b1) b2.
Proof. apply foldl_app. Qed.

(** One entry appended to the batch. *)
Lemma loop_state_entry old m0 h tip batch db o e :
  loop_state old m0 h tip batch db -> m0 !! o = None ->
  loop_state old (<[o := e]> m0) h tip
    (if DIRTY e then batch ++ [if IsSpent (coin e) then EraseCoin o else WriteCoin o (coin e)] else batch) db.
Proof.
  intros (Hc & Hb & Hh) Hnone. unfold loop_state.
  destruct (DIRTY e) eqn:Ed.
  - rewrite WriteBatch_app. set (db1 := WriteBatch db batch) in *.
    split; [|by destruct (IsSpent (coin e))]. intros o'. unfold batch_result, entry_coin.
    destruct (decide (o' = o)) as [->|Hne].
    + rewrite lookup_insert_eq, Ed. destruct (IsSpent (coin e)); simpl;
        [apply lookup_delete_eq|apply lookup_insert_eq].
    + rewrite lookup_insert_ne by done. specialize (Hc o'). unfold batch_result, entry_coin in Hc.
      rewrite <- Hc. destruct (IsSpent (coin e)); simpl; [by rewrite lookup_delete_ne|by rewrite lookup_insert_ne].
  - split; [|done]. intros o'. rewrite Hc. unfold batch_result.
    destruct (decide (o' = o)) as [->|Hne]; [by rewrite lookup_insert_eq, Hnone, Ed|by rewrite lookup_insert_ne].
Qed.

Lemma loop_state_partial old m0 m h tip batch db :
  loop_state old m0 h tip batch db -> m0 ⊆ m -> partial_write old m h tip (WriteBatch db batch).
Proof.
  intros (Hc & Hb & Hh) Hsub. split; [done|]. split; [done|]. intros o. rewrite Hc. unfold batch_result.
  destruct (m0 !! o) as [e|] eqn:Eo; [|by left].
  rewrite (lookup_weaken _ _ _ _ Eo Hsub). destruct (DIRTY e); [by right|by left].
Qed.

Lemma coins_loop_spec old m h tip l m0 count batch db trace :
  loop_state old m0 h tip batch db -> m0 ⊆ m -> NoDup l.*1 ->
  (forall o e, (o, e) ∈ l -> m !! o = Some e /\ m0 !! o = None) ->
  (forall o e, m !! o = Some e -> m0 !! o = Some e \/ (o, e) ∈ l) ->
  Forall (partial_write old m h tip) trace ->
  exists batch' db' trace', coins_loop l count batch db trace = (batch', db', trace') /\
    loop_state old m h tip batch' db' /\ Forall (partial_write old m h tip) trace'.
Proof.
  revert m0 count batch db trace.
  induction l as [|[o e] l IH]; intros m0 count batch db trace Hs Hsub Hnd Hin Hcov Htr; cbn [coins_loop].
  { exists batch, db, trace. split; [done|]. split; [|done].
    assert (m0 = m) as <-; [|done]. apply map_eq. intros o.
    destruct (m !! o) as [e|] eqn:Em.
    - by destruct (Hcov o e Em) as [?|Hn%elem_of_nil].
    - destruct (m0 !! o) as [e|] eqn:E0; [|done]. by rewrite (lookup_weaken _ _ _ _ E0 Hsub) in Em. }
  rewrite fmap_cons in Hnd. apply NoDup_cons in Hnd as [Hnotin Hnd]. simpl in Hnotin.
  destruct (Hin o e ltac:(left)) as [Em E0].
  pose proof (loop_state_entry old m0 h tip batch db o e Hs E0) as Hs'.
  set (batch1 := if DIRTY e then _ else batch) in *.
  assert (<[o := e]> m0 ⊆ m) as Hsub' by (by apply insert_subseteq_l).
  assert (forall o' e', (o', e') ∈ l -> m !! o' = Some e' /\ <[o := e]> m0 !! o' = None) as Hin'.
  { intros o' e' Hl. destruct (Hin o' e' ltac:(by right)) as [? ?]. split; [done|].
    rewrite lookup_insert_ne; [done|]. intros ->. apply Hnotin. apply list_elem_of_fmap. by exists (o', e'). }
  assert (forall o' e', m !! o' = Some e' -> <[o := e]> m0 !! o' = Some e' \/ (o', e') ∈ l) as Hcov'.
  { intros o' e' Hm. destruct (decide (o' = o)) as [->|Hne].
    - left. rewrite lookup_insert_eq. congruence.
    - rewrite lookup_insert_ne by done. destruct (Hcov o' e' Hm) as [?|Hl]; [by left|].
      apply elem_of_cons in Hl as [[= -> ->]|Hl]; [done|by right]. }
  destruct (size_exceeded (S count)).
  - apply (IH (<[o := e]> m0)); [exact Hs'|done..|].
    apply Forall_app. split; [done|]. constructor; [|constructor].
    by apply (loop_state_partial old (<[o := e]> m0)).
  - by apply (IH (<[o := e]> m0)).
Qed.

Lemma DB_BatchWrite_spec db m h :
  h <> 0 -> db_heads db = None ->
  exists final trace, DB_BatchWrite db m h = Some (final, trace ++ [final]) /\
    (forall o, db_coins final !! o = batch_result (fun o => db_coins db !! o) m o) /\
    db_best final = Some h /\ db_heads final = None /\
    Forall (partial_write db m h (DB_GetBestBlock db)) trace.
Proof.
  intros Hh Hheads. unfold DB_BatchWrite. destruct (Z.eqb_spec h 0); [done|].
  set (tip := DB_GetBestBlock db).
  replace (if tip =? 0 then _ else _) with (Some tip)
    by (unfold DB_GetHeadBlocks; rewrite Hheads; by destruct (tip =? 0)).
  destruct (coins_loop_spec db m h tip (map_to_list m) ∅ 0 [EraseBest; WriteHeads [h; tip]] db [])
    as (batch & db' & trace & -> & (Hc & Hb & Hhd) & Htr).
  - split; [|done]. intros o. unfold batch_result. by rewrite lookup_empty.
  - apply map_empty_subseteq.
  - apply NoDup_fst_map_to_list.
  - intros o e Hin. split; [by apply elem_of_map_to_list|apply lookup_empty].
  - intros o e Hm. right. by apply elem_of_map_to_list.
  - constructor.
  - eexists _, trace. split; [reflexivity|]. rewrite WriteBatch_app. simpl. done.
Qed.

Definition DB_inv (db : CCoinsViewDB) : Prop :=
  db_heads db = None /\ forall o c, db_coins db !! o = Some c -> IsSpent c = false.

Lemma DB_BatchWrite_view db m h :
  DB_inv db -> batch_fits (fun o => db_coins db !! o) m -> h <> 0 ->
  exists db', view_BatchWrite db m h = Some (true, db') /\ DB_inv db' /\ DB_GetBestBlock db' = h /\
    forall o, db_coins db' !! o = batch_result (fun o => db_coins db !! o) m o.
Proof.
  intros [Hheads Huns] _ Hh.
  destruct (DB_BatchWrite_spec db m h Hh Hheads) as (final & trace & E & Hc & Hb & Hhd & _).
  exists final. simpl. rewrite E. split; [done|]. split; [|split; [unfold DB_GetBestBlock; by rewrite Hb|done]].
  split; [done|]. intros o c. rewrite Hc. unfold batch_result, entry_coin.
  destruct (m !! o) as [e|]; [|apply Huns]. destruct (DIRTY e); [|apply Huns].
  destruct (IsSpent (coin e)) eqn:Es; [done|]. by intros [= <-].
Qed.

#[export] Instance CCoinsViewDB_spec : CoinsViewSpec CCoinsViewDB.
Proof.
  refine {| view_inv := DB_inv; view_utxo := fun db o => db_coins db !! o; view_best := DB_GetBestBlock |}.
  - intros db o c [_ Hu]. apply Hu.
  - intros db o Hi. done.
  - intros db Hi. done.
  - exact DB_BatchWrite_view.
Defined.
End Batches.
