(* ===== verification/CoinsSpec.v ===== *)
(** The contract of the coins cache: over any backing view, a
    [CCoinsViewCache] behaves like a plain set of unspent coins.  The abstract
    machine has no cache, no flags and no lazily filled entries; a simulation
    shows that every run of the cache has the observations of the abstract run. *)

From stdpp Require Import prelude gmap.
From Stdlib Require Import ZArith Lia.
From S2P Require Import Prelude Transaction Coins CoinsDB.

Open Scope Z_scope.

(** ** Operations and observations *)

Inductive cache_op : Type :=
| OpGetCoin (o : COutPoint)
| OpHaveCoin (o : COutPoint)
| OpAccessCoin (o : COutPoint)
| OpAddCoin (o : COutPoint) (cn : Coin) (possible_overwrite : bool)
| OpSpendCoin (o : COutPoint)
| OpUncache (o : COutPoint)
| OpGetBestBlock
| OpCommit (h : Z).

Inductive obs : Type :=
| ObsCoin (c : option Coin)
| ObsBool (b : bool)
| ObsHash (h : Z)
| ObsNone.

(** The coin read through an [AccessCoin] reference or moved out by
    [SpendCoin]. *)
Definition live_coin (c : Coin) : option Coin := if IsSpent c then None else Some c.

(** An asset cache for callers that pass none. *)
#[export] Instance no_assets : AssetsCache unit := {|
  AreAssetsDeployed := false;
  TrySpendCoin a _ _ := (true, a);
  UndoAssetCoin a _ _ := (true, a);
  AddTxAssets a _ _ _ := a;
  AddOutputAssets a _ _ := a;
  RemoveTxAssets a _ := Some a
|}.

Section Runs.
Context {V : Type} `{CoinsView V} `{ScriptUsage} `{AssetScripts}.

(** [OpCommit h] is [SetBestBlock(h)] followed by [Flush()]. *)
Definition run_op (c : CCoinsViewCache V) (op : cache_op) : option (obs * CCoinsViewCache V) :=
  match op with
  | OpGetCoin o => let '(r, c') := GetCoin c o in Some (ObsCoin r, c')
  | OpHaveCoin o => let '(r, c') := HaveCoin c o in Some (ObsBool r, c')
  | OpAccessCoin o => let '(r, c') := AccessCoin c o in Some (ObsCoin (live_coin r), c')
  | OpAddCoin o cn w =>
      match AddCoin c o cn w with Normal c' => Some (ObsNone, c') | _ => None end
  | OpSpendCoin o =>
      let '(_, moved, c', _) := SpendCoin c o (@None unit) in Some (ObsCoin (live_coin moved), c')
  | OpUncache o => Some (ObsNone, Uncache c o)
  | OpGetBestBlock => let '(h, c') := GetBestBlock c in Some (ObsHash h, c')
  | OpCommit h =>
      match Flush (SetBestBlock c h) with Some (ok, c') => Some (ObsBool ok, c') | None => None end
  end.

Fixpoint run (c : CCoinsViewCache V) (ops : list cache_op) : option (list obs * CCoinsViewCache V) :=
  match ops with
  | [] => Some ([], c)
  | op :: rest =>
      match run_op c op with
      | None => None
      | Some (x, c') =>
          match run c' rest with
          | None => None
          | Some (xs, c'') => Some (x :: xs, c'')
          end
      end
  end.
End Runs.

(** ** The abstract machine *)

Record utxo_state := mkUtxo {
  coins : COutPoint -> option Coin;
  best : Z
}.

Definition upd (f : COutPoint -> option Coin) (o : COutPoint) (r : option Coin) : COutPoint -> option Coin :=
  fun o' => if decide (o' = o) then r else f o'.

Section Abstract.
Context `{AssetScripts}.

Definition spec_op (s : utxo_state) (op : cache_op) : obs * utxo_state :=
  match op with
  | OpGetCoin o => (ObsCoin (coins s o), s)
  | OpHaveCoin o => (ObsBool (bool_decide (is_Some (coins s o))), s)
  | OpAccessCoin o => (ObsCoin (coins s o), s)
  | OpAddCoin o cn _ =>
      (ObsNone, if IsUnspendable (scriptPubKey (out cn)) then s
                else mkUtxo (upd (coins s) o (Some cn)) (best s))
  | OpSpendCoin o => (ObsCoin (coins s o), mkUtxo (upd (coins s) o None) (best s))
  | OpUncache o => (ObsNone, s)
  | OpGetBestBlock => (ObsHash (best s), s)
  | OpCommit h => (ObsBool true, mkUtxo (coins s) h)
  end.

(** What the callers guarantee: coins that are added are unspent and only
    overwrite an existing coin when they say so; the best block is a block. *)
Definition op_ok (s : utxo_state) (op : cache_op) : Prop :=
  match op with
  | OpAddCoin o cn w => IsSpent cn = false /\ (w = true \/ coins s o = None)
  | OpCommit h => h <> 0
  | _ => True
  end.

Fixpoint spec_run (s : utxo_state) (ops : list cache_op) : list obs * utxo_state :=
  match ops with
  | [] => ([], s)
  | op :: rest =>
      let '(x, s') := spec_op s op in
      let '(xs, s'') := spec_run s' rest in (x :: xs, s'')
  end.

Fixpoint ops_ok (s : utxo_state) (ops : list cache_op) : Prop :=
  match ops with
  | [] => True
  | op :: rest => op_ok s op /\ ops_ok (snd (spec_op s op)) rest
  end.
End Abstract.

(** ** The simulation *)

Section Simulation.
Context {V : Type} `{CoinsViewSpec V} `{ScriptUsageSpec} `{AssetScripts}.

Definition sim (c : CCoinsViewCache V) (s : utxo_state) : Prop :=
  cache_inv c /\ (forall o, cache_utxo c o = coins s o) /\ cache_best c = best s.

Lemma sim_read c c' s :
  sim c s -> cache_inv c' -> (forall o, cache_utxo c' o = cache_utxo c o) -> cache_best c' = cache_best c ->
  sim c' s.
Proof.
  intros (Hi & Hu & Hb) Hi' Hu' Hb'. split; [done|]. split; [intros o; by rewrite Hu', Hu|congruence].
Qed.

Lemma live_entry_coin e : live_coin (coin e) = entry_coin e.
Proof. done. Qed.

Lemma run_op_sim c s op :
  sim c s -> op_ok s op ->
  exists c', run_op c op = Some (fst (spec_op s op), c') /\ sim c' (snd (spec_op s op)).
Proof.
  intros Hs Hok. pose proof Hs as (Hi & Hu & Hb). destruct op as [o|o|o|o cn w|o|o| |h]; simpl in *.
  - destruct (GetCoin_spec c o Hi) as (Er & Hi' & Hu' & Hb').
    destruct (GetCoin c o) as [r c']. simpl in *. exists c'. rewrite Er, Hu. split; [done|].
    by apply (sim_read c).
  - unfold HaveCoin. pose proof (FetchCoin_spec c o Hi) as Hf.
    destruct (FetchCoin c o) as [it c']. destruct Hf as (Hi' & Hu' & Hb' & _ & Hit).
    exists c'. split; [|by apply (sim_read c)]. rewrite <- Hu, <- Hit.
    destruct it as [e|]; [|done]. unfold entry_coin. by destruct (IsSpent (coin e)).
  - unfold AccessCoin. pose proof (FetchCoin_spec c o Hi) as Hf.
    destruct (FetchCoin c o) as [it c']. destruct Hf as (Hi' & Hu' & Hb' & _ & Hit).
    exists c'. split; [|by apply (sim_read c)]. rewrite <- Hu, <- Hit. by destruct it.
  - destruct Hok as [Hns Hw]. rewrite <- Hu in Hw.
    destruct (AddCoin_spec c o cn w Hi Hns Hw) as (c' & -> & Hi' & Hb' & Hu').
    exists c'. split; [done|]. destruct (IsUnspendable (scriptPubKey (out cn))).
    + apply (sim_read c); [done|done| |done]. intros o'. rewrite Hu'. by rewrite decide_False by (by intros [_ ?]).
    + split; [done|]. split; [|simpl; congruence]. intros o'. rewrite Hu'. simpl. unfold upd.
      destruct (decide (o' = o)) as [->|]; [by rewrite decide_True by done|].
      rewrite decide_False by (by intros [? _]). apply Hu.
  - pose proof (SpendCoin_spec c o (@None unit) Hi) as Hsp.
    destruct (SpendCoin c o None) as [[[ok moved] c'] a']. destruct Hsp as (Hi' & Hb' & Hu' & Hm & Hn).
    exists c'. split.
    + do 3 f_equal. rewrite <- Hu. unfold live_coin. destruct (cache_utxo c o) as [cn|] eqn:Eo.
      * destruct (Hm cn eq_refl) as [-> _]. by rewrite (cache_utxo_unspent c o cn Hi Eo).
      * by rewrite (Hn eq_refl).
    + split; [done|]. split; [|simpl; congruence]. intros o'. rewrite Hu'. simpl. unfold upd.
      destruct (decide (o' = o)); [done|apply Hu].
  - destruct (Uncache_spec c o Hi) as (Hi' & Hb' & Hu'). exists (Uncache c o). split; [done|].
    by apply (sim_read c).
  - destruct (GetBestBlock_spec c Hi) as (Er & Hi' & Hu' & Hb').
    destruct (GetBestBlock c) as [h c']. simpl in *. exists c'. rewrite Er, Hb. split; [done|].
    by apply (sim_read c).
  - assert (cache_inv (SetBestBlock c h)) as Hih by (destruct Hi as [A1 A2 A3]; by split).
    destruct (Flush_spec (SetBestBlock c h) Hih Hok) as (c' & -> & Hi' & Hb' & _ & _ & Hu').
    exists c'. split; [done|]. split; [done|]. split.
    + intros o. rewrite Hu'. apply Hu.
    + simpl. rewrite Hb'. unfold cache_best, SetBestBlock. simpl. by destruct (Z.eqb_spec h 0).
Qed.

Lemma run_sim c s ops :
  sim c s -> ops_ok s ops ->
  exists c', run c ops = Some (fst (spec_run s ops), c') /\ sim c' (snd (spec_run s ops)).
Proof.
  revert c s. induction ops as [|op ops IH]; intros c s Hs Hok; simpl in *; [by exists c|].
  destruct Hok as [Hop Hok]. destruct (run_op_sim c s op Hs Hop) as (c1 & E1 & Hs1).
  destruct (spec_op s op) as [x s1]. simpl in *. rewrite E1.
  destruct (IH c1 s1 Hs1 Hok) as (c2 & E2 & Hs2). rewrite E2.
  destruct (spec_run s1 ops) as [xs s2]. simpl in *. by exists c2.
Qed.
End Simulation.

(** ** Properties *)

(** [DynamicUsage] of a [CScript], a [prevector<28, unsigned char>]: up to 28 bytes are
    stored inline; more are allocated, here with the capacity that a copy or a
    deserialized script has, its size.  [MallocUsage] is that of 64-bit systems. *)
Definition MallocUsage (alloc : Z) : Z := if alloc =? 0 then 0 else Z.shiftl (Z.shiftr (alloc + 31) 4) 4.
Definition allocated_memory (s : CScript) : Z := if Z.of_nat (length s) <=? 28 then 0 else Z.of_nat (length s).
#[export] Instance prevector_usage : ScriptUsage := fun s => MallocUsage (allocated_memory s).
#[export] Instance prevector_usage_spec : ScriptUsageSpec.
Proof. reflexivity. Defined.

Lemma prevector_usage_pos s : 28 < Z.of_nat (length s) < 2 ^ 32 -> 0 < DynamicUsage s < 2 ^ 64.
Proof.
  intros Hs. unfold DynamicUsage, prevector_usage, MallocUsage, allocated_memory. rewrite (proj2 (Z.leb_gt _ _)), (proj2 (Z.eqb_neq _ _)) by lia.
  rewrite Z.shiftr_div_pow2, Z.shiftl_mul_pow2 by lia. Z.to_euclidean_division_equations. lia.
Qed.
Lemma prevector_usage_inline s : Z.of_nat (length s) <= 28 -> DynamicUsage s = 0.
Proof. intros Hs. unfold DynamicUsage, prevector_usage, allocated_memory. by rewrite (proj2 (Z.leb_le _ _)). Qed.

(** A store with one coin, below two caches. *)
#[export] Instance example_scripts : AssetScripts := fun _ => None.

Definition example_flushes : nat -> bool := fun n => Nat.even n.
#[local] Existing Instance CCoinsViewDB_view.
#[local] Existing Instance CCoinsViewDB_spec.
#[local] Instance example_db_view : CoinsView CCoinsViewDB := CCoinsViewDB_view example_flushes.
#[local] Instance example_db_spec : CoinsViewSpec CCoinsViewDB := CCoinsViewDB_spec example_flushes.

Definition example_coin (v : Z) : Coin := mkCoin (mkTxOut v [118; 169] (-10)) false 7.
Definition example_db : CCoinsViewDB := mkDB {[ (1, 0) := example_coin 50 ]} (Some 900) None.
Definition tip_cache : CCoinsViewCache CCoinsViewDB := mkCache example_db 0 ∅ 0.
Definition block_cache : CCoinsViewCache (CCoinsViewCache CCoinsViewDB) := mkCache tip_cache 0 ∅ 0.

Lemma example_db_inv : DB_inv example_db.
Proof.
  split; [done|]. intros o c. simpl. intros Hc. apply lookup_singleton_Some in Hc as [_ <-]. done.
Qed.

Lemma empty_cache_inv {V} `{CoinsViewSpec V} `{ScriptUsageSpec} (b : V) :
  view_inv b -> cache_inv (mkCache b 0 ∅ 0).
Proof.
  intros Hb. split; simpl; [done| |reflexivity]. intros o e. by rewrite lookup_empty.
Qed.

Lemma tip_cache_inv : cache_inv tip_cache.
Proof. apply empty_cache_inv, example_db_inv. Qed.

Lemma block_cache_inv : cache_inv block_cache.
Proof. apply empty_cache_inv, tip_cache_inv. Qed.

(** C1. Over any view that keeps the [CoinsView] contract, and for any sequence
    of reads, additions, spends, evictions and commits that respects the callers'
    obligations, the cache never throws or asserts, every observation equals
    that of the plain set of unspent coins, and it still represents that set afterwards.
    The cache with its flags, its lazy filling and its evictions is invisible. *)
Theorem coins_cache_refines_utxo_set {V : Type} `{CoinsViewSpec V} `{ScriptUsageSpec} `{AssetScripts}
    (c : CCoinsViewCache V) (s : utxo_state) (ops : list cache_op) :
  sim c s -> ops_ok s ops ->
  exists c', run c ops = Some (fst (spec_run s ops), c') /\ sim c' (snd (spec_run s ops)).
Proof. apply run_sim. Qed.

(** Spend the stored coin through both caches, add one, commit. *)
Definition example_ops : list cache_op :=
  [OpGetCoin (1, 0); OpSpendCoin (1, 0); OpHaveCoin (1, 0); OpAddCoin (2, 0) (example_coin 30) false;
   OpCommit 901; OpGetCoin (2, 0); OpGetCoin (1, 0)].

Lemma coins_cache_refines_utxo_set_witness :
  exists c', run block_cache example_ops
    = Some ([ObsCoin (Some (example_coin 50)); ObsCoin (Some (example_coin 50)); ObsBool false; ObsNone;
             ObsBool true; ObsCoin (Some (example_coin 30)); ObsCoin None], c').
Proof.
  destruct (coins_cache_refines_utxo_set block_cache
              (mkUtxo (fun o => if decide (o = (1, 0)) then Some (example_coin 50) else None) 900)
              example_ops) as (c' & E & _).
  - split; [exact block_cache_inv|]. split; [|reflexivity]. intros o. cbn.
    unfold example_db. simpl. destruct (decide (o = (1, 0))) as [->|Hne]; [apply lookup_singleton_eq|].
    by apply lookup_singleton_ne.
  - split; [exact I|]. split; [exact I|]. split; [exact I|]. split; [split; [reflexivity|right; reflexivity]|].
    split; [discriminate|]. done.
  - exists c'. exact E.
Defined.

(** [Flush] succeeds and pushes exactly the changes: the base view then
    represents the set the cache represented, with the cache's best block, and the
    emptied cache represents it too. *)
Theorem Flush_pushes_everything {V : Type} `{CoinsViewSpec V} `{ScriptUsageSpec} (c : CCoinsViewCache V) :
  cache_inv c -> hashBlock c <> 0 ->
  exists c', Flush c = Some (true, c') /\ cache_inv c' /\ cacheCoins c' = ∅ /\
    view_best (base c') = hashBlock c /\
    (forall o, view_utxo (base c') o = cache_utxo c o) /\ (forall o, cache_utxo c' o = cache_utxo c o).
Proof.
  intros Hc Hh. destruct (Flush_spec c Hc Hh) as (c' & E & Hi & _ & Hb & Hu & Hu').
  exists c'. split; [done|]. split; [done|]. split; [|done].
  unfold Flush in E. destruct (view_BatchWrite _ _ _) as [[ok b']|]; [|done]. by injection E as _ <-.
Qed.

Lemma Flush_pushes_everything_witness :
  exists c', Flush (SetBestBlock tip_cache 901) = Some (true, c') /\ view_utxo (base c') (1, 0) = Some (example_coin 50).
Proof.
  destruct (Flush_pushes_everything (SetBestBlock tip_cache 901)) as (c' & E & _ & _ & _ & Hu & _).
  - destruct tip_cache_inv as [A1 A2 A3]. split; [exact A1|exact A2|exact A3].
  - simpl. lia.
  - exists c'. split; [exact E|]. rewrite Hu. reflexivity.
Defined.

(** C30. However a flush is cut into batches, the store is never silently
    half-written: after every batch but the last, the best-block marker is absent and
    [DB_HEAD_BLOCKS] names the new and the old block, each coin being either the
    old or the new one; after the last batch the coins are exactly the new ones and
    the best block is the new one. *)
Theorem DB_BatchWrite_crash_consistent (size_exceeded : nat -> bool) (db : CCoinsViewDB) (m : CCoinsMap) (h : Z) :
  h <> 0 -> db_heads db = None ->
  exists final trace, DB_BatchWrite size_exceeded db m h = Some (final, trace ++ [final]) /\
    (forall o, db_coins final !! o = batch_result (fun o => db_coins db !! o) m o) /\
    db_best final = Some h /\ db_heads final = None /\
    Forall (fun d => db_best d = None /\ db_heads d = Some [h; DB_GetBestBlock db] /\
                     forall o, db_coins d !! o = db_coins db !! o \/ db_coins d !! o = db_coins final !! o) trace.
Proof.
  intros Hh Hheads.
  destruct (DB_BatchWrite_spec size_exceeded db m h Hh Hheads) as (final & trace & E & Hc & Hb & Hhd & Htr).
  exists final, trace. split; [done|]. split; [done|]. split; [done|]. split; [done|].
  eapply Forall_impl; [exact Htr|]. intros d (Hd1 & Hd2 & Hd3). split; [done|]. split; [done|].
  intros o. rewrite Hc. apply Hd3.
Qed.

Lemma DB_BatchWrite_crash_consistent_witness :
  exists final trace,
    DB_BatchWrite (fun _ => true) example_db
      {[ (1, 0) := mkEntry coinEmpty true false; (2, 0) := mkEntry (example_coin 30) true true ]} 901
    = Some (final, trace ++ [final]) /\ length trace = 2%nat.
Proof.
  destruct (DB_BatchWrite_crash_consistent (fun _ => true) example_db
              {[ (1, 0) := mkEntry coinEmpty true false; (2, 0) := mkEntry (example_coin 30) true true ]} 901)
    as (final & trace & E & _); [lia|reflexivity|].
  exists final, trace. split; [exact E|].
  match type of E with ?x = _ =>
    assert (option_map (fun p => length (snd p)) x = Some 3%nat) as E3 by by vm_compute end.
  rewrite E in E3. cbn [option_map snd] in E3. rewrite length_app in E3. cbn [length] in E3.
  injection E3 as E3. lia.
Defined.

(** C31. When [AddCoin] throws because it would replace an unspent coin, the
    set of coins is unchanged but the memory accounting need not be: the coin is still in the
    cache while its usage has been subtracted from [cachedCoinsUsage].  The account then
    differs from the usage of the cached coins exactly when the script of that coin has more
    than the 28 bytes that are stored inline. *)
Theorem AddCoin_throw_loses_usage {V : Type} `{CoinsViewSpec V} `{AssetScripts}
    (c : CCoinsViewCache V) (o : COutPoint) (e : CCoinsCacheEntry) (cn : Coin) :
  cache_inv c -> cacheCoins c !! o = Some e -> IsSpent (coin e) = false ->
  IsSpent cn = false -> IsUnspendable (scriptPubKey (out cn)) = false ->
  Z.of_nat (length (scriptPubKey (out (coin e)))) < 2 ^ 32 ->
  exists c', AddCoin c o cn false = Throws c' /\
    (forall o', cache_utxo c' o' = cache_utxo c o') /\
    cachedCoinsUsage c' = u64 (usage_sum (cacheCoins c') - coin_usage (coin e)) /\
    (cachedCoinsUsage c' <> u64 (usage_sum (cacheCoins c')) <-> 28 < Z.of_nat (length (scriptPubKey (out (coin e))))).
Proof.
  intros Hc Ho Hs Hns Hun Hlen. unfold AddCoin. rewrite Hns, Hun, Ho. simpl. rewrite Hs. simpl.
  eexists. split; [reflexivity|]. simpl. rewrite (insert_id _ _ _ Ho). split; [done|].
  assert (u64 (u64 (cachedCoinsUsage c - coin_usage (coin e))) = u64 (usage_sum (cacheCoins c) - coin_usage (coin e))) as ->.
  { rewrite (inv_usage _ Hc), u64_sub_l. unfold u64. by rewrite Z.mod_mod by lia. }
  split; [done|]. unfold coin_usage. set (s := scriptPubKey (out (coin e))) in *.
  destruct (Z.leb_spec (Z.of_nat (length s)) 28) as [Hle|Hgt].
  - rewrite prevector_usage_inline, Z.sub_0_r by done. split; [done|lia].
  - split; [done|]. intros _ E. destruct (prevector_usage_pos s ltac:(lia)) as [Hpos Hmax].
    unfold u64 in E. Z.to_euclidean_division_equations. nia.
Qed.

Definition long_script : CScript := 118 :: replicate 34 169.
Definition long_coin : Coin := mkCoin (mkTxOut 50 long_script (-10)) false 7.
Definition long_cache : CCoinsViewCache CCoinsViewDB := mkCache (mkDB {[ (1, 0) := long_coin ]} (Some 900) None) 0 ∅ 0.
Lemma long_cache_inv : cache_inv long_cache.
Proof.
  apply empty_cache_inv. split; [done|]. intros o c. simpl. intros Hc. apply lookup_singleton_Some in Hc as [_ <-]. done.
Qed.

(** A script of 35 bytes, for which 64 bytes are allocated. *)
Lemma AddCoin_throw_loses_usage_witness :
  cachedCoinsUsage (snd (GetCoin long_cache (1, 0))) = 64 /\
  exists c', AddCoin (snd (GetCoin long_cache (1, 0))) (1, 0) (example_coin 60) false = Throws c' /\
    cachedCoinsUsage c' = 0 /\ cachedCoinsUsage c' <> u64 (usage_sum (cacheCoins c')).
Proof.
  split; [by vm_compute|].
  destruct (AddCoin_throw_loses_usage (snd (GetCoin long_cache (1, 0))) (1, 0)
              (mkEntry long_coin false false) (example_coin 60)) as (c' & E & _ & _ & Hiff).
  - exact (proj1 (proj2 (GetCoin_spec long_cache (1, 0) long_cache_inv))).
  - by vm_compute.
  - reflexivity.
  - reflexivity.
  - reflexivity.
  - by vm_compute.
  - exists c'. split; [exact E|]. split; [|apply Hiff; by vm_compute].
    revert E. vm_compute. intros E. by injection E as <-.
Defined.
