(* ===== verification/TxUndo.v ===== *)
(** Applying transactions to a coins cache and undoing them again:
    [AddCoins], [AccessByTxid], [GetValueIn] and [HaveInputs] of [coins.cpp], and
    [UpdateCoins], [ApplyTxInUndo] and the transaction loops of [ConnectBlock] and
    [DisconnectBlock] ([validation.cpp]) as far as they act on the UTXO set.  What
    they do to the asset cache is modelled up to the tests on scripts and transactions
    that decide whether there is anything to do; the operations behind the tests are
    those of the [AssetOperations] interface, and may fail.  The evo database, the special transactions and the optional address and spent
    indexes are not part of the model. *)

From stdpp Require Import prelude gmap.
From Stdlib Require Import ZArith Lia.
From S2P Require Import Prelude Opcodes Transaction Script Coins CoinsDB CoinsSpec.

Open Scope Z_scope.

(** ** Operations *)

(** The size of a serialized [CTxOut()]: an amount and an empty script. *)
Definition MIN_TRANSACTION_OUTPUT_WEIGHT : Z := WITNESS_SCALE_FACTOR * (8 + 1).

Inductive DisconnectResult : Set := DISCONNECT_OK | DISCONNECT_UNCLEAN | DISCONNECT_FAILED.

(** [Coin::IsAsset] *)
Definition is_asset_script (s : CScript) : bool := bool_decide (is_Some (IsAssetScript s)).
Definition Coin_IsAsset (cn : Coin) : bool := is_asset_script (scriptPubKey (out cn)).

(** What is done to a [CAssetsCache] for the scripts that carry assets: the operations of [assets/assets.cpp] behind the tests on scripts and
    transactions that the code makes first.  The first result of a spend or an undo is [false], and the result of a removal [None], where the code reports
    an error. *)
Class AssetOperations (A : Type) := {
  assets_deployed : bool;
  restricted_assets_deployed : bool;
  (* [TrySpendCoin] and [UndoAssetCoin] for a script of an asset *)
  SpendAsset : A -> COutPoint -> CTxOut -> bool * A;
  UndoSpentAsset : A -> Coin -> COutPoint -> bool * A;
  (* [AddCoins]: issue or reissue (transaction, height, block hash), then each output *)
  AddIssue : A -> CTransaction -> Z -> Z -> A;
  AddAssetOutput : A -> CTransaction -> Z -> A;
  (* [DisconnectBlock]: issue or reissue, then transfers, then null assets, by output *)
  RemoveIssue : A -> CTransaction -> option A;
  RemoveTransferOutput : A -> CTransaction -> Z -> option A;
  RemoveNullAssetOutput : A -> CTransaction -> Z -> option A
}.

Section Assets.
Context `{AssetScripts} {A : Type} `{AssetOperations A}.

(** [CAssetsCache::TrySpendCoin]: the script that is no asset is no error. *)
Definition CAssetsCache_TrySpendCoin (a : A) (o : COutPoint) (txOut : CTxOut) : bool * A :=
  if is_asset_script (scriptPubKey txOut) then SpendAsset a o txOut else (true, a).

(** What [IsNewAsset], [IsReissueAsset], [IsNewUniqueAsset], [IsNewMsgChannelAsset], [IsNewQualifierAsset] and [IsNewRestrictedAsset] of a transaction
    all ask for first: its last output. *)
Definition may_issue (tx : CTransaction) : bool :=
  match last (vout tx) with
  | Some o => IsNewAsset (scriptPubKey o) || IsReissueAsset (scriptPubKey o)
  | None => false
  end.

(** The outputs from index [i] on of which [P] holds, one after the other. *)
Fixpoint remove_outputs (P : CScript -> bool) (remove : A -> CTransaction -> Z -> option A) (a : A) (tx : CTransaction) (outs : list CTxOut) (i : Z) : option A :=
  match outs with
  | [] => Some a
  | o :: rest =>
      a ← (if P (scriptPubKey o) then remove a tx i else Some a);
      remove_outputs P remove a tx rest (i + 1)
  end.
(** The indices collected in [vAssetTxIndex] and [vNullAssetTxIndex]. *)
Definition transfer_output (s : CScript) : bool := negb (IsUnspendable s) && IsTransferAsset s.
Definition null_asset_output (s : CScript) : bool := IsUnspendable s && IsNullAsset s && negb (IsNullAssetVerifierTxDataScript s).
Definition remove_tx_assets (a : A) (tx : CTransaction) : option A :=
  a ← (if may_issue tx then RemoveIssue a tx else Some a);
  a ← remove_outputs transfer_output RemoveTransferOutput a tx (vout tx) 0;
  if restricted_assets_deployed then remove_outputs null_asset_output RemoveNullAssetOutput a tx (vout tx) 0 else Some a.

#[export] Instance assets_cache : AssetsCache A := {|
  AreAssetsDeployed := assets_deployed;
  TrySpendCoin := CAssetsCache_TrySpendCoin;
  UndoAssetCoin := UndoSpentAsset;
  AddTxAssets a tx nHeight blockHash := if may_issue tx then AddIssue a tx nHeight blockHash else a;
  AddOutputAssets a tx i :=
    match vout tx !! Z.to_nat i with
    | Some o => if is_asset_script (scriptPubKey o) || IsNullAsset (scriptPubKey o) then AddAssetOutput a tx i else a
    | None => a
    end;
  RemoveTxAssets := remove_tx_assets
|}.
End Assets.

Section Ops.
Context {V : Type} `{CoinsView V} `{ScriptUsage} `{AssetScripts} {A : Type} `{AssetsCache A}.
Implicit Types c : CCoinsViewCache V.

(** [if (AreAssetsDeployed()) if (assetsCache) ...] *)
Definition with_assets (f : A -> A) (assets : option A) : option A :=
  if AreAssetsDeployed then option_map f assets else assets.

(** The loop of [AddCoins] over the outputs from index [i] on. *)
Fixpoint add_outputs c (tx : CTransaction) (outs : list CTxOut) (i nHeight : Z) (fCoinbase check : bool)
    (assets : option A) : option (CCoinsViewCache V * option A) :=
  match outs with
  | [] => Some (c, assets)
  | o :: rest =>
      let '(overwrite, c') := if check then HaveCoin c (txid tx, i) else (fCoinbase, c) in
      match AddCoin c' (txid tx, i) (mkCoin o fCoinbase nHeight) overwrite with
      | Normal c'' =>
          add_outputs c'' tx rest (i + 1) nHeight fCoinbase check (with_assets (fun a => AddOutputAssets a tx i) assets)
      | _ => None
      end
  end.

Definition AddCoins c (tx : CTransaction) (nHeight blockHash : Z) (check : bool) (assets : option A)
    : option (CCoinsViewCache V * option A) :=
  add_outputs c tx (vout tx) 0 nHeight (IsCoinBase tx) check
    (with_assets (fun a => AddTxAssets a tx nHeight blockHash) assets).

(** The inputs' loop of [UpdateCoins]: the coins moved out become the undo
    record; [assert(is_spent)]. *)
Fixpoint spend_inputs c (ins : list CTxIn) (assets : option A)
    : option (list Coin * CCoinsViewCache V * option A) :=
  match ins with
  | [] => Some ([], c, assets)
  | txin :: rest =>
      let '(is_spent, moved, c', assets') := SpendCoin c (prevout txin) assets in
      if is_spent then
        match spend_inputs c' rest assets' with
        | None => None
        | Some (undo, c'', assets'') => Some (moved :: undo, c'', assets'')
        end
      else None
  end.

(** [UpdateCoins]: the undo record of the transaction and the new cache. *)
Definition UpdateCoins c (tx : CTransaction) (nHeight blockHash : Z) (assets : option A)
    : option (list Coin * CCoinsViewCache V * option A) :=
  match (if IsCoinBase tx then Some ([], c, assets) else spend_inputs c (vin tx) assets) with
  | None => None
  | Some (undo, c', assets') =>
      match AddCoins c' tx nHeight blockHash false assets' with
      | None => None
      | Some (c'', assets'') => Some (undo, c'', assets'')
      end
  end.

(** [while (iter.n < GetMaxBlockWeight() / MIN_TRANSACTION_OUTPUT_WEIGHT)] *)
Fixpoint access_by_txid_loop (fuel : nat) c (hash n : Z) : Coin * CCoinsViewCache V :=
  match fuel with
  | O => (coinEmpty, c)
  | S fuel' =>
      let '(alternate, c') := AccessCoin c (hash, n) in
      if negb (IsSpent alternate) then (alternate, c')
      else access_by_txid_loop fuel' c' hash (n + 1)
  end.
Definition AccessByTxid c (hash : Z) : Coin * CCoinsViewCache V :=
  access_by_txid_loop (Z.to_nat (MAX_BLOCK_WEIGHT_RIP2 / MIN_TRANSACTION_OUTPUT_WEIGHT)) c hash 0.

(** [ApplyTxInUndo]. [None] is an exception. *)
Definition ApplyTxInUndo (undo : Coin) c (o : COutPoint) (assets : option A)
    : option (DisconnectResult * CCoinsViewCache V * option A) :=
  let '(have, c1) := HaveCoin c o in
  let fClean := negb have in
  let '(undo', c2) :=
    if coin_nHeight undo =? 0 then
      let '(alternate, c2) := AccessByTxid c1 (fst o) in
      if IsSpent alternate then (None, c2)
      else (Some (mkCoin (out undo) (fCoinBase alternate) (coin_nHeight alternate)), c2)
    else (Some undo, c1) in
  match undo' with
  | None => Some (DISCONNECT_FAILED, c2, assets)
  | Some u =>
      match AddCoin c2 o u (negb fClean) with
      | Normal c3 =>
          let '(fClean', assets') :=
            match assets with
            | Some a => if AreAssetsDeployed && Coin_IsAsset undo
                        then let '(ok, a') := UndoAssetCoin a undo o in (fClean && ok, Some a')
                        else (fClean, assets)
            | None => (fClean, assets)
            end in
          Some (if fClean' then DISCONNECT_OK else DISCONNECT_UNCLEAN, c3, assets')
      | _ => None
      end
  end.

(** The outputs' loop of [DisconnectBlock]: every spendable output is taken
    out and compared with the transaction. *)
Fixpoint disconnect_outputs c (hash : Z) (outs : list CTxOut) (i nHeight : Z) (is_coinbase : bool)
    (fClean : bool) (tempCache : option A) : bool * CCoinsViewCache V * option A :=
  match outs with
  | [] => (fClean, c, tempCache)
  | o :: rest =>
      if IsUnspendable (scriptPubKey o)
      then disconnect_outputs c hash rest (i + 1) nHeight is_coinbase fClean tempCache
      else
        let '(is_spent, cn, c', t') := SpendCoin c (hash, i) tempCache in
        let clean := if negb is_spent || negb (bool_decide (o = out cn))
                        || negb (nHeight =? coin_nHeight cn) || negb (eqb is_coinbase (fCoinBase cn))
                     then false else fClean in
        disconnect_outputs c' hash rest (i + 1) nHeight is_coinbase clean t'
  end.

(** [for (unsigned int j = tx.vin.size(); j-- > 0;)]: the pairs come last input
    first. *)
Fixpoint restore_inputs c (l : list (CTxIn * Coin)) (fClean : bool) (assets : option A)
    : option (DisconnectResult * CCoinsViewCache V * option A) :=
  match l with
  | [] => Some (if fClean then DISCONNECT_OK else DISCONNECT_UNCLEAN, c, assets)
  | (txin, undo) :: rest =>
      match ApplyTxInUndo undo c (prevout txin) assets with
      | None => None
      | Some (DISCONNECT_FAILED, c', assets') => Some (DISCONNECT_FAILED, c', assets')
      | Some (res, c', assets') =>
          restore_inputs c' rest
            (fClean && match res with DISCONNECT_OK => true | _ => false end) assets'
      end
  end.

(** One transaction of [DisconnectBlock]: the outputs, the assets, the inputs;
    [txundo] is [None] for the first transaction of the block.  [tempCache] is the
    copy of the asset cache that the spends go to. *)
Definition disconnect_tx c (tx : CTransaction) (txundo : option (list Coin))
    (nHeight : Z) (fClean : bool) (tempCache assets : option A)
    : option (DisconnectResult * CCoinsViewCache V * option A * option A) :=
  let '(clean, c', temp') :=
    disconnect_outputs c (txid tx) (vout tx) 0 nHeight (IsCoinBase tx) fClean tempCache in
  let removed :=
    match assets with
    | Some a => if AreAssetsDeployed then option_map Some (RemoveTxAssets a tx) else Some assets
    | None => Some assets
    end in
  match removed with
  | None => Some (DISCONNECT_FAILED, c', temp', assets)
  | Some assets1 =>
      match txundo with
      | None => Some (if clean then DISCONNECT_OK else DISCONNECT_UNCLEAN, c', temp', assets1)
      | Some undo =>
          if negb (length undo =? length (vin tx))%nat then Some (DISCONNECT_FAILED, c', temp', assets1)
          else match restore_inputs c' (rev (zip (vin tx) undo)) clean assets1 with
               | None => None
               | Some (res, c'', assets') => Some (res, c'', temp', assets')
               end
      end
  end.

(** The loop over the transactions, last one first. *)
Fixpoint disconnect_txs c (l : list (CTransaction * option (list Coin)))
    (nHeight : Z) (fClean : bool) (tempCache assets : option A)
    : option (DisconnectResult * CCoinsViewCache V * option A) :=
  match l with
  | [] => Some (if fClean then DISCONNECT_OK else DISCONNECT_UNCLEAN, c, assets)
  | (tx, undo) :: rest =>
      match disconnect_tx c tx undo nHeight fClean tempCache assets with
      | None => None
      | Some (DISCONNECT_FAILED, c', _, assets') => Some (DISCONNECT_FAILED, c', assets')
      | Some (res, c', temp', assets') =>
          disconnect_txs c' rest nHeight
            (match res with DISCONNECT_OK => true | _ => false end) temp' assets'
      end
  end.

(** [DisconnectBlock] on the coins and assets: [vtxundo] has one record per
    transaction but the first; the best block moves back to [hashPrev].  The asset
    cache is copied into [tempCache] through the pointer, which must not be null. *)
Definition DisconnectBlock c (vtx : list CTransaction) (vtxundo : list (list Coin))
    (nHeight hashPrev : Z) (assets : option A)
    : option (DisconnectResult * CCoinsViewCache V * option A) :=
  if negb (length vtxundo + 1 =? length vtx)%nat then Some (DISCONNECT_FAILED, c, assets)
  else if negb (bool_decide (is_Some assets)) then None
  else
    match disconnect_txs c (rev (zip vtx (None :: map Some vtxundo))) nHeight true assets assets with
    | Some (DISCONNECT_FAILED, c', assets') => Some (DISCONNECT_FAILED, c', assets')
    | Some (res, c', assets') => Some (res, SetBestBlock c' hashPrev, assets')
    | None => None
    end.

(** The transaction loop of [ConnectBlock] on the coins: the undo records of
    all transactions but the first. *)
Fixpoint connect_txs c (vtx : list CTransaction) (first : bool) (nHeight blockHash : Z) (assets : option A)
    : option (list (list Coin) * CCoinsViewCache V * option A) :=
  match vtx with
  | [] => Some ([], c, assets)
  | tx :: rest =>
      match UpdateCoins c tx nHeight blockHash assets with
      | None => None
      | Some (undo, c', assets') =>
          match connect_txs c' rest false nHeight blockHash assets' with
          | None => None
          | Some (undos, c'', assets'') =>
              Some (if first then undos else undo :: undos, c'', assets'')
          end
      end
  end.

Fixpoint GetValueIn_loop c (ins : list CTxIn) (nResult : Z) : Z * CCoinsViewCache V :=
  match ins with
  | [] => (nResult, c)
  | txin :: rest =>
      let '(cn, c') := AccessCoin c (prevout txin) in
      GetValueIn_loop c' rest (s64 (nResult + nValue (out cn)))
  end.
Definition GetValueIn c (tx : CTransaction) : Z * CCoinsViewCache V :=
  if IsCoinBase tx then (0, c) else GetValueIn_loop c (vin tx) 0.

Fixpoint HaveInputs_loop c (ins : list CTxIn) : bool * CCoinsViewCache V :=
  match ins with
  | [] => (true, c)
  | txin :: rest =>
      let '(have, c') := HaveCoin c (prevout txin) in
      if negb have then (false, c') else HaveInputs_loop c' rest
  end.
Definition HaveInputs c (tx : CTransaction) : bool * CCoinsViewCache V :=
  if IsCoinBase tx then (true, c) else HaveInputs_loop c (vin tx).
End Ops.

(** ** The same operations on the set of coins *)

Section UndoSpec.
Context {V : Type} `{CoinsViewSpec V} `{ScriptUsageSpec} `{AssetScripts} {A : Type} `{AssetOperations A}.
Implicit Types (c : CCoinsViewCache V) (U W : COutPoint -> option Coin).

(** The cache stands for the set [U]. *)
Definition represents c U : Prop := cache_inv c /\ forall o, cache_utxo c o = U o.

(** No assets in a script or a coin, as long as assets are deployed. *)
Definition plain_script (s : CScript) : Prop := assets_deployed = true -> is_asset_script s = false /\ IsNullAsset s = false.
Definition plain_coin (cn : Coin) : Prop := plain_script (scriptPubKey (out cn)).

Lemma represents_ext c U W : (forall o, U o = W o) -> represents c U -> represents c W.
Proof. intros HUW [Hi Hu]. split; [done|]. intros o. by rewrite Hu. Qed.

Lemma SpendCoin_present c U o cn (assets : option A) :
  represents c U -> U o = Some cn ->
  exists ok c' assets', SpendCoin c o assets = (ok, cn, c', assets') /\ represents c' (upd U o None) /\ (plain_coin cn -> ok = true).
Proof.
  intros [Hi Hu] Ho. pose proof (SpendCoin_spec c o assets Hi) as Hs.
  destruct (SpendCoin c o assets) as [[[ok moved] c'] a'].
  destruct Hs as (Hi' & _ & Hu' & Hm & _). rewrite Hu in Hm. destruct (Hm cn Ho) as [-> Hok].
  exists ok, c', a'. split; [done|]. split; [split; [done|]|].
  - intros o'. rewrite Hu'. unfold upd. destruct (decide (o' = o)); [done|apply Hu].
  - intros Hp. apply Hok. intros a Ha. cbn. unfold CAssetsCache_TrySpendCoin. by rewrite (proj1 (Hp Ha)).
Qed.

Lemma AddCoin_represents c U o cn overwrite :
  represents c U -> IsSpent cn = false -> (overwrite = true \/ U o = None) ->
  IsUnspendable (scriptPubKey (out cn)) = false ->
  exists c', AddCoin c o cn overwrite = Normal c' /\ represents c' (upd U o (Some cn)).
Proof.
  intros [Hi Hu] Hns Hw Hun. rewrite <- Hu in Hw.
  destruct (AddCoin_spec c o cn overwrite Hi Hns Hw) as (c' & E & Hi' & _ & Hu').
  exists c'. split; [done|]. split; [done|]. intros o'. rewrite Hu', Hun. unfold upd.
  destruct (decide (o' = o)) as [->|]; [by rewrite decide_True by done|].
  rewrite decide_False by (by intros [? _]). apply Hu.
Qed.

Definition prevouts (ins : list CTxIn) : list COutPoint := map prevout ins.

(** The coins without the given inputs. *)
Definition without U (ins : list CTxIn) : COutPoint -> option Coin :=
  fun o => if decide (o ∈ prevouts ins) then None else U o.

Lemma without_cons U i ins o : without (upd U (prevout i) None) ins o = without U (i :: ins) o.
Proof.
  unfold without, upd. simpl. destruct (decide (o = prevout i)) as [->|Hne].
  - rewrite (decide_True (P := prevout i ∈ prevout i :: prevouts ins)) by left.
    by destruct (decide (prevout i ∈ prevouts ins)).
  - destruct (decide (o ∈ prevouts ins)) as [Hin|Hnin]; [by rewrite decide_True by (by right)|].
    rewrite decide_False; [done|]. intros [?|?]%elem_of_cons; done.
Qed.

(** The coins the inputs name have no assets. *)
Definition plain_inputs U (ins : list CTxIn) : Prop := Forall (fun i => forall cn, U (prevout i) = Some cn -> plain_coin cn) ins.

Lemma spend_inputs_spec ins c U (assets : option A) :
  represents c U -> NoDup (prevouts ins) ->
  Forall (fun i => is_Some (U (prevout i))) ins ->
  match spend_inputs c ins assets with
  | Some (undo, c', _) => represents c' (without U ins) /\ Forall2 (fun i cn => U (prevout i) = Some cn) ins undo
  | None => ~ plain_inputs U ins
  end.
Proof.
  revert c U assets. induction ins as [|i ins IH]; intros c U assets Hr Hnd Hall; cbn [spend_inputs].
  { split; [|constructor]. eapply represents_ext; [|exact Hr]. intros o.
    unfold without. by rewrite decide_False by apply not_elem_of_nil. }
  simpl in Hnd. apply NoDup_cons in Hnd as [Hnin Hnd]. apply Forall_cons in Hall as [[cn Hcn] Hall].
  destruct (SpendCoin_present c U (prevout i) cn assets Hr Hcn) as (ok & c1 & a1 & -> & Hr1 & Hok).
  destruct ok; [|intros [Hp _]%Forall_cons; by discriminate (Hok (Hp cn Hcn))].
  assert (Hne : forall j, j ∈ ins -> upd U (prevout i) None (prevout j) = U (prevout j)).
  { intros j Hj. unfold upd. rewrite decide_False; [done|]. intros E. apply Hnin. rewrite <- E. apply list_elem_of_fmap. by exists j. }
  assert (Hall1 : Forall (fun j => is_Some (upd U (prevout i) None (prevout j))) ins).
  { apply Forall_forall. intros j Hj. rewrite Forall_forall in Hall. rewrite Hne by done. by apply Hall. }
  specialize (IH c1 _ a1 Hr1 Hnd Hall1). destruct (spend_inputs c1 ins a1) as [[[undo c2] a2]|].
  - destruct IH as [Hr2 Hf2]. split.
    + eapply represents_ext; [|exact Hr2]. intros o. apply without_cons.
    + constructor; [done|]. eapply Forall2_impl; [exact Hf2|]. intros j d Hd. unfold upd in Hd.
      by destruct (decide (prevout j = prevout i)).
  - intros [_ Hp]%Forall_cons. apply IH. apply Forall_forall. intros j Hj d. rewrite Hne by done.
    rewrite Forall_forall in Hp. by apply Hp.
Qed.

(** The spendable output of [outs], numbered from [i], that [o] names. *)
Definition created (hash : Z) (outs : list CTxOut) (i : Z) (o : COutPoint) : option CTxOut :=
  if (fst o =? hash) && (i <=? snd o) then
    match outs !! Z.to_nat (snd o - i) with
    | Some x => if IsUnspendable (scriptPubKey x) then None else Some x
    | None => None
    end
  else None.

Lemma created_nil hash i o : created hash [] i o = None.
Proof. unfold created. by destruct (_ && _). Qed.

Lemma created_cons hash x outs i o :
  created hash (x :: outs) i o
  = if decide (o = (hash, i)) then (if IsUnspendable (scriptPubKey x) then None else Some x)
    else created hash outs (i + 1) o.
Proof.
  unfold created. destruct o as [h n]. simpl.
  destruct (decide ((h, n) = (hash, i))) as [[= -> ->]|Hne].
  - rewrite Z.eqb_refl, Z.leb_refl, Z.sub_diag. done.
  - destruct (Z.eqb_spec h hash) as [->|]; [|done]. simpl.
    destruct (Z.leb_spec i n), (Z.leb_spec (i + 1) n); try done; try lia.
    + replace (Z.to_nat (n - i)) with (S (Z.to_nat (n - (i + 1)))) by lia. done.
    + exfalso. apply Hne. f_equal. lia.
Qed.

Lemma created_before hash outs i n : n < i -> created hash outs i (hash, n) = None.
Proof.
  intros Hn. unfold created. simpl. rewrite Z.eqb_refl. destruct (Z.leb_spec i n); [lia|done].
Qed.

(** The coins with the outputs added. *)
Definition with_outputs U (hash : Z) (outs : list CTxOut) (i nHeight : Z) (cb : bool) : COutPoint -> option Coin :=
  fun o => match created hash outs i o with
           | Some x => Some (mkCoin x cb nHeight)
           | None => U o
           end.

Lemma add_outputs_spec outs c U tx i nHeight cb (assets : option A) :
  represents c U -> Forall (fun x => nValue x <> -1) outs ->
  (forall o, created (txid tx) outs i o <> None -> U o = None) ->
  exists c' assets', add_outputs c tx outs i nHeight cb false assets = Some (c', assets') /\
    represents c' (with_outputs U (txid tx) outs i nHeight cb).
Proof.
  set (hash := txid tx).
  revert c U i assets. induction outs as [|x outs IH]; intros c U i assets Hr Hval Hfresh; cbn [add_outputs].
  { exists c, assets. split; [done|]. eapply represents_ext; [|exact Hr]. intros o. unfold with_outputs.
    by rewrite created_nil. }
  apply Forall_cons in Hval as [Hx Hval].
  assert (IsSpent (mkCoin x cb nHeight) = false) as Hns.
  { unfold IsSpent, TxOut_IsNull. simpl. by apply Z.eqb_neq. }
  destruct (IsUnspendable (scriptPubKey x)) eqn:Eun.
  - fold hash. unfold AddCoin. rewrite Hns. simpl. rewrite Eun.
    destruct (IH c U (i + 1) (with_assets (fun a => AddOutputAssets a tx i) assets) Hr Hval) as (c2 & a2 & E2 & Hr2).
    { intros o Ho. apply Hfresh. rewrite created_cons, Eun. destruct (decide (o = (hash, i))) as [->|]; [|done].
      rewrite created_before in Ho by lia. done. }
    exists c2, a2. split; [done|]. eapply represents_ext; [|exact Hr2]. intros o. unfold with_outputs.
    rewrite created_cons, Eun. destruct (decide (o = (hash, i))) as [->|]; [|done].
    by rewrite created_before by lia.
  - fold hash. destruct (AddCoin_represents c U (hash, i) (mkCoin x cb nHeight) cb Hr Hns) as (c1 & -> & Hr1); [|done|].
    { right. apply Hfresh. rewrite created_cons, decide_True by done. by rewrite Eun. }
    destruct (IH c1 _ (i + 1) (with_assets (fun a => AddOutputAssets a tx i) assets) Hr1 Hval) as (c2 & a2 & E2 & Hr2).
    { intros o Ho. unfold upd. destruct (decide (o = (hash, i))) as [->|Hne].
      - rewrite created_before in Ho by lia. done.
      - apply Hfresh. by rewrite created_cons, decide_False. }
    exists c2, a2. split; [done|]. eapply represents_ext; [|exact Hr2]. intros o. unfold with_outputs, upd.
    rewrite created_cons, Eun. destruct (decide (o = (hash, i))) as [->|]; [|done].
    by rewrite created_before by lia.
Qed.

(** ** Undoing *)

Lemma disconnect_outputs_spec outs c W hash i nHeight cb clean (temp : option A) :
  represents c W ->
  (forall o x, created hash outs i o = Some x -> W o = Some (mkCoin x cb nHeight)) ->
  exists clean' c' temp', disconnect_outputs c hash outs i nHeight cb clean temp = (clean', c', temp') /\
    represents c' (fun o => match created hash outs i o with Some _ => None | None => W o end) /\
    (Forall (fun x => plain_script (scriptPubKey x)) outs -> clean' = clean).
Proof.
  revert c W i clean temp. induction outs as [|x outs IH]; intros c W i clean temp Hr HW; cbn [disconnect_outputs].
  { exists clean, c, temp. split; [done|]. split; [|done]. eapply represents_ext; [|exact Hr]. intros o. by rewrite created_nil. }
  destruct (IsUnspendable (scriptPubKey x)) eqn:Eun.
  - destruct (IH c W (i + 1) clean temp Hr) as (cl & c' & t' & E & Hr' & Hcl).
    { intros o y Ho. apply HW. rewrite created_cons, Eun.
      destruct (decide (o = (hash, i))) as [->|]; [|done]. by rewrite created_before in Ho by lia. }
    exists cl, c', t'. split; [done|]. split; [|by intros [_ ?]%Forall_cons; apply Hcl]. eapply represents_ext; [|exact Hr']. intros o. simpl.
    rewrite created_cons, Eun. destruct (decide (o = (hash, i))) as [->|]; [|done].
    by rewrite created_before by lia.
  - assert (W (hash, i) = Some (mkCoin x cb nHeight)) as Hx.
    { apply HW. by rewrite created_cons, decide_True, Eun. }
    destruct (SpendCoin_present c W (hash, i) _ temp Hr Hx) as (ok & c1 & t1 & -> & Hr1 & Hok).
    destruct (IH c1 _ (i + 1) (ok && clean) t1 Hr1) as (cl & c' & t' & E & Hr' & Hcl).
    { intros o y Ho. unfold upd. destruct (decide (o = (hash, i))) as [->|Hne].
      - by rewrite created_before in Ho by lia.
      - apply HW. by rewrite created_cons, decide_False. }
    exists cl, c', t'. split; [|split].
    + rewrite bool_decide_eq_true_2 by done. cbn [negb orb coin_nHeight fCoinBase]. rewrite Z.eqb_refl, eqb_reflx. cbn [negb]. rewrite !orb_false_r.
      by destruct ok.
    + eapply represents_ext; [|exact Hr']. intros o. simpl.
      rewrite created_cons, Eun. unfold upd. destruct (decide (o = (hash, i))) as [->|]; [|done].
      by rewrite created_before by lia.
    + intros [Hp Hps]%Forall_cons. rewrite (Hcl Hps). by rewrite (Hok Hp).
Qed.

(** A coin as it is kept in the set: unspent, spendable, with a height. *)
Definition coin_ok (cn : Coin) : Prop :=
  IsSpent cn = false /\ coin_nHeight cn <> 0 /\ IsUnspendable (scriptPubKey (out cn)) = false.

Lemma HaveCoin_represents c U o :
  represents c U -> exists c', HaveCoin c o = (bool_decide (is_Some (U o)), c') /\ represents c' U.
Proof.
  intros [Hi Hu]. unfold HaveCoin. pose proof (FetchCoin_spec c o Hi) as Hf.
  destruct (FetchCoin c o) as [it c']. destruct Hf as (Hi' & Hu' & _ & _ & Hit).
  exists c'. split; [|split; [done|]; intros o'; by rewrite Hu', Hu].
  f_equal. rewrite <- Hu, <- Hit. destruct it as [e|]; [|done]. unfold entry_coin. by destruct (IsSpent (coin e)).
Qed.

Lemma ApplyTxInUndo_spec c W o cn (assets : option A) :
  represents c W -> W o = None -> coin_ok cn ->
  exists res c' assets', ApplyTxInUndo cn c o assets = Some (res, c', assets') /\ res <> DISCONNECT_FAILED /\
    represents c' (upd W o (Some cn)) /\ (plain_coin cn -> res = DISCONNECT_OK).
Proof.
  intros Hr Ho (Hns & Hh & Hun). unfold ApplyTxInUndo.
  destruct (HaveCoin_represents c W o Hr) as (c1 & -> & Hr1). rewrite Ho. simpl.
  destruct (Z.eqb_spec (coin_nHeight cn) 0); [done|].
  destruct (AddCoin_represents c1 W o cn false Hr1 Hns) as (c2 & -> & Hr2); [by right|done|].
  destruct assets as [a|]; [|by exists DISCONNECT_OK, c2, None].
  destruct assets_deployed eqn:Ed; [|by exists DISCONNECT_OK, c2, (Some a)].
  cbn [andb]. destruct (Coin_IsAsset cn) eqn:Ea; [|by exists DISCONNECT_OK, c2, (Some a)].
  destruct (UndoSpentAsset a cn o) as [ok a']. exists (if ok then DISCONNECT_OK else DISCONNECT_UNCLEAN), c2, (Some a').
  split; [done|]. split; [by destruct ok|]. split; [done|]. intros Hp. unfold Coin_IsAsset in Ea. by rewrite (proj1 (Hp Ed)) in Ea.
Qed.

(** The coins after the pairs have been put back, first pair first. *)
Fixpoint restored W (l : list (CTxIn * Coin)) : COutPoint -> option Coin :=
  match l with
  | [] => W
  | (i, cn) :: rest => restored (upd W (prevout i) (Some cn)) rest
  end.

Lemma restore_inputs_spec l c W clean (assets : option A) :
  represents c W -> NoDup (prevouts l.*1) ->
  Forall (fun p => W (prevout (fst p)) = None /\ coin_ok (snd p)) l ->
  exists res c' assets', restore_inputs c l clean assets = Some (res, c', assets') /\ res <> DISCONNECT_FAILED /\
    represents c' (restored W l) /\
    (Forall (fun p => plain_coin (snd p)) l -> res = if clean then DISCONNECT_OK else DISCONNECT_UNCLEAN).
Proof.
  revert c W clean assets.
  induction l as [|[i cn] l IH]; intros c W clean assets Hr Hnd Hall; cbn [restore_inputs];
    [exists (if clean then DISCONNECT_OK else DISCONNECT_UNCLEAN), c, assets; by destruct clean|].
  apply NoDup_cons in Hnd as [Hnin Hnd]. apply Forall_cons in Hall as [[HW Hcn] Hall].
  simpl in HW, Hcn.
  destruct (ApplyTxInUndo_spec c W (prevout i) cn assets Hr HW Hcn) as (res & c1 & a1 & -> & Hnf & Hr1 & Hp).
  set (clean1 := clean && match res with DISCONNECT_OK => true | _ => false end).
  destruct (IH c1 _ clean1 a1 Hr1 Hnd) as (res' & c2 & a2 & E & Hnf' & Hr2 & Hp').
  { apply Forall_forall. intros [j d] Hj. rewrite Forall_forall in Hall. destruct (Hall _ Hj) as [HWj Hd].
    split; [|done]. simpl in *. unfold upd. rewrite decide_False; [done|].
    intros E. apply Hnin. simpl. rewrite <- E. apply list_elem_of_fmap. exists j. split; [done|].
    apply list_elem_of_fmap. by exists (j, d). }
  exists res', c2, a2. split; [by destruct res|]. split; [done|]. split; [done|].
  intros [Hp1 Hps]%Forall_cons. rewrite (Hp' Hps). unfold clean1. by rewrite (Hp Hp1), andb_true_r.
Qed.

Lemma restored_other W l o : o ∉ prevouts l.*1 -> restored W l o = W o.
Proof.
  revert W. induction l as [|[i cn] l IH]; intros W Hn; [done|]. simpl in *.
  apply not_elem_of_cons in Hn as [Hne Hn]. rewrite IH by done. unfold upd. by rewrite decide_False.
Qed.

Lemma restored_in W l i cn :
  NoDup (prevouts l.*1) -> (i, cn) ∈ l -> restored W l (prevout i) = Some cn.
Proof.
  revert W. induction l as [|[j d] l IH]; intros W Hnd Hin; [by apply elem_of_nil in Hin|].
  apply NoDup_cons in Hnd as [Hnin Hnd]. apply elem_of_cons in Hin as [[= -> ->]|Hin]; simpl.
  - rewrite restored_other by done. unfold upd. by rewrite decide_True.
  - by apply IH.
Qed.

(** ** One transaction *)

(** What the checks before [UpdateCoins] establish: distinct, existing
    inputs, outputs with real values, and no live coin under the same name (BIP30). *)
Definition tx_ok U (tx : CTransaction) : Prop :=
  (IsCoinBase tx = false ->
   NoDup (prevouts (vin tx)) /\ Forall (fun i => is_Some (U (prevout i))) (vin tx)) /\
  Forall (fun x => nValue x <> -1) (vout tx) /\
  (forall o, created (txid tx) (vout tx) 0 o <> None -> U o = None).

Definition without_inputs U (tx : CTransaction) : COutPoint -> option Coin :=
  if IsCoinBase tx then U else without U (vin tx).

Definition after_tx U (tx : CTransaction) (nHeight : Z) : COutPoint -> option Coin :=
  with_outputs (without_inputs U tx) (txid tx) (vout tx) 0 nHeight (IsCoinBase tx).

Definition utxo_ok U : Prop := forall o cn, U o = Some cn -> coin_ok cn.

Lemma without_inputs_None U tx o : U o = None -> without_inputs U tx o = None.
Proof.
  intros Ho. unfold without_inputs, without. destruct (IsCoinBase tx); [done|].
  by destruct (decide (o ∈ prevouts (vin tx))).
Qed.

Lemma without_inputs_Some U tx o cn : without_inputs U tx o = Some cn -> U o = Some cn.
Proof.
  unfold without_inputs, without. destruct (IsCoinBase tx); [done|].
  by destruct (decide (o ∈ prevouts (vin tx))).
Qed.

(** A transaction that has nothing to do with assets: neither the coins it spends nor its outputs. *)
Definition plain_tx U (tx : CTransaction) : Prop :=
  (IsCoinBase tx = false -> plain_inputs U (vin tx)) /\ Forall (fun x => plain_script (scriptPubKey x)) (vout tx).

Lemma UpdateCoins_spec c U tx nHeight blockHash (assets : option A) :
  represents c U -> tx_ok U tx ->
  match UpdateCoins c tx nHeight blockHash assets with
  | Some (undo, c', _) =>
      represents c' (after_tx U tx nHeight) /\
      (IsCoinBase tx = false -> Forall2 (fun i cn => U (prevout i) = Some cn) (vin tx) undo)
  | None => ~ plain_tx U tx
  end.
Proof.
  intros Hr (Hin & Hval & Hfresh). unfold UpdateCoins, AddCoins, after_tx.
  assert (match (if IsCoinBase tx then Some ([], c, assets) else spend_inputs c (vin tx) assets) with
          | Some (undo, c1, a1) => represents c1 (without_inputs U tx) /\
              (IsCoinBase tx = false -> Forall2 (fun i cn => U (prevout i) = Some cn) (vin tx) undo)
          | None => ~ plain_tx U tx
          end) as Hsp.
  { unfold without_inputs, plain_tx. destruct (IsCoinBase tx); [done|]. destruct (Hin eq_refl) as [Hnd Hall].
    pose proof (spend_inputs_spec (vin tx) c U assets Hr Hnd Hall) as Hs.
    destruct (spend_inputs c (vin tx) assets) as [[[undo c1] a1]|]; [tauto|]. intros [Hp _]. by apply Hs, Hp. }
  destruct (if IsCoinBase tx then _ else _) as [[[undo c1] a1]|]; [|done]. destruct Hsp as [Hr1 Hundo].
  destruct (add_outputs_spec (vout tx) c1 _ tx 0 nHeight (IsCoinBase tx)
              (with_assets (fun a => AddTxAssets a tx nHeight blockHash) a1) Hr1 Hval) as (c2 & a2 & -> & Hr2); [|done].
  intros o Ho. by apply without_inputs_None, Hfresh.
Qed.

Lemma after_tx_ok U tx nHeight : utxo_ok U -> tx_ok U tx -> nHeight <> 0 -> utxo_ok (after_tx U tx nHeight).
Proof.
  intros HU (_ & Hval & _) Hh o cn. unfold after_tx, with_outputs.
  destruct (created (txid tx) (vout tx) 0 o) as [x|] eqn:Ex.
  - intros [= <-]. unfold created in Ex. destruct (_ && _); [|done].
    destruct (vout tx !! Z.to_nat (snd o - 0)) as [y|] eqn:Ey; [|done].
    destruct (IsUnspendable (scriptPubKey y)) eqn:Eun; [done|]. injection Ex as ->.
    split; [|done]. unfold IsSpent, TxOut_IsNull. simpl. apply Z.eqb_neq.
    rewrite Forall_lookup in Hval. by eapply Hval.
  - intros Hw. eapply HU, without_inputs_Some, Hw.
Qed.

Lemma zip_rev_fst {B} (l : list CTxIn) (k : list B) : length l = length k -> (rev (zip l k)).*1 = rev l.
Proof.
  intros Hl. change ((rev (zip l k)).*1) with (map fst (rev (zip l k))). rewrite map_rev.
  f_equal. apply fst_zip. lia.
Qed.

Lemma elem_of_rev {B} (x : B) l : x ∈ rev l <-> x ∈ l.
Proof. rewrite !list_elem_of_In. symmetry. apply in_rev. Qed.

Lemma prevouts_rev l : NoDup (prevouts l) -> NoDup (prevouts (rev l)).
Proof. unfold prevouts. rewrite map_rev, !NoDup_ListNoDup. apply NoDup_rev. Qed.

(** Putting the inputs back gives the set from before. *)
Lemma restored_inputs U tx undo : IsCoinBase tx = false -> NoDup (prevouts (vin tx)) ->
  Forall2 (fun i cn => U (prevout i) = Some cn) (vin tx) undo ->
  forall o, restored (without_inputs U tx) (rev (zip (vin tx) undo)) o = U o.
Proof.
  intros Hcb Hnd Hf o. pose proof (Forall2_length _ _ _ Hf) as Hlen.
  destruct (decide (o ∈ prevouts (vin tx))) as [Hino|Hnin].
  - apply list_elem_of_fmap in Hino as (i & -> & Hi). apply list_elem_of_lookup_1 in Hi as [k Hk].
    destruct (Forall2_lookup_l _ _ _ _ _ Hf Hk) as (cn & Hcn & HUi). rewrite HUi.
    apply restored_in; [rewrite zip_rev_fst by done; by apply prevouts_rev|].
    apply elem_of_rev. apply elem_of_lookup_zip_with. by exists k, i, cn.
  - rewrite restored_other.
    + unfold without_inputs. rewrite Hcb. unfold without. by rewrite decide_False.
    + rewrite zip_rev_fst by done. unfold prevouts. rewrite map_rev. by rewrite elem_of_rev.
Qed.

Lemma remove_outputs_plain P (remove : A -> CTransaction -> Z -> option A) a tx outs i :
  Forall (fun x => P (scriptPubKey x) = false) outs -> remove_outputs P remove a tx outs i = Some a.
Proof. intros Hf. revert i. induction Hf as [|x outs Hx Hf IH]; intros i; cbn [remove_outputs]; [done|]. rewrite Hx. apply IH. Qed.

(** The tests of the code find nothing in a transaction without asset outputs. *)
Lemma remove_tx_assets_plain (a : A) tx :
  assets_deployed = true -> Forall (fun x => plain_script (scriptPubKey x)) (vout tx) -> remove_tx_assets a tx = Some a.
Proof.
  intros Hd Hf.
  assert (Hno : forall x, x ∈ vout tx -> IsAssetScript (scriptPubKey x) = None /\ IsNullAsset (scriptPubKey x) = false).
  { intros x Hx. rewrite Forall_forall in Hf. destruct (Hf x Hx Hd) as [Ha Hn]. split; [|done].
    unfold is_asset_script in Ha. apply bool_decide_eq_false in Ha. by apply eq_None_not_Some. }
  unfold remove_tx_assets.
  assert (may_issue tx = false) as ->.
  { unfold may_issue. destruct (last (vout tx)) as [x|] eqn:E; [|done]. apply last_Some_elem_of in E.
    unfold IsNewAsset, IsReissueAsset. by rewrite (proj1 (Hno x E)). }
  cbn [mbind option_bind]. rewrite remove_outputs_plain.
  2: { apply Forall_forall. intros x Hx. unfold transfer_output, IsTransferAsset. rewrite (proj1 (Hno x Hx)). apply andb_false_r. }
  cbn [mbind option_bind]. destruct restricted_assets_deployed; [|done]. apply remove_outputs_plain, Forall_forall. intros x Hx.
  unfold null_asset_output. by rewrite (proj2 (Hno x Hx)), andb_false_r.
Qed.

(** Undoing a transaction gives back the set before it, unless the assets of its outputs cannot be removed. *)
Lemma disconnect_tx_spec c U tx txundo nHeight clean (temp assets : option A) :
  represents c (after_tx U tx nHeight) -> utxo_ok U -> tx_ok U tx ->
  match txundo with
  | None => IsCoinBase tx = true
  | Some undo => IsCoinBase tx = false /\ Forall2 (fun i cn => U (prevout i) = Some cn) (vin tx) undo
  end ->
  exists res c' temp' assets', disconnect_tx c tx txundo nHeight clean temp assets = Some (res, c', temp', assets') /\
    (res <> DISCONNECT_FAILED -> represents c' U) /\
    (plain_tx U tx -> res = if clean then DISCONNECT_OK else DISCONNECT_UNCLEAN).
Proof.
  intros Hr HU (Hin & Hval & Hfresh) Hundo. unfold disconnect_tx.
  destruct (disconnect_outputs_spec (vout tx) c _ (txid tx) 0 nHeight (IsCoinBase tx) clean temp Hr)
    as (clean1 & c1 & t1 & -> & Hr1 & Hcl).
  { intros o x Ho. unfold after_tx, with_outputs. by rewrite Ho. }
  assert (represents c1 (without_inputs U tx)) as Hr2.
  { eapply represents_ext; [|exact Hr1]. intros o. simpl. unfold after_tx, with_outputs.
    destruct (created (txid tx) (vout tx) 0 o) eqn:Eo; [|done].
    symmetry. apply without_inputs_None, Hfresh. congruence. }
  assert (plain_tx U tx -> match assets with
                           | Some a => if AreAssetsDeployed (A := A) then option_map Some (RemoveTxAssets a tx) else Some assets
                           | None => Some assets
                           end = Some assets) as Hrem.
  { intros [_ Hp]. destruct assets as [a|]; [|done]. change (AreAssetsDeployed (A := A)) with assets_deployed. change (RemoveTxAssets a tx) with (remove_tx_assets a tx).
    destruct assets_deployed eqn:Ed; [|done]. by rewrite remove_tx_assets_plain. }
  destruct (match assets with Some _ => _ | None => _ end) as [a1|].
  2: { exists DISCONNECT_FAILED, c1, t1, assets. split; [done|]. split; [done|]. intros Hp. by discriminate (Hrem Hp). }
  destruct txundo as [undo|].
  2: { exists (if clean1 then DISCONNECT_OK else DISCONNECT_UNCLEAN), c1, t1, a1. split; [done|]. split.
       - intros _. eapply represents_ext; [|exact Hr2]. intros o. unfold without_inputs. by rewrite Hundo.
       - intros [_ Hp]. by rewrite (Hcl Hp). }
  destruct Hundo as [Hcb Hf]. destruct (Hin Hcb) as [Hnd _]. pose proof (Forall2_length _ _ _ Hf) as Hlen.
  rewrite Hlen, Nat.eqb_refl. simpl.
  assert (Hpair : forall i cn, (i, cn) ∈ zip (vin tx) undo -> i ∈ vin tx /\ U (prevout i) = Some cn).
  { intros i cn Hi. apply elem_of_lookup_zip_with in Hi as (k & i' & cn' & [= <- <-] & Hi & Hc).
    split; [by eapply list_elem_of_lookup_2|exact (Forall2_lookup_lr _ _ _ _ _ _ Hf Hi Hc)]. }
  destruct (restore_inputs_spec (rev (zip (vin tx) undo)) c1 _ clean1 a1 Hr2) as (res & c2 & a2 & -> & Hnf & Hr3 & Hp3).
  - rewrite zip_rev_fst by done. by apply prevouts_rev.
  - apply Forall_rev, Forall_forall. intros [i cn] [Hi HUi]%Hpair. simpl. split; [|exact (HU _ _ HUi)].
    unfold without_inputs. rewrite Hcb. unfold without. rewrite decide_True; [done|].
    apply list_elem_of_fmap. by exists i.
  - exists res, c2, t1, a2. split; [done|]. split.
    + intros _. eapply represents_ext; [|exact Hr3]. by apply restored_inputs.
    + intros [Hpi Hpo]. rewrite <- (Hcl Hpo). apply Hp3. apply Forall_rev, Forall_forall. intros [i cn] [Hi HUi]%Hpair.
      specialize (Hpi Hcb). unfold plain_inputs in Hpi. rewrite Forall_forall in Hpi. by apply (Hpi i).
Qed.

(** ** Blocks *)

Fixpoint block_ok U (vtx : list CTransaction) (first : bool) (nHeight : Z) : Prop :=
  match vtx with
  | [] => True
  | tx :: rest => tx_ok U tx /\ IsCoinBase tx = first /\ block_ok (after_tx U tx nHeight) rest false nHeight
  end.

Fixpoint after_txs U (vtx : list CTransaction) (nHeight : Z) : COutPoint -> option Coin :=
  match vtx with
  | [] => U
  | tx :: rest => after_txs (after_tx U tx nHeight) rest nHeight
  end.

(** Undo records that go with the transactions. *)
Fixpoint undo_matches U (vtx : list CTransaction) (us : list (option (list Coin))) (nHeight : Z) : Prop :=
  match vtx, us with
  | [], [] => True
  | tx :: rest, u :: us' =>
      match u with
      | None => IsCoinBase tx = true
      | Some undo => IsCoinBase tx = false /\ Forall2 (fun i cn => U (prevout i) = Some cn) (vin tx) undo
      end /\ undo_matches (after_tx U tx nHeight) rest us' nHeight
  | _, _ => False
  end.

(** No transaction of the block has anything to do with assets. *)
Fixpoint plain_block U (vtx : list CTransaction) (nHeight : Z) : Prop :=
  match vtx with
  | [] => True
  | tx :: rest => plain_tx U tx /\ plain_block (after_tx U tx nHeight) rest nHeight
  end.

Lemma connect_rest_spec vtx c U nHeight blockHash (assets : option A) :
  represents c U -> block_ok U vtx false nHeight ->
  match connect_txs c vtx false nHeight blockHash assets with
  | Some (undos, c', _) => represents c' (after_txs U vtx nHeight) /\
      undo_matches U vtx (map Some undos) nHeight /\ length vtx = length undos
  | None => ~ plain_block U vtx nHeight
  end.
Proof.
  revert c U assets. induction vtx as [|tx rest IH]; intros c U assets Hr Hok; cbn [connect_txs]; [done|].
  destruct Hok as (Htx & Hcb & Hok). pose proof (UpdateCoins_spec c U tx nHeight blockHash assets Hr Htx) as Hup.
  destruct (UpdateCoins c tx nHeight blockHash assets) as [[[undo c1] a1]|]; [|by intros [? _]].
  destruct Hup as [Hr1 Hundo]. specialize (IH c1 _ a1 Hr1 Hok).
  destruct (connect_txs c1 rest false nHeight blockHash a1) as [[[undos c2] a2]|]; [|by intros [_ ?]].
  destruct IH as (Hr2 & Hm & Hlen). split; [done|]. split; [|simpl; lia]. split; [by auto|done].
Qed.

Lemma connect_txs_spec tx rest c U nHeight blockHash (assets : option A) :
  represents c U -> block_ok U (tx :: rest) true nHeight ->
  match connect_txs c (tx :: rest) true nHeight blockHash assets with
  | Some (undos, c', _) => represents c' (after_txs U (tx :: rest) nHeight) /\
      undo_matches U (tx :: rest) (None :: map Some undos) nHeight /\ length rest = length undos
  | None => ~ plain_block U (tx :: rest) nHeight
  end.
Proof.
  intros Hr (Htx & Hcb & Hok). cbn [connect_txs]. pose proof (UpdateCoins_spec c U tx nHeight blockHash assets Hr Htx) as Hup.
  destruct (UpdateCoins c tx nHeight blockHash assets) as [[[undo c1] a1]|]; [|by intros [? _]].
  destruct Hup as [Hr1 Hundo]. pose proof (connect_rest_spec rest c1 _ nHeight blockHash a1 Hr1 Hok) as Hrest.
  destruct (connect_txs c1 rest false nHeight blockHash a1) as [[[undos c2] a2]|]; [|by intros [_ ?]].
  destruct Hrest as (? & ? & ?). split; [done|]. by split.
Qed.

(** What the disconnecting loop reaches: the set [U], or [DISCONNECT_FAILED]. *)
Definition undone U (plain : Prop) (r : option (DisconnectResult * CCoinsViewCache V * option A)) : Prop :=
  exists res c' assets', r = Some (res, c', assets') /\ (res <> DISCONNECT_FAILED -> represents c' U) /\ (plain -> res = DISCONNECT_OK).

(** The disconnecting loop, followed by whatever comes next. *)
Lemma disconnect_txs_spec vtx U c us l2 first nHeight (plain : Prop) U2 (temp assets : option A) :
  represents c (after_txs U vtx nHeight) ->
  utxo_ok U -> nHeight <> 0 -> block_ok U vtx first nHeight -> undo_matches U vtx us nHeight ->
  (plain -> plain_block U vtx nHeight) ->
  (forall clean c' temp' assets', represents c' U -> (plain -> clean = true) ->
     undone U2 plain (disconnect_txs c' l2 nHeight clean temp' assets')) ->
  forall clean, (plain -> clean = true) -> undone U2 plain (disconnect_txs c (rev (zip vtx us) ++ l2) nHeight clean temp assets).
Proof.
  intros Hr HU Hh. revert U c us l2 first temp assets Hr HU.
  induction vtx as [|tx rest IH]; intros U c us l2 first temp assets Hr HU Hok Hm Hpl Hnext clean Hcl.
  { by apply Hnext. }
  destruct us as [|u us]; [done|]. destruct Hok as (Htx & Hcb & Hok). destruct Hm as [Hu Hm].
  cbn [zip zip_with rev]. rewrite <- app_assoc. simpl app.
  apply (IH (after_tx U tx nHeight) c us ((tx, u) :: l2) false temp assets); [done|by apply after_tx_ok|done|done|intros Hp; by apply (Hpl Hp)| |done].
  intros cl c1 t1 a1 Hr1 Hcl1. cbn [disconnect_txs].
  destruct (disconnect_tx_spec c1 U tx u nHeight cl t1 a1 Hr1 HU Htx Hu) as (res & c2 & t2 & a2 & -> & Hr2 & Hp2).
  assert (Hok2 : plain -> res = DISCONNECT_OK).
  { intros Hp. rewrite (Hp2 (proj1 (Hpl Hp))), (Hcl1 Hp). done. }
  destruct res; [apply Hnext; [by apply Hr2|done]|apply Hnext; [by apply Hr2|intros Hp; by discriminate (Hok2 Hp)]|].
  by exists DISCONNECT_FAILED, c2, a2.
Qed.

Lemma disconnect_connect tx rest c1 U undos nHeight hashPrev (assets : A) :
  represents c1 (after_txs U (tx :: rest) nHeight) -> utxo_ok U -> nHeight <> 0 -> block_ok U (tx :: rest) true nHeight ->
  undo_matches U (tx :: rest) (None :: map Some undos) nHeight -> length rest = length undos ->
  undone U (plain_block U (tx :: rest) nHeight) (DisconnectBlock c1 (tx :: rest) undos nHeight hashPrev (Some assets)).
Proof.
  intros Hr HU Hh Hok Hm Hlen. unfold DisconnectBlock. cbn [length]. rewrite Hlen, Nat.add_1_r, Nat.eqb_refl. cbn [negb].
  rewrite bool_decide_eq_true_2 by (by eexists). cbn [negb]. rewrite <- (app_nil_r (rev _)).
  destruct (disconnect_txs_spec (tx :: rest) U c1 (None :: map Some undos) [] true nHeight (plain_block U (tx :: rest) nHeight) U
              (Some assets) (Some assets) Hr HU Hh Hok Hm (fun Hp => Hp)) with (clean := true) as (res & c2 & a2 & -> & Hr2 & Hp2).
  - intros clean c' temp' assets' Hr' Hcl. cbn [disconnect_txs].
    exists (if clean then DISCONNECT_OK else DISCONNECT_UNCLEAN), c', assets'. split; [done|]. split; [done|]. intros Hp. by rewrite (Hcl Hp).
  - done.
  - assert (Hb : represents c2 U -> represents (SetBestBlock c2 hashPrev) U) by (intros [[A1 A2 A3] Hu2]; split; [by split|done]).
    destruct res; [exists DISCONNECT_OK, (SetBestBlock c2 hashPrev), a2|exists DISCONNECT_UNCLEAN, (SetBestBlock c2 hashPrev), a2|exists DISCONNECT_FAILED, c2, a2];
      (split; [done|]; split; [|done]); try done; intros Hnf; apply Hb, Hr2; done.
Qed.
End UndoSpec.

(** ** Reading inputs *)

Section Inputs.
Context {V : Type} `{CoinsViewSpec V} `{ScriptUsageSpec}.
Implicit Types (c : CCoinsViewCache V) (U : COutPoint -> option Coin).

Definition input_value U (i : CTxIn) : Z :=
  match U (prevout i) with Some cn => nValue (out cn) | None => -1 end.
Definition input_sum U (ins : list CTxIn) : Z := foldr (fun i acc => input_value U i + acc) 0 ins.

Lemma AccessCoin_represents c U o :
  represents c U -> exists cn c', AccessCoin c o = (cn, c') /\ represents c' U /\
    (forall d, U o = Some d -> cn = d) /\ (U o = None -> IsSpent cn = true).
Proof.
  intros [Hi Hu]. unfold AccessCoin. pose proof (FetchCoin_spec c o Hi) as Hf.
  destruct (FetchCoin c o) as [it c']. destruct Hf as (Hi' & Hu' & _ & _ & Hit).
  eexists _, c'. split; [reflexivity|]. split; [split; [done|]; intros o'; by rewrite Hu', Hu|].
  rewrite Hu in Hit. destruct it as [e|].
  - unfold entry_coin in Hit. destruct (IsSpent (coin e)) eqn:Es; rewrite <- Hit; split; congruence.
  - rewrite <- Hit. done.
Qed.

Lemma HaveInputs_loop_spec ins c U :
  represents c U ->
  exists c', HaveInputs_loop c ins = (forallb (fun i => bool_decide (is_Some (U (prevout i)))) ins, c') /\
    represents c' U.
Proof.
  revert c. induction ins as [|i ins IH]; intros c Hr; simpl; [by exists c|].
  destruct (HaveCoin_represents c U (prevout i) Hr) as (c1 & -> & Hr1).
  destruct (bool_decide (is_Some (U (prevout i)))); simpl; [by apply IH|by exists c1].
Qed.

Lemma GetValueIn_loop_spec ins c U acc :
  represents c U -> Forall (fun i => is_Some (U (prevout i))) ins ->
  Forall (fun i => 0 <= input_value U i) ins -> 0 <= acc -> acc + input_sum U ins < 2 ^ 63 ->
  exists c', GetValueIn_loop c ins acc = (acc + input_sum U ins, c') /\ represents c' U.
Proof.
  intros Hr Hall. revert c acc Hr. induction Hall as [|i ins [cn Hcn] Hall IH];
    intros c acc Hr Hpos Hacc Hsum; simpl in *; [exists c; split; [f_equal; lia|done]|].
  apply Forall_cons in Hpos as [Hi Hpos].
  assert (0 <= input_sum U ins) as Hnn by (clear -Hpos; induction Hpos; simpl; lia).
  destruct (AccessCoin_represents c U (prevout i) Hr) as (d & c1 & -> & Hr1 & Hd & _).
  rewrite (Hd cn Hcn). assert (input_value U i = nValue (out cn)) as Ev by (unfold input_value; by rewrite Hcn).
  rewrite <- Ev, s64_small by lia.
  destruct (IH c1 (acc + input_value U i) Hr1 Hpos) as (c2 & -> & Hr2); [lia..|].
  exists c2. split; [f_equal; lia|done].
Qed.
End Inputs.

(** ** Properties *)

(** C6. Connecting the transactions of a valid block and then disconnecting them
    with the undo records that were made restores the coins from before, whatever the
    transactions spend from each other inside the block and whatever the asset cache
    does.  If connecting meets no failed assertion (a spent asset the asset cache refuses) then disconnecting
    does not abort, and unless it reports [DISCONNECT_FAILED] (assets the asset cache cannot remove) every outpoint
    again has the coin, or no coin, it had.  If no coin that the block spends or creates has assets,
    connecting meets no failed assertion and disconnecting returns [DISCONNECT_OK]. *)
Theorem disconnect_undoes_connect {V : Type} `{CoinsViewSpec V} `{ScriptUsageSpec} `{AssetScripts}
    {A : Type} `{AssetOperations A} (coinbase : CTransaction) (rest : list CTransaction)
    (c : CCoinsViewCache V) (U : COutPoint -> option Coin) (nHeight blockHash hashPrev : Z)
    (assets : option A) (assets2 : A) :
  represents c U -> utxo_ok U -> nHeight <> 0 ->
  block_ok U (coinbase :: rest) true nHeight ->
  (forall undos c1 a1, connect_txs c (coinbase :: rest) true nHeight blockHash assets = Some (undos, c1, a1) ->
     represents c1 (after_txs U (coinbase :: rest) nHeight) /\
     exists res c2 a2, DisconnectBlock c1 (coinbase :: rest) undos nHeight hashPrev (Some assets2) = Some (res, c2, a2) /\
       (res <> DISCONNECT_FAILED -> represents c2 U)) /\
  (plain_block U (coinbase :: rest) nHeight ->
   exists undos c1 a1 c2 a2,
     connect_txs c (coinbase :: rest) true nHeight blockHash assets = Some (undos, c1, a1) /\
     DisconnectBlock c1 (coinbase :: rest) undos nHeight hashPrev (Some assets2) = Some (DISCONNECT_OK, c2, a2) /\
     represents c2 U).
Proof.
  intros Hr HU Hh Hok. pose proof (connect_txs_spec coinbase rest c U nHeight blockHash assets Hr Hok) as Hc. split.
  - intros undos c1 a1 E. rewrite E in Hc. destruct Hc as (Hr1 & Hm & Hlen). split; [done|].
    destruct (disconnect_connect coinbase rest c1 U undos nHeight hashPrev assets2 Hr1 HU Hh Hok Hm Hlen) as (res & c2 & a2 & ? & ? & _). eauto.
  - intros Hp. destruct (connect_txs _ _ _ _ _ _) as [[[undos c1] a1]|]; [|done]. destruct Hc as (Hr1 & Hm & Hlen).
    destruct (disconnect_connect coinbase rest c1 U undos nHeight hashPrev assets2 Hr1 HU Hh Hok Hm Hlen) as (res & c2 & a2 & E & Hr2 & Hres).
    rewrite (Hres Hp) in E, Hr2. exists undos, c1, a1, c2, a2. split; [done|]. split; [done|]. by apply Hr2.
Qed.

#[local] Instance undo_db_view : CoinsView CCoinsViewDB := CCoinsViewDB_view example_flushes.
#[local] Instance undo_db_spec : CoinsViewSpec CCoinsViewDB := CCoinsViewDB_spec example_flushes.

Definition example_out (v : Z) : CTxOut := mkTxOut v [118; 169] (-10).
Definition example_block_txs : list CTransaction :=
  [ mkTx 10 2 0 [mkTxIn (0, u32 (-1)) [1; 2] SEQUENCE_FINAL []] [example_out 100] 0 [];
    mkTx 11 2 0 [mkTxIn (1, 0) [] SEQUENCE_FINAL []] [example_out 20; mkTxOut 0 [OP_RETURN] (-10); example_out 29] 0 [];
    mkTx 12 2 0 [mkTxIn (11, 2) [] SEQUENCE_FINAL []] [example_out 28] 0 [] ].

Definition example_utxo : COutPoint -> option Coin :=
  fun o => if decide (o = (1, 0)) then Some (example_coin 50) else None.

Lemma tip_cache_represents : represents tip_cache example_utxo.
Proof.
  split; [exact tip_cache_inv|]. intros o. unfold example_utxo. cbn.
  destruct (decide (o = (1, 0))) as [->|Hne]; [apply lookup_singleton_eq|by apply lookup_singleton_ne].
Qed.

Lemma created_fresh (U : COutPoint -> option Coin) hash outs :
  (forall n, U (hash, n) = None) -> forall o, created hash outs 0 o <> None -> U o = None.
Proof.
  intros HU [h n] Hc. unfold created in Hc. simpl in Hc. destruct (Z.eqb_spec h hash) as [->|]; [apply HU|done].
Qed.

Ltac solve_fresh := apply created_fresh; intros n; unfold after_tx, with_outputs, without_inputs, created;
  simpl; unfold without, example_utxo; simpl; repeat case_decide; simplify_eq/=; done.

Lemma example_block_ok : block_ok example_utxo example_block_txs true 8.
Proof.
  assert (forall (U : COutPoint -> option Coin) tx, IsCoinBase tx = true -> IsCoinBase tx = false ->
            NoDup (prevouts (vin tx)) /\ Forall (fun i => is_Some (U (prevout i))) (vin tx)) as Hcb by congruence.
  split; [split; [by apply Hcb|split; [by repeat constructor|solve_fresh]]|].
  split; [reflexivity|]. split.
  - split; [intros _; split|].
    + apply NoDup_singleton.
    + constructor; [|constructor]. by eexists.
    + split; [by repeat constructor|solve_fresh].
  - split; [reflexivity|]. split; [|by split].
    split; [intros _; split|].
    + apply NoDup_singleton.
    + constructor; [|constructor]. by eexists.
    + split; [by repeat constructor|solve_fresh].
Qed.

(** An asset layer that is deployed, counts its calls and refuses every asset. *)
#[local] Instance counting_assets : AssetOperations Z := {|
  assets_deployed := true;
  restricted_assets_deployed := true;
  SpendAsset a _ _ := (false, a + 1);
  UndoSpentAsset a _ _ := (false, a - 1);
  AddIssue a _ _ _ := a + 1;
  AddAssetOutput a _ _ := a + 1;
  RemoveIssue _ _ := None;
  RemoveTransferOutput _ _ _ := None;
  RemoveNullAssetOutput _ _ _ := None
|}.

Lemma example_block_plain : plain_block example_utxo example_block_txs 8.
Proof.
  assert (Hs : forall v, plain_script (scriptPubKey (example_out v))) by (intros v _; by split).
  split; [split; [done|by repeat constructor]|]. split; [split|split; [split|done]].
  - intros _. constructor; [|constructor]. intros cn [= <-]. apply (Hs 50).
  - by repeat constructor.
  - intros _. constructor; [|constructor]. intros cn [= <-]. apply (Hs 29).
  - by repeat constructor.
Qed.

Lemma disconnect_undoes_connect_witness :
  exists undos c1 a1 c2 a2,
    connect_txs tip_cache example_block_txs true 8 1000 (Some 0) = Some (undos, c1, a1) /\
    DisconnectBlock c1 example_block_txs undos 8 900 (Some 0)
      = Some (DISCONNECT_OK, c2, a2) /\ represents c2 example_utxo.
Proof.
  refine (proj2 (disconnect_undoes_connect (nth 0 example_block_txs (mkTx 0 0 0 [] [] 0 []))
              (drop 1 example_block_txs) tip_cache example_utxo 8 1000 900 (Some 0) 0 _ _ _ _) _).
  - exact tip_cache_represents.
  - intros o cn. unfold example_utxo. destruct (decide (o = (1, 0))); [|discriminate].
    intros E. injection E as <-. split; [reflexivity|]. split; [discriminate|reflexivity].
  - lia.
  - exact example_block_ok.
  - exact example_block_plain.
Defined.

(** [HaveInputs] is true exactly when every input of a non-coinbase
    transaction names an unspent coin, and then [GetValueIn] is the exact sum of
    their values (as long as that sum fits an amount); neither changes the
    represented set. *)
Theorem inputs_of_transaction {V : Type} `{CoinsViewSpec V} `{ScriptUsageSpec}
    (c : CCoinsViewCache V) (U : COutPoint -> option Coin) (tx : CTransaction) :
  represents c U -> IsCoinBase tx = false ->
  exists c', HaveInputs c tx
      = (forallb (fun i => bool_decide (is_Some (U (prevout i)))) (vin tx), c') /\ represents c' U /\
    (Forall (fun i => is_Some (U (prevout i))) (vin tx) ->
     Forall (fun i => 0 <= input_value U i) (vin tx) -> input_sum U (vin tx) < 2 ^ 63 ->
     exists c'', GetValueIn c' tx = (input_sum U (vin tx), c'') /\ represents c'' U).
Proof.
  intros Hr Hcb. unfold HaveInputs, GetValueIn. rewrite Hcb.
  destruct (HaveInputs_loop_spec (vin tx) c U Hr) as (c1 & -> & Hr1).
  exists c1. split; [done|]. split; [done|]. intros Hall Hpos Hsum.
  destruct (GetValueIn_loop_spec (vin tx) c1 U 0 Hr1 Hall Hpos) as (c2 & -> & Hr2); [lia..|].
  by exists c2.
Qed.

Lemma inputs_of_transaction_witness :
  exists c' c'', HaveInputs tip_cache (nth 1 example_block_txs (mkTx 0 0 0 [] [] 0 [])) = (true, c') /\
    GetValueIn c' (nth 1 example_block_txs (mkTx 0 0 0 [] [] 0 [])) = (50, c'').
Proof.
  destruct (inputs_of_transaction tip_cache example_utxo (nth 1 example_block_txs (mkTx 0 0 0 [] [] 0 [])))
    as (c' & E1 & _ & Hv).
  - exact tip_cache_represents.
  - reflexivity.
  - destruct Hv as (c'' & E2 & _).
    + constructor; [by eexists|constructor].
    + constructor; [by vm_compute|constructor].
    + by vm_compute.
    + exists c', c''. exact (conj E1 E2).
Defined.
