(* ===== verification/Merkle.v ===== *)
(** [consensus/merkle.cpp] and [merkleblock.h/.cpp]: Merkle roots, branches and
    partial Merkle trees.  Double SHA-256 of two concatenated hashes is the
    parameter [Hash2]; hashes are numbers.  The constant-space computation of
    the root (a binary counter of subtree hashes) and the recursive tree of
    [CPartialMerkleTree] are independent implementations of the same tree, which the theorems
    relate. *)

From stdpp Require Import prelude.
From Stdlib Require Import ZArith Lia.
From S2P Require Import Prelude Transaction.

Open Scope Z_scope.

(** [CHash256().Write(a, 32).Write(b, 32)] *)
Class MerkleHash := Hash2 : Z -> Z -> Z.

Section Compute.
Context `{MerkleHash}.

(** [count & (((uint32_t)1) << level)] *)
Definition bit_clear (count : Z) (level : nat) : bool :=
  Z.land count (u32 (Z.shiftl 1 (Z.of_nat level))) =? 0.

(** The variables of the computation besides [inner] and [count]. *)
Record mstate := mkM {
  m_level : nat;
  m_h : Z;
  m_matchh : bool;
  m_branch : list Z;
  m_mutated : bool
}.

(** One combination of [inner[level]] with [h]: the branch bookkeeping, then
    the hash.  [check] is whether the duplicate test is made (the first loop
    only). *)
Definition combine (pbranch check : bool) (inner : list Z) (matchlevel : Z) (s : mstate) : mstate :=
  let left := aget inner (Z.of_nat (m_level s)) in
  let '(branch, matchh) :=
    if pbranch then
      if m_matchh s then (m_branch s ++ [left], true)
      else if matchlevel =? Z.of_nat (m_level s) then (m_branch s ++ [m_h s], true)
      else (m_branch s, false)
    else (m_branch s, m_matchh s) in
  mkM (S (m_level s)) (Hash2 left (m_h s)) matchh branch
      (if check then m_mutated s || (left =? m_h s) else m_mutated s).

(** [while (!(count & (1 << level)))] around [combine]; at most 32 levels. *)
Fixpoint combine_loop (fuel : nat) (pbranch check : bool) (inner : list Z) (count matchlevel : Z)
    (s : mstate) : option mstate :=
  if bit_clear count (m_level s) then
    match fuel with
    | O => None
    | S fuel' => combine_loop fuel' pbranch check inner count matchlevel (combine pbranch check inner matchlevel s)
    end
  else Some s.

(** The loop over the leaves. *)
Fixpoint leaves_loop (pbranch : bool) (branchpos : Z) (leaves : list Z) (count : Z) (inner : list Z)
    (matchlevel : Z) (branch : list Z) (mutated : bool) : option (list Z * Z * list Z * bool) :=
  match leaves with
  | [] => Some (inner, matchlevel, branch, mutated)
  | leaf :: rest =>
      let matchh := count =? branchpos in
      let count' := u32 (count + 1) in
      match combine_loop 32 pbranch true inner count' matchlevel (mkM 0 leaf matchh branch mutated) with
      | None => None
      | Some s =>
          leaves_loop pbranch branchpos rest count' (aset inner (Z.of_nat (m_level s)) (m_h s))
            (if m_matchh s then Z.of_nat (m_level s) else matchlevel) (m_branch s) (m_mutated s)
      end
  end.

(** The lowest level whose bit is set. *)
Fixpoint lowest_level (fuel : nat) (count : Z) (level : nat) : option nat :=
  if bit_clear count level then
    match fuel with O => None | S fuel' => lowest_level fuel' count (S level) end
  else Some level.

(** The final sweep over the right edge of the tree. *)
Fixpoint sweep (fuel : nat) (pbranch : bool) (inner : list Z) (matchlevel count : Z) (s : mstate)
    : option mstate :=
  if count =? u32 (Z.shiftl 1 (Z.of_nat (m_level s))) then Some s
  else
    match fuel with
    | O => None
    | S fuel' =>
        let branch := if pbranch && m_matchh s then m_branch s ++ [m_h s] else m_branch s in
        let count' := u32 (count + u32 (Z.shiftl 1 (Z.of_nat (m_level s)))) in
        match combine_loop 32 pbranch false inner count' matchlevel
                (mkM (S (m_level s)) (Hash2 (m_h s) (m_h s)) (m_matchh s) branch (m_mutated s)) with
        | None => None
        | Some s' => sweep fuel' pbranch inner matchlevel count' s'
        end
    end.

(** [MerkleComputation]: root, mutated flag and branch. *)
Definition MerkleComputation (leaves : list Z) (branchpos : Z) (pbranch : bool)
    : option (Z * bool * list Z) :=
  match leaves with
  | [] => Some (0, false, [])
  | _ =>
      match leaves_loop pbranch branchpos leaves 0 (replicate 32 0) (-1) [] false with
      | None => None
      | Some (inner, matchlevel, branch, mutated) =>
          let count := u32 (Z.of_nat (length leaves)) in
          match lowest_level 32 count 0 with
          | None => None
          | Some level =>
              match sweep 32 pbranch inner matchlevel count
                      (mkM level (aget inner (Z.of_nat level)) (matchlevel =? Z.of_nat level) branch mutated) with
              | None => None
              | Some s => Some (m_h s, m_mutated s, m_branch s)
              end
          end
      end
  end.

Definition ComputeMerkleRoot (leaves : list Z) : option (Z * bool) :=
  option_map fst (MerkleComputation leaves (u32 (-1)) false).

Definition ComputeMerkleBranch (leaves : list Z) (position : Z) : option (list Z) :=
  option_map snd (MerkleComputation leaves position true).

Fixpoint ComputeMerkleRootFromBranch (hash : Z) (vMerkleBranch : list Z) (nIndex : Z) : Z :=
  match vMerkleBranch with
  | [] => hash
  | it :: rest =>
      ComputeMerkleRootFromBranch
        (if negb (Z.land nIndex 1 =? 0) then Hash2 it hash else Hash2 hash it) rest (Z.shiftr nIndex 1)
  end.

Definition BlockMerkleRoot (vtx : list CTransaction) : option (Z * bool) :=
  ComputeMerkleRoot (map txid vtx).

(** [leaves[0].SetNull()] is out of range on a block without transactions. *)
Definition BlockWitnessMerkleRoot (GetWitnessHash : CTransaction -> Z) (vtx : list CTransaction)
    : option (Z * bool) :=
  match vtx with
  | [] => None
  | _ :: rest => ComputeMerkleRoot (0 :: map GetWitnessHash rest)
  end.

Definition BlockMerkleBranch (vtx : list CTransaction) (position : Z) : option (list Z) :=
  ComputeMerkleBranch (map txid vtx) position.
End Compute.

(** ** Partial Merkle trees *)

Record CPartialMerkleTree := mkPMT {
  nTransactions : Z;
  vBits : list bool;
  vHash : list Z;
  fBad : bool
}.

Section Partial.
Context `{MerkleHash}.

(** [(nTransactions + (1 << height) - 1) >> height] *)
Definition CalcTreeWidth (n : Z) (height : nat) : Z :=
  Z.shiftr (u32 (n + Z.shiftl 1 (Z.of_nat height) - 1)) (Z.of_nat height).

(** [CalcHash] on a non-empty list of transaction ids. *)
Fixpoint CalcHash (vTxid : list Z) (height : nat) (pos : Z) : Z :=
  match height with
  | O => aget vTxid pos
  | S h =>
      let left := CalcHash vTxid h (pos * 2) in
      let right := if pos * 2 + 1 <? CalcTreeWidth (Z.of_nat (length vTxid)) h
                   then CalcHash vTxid h (pos * 2 + 1) else left in
      Hash2 left right
  end.

(** [for (p = pos << height; p < (pos+1) << height && p < nTransactions; p++)
    fParentOfMatch |= vMatch[p];] *)
Definition parent_of_match (vMatch : list bool) (n : Z) (height : nat) (pos : Z) : bool :=
  let first := Z.shiftl pos (Z.of_nat height) in
  let last := Z.min (Z.shiftl (pos + 1) (Z.of_nat height)) n in
  existsb (fun p => nth p vMatch false) (seq (Z.to_nat first) (Z.to_nat (last - first))).

(** [TraverseAndBuild]: the bits and hashes it appends. *)
Fixpoint TraverseAndBuild (vTxid : list Z) (vMatch : list bool) (height : nat) (pos : Z)
    : list bool * list Z :=
  let n := Z.of_nat (length vTxid) in
  let fParentOfMatch := parent_of_match vMatch n height pos in
  match height with
  | O => ([fParentOfMatch], [CalcHash vTxid O pos])
  | S h =>
      if negb fParentOfMatch then ([fParentOfMatch], [CalcHash vTxid (S h) pos])
      else
        let '(b1, h1) := TraverseAndBuild vTxid vMatch h (pos * 2) in
        let '(b2, h2) := if pos * 2 + 1 <? CalcTreeWidth n h
                         then TraverseAndBuild vTxid vMatch h (pos * 2 + 1) else ([], []) in
        (fParentOfMatch :: b1 ++ b2, h1 ++ h2)
  end.

(** The state [TraverseAndExtract] threads: the unread bits and hashes, the
    failure flag and the matches so far. *)
Record xstate := mkX {
  x_bits : list bool;
  x_hash : list Z;
  x_bad : bool;
  x_match : list Z;
  x_index : list Z
}.

Fixpoint TraverseAndExtract (n : Z) (height : nat) (pos : Z) (s : xstate) : Z * xstate :=
  match x_bits s with
  | [] => (0, mkX (x_bits s) (x_hash s) true (x_match s) (x_index s))
  | fParentOfMatch :: bits =>
      let stored (leaf : bool) :=
        match x_hash s with
        | [] => (0, mkX bits (x_hash s) true (x_match s) (x_index s))
        | hash :: hashes =>
            if leaf && fParentOfMatch
            then (hash, mkX bits hashes (x_bad s) (x_match s ++ [hash]) (x_index s ++ [pos]))
            else (hash, mkX bits hashes (x_bad s) (x_match s) (x_index s))
        end in
      match height with
      | O => stored true
      | S h =>
          if negb fParentOfMatch then stored false
          else
            let '(lhash, s1) := TraverseAndExtract n h (pos * 2) (mkX bits (x_hash s) (x_bad s) (x_match s) (x_index s)) in
            if pos * 2 + 1 <? CalcTreeWidth n h then
              let '(rhash, s2) := TraverseAndExtract n h (pos * 2 + 1) s1 in
              (Hash2 lhash rhash,
               mkX (x_bits s2) (x_hash s2) (x_bad s2 || (rhash =? lhash)) (x_match s2) (x_index s2))
            else (Hash2 lhash lhash, s1)
      end
  end.

(** [while (CalcTreeWidth(nHeight) > 1) nHeight++;] *)
Fixpoint tree_height (fuel : nat) (n : Z) (nHeight : nat) : option nat :=
  if 1 <? CalcTreeWidth n nHeight then
    match fuel with O => None | S fuel' => tree_height fuel' n (S nHeight) end
  else Some nHeight.

Definition CPartialMerkleTree_build (vTxid : list Z) (vMatch : list bool) : option CPartialMerkleTree :=
  match tree_height 32 (Z.of_nat (length vTxid)) 0 with
  | None => None
  | Some nHeight =>
      let '(bits, hashes) := TraverseAndBuild vTxid vMatch nHeight 0 in
      Some (mkPMT (Z.of_nat (length vTxid)) bits hashes false)
  end.



(** [ExtractMatches]: the root (0 on failure), the matched ids and their
    positions.  The caller's [vMatch] is cleared, its [vnIndex] is not. *)
Definition ExtractMatches (t : CPartialMerkleTree) (vnIndex : list Z) : option (Z * list Z * list Z) :=
  if nTransactions t =? 0 then Some (0, [], vnIndex)
  else if GetMaxBlockWeight / MIN_TRANSACTION_WEIGHT <? nTransactions t then Some (0, [], vnIndex)
  else if nTransactions t <? Z.of_nat (length (vHash t)) then Some (0, [], vnIndex)
  else if (length (vBits t) <? length (vHash t))%nat then Some (0, [], vnIndex)
  else
    match tree_height 32 (nTransactions t) 0 with
    | None => None
    | Some nHeight =>
        let '(root, s) := TraverseAndExtract (nTransactions t) nHeight 0
                            (mkX (vBits t) (vHash t) (fBad t) [] vnIndex) in
        let nBitsUsed := Z.of_nat (length (vBits t)) - Z.of_nat (length (x_bits s)) in
        let root' :=
          if x_bad s then 0
          else if negb ((nBitsUsed + 7) / 8 =? (Z.of_nat (length (vBits t)) + 7) / 8) then 0
          else if negb (Z.of_nat (length (x_hash s)) =? 0) then 0
          else root in
        Some (root', x_match s, x_index s)
    end.

(** The flag bits on the wire: eight to a byte, least significant first. *)
Fixpoint byte_of_bits (bits : list bool) (k : Z) : Z :=
  match bits with
  | [] => 0
  | b :: rest => Z.lor (Z.shiftl (Z.b2z b) k) (byte_of_bits rest (k + 1))
  end.

Fixpoint pack_bits (fuel : nat) (bits : list bool) : list Z :=
  match fuel, bits with
  | S fuel', _ :: _ => byte_of_bits (take 8 bits) 0 :: pack_bits fuel' (drop 8 bits)
  | _, _ => []
  end.

Definition unpack_byte (byte : Z) : list bool :=
  map (fun p => negb (Z.land byte (Z.shiftl 1 (Z.of_nat p)) =? 0)) (seq 0 8).

Definition unpack_bits (vBytes : list Z) : list bool := vBytes ≫= unpack_byte.

(** [SerializationOp]: the three members written, and a tree read back. *)
Definition PMT_write (t : CPartialMerkleTree) : Z * list Z * list Z :=
  (nTransactions t, vHash t, pack_bits (length (vBits t)) (vBits t)).
Definition PMT_read (wire : Z * list Z * list Z) : CPartialMerkleTree :=
  let '(n, hashes, vBytes) := wire in mkPMT n (unpack_bits vBytes) hashes false.

(** [CMerkleBlock(block, txids)]: the filter of a block by transaction ids. *)
Definition CMerkleBlock_txids (vtx : list CTransaction) (txids : list Z) : option CPartialMerkleTree :=
  CPartialMerkleTree_build (map txid vtx) (map (fun tx => bool_decide (txid tx ∈ txids)) vtx).
End Partial.

(** ** The root and the branches are those of the tree *)

Lemma MerkleComputation_unfold `{MerkleHash} leaves pos pb inner ml br mut l s :
  leaves <> [] ->
  leaves_loop pb pos leaves 0 (replicate 32 0) (-1) [] false = Some (inner, ml, br, mut) ->
  lowest_level 32 (u32 (Z.of_nat (length leaves))) 0 = Some l ->
  sweep 32 pb inner ml (u32 (Z.of_nat (length leaves)))
    (mkM l (aget inner (Z.of_nat l)) (ml =? Z.of_nat l) br mut) = Some s ->
  MerkleComputation leaves pos pb = Some (m_h s, m_mutated s, m_branch s).
Proof.
  intros Hne E1 E2 E3. unfold MerkleComputation. rewrite E1, E2, E3. by destruct leaves.
Qed.

Lemma pow_level (k : nat) : (k <= 30)%nat -> 1 <= 2 ^ Z.of_nat k <= 2 ^ 30.
Proof. intros Hk. pose proof (Z.pow_le_mono_r 2 (Z.of_nat k) 30). pose proof (Z.pow_pos_nonneg 2 (Z.of_nat k)). lia. Qed.

Lemma pow_S (k : nat) : 2 ^ Z.of_nat (S k) = 2 * 2 ^ Z.of_nat k.
Proof. rewrite Nat2Z.inj_succ. apply Z.pow_succ_r. lia. Qed.

Lemma div_pow_S x (k : nat) : x / 2 ^ Z.of_nat (S k) = x / 2 ^ Z.of_nat k / 2.
Proof. rewrite pow_S, Z.mul_comm, Z.div_div; [done|apply Z.pow_nonzero; lia|lia]. Qed.

Lemma odd_even_div_2 a : Z.odd a = true -> (a - 1) / 2 = a / 2.
Proof.
  intros Ho. apply Z.odd_spec in Ho as [b ->].
  rewrite (Z.mul_comm 2 b), Z.div_add_l by lia. change (1 / 2) with 0.
  replace (b * 2 + 1 - 1) with (b * 2) by lia. rewrite Z.div_mul; lia.
Qed.

Lemma div_pow_eq a b (k j : nat) :
  (k <= j)%nat -> a / 2 ^ Z.of_nat k = b / 2 ^ Z.of_nat k -> a / 2 ^ Z.of_nat j = b / 2 ^ Z.of_nat j.
Proof.
  intros Hkj E. replace j with (k + (j - k))%nat by lia. induction (j - k)%nat as [|d IH].
  - by rewrite Nat.add_0_r.
  - rewrite Nat.add_succ_r, !div_pow_S, IH. done.
Qed.

Section RootProofs.
Context `{MerkleHash}.
Variable leaves : list Z.
Abbreviation n := (Z.of_nat (length leaves)).
Hypothesis n_range : 1 <= n <= 2 ^ 30.

Definition width (k : nat) : Z := (n + 2 ^ Z.of_nat k - 1) / 2 ^ Z.of_nat k.

Lemma CalcTreeWidth_width k : (k <= 30)%nat -> CalcTreeWidth n k = width k.
Proof.
  intros Hk. pose proof (pow_level k Hk). unfold CalcTreeWidth, width.
  rewrite Z.shiftl_1_l, Z.shiftr_div_pow2 by lia. f_equal. apply u32_id. unfold is_u32. lia.
Qed.

Lemma width_S k : width (S k) = (width k + 1) / 2.
Proof.
  unfold width. rewrite pow_S. pose proof (Z.pow_pos_nonneg 2 (Z.of_nat k)).
  set (p := 2 ^ Z.of_nat k) in *.
  replace (n + 2 * p - 1) with (n + p - 1 + 1 * p) by lia.
  rewrite (Z.mul_comm 2 p), <- Z.div_div, Z.div_add by lia. done.
Qed.

Lemma width_bounds k : width k * 2 ^ Z.of_nat k - 2 ^ Z.of_nat k < n <= width k * 2 ^ Z.of_nat k.
Proof.
  unfold width. pose proof (Z.pow_pos_nonneg 2 (Z.of_nat k)). set (p := 2 ^ Z.of_nat k) in *.
  pose proof (Z.div_mod (n + p - 1) p). pose proof (Z.mod_pos_bound (n + p - 1) p). nia.
Qed.

Lemma width_pos k : 1 <= width k.
Proof. pose proof (width_bounds k). pose proof (Z.pow_pos_nonneg 2 (Z.of_nat k)). nia. Qed.

Lemma width_0 : width 0 = n.
Proof. unfold width. simpl. rewrite Z.div_1_r. lia. Qed.

Lemma CalcHash_S k i :
  (k < 30)%nat ->
  CalcHash leaves (S k) i =
  Hash2 (CalcHash leaves k (2 * i))
        (CalcHash leaves k (if 2 * i + 1 <? width k then 2 * i + 1 else 2 * i)).
Proof.
  intros Hk. cbn [CalcHash]. rewrite CalcTreeWidth_width by lia. rewrite (Z.mul_comm i).
  by destruct (2 * i + 1 <? width k).
Qed.

Lemma bit_clear_even c k :
  0 <= c -> (k <= 31)%nat -> bit_clear c k = Z.even (c / 2 ^ Z.of_nat k).
Proof.
  intros Hc Hk. unfold bit_clear.
  assert (u32 (Z.shiftl 1 (Z.of_nat k)) = 2 ^ Z.of_nat k) as ->.
  { rewrite Z.shiftl_1_l. apply u32_id. unfold is_u32.
    pose proof (Z.pow_le_mono_r 2 (Z.of_nat k) 31). pose proof (Z.pow_pos_nonneg 2 (Z.of_nat k)). lia. }
  rewrite <- Z.shiftr_div_pow2 by lia. rewrite <- Z.negb_odd, <- Z.bit0_odd, Z.shiftr_spec, Z.add_0_l by lia.
  destruct (Z.testbit c (Z.of_nat k)) eqn:Hb; simpl.
  - apply Z.eqb_neq. intros E. apply (f_equal (fun x => Z.testbit x (Z.of_nat k))) in E.
    rewrite Z.land_spec, Hb, Z.pow2_bits_true, Z.bits_0 in E by lia. done.
  - apply Z.eqb_eq, Z.bits_inj'. intros i Hi. rewrite Z.land_spec, Z.bits_0.
    rewrite Z.pow2_bits_eqb by lia. destruct (Z.eqb_spec (Z.of_nat k) i) as [<-|]; [by rewrite Hb|apply andb_false_r].
Qed.

(** [inner] after [c] leaves: the hash of the complete subtree at every level
    whose bit is set in [c]. *)
Definition inner_ok (c : Z) (inner : list Z) : Prop :=
  length inner = 32%nat /\
  forall l : nat, (l <= 30)%nat -> Z.odd (c / 2 ^ Z.of_nat l) = true ->
    aget inner (Z.of_nat l) = CalcHash leaves l (c / 2 ^ Z.of_nat l - 1).

(** The invariant of both combination loops: [h] is the node that ends at
    leaf [cnt], a multiple of [2^level] just above [c]. *)
Definition comb_ok (c cnt : Z) (s : mstate) : Prop :=
  (m_level s <= 30)%nat /\ 0 <= c /\ cnt <= 2 ^ 30 /\
  cnt - 2 ^ Z.of_nat (m_level s) <= c < cnt /\
  (forall k, (k < m_level s)%nat -> 1 < width k) /\
  exists w, cnt = w * 2 ^ Z.of_nat (m_level s) /\ 1 <= w <= width (m_level s) /\
    m_h s = CalcHash leaves (m_level s) (w - 1).

Lemma comb_index c cnt s w :
  comb_ok c cnt s -> cnt = w * 2 ^ Z.of_nat (m_level s) ->
  c / 2 ^ Z.of_nat (m_level s) = w - 1 /\ cnt / 2 ^ Z.of_nat (m_level s) = w.
Proof.
  intros (Hl & Hc & Hm & Hr & _) Hw. pose proof (pow_level _ Hl). split.
  - symmetry. apply (Z.div_unique_pos _ _ _ (c - (w - 1) * 2 ^ Z.of_nat (m_level s))); nia.
  - rewrite Hw. apply Z.div_mul. lia.
Qed.

(** An even node count: there is a complete left sibling in [inner]. *)
Lemma comb_even c cnt s :
  comb_ok c cnt s -> bit_clear cnt (m_level s) = true ->
  exists m, 1 <= m /\ cnt = 2 * m * 2 ^ Z.of_nat (m_level s) /\ 2 * m <= width (m_level s) /\
    (m_level s < 30)%nat /\ m_h s = CalcHash leaves (m_level s) (2 * m - 1) /\
    c / 2 ^ Z.of_nat (m_level s) = 2 * m - 1.
Proof.
  intros Hs Hb. destruct (Hs) as (Hl & Hc & Hm & Hr & Hk & w & Hw & Hww & Hh).
  destruct (comb_index _ _ _ _ Hs Hw) as [Hci Hcw]. pose proof (pow_level _ Hl).
  rewrite bit_clear_even, Hcw in Hb by lia.
  apply Z.even_spec in Hb as [m Hm']. exists m.
  assert (m_level s <> 30%nat) by (intros E; rewrite E in *; change (Z.of_nat 30) with 30 in *; nia).
  subst w. split_and!; try done; lia.
Qed.

Lemma combine_ok pb ck inner c cnt ml s :
  inner_ok c inner -> comb_ok c cnt s -> bit_clear cnt (m_level s) = true ->
  comb_ok c cnt (combine pb ck inner ml s).
Proof.
  intros [_ Hi] Hs Hb. destruct (comb_even _ _ _ Hs Hb) as (m & Hm & Hcnt & Hw & Hl & Hh & Hci).
  assert (m_level (combine pb ck inner ml s) = S (m_level s)) as El
    by (unfold combine; repeat case_match; by simplify_eq).
  assert (m_h (combine pb ck inner ml s) = Hash2 (aget inner (Z.of_nat (m_level s))) (m_h s)) as Eh
    by (unfold combine; repeat case_match; by simplify_eq).
  destruct Hs as (_ & Hc & Hmx & Hr & Hk & _). unfold comb_ok. rewrite El, Eh, pow_S.
  pose proof (pow_level (m_level s) ltac:(lia)). split_and!; try lia.
  - intros k Hk'. destruct (decide (k = m_level s)) as [->|]; [lia|apply Hk; lia].
  - exists m. split_and!; [lia|lia| |].
    + rewrite width_S. apply Z.div_le_lower_bound; lia.
    + rewrite CalcHash_S by lia. rewrite (Hi (m_level s)), Hci, Hh; [|lia|].
      * f_equal; f_equal; [lia|]. destruct (Z.ltb_spec (2 * (m - 1) + 1) (width (m_level s))); lia.
      * rewrite Hci. replace (2 * m - 1) with (1 + 2 * (m - 1)) by lia. by rewrite Z.odd_add_mul_2.
Qed.

(** The loop ends, at an odd node count, and keeps whatever one combination
    keeps. *)
Lemma combine_loop_ok (P : mstate -> Prop) pb ck inner c cnt ml fuel s :
  inner_ok c inner ->
  (forall s, comb_ok c cnt s -> bit_clear cnt (m_level s) = true -> P s -> P (combine pb ck inner ml s)) ->
  comb_ok c cnt s -> P s -> (31 <= m_level s + fuel)%nat ->
  exists s', combine_loop fuel pb ck inner cnt ml s = Some s' /\ comb_ok c cnt s' /\ P s' /\
    bit_clear cnt (m_level s') = false /\ (m_level s <= m_level s')%nat.
Proof.
  intros Hi Hstep. revert s. induction fuel as [|fuel IH]; intros s Hs HP Hf; cbn [combine_loop];
    destruct (bit_clear cnt (m_level s)) eqn:Hb; try (exists s; by split_and!).
  - destruct (comb_even _ _ _ Hs Hb) as (m & _ & _ & _ & Hl & _). lia.
  - assert (m_level (combine pb ck inner ml s) = S (m_level s)) as El
      by (unfold combine; repeat case_match; by simplify_eq).
    destruct (IH (combine pb ck inner ml s)) as (s' & ? & ? & ? & ? & ?);
      [by apply combine_ok|by apply Hstep|lia|].
    exists s'. split_and!; try done. lia.
Qed.

(** Storing the finished node re-establishes [inner_ok] for the new count. *)
Lemma inner_ok_store c inner s :
  inner_ok c inner -> comb_ok c (c + 1) s -> bit_clear (c + 1) (m_level s) = false ->
  inner_ok (c + 1) (aset inner (Z.of_nat (m_level s)) (m_h s)).
Proof.
  intros [Hlen Hi] Hs Hb. destruct (Hs) as (Hl & Hc & Hm & Hr & Hk & w & Hw & Hww & Hh).
  destruct (comb_index _ _ _ _ Hs Hw) as [Hci Hcw]. pose proof (pow_level _ Hl) as Hp.
  rewrite bit_clear_even, Hcw in Hb by lia.
  split; [by rewrite length_aset|]. intros l Hl' Ho. rewrite aget_aset by lia.
  destruct (Z.eqb_spec (Z.of_nat (m_level s)) (Z.of_nat l)) as [E|Hne].
  - apply Nat2Z.inj in E as <-. by rewrite Hh, Hcw.
  - assert ((m_level s < l)%nat) as Hlt.
    { destruct (decide (m_level s < l)%nat) as [|Hge]; [done|]. exfalso.
      replace (m_level s) with (l + S (m_level s - l - 1))%nat in Hw by lia.
      rewrite Nat2Z.inj_add, Z.pow_add_r, pow_S in Hw by lia.
      rewrite Hw in Ho. pose proof (pow_level l ltac:(lia)).
      replace (w * (2 ^ Z.of_nat l * (2 * 2 ^ Z.of_nat (m_level s - l - 1))))
        with (2 * (w * 2 ^ Z.of_nat (m_level s - l - 1)) * 2 ^ Z.of_nat l) in Ho by lia.
      rewrite Z.div_mul, Z.odd_mul in Ho by lia. done. }
    assert ((c + 1) / 2 ^ Z.of_nat l = c / 2 ^ Z.of_nat l) as E.
    { apply (div_pow_eq _ _ (S (m_level s))); [lia|]. rewrite !div_pow_S, Hci, Hcw.
      symmetry. apply odd_even_div_2. by rewrite <- Z.negb_even, Hb. }
    rewrite E in *. apply Hi; done.
Qed.

(** *** The loop over the leaves, with a client's invariant

    [R] is what the client keeps between leaves, [P] during the combinations
    of one leaf. *)
Section Loops.
Variables (pb : bool) (pos : Z).
Variable R : Z -> Z -> list Z -> bool -> Prop.
Variable P : Z -> Z -> Z -> mstate -> Prop.

Hypothesis P_enter : forall c ml br mut, 0 <= c < n -> R c ml br mut ->
  P c ml (c + 1) (mkM 0 (aget leaves c) (c =? pos) br mut).
Hypothesis P_combine : forall (ck : bool) inner c cnt ml s,
  inner_ok c inner -> comb_ok c cnt s -> bit_clear cnt (m_level s) = true ->
  (if ck then cnt = c + 1 /\ c < n else c = n) ->
  P c ml cnt s -> P c ml cnt (combine pb ck inner ml s).
Hypothesis P_leave : forall c ml s, c < n -> comb_ok c (c + 1) s -> bit_clear (c + 1) (m_level s) = false ->
  P c ml (c + 1) s ->
  R (c + 1) (if m_matchh s then Z.of_nat (m_level s) else ml) (m_branch s) (m_mutated s).

Lemma comb_ok_leaf c mh br mut :
  0 <= c < n -> comb_ok c (c + 1) (mkM 0 (aget leaves c) mh br mut).
Proof.
  intros Hc. unfold comb_ok. simpl. change (2 ^ 0) with 1. split_and!; try lia.
  exists (c + 1). rewrite width_0. split_and!; try lia. f_equal. lia.
Qed.

Lemma leaves_loop_ok rest c inner ml br mut :
  drop (Z.to_nat c) leaves = rest -> 0 <= c <= n -> inner_ok c inner -> R c ml br mut ->
  exists inner' ml' br' mut',
    leaves_loop pb pos rest c inner ml br mut = Some (inner', ml', br', mut') /\
    inner_ok n inner' /\ R n ml' br' mut'.
Proof.
  revert c inner ml br mut. induction rest as [|leaf rest IH]; intros c inner ml br mut Hd Hc Hi HR.
  - assert (c = n) as ->.
    { apply (f_equal length) in Hd. rewrite length_drop in Hd. simpl in Hd. lia. }
    exists inner, ml, br, mut. done.
  - assert (leaves !! Z.to_nat c = Some leaf) as Hl.
    { rewrite <- (Nat.add_0_r (Z.to_nat c)), <- lookup_drop, Hd. done. }
    pose proof (lookup_lt_Some _ _ _ Hl). cbn [leaves_loop].
    assert (u32 (c + 1) = c + 1) as -> by (apply u32_id; unfold is_u32; lia).
    assert (leaf = aget leaves c) as -> by (unfold aget; by rewrite Hl).
    destruct (combine_loop_ok (P c ml (c + 1)) pb true inner c (c + 1) ml 32
                (mkM 0 (aget leaves c) (c =? pos) br mut)) as (s & -> & Hs & HP & Hb & _);
      [done|intros; apply P_combine; by try (split; lia)|apply comb_ok_leaf; lia|apply P_enter; [lia|done]|simpl; lia|].
    apply IH; [|lia|by apply inner_ok_store|apply P_leave; [lia|done..]].
    replace (Z.to_nat (c + 1)) with (Z.to_nat c + 1)%nat by lia. rewrite <- drop_drop, Hd. done.
Qed.

(** *** The final sweep *)

Definition sweep_ok (cnt : Z) (s : mstate) : Prop :=
  (m_level s <= 30)%nat /\ cnt = width (m_level s) * 2 ^ Z.of_nat (m_level s) /\
  Z.odd (width (m_level s)) = true /\ (forall k, (k < m_level s)%nat -> 1 < width k) /\
  m_h s = CalcHash leaves (m_level s) (width (m_level s) - 1).

Definition sweep_next (s : mstate) : mstate :=
  mkM (S (m_level s)) (Hash2 (m_h s) (m_h s)) (m_matchh s)
      (if pb && m_matchh s then m_branch s ++ [m_h s] else m_branch s) (m_mutated s).

Hypothesis P_sweep : forall ml cnt s,
  sweep_ok cnt s -> width (m_level s) <> 1 -> P n ml cnt s ->
  P n ml (cnt + 2 ^ Z.of_nat (m_level s)) (sweep_next s).

Lemma width_cap (k : nat) : (k <= 30)%nat -> width k * 2 ^ Z.of_nat k <= 2 ^ 30.
Proof.
  intros Hk. pose proof (width_bounds k). pose proof (pow_level k Hk).
  assert (2 ^ 30 = 2 ^ (30 - Z.of_nat k) * 2 ^ Z.of_nat k) as E by (rewrite <- Z.pow_add_r by lia; f_equal; lia).
  rewrite E. apply Z.mul_le_mono_nonneg_r; [lia|]. set (q := 2 ^ (30 - Z.of_nat k)) in *.
  apply Z.lt_succ_r. apply (Z.mul_lt_mono_pos_r (2 ^ Z.of_nat k)); lia.
Qed.

Lemma sweep_next_ok cnt s :
  sweep_ok cnt s -> width (m_level s) <> 1 ->
  comb_ok n (cnt + 2 ^ Z.of_nat (m_level s)) (sweep_next s) /\ (m_level s < 30)%nat.
Proof.
  intros (Hl & Hcnt & Ho & Hk & Hh) Hw1. pose proof (width_pos (m_level s)).
  pose proof (width_bounds (m_level s)) as Hb. pose proof (pow_level _ Hl).
  apply Z.odd_spec in Ho as [m Hm].
  assert ((m_level s < 30)%nat) as Hl'.
  { destruct (decide (m_level s = 30%nat)) as [E|]; [|lia]. exfalso.
    pose proof (width_cap _ Hl). rewrite E in *. change (Z.of_nat 30) with 30 in *. nia. }
  assert (width (S (m_level s)) = m + 1) as Hws.
  { rewrite width_S, Hm. replace (2 * m + 1 + 1) with ((m + 1) * 2) by lia. apply Z.div_mul. lia. }
  assert (cnt + 2 ^ Z.of_nat (m_level s) = (m + 1) * 2 ^ Z.of_nat (S (m_level s))) as E
    by (rewrite pow_S, Hcnt, Hm; lia).
  split; [|done]. unfold comb_ok, sweep_next; cbn [m_level m_h].
  pose proof (width_cap (S (m_level s)) ltac:(lia)) as Hcap. rewrite Hws in Hcap.
  split_and!; try lia.
  - rewrite pow_S. lia.
  - intros k Hk'. destruct (decide (k = m_level s)) as [->|]; [lia|apply Hk; lia].
  - exists (m + 1). split_and!; try lia. rewrite CalcHash_S by done. rewrite Hh, Hm.
    replace (2 * (m + 1 - 1) + 1) with (2 * m + 1) by lia. rewrite Z.ltb_irrefl.
    do 2 f_equal; lia.
Qed.

Lemma comb_sweep cnt s :
  comb_ok n cnt s -> bit_clear cnt (m_level s) = false -> sweep_ok cnt s.
Proof.
  intros Hs Hb. destruct (Hs) as (Hl & Hc & Hm & Hr & Hk & w & Hw & Hww & Hh).
  destruct (comb_index _ _ _ _ Hs Hw) as [Hci Hcw]. pose proof (pow_level _ Hl).
  rewrite bit_clear_even, Hcw in Hb by lia. pose proof (width_bounds (m_level s)).
  assert (w = width (m_level s)) as -> by nia.
  unfold sweep_ok. split_and!; try done. by rewrite <- Z.negb_even, Hb.
Qed.

Lemma sweep_ok_result fuel inner ml cnt s :
  inner_ok n inner -> sweep_ok cnt s -> P n ml cnt s -> (31 <= m_level s + fuel)%nat ->
  exists s', sweep fuel pb inner ml cnt s = Some s' /\ sweep_ok (2 ^ Z.of_nat (m_level s')) s' /\
    P n ml (2 ^ Z.of_nat (m_level s')) s' /\ width (m_level s') = 1.
Proof.
  intros Hi. revert cnt s. induction fuel as [|fuel IH]; intros cnt s Hs HP Hf; cbn [sweep];
    destruct (Hs) as (Hl & Hcnt & Ho & Hk & Hh); [lia|]; pose proof (pow_level _ Hl) as Hp;
    rewrite Z.shiftl_1_l, (u32_id (2 ^ _)) by (unfold is_u32; lia);
    destruct (Z.eqb_spec cnt (2 ^ Z.of_nat (m_level s))) as [E|Hne].
  - exists s. rewrite <- E. split_and!; [done..|]. nia.
  - assert (width (m_level s) <> 1) as Hw1 by (intros Hw; rewrite Hw in *; lia).
    destruct (sweep_next_ok _ _ Hs Hw1) as [Hn Hl'].
    assert (u32 (cnt + 2 ^ Z.of_nat (m_level s)) = cnt + 2 ^ Z.of_nat (m_level s)) as ->.
    { apply u32_id. unfold is_u32. destruct Hn as (_ & _ & ? & [_ ?] & _). lia. }
    destruct (combine_loop_ok (P n ml (cnt + 2 ^ Z.of_nat (m_level s))) pb false inner n
                (cnt + 2 ^ Z.of_nat (m_level s)) ml 32 (sweep_next s)) as (s' & E & Hs' & HP' & Hb & Hle);
      [done|intros; by apply P_combine|done|by apply P_sweep|simpl; lia|].
    unfold sweep_next in E. rewrite E. apply IH; [by apply comb_sweep|done|]. simpl in Hle. lia.
Qed.

Lemma exact_width (k : nat) : (2 ^ Z.of_nat k | n) -> width k = n / 2 ^ Z.of_nat k.
Proof.
  intros [w Hw]. pose proof (width_bounds k). pose proof (Z.pow_pos_nonneg 2 (Z.of_nat k)).
  rewrite Hw at 1. rewrite Z.div_mul by lia. nia.
Qed.

Lemma lowest_level_ok fuel level :
  (2 ^ Z.of_nat level | n) -> (31 <= level + fuel)%nat -> (level <= 30)%nat ->
  exists l, lowest_level fuel n level = Some l /\ (level <= l <= 30)%nat /\ (2 ^ Z.of_nat l | n) /\
    Z.odd (n / 2 ^ Z.of_nat l) = true.
Proof.
  revert level. induction fuel as [|fuel IH]; intros level Hd Hf Hl; [lia|].
  cbn [lowest_level]. rewrite bit_clear_even by lia.
  destruct (Z.even (n / 2 ^ Z.of_nat level)) eqn:He.
  - pose proof (pow_level level Hl). destruct Hd as [w Hw].
    assert (n / 2 ^ Z.of_nat level = w) as Hdiv by (rewrite Hw; apply Z.div_mul; lia).
    rewrite Hdiv in He. apply Z.even_spec in He as [m Hm].
    assert (level <> 30%nat) by (intros E; rewrite E in *; change (Z.of_nat 30) with 30 in *; nia).
    destruct (IH (S level)) as (l & -> & Hl' & Hd' & Ho); [|lia|lia|].
    { exists m. rewrite pow_S. nia. }
    exists l. split_and!; try done; lia.
  - exists level. split; [done|]. split; [lia|]. split; [done|]. by rewrite <- Z.negb_even, He.
Qed.

Hypothesis P_start : forall ml br mut inner (l : nat),
  inner_ok n inner -> R n ml br mut -> (l <= 30)%nat -> (2 ^ Z.of_nat l | n) ->
  Z.odd (n / 2 ^ Z.of_nat l) = true ->
  P n ml n (mkM l (aget inner (Z.of_nat l)) (ml =? Z.of_nat l) br mut).

Lemma MerkleComputation_ok :
  R 0 (-1) [] false ->
  exists ml s, MerkleComputation leaves pos pb = Some (m_h s, m_mutated s, m_branch s) /\
    sweep_ok (2 ^ Z.of_nat (m_level s)) s /\ P n ml (2 ^ Z.of_nat (m_level s)) s /\
    width (m_level s) = 1.
Proof.
  intros HR.
  destruct (leaves_loop_ok leaves 0 (replicate 32 0) (-1) [] false)
    as (inner & ml & br & mut & E & Hi & HR'); [done|lia| |done|].
  { split; [done|]. intros l Hl Ho. rewrite Z.div_0_l in Ho; [done|]. pose proof (pow_level l Hl). lia. }
  destruct (lowest_level_ok 32 0) as (l & El & Hl & Hd & Ho); [apply Z.divide_1_l|lia|lia|].
  destruct (sweep_ok_result 32 inner ml n (mkM l (aget inner (Z.of_nat l)) (ml =? Z.of_nat l) br mut))
    as (s & Es & Hs); [done| |apply P_start; try done; lia|simpl; lia|].
  - pose proof (exact_width l Hd) as Hw. unfold sweep_ok; cbn [m_level m_h]. rewrite Hw.
    pose proof (pow_level l ltac:(lia)). split_and!; [lia| |done| |].
    + destruct Hd as [w Hw']. rewrite Hw' at 2. rewrite Z.div_mul; lia.
    + intros k Hk. pose proof (width_bounds k) as Hb. destruct Hd as [w Hw'].
      replace l with (k + S (l - k - 1))%nat in Hw' by lia.
      rewrite Nat2Z.inj_add, Z.pow_add_r, pow_S in Hw' by lia.
      pose proof (Z.pow_pos_nonneg 2 (Z.of_nat k)). pose proof (Z.pow_pos_nonneg 2 (Z.of_nat (l - k - 1))).
      set (p := 2 ^ Z.of_nat k) in *. set (q := 2 ^ Z.of_nat (l - k - 1)) in *.
      assert (1 <= w) by nia. assert (1 <= w * q) by nia. nia.
    + apply Hi; [lia|done].
  - exists ml, s. split; [|done].
    apply (MerkleComputation_unfold leaves pos pb inner ml br mut l s); [|done|..].
    + intros E0. rewrite E0 in n_range. simpl in n_range. lia.
    + by rewrite (u32_id n) by (unfold is_u32; lia).
    + by rewrite (u32_id n) by (unfold is_u32; lia).
Qed.
End Loops.

(** *** The duplicate flag *)

(** Two sibling subtrees, both complete within the first [c] leaves, have the
    same hash. *)
Definition dup (c : Z) : Prop :=
  exists (k : nat) i, 0 <= i /\ (2 * i + 2) * 2 ^ Z.of_nat k <= c /\
    CalcHash leaves k (2 * i) = CalcHash leaves k (2 * i + 1).

(** ... the right one ending exactly at leaf [c] and below level [l]. *)
Definition dup_at (c : Z) (l : nat) : Prop :=
  exists (k : nat) i, (k < l)%nat /\ 0 <= i /\ (2 * i + 2) * 2 ^ Z.of_nat k = c /\
    CalcHash leaves k (2 * i) = CalcHash leaves k (2 * i + 1).

Definition mut_R (c : Z) (ml : Z) (br : list Z) (mut : bool) : Prop := mut = true <-> dup c.
Definition mut_P (c ml cnt : Z) (s : mstate) : Prop :=
  (c < n -> m_mutated s = true <-> dup c \/ dup_at cnt (m_level s)) /\
  (c = n -> m_mutated s = true <-> dup n).

Lemma dup_at_S c (l : nat) m :
  (1 <= m) -> c = 2 * m * 2 ^ Z.of_nat l ->
  dup_at c (S l) <-> dup_at c l \/ CalcHash leaves l (2 * m - 2) = CalcHash leaves l (2 * m - 1).
Proof.
  intros Hm Hc. pose proof (Z.pow_pos_nonneg 2 (Z.of_nat l)). split.
  - intros (k & i & Hk & Hi & Hci & E). destruct (decide (k = l)) as [->|].
    + right. assert (i = m - 1) as -> by nia. replace (2 * m - 2) with (2 * (m - 1)) by lia.
      rewrite E. f_equal. lia.
    + left. exists k, i. split_and!; try done; lia.
  - intros [(k & i & Hk & Hi & Hci & E)|E].
    + exists k, i. split_and!; try done; lia.
    + exists l, (m - 1). split_and!; [lia|lia|nia|].
      replace (2 * (m - 1)) with (2 * m - 2) by lia. rewrite E. f_equal. lia.
Qed.

Lemma dup_next c (l : nat) :
  Z.odd ((c + 1) / 2 ^ Z.of_nat l) = true -> (2 ^ Z.of_nat l | c + 1) ->
  dup (c + 1) <-> dup c \/ dup_at (c + 1) l.
Proof.
  intros Ho [w Hw]. pose proof (Z.pow_pos_nonneg 2 (Z.of_nat l)).
  rewrite Hw, Z.div_mul in Ho by lia. apply Z.odd_spec in Ho as [b Hb]. split.
  - intros (k & i & Hi & Hci & E). destruct (decide ((2 * i + 2) * 2 ^ Z.of_nat k = c + 1)) as [Heq|].
    + right. exists k, i. split_and!; try done. destruct (decide (k < l)%nat) as [|Hge]; [done|]. exfalso.
      replace k with (l + (k - l))%nat in Heq by lia.
      rewrite Nat2Z.inj_add, Z.pow_add_r in Heq by lia.
      assert ((2 * i + 2) * 2 ^ Z.of_nat (k - l) = 2 * b + 1)
        by (apply (Z.mul_reg_r _ _ (2 ^ Z.of_nat l)); lia). lia.
    + left. exists k, i. split_and!; try done; lia.
  - intros [(k & i & Hi & Hci & E)|(k & i & Hk & Hi & Hci & E)]; exists k, i; split_and!; try done; lia.
Qed.

Lemma mut_combine pb (ck : bool) inner c cnt ml s :
  inner_ok c inner -> comb_ok c cnt s -> bit_clear cnt (m_level s) = true ->
  (if ck then cnt = c + 1 /\ c < n else c = n) ->
  mut_P c ml cnt s -> mut_P c ml cnt (combine pb ck inner ml s).
Proof.
  intros Hi Hs Hb Hck [H1 H2].
  assert (m_level (combine pb ck inner ml s) = S (m_level s)) as El
    by (unfold combine; repeat case_match; by simplify_eq).
  assert (m_mutated (combine pb ck inner ml s) =
    if ck then m_mutated s || (aget inner (Z.of_nat (m_level s)) =? m_h s) else m_mutated s) as Em
    by (unfold combine; repeat case_match; by simplify_eq).
  destruct ck; split; rewrite ?El, Em; try lia; [|done].
  destruct Hck as [-> Hc]. intros _. specialize (H1 Hc).
  destruct (comb_even _ _ _ Hs Hb) as (m & Hm & Hcnt & Hw & Hl & Hh & Hci).
  rewrite (dup_at_S _ _ m Hm Hcnt), orb_true_iff, H1, Z.eqb_eq, Hh.
  destruct Hi as [_ Hi]. rewrite (Hi (m_level s)), Hci; [|lia|].
  - replace (2 * m - 1 - 1) with (2 * m - 2) by lia. tauto.
  - rewrite Hci. replace (2 * m - 1) with (1 + 2 * (m - 1)) by lia. by rewrite Z.odd_add_mul_2.
Qed.

Lemma MerkleComputation_mutated pb pos :
  exists s, MerkleComputation leaves pos pb = Some (m_h s, m_mutated s, m_branch s) /\
    sweep_ok (2 ^ Z.of_nat (m_level s)) s /\ width (m_level s) = 1 /\
    (m_mutated s = true <-> dup n).
Proof.
  destruct (MerkleComputation_ok pb pos mut_R mut_P) as (ml & s & E & Hs & HP & Hw).
  - intros c ml br mut Hc HR. unfold mut_P, mut_R in *. cbn [m_mutated m_level]. split; [|lia].
    intros _. rewrite HR. split; [tauto|]. intros [|(k & i & Hk & _)]; [done|lia].
  - intros ck inner c cnt ml s. apply mut_combine.
  - intros c ml s Hlt Hs Hb [H1 _]. unfold mut_R.
    destruct (Hs) as (Hl & Hc & Hm & Hr & Hk & w & Hw & Hww & Hh).
    destruct (comb_index _ _ _ _ Hs Hw) as [Hci Hcw].
    pose proof (width_bounds (m_level s)). pose proof (pow_level _ Hl).
    rewrite bit_clear_even in Hb by lia.
    rewrite (dup_next c (m_level s)); [|by rewrite <- Z.negb_even, Hb|by exists w].
    by apply H1.
  - intros ml cnt s Hs Hw [H1 H2]. split; [lia|]. done.
  - intros ml br mut inner l Hi HR Hl Hd Ho. split; [lia|]. done.
  - unfold mut_R. split; [done|]. intros (k & i & Hi & Hci & _).
    pose proof (Z.pow_pos_nonneg 2 (Z.of_nat k)). nia.
  - exists s. split_and!; try done. by apply HP.
Qed.

(** *** The branch *)

Section Branch.
Variable pos : Z.
Hypothesis pos_range : 0 <= pos < n.
Abbreviation anc k := (pos / 2 ^ Z.of_nat k).

(** The sibling of the ancestor of leaf [pos] at level [k]; the ancestor itself
    where it is the odd one out. *)
Definition sibling (k : nat) : Z :=
  CalcHash leaves k (if Z.odd (anc k) then anc k - 1
                     else if anc k + 1 <? width k then anc k + 1 else anc k).
Definition siblings (l : nat) : list Z := map sibling (seq 0 l).

Definition branch_R (c ml : Z) (br : list Z) (mut : bool) : Prop :=
  if pos <? c then
    exists L : nat, ml = Z.of_nat L /\ Z.odd (c / 2 ^ Z.of_nat L) = true /\
      anc L = c / 2 ^ Z.of_nat L - 1 /\ br = siblings L
  else ml = -1 /\ br = [].

Definition branch_P (c ml cnt : Z) (s : mstate) : Prop :=
  if m_matchh s then anc (m_level s) = cnt / 2 ^ Z.of_nat (m_level s) - 1 /\ m_branch s = siblings (m_level s)
  else anc (m_level s) <> cnt / 2 ^ Z.of_nat (m_level s) - 1 /\
       branch_R c ml (m_branch s) (m_mutated s) /\ (pos < c -> Z.of_nat (m_level s) <= ml).

Lemma siblings_S l : siblings (S l) = siblings l ++ [sibling l].
Proof. unfold siblings. rewrite seq_S, map_app. done. Qed.

(** Above an odd count the leaf's ancestor is not the last stored node. *)
Lemma not_last (c : Z) (k L : nat) :
  Z.odd (c / 2 ^ Z.of_nat k) = true -> anc k = c / 2 ^ Z.of_nat k - 1 -> (k < L)%nat ->
  anc L = c / 2 ^ Z.of_nat L.
Proof.
  intros Ho Ha HkL. apply (div_pow_eq _ _ (S k)); [lia|]. rewrite !div_pow_S, Ha. by apply odd_even_div_2.
Qed.

Lemma branch_combine (ck : bool) inner c cnt ml s :
  inner_ok c inner -> comb_ok c cnt s -> bit_clear cnt (m_level s) = true ->
  branch_P c ml cnt s -> branch_P c ml cnt (combine true ck inner ml s).
Proof.
  intros Hi Hs Hb HP. destruct (comb_even _ _ _ Hs Hb) as (m & Hm & Hcnt & Hw & Hl & Hh & Hci).
  pose proof (pow_level (m_level s) ltac:(lia)) as Hp.
  assert (cnt / 2 ^ Z.of_nat (m_level s) = 2 * m) as Hc1 by (rewrite Hcnt; apply Z.div_mul; lia).
  assert (cnt / 2 ^ Z.of_nat (S (m_level s)) = m) as Hc2
    by (rewrite div_pow_S, Hc1, Z.mul_comm; apply Z.div_mul; lia).
  assert (Z.odd (2 * m - 1) = true) as Hodd
    by (replace (2 * m - 1) with (1 + 2 * (m - 1)) by lia; by rewrite Z.odd_add_mul_2).
  assert (forall x, x = 2 * m - 1 \/ x = 2 * m - 2 <-> x / 2 = m - 1) as Hhalf.
  { intros x. pose proof (Z.div_mod x 2). pose proof (Z.mod_pos_bound x 2). lia. }
  assert (aget inner (Z.of_nat (m_level s)) = CalcHash leaves (m_level s) (2 * m - 2)) as Hleft.
  { destruct Hi as [_ Hi]. rewrite Hi, Hci; [f_equal; lia|lia|by rewrite Hci]. }
  unfold branch_P, combine in *. destruct (m_matchh s).
  - cbn [m_matchh m_level m_branch]. destruct HP as [Ha Hbr]. rewrite Hc1 in Ha.
    rewrite Hc2, div_pow_S. split; [apply Hhalf; lia|].
    rewrite siblings_S, Hbr. unfold sibling. rewrite Ha, Hodd, Hleft. do 3 f_equal. lia.
  - destruct HP as (Ha & HR & Hge). rewrite Hc1 in Ha. unfold branch_R in HR.
    destruct (Z.eqb_spec ml (Z.of_nat (m_level s))) as [Eml|Hne]; cbn [m_matchh m_level m_branch m_mutated].
    + destruct (Z.ltb_spec pos c); [|lia]. destruct HR as (L & E & Ho & HaL & Hbr).
      assert (L = m_level s) as -> by lia. rewrite Hci in HaL.
      rewrite Hc2, div_pow_S. split; [apply Hhalf; lia|].
      rewrite siblings_S, Hbr. unfold sibling. rewrite HaL, Hh.
      assert (Z.odd (2 * m - 1 - 1) = false) as ->
        by (replace (2 * m - 1 - 1) with (0 + 2 * (m - 1)) by lia; by rewrite Z.odd_add_mul_2).
      destruct (Z.ltb_spec (2 * m - 1 - 1 + 1) (width (m_level s))); [|lia]. do 3 f_equal. lia.
    + rewrite Hc2, div_pow_S. split_and!; [|done|].
      * intros Eh. apply Hhalf in Eh as [|E2]; [lia|]. unfold branch_R in HR.
        assert (pos < c) as Hlt.
        { apply Z.lt_nge. intros Hle. pose proof (Z.div_le_mono c pos (2 ^ Z.of_nat (m_level s))). lia. }
        rewrite (proj2 (Z.ltb_lt _ _) Hlt) in HR. destruct HR as (L & E & Ho & HaL & Hbr).
        specialize (Hge Hlt). rewrite (not_last c (m_level s) L) in HaL; [lia|by rewrite Hci|lia|lia].
      * intros Hlt. specialize (Hge Hlt). lia.
Qed.

Lemma branch_leave c ml s :
  c < n -> comb_ok c (c + 1) s -> bit_clear (c + 1) (m_level s) = false -> branch_P c ml (c + 1) s ->
  branch_R (c + 1) (if m_matchh s then Z.of_nat (m_level s) else ml) (m_branch s) (m_mutated s).
Proof.
  intros Hcn Hs Hb HP. destruct (Hs) as (Hl & Hc & Hm & Hr & Hk & w & Hw & Hww & Hh).
  destruct (comb_index _ _ _ _ Hs Hw) as [Hci Hcw]. pose proof (pow_level _ Hl) as Hp.
  rewrite bit_clear_even, Hcw in Hb by lia.
  assert (Z.odd w = true) as Hodd by (by rewrite <- Z.negb_even, Hb).
  unfold branch_P in HP. rewrite Hcw in HP. unfold branch_R in *. destruct (m_matchh s).
  - destruct HP as [Ha Hbr]. destruct (Z.ltb_spec pos (c + 1)) as [_|Hge].
    + exists (m_level s). rewrite Hcw. done.
    + exfalso. pose proof (Z.div_le_mono (c + 1) pos (2 ^ Z.of_nat (m_level s))). lia.
  - destruct HP as (Ha & HR & Hge). destruct (Z.ltb_spec pos c) as [Hlt|Hge'].
    + rewrite (proj2 (Z.ltb_lt pos (c + 1))) by lia. destruct HR as (L & -> & Ho & HaL & Hbr).
      specialize (Hge Hlt). exists L.
      assert (L <> m_level s) as Hne.
      { intros ->. rewrite Hci in Ho. rewrite Z.odd_sub, Hodd in Ho. done. }
      assert ((c + 1) / 2 ^ Z.of_nat L = c / 2 ^ Z.of_nat L) as ->.
      { apply (div_pow_eq _ _ (S (m_level s))); [lia|]. rewrite !div_pow_S, Hci, Hcw.
        symmetry. by apply odd_even_div_2. }
      done.
    + destruct (Z.ltb_spec pos (c + 1)); [|done]. exfalso. apply Ha.
      replace pos with c by lia. done.
Qed.

Lemma branch_sweep ml cnt s :
  sweep_ok cnt s -> width (m_level s) <> 1 -> branch_P n ml cnt s ->
  branch_P n ml (cnt + 2 ^ Z.of_nat (m_level s)) (sweep_next true s).
Proof.
  intros Hs Hw1 HP. destruct (sweep_next_ok true _ _ Hs Hw1) as [Hn Hl'].
  destruct Hs as (Hl & Hcnt & Ho & Hk & Hh). pose proof (pow_level _ Hl) as Hp.
  pose proof (width_bounds (m_level s)) as Hwb.
  assert (cnt / 2 ^ Z.of_nat (m_level s) = width (m_level s)) as Hc1 by (rewrite Hcnt; apply Z.div_mul; lia).
  apply Z.odd_spec in Ho as [m Hm].
  assert ((cnt + 2 ^ Z.of_nat (m_level s)) / 2 ^ Z.of_nat (S (m_level s)) = m + 1) as Hc2.
  { rewrite pow_S, Hcnt, Hm. symmetry. apply Z.div_unique_exact; lia. }
  assert (anc (m_level s) <= width (m_level s) - 1) as Hmax.
  { apply Z.lt_succ_r. replace (Z.succ _) with (width (m_level s)) by lia. apply Z.div_lt_upper_bound; lia. }
  unfold branch_P in *. unfold sweep_next. cbn [m_matchh m_level m_branch m_mutated]. rewrite Hc1 in HP.
  rewrite Hc2, div_pow_S. destruct (m_matchh s).
  - destruct HP as [Ha Hbr]. split.
    + rewrite Ha, Hm. replace (2 * m + 1 - 1) with (m * 2) by lia. rewrite Z.div_mul; lia.
    + cbn [andb]. rewrite siblings_S, Hbr. unfold sibling. rewrite Ha, Hm.
      assert (Z.odd (2 * m + 1 - 1) = false) as ->
        by (replace (2 * m + 1 - 1) with (0 + 2 * m) by lia; by rewrite Z.odd_add_mul_2).
      rewrite (proj2 (Z.ltb_ge (2 * m + 1 - 1 + 1) (2 * m + 1))) by lia. by rewrite Hh, Hm.
  - destruct HP as (Ha & HR & Hge). cbn [andb]. split_and!; [|done|].
    + pose proof (Z.div_mod (anc (m_level s)) 2). pose proof (Z.mod_pos_bound (anc (m_level s)) 2). lia.
    + intros Hlt. specialize (Hge Hlt). unfold branch_R in HR.
      rewrite (proj2 (Z.ltb_lt pos n)) in HR by lia. destruct HR as (L & -> & HoL & HaL & _).
      destruct (decide (L = m_level s)) as [->|]; [|lia]. exfalso.
      assert (n / 2 ^ Z.of_nat (m_level s) = width (m_level s) \/
              n / 2 ^ Z.of_nat (m_level s) = width (m_level s) - 1) as [E|E].
      { pose proof (Z.div_mod n (2 ^ Z.of_nat (m_level s))).
        pose proof (Z.mod_pos_bound n (2 ^ Z.of_nat (m_level s))). nia. }
      * lia.
      * rewrite E, Hm in HoL. replace (2 * m + 1 - 1) with (0 + 2 * m) in HoL by lia.
        rewrite Z.odd_add_mul_2 in HoL. done.
Qed.

Lemma branch_start ml br mut inner (l : nat) :
  inner_ok n inner -> branch_R n ml br mut -> (l <= 30)%nat -> (2 ^ Z.of_nat l | n) ->
  Z.odd (n / 2 ^ Z.of_nat l) = true ->
  branch_P n ml n (mkM l (aget inner (Z.of_nat l)) (ml =? Z.of_nat l) br mut).
Proof.
  intros Hi HR Hl Hd Ho. unfold branch_P. cbn [m_matchh m_level m_branch m_mutated].
  pose proof HR as HR0. unfold branch_R in HR. rewrite (proj2 (Z.ltb_lt pos n)) in HR by lia.
  destruct HR as (L & -> & HoL & HaL & Hbr).
  destruct (Z.eqb_spec (Z.of_nat L) (Z.of_nat l)) as [E|Hne].
  - apply Nat2Z.inj in E as ->. done.
  - assert ((l <= L)%nat) as Hle.
    { destruct (decide (l <= L)%nat) as [|Hgt]; [done|]. exfalso. destruct Hd as [w Hw].
      replace l with (L + S (l - L - 1))%nat in Hw by lia.
      rewrite Nat2Z.inj_add, Z.pow_add_r, pow_S in Hw by lia.
      rewrite Hw in HoL. pose proof (Z.pow_pos_nonneg 2 (Z.of_nat L)).
      replace (w * (2 ^ Z.of_nat L * (2 * 2 ^ Z.of_nat (l - L - 1))))
        with (2 * (w * 2 ^ Z.of_nat (l - L - 1)) * 2 ^ Z.of_nat L) in HoL by lia.
      rewrite Z.div_mul, Z.odd_mul in HoL by lia. done. }
    split_and!; [|done|lia]. intros Ea. rewrite (not_last n l L) in HaL; [lia|done|done|lia].
Qed.

Lemma ComputeMerkleBranch_siblings :
  exists L : nat, ComputeMerkleBranch leaves pos = Some (siblings L) /\ width L = 1 /\ (L <= 30)%nat /\
    (forall k, (k < L)%nat -> 1 < width k).
Proof.
  destruct (MerkleComputation_ok true pos branch_R branch_P) as (ml & s & E & Hs & HP & Hw).
  - intros c ml br mut Hc HR. unfold branch_P, branch_R in *. cbn [m_matchh m_level m_branch m_mutated].
    change (2 ^ Z.of_nat 0) with 1. rewrite !Z.div_1_r.
    destruct (Z.eqb_spec c pos) as [->|].
    + split; [lia|]. rewrite Z.ltb_irrefl in HR. by destruct HR as [_ ->].
    + split_and!; [lia|done|]. intros Hlt. rewrite (proj2 (Z.ltb_lt pos c) Hlt) in HR.
      destruct HR as (L & -> & _). lia.
  - intros ck inner c cnt ml s Hi Hs Hb _ HP. by apply branch_combine.
  - apply branch_leave.
  - apply branch_sweep.
  - apply branch_start.
  - unfold branch_R. rewrite (proj2 (Z.ltb_ge pos 0)) by lia. done.
  - destruct Hs as (Hl & Hcnt & Ho & Hk & Hh). exists (m_level s).
    unfold ComputeMerkleBranch. rewrite E. cbn [option_map snd]. split_and!; try done.
    unfold branch_P in HP. pose proof (width_bounds (m_level s)). pose proof (pow_level _ Hl).
    rewrite Z.div_same in HP by lia. rewrite Hw in *.
    assert (anc (m_level s) = 0) by (apply Z.div_small; lia).
    destruct (m_matchh s); [by destruct HP as [_ ->]|lia].
Qed.

(** Folding the siblings from level [k] on gives the ancestor's hash. *)
Lemma root_from_siblings (L : nat) k :
  (k + L <= 30)%nat ->
  ComputeMerkleRootFromBranch (CalcHash leaves k (anc k)) (map sibling (seq k L)) (anc k) =
  CalcHash leaves (k + L) (anc (k + L)).
Proof.
  revert k. induction L as [|L IH]; intros k Hk; [by rewrite Nat.add_0_r|].
  cbn [seq map ComputeMerkleRootFromBranch].
  replace (Z.shiftr (anc k) 1) with (anc (S k)) by (rewrite div_pow_S, Z.shiftr_div_pow2 by lia; done).
  replace (k + S L)%nat with (S k + L)%nat by lia. rewrite <- IH by lia. f_equal.
  rewrite CalcHash_S by lia. unfold sibling. change 1 with (Z.ones 1) at 1. rewrite Z.land_ones by lia.
  change (2 ^ 1) with 2. rewrite Zmod_odd, div_pow_S.
  pose proof (Z.div_mod (anc k) 2) as Hdm. rewrite Zmod_odd in Hdm.
  destruct (Z.odd (anc k)); simpl (negb _).
  - replace (2 * (anc k / 2)) with (anc k - 1) by lia. f_equal.
    assert (anc k < width k).
    { pose proof (width_bounds k). apply Z.div_lt_upper_bound; [apply Z.pow_pos_nonneg; lia|lia]. }
    destruct (Z.ltb_spec (anc k - 1 + 1) (width k)); [|lia]. f_equal. lia.
  - replace (2 * (anc k / 2)) with (anc k) by lia. f_equal.
Qed.
End Branch.

Lemma tree_height_ok (L : nat) :
  width L = 1 -> (L <= 30)%nat -> (forall k, (k < L)%nat -> 1 < width k) ->
  tree_height 32 n 0 = Some L.
Proof.
  intros Hw HL Hk.
  enough (forall fuel k, (k <= L)%nat -> (31 <= k + fuel)%nat -> tree_height fuel n k = Some L) as HH
    by (apply HH; lia).
  induction fuel as [|fuel IH]; intros k Hkl Hf; [lia|]. cbn [tree_height].
  rewrite CalcTreeWidth_width by lia. destruct (decide (k = L)) as [->|].
  - by rewrite Hw.
  - rewrite (proj2 (Z.ltb_lt 1 (width k))) by (apply Hk; lia). apply IH; lia.
Qed.
End RootProofs.

(** The root of the constant-space computation and the height of the tree. *)
Lemma merkle_root_tree `{MerkleHash} (leaves : list Z) :
  1 <= Z.of_nat (length leaves) <= 2 ^ 30 ->
  exists L mutated,
    tree_height 32 (Z.of_nat (length leaves)) 0 = Some L /\ width leaves L = 1 /\ (L <= 30)%nat /\
    ComputeMerkleRoot leaves = Some (CalcHash leaves L 0, mutated) /\
    (mutated = true <-> dup leaves (Z.of_nat (length leaves))).
Proof.
  intros Hn. destruct (MerkleComputation_mutated leaves Hn false (u32 (-1))) as (s & E & Hs & Hw & Hm).
  destruct Hs as (Hl & Hcnt & Ho & Hk & Hh).
  exists (m_level s), (m_mutated s). split_and!; try done; [by apply tree_height_ok|].
  unfold ComputeMerkleRoot. rewrite E. cbn [option_map fst]. by rewrite Hh, Hw.
Qed.

(** C7. For 1 to 2^30 leaves the constant-space Merkle computation ends and
    yields the root of the recursive tree of [CPartialMerkleTree]; the
    [mutated] flag is raised exactly when two complete sibling subtrees hash to
    the same value (the CVE-2012-2459 duplication). *)
Theorem ComputeMerkleRoot_is_tree `{MerkleHash} (leaves : list Z) :
  1 <= Z.of_nat (length leaves) <= 2 ^ 30 ->
  exists L mutated,
    tree_height 32 (Z.of_nat (length leaves)) 0 = Some L /\
    ComputeMerkleRoot leaves = Some (CalcHash leaves L 0, mutated) /\
    (mutated = true <->
     exists (k : nat) i, 0 <= i /\ (2 * i + 2) * 2 ^ Z.of_nat k <= Z.of_nat (length leaves) /\
       CalcHash leaves k (2 * i) = CalcHash leaves k (2 * i + 1)).
Proof.
  intros Hn. destruct (merkle_root_tree leaves Hn) as (L & mutated & EL & Hw & HL & E & Hm).
  exists L, mutated. done.
Qed.

(** The branch of any leaf verifies: folding it over the leaf with the
    leaf's index gives the Merkle root of the list. *)
Theorem ComputeMerkleBranch_verifies `{MerkleHash} (leaves : list Z) (pos : Z) :
  1 <= Z.of_nat (length leaves) <= 2 ^ 30 -> 0 <= pos < Z.of_nat (length leaves) ->
  exists branch root mutated,
    ComputeMerkleBranch leaves pos = Some branch /\
    ComputeMerkleRoot leaves = Some (root, mutated) /\
    ComputeMerkleRootFromBranch (aget leaves pos) branch pos = root.
Proof.
  intros Hn Hp. destruct (merkle_root_tree leaves Hn) as (L' & mutated & EL' & Hw & HL' & E & _).
  destruct (ComputeMerkleBranch_siblings leaves Hn pos Hp) as (L & EL & HwL & HL & HkL).
  assert (L' = L) as -> by (rewrite (tree_height_ok leaves Hn L) in EL' by done; congruence).
  exists (siblings leaves pos L), (CalcHash leaves L 0), mutated. split_and!; [done..|].
  pose proof (root_from_siblings leaves Hn pos Hp L 0 ltac:(lia)) as R.
  change (pos / 2 ^ Z.of_nat 0) with (pos / 1) in R. rewrite Z.div_1_r, Nat.add_0_l in R.
  unfold siblings. cbn [CalcHash] in R. rewrite R. f_equal.
  pose proof (width_bounds leaves Hn L). rewrite HwL in *. apply Z.div_small. lia.
Qed.

(** A toy hash for the concrete examples. *)
Definition toy_hash : MerkleHash := fun a b => (a * 31 + b * 17 + 1) mod 1000003.

Lemma ComputeMerkleRoot_is_tree_witness :
  exists L mutated,
    tree_height 32 5 0 = Some L /\
    @ComputeMerkleRoot toy_hash [11; 12; 13; 14; 15] = Some (@CalcHash toy_hash [11; 12; 13; 14; 15] L 0, mutated) /\
    (mutated = true <->
     exists (k : nat) i, 0 <= i /\ (2 * i + 2) * 2 ^ Z.of_nat k <= 5 /\
       @CalcHash toy_hash [11; 12; 13; 14; 15] k (2 * i) = @CalcHash toy_hash [11; 12; 13; 14; 15] k (2 * i + 1)).
Proof. apply (@ComputeMerkleRoot_is_tree toy_hash [11; 12; 13; 14; 15]). vm_compute. split; discriminate. Defined.

Lemma ComputeMerkleBranch_verifies_witness :
  exists branch root mutated,
    @ComputeMerkleBranch toy_hash [11; 12; 13; 14; 15] 4 = Some branch /\
    @ComputeMerkleRoot toy_hash [11; 12; 13; 14; 15] = Some (root, mutated) /\
    @ComputeMerkleRootFromBranch toy_hash 15 branch 4 = root.
Proof.
  apply (@ComputeMerkleBranch_verifies toy_hash [11; 12; 13; 14; 15] 4);
    [vm_compute; split; discriminate|simpl; lia].
Defined.
