(* ===== verification/PartialMerkle.v ===== *)
(** Partial Merkle trees ([merkleblock.cpp]): the tree built for a block and a
    set of matches extracts to the block's Merkle root and exactly the matched
    transactions, also after serialization; and a tree from an untrusted peer
    that extracts to the block's root cannot claim a transaction the block does
    not have, short of a hash collision, if it has the height of the block's tree. *)

From stdpp Require Import prelude.
From Stdlib Require Import ZArith Lia.
From S2P Require Import Prelude Transaction Merkle.

Open Scope Z_scope.

Section RoundTrip.
Context `{MerkleHash}.
Variables (vTxid : list Z) (vMatch : list bool).
Abbreviation n := (Z.of_nat (length vTxid)).
Abbreviation width := (Merkle.width vTxid).
Hypothesis n_range : 1 <= n <= 2 ^ 30.

(** The transactions below a node. *)
Definition below (h : nat) (pos : Z) : list nat :=
  seq (Z.to_nat (pos * 2 ^ Z.of_nat h))
      (Z.to_nat (Z.min ((pos + 1) * 2 ^ Z.of_nat h) n - pos * 2 ^ Z.of_nat h)).

Definition matched (h : nat) (pos : Z) : list nat :=
  filter (fun p => nth p vMatch false = true) (below h pos).

Lemma parent_of_match_below h pos :
  parent_of_match vMatch n h pos = existsb (fun p => nth p vMatch false) (below h pos).
Proof. unfold parent_of_match, below. rewrite !Z.shiftl_mul_pow2 by lia. done. Qed.

Lemma parent_of_match_false h pos : parent_of_match vMatch n h pos = false -> matched h pos = [].
Proof.
  rewrite parent_of_match_below. unfold matched. induction (below h pos) as [|p ps IH]; [done|].
  cbn [existsb]. intros [E1 E2]%orb_false_iff. rewrite filter_cons_False; [by apply IH|].
  rewrite E1. done.
Qed.

Lemma right_child h pos : 0 <= pos -> pos * 2 + 1 < width h <-> (pos * 2 + 1) * 2 ^ Z.of_nat h < n.
Proof.
  intros Hp. pose proof (width_bounds vTxid n_range h). pose proof (Z.pow_pos_nonneg 2 (Z.of_nat h)).
  set (p := 2 ^ Z.of_nat h) in *. set (w := width h) in *. split; nia.
Qed.

Lemma below_S h pos :
  0 <= pos < width (S h) ->
  below (S h) pos = below h (pos * 2) ++ (if pos * 2 + 1 <? width h then below h (pos * 2 + 1) else []).
Proof.
  intros Hp. pose proof (width_bounds vTxid n_range (S h)) as Hw. pose proof (right_child h pos ltac:(lia)) as Hr.
  pose proof (Z.pow_pos_nonneg 2 (Z.of_nat h)). unfold below. rewrite (pow_S h) in *.
  set (p := 2 ^ Z.of_nat h) in *.
  destruct (Z.ltb_spec (pos * 2 + 1) (width h)) as [Hlt|Hge].
  - apply Hr in Hlt. rewrite Z.min_l with (n := (pos * 2 + 1) * p) by lia.
    replace (Z.to_nat ((pos * 2 + 1) * p)) with
      (Z.to_nat (pos * 2 * p) + Z.to_nat ((pos * 2 + 1) * p - pos * 2 * p))%nat by nia.
    rewrite <- seq_app. f_equal; nia.
  - rewrite app_nil_r. f_equal; [f_equal; lia|]. f_equal.
    assert (n <= (pos * 2 + 1) * p) by (apply Z.nlt_ge; intros Hc; apply Hr in Hc; lia).
    rewrite !Z.min_r by nia. lia.
Qed.

Lemma matched_S h pos :
  0 <= pos < width (S h) ->
  matched (S h) pos = matched h (pos * 2) ++ (if pos * 2 + 1 <? width h then matched h (pos * 2 + 1) else []).
Proof.
  intros Hp. unfold matched. rewrite below_S, filter_app by done. by destruct (pos * 2 + 1 <? width h).
Qed.

Lemma width_child h pos : 0 <= pos < width (S h) -> 0 <= pos * 2 < width h.
Proof.
  rewrite width_S by done. intros Hp. pose proof (Z.div_mod (width h + 1) 2).
  pose proof (Z.mod_pos_bound (width h + 1) 2). lia.
Qed.

Definition no_twins : Prop :=
  forall (k : nat) i, (k < 30)%nat -> 0 <= i -> i * 2 + 1 < width k ->
    CalcHash vTxid k (i * 2) <> CalcHash vTxid k (i * 2 + 1).

Definition ids (ps : list nat) : list Z := map (fun p => aget vTxid (Z.of_nat p)) ps.

Lemma below_0 pos : 0 <= pos < n -> below 0 pos = [Z.to_nat pos].
Proof.
  intros Hp. unfold below. change (2 ^ Z.of_nat 0) with 1.
  replace (Z.to_nat (Z.min ((pos + 1) * 1) n - pos * 1)) with 1%nat by lia.
  simpl. f_equal. lia.
Qed.

Lemma extract_leaf pos bs hs bad m ix :
  0 <= pos < n ->
  TraverseAndExtract n 0 pos (mkX (parent_of_match vMatch n 0 pos :: bs) (aget vTxid pos :: hs) bad m ix) =
  (aget vTxid pos, mkX bs hs bad (m ++ ids (matched 0 pos)) (ix ++ map Z.of_nat (matched 0 pos))).
Proof.
  intros Hp. rewrite parent_of_match_below. unfold matched. rewrite below_0 by done.
  cbn [existsb TraverseAndExtract x_bits x_hash x_bad x_match x_index andb].
  rewrite orb_false_r. destruct (nth (Z.to_nat pos) vMatch false) eqn:E.
  - rewrite filter_cons_True, filter_nil by done. simpl. rewrite Z2Nat.id by lia. done.
  - rewrite filter_cons_False, filter_nil by (rewrite E; done). simpl. by rewrite !app_nil_r.
Qed.

(** What [TraverseAndBuild] appends, [TraverseAndExtract] consumes: it returns
    the node's hash and adds exactly the matches below the node. *)
Lemma extract_build h pos bs hs bad m ix :
  no_twins -> (h <= 30)%nat -> 0 <= pos < width h ->
  TraverseAndExtract n h pos
    (mkX ((TraverseAndBuild vTxid vMatch h pos).1 ++ bs) ((TraverseAndBuild vTxid vMatch h pos).2 ++ hs) bad m ix) =
  (CalcHash vTxid h pos, mkX bs hs bad (m ++ ids (matched h pos)) (ix ++ map Z.of_nat (matched h pos))).
Proof.
  intros Hd. revert pos bs hs bad m ix. induction h as [|h IH]; intros pos bs hs bad m ix Hh Hp.
  { rewrite width_0 in Hp. apply extract_leaf. done. }
  cbn [TraverseAndBuild]. destruct (parent_of_match vMatch n (S h) pos) eqn:Hpm; cbn [negb].
  2:{ rewrite (parent_of_match_false _ _ Hpm). simpl. by rewrite !app_nil_r. }
  pose proof (width_child h pos Hp) as Hc. rewrite matched_S by done.
  rewrite CalcTreeWidth_width by (done || lia). cbn [CalcHash]. rewrite CalcTreeWidth_width by (done || lia).
  pose proof (IH (pos * 2)) as IHl. pose proof (IH (pos * 2 + 1)) as IHr.
  destruct (TraverseAndBuild vTxid vMatch h (pos * 2)) as [b1 h1].
  destruct (Z.ltb_spec (pos * 2 + 1) (width h)) as [Hlt|Hge].
  - destruct (TraverseAndBuild vTxid vMatch h (pos * 2 + 1)) as [b2 h2]. cbn [fst snd] in *.
    cbn [TraverseAndExtract x_bits x_hash x_bad x_match x_index negb app].
    rewrite <- !app_assoc, IHl by (done || lia). rewrite CalcTreeWidth_width by (done || lia).
    rewrite (proj2 (Z.ltb_lt _ _) Hlt), IHr by (done || lia). cbn [x_bits x_hash x_bad x_match x_index].
    unfold ids. rewrite !map_app, !app_assoc.
    rewrite (proj2 (Z.eqb_neq _ _)); [by rewrite orb_false_r|]. apply not_eq_sym, Hd; lia.
  - cbn [fst snd] in *. cbn [TraverseAndExtract x_bits x_hash x_bad x_match x_index negb app].
    rewrite !app_nil_r, IHl by (done || lia). rewrite CalcTreeWidth_width by (done || lia).
    rewrite (proj2 (Z.ltb_ge _ _) Hge). done.
Qed.

(** The guards of [ExtractMatches] pass on a built tree. *)
Lemma build_sizes h pos :
  (h <= 30)%nat -> 0 <= pos < width h ->
  (1 <= length (TraverseAndBuild vTxid vMatch h pos).2 <= length (below h pos))%nat /\
  (length (TraverseAndBuild vTxid vMatch h pos).2 <= length (TraverseAndBuild vTxid vMatch h pos).1)%nat.
Proof.
  revert pos. induction h as [|h IH]; intros pos Hh Hp.
  { rewrite width_0 in Hp. rewrite below_0 by done. simpl. lia. }
  pose proof (width_child h pos Hp) as Hc. pose proof (IH (pos * 2) ltac:(lia) Hc) as IHl.
  cbn [TraverseAndBuild]. rewrite below_S, length_app by done. rewrite CalcTreeWidth_width by (done || lia).
  destruct (parent_of_match vMatch n (S h) pos); cbn [negb]; [|simpl; lia].
  destruct (TraverseAndBuild vTxid vMatch h (pos * 2)) as [b1 h1]. cbn [fst snd] in IHl.
  destruct (Z.ltb_spec (pos * 2 + 1) (width h)) as [Hlt|Hge].
  - pose proof (IH (pos * 2 + 1) ltac:(lia) ltac:(lia)) as IHr.
    destruct (TraverseAndBuild vTxid vMatch h (pos * 2 + 1)) as [b2 h2]. cbn [fst snd length] in *.
    rewrite !length_app. lia.
  - cbn [fst snd length]. rewrite !app_nil_r. cbn [length]. lia.
Qed.

Lemma below_root L : width L = 1 -> below L 0 = seq 0 (length vTxid).
Proof.
  intros Hw. pose proof (width_bounds vTxid n_range L) as Hb. rewrite Hw in Hb. unfold below.
  rewrite Z.min_r by lia. f_equal. lia.
Qed.
End RoundTrip.

(** ** The wire form of the flag bits *)

Lemma byte_of_bits_testbit bits k i :
  0 <= k -> 0 <= i ->
  Z.testbit (byte_of_bits bits k) i = if k <=? i then nth (Z.to_nat (i - k)) bits false else false.
Proof.
  revert k. induction bits as [|b bits IH]; intros k Hk Hi; cbn [byte_of_bits].
  - rewrite Z.bits_0. destruct (k <=? i); [|done]. by destruct (Z.to_nat (i - k)).
  - rewrite Z.lor_spec, IH, Z.shiftl_spec by lia.
    destruct (Z.leb_spec k i) as [Hle|Hgt]; destruct (Z.leb_spec (k + 1) i); try lia.
    + rewrite (testbit_high (Z.b2z b) 1) by (destruct b; simpl; lia).
      replace (Z.to_nat (i - k)) with (S (Z.to_nat (i - (k + 1)))) by lia. done.
    + replace i with k by lia. rewrite Z.sub_diag, orb_false_r. by destruct b.
    + rewrite Z.testbit_neg_r by lia. done.
Qed.

Lemma unpack_byte_of_bits bits :
  (length bits <= 8)%nat ->
  unpack_byte (byte_of_bits bits 0) = bits ++ replicate (8 - length bits) false.
Proof.
  intros Hl. unfold unpack_byte. apply list_eq. intros p.
  rewrite list_lookup_fmap. destruct (decide (p < 8)%nat) as [Hp|Hp].
  - rewrite lookup_seq_lt by done. cbn [fmap option_fmap option_map Nat.add].
    assert (negb (Z.land (byte_of_bits bits 0) (Z.shiftl 1 (Z.of_nat p)) =? 0) = nth p bits false) as ->.
    { pose proof (byte_of_bits_testbit bits 0 (Z.of_nat p) ltac:(lia) ltac:(lia)) as Ht.
      rewrite (proj2 (Z.leb_le 0 (Z.of_nat p))), Z.sub_0_r, Nat2Z.id in Ht by lia. rewrite <- Ht.
      rewrite Z.shiftl_1_l. destruct (Z.testbit _ (Z.of_nat p)) eqn:E.
      - apply negb_true_iff, Z.eqb_neq. intros E0.
        apply (f_equal (fun x => Z.testbit x (Z.of_nat p))) in E0.
        rewrite Z.land_spec, E, Z.pow2_bits_true, Z.bits_0 in E0 by lia. done.
      - apply negb_false_iff, Z.eqb_eq, Z.bits_inj'. intros j Hj. rewrite Z.land_spec, Z.bits_0.
        rewrite Z.pow2_bits_eqb by lia.
        destruct (Z.eqb_spec (Z.of_nat p) j) as [<-|]; [by rewrite E|apply andb_false_r]. }
    symmetry. destruct (decide (p < length bits)%nat) as [Hlt|].
    + rewrite lookup_app_l by done. destruct (nth_lookup_or_length bits p false); [done|lia].
    + rewrite lookup_app_r by lia. rewrite nth_overflow by lia. apply lookup_replicate_2. lia.
  - rewrite lookup_seq_ge by lia. symmetry. apply lookup_ge_None_2.
    rewrite length_app, length_replicate. lia.
Qed.

Lemma unpack_bits_cons byte vBytes : unpack_bits (byte :: vBytes) = unpack_byte byte ++ unpack_bits vBytes.
Proof. done. Qed.

(** Reading the written bits back pads them with zeros to whole bytes. *)
Lemma unpack_pack_bits fuel bits :
  (length bits <= fuel)%nat ->
  exists pad, (pad < 8)%nat /\ Z.of_nat (length bits + pad) mod 8 = 0 /\
    unpack_bits (pack_bits fuel bits) = bits ++ replicate pad false.
Proof.
  revert bits. induction fuel as [|fuel IH]; intros bits Hf.
  { destruct bits; [|simpl in Hf; lia]. exists 0%nat. split_and!; [lia|done|done]. }
  destruct bits as [|b bits]; [exists 0%nat; split_and!; [lia|done|done]|]. set (all := b :: bits) in *.
  change (pack_bits (S fuel) all) with (byte_of_bits (take 8 all) 0 :: pack_bits fuel (drop 8 all)).
  rewrite unpack_bits_cons.
  destruct (IH (drop 8 all)) as (pad & Hp & Hm & E); [rewrite length_drop; lia|].
  rewrite E, unpack_byte_of_bits by (rewrite length_take; lia).
  rewrite length_take, length_drop in *. destruct (decide (8 <= length all)%nat) as [Hge|Hlt].
  - exists pad. rewrite Nat.min_l, Nat.sub_diag, app_nil_r, app_assoc, take_drop by lia.
    split_and!; [done| |done].
    replace (Z.of_nat (length all + pad)) with (Z.of_nat (length all - 8 + pad) + 1 * 8) by lia.
    by rewrite Z.mod_add by lia.
  - rewrite Nat.min_r, drop_ge, take_ge by lia. replace (length all - 8)%nat with 0%nat in Hm by lia.
    assert (pad = 0)%nat as -> by (rewrite Z.mod_small in Hm by lia; lia).
    exists (8 - length all)%nat. rewrite app_nil_r. split_and!; [subst all; simpl; lia| |done].
    replace (length all + (8 - length all))%nat with 8%nat by lia. done.
Qed.

(** [ExtractMatches] on flag bits followed by padding up to a whole byte. *)
Lemma ExtractMatches_padded `{MerkleHash} (t : CPartialMerkleTree) (L : nat)
    (bits : list bool) (pad : nat) root ms ix :
  1 <= nTransactions t <= GetMaxBlockWeight / MIN_TRANSACTION_WEIGHT ->
  vBits t = bits ++ replicate pad false -> pad = 0%nat \/ ((pad < 8)%nat /\ Z.of_nat (length bits + pad) mod 8 = 0) ->
  Z.of_nat (length (vHash t)) <= nTransactions t -> (length (vHash t) <= length bits)%nat ->
  tree_height 32 (nTransactions t) 0 = Some L ->
  TraverseAndExtract (nTransactions t) L 0 (mkX (vBits t) (vHash t) (fBad t) [] []) =
    (root, mkX (replicate pad false) [] false ms ix) ->
  ExtractMatches t [] = Some (root, ms, ix).
Proof.
  intros Hn Hb Hpad Hh Hhb EL Hx. unfold ExtractMatches. rewrite EL, Hx.
  rewrite (proj2 (Z.eqb_neq _ _)), (proj2 (Z.ltb_ge _ (nTransactions t))), (proj2 (Z.ltb_ge (nTransactions t) _)) by lia.
  rewrite (proj2 (Nat.ltb_ge _ _)) by (rewrite Hb, length_app; lia).
  cbn [x_bits x_hash x_bad x_match x_index]. rewrite Hb, length_app, length_replicate.
  replace (Z.of_nat (length bits + pad) - Z.of_nat pad) with (Z.of_nat (length bits)) by lia.
  assert ((Z.of_nat (length bits) + 7) / 8 = (Z.of_nat (length bits + pad) + 7) / 8) as ->.
  { destruct Hpad as [->|[Hp Hm]]; [by rewrite Nat.add_0_r|].
    set (a := Z.of_nat (length bits)) in *. replace (Z.of_nat (length bits + pad)) with (a + Z.of_nat pad) in * by lia.
    Z.to_euclidean_division_equations. lia. }
  by rewrite Z.eqb_refl.
Qed.

(** ** Trees from untrusted peers *)

(** Two different pairs with the same hash. *)
Definition collision `{MerkleHash} : Prop :=
  exists a b c d, (a, b) <> (c, d) /\ Hash2 a b = Hash2 c d.

Lemma Hash2_eq `{MerkleHash} a b c d : Hash2 a b = Hash2 c d -> collision \/ (a = c /\ b = d).
Proof.
  intros E. destruct (decide ((a, b) = (c, d))) as [Eq|Hne]; [right; by simplify_eq|].
  left. by exists a, b, c, d.
Qed.

Lemma extract_bad `{MerkleHash} n h pos s :
  x_bad s = true -> x_bad (TraverseAndExtract n h pos s).2 = true.
Proof.
  revert pos s. induction h as [|h IH]; intros pos s Hb; cbn [TraverseAndExtract];
    destruct (x_bits s) as [|b bits]; try done.
  - destruct (x_hash s); [done|]. by destruct (true && b).
  - destruct b; cbn [negb].
    + pose proof (IH (pos * 2) (mkX bits (x_hash s) (x_bad s) (x_match s) (x_index s)) Hb) as IHl.
      destruct (TraverseAndExtract n h (pos * 2) _) as [l s1]. cbn [snd] in *.
      destruct (pos * 2 + 1 <? CalcTreeWidth n h); [|done].
      pose proof (IH (pos * 2 + 1) s1 IHl) as IHr.
      destruct (TraverseAndExtract n h (pos * 2 + 1) s1) as [r s2]. cbn [snd x_bad] in *. by rewrite IHr.
    + destruct (x_hash s); done.
Qed.

Section Soundness.
Context `{MerkleHash}.
Variable vTxid : list Z.
Abbreviation n := (Z.of_nat (length vTxid)).
Hypothesis n_range : 1 <= n <= 2 ^ 30.

(** The matches added between two states are nodes of the block's tree, [d] levels
    above its transactions, each at its position there. *)
Definition sound_step (d : nat) (s s' : xstate) : Prop :=
  exists ms ix, x_match s' = x_match s ++ ms /\ x_index s' = x_index s ++ ix /\
    Forall2 (fun p h => 0 <= p < Merkle.width vTxid d /\ CalcHash vTxid d p = h) ix ms.

Lemma sound_refl d s s' : x_match s' = x_match s -> x_index s' = x_index s -> sound_step d s s'.
Proof. intros E1 E2. exists [], []. rewrite !app_nil_r. split_and!; [done..|constructor]. Qed.

Lemma sound_trans d s s1 s2 : sound_step d s s1 -> sound_step d s1 s2 -> sound_step d s s2.
Proof.
  intros (m1 & i1 & Em1 & Ei1 & F1) (m2 & i2 & Em2 & Ei2 & F2). exists (m1 ++ m2), (i1 ++ i2).
  rewrite Em2, Ei2, Em1, Ei1, !app_assoc. split_and!; [done..|]. by apply Forall2_app.
Qed.

(** A node at height [h] of a tree for [m] transactions that has the hash of the
    block's node [d] levels higher.  The widths of the two trees may differ: a
    right child the block does not have would equal its sibling, which is
    refused. *)
Lemma extract_sound m d h pos s :
  (h + d <= 30)%nat -> 0 <= pos < Merkle.width vTxid (h + d) ->
  x_bad (TraverseAndExtract m h pos s).2 = false ->
  (TraverseAndExtract m h pos s).1 = CalcHash vTxid (h + d) pos ->
  collision \/ sound_step d s (TraverseAndExtract m h pos s).2.
Proof.
  revert pos s. induction h as [|h IH]; intros pos s Hh Hp; cbn [TraverseAndExtract];
    destruct (x_bits s) as [|b bits]; try done.
  - destruct (x_hash s) as [|hash hashes]; [done|]. destruct b; cbn [andb fst snd]; intros _ Eh; right.
    + exists [hash], [pos]. split_and!; [done..|]. by constructor; [|constructor].
    + by apply sound_refl.
  - destruct b; cbn [negb]; [|destruct (x_hash s); [done|]; intros _ _; right; by apply sound_refl].
    cbn [Nat.add] in Hp |- *. pose proof (width_child vTxid (h + d) pos Hp) as Hc.
    cbn [CalcHash]. rewrite CalcTreeWidth_width by (done || lia).
    set (s0 := mkX bits (x_hash s) (x_bad s) (x_match s) (x_index s)).
    pose proof (IH (pos * 2) s0 ltac:(lia) Hc) as IHl.
    destruct (TraverseAndExtract m h (pos * 2) s0) as [l s1] eqn:E1. cbn [fst snd] in IHl.
    destruct (pos * 2 + 1 <? CalcTreeWidth m h).
    + pose proof (IH (pos * 2 + 1) s1 ltac:(lia)) as IHr. pose proof (extract_bad m h (pos * 2 + 1) s1) as Hb1.
      destruct (TraverseAndExtract m h (pos * 2 + 1) s1) as [r s2] eqn:E2. cbn [fst snd x_bad] in *.
      intros [Hbad Hlr%Z.eqb_neq]%orb_false_iff Eh. apply Hash2_eq in Eh as [|[El Er]]; [by left|].
      destruct (Z.ltb_spec (pos * 2 + 1) (Merkle.width vTxid (h + d))) as [Hlt|Hge]; [|by rewrite <- El in Er].
      destruct (x_bad s1); [by rewrite Hb1 in Hbad|].
      destruct IHl as [|IHl]; [done..|by left|]. destruct IHr as [|IHr]; [lia|done..|by left|].
      right. eapply (sound_trans d _ s1); [exact IHl|]. destruct IHr as (ms & ix & Hm). exists ms, ix. exact Hm.
    + cbn [fst snd]. intros Hbad Eh. apply Hash2_eq in Eh as [|[El _]]; [by left|].
      destruct IHl as [|IHl]; [done..|by left|]. by right.
Qed.

(** A transaction id that is the hash of a pair. *)
Definition txid_is_pair : Prop := exists p a b, 0 <= p < n /\ aget vTxid p = Hash2 a b.

(** A tree that reaches below the transactions. *)
Lemma extract_deep m d h pos s :
  (h <= 30)%nat -> 0 <= pos < Merkle.width vTxid h ->
  x_bad (TraverseAndExtract m (h + S d) pos s).2 = false ->
  (TraverseAndExtract m (h + S d) pos s).1 = CalcHash vTxid h pos ->
  collision \/ txid_is_pair \/ x_match (TraverseAndExtract m (h + S d) pos s).2 = x_match s.
Proof.
  revert pos s. induction h as [|h IH]; intros pos s Hh Hp; cbn [Nat.add TraverseAndExtract];
    destruct (x_bits s) as [|b bits]; try done;
    (destruct b; cbn [negb]; [|destruct (x_hash s); [done|]; intros _ _; right; by right]).
  - intros _ Eh. right. left. rewrite width_0 in Hp. cbn [CalcHash] in Eh.
    destruct (TraverseAndExtract m d (pos * 2) _) as [l s1]. destruct (pos * 2 + 1 <? CalcTreeWidth m d).
    + destruct (TraverseAndExtract m d (pos * 2 + 1) s1) as [r s2]. by exists pos, l, r.
    + by exists pos, l, l.
  - pose proof (width_child vTxid h pos Hp) as Hc. cbn [CalcHash]. rewrite CalcTreeWidth_width by (done || lia).
    set (s0 := mkX bits (x_hash s) (x_bad s) (x_match s) (x_index s)).
    pose proof (IH (pos * 2) s0 ltac:(lia) Hc) as IHl.
    destruct (TraverseAndExtract m (h + S d) (pos * 2) s0) as [l s1] eqn:E1. cbn [fst snd] in IHl.
    destruct (pos * 2 + 1 <? CalcTreeWidth m (h + S d)).
    + pose proof (IH (pos * 2 + 1) s1 ltac:(lia)) as IHr. pose proof (extract_bad m (h + S d) (pos * 2 + 1) s1) as Hb1.
      destruct (TraverseAndExtract m (h + S d) (pos * 2 + 1) s1) as [r s2] eqn:E2. cbn [fst snd x_bad x_match] in *.
      intros [Hbad Hlr%Z.eqb_neq]%orb_false_iff Eh. apply Hash2_eq in Eh as [|[El Er]]; [by left|].
      destruct (Z.ltb_spec (pos * 2 + 1) (Merkle.width vTxid h)) as [Hlt|Hge]; [|by rewrite <- El in Er].
      destruct (x_bad s1); [by rewrite Hb1 in Hbad|].
      destruct IHl as [|[|IHl]]; [done..|by left|by right; left|]. destruct IHr as [|[|IHr]]; [lia|done..|by left|by right; left|].
      right. right. by rewrite IHr, IHl.
    + cbn [fst snd]. intros Hbad Eh. apply Hash2_eq in Eh as [|[El _]]; [by left|]. by apply IHl.
Qed.
End Soundness.

(** ** Theorems *)

(** C32. A partial Merkle tree built for a block's transactions and matches
    extracts, from the object and from its serialized form, to the block's Merkle root, the
    matched transaction ids and their positions, in order.  (No two sibling
    subtrees may have the same hash, which extraction treats as an attack.) *)
Theorem PartialMerkleTree_roundtrip `{MerkleHash} (vTxid : list Z) (vMatch : list bool) :
  1 <= Z.of_nat (length vTxid) <= GetMaxBlockWeight / MIN_TRANSACTION_WEIGHT -> no_twins vTxid ->
  exists t root mutated,
    CPartialMerkleTree_build vTxid vMatch = Some t /\
    ComputeMerkleRoot vTxid = Some (root, mutated) /\
    let ps := filter (fun p => nth p vMatch false = true) (seq 0 (length vTxid)) in
    let result := Some (root, map (fun p => aget vTxid (Z.of_nat p)) ps, map Z.of_nat ps) in
    ExtractMatches t [] = result /\ ExtractMatches (PMT_read (PMT_write t)) [] = result.
Proof.
  intros Hn Hd. assert (1 <= Z.of_nat (length vTxid) <= 2 ^ 30) as Hn'.
  { split; [lia|]. change (GetMaxBlockWeight / MIN_TRANSACTION_WEIGHT) with 33333 in Hn. lia. }
  destruct (merkle_root_tree vTxid Hn') as (L & mutated & EL & Hw & HL & Eroot & _).
  pose proof (build_sizes vTxid vMatch Hn' L 0 HL ltac:(lia)) as [Hs1 Hs2].
  pose proof (fun bs => extract_build vTxid vMatch Hn' L 0 bs [] false [] [] Hd HL ltac:(lia)) as Hx.
  unfold matched in Hx. rewrite (below_root vTxid Hn' L Hw) in *. rewrite length_seq in Hs1.
  unfold CPartialMerkleTree_build. rewrite EL.
  destruct (TraverseAndBuild vTxid vMatch L 0) as [bits hashes]. cbn [fst snd app] in *.
  eexists _, _, mutated. split_and!; [done|done|..]; cbv zeta.
  - apply (ExtractMatches_padded (mkPMT _ bits hashes false) L bits 0); try done; simpl; try lia.
    + by rewrite app_nil_r.
    + specialize (Hx []). rewrite !app_nil_r in Hx. exact Hx.
  - destruct (unpack_pack_bits (length bits) bits (le_n _)) as (pad & Hp & Hm & E).
    unfold PMT_read, PMT_write. cbn [nTransactions vHash vBits]. rewrite E.
    specialize (Hx (replicate pad false)). rewrite app_nil_r in Hx.
    apply (ExtractMatches_padded (mkPMT _ (bits ++ replicate pad false) hashes false) L bits pad); try done; simpl; try lia.
Qed.

(** C33. What a partial Merkle tree from anyone, with any number of transactions in it, proves when it extracts to
    the (non-null) Merkle root of a block of up to [2^30] transactions.  If its height is that of the block's tree, in particular if
    it has the block's number of transactions, its matches are transactions of the block, each at its position, unless
    two different pairs of hashes collide.  If it is lower, they are inner nodes of the block's tree at the level where
    it ends, unless there is such a collision: the caller has to know the number of transactions.  If it is higher, it has no
    matches, or a transaction id of the block is the hash of a pair, or there is such a collision. *)
Theorem ExtractMatches_sound `{MerkleHash} (vTxid : list Z) (t : CPartialMerkleTree) root mutated vMatch vnIndex :
  1 <= Z.of_nat (length vTxid) <= 2 ^ 30 ->
  ComputeMerkleRoot vTxid = Some (root, mutated) -> root <> 0 ->
  ExtractMatches t [] = Some (root, vMatch, vnIndex) ->
  exists L L', tree_height 32 (Z.of_nat (length vTxid)) 0 = Some L /\ tree_height 32 (nTransactions t) 0 = Some L' /\
    (nTransactions t = Z.of_nat (length vTxid) -> L' = L) /\
    (L' = L -> Forall2 (fun p hash => 0 <= p < Z.of_nat (length vTxid) /\ aget vTxid p = hash) vnIndex vMatch \/ collision) /\
    ((L' < L)%nat -> Forall2 (fun p hash => 0 <= p < Merkle.width vTxid (L - L') /\ CalcHash vTxid (L - L') p = hash) vnIndex vMatch \/ collision) /\
    ((L < L')%nat -> vMatch = [] \/ txid_is_pair vTxid \/ collision).
Proof.
  intros Hn Er Hr. destruct (merkle_root_tree vTxid Hn) as (L & m & EL & Hw & HL & Er' & _).
  rewrite Er in Er'. injection Er' as -> ->. unfold ExtractMatches.
  destruct (nTransactions t =? 0); [congruence|].
  destruct (_ <? nTransactions t); [congruence|].
  destruct (nTransactions t <? _); [congruence|].
  destruct (_ <? _)%nat; [congruence|].
  destruct (tree_height 32 (nTransactions t) 0) as [L'|] eqn:EL'; [|congruence].
  set (s0 := mkX (vBits t) (vHash t) (fBad t) [] []).
  pose proof (fun d => extract_sound vTxid Hn (nTransactions t) d L' 0 s0) as Hs.
  pose proof (fun d => extract_deep vTxid Hn (nTransactions t) d L 0 s0 HL ltac:(lia)) as Hd.
  destruct (TraverseAndExtract _ L' 0 _) as [rt s] eqn:Et. cbn [fst snd] in Hs.
  destruct (x_bad s) eqn:Ebad; [congruence|]. destruct (negb _); [congruence|]. destruct (negb _); [congruence|].
  intros E. injection E as E1 E2 E3. subst rt. exists L, L'. split; [done|]. split; [done|].
  split; [intros Ht; rewrite Ht, EL in EL'; congruence|].
  assert (Hle : (L' <= L)%nat -> Forall2 (fun p hash => 0 <= p < Merkle.width vTxid (L - L') /\ CalcHash vTxid (L - L') p = hash) vnIndex vMatch \/ collision).
  { intros Hle. specialize (Hs (L - L')%nat). replace (L' + (L - L'))%nat with L in Hs by lia.
    destruct (Hs HL ltac:(lia) eq_refl eq_refl) as [|(ms & ix & F1 & F2 & HF)]; [by right|]. left.
    rewrite F1 in E2. rewrite F2 in E3. cbn in E2, E3. by subst. }
  split_and!.
  - intros ->. destruct Hle as [HF|]; [lia| |by right]. left. rewrite Nat.sub_diag, width_0 in HF. exact HF.
  - intros Hlt. apply Hle. lia.
  - intros Hlt. specialize (Hd (L' - L - 1)%nat). replace (L + S (L' - L - 1))%nat with L' in Hd by lia. rewrite Et in Hd. cbn [fst snd] in Hd.
    destruct (Hd Ebad eq_refl) as [|[|Hm]]; [by right; right|by right; left|]. left. by rewrite <- E2, Hm.
Qed.

(** A tree that claims two transactions for a block of four shows an inner node as the match. *)
Theorem lower_tree_matches_inner_node `{MerkleHash} (a b c d : Z) :
  Hash2 a b <> Hash2 c d ->
  let t := mkPMT 2 [true; true; false] [Hash2 a b; Hash2 c d] false in
  exists root mutated, ComputeMerkleRoot [a; b; c; d] = Some (root, mutated) /\ ExtractMatches t [] = Some (root, [Hash2 a b], [0]).
Proof.
  intros Hne. cbv zeta. destruct (merkle_root_tree [a; b; c; d]) as (L & mutated & EL & _ & _ & Er & _); [cbn; lia|].
  vm_compute in EL. injection EL as <-. exists (CalcHash [a; b; c; d] 2 0), mutated. split; [exact Er|].
  unfold ExtractMatches. cbn [nTransactions vHash vBits fBad length].
  assert (tree_height 32 2 0 = Some 1%nat) as -> by (vm_compute; reflexivity).
  assert ((GetMaxBlockWeight / MIN_TRANSACTION_WEIGHT <? 2) = false) as -> by (vm_compute; reflexivity).
  change (2 =? 0) with false. change (2 <? Z.of_nat 2) with false. change (3 <? 2)%nat with false. cbv iota.
  cbn [TraverseAndExtract x_bits x_hash x_bad x_match x_index negb andb app].
  assert ((0 * 2 + 1 <? CalcTreeWidth 2 0) = true) as -> by (vm_compute; reflexivity).
  cbn [x_bits x_hash x_bad x_match x_index orb length].
  destruct (Z.eqb_spec (Hash2 c d) (Hash2 a b)) as [E|]; [by destruct Hne|]. reflexivity.
Qed.

(** ** Examples *)

Definition example_txids : list Z := [11; 12; 13].
Definition example_match : list bool := [false; true; false].

Lemma example_no_twins : @no_twins toy_hash example_txids.
Proof.
  intros k i Hk Hi Hw. destruct k as [|[|k]].
  - assert (i = 0) as -> by (change (Merkle.width example_txids 0) with 3 in Hw; lia). vm_compute. discriminate.
  - assert (i = 0) as -> by (change (Merkle.width example_txids 1) with 2 in Hw; lia). vm_compute. discriminate.
  - exfalso. pose proof (width_bounds example_txids ltac:(vm_compute; split; discriminate) (S (S k))) as Hb.
    rewrite !pow_S in Hb. change (Z.of_nat (length example_txids)) with 3 in Hb.
    pose proof (Z.pow_pos_nonneg 2 (Z.of_nat k)). nia.
Qed.

Lemma PartialMerkleTree_roundtrip_witness :
  exists t root mutated,
    @CPartialMerkleTree_build toy_hash example_txids example_match = Some t /\
    @ComputeMerkleRoot toy_hash example_txids = Some (root, mutated) /\
    let ps := filter (fun p => nth p example_match false = true) (seq 0 (length example_txids)) in
    let result := Some (root, map (fun p => aget example_txids (Z.of_nat p)) ps, map Z.of_nat ps) in
    @ExtractMatches toy_hash t [] = result /\ @ExtractMatches toy_hash (PMT_read (PMT_write t)) [] = result.
Proof.
  apply (@PartialMerkleTree_roundtrip toy_hash example_txids example_match);
    [vm_compute; split; discriminate|exact example_no_twins].
Defined.

(** Trees of three, of two and of five transactions for the block of three. *)
Lemma ExtractMatches_sound_witness :
  (Forall2 (fun p hash => 0 <= p < 3 /\ aget example_txids p = hash) [1] [12] \/ @collision toy_hash) /\
  (Forall2 (fun p hash => 0 <= p < 2 /\ @CalcHash toy_hash example_txids 1 p = hash) [0] [@Hash2 toy_hash 11 12] \/ @collision toy_hash).
Proof.
  split.
  - destruct (@ExtractMatches_sound toy_hash example_txids (mkPMT 3 [true; true; false; true; false] [11; 12; 625] false)
      (@CalcHash toy_hash example_txids 2 0) false [12] [1]) as (L & L' & EL & EL' & _ & H1 & _);
      [vm_compute; split; discriminate|vm_compute; reflexivity|vm_compute; discriminate|vm_compute; reflexivity|].
    apply H1. vm_compute in EL, EL'. congruence.
  - destruct (@ExtractMatches_sound toy_hash example_txids (mkPMT 2 [true; true; false] [@Hash2 toy_hash 11 12; @Hash2 toy_hash 13 13] false)
      (@CalcHash toy_hash example_txids 2 0) false [@Hash2 toy_hash 11 12] [0]) as (L & L' & EL & EL' & _ & _ & H2 & _);
      [vm_compute; split; discriminate|vm_compute; reflexivity|vm_compute; discriminate|vm_compute; reflexivity|].
    vm_compute in EL, EL'. injection EL as <-. injection EL' as <-. exact (H2 ltac:(lia)).
Defined.
