(* ===== verification/Interpreter.v ===== *)
(** [script/interpreter.h] and [script/interpreter.cpp]: the script interpreter.
    [EvalScript] is the loop over the instructions with one definition per opcode
    body, [VerifyScript] the verification of a spend with P2SH and witness programs.
    Stacks are lists with the top first.  The hash functions and the signature
    checker are interfaces. *)

From stdpp Require Import prelude.
From Stdlib Require Import ZArith Lia.
From S2P Require Import Prelude Opcodes Transaction Compact Script.

Open Scope Z_scope.

(** ** Errors, flags and results *)

Inductive ScriptError : Set :=
  | SCRIPT_ERR_OK | SCRIPT_ERR_UNKNOWN_ERROR | SCRIPT_ERR_EVAL_FALSE | SCRIPT_ERR_OP_RETURN
  | SCRIPT_ERR_SCRIPT_SIZE | SCRIPT_ERR_PUSH_SIZE | SCRIPT_ERR_OP_COUNT | SCRIPT_ERR_STACK_SIZE
  | SCRIPT_ERR_SIG_COUNT | SCRIPT_ERR_PUBKEY_COUNT
  | SCRIPT_ERR_VERIFY | SCRIPT_ERR_EQUALVERIFY | SCRIPT_ERR_CHECKMULTISIGVERIFY
  | SCRIPT_ERR_CHECKSIGVERIFY | SCRIPT_ERR_NUMEQUALVERIFY
  | SCRIPT_ERR_BAD_OPCODE | SCRIPT_ERR_DISABLED_OPCODE | SCRIPT_ERR_INVALID_STACK_OPERATION
  | SCRIPT_ERR_INVALID_ALTSTACK_OPERATION | SCRIPT_ERR_UNBALANCED_CONDITIONAL
  | SCRIPT_ERR_NEGATIVE_LOCKTIME | SCRIPT_ERR_UNSATISFIED_LOCKTIME
  | SCRIPT_ERR_SIG_HASHTYPE | SCRIPT_ERR_SIG_DER | SCRIPT_ERR_MINIMALDATA | SCRIPT_ERR_SIG_PUSHONLY
  | SCRIPT_ERR_SIG_HIGH_S | SCRIPT_ERR_SIG_NULLDUMMY | SCRIPT_ERR_PUBKEYTYPE | SCRIPT_ERR_CLEANSTACK
  | SCRIPT_ERR_MINIMALIF | SCRIPT_ERR_SIG_NULLFAIL
  | SCRIPT_ERR_DISCOURAGE_UPGRADABLE_NOPS | SCRIPT_ERR_DISCOURAGE_UPGRADABLE_WITNESS_PROGRAM
  | SCRIPT_ERR_WITNESS_PROGRAM_WRONG_LENGTH | SCRIPT_ERR_WITNESS_PROGRAM_WITNESS_EMPTY
  | SCRIPT_ERR_WITNESS_PROGRAM_MISMATCH | SCRIPT_ERR_WITNESS_MALLEATED
  | SCRIPT_ERR_WITNESS_MALLEATED_P2SH | SCRIPT_ERR_WITNESS_UNEXPECTED | SCRIPT_ERR_WITNESS_PUBKEYTYPE.

Definition SIGHASH_ALL : Z := 1.
Definition SIGHASH_NONE : Z := 2.
Definition SIGHASH_SINGLE : Z := 3.
Definition SIGHASH_ANYONECANPAY : Z := 0x80.

Definition SCRIPT_VERIFY_NONE : Z := 0.
Definition SCRIPT_VERIFY_P2SH : Z := Z.shiftl 1 0.
Definition SCRIPT_VERIFY_STRICTENC : Z := Z.shiftl 1 1.
Definition SCRIPT_VERIFY_DERSIG : Z := Z.shiftl 1 2.
Definition SCRIPT_VERIFY_LOW_S : Z := Z.shiftl 1 3.
Definition SCRIPT_VERIFY_NULLDUMMY : Z := Z.shiftl 1 4.
Definition SCRIPT_VERIFY_SIGPUSHONLY : Z := Z.shiftl 1 5.
Definition SCRIPT_VERIFY_MINIMALDATA : Z := Z.shiftl 1 6.
Definition SCRIPT_VERIFY_DISCOURAGE_UPGRADABLE_NOPS : Z := Z.shiftl 1 7.
Definition SCRIPT_VERIFY_CLEANSTACK : Z := Z.shiftl 1 8.
Definition SCRIPT_VERIFY_CHECKLOCKTIMEVERIFY : Z := Z.shiftl 1 9.
Definition SCRIPT_VERIFY_CHECKSEQUENCEVERIFY : Z := Z.shiftl 1 10.
Definition SCRIPT_VERIFY_WITNESS : Z := Z.shiftl 1 11.
Definition SCRIPT_VERIFY_DISCOURAGE_UPGRADABLE_WITNESS_PROGRAM : Z := Z.shiftl 1 12.
Definition SCRIPT_VERIFY_MINIMALIF : Z := Z.shiftl 1 13.
Definition SCRIPT_VERIFY_NULLFAIL : Z := Z.shiftl 1 14.
Definition SCRIPT_VERIFY_WITNESS_PUBKEYTYPE : Z := Z.shiftl 1 15.

(** [(flags & f) != 0] *)
Definition has_flag (flags f : Z) : bool := negb (Z.land flags f =? 0).

Inductive SigVersion : Set := SIGVERSION_BASE | SIGVERSION_WITNESS_V0.
#[export] Instance SigVersion_eq_dec : EqDecision SigVersion.
Proof. solve_decision. Defined.

(** The result of running a piece of the interpreter: a value, [false] with the
    error that was set, a failed assertion, or (for the loops) too little fuel. *)
Inductive outcome (A : Type) : Type :=
  | Ret (a : A)
  | Fail (e : ScriptError)
  | Abort
  | OutOfFuel.
Arguments Ret {A} a.
Arguments Fail {A} e.
Arguments Abort {A}.
Arguments OutOfFuel {A}.

#[export] Instance outcome_ret : MRet outcome := fun A a => Ret a.
#[export] Instance outcome_bind : MBind outcome := fun A B f m =>
  match m with
  | Ret a => f a
  | Fail e => Fail e
  | Abort => Abort
  | OutOfFuel => OutOfFuel
  end.

(** [if (cond) return set_error(serror, e);] *)
Definition fail_if (cond : bool) (e : ScriptError) : outcome unit := if cond then Fail e else Ret tt.
(** [assert(cond)] *)
Definition assert_that (cond : bool) : outcome unit := if cond then Ret tt else Abort.
(** An exception thrown inside the [try] block of [EvalScript]. *)
Definition or_throw {A} (o : option A) : outcome A :=
  match o with Some a => Ret a | None => Fail SCRIPT_ERR_UNKNOWN_ERROR end.

(** The hash functions of [crypto/]; [CHash160] and [CHash256] compose them. *)
Class CryptoHashes := {
  RIPEMD160 : valtype -> valtype;
  SHA1 : valtype -> valtype;
  SHA256 : valtype -> valtype
}.
Definition CHash160 `{CryptoHashes} (vch : valtype) : valtype := RIPEMD160 (SHA256 vch).
Definition CHash256 `{CryptoHashes} (vch : valtype) : valtype := SHA256 (SHA256 vch).

(** [BaseSignatureChecker], and [CPubKey::CheckLowS] of the curve library. *)
Class SignatureChecker := {
  CheckSig : valtype -> valtype -> CScript -> SigVersion -> bool;
  CheckLockTime : Z -> bool;
  CheckSequence : Z -> bool;
  CheckLowS : valtype -> bool
}.

(** ** Values and encodings *)

(** [CastToBool]: any non-zero byte, except a sign byte alone at the end. *)
Fixpoint CastToBool (vch : valtype) : bool :=
  match vch with
  | [] => false
  | b :: rest =>
      if negb (b =? 0) then negb (match rest with [] => b =? 0x80 | _ => false end)
      else CastToBool rest
  end.

Definition IsCompressedOrUncompressedPubKey (k : valtype) : bool :=
  if size k <? 33 then false
  else if aget k 0 =? 0x04 then size k =? 65
  else if (aget k 0 =? 0x02) || (aget k 0 =? 0x03) then size k =? 33
  else false.

Definition IsCompressedPubKey (k : valtype) : bool :=
  if negb (size k =? 33) then false
  else negb (negb (aget k 0 =? 0x02) && negb (aget k 0 =? 0x03)).

(** [IsValidSignatureEncoding]: the strict DER check, test by test. *)
Definition IsValidSignatureEncoding (sig : valtype) : bool :=
  if size sig <? 9 then false
  else if 73 <? size sig then false
  else if negb (aget sig 0 =? 0x30) then false
  else if negb (aget sig 1 =? size sig - 3) then false
  else
    let lenR := aget sig 3 in
    if size sig <=? 5 + lenR then false
    else
      let lenS := aget sig (5 + lenR) in
      if negb (lenR + lenS + 7 =? size sig) then false
      else if negb (aget sig 2 =? 0x02) then false
      else if lenR =? 0 then false
      else if negb (Z.land (aget sig 4) 0x80 =? 0) then false
      else if (1 <? lenR) && (aget sig 4 =? 0x00) && (Z.land (aget sig 5) 0x80 =? 0) then false
      else if negb (aget sig (lenR + 4) =? 0x02) then false
      else if lenS =? 0 then false
      else if negb (Z.land (aget sig (lenR + 6)) 0x80 =? 0) then false
      else if (1 <? lenS) && (aget sig (lenR + 6) =? 0x00) && (Z.land (aget sig (lenR + 7)) 0x80 =? 0) then false
      else true.

Definition IsDefinedHashtypeSignature (vchSig : valtype) : bool :=
  if size vchSig =? 0 then false
  else
    let nHashType := Z.land (back vchSig) (u8 (Z.lnot SIGHASH_ANYONECANPAY)) in
    negb ((nHashType <? SIGHASH_ALL) || (SIGHASH_SINGLE <? nHashType)).

Definition CheckMinimalPush (data : valtype) (opcode : Z) : bool :=
  if size data =? 0 then opcode =? OP_0
  else if (size data =? 1) && (1 <=? aget data 0) && (aget data 0 <=? 16) then opcode =? OP_1 + (aget data 0 - 1)
  else if (size data =? 1) && (aget data 0 =? 0x81) then opcode =? OP_1NEGATE
  else if size data <=? 75 then opcode =? size data
  else if size data <=? 255 then opcode =? OP_PUSHDATA1
  else if size data <=? 65535 then opcode =? OP_PUSHDATA2
  else true.

Section Encodings.
Context `{SignatureChecker}.

(** [IsLowDERSignature] and the two encoding checks return unit, or fail with
    the error they set. *)
Definition IsLowDERSignature (vchSig : valtype) : outcome unit :=
  fail_if (negb (IsValidSignatureEncoding vchSig)) SCRIPT_ERR_SIG_DER ≫= fun _ =>
  fail_if (negb (CheckLowS (take (length vchSig - 1) vchSig))) SCRIPT_ERR_SIG_HIGH_S.

Definition CheckSignatureEncoding (vchSig : valtype) (flags : Z) : outcome unit :=
  if size vchSig =? 0 then Ret tt
  else if has_flag flags (Z.lor (Z.lor SCRIPT_VERIFY_DERSIG SCRIPT_VERIFY_LOW_S) SCRIPT_VERIFY_STRICTENC)
          && negb (IsValidSignatureEncoding vchSig) then Fail SCRIPT_ERR_SIG_DER
  else
    match (if has_flag flags SCRIPT_VERIFY_LOW_S then IsLowDERSignature vchSig else Ret tt) with
    | Ret _ => fail_if (has_flag flags SCRIPT_VERIFY_STRICTENC && negb (IsDefinedHashtypeSignature vchSig))
                 SCRIPT_ERR_SIG_HASHTYPE
    | other => other
    end.

Definition CheckPubKeyEncoding (vchPubKey : valtype) (flags : Z) (sigversion : SigVersion) : outcome unit :=
  fail_if (has_flag flags SCRIPT_VERIFY_STRICTENC && negb (IsCompressedOrUncompressedPubKey vchPubKey))
    SCRIPT_ERR_PUBKEYTYPE ≫= fun _ =>
  fail_if (has_flag flags SCRIPT_VERIFY_WITNESS_PUBKEYTYPE && bool_decide (sigversion = SIGVERSION_WITNESS_V0)
           && negb (IsCompressedPubKey vchPubKey)) SCRIPT_ERR_WITNESS_PUBKEYTYPE.
End Encodings.

(** ** The machine *)

(** The local variables of [EvalScript]: [es_code] is the script from
    [pbegincodehash] on, [es_pc] from [pc] on. *)
Record estate := mkE {
  es_stack : list valtype;
  es_altstack : list valtype;
  es_vfExec : list bool;
  es_nOpCount : Z;
  es_code : CScript;
  es_pc : CScript
}.

Definition set_stack (s : estate) (st : list valtype) : estate :=
  mkE st (es_altstack s) (es_vfExec s) (es_nOpCount s) (es_code s) (es_pc s).
Definition set_exec (s : estate) (v : list bool) : estate :=
  mkE (es_stack s) (es_altstack s) v (es_nOpCount s) (es_code s) (es_pc s).
Definition set_count (s : estate) (n : Z) : estate :=
  mkE (es_stack s) (es_altstack s) (es_vfExec s) n (es_code s) (es_pc s).

Definition vchFalse : valtype := [].
Definition vchTrue : valtype := [1].
Definition vch_of_bool (b : bool) : valtype := if b then vchTrue else vchFalse.
Definition Z_of_bool (b : bool) : Z := if b then 1 else 0.

Definition bad_stack {A} : outcome A := Fail SCRIPT_ERR_INVALID_STACK_OPERATION.

(** *** Script number arithmetic *)

(** [operator+=], [operator-=] and unary minus assert that they do not
    overflow; [operator+] and [operator-] do not. *)
Definition num_add_assign (m rhs : Z) : outcome Z :=
  if (rhs =? 0) || ((0 <? rhs) && (m <=? INT64_MAX - rhs)) || ((rhs <? 0) && (INT64_MIN - rhs <=? m))
  then Ret (m + rhs) else Abort.
Definition num_sub_assign (m rhs : Z) : outcome Z :=
  if (rhs =? 0) || ((0 <? rhs) && (INT64_MIN + rhs <=? m)) || ((rhs <? 0) && (m <=? INT64_MAX + rhs))
  then Ret (m - rhs) else Abort.
Definition num_neg (m : Z) : outcome Z := if m =? INT64_MIN then Abort else Ret (- m).
Definition num_add (a b : Z) : Z := s64 (a + b).
Definition num_sub (a b : Z) : Z := s64 (a - b).

Section Ops.
Context `{CryptoHashes} `{SignatureChecker}.
Variables (flags : Z) (sigversion : SigVersion).

Definition fRequireMinimal : bool := has_flag flags SCRIPT_VERIFY_MINIMALDATA.

(** [CScriptNum(vch, fRequireMinimal)] *)
Definition num4 (vch : valtype) : outcome Z := or_throw (CScriptNum vch fRequireMinimal nDefaultMaxNumSize).
Definition num5 (vch : valtype) : outcome Z := or_throw (CScriptNum vch fRequireMinimal 5).

(** *** Push value and control *)

Definition op_push_number (opcode : Z) (s : estate) : outcome estate :=
  Ret (set_stack s (serialize (opcode - (OP_1 - 1)) :: es_stack s)).

(** An operation that is still a NOP under these flags. *)
Definition op_upgradable_nop (s : estate) : outcome estate :=
  fail_if (has_flag flags SCRIPT_VERIFY_DISCOURAGE_UPGRADABLE_NOPS) SCRIPT_ERR_DISCOURAGE_UPGRADABLE_NOPS ≫= fun _ =>
  Ret s.

Definition op_checklocktimeverify (s : estate) : outcome estate :=
  if negb (has_flag flags SCRIPT_VERIFY_CHECKLOCKTIMEVERIFY) then op_upgradable_nop s
  else match es_stack s with
       | [] => bad_stack
       | top :: _ =>
           nLockTime ← num5 top;
           fail_if (nLockTime <? 0) SCRIPT_ERR_NEGATIVE_LOCKTIME ≫= fun _ =>
           fail_if (negb (CheckLockTime nLockTime)) SCRIPT_ERR_UNSATISFIED_LOCKTIME ≫= fun _ =>
           Ret s
       end.

Definition op_checksequenceverify (s : estate) : outcome estate :=
  if negb (has_flag flags SCRIPT_VERIFY_CHECKSEQUENCEVERIFY) then op_upgradable_nop s
  else match es_stack s with
       | [] => bad_stack
       | top :: _ =>
           nSequence ← num5 top;
           fail_if (nSequence <? 0) SCRIPT_ERR_NEGATIVE_LOCKTIME ≫= fun _ =>
           if negb (Z.land nSequence SEQUENCE_LOCKTIME_DISABLE_FLAG =? 0) then Ret s
           else
             fail_if (negb (CheckSequence nSequence)) SCRIPT_ERR_UNSATISFIED_LOCKTIME ≫= fun _ =>
             Ret s
       end.

Definition op_if (opcode : Z) (fExec : bool) (s : estate) : outcome estate :=
  if fExec then
    match es_stack s with
    | [] => Fail SCRIPT_ERR_UNBALANCED_CONDITIONAL
    | vch :: rest =>
        fail_if (bool_decide (sigversion = SIGVERSION_WITNESS_V0) && has_flag flags SCRIPT_VERIFY_MINIMALIF
                 && ((1 <? size vch) || ((size vch =? 1) && negb (aget vch 0 =? 1)))) SCRIPT_ERR_MINIMALIF ≫= fun _ =>
        let fValue := CastToBool vch in
        let fValue' := if opcode =? OP_NOTIF then negb fValue else fValue in
        Ret (set_exec (set_stack s rest) (fValue' :: es_vfExec s))
    end
  else Ret (set_exec s (false :: es_vfExec s)).

Definition op_else (s : estate) : outcome estate :=
  match es_vfExec s with
  | [] => Fail SCRIPT_ERR_UNBALANCED_CONDITIONAL
  | b :: rest => Ret (set_exec s (negb b :: rest))
  end.

Definition op_endif (s : estate) : outcome estate :=
  match es_vfExec s with
  | [] => Fail SCRIPT_ERR_UNBALANCED_CONDITIONAL
  | _ :: rest => Ret (set_exec s rest)
  end.

Definition op_verify (s : estate) : outcome estate :=
  match es_stack s with
  | [] => bad_stack
  | top :: rest => if CastToBool top then Ret (set_stack s rest) else Fail SCRIPT_ERR_VERIFY
  end.

(** *** Stack operations *)

Definition op_toaltstack (s : estate) : outcome estate :=
  match es_stack s with
  | [] => bad_stack
  | top :: rest =>
      Ret (mkE rest (top :: es_altstack s) (es_vfExec s) (es_nOpCount s) (es_code s) (es_pc s))
  end.

Definition op_fromaltstack (s : estate) : outcome estate :=
  match es_altstack s with
  | [] => Fail SCRIPT_ERR_INVALID_ALTSTACK_OPERATION
  | top :: rest =>
      Ret (mkE (top :: es_stack s) rest (es_vfExec s) (es_nOpCount s) (es_code s) (es_pc s))
  end.

(** The operations that only rearrange the top of the stack. *)
Definition on_stack (f : list valtype -> option (list valtype)) (s : estate) : outcome estate :=
  match f (es_stack s) with
  | Some st => Ret (set_stack s st)
  | None => bad_stack
  end.

Definition st_2drop (st : list valtype) : option (list valtype) :=
  match st with _ :: _ :: r => Some r | _ => None end.
Definition st_2dup (st : list valtype) : option (list valtype) :=
  match st with x2 :: x1 :: r => Some (x2 :: x1 :: x2 :: x1 :: r) | _ => None end.
Definition st_3dup (st : list valtype) : option (list valtype) :=
  match st with x3 :: x2 :: x1 :: r => Some (x3 :: x2 :: x1 :: x3 :: x2 :: x1 :: r) | _ => None end.
Definition st_2over (st : list valtype) : option (list valtype) :=
  match st with x4 :: x3 :: x2 :: x1 :: r => Some (x2 :: x1 :: x4 :: x3 :: x2 :: x1 :: r) | _ => None end.
Definition st_2rot (st : list valtype) : option (list valtype) :=
  match st with
  | x6 :: x5 :: x4 :: x3 :: x2 :: x1 :: r => Some (x2 :: x1 :: x6 :: x5 :: x4 :: x3 :: r)
  | _ => None
  end.
Definition st_2swap (st : list valtype) : option (list valtype) :=
  match st with x4 :: x3 :: x2 :: x1 :: r => Some (x2 :: x1 :: x4 :: x3 :: r) | _ => None end.
Definition st_ifdup (st : list valtype) : option (list valtype) :=
  match st with x :: r => Some (if CastToBool x then x :: x :: r else x :: r) | _ => None end.
Definition st_depth (st : list valtype) : option (list valtype) := Some (serialize (size st) :: st).
Definition st_drop (st : list valtype) : option (list valtype) :=
  match st with _ :: r => Some r | _ => None end.
Definition st_dup (st : list valtype) : option (list valtype) :=
  match st with x :: r => Some (x :: x :: r) | _ => None end.
Definition st_nip (st : list valtype) : option (list valtype) :=
  match st with x2 :: _ :: r => Some (x2 :: r) | _ => None end.
Definition st_over (st : list valtype) : option (list valtype) :=
  match st with x2 :: x1 :: r => Some (x1 :: x2 :: x1 :: r) | _ => None end.
Definition st_rot (st : list valtype) : option (list valtype) :=
  match st with x3 :: x2 :: x1 :: r => Some (x1 :: x3 :: x2 :: r) | _ => None end.
Definition st_swap (st : list valtype) : option (list valtype) :=
  match st with x2 :: x1 :: r => Some (x1 :: x2 :: r) | _ => None end.
Definition st_tuck (st : list valtype) : option (list valtype) :=
  match st with x2 :: x1 :: r => Some (x2 :: x1 :: x2 :: r) | _ => None end.
Definition st_size (st : list valtype) : option (list valtype) :=
  match st with x :: r => Some (serialize (size x) :: x :: r) | _ => None end.

(** [OP_PICK] and [OP_ROLL]: [n] counts from the element below the operand. *)
Definition op_pick_roll (opcode : Z) (s : estate) : outcome estate :=
  match es_stack s with
  | top :: ((_ :: _) as rest) =>
      v ← num4 top;
      let n := getint v in
      if (n <? 0) || (size rest <=? n) then bad_stack
      else
        vch ← or_throw (rest !! Z.to_nat n);
        let rest' := if opcode =? OP_ROLL then delete (Z.to_nat n) rest else rest in
        Ret (set_stack s (vch :: rest'))
  | _ => bad_stack
  end.

(** *** Bitwise logic and arithmetic *)

Definition op_equal (opcode : Z) (s : estate) : outcome estate :=
  match es_stack s with
  | vch2 :: vch1 :: r =>
      let fEqual := bool_decide (vch1 = vch2) in
      if opcode =? OP_EQUALVERIFY then
        if fEqual then Ret (set_stack s r) else Fail SCRIPT_ERR_EQUALVERIFY
      else Ret (set_stack s (vch_of_bool fEqual :: r))
  | _ => bad_stack
  end.

Definition unary (opcode bn : Z) : outcome Z :=
  if opcode =? OP_1ADD then num_add_assign bn 1
  else if opcode =? OP_1SUB then num_sub_assign bn 1
  else if opcode =? OP_NEGATE then num_neg bn
  else if opcode =? OP_ABS then if bn <? 0 then num_neg bn else Ret bn
  else if opcode =? OP_NOT then Ret (Z_of_bool (bn =? 0))
  else if opcode =? OP_0NOTEQUAL then Ret (Z_of_bool (negb (bn =? 0)))
  else Abort.

Definition op_unary (opcode : Z) (s : estate) : outcome estate :=
  match es_stack s with
  | [] => bad_stack
  | top :: r =>
      bn ← num4 top;
      bn' ← unary opcode bn;
      Ret (set_stack s (serialize bn' :: r))
  end.

Definition binary (opcode bn1 bn2 : Z) : outcome Z :=
  if opcode =? OP_ADD then Ret (num_add bn1 bn2)
  else if opcode =? OP_SUB then Ret (num_sub bn1 bn2)
  else if opcode =? OP_BOOLAND then Ret (Z_of_bool (negb (bn1 =? 0) && negb (bn2 =? 0)))
  else if opcode =? OP_BOOLOR then Ret (Z_of_bool (negb (bn1 =? 0) || negb (bn2 =? 0)))
  else if (opcode =? OP_NUMEQUAL) || (opcode =? OP_NUMEQUALVERIFY) then Ret (Z_of_bool (bn1 =? bn2))
  else if opcode =? OP_NUMNOTEQUAL then Ret (Z_of_bool (negb (bn1 =? bn2)))
  else if opcode =? OP_LESSTHAN then Ret (Z_of_bool (bn1 <? bn2))
  else if opcode =? OP_GREATERTHAN then Ret (Z_of_bool (bn2 <? bn1))
  else if opcode =? OP_LESSTHANOREQUAL then Ret (Z_of_bool (bn1 <=? bn2))
  else if opcode =? OP_GREATERTHANOREQUAL then Ret (Z_of_bool (bn2 <=? bn1))
  else if opcode =? OP_MIN then Ret (if bn1 <? bn2 then bn1 else bn2)
  else if opcode =? OP_MAX then Ret (if bn2 <? bn1 then bn1 else bn2)
  else Abort.

Definition op_binary (opcode : Z) (s : estate) : outcome estate :=
  match es_stack s with
  | top :: top2 :: r =>
      bn1 ← num4 top2;
      bn2 ← num4 top;
      bn ← binary opcode bn1 bn2;
      if opcode =? OP_NUMEQUALVERIFY then
        if CastToBool (serialize bn) then Ret (set_stack s r) else Fail SCRIPT_ERR_NUMEQUALVERIFY
      else Ret (set_stack s (serialize bn :: r))
  | _ => bad_stack
  end.

Definition op_within (s : estate) : outcome estate :=
  match es_stack s with
  | top :: top2 :: top3 :: r =>
      bn1 ← num4 top3;
      bn2 ← num4 top2;
      bn3 ← num4 top;
      Ret (set_stack s (vch_of_bool ((bn2 <=? bn1) && (bn1 <? bn3)) :: r))
  | _ => bad_stack
  end.

(** *** Hashes and signatures *)

Definition op_hash (opcode : Z) (s : estate) : outcome estate :=
  match es_stack s with
  | [] => bad_stack
  | vch :: r =>
      let vchHash := if opcode =? OP_RIPEMD160 then RIPEMD160 vch
                     else if opcode =? OP_SHA1 then SHA1 vch
                     else if opcode =? OP_SHA256 then SHA256 vch
                     else if opcode =? OP_HASH160 then CHash160 vch
                     else CHash256 vch in
      Ret (set_stack s (vchHash :: r))
  end.

Definition op_codeseparator (s : estate) : outcome estate :=
  Ret (mkE (es_stack s) (es_altstack s) (es_vfExec s) (es_nOpCount s) (es_pc s) (es_pc s)).

(** [scriptCode.FindAndDelete(CScript(vchSig))] before segwit. *)
Definition drop_sig (scriptCode : CScript) (vchSig : valtype) : CScript :=
  match sigversion with
  | SIGVERSION_BASE => FindAndDelete scriptCode (push_data vchSig)
  | SIGVERSION_WITNESS_V0 => scriptCode
  end.

Definition check_encodings (vchSig vchPubKey : valtype) : outcome unit :=
  CheckSignatureEncoding vchSig flags ≫= fun _ => CheckPubKeyEncoding vchPubKey flags sigversion.

Definition op_checksig (opcode : Z) (s : estate) : outcome estate :=
  match es_stack s with
  | vchPubKey :: vchSig :: r =>
      let scriptCode := drop_sig (es_code s) vchSig in
      check_encodings vchSig vchPubKey ≫= fun _ =>
      let fSuccess := CheckSig vchSig vchPubKey scriptCode sigversion in
      fail_if (negb fSuccess && has_flag flags SCRIPT_VERIFY_NULLFAIL && negb (size vchSig =? 0))
        SCRIPT_ERR_SIG_NULLFAIL ≫= fun _ =>
      if opcode =? OP_CHECKSIGVERIFY then
        if fSuccess then Ret (set_stack s r) else Fail SCRIPT_ERR_CHECKSIGVERIFY
      else Ret (set_stack s (vch_of_bool fSuccess :: r))
  | _ => bad_stack
  end.

(** [stacktop(-i)] *)
Definition stacktop (st : list valtype) (i : Z) : outcome valtype := or_throw (st !! Z.to_nat (i - 1)).

(** The loop that drops the signatures from [scriptCode]. *)
Fixpoint drop_sigs (n : nat) (st : list valtype) (isig : Z) (scriptCode : CScript) : outcome CScript :=
  match n with
  | O => Ret scriptCode
  | S n' =>
      vchSig ← stacktop st isig;
      drop_sigs n' st (isig + 1) (drop_sig scriptCode vchSig)
  end.

(** [while (fSuccess && nSigsCount > 0)]: every pass uses up a key. *)
Fixpoint multisig_loop (fuel : nat) (st : list valtype) (scriptCode : CScript)
    (isig ikey nSigsCount nKeysCount : Z) : outcome bool :=
  if negb (0 <? nSigsCount) then Ret true
  else
    match fuel with
    | O => OutOfFuel
    | S fuel' =>
        vchSig ← stacktop st isig;
        vchPubKey ← stacktop st ikey;
        check_encodings vchSig vchPubKey ≫= fun _ =>
        let fOk := CheckSig vchSig vchPubKey scriptCode sigversion in
        let nSigs' := if fOk then nSigsCount - 1 else nSigsCount in
        let nKeys' := nKeysCount - 1 in
        if nKeys' <? nSigs' then Ret false
        else multisig_loop fuel' st scriptCode (if fOk then isig + 1 else isig) (ikey + 1) nSigs' nKeys'
    end.

(** [while (i-- > 1)]: [n] arguments are popped. *)
Fixpoint multisig_cleanup (n : nat) (fSuccess : bool) (ikey2 : Z) (st : list valtype) : outcome (list valtype) :=
  match n with
  | O => Ret st
  | S n' =>
      match st with
      | [] => Fail SCRIPT_ERR_UNKNOWN_ERROR
      | top :: rest =>
          fail_if (negb fSuccess && has_flag flags SCRIPT_VERIFY_NULLFAIL && (ikey2 =? 0) && negb (size top =? 0))
            SCRIPT_ERR_SIG_NULLFAIL ≫= fun _ =>
          multisig_cleanup n' fSuccess (if 0 <? ikey2 then ikey2 - 1 else ikey2) rest
      end
  end.

Definition op_checkmultisig (opcode : Z) (s : estate) : outcome estate :=
  let st := es_stack s in
  fail_if (size st <? 1) SCRIPT_ERR_INVALID_STACK_OPERATION ≫= fun _ =>
  topKeys ← stacktop st 1;
  vKeys ← num4 topKeys;
  let nKeysCount := getint vKeys in
  fail_if ((nKeysCount <? 0) || (MAX_PUBKEYS_PER_MULTISIG <? nKeysCount)) SCRIPT_ERR_PUBKEY_COUNT ≫= fun _ =>
  let nOpCount := es_nOpCount s + nKeysCount in
  fail_if (MAX_OPS_PER_SCRIPT <? nOpCount) SCRIPT_ERR_OP_COUNT ≫= fun _ =>
  let ikey := 2 in
  let ikey2 := nKeysCount + 2 in
  let i := 2 + nKeysCount in
  fail_if (size st <? i) SCRIPT_ERR_INVALID_STACK_OPERATION ≫= fun _ =>
  topSigs ← stacktop st i;
  vSigs ← num4 topSigs;
  let nSigsCount := getint vSigs in
  fail_if ((nSigsCount <? 0) || (nKeysCount <? nSigsCount)) SCRIPT_ERR_SIG_COUNT ≫= fun _ =>
  let isig := i + 1 in
  let i := i + 1 + nSigsCount in
  fail_if (size st <? i) SCRIPT_ERR_INVALID_STACK_OPERATION ≫= fun _ =>
  scriptCode ← drop_sigs (Z.to_nat nSigsCount) st isig (es_code s);
  multisig_loop (Z.to_nat nKeysCount) st scriptCode isig ikey nSigsCount nKeysCount ≫= fun fSuccess : bool =>
  st' ← multisig_cleanup (Z.to_nat (i - 1)) fSuccess ikey2 st;
  match st' with
  | [] => bad_stack
  | dummy :: r =>
      fail_if (has_flag flags SCRIPT_VERIFY_NULLDUMMY && negb (size dummy =? 0)) SCRIPT_ERR_SIG_NULLDUMMY ≫= fun _ =>
      if opcode =? OP_CHECKMULTISIGVERIFY then
        if fSuccess then Ret (set_count (set_stack s r) nOpCount) else Fail SCRIPT_ERR_CHECKMULTISIGVERIFY
      else Ret (set_count (set_stack s (vch_of_bool fSuccess :: r)) nOpCount)
  end.

(** *** One instruction *)

Definition is_disabled (opcode : Z) : bool :=
  existsb (Z.eqb opcode)
    [OP_CAT; OP_SUBSTR; OP_LEFT; OP_RIGHT; OP_INVERT; OP_AND; OP_OR; OP_XOR; OP_2MUL; OP_2DIV; OP_MUL; OP_DIV;
     OP_MOD; OP_LSHIFT; OP_RSHIFT].
Definition is_op (opcode : Z) (ops : list Z) : bool := existsb (Z.eqb opcode) ops.

(** The [switch] of [EvalScript]. *)
Definition exec_op (opcode : Z) (fExec : bool) (s : estate) : outcome estate :=
  if (opcode =? OP_1NEGATE) || ((OP_1 <=? opcode) && (opcode <=? OP_16)) then op_push_number opcode s
  else if opcode =? OP_NOP then Ret s
  else if opcode =? OP_CHECKLOCKTIMEVERIFY then op_checklocktimeverify s
  else if opcode =? OP_CHECKSEQUENCEVERIFY then op_checksequenceverify s
  else if is_op opcode [OP_NOP1; OP_NOP4; OP_NOP5; OP_NOP6; OP_NOP7; OP_NOP8; OP_NOP9; OP_NOP10] then op_upgradable_nop s
  else if is_op opcode [OP_IF; OP_NOTIF] then op_if opcode fExec s
  else if opcode =? OP_ELSE then op_else s
  else if opcode =? OP_ENDIF then op_endif s
  else if opcode =? OP_VERIFY then op_verify s
  else if opcode =? OP_RETURN then Fail SCRIPT_ERR_OP_RETURN
  else if opcode =? OP_TOALTSTACK then op_toaltstack s
  else if opcode =? OP_FROMALTSTACK then op_fromaltstack s
  else if opcode =? OP_2DROP then on_stack st_2drop s
  else if opcode =? OP_2DUP then on_stack st_2dup s
  else if opcode =? OP_3DUP then on_stack st_3dup s
  else if opcode =? OP_2OVER then on_stack st_2over s
  else if opcode =? OP_2ROT then on_stack st_2rot s
  else if opcode =? OP_2SWAP then on_stack st_2swap s
  else if opcode =? OP_IFDUP then on_stack st_ifdup s
  else if opcode =? OP_DEPTH then on_stack st_depth s
  else if opcode =? OP_DROP then on_stack st_drop s
  else if opcode =? OP_DUP then on_stack st_dup s
  else if opcode =? OP_NIP then on_stack st_nip s
  else if opcode =? OP_OVER then on_stack st_over s
  else if is_op opcode [OP_PICK; OP_ROLL] then op_pick_roll opcode s
  else if opcode =? OP_ROT then on_stack st_rot s
  else if opcode =? OP_SWAP then on_stack st_swap s
  else if opcode =? OP_TUCK then on_stack st_tuck s
  else if opcode =? OP_SIZE then on_stack st_size s
  else if is_op opcode [OP_EQUAL; OP_EQUALVERIFY] then op_equal opcode s
  else if is_op opcode [OP_1ADD; OP_1SUB; OP_NEGATE; OP_ABS; OP_NOT; OP_0NOTEQUAL] then op_unary opcode s
  else if is_op opcode [OP_ADD; OP_SUB; OP_BOOLAND; OP_BOOLOR; OP_NUMEQUAL; OP_NUMEQUALVERIFY; OP_NUMNOTEQUAL;
                        OP_LESSTHAN; OP_GREATERTHAN; OP_LESSTHANOREQUAL; OP_GREATERTHANOREQUAL; OP_MIN; OP_MAX]
       then op_binary opcode s
  else if opcode =? OP_WITHIN then op_within s
  else if is_op opcode [OP_RIPEMD160; OP_SHA1; OP_SHA256; OP_HASH160; OP_HASH256] then op_hash opcode s
  else if opcode =? OP_CODESEPARATOR then op_codeseparator s
  else if is_op opcode [OP_CHECKSIG; OP_CHECKSIGVERIFY] then op_checksig opcode s
  else if is_op opcode [OP_CHECKMULTISIG; OP_CHECKMULTISIGVERIFY] then op_checkmultisig opcode s
  else if opcode =? OP_RVH_ASSET then Ret s
  else Fail SCRIPT_ERR_BAD_OPCODE.

(** The body of the [while (pc < pend)] loop. *)
Definition step (s : estate) : outcome estate :=
  let fExec := forallb id (es_vfExec s) in
  match GetOp2 (es_pc s) with
  | None => Fail SCRIPT_ERR_BAD_OPCODE
  | Some (opcode, vchPushValue, pc) =>
      fail_if (MAX_SCRIPT_ELEMENT_SIZE <? size vchPushValue) SCRIPT_ERR_PUSH_SIZE ≫= fun _ =>
      let nOpCount := if OP_16 <? opcode then es_nOpCount s + 1 else es_nOpCount s in
      fail_if ((OP_16 <? opcode) && (MAX_OPS_PER_SCRIPT <? nOpCount)) SCRIPT_ERR_OP_COUNT ≫= fun _ =>
      fail_if (is_disabled opcode) SCRIPT_ERR_DISABLED_OPCODE ≫= fun _ =>
      let s1 := mkE (es_stack s) (es_altstack s) (es_vfExec s) nOpCount (es_code s) pc in
      s2 ← (if fExec && (0 <=? opcode) && (opcode <=? OP_PUSHDATA4) then
              fail_if (fRequireMinimal && negb (CheckMinimalPush vchPushValue opcode)) SCRIPT_ERR_MINIMALDATA ≫= fun _ =>
              Ret (set_stack s1 (vchPushValue :: es_stack s1))
            else if fExec || ((OP_IF <=? opcode) && (opcode <=? OP_ENDIF)) then exec_op opcode fExec s1
            else Ret s1);
      fail_if (MAX_STACK_SIZE <? size (es_stack s2) + size (es_altstack s2)) SCRIPT_ERR_STACK_SIZE ≫= fun _ =>
      Ret s2
  end.

Fixpoint eval_loop (fuel : nat) (s : estate) : outcome estate :=
  match es_pc s, fuel with
  | [], _ => Ret s
  | _, O => OutOfFuel
  | _, S fuel' => step s ≫= eval_loop fuel'
  end.

(** [EvalScript]: every instruction takes at least one byte of the script. *)
Definition EvalScript (stack : list valtype) (script : CScript) : outcome (list valtype) :=
  fail_if (MAX_SCRIPT_SIZE <? size script) SCRIPT_ERR_SCRIPT_SIZE ≫= fun _ =>
  s ← eval_loop (length script) (mkE stack [] [] 0 script script);
  fail_if (negb (match es_vfExec s with [] => true | _ => false end)) SCRIPT_ERR_UNBALANCED_CONDITIONAL ≫= fun _ =>
  Ret (es_stack s).
End Ops.

(** ** Verifying a spend *)

Section Verify.
Context `{CryptoHashes} `{SignatureChecker}.
Variable flags : Z.

(** [if (stack.empty()) ... if (!CastToBool(stack.back()))] *)
Definition check_true (stack : list valtype) : outcome unit :=
  match stack with
  | [] => Fail SCRIPT_ERR_EVAL_FALSE
  | top :: _ => fail_if (negb (CastToBool top)) SCRIPT_ERR_EVAL_FALSE
  end.

(** The witness is listed as it is serialized, so its back is the last
    element; a stack has its top first. *)
Definition VerifyWitnessProgram (witness : list valtype) (witversion : Z) (program : valtype) : outcome unit :=
  if witversion =? 0 then
    let run (stack : list valtype) (scriptPubKey : CScript) :=
      fail_if (existsb (fun e => MAX_SCRIPT_ELEMENT_SIZE <? size e) stack) SCRIPT_ERR_PUSH_SIZE ≫= fun _ =>
      stack' ← EvalScript flags SIGVERSION_WITNESS_V0 stack scriptPubKey;
      fail_if (negb (size stack' =? 1)) SCRIPT_ERR_EVAL_FALSE ≫= fun _ =>
      check_true stack' in
    if size program =? 32 then
      match rev witness with
      | [] => Fail SCRIPT_ERR_WITNESS_PROGRAM_WITNESS_EMPTY
      | scriptPubKey :: stack =>
          fail_if (negb (bool_decide (SHA256 scriptPubKey = program))) SCRIPT_ERR_WITNESS_PROGRAM_MISMATCH ≫= fun _ =>
          run stack scriptPubKey
      end
    else if size program =? 20 then
      fail_if (negb (size witness =? 2)) SCRIPT_ERR_WITNESS_PROGRAM_MISMATCH ≫= fun _ =>
      run (rev witness) ([OP_DUP; OP_HASH160] ++ push_data program ++ [OP_EQUALVERIFY; OP_CHECKSIG])
    else Fail SCRIPT_ERR_WITNESS_PROGRAM_WRONG_LENGTH
  else fail_if (has_flag flags SCRIPT_VERIFY_DISCOURAGE_UPGRADABLE_WITNESS_PROGRAM)
         SCRIPT_ERR_DISCOURAGE_UPGRADABLE_WITNESS_PROGRAM.

(** [stack.resize(1)] of a vector whose first element is the bottom. *)
Definition resize1 (stack : list valtype) : list valtype := [default [] (last stack)].

(** The P2SH part: the stack left by [scriptSig], and whether there was a
    witness program; the resulting stack. *)
Definition verify_p2sh (scriptSig : CScript) (witness stackCopy : list valtype) (hadWitness : bool)
    : outcome (list valtype * bool) :=
  fail_if (negb (IsPushOnly scriptSig)) SCRIPT_ERR_SIG_PUSHONLY ≫= fun _ =>
  match stackCopy with
  | [] => Abort
  | pubKey2 :: rest =>
      stack ← EvalScript flags SIGVERSION_BASE rest pubKey2;
      check_true stack ≫= fun _ =>
      match (if has_flag flags SCRIPT_VERIFY_WITNESS then IsWitnessProgram pubKey2 else None) with
      | Some (version, program) =>
          fail_if (negb (bool_decide (scriptSig = push_data pubKey2))) SCRIPT_ERR_WITNESS_MALLEATED_P2SH ≫= fun _ =>
          VerifyWitnessProgram witness version program ≫= fun _ =>
          Ret (resize1 stack, true)
      | None => Ret (stack, hadWitness)
      end
  end.

Definition VerifyScript (scriptSig scriptPubKey : CScript) (witness : list valtype) : outcome unit :=
  fail_if (has_flag flags SCRIPT_VERIFY_SIGPUSHONLY && negb (IsPushOnly scriptSig)) SCRIPT_ERR_SIG_PUSHONLY ≫= fun _ =>
  stack1 ← EvalScript flags SIGVERSION_BASE [] scriptSig;
  let stackCopy := if has_flag flags SCRIPT_VERIFY_P2SH then stack1 else [] in
  stack2 ← EvalScript flags SIGVERSION_BASE stack1 scriptPubKey;
  check_true stack2 ≫= fun _ =>
  (match (if has_flag flags SCRIPT_VERIFY_WITNESS then IsWitnessProgram scriptPubKey else None) with
   | Some (version, program) =>
       fail_if (negb (size scriptSig =? 0)) SCRIPT_ERR_WITNESS_MALLEATED ≫= fun _ =>
       VerifyWitnessProgram witness version program ≫= fun _ =>
       Ret (resize1 stack2, true)
   | None => Ret (stack2, false)
   end) ≫= fun '(stack3, hadWitness) =>
  (if has_flag flags SCRIPT_VERIFY_P2SH && IsPayToScriptHash scriptPubKey
   then verify_p2sh scriptSig witness stackCopy hadWitness
   else Ret (stack3, hadWitness)) ≫= fun '(stack4, hadWitness') =>
  (if has_flag flags SCRIPT_VERIFY_CLEANSTACK then
     assert_that (has_flag flags SCRIPT_VERIFY_P2SH) ≫= fun _ =>
     assert_that (has_flag flags SCRIPT_VERIFY_WITNESS) ≫= fun _ =>
     fail_if (negb (size stack4 =? 1)) SCRIPT_ERR_CLEANSTACK
   else Ret tt) ≫= fun _ =>
  if has_flag flags SCRIPT_VERIFY_WITNESS then
    assert_that (has_flag flags SCRIPT_VERIFY_P2SH) ≫= fun _ =>
    fail_if (negb hadWitness' && negb (size witness =? 0)) SCRIPT_ERR_WITNESS_UNEXPECTED
  else Ret tt.
End Verify.

(** *** Witness signature operations *)

Definition WitnessSigOps (witversion : Z) (witprogram : valtype) (witness : list valtype) : Z :=
  if witversion =? 0 then
    if size witprogram =? 20 then 1
    else if (size witprogram =? 32) && (0 <? size witness)
    then GetSigOpCount (default [] (last witness)) true
    else 0
  else 0.

(** [CountWitnessSigOps]; [None] is a failed assertion.  The last item a
    push-only [scriptSig] pushes is the P2SH script. *)
Definition CountWitnessSigOps (scriptSig scriptPubKey : CScript) (witness : list valtype) (flags : Z) : option Z :=
  if negb (has_flag flags SCRIPT_VERIFY_WITNESS) then Some 0
  else if negb (has_flag flags SCRIPT_VERIFY_P2SH) then None
  else
    match IsWitnessProgram scriptPubKey with
    | Some (version, program) => Some (WitnessSigOps version program witness)
    | None =>
        if IsPayToScriptHash scriptPubKey && IsPushOnly scriptSig then
          let '(data, _) := for_ops (length scriptSig) (fun _ _ data => Some data) scriptSig [] in
          match IsWitnessProgram data with
          | Some (version, program) => Some (WitnessSigOps version program witness)
          | None => Some 0
          end
        else Some 0
    end.

(** ** Lock times ([TransactionSignatureChecker]) *)

Definition tx_CheckLockTime (txTo : CTransaction) (nIn : nat) (nLockTime : Z) : bool :=
  if negb (((Transaction.nLockTime txTo <? LOCKTIME_THRESHOLD) && (nLockTime <? LOCKTIME_THRESHOLD))
           || ((LOCKTIME_THRESHOLD <=? Transaction.nLockTime txTo) && (LOCKTIME_THRESHOLD <=? nLockTime))) then false
  else if Transaction.nLockTime txTo <? nLockTime then false
  else match vin txTo !! nIn with
       | Some txin => negb (SEQUENCE_FINAL =? nSequence txin)
       | None => false
       end.

Definition tx_CheckSequence (txTo : CTransaction) (nIn : nat) (nSequence : Z) : bool :=
  match vin txTo !! nIn with
  | None => false
  | Some txin =>
      let txToSequence := Transaction.nSequence txin in
      if u32 (tx_nVersion txTo) <? 2 then false
      else if negb (Z.land txToSequence SEQUENCE_LOCKTIME_DISABLE_FLAG =? 0) then false
      else
        let nLockTimeMask := Z.lor SEQUENCE_LOCKTIME_TYPE_FLAG SEQUENCE_LOCKTIME_MASK in
        let txToSequenceMasked := Z.land txToSequence nLockTimeMask in
        let nSequenceMasked := Z.land nSequence nLockTimeMask in
        if negb (((txToSequenceMasked <? SEQUENCE_LOCKTIME_TYPE_FLAG) && (nSequenceMasked <? SEQUENCE_LOCKTIME_TYPE_FLAG))
                 || ((SEQUENCE_LOCKTIME_TYPE_FLAG <=? txToSequenceMasked) && (SEQUENCE_LOCKTIME_TYPE_FLAG <=? nSequenceMasked)))
        then false
        else negb (txToSequenceMasked <? nSequenceMasked)
  end.
