(* ===== verification/InterpreterSafe.v ===== *)
(** The script interpreter is total and stays within its limits: whatever the
    script, the stack and the flags, [EvalScript] ends with success or an error code,
    no assertion fails, and the stacks it leaves obey the consensus limits. *)

From stdpp Require Import prelude.
From Stdlib Require Import ZArith Lia.
From S2P Require Import Prelude Opcodes Transaction Compact Script Interpreter.

Open Scope Z_scope.

(** A stack element: bytes, at most [MAX_SCRIPT_ELEMENT_SIZE] of them. *)
Definition elem_ok (v : valtype) : Prop := Forall is_u8 v /\ size v <= MAX_SCRIPT_ELEMENT_SIZE.

(** What the interpreter relies on in the hash functions. *)
Class CryptoHashesSpec `{CryptoHashes} := {
  RIPEMD160_bytes v : Forall is_u8 (RIPEMD160 v) /\ length (RIPEMD160 v) = 20%nat;
  SHA1_bytes v : Forall is_u8 (SHA1 v) /\ length (SHA1 v) = 20%nat;
  SHA256_bytes v : Forall is_u8 (SHA256 v) /\ length (SHA256 v) = 32%nat
}.

(** ** Safe outcomes *)

Definition safe {A} (P : A -> Prop) (o : outcome A) : Prop :=
  match o with
  | Ret a => P a
  | Fail _ => True
  | Abort | OutOfFuel => False
  end.

Create HintDb script discriminated.

Lemma safe_bind {A B} (P : A -> Prop) (Q : B -> Prop) (m : outcome A) (k : A -> outcome B) :
  safe P m -> (forall a, P a -> safe Q (k a)) -> safe Q (m ≫= k).
Proof. intros Hm Hk. destruct m; simpl in *; try done. by apply Hk. Qed.

Lemma safe_fail_if {B} (Q : B -> Prop) cond e (k : unit -> outcome B) :
  (cond = false -> safe Q (k tt)) -> safe Q (fail_if cond e ≫= k).
Proof. intros Hk. destruct cond; simpl; [done|by apply Hk]. Qed.

Lemma safe_or_throw {A} (P : A -> Prop) (o : option A) : (forall a, o = Some a -> P a) -> safe P (or_throw o).
Proof. intros HP. destruct o; simpl; [by apply HP|done]. Qed.

Lemma safe_weaken {A} (P Q : A -> Prop) (o : outcome A) : safe P o -> (forall a, P a -> Q a) -> safe Q o.
Proof. intros Hp HPQ. destruct o; simpl in *; auto. Qed.

Section Safe.
Context `{CryptoHashesSpec} `{SignatureChecker}.
Variables (flags : Z) (sigversion : SigVersion).

Abbreviation elems := (Forall elem_ok).

(** The part of the state that an opcode body keeps in order. *)
Definition state_ok (s : estate) : Prop :=
  elems (es_stack s) /\ elems (es_altstack s) /\ 0 <= es_nOpCount s <= MAX_OPS_PER_SCRIPT.

Definition post (s s' : estate) : Prop := state_ok s' /\ es_pc s' = es_pc s.

(** ** Numbers *)

Lemma num4_safe v : Forall is_u8 v -> safe (fun n => Z.abs n < 2 ^ 31) (num4 flags v).
Proof.
  intros Hv. apply safe_or_throw. intros n. unfold CScriptNum.
  destruct (Z.ltb_spec nDefaultMaxNumSize (size v)) as [|Hle]; [done|].
  destruct (_ && _); [done|]. intros [= <-]. by apply set_vch_bound.
Qed.

Lemma num5_safe v : safe (fun _ => True) (num5 flags v).
Proof. by apply safe_or_throw. Qed.

Lemma serialize_elem n : Z.abs n < 2 ^ 55 -> elem_ok (serialize n).
Proof.
  intros Hn. destruct (minimal_serialize n Hn) as (_ & Hb & Hl). split; [done|].
  pose proof (Hl 7 ltac:(lia) Hn). unfold MAX_SCRIPT_ELEMENT_SIZE. lia.
Qed.

Lemma bool_elem b : elem_ok (vch_of_bool b).
Proof. destruct b; (split; [repeat constructor; simpl; lia|unfold MAX_SCRIPT_ELEMENT_SIZE; simpl; lia]). Qed.

Lemma hash_elem opcode v : elem_ok (if opcode =? OP_RIPEMD160 then RIPEMD160 v
                     else if opcode =? OP_SHA1 then SHA1 v
                     else if opcode =? OP_SHA256 then SHA256 v
                     else if opcode =? OP_HASH160 then CHash160 v
                     else CHash256 v).
Proof.
  unfold elem_ok, MAX_SCRIPT_ELEMENT_SIZE, CHash160, CHash256.
  repeat case_match;
    match goal with
    | |- context [RIPEMD160 ?x] => destruct (RIPEMD160_bytes x) as [? ->]
    | |- context [SHA1 ?x] => destruct (SHA1_bytes x) as [? ->]
    | |- context [SHA256 ?x] => destruct (SHA256_bytes x) as [? ->]
    end; split; (done || lia).
Qed.

Lemma unary_safe opcode bn :
  Z.abs bn < 2 ^ 31 -> is_op opcode [OP_1ADD; OP_1SUB; OP_NEGATE; OP_ABS; OP_NOT; OP_0NOTEQUAL] = true ->
  safe (fun r => Z.abs r < 2 ^ 55) (unary opcode bn).
Proof.
  intros Hbn Hop. unfold unary, num_add_assign, num_sub_assign, num_neg, INT64_MAX, INT64_MIN, Z_of_bool.
  cbn [is_op existsb] in Hop. rewrite orb_false_r in Hop.
  repeat (case_match; try (simpl; lia)); try (simpl in *; lia).
  all: exfalso; lia.
Qed.

Lemma binary_safe opcode bn1 bn2 :
  Z.abs bn1 < 2 ^ 31 -> Z.abs bn2 < 2 ^ 31 ->
  is_op opcode [OP_ADD; OP_SUB; OP_BOOLAND; OP_BOOLOR; OP_NUMEQUAL; OP_NUMEQUALVERIFY; OP_NUMNOTEQUAL;
                OP_LESSTHAN; OP_GREATERTHAN; OP_LESSTHANOREQUAL; OP_GREATERTHANOREQUAL; OP_MIN; OP_MAX] = true ->
  safe (fun r => Z.abs r < 2 ^ 55) (binary opcode bn1 bn2).
Proof.
  intros H1' H2' Hop. unfold binary, num_add, num_sub, Z_of_bool.
  rewrite !s64_id by (unfold is_s64; lia).
  cbn [is_op existsb] in Hop. rewrite orb_false_r in Hop.
  repeat match goal with
  | |- safe _ (if ?c then _ else _) => destruct c eqn:?; [cbn [safe]; repeat case_match; lia|]
  end.
  repeat match goal with H : (?a =? ?b) = false |- _ => rewrite ?H in Hop; clear H end.
  repeat match goal with H : (_ || _) = false |- _ => apply orb_false_iff in H as [? ?] end.
  repeat match goal with H : (?a =? ?b) = false |- _ => rewrite ?H in Hop; clear H end. done.
Qed.

(** ** Opcode bodies *)

Ltac split_elems := repeat match goal with
  | H : Forall elem_ok (_ :: _) |- _ => apply Forall_cons in H as [? ?]
  | |- Forall elem_ok (_ :: _) => apply Forall_cons; split
  end.

Lemma post_stack s st : state_ok s -> elems st -> post s (set_stack s st).
Proof. intros (Hs & Ha & Hn) Hst. by split. Qed.

Lemma post_exec s v : state_ok s -> post s (set_exec s v).
Proof. intros (Hs & Ha & Hn). by split. Qed.

Lemma post_refl s : state_ok s -> post s s.
Proof. intros Hs. by split. Qed.

(** A body that only rearranges the stack. *)
Lemma on_stack_safe f s :
  state_ok s -> (forall st st', f st = Some st' -> elems st -> elems st') -> safe (post s) (on_stack f s).
Proof.
  intros Hs Hf. unfold on_stack. destruct (f (es_stack s)) eqn:E; [|done].
  apply post_stack; [done|]. eapply Hf; [exact E|apply Hs].
Qed.

(** The rearranging operations, uniformly: the new stack has no new elements. *)
Ltac rearranges := intros st st' E Hst;
  match type of E with ?f _ = _ => unfold f in E end; repeat case_match; simplify_eq; by split_elems.

Lemma st_size_ok st st' : st_size st = Some st' -> elems st -> elems st'.
Proof.
  unfold st_size. destruct st as [|a r]; intros [= <-] Hst. split_elems; try done.
  apply serialize_elem. match goal with H : elem_ok a |- _ => destruct H as [_ Hl] end.
  unfold MAX_SCRIPT_ELEMENT_SIZE in Hl. lia.
Qed.
Lemma st_depth_ok st st' : size st < 2 ^ 32 -> st_depth st = Some st' -> elems st -> elems st'.
Proof. unfold st_depth. intros Hl [= <-] Hst. split_elems; [|done]. apply serialize_elem. lia. Qed.

#[local] Hint Extern 2 (safe (post _) (on_stack _ _)) =>
  apply on_stack_safe; [assumption|first [exact st_size_ok|rearranges]] : script.

Lemma op_push_number_safe opcode s :
  state_ok s -> (opcode =? OP_1NEGATE) || ((OP_1 <=? opcode) && (opcode <=? OP_16)) = true ->
  safe (post s) (op_push_number opcode s).
Proof.
  intros Hs Hop. apply post_stack; [done|]. split_elems; [|apply Hs]. apply serialize_elem.
  unfold OP_1NEGATE, OP_1, OP_16 in *. lia.
Qed.

Lemma op_upgradable_nop_safe s : state_ok s -> safe (post s) (op_upgradable_nop flags s).
Proof. intros Hs. apply safe_fail_if. intros _. by apply post_refl. Qed.

Lemma op_checklocktimeverify_safe s : state_ok s -> safe (post s) (op_checklocktimeverify flags s).
Proof.
  intros Hs. unfold op_checklocktimeverify. destruct (negb _); [by apply op_upgradable_nop_safe|].
  destruct (es_stack s); [done|]. eapply safe_bind; [apply num5_safe|]. intros n _.
  do 2 (apply safe_fail_if; intros _). by apply post_refl.
Qed.

Lemma op_checksequenceverify_safe s : state_ok s -> safe (post s) (op_checksequenceverify flags s).
Proof.
  intros Hs. unfold op_checksequenceverify. destruct (negb _); [by apply op_upgradable_nop_safe|].
  destruct (es_stack s); [done|]. eapply safe_bind; [apply num5_safe|]. intros n _.
  apply safe_fail_if; intros _. destruct (negb _); [by apply post_refl|].
  apply safe_fail_if; intros _. by apply post_refl.
Qed.

Lemma op_if_safe opcode fExec s : state_ok s -> safe (post s) (op_if flags sigversion opcode fExec s).
Proof.
  intros Hs. unfold op_if. destruct fExec; [|by apply post_exec].
  destruct (es_stack s) as [|vch rest] eqn:E; [done|]. apply safe_fail_if; intros _.
  destruct Hs as (Hst & Ha & Hn). rewrite E in Hst. split_elems. by split.
Qed.

Lemma op_else_safe s : state_ok s -> safe (post s) (op_else s).
Proof. intros Hs. unfold op_else. destruct (es_vfExec s); [done|]. by apply post_exec. Qed.

Lemma op_endif_safe s : state_ok s -> safe (post s) (op_endif s).
Proof. intros Hs. unfold op_endif. destruct (es_vfExec s); [done|]. by apply post_exec. Qed.

Lemma op_verify_safe s : state_ok s -> safe (post s) (op_verify s).
Proof.
  intros Hs. unfold op_verify. destruct (es_stack s) as [|top rest] eqn:E; [done|].
  destruct (CastToBool top); [|done]. apply post_stack; [done|]. destruct Hs as (Hst & _). rewrite E in Hst.
  by split_elems.
Qed.

Lemma op_altstack_safe s : state_ok s -> safe (post s) (op_toaltstack s) /\ safe (post s) (op_fromaltstack s).
Proof.
  intros (Hst & Ha & Hn). unfold op_toaltstack, op_fromaltstack. split.
  - destruct (es_stack s); [done|]. split_elems. split; [|done]. split; [done|]. split; [by simpl; split_elems|done].
  - destruct (es_altstack s); [done|]. split_elems. split; [|done]. split; [by simpl; split_elems|done].
Qed.

Lemma op_pick_roll_safe opcode s : state_ok s -> safe (post s) (op_pick_roll flags opcode s).
Proof.
  intros Hs. unfold op_pick_roll. destruct (es_stack s) as [|top [|x rest]] eqn:E; [done..|].
  pose proof Hs as (Hst & _). rewrite E in Hst. apply Forall_cons in Hst as [Htop Hrest].
  eapply safe_bind; [apply num4_safe, Htop|]. intros v _.
  destruct (_ || _); [done|]. eapply safe_bind; [apply safe_or_throw; intros a Ha; exact Ha|].
  intros vch Hv. apply post_stack; [done|]. apply Forall_cons. split.
  - rewrite Forall_lookup in Hrest. exact (Hrest _ _ Hv).
  - destruct (opcode =? OP_ROLL); [by apply Forall_delete|done].
Qed.

Lemma op_equal_safe opcode s : state_ok s -> safe (post s) (op_equal opcode s).
Proof.
  intros Hs. unfold op_equal. destruct (es_stack s) as [|v2 [|v1 r]] eqn:E; [done..|].
  pose proof Hs as (Hst & _). rewrite E in Hst. split_elems.
  destruct (opcode =? OP_EQUALVERIFY); [destruct (bool_decide _); [by apply post_stack|done]|].
  apply post_stack; [done|]. split_elems; [apply bool_elem|done].
Qed.

Lemma op_unary_safe opcode s :
  state_ok s -> is_op opcode [OP_1ADD; OP_1SUB; OP_NEGATE; OP_ABS; OP_NOT; OP_0NOTEQUAL] = true ->
  safe (post s) (op_unary flags opcode s).
Proof.
  intros Hs Hop. unfold op_unary. destruct (es_stack s) as [|top r] eqn:E; [done|].
  pose proof Hs as (Hst & _). rewrite E in Hst. apply Forall_cons in Hst as [Htop Hr].
  eapply safe_bind; [apply num4_safe, Htop|]. intros bn Hbn.
  eapply safe_bind; [by apply unary_safe|]. intros bn' Hbn'. apply post_stack; [done|].
  split_elems; [by apply serialize_elem|done].
Qed.

Lemma op_binary_safe opcode s :
  state_ok s ->
  is_op opcode [OP_ADD; OP_SUB; OP_BOOLAND; OP_BOOLOR; OP_NUMEQUAL; OP_NUMEQUALVERIFY; OP_NUMNOTEQUAL;
                OP_LESSTHAN; OP_GREATERTHAN; OP_LESSTHANOREQUAL; OP_GREATERTHANOREQUAL; OP_MIN; OP_MAX] = true ->
  safe (post s) (op_binary flags opcode s).
Proof.
  intros Hs Hop. unfold op_binary. destruct (es_stack s) as [|v2 [|v1 r]] eqn:E; [done..|].
  pose proof Hs as (Hst & _). rewrite E in Hst. apply Forall_cons in Hst as [Hv2 Hst].
  apply Forall_cons in Hst as [Hv1 Hr].
  eapply safe_bind; [apply num4_safe, Hv1|]. intros bn1 H1'.
  eapply safe_bind; [apply num4_safe, Hv2|]. intros bn2 H2'.
  eapply safe_bind; [by apply binary_safe|]. intros bn Hbn.
  destruct (opcode =? OP_NUMEQUALVERIFY); [destruct (CastToBool _); [by apply post_stack|done]|].
  apply post_stack; [done|]. split_elems; [by apply serialize_elem|done].
Qed.

Lemma op_within_safe s : state_ok s -> safe (post s) (op_within flags s).
Proof.
  intros Hs. unfold op_within. destruct (es_stack s) as [|v3 [|v2 [|v1 r]]] eqn:E; [done..|].
  pose proof Hs as (Hst & _). rewrite E in Hst. apply Forall_cons in Hst as [Hv3 Hst].
  apply Forall_cons in Hst as [Hv2 Hst]. apply Forall_cons in Hst as [Hv1 Hr].
  eapply safe_bind; [apply num4_safe, Hv1|]. intros bn1 _.
  eapply safe_bind; [apply num4_safe, Hv2|]. intros bn2 _.
  eapply safe_bind; [apply num4_safe, Hv3|]. intros bn3 _.
  apply post_stack; [done|]. split_elems; [apply bool_elem|done].
Qed.

Lemma op_hash_safe opcode s : state_ok s -> safe (post s) (op_hash opcode s).
Proof.
  intros Hs. unfold op_hash. destruct (es_stack s) as [|v r] eqn:E; [done|].
  pose proof Hs as (Hst & _). rewrite E in Hst. split_elems.
  apply post_stack; [done|]. split_elems; [apply hash_elem|done].
Qed.

(** *** Signatures *)

Lemma check_encodings_safe sig key : safe (fun _ => True) (check_encodings flags sigversion sig key).
Proof.
  unfold check_encodings. eapply (safe_bind (fun _ => True)).
  - unfold CheckSignatureEncoding, IsLowDERSignature, fail_if. repeat case_match; simplify_eq; done.
  - intros _ _. unfold CheckPubKeyEncoding, fail_if. simpl. repeat case_match; simplify_eq; done.
Qed.

Lemma op_checksig_safe opcode s : state_ok s -> safe (post s) (op_checksig flags sigversion opcode s).
Proof.
  intros Hs. unfold op_checksig. destruct (es_stack s) as [|k [|v r]] eqn:E; [done..|].
  pose proof Hs as (Hst & _). rewrite E in Hst. split_elems.
  eapply safe_bind; [apply check_encodings_safe|]. intros _ _. apply safe_fail_if; intros _.
  destruct (opcode =? OP_CHECKSIGVERIFY); [destruct (CheckSig _ _ _ _); [by apply post_stack|done]|].
  apply post_stack; [done|]. split_elems; [apply bool_elem|done].
Qed.

Lemma stacktop_safe st i : elems st -> safe elem_ok (stacktop st i).
Proof. intros Hst. apply safe_or_throw. intros a Ha. rewrite Forall_lookup in Hst. exact (Hst _ _ Ha). Qed.

Lemma drop_sigs_safe k st isig code :
  elems st -> safe (fun _ => True) (drop_sigs sigversion k st isig code).
Proof.
  intros Hst. revert isig code. induction k as [|k IH]; intros isig code; cbn [drop_sigs]; [done|].
  eapply safe_bind; [by apply stacktop_safe|]. intros a _. apply IH.
Qed.

(** The keys left bound the passes. *)
Lemma multisig_loop_safe fuel st code isig ikey nSigs nKeys :
  elems st -> nSigs <= nKeys -> nKeys <= Z.of_nat fuel ->
  safe (fun _ => True) (multisig_loop flags sigversion fuel st code isig ikey nSigs nKeys).
Proof.
  intros Hst. revert isig ikey nSigs nKeys. induction fuel as [|fuel IH]; intros isig ikey nSigs nKeys Hle Hf;
    cbn [multisig_loop]; destruct (Z.ltb_spec 0 nSigs); cbn [negb]; try done; [lia|].
  eapply safe_bind; [by apply stacktop_safe|]. intros sig _.
  eapply safe_bind; [by apply stacktop_safe|]. intros key _.
  eapply safe_bind; [apply check_encodings_safe|]. intros _ _.
  destruct (CheckSig sig key code sigversion).
  - destruct (Z.ltb_spec (nKeys - 1) (nSigs - 1)); [done|]. apply IH; lia.
  - destruct (Z.ltb_spec (nKeys - 1) nSigs); [done|]. apply IH; lia.
Qed.

Lemma multisig_cleanup_safe k ok ikey2 st :
  elems st -> safe elems (multisig_cleanup flags k ok ikey2 st).
Proof.
  revert ikey2 st. induction k as [|k IH]; intros ikey2 st Hst; cbn [multisig_cleanup]; [done|].
  destruct st as [|top rest]; [done|]. apply safe_fail_if; intros _. apply IH. by split_elems.
Qed.

Lemma op_checkmultisig_safe opcode s :
  state_ok s -> safe (post s) (op_checkmultisig flags sigversion opcode s).
Proof.
  intros Hs. pose proof Hs as (Hst & Ha & Hn). unfold op_checkmultisig. apply safe_fail_if; intros _.
  eapply safe_bind; [by apply stacktop_safe|]. intros topKeys [Hk _].
  eapply safe_bind; [by apply num4_safe|]. intros vKeys _. set (nKeys := getint vKeys).
  apply safe_fail_if; intros Hkeys. apply orb_false_iff in Hkeys as [Hk0 Hk20].
  apply safe_fail_if; intros Hops. apply safe_fail_if; intros _.
  eapply safe_bind; [by apply stacktop_safe|]. intros topSigs [Hg _].
  eapply safe_bind; [by apply num4_safe|]. intros vSigs _. set (nSigs := getint vSigs).
  apply safe_fail_if; intros Hsigs. apply orb_false_iff in Hsigs as [Hs0 Hsk]. apply safe_fail_if; intros _.
  eapply safe_bind; [by apply drop_sigs_safe|]. intros code _.
  eapply safe_bind; [apply multisig_loop_safe; [done|lia|lia]|]. intros ok _.
  eapply safe_bind; [by apply multisig_cleanup_safe|]. intros st' Hst'.
  destruct st' as [|dummy r]; [done|]. split_elems. apply safe_fail_if; intros _.
  assert (forall st, elems st -> post s (set_count (set_stack s st) (es_nOpCount s + nKeys))) as Hpost.
  { intros st'' Hst''. split; [|done]. split; [done|]. split; [done|]. cbn [es_nOpCount set_count]. lia. }
  destruct (opcode =? OP_CHECKMULTISIGVERIFY); [destruct ok; [by apply Hpost|done]|].
  apply Hpost. split_elems; [apply bool_elem|done].
Qed.

(** ** The interpreter loop *)

#[local] Hint Resolve op_push_number_safe op_upgradable_nop_safe op_checklocktimeverify_safe
  op_checksequenceverify_safe op_if_safe op_else_safe op_endif_safe op_verify_safe op_pick_roll_safe op_equal_safe
  op_unary_safe op_binary_safe op_within_safe op_hash_safe op_checksig_safe op_checkmultisig_safe post_refl : script.

Lemma exec_op_safe opcode fExec s :
  state_ok s -> size (es_stack s) < 2 ^ 32 -> safe (post s) (exec_op flags sigversion opcode fExec s).
Proof.
  intros Hs Hsize. destruct (op_altstack_safe s Hs) as [Hto Hfrom].
  assert (safe (post s) (on_stack st_depth s)) as Hdepth.
  { destruct Hs as (Hst & Ha & Hn). unfold on_stack, st_depth. apply post_stack; [done|].
    split_elems; [apply serialize_elem; lia|done]. }
  assert (safe (post s) (op_codeseparator s)) as Hsep by (destruct Hs as (? & ? & ?); by split).
  unfold exec_op.
  repeat match goal with
  | |- safe _ (if ?c then _ else _) => destruct c eqn:?; [solve [auto with script|exact (post_refl s Hs)|done]|]
  end. done.
Qed.

Lemma GetOp2_elem pc op data pc' : Forall is_u8 pc -> GetOp2 pc = Some (op, data, pc') -> Forall is_u8 data.
Proof.
  intros Hpc. unfold GetOp2. destruct pc as [|o pc1]; [done|]. apply Forall_cons in Hpc as [_ Hpc].
  repeat case_match; try done; intros [= <- <- <-]; try done;
    repeat first [apply Forall_take|apply Forall_drop]; done.
Qed.

(** What holds between instructions. *)
Definition loop_ok (s : estate) : Prop :=
  state_ok s /\ size (es_stack s) + size (es_altstack s) <= MAX_STACK_SIZE /\ Forall is_u8 (es_pc s).

Lemma step_safe s :
  loop_ok s -> safe (fun s' => loop_ok s' /\ (length (es_pc s') < length (es_pc s))%nat) (step flags sigversion s).
Proof.
  intros ((Hst & Ha & Hn) & Hsize & Hpc). unfold step.
  destruct (GetOp2 (es_pc s)) as [[[opcode data] pc]|] eqn:E; [|done].
  pose proof (GetOp2_length _ _ _ _ E) as Hlen. pose proof (GetOp2_elem _ _ _ _ Hpc E) as Hdata.
  assert (Forall is_u8 pc) as Hpc'.
  { destruct (GetOp2_suffix _ _ _ _ E) as [pre Ep]. rewrite Ep in Hpc. apply Forall_cons in Hpc as [_ Hpc].
    by apply Forall_app in Hpc as [_ ?]. }
  apply safe_fail_if; intros Hpush. apply safe_fail_if; intros Hcount. apply safe_fail_if; intros _.
  set (s1 := mkE _ _ _ _ _ _). assert (state_ok s1) as Hs1.
  { split; [done|]. split; [done|]. unfold s1. cbn [es_nOpCount].
    destruct (OP_16 <? opcode); [|done]. cbn [andb] in Hcount. apply Z.ltb_ge in Hcount. lia. }
  eapply (safe_bind (post s1)).
  - destruct (_ && _ && _); [|destruct (_ || _); [|by apply post_refl]].
    + apply safe_fail_if; intros _. apply post_stack; [done|]. apply Forall_cons. split; [|done].
      split; [done|lia].
    + apply exec_op_safe; [done|]. unfold s1, MAX_STACK_SIZE in *. cbn [es_stack]. lia.
  - intros s2 [Hs2 Epc]. apply safe_fail_if; intros Hmax. apply Z.ltb_ge in Hmax.
    split; [|rewrite Epc; done]. split; [done|]. split; [done|]. by rewrite Epc.
Qed.

Lemma eval_loop_safe fuel s :
  loop_ok s -> (length (es_pc s) <= fuel)%nat -> safe loop_ok (eval_loop flags sigversion fuel s).
Proof.
  revert s. induction fuel as [|fuel IH]; intros s Hs Hf; cbn [eval_loop];
    destruct (es_pc s) as [|b pc] eqn:E; try done; [simpl in Hf; lia|].
  eapply safe_bind; [apply (step_safe s Hs)|]. intros s' [Hs' Hlen]. apply IH; [done|]. rewrite E in Hlen. lia.
Qed.
End Safe.

(** C4. [EvalScript] is total: on any bytes as script, any flags and any
    signature checker, starting from a stack within the limits, it ends with success
    or with a script error; no assertion in the script number arithmetic fails, no
    fuel runs out, and on success the stack again has at most 1000 elements of at
    most 520 bytes each. *)
Theorem EvalScript_total_within_limits `{CryptoHashesSpec} `{SignatureChecker} (flags : Z) (sigversion : SigVersion)
    (stack : list valtype) (script : CScript) :
  Forall is_u8 script -> Forall elem_ok stack -> size stack <= MAX_STACK_SIZE ->
  match EvalScript flags sigversion stack script with
  | Ret stack' => Forall elem_ok stack' /\ size stack' <= MAX_STACK_SIZE
  | Fail e => True
  | Abort | OutOfFuel => False
  end.
Proof.
  intros Hscript Hstack Hsize.
  enough (safe (fun st => Forall elem_ok st /\ size st <= MAX_STACK_SIZE) (EvalScript flags sigversion stack script)) as Hs
    by (by destruct (EvalScript flags sigversion stack script)).
  apply safe_fail_if; intros _. eapply safe_bind.
  - apply eval_loop_safe; [|done]. split; [|split; [simpl; lia|done]].
    split; [done|]. split; [constructor|]. unfold MAX_OPS_PER_SCRIPT. simpl. lia.
  - intros s ((Hst & _) & Hmax & _). apply safe_fail_if; intros _. split; [done|]. lia.
Qed.

(** Trivial hash functions and a checker that accepts one signature. *)
#[export] Instance toy_hashes : CryptoHashes := {|
  RIPEMD160 v := replicate 20 (u8 (fold_right Z.add 1 v));
  SHA1 v := replicate 20 (u8 (fold_right Z.add 2 v));
  SHA256 v := replicate 32 (u8 (fold_right Z.add 3 v))
|}.
#[export] Instance toy_hashes_spec : CryptoHashesSpec.
Proof. split; intros v; (split; [apply Forall_replicate, u8_range|apply length_replicate]). Qed.
#[export] Instance toy_checker : SignatureChecker := {|
  CheckSig sig key _ _ := bool_decide (take 2 sig = take 2 key);
  CheckLockTime n := n <? 100;
  CheckSequence n := n <? 100;
  CheckLowS _ := true
|}.

Definition example_script : CScript :=
  [OP_2; OP_3; OP_ADD; OP_IF; OP_DUP; OP_HASH160; OP_ELSE; OP_RETURN; OP_ENDIF; OP_SIZE].

Lemma EvalScript_total_within_limits_witness :
  Forall elem_ok [[20]; replicate 20 33; [7; 7]] /\
  EvalScript 0 SIGVERSION_BASE [[7; 7]] example_script = Ret [[20]; replicate 20 33; [7; 7]].
Proof.
  pose proof (EvalScript_total_within_limits 0 SIGVERSION_BASE [[7; 7]] example_script) as HE.
  assert (EvalScript 0 SIGVERSION_BASE [[7; 7]] example_script = Ret [[20]; replicate 20 33; [7; 7]]) as E
    by (vm_compute; reflexivity).
  rewrite E in HE. split; [|exact E]. apply HE.
  - repeat constructor; discriminate.
  - repeat constructor; discriminate.
  - discriminate.
Defined.
