(* ===== verification/Spends.v ===== *)
(** Spending scripts: what [VerifyScript] decides for pay-to-public-key-hash
    outputs, and which scripts of [IsUnspendable] really cannot be executed. *)

From stdpp Require Import prelude.
From Stdlib Require Import ZArith Lia.
From S2P Require Import Prelude Opcodes Transaction Compact Script Interpreter InterpreterSafe.

Open Scope Z_scope.

(** [OP_DUP OP_HASH160 <h> OP_EQUALVERIFY OP_CHECKSIG] *)
Definition p2pkh (h : valtype) : CScript :=
  [OP_DUP; OP_HASH160] ++ push_data h ++ [OP_EQUALVERIFY; OP_CHECKSIG].

Section Steps.
Context `{CryptoHashes} `{SignatureChecker}.
Variables (flags : Z) (sigversion : SigVersion).

(** A short push that no other opcode could make: it is minimal. *)
Definition plain_push (b : valtype) : Prop := 2 <= size b <= 75.

(** The machine outside conditionals, with room on the stack. *)
Definition running (st : list valtype) (nOps : Z) (code pc : CScript) : estate := mkE st [] [] nOps code pc.

Lemma step_push st nOps code b rest :
  plain_push b -> size st < MAX_STACK_SIZE ->
  step flags sigversion (running st nOps code (push_data b ++ rest)) = Ret (running (b :: st) nOps code rest).
Proof.
  intros Hb Hst. unfold step, running. cbn [es_pc es_vfExec forallb]. rewrite GetOp2_push_data by (unfold plain_push in Hb; lia).
  unfold plain_push in Hb.
  assert (push_opcode b = size b) as -> by (unfold push_opcode, OP_PUSHDATA1; by rewrite (proj2 (Z.ltb_lt (size b) 0x4c)) by lia).
  unfold fail_if, MAX_SCRIPT_ELEMENT_SIZE, is_disabled.
  rewrite (proj2 (Z.ltb_ge 520 (size b))) by lia. cbn [mbind outcome_bind].
  rewrite (proj2 (Z.ltb_ge OP_16 (size b))) by (unfold OP_16; lia). cbn [andb mbind outcome_bind].
  cbn [existsb]. unfold OP_CAT, OP_SUBSTR, OP_LEFT, OP_RIGHT, OP_INVERT, OP_AND, OP_OR, OP_XOR, OP_2MUL, OP_2DIV, OP_MUL,
    OP_DIV, OP_MOD, OP_LSHIFT, OP_RSHIFT. rewrite !(proj2 (Z.eqb_neq (size b) _)) by lia. cbn [orb mbind outcome_bind].
  rewrite (proj2 (Z.leb_le 0 (size b))), (proj2 (Z.leb_le (size b) OP_PUSHDATA4)) by (unfold OP_PUSHDATA4; lia).
  assert (CheckMinimalPush b (size b) = true) as ->.
  { unfold CheckMinimalPush. rewrite !(proj2 (Z.eqb_neq (size b) _)) by lia. cbn [andb].
    rewrite (proj2 (Z.leb_le (size b) 75)) by lia. apply Z.eqb_refl. }
  rewrite andb_false_r. cbn [andb mbind outcome_bind es_stack es_altstack set_stack length].
  rewrite (proj2 (Z.ltb_ge MAX_STACK_SIZE _)) by lia. done.
Qed.

(** An operation other than a push. *)
Lemma step_op st nOps code op rest :
  OP_16 < op -> op <> OP_RVH_ASSET -> is_disabled op = false -> nOps < MAX_OPS_PER_SCRIPT ->
  step flags sigversion (running st nOps code (op :: rest)) =
  exec_op flags sigversion op true (running st (nOps + 1) code rest) ≫= fun s2 =>
  fail_if (MAX_STACK_SIZE <? size (es_stack s2) + size (es_altstack s2)) SCRIPT_ERR_STACK_SIZE ≫= fun _ => Ret s2.
Proof.
  intros Hop Hr Hd Hn. unfold step, running. cbn [es_pc es_vfExec es_nOpCount es_stack es_altstack es_code forallb].
  unfold GetOp2. unfold OP_16 in Hop. rewrite (proj2 (Z.leb_gt op OP_PUSHDATA4)) by (unfold OP_PUSHDATA4; lia).
  rewrite (proj2 (Z.eqb_neq op OP_RVH_ASSET)) by done.
  rewrite (proj2 (Z.ltb_lt OP_16 op)) by (unfold OP_16; lia).
  rewrite (proj2 (Z.ltb_ge MAX_OPS_PER_SCRIPT (nOps + 1))) by lia. rewrite Hd.
  rewrite (proj2 (Z.leb_gt op OP_PUSHDATA4)) by (unfold OP_PUSHDATA4; lia). by rewrite andb_false_r.
Qed.

Lemma step_dup top st nOps code rest :
  nOps < MAX_OPS_PER_SCRIPT -> size (top :: st) < MAX_STACK_SIZE ->
  step flags sigversion (running (top :: st) nOps code (OP_DUP :: rest)) =
  Ret (running (top :: top :: st) (nOps + 1) code rest).
Proof.
  intros Hn Hst. rewrite step_op by done. cbn -[Z.ltb Z.add Z.of_nat]. unfold fail_if.
  by rewrite (proj2 (Z.ltb_ge MAX_STACK_SIZE _)) by (cbn [length] in *; lia).
Qed.

Lemma step_hash160 top st nOps code rest :
  nOps < MAX_OPS_PER_SCRIPT -> size (top :: st) <= MAX_STACK_SIZE ->
  step flags sigversion (running (top :: st) nOps code (OP_HASH160 :: rest)) =
  Ret (running (CHash160 top :: st) (nOps + 1) code rest).
Proof.
  intros Hn Hst. rewrite step_op by done. cbn -[Z.ltb Z.add Z.of_nat CHash160]. unfold fail_if.
  by rewrite (proj2 (Z.ltb_ge MAX_STACK_SIZE _)) by (cbn [length] in *; lia).
Qed.

Lemma step_equalverify a b st nOps code rest :
  nOps < MAX_OPS_PER_SCRIPT -> size st <= MAX_STACK_SIZE ->
  step flags sigversion (running (b :: a :: st) nOps code (OP_EQUALVERIFY :: rest)) =
  if decide (a = b) then Ret (running st (nOps + 1) code rest) else Fail SCRIPT_ERR_EQUALVERIFY.
Proof.
  intros Hn Hst. rewrite step_op by done. cbn -[Z.ltb Z.add Z.of_nat bool_decide decide]. unfold fail_if.
  destruct (decide (a = b)) as [Heq|Hne]; [|by rewrite (bool_decide_eq_false_2 _ Hne)].
  rewrite (bool_decide_eq_true_2 _ Heq). cbn -[Z.ltb Z.add Z.of_nat].
  by rewrite (proj2 (Z.ltb_ge MAX_STACK_SIZE _)) by lia.
Qed.

Lemma step_checksig pk sig st nOps code rest :
  nOps < MAX_OPS_PER_SCRIPT -> size st < MAX_STACK_SIZE ->
  step flags sigversion (running (pk :: sig :: st) nOps code (OP_CHECKSIG :: rest)) =
  check_encodings flags sigversion sig pk ≫= fun _ =>
  let ok := CheckSig sig pk (drop_sig sigversion code sig) sigversion in
  fail_if (negb ok && has_flag flags SCRIPT_VERIFY_NULLFAIL && negb (size sig =? 0)) SCRIPT_ERR_SIG_NULLFAIL ≫= fun _ =>
  Ret (running (vch_of_bool ok :: st) (nOps + 1) code rest).
Proof.
  intros Hn Hst. rewrite step_op by done.
  cbn -[Z.ltb Z.add Z.of_nat check_encodings fail_if vch_of_bool drop_sig has_flag].
  destruct (check_encodings _ _ _ _); try done. cbn -[Z.ltb Z.add Z.of_nat vch_of_bool drop_sig has_flag fail_if].
  destruct (fail_if (_ && _) _); try done. cbn -[Z.ltb Z.add Z.of_nat vch_of_bool drop_sig has_flag]. unfold fail_if.
  by rewrite (proj2 (Z.ltb_ge MAX_STACK_SIZE _)) by lia.
Qed.

Lemma eval_loop_step fuel s s' :
  es_pc s <> [] -> step flags sigversion s = Ret s' ->
  eval_loop flags sigversion (S fuel) s = eval_loop flags sigversion fuel s'.
Proof. intros Hpc Hs. simpl. destruct (es_pc s); [done|]. by rewrite Hs. Qed.

Lemma eval_loop_fail fuel s e :
  es_pc s <> [] -> step flags sigversion s = Fail e -> eval_loop flags sigversion (S fuel) s = Fail e.
Proof. intros Hpc Hs. simpl. destruct (es_pc s); [done|]. by rewrite Hs. Qed.

Lemma eval_loop_done fuel st nOps code :
  eval_loop flags sigversion fuel (running st nOps code []) = Ret (running st nOps code []).
Proof. by destruct fuel. Qed.

Lemma push_data_plain b : plain_push b -> push_data b = size b :: b.
Proof.
  unfold plain_push. intros. unfold push_data, OP_PUSHDATA1. rewrite (proj2 (Z.ltb_lt (size b) 0x4c)) by lia.
  by rewrite u8_id by (unfold is_u8; lia).
Qed.

Lemma push_nonempty b r : plain_push b -> push_data b ++ r <> [].
Proof. intros Hb. by rewrite (push_data_plain _ Hb). Qed.

Lemma EvalScript_two_pushes a b :
  plain_push a -> plain_push b ->
  EvalScript flags sigversion [] (push_data a ++ push_data b) = Ret [b; a].
Proof.
  intros Ha Hb. unfold EvalScript.
  assert (fail_if (MAX_SCRIPT_SIZE <? size (push_data a ++ push_data b)) SCRIPT_ERR_SCRIPT_SIZE = Ret tt) as ->.
  { unfold fail_if. rewrite (proj2 (Z.ltb_ge _ _)); [done|]. rewrite !push_data_plain by done.
    unfold plain_push, MAX_SCRIPT_SIZE in *. rewrite length_app. cbn [length]. lia. }
  assert (exists n, length (push_data a ++ push_data b) = S (S n)) as [n ->].
  { rewrite !push_data_plain by done. rewrite length_app. simpl. eexists. rewrite Nat.add_succ_r. reflexivity. }
  cbn [mbind outcome_bind].
  change (mkE [] [] [] 0 ?c ?p) with (running [] 0 c p).
  erewrite eval_loop_step; [|by apply push_nonempty|by apply step_push].
  rewrite <- (app_nil_r (push_data b)) at 2.
  erewrite eval_loop_step; [|by apply push_nonempty|by apply step_push].
  by rewrite eval_loop_done.
Qed.
End Steps.

(** [FindAndDelete] leaves an instruction that starts with another byte. *)
Lemma find_and_delete_skip fuel c b x pc r n op data pc' :
  x <> c -> GetOp2 (x :: pc) = Some (op, data, pc') ->
  exists r', find_and_delete_loop (S fuel) (c :: b) (x :: pc) r n = find_and_delete_loop fuel (c :: b) pc' r' n.
Proof.
  intros Hx Hop. eexists. cbn [find_and_delete_loop length skip_copies take].
  rewrite bool_decide_eq_false_2 by (intros [=]; done). by rewrite Hop, Z.add_0_r.
Qed.

(** A signature that is not as long as the key hash is not part of the script. *)
Lemma FindAndDelete_p2pkh sig h :
  length h = 20%nat -> plain_push sig -> length sig <> 20%nat -> FindAndDelete (p2pkh h) (push_data sig) = p2pkh h.
Proof.
  intros Hh Hs Hne. rewrite (push_data_plain sig Hs). unfold FindAndDelete.
  assert (plain_push h) as Hp by (unfold plain_push; lia).
  assert (forall c b r, c = size sig -> (find_and_delete_loop (length (p2pkh h)) (c :: b) (p2pkh h) r 0).2 = 0) as Hz.
  { intros c b r Hc. unfold plain_push in Hs.
    replace (length (p2pkh h)) with 25%nat by (unfold p2pkh; rewrite push_data_plain, !length_app by done; simpl; lia).
    unfold p2pkh. rewrite (push_data_plain h Hp). cbn [app].
    edestruct (find_and_delete_skip 24 c b OP_DUP) as [r1 ->]; [unfold OP_DUP; lia|done|].
    edestruct (find_and_delete_skip 23 c b OP_HASH160) as [r2 ->]; [unfold OP_HASH160; lia|done|].
    edestruct (find_and_delete_skip 22 c b (size h)) as [r3 ->]; [lia| |].
    { change (size h :: h ++ ?x) with ((size h :: h) ++ x). rewrite <- (push_data_plain h Hp).
      rewrite GetOp2_push_data by lia. reflexivity. }
    edestruct (find_and_delete_skip 21 c b OP_EQUALVERIFY) as [r4 ->]; [unfold OP_EQUALVERIFY; lia|done|].
    edestruct (find_and_delete_skip 20 c b OP_CHECKSIG) as [r5 ->]; [unfold OP_CHECKSIG; lia|done|]. done. }
  specialize (Hz (size sig) sig [] eq_refl). destruct (find_and_delete_loop _ _ _ _ _) as [r k]. simpl in Hz. by subst k.
Qed.

(** The flag sets [VerifyScript] asserts it is called with. *)
Definition flags_consistent (flags : Z) : Prop :=
  (has_flag flags SCRIPT_VERIFY_CLEANSTACK = true -> has_flag flags SCRIPT_VERIFY_WITNESS = true) /\
  (has_flag flags SCRIPT_VERIFY_WITNESS = true -> has_flag flags SCRIPT_VERIFY_P2SH = true).

Section P2PKH.
Context `{CryptoHashes} `{SignatureChecker}.
Variables (flags : Z).

(** The code the signature commits to. *)
Definition p2pkh_code (h vchSig : valtype) : CScript := drop_sig SIGVERSION_BASE (p2pkh h) vchSig.

Lemma EvalScript_p2pkh pk sig h :
  plain_push h ->
  EvalScript flags SIGVERSION_BASE [pk; sig] (p2pkh h) =
  if decide (CHash160 pk = h) then
    check_encodings flags SIGVERSION_BASE sig pk ≫= fun _ =>
    let ok := CheckSig sig pk (p2pkh_code h sig) SIGVERSION_BASE in
    fail_if (negb ok && has_flag flags SCRIPT_VERIFY_NULLFAIL && negb (size sig =? 0)) SCRIPT_ERR_SIG_NULLFAIL ≫= fun _ =>
    Ret [vch_of_bool ok]
  else Fail SCRIPT_ERR_EQUALVERIFY.
Proof.
  intros Hh. unfold EvalScript.
  assert (fail_if (MAX_SCRIPT_SIZE <? size (p2pkh h)) SCRIPT_ERR_SCRIPT_SIZE = Ret tt) as ->.
  { unfold fail_if. rewrite (proj2 (Z.ltb_ge _ _)); [done|]. unfold p2pkh. rewrite push_data_plain by done.
    unfold plain_push, MAX_SCRIPT_SIZE in *. rewrite !length_app. cbn [length]. lia. }
  assert (exists n, length (p2pkh h) = S (S (S (S (S n))))) as [n ->].
  { unfold p2pkh. rewrite push_data_plain by done. simpl. rewrite length_app. simpl. eexists. rewrite !Nat.add_succ_r. reflexivity. }
  cbn [mbind outcome_bind]. change (mkE ?st [] [] 0 ?c ?p) with (running st 0 c p).
  remember (p2pkh h) as code eqn:Hcode. rewrite Hcode at 2. unfold p2pkh. cbn [app].
  erewrite eval_loop_step; [|done|by apply step_dup].
  erewrite eval_loop_step; [|done|by apply step_hash160].
  erewrite eval_loop_step; [|by apply push_nonempty|by apply step_push].
  destruct (decide (CHash160 pk = h)) as [Heq|Hne].
  - erewrite eval_loop_step; [|done|rewrite step_equalverify by done; by rewrite decide_True by done].
    simpl eval_loop. rewrite step_checksig by done. unfold p2pkh_code. rewrite <- Hcode.
    destruct (check_encodings _ _ _ _); try done. cbn -[vch_of_bool drop_sig has_flag fail_if eval_loop running].
    destruct (fail_if (_ && _) _); try done. cbn -[vch_of_bool drop_sig has_flag eval_loop running].
    by rewrite eval_loop_done.
  - erewrite eval_loop_fail; [done|done|]. rewrite step_equalverify by done. by rewrite decide_False by done.
Qed.

(** After the two evaluations, nothing else is required of this output. *)
Lemma VerifyScript_plain_output scriptSig script st top :
  EvalScript flags SIGVERSION_BASE [] scriptSig = Ret st -> IsPushOnly scriptSig = true ->
  IsWitnessProgram script = None -> IsPayToScriptHash script = false -> flags_consistent flags ->
  EvalScript flags SIGVERSION_BASE st script = Ret [top] ->
  VerifyScript flags scriptSig script [] = if CastToBool top then Ret tt else Fail SCRIPT_ERR_EVAL_FALSE.
Proof.
  intros Hsig Hpo Hwp Hsh [Hcs Hw] Hspk. unfold VerifyScript.
  rewrite Hpo, andb_false_r, Hsig. cbn [fail_if mbind outcome_bind]. rewrite Hspk. cbn [mbind outcome_bind].
  unfold check_true. destruct (CastToBool top); [|done]. cbn [mbind outcome_bind].
  rewrite Hwp, Hsh, andb_false_r. destruct (has_flag flags SCRIPT_VERIFY_WITNESS).
  - rewrite Hw by done. by destruct (has_flag flags SCRIPT_VERIFY_CLEANSTACK).
  - destruct (has_flag flags SCRIPT_VERIFY_CLEANSTACK); [|done]. by specialize (Hcs eq_refl).
Qed.

Lemma VerifyScript_output_error scriptSig script st :
  EvalScript flags SIGVERSION_BASE [] scriptSig = Ret st ->
  (forall st', EvalScript flags SIGVERSION_BASE st script <> Ret st') -> VerifyScript flags scriptSig script [] <> Ret tt.
Proof.
  intros Hsig Hspk. unfold VerifyScript. rewrite Hsig. cbn [mbind outcome_bind].
  destruct (EvalScript flags SIGVERSION_BASE st script) as [st'| | |]; [by destruct (Hspk st')|..];
    by destruct (has_flag flags SCRIPT_VERIFY_SIGPUSHONLY && _).
Qed.

Lemma p2pkh_shape h : length h = 20%nat -> IsWitnessProgram (p2pkh h) = None /\ IsPayToScriptHash (p2pkh h) = false.
Proof.
  intros Hh. assert (length (p2pkh h) = 25%nat) as Hl.
  { unfold p2pkh. rewrite push_data_plain by (unfold plain_push; lia). rewrite !length_app. simpl. lia. }
  unfold IsWitnessProgram, IsPayToScriptHash. by rewrite Hl.
Qed.
End P2PKH.

(** The template [IsPayToPublicKeyHash] matches is exactly this script. *)
Lemma IsPayToPublicKeyHash_p2pkh s :
  IsPayToPublicKeyHash s = true -> s = p2pkh (take 20 (drop 3 s)) /\ length s = 25%nat.
Proof.
  unfold IsPayToPublicKeyHash. rewrite !andb_true_iff, !Z.eqb_eq. intros (((((Hl & H0) & H1) & H2) & H23) & H24).
  assert (length s = 25%nat) as Hlen by lia. split; [|done]. clear Hl.
  do 26 (destruct s as [|? s]; [simpl in Hlen; try done|]).
  2: by simpl in Hlen.
  unfold aget in *. simpl in H0, H1, H2, H23, H24. by subst.
Qed.

Section Unspendable.
Context `{CryptoHashes} `{SignatureChecker}.
Variables (flags : Z) (sigversion : SigVersion) (stack : list valtype).

Lemma EvalScript_oversize script :
  (MAX_SCRIPT_SIZE <? size script) = true -> exists e, EvalScript flags sigversion stack script = Fail e.
Proof. intros Hs. unfold EvalScript. rewrite Hs. by eexists. Qed.

Lemma EvalScript_op_return rest : exists e, EvalScript flags sigversion stack (OP_RETURN :: rest) = Fail e.
Proof.
  unfold EvalScript. destruct (MAX_SCRIPT_SIZE <? _); [by eexists|]. cbn [fail_if mbind outcome_bind length].
  change (mkE ?st [] [] 0 ?c ?p) with (running st 0 c p).
  rewrite (eval_loop_fail _ _ _ _ SCRIPT_ERR_OP_RETURN); [by eexists|done|]. by rewrite step_op.
Qed.

Lemma step_rvh nOps code rest :
  size rest <= MAX_SCRIPT_ELEMENT_SIZE -> nOps < MAX_OPS_PER_SCRIPT -> size stack <= MAX_STACK_SIZE ->
  step flags sigversion (running stack nOps code (OP_RVH_ASSET :: rest)) = Ret (running stack (nOps + 1) code []).
Proof.
  intros Hr Hn Hst. unfold step, running. cbn -[Z.ltb Z.add Z.of_nat]. unfold fail_if.
  rewrite (proj2 (Z.ltb_ge MAX_SCRIPT_ELEMENT_SIZE _)) by done. cbn -[Z.ltb Z.add Z.of_nat].
  rewrite (proj2 (Z.ltb_ge MAX_OPS_PER_SCRIPT _)) by (cbn; lia). cbn -[Z.ltb Z.add Z.of_nat].
  by rewrite (proj2 (Z.ltb_ge MAX_STACK_SIZE _)) by lia.
Qed.

Lemma EvalScript_rvh rest :
  (MAX_SCRIPT_SIZE <? size (OP_RVH_ASSET :: rest)) = false -> size rest <= MAX_SCRIPT_ELEMENT_SIZE ->
  size stack <= MAX_STACK_SIZE -> EvalScript flags sigversion stack (OP_RVH_ASSET :: rest) = Ret stack.
Proof.
  intros Hs Hr Hst. unfold EvalScript. rewrite Hs. cbn [fail_if mbind outcome_bind length].
  change (mkE ?st [] [] 0 ?c ?p) with (running st 0 c p).
  erewrite eval_loop_step; [|done|by apply step_rvh]. by rewrite eval_loop_done.
Qed.

Lemma EvalScript_rvh_oversize rest :
  (MAX_SCRIPT_ELEMENT_SIZE <? size rest) = true -> exists e, EvalScript flags sigversion stack (OP_RVH_ASSET :: rest) = Fail e.
Proof.
  intros Hr. unfold EvalScript. destruct (MAX_SCRIPT_SIZE <? _); [by eexists|]. cbn [fail_if mbind outcome_bind length].
  change (mkE ?st [] [] 0 ?c ?p) with (running st 0 c p).
  rewrite (eval_loop_fail _ _ _ _ SCRIPT_ERR_PUSH_SIZE); [by eexists|done|].
  unfold step, running. cbn -[Z.ltb Z.add Z.of_nat]. by rewrite Hr.
Qed.
End Unspendable.

(** ** Theorems *)

(** C34. Spending a pay-to-public-key-hash output with the canonical
    [<signature> <public key>] input script succeeds exactly when the public
    key hashes to the committed hash, the encodings pass the checks the flags
    ask for, and the signature checks against the whole output script. *)
Theorem VerifyScript_p2pkh `{CryptoHashes} `{SignatureChecker} flags script sig pk :
  IsPayToPublicKeyHash script = true -> flags_consistent flags ->
  plain_push sig -> plain_push pk -> length sig <> 20%nat ->
  VerifyScript flags (push_data sig ++ push_data pk) script [] = Ret tt <->
  CHash160 pk = take 20 (drop 3 script) /\
  check_encodings flags SIGVERSION_BASE sig pk = Ret tt /\
  CheckSig sig pk script SIGVERSION_BASE = true.
Proof.
  intros Hpkh Hfl Hs Hp Hne. destruct (IsPayToPublicKeyHash_p2pkh _ Hpkh) as [Hscript Hlen].
  set (h := take 20 (drop 3 script)) in *. assert (length h = 20%nat) as Hh.
  { unfold h. rewrite length_take, length_drop. lia. }
  pose proof (EvalScript_p2pkh flags pk sig h ltac:(unfold plain_push; lia)) as He.
  unfold p2pkh_code, drop_sig in He. rewrite FindAndDelete_p2pkh in He by done. rewrite <- Hscript in He.
  pose proof (p2pkh_shape h Hh) as [Hw Hsh]. rewrite <- Hscript in Hw, Hsh.
  assert (IsPushOnly (push_data sig ++ push_data pk) = true) as Hpo.
  { pose proof (IsPushOnly_push_all [sig; pk]) as Hx. unfold push_all in Hx. simpl in Hx. rewrite app_nil_r in Hx. apply Hx.
    unfold plain_push in *. repeat constructor; lia. }
  pose proof (EvalScript_two_pushes flags SIGVERSION_BASE sig pk Hs Hp) as Hsig.
  destruct (decide (CHash160 pk = h)) as [Hhash|Hhash].
  2: { split; [|by intros [? _]]. intros Hv. exfalso. revert Hv. apply (VerifyScript_output_error _ _ _ _ Hsig). by rewrite He. }
  destruct (check_encodings flags SIGVERSION_BASE sig pk) as [[]|e| |]; cbn [mbind outcome_bind] in He.
  2-4: split; [|by intros (_ & ? & _)]; intros Hv; exfalso; revert Hv; apply (VerifyScript_output_error _ _ _ _ Hsig); by rewrite He.
  destruct (CheckSig sig pk script SIGVERSION_BASE).
  - rewrite (VerifyScript_plain_output _ _ _ _ _ Hsig Hpo Hw Hsh Hfl He). done.
  - split; [|by intros (_ & _ & ?)]. intros Hv. exfalso. revert Hv. destruct (fail_if _ _) as [[]|e| |] eqn:Ef; cbn [mbind outcome_bind] in He.
    { by rewrite (VerifyScript_plain_output _ _ _ _ _ Hsig Hpo Hw Hsh Hfl He). }
    all: apply (VerifyScript_output_error _ _ _ _ Hsig); by rewrite He.
Qed.

(** The hash of the example key under the toy hashes, and the script that pays to it. *)
Definition example_key : valtype := 2 :: replicate 32 7.
Definition example_p2pkh : CScript := p2pkh (CHash160 example_key).

Lemma VerifyScript_p2pkh_witness :
  VerifyScript SCRIPT_VERIFY_P2SH (push_data [2; 7; 1] ++ push_data example_key) example_p2pkh [] = Ret tt /\
  VerifyScript SCRIPT_VERIFY_P2SH (push_data [3; 7; 1] ++ push_data example_key) example_p2pkh [] <> Ret tt.
Proof.
  split.
  - apply (VerifyScript_p2pkh SCRIPT_VERIFY_P2SH example_p2pkh [2; 7; 1] example_key);
      [reflexivity|by split; intros [=]|by split|by split|done|].
    by repeat split.
  - intros Hv. apply (VerifyScript_p2pkh SCRIPT_VERIFY_P2SH example_p2pkh [3; 7; 1] example_key) in Hv as (_ & _ & Hc);
      [by vm_compute in Hc|reflexivity|by split; intros [=]|by split|by split|done].
Defined.

(** Of the scripts the UTXO set never stores, those that start with
    [OP_RETURN] and those above the size limit do fail whatever the stack and
    the flags. A script that starts with [OP_RVH_ASSET] does not: the opcode
    swallows the rest of the script and is a no-op, so evaluation returns the
    stack it was given. *)
Theorem IsUnspendable_execution `{CryptoHashes} `{SignatureChecker} `{AssetScripts} flags sigversion stack script :
  size stack <= MAX_STACK_SIZE -> IsUnspendable script = true ->
  GetAssetAmountFromScript script <> Some 0 ->
  (exists rest, script = OP_RVH_ASSET :: rest /\ size rest <= MAX_SCRIPT_ELEMENT_SIZE /\
    EvalScript flags sigversion stack script = Ret stack) \/
  exists e, EvalScript flags sigversion stack script = Fail e.
Proof.
  intros Hst Hun Has. unfold IsUnspendable in Hun.
  destruct (MAX_SCRIPT_SIZE <? size script) eqn:Hsz; [right; by apply EvalScript_oversize|].
  destruct script as [|op rest]; [by destruct (GetAssetAmountFromScript []) as [[]|]|].
  apply orb_true_iff in Hun as [Hun|Hun].
  2: { destruct (GetAssetAmountFromScript _) as [n|]; [|done]. apply Z.eqb_eq in Hun. by subst. }
  rewrite orb_false_r in Hun. apply orb_true_iff in Hun as [Hun|Hun]; apply Z.eqb_eq in Hun as ->.
  - right. by apply EvalScript_op_return.
  - destruct (MAX_SCRIPT_ELEMENT_SIZE <? size rest) eqn:Hr.
    + right. by apply EvalScript_rvh_oversize.
    + left. exists rest. apply Z.ltb_ge in Hr. split; [done|]. split; [done|]. by apply EvalScript_rvh.
Qed.

#[local] Instance plain_scripts : AssetScripts := fun _ => None.

Lemma IsUnspendable_execution_witness :
  VerifyScript SCRIPT_VERIFY_P2SH [OP_1] [OP_RVH_ASSET; 3; 1; 2; 3] [] = Ret tt /\
  exists e, EvalScript SCRIPT_VERIFY_P2SH SIGVERSION_BASE [[1]] [OP_RETURN] = Fail e.
Proof.
  split.
  - destruct (IsUnspendable_execution SCRIPT_VERIFY_P2SH SIGVERSION_BASE [[1]] [OP_RVH_ASSET; 3; 1; 2; 3])
      as [(rest & _ & _ & He)|[e He]]; [done|done|done| |by vm_compute in He].
    unfold VerifyScript. change (EvalScript _ _ [] [OP_1]) with (Ret (A := list valtype) [[1]]).
    cbn [mbind outcome_bind]. by rewrite He.
  - destruct (IsUnspendable_execution SCRIPT_VERIFY_P2SH SIGVERSION_BASE [[1]] [OP_RETURN])
      as [(rest & Hx & _)|Hf]; [done|done|done|done|exact Hf].
Defined.
