(* ===== verification/Serialize.v ===== *)
(** [serialize.h]: little-endian integers, compact sizes, variable-length
    integers and vectors on byte streams. A stream is the list of the bytes not read yet; reading
    is an [option], [None] being a thrown [std::ios_base::failure]. *)

From stdpp Require Import prelude.
From Stdlib Require Import ZArith Lia.
From S2P Require Import Prelude.

Open Scope Z_scope.

Abbreviation stream := (list Z).

(** What [read] returns: the value and the stream that is left. *)
Abbreviation reader A := (stream -> option (A * stream)).

(** ** Fixed-width integers *)

Fixpoint le_bytes (k : nat) (x : Z) : stream :=
  match k with
  | O => []
  | S k' => x mod 2 ^ 8 :: le_bytes k' (x / 2 ^ 8)
  end.

Fixpoint le_value (bs : stream) : Z :=
  match bs with
  | [] => 0
  | b :: rest => b + 2 ^ 8 * le_value rest
  end.

(** [s.read(pch, n)] *)
Definition read_bytes (n : nat) : reader stream := fun s =>
  if decide (length s < n)%nat then None else Some (take n s, drop n s).

(** [ser_writedata8/16/32/64] and [ser_readdata8/16/32/64], by the number of bytes. *)
Definition ser_writedata (k : nat) (obj : Z) : stream := le_bytes k obj.
Definition ser_readdata (k : nat) : reader Z := fun s =>
  '(bs, rest) ← read_bytes k s; Some (le_value bs, rest).

(** ** Compact sizes *)

Definition MAX_SIZE : Z := 0x02000000.

Definition WriteCompactSize (nSize : Z) : stream :=
  if nSize <? 253 then ser_writedata 1 nSize
  else if nSize <=? 0xffff then ser_writedata 1 253 ++ ser_writedata 2 nSize
  else if nSize <=? 0xffffffff then ser_writedata 1 254 ++ ser_writedata 4 nSize
  else ser_writedata 1 255 ++ ser_writedata 8 nSize.

Definition ReadCompactSize : reader Z := fun s =>
  '(chSize, s1) ← ser_readdata 1 s;
  '(nSizeRet, s2) ←
    (if chSize <? 253 then Some (chSize, s1)
     else if chSize =? 253 then
       '(n, s2) ← ser_readdata 2 s1; if n <? 253 then None else Some (n, s2)
     else if chSize =? 254 then
       '(n, s2) ← ser_readdata 4 s1; if n <? 0x10000 then None else Some (n, s2)
     else
       '(n, s2) ← ser_readdata 8 s1; if n <? 0x100000000 then None else Some (n, s2));
  if MAX_SIZE <? nSizeRet then None else Some (nSizeRet, s2).

(** ** Variable-length integers *)

(** The loop of [WriteVarInt] and its output: [tmp] holds the digits from the
    last one back, [slots] is what is left of the array; [None] would be a write past its end. *)
Fixpoint write_varint_loop (slots : nat) (n len : Z) (tmp : stream) : option stream :=
  match slots with
  | O => None
  | S slots' =>
      let tmp' := Z.lor (Z.land n 0x7f) (if len =? 0 then 0 else 0x80) :: tmp in
      if n <=? 0x7f then Some tmp'
      else write_varint_loop slots' (Z.shiftr n 7 - 1) (len + 1) tmp'
  end.

(** [WriteVarInt] for a type of [bits] bits: [unsigned char tmp[(sizeof(n)*8+6)/7]]. *)
Definition WriteVarInt (bits n : Z) : option stream :=
  write_varint_loop (Z.to_nat ((bits + 6) / 7)) n 0 [].

(** [ReadVarInt] for a type whose largest value is [max]. *)
Fixpoint read_varint_loop (max : Z) (s : stream) (n : Z) : option (Z * stream) :=
  match s with
  | [] => None
  | chData :: rest =>
      if Z.shiftr max 7 <? n then None
      else
        let n' := Z.lor (Z.shiftl n 7) (Z.land chData 0x7f) in
        if negb (Z.land chData 0x80 =? 0) then
          if n' =? max then None else read_varint_loop max rest (n' + 1)
        else Some (n', rest)
  end.
Definition ReadVarInt (max : Z) : reader Z := fun s => read_varint_loop max s 0.

(** ** Vectors *)

(** [for (auto& x : v) Serialize(s, x)] *)
Fixpoint write_all {A : Type} (w : A -> option stream) (l : list A) : option stream :=
  match l with
  | [] => Some []
  | x :: rest => bs ← w x; bs' ← write_all w rest; Some (bs ++ bs')
  end.

Fixpoint read_n {A : Type} (r : reader A) (n : nat) : reader (list A) := fun s =>
  match n with
  | O => Some ([], s)
  | S n' => '(x, s1) ← r s; '(l, s2) ← read_n r n' s1; Some (x :: l, s2)
  end.

(** A vector of objects: its compact size and its elements. The reader grows
    the vector in chunks, which does not show in the result. *)
Definition write_vector {A : Type} (w : A -> option stream) (l : list A) : option stream :=
  bs ← write_all w l; Some (WriteCompactSize (Z.of_nat (length l)) ++ bs).
Definition read_vector {A : Type} (r : reader A) : reader (list A) := fun s =>
  '(nSize, s1) ← ReadCompactSize s; read_n r (Z.to_nat nSize) s1.

(** ** Lemmas *)

Lemma length_le_bytes k x : length (le_bytes k x) = k.
Proof. revert x. induction k; intros; simpl; auto. Qed.

Lemma le_value_bytes k x : 0 <= x < 2 ^ (8 * Z.of_nat k) -> le_value (le_bytes k x) = x.
Proof.
  revert x. induction k as [|k IH]; intros x Hx; [simpl in *; lia|]. cbn [le_bytes le_value].
  replace (8 * Z.of_nat (S k)) with (8 * Z.of_nat k + 8) in Hx by lia. rewrite Z.pow_add_r in Hx by lia.
  rewrite IH; [pose proof (Z.div_mod x (2 ^ 8)); lia|].
  split; [apply Z.div_pos; lia|apply Z.div_lt_upper_bound; lia].
Qed.

Lemma read_bytes_app bs rest : read_bytes (length bs) (bs ++ rest) = Some (bs, rest).
Proof.
  unfold read_bytes. rewrite decide_False by (rewrite length_app; lia).
  by rewrite take_app_length, drop_app_length.
Qed.

Lemma ser_read_write k x rest :
  0 <= x < 2 ^ (8 * Z.of_nat k) -> ser_readdata k (ser_writedata k x ++ rest) = Some (x, rest).
Proof.
  intros Hx. unfold ser_readdata, ser_writedata. rewrite <- (length_le_bytes k x) at 1. rewrite read_bytes_app.
  simpl. by rewrite le_value_bytes.
Qed.

Lemma compact_size_roundtrip n rest : 0 <= n <= MAX_SIZE -> ReadCompactSize (WriteCompactSize n ++ rest) = Some (n, rest).
Proof.
  unfold MAX_SIZE. intros Hn. unfold ReadCompactSize, WriteCompactSize.
  destruct (Z.ltb_spec n 253); [|destruct (Z.leb_spec n 0xffff); [|rewrite (proj2 (Z.leb_le n 0xffffffff)) by lia]].
  - rewrite ser_read_write by (simpl; lia). cbn [mbind option_bind].
    rewrite (proj2 (Z.ltb_lt n 253)) by lia. cbn -[Z.ltb]. unfold MAX_SIZE. by rewrite (proj2 (Z.ltb_ge 0x02000000 n)) by lia.
  - rewrite <- app_assoc, ser_read_write by (simpl; lia). cbn [mbind option_bind]. change (253 <? 253) with false. change (254 <? 253) with false. cbn [Z.eqb Pos.eqb].
    rewrite ser_read_write by (simpl; lia). cbn [mbind option_bind]. rewrite (proj2 (Z.ltb_ge n 253)) by lia.
    cbn [mbind option_bind]. unfold MAX_SIZE. by rewrite (proj2 (Z.ltb_ge 0x02000000 n)) by lia.
  - rewrite <- app_assoc, ser_read_write by (simpl; lia). cbn [mbind option_bind]. change (253 <? 253) with false. change (254 <? 253) with false. cbn [Z.eqb Pos.eqb].
    rewrite ser_read_write by (simpl; lia). cbn [mbind option_bind]. rewrite (proj2 (Z.ltb_ge n 0x10000)) by lia.
    cbn [mbind option_bind]. unfold MAX_SIZE. by rewrite (proj2 (Z.ltb_ge 0x02000000 n)) by lia.
Qed.

(** One digit: reading it after the digits of [n >> 7] gives [n]. *)
Lemma read_varint_digit max n (more : bool) rest :
  0 <= n <= max ->
  read_varint_loop max (Z.lor (Z.land n 0x7f) (if more then 0x80 else 0) :: rest) (Z.shiftr n 7) =
  if more then if n =? max then None else read_varint_loop max rest (n + 1) else Some (n, rest).
Proof.
  intros Hn. cbn [read_varint_loop].
  rewrite (proj2 (Z.ltb_ge _ _)) by (rewrite !Z.shiftr_div_pow2 by lia; apply Z.div_le_mono; lia).
  assert (Z.land (Z.lor (Z.land n 0x7f) (if more then 0x80 else 0)) 0x7f = n mod 2 ^ 7) as ->.
  { rewrite Z.land_lor_distr_l, <- Z.land_assoc. change (Z.land 0x7f 0x7f) with (Z.ones 7).
    rewrite Z.land_ones by lia. destruct more; apply Z.lor_0_r. }
  assert (Z.lor (Z.shiftl (Z.shiftr n 7) 7) (n mod 2 ^ 7) = n) as ->.
  { rewrite Z.lor_comm, lor_shiftl_add by (pose proof (Z.mod_pos_bound n (2 ^ 7)); lia).
    rewrite Z.shiftr_div_pow2 by lia. pose proof (Z.div_mod n (2 ^ 7)). lia. }
  assert (Z.land (Z.lor (Z.land n 0x7f) (if more then 0x80 else 0)) 0x80 = if more then 0x80 else 0) as ->.
  { rewrite Z.land_lor_distr_l, <- Z.land_assoc. change (Z.land 0x7f 0x80) with 0. rewrite Z.land_0_r. by destruct more. }
  by destruct more.
Qed.

Lemma write_varint_spec slots n len tmp :
  0 <= n < 2 ^ (7 * Z.of_nat slots) -> 0 <= len -> (0 < slots)%nat ->
  exists bs, write_varint_loop slots n len tmp = Some (bs ++ tmp) /\
    forall max rest, n <= max ->
      read_varint_loop max (bs ++ rest) 0 =
      if len =? 0 then Some (n, rest) else if n =? max then None else read_varint_loop max rest (n + 1).
Proof.
  revert n len tmp. induction slots as [|k IH]; intros n len tmp Hn Hlen Hk; [lia|]. cbn [write_varint_loop].
  set (b := Z.lor (Z.land n 0x7f) (if len =? 0 then 0 else 0x80)).
  assert (forall max rest, n <= max -> read_varint_loop max (b :: rest) (Z.shiftr n 7) =
    if len =? 0 then Some (n, rest) else if n =? max then None else read_varint_loop max rest (n + 1)) as Hb.
  { intros max rest Hm. pose proof (read_varint_digit max n (negb (len =? 0)) rest) as Hd.
    unfold b. destruct (len =? 0); apply Hd; lia. }
  destruct (Z.leb_spec n 0x7f) as [Hle|Hgt].
  - exists [b]. split; [done|]. intros max rest Hm. rewrite <- (Hb max rest Hm). cbn [app]. f_equal.
    rewrite Z.shiftr_div_pow2 by lia. symmetry. apply Z.div_small. lia.
  - assert (1 <= Z.shiftr n 7) as H1.
    { rewrite Z.shiftr_div_pow2 by lia. apply Z.div_le_lower_bound; lia. }
    assert (Z.shiftr n 7 < 2 ^ (7 * Z.of_nat k)) as H2.
    { rewrite Z.shiftr_div_pow2 by lia. apply Z.div_lt_upper_bound; [lia|]. rewrite <- Z.pow_add_r by lia.
      replace (7 + 7 * Z.of_nat k) with (7 * Z.of_nat (S k)) by lia. lia. }
    assert (0 < k)%nat as Hk0. { destruct k; [simpl in H2; lia|lia]. }
    destruct (IH (Z.shiftr n 7 - 1) (len + 1) (b :: tmp)) as (bs & -> & Hr); [lia|lia|lia|].
    exists (bs ++ [b]). split; [by rewrite <- app_assoc|]. intros max rest Hm. rewrite <- app_assoc. cbn [app].
    assert (Z.shiftr n 7 < n) as Hlt.
    { rewrite Z.shiftr_div_pow2 by lia. apply Z.div_lt; lia. }
    rewrite Hr by lia. rewrite (proj2 (Z.eqb_neq (len + 1) 0)), (proj2 (Z.eqb_neq (_ - 1) max)) by lia.
    replace (Z.shiftr n 7 - 1 + 1) with (Z.shiftr n 7) by lia. by apply Hb.
Qed.

Lemma varint_roundtrip bits n max :
  (bits = 32 \/ bits = 64) -> 0 <= n < 2 ^ bits -> n <= max ->
  exists bs, WriteVarInt bits n = Some bs /\ forall rest, ReadVarInt max (bs ++ rest) = Some (n, rest).
Proof.
  intros Hb Hn Hm. unfold WriteVarInt, ReadVarInt.
  destruct (write_varint_spec (Z.to_nat ((bits + 6) / 7)) n 0 []) as (bs & Hw & Hr).
  - split; [lia|]. apply Z.lt_le_trans with (2 ^ bits); [lia|]. apply Z.pow_le_mono_r; [lia|]. destruct Hb as [-> | ->]; done.
  - lia.
  - destruct Hb as [-> | ->]; vm_compute; lia.
  - exists bs. rewrite app_nil_r in Hw. split; [done|]. intros rest. by rewrite Hr.
Qed.

(** Elements that read back, in a vector that reads back. *)
Lemma read_n_write_all {A : Type} (P : A -> Prop) (w : A -> option stream) (r : reader A) l :
  (forall x, P x -> exists bs, w x = Some bs /\ forall rest, r (bs ++ rest) = Some (x, rest)) ->
  Forall P l ->
  exists bs, write_all w l = Some bs /\ forall rest, read_n r (length l) (bs ++ rest) = Some (l, rest).
Proof.
  intros Hx Hl. induction Hl as [|x l Px _ (bs' & Hw' & Hr')]; [by exists []|].
  destruct (Hx x Px) as (bs & Hw & Hr). exists (bs ++ bs'). cbn [write_all read_n length].
  rewrite Hw, Hw'. split; [done|]. intros rest. rewrite <- app_assoc, Hr. simpl. by rewrite Hr'.
Qed.

Lemma vector_roundtrip {A : Type} (P : A -> Prop) (w : A -> option stream) (r : reader A) l :
  (forall x, P x -> exists bs, w x = Some bs /\ forall rest, r (bs ++ rest) = Some (x, rest)) ->
  Forall P l -> Z.of_nat (length l) <= MAX_SIZE ->
  exists bs, write_vector w l = Some bs /\ forall rest, read_vector r (bs ++ rest) = Some (l, rest).
Proof.
  intros Hx Hl Hn. destruct (read_n_write_all P w r l Hx Hl) as (bs & Hw & Hr).
  eexists. unfold write_vector, read_vector. rewrite Hw. split; [done|]. intros rest.
  rewrite <- app_assoc, compact_size_roundtrip by lia. simpl. by rewrite Nat2Z.id.
Qed.
