(* ===== verification/Compressor.v ===== *)
(** [compressor.h], [compressor.cpp], the serialization of [Coin] in [coins.h] and
    [undo.h]: the forms in which coins are stored in the database and in the
    undo files. Amounts and the common output scripts are compressed. *)

From stdpp Require Import prelude gmap.
From Stdlib Require Import ZArith Lia.
From S2P Require Import Prelude Opcodes Transaction Compact Script Coins Serialize.

Open Scope Z_scope.

(** ** Public keys *)

(** [secp256k1_ec_pubkey_parse] followed by [secp256k1_ec_pubkey_serialize] in
    the uncompressed form; [None] when the bytes do not encode a point. *)
Class Secp256k1 := secp_uncompress : valtype -> option valtype.

(** The documented formats of the library: the uncompressed form is the byte
    4 and the two coordinates, it parses to itself, and the point is also
    given by the first coordinate and the parity of the second. *)
Class Secp256k1Spec `{Secp256k1} : Prop := {
  secp_form k u : secp_uncompress k = Some u -> exists x y, u = 4 :: x ++ y /\ length x = 32%nat /\ length y = 32%nat;
  secp_uncompressed x y u :
    length x = 32%nat -> length y = 32%nat -> secp_uncompress (4 :: x ++ y) = Some u -> u = 4 :: x ++ y;
  secp_compressed x y u :
    length x = 32%nat -> length y = 32%nat -> secp_uncompress (4 :: x ++ y) = Some u ->
    secp_uncompress (2 + Z.land (back y) 1 :: x) = Some u
}.

(** [CPubKey]: the bytes in use; an invalid key has none. *)
Definition GetLen (chHeader : Z) : Z :=
  if (chHeader =? 2) || (chHeader =? 3) then 33
  else if (chHeader =? 4) || (chHeader =? 6) || (chHeader =? 7) then 65 else 0.
Definition PubKey_Set (v : valtype) : valtype :=
  match v with
  | [] => []
  | h :: _ => if negb (GetLen h =? 0) && (GetLen h =? size v) then v else []
  end.
Definition PubKey_IsValid (k : valtype) : bool := 0 <? size k.
Definition IsFullyValid `{Secp256k1} (k : valtype) : bool :=
  PubKey_IsValid k && match secp_uncompress k with Some _ => true | None => false end.
(** [CPubKey::Decompress]: [None] when it returns false. *)
Definition PubKey_Decompress `{Secp256k1} (k : valtype) : option valtype :=
  if PubKey_IsValid k then u ← secp_uncompress k; Some (PubKey_Set u) else None.

(** ** Scripts *)

Section ScriptCompressor.
Context `{Secp256k1}.

Definition nSpecialScripts : Z := 6.

Definition IsToKeyID (script : CScript) : option valtype :=
  if (size script =? 25) && (aget script 0 =? OP_DUP) && (aget script 1 =? OP_HASH160)
     && (aget script 2 =? 20) && (aget script 23 =? OP_EQUALVERIFY) && (aget script 24 =? OP_CHECKSIG)
  then Some (take 20 (drop 3 script)) else None.

Definition IsToScriptID (script : CScript) : option valtype :=
  if (size script =? 23) && (aget script 0 =? OP_HASH160) && (aget script 1 =? 20) && (aget script 22 =? OP_EQUAL)
  then Some (take 20 (drop 2 script)) else None.

Definition IsToPubKey (script : CScript) : option valtype :=
  if (size script =? 35) && (aget script 0 =? 33) && (aget script 34 =? OP_CHECKSIG)
     && ((aget script 1 =? 0x02) || (aget script 1 =? 0x03))
  then Some (PubKey_Set (take 33 (drop 1 script)))
  else if (size script =? 67) && (aget script 0 =? 65) && (aget script 66 =? OP_CHECKSIG) && (aget script 1 =? 0x04)
  then let pubkey := PubKey_Set (take 65 (drop 1 script)) in
       if IsFullyValid pubkey then Some pubkey else None
  else None.

Definition Compress (script : CScript) : option valtype :=
  match IsToKeyID script with
  | Some keyID => Some (0x00 :: keyID)
  | None =>
      match IsToScriptID script with
      | Some scriptID => Some (0x01 :: scriptID)
      | None =>
          match IsToPubKey script with
          | Some pubkey =>
              let x := take 32 (drop 1 pubkey) in
              if (aget pubkey 0 =? 0x02) || (aget pubkey 0 =? 0x03) then Some (aget pubkey 0 :: x)
              else if aget pubkey 0 =? 0x04 then Some (Z.lor 0x04 (Z.land (aget pubkey 64) 0x01) :: x)
              else None
          | None => None
          end
      end
  end.

Definition GetSpecialSize (nSize : Z) : Z :=
  if (nSize =? 0) || (nSize =? 1) then 20
  else if (nSize =? 2) || (nSize =? 3) || (nSize =? 4) || (nSize =? 5) then 32
  else 0.

(** [Decompress]: the new script, [Some None] when it returns false and leaves
    the script alone, [None] for the failed assertion on the key's size. *)
Definition Decompress (nSize : Z) (vch : valtype) : option (option CScript) :=
  if nSize =? 0x00 then
    Some (Some ([OP_DUP; OP_HASH160; 20] ++ take 20 vch ++ [OP_EQUALVERIFY; OP_CHECKSIG]))
  else if nSize =? 0x01 then Some (Some ([OP_HASH160; 20] ++ take 20 vch ++ [OP_EQUAL]))
  else if (nSize =? 0x02) || (nSize =? 0x03) then Some (Some ([33; nSize] ++ take 32 vch ++ [OP_CHECKSIG]))
  else if (nSize =? 0x04) || (nSize =? 0x05) then
    match PubKey_Decompress (PubKey_Set (nSize - 2 :: take 32 vch)) with
    | None => Some None
    | Some pubkey => if size pubkey =? 65 then Some (Some ([65] ++ pubkey ++ [OP_CHECKSIG])) else None
    end
  else Some None.

(** [CScriptCompressor::Serialize] *)
Definition Script_write (script : CScript) : option stream :=
  match Compress script with
  | Some compr => Some compr
  | None => bs ← WriteVarInt 32 (u32 (size script + nSpecialScripts)); Some (bs ++ script)
  end.

Definition UINT_MAX : Z := 2 ^ 32 - 1.
Definition UINT64_MAX : Z := 2 ^ 64 - 1.

(** [CScriptCompressor::Unserialize] into an object that holds [script0];
    what [Decompress] returns is ignored. *)
Definition Script_read (script0 : CScript) : reader CScript := fun s =>
  '(nSize, s1) ← ReadVarInt UINT_MAX s;
  if nSize <? nSpecialScripts then
    '(vch, s2) ← read_bytes (Z.to_nat (GetSpecialSize nSize)) s1;
    script ← Decompress nSize vch;
    Some (default script0 script, s2)
  else
    let nSize := nSize - nSpecialScripts in
    if MAX_SCRIPT_SIZE <? nSize then
      '(_, s2) ← read_bytes (Z.to_nat nSize) s1; Some (script0 ++ [OP_RETURN], s2)
    else read_bytes (Z.to_nat nSize) s1.

End ScriptCompressor.

(** ** Amounts *)

(** [while (((n % 10) == 0) && e < 9) { n /= 10; e++; }] *)
Fixpoint compress_loop (fuel : nat) (n e : Z) : Z * Z :=
  match fuel with
  | O => (n, e)
  | S fuel' => if (n mod 10 =? 0) && (e <? 9) then compress_loop fuel' (n / 10) (e + 1) else (n, e)
  end.

(** [CompressAmount]; [None] is a failed assertion. *)
Definition CompressAmount (n0 : Z) : option Z :=
  if n0 =? 0 then Some 0
  else
    let '(n, e) := compress_loop 9 n0 0 in
    if e <? 9 then
      let d := n mod 10 in
      if (1 <=? d) && (d <=? 9) then Some (u64 (1 + (n / 10 * 9 + d - 1) * 10 + e)) else None
    else Some (u64 (1 + (n - 1) * 10 + 9)).

(** [while (e) { n *= 10; e--; }] *)
Fixpoint decompress_loop (e : nat) (n : Z) : Z :=
  match e with
  | O => n
  | S e' => decompress_loop e' (u64 (n * 10))
  end.

Definition DecompressAmount (x0 : Z) : Z :=
  if x0 =? 0 then 0
  else
    let x := x0 - 1 in
    let e := x mod 10 in
    let x := x / 10 in
    let n := if e <? 9 then u64 (x / 9 * 10 + (x mod 9 + 1)) else u64 (x + 1) in
    decompress_loop (Z.to_nat e) n.

(** ** Outputs, coins and undo records *)

Section Records.
Context `{Secp256k1}.

(** [CTxOutCompressor]; reading keeps the fields that are not stored. *)
Definition TxOut_write (o : CTxOut) : option stream :=
  nVal ← CompressAmount (u64 (nValue o));
  bs ← WriteVarInt 64 nVal;
  bs' ← Script_write (scriptPubKey o);
  Some (bs ++ bs').
Definition TxOut_read (o0 : CTxOut) : reader CTxOut := fun s =>
  '(nVal, s1) ← ReadVarInt UINT64_MAX s;
  '(script, s2) ← Script_read (scriptPubKey o0) s1;
  Some (mkTxOut (s64 (DecompressAmount nVal)) script (nRounds o0), s2).

Definition coin_code (c : Coin) : Z := coin_nHeight c * 2 + (if fCoinBase c then 1 else 0).

(** [Coin::Serialize], with its assertion, and [Coin::Unserialize]. *)
Definition Coin_write (c : Coin) : option stream :=
  if IsSpent c then None
  else bs ← WriteVarInt 32 (u32 (coin_code c)); bs' ← TxOut_write (out c); Some (bs ++ bs').
Definition Coin_read (c0 : Coin) : reader Coin := fun s =>
  '(code, s1) ← ReadVarInt UINT_MAX s;
  '(o, s2) ← TxOut_read (out c0) s1;
  Some (mkCoin o (negb (Z.land code 1 =? 0)) (Z.shiftr code 1), s2).

(** [TxInUndoSerializer], whose code is an [int], and [TxInUndoDeserializer]. *)
Definition TxInUndo_write (c : Coin) : option stream :=
  bs ← WriteVarInt 32 (s32 (coin_code c));
  bs' ← TxOut_write (out c);
  Some (bs ++ (if 0 <? coin_nHeight c then ser_writedata 1 0 else []) ++ bs').
Definition TxInUndo_read (c0 : Coin) : reader Coin := fun s =>
  '(nCode, s1) ← ReadVarInt UINT_MAX s;
  '(_, s2) ← (if 0 <? nCode / 2 then ReadVarInt INT_MAX s1 else Some (0, s1));
  '(o, s3) ← TxOut_read (out c0) s2;
  Some (mkCoin o (negb (Z.land nCode 1 =? 0)) (nCode / 2), s3).

(** [GetSerializeSize(CTxIn())]: an outpoint, an empty script and the sequence number. *)
Definition MIN_TRANSACTION_INPUT_WEIGHT : Z := WITNESS_SCALE_FACTOR * (32 + 4 + 1 + 4).
Definition MAX_BLOCK_WEIGHT : Z := 4000000.

(** [CTxUndo] *)
Definition TxUndo_write (vprevout : list Coin) : option stream := write_vector TxInUndo_write vprevout.
Definition max_undo_records (fAssetsIsActive : bool) : Z :=
  (if fAssetsIsActive then MAX_BLOCK_WEIGHT_RIP2 else MAX_BLOCK_WEIGHT) / MIN_TRANSACTION_INPUT_WEIGHT.
Definition TxUndo_read (fAssetsIsActive : bool) : reader (list Coin) := fun s =>
  '(count, s1) ← ReadCompactSize s;
  if max_undo_records fAssetsIsActive <? count then None
  else read_n (TxInUndo_read coinEmpty) (Z.to_nat count) s1.

(** [CBlockUndo] *)
Definition BlockUndo_write (vtxundo : list (list Coin)) : option stream := write_vector TxUndo_write vtxundo.
Definition BlockUndo_read (fAssetsIsActive : bool) : reader (list (list Coin)) :=
  read_vector (TxUndo_read fAssetsIsActive).
End Records.

(** ** Amounts read back *)

Lemma compress_loop_spec fuel n e :
  0 < n -> 0 <= e -> e + Z.of_nat fuel = 9 ->
  let '(n', e') := compress_loop fuel n e in
  n = n' * 10 ^ (e' - e) /\ 0 < n' /\ e <= e' <= 9 /\ (e' < 9 -> n' mod 10 <> 0).
Proof.
  revert n e. induction fuel as [|k IH]; intros n e Hn He Hf; simpl.
  { rewrite Z.sub_diag. lia. }
  destruct (Z.eqb_spec (n mod 10) 0) as [Hm|Hm]; cbn [andb]; [|rewrite Z.sub_diag; lia].
  rewrite (proj2 (Z.ltb_lt e 9)) by lia.
  assert (n = 10 * (n / 10)) as Hd by (pose proof (Z.div_mod n 10); lia).
  specialize (IH (n / 10) (e + 1)). destruct (compress_loop k (n / 10) (e + 1)) as [n' e'].
  destruct IH as (Hn' & ? & ? & ?); [lia|lia|lia|]. split; [|lia].
  rewrite Hd, Hn'. replace (e' - e) with (Z.succ (e' - (e + 1))) by lia. rewrite Z.pow_succ_r by lia. lia.
Qed.

Lemma decompress_loop_spec e n : 0 <= n -> n * 10 ^ Z.of_nat e < 2 ^ 64 -> decompress_loop e n = n * 10 ^ Z.of_nat e.
Proof.
  revert n. induction e as [|e IH]; intros n Hn Hb; cbn [decompress_loop]; [lia|].
  rewrite Nat2Z.inj_succ, Z.pow_succ_r in * by lia. assert (0 < 10 ^ Z.of_nat e) by (apply Z.pow_pos_nonneg; lia).
  rewrite u64_id by (unfold is_u64; nia). rewrite IH; lia.
Qed.

Lemma amount_roundtrip n :
  0 <= n <= 2 ^ 60 -> exists x, CompressAmount n = Some x /\ 0 <= x < 2 ^ 64 /\ DecompressAmount x = n.
Proof.
  intros Hn. unfold CompressAmount. destruct (Z.eqb_spec n 0) as [->|Hne]; [by exists 0|].
  pose proof (compress_loop_spec 9 n 0) as Hc. destruct (compress_loop 9 n 0) as [m e].
  destruct Hc as (Hm & Hpos & He & Hd); [lia|lia|done|]. rewrite Z.sub_0_r in Hm.
  assert (1 <= 10 ^ e) by (pose proof (Z.pow_pos_nonneg 10 e); lia). assert (m <= n) as Hmn by nia.
  assert (forall x, 0 <= x -> u64 (1 + x * 10 + e) = 1 + x * 10 + e -> 0 < m ->
    (if e <? 9 then u64 (x / 9 * 10 + (x mod 9 + 1)) else u64 (x + 1)) = m ->
    DecompressAmount (1 + x * 10 + e) = n) as Hdec.
  { intros x Hx _ _ Hv. unfold DecompressAmount. rewrite (proj2 (Z.eqb_neq _ 0)) by lia.
    replace (1 + x * 10 + e - 1) with (e + x * 10) by lia. rewrite Z.mod_add, Z.div_add by lia.
    assert (e < 10) by lia. rewrite (Z.mod_small e 10), (Z.div_small e 10), Z.add_0_l by lia. rewrite Hv.
    rewrite decompress_loop_spec by (rewrite ?Z2Nat.id by lia; lia). rewrite Z2Nat.id; lia. }
  destruct (Z.ltb_spec e 9) as [Hlt|Hge].
  - specialize (Hd Hlt). pose proof (Z.mod_pos_bound m 10). pose proof (Z.div_mod m 10).
    rewrite (proj2 (Z.leb_le 1 (m mod 10))), (proj2 (Z.leb_le (m mod 10) 9)) by lia. cbn [andb].
    set (x := m / 10 * 9 + m mod 10 - 1) in *. assert (0 <= m / 10) by (apply Z.div_pos; lia).
    assert (u64 (1 + x * 10 + e) = 1 + x * 10 + e) as Hu by (apply u64_id; unfold is_u64, x; lia).
    exists (u64 (1 + x * 10 + e)). split; [done|]. split; [apply u64_range|]. rewrite Hu. apply Hdec; [lia|done|done|].
    unfold x. replace (m / 10 * 9 + m mod 10 - 1) with ((m mod 10 - 1) + m / 10 * 9) by lia.
    rewrite Z.div_add, Z.mod_add by lia. rewrite (Z.mod_small (_ - 1) 9), (Z.div_small (_ - 1) 9) by lia.
    rewrite u64_id by (unfold is_u64; lia). lia.
  - assert (e = 9) as -> by lia. replace (1 + (m - 1) * 10 + 9) with (1 + (m - 1) * 10 + 9) by lia.
    assert (u64 (1 + (m - 1) * 10 + 9) = 1 + (m - 1) * 10 + 9) as Hu by (apply u64_id; unfold is_u64; lia).
    exists (u64 (1 + (m - 1) * 10 + 9)). split; [done|]. split; [apply u64_range|]. rewrite Hu. apply Hdec; [lia|done|done|].
    rewrite u64_id by (unfold is_u64; lia). lia.
Qed.

(** ** Scripts read back *)

Lemma drop_aget (s : CScript) i : (i < length s)%nat -> drop i s = aget s (Z.of_nat i) :: drop (S i) s.
Proof.
  intros Hi. destruct (lookup_lt_is_Some_2 s i Hi) as [x Hx]. unfold aget. rewrite Nat2Z.id, Hx. by apply drop_S.
Qed.

Lemma length_mid (s : CScript) i k : (i + k <= length s)%nat -> length (take k (drop i s)) = k.
Proof. intros. rewrite length_take, length_drop. lia. Qed.

(** A script given by its bytes [0 .. i), [k] bytes from there on, and the bytes after them. *)
Lemma script_template (s : CScript) i k :
  s = take i s ++ take k (drop i s) ++ drop (i + k) s.
Proof. by rewrite <- drop_drop, take_drop, take_drop. Qed.

Lemma take_aget (s : CScript) i : (i < length s)%nat -> take (S i) s = take i s ++ [aget s (Z.of_nat i)].
Proof.
  intros Hi. destruct (lookup_lt_is_Some_2 s i Hi) as [x Hx]. unfold aget. rewrite Nat2Z.id, Hx. by apply take_S_r.
Qed.

Lemma land1 z : Z.land z 1 = z mod 2.
Proof. apply (Z.land_ones z 1). lia. Qed.

Lemma land1_cases z : Z.land z 1 = 0 \/ Z.land z 1 = 1.
Proof. rewrite land1. pose proof (Z.mod_pos_bound z 2). lia. Qed.

Section ScriptRoundtrip.
Context `{Secp256k1Spec}.

(** What a special form decompresses to. *)
Definition special (script : CScript) (compr : valtype) : Prop :=
  exists tag body, compr = tag :: body /\ 0 <= tag < nSpecialScripts /\ size body = GetSpecialSize tag /\
    Decompress tag body = Some (Some script).

(** Expose the fixed bytes of a template around its [k] variable bytes. *)
Ltac template s i k :=
  rewrite (script_template s i k) at 1;
  generalize (take k (drop i s)); intros mid;
  repeat rewrite (take_aget s) by lia;
  repeat rewrite (drop_aget s) by lia;
  rewrite (drop_ge s) by lia; rewrite take_0;
  repeat match goal with
  | |- context [Z.of_nat ?n] => let v := eval vm_compute in (Z.of_nat n) in change (Z.of_nat n) with v
  end.

Lemma IsToKeyID_special s id : IsToKeyID s = Some id -> special s (0x00 :: id).
Proof.
  unfold IsToKeyID. intros Hs. destruct (_ && _) eqn:Ht in Hs; [|done]. injection Hs as <-.
  rewrite !andb_true_iff, !Z.eqb_eq in Ht. destruct Ht as (((((Hl & Ha) & Hb) & Hc) & Hd) & He).
  exists 0, (take 20 (drop 3 s)). split; [done|]. split; [done|]. rewrite length_mid by lia. split; [done|].
  unfold Decompress. cbn [Z.eqb]. rewrite take_take. cbn [Nat.min]. do 2 f_equal. symmetry.
  template s 3%nat 20%nat. by rewrite Ha, Hb, Hc, Hd, He.
Qed.

Lemma IsToScriptID_special s id : IsToScriptID s = Some id -> special s (0x01 :: id).
Proof.
  unfold IsToScriptID. intros Hs. destruct (_ && _) eqn:Ht in Hs; [|done]. injection Hs as <-.
  rewrite !andb_true_iff, !Z.eqb_eq in Ht. destruct Ht as (((Hl & Ha) & Hb) & Hc).
  exists 1, (take 20 (drop 2 s)). split; [done|]. split; [done|]. rewrite length_mid by lia. split; [done|].
  unfold Decompress. cbn [Z.eqb Pos.eqb]. rewrite take_take. cbn [Nat.min]. do 2 f_equal. symmetry.
  template s 2%nat 20%nat. by rewrite Ha, Hb, Hc.
Qed.

(** Compressed keys are stored as they are. *)
Lemma compressed_key_special s t :
  size s = 35 -> aget s 0 = 33 -> aget s 34 = OP_CHECKSIG -> aget s 1 = t -> (t = 2 \/ t = 3) ->
  special s (t :: take 32 (drop 2 s)).
Proof.
  intros Hl Ha Hb Hc Ht. exists t, (take 32 (drop 2 s)). split; [done|].
  split; [unfold nSpecialScripts; lia|]. rewrite length_mid by lia. split; [by destruct Ht as [-> | ->]|].
  assert (Decompress t (take 32 (drop 2 s)) = Some (Some ([33; t] ++ take 32 (take 32 (drop 2 s)) ++ [OP_CHECKSIG]))) as ->
    by (by destruct Ht as [-> | ->]).
  rewrite take_take. cbn [Nat.min]. do 2 f_equal. symmetry.
  template s 2%nat 32%nat. by rewrite Ha, Hb, Hc.
Qed.

(** Full keys are stored as the first coordinate and the parity of the second. *)
Lemma full_key_special s k u :
  size s = 67 -> aget s 0 = 65 -> aget s 66 = OP_CHECKSIG -> k = take 65 (drop 1 s) -> aget k 0 = 4 ->
  secp_uncompress k = Some u ->
  special s (Z.lor 4 (Z.land (aget k 64) 1) :: take 32 (drop 1 k)).
Proof.
  intros Hl Ha Hb -> Hk Hu. set (k := take 65 (drop 1 s)) in *.
  assert (length k = 65%nat) as Hlk by (unfold k; apply length_mid; lia).
  set (x := take 32 (drop 1 k)). set (y := drop 33 k).
  assert (k = 4 :: x ++ y) as Ekxy.
  { rewrite (script_template k 1 32) at 1. fold x. rewrite (take_aget k 0), take_0 by lia.
    change (Z.of_nat 0) with 0. by rewrite Hk. }
  assert (length x = 32%nat) as Hx by (unfold x; apply length_mid; lia).
  assert (length y = 32%nat) as Hy by (unfold y; rewrite length_drop; lia).
  assert (aget k 64 = back y) as Eb.
  { unfold back, aget, y. rewrite last_lookup, lookup_drop. fold y. by rewrite Hy. }
  rewrite Eb. set (b := Z.land (back y) 1).
  assert (b = 0 \/ b = 1) as Hbit by apply land1_cases.
  rewrite Ekxy in Hu. pose proof (secp_uncompressed _ _ _ Hx Hy Hu) as Eu. pose proof (secp_compressed _ _ _ Hx Hy Hu) as Hcmp.
  fold b in Hcmp. exists (Z.lor 4 b), x. split; [done|].
  assert (GetSpecialSize (Z.lor 4 b) = 32 /\ 0 <= Z.lor 4 b < nSpecialScripts /\
    Decompress (Z.lor 4 b) x = match PubKey_Decompress (PubKey_Set (2 + b :: take 32 x)) with
      | None => Some None
      | Some pubkey => if size pubkey =? 65 then Some (Some ([65] ++ pubkey ++ [OP_CHECKSIG])) else None end) as (Hg & Htag & ->)
    by (destruct Hbit as [-> | ->]; done).
  split; [done|]. split; [rewrite Hg; lia|]. rewrite take_ge by lia.
  assert (PubKey_Set (2 + b :: x) = 2 + b :: x) as ->.
  { unfold PubKey_Set. cbn [length]. rewrite Hx. by destruct Hbit as [-> | ->]. }
  unfold PubKey_Decompress, PubKey_IsValid. cbn [length]. rewrite Hx. change (0 <? Z.of_nat 33) with true.
  rewrite Hcmp. cbn [mbind option_bind].
  assert (PubKey_Set u = u) as ->.
  { rewrite Eu. unfold PubKey_Set. cbn [length]. by rewrite length_app, Hx, Hy. }
  cbn beta iota. assert ((size u =? 65) = true) as -> by (rewrite Eu; cbn [length]; rewrite length_app, Hx, Hy; done).
  do 2 f_equal. rewrite Eu, <- Ekxy. symmetry. unfold k. template s 1%nat 65%nat. by rewrite Ha, Hb.
Qed.

(** A key of the length its first byte asks for is kept. *)
Lemma PubKey_Set_id k : 0 < size k -> GetLen (aget k 0) = size k -> PubKey_Set k = k.
Proof.
  intros Hk Hl. destruct k as [|h k]; [done|]. unfold PubKey_Set. rewrite aget_cons_0 in Hl. rewrite Hl, Z.eqb_refl.
  by rewrite (proj2 (Z.eqb_neq _ 0)) by lia.
Qed.

Lemma aget_mid s i k j : (j < k)%nat -> aget (take k (drop i s)) (Z.of_nat j) = aget s (Z.of_nat (i + j)).
Proof. intros Hj. unfold aget. rewrite !Nat2Z.id, lookup_take_lt by lia. by rewrite lookup_drop. Qed.

Lemma Compress_special s compr : Compress s = Some compr -> special s compr.
Proof.
  unfold Compress. destruct (IsToKeyID s) eqn:Ek; [intros [= <-]; by apply IsToKeyID_special|].
  destruct (IsToScriptID s) eqn:Es; [intros [= <-]; by apply IsToScriptID_special|].
  destruct (IsToPubKey s) as [k|] eqn:Ep; [|done]. unfold IsToPubKey in Ep.
  destruct (_ && (_ || _)) eqn:Ht in Ep; [|destruct (_ && _) eqn:Ht' in Ep; [|done]].
  - rewrite !andb_true_iff, orb_true_iff, !Z.eqb_eq in Ht. destruct Ht as (((Hl & Ha) & Hb) & Hc).
    pose proof (length_mid s 1 33 ltac:(lia)) as Hm. pose proof (aget_mid s 1 33 0 ltac:(lia)) as Hh.
    change (Z.of_nat 0) with 0 in Hh. change (Z.of_nat (1 + 0)) with 1 in Hh.
    assert (GetLen (aget s 1) = 33) as Hg by (destruct Hc as [-> | ->]; done).
    rewrite PubKey_Set_id in Ep by (rewrite ?Hh, Hm; done). injection Ep as <-.
    rewrite Hh. assert ((aget s 1 =? 2) || (aget s 1 =? 3) = true) as -> by (destruct Hc as [-> | ->]; done).
    intros [= <-]. rewrite skipn_firstn_comm, drop_drop, take_take. by apply compressed_key_special.
  - rewrite !andb_true_iff, !Z.eqb_eq in Ht'. destruct Ht' as (((Hl & Ha) & Hb) & Hc).
    pose proof (length_mid s 1 65 ltac:(lia)) as Hm. pose proof (aget_mid s 1 65 0 ltac:(lia)) as Hh.
    change (Z.of_nat 0) with 0 in Hh. change (Z.of_nat (1 + 0)) with 1 in Hh. rewrite Hc in Hh.
    rewrite PubKey_Set_id in Ep by (rewrite ?Hm, ?Hh; done).
    destruct (IsFullyValid _) eqn:Ev in Ep; [|done]. injection Ep as <-. rewrite Hh. intros [= <-].
    unfold IsFullyValid in Ev. apply andb_true_iff in Ev as [_ Ev].
    destruct (secp_uncompress _) as [u|] eqn:Eu in Ev; [|done]. by apply (full_key_special s _ u).
Qed.

Lemma script_roundtrip script script0 :
  size script <= MAX_SCRIPT_SIZE ->
  exists bs, Script_write script = Some bs /\ forall rest, Script_read script0 (bs ++ rest) = Some (script, rest).
Proof.
  unfold MAX_SCRIPT_SIZE. intros Hs. unfold Script_write. destruct (Compress script) as [compr|] eqn:Ec.
  - destruct (Compress_special _ _ Ec) as (tag & body & -> & Ht & Hb & Hd). eexists. split; [done|]. intros rest.
    unfold nSpecialScripts in Ht. unfold Script_read, ReadVarInt. cbn [app].
    assert (read_varint_loop UINT_MAX (tag :: body ++ rest) 0 = Some (tag, body ++ rest)) as ->.
    { assert (tag = 0 \/ tag = 1 \/ tag = 2 \/ tag = 3 \/ tag = 4 \/ tag = 5) as Hc by lia.
      destruct Hc as [-> |[-> |[-> |[-> |[-> | ->]]]]]; done. }
    cbn [mbind option_bind]. unfold nSpecialScripts. rewrite (proj2 (Z.ltb_lt tag 6)) by lia.
    rewrite <- Hb, Nat2Z.id, read_bytes_app. cbn [mbind option_bind]. by rewrite Hd.
  - assert (u32 (size script + nSpecialScripts) = size script + nSpecialScripts) as ->
      by (apply u32_id; unfold is_u32, nSpecialScripts; lia).
    destruct (varint_roundtrip 32 (size script + nSpecialScripts) UINT_MAX) as (bs & -> & Hr);
      [by left|unfold nSpecialScripts; lia|unfold nSpecialScripts, UINT_MAX; lia|].
    eexists. split; [done|]. intros rest. unfold Script_read. rewrite <- app_assoc, Hr. cbn [mbind option_bind].
    unfold nSpecialScripts, MAX_SCRIPT_SIZE. rewrite (proj2 (Z.ltb_ge (size script + 6) 6)) by lia.
    replace (size script + 6 - 6) with (size script) by lia. rewrite (proj2 (Z.ltb_ge 10000 _)) by lia.
    by rewrite Nat2Z.id, read_bytes_app.
Qed.
End ScriptRoundtrip.

(** ** Coins and undo records read back *)

(** Coins as the chain produces them: the amount is in range, the script can be
    kept, and the height leaves room for the coinbase bit in an [int]. The mixing
    rounds of an output are not stored. *)
Definition coin_ok (c : Coin) : Prop :=
  MoneyRange (nValue (out c)) = true /\ size (scriptPubKey (out c)) <= MAX_SCRIPT_SIZE /\
  nRounds (out c) = nRounds TxOut_SetNull /\ 0 <= coin_nHeight c < 2 ^ 30.

Section RecordRoundtrip.
Context `{Secp256k1Spec}.

Lemma txout_roundtrip c :
  coin_ok c ->
  exists bs, TxOut_write (out c) = Some bs /\ forall rest, TxOut_read TxOut_SetNull (bs ++ rest) = Some (out c, rest).
Proof.
  intros (Hv & Hs & Hr & _). apply MoneyRange_spec in Hv. unfold TxOut_write, TxOut_read. unfold MAX_MONEY, COIN in Hv.
  rewrite (u64_id (nValue (out c))) by (unfold is_u64; lia).
  destruct (amount_roundtrip (nValue (out c))) as (x & -> & Hx & Hd); [lia|].
  destruct (varint_roundtrip 64 x UINT64_MAX) as (bs & Hw & Hrd); [by right|lia|unfold UINT64_MAX; lia|].
  destruct (script_roundtrip (scriptPubKey (out c)) (scriptPubKey TxOut_SetNull) Hs) as (bs' & Hw' & Hrd').
  cbn [mbind option_bind]. rewrite Hw. cbn [mbind option_bind]. rewrite Hw'. eexists. split; [done|]. intros rest.
  rewrite <- app_assoc, Hrd. cbn [mbind option_bind]. rewrite Hrd'. cbn [mbind option_bind].
  rewrite Hd, s64_id by (unfold is_s64; lia). rewrite <- Hr. by destruct (out c).
Qed.

Lemma coin_code_spec c :
  coin_ok c ->
  0 <= coin_code c < 2 ^ 31 /\ coin_code c / 2 = coin_nHeight c /\ negb (Z.land (coin_code c) 1 =? 0) = fCoinBase c.
Proof.
  intros (_ & _ & _ & Hh). unfold coin_code. rewrite land1. split; [destruct (fCoinBase c); lia|].
  rewrite Z.div_add_l, (Z.add_comm (_ * 2)), Z.mod_add by lia.
  destruct (fCoinBase c); (split; [apply Z.add_0_r|done]).
Qed.

Lemma coin_roundtrip c :
  coin_ok c ->
  exists bs, Coin_write c = Some bs /\ forall rest, Coin_read coinEmpty (bs ++ rest) = Some (c, rest).
Proof.
  intros Hc. destruct (coin_code_spec c Hc) as (Hcode & Hh & Hb). destruct (txout_roundtrip c Hc) as (bs' & Hw' & Hr').
  unfold Coin_write, Coin_read.
  assert (IsSpent c = false) as ->.
  { destruct Hc as (Hv & _). apply MoneyRange_spec in Hv. unfold IsSpent, TxOut_IsNull. apply Z.eqb_neq. lia. }
  rewrite u32_id by (unfold is_u32; lia).
  destruct (varint_roundtrip 32 (coin_code c) UINT_MAX) as (bs & Hw & Hr); [by left|lia|unfold UINT_MAX; lia|].
  rewrite Hw. cbn [mbind option_bind]. rewrite Hw'. eexists. split; [done|]. intros rest. rewrite <- app_assoc, Hr.
  cbn [mbind option_bind out coinEmpty]. rewrite Hr'. cbn [mbind option_bind].
  rewrite Hb, Z.shiftr_div_pow2 by lia. change (2 ^ 1) with 2. rewrite Hh. by destruct c.
Qed.

Lemma txin_undo_roundtrip c :
  coin_ok c ->
  exists bs, TxInUndo_write c = Some bs /\ forall rest, TxInUndo_read coinEmpty (bs ++ rest) = Some (c, rest).
Proof.
  intros Hc. destruct (coin_code_spec c Hc) as (Hcode & Hh & Hb). destruct (txout_roundtrip c Hc) as (bs' & Hw' & Hr').
  unfold TxInUndo_write, TxInUndo_read. rewrite s32_id by (unfold is_s32; lia).
  destruct (varint_roundtrip 32 (coin_code c) UINT_MAX) as (bs & Hw & Hr); [by left|lia|unfold UINT_MAX; lia|].
  rewrite Hw. cbn [mbind option_bind]. rewrite Hw'. eexists. split; [done|]. intros rest. rewrite <- app_assoc, Hr.
  cbn [mbind option_bind]. rewrite Hh. destruct (0 <? coin_nHeight c); rewrite <- app_assoc.
  - change (ReadVarInt INT_MAX (ser_writedata 1 0 ++ bs' ++ rest)) with (Some (0, bs' ++ rest)).
    cbn [mbind option_bind out coinEmpty]. rewrite Hr'. cbn [mbind option_bind]. rewrite Hb. by destruct c.
  - cbn [app mbind option_bind out coinEmpty]. rewrite Hr'. cbn [mbind option_bind]. rewrite Hb. by destruct c.
Qed.

(** A record the reader accepts. *)
Definition tx_undo_ok (fAssetsIsActive : bool) (u : list Coin) : Prop :=
  Forall coin_ok u /\ size u <= max_undo_records fAssetsIsActive.

Lemma tx_undo_roundtrip active u :
  tx_undo_ok active u ->
  exists bs, TxUndo_write u = Some bs /\ forall rest, TxUndo_read active (bs ++ rest) = Some (u, rest).
Proof.
  intros [Hu Hn]. destruct (read_n_write_all coin_ok _ _ u txin_undo_roundtrip Hu) as (bs & Hw & Hr).
  unfold TxUndo_write, write_vector, TxUndo_read. rewrite Hw. eexists. split; [done|]. intros rest.
  assert (max_undo_records active <= MAX_SIZE) by (destruct active; done).
  rewrite <- app_assoc, compact_size_roundtrip by lia. cbn [mbind option_bind].
  rewrite (proj2 (Z.ltb_ge _ _)) by lia. by rewrite Nat2Z.id.
Qed.
End RecordRoundtrip.

(** What is written to disk reads back: a coin in its database form, and
    the undo records of a block, each with compressed amounts and scripts, are recovered
    exactly, and the reader stops at the end of the record. *)
Theorem disk_format_roundtrip `{Secp256k1Spec} (active : bool) (c : Coin) (u : list (list Coin)) :
  coin_ok c -> Forall (tx_undo_ok active) u -> size u <= MAX_SIZE ->
  (exists bs, Coin_write c = Some bs /\ forall rest, Coin_read coinEmpty (bs ++ rest) = Some (c, rest)) /\
  (exists bs, BlockUndo_write u = Some bs /\ forall rest, BlockUndo_read active (bs ++ rest) = Some (u, rest)).
Proof.
  intros Hc Hu Hn. split; [by apply coin_roundtrip|].
  by apply (vector_roundtrip (tx_undo_ok active)); [apply tx_undo_roundtrip|..].
Qed.

(** A curve with one point for each first coordinate and parity. *)
#[local] Instance toy_secp : Secp256k1 := fun k =>
  match k with
  | [] => None
  | h :: r =>
      if ((h =? 2) || (h =? 3)) && (size r =? 32) then Some (4 :: r ++ take 31 r ++ [h - 2])
      else if (h =? 4) && bool_decide (length r = 64%nat) &&
              (bool_decide (drop 32 r = take 31 r ++ [0]) || bool_decide (drop 32 r = take 31 r ++ [1])) then Some k
      else None
  end.

Lemma toy_secp_full x y u :
  length x = 32%nat -> length y = 32%nat -> toy_secp (4 :: x ++ y) = Some u ->
  u = 4 :: x ++ y /\ exists b, (b = 0 \/ b = 1) /\ y = take 31 x ++ [b].
Proof.
  intros Hx Hy. unfold toy_secp. cbn [Z.eqb Pos.eqb orb andb].
  rewrite (drop_app_length' x y 32), (take_app_le x y 31) by lia.
  destruct (bool_decide (length (x ++ y) = 64%nat)); [|done]. cbn [andb].
  destruct (bool_decide_reflect (y = take 31 x ++ [0])) as [E|_]; [intros [= <-]; eauto|].
  destruct (bool_decide_reflect (y = take 31 x ++ [1])) as [E|_]; [intros [= <-]; eauto|done].
Qed.

#[local] Instance toy_secp_spec : Secp256k1Spec.
Proof.
  split.
  - intros k u Hk. unfold secp_uncompress, toy_secp in Hk. destruct k as [|h r]; [done|].
    destruct (_ && (size r =? 32)) eqn:Ht in Hk.
    + injection Hk as <-. apply andb_true_iff in Ht as [_ Ht]. apply Z.eqb_eq in Ht.
      exists r, (take 31 r ++ [h - 2]). split; [done|]. rewrite length_app, length_take. cbn [length]. lia.
    + destruct (_ && _) eqn:Ht' in Hk; [|done]. injection Hk as <-. rewrite !andb_true_iff, Z.eqb_eq, bool_decide_eq_true in Ht'.
      destruct Ht' as [[-> Hl] _]. exists (take 32 r), (drop 32 r). rewrite take_drop, length_take, length_drop. split; [done|lia].
  - intros x y u Hx Hy Hu. by destruct (toy_secp_full x y u Hx Hy Hu).
  - intros x y u Hx Hy Hu. destruct (toy_secp_full x y u Hx Hy Hu) as (-> & b & Hb & ->). unfold back. rewrite last_snoc.
    unfold secp_uncompress, toy_secp. rewrite Hx. by destruct Hb as [-> | ->].
Qed.

(** A block with a spent coinbase output to a key hash and one to a full key. *)
Definition example_coins : list Coin :=
  [mkCoin (mkTxOut (50 * COIN) ([OP_DUP; OP_HASH160; 20] ++ replicate 20 7 ++ [OP_EQUALVERIFY; OP_CHECKSIG]) (-10)) true 5;
   mkCoin (mkTxOut 1234567 ([65; 4] ++ replicate 63 1 ++ [1; OP_CHECKSIG]) (-10)) false 0].

Lemma disk_format_roundtrip_witness :
  Forall coin_ok example_coins /\
  exists bs, BlockUndo_write [example_coins; []] = Some bs /\ BlockUndo_read true bs = Some ([example_coins; []], []).
Proof.
  assert (Forall coin_ok example_coins) as Hok by (unfold example_coins; rewrite !Forall_cons; by repeat split).
  split; [exact Hok|].
  destruct (disk_format_roundtrip true (mkCoin (mkTxOut 0 [] (-10)) false 0) [example_coins; []]) as [_ (bs & Hw & Hr)].
  - by repeat split.
  - rewrite !Forall_cons. by repeat split.
  - done.
  - exists bs. split; [exact Hw|]. specialize (Hr []). by rewrite app_nil_r in Hr.
Defined.
