(* ===== verification/TxVerify.v ===== *)
(** [consensus/tx_verify.cpp]: absolute and relative lock times, and the check of
    a transaction's inputs against the coins. Pointers to block index entries are
    those of [Chain], coins those of [Coins]. *)

From stdpp Require Import prelude gmap strings.
From Stdlib Require Import ZArith Lia.
From S2P Require Import Prelude ArithUint256 Compact Chain ActiveChain MedianTime Opcodes Transaction Coins CoinsDB CoinsSpec TxUndo.

Open Scope Z_scope.

(** ** Lock times *)

Definition IsFinalTx (tx : CTransaction) (nBlockHeight nBlockTime : Z) : bool :=
  if nLockTime tx =? 0 then true
  else if nLockTime tx <? (if nLockTime tx <? LOCKTIME_THRESHOLD then nBlockHeight else nBlockTime) then true
  else forallb (fun txin => nSequence txin =? SEQUENCE_FINAL) (vin tx).

Definition LOCKTIME_VERIFY_SEQUENCE : Z := Z.shiftl 1 0.

(** [static_cast<uint32_t>(tx.nVersion) >= 2 && flags & LOCKTIME_VERIFY_SEQUENCE] *)
Definition fEnforceBIP68 (tx : CTransaction) (flags : Z) : bool :=
  (2 <=? u32 (tx_nVersion tx)) && negb (Z.land flags LOCKTIME_VERIFY_SEQUENCE =? 0).

Definition seq_disabled (txin : CTxIn) : bool := negb (Z.land (nSequence txin) SEQUENCE_LOCKTIME_DISABLE_FLAG =? 0).
Definition seq_time_based (txin : CTxIn) : bool := negb (Z.land (nSequence txin) SEQUENCE_LOCKTIME_TYPE_FLAG =? 0).

(** One input with an active relative lock in the loop of
    [CalculateSequenceLocks]: the new [nMinHeight] and [nMinTime]. [None] is a null
    pointer that is dereferenced. *)
Definition sequence_step (H : heap) (block : ptr) (txin : CTxIn) (nCoinHeight nMinHeight nMinTime : Z)
    : option (Z * Z) :=
  let lock := Z.land (nSequence txin) SEQUENCE_LOCKTIME_MASK in
  if seq_time_based txin then
    match GetAncestor H block (Z.max (s32 (nCoinHeight - 1)) 0) with
    | Some (Some p) =>
        Some (nMinHeight, Z.max nMinTime
          (s64 (GetMedianTimePast H p + u32 (Z.shiftl lock SEQUENCE_LOCKTIME_GRANULARITY) - 1)))
    | _ => None
    end
  else Some (Z.max nMinHeight (s32 (nCoinHeight + lock - 1)), nMinTime).

(** The loop over the inputs and their [prevHeights]; the height of a disabled
    input is set to 0. *)
Fixpoint sequence_loop (H : heap) (block : ptr) (ins : list CTxIn) (heights : list Z) (nMinHeight nMinTime : Z)
    : option (Z * Z * list Z) :=
  match ins, heights with
  | txin :: ins', nCoinHeight :: heights' =>
      if seq_disabled txin then
        '(h, t, hs) ← sequence_loop H block ins' heights' nMinHeight nMinTime; Some (h, t, 0 :: hs)
      else
        '(h1, t1) ← sequence_step H block txin nCoinHeight nMinHeight nMinTime;
        '(h, t, hs) ← sequence_loop H block ins' heights' h1 t1; Some (h, t, nCoinHeight :: hs)
  | _, _ => Some (nMinHeight, nMinTime, heights)
  end.

(** [None] is a failed assertion or a null pointer. *)
Definition CalculateSequenceLocks (H : heap) (tx : CTransaction) (flags : Z) (prevHeights : list Z) (block : ptr)
    : option (Z * Z * list Z) :=
  if negb (bool_decide (length prevHeights = length (vin tx))) then None
  else if negb (fEnforceBIP68 tx flags) then Some (-1, -1, prevHeights)
  else sequence_loop H block (vin tx) prevHeights (-1) (-1).

Definition EvaluateSequenceLocks (H : heap) (block : ptr) (lockPair : Z * Z) : option bool :=
  b ← H !! block;
  q ← pprev b;
  let nBlockTime := GetMedianTimePast H q in
  Some (negb ((nHeight b <=? fst lockPair) || (nBlockTime <=? snd lockPair))).

Definition SequenceLocks (H : heap) (tx : CTransaction) (flags : Z) (prevHeights : list Z) (block : ptr)
    : option (bool * list Z) :=
  '(h, t, hs) ← CalculateSequenceLocks H tx flags prevHeights block;
  ok ← EvaluateSequenceLocks H block (h, t);
  Some (ok, hs).

(** ** Inputs *)

Section Inputs.
Context {V : Type} `{CoinsView V} `{ScriptUsage}.
Implicit Types (c : CCoinsViewCache V).

(** The loop of [CheckTxInputs]: the sum of the inputs, or the reason for
    rejection; [None] is the failed assertion that the coin is unspent. *)
Fixpoint check_inputs_loop c (ins : list CTxIn) (nSpendHeight nValueIn : Z)
    : option (result string Z * CCoinsViewCache V) :=
  match ins with
  | [] => Some (Ok nValueIn, c)
  | txin :: rest =>
      let '(cn, c1) := AccessCoin c (prevout txin) in
      if IsSpent cn then None
      else if fCoinBase cn && (s32 (nSpendHeight - coin_nHeight cn) <? COINBASE_MATURITY)
      then Some (Err "bad-txns-premature-spend-of-coinbase", c1)
      else
        let nValueIn' := s64 (nValueIn + nValue (out cn)) in
        if negb (MoneyRange (nValue (out cn))) || negb (MoneyRange nValueIn')
        then Some (Err "bad-txns-inputvalues-outofrange", c1)
        else check_inputs_loop c1 rest nSpendHeight nValueIn'
  end.

(** [Consensus::CheckTxInputs]: the fee; [None] is the failed assertion, or the
    exception of [GetValueOut]. *)
Definition CheckTxInputs c (tx : CTransaction) (nSpendHeight : Z) : option (result string Z * CCoinsViewCache V) :=
  let '(have, c1) := HaveInputs c tx in
  if negb have then Some (Err "bad-txns-inputs-missingorspent", c1)
  else
    '(r, c2) ← check_inputs_loop c1 (vin tx) nSpendHeight 0;
    match r with
    | Err e => Some (Err e, c2)
    | Ok nValueIn =>
        value_out ← GetValueOut tx;
        let txfee := s64 (nValueIn - value_out) in
        Some (reject_if (nValueIn <? value_out) "bad-txns-in-belowout"
               (reject_if (negb (MoneyRange txfee)) "bad-txns-fee-outofrange"
                  (reject_if (txfee <? 0) "bad-txns-fee-too-low" (Ok txfee))), c2)
    end.
End Inputs.

(** ** Lemmas on lock times *)

Definition times_ok (H : heap) : Prop := forall p b, H !! p = Some b -> is_u32 (nTime b).

Lemma past_times_ok H n p : times_ok H -> Forall is_u32 (past_times H n p).
Proof.
  intros Ht. revert p. induction n as [|n IH]; intros p; simpl; [constructor|].
  destruct p as [q|]; [|constructor]. destruct (H !! q) as [b|] eqn:E; [|constructor].
  constructor; [by eapply Ht|apply IH].
Qed.

Lemma median_range H p : times_ok H -> is_u32 (GetMedianTimePast H p).
Proof.
  intros Ht. unfold GetMedianTimePast. apply aget_Forall; [unfold is_u32; lia|].
  pose proof (past_times_ok H nMedianTimeSpan (Some p) Ht) as Hp. unfold sort.
  induction Hp as [|x l Hx _ IH]; simpl; [constructor|]. by apply insert_sorted_Forall.
Qed.

Section SequenceSpec.
Context (H : heap) (Hwf : wf_heap H) (Ht : times_ok H) (p : ptr) (b : CBlockIndex) (Hp : H !! p = Some b).

(** What an input asks of the block [p], as in BIP 68: the coin's block is at
    least [lock] blocks below it, or the median time has advanced by at least [512 * lock]
    seconds since the block before the coin's. *)
Definition relative_lock (txin : CTxIn) (nCoinHeight : Z) (parent : ptr) : Prop :=
  seq_disabled txin = true \/
  let lock := nSequence txin mod 2 ^ 16 in
  if seq_time_based txin then
    exists a, nth_prev H (Z.to_nat (nHeight b - Z.max (nCoinHeight - 1) 0)) p = Some a /\
      GetMedianTimePast H a + 512 * lock <= GetMedianTimePast H parent
  else nCoinHeight + lock <= nHeight b.

Lemma lock_mask x : Z.land x SEQUENCE_LOCKTIME_MASK = x mod 2 ^ 16.
Proof. change SEQUENCE_LOCKTIME_MASK with (Z.ones 16). apply Z.land_ones. lia. Qed.

Lemma lock_shift x : u32 (Z.shiftl (x mod 2 ^ 16) SEQUENCE_LOCKTIME_GRANULARITY) = 512 * (x mod 2 ^ 16).
Proof.
  rewrite Z.shiftl_mul_pow2 by done. change (2 ^ SEQUENCE_LOCKTIME_GRANULARITY) with 512.
  rewrite u32_id; [lia|]. unfold is_u32. pose proof (Z.mod_pos_bound x (2 ^ 16)). lia.
Qed.

(** The block and the median time are beyond the running minima. *)
Definition beyond (parent : ptr) (h t : Z) : Prop := h < nHeight b /\ t < GetMedianTimePast H parent.

Lemma sequence_step_spec parent txin nc mh mt :
  0 <= nc <= nHeight b -> nHeight b < 2 ^ 30 -> seq_disabled txin = false ->
  exists h t, sequence_step H p txin nc mh mt = Some (h, t) /\
    (beyond parent h t <-> beyond parent mh mt /\ relative_lock txin nc parent).
Proof.
  intros Hnc Hb Hd. unfold sequence_step, relative_lock, beyond. cbv zeta. rewrite Hd, lock_mask, lock_shift.
  pose proof (Z.mod_pos_bound (nSequence txin) (2 ^ 16) ltac:(lia)) as Hm.
  rewrite (s32_id (nc - 1)) by (unfold is_s32; lia). destruct (seq_time_based txin).
  - destruct (GetAncestor_Some H Hwf p b (Z.max (nc - 1) 0) Hp) as (a & c & -> & _ & _ & Ha); [lia|].
    pose proof (median_range H a Ht) as Hr. unfold is_u32 in Hr. rewrite s64_id by (unfold is_s64; lia).
    eexists _, _. split; [reflexivity|]. split.
    + intros [? Hmax]. split; [lia|]. right. exists a. split; [done|lia].
    + intros [[? ?] [?|(a' & Ea & Hle)]]; [done|]. rewrite Ha in Ea. injection Ea as <-. lia.
  - rewrite s32_id by (unfold is_s32; lia). eexists _, _. split; [reflexivity|]. split.
    + intros [? ?]. split; [lia|]. right. lia.
    + intros [[? ?] [?|Hle]]; [done|]. lia.
Qed.

Lemma sequence_loop_spec parent ins heights mh mt :
  length heights = length ins -> Forall (fun h => 0 <= h <= nHeight b) heights -> nHeight b < 2 ^ 30 ->
  exists h t hs, sequence_loop H p ins heights mh mt = Some (h, t, hs) /\
    (beyond parent h t <-> beyond parent mh mt /\ Forall2 (fun txin h => relative_lock txin h parent) ins heights).
Proof.
  intros Hlen Hh Hb. revert heights mh mt Hlen Hh.
  induction ins as [|txin ins IH]; intros [|nc heights] mh mt Hlen Hh; try done.
  { exists mh, mt, []. split; [done|]. split; [intros; by split|by intros []]. }
  apply Forall_cons in Hh as [Hnc Hh]. simpl in Hlen. cbn [sequence_loop]. setoid_rewrite Forall2_cons.
  destruct (seq_disabled txin) eqn:Ed.
  - destruct (IH heights mh mt) as (h & t & hs & -> & Heq); [lia|done|]. eexists h, t, _. split; [reflexivity|].
    rewrite Heq. assert (relative_lock txin nc parent) by (by left). tauto.
  - destruct (sequence_step_spec parent txin nc mh mt Hnc Hb Ed) as (h1 & t1 & -> & Heq1). cbn [mbind option_bind].
    destruct (IH heights h1 t1) as (h & t & hs & -> & Heq); [lia|done|]. eexists h, t, _. split; [reflexivity|].
    rewrite Heq, Heq1. tauto.
Qed.
End SequenceSpec.

(** ** Lemmas on inputs *)

Section InputsSpec.
Context {V : Type} `{CoinsViewSpec V} `{ScriptUsageSpec}.
Implicit Types (c : CCoinsViewCache V) (U : COutPoint -> option Coin).

(** The input spends an existing coin with an amount in range that is mature
    at height [h]. *)
Definition spendable U (h : Z) (i : CTxIn) : Prop :=
  exists cn, U (prevout i) = Some cn /\ 0 <= nValue (out cn) <= MAX_MONEY /\
    (fCoinBase cn = true -> coin_nHeight cn + COINBASE_MATURITY <= h).

(** The fields of a coin have their C++ types. *)
Definition coin_typed U (i : CTxIn) : Prop :=
  forall cn, U (prevout i) = Some cn -> is_s64 (nValue (out cn)) /\ 0 <= coin_nHeight cn < 2 ^ 31.

Lemma spendable_sum_pos U h ins : Forall (spendable U h) ins -> 0 <= input_sum U ins.
Proof.
  induction 1 as [|i ins (cn & Hcn & Hv & _) _ IH]; simpl; [lia|]. unfold input_value. rewrite Hcn. lia.
Qed.

Lemma check_inputs_loop_spec ins c U h acc :
  represents c U -> Forall (fun i => is_Some (U (prevout i))) ins -> Forall (coin_typed U) ins ->
  0 <= h < 2 ^ 31 -> 0 <= acc <= MAX_MONEY ->
  exists r c', check_inputs_loop c ins h acc = Some (r, c') /\ represents c' U /\
    forall v, r = Ok v <-> Forall (spendable U h) ins /\ v = acc + input_sum U ins /\ v <= MAX_MONEY.
Proof.
  intros Hr Hall. revert c acc Hr. induction Hall as [|i ins [cn Hcn] Hall IH]; intros c acc Hr Hty Hh Hacc; cbn [check_inputs_loop].
  { exists (Ok acc), c. split; [done|]. split; [done|]. intros v. simpl. split.
    - intros [= <-]. split; [constructor|lia].
    - intros (_ & -> & _). f_equal. lia. }
  apply Forall_cons in Hty as [Hi Hty]. destruct (Hi cn Hcn) as [Hv Hht]. unfold is_s64 in Hv.
  destruct (AccessCoin_represents c U (prevout i) Hr) as (d & c1 & -> & Hr1 & Hd & _). rewrite (Hd cn Hcn).
  assert (IsSpent cn = false) as ->. { destruct Hr as [Hinv Hu]. apply (cache_utxo_unspent c (prevout i)); [done|by rewrite Hu]. }
  assert (input_value U i = nValue (out cn)) as Ev by (unfold input_value; by rewrite Hcn).
  rewrite s32_id by (unfold is_s32; lia). setoid_rewrite Forall_cons. cbn [input_sum foldr]. fold (input_sum U ins). rewrite Ev.
  destruct (fCoinBase cn && (h - coin_nHeight cn <? COINBASE_MATURITY)) eqn:Ecb.
  { eexists _, c1. split; [reflexivity|]. split; [done|]. intros v. split; [done|].
    intros ([(cn' & Hcn' & _ & Hm) _] & _). simplify_eq. apply andb_true_iff in Ecb as [Ecb Elt]. apply Z.ltb_lt in Elt.
    specialize (Hm Ecb). lia. }
  destruct (MoneyRange (nValue (out cn))) eqn:Emr; cbn [negb orb].
  2: { eexists _, c1. split; [reflexivity|]. split; [done|]. intros v. split; [done|].
       intros ([(cn' & Hcn' & Hrg & _) _] & _). simplify_eq. apply MoneyRange_spec in Hrg. congruence. }
  apply MoneyRange_spec in Emr. rewrite s64_small by (unfold MAX_MONEY, COIN in *; lia).
  assert (spendable U h i) as Hsp.
  { exists cn. split; [done|]. split; [done|]. intros Ht. rewrite Ht in Ecb. apply Z.ltb_ge in Ecb. lia. }
  destruct (MoneyRange (acc + nValue (out cn))) eqn:Em2; cbn [negb].
  - apply MoneyRange_spec in Em2. destruct (IH c1 (acc + nValue (out cn)) Hr1 Hty Hh Em2) as (r & c' & -> & Hr' & Hok).
    eexists _, c'. split; [reflexivity|]. split; [done|]. intros v. rewrite Hok. rewrite Z.add_assoc. tauto.
  - eexists _, c1. split; [reflexivity|]. split; [done|]. intros v. split; [done|]. intros ([_ Hf] & -> & Hle).
    pose proof (spendable_sum_pos U h ins Hf). assert (MoneyRange (acc + nValue (out cn)) = true); [|congruence].
    apply MoneyRange_spec. lia.
Qed.
End InputsSpec.

(** ** Theorems *)

(** C13. For a transaction that is not a coinbase and whose outputs are in
    range, [CheckTxInputs] never fails an assertion, keeps the set of coins, and accepts with
    fee [fee] exactly when every input is an existing coin in range and mature, the inputs add up
    to at most the money supply, and the fee is what the inputs exceed the outputs
    by, which is not negative: no money is created. *)
Theorem CheckTxInputs_conserves_value {V : Type} `{CoinsViewSpec V} `{ScriptUsageSpec}
    (c : CCoinsViewCache V) (U : COutPoint -> option Coin) (tx : CTransaction) (nSpendHeight value_out : Z) :
  represents c U -> IsCoinBase tx = false -> Forall (coin_typed U) (vin tx) ->
  0 <= nSpendHeight < 2 ^ 31 -> GetValueOut tx = Some value_out ->
  exists r c', CheckTxInputs c tx nSpendHeight = Some (r, c') /\ represents c' U /\
    forall fee, r = Ok fee <->
      Forall (spendable U nSpendHeight) (vin tx) /\ input_sum U (vin tx) <= MAX_MONEY /\
      fee = input_sum U (vin tx) - sum_values (vout tx) /\ 0 <= fee.
Proof.
  intros Hr Hcb Hty Hh Hout. destruct (GetValueOut_sum tx value_out Hout) as (Ev & _ & Hvr).
  unfold CheckTxInputs, HaveInputs. rewrite Hcb. destruct (HaveInputs_loop_spec (vin tx) c U Hr) as (c1 & -> & Hr1).
  destruct (forallb _ (vin tx)) eqn:Ehave; cbn [negb].
  2: { eexists _, c1. split; [reflexivity|]. split; [done|]. intros fee. split; [done|]. intros (Hf & _).
       assert (forallb (fun i => bool_decide (is_Some (U (prevout i)))) (vin tx) = true); [|congruence].
       apply Is_true_eq_true, forallb_True, (Forall_impl _ _ _ Hf). intros i (cn & Hcn & _). apply bool_decide_pack. by rewrite Hcn. }
  assert (Forall (fun i => is_Some (U (prevout i))) (vin tx)) as Hall.
  { apply Is_true_eq_left, forallb_True in Ehave. apply (Forall_impl _ _ _ Ehave). intros i. apply bool_decide_unpack. }
  destruct (check_inputs_loop_spec (vin tx) c1 U nSpendHeight 0 Hr1 Hall Hty Hh) as (r & c2 & -> & Hr2 & Hok);
    [unfold MAX_MONEY, COIN; lia|]. cbn [mbind option_bind]. destruct r as [v|e].
  - rewrite Hout. cbn [mbind option_bind]. destruct (proj1 (Hok v) eq_refl) as (Hf & -> & Hle). rewrite Z.add_0_l in *.
    pose proof (spendable_sum_pos U nSpendHeight _ Hf). rewrite s64_small by (unfold MAX_MONEY, COIN in *; lia).
    eexists _, c2. split; [reflexivity|]. split; [done|]. intros fee. rewrite !reject_if_Ok, negb_false_iff, MoneyRange_spec, !Z.ltb_ge.
    rewrite <- Ev. split; [intros (? & ? & ? & [= <-]); auto with lia|]. intros (_ & _ & -> & ?). split_and!; lia || done.
  - eexists _, c2. split; [reflexivity|]. split; [done|]. intros fee. split; [done|]. intros (Hf & Hle & _).
    enough (Err e = @Ok string Z (input_sum U (vin tx))) by done. apply Hok. split; [done|]. split; [lia|done].
Qed.

(** C35. Lock times. A transaction that is final at some height and time stays
    final at later ones. Under BIP 68, [SequenceLocks] never fails, and it accepts a block
    exactly when every input whose lock is not disabled is deep or old enough
    below that block. *)
Theorem lock_times_meaning (H : heap) (p : ptr) (b : CBlockIndex) (parent : ptr) (tx : CTransaction)
    (flags : Z) (prevHeights : list Z) (height time height' time' : Z) :
  wf_heap H -> times_ok H -> H !! p = Some b -> pprev b = Some parent -> 0 <= nHeight b < 2 ^ 30 ->
  length prevHeights = length (vin tx) -> Forall (fun h => 0 <= h <= nHeight b) prevHeights ->
  height <= height' -> time <= time' ->
  (IsFinalTx tx height time = true -> IsFinalTx tx height' time' = true) /\
  exists ok hs, SequenceLocks H tx flags prevHeights p = Some (ok, hs) /\
    (ok = true <->
     fEnforceBIP68 tx flags = false \/
     Forall2 (fun txin h => relative_lock H p b txin h parent) (vin tx) prevHeights).
Proof.
  intros Hwf Ht Hp Hpp Hb Hlen Hh Hle Htl. split.
  - unfold IsFinalTx. destruct (nLockTime tx =? 0); [done|].
    destruct (Z.ltb_spec (nLockTime tx) (if nLockTime tx <? LOCKTIME_THRESHOLD then height else time)) as [Hlt|_].
    + intros _. by rewrite (proj2 (Z.ltb_lt _ _)) by (destruct (nLockTime tx <? LOCKTIME_THRESHOLD); lia).
    + intros ->. by destruct (_ <? _).
  - unfold SequenceLocks, CalculateSequenceLocks, EvaluateSequenceLocks. rewrite bool_decide_eq_true_2 by done. cbn [negb].
    pose proof (median_range H parent Ht) as Hm. unfold is_u32 in Hm.
    assert (forall h t, negb ((nHeight b <=? h) || (GetMedianTimePast H parent <=? t)) = true <-> beyond H b parent h t) as Hok.
    { intros h t. unfold beyond. rewrite negb_true_iff, orb_false_iff, !Z.leb_gt. done. }
    destruct (fEnforceBIP68 tx flags); cbn [negb].
    + destruct (sequence_loop_spec H Hwf Ht p b Hp parent (vin tx) prevHeights (-1) (-1)) as (h & t & hs & -> & Heq); [done|done|lia|].
      cbn [mbind option_bind]. rewrite Hp. cbn [mbind option_bind]. rewrite Hpp. cbn [mbind option_bind].
      eexists _, _. split; [reflexivity|]. simpl fst. simpl snd. rewrite Hok, Heq. unfold beyond.
      split; [intros [_ ?]; by right|intros [?|?]; [done|]]. split; [lia|done].
    + cbn [mbind option_bind]. rewrite Hp. cbn [mbind option_bind]. rewrite Hpp. cbn [mbind option_bind].
      eexists _, _. split; [reflexivity|]. simpl fst. simpl snd. rewrite Hok. unfold beyond. split; [by left|lia].
Qed.

(** Version 2, with one input whose coin must be two blocks deep and one whose lock is a time. *)
Definition example_locked : CTransaction :=
  mkTx 7 2 0 [mkTxIn (1, 0) [] 2 []; mkTxIn (2, 0) [] SEQUENCE_LOCKTIME_TYPE_FLAG []] [] 50 [].

Lemma example_times_ok : times_ok (entries example_index).
Proof.
  apply (bool_decide_unpack (map_Forall (fun _ (e : CBlockIndex) => 0 <= nTime e < 2 ^ 32) (entries example_index))).
  by vm_compute.
Qed.

Lemma lock_times_meaning_witness :
  (exists hs, SequenceLocks (entries example_index) example_locked LOCKTIME_VERIFY_SEQUENCE [2; 2] 6 = Some (true, hs)) /\
  IsFinalTx example_locked 60 0 = true.
Proof.
  destruct example_tip as (b & E & Eh). destruct (index_reachable_ok _ example_reachable) as [[Hwf _ _ _] _].
  assert (pprev b = Some 5) as Hpp. { vm_compute in E. injection E as <-. reflexivity. }
  destruct (lock_times_meaning (entries example_index) 6 b 5 example_locked LOCKTIME_VERIFY_SEQUENCE [2; 2] 51 0 60 0)
    as [Hfin (ok & hs & Hs & Hok)].
  - exact Hwf.
  - exact example_times_ok.
  - exact E.
  - exact Hpp.
  - rewrite Eh. lia.
  - reflexivity.
  - rewrite Eh. repeat constructor; lia.
  - lia.
  - lia.
  - split; [|by apply Hfin]. exists hs. rewrite Hs. do 2 f_equal. apply Hok. right.
    constructor; [|constructor; [|constructor]].
    + right. change (2 + 2 <= nHeight b). rewrite Eh. lia.
    + right. change (seq_time_based _) with true. cbv zeta iota. rewrite Eh. exists 2. split; by vm_compute.
Defined.

#[local] Instance verify_db_view : CoinsView CCoinsViewDB := CCoinsViewDB_view example_flushes.
#[local] Instance verify_db_spec : CoinsViewSpec CCoinsViewDB := CCoinsViewDB_spec example_flushes.

Lemma CheckTxInputs_conserves_value_witness :
  exists c', CheckTxInputs tip_cache (nth 1 example_block_txs (mkTx 0 0 0 [] [] 0 [])) 120 = Some (Ok 1, c').
Proof.
  destruct (CheckTxInputs_conserves_value tip_cache example_utxo (nth 1 example_block_txs (mkTx 0 0 0 [] [] 0 [])) 120 49)
    as (r & c' & E & _ & Hok).
  - exact tip_cache_represents.
  - reflexivity.
  - constructor; [|constructor]. intros cn Hcn. vm_compute in Hcn. injection Hcn as <-. vm_compute. intuition congruence.
  - lia.
  - reflexivity.
  - exists c'. rewrite E. do 2 f_equal. apply Hok. split; [|by vm_compute].
    constructor; [|constructor]. eexists. split; [reflexivity|]. vm_compute. intuition congruence.
Defined.
