(* ===== verification/Hasher.v ===== *)
(** The shape the hash classes of [crypto/] share ([CSHA1], [CSHA256],
    [CSHA512], [CRIPEMD160]): a chaining state, a buffer of one block and a byte counter;
    [Write] processes full blocks straight from the input and keeps the rest
    in the buffer, [Finalize] writes the padding and the length. The theorem of this
    file is that the bytes may arrive in pieces of any size. *)

From stdpp Require Import prelude.
From Stdlib Require Import ZArith Lia.
From S2P Require Import Prelude Serialize.

Open Scope Z_scope.

(** ** Big-endian integers ([ReadBE32], [ReadBE64], [WriteBE32], [WriteBE64]) *)

Definition be_bytes (k : nat) (x : Z) : stream := rev (le_bytes k x).
Definition be_value (bs : stream) : Z := le_value (rev bs).

(** [memcpy(buf + off, data, data.size())] *)
Definition memcpy (buf : stream) (off : nat) (data : stream) : stream :=
  take off buf ++ data ++ drop (off + length data) buf.

(** An assignment [x = e; k]. Long unrolled code is written with it, so that
    it can be executed one statement at a time in a proof. *)
Definition assign {A B : Type} (e : A) (k : A -> B) : B := k e.
Notation "'var' x := e 'in' k" := (assign e (fun x => k))
  (at level 10, x name, e at level 100, k at level 200, only parsing).
Notation "'var' ( x , y ) := e 'in' k" := (assign e (fun p => match p with (x, y) => k end))
  (at level 10, x name, y name, e at level 100, k at level 200, only parsing).

Lemma assign_eq {A B : Type} (e : A) (k : A -> B) r : (forall x, e = x -> k x = r) -> assign e k = r.
Proof. intros H. by apply H. Qed.
Lemma assign_as {A B : Type} (v e : A) (k : A -> B) r : e = v -> k v = r -> assign e k = r.
Proof. by intros ->. Qed.

Section Engine.
(** The block size, the size of the length field, the state and what is done with it. *)
Context (B L : nat) {St : Type} (Initialize : St) (Transform : St -> stream -> St)
  (write_length : Z -> stream) (write_state : St -> stream).

Record hasher := mkHasher { hs : St; hbuf : stream; hbytes : Z }.

(** The constructor; the buffer is not initialised and holds any bytes. *)
Definition hasher_new (junk : stream) : hasher := mkHasher Initialize junk 0.

(** [while (end >= data + 64) { Transform(s, data); bytes += 64; data += 64; }];
    each pass takes a block off [data]. *)
Fixpoint blocks_loop (fuel : nat) (s : St) (bytes : Z) (data : stream) : St * Z * stream :=
  match fuel with
  | O => (s, bytes, data)
  | S fuel' =>
      if decide (B <= length data)%nat
      then blocks_loop fuel' (Transform s (take B data)) (u64 (bytes + Z.of_nat B)) (drop B data)
      else (s, bytes, data)
  end.

(** Fill the buffer if the input completes a block, and process it; the
    result has the new [bufsize]. *)
Definition fill_buffer (h : hasher) (data : stream) : hasher * nat * stream :=
  let bufsize := Z.to_nat (hbytes h mod Z.of_nat B) in
  if decide (bufsize <> 0 /\ B <= bufsize + length data)%nat then
    let n := (B - bufsize)%nat in
    let buf := memcpy (hbuf h) bufsize (take n data) in
    (mkHasher (Transform (hs h) buf) buf (u64 (hbytes h + Z.of_nat n)), O, drop n data)
  else (h, bufsize, data).

Definition hasher_Write (h : hasher) (data : stream) : hasher :=
  let '(h1, bufsize, data1) := fill_buffer h data in
  let '(s, bytes, data2) := blocks_loop (length data1) (hs h1) (hbytes h1) data1 in
  match data2 with
  | [] => mkHasher s (hbuf h1) bytes
  | _ => mkHasher s (memcpy (hbuf h1) bufsize data2) (u64 (bytes + Z.of_nat (length data2)))
  end.

(** [1 + ((119 - (bytes % 64)) % 64)] bytes of padding, then the length in bits. *)
Definition pad_size (bytes : Z) : nat :=
  Z.to_nat (1 + (2 * Z.of_nat B - Z.of_nat L - 1 - bytes mod Z.of_nat B) mod Z.of_nat B).
Definition pad : stream := 0x80 :: replicate (B - 1) 0.

(** [Finalize] writes into the hasher itself ([hasher_finish]) and gives out the state. *)
Definition hasher_finish (h : hasher) : hasher :=
  let sizedesc := write_length (u64 (Z.shiftl (hbytes h) 3)) in
  hasher_Write (hasher_Write h (take (pad_size (hbytes h)) pad)) sizedesc.
Definition hasher_Finalize (h : hasher) : stream := write_state (hs (hasher_finish h)).

Definition hasher_Reset (h : hasher) : hasher := mkHasher Initialize (hbuf h) 0.

(** ** The function that is computed *)

(** The state after the full blocks of a message. *)
Fixpoint absorb (fuel : nat) (s : St) (m : stream) : St :=
  match fuel with
  | O => s
  | S fuel' => if decide (B <= length m)%nat then absorb fuel' (Transform s (take B m)) (drop B m) else s
  end.

(** The padded message: a one bit, zeros and the length. *)
Definition padding (m : stream) : stream :=
  take (pad_size (Z.of_nat (length m))) pad ++ write_length (u64 (8 * Z.of_nat (length m))).
Definition digest (m : stream) : stream :=
  let p := m ++ padding m in write_state (absorb (length p) Initialize p).

(** ** Any sequence of writes hashes the concatenation *)

Hypothesis B_pos : (0 < B)%nat.

Lemma absorb_fuel f g s m : (length m <= f)%nat -> (length m <= g)%nat -> absorb f s m = absorb g s m.
Proof.
  revert g s m. induction f as [|f IH]; intros [|g] s m Hf Hg; simpl; try done.
  - destruct (decide _); [lia|done].
  - destruct (decide _); [lia|done].
  - destruct (decide _) as [H|]; [|done]. apply IH; rewrite length_drop; lia.
Qed.

(** The state after the full blocks, with enough fuel. *)
Definition absorbs (s : St) (m : stream) : St := absorb (length m) s m.

Lemma absorbs_step s m :
  absorbs s m = if decide (B <= length m)%nat then absorbs (Transform s (take B m)) (drop B m) else s.
Proof.
  unfold absorbs. destruct (length m) eqn:E; simpl; [destruct (decide _); [lia|done]|].
  rewrite E. destruct (decide _); [|done]. apply absorb_fuel; rewrite length_drop; lia.
Qed.

Lemma absorbs_short s m : (length m < B)%nat -> absorbs s m = s.
Proof. intros H. rewrite absorbs_step. destruct (decide _); [lia|done]. Qed.

Lemma absorbs_block s b m : length b = B -> absorbs s (b ++ m) = absorbs (Transform s b) m.
Proof.
  intros H. rewrite absorbs_step, length_app, decide_True by lia.
  by rewrite take_app_length', drop_app_length'.
Qed.

Lemma absorbs_one s b : length b = B -> absorbs s b = Transform s b.
Proof.
  intros H. rewrite <- (app_nil_r b) at 1. rewrite absorbs_block by done. by apply absorbs_short.
Qed.

(** [full m] is the part of [m] that makes whole blocks, [tail m] the rest. *)
Definition full (m : stream) : nat := (B * (length m / B))%nat.
Definition mtail (m : stream) : stream := drop (full m) m.

Lemma full_bounds m : (full m <= length m < full m + B)%nat.
Proof. unfold full. pose proof (Nat.div_mod_eq (length m) B). pose proof (Nat.mod_upper_bound (length m) B). lia. Qed.

Lemma length_mtail m : length (mtail m) = (length m mod B)%nat.
Proof. unfold mtail, full. rewrite length_drop. pose proof (Nat.div_mod_eq (length m) B). lia. Qed.

(** Whole blocks can be taken off first. *)
Lemma absorbs_app k s a m : length a = (k * B)%nat -> absorbs s (a ++ m) = absorbs (absorbs s a) m.
Proof.
  revert s a. induction k as [|k IH]; intros s a H.
  - destruct a; [|done]. by rewrite (absorbs_short s []) by done.
  - rewrite <- (take_drop B a), <- app_assoc.
    rewrite !(absorbs_block _ (take B a)) by (rewrite length_take; lia). apply IH. rewrite length_drop. lia.
Qed.

Lemma absorbs_full s m : absorbs s m = absorbs s (take (full m) m).
Proof.
  pose proof (full_bounds m).
  rewrite <- (take_drop (full m) m) at 1.
  rewrite (absorbs_app (length m / B)) by (rewrite length_take; unfold full in *; lia).
  apply absorbs_short. rewrite length_drop. lia.
Qed.

Lemma blocks_loop_spec fuel s bytes data : (length data <= fuel)%nat ->
  blocks_loop fuel s bytes data =
    (absorbs s data,
     if decide (B <= length data)%nat then u64 (bytes + Z.of_nat (full data)) else bytes,
     mtail data).
Proof.
  revert s bytes data. induction fuel as [|fuel IH]; intros s bytes data H; simpl.
  - destruct data; [|simpl in *; lia].
    rewrite absorbs_short, decide_False by (simpl; lia). unfold mtail. by rewrite drop_nil.
  - rewrite (absorbs_step s data). destruct (decide (B <= length data)%nat) as [Hb|Hb].
    + assert (Hf : full data = (B + full (drop B data))%nat).
      { unfold full. rewrite length_drop.
        replace (length data) with (length data - B + 1 * B)%nat at 1 by lia.
        rewrite Nat.div_add by lia. lia. }
      rewrite IH by (rewrite length_drop; lia). f_equal; [f_equal|].
      * rewrite Hf. destruct (decide _) as [|Hn].
        -- unfold u64. rewrite Zplus_mod_idemp_l. f_equal. lia.
        -- replace (full (drop B data)) with O; [f_equal; lia|].
           unfold full. rewrite Nat.div_small by lia. lia.
      * unfold mtail. by rewrite Hf, drop_drop.
    + unfold mtail, full. by rewrite Nat.div_small, Nat.mul_0_r, drop_0 by lia.
Qed.

(** What a hasher that has been fed [m] holds. *)
Record fed (h : hasher) (m : stream) : Prop := {
  fed_bytes : hbytes h = u64 (Z.of_nat (length m));
  fed_state : hs h = absorbs Initialize m;
  fed_buf : take (length m mod B) (hbuf h) = mtail m;
  fed_len : length (hbuf h) = B
}.

Lemma fed_new junk : length junk = B -> fed (hasher_new junk) [].
Proof.
  intros H. split; simpl; [done|by rewrite absorbs_short by (simpl; lia)| |done].
  unfold mtail. rewrite drop_nil. by rewrite Nat.Div0.mod_0_l.
Qed.

(** The counter wraps at 2^64, which does not disturb the position in the block. *)
Hypothesis B_divides : (Z.of_nat B | 2 ^ 64).

Lemma fed_bufsize h m : fed h m -> Z.to_nat (hbytes h mod Z.of_nat B) = (length m mod B)%nat.
Proof.
  intros [-> _ _ _]. unfold u64. rewrite Z.mod_mod_divide by done.
  rewrite <- Nat2Z.inj_mod. lia.
Qed.

Lemma u64_add_absorb_l a b : u64 (u64 a + b) = u64 (a + b).
Proof. unfold u64. apply Zplus_mod_idemp_l. Qed.

Lemma length_memcpy buf off data : (off + length data <= length buf)%nat ->
  length (memcpy buf off data) = length buf.
Proof. intros H. unfold memcpy. rewrite !length_app, length_take, length_drop. lia. Qed.

Lemma take_memcpy buf off data : (off + length data <= length buf)%nat ->
  take (off + length data) (memcpy buf off data) = take off buf ++ data.
Proof.
  intros H. unfold memcpy. rewrite app_assoc, take_app_length'; [done|].
  rewrite length_app, length_take. lia.
Qed.

Lemma mtail_short m d : (length m mod B + length d < B)%nat -> full (m ++ d) = full m.
Proof.
  intros H. unfold full. rewrite length_app. f_equal.
  rewrite (Nat.div_mod_eq (length m) B) at 1. rewrite <- Nat.add_assoc, Nat.mul_comm.
  rewrite Nat.div_add_l by lia. rewrite (Nat.div_small (_ + _)) by lia. lia.
Qed.

(** The message so far fits the buffer: its tail grows, the state stays. *)
Lemma fed_buffered h m d : fed h m -> (length m mod B + length d < B)%nat ->
  fed (mkHasher (hs h) (memcpy (hbuf h) (length m mod B) d) (u64 (hbytes h + Z.of_nat (length d)))) (m ++ d).
Proof.
  intros [Hb Hs Hbuf Hlen] H. pose proof (full_bounds m) as Hfb.
  assert (Hmod : (length (m ++ d) mod B = length m mod B + length d)%nat).
  { rewrite length_app, <- Nat.Div0.add_mod_idemp_l. by rewrite Nat.mod_small. }
  split; simpl.
  - rewrite Hb, u64_add_absorb_l, length_app. f_equal. lia.
  - rewrite Hs, (absorbs_full _ m), (absorbs_full _ (m ++ d)), mtail_short by done.
    by rewrite take_app_le by lia.
  - rewrite Hmod, take_memcpy by lia. rewrite Hbuf. unfold mtail. rewrite mtail_short by done.
    by rewrite drop_app_le by lia.
  - rewrite length_memcpy by lia. done.
Qed.

(** The message so far is whole blocks. *)
Lemma fed_blocks h m d : fed h m -> (length m mod B = 0)%nat -> (length d mod B = 0)%nat ->
  fed (mkHasher (absorbs (hs h) d) (hbuf h) (u64 (hbytes h + Z.of_nat (length d)))) (m ++ d).
Proof.
  intros [Hb Hs Hbuf Hlen] Hm Hd.
  pose proof (Nat.div_mod_eq (length m) B). pose proof (Nat.div_mod_eq (length d) B).
  assert (Hmod : (length (m ++ d) mod B = 0)%nat).
  { rewrite length_app, Nat.Div0.add_mod, Hm, Hd. apply Nat.Div0.mod_0_l. }
  split; simpl; [..|done].
  - rewrite Hb, u64_add_absorb_l, length_app. f_equal. lia.
  - rewrite Hs. symmetry. apply (absorbs_app (length m / B)). lia.
  - rewrite Hmod. symmetry. apply length_zero_iff_nil. by rewrite length_mtail.
Qed.

(** After the first step of [Write] either the buffer is empty or the rest fits in it. *)
Lemma fill_buffer_fed h m d h1 bufsize d1 : fed h m -> fill_buffer h d = (h1, bufsize, d1) ->
  exists d0, d = d0 ++ d1 /\ fed h1 (m ++ d0) /\ bufsize = (length (m ++ d0) mod B)%nat /\
    (bufsize = 0 \/ bufsize + length d1 < B)%nat.
Proof.
  intros Hf. unfold fill_buffer. rewrite (fed_bufsize h m Hf).
  pose proof (Nat.mod_upper_bound (length m) B).
  destruct (decide _) as [[Hr Hd]|Hn]; intros [= <- <- <-].
  - set (n := (B - length m mod B)%nat).
    assert (Hn : length (take n d) = n) by (rewrite length_take; lia).
    pose proof (Nat.div_mod_eq (length m) B).
    assert (Hmod : (length (m ++ take n d) mod B = 0)%nat).
    { rewrite length_app, Hn. replace (_ + n)%nat with (B * (length m / B) + 1 * B)%nat by lia.
      rewrite Nat.mul_comm, <- Nat.mul_add_distr_r. apply Nat.Div0.mod_mul. }
    exists (take n d). rewrite take_drop. split_and!; [done| |done|by left].
    destruct Hf as [Hb Hs Hbuf Hlen].
    assert (Hbuf' : memcpy (hbuf h) (length m mod B) (take n d) = mtail m ++ take n d).
    { rewrite <- Hbuf. pose proof (take_memcpy (hbuf h) (length m mod B) (take n d) ltac:(lia)) as <-.
      rewrite (take_ge (memcpy _ _ _)); [done|]. rewrite length_memcpy by lia. lia. }
    rewrite Hbuf'. split; simpl.
    + rewrite Hb, u64_add_absorb_l, length_app, Hn. f_equal. fold n. lia.
    + assert (Hm : m ++ take n d = take (full m) m ++ mtail m ++ take n d)
        by (unfold mtail; by rewrite app_assoc, take_drop).
      rewrite Hm, (absorbs_app (length m / B)) by (rewrite length_take; unfold full in *; lia).
      by rewrite Hs, <- absorbs_full, (absorbs_one _ (mtail m ++ _)) by (rewrite length_app, length_mtail; lia).
    + rewrite Hmod. symmetry. apply length_zero_iff_nil. by rewrite length_mtail.
    + rewrite length_app, length_mtail. lia.
  - exists []. rewrite !app_nil_r. split_and!; [done|done|done|lia].
Qed.

Lemma Write_fed h m d : fed h m -> fed (hasher_Write h d) (m ++ d).
Proof.
  intros Hf. unfold hasher_Write.
  destruct (fill_buffer h d) as [[h1 bufsize] d1] eqn:E.
  destruct (fill_buffer_fed _ _ _ _ _ _ Hf E) as (d0 & -> & Hf1 & -> & Hcase).
  rewrite app_assoc. set (m1 := m ++ d0) in *. clearbody m1.
  rewrite blocks_loop_spec by done.
  pose proof (length_mtail d1) as Hlt. pose proof (full_bounds d1).
  pose proof (Nat.div_mod_eq (length d1) B).
  destruct Hcase as [Hz|Hz].
  - assert (Hsplit : d1 = take (full d1) d1 ++ mtail d1) by (symmetry; apply take_drop).
    assert (Hfull : length (take (full d1) d1) = full d1) by (rewrite length_take; lia).
    pose proof (fed_blocks h1 m1 (take (full d1) d1) Hf1 Hz) as Hb.
    rewrite Hfull, <- absorbs_full in Hb.
    specialize (Hb ltac:(unfold full; rewrite Nat.mul_comm; apply Nat.Div0.mod_mul)).
    assert (Hm : (length (m1 ++ take (full d1) d1) mod B = 0)%nat).
    { rewrite length_app, Hfull, Nat.Div0.add_mod, Hz. unfold full.
      rewrite (Nat.mul_comm B), Nat.Div0.mod_mul. apply Nat.Div0.mod_0_l. }
    assert (Hbytes : (if decide (B <= length d1)%nat then u64 (hbytes h1 + Z.of_nat (full d1)) else hbytes h1)
        = u64 (hbytes h1 + Z.of_nat (full d1))).
    { destruct (decide _); [done|]. unfold full. rewrite Nat.div_small, Nat.mul_0_r, Z.add_0_r by lia.
      rewrite (fed_bytes _ _ Hf1). unfold u64. by rewrite Z.mod_mod. }
    rewrite Hbytes. replace (m1 ++ d1) with (m1 ++ take (full d1) d1 ++ mtail d1) by (by rewrite <- Hsplit).
    pose proof (fed_buffered _ _ (mtail d1) Hb) as Hb2. rewrite Hm, <- app_assoc in Hb2. rewrite Hz.
    destruct (mtail d1) as [|x t] eqn:Et; [by rewrite app_nil_r|].
    apply Hb2. pose proof (Nat.mod_upper_bound (length d1) B). lia.
  - rewrite decide_False by lia. rewrite absorbs_short by lia.
    assert (Ht : mtail d1 = d1) by (unfold mtail, full; by rewrite Nat.div_small, Nat.mul_0_r, drop_0 by lia).
    rewrite Ht. pose proof (fed_buffered h1 m1 d1 Hf1 Hz) as Hb.
    destruct d1; [rewrite app_nil_r; by destruct h1|done].
Qed.

Lemma Writes_fed ds h m : fed h m -> fed (foldl hasher_Write h ds) (m ++ concat ds).
Proof.
  revert h m. induction ds as [|d ds IH]; intros h m Hf; simpl; [by rewrite app_nil_r|].
  rewrite app_assoc. apply IH. by apply Write_fed.
Qed.

Lemma Reset_fed h m : fed h m -> fed (hasher_Reset h) [].
Proof. intros [_ _ _ Hlen]. apply fed_new in Hlen. by destruct Hlen. Qed.

Lemma pad_size_mod a b : a mod Z.of_nat B = b mod Z.of_nat B -> pad_size a = pad_size b.
Proof. unfold pad_size. by intros ->. Qed.

Lemma finish_fed h m : fed h m -> fed (hasher_finish h) (m ++ padding m).
Proof.
  intros Hf. unfold hasher_finish, padding. rewrite app_assoc.
  assert (Hlen : u64 (Z.shiftl (hbytes h) 3) = u64 (8 * Z.of_nat (length m))).
  { rewrite Z.shiftl_mul_pow2, (fed_bytes _ _ Hf) by lia. unfold u64.
    rewrite Zmult_mod_idemp_l. f_equal. lia. }
  rewrite Hlen. apply Write_fed. erewrite (pad_size_mod (hbytes h)); [by apply Write_fed|].
  rewrite (fed_bytes _ _ Hf). unfold u64. by rewrite Z.mod_mod_divide.
Qed.

Lemma Finalize_fed h m : fed h m -> hasher_Finalize h = digest m.
Proof. intros Hf. unfold hasher_Finalize. by rewrite (fed_state _ _ (finish_fed h m Hf)). Qed.

(** The bytes may be written in pieces of any size. *)
Lemma hasher_streaming junk ds : length junk = B ->
  hasher_Finalize (foldl hasher_Write (hasher_new junk) ds) = digest (concat ds).
Proof. intros H. apply Finalize_fed, (Writes_fed ds _ []). by apply fed_new. Qed.

Hypothesis L_fits : (L < B)%nat.
Hypothesis write_length_len : forall n, length (write_length n) = L.

(** The padding fills the last block: a [0x80], fewer than a block of zeros, the length. *)
Lemma padded_whole m : (length (m ++ padding m) mod B = 0)%nat /\ (1 <= length (padding m) - L <= B)%nat.
Proof.
  set (r := Z.of_nat (length m) mod Z.of_nat B).
  assert (Hp : pad_size (Z.of_nat (length m)) = Z.to_nat (1 + (2 * Z.of_nat B - Z.of_nat L - 1 - r) mod Z.of_nat B)) by done.
  pose proof (Z.mod_pos_bound (2 * Z.of_nat B - Z.of_nat L - 1 - r) (Z.of_nat B)) as Hq.
  set (q := (2 * Z.of_nat B - Z.of_nat L - 1 - r) mod Z.of_nat B) in *.
  assert (Hl : length (padding m) = (Z.to_nat (1 + q) + L)%nat).
  { unfold padding, pad. rewrite length_app, write_length_len, length_take, Hp. simpl.
    rewrite length_replicate. lia. }
  rewrite length_app, Hl. split; [|lia].
  apply Nat2Z.inj. rewrite Nat2Z.inj_mod. rewrite !Nat2Z.inj_add, Z2Nat.id by lia.
  rewrite <- Zplus_mod_idemp_l. fold r.
  replace (r + (1 + q + Z.of_nat L)) with (q + (r + 1 + Z.of_nat L)) by lia. subst q.
  rewrite Zplus_mod_idemp_l.
  replace (_ + _) with (2 * Z.of_nat B) by lia. apply Z_mod_mult.
Qed.
End Engine.

Arguments hasher : clear implicits.
Arguments mkHasher {St} _ _ _.
Arguments hs {St} _.
Arguments hbuf {St} _.
Arguments hbytes {St} _.
