(* ===== verification/Fips180.v ===== *)
(** The Secure Hash Standard (FIPS 180-4), the function the code of [crypto/sha1.cpp], [crypto/sha256.cpp] and
    [crypto/sha512.cpp] means to compute, written as the standard does: a
    message schedule, a compression loop over registers that shift by one
    place, and the round functions with exclusive or. And RIPEMD-160 as its authors publish it.
    None of this is code of the repository; it is the specification side. *)

From stdpp Require Import prelude.
From Stdlib Require Import ZArith Lia Btauto.
From S2P Require Import Prelude Serialize Hasher.

Open Scope Z_scope.

Definition regs5 : Type := Z * Z * Z * Z * Z.
Definition regs8 : Type := Z * Z * Z * Z * Z * Z * Z * Z.

(** Rotations of [w]-bit words. *)
Definition ROTR (w n x : Z) : Z := Z.lor (Z.shiftr x n) (Z.shiftl x (w - n) mod 2 ^ w).
Definition ROTL (w n x : Z) : Z := Z.lor (Z.shiftl x n mod 2 ^ w) (Z.shiftr x (w - n)).

Definition Ch (x y z : Z) : Z := Z.lxor (Z.land x y) (Z.land (Z.lnot x) z).
Definition Parity (x y z : Z) : Z := Z.lxor (Z.lxor x y) z.
Definition Maj (x y z : Z) : Z := Z.lxor (Z.lxor (Z.land x y) (Z.land x z)) (Z.land y z).

(** The words of a block, each of [k] bytes, high byte first. *)
Definition be_words (k : nat) (block : stream) : list Z :=
  map (fun i => be_value (take k (drop (k * i) block))) (seq 0 16).

(** A schedule extends the sixteen words of the block one word at a time; the
    new word depends on the last sixteen. *)
Section Schedule.
Context (next : list Z -> Z).

Fixpoint schedule (n : nat) (W : list Z) : list Z :=
  match n with
  | O => W
  | S n' => schedule n' (W ++ [next (drop (length W - 16) W)])
  end.

(** The same words, taken off a window of sixteen that moves. *)
Fixpoint window (n : nat) (win : list Z) : list Z :=
  match n, win with
  | S n', x :: rest => x :: window n' (rest ++ [next win])
  | _, _ => []
  end.

Lemma window_short n win : (n <= length win)%nat -> window n win = take n win.
Proof.
  revert win. induction n as [|n IH]; intros [|x win] H; simpl in *; [done..|].
  rewrite IH by (rewrite length_app; lia). by rewrite take_app_le by lia.
Qed.

Lemma schedule_window n P win : length win = 16%nat ->
  schedule n (P ++ win) = P ++ window (16 + n) win.
Proof.
  revert P win. induction n as [|n IH]; intros P win H.
  - rewrite Nat.add_0_r, window_short, take_ge by lia. done.
  - destruct win as [|x win]; [done|]. simpl in H. cbn [schedule].
    replace (drop _ _) with (x :: win)
      by (rewrite drop_app_length'; [done|]; rewrite length_app; simpl; lia).
    replace ((P ++ x :: win) ++ [next (x :: win)]) with ((P ++ [x]) ++ (win ++ [next (x :: win)]))
      by (by rewrite <- !app_assoc).
    rewrite IH by (rewrite length_app; simpl; lia). rewrite <- app_assoc. f_equal.
Qed.

Lemma schedule_words n win : length win = 16%nat -> schedule n win = window (16 + n) win.
Proof. apply (schedule_window n []). Qed.
End Schedule.

(** ** SHA-256 and SHA-512 *)

Section Sha2.
(** The word size, the constants and the four functions of the standard. *)
Context (w : Z) (K : list Z) (Sigma0 Sigma1 sigma0 sigma1 : Z -> Z).

(** [W_t = sigma1(W_{t-2}) + W_{t-7} + sigma0(W_{t-15}) + W_{t-16}] *)
Definition sha2_next (W : list Z) : Z :=
  (sigma1 (nth 14 W 0) + nth 9 W 0 + sigma0 (nth 1 W 0) + nth 0 W 0) mod 2 ^ w.

Definition sha2_step (v : regs8) (kw : Z * Z) : regs8 :=
  let '(a, b, c, d, e, f, g, h) := v in
  let T1 := (h + Sigma1 e + Ch e f g + kw.1 + kw.2) mod 2 ^ w in
  let T2 := (Sigma0 a + Maj a b c) mod 2 ^ w in
  ((T1 + T2) mod 2 ^ w, a, b, c, (d + T1) mod 2 ^ w, e, f, g).

Definition sha2_add (u v : regs8) : regs8 :=
  let '(a, b, c, d, e, f, g, h) := u in
  let '(a', b', c', d', e', f', g', h') := v in
  ((a + a') mod 2 ^ w, (b + b') mod 2 ^ w, (c + c') mod 2 ^ w, (d + d') mod 2 ^ w,
   (e + e') mod 2 ^ w, (f + f') mod 2 ^ w, (g + g') mod 2 ^ w, (h + h') mod 2 ^ w).

(** One block, given as its sixteen words. *)
Definition sha2_compress (H : regs8) (M : list Z) : regs8 :=
  sha2_add H (fold_left sha2_step (combine K (schedule sha2_next (length K - 16) M)) H).
End Sha2.

(** The constants are the first bits of the fractional parts of the square and
    cube roots of the first primes. *)
Definition prime_b (n : nat) : bool := forallb (fun d => negb (n mod d =? 0)%nat) (seq 2 (n - 2)).
Definition primes : list Z := map Z.of_nat (List.filter prime_b (seq 2 408)).
(** The integer cube root, bit by bit. *)
Fixpoint cbrt (bits : nat) (n r : Z) : Z :=
  match bits with
  | O => r
  | S k => let r' := r + 2 ^ Z.of_nat k in cbrt k n (if r' * r' * r' <=? n then r' else r)
  end.
Definition root_K (w : Z) (p : Z) : Z := cbrt (Z.to_nat w + 3) (p * 2 ^ (3 * w)) 0 mod 2 ^ w.
Definition root_H (w : Z) (p : Z) : Z := Z.sqrt (p * 2 ^ (2 * w)) mod 2 ^ w.
Definition regs_of (l : list Z) : regs8 :=
  (nth 0 l 0, nth 1 l 0, nth 2 l 0, nth 3 l 0, nth 4 l 0, nth 5 l 0, nth 6 l 0, nth 7 l 0).

Definition K256 : list Z := map (root_K 32) (take 64 primes).
Definition H256 : regs8 := regs_of (map (root_H 32) (take 8 primes)).
Definition sha256_Sigma0 (x : Z) : Z := Z.lxor (Z.lxor (ROTR 32 2 x) (ROTR 32 13 x)) (ROTR 32 22 x).
Definition sha256_Sigma1 (x : Z) : Z := Z.lxor (Z.lxor (ROTR 32 6 x) (ROTR 32 11 x)) (ROTR 32 25 x).
Definition sha256_sigma0 (x : Z) : Z := Z.lxor (Z.lxor (ROTR 32 7 x) (ROTR 32 18 x)) (Z.shiftr x 3).
Definition sha256_sigma1 (x : Z) : Z := Z.lxor (Z.lxor (ROTR 32 17 x) (ROTR 32 19 x)) (Z.shiftr x 10).
Definition sha256_compress : regs8 -> list Z -> regs8 :=
  sha2_compress 32 K256 sha256_Sigma0 sha256_Sigma1 sha256_sigma0 sha256_sigma1.

Definition K512 : list Z := map (root_K 64) (take 80 primes).
Definition H512 : regs8 := regs_of (map (root_H 64) (take 8 primes)).
Definition sha512_Sigma0 (x : Z) : Z := Z.lxor (Z.lxor (ROTR 64 28 x) (ROTR 64 34 x)) (ROTR 64 39 x).
Definition sha512_Sigma1 (x : Z) : Z := Z.lxor (Z.lxor (ROTR 64 14 x) (ROTR 64 18 x)) (ROTR 64 41 x).
Definition sha512_sigma0 (x : Z) : Z := Z.lxor (Z.lxor (ROTR 64 1 x) (ROTR 64 8 x)) (Z.shiftr x 7).
Definition sha512_sigma1 (x : Z) : Z := Z.lxor (Z.lxor (ROTR 64 19 x) (ROTR 64 61 x)) (Z.shiftr x 6).
Definition sha512_compress : regs8 -> list Z -> regs8 :=
  sha2_compress 64 K512 sha512_Sigma0 sha512_Sigma1 sha512_sigma0 sha512_sigma1.

(** ** SHA-1 *)

Definition sha1_next (W : list Z) : Z :=
  ROTL 32 1 (Z.lxor (Z.lxor (Z.lxor (nth 13 W 0) (nth 8 W 0)) (nth 2 W 0)) (nth 0 W 0)).
Definition sha1_f (t : nat) : Z -> Z -> Z -> Z :=
  if (t <? 20)%nat then Ch else if (t <? 40)%nat then Parity else if (t <? 60)%nat then Maj else Parity.
Definition sha1_K (t : nat) : Z :=
  if (t <? 20)%nat then 0x5a827999 else if (t <? 40)%nat then 0x6ed9eba1
  else if (t <? 60)%nat then 0x8f1bbcdc else 0xca62c1d6.
Definition sha1_step (v : regs5) (tw : nat * Z) : regs5 :=
  let '(a, b, c, d, e) := v in
  ((ROTL 32 5 a + sha1_f tw.1 b c d + e + sha1_K tw.1 + tw.2) mod 2 ^ 32, a, ROTL 32 30 b, c, d).
Definition add5 (u v : regs5) : regs5 :=
  let '(a, b, c, d, e) := u in
  let '(a', b', c', d', e') := v in
  ((a + a') mod 2 ^ 32, (b + b') mod 2 ^ 32, (c + c') mod 2 ^ 32, (d + d') mod 2 ^ 32, (e + e') mod 2 ^ 32).
Definition sha1_compress (H : regs5) (M : list Z) : regs5 :=
  add5 H (fold_left sha1_step (combine (seq 0 80) (schedule sha1_next 64 M)) H).

(** ** RIPEMD-160 *)

Definition le_words (k : nat) (block : stream) : list Z :=
  map (fun i => le_value (take k (drop (k * i) block))) (seq 0 16).
Definition not32 (x : Z) : Z := Z.lxor x (2 ^ 32 - 1).
Definition rmd_f (j : nat) (x y z : Z) : Z :=
  match (j / 16)%nat with
  | 0%nat => Z.lxor (Z.lxor x y) z
  | 1%nat => Z.lor (Z.land x y) (Z.land (not32 x) z)
  | 2%nat => Z.lxor (Z.lor x (not32 y)) z
  | 3%nat => Z.lor (Z.land x z) (Z.land y (not32 z))
  | _ => Z.lxor x (Z.lor y (not32 z))
  end.
Definition rmd_K : list Z := [0; 0x5a827999; 0x6ed9eba1; 0x8f1bbcdc; 0xa953fd4e].
Definition rmd_K' : list Z := [0x50a28be6; 0x5c4dd124; 0x6d703ef3; 0x7a6d76e9; 0].
Definition rmd_r : list nat :=
  ([0;1;2;3;4;5;6;7;8;9;10;11;12;13;14;15] ++ [7;4;13;1;10;6;15;3;12;0;9;5;2;14;11;8] ++
   [3;10;14;4;9;15;8;1;2;7;0;6;13;11;5;12] ++ [1;9;11;10;0;8;12;4;13;3;7;15;14;5;6;2] ++
   [4;0;5;9;7;12;2;10;14;1;3;8;11;6;15;13])%nat.
Definition rmd_r' : list nat :=
  ([5;14;7;0;9;2;11;4;13;6;15;8;1;10;3;12] ++ [6;11;3;7;0;13;5;10;14;15;8;12;4;9;1;2] ++
   [15;5;1;3;7;14;6;9;11;8;12;2;10;0;4;13] ++ [8;6;4;1;3;11;15;0;5;12;2;13;9;7;10;14] ++
   [12;15;10;4;1;5;8;7;6;2;13;14;0;3;9;11])%nat.
Definition rmd_s : list Z :=
  [11;14;15;12;5;8;7;9;11;13;14;15;6;7;9;8] ++ [7;6;8;13;11;9;7;15;7;12;15;9;11;7;13;12] ++
  [11;13;6;7;14;9;13;15;14;8;13;6;5;12;7;5] ++ [11;12;14;15;14;15;9;8;9;14;5;6;8;6;5;12] ++
  [9;15;5;11;6;8;13;12;5;12;13;14;11;8;5;6].
Definition rmd_s' : list Z :=
  [8;9;9;11;13;15;15;5;7;7;8;11;14;14;12;6] ++ [9;13;15;7;12;8;9;11;7;7;12;7;6;15;13;11] ++
  [9;7;15;11;8;6;6;14;12;13;5;14;13;13;7;5] ++ [15;5;8;11;14;14;6;14;6;9;12;9;12;5;15;8] ++
  [8;5;12;9;12;5;14;6;8;13;6;5;15;13;11;11].

(** One step of a line: word [r], rotation [s], round function and constant. *)
Definition rmd_step (f : Z -> Z -> Z -> Z) (k x s : Z) (v : regs5) : regs5 :=
  let '(a, b, c, d, e) := v in
  let T := (ROTL 32 s ((a + f b c d + x + k) mod 2 ^ 32) + e) mod 2 ^ 32 in
  (e, T, b, ROTL 32 10 c, d).
Definition rmd_left (X : list Z) (v : regs5) (j : nat) : regs5 :=
  rmd_step (rmd_f j) (nth (j / 16) rmd_K 0) (nth (nth j rmd_r 0%nat) X 0) (nth j rmd_s 0) v.
Definition rmd_right (X : list Z) (v : regs5) (j : nat) : regs5 :=
  rmd_step (rmd_f (79 - j)) (nth (j / 16) rmd_K' 0) (nth (nth j rmd_r' 0%nat) X 0) (nth j rmd_s' 0) v.
Definition rmd_compress (H : regs5) (X : list Z) : regs5 :=
  let '(h0, h1, h2, h3, h4) := H in
  let '(A, B, C, D, E) := fold_left (rmd_left X) (seq 0 80) H in
  let '(A', B', C', D', E') := fold_left (rmd_right X) (seq 0 80) H in
  ((h1 + C + D') mod 2 ^ 32, (h2 + D + E') mod 2 ^ 32, (h3 + E + A') mod 2 ^ 32,
   (h4 + A + B') mod 2 ^ 32, (h0 + B + C') mod 2 ^ 32).

(** ** The forms of the round functions the code uses *)

Lemma Ch_select x y z : Z.lxor z (Z.land x (Z.lxor y z)) = Ch x y z.
Proof.
  unfold Ch. apply Z.bits_inj. intros i. destruct (Z.ltb_spec i 0); [by rewrite !Z.testbit_neg_r|].
  rewrite !Z.lxor_spec, !Z.land_spec, !Z.lxor_spec, Z.lnot_spec by done. btauto.
Qed.

Lemma Maj_select x y z : Z.lor (Z.land x y) (Z.land z (Z.lor x y)) = Maj x y z.
Proof.
  unfold Maj. apply Z.bits_inj. intros i.
  rewrite !Z.lxor_spec, !Z.lor_spec, !Z.land_spec, !Z.lor_spec. btauto.
Qed.

(** ** Messages *)

(** The message is padded with a one bit, the least number of zeros and its length in bits, and
    cut into blocks. *)
Section Message.
Context (B L : nat) {St : Type} (H0 : St) (compress : St -> stream -> St)
  (encode_length : Z -> stream) (output : St -> stream).

Definition message_padding (m : stream) : stream :=
  let len := Z.of_nat (length m) in
  0x80 :: replicate (Z.to_nat ((Z.of_nat B - Z.of_nat L - 1 - len) mod Z.of_nat B)) 0 ++ encode_length (8 * len).
Definition message_blocks (p : stream) : list stream :=
  map (fun i => take B (drop (B * i) p)) (seq 0 (length p / B)).
Definition message_hash (m : stream) : stream :=
  output (fold_left compress (message_blocks (m ++ message_padding m)) H0).

Context (Transform : St -> stream -> St) (write_length : Z -> stream).
Hypothesis B_pos : (0 < B)%nat.
Hypothesis L_fits : (L < B)%nat.
Hypothesis Transform_ok : forall s b, length b = B -> Transform s b = compress s b.
Hypothesis write_length_ok : forall n, 0 <= n < 2 ^ 64 -> write_length n = encode_length n.

Lemma pad_same m : 8 * Z.of_nat (length m) < 2 ^ 64 -> padding B L write_length m = message_padding m.
Proof.
  intros Hm. unfold padding, message_padding, pad, pad_size.
  set (r := Z.of_nat (length m) mod Z.of_nat B).
  assert (Hr : (Z.of_nat B - Z.of_nat L - 1 - Z.of_nat (length m)) mod Z.of_nat B
               = (2 * Z.of_nat B - Z.of_nat L - 1 - r) mod Z.of_nat B).
  { subst r. rewrite Zminus_mod_idemp_r.
    replace (2 * Z.of_nat B - Z.of_nat L - 1 - Z.of_nat (length m))
      with (Z.of_nat B - Z.of_nat L - 1 - Z.of_nat (length m) + 1 * Z.of_nat B) by lia.
    by rewrite Z_mod_plus_full. }
  rewrite Hr. set (q := (_ - r) mod _).
  assert (Hq : 0 <= q < Z.of_nat B) by (apply Z.mod_pos_bound; lia). clearbody q. clear Hr.
  replace (Z.to_nat (1 + q)) with (S (Z.to_nat q)) by lia. cbn [take].
  rewrite take_replicate, Nat.min_l by lia. unfold u64. rewrite (Z.mod_small (8 * _)) by lia.
  by rewrite write_length_ok by lia.
Qed.

Lemma absorb_blocks fuel s p : (length p <= fuel)%nat ->
  absorb B Transform fuel s p = fold_left compress (message_blocks p) s.
Proof.
  revert s p. induction fuel as [|fuel IH]; intros s p Hf; simpl.
  - destruct p; [|simpl in *; lia]. unfold message_blocks. by rewrite Nat.Div0.div_0_l.
  - destruct (decide _) as [Hb|Hb].
    + rewrite Transform_ok, IH by (rewrite ?length_take, ?length_drop; lia).
      unfold message_blocks. rewrite length_drop.
      replace (length p) with (length p - B + 1 * B)%nat at 2 by lia.
      rewrite Nat.div_add, Nat.add_1_r by lia.
      cbn [seq map fold_left]. rewrite Nat.mul_0_r, drop_0, <- seq_shift, map_map. f_equal.
      apply map_ext. intros i. rewrite drop_drop. do 2 f_equal. lia.
    + unfold message_blocks. by rewrite Nat.div_small by lia.
Qed.

(** A hash class whose transform is the compression function computes the hash. *)
Lemma digest_hash m : 8 * Z.of_nat (length m) < 2 ^ 64 ->
  digest B L H0 Transform write_length output m = message_hash m.
Proof. intros Hm. unfold digest, message_hash. by rewrite pad_same, absorb_blocks. Qed.
End Message.

Definition write_regs8 (k : nat) (s : regs8) : stream :=
  let '(a, b, c, d, e, f, g, h) := s in concat (map (be_bytes k) [a; b; c; d; e; f; g; h]).
Definition write_regs5 (enc : Z -> stream) (s : regs5) : stream :=
  let '(a, b, c, d, e) := s in concat (map enc [a; b; c; d; e]).

Definition sha256 : stream -> stream :=
  message_hash 64 8 H256 (fun H b => sha256_compress H (be_words 4 b)) (be_bytes 8) (write_regs8 4).
Definition sha512 : stream -> stream :=
  message_hash 128 16 H512 (fun H b => sha512_compress H (be_words 8 b)) (be_bytes 16) (write_regs8 8).
Definition H160 : regs5 := (0x67452301, 0xefcdab89, 0x98badcfe, 0x10325476, 0xc3d2e1f0).
Definition sha1 : stream -> stream :=
  message_hash 64 8 H160 (fun H b => sha1_compress H (be_words 4 b)) (be_bytes 8) (write_regs5 (be_bytes 4)).
Definition ripemd160 : stream -> stream :=
  message_hash 64 8 H160 (fun H b => rmd_compress H (le_words 4 b)) (le_bytes 8) (write_regs5 (le_bytes 4)).
