(* ===== verification/Sha256.v ===== *)
(** SHA-256 ([crypto/sha256.cpp], [crypto/common.h]): the transform in its unrolled form, the class
    [CSHA256], and [TransformD64], the double hash of a 64-byte input with the
    schedules of the two padding blocks folded into constants. The
    unrolled code computes the function of FIPS 180-4. *)

From stdpp Require Import prelude.
From Stdlib Require Import ZArith Lia.
From S2P Require Import Prelude Serialize Hasher Fips180.

Open Scope Z_scope.

Definition ReadBE32 (ptr : stream) (off : nat) : Z := be_value (take 4 (drop off ptr)).
Definition WriteBE32 (x : Z) : stream := be_bytes 4 x.
Definition WriteBE64 (x : Z) : stream := be_bytes 8 x.

Module SHA256.

Definition Ch (x y z : Z) : Z := Z.lxor z (Z.land x (Z.lxor y z)).
Definition Maj (x y z : Z) : Z := Z.lor (Z.land x y) (Z.land z (Z.lor x y)).

(** [x >> n | x << m] on 32 bits *)
Definition rot (x n m : Z) : Z := Z.lor (Z.shiftr x n) (u32 (Z.shiftl x m)).
Definition Sigma0 (x : Z) : Z := Z.lxor (Z.lxor (rot x 2 30) (rot x 13 19)) (rot x 22 10).
Definition Sigma1 (x : Z) : Z := Z.lxor (Z.lxor (rot x 6 26) (rot x 11 21)) (rot x 25 7).
Definition sigma0 (x : Z) : Z := Z.lxor (Z.lxor (rot x 7 25) (rot x 18 14)) (Z.shiftr x 3).
Definition sigma1 (x : Z) : Z := Z.lxor (Z.lxor (rot x 17 15) (rot x 19 13)) (Z.shiftr x 10).

(** One round: the new values of [d] and [h], which are passed by reference. *)
Definition Round (a b c d e f g h k : Z) : Z * Z :=
  let t1 := u32 (h + Sigma1 e + Ch e f g + k) in
  let t2 := u32 (Sigma0 a + Maj a b c) in
  (u32 (d + t1), u32 (t1 + t2)).

Definition Initialize : regs8 :=
  (0x6a09e667, 0xbb67ae85, 0x3c6ef372, 0xa54ff53a,
   0x510e527f, 0x9b05688c, 0x1f83d9ab, 0x5be0cd19).

(** One pass of the loop of [Transform]: a 64-byte chunk. *)
Definition Transform (s : regs8) (chunk : stream) : regs8 :=
  let '(a, b, c, d, e, f, g, h) := s in
  var w0 := ReadBE32 chunk 0 in
  var (d, h) := Round a b c d e f g h (u32 (0x428a2f98 + w0)) in
  var w1 := ReadBE32 chunk 4 in
  var (c, g) := Round h a b c d e f g (u32 (0x71374491 + w1)) in
  var w2 := ReadBE32 chunk 8 in
  var (b, f) := Round g h a b c d e f (u32 (0xb5c0fbcf + w2)) in
  var w3 := ReadBE32 chunk 12 in
  var (a, e) := Round f g h a b c d e (u32 (0xe9b5dba5 + w3)) in
  var w4 := ReadBE32 chunk 16 in
  var (h, d) := Round e f g h a b c d (u32 (0x3956c25b + w4)) in
  var w5 := ReadBE32 chunk 20 in
  var (g, c) := Round d e f g h a b c (u32 (0x59f111f1 + w5)) in
  var w6 := ReadBE32 chunk 24 in
  var (f, b) := Round c d e f g h a b (u32 (0x923f82a4 + w6)) in
  var w7 := ReadBE32 chunk 28 in
  var (e, a) := Round b c d e f g h a (u32 (0xab1c5ed5 + w7)) in
  var w8 := ReadBE32 chunk 32 in
  var (d, h) := Round a b c d e f g h (u32 (0xd807aa98 + w8)) in
  var w9 := ReadBE32 chunk 36 in
  var (c, g) := Round h a b c d e f g (u32 (0x12835b01 + w9)) in
  var w10 := ReadBE32 chunk 40 in
  var (b, f) := Round g h a b c d e f (u32 (0x243185be + w10)) in
  var w11 := ReadBE32 chunk 44 in
  var (a, e) := Round f g h a b c d e (u32 (0x550c7dc3 + w11)) in
  var w12 := ReadBE32 chunk 48 in
  var (h, d) := Round e f g h a b c d (u32 (0x72be5d74 + w12)) in
  var w13 := ReadBE32 chunk 52 in
  var (g, c) := Round d e f g h a b c (u32 (0x80deb1fe + w13)) in
  var w14 := ReadBE32 chunk 56 in
  var (f, b) := Round c d e f g h a b (u32 (0x9bdc06a7 + w14)) in
  var w15 := ReadBE32 chunk 60 in
  var (e, a) := Round b c d e f g h a (u32 (0xc19bf174 + w15)) in
  var w0 := u32 (w0 + (sigma1 w14 + w9 + sigma0 w1)) in
  var (d, h) := Round a b c d e f g h (u32 (0xe49b69c1 + w0)) in
  var w1 := u32 (w1 + (sigma1 w15 + w10 + sigma0 w2)) in
  var (c, g) := Round h a b c d e f g (u32 (0xefbe4786 + w1)) in
  var w2 := u32 (w2 + (sigma1 w0 + w11 + sigma0 w3)) in
  var (b, f) := Round g h a b c d e f (u32 (0x0fc19dc6 + w2)) in
  var w3 := u32 (w3 + (sigma1 w1 + w12 + sigma0 w4)) in
  var (a, e) := Round f g h a b c d e (u32 (0x240ca1cc + w3)) in
  var w4 := u32 (w4 + (sigma1 w2 + w13 + sigma0 w5)) in
  var (h, d) := Round e f g h a b c d (u32 (0x2de92c6f + w4)) in
  var w5 := u32 (w5 + (sigma1 w3 + w14 + sigma0 w6)) in
  var (g, c) := Round d e f g h a b c (u32 (0x4a7484aa + w5)) in
  var w6 := u32 (w6 + (sigma1 w4 + w15 + sigma0 w7)) in
  var (f, b) := Round c d e f g h a b (u32 (0x5cb0a9dc + w6)) in
  var w7 := u32 (w7 + (sigma1 w5 + w0 + sigma0 w8)) in
  var (e, a) := Round b c d e f g h a (u32 (0x76f988da + w7)) in
  var w8 := u32 (w8 + (sigma1 w6 + w1 + sigma0 w9)) in
  var (d, h) := Round a b c d e f g h (u32 (0x983e5152 + w8)) in
  var w9 := u32 (w9 + (sigma1 w7 + w2 + sigma0 w10)) in
  var (c, g) := Round h a b c d e f g (u32 (0xa831c66d + w9)) in
  var w10 := u32 (w10 + (sigma1 w8 + w3 + sigma0 w11)) in
  var (b, f) := Round g h a b c d e f (u32 (0xb00327c8 + w10)) in
  var w11 := u32 (w11 + (sigma1 w9 + w4 + sigma0 w12)) in
  var (a, e) := Round f g h a b c d e (u32 (0xbf597fc7 + w11)) in
  var w12 := u32 (w12 + (sigma1 w10 + w5 + sigma0 w13)) in
  var (h, d) := Round e f g h a b c d (u32 (0xc6e00bf3 + w12)) in
  var w13 := u32 (w13 + (sigma1 w11 + w6 + sigma0 w14)) in
  var (g, c) := Round d e f g h a b c (u32 (0xd5a79147 + w13)) in
  var w14 := u32 (w14 + (sigma1 w12 + w7 + sigma0 w15)) in
  var (f, b) := Round c d e f g h a b (u32 (0x06ca6351 + w14)) in
  var w15 := u32 (w15 + (sigma1 w13 + w8 + sigma0 w0)) in
  var (e, a) := Round b c d e f g h a (u32 (0x14292967 + w15)) in
  var w0 := u32 (w0 + (sigma1 w14 + w9 + sigma0 w1)) in
  var (d, h) := Round a b c d e f g h (u32 (0x27b70a85 + w0)) in
  var w1 := u32 (w1 + (sigma1 w15 + w10 + sigma0 w2)) in
  var (c, g) := Round h a b c d e f g (u32 (0x2e1b2138 + w1)) in
  var w2 := u32 (w2 + (sigma1 w0 + w11 + sigma0 w3)) in
  var (b, f) := Round g h a b c d e f (u32 (0x4d2c6dfc + w2)) in
  var w3 := u32 (w3 + (sigma1 w1 + w12 + sigma0 w4)) in
  var (a, e) := Round f g h a b c d e (u32 (0x53380d13 + w3)) in
  var w4 := u32 (w4 + (sigma1 w2 + w13 + sigma0 w5)) in
  var (h, d) := Round e f g h a b c d (u32 (0x650a7354 + w4)) in
  var w5 := u32 (w5 + (sigma1 w3 + w14 + sigma0 w6)) in
  var (g, c) := Round d e f g h a b c (u32 (0x766a0abb + w5)) in
  var w6 := u32 (w6 + (sigma1 w4 + w15 + sigma0 w7)) in
  var (f, b) := Round c d e f g h a b (u32 (0x81c2c92e + w6)) in
  var w7 := u32 (w7 + (sigma1 w5 + w0 + sigma0 w8)) in
  var (e, a) := Round b c d e f g h a (u32 (0x92722c85 + w7)) in
  var w8 := u32 (w8 + (sigma1 w6 + w1 + sigma0 w9)) in
  var (d, h) := Round a b c d e f g h (u32 (0xa2bfe8a1 + w8)) in
  var w9 := u32 (w9 + (sigma1 w7 + w2 + sigma0 w10)) in
  var (c, g) := Round h a b c d e f g (u32 (0xa81a664b + w9)) in
  var w10 := u32 (w10 + (sigma1 w8 + w3 + sigma0 w11)) in
  var (b, f) := Round g h a b c d e f (u32 (0xc24b8b70 + w10)) in
  var w11 := u32 (w11 + (sigma1 w9 + w4 + sigma0 w12)) in
  var (a, e) := Round f g h a b c d e (u32 (0xc76c51a3 + w11)) in
  var w12 := u32 (w12 + (sigma1 w10 + w5 + sigma0 w13)) in
  var (h, d) := Round e f g h a b c d (u32 (0xd192e819 + w12)) in
  var w13 := u32 (w13 + (sigma1 w11 + w6 + sigma0 w14)) in
  var (g, c) := Round d e f g h a b c (u32 (0xd6990624 + w13)) in
  var w14 := u32 (w14 + (sigma1 w12 + w7 + sigma0 w15)) in
  var (f, b) := Round c d e f g h a b (u32 (0xf40e3585 + w14)) in
  var w15 := u32 (w15 + (sigma1 w13 + w8 + sigma0 w0)) in
  var (e, a) := Round b c d e f g h a (u32 (0x106aa070 + w15)) in
  var w0 := u32 (w0 + (sigma1 w14 + w9 + sigma0 w1)) in
  var (d, h) := Round a b c d e f g h (u32 (0x19a4c116 + w0)) in
  var w1 := u32 (w1 + (sigma1 w15 + w10 + sigma0 w2)) in
  var (c, g) := Round h a b c d e f g (u32 (0x1e376c08 + w1)) in
  var w2 := u32 (w2 + (sigma1 w0 + w11 + sigma0 w3)) in
  var (b, f) := Round g h a b c d e f (u32 (0x2748774c + w2)) in
  var w3 := u32 (w3 + (sigma1 w1 + w12 + sigma0 w4)) in
  var (a, e) := Round f g h a b c d e (u32 (0x34b0bcb5 + w3)) in
  var w4 := u32 (w4 + (sigma1 w2 + w13 + sigma0 w5)) in
  var (h, d) := Round e f g h a b c d (u32 (0x391c0cb3 + w4)) in
  var w5 := u32 (w5 + (sigma1 w3 + w14 + sigma0 w6)) in
  var (g, c) := Round d e f g h a b c (u32 (0x4ed8aa4a + w5)) in
  var w6 := u32 (w6 + (sigma1 w4 + w15 + sigma0 w7)) in
  var (f, b) := Round c d e f g h a b (u32 (0x5b9cca4f + w6)) in
  var w7 := u32 (w7 + (sigma1 w5 + w0 + sigma0 w8)) in
  var (e, a) := Round b c d e f g h a (u32 (0x682e6ff3 + w7)) in
  var w8 := u32 (w8 + (sigma1 w6 + w1 + sigma0 w9)) in
  var (d, h) := Round a b c d e f g h (u32 (0x748f82ee + w8)) in
  var w9 := u32 (w9 + (sigma1 w7 + w2 + sigma0 w10)) in
  var (c, g) := Round h a b c d e f g (u32 (0x78a5636f + w9)) in
  var w10 := u32 (w10 + (sigma1 w8 + w3 + sigma0 w11)) in
  var (b, f) := Round g h a b c d e f (u32 (0x84c87814 + w10)) in
  var w11 := u32 (w11 + (sigma1 w9 + w4 + sigma0 w12)) in
  var (a, e) := Round f g h a b c d e (u32 (0x8cc70208 + w11)) in
  var w12 := u32 (w12 + (sigma1 w10 + w5 + sigma0 w13)) in
  var (h, d) := Round e f g h a b c d (u32 (0x90befffa + w12)) in
  var w13 := u32 (w13 + (sigma1 w11 + w6 + sigma0 w14)) in
  var (g, c) := Round d e f g h a b c (u32 (0xa4506ceb + w13)) in
  var (f, b) := Round c d e f g h a b (u32 (0xbef9a3f7 + u32 (w14 + sigma1 w12 + w7 + sigma0 w15))) in
  var (e, a) := Round b c d e f g h a (u32 (0xc67178f2 + u32 (w15 + sigma1 w13 + w8 + sigma0 w0))) in
  let '(s0, s1, s2, s3, s4, s5, s6, s7) := s in
  (u32 (s0 + a), u32 (s1 + b), u32 (s2 + c), u32 (s3 + d),
   u32 (s4 + e), u32 (s5 + f), u32 (s6 + g), u32 (s7 + h)).

(** ** The class [CSHA256] *)

Definition write_state (s : regs8) : stream :=
  let '(s0, s1, s2, s3, s4, s5, s6, s7) := s in
  WriteBE32 s0 ++ WriteBE32 s1 ++ WriteBE32 s2 ++ WriteBE32 s3 ++
  WriteBE32 s4 ++ WriteBE32 s5 ++ WriteBE32 s6 ++ WriteBE32 s7.

Definition CSHA256 : Type := hasher regs8.
Definition new (junk : stream) : CSHA256 := hasher_new Initialize junk.
Definition Write (h : CSHA256) (data : stream) : CSHA256 := hasher_Write 64 Transform h data.
Definition Finalize (h : CSHA256) : stream := hasher_Finalize 64 8 Transform WriteBE64 write_state h.
Definition Reset (h : CSHA256) : CSHA256 := hasher_Reset Initialize h.


(** ** The unrolled code and the standard *)

(** The constants of the standard, as numbers. *)
Definition K : list Z := Eval vm_compute in K256.

Lemma K_fips : K256 = K.
Proof. by vm_compute. Qed.
Lemma Initialize_fips : Initialize = H256.
Proof. by vm_compute. Qed.

Lemma u32_add_r x y : u32 (x + u32 y) = u32 (x + y).
Proof. unfold u32. apply Zplus_mod_idemp_r. Qed.
Lemma u32_add_l x y : u32 (u32 x + y) = u32 (x + y).
Proof. unfold u32. apply Zplus_mod_idemp_l. Qed.

Lemma rot_ROTR x n m : n + m = 32 -> rot x n m = ROTR 32 n x.
Proof. intros H. unfold rot, ROTR, u32. by replace (32 - n) with m by lia. Qed.
Lemma Sigma0_fips x : Sigma0 x = sha256_Sigma0 x.
Proof. unfold Sigma0, sha256_Sigma0. by rewrite !rot_ROTR by done. Qed.
Lemma Sigma1_fips x : Sigma1 x = sha256_Sigma1 x.
Proof. unfold Sigma1, sha256_Sigma1. by rewrite !rot_ROTR by done. Qed.
Lemma sigma0_fips x : sigma0 x = sha256_sigma0 x.
Proof. unfold sigma0, sha256_sigma0. by rewrite !rot_ROTR by done. Qed.
Lemma sigma1_fips x : sigma1 x = sha256_sigma1 x.
Proof. unfold sigma1, sha256_sigma1. by rewrite !rot_ROTR by done. Qed.

Abbreviation fips_step := (sha2_step 32 sha256_Sigma0 sha256_Sigma1).
Abbreviation fips_next := (sha2_next 32 sha256_sigma0 sha256_sigma1).

(** A round of the code is a step of the loop of the standard, with the
    registers named one place further on. *)
Lemma Round_step a b c d e f g h k x : forall d' h',
  Round a b c d e f g h (u32 (k + x)) = (d', h') ->
  fips_step (a, b, c, d, e, f, g, h) (k, x) = (h', a, b, c, d', e, f, g).
Proof.
  intros d' h' [= <- <-]. unfold Ch, Maj. rewrite Ch_select, Maj_select, Sigma1_fips, Sigma0_fips.
  unfold sha2_step. cbn [fst snd]. rewrite (u32_add_r _ (k + x)), (Z.add_assoc _ k x). reflexivity.
Qed.

Lemma fold_round a b c d e f g h k kx x ks n win d' h' :
  Round a b c d e f g h kx = (d', h') -> u32 (k + x) = kx ->
  fold_left fips_step (combine (k :: ks) (window fips_next (S n) (x :: win))) (a, b, c, d, e, f, g, h) =
  fold_left fips_step (combine ks (window fips_next n (win ++ [fips_next (x :: win)]))) (h', a, b, c, d', e, f, g).
Proof.
  intros H <-. cbn [window combine fold_left]. by rewrite (Round_step _ _ _ _ _ _ _ _ _ _ _ _ H).
Qed.

(** The new word of the schedule, as the code adds it up. *)
Lemma next_word w0 w1 w2 w3 w4 w5 w6 w7 w8 w9 w10 w11 w12 w13 w14 w15 :
  fips_next [w0; w1; w2; w3; w4; w5; w6; w7; w8; w9; w10; w11; w12; w13; w14; w15] =
  u32 (w0 + (sigma1 w14 + w9 + sigma0 w1)).
Proof. unfold sha2_next, u32. cbn [nth]. rewrite (sigma1_fips w14), (sigma0_fips w1). f_equal. lia. Qed.

Lemma word_assoc x y z t : u32 (x + y + z + t) = u32 (x + (y + z + t)).
Proof. f_equal. lia. Qed.

(** Execute the next statement of the code beside the loop of the standard:
    a word of the schedule is already named there, a round is a step. *)
Ltac name_word :=
  lazymatch goal with
  | |- context [fips_next ?l] =>
      let w := fresh "w" in let Hw := fresh "Hw" in
      remember (fips_next l) as w eqn:Hw; rewrite next_word in Hw
  end.
Ltac known_word X :=
  first [ is_var X | match goal with H : ?v = X |- _ => is_var v; rewrite <- H end ].
Ltac exec_round :=
  let E := fresh "E" in
  apply assign_eq; intros [? ?] E; cbv beta iota;
  rewrite (fold_round _ _ _ _ _ _ _ _ _ _ _ _ _ _ _ _ E) by reflexivity; clear E; cbn [app]; name_word.
Ltac exec_step :=
  lazymatch goal with
  | |- assign (Round _ _ _ _ _ _ _ _ (u32 (_ + u32 (?x + ?y + ?z + ?t)))) _ = _ =>
      rewrite (word_assoc x y z t); known_word constr:(u32 (x + (y + z + t))); exec_round
  | |- assign (Round _ _ _ _ _ _ _ _ _) _ = _ => exec_round
  | |- assign ?X _ = _ => apply assign_eq; intros ? <-; cbv beta; known_word X
  end.

Lemma Transform_fips s chunk : Transform s chunk = sha256_compress s (be_words 4 chunk).
Proof.
  unfold sha256_compress, sha2_compress. rewrite K_fips.
  rewrite schedule_words by done. change (16 + (length K - 16))%nat with 64%nat.
  change (be_words 4 chunk) with
    [ReadBE32 chunk 0; ReadBE32 chunk 4; ReadBE32 chunk 8; ReadBE32 chunk 12;
     ReadBE32 chunk 16; ReadBE32 chunk 20; ReadBE32 chunk 24; ReadBE32 chunk 28;
     ReadBE32 chunk 32; ReadBE32 chunk 36; ReadBE32 chunk 40; ReadBE32 chunk 44;
     ReadBE32 chunk 48; ReadBE32 chunk 52; ReadBE32 chunk 56; ReadBE32 chunk 60].
  destruct s as [[[[[[[a b] c] d] e] f] g] h]. cbv beta iota delta [Transform].
  do 16 (match goal with |- context [ReadBE32 ?p ?o] => generalize (ReadBE32 p o); intros ? end).
  unfold K. do 126 exec_step. reflexivity.
Qed.

(** ** The class computes the hash *)

Lemma be_value_bytes k x : 0 <= x < 2 ^ (8 * Z.of_nat k) -> be_value (be_bytes k x) = x.
Proof. intros H. unfold be_value, be_bytes. rewrite rev_involutive. by apply le_value_bytes. Qed.

Lemma length_WriteBE64 n : length (WriteBE64 n) = 8%nat.
Proof. done. Qed.

Lemma write_state_regs s : write_state s = write_regs8 4 s.
Proof. destruct s as [[[[[[[a b] c] d] e] f] g] h]. unfold write_regs8. cbn [map concat]. by rewrite app_nil_r. Qed.

(** The digest of the class for a message of any length below 2^61 bytes. *)
Lemma digest_sha256 m : 8 * Z.of_nat (length m) < 2 ^ 64 ->
  digest 64 8 Initialize Transform WriteBE64 write_state m = sha256 m.
Proof.
  intros Hm. rewrite (digest_hash 64 8 Initialize (fun H b => sha256_compress H (be_words 4 b)) (be_bytes 8));
    [|lia|lia|intros; apply Transform_fips|done|done].
  unfold sha256, message_hash. by rewrite write_state_regs, Initialize_fips.
Qed.

Lemma CSHA256_streaming junk ds : length junk = 64%nat ->
  Finalize (foldl Write (new junk) ds) = digest 64 8 Initialize Transform WriteBE64 write_state (concat ds).
Proof.
  intros H. apply hasher_streaming; [lia|by exists (2 ^ 58)|done].
Qed.

Lemma CSHA256_hash junk ds : length junk = 64%nat -> 8 * Z.of_nat (length (concat ds)) < 2 ^ 64 ->
  Finalize (foldl Write (new junk) ds) = sha256 (concat ds).
Proof. intros H Hm. rewrite CSHA256_streaming by done. by apply digest_sha256. Qed.

Lemma length_write_state s : length (write_state s) = 32%nat.
Proof. by destruct s as [[[[[[[a b] c] d] e] f] g] h]. Qed.

Lemma length_sha256 m : length (sha256 m) = 32%nat.
Proof. unfold sha256, message_hash. by rewrite <- write_state_regs, length_write_state. Qed.

End SHA256.
