(* ===== verification/Sha256D64.v ===== *)
(** [TransformD64] and [SHA256D64] ([crypto/sha256.cpp]): the double hash of
    64-byte inputs, with the schedules of the two padding blocks folded into
    constants, equals hashing twice with [CSHA256]. *)

From stdpp Require Import prelude.
From Stdlib Require Import ZArith Lia.
From S2P Require Import Prelude Serialize Hasher Fips180 Sha256.
Import SHA256.

Open Scope Z_scope.

(** [TransformD64], transform 1: the block itself. *)
Definition TransformD64_1 (chunk : stream) : regs8 :=
  let '(a, b, c, d, e, f, g, h) := Initialize in
  var w0 := ReadBE32 chunk 0 in
  var (d, h) := Round a b c d e f g h (u32 (0x428a2f98 + w0)) in
  var w1 := ReadBE32 chunk 4 in
  var (c, g) := Round h a b c d e f g (u32 (0x71374491 + w1)) in
  var w2 := ReadBE32 chunk 8 in
  var (b, f) := Round g h a b c d e f (u32 (0xb5c0fbcf + w2)) in
  var w3 := ReadBE32 chunk 12 in
  var (a, e) := Round f g h a b c d e (u32 (0xe9b5dba5 + w3)) in
  var w4 := ReadBE32 chunk 16 in
  var (h, d) := Round e f g h a b c d (u32 (0x3956c25b + w4)) in
  var w5 := ReadBE32 chunk 20 in
  var (g, c) := Round d e f g h a b c (u32 (0x59f111f1 + w5)) in
  var w6 := ReadBE32 chunk 24 in
  var (f, b) := Round c d e f g h a b (u32 (0x923f82a4 + w6)) in
  var w7 := ReadBE32 chunk 28 in
  var (e, a) := Round b c d e f g h a (u32 (0xab1c5ed5 + w7)) in
  var w8 := ReadBE32 chunk 32 in
  var (d, h) := Round a b c d e f g h (u32 (0xd807aa98 + w8)) in
  var w9 := ReadBE32 chunk 36 in
  var (c, g) := Round h a b c d e f g (u32 (0x12835b01 + w9)) in
  var w10 := ReadBE32 chunk 40 in
  var (b, f) := Round g h a b c d e f (u32 (0x243185be + w10)) in
  var w11 := ReadBE32 chunk 44 in
  var (a, e) := Round f g h a b c d e (u32 (0x550c7dc3 + w11)) in
  var w12 := ReadBE32 chunk 48 in
  var (h, d) := Round e f g h a b c d (u32 (0x72be5d74 + w12)) in
  var w13 := ReadBE32 chunk 52 in
  var (g, c) := Round d e f g h a b c (u32 (0x80deb1fe + w13)) in
  var w14 := ReadBE32 chunk 56 in
  var (f, b) := Round c d e f g h a b (u32 (0x9bdc06a7 + w14)) in
  var w15 := ReadBE32 chunk 60 in
  var (e, a) := Round b c d e f g h a (u32 (0xc19bf174 + w15)) in
  var w0 := u32 (w0 + (sigma1 w14 + w9 + sigma0 w1)) in
  var (d, h) := Round a b c d e f g h (u32 (0xe49b69c1 + w0)) in
  var w1 := u32 (w1 + (sigma1 w15 + w10 + sigma0 w2)) in
  var (c, g) := Round h a b c d e f g (u32 (0xefbe4786 + w1)) in
  var w2 := u32 (w2 + (sigma1 w0 + w11 + sigma0 w3)) in
  var (b, f) := Round g h a b c d e f (u32 (0x0fc19dc6 + w2)) in
  var w3 := u32 (w3 + (sigma1 w1 + w12 + sigma0 w4)) in
  var (a, e) := Round f g h a b c d e (u32 (0x240ca1cc + w3)) in
  var w4 := u32 (w4 + (sigma1 w2 + w13 + sigma0 w5)) in
  var (h, d) := Round e f g h a b c d (u32 (0x2de92c6f + w4)) in
  var w5 := u32 (w5 + (sigma1 w3 + w14 + sigma0 w6)) in
  var (g, c) := Round d e f g h a b c (u32 (0x4a7484aa + w5)) in
  var w6 := u32 (w6 + (sigma1 w4 + w15 + sigma0 w7)) in
  var (f, b) := Round c d e f g h a b (u32 (0x5cb0a9dc + w6)) in
  var w7 := u32 (w7 + (sigma1 w5 + w0 + sigma0 w8)) in
  var (e, a) := Round b c d e f g h a (u32 (0x76f988da + w7)) in
  var w8 := u32 (w8 + (sigma1 w6 + w1 + sigma0 w9)) in
  var (d, h) := Round a b c d e f g h (u32 (0x983e5152 + w8)) in
  var w9 := u32 (w9 + (sigma1 w7 + w2 + sigma0 w10)) in
  var (c, g) := Round h a b c d e f g (u32 (0xa831c66d + w9)) in
  var w10 := u32 (w10 + (sigma1 w8 + w3 + sigma0 w11)) in
  var (b, f) := Round g h a b c d e f (u32 (0xb00327c8 + w10)) in
  var w11 := u32 (w11 + (sigma1 w9 + w4 + sigma0 w12)) in
  var (a, e) := Round f g h a b c d e (u32 (0xbf597fc7 + w11)) in
  var w12 := u32 (w12 + (sigma1 w10 + w5 + sigma0 w13)) in
  var (h, d) := Round e f g h a b c d (u32 (0xc6e00bf3 + w12)) in
  var w13 := u32 (w13 + (sigma1 w11 + w6 + sigma0 w14)) in
  var (g, c) := Round d e f g h a b c (u32 (0xd5a79147 + w13)) in
  var w14 := u32 (w14 + (sigma1 w12 + w7 + sigma0 w15)) in
  var (f, b) := Round c d e f g h a b (u32 (0x06ca6351 + w14)) in
  var w15 := u32 (w15 + (sigma1 w13 + w8 + sigma0 w0)) in
  var (e, a) := Round b c d e f g h a (u32 (0x14292967 + w15)) in
  var w0 := u32 (w0 + (sigma1 w14 + w9 + sigma0 w1)) in
  var (d, h) := Round a b c d e f g h (u32 (0x27b70a85 + w0)) in
  var w1 := u32 (w1 + (sigma1 w15 + w10 + sigma0 w2)) in
  var (c, g) := Round h a b c d e f g (u32 (0x2e1b2138 + w1)) in
  var w2 := u32 (w2 + (sigma1 w0 + w11 + sigma0 w3)) in
  var (b, f) := Round g h a b c d e f (u32 (0x4d2c6dfc + w2)) in
  var w3 := u32 (w3 + (sigma1 w1 + w12 + sigma0 w4)) in
  var (a, e) := Round f g h a b c d e (u32 (0x53380d13 + w3)) in
  var w4 := u32 (w4 + (sigma1 w2 + w13 + sigma0 w5)) in
  var (h, d) := Round e f g h a b c d (u32 (0x650a7354 + w4)) in
  var w5 := u32 (w5 + (sigma1 w3 + w14 + sigma0 w6)) in
  var (g, c) := Round d e f g h a b c (u32 (0x766a0abb + w5)) in
  var w6 := u32 (w6 + (sigma1 w4 + w15 + sigma0 w7)) in
  var (f, b) := Round c d e f g h a b (u32 (0x81c2c92e + w6)) in
  var w7 := u32 (w7 + (sigma1 w5 + w0 + sigma0 w8)) in
  var (e, a) := Round b c d e f g h a (u32 (0x92722c85 + w7)) in
  var w8 := u32 (w8 + (sigma1 w6 + w1 + sigma0 w9)) in
  var (d, h) := Round a b c d e f g h (u32 (0xa2bfe8a1 + w8)) in
  var w9 := u32 (w9 + (sigma1 w7 + w2 + sigma0 w10)) in
  var (c, g) := Round h a b c d e f g (u32 (0xa81a664b + w9)) in
  var w10 := u32 (w10 + (sigma1 w8 + w3 + sigma0 w11)) in
  var (b, f) := Round g h a b c d e f (u32 (0xc24b8b70 + w10)) in
  var w11 := u32 (w11 + (sigma1 w9 + w4 + sigma0 w12)) in
  var (a, e) := Round f g h a b c d e (u32 (0xc76c51a3 + w11)) in
  var w12 := u32 (w12 + (sigma1 w10 + w5 + sigma0 w13)) in
  var (h, d) := Round e f g h a b c d (u32 (0xd192e819 + w12)) in
  var w13 := u32 (w13 + (sigma1 w11 + w6 + sigma0 w14)) in
  var (g, c) := Round d e f g h a b c (u32 (0xd6990624 + w13)) in
  var w14 := u32 (w14 + (sigma1 w12 + w7 + sigma0 w15)) in
  var (f, b) := Round c d e f g h a b (u32 (0xf40e3585 + w14)) in
  var w15 := u32 (w15 + (sigma1 w13 + w8 + sigma0 w0)) in
  var (e, a) := Round b c d e f g h a (u32 (0x106aa070 + w15)) in
  var w0 := u32 (w0 + (sigma1 w14 + w9 + sigma0 w1)) in
  var (d, h) := Round a b c d e f g h (u32 (0x19a4c116 + w0)) in
  var w1 := u32 (w1 + (sigma1 w15 + w10 + sigma0 w2)) in
  var (c, g) := Round h a b c d e f g (u32 (0x1e376c08 + w1)) in
  var w2 := u32 (w2 + (sigma1 w0 + w11 + sigma0 w3)) in
  var (b, f) := Round g h a b c d e f (u32 (0x2748774c + w2)) in
  var w3 := u32 (w3 + (sigma1 w1 + w12 + sigma0 w4)) in
  var (a, e) := Round f g h a b c d e (u32 (0x34b0bcb5 + w3)) in
  var w4 := u32 (w4 + (sigma1 w2 + w13 + sigma0 w5)) in
  var (h, d) := Round e f g h a b c d (u32 (0x391c0cb3 + w4)) in
  var w5 := u32 (w5 + (sigma1 w3 + w14 + sigma0 w6)) in
  var (g, c) := Round d e f g h a b c (u32 (0x4ed8aa4a + w5)) in
  var w6 := u32 (w6 + (sigma1 w4 + w15 + sigma0 w7)) in
  var (f, b) := Round c d e f g h a b (u32 (0x5b9cca4f + w6)) in
  var w7 := u32 (w7 + (sigma1 w5 + w0 + sigma0 w8)) in
  var (e, a) := Round b c d e f g h a (u32 (0x682e6ff3 + w7)) in
  var w8 := u32 (w8 + (sigma1 w6 + w1 + sigma0 w9)) in
  var (d, h) := Round a b c d e f g h (u32 (0x748f82ee + w8)) in
  var w9 := u32 (w9 + (sigma1 w7 + w2 + sigma0 w10)) in
  var (c, g) := Round h a b c d e f g (u32 (0x78a5636f + w9)) in
  var w10 := u32 (w10 + (sigma1 w8 + w3 + sigma0 w11)) in
  var (b, f) := Round g h a b c d e f (u32 (0x84c87814 + w10)) in
  var w11 := u32 (w11 + (sigma1 w9 + w4 + sigma0 w12)) in
  var (a, e) := Round f g h a b c d e (u32 (0x8cc70208 + w11)) in
  var w12 := u32 (w12 + (sigma1 w10 + w5 + sigma0 w13)) in
  var (h, d) := Round e f g h a b c d (u32 (0x90befffa + w12)) in
  var w13 := u32 (w13 + (sigma1 w11 + w6 + sigma0 w14)) in
  var (g, c) := Round d e f g h a b c (u32 (0xa4506ceb + w13)) in
  var (f, b) := Round c d e f g h a b (u32 (0xbef9a3f7 + u32 (w14 + sigma1 w12 + w7 + sigma0 w15))) in
  var (e, a) := Round b c d e f g h a (u32 (0xc67178f2 + u32 (w15 + sigma1 w13 + w8 + sigma0 w0))) in
  (u32 (a + 0x6a09e667), u32 (b + 0xbb67ae85), u32 (c + 0x3c6ef372), u32 (d + 0xa54ff53a),
   u32 (e + 0x510e527f), u32 (f + 0x9b05688c), u32 (g + 0x1f83d9ab), u32 (h + 0x5be0cd19)).

(** Transform 2: the padding block of a 64-byte message, its schedule added to
    the constants. *)
Definition TransformD64_2 (t : regs8) : regs8 :=
  let '(a, b, c, d, e, f, g, h) := t in
  var (d, h) := Round a b c d e f g h 0xc28a2f98 in
  var (c, g) := Round h a b c d e f g 0x71374491 in
  var (b, f) := Round g h a b c d e f 0xb5c0fbcf in
  var (a, e) := Round f g h a b c d e 0xe9b5dba5 in
  var (h, d) := Round e f g h a b c d 0x3956c25b in
  var (g, c) := Round d e f g h a b c 0x59f111f1 in
  var (f, b) := Round c d e f g h a b 0x923f82a4 in
  var (e, a) := Round b c d e f g h a 0xab1c5ed5 in
  var (d, h) := Round a b c d e f g h 0xd807aa98 in
  var (c, g) := Round h a b c d e f g 0x12835b01 in
  var (b, f) := Round g h a b c d e f 0x243185be in
  var (a, e) := Round f g h a b c d e 0x550c7dc3 in
  var (h, d) := Round e f g h a b c d 0x72be5d74 in
  var (g, c) := Round d e f g h a b c 0x80deb1fe in
  var (f, b) := Round c d e f g h a b 0x9bdc06a7 in
  var (e, a) := Round b c d e f g h a 0xc19bf374 in
  var (d, h) := Round a b c d e f g h 0x649b69c1 in
  var (c, g) := Round h a b c d e f g 0xf0fe4786 in
  var (b, f) := Round g h a b c d e f 0x0fe1edc6 in
  var (a, e) := Round f g h a b c d e 0x240cf254 in
  var (h, d) := Round e f g h a b c d 0x4fe9346f in
  var (g, c) := Round d e f g h a b c 0x6cc984be in
  var (f, b) := Round c d e f g h a b 0x61b9411e in
  var (e, a) := Round b c d e f g h a 0x16f988fa in
  var (d, h) := Round a b c d e f g h 0xf2c65152 in
  var (c, g) := Round h a b c d e f g 0xa88e5a6d in
  var (b, f) := Round g h a b c d e f 0xb019fc65 in
  var (a, e) := Round f g h a b c d e 0xb9d99ec7 in
  var (h, d) := Round e f g h a b c d 0x9a1231c3 in
  var (g, c) := Round d e f g h a b c 0xe70eeaa0 in
  var (f, b) := Round c d e f g h a b 0xfdb1232b in
  var (e, a) := Round b c d e f g h a 0xc7353eb0 in
  var (d, h) := Round a b c d e f g h 0x3069bad5 in
  var (c, g) := Round h a b c d e f g 0xcb976d5f in
  var (b, f) := Round g h a b c d e f 0x5a0f118f in
  var (a, e) := Round f g h a b c d e 0xdc1eeefd in
  var (h, d) := Round e f g h a b c d 0x0a35b689 in
  var (g, c) := Round d e f g h a b c 0xde0b7a04 in
  var (f, b) := Round c d e f g h a b 0x58f4ca9d in
  var (e, a) := Round b c d e f g h a 0xe15d5b16 in
  var (d, h) := Round a b c d e f g h 0x007f3e86 in
  var (c, g) := Round h a b c d e f g 0x37088980 in
  var (b, f) := Round g h a b c d e f 0xa507ea32 in
  var (a, e) := Round f g h a b c d e 0x6fab9537 in
  var (h, d) := Round e f g h a b c d 0x17406110 in
  var (g, c) := Round d e f g h a b c 0x0d8cd6f1 in
  var (f, b) := Round c d e f g h a b 0xcdaa3b6d in
  var (e, a) := Round b c d e f g h a 0xc0bbbe37 in
  var (d, h) := Round a b c d e f g h 0x83613bda in
  var (c, g) := Round h a b c d e f g 0xdb48a363 in
  var (b, f) := Round g h a b c d e f 0x0b02e931 in
  var (a, e) := Round f g h a b c d e 0x6fd15ca7 in
  var (h, d) := Round e f g h a b c d 0x521afaca in
  var (g, c) := Round d e f g h a b c 0x31338431 in
  var (f, b) := Round c d e f g h a b 0x6ed41a95 in
  var (e, a) := Round b c d e f g h a 0x6d437890 in
  var (d, h) := Round a b c d e f g h 0xc39c91f2 in
  var (c, g) := Round h a b c d e f g 0x9eccabbd in
  var (b, f) := Round g h a b c d e f 0xb5c9a0e6 in
  var (a, e) := Round f g h a b c d e 0x532fb63c in
  var (h, d) := Round e f g h a b c d 0xd2c741c6 in
  var (g, c) := Round d e f g h a b c 0x07237ea3 in
  var (f, b) := Round c d e f g h a b 0xa4954b68 in
  var (e, a) := Round b c d e f g h a 0x4c191d76 in
  let '(t0, t1, t2, t3, t4, t5, t6, t7) := t in
  (u32 (t0 + a), u32 (t1 + b), u32 (t2 + c), u32 (t3 + d),
   u32 (t4 + e), u32 (t5 + f), u32 (t6 + g), u32 (t7 + h)).

(** Transform 3: the 32-byte hash and its padding, the constant words folded in. *)
Definition TransformD64_3 (w : regs8) : regs8 :=
  let '(w0, w1, w2, w3, w4, w5, w6, w7) := w in
  let '(a, b, c, d, e, f, g, h) := Initialize in
  var (d, h) := Round a b c d e f g h (u32 (0x428a2f98 + w0)) in
  var (c, g) := Round h a b c d e f g (u32 (0x71374491 + w1)) in
  var (b, f) := Round g h a b c d e f (u32 (0xb5c0fbcf + w2)) in
  var (a, e) := Round f g h a b c d e (u32 (0xe9b5dba5 + w3)) in
  var (h, d) := Round e f g h a b c d (u32 (0x3956c25b + w4)) in
  var (g, c) := Round d e f g h a b c (u32 (0x59f111f1 + w5)) in
  var (f, b) := Round c d e f g h a b (u32 (0x923f82a4 + w6)) in
  var (e, a) := Round b c d e f g h a (u32 (0xab1c5ed5 + w7)) in
  var (d, h) := Round a b c d e f g h 0x5807aa98 in
  var (c, g) := Round h a b c d e f g 0x12835b01 in
  var (b, f) := Round g h a b c d e f 0x243185be in
  var (a, e) := Round f g h a b c d e 0x550c7dc3 in
  var (h, d) := Round e f g h a b c d 0x72be5d74 in
  var (g, c) := Round d e f g h a b c 0x80deb1fe in
  var (f, b) := Round c d e f g h a b 0x9bdc06a7 in
  var (e, a) := Round b c d e f g h a 0xc19bf274 in
  var w0 := u32 (w0 + (sigma0 w1)) in
  var (d, h) := Round a b c d e f g h (u32 (0xe49b69c1 + w0)) in
  var w1 := u32 (w1 + (0xa00000 + sigma0 w2)) in
  var (c, g) := Round h a b c d e f g (u32 (0xefbe4786 + w1)) in
  var w2 := u32 (w2 + (sigma1 w0 + sigma0 w3)) in
  var (b, f) := Round g h a b c d e f (u32 (0x0fc19dc6 + w2)) in
  var w3 := u32 (w3 + (sigma1 w1 + sigma0 w4)) in
  var (a, e) := Round f g h a b c d e (u32 (0x240ca1cc + w3)) in
  var w4 := u32 (w4 + (sigma1 w2 + sigma0 w5)) in
  var (h, d) := Round e f g h a b c d (u32 (0x2de92c6f + w4)) in
  var w5 := u32 (w5 + (sigma1 w3 + sigma0 w6)) in
  var (g, c) := Round d e f g h a b c (u32 (0x4a7484aa + w5)) in
  var w6 := u32 (w6 + (sigma1 w4 + 0x100 + sigma0 w7)) in
  var (f, b) := Round c d e f g h a b (u32 (0x5cb0a9dc + w6)) in
  var w7 := u32 (w7 + (sigma1 w5 + w0 + 0x11002000)) in
  var (e, a) := Round b c d e f g h a (u32 (0x76f988da + w7)) in
  var w8 := u32 (0x80000000 + sigma1 w6 + w1) in
  var (d, h) := Round a b c d e f g h (u32 (0x983e5152 + w8)) in
  var w9 := u32 (sigma1 w7 + w2) in
  var (c, g) := Round h a b c d e f g (u32 (0xa831c66d + w9)) in
  var w10 := u32 (sigma1 w8 + w3) in
  var (b, f) := Round g h a b c d e f (u32 (0xb00327c8 + w10)) in
  var w11 := u32 (sigma1 w9 + w4) in
  var (a, e) := Round f g h a b c d e (u32 (0xbf597fc7 + w11)) in
  var w12 := u32 (sigma1 w10 + w5) in
  var (h, d) := Round e f g h a b c d (u32 (0xc6e00bf3 + w12)) in
  var w13 := u32 (sigma1 w11 + w6) in
  var (g, c) := Round d e f g h a b c (u32 (0xd5a79147 + w13)) in
  var w14 := u32 (sigma1 w12 + w7 + 0x400022) in
  var (f, b) := Round c d e f g h a b (u32 (0x06ca6351 + w14)) in
  var w15 := u32 (0x100 + sigma1 w13 + w8 + sigma0 w0) in
  var (e, a) := Round b c d e f g h a (u32 (0x14292967 + w15)) in
  var w0 := u32 (w0 + (sigma1 w14 + w9 + sigma0 w1)) in
  var (d, h) := Round a b c d e f g h (u32 (0x27b70a85 + w0)) in
  var w1 := u32 (w1 + (sigma1 w15 + w10 + sigma0 w2)) in
  var (c, g) := Round h a b c d e f g (u32 (0x2e1b2138 + w1)) in
  var w2 := u32 (w2 + (sigma1 w0 + w11 + sigma0 w3)) in
  var (b, f) := Round g h a b c d e f (u32 (0x4d2c6dfc + w2)) in
  var w3 := u32 (w3 + (sigma1 w1 + w12 + sigma0 w4)) in
  var (a, e) := Round f g h a b c d e (u32 (0x53380d13 + w3)) in
  var w4 := u32 (w4 + (sigma1 w2 + w13 + sigma0 w5)) in
  var (h, d) := Round e f g h a b c d (u32 (0x650a7354 + w4)) in
  var w5 := u32 (w5 + (sigma1 w3 + w14 + sigma0 w6)) in
  var (g, c) := Round d e f g h a b c (u32 (0x766a0abb + w5)) in
  var w6 := u32 (w6 + (sigma1 w4 + w15 + sigma0 w7)) in
  var (f, b) := Round c d e f g h a b (u32 (0x81c2c92e + w6)) in
  var w7 := u32 (w7 + (sigma1 w5 + w0 + sigma0 w8)) in
  var (e, a) := Round b c d e f g h a (u32 (0x92722c85 + w7)) in
  var w8 := u32 (w8 + (sigma1 w6 + w1 + sigma0 w9)) in
  var (d, h) := Round a b c d e f g h (u32 (0xa2bfe8a1 + w8)) in
  var w9 := u32 (w9 + (sigma1 w7 + w2 + sigma0 w10)) in
  var (c, g) := Round h a b c d e f g (u32 (0xa81a664b + w9)) in
  var w10 := u32 (w10 + (sigma1 w8 + w3 + sigma0 w11)) in
  var (b, f) := Round g h a b c d e f (u32 (0xc24b8b70 + w10)) in
  var w11 := u32 (w11 + (sigma1 w9 + w4 + sigma0 w12)) in
  var (a, e) := Round f g h a b c d e (u32 (0xc76c51a3 + w11)) in
  var w12 := u32 (w12 + (sigma1 w10 + w5 + sigma0 w13)) in
  var (h, d) := Round e f g h a b c d (u32 (0xd192e819 + w12)) in
  var w13 := u32 (w13 + (sigma1 w11 + w6 + sigma0 w14)) in
  var (g, c) := Round d e f g h a b c (u32 (0xd6990624 + w13)) in
  var w14 := u32 (w14 + (sigma1 w12 + w7 + sigma0 w15)) in
  var (f, b) := Round c d e f g h a b (u32 (0xf40e3585 + w14)) in
  var w15 := u32 (w15 + (sigma1 w13 + w8 + sigma0 w0)) in
  var (e, a) := Round b c d e f g h a (u32 (0x106aa070 + w15)) in
  var w0 := u32 (w0 + (sigma1 w14 + w9 + sigma0 w1)) in
  var (d, h) := Round a b c d e f g h (u32 (0x19a4c116 + w0)) in
  var w1 := u32 (w1 + (sigma1 w15 + w10 + sigma0 w2)) in
  var (c, g) := Round h a b c d e f g (u32 (0x1e376c08 + w1)) in
  var w2 := u32 (w2 + (sigma1 w0 + w11 + sigma0 w3)) in
  var (b, f) := Round g h a b c d e f (u32 (0x2748774c + w2)) in
  var w3 := u32 (w3 + (sigma1 w1 + w12 + sigma0 w4)) in
  var (a, e) := Round f g h a b c d e (u32 (0x34b0bcb5 + w3)) in
  var w4 := u32 (w4 + (sigma1 w2 + w13 + sigma0 w5)) in
  var (h, d) := Round e f g h a b c d (u32 (0x391c0cb3 + w4)) in
  var w5 := u32 (w5 + (sigma1 w3 + w14 + sigma0 w6)) in
  var (g, c) := Round d e f g h a b c (u32 (0x4ed8aa4a + w5)) in
  var w6 := u32 (w6 + (sigma1 w4 + w15 + sigma0 w7)) in
  var (f, b) := Round c d e f g h a b (u32 (0x5b9cca4f + w6)) in
  var w7 := u32 (w7 + (sigma1 w5 + w0 + sigma0 w8)) in
  var (e, a) := Round b c d e f g h a (u32 (0x682e6ff3 + w7)) in
  var w8 := u32 (w8 + (sigma1 w6 + w1 + sigma0 w9)) in
  var (d, h) := Round a b c d e f g h (u32 (0x748f82ee + w8)) in
  var w9 := u32 (w9 + (sigma1 w7 + w2 + sigma0 w10)) in
  var (c, g) := Round h a b c d e f g (u32 (0x78a5636f + w9)) in
  var w10 := u32 (w10 + (sigma1 w8 + w3 + sigma0 w11)) in
  var (b, f) := Round g h a b c d e f (u32 (0x84c87814 + w10)) in
  var w11 := u32 (w11 + (sigma1 w9 + w4 + sigma0 w12)) in
  var (a, e) := Round f g h a b c d e (u32 (0x8cc70208 + w11)) in
  var w12 := u32 (w12 + (sigma1 w10 + w5 + sigma0 w13)) in
  var (h, d) := Round e f g h a b c d (u32 (0x90befffa + w12)) in
  var w13 := u32 (w13 + (sigma1 w11 + w6 + sigma0 w14)) in
  var (g, c) := Round d e f g h a b c (u32 (0xa4506ceb + w13)) in
  var (f, b) := Round c d e f g h a b (u32 (0xbef9a3f7 + u32 (w14 + sigma1 w12 + w7 + sigma0 w15))) in
  var (e, a) := Round b c d e f g h a (u32 (0xc67178f2 + u32 (w15 + sigma1 w13 + w8 + sigma0 w0))) in
  (u32 (a + 0x6a09e667), u32 (b + 0xbb67ae85), u32 (c + 0x3c6ef372), u32 (d + 0xa54ff53a),
   u32 (e + 0x510e527f), u32 (f + 0x9b05688c), u32 (g + 0x1f83d9ab), u32 (h + 0x5be0cd19)).
(** [TransformD64]: the three transforms and the output. *)
Definition TransformD64 (chunk : stream) : stream :=
  write_state (TransformD64_3 (TransformD64_2 (TransformD64_1 chunk))).

(** [TransformD64Wrapper<tr>]: the same from a plain transform. *)
Definition padding1 : stream := 0x80 :: replicate 61 0 ++ [2; 0].
Definition buffer2 (s : regs8) : stream := write_state s ++ 0x80 :: replicate 29 0 ++ [1; 0].
Definition TransformD64Wrapper (tr : regs8 -> stream -> regs8) (chunk : stream) : stream :=
  let s := tr (tr Initialize chunk) padding1 in
  write_state (tr Initialize (buffer2 s)).

(** The implementations [SHA256AutoDetect] selects; a multi-way transform may be absent. *)
Record sha256_impl := {
  impl_D64 : stream -> stream;
  impl_2way : option (stream -> stream);
  impl_4way : option (stream -> stream);
  impl_8way : option (stream -> stream)
}.

(** Before detection: the portable code alone. *)
Definition standard_impl : sha256_impl :=
  {| impl_D64 := TransformD64; impl_2way := None; impl_4way := None; impl_8way := None |}.

(** [while (blocks >= k) { f(out, in); out += 32 * k; in += 64 * k; blocks -= k; }] *)
Fixpoint ways_loop (k : nat) (f : stream -> stream) (fuel : nat) (out inp : stream) (blocks : nat)
  : stream * stream * nat :=
  match fuel with
  | O => (out, inp, blocks)
  | S fuel' =>
      if (k <=? blocks)%nat
      then ways_loop k f fuel' (out ++ f (take (64 * k) inp)) (drop (64 * k) inp) (blocks - k)
      else (out, inp, blocks)
  end.
Definition if_present (k : nat) (f : option (stream -> stream)) (st : stream * stream * nat) : stream * stream * nat :=
  match f with
  | Some f => let '(out, inp, blocks) := st in ways_loop k f blocks out inp blocks
  | None => st
  end.
Definition SHA256D64 (impl : sha256_impl) (inp : stream) (blocks : nat) : stream :=
  (if_present 1 (Some (impl_D64 impl))
    (if_present 2 (impl_2way impl)
      (if_present 4 (impl_4way impl)
        (if_present 8 (impl_8way impl) ([], inp, blocks))))).1.1.


Lemma assign_congr {A B : Type} (e : A) (k k' : A -> B) :
  (forall x, k x = k' x) -> assign e k = assign e k'.
Proof. intros H. apply H. Qed.

Lemma add_Initialize a b c d e f g h :
  (u32 (a + 0x6a09e667), u32 (b + 0xbb67ae85), u32 (c + 0x3c6ef372), u32 (d + 0xa54ff53a),
   u32 (e + 0x510e527f), u32 (f + 0x9b05688c), u32 (g + 0x1f83d9ab), u32 (h + 0x5be0cd19)) =
  sha2_add 32 Initialize (a, b, c, d, e, f, g, h).
Proof.
  unfold sha2_add, Initialize, u32. rewrite (Z.add_comm a), (Z.add_comm b), (Z.add_comm c), (Z.add_comm d).
  by rewrite (Z.add_comm e), (Z.add_comm f), (Z.add_comm g), (Z.add_comm h).
Qed.

(** Transform 1 is [Transform] from the initial state. *)
Lemma TransformD64_1_eq chunk : TransformD64_1 chunk = Transform Initialize chunk.
Proof.
  cbv beta iota delta [TransformD64_1 Transform Initialize].
  repeat (apply assign_congr; first [intros [? ?]|intros ?]; cbv beta iota).
  rewrite add_Initialize. reflexivity.
Qed.

(** The words of the padding block of a 64-byte message. *)
Definition pad64_words : list Z := 0x80000000 :: replicate 14 0 ++ [0x200].

Lemma fold_round_const a b c d e f g h k x kx l d' h' :
  Round a b c d e f g h kx = (d', h') -> u32 (k + x) = kx ->
  fold_left fips_step ((k, x) :: l) (a, b, c, d, e, f, g, h) =
  fold_left fips_step l (h', a, b, c, d', e, f, g).
Proof. intros H <-. cbn [fold_left]. by rewrite (Round_step _ _ _ _ _ _ _ _ _ _ _ _ H). Qed.

(** Transform 2 is the block of padding: the constants are those of the standard
    plus the schedule of that block. *)
Lemma TransformD64_2_eq t : TransformD64_2 t = sha256_compress t pad64_words.
Proof.
  unfold sha256_compress, sha2_compress. rewrite K_fips.
  let l := eval vm_compute in (combine K (schedule fips_next (length K - 16) pad64_words)) in
  replace (combine K _) with l by (by vm_compute).
  destruct t as [[[[[[[a b] c] d] e] f] g] h]. cbv beta iota delta [TransformD64_2].
  do 64 (let E := fresh "E" in apply assign_eq; intros [? ?] E; cbv beta iota;
         rewrite (fold_round_const _ _ _ _ _ _ _ _ _ _ _ _ _ _ E) by reflexivity; clear E).
  reflexivity.
Qed.

(** The words of a 32-byte message and its padding. *)
Definition pad32_words (w : regs8) : list Z :=
  let '(w0, w1, w2, w3, w4, w5, w6, w7) := w in
  [w0; w1; w2; w3; w4; w5; w6; w7; 0x80000000; 0; 0; 0; 0; 0; 0; 0x100].

(** The code leaves out the words that are zero and has the other constant words computed. *)
Lemma sigma1_0 : sigma1 0 = 0.
Proof. done. Qed.
Lemma sigma0_0 : sigma0 0 = 0.
Proof. done. Qed.
Lemma sigma1_length : sigma1 0x100 = 0xa00000.
Proof. done. Qed.
Lemma sigma0_length : sigma0 0x100 = 0x400022.
Proof. done. Qed.
Lemma sigma0_pad : sigma0 0x80000000 = 0x11002000.
Proof. done. Qed.
Ltac folded_word :=
  match goal with
  | |- context [window _ _ (?v :: _)] =>
      match goal with H : v = ?Y |- _ =>
        apply (assign_as v);
        [ rewrite H, ?sigma1_0, ?sigma0_0, ?sigma1_length, ?sigma0_length, ?sigma0_pad;
          apply (f_equal u32); clear; lia
        | cbv beta ]
      end
  end.
Ltac exec_step_D64 :=
  lazymatch goal with
  | |- assign (Round _ _ _ _ _ _ _ _ (u32 (_ + u32 (?x + ?y + ?z + ?t)))) _ = _ =>
      rewrite (word_assoc x y z t); known_word constr:(u32 (x + (y + z + t))); exec_round
  | |- assign (Round _ _ _ _ _ _ _ _ _) _ = _ => exec_round
  | |- assign ?X _ = _ => first [apply assign_eq; intros ? <-; cbv beta; known_word X|folded_word]
  end.

Lemma TransformD64_3_eq w : TransformD64_3 w = sha256_compress Initialize (pad32_words w).
Proof.
  destruct w as [[[[[[[w0 w1] w2] w3] w4] w5] w6] w7].
  unfold sha256_compress, sha2_compress. rewrite K_fips.
  rewrite schedule_words by done. change (16 + (length K - 16))%nat with 64%nat.
  cbv beta iota delta [TransformD64_3 pad32_words Initialize].
  unfold K. do 110 exec_step_D64. rewrite add_Initialize. reflexivity.
Qed.

(** ** Double hashes of 64-byte inputs *)

Definition regs_ok (s : regs8) : Prop :=
  let '(a, b, c, d, e, f, g, h) := s in Forall is_u32 [a; b; c; d; e; f; g; h].

Lemma compress_regs_ok s M : regs_ok (sha256_compress s M).
Proof.
  unfold sha256_compress, sha2_compress. destruct s as [[[[[[[a b] c] d] e] f] g] h].
  destruct (fold_left _ _ _) as [[[[[[[a' b'] c'] d'] e'] f'] g'] h']. simpl.
  repeat apply Forall_cons_2; try apply Forall_nil_2; apply u32_range.
Qed.

Lemma buffer2_words s : regs_ok s -> be_words 4 (buffer2 s) = pad32_words s.
Proof.
  destruct s as [[[[[[[a b] c] d] e] f] g] h]. simpl. rewrite !Forall_cons.
  intros (Ha & Hb & Hc & Hd & He & Hf & Hg & Hh & _).
  change (be_words 4 (buffer2 (a, b, c, d, e, f, g, h))) with
    (map be_value [be_bytes 4 a; be_bytes 4 b; be_bytes 4 c; be_bytes 4 d;
                   be_bytes 4 e; be_bytes 4 f; be_bytes 4 g; be_bytes 4 h] ++
     [0x80000000; 0; 0; 0; 0; 0; 0; 0x100]).
  cbn [map app]. unfold is_u32 in *. by rewrite !be_value_bytes by (simpl; lia).
Qed.

Lemma padding1_words : be_words 4 padding1 = pad64_words.
Proof. by vm_compute. Qed.

(** The digests of messages of 64 and of 32 bytes. *)
Lemma digest_64 m : length m = 64%nat ->
  digest 64 8 Initialize Transform WriteBE64 write_state m = write_state (Transform (Transform Initialize m) padding1).
Proof.
  intros Hm. unfold digest. f_equal.
  assert (Hp : padding 64 8 WriteBE64 m = padding1) by (unfold padding; rewrite Hm; by vm_compute).
  rewrite Hp. change (absorb 64 Transform (length (m ++ padding1)) Initialize (m ++ padding1))
    with (absorbs 64 Transform Initialize (m ++ padding1)).
  by rewrite absorbs_block, absorbs_one by (done || lia).
Qed.

Lemma digest_32 s :
  digest 64 8 Initialize Transform WriteBE64 write_state (write_state s) = write_state (Transform Initialize (buffer2 s)).
Proof.
  unfold digest. f_equal.
  assert (Hp : padding 64 8 WriteBE64 (write_state s) = 0x80 :: replicate 29 0 ++ [1; 0])
    by (unfold padding; rewrite length_write_state; by vm_compute).
  rewrite Hp. fold (buffer2 s).
  change (absorb 64 Transform (length (buffer2 s)) Initialize (buffer2 s))
    with (absorbs 64 Transform Initialize (buffer2 s)).
  apply absorbs_one; [lia|]. unfold buffer2. by rewrite length_app, length_write_state.
Qed.

Lemma TransformD64Wrapper_double m : length m = 64%nat -> TransformD64Wrapper Transform m = sha256 (sha256 m).
Proof.
  intros Hm. rewrite <- !digest_sha256 by (rewrite ?length_sha256, ?Hm; lia).
  by rewrite (digest_64 m), digest_32.
Qed.

Lemma TransformD64_wrapper m : TransformD64 m = TransformD64Wrapper Transform m.
Proof.
  unfold TransformD64, TransformD64Wrapper. f_equal.
  rewrite TransformD64_3_eq, TransformD64_2_eq, (TransformD64_1_eq m).
  set (s1 := Transform Initialize m). clearbody s1.
  pose proof (Transform_fips s1 padding1) as H2. rewrite padding1_words in H2. rewrite H2.
  pose proof (compress_regs_ok s1 pad64_words) as Hok.
  set (s2 := sha256_compress s1 pad64_words) in *. clearbody s2.
  pose proof (Transform_fips Initialize (buffer2 s2)) as H3. rewrite (buffer2_words s2 Hok) in H3.
  symmetry. exact H3.
Qed.

Lemma TransformD64_double m : length m = 64%nat -> TransformD64 m = sha256 (sha256 m).
Proof. intros Hm. by rewrite TransformD64_wrapper, TransformD64Wrapper_double. Qed.

(** ** [SHA256D64] *)

(** The [i]-th 64-byte input, hashed twice, for the first [blocks] of them. *)
Definition double_hashes (blocks : nat) (inp : stream) : stream :=
  concat (map (fun i => sha256 (sha256 (take 64 (drop (64 * i) inp)))) (seq 0 blocks)).

(** What the transforms selected at start-up do: a [k]-way transform hashes each of its [k] inputs. *)
Definition way_ok (k : nat) (f : stream -> stream) : Prop :=
  forall x, length x = (64 * k)%nat -> f x = double_hashes k x.
Record impl_ok (impl : sha256_impl) : Prop := {
  ok_1way : way_ok 1 (impl_D64 impl);
  ok_2way : forall f, impl_2way impl = Some f -> way_ok 2 f;
  ok_4way : forall f, impl_4way impl = Some f -> way_ok 4 f;
  ok_8way : forall f, impl_8way impl = Some f -> way_ok 8 f
}.

Lemma seq_from k n : seq k n = map (Nat.add k) (seq 0 n).
Proof.
  revert k. induction n as [|n IH]; intros k; simpl; [done|]. rewrite Nat.add_0_r. f_equal.
  rewrite (IH (S k)), (IH 1%nat), map_map. apply map_ext. intros i. lia.
Qed.

Lemma double_hashes_app k n inp : length inp = (64 * (k + n))%nat ->
  double_hashes (k + n) inp = double_hashes k (take (64 * k) inp) ++ double_hashes n (drop (64 * k) inp).
Proof.
  intros H. unfold double_hashes. rewrite seq_app, map_app, concat_app. f_equal; f_equal.
  - apply map_ext_in. intros i Hi%in_seq. do 2 f_equal. rewrite <- (take_drop (64 * k) inp) at 1.
    rewrite drop_app_le by (rewrite length_take; lia). apply take_app_le.
    rewrite length_drop, length_take. lia.
  - rewrite seq_from, map_map. apply map_ext. intros i.
    rewrite drop_drop. do 4 f_equal. lia.
Qed.

(** What a state of the loops still owes: the output so far and the hashes of the rest. *)
Definition owes (st : stream * stream * nat) (total : stream) : Prop :=
  length st.1.2 = (64 * st.2)%nat /\ st.1.1 ++ double_hashes st.2 st.1.2 = total.

Lemma ways_loop_owes k f fuel out inp blocks total : way_ok k f -> (0 < k)%nat -> (blocks <= fuel)%nat ->
  owes (out, inp, blocks) total ->
  owes (ways_loop k f fuel out inp blocks) total /\ ((ways_loop k f fuel out inp blocks).2 < k)%nat.
Proof.
  intros Hf Hk. revert out inp blocks. induction fuel as [|fuel IH]; intros out inp blocks Hfuel [Hl Ho];
    cbn [ways_loop fst snd] in *.
  - split; [done|]. lia.
  - destruct (Nat.leb_spec k blocks) as [Hb|Hb]; [|split; [done|cbn [snd]; lia]].
    apply IH; [lia|]. split; cbn [fst snd]; [rewrite length_drop; lia|].
    rewrite (Hf (take (64 * k) inp)) by (rewrite length_take; lia).
    rewrite <- app_assoc, <- double_hashes_app by lia.
    by replace (k + (blocks - k))%nat with blocks by lia.
Qed.

Lemma if_present_owes k f st total : (forall g, f = Some g -> way_ok k g) -> (0 < k)%nat ->
  owes st total -> owes (if_present k f st) total.
Proof.
  intros Hf Hk Ho. destruct f as [f|]; [|done]. destruct st as [[out inp] blocks].
  apply ways_loop_owes; try done. by apply Hf.
Qed.

Lemma standard_impl_ok : impl_ok standard_impl.
Proof.
  split; [|done..]. intros x Hx. unfold double_hashes. cbn [seq map concat impl_D64 standard_impl].
  rewrite app_nil_r, drop_0, take_ge by lia. apply TransformD64_double. lia.
Qed.

(** [SHA256D64] writes, for each of its 64-byte inputs, the SHA-256 of the
    SHA-256 that FIPS 180-4 defines, whichever multi-way transforms were selected, and
    the portable [TransformD64], with its folded constants, is such a transform. *)
Theorem SHA256D64_double : forall impl inp blocks,
  impl_ok impl -> length inp = (64 * blocks)%nat ->
  SHA256D64 impl inp blocks = double_hashes blocks inp /\ impl_ok standard_impl.
Proof.
  intros impl inp blocks [H1 H2 H4 H8] Hl. split; [|apply standard_impl_ok].
  assert (H0 : owes ([], inp, blocks) (double_hashes blocks inp)) by done.
  eapply if_present_owes in H0; [|exact H8|lia].
  eapply if_present_owes in H0; [|exact H4|lia].
  eapply if_present_owes in H0; [|exact H2|lia].
  unfold SHA256D64. destruct (if_present 2 _ _) as [[out inp'] blocks'].
  destruct (ways_loop_owes 1 (impl_D64 impl) blocks' out inp' blocks' _ H1 ltac:(lia) ltac:(lia) H0) as [[_ Ho] Hz].
  cbn [if_present]. rewrite <- Ho.
  replace (ways_loop 1 (impl_D64 impl) blocks' out inp' blocks').2 with O by lia.
  by rewrite app_nil_r.
Qed.

Lemma SHA256D64_double_witness :
  SHA256D64 standard_impl (replicate 128 7) 2 = double_hashes 2 (replicate 128 7).
Proof.
  exact (proj1 (SHA256D64_double standard_impl (replicate 128 7) 2 standard_impl_ok eq_refl)).
Defined.
