(* ===== verification/Sha512.v ===== *)
(** SHA-512 ([crypto/sha512.cpp]): the unrolled transform and the class [CSHA512]; it
    computes the function of FIPS 180-4. *)

From stdpp Require Import prelude.
From Stdlib Require Import ZArith Lia.
From S2P Require Import Prelude Serialize Hasher Fips180 Sha256.

Open Scope Z_scope.

Definition ReadBE64 (ptr : stream) (off : nat) : Z := be_value (take 8 (drop off ptr)).

Module SHA512.

Definition Ch (x y z : Z) : Z := Z.lxor z (Z.land x (Z.lxor y z)).
Definition Maj (x y z : Z) : Z := Z.lor (Z.land x y) (Z.land z (Z.lor x y)).

(** [x >> n | x << m] on 64 bits *)
Definition rot (x n m : Z) : Z := Z.lor (Z.shiftr x n) (u64 (Z.shiftl x m)).
Definition Sigma0 (x : Z) : Z := Z.lxor (Z.lxor (rot x 28 36) (rot x 34 30)) (rot x 39 25).
Definition Sigma1 (x : Z) : Z := Z.lxor (Z.lxor (rot x 14 50) (rot x 18 46)) (rot x 41 23).
Definition sigma0 (x : Z) : Z := Z.lxor (Z.lxor (rot x 1 63) (rot x 8 56)) (Z.shiftr x 7).
Definition sigma1 (x : Z) : Z := Z.lxor (Z.lxor (rot x 19 45) (rot x 61 3)) (Z.shiftr x 6).

(** One round: the new values of [d] and [h]. *)
Definition Round (a b c d e f g h k w : Z) : Z * Z :=
  let t1 := u64 (h + Sigma1 e + Ch e f g + k + w) in
  let t2 := u64 (Sigma0 a + Maj a b c) in
  (u64 (d + t1), u64 (t1 + t2)).

Definition Initialize : regs8 :=
  (0x6a09e667f3bcc908, 0xbb67ae8584caa73b, 0x3c6ef372fe94f82b, 0xa54ff53a5f1d36f1,
   0x510e527fade682d1, 0x9b05688c2b3e6c1f, 0x1f83d9abfb41bd6b, 0x5be0cd19137e2179).

Definition Transform (s : regs8) (chunk : stream) : regs8 :=
  let '(a, b, c, d, e, f, g, h) := s in
  var w0 := ReadBE64 chunk 0 in
  var (d, h) := Round a b c d e f g h 0x428a2f98d728ae22 w0 in
  var w1 := ReadBE64 chunk 8 in
  var (c, g) := Round h a b c d e f g 0x7137449123ef65cd w1 in
  var w2 := ReadBE64 chunk 16 in
  var (b, f) := Round g h a b c d e f 0xb5c0fbcfec4d3b2f w2 in
  var w3 := ReadBE64 chunk 24 in
  var (a, e) := Round f g h a b c d e 0xe9b5dba58189dbbc w3 in
  var w4 := ReadBE64 chunk 32 in
  var (h, d) := Round e f g h a b c d 0x3956c25bf348b538 w4 in
  var w5 := ReadBE64 chunk 40 in
  var (g, c) := Round d e f g h a b c 0x59f111f1b605d019 w5 in
  var w6 := ReadBE64 chunk 48 in
  var (f, b) := Round c d e f g h a b 0x923f82a4af194f9b w6 in
  var w7 := ReadBE64 chunk 56 in
  var (e, a) := Round b c d e f g h a 0xab1c5ed5da6d8118 w7 in
  var w8 := ReadBE64 chunk 64 in
  var (d, h) := Round a b c d e f g h 0xd807aa98a3030242 w8 in
  var w9 := ReadBE64 chunk 72 in
  var (c, g) := Round h a b c d e f g 0x12835b0145706fbe w9 in
  var w10 := ReadBE64 chunk 80 in
  var (b, f) := Round g h a b c d e f 0x243185be4ee4b28c w10 in
  var w11 := ReadBE64 chunk 88 in
  var (a, e) := Round f g h a b c d e 0x550c7dc3d5ffb4e2 w11 in
  var w12 := ReadBE64 chunk 96 in
  var (h, d) := Round e f g h a b c d 0x72be5d74f27b896f w12 in
  var w13 := ReadBE64 chunk 104 in
  var (g, c) := Round d e f g h a b c 0x80deb1fe3b1696b1 w13 in
  var w14 := ReadBE64 chunk 112 in
  var (f, b) := Round c d e f g h a b 0x9bdc06a725c71235 w14 in
  var w15 := ReadBE64 chunk 120 in
  var (e, a) := Round b c d e f g h a 0xc19bf174cf692694 w15 in
  var w0 := u64 (w0 + (sigma1 w14 + w9 + sigma0 w1)) in
  var (d, h) := Round a b c d e f g h 0xe49b69c19ef14ad2 w0 in
  var w1 := u64 (w1 + (sigma1 w15 + w10 + sigma0 w2)) in
  var (c, g) := Round h a b c d e f g 0xefbe4786384f25e3 w1 in
  var w2 := u64 (w2 + (sigma1 w0 + w11 + sigma0 w3)) in
  var (b, f) := Round g h a b c d e f 0x0fc19dc68b8cd5b5 w2 in
  var w3 := u64 (w3 + (sigma1 w1 + w12 + sigma0 w4)) in
  var (a, e) := Round f g h a b c d e 0x240ca1cc77ac9c65 w3 in
  var w4 := u64 (w4 + (sigma1 w2 + w13 + sigma0 w5)) in
  var (h, d) := Round e f g h a b c d 0x2de92c6f592b0275 w4 in
  var w5 := u64 (w5 + (sigma1 w3 + w14 + sigma0 w6)) in
  var (g, c) := Round d e f g h a b c 0x4a7484aa6ea6e483 w5 in
  var w6 := u64 (w6 + (sigma1 w4 + w15 + sigma0 w7)) in
  var (f, b) := Round c d e f g h a b 0x5cb0a9dcbd41fbd4 w6 in
  var w7 := u64 (w7 + (sigma1 w5 + w0 + sigma0 w8)) in
  var (e, a) := Round b c d e f g h a 0x76f988da831153b5 w7 in
  var w8 := u64 (w8 + (sigma1 w6 + w1 + sigma0 w9)) in
  var (d, h) := Round a b c d e f g h 0x983e5152ee66dfab w8 in
  var w9 := u64 (w9 + (sigma1 w7 + w2 + sigma0 w10)) in
  var (c, g) := Round h a b c d e f g 0xa831c66d2db43210 w9 in
  var w10 := u64 (w10 + (sigma1 w8 + w3 + sigma0 w11)) in
  var (b, f) := Round g h a b c d e f 0xb00327c898fb213f w10 in
  var w11 := u64 (w11 + (sigma1 w9 + w4 + sigma0 w12)) in
  var (a, e) := Round f g h a b c d e 0xbf597fc7beef0ee4 w11 in
  var w12 := u64 (w12 + (sigma1 w10 + w5 + sigma0 w13)) in
  var (h, d) := Round e f g h a b c d 0xc6e00bf33da88fc2 w12 in
  var w13 := u64 (w13 + (sigma1 w11 + w6 + sigma0 w14)) in
  var (g, c) := Round d e f g h a b c 0xd5a79147930aa725 w13 in
  var w14 := u64 (w14 + (sigma1 w12 + w7 + sigma0 w15)) in
  var (f, b) := Round c d e f g h a b 0x06ca6351e003826f w14 in
  var w15 := u64 (w15 + (sigma1 w13 + w8 + sigma0 w0)) in
  var (e, a) := Round b c d e f g h a 0x142929670a0e6e70 w15 in
  var w0 := u64 (w0 + (sigma1 w14 + w9 + sigma0 w1)) in
  var (d, h) := Round a b c d e f g h 0x27b70a8546d22ffc w0 in
  var w1 := u64 (w1 + (sigma1 w15 + w10 + sigma0 w2)) in
  var (c, g) := Round h a b c d e f g 0x2e1b21385c26c926 w1 in
  var w2 := u64 (w2 + (sigma1 w0 + w11 + sigma0 w3)) in
  var (b, f) := Round g h a b c d e f 0x4d2c6dfc5ac42aed w2 in
  var w3 := u64 (w3 + (sigma1 w1 + w12 + sigma0 w4)) in
  var (a, e) := Round f g h a b c d e 0x53380d139d95b3df w3 in
  var w4 := u64 (w4 + (sigma1 w2 + w13 + sigma0 w5)) in
  var (h, d) := Round e f g h a b c d 0x650a73548baf63de w4 in
  var w5 := u64 (w5 + (sigma1 w3 + w14 + sigma0 w6)) in
  var (g, c) := Round d e f g h a b c 0x766a0abb3c77b2a8 w5 in
  var w6 := u64 (w6 + (sigma1 w4 + w15 + sigma0 w7)) in
  var (f, b) := Round c d e f g h a b 0x81c2c92e47edaee6 w6 in
  var w7 := u64 (w7 + (sigma1 w5 + w0 + sigma0 w8)) in
  var (e, a) := Round b c d e f g h a 0x92722c851482353b w7 in
  var w8 := u64 (w8 + (sigma1 w6 + w1 + sigma0 w9)) in
  var (d, h) := Round a b c d e f g h 0xa2bfe8a14cf10364 w8 in
  var w9 := u64 (w9 + (sigma1 w7 + w2 + sigma0 w10)) in
  var (c, g) := Round h a b c d e f g 0xa81a664bbc423001 w9 in
  var w10 := u64 (w10 + (sigma1 w8 + w3 + sigma0 w11)) in
  var (b, f) := Round g h a b c d e f 0xc24b8b70d0f89791 w10 in
  var w11 := u64 (w11 + (sigma1 w9 + w4 + sigma0 w12)) in
  var (a, e) := Round f g h a b c d e 0xc76c51a30654be30 w11 in
  var w12 := u64 (w12 + (sigma1 w10 + w5 + sigma0 w13)) in
  var (h, d) := Round e f g h a b c d 0xd192e819d6ef5218 w12 in
  var w13 := u64 (w13 + (sigma1 w11 + w6 + sigma0 w14)) in
  var (g, c) := Round d e f g h a b c 0xd69906245565a910 w13 in
  var w14 := u64 (w14 + (sigma1 w12 + w7 + sigma0 w15)) in
  var (f, b) := Round c d e f g h a b 0xf40e35855771202a w14 in
  var w15 := u64 (w15 + (sigma1 w13 + w8 + sigma0 w0)) in
  var (e, a) := Round b c d e f g h a 0x106aa07032bbd1b8 w15 in
  var w0 := u64 (w0 + (sigma1 w14 + w9 + sigma0 w1)) in
  var (d, h) := Round a b c d e f g h 0x19a4c116b8d2d0c8 w0 in
  var w1 := u64 (w1 + (sigma1 w15 + w10 + sigma0 w2)) in
  var (c, g) := Round h a b c d e f g 0x1e376c085141ab53 w1 in
  var w2 := u64 (w2 + (sigma1 w0 + w11 + sigma0 w3)) in
  var (b, f) := Round g h a b c d e f 0x2748774cdf8eeb99 w2 in
  var w3 := u64 (w3 + (sigma1 w1 + w12 + sigma0 w4)) in
  var (a, e) := Round f g h a b c d e 0x34b0bcb5e19b48a8 w3 in
  var w4 := u64 (w4 + (sigma1 w2 + w13 + sigma0 w5)) in
  var (h, d) := Round e f g h a b c d 0x391c0cb3c5c95a63 w4 in
  var w5 := u64 (w5 + (sigma1 w3 + w14 + sigma0 w6)) in
  var (g, c) := Round d e f g h a b c 0x4ed8aa4ae3418acb w5 in
  var w6 := u64 (w6 + (sigma1 w4 + w15 + sigma0 w7)) in
  var (f, b) := Round c d e f g h a b 0x5b9cca4f7763e373 w6 in
  var w7 := u64 (w7 + (sigma1 w5 + w0 + sigma0 w8)) in
  var (e, a) := Round b c d e f g h a 0x682e6ff3d6b2b8a3 w7 in
  var w8 := u64 (w8 + (sigma1 w6 + w1 + sigma0 w9)) in
  var (d, h) := Round a b c d e f g h 0x748f82ee5defb2fc w8 in
  var w9 := u64 (w9 + (sigma1 w7 + w2 + sigma0 w10)) in
  var (c, g) := Round h a b c d e f g 0x78a5636f43172f60 w9 in
  var w10 := u64 (w10 + (sigma1 w8 + w3 + sigma0 w11)) in
  var (b, f) := Round g h a b c d e f 0x84c87814a1f0ab72 w10 in
  var w11 := u64 (w11 + (sigma1 w9 + w4 + sigma0 w12)) in
  var (a, e) := Round f g h a b c d e 0x8cc702081a6439ec w11 in
  var w12 := u64 (w12 + (sigma1 w10 + w5 + sigma0 w13)) in
  var (h, d) := Round e f g h a b c d 0x90befffa23631e28 w12 in
  var w13 := u64 (w13 + (sigma1 w11 + w6 + sigma0 w14)) in
  var (g, c) := Round d e f g h a b c 0xa4506cebde82bde9 w13 in
  var w14 := u64 (w14 + (sigma1 w12 + w7 + sigma0 w15)) in
  var (f, b) := Round c d e f g h a b 0xbef9a3f7b2c67915 w14 in
  var w15 := u64 (w15 + (sigma1 w13 + w8 + sigma0 w0)) in
  var (e, a) := Round b c d e f g h a 0xc67178f2e372532b w15 in
  var w0 := u64 (w0 + (sigma1 w14 + w9 + sigma0 w1)) in
  var (d, h) := Round a b c d e f g h 0xca273eceea26619c w0 in
  var w1 := u64 (w1 + (sigma1 w15 + w10 + sigma0 w2)) in
  var (c, g) := Round h a b c d e f g 0xd186b8c721c0c207 w1 in
  var w2 := u64 (w2 + (sigma1 w0 + w11 + sigma0 w3)) in
  var (b, f) := Round g h a b c d e f 0xeada7dd6cde0eb1e w2 in
  var w3 := u64 (w3 + (sigma1 w1 + w12 + sigma0 w4)) in
  var (a, e) := Round f g h a b c d e 0xf57d4f7fee6ed178 w3 in
  var w4 := u64 (w4 + (sigma1 w2 + w13 + sigma0 w5)) in
  var (h, d) := Round e f g h a b c d 0x06f067aa72176fba w4 in
  var w5 := u64 (w5 + (sigma1 w3 + w14 + sigma0 w6)) in
  var (g, c) := Round d e f g h a b c 0x0a637dc5a2c898a6 w5 in
  var w6 := u64 (w6 + (sigma1 w4 + w15 + sigma0 w7)) in
  var (f, b) := Round c d e f g h a b 0x113f9804bef90dae w6 in
  var w7 := u64 (w7 + (sigma1 w5 + w0 + sigma0 w8)) in
  var (e, a) := Round b c d e f g h a 0x1b710b35131c471b w7 in
  var w8 := u64 (w8 + (sigma1 w6 + w1 + sigma0 w9)) in
  var (d, h) := Round a b c d e f g h 0x28db77f523047d84 w8 in
  var w9 := u64 (w9 + (sigma1 w7 + w2 + sigma0 w10)) in
  var (c, g) := Round h a b c d e f g 0x32caab7b40c72493 w9 in
  var w10 := u64 (w10 + (sigma1 w8 + w3 + sigma0 w11)) in
  var (b, f) := Round g h a b c d e f 0x3c9ebe0a15c9bebc w10 in
  var w11 := u64 (w11 + (sigma1 w9 + w4 + sigma0 w12)) in
  var (a, e) := Round f g h a b c d e 0x431d67c49c100d4c w11 in
  var w12 := u64 (w12 + (sigma1 w10 + w5 + sigma0 w13)) in
  var (h, d) := Round e f g h a b c d 0x4cc5d4becb3e42b6 w12 in
  var w13 := u64 (w13 + (sigma1 w11 + w6 + sigma0 w14)) in
  var (g, c) := Round d e f g h a b c 0x597f299cfc657e2a w13 in
  var (f, b) := Round c d e f g h a b 0x5fcb6fab3ad6faec (u64 (w14 + sigma1 w12 + w7 + sigma0 w15)) in
  var (e, a) := Round b c d e f g h a 0x6c44198c4a475817 (u64 (w15 + sigma1 w13 + w8 + sigma0 w0)) in
  let '(s0, s1, s2, s3, s4, s5, s6, s7) := s in
  (u64 (s0 + a), u64 (s1 + b), u64 (s2 + c), u64 (s3 + d),
   u64 (s4 + e), u64 (s5 + f), u64 (s6 + g), u64 (s7 + h)).

(** ** The class [CSHA512] *)

Definition write_state (s : regs8) : stream :=
  let '(s0, s1, s2, s3, s4, s5, s6, s7) := s in
  WriteBE64 s0 ++ WriteBE64 s1 ++ WriteBE64 s2 ++ WriteBE64 s3 ++
  WriteBE64 s4 ++ WriteBE64 s5 ++ WriteBE64 s6 ++ WriteBE64 s7.

(** [sizedesc]: sixteen bytes, the upper eight left zero. *)
Definition write_size (bits : Z) : stream := replicate 8 0 ++ WriteBE64 bits.

Definition CSHA512 : Type := hasher regs8.
Definition new (junk : stream) : CSHA512 := hasher_new Initialize junk.
Definition Write (h : CSHA512) (data : stream) : CSHA512 := hasher_Write 128 Transform h data.
Definition Finalize (h : CSHA512) : stream := hasher_Finalize 128 16 Transform write_size write_state h.
Definition Reset (h : CSHA512) : CSHA512 := hasher_Reset Initialize h.

(** ** The unrolled code and the standard *)

(** The constants of the standard, as numbers. *)
Definition K : list Z := Eval vm_compute in K512.

Lemma sha512_K_fips : K512 = K.
Proof. by vm_compute. Qed.
Lemma sha512_Initialize_fips : Initialize = H512.
Proof. by vm_compute. Qed.

Lemma sha512_rot_ROTR x n m : n + m = 64 -> rot x n m = ROTR 64 n x.
Proof. intros H. unfold rot, ROTR, u64. by replace (64 - n) with m by lia. Qed.
Lemma sha512_Sigma0_fips x : Sigma0 x = sha512_Sigma0 x.
Proof. unfold Sigma0, sha512_Sigma0. by rewrite !sha512_rot_ROTR by done. Qed.
Lemma sha512_Sigma1_fips x : Sigma1 x = sha512_Sigma1 x.
Proof. unfold Sigma1, sha512_Sigma1. by rewrite !sha512_rot_ROTR by done. Qed.
Lemma sha512_sigma0_fips x : sigma0 x = sha512_sigma0 x.
Proof. unfold sigma0, sha512_sigma0. by rewrite !sha512_rot_ROTR by done. Qed.
Lemma sha512_sigma1_fips x : sigma1 x = sha512_sigma1 x.
Proof. unfold sigma1, sha512_sigma1. by rewrite !sha512_rot_ROTR by done. Qed.

Abbreviation fips_step := (sha2_step 64 sha512_Sigma0 sha512_Sigma1).
Abbreviation fips_next := (sha2_next 64 sha512_sigma0 sha512_sigma1).

Lemma sha512_Round_step a b c d e f g h k x d' h' :
  Round a b c d e f g h k x = (d', h') ->
  fips_step (a, b, c, d, e, f, g, h) (k, x) = (h', a, b, c, d', e, f, g).
Proof.
  unfold Round, Ch, Maj. rewrite Ch_select, Maj_select, sha512_Sigma1_fips, sha512_Sigma0_fips.
  intros [= <- <-]. unfold sha2_step. cbn [fst snd]. reflexivity.
Qed.

Lemma sha512_fold_round a b c d e f g h k x ks n win d' h' :
  Round a b c d e f g h k x = (d', h') ->
  fold_left fips_step (combine (k :: ks) (window fips_next (S n) (x :: win))) (a, b, c, d, e, f, g, h) =
  fold_left fips_step (combine ks (window fips_next n (win ++ [fips_next (x :: win)]))) (h', a, b, c, d', e, f, g).
Proof.
  intros H. cbn [window combine fold_left]. by rewrite (sha512_Round_step _ _ _ _ _ _ _ _ _ _ _ _ H).
Qed.

Lemma sha512_next_word w0 w1 w2 w3 w4 w5 w6 w7 w8 w9 w10 w11 w12 w13 w14 w15 :
  fips_next [w0; w1; w2; w3; w4; w5; w6; w7; w8; w9; w10; w11; w12; w13; w14; w15] =
  u64 (w0 + (sigma1 w14 + w9 + sigma0 w1)).
Proof. unfold sha2_next, u64. cbn [nth]. rewrite (sha512_sigma1_fips w14), (sha512_sigma0_fips w1). f_equal. lia. Qed.

Lemma sha512_word_assoc x y z t : u64 (x + y + z + t) = u64 (x + (y + z + t)).
Proof. f_equal. lia. Qed.

Ltac name_word :=
  lazymatch goal with
  | |- context [fips_next ?l] =>
      let w := fresh "w" in let Hw := fresh "Hw" in
      remember (fips_next l) as w eqn:Hw; rewrite sha512_next_word in Hw
  end.
Ltac known_word X :=
  first [ is_var X | match goal with H : ?v = X |- _ => is_var v; rewrite <- H end ].
Ltac exec_round :=
  let E := fresh "E" in
  apply assign_eq; intros [? ?] E; cbv beta iota;
  rewrite (sha512_fold_round _ _ _ _ _ _ _ _ _ _ _ _ _ _ _ E); clear E; cbn [app]; name_word.
Ltac exec_step :=
  lazymatch goal with
  | |- assign (Round _ _ _ _ _ _ _ _ _ (u64 (?x + ?y + ?z + ?t))) _ = _ =>
      rewrite (sha512_word_assoc x y z t); known_word constr:(u64 (x + (y + z + t))); exec_round
  | |- assign (Round _ _ _ _ _ _ _ _ _ _) _ = _ => exec_round
  | |- assign ?X _ = _ => apply assign_eq; intros ? <-; cbv beta; known_word X
  end.

Lemma sha512_Transform_fips s chunk : Transform s chunk = sha512_compress s (be_words 8 chunk).
Proof.
  unfold sha512_compress, sha2_compress. rewrite sha512_K_fips.
  rewrite schedule_words by done. change (16 + (length K - 16))%nat with 80%nat.
  change (be_words 8 chunk) with
    [ReadBE64 chunk 0; ReadBE64 chunk 8; ReadBE64 chunk 16; ReadBE64 chunk 24;
     ReadBE64 chunk 32; ReadBE64 chunk 40; ReadBE64 chunk 48; ReadBE64 chunk 56;
     ReadBE64 chunk 64; ReadBE64 chunk 72; ReadBE64 chunk 80; ReadBE64 chunk 88;
     ReadBE64 chunk 96; ReadBE64 chunk 104; ReadBE64 chunk 112; ReadBE64 chunk 120].
  destruct s as [[[[[[[a b] c] d] e] f] g] h]. cbv beta iota delta [Transform].
  do 16 (match goal with |- context [ReadBE64 ?p ?o] => generalize (ReadBE64 p o); intros ? end).
  unfold K. do 158 exec_step. reflexivity.
Qed.

Lemma sha512_write_state_regs s : write_state s = write_regs8 8 s.
Proof. destruct s as [[[[[[[a b] c] d] e] f] g] h]. unfold write_regs8. cbn [map concat]. by rewrite app_nil_r. Qed.

Lemma le_bytes_zero n : le_bytes n 0 = replicate n 0.
Proof. induction n as [|n IH]; simpl; [done|]. by rewrite Z.div_0_l, IH by done. Qed.

Lemma le_bytes_app_u64 j n x : 0 <= x < 2 ^ (8 * Z.of_nat j) ->
  le_bytes (j + n) x = le_bytes j x ++ replicate n 0.
Proof.
  revert x. induction j as [|j IH]; intros x Hx.
  - replace x with 0 by lia. apply le_bytes_zero.
  - simpl. f_equal. apply IH. replace (8 * Z.of_nat (S j)) with (8 + 8 * Z.of_nat j) in Hx by lia.
    rewrite Z.pow_add_r in Hx by lia. change (2 ^ 8) with 256 in Hx.
    split; [apply Z.div_pos; lia|apply Z.div_lt_upper_bound; lia].
Qed.

Lemma write_size_be n : 0 <= n < 2 ^ 64 -> write_size n = be_bytes 16 n.
Proof.
  intros H. unfold write_size, WriteBE64, be_bytes. rewrite (le_bytes_app_u64 8 8) by done.
  by rewrite rev_app_distr.
Qed.

Lemma digest_sha512 m : 8 * Z.of_nat (length m) < 2 ^ 64 ->
  digest 128 16 Initialize Transform write_size write_state m = sha512 m.
Proof.
  intros Hm. rewrite (digest_hash 128 16 Initialize (fun H b => sha512_compress H (be_words 8 b)) (be_bytes 16));
    [|lia|lia|intros; apply sha512_Transform_fips|apply write_size_be|done].
  unfold sha512, message_hash. by rewrite sha512_write_state_regs, sha512_Initialize_fips.
Qed.

Lemma CSHA512_hash junk ds : length junk = 128%nat -> 8 * Z.of_nat (length (concat ds)) < 2 ^ 64 ->
  Finalize (foldl Write (new junk) ds) = sha512 (concat ds).
Proof.
  intros H Hm. rewrite <- digest_sha512 by done.
  apply hasher_streaming; [lia|by exists (2 ^ 57)|done].
Qed.

Lemma length_sha512 m : length (sha512 m) = 64%nat.
Proof.
  unfold sha512, message_hash. rewrite <- sha512_write_state_regs.
  by destruct (fold_left _ _ _) as [[[[[[[a b] c] d] e] f] g] h].
Qed.

End SHA512.
