(* ===== verification/Sha1.v ===== *)
(** SHA-1 ([crypto/sha1.cpp]): the unrolled transform and the class [CSHA1]; it computes
    the function of FIPS 180-4. *)

From stdpp Require Import prelude.
From Stdlib Require Import ZArith Lia.
From S2P Require Import Prelude Serialize Hasher Fips180 Sha256.

Open Scope Z_scope.

Module SHA1.

(** One round: the new values of [b] and [e]. *)
Definition Round (a b c d e f k w : Z) : Z * Z :=
  let e := u32 (e + (Z.lor (u32 (Z.shiftl a 5)) (Z.shiftr a 27) + f + k + w)) in
  let b := Z.lor (u32 (Z.shiftl b 30)) (Z.shiftr b 2) in
  (b, e).

Definition f1 (b c d : Z) : Z := Z.lxor d (Z.land b (Z.lxor c d)).
Definition f2 (b c d : Z) : Z := Z.lxor (Z.lxor b c) d.
Definition f3 (b c d : Z) : Z := Z.lor (Z.land b c) (Z.land d (Z.lor b c)).

Definition left (x : Z) : Z := Z.lor (u32 (Z.shiftl x 1)) (Z.shiftr x 31).

Definition Initialize : regs5 := (0x67452301, 0xefcdab89, 0x98badcfe, 0x10325476, 0xc3d2e1f0).

Definition k1 : Z := 0x5a827999.
Definition k2 : Z := 0x6ed9eba1.
Definition k3 : Z := 0x8f1bbcdc.
Definition k4 : Z := 0xca62c1d6.

Definition Transform (s : regs5) (chunk : stream) : regs5 :=
  let '(a, b, c, d, e) := s in
  var w0 := ReadBE32 chunk 0 in
  var (b, e) := Round a b c d e (f1 b c d) k1 w0 in
  var w1 := ReadBE32 chunk 4 in
  var (a, d) := Round e a b c d (f1 a b c) k1 w1 in
  var w2 := ReadBE32 chunk 8 in
  var (e, c) := Round d e a b c (f1 e a b) k1 w2 in
  var w3 := ReadBE32 chunk 12 in
  var (d, b) := Round c d e a b (f1 d e a) k1 w3 in
  var w4 := ReadBE32 chunk 16 in
  var (c, a) := Round b c d e a (f1 c d e) k1 w4 in
  var w5 := ReadBE32 chunk 20 in
  var (b, e) := Round a b c d e (f1 b c d) k1 w5 in
  var w6 := ReadBE32 chunk 24 in
  var (a, d) := Round e a b c d (f1 a b c) k1 w6 in
  var w7 := ReadBE32 chunk 28 in
  var (e, c) := Round d e a b c (f1 e a b) k1 w7 in
  var w8 := ReadBE32 chunk 32 in
  var (d, b) := Round c d e a b (f1 d e a) k1 w8 in
  var w9 := ReadBE32 chunk 36 in
  var (c, a) := Round b c d e a (f1 c d e) k1 w9 in
  var w10 := ReadBE32 chunk 40 in
  var (b, e) := Round a b c d e (f1 b c d) k1 w10 in
  var w11 := ReadBE32 chunk 44 in
  var (a, d) := Round e a b c d (f1 a b c) k1 w11 in
  var w12 := ReadBE32 chunk 48 in
  var (e, c) := Round d e a b c (f1 e a b) k1 w12 in
  var w13 := ReadBE32 chunk 52 in
  var (d, b) := Round c d e a b (f1 d e a) k1 w13 in
  var w14 := ReadBE32 chunk 56 in
  var (c, a) := Round b c d e a (f1 c d e) k1 w14 in
  var w15 := ReadBE32 chunk 60 in
  var (b, e) := Round a b c d e (f1 b c d) k1 w15 in
  var w0 := left (Z.lxor (Z.lxor (Z.lxor w0 w13) w8) w2) in
  var (a, d) := Round e a b c d (f1 a b c) k1 w0 in
  var w1 := left (Z.lxor (Z.lxor (Z.lxor w1 w14) w9) w3) in
  var (e, c) := Round d e a b c (f1 e a b) k1 w1 in
  var w2 := left (Z.lxor (Z.lxor (Z.lxor w2 w15) w10) w4) in
  var (d, b) := Round c d e a b (f1 d e a) k1 w2 in
  var w3 := left (Z.lxor (Z.lxor (Z.lxor w3 w0) w11) w5) in
  var (c, a) := Round b c d e a (f1 c d e) k1 w3 in
  var w4 := left (Z.lxor (Z.lxor (Z.lxor w4 w1) w12) w6) in
  var (b, e) := Round a b c d e (f2 b c d) k2 w4 in
  var w5 := left (Z.lxor (Z.lxor (Z.lxor w5 w2) w13) w7) in
  var (a, d) := Round e a b c d (f2 a b c) k2 w5 in
  var w6 := left (Z.lxor (Z.lxor (Z.lxor w6 w3) w14) w8) in
  var (e, c) := Round d e a b c (f2 e a b) k2 w6 in
  var w7 := left (Z.lxor (Z.lxor (Z.lxor w7 w4) w15) w9) in
  var (d, b) := Round c d e a b (f2 d e a) k2 w7 in
  var w8 := left (Z.lxor (Z.lxor (Z.lxor w8 w5) w0) w10) in
  var (c, a) := Round b c d e a (f2 c d e) k2 w8 in
  var w9 := left (Z.lxor (Z.lxor (Z.lxor w9 w6) w1) w11) in
  var (b, e) := Round a b c d e (f2 b c d) k2 w9 in
  var w10 := left (Z.lxor (Z.lxor (Z.lxor w10 w7) w2) w12) in
  var (a, d) := Round e a b c d (f2 a b c) k2 w10 in
  var w11 := left (Z.lxor (Z.lxor (Z.lxor w11 w8) w3) w13) in
  var (e, c) := Round d e a b c (f2 e a b) k2 w11 in
  var w12 := left (Z.lxor (Z.lxor (Z.lxor w12 w9) w4) w14) in
  var (d, b) := Round c d e a b (f2 d e a) k2 w12 in
  var w13 := left (Z.lxor (Z.lxor (Z.lxor w13 w10) w5) w15) in
  var (c, a) := Round b c d e a (f2 c d e) k2 w13 in
  var w14 := left (Z.lxor (Z.lxor (Z.lxor w14 w11) w6) w0) in
  var (b, e) := Round a b c d e (f2 b c d) k2 w14 in
  var w15 := left (Z.lxor (Z.lxor (Z.lxor w15 w12) w7) w1) in
  var (a, d) := Round e a b c d (f2 a b c) k2 w15 in
  var w0 := left (Z.lxor (Z.lxor (Z.lxor w0 w13) w8) w2) in
  var (e, c) := Round d e a b c (f2 e a b) k2 w0 in
  var w1 := left (Z.lxor (Z.lxor (Z.lxor w1 w14) w9) w3) in
  var (d, b) := Round c d e a b (f2 d e a) k2 w1 in
  var w2 := left (Z.lxor (Z.lxor (Z.lxor w2 w15) w10) w4) in
  var (c, a) := Round b c d e a (f2 c d e) k2 w2 in
  var w3 := left (Z.lxor (Z.lxor (Z.lxor w3 w0) w11) w5) in
  var (b, e) := Round a b c d e (f2 b c d) k2 w3 in
  var w4 := left (Z.lxor (Z.lxor (Z.lxor w4 w1) w12) w6) in
  var (a, d) := Round e a b c d (f2 a b c) k2 w4 in
  var w5 := left (Z.lxor (Z.lxor (Z.lxor w5 w2) w13) w7) in
  var (e, c) := Round d e a b c (f2 e a b) k2 w5 in
  var w6 := left (Z.lxor (Z.lxor (Z.lxor w6 w3) w14) w8) in
  var (d, b) := Round c d e a b (f2 d e a) k2 w6 in
  var w7 := left (Z.lxor (Z.lxor (Z.lxor w7 w4) w15) w9) in
  var (c, a) := Round b c d e a (f2 c d e) k2 w7 in
  var w8 := left (Z.lxor (Z.lxor (Z.lxor w8 w5) w0) w10) in
  var (b, e) := Round a b c d e (f3 b c d) k3 w8 in
  var w9 := left (Z.lxor (Z.lxor (Z.lxor w9 w6) w1) w11) in
  var (a, d) := Round e a b c d (f3 a b c) k3 w9 in
  var w10 := left (Z.lxor (Z.lxor (Z.lxor w10 w7) w2) w12) in
  var (e, c) := Round d e a b c (f3 e a b) k3 w10 in
  var w11 := left (Z.lxor (Z.lxor (Z.lxor w11 w8) w3) w13) in
  var (d, b) := Round c d e a b (f3 d e a) k3 w11 in
  var w12 := left (Z.lxor (Z.lxor (Z.lxor w12 w9) w4) w14) in
  var (c, a) := Round b c d e a (f3 c d e) k3 w12 in
  var w13 := left (Z.lxor (Z.lxor (Z.lxor w13 w10) w5) w15) in
  var (b, e) := Round a b c d e (f3 b c d) k3 w13 in
  var w14 := left (Z.lxor (Z.lxor (Z.lxor w14 w11) w6) w0) in
  var (a, d) := Round e a b c d (f3 a b c) k3 w14 in
  var w15 := left (Z.lxor (Z.lxor (Z.lxor w15 w12) w7) w1) in
  var (e, c) := Round d e a b c (f3 e a b) k3 w15 in
  var w0 := left (Z.lxor (Z.lxor (Z.lxor w0 w13) w8) w2) in
  var (d, b) := Round c d e a b (f3 d e a) k3 w0 in
  var w1 := left (Z.lxor (Z.lxor (Z.lxor w1 w14) w9) w3) in
  var (c, a) := Round b c d e a (f3 c d e) k3 w1 in
  var w2 := left (Z.lxor (Z.lxor (Z.lxor w2 w15) w10) w4) in
  var (b, e) := Round a b c d e (f3 b c d) k3 w2 in
  var w3 := left (Z.lxor (Z.lxor (Z.lxor w3 w0) w11) w5) in
  var (a, d) := Round e a b c d (f3 a b c) k3 w3 in
  var w4 := left (Z.lxor (Z.lxor (Z.lxor w4 w1) w12) w6) in
  var (e, c) := Round d e a b c (f3 e a b) k3 w4 in
  var w5 := left (Z.lxor (Z.lxor (Z.lxor w5 w2) w13) w7) in
  var (d, b) := Round c d e a b (f3 d e a) k3 w5 in
  var w6 := left (Z.lxor (Z.lxor (Z.lxor w6 w3) w14) w8) in
  var (c, a) := Round b c d e a (f3 c d e) k3 w6 in
  var w7 := left (Z.lxor (Z.lxor (Z.lxor w7 w4) w15) w9) in
  var (b, e) := Round a b c d e (f3 b c d) k3 w7 in
  var w8 := left (Z.lxor (Z.lxor (Z.lxor w8 w5) w0) w10) in
  var (a, d) := Round e a b c d (f3 a b c) k3 w8 in
  var w9 := left (Z.lxor (Z.lxor (Z.lxor w9 w6) w1) w11) in
  var (e, c) := Round d e a b c (f3 e a b) k3 w9 in
  var w10 := left (Z.lxor (Z.lxor (Z.lxor w10 w7) w2) w12) in
  var (d, b) := Round c d e a b (f3 d e a) k3 w10 in
  var w11 := left (Z.lxor (Z.lxor (Z.lxor w11 w8) w3) w13) in
  var (c, a) := Round b c d e a (f3 c d e) k3 w11 in
  var w12 := left (Z.lxor (Z.lxor (Z.lxor w12 w9) w4) w14) in
  var (b, e) := Round a b c d e (f2 b c d) k4 w12 in
  var w13 := left (Z.lxor (Z.lxor (Z.lxor w13 w10) w5) w15) in
  var (a, d) := Round e a b c d (f2 a b c) k4 w13 in
  var w14 := left (Z.lxor (Z.lxor (Z.lxor w14 w11) w6) w0) in
  var (e, c) := Round d e a b c (f2 e a b) k4 w14 in
  var w15 := left (Z.lxor (Z.lxor (Z.lxor w15 w12) w7) w1) in
  var (d, b) := Round c d e a b (f2 d e a) k4 w15 in
  var w0 := left (Z.lxor (Z.lxor (Z.lxor w0 w13) w8) w2) in
  var (c, a) := Round b c d e a (f2 c d e) k4 w0 in
  var w1 := left (Z.lxor (Z.lxor (Z.lxor w1 w14) w9) w3) in
  var (b, e) := Round a b c d e (f2 b c d) k4 w1 in
  var w2 := left (Z.lxor (Z.lxor (Z.lxor w2 w15) w10) w4) in
  var (a, d) := Round e a b c d (f2 a b c) k4 w2 in
  var w3 := left (Z.lxor (Z.lxor (Z.lxor w3 w0) w11) w5) in
  var (e, c) := Round d e a b c (f2 e a b) k4 w3 in
  var w4 := left (Z.lxor (Z.lxor (Z.lxor w4 w1) w12) w6) in
  var (d, b) := Round c d e a b (f2 d e a) k4 w4 in
  var w5 := left (Z.lxor (Z.lxor (Z.lxor w5 w2) w13) w7) in
  var (c, a) := Round b c d e a (f2 c d e) k4 w5 in
  var w6 := left (Z.lxor (Z.lxor (Z.lxor w6 w3) w14) w8) in
  var (b, e) := Round a b c d e (f2 b c d) k4 w6 in
  var w7 := left (Z.lxor (Z.lxor (Z.lxor w7 w4) w15) w9) in
  var (a, d) := Round e a b c d (f2 a b c) k4 w7 in
  var w8 := left (Z.lxor (Z.lxor (Z.lxor w8 w5) w0) w10) in
  var (e, c) := Round d e a b c (f2 e a b) k4 w8 in
  var w9 := left (Z.lxor (Z.lxor (Z.lxor w9 w6) w1) w11) in
  var (d, b) := Round c d e a b (f2 d e a) k4 w9 in
  var w10 := left (Z.lxor (Z.lxor (Z.lxor w10 w7) w2) w12) in
  var (c, a) := Round b c d e a (f2 c d e) k4 w10 in
  var w11 := left (Z.lxor (Z.lxor (Z.lxor w11 w8) w3) w13) in
  var (b, e) := Round a b c d e (f2 b c d) k4 w11 in
  var w12 := left (Z.lxor (Z.lxor (Z.lxor w12 w9) w4) w14) in
  var (a, d) := Round e a b c d (f2 a b c) k4 w12 in
  var (e, c) := Round d e a b c (f2 e a b) k4 (left (Z.lxor (Z.lxor (Z.lxor w13 w10) w5) w15)) in
  var (d, b) := Round c d e a b (f2 d e a) k4 (left (Z.lxor (Z.lxor (Z.lxor w14 w11) w6) w0)) in
  var (c, a) := Round b c d e a (f2 c d e) k4 (left (Z.lxor (Z.lxor (Z.lxor w15 w12) w7) w1)) in
  let '(s0, s1, s2, s3, s4) := s in
  (u32 (s0 + a), u32 (s1 + b), u32 (s2 + c), u32 (s3 + d), u32 (s4 + e)).

(** ** The class [CSHA1] *)

Definition write_state (s : regs5) : stream :=
  let '(s0, s1, s2, s3, s4) := s in
  WriteBE32 s0 ++ WriteBE32 s1 ++ WriteBE32 s2 ++ WriteBE32 s3 ++ WriteBE32 s4.

Definition CSHA1 : Type := hasher regs5.
Definition new (junk : stream) : CSHA1 := hasher_new Initialize junk.
Definition Write (h : CSHA1) (data : stream) : CSHA1 := hasher_Write 64 Transform h data.
Definition Finalize (h : CSHA1) : stream := hasher_Finalize 64 8 Transform WriteBE64 write_state h.
Definition Reset (h : CSHA1) : CSHA1 := hasher_Reset Initialize h.

(** ** The unrolled code and the standard *)

Lemma sha1_fold_round a b c d e f k t x ts n win b' e' :
  Round a b c d e f k x = (b', e') -> f = sha1_f t b c d -> k = sha1_K t ->
  fold_left sha1_step (combine (t :: ts) (window sha1_next (S n) (x :: win))) (a, b, c, d, e) =
  fold_left sha1_step (combine ts (window sha1_next n (win ++ [sha1_next (x :: win)]))) (e', a, b', c, d).
Proof.
  intros [= <- <-] -> ->. cbn [window combine fold_left]. unfold sha1_step at 2. cbn [fst snd].
  replace (u32 (e + (Z.lor (u32 (Z.shiftl a 5)) (Z.shiftr a 27) + sha1_f t b c d + sha1_K t + x)))
    with ((ROTL 32 5 a + sha1_f t b c d + e + sha1_K t + x) mod 2 ^ 32); [reflexivity|].
  unfold u32, ROTL. f_equal. change (32 - 5) with 27. lia.
Qed.

Lemma sha1_next_word w0 w1 w2 w3 w4 w5 w6 w7 w8 w9 w10 w11 w12 w13 w14 w15 :
  sha1_next [w0; w1; w2; w3; w4; w5; w6; w7; w8; w9; w10; w11; w12; w13; w14; w15] =
  left (Z.lxor (Z.lxor (Z.lxor w0 w13) w8) w2).
Proof.
  unfold sha1_next. cbn [nth].
  rewrite (Z.lxor_comm _ w0), <- !Z.lxor_assoc. reflexivity.
Qed.

Ltac name_word :=
  lazymatch goal with
  | |- context [sha1_next ?l] =>
      let w := fresh "w" in let Hw := fresh "Hw" in
      remember (sha1_next l) as w eqn:Hw; rewrite sha1_next_word in Hw
  end.
Ltac known_word X :=
  first [ is_var X | match goal with H : ?v = X |- _ => is_var v; rewrite <- H end ].
Ltac exec_round :=
  let E := fresh "E" in
  apply assign_eq; intros [? ?] E; cbv beta iota;
  rewrite (sha1_fold_round _ _ _ _ _ _ _ _ _ _ _ _ _ _ E);
  [|first [apply Ch_select|apply Maj_select|reflexivity]|reflexivity]; clear E; cbn [app]; name_word.
Ltac exec_step :=
  lazymatch goal with
  | |- assign (Round _ _ _ _ _ _ _ (left ?x)) _ = _ => known_word constr:(left x); exec_round
  | |- assign (Round _ _ _ _ _ _ _ _) _ = _ => exec_round
  | |- assign ?X _ = _ => apply assign_eq; intros ? <-; cbv beta; known_word X
  end.

Lemma sha1_Transform_fips s chunk : Transform s chunk = sha1_compress s (be_words 4 chunk).
Proof.
  unfold sha1_compress. rewrite schedule_words by done. change (16 + 64)%nat with 80%nat.
  change (be_words 4 chunk) with
    [ReadBE32 chunk 0; ReadBE32 chunk 4; ReadBE32 chunk 8; ReadBE32 chunk 12;
     ReadBE32 chunk 16; ReadBE32 chunk 20; ReadBE32 chunk 24; ReadBE32 chunk 28;
     ReadBE32 chunk 32; ReadBE32 chunk 36; ReadBE32 chunk 40; ReadBE32 chunk 44;
     ReadBE32 chunk 48; ReadBE32 chunk 52; ReadBE32 chunk 56; ReadBE32 chunk 60].
  destruct s as [[[[a b] c] d] e]. cbv beta iota delta [Transform].
  do 16 (match goal with |- context [ReadBE32 ?p ?o] => generalize (ReadBE32 p o); intros ? end).
  cbn [seq]. do 157 exec_step. reflexivity.
Qed.

Lemma sha1_write_state_regs s : write_state s = write_regs5 (be_bytes 4) s.
Proof. destruct s as [[[[a b] c] d] e]. unfold write_regs5. cbn [map concat]. by rewrite app_nil_r. Qed.

Lemma digest_sha1 m : 8 * Z.of_nat (length m) < 2 ^ 64 ->
  digest 64 8 Initialize Transform WriteBE64 write_state m = sha1 m.
Proof.
  intros Hm. rewrite (digest_hash 64 8 Initialize (fun H b => sha1_compress H (be_words 4 b)) (be_bytes 8));
    [|lia|lia|intros; apply sha1_Transform_fips|done|done].
  unfold sha1, message_hash. by rewrite sha1_write_state_regs.
Qed.

Lemma CSHA1_hash junk ds : length junk = 64%nat -> 8 * Z.of_nat (length (concat ds)) < 2 ^ 64 ->
  Finalize (foldl Write (new junk) ds) = sha1 (concat ds).
Proof.
  intros H Hm. rewrite <- digest_sha1 by done.
  apply hasher_streaming; [lia|by exists (2 ^ 58)|done].
Qed.

End SHA1.
