(* ===== verification/Ripemd160.v ===== *)
(** RIPEMD-160 ([crypto/ripemd160.cpp]): the unrolled transform with its two lines interleaved and
    the class [CRIPEMD160]; it computes the published function. *)

From stdpp Require Import prelude.
From Stdlib Require Import ZArith Lia.
From S2P Require Import Prelude Serialize Hasher Fips180.

Open Scope Z_scope.

Definition ReadLE32 (ptr : stream) (off : nat) : Z := le_value (take 4 (drop off ptr)).
Definition WriteLE32 (x : Z) : stream := le_bytes 4 x.
Definition WriteLE64 (x : Z) : stream := le_bytes 8 x.

Module RIPEMD160.

(** [~x] on 32 bits *)
Definition compl (x : Z) : Z := Z.lxor x (2 ^ 32 - 1).
Definition f1 (x y z : Z) : Z := Z.lxor (Z.lxor x y) z.
Definition f2 (x y z : Z) : Z := Z.lor (Z.land x y) (Z.land (compl x) z).
Definition f3 (x y z : Z) : Z := Z.lxor (Z.lor x (compl y)) z.
Definition f4 (x y z : Z) : Z := Z.lor (Z.land x z) (Z.land y (compl z)).
Definition f5 (x y z : Z) : Z := Z.lxor x (Z.lor y (compl z)).

Definition Initialize : regs5 := (0x67452301, 0xefcdab89, 0x98badcfe, 0x10325476, 0xc3d2e1f0).

Definition rol (x i : Z) : Z := Z.lor (u32 (Z.shiftl x i)) (Z.shiftr x (32 - i)).

(** One round: the new values of [a] and [c]. *)
Definition Round (a b c d e f x k r : Z) : Z * Z :=
  let a := u32 (rol (u32 (a + f + x + k)) r + e) in
  let c := rol c 10 in
  (a, c).

Definition R11 (a b c d e x r : Z) : Z * Z := Round a b c d e (f1 b c d) x 0 r.
Definition R21 (a b c d e x r : Z) : Z * Z := Round a b c d e (f2 b c d) x 0x5a827999 r.
Definition R31 (a b c d e x r : Z) : Z * Z := Round a b c d e (f3 b c d) x 0x6ed9eba1 r.
Definition R41 (a b c d e x r : Z) : Z * Z := Round a b c d e (f4 b c d) x 0x8f1bbcdc r.
Definition R51 (a b c d e x r : Z) : Z * Z := Round a b c d e (f5 b c d) x 0xa953fd4e r.
Definition R12 (a b c d e x r : Z) : Z * Z := Round a b c d e (f5 b c d) x 0x50a28be6 r.
Definition R22 (a b c d e x r : Z) : Z * Z := Round a b c d e (f4 b c d) x 0x5c4dd124 r.
Definition R32 (a b c d e x r : Z) : Z * Z := Round a b c d e (f3 b c d) x 0x6d703ef3 r.
Definition R42 (a b c d e x r : Z) : Z * Z := Round a b c d e (f2 b c d) x 0x7a6d76e9 r.
Definition R52 (a b c d e x r : Z) : Z * Z := Round a b c d e (f1 b c d) x 0 r.

Definition Transform (s : regs5) (chunk : stream) : regs5 :=
  let '(a1, b1, c1, d1, e1) := s in
  let '(a2, b2, c2, d2, e2) := s in
  var w0 := ReadLE32 chunk 0 in
  var w1 := ReadLE32 chunk 4 in
  var w2 := ReadLE32 chunk 8 in
  var w3 := ReadLE32 chunk 12 in
  var w4 := ReadLE32 chunk 16 in
  var w5 := ReadLE32 chunk 20 in
  var w6 := ReadLE32 chunk 24 in
  var w7 := ReadLE32 chunk 28 in
  var w8 := ReadLE32 chunk 32 in
  var w9 := ReadLE32 chunk 36 in
  var w10 := ReadLE32 chunk 40 in
  var w11 := ReadLE32 chunk 44 in
  var w12 := ReadLE32 chunk 48 in
  var w13 := ReadLE32 chunk 52 in
  var w14 := ReadLE32 chunk 56 in
  var w15 := ReadLE32 chunk 60 in
  var (a1, c1) := R11 a1 b1 c1 d1 e1 w0 11 in
  var (a2, c2) := R12 a2 b2 c2 d2 e2 w5 8 in
  var (e1, b1) := R11 e1 a1 b1 c1 d1 w1 14 in
  var (e2, b2) := R12 e2 a2 b2 c2 d2 w14 9 in
  var (d1, a1) := R11 d1 e1 a1 b1 c1 w2 15 in
  var (d2, a2) := R12 d2 e2 a2 b2 c2 w7 9 in
  var (c1, e1) := R11 c1 d1 e1 a1 b1 w3 12 in
  var (c2, e2) := R12 c2 d2 e2 a2 b2 w0 11 in
  var (b1, d1) := R11 b1 c1 d1 e1 a1 w4 5 in
  var (b2, d2) := R12 b2 c2 d2 e2 a2 w9 13 in
  var (a1, c1) := R11 a1 b1 c1 d1 e1 w5 8 in
  var (a2, c2) := R12 a2 b2 c2 d2 e2 w2 15 in
  var (e1, b1) := R11 e1 a1 b1 c1 d1 w6 7 in
  var (e2, b2) := R12 e2 a2 b2 c2 d2 w11 15 in
  var (d1, a1) := R11 d1 e1 a1 b1 c1 w7 9 in
  var (d2, a2) := R12 d2 e2 a2 b2 c2 w4 5 in
  var (c1, e1) := R11 c1 d1 e1 a1 b1 w8 11 in
  var (c2, e2) := R12 c2 d2 e2 a2 b2 w13 7 in
  var (b1, d1) := R11 b1 c1 d1 e1 a1 w9 13 in
  var (b2, d2) := R12 b2 c2 d2 e2 a2 w6 7 in
  var (a1, c1) := R11 a1 b1 c1 d1 e1 w10 14 in
  var (a2, c2) := R12 a2 b2 c2 d2 e2 w15 8 in
  var (e1, b1) := R11 e1 a1 b1 c1 d1 w11 15 in
  var (e2, b2) := R12 e2 a2 b2 c2 d2 w8 11 in
  var (d1, a1) := R11 d1 e1 a1 b1 c1 w12 6 in
  var (d2, a2) := R12 d2 e2 a2 b2 c2 w1 14 in
  var (c1, e1) := R11 c1 d1 e1 a1 b1 w13 7 in
  var (c2, e2) := R12 c2 d2 e2 a2 b2 w10 14 in
  var (b1, d1) := R11 b1 c1 d1 e1 a1 w14 9 in
  var (b2, d2) := R12 b2 c2 d2 e2 a2 w3 12 in
  var (a1, c1) := R11 a1 b1 c1 d1 e1 w15 8 in
  var (a2, c2) := R12 a2 b2 c2 d2 e2 w12 6 in
  var (e1, b1) := R21 e1 a1 b1 c1 d1 w7 7 in
  var (e2, b2) := R22 e2 a2 b2 c2 d2 w6 9 in
  var (d1, a1) := R21 d1 e1 a1 b1 c1 w4 6 in
  var (d2, a2) := R22 d2 e2 a2 b2 c2 w11 13 in
  var (c1, e1) := R21 c1 d1 e1 a1 b1 w13 8 in
  var (c2, e2) := R22 c2 d2 e2 a2 b2 w3 15 in
  var (b1, d1) := R21 b1 c1 d1 e1 a1 w1 13 in
  var (b2, d2) := R22 b2 c2 d2 e2 a2 w7 7 in
  var (a1, c1) := R21 a1 b1 c1 d1 e1 w10 11 in
  var (a2, c2) := R22 a2 b2 c2 d2 e2 w0 12 in
  var (e1, b1) := R21 e1 a1 b1 c1 d1 w6 9 in
  var (e2, b2) := R22 e2 a2 b2 c2 d2 w13 8 in
  var (d1, a1) := R21 d1 e1 a1 b1 c1 w15 7 in
  var (d2, a2) := R22 d2 e2 a2 b2 c2 w5 9 in
  var (c1, e1) := R21 c1 d1 e1 a1 b1 w3 15 in
  var (c2, e2) := R22 c2 d2 e2 a2 b2 w10 11 in
  var (b1, d1) := R21 b1 c1 d1 e1 a1 w12 7 in
  var (b2, d2) := R22 b2 c2 d2 e2 a2 w14 7 in
  var (a1, c1) := R21 a1 b1 c1 d1 e1 w0 12 in
  var (a2, c2) := R22 a2 b2 c2 d2 e2 w15 7 in
  var (e1, b1) := R21 e1 a1 b1 c1 d1 w9 15 in
  var (e2, b2) := R22 e2 a2 b2 c2 d2 w8 12 in
  var (d1, a1) := R21 d1 e1 a1 b1 c1 w5 9 in
  var (d2, a2) := R22 d2 e2 a2 b2 c2 w12 7 in
  var (c1, e1) := R21 c1 d1 e1 a1 b1 w2 11 in
  var (c2, e2) := R22 c2 d2 e2 a2 b2 w4 6 in
  var (b1, d1) := R21 b1 c1 d1 e1 a1 w14 7 in
  var (b2, d2) := R22 b2 c2 d2 e2 a2 w9 15 in
  var (a1, c1) := R21 a1 b1 c1 d1 e1 w11 13 in
  var (a2, c2) := R22 a2 b2 c2 d2 e2 w1 13 in
  var (e1, b1) := R21 e1 a1 b1 c1 d1 w8 12 in
  var (e2, b2) := R22 e2 a2 b2 c2 d2 w2 11 in
  var (d1, a1) := R31 d1 e1 a1 b1 c1 w3 11 in
  var (d2, a2) := R32 d2 e2 a2 b2 c2 w15 9 in
  var (c1, e1) := R31 c1 d1 e1 a1 b1 w10 13 in
  var (c2, e2) := R32 c2 d2 e2 a2 b2 w5 7 in
  var (b1, d1) := R31 b1 c1 d1 e1 a1 w14 6 in
  var (b2, d2) := R32 b2 c2 d2 e2 a2 w1 15 in
  var (a1, c1) := R31 a1 b1 c1 d1 e1 w4 7 in
  var (a2, c2) := R32 a2 b2 c2 d2 e2 w3 11 in
  var (e1, b1) := R31 e1 a1 b1 c1 d1 w9 14 in
  var (e2, b2) := R32 e2 a2 b2 c2 d2 w7 8 in
  var (d1, a1) := R31 d1 e1 a1 b1 c1 w15 9 in
  var (d2, a2) := R32 d2 e2 a2 b2 c2 w14 6 in
  var (c1, e1) := R31 c1 d1 e1 a1 b1 w8 13 in
  var (c2, e2) := R32 c2 d2 e2 a2 b2 w6 6 in
  var (b1, d1) := R31 b1 c1 d1 e1 a1 w1 15 in
  var (b2, d2) := R32 b2 c2 d2 e2 a2 w9 14 in
  var (a1, c1) := R31 a1 b1 c1 d1 e1 w2 14 in
  var (a2, c2) := R32 a2 b2 c2 d2 e2 w11 12 in
  var (e1, b1) := R31 e1 a1 b1 c1 d1 w7 8 in
  var (e2, b2) := R32 e2 a2 b2 c2 d2 w8 13 in
  var (d1, a1) := R31 d1 e1 a1 b1 c1 w0 13 in
  var (d2, a2) := R32 d2 e2 a2 b2 c2 w12 5 in
  var (c1, e1) := R31 c1 d1 e1 a1 b1 w6 6 in
  var (c2, e2) := R32 c2 d2 e2 a2 b2 w2 14 in
  var (b1, d1) := R31 b1 c1 d1 e1 a1 w13 5 in
  var (b2, d2) := R32 b2 c2 d2 e2 a2 w10 13 in
  var (a1, c1) := R31 a1 b1 c1 d1 e1 w11 12 in
  var (a2, c2) := R32 a2 b2 c2 d2 e2 w0 13 in
  var (e1, b1) := R31 e1 a1 b1 c1 d1 w5 7 in
  var (e2, b2) := R32 e2 a2 b2 c2 d2 w4 7 in
  var (d1, a1) := R31 d1 e1 a1 b1 c1 w12 5 in
  var (d2, a2) := R32 d2 e2 a2 b2 c2 w13 5 in
  var (c1, e1) := R41 c1 d1 e1 a1 b1 w1 11 in
  var (c2, e2) := R42 c2 d2 e2 a2 b2 w8 15 in
  var (b1, d1) := R41 b1 c1 d1 e1 a1 w9 12 in
  var (b2, d2) := R42 b2 c2 d2 e2 a2 w6 5 in
  var (a1, c1) := R41 a1 b1 c1 d1 e1 w11 14 in
  var (a2, c2) := R42 a2 b2 c2 d2 e2 w4 8 in
  var (e1, b1) := R41 e1 a1 b1 c1 d1 w10 15 in
  var (e2, b2) := R42 e2 a2 b2 c2 d2 w1 11 in
  var (d1, a1) := R41 d1 e1 a1 b1 c1 w0 14 in
  var (d2, a2) := R42 d2 e2 a2 b2 c2 w3 14 in
  var (c1, e1) := R41 c1 d1 e1 a1 b1 w8 15 in
  var (c2, e2) := R42 c2 d2 e2 a2 b2 w11 14 in
  var (b1, d1) := R41 b1 c1 d1 e1 a1 w12 9 in
  var (b2, d2) := R42 b2 c2 d2 e2 a2 w15 6 in
  var (a1, c1) := R41 a1 b1 c1 d1 e1 w4 8 in
  var (a2, c2) := R42 a2 b2 c2 d2 e2 w0 14 in
  var (e1, b1) := R41 e1 a1 b1 c1 d1 w13 9 in
  var (e2, b2) := R42 e2 a2 b2 c2 d2 w5 6 in
  var (d1, a1) := R41 d1 e1 a1 b1 c1 w3 14 in
  var (d2, a2) := R42 d2 e2 a2 b2 c2 w12 9 in
  var (c1, e1) := R41 c1 d1 e1 a1 b1 w7 5 in
  var (c2, e2) := R42 c2 d2 e2 a2 b2 w2 12 in
  var (b1, d1) := R41 b1 c1 d1 e1 a1 w15 6 in
  var (b2, d2) := R42 b2 c2 d2 e2 a2 w13 9 in
  var (a1, c1) := R41 a1 b1 c1 d1 e1 w14 8 in
  var (a2, c2) := R42 a2 b2 c2 d2 e2 w9 12 in
  var (e1, b1) := R41 e1 a1 b1 c1 d1 w5 6 in
  var (e2, b2) := R42 e2 a2 b2 c2 d2 w7 5 in
  var (d1, a1) := R41 d1 e1 a1 b1 c1 w6 5 in
  var (d2, a2) := R42 d2 e2 a2 b2 c2 w10 15 in
  var (c1, e1) := R41 c1 d1 e1 a1 b1 w2 12 in
  var (c2, e2) := R42 c2 d2 e2 a2 b2 w14 8 in
  var (b1, d1) := R51 b1 c1 d1 e1 a1 w4 9 in
  var (b2, d2) := R52 b2 c2 d2 e2 a2 w12 8 in
  var (a1, c1) := R51 a1 b1 c1 d1 e1 w0 15 in
  var (a2, c2) := R52 a2 b2 c2 d2 e2 w15 5 in
  var (e1, b1) := R51 e1 a1 b1 c1 d1 w5 5 in
  var (e2, b2) := R52 e2 a2 b2 c2 d2 w10 12 in
  var (d1, a1) := R51 d1 e1 a1 b1 c1 w9 11 in
  var (d2, a2) := R52 d2 e2 a2 b2 c2 w4 9 in
  var (c1, e1) := R51 c1 d1 e1 a1 b1 w7 6 in
  var (c2, e2) := R52 c2 d2 e2 a2 b2 w1 12 in
  var (b1, d1) := R51 b1 c1 d1 e1 a1 w12 8 in
  var (b2, d2) := R52 b2 c2 d2 e2 a2 w5 5 in
  var (a1, c1) := R51 a1 b1 c1 d1 e1 w2 13 in
  var (a2, c2) := R52 a2 b2 c2 d2 e2 w8 14 in
  var (e1, b1) := R51 e1 a1 b1 c1 d1 w10 12 in
  var (e2, b2) := R52 e2 a2 b2 c2 d2 w7 6 in
  var (d1, a1) := R51 d1 e1 a1 b1 c1 w14 5 in
  var (d2, a2) := R52 d2 e2 a2 b2 c2 w6 8 in
  var (c1, e1) := R51 c1 d1 e1 a1 b1 w1 12 in
  var (c2, e2) := R52 c2 d2 e2 a2 b2 w2 13 in
  var (b1, d1) := R51 b1 c1 d1 e1 a1 w3 13 in
  var (b2, d2) := R52 b2 c2 d2 e2 a2 w13 6 in
  var (a1, c1) := R51 a1 b1 c1 d1 e1 w8 14 in
  var (a2, c2) := R52 a2 b2 c2 d2 e2 w14 5 in
  var (e1, b1) := R51 e1 a1 b1 c1 d1 w11 11 in
  var (e2, b2) := R52 e2 a2 b2 c2 d2 w0 15 in
  var (d1, a1) := R51 d1 e1 a1 b1 c1 w6 8 in
  var (d2, a2) := R52 d2 e2 a2 b2 c2 w3 13 in
  var (c1, e1) := R51 c1 d1 e1 a1 b1 w15 5 in
  var (c2, e2) := R52 c2 d2 e2 a2 b2 w9 11 in
  var (b1, d1) := R51 b1 c1 d1 e1 a1 w13 6 in
  var (b2, d2) := R52 b2 c2 d2 e2 a2 w11 11 in
  let '(s0, s1, s2, s3, s4) := s in
  (u32 (s1 + c1 + d2), u32 (s2 + d1 + e2), u32 (s3 + e1 + a2), u32 (s4 + a1 + b2), u32 (s0 + b1 + c2)).

(** ** The class [CRIPEMD160] *)

Definition write_state (s : regs5) : stream :=
  let '(s0, s1, s2, s3, s4) := s in
  WriteLE32 s0 ++ WriteLE32 s1 ++ WriteLE32 s2 ++ WriteLE32 s3 ++ WriteLE32 s4.

Definition CRIPEMD160 : Type := hasher regs5.
Definition new (junk : stream) : CRIPEMD160 := hasher_new Initialize junk.
Definition Write (h : CRIPEMD160) (data : stream) : CRIPEMD160 := hasher_Write 64 Transform h data.
Definition Finalize (h : CRIPEMD160) : stream := hasher_Finalize 64 8 Transform WriteLE64 write_state h.
Definition Reset (h : CRIPEMD160) : CRIPEMD160 := hasher_Reset Initialize h.

(** ** The unrolled code and the published loops *)

Lemma rmd_Round_step (f : Z -> Z -> Z -> Z) a b c d e x k r a' c' :
  Round a b c d e (f b c d) x k r = (a', c') ->
  rmd_step f k x r (a, b, c, d, e) = (e, a', b, c', d).
Proof. by intros [= <- <-]. Qed.

(** A round of either line is the next step of its loop. *)
Lemma fold_left_line X a b c d e (f : Z -> Z -> Z -> Z) x k r j js a' c' :
  Round a b c d e (f b c d) x k r = (a', c') ->
  rmd_left X (a, b, c, d, e) j = rmd_step f k x r (a, b, c, d, e) ->
  fold_left (rmd_left X) (j :: js) (a, b, c, d, e) = fold_left (rmd_left X) js (e, a', b, c', d).
Proof. intros H1 H2. cbn [fold_left]. by rewrite H2, (rmd_Round_step _ _ _ _ _ _ _ _ _ _ _ H1). Qed.
Lemma fold_right_line X a b c d e (f : Z -> Z -> Z -> Z) x k r j js a' c' :
  Round a b c d e (f b c d) x k r = (a', c') ->
  rmd_right X (a, b, c, d, e) j = rmd_step f k x r (a, b, c, d, e) ->
  fold_left (rmd_right X) (j :: js) (a, b, c, d, e) = fold_left (rmd_right X) js (e, a', b, c', d).
Proof. intros H1 H2. cbn [fold_left]. by rewrite H2, (rmd_Round_step _ _ _ _ _ _ _ _ _ _ _ H1). Qed.

Ltac exec_left f :=
  let E := fresh "E" in apply assign_eq; intros [? ?] E; cbv beta iota;
  rewrite (fold_left_line _ _ _ _ _ _ f _ _ _ _ _ _ _ E) by reflexivity; clear E.
Ltac exec_right f :=
  let E := fresh "E" in apply assign_eq; intros [? ?] E; cbv beta iota;
  rewrite (fold_right_line _ _ _ _ _ _ f _ _ _ _ _ _ _ E) by reflexivity; clear E.
Ltac exec_step :=
  lazymatch goal with
  | |- assign (R11 _ _ _ _ _ _ _) _ = _ => exec_left f1
  | |- assign (R21 _ _ _ _ _ _ _) _ = _ => exec_left f2
  | |- assign (R31 _ _ _ _ _ _ _) _ = _ => exec_left f3
  | |- assign (R41 _ _ _ _ _ _ _) _ = _ => exec_left f4
  | |- assign (R51 _ _ _ _ _ _ _) _ = _ => exec_left f5
  | |- assign (R12 _ _ _ _ _ _ _) _ = _ => exec_right f5
  | |- assign (R22 _ _ _ _ _ _ _) _ = _ => exec_right f4
  | |- assign (R32 _ _ _ _ _ _ _) _ = _ => exec_right f3
  | |- assign (R42 _ _ _ _ _ _ _) _ = _ => exec_right f2
  | |- assign (R52 _ _ _ _ _ _ _) _ = _ => exec_right f1
  end.

Lemma Transform_rmd s chunk : Transform s chunk = rmd_compress s (le_words 4 chunk).
Proof.
  change (le_words 4 chunk) with
    [ReadLE32 chunk 0; ReadLE32 chunk 4; ReadLE32 chunk 8; ReadLE32 chunk 12;
     ReadLE32 chunk 16; ReadLE32 chunk 20; ReadLE32 chunk 24; ReadLE32 chunk 28;
     ReadLE32 chunk 32; ReadLE32 chunk 36; ReadLE32 chunk 40; ReadLE32 chunk 44;
     ReadLE32 chunk 48; ReadLE32 chunk 52; ReadLE32 chunk 56; ReadLE32 chunk 60].
  destruct s as [[[[a b] c] d] e]. cbv beta iota delta [Transform rmd_compress].
  do 16 (match goal with |- context [ReadLE32 ?p ?o] => generalize (ReadLE32 p o); intros ? end).
  do 16 (apply assign_eq; intros ? <-; cbv beta).
  cbn [seq]. do 160 exec_step. reflexivity.
Qed.

Lemma rmd_write_state_regs s : write_state s = write_regs5 (le_bytes 4) s.
Proof. destruct s as [[[[a b] c] d] e]. unfold write_regs5. cbn [map concat]. by rewrite app_nil_r. Qed.

Lemma digest_ripemd160 m : 8 * Z.of_nat (length m) < 2 ^ 64 ->
  digest 64 8 Initialize Transform WriteLE64 write_state m = ripemd160 m.
Proof.
  intros Hm. rewrite (digest_hash 64 8 Initialize (fun H b => rmd_compress H (le_words 4 b)) (le_bytes 8));
    [|lia|lia|intros; apply Transform_rmd|done|done].
  unfold ripemd160, message_hash. by rewrite rmd_write_state_regs.
Qed.

Lemma CRIPEMD160_hash junk ds : length junk = 64%nat -> 8 * Z.of_nat (length (concat ds)) < 2 ^ 64 ->
  Finalize (foldl Write (new junk) ds) = ripemd160 (concat ds).
Proof.
  intros H Hm. rewrite <- digest_ripemd160 by done.
  apply hasher_streaming; [lia|by exists (2 ^ 58)|done].
Qed.

End RIPEMD160.
