(* ===== verification/Hashes.v ===== *)
(** The hash classes put to use: the double hashes of [hash.h] ([CHash256], [CHash160],
    [CHashWriter]), the message authentication codes
    ([crypto/hmac_sha256.cpp], [crypto/hmac_sha512.cpp]) and [BIP32Hash] of [hash.cpp].
    They are proved against an interface of hash objects that [CSHA256] and
    [CSHA512] implement. The hash functions the script interpreter is parametrised
    by are instantiated with the real ones. *)

From stdpp Require Import prelude.
From Stdlib Require Import ZArith Lia.
From S2P Require Import Prelude Serialize Hasher Fips180 Sha256 Sha512 Sha1 Ripemd160 Interpreter InterpreterSafe.

Open Scope Z_scope.

(** ** The interface of a hash object *)

Class HashObject (H : Type) := {
  h_block : nat;
  h_output : nat;
  h_new : stream -> H;
  h_Write : H -> stream -> H;
  h_Finalize : H -> stream
}.

Arguments h_block H {_}.
Arguments h_output H {_}.

(** Messages the length field of the padding can describe. *)
Definition fits (m : stream) : Prop := 8 * Z.of_nat (length m) < 2 ^ 64.

(** Written in pieces, it hashes the concatenation. *)
Class HashObjectSpec (H : Type) `{HashObject H} (hash : stream -> stream) := {
  h_streaming junk ds : length junk = (h_block H) -> fits (concat ds) ->
    h_Finalize (foldl h_Write (h_new junk) ds) = hash (concat ds);
  h_hash_length m : length (hash m) = (h_output H);
  h_sizes : (h_output H <= h_block H <= 128)%nat
}.

#[global] Typeclasses Opaque SHA256.CSHA256 SHA512.CSHA512.

#[export] Instance CSHA256_object : HashObject SHA256.CSHA256 := {|
  h_block := 64; h_output := 32;
  h_new := SHA256.new; h_Write := SHA256.Write; h_Finalize := SHA256.Finalize
|}.
#[export] Instance CSHA512_object : HashObject SHA512.CSHA512 := {|
  h_block := 128; h_output := 64;
  h_new := SHA512.new; h_Write := SHA512.Write; h_Finalize := SHA512.Finalize
|}.

#[export] Instance CSHA256_object_spec : HashObjectSpec SHA256.CSHA256 sha256.
Proof. split; [apply SHA256.CSHA256_hash|apply SHA256.length_sha256|simpl; lia]. Qed.
#[export] Instance CSHA512_object_spec : HashObjectSpec SHA512.CSHA512 sha512.
Proof. split; [apply SHA512.CSHA512_hash|apply SHA512.length_sha512|simpl; lia]. Qed.

(** ** HMAC *)

Section Hmac.
Context {H : Type} `{HashObject H}.

Record CHMAC := mkCHMAC { outer : H; inner : H }.

(** The constructor; [j1], [j2] and [j3] are what the uninitialised buffers hold. *)
Definition chmac_new (j1 j2 j3 : stream) (key : stream) : CHMAC :=
  let rkey :=
    if decide (length key <= (h_block H))%nat
    then key ++ replicate ((h_block H) - length key) 0
    else h_Finalize (h_Write (h_new j1) key) ++ replicate ((h_block H) - (h_output H)) 0 in
  let rkey := map (fun b => Z.lxor b 0x5c) rkey in
  let outer := h_Write (h_new j2) rkey in
  let rkey := map (fun b => Z.lxor b (Z.lxor 0x5c 0x36)) rkey in
  let inner := h_Write (h_new j3) rkey in
  mkCHMAC outer inner.

Definition chmac_Write (h : CHMAC) (data : stream) : CHMAC :=
  mkCHMAC (outer h) (h_Write (inner h) data).

Definition chmac_Finalize (h : CHMAC) : stream :=
  let temp := h_Finalize (inner h) in
  h_Finalize (h_Write (outer h) temp).

(** RFC 2104. *)
Definition hmac_key (hash : stream -> stream) (key : stream) : stream :=
  let k := if (length key <=? (h_block H))%nat then key else hash key in
  k ++ replicate ((h_block H) - length k) 0.
Definition hmac (hash : stream -> stream) (key m : stream) : stream :=
  let k := hmac_key hash key in
  hash (map (Z.lxor 0x5c) k ++ hash (map (Z.lxor 0x36) k ++ m)).

Context (hash : stream -> stream) {Hspec : HashObjectSpec H hash}.

Lemma length_hmac_key key : length (hmac_key hash key) = (h_block H).
Proof.
  pose proof h_sizes. pose proof (h_hash_length key) as Hl. unfold hmac_key.
  destruct (Nat.leb_spec (length key) (h_block H)); rewrite length_app, length_replicate; lia.
Qed.

Lemma rkey_hmac_key j1 key : length j1 = (h_block H) -> fits key ->
  (if decide (length key <= (h_block H))%nat
   then key ++ replicate ((h_block H) - length key) 0
   else h_Finalize (h_Write (h_new j1) key) ++ replicate ((h_block H) - (h_output H)) 0) = hmac_key hash key.
Proof.
  intros Hj Hk. unfold hmac_key. destruct (decide _), (Nat.leb_spec (length key) (h_block H)); try lia; [done|].
  pose proof (h_streaming j1 [key] Hj) as Hs. cbn [concat foldl] in Hs. rewrite app_nil_r in Hs.
  by rewrite Hs, h_hash_length.
Qed.

Lemma chmac_Writes ds h : outer (foldl chmac_Write h ds) = outer h /\
  inner (foldl chmac_Write h ds) = foldl h_Write (inner h) ds.
Proof. revert h. induction ds as [|d ds IH]; intros h; [done|]. apply (IH (chmac_Write h d)). Qed.

Lemma xor_pads k :
  map (fun b => Z.lxor b (Z.lxor 0x5c 0x36)) (map (fun b => Z.lxor b 0x5c) k) = map (Z.lxor 0x36) k.
Proof.
  rewrite map_map. apply map_ext. intros b. rewrite Z.lxor_assoc, Z.lxor_comm. done.
Qed.

Lemma chmac_hmac j1 j2 j3 key ds :
  length j1 = (h_block H) -> length j2 = (h_block H) -> length j3 = (h_block H) ->
  fits key -> Z.of_nat (length (concat ds)) <= 2 ^ 60 ->
  chmac_Finalize (foldl chmac_Write (chmac_new j1 j2 j3 key) ds) = hmac hash key (concat ds).
Proof.
  intros H1 H2 H3 Hk Hd. unfold chmac_Finalize. destruct (chmac_Writes ds (chmac_new j1 j2 j3 key)) as [-> ->].
  unfold chmac_new. rewrite rkey_hmac_key by done. cbn [outer inner]. rewrite xor_pads.
  pose proof (length_hmac_key key) as Hlen. pose proof h_sizes as Hsz.
  pose proof (h_hash_length (H := H) (hash := hash)) as Hout.
  change (foldl h_Write (h_Write (h_new j3) ?x) ds) with (foldl h_Write (h_new j3) (x :: ds)).
  rewrite (h_streaming j3), concat_cons; [|done|unfold fits; cbn [concat]; rewrite length_app, length_map; lia].
  change (h_Write (h_Write (h_new j2) ?x) ?y) with (foldl h_Write (h_new j2) [x; y]).
  rewrite (h_streaming j2); [|done|].
  - unfold hmac. cbn [concat]. rewrite app_nil_r. f_equal. f_equal. apply map_ext. intros b. apply Z.lxor_comm.
  - unfold fits. cbn [concat]. rewrite !length_app, length_map, Hout. simpl. lia.
Qed.
End Hmac.

Arguments CHMAC : clear implicits.

Definition CHMAC_SHA256 : Type := CHMAC SHA256.CSHA256.
Definition CHMAC_SHA512 : Type := CHMAC SHA512.CSHA512.
Definition hmac_sha256 : stream -> stream -> stream := hmac (H := SHA256.CSHA256) sha256.
Definition hmac_sha512 : stream -> stream -> stream := hmac (H := SHA512.CSHA512) sha512.

(** [BIP32Hash]: the child number goes in high byte first. *)
Definition BIP32Hash (j1 j2 j3 : stream) (chainCode : stream) (nChild header : Z) (data : stream) : stream :=
  let num := [Z.land (Z.shiftr nChild 24) 0xff; Z.land (Z.shiftr nChild 16) 0xff;
              Z.land (Z.shiftr nChild 8) 0xff; Z.land (Z.shiftr nChild 0) 0xff] in
  chmac_Finalize (H := SHA512.CSHA512)
    (chmac_Write (chmac_Write (chmac_Write (chmac_new j1 j2 j3 chainCode) [header]) data) num).

(** ** [CHash256] and [CHash160] *)

(** The object is a [CSHA256]; [Finalize] finishes it, resets it and hashes the hash. *)
Definition CHash256_Finalize (sha : SHA256.CSHA256) : stream :=
  let buf := SHA256.Finalize sha in
  let sha := hasher_finish 64 8 SHA256.Transform WriteBE64 sha in
  SHA256.Finalize (SHA256.Write (SHA256.Reset sha) buf).
Definition CHash160_Finalize (junk : stream) (sha : SHA256.CSHA256) : stream :=
  let buf := SHA256.Finalize sha in
  RIPEMD160.Finalize (RIPEMD160.Write (RIPEMD160.new junk) buf).

(** [Hash] of one to six objects, and what [CHashWriter] gives for the pieces written to it. *)
Definition Hash (junk : stream) (objects : list stream) : stream :=
  CHash256_Finalize (foldl SHA256.Write (SHA256.new junk) objects).
Definition Hash160 (junk junk' : stream) (vch : stream) : stream :=
  CHash160_Finalize junk' (SHA256.Write (SHA256.new junk) vch).

Lemma Hash_double junk ds : length junk = 64%nat -> fits (concat ds) ->
  Hash junk ds = sha256 (sha256 (concat ds)).
Proof.
  intros Hj Hd. unfold Hash, CHash256_Finalize. rewrite SHA256.CSHA256_hash by done.
  pose proof (Writes_fed 64 SHA256.Initialize SHA256.Transform ltac:(lia) ltac:(by exists (2 ^ 58)) ds _ []
    (fed_new 64 SHA256.Initialize SHA256.Transform ltac:(lia) junk Hj)) as Hf.
  pose proof (Reset_fed 64 SHA256.Initialize SHA256.Transform ltac:(lia) _ _
    (finish_fed 64 8 SHA256.Initialize SHA256.Transform WriteBE64 ltac:(lia) ltac:(by exists (2 ^ 58)) _ _ Hf)) as Hr.
  apply (Write_fed 64 SHA256.Initialize SHA256.Transform ltac:(lia) ltac:(by exists (2 ^ 58)) _ _ (sha256 (concat ds))) in Hr.
  rewrite <- (SHA256.digest_sha256 (sha256 _)) by (rewrite SHA256.length_sha256; lia).
  by apply (Finalize_fed 64 8 SHA256.Initialize SHA256.Transform WriteBE64 SHA256.write_state ltac:(lia) ltac:(by exists (2 ^ 58))) in Hr.
Qed.

Lemma Hash160_double junk junk' m : length junk = 64%nat -> length junk' = 64%nat -> fits m ->
  Hash160 junk junk' m = ripemd160 (sha256 m).
Proof.
  intros Hj Hj' Hm. unfold Hash160, CHash160_Finalize.
  pose proof (SHA256.CSHA256_hash junk [m] Hj) as Hs. cbn [foldl concat] in Hs. rewrite app_nil_r in Hs.
  rewrite Hs by done.
  pose proof (RIPEMD160.CRIPEMD160_hash junk' [sha256 m] Hj') as Hr. cbn [foldl concat] in Hr. rewrite app_nil_r in Hr.
  apply Hr. rewrite SHA256.length_sha256. lia.
Qed.

(** ** The interpreter's hash functions *)

Lemma le_bytes_u8 k x : Forall is_u8 (le_bytes k x).
Proof. revert x. induction k as [|k IH]; intros x; simpl; constructor; [apply u8_range|apply IH]. Qed.
Lemma be_bytes_u8 k x : Forall is_u8 (be_bytes k x).
Proof. apply Forall_rev, le_bytes_u8. Qed.

Ltac all_bytes := rewrite !Forall_app; split_and!; first [apply be_bytes_u8|apply le_bytes_u8].

(** What [CSHA256().Write(v).Finalize()] and its like give; the buffer of a
    new object holds any 64 bytes. *)
Definition real_hashes (junk : stream) : CryptoHashes := {|
  Interpreter.RIPEMD160 v := RIPEMD160.Finalize (RIPEMD160.Write (RIPEMD160.new junk) v);
  Interpreter.SHA1 v := SHA1.Finalize (SHA1.Write (SHA1.new junk) v);
  Interpreter.SHA256 v := SHA256.Finalize (SHA256.Write (SHA256.new junk) v)
|}.

Lemma SHA256_output s : Forall is_u8 (SHA256.write_state s) /\ length (SHA256.write_state s) = 32%nat.
Proof. destruct s as [[[[[[[a b] c] d] e] f] g] h]. split; [|done]. unfold SHA256.write_state. all_bytes. Qed.
Lemma SHA1_output s : Forall is_u8 (SHA1.write_state s) /\ length (SHA1.write_state s) = 20%nat.
Proof. destruct s as [[[[a b] c] d] e]. split; [|done]. unfold SHA1.write_state. all_bytes. Qed.
Lemma RIPEMD160_output s : Forall is_u8 (RIPEMD160.write_state s) /\ length (RIPEMD160.write_state s) = 20%nat.
Proof. destruct s as [[[[a b] c] d] e]. split; [|done]. unfold RIPEMD160.write_state. all_bytes. Qed.

#[export] Instance real_hashes_spec junk : @CryptoHashesSpec (real_hashes junk).
Proof. split; intros v; [apply RIPEMD160_output|apply SHA1_output|apply SHA256_output]. Qed.

(** C14. The hash classes compute the published functions: whatever the
    pieces a message is written in, and whatever the uninitialised buffer held, [CSHA256],
    [CSHA512] and [CSHA1] give the hash FIPS 180-4 defines (its constants being
    roots of primes), [CRIPEMD160] gives RIPEMD-160, [Hash] the double SHA-256
    and [Hash160] RIPEMD-160 of SHA-256. *)
Theorem hash_classes_meet_standards : forall junk junk512 ds,
  length junk = 64%nat -> length junk512 = 128%nat -> fits (concat ds) ->
  SHA256.Finalize (foldl SHA256.Write (SHA256.new junk) ds) = sha256 (concat ds) /\
  SHA512.Finalize (foldl SHA512.Write (SHA512.new junk512) ds) = sha512 (concat ds) /\
  SHA1.Finalize (foldl SHA1.Write (SHA1.new junk) ds) = sha1 (concat ds) /\
  RIPEMD160.Finalize (foldl RIPEMD160.Write (RIPEMD160.new junk) ds) = ripemd160 (concat ds) /\
  Hash junk ds = sha256 (sha256 (concat ds)) /\
  Hash160 junk junk (concat ds) = ripemd160 (sha256 (concat ds)).
Proof.
  intros junk junk512 ds Hj Hj' Hd. split_and!.
  - by apply SHA256.CSHA256_hash.
  - by apply SHA512.CSHA512_hash.
  - by apply SHA1.CSHA1_hash.
  - by apply RIPEMD160.CRIPEMD160_hash.
  - by apply Hash_double.
  - by apply Hash160_double.
Qed.

(** The message abc in two pieces, and its published digests. *)
Lemma hash_classes_meet_standards_witness :
  SHA256.Finalize (foldl SHA256.Write (SHA256.new (replicate 64 0xaa)) [[0x61]; [0x62; 0x63]]) =
    sha256 [0x61; 0x62; 0x63].
Proof.
  exact (proj1 (hash_classes_meet_standards (replicate 64 0xaa) (replicate 128 0xaa) [[0x61]; [0x62; 0x63]]
    eq_refl eq_refl eq_refl)).
Defined.

Lemma child_number n : is_u32 n ->
  [Z.land (Z.shiftr n 24) 0xff; Z.land (Z.shiftr n 16) 0xff; Z.land (Z.shiftr n 8) 0xff; Z.land (Z.shiftr n 0) 0xff]
  = be_bytes 4 n.
Proof.
  intros H. unfold be_bytes. cbn [le_bytes rev app]. change 0xff with (Z.ones 8).
  rewrite !Z.land_ones, !Z.shiftr_div_pow2, !Z.div_div by lia. change (2 ^ 0) with 1. by rewrite Z.div_1_r.
Qed.

(** [CHMAC_SHA256] and [CHMAC_SHA512] compute the code of RFC 2104 for any key, short or long, and any
    sequence of writes; [BIP32Hash] is the HMAC-SHA512, under the chain code, of
    the header byte, the data and the child number with its high byte first. *)
Theorem hmac_rfc2104 : forall j1 j2 j3 j4 j5 j6 key ds chainCode nChild header data,
  Forall (fun j => length j = 64%nat) [j1; j2; j3] -> Forall (fun j => length j = 128%nat) [j4; j5; j6] ->
  fits key -> Z.of_nat (length (concat ds)) <= 2 ^ 60 ->
  length chainCode = 32%nat -> length data = 32%nat -> is_u32 nChild ->
  chmac_Finalize (foldl chmac_Write (chmac_new (H := SHA256.CSHA256) j1 j2 j3 key) ds) = hmac_sha256 key (concat ds) /\
  chmac_Finalize (foldl chmac_Write (chmac_new (H := SHA512.CSHA512) j4 j5 j6 key) ds) = hmac_sha512 key (concat ds) /\
  BIP32Hash j4 j5 j6 chainCode nChild header data = hmac_sha512 chainCode (header :: data ++ be_bytes 4 nChild).
Proof.
  intros j1 j2 j3 j4 j5 j6 key ds chainCode nChild header data Hj Hj' Hk Hd Hc Hdata Hn.
  rewrite !Forall_cons in Hj, Hj'. destruct Hj as (? & ? & ? & _), Hj' as (? & ? & ? & _).
  split_and!; [by apply (chmac_hmac (H := SHA256.CSHA256) sha256)|by apply (chmac_hmac (H := SHA512.CSHA512) sha512)|].
  unfold BIP32Hash. rewrite child_number by done.
  pose proof (chmac_hmac (H := SHA512.CSHA512) sha512 j4 j5 j6 chainCode [[header]; data; be_bytes 4 nChild]) as Hb.
  cbn [foldl concat app] in Hb. rewrite app_nil_r in Hb. apply Hb; try done.
  - unfold fits. rewrite Hc. lia.
  - cbn [length]. rewrite length_app, Hdata. simpl. lia.
Qed.

Lemma hmac_rfc2104_witness :
  BIP32Hash (replicate 128 1) (replicate 128 2) (replicate 128 3) (replicate 32 7) 0x80000001 0 (replicate 32 9) =
    hmac_sha512 (replicate 32 7) (0 :: replicate 32 9 ++ be_bytes 4 0x80000001).
Proof.
  refine (proj2 (proj2 (hmac_rfc2104 (replicate 64 1) (replicate 64 2) (replicate 64 3)
    (replicate 128 1) (replicate 128 2) (replicate 128 3) [1; 2] [[3]; [4; 5]] (replicate 32 7) 0x80000001 0
    (replicate 32 9) _ _ _ _ _ _ _))).
  1, 2: repeat constructor.
  all: unfold fits, is_u32; simpl; lia.
Defined.

(** Published test vectors: the empty message and abc. *)
Example sha256_abc : sha256 [0x61; 0x62; 0x63] = be_bytes 32
  0xba7816bf8f01cfea414140de5dae2223b00361a396177a9cb410ff61f20015ad.
Proof. by vm_compute. Qed.
Example sha1_abc : sha1 [0x61; 0x62; 0x63] = be_bytes 20 0xa9993e364706816aba3e25717850c26c9cd0d89d.
Proof. by vm_compute. Qed.
Example ripemd160_abc : ripemd160 [0x61; 0x62; 0x63] = be_bytes 20 0x8eb208f7e05d987a9b044a8e98c6b087f15a0bfc.
Proof. by vm_compute. Qed.
Example sha512_abc : sha512 [0x61; 0x62; 0x63] = be_bytes 64
  0xddaf35a193617abacc417349ae20413112e6fa4e89a97ea20a9eeee64b55d39a2192992a274fc1a836ba3c23a3feebbd454d4423643ce80e2a9ac94fa54ca49f.
Proof. by vm_compute. Qed.
