(* ===== verification/SipHash.v ===== *)
(** [CSipHasher], [SipHashUint256], [SipHashUint256Extra] and [MurmurHash3] ([hash.cpp]): SipHash-2-4 as a
    stream, and the two versions specialised to 256-bit integers. *)

From stdpp Require Import prelude.
From Stdlib Require Import ZArith Lia.
From S2P Require Import Prelude Serialize.

Open Scope Z_scope.

(** ** The code *)

(** [ROTL(x, b)] on 64 bits *)
Definition ROTL64 (x b : Z) : Z := Z.lor (u64 (Z.shiftl x b)) (Z.shiftr x (64 - b)).

Definition sip_state : Type := Z * Z * Z * Z.

Definition SIPROUND (s : sip_state) : sip_state :=
  let '(v0, v1, v2, v3) := s in
  let v0 := u64 (v0 + v1) in let v1 := ROTL64 v1 13 in let v1 := Z.lxor v1 v0 in
  let v0 := ROTL64 v0 32 in
  let v2 := u64 (v2 + v3) in let v3 := ROTL64 v3 16 in let v3 := Z.lxor v3 v2 in
  let v0 := u64 (v0 + v3) in let v3 := ROTL64 v3 21 in let v3 := Z.lxor v3 v0 in
  let v2 := u64 (v2 + v1) in let v1 := ROTL64 v1 17 in let v1 := Z.lxor v1 v2 in
  let v2 := ROTL64 v2 32 in
  (v0, v1, v2, v3).

Definition xor_v3 (d : Z) (s : sip_state) : sip_state := let '(v0, v1, v2, v3) := s in (v0, v1, v2, Z.lxor v3 d).
Definition xor_v0 (d : Z) (s : sip_state) : sip_state := let '(v0, v1, v2, v3) := s in (Z.lxor v0 d, v1, v2, v3).
Definition xor_v2 (d : Z) (s : sip_state) : sip_state := let '(v0, v1, v2, v3) := s in (v0, v1, Z.lxor v2 d, v3).
Definition sip_result (s : sip_state) : Z :=
  let '(v0, v1, v2, v3) := s in Z.lxor (Z.lxor (Z.lxor v0 v1) v2) v3.

Record CSipHasher := mkSip { sip_v : sip_state; sip_tmp : Z; sip_count : Z }.

Definition sip_init (k0 k1 : Z) : sip_state :=
  (Z.lxor 0x736f6d6570736575 k0, Z.lxor 0x646f72616e646f6d k1,
   Z.lxor 0x6c7967656e657261 k0, Z.lxor 0x7465646279746573 k1).
Definition sip_new (k0 k1 : Z) : CSipHasher := mkSip (sip_init k0 k1) 0 0.

(** [Write(uint64_t)] asserts that whole words have been written. *)
Definition sip_Write64 (h : CSipHasher) (data : Z) : option CSipHasher :=
  if Z.rem (sip_count h) 8 =? 0 then
    let v := xor_v0 data (SIPROUND (SIPROUND (xor_v3 data (sip_v h)))) in
    Some (mkSip v (sip_tmp h) (sip_count h + 8))
  else None.

(** [Write(const unsigned char*, size_t)], byte by byte. *)
Fixpoint sip_write_loop (v : sip_state) (t c : Z) (data : stream) : CSipHasher :=
  match data with
  | [] => mkSip v t c
  | b :: data' =>
      let t := Z.lor t (u64 (Z.shiftl b (8 * Z.rem c 8))) in
      let c := c + 1 in
      if Z.land c 7 =? 0
      then sip_write_loop (xor_v0 t (SIPROUND (SIPROUND (xor_v3 t v)))) 0 c data'
      else sip_write_loop v t c data'
  end.
Definition sip_Write (h : CSipHasher) (data : stream) : CSipHasher :=
  sip_write_loop (sip_v h) (sip_tmp h) (sip_count h) data.

Definition sip_Finalize (h : CSipHasher) : Z :=
  let t := Z.lor (sip_tmp h) (u64 (Z.shiftl (sip_count h) 56)) in
  let v := xor_v0 t (SIPROUND (SIPROUND (xor_v3 t (sip_v h)))) in
  sip_result (SIPROUND (SIPROUND (SIPROUND (SIPROUND (xor_v2 0xff v))))).

(** [uint256::GetUint64] *)
Definition GetUint64 (val : stream) (pos : nat) : Z := le_value (take 8 (drop (pos * 8) val)).

Definition SipHashUint256 (k0 k1 : Z) (val : stream) : Z :=
  let d := GetUint64 val 0 in
  let v := (Z.lxor 0x736f6d6570736575 k0, Z.lxor 0x646f72616e646f6d k1,
            Z.lxor 0x6c7967656e657261 k0, Z.lxor (Z.lxor 0x7465646279746573 k1) d) in
  let v := xor_v0 d (SIPROUND (SIPROUND v)) in
  let d := GetUint64 val 1 in
  let v := xor_v0 d (SIPROUND (SIPROUND (xor_v3 d v))) in
  let d := GetUint64 val 2 in
  let v := xor_v0 d (SIPROUND (SIPROUND (xor_v3 d v))) in
  let d := GetUint64 val 3 in
  let v := xor_v0 d (SIPROUND (SIPROUND (xor_v3 d v))) in
  let v := SIPROUND (SIPROUND (xor_v3 (Z.shiftl 4 59) v)) in
  let v := xor_v0 (Z.shiftl 4 59) v in
  sip_result (SIPROUND (SIPROUND (SIPROUND (SIPROUND (xor_v2 0xff v))))).

Definition SipHashUint256Extra (k0 k1 : Z) (val : stream) (extra : Z) : Z :=
  let d := GetUint64 val 0 in
  let v := (Z.lxor 0x736f6d6570736575 k0, Z.lxor 0x646f72616e646f6d k1,
            Z.lxor 0x6c7967656e657261 k0, Z.lxor (Z.lxor 0x7465646279746573 k1) d) in
  let v := xor_v0 d (SIPROUND (SIPROUND v)) in
  let d := GetUint64 val 1 in
  let v := xor_v0 d (SIPROUND (SIPROUND (xor_v3 d v))) in
  let d := GetUint64 val 2 in
  let v := xor_v0 d (SIPROUND (SIPROUND (xor_v3 d v))) in
  let d := GetUint64 val 3 in
  let v := xor_v0 d (SIPROUND (SIPROUND (xor_v3 d v))) in
  let d := Z.lor (Z.shiftl 36 56) extra in
  let v := xor_v0 d (SIPROUND (SIPROUND (xor_v3 d v))) in
  sip_result (SIPROUND (SIPROUND (SIPROUND (SIPROUND (xor_v2 0xff v))))).

(** ** [MurmurHash3] *)

Definition ROTL32 (x r : Z) : Z := Z.lor (u32 (Z.shiftl x r)) (Z.shiftr x (32 - r)).
Definition murmur_c1 : Z := 0xcc9e2d51.
Definition murmur_c2 : Z := 0x1b873593.
(** [k1 *= c1; k1 = ROTL32(k1, 15); k1 *= c2;] *)
Definition murmur_mix (k1 : Z) : Z := u32 (ROTL32 (u32 (k1 * murmur_c1)) 15 * murmur_c2).

(** The body: one pass per block of four bytes; the rest is the tail. *)
Fixpoint murmur_body (nblocks : nat) (h1 : Z) (data : stream) : Z * stream :=
  match nblocks with
  | O => (h1, data)
  | S n =>
      let k1 := murmur_mix (le_value (take 4 data)) in
      let h1 := ROTL32 (Z.lxor h1 k1) 13 in
      murmur_body n (u32 (h1 * 5 + 0xe6546b64)) (drop 4 data)
  end.

(** The [switch] on the number of bytes left, with its fall-through. *)
Definition murmur_tail (h1 : Z) (tail : stream) : Z :=
  match tail with
  | [] => h1
  | [t0] => Z.lxor h1 (murmur_mix t0)
  | [t0; t1] => Z.lxor h1 (murmur_mix (Z.lxor (Z.shiftl t1 8) t0))
  | t0 :: t1 :: t2 :: _ => Z.lxor h1 (murmur_mix (Z.lxor (Z.lxor (Z.shiftl t2 16) (Z.shiftl t1 8)) t0))
  end.

Definition murmur_final (h1 : Z) : Z :=
  let h1 := Z.lxor h1 (Z.shiftr h1 16) in
  let h1 := u32 (h1 * 0x85ebca6b) in
  let h1 := Z.lxor h1 (Z.shiftr h1 13) in
  let h1 := u32 (h1 * 0xc2b2ae35) in
  Z.lxor h1 (Z.shiftr h1 16).

Definition MurmurHash3 (nHashSeed : Z) (vDataToHash : stream) : Z :=
  let '(h1, tail) := murmur_body (length vDataToHash / 4) nHashSeed vDataToHash in
  let h1 := murmur_tail h1 tail in
  murmur_final (Z.lxor h1 (u32 (Z.of_nat (length vDataToHash)))).

(** ** SipHash-2-4 of a message *)

Definition sip_compress (v : sip_state) (w : Z) : sip_state := xor_v0 w (SIPROUND (SIPROUND (xor_v3 w v))).

(** The words of the message, low byte first, and the last one: what is left over and, in its top byte, the
    length. *)
Definition sip_words (m : stream) : list Z :=
  map (fun i => le_value (take 8 (drop (8 * i) m))) (seq 0 (length m / 8)).
Definition sip_last (m : stream) : Z :=
  le_value (drop (8 * (length m / 8)) m) + 2 ^ 56 * (Z.of_nat (length m) mod 256).
Definition siphash (k0 k1 : Z) (m : stream) : Z :=
  let v := fold_left sip_compress (sip_words m ++ [sip_last m]) (sip_init k0 k1) in
  sip_result (SIPROUND (SIPROUND (SIPROUND (SIPROUND (xor_v2 0xff v))))).

(** What a hasher that was fed [m] holds. *)
Record sip_fed (k0 k1 : Z) (h : CSipHasher) (m : stream) : Prop := {
  sf_v : sip_v h = fold_left sip_compress (sip_words m) (sip_init k0 k1);
  sf_tmp : sip_tmp h = le_value (drop (8 * (length m / 8)) m);
  sf_count : sip_count h = Z.of_nat (length m);
  sf_bytes : Forall is_u8 m
}.

Lemma le_value_app a b : le_value (a ++ b) = le_value a + 2 ^ (8 * Z.of_nat (length a)) * le_value b.
Proof.
  induction a as [|x a IH]; [cbn [app length]; change (le_value []) with 0; lia|].
  cbn [app le_value length]. rewrite IH. replace (8 * Z.of_nat (S (length a))) with (8 + 8 * Z.of_nat (length a)) by lia.
  rewrite Z.pow_add_r by lia. ring.
Qed.

Lemma le_value_range bs : Forall is_u8 bs -> 0 <= le_value bs < 2 ^ (8 * Z.of_nat (length bs)).
Proof.
  induction 1 as [|x bs Hx _ IH]; [done|]. cbn [le_value length].
  replace (8 * Z.of_nat (S (length bs))) with (8 + 8 * Z.of_nat (length bs)) by lia.
  rewrite Z.pow_add_r by lia. unfold is_u8 in Hx. change (2 ^ 8) with 256 in *. nia.
Qed.

Lemma word_of_prefix (m x : stream) i : (i < length m / 8)%nat ->
  take 8 (drop (8 * i) (m ++ x)) = take 8 (drop (8 * i) m).
Proof.
  intros Hi. pose proof (Nat.div_mod_eq (length m) 8).
  rewrite drop_app_le by lia. apply take_app_le. rewrite length_drop. lia.
Qed.

Lemma sip_words_app m x :
  sip_words (m ++ x) =
  sip_words m ++ map (fun i => le_value (take 8 (drop (8 * i) (m ++ x))))
                     (seq (length m / 8) (length (m ++ x) / 8 - length m / 8)).
Proof.
  unfold sip_words.
  assert (Hle : (length m / 8 <= length (m ++ x) / 8)%nat)
    by (apply Nat.Div0.div_le_mono; rewrite length_app; lia).
  rewrite (Nat.le_add_sub _ _ Hle) at 1. rewrite seq_app, map_app. f_equal.
  apply map_ext_in. intros i Hi%in_seq. by rewrite word_of_prefix by lia.
Qed.

(** A byte completes a word, or it does not. *)
Lemma sip_words_byte m b :
  sip_words (m ++ [b]) =
    (if decide (length m mod 8 = 7)%nat
     then sip_words m ++ [le_value (drop (8 * (length m / 8)) m ++ [b])] else sip_words m) /\
  drop (8 * (length (m ++ [b]) / 8)) (m ++ [b]) =
    (if decide (length m mod 8 = 7)%nat then [] else drop (8 * (length m / 8)) m ++ [b]).
Proof.
  pose proof (Nat.div_mod_eq (length m) 8) as Hd. pose proof (Nat.mod_upper_bound (length m) 8).
  rewrite sip_words_app, length_app. cbn [length].
  destruct (decide _) as [H7|H7].
  - assert (Hq : ((length m + 1) / 8 = S (length m / 8))%nat).
    { rewrite Hd at 1. rewrite H7. replace (_ + 7 + 1)%nat with ((length m / 8 + 1) * 8)%nat by lia.
      rewrite Nat.div_mul by lia. lia. }
    rewrite Hq. replace (S (length m / 8) - length m / 8)%nat with 1%nat by lia. cbn [seq map].
    rewrite drop_app_le by lia. split.
    + do 2 f_equal. f_equal. apply take_ge. rewrite length_app, length_drop. cbn [length]. lia.
    + apply drop_ge. rewrite length_app. cbn [length]. lia.
  - assert (Hq : ((length m + 1) / 8 = length m / 8)%nat).
    { symmetry. apply (Nat.div_unique _ _ _ (length m mod 8 + 1)); lia. }
    rewrite Hq, Nat.sub_diag. cbn [seq map]. rewrite app_nil_r. split; [done|].
    by rewrite drop_app_le by lia.
Qed.

Lemma sip_byte h k0 k1 m b : sip_fed k0 k1 h m -> is_u8 b -> sip_fed k0 k1 (sip_Write h [b]) (m ++ [b]).
Proof.
  intros [Hv Ht Hc Hb] Hu. unfold sip_Write. cbn [sip_write_loop].
  pose proof (Nat.div_mod_eq (length m) 8) as Hd. pose proof (Nat.mod_upper_bound (length m) 8) as Hlt.
  set (tail := drop (8 * (length m / 8)) m) in *.
  assert (Hlen : length tail = (length m mod 8)%nat) by (subst tail; rewrite length_drop; lia).
  assert (Hrange : 0 <= le_value tail < 2 ^ (8 * Z.of_nat (length m mod 8)%nat)).
  { rewrite <- Hlen. apply le_value_range. by apply Forall_drop. }
  assert (Hrem : Z.rem (sip_count h) 8 = Z.of_nat (length m mod 8)%nat).
  { rewrite Hc, Z.rem_mod_nonneg by lia. by rewrite Nat2Z.inj_mod. }
  assert (Hword : Z.lor (sip_tmp h) (u64 (Z.shiftl b (8 * Z.rem (sip_count h) 8))) = le_value (tail ++ [b])).
  { rewrite Hrem, Ht, le_value_app, Hlen.
    assert (Hsh : 0 <= Z.shiftl b (8 * Z.of_nat (length m mod 8)%nat) < 2 ^ 64).
    { rewrite Z.shiftl_mul_pow2 by lia. unfold is_u8 in Hu.
      assert (0 < 2 ^ (8 * Z.of_nat (length m mod 8)%nat) <= 2 ^ 56)
        by (split; [apply Z.pow_pos_nonneg; lia|apply Z.pow_le_mono_r; lia]).
      change (2 ^ 64) with (2 ^ 8 * 2 ^ 56). nia. }
    unfold u64. rewrite Z.mod_small by lia. rewrite lor_shiftl_add by lia. cbn [le_value]. lia. }
  rewrite Hword. destruct (sip_words_byte m b) as [Hw Htl]. fold tail in Hw, Htl.
  assert (Hland : (Z.land (sip_count h + 1) 7 =? 0) = bool_decide (length m mod 8 = 7)%nat).
  { change 7 with (Z.ones 3). rewrite Z.land_ones, Hc by lia. change (2 ^ 3) with 8.
    destruct (decide (length m mod 8 = 7)%nat) as [H7|H7].
    - rewrite bool_decide_eq_true_2 by done. apply Z.eqb_eq. Z.div_mod_to_equations. lia.
    - rewrite bool_decide_eq_false_2 by done. apply Z.eqb_neq. Z.div_mod_to_equations. lia. }
  destruct (decide (length m mod 8 = 7)%nat) as [H7|H7];
    [rewrite bool_decide_eq_true_2 in Hland by done|rewrite bool_decide_eq_false_2 in Hland by done]; rewrite Hland.
  - split; cbn [sip_v sip_tmp sip_count].
    + rewrite Hw, fold_left_app, <- Hv. done.
    + by rewrite Htl.
    + rewrite Hc, length_app. cbn [length]. lia.
    + apply Forall_app. auto.
  - split; cbn [sip_v sip_tmp sip_count].
    + by rewrite Hw.
    + by rewrite Htl.
    + rewrite Hc, length_app. cbn [length]. lia.
    + apply Forall_app. auto.
Qed.

Lemma sip_write_cons h b d : sip_Write h (b :: d) = sip_Write (sip_Write h [b]) d.
Proof. unfold sip_Write. cbn [sip_write_loop]. by destruct (_ =? 0). Qed.

Lemma sip_bytes d h k0 k1 m : sip_fed k0 k1 h m -> Forall is_u8 d -> sip_fed k0 k1 (sip_Write h d) (m ++ d).
Proof.
  revert h m. induction d as [|b d IH]; intros h m Hf Hd.
  - rewrite app_nil_r. by destruct h.
  - rewrite sip_write_cons. inversion Hd; subst.
    replace (m ++ b :: d) with ((m ++ [b]) ++ d) by (by rewrite <- app_assoc).
    apply IH; [by apply sip_byte|done].
Qed.

Lemma sip_fed_new k0 k1 : sip_fed k0 k1 (sip_new k0 k1) [].
Proof. by split. Qed.

(** Writing a word is writing its eight bytes. *)
Lemma sip_word h k0 k1 m w : sip_fed k0 k1 h m -> (length m mod 8 = 0)%nat -> is_u64 w ->
  exists h', sip_Write64 h w = Some h' /\ sip_fed k0 k1 h' (m ++ le_bytes 8 w).
Proof.
  intros [Hv Ht Hc Hb] H0 Hw. unfold sip_Write64.
  assert (Hrem : Z.rem (sip_count h) 8 = 0).
  { rewrite Hc, Z.rem_mod_nonneg by lia. pose proof (Nat2Z.inj_mod (length m) 8). lia. }
  rewrite Hrem. eexists. split; [done|].
  pose proof (Nat.div_mod_eq (length m) 8) as Hd.
  assert (Hlen : length (m ++ le_bytes 8 w) = (8 * (length m / 8 + 1))%nat)
    by (rewrite length_app, length_le_bytes; lia).
  assert (Hq : (length (m ++ le_bytes 8 w) / 8 = length m / 8 + 1)%nat)
    by (rewrite Hlen, Nat.mul_comm; apply Nat.div_mul; lia).
  split; cbn [sip_v sip_tmp sip_count].
  - rewrite sip_words_app, Hq, fold_left_app, <- Hv.
    replace (length m / 8 + 1 - length m / 8)%nat with 1%nat by lia. cbn [seq map fold_left].
    rewrite drop_app_length' by lia. rewrite take_ge by (rewrite length_le_bytes; lia).
    by rewrite le_value_bytes.
  - rewrite Ht, Hq, !drop_ge by lia. done.
  - rewrite Hc, length_app, length_le_bytes. lia.
  - apply Forall_app. split; [done|]. repeat (constructor; [apply u8_range|]). constructor.
Qed.

Lemma sip_Finalize_fed h k0 k1 m : sip_fed k0 k1 h m -> sip_Finalize h = siphash k0 k1 m.
Proof.
  intros [Hv Ht Hc Hb]. unfold sip_Finalize, siphash. cbv zeta. rewrite fold_left_app, <- Hv. cbn [fold_left].
  assert (Hl : Z.lor (sip_tmp h) (u64 (Z.shiftl (sip_count h) 56)) = sip_last m); [|by rewrite Hl].
  pose proof (Nat.div_mod_eq (length m) 8). pose proof (Nat.mod_upper_bound (length m) 8).
  assert (Hr : 0 <= sip_tmp h < 2 ^ 56).
  { rewrite Ht. pose proof (le_value_range (drop (8 * (length m / 8)) m) ltac:(by apply Forall_drop)) as Hr.
    rewrite length_drop in Hr. split; [lia|]. eapply Z.lt_le_trans; [apply Hr|]. apply Z.pow_le_mono_r; lia. }
  unfold u64. rewrite Z.shiftl_mul_pow2, Hc by lia.
  change (2 ^ 64) with (256 * 2 ^ 56). rewrite Zmult_mod_distr_r, <- Z.shiftl_mul_pow2 by lia.
  rewrite lor_shiftl_add by lia. unfold sip_last. by rewrite Ht.
Qed.

Lemma sip_pieces ds h k0 k1 m : sip_fed k0 k1 h m -> Forall is_u8 (concat ds) ->
  sip_fed k0 k1 (foldl sip_Write h ds) (m ++ concat ds).
Proof.
  revert h m. induction ds as [|d ds IH]; intros h m Hf Hd; simpl in *; [by rewrite app_nil_r|].
  apply Forall_app in Hd as [Hd Hds]. rewrite app_assoc. apply IH; [by apply sip_bytes|done].
Qed.

(** ** The specialised versions *)

Lemma sip_words_256 val x : length val = 32%nat -> (length x < 8)%nat ->
  sip_words (val ++ x) = [GetUint64 val 0; GetUint64 val 1; GetUint64 val 2; GetUint64 val 3].
Proof.
  intros H Hx. rewrite sip_words_app, H.
  replace (length (val ++ x) / 8)%nat with 4%nat
    by (apply (Nat.div_unique _ _ _ (length x)); rewrite ?length_app; lia).
  change (32 / 8)%nat with 4%nat. rewrite Nat.sub_diag. cbn [seq map]. rewrite app_nil_r.
  unfold sip_words. rewrite H. reflexivity.
Qed.

Lemma SipHashUint256_siphash k0 k1 val : length val = 32%nat -> SipHashUint256 k0 k1 val = siphash k0 k1 val.
Proof.
  intros H. unfold siphash. rewrite <- (app_nil_r val) at 2. rewrite sip_words_256 by (done || simpl; lia).
  assert (Hl : sip_last val = Z.shiftl 4 59).
  { unfold sip_last. rewrite H. change (8 * (32 / 8))%nat with 32%nat. by rewrite drop_ge by lia. }
  rewrite Hl. unfold SipHashUint256, sip_compress, sip_init. cbv zeta. cbn [fold_left app xor_v3]. reflexivity.
Qed.

Lemma SipHashUint256Extra_siphash k0 k1 val extra : length val = 32%nat -> is_u32 extra ->
  SipHashUint256Extra k0 k1 val extra = siphash k0 k1 (val ++ le_bytes 4 extra).
Proof.
  intros H He. unfold siphash. rewrite sip_words_256 by (done || (rewrite length_le_bytes; lia)).
  assert (Hl : sip_last (val ++ le_bytes 4 extra) = Z.lor (Z.shiftl 36 56) extra).
  { unfold sip_last. rewrite length_app, H, length_le_bytes. change (8 * ((32 + 4) / 8))%nat with 32%nat.
    rewrite drop_app_length' by lia. rewrite le_value_bytes by done.
    rewrite Z.lor_comm, lor_shiftl_add; [done| |lia]. unfold is_u32 in He. lia. }
  rewrite Hl. unfold SipHashUint256Extra, sip_compress, sip_init. cbv zeta. cbn [fold_left app xor_v3]. reflexivity.
Qed.

Lemma GetUint64_range val i : Forall is_u8 val -> is_u64 (GetUint64 val i).
Proof.
  intros H. unfold GetUint64, is_u64.
  pose proof (le_value_range (take 8 (drop (i * 8) val)) ltac:(by apply Forall_take, Forall_drop)) as Hr.
  rewrite length_take in Hr. split; [lia|]. eapply Z.lt_le_trans; [apply Hr|]. apply Z.pow_le_mono_r; lia.
Qed.

Lemma le_bytes_value bs : Forall is_u8 bs -> le_bytes (length bs) (le_value bs) = bs.
Proof.
  induction 1 as [|b bs Hb _ IH]; [done|]. cbn [length le_value le_bytes]. unfold is_u8 in Hb.
  rewrite (Z.mul_comm (2 ^ 8)), Z_mod_plus_full, Z.div_add by lia.
  by rewrite (Z.div_small b), Z.add_0_l, IH, Z.mod_small by lia.
Qed.

(** Four words are the 32 bytes. *)
Lemma words_of_256 val : length val = 32%nat -> Forall is_u8 val ->
  ((([] ++ le_bytes 8 (GetUint64 val 0)) ++ le_bytes 8 (GetUint64 val 1)) ++ le_bytes 8 (GetUint64 val 2)) ++
    le_bytes 8 (GetUint64 val 3) = val.
Proof.
  intros Hlen Hval. unfold GetUint64.
  assert (Hw : forall i, (i < 4)%nat -> le_bytes 8 (le_value (take 8 (drop (i * 8) val))) = take 8 (drop (i * 8) val)).
  { intros i Hi. rewrite <- (le_bytes_value (take 8 (drop (i * 8) val))) at 2
      by (by apply Forall_take, Forall_drop).
    f_equal. rewrite length_take, length_drop. lia. }
  rewrite !Hw by lia. cbn [app Nat.mul Nat.add].
  rewrite <- !app_assoc. rewrite (take_ge (drop 24 val)) by (rewrite length_drop; lia).
  replace (drop 24 val) with (drop 8 (drop 16 val)) by (by rewrite drop_drop). rewrite take_drop.
  replace (drop 16 val) with (drop 8 (drop 8 val)) by (by rewrite drop_drop). rewrite take_drop.
  change (drop 0 val) with val. apply take_drop.
Qed.

(** However its bytes arrive, [CSipHasher] computes SipHash-2-4, and the
    optimised [SipHashUint256] and [SipHashUint256Extra] are what their header says they are
    identical to: the general hasher fed the four words of the integer (which its
    assertion lets through), and then the four bytes of [extra]. *)
Theorem siphash_specialised_equal : forall k0 k1 ds val extra,
  Forall is_u8 (concat ds) -> length val = 32%nat -> Forall is_u8 val -> is_u32 extra ->
  sip_Finalize (foldl sip_Write (sip_new k0 k1) ds) = siphash k0 k1 (concat ds) /\
  exists h,
    (sip_Write64 (sip_new k0 k1) (GetUint64 val 0) ≫= fun h =>
     sip_Write64 h (GetUint64 val 1) ≫= fun h =>
     sip_Write64 h (GetUint64 val 2) ≫= fun h =>
     sip_Write64 h (GetUint64 val 3)) = Some h /\
    SipHashUint256 k0 k1 val = sip_Finalize h /\
    SipHashUint256Extra k0 k1 val extra = sip_Finalize (sip_Write h (le_bytes 4 extra)).
Proof.
  intros k0 k1 ds val extra Hds Hlen Hval He. split.
  { apply sip_Finalize_fed, (sip_pieces ds _ _ _ []); [apply sip_fed_new|done]. }
  destruct (sip_word _ _ _ _ (GetUint64 val 0) (sip_fed_new k0 k1)) as (h1 & -> & H1);
    [done|by apply GetUint64_range|]. cbn [mbind option_bind].
  destruct (sip_word _ _ _ _ (GetUint64 val 1) H1) as (h2 & -> & H2);
    [done|by apply GetUint64_range|]. cbn [mbind option_bind].
  destruct (sip_word _ _ _ _ (GetUint64 val 2) H2) as (h3 & -> & H3);
    [done|by apply GetUint64_range|]. cbn [mbind option_bind].
  destruct (sip_word _ _ _ _ (GetUint64 val 3) H3) as (h4 & -> & H4);
    [done|by apply GetUint64_range|].
  exists h4. split; [done|]. rewrite words_of_256 in H4 by done. split.
  - rewrite SipHashUint256_siphash by done. symmetry. by apply sip_Finalize_fed.
  - rewrite SipHashUint256Extra_siphash by done. symmetry. apply sip_Finalize_fed, sip_bytes; [done|].
    repeat (constructor; [apply u8_range|]). constructor.
Qed.

Lemma siphash_specialised_equal_witness :
  sip_Finalize (foldl sip_Write (sip_new 0x0706050403020100 0x0f0e0d0c0b0a0908) [[0; 1; 2]; [3; 4; 5; 6; 7; 8]]) =
    siphash 0x0706050403020100 0x0f0e0d0c0b0a0908 [0; 1; 2; 3; 4; 5; 6; 7; 8].
Proof.
  refine (proj1 (siphash_specialised_equal 0x0706050403020100 0x0f0e0d0c0b0a0908 [[0; 1; 2]; [3; 4; 5; 6; 7; 8]]
    (replicate 32 5) 7 _ eq_refl _ _)).
  - repeat (constructor; [unfold is_u8; lia|]). constructor.
  - apply Forall_replicate. unfold is_u8. lia.
  - unfold is_u32. lia.
Defined.

(** A published test vector: the key 00..0f and the message 00..0e. *)
Example siphash_vector : siphash 0x0706050403020100 0x0f0e0d0c0b0a0908 (map Z.of_nat (seq 0 15)) = 0xa129ca6149be45e5.
Proof. by vm_compute. Qed.
