(* ===== verification/Standard.v ===== *)
(** [script/standard.cpp]: recognising the standard output scripts ([Solver],
    [ExtractDestination], [ExtractDestinations]) and building them. *)

From stdpp Require Import prelude.
From Stdlib Require Import ZArith Lia.
From S2P Require Import Prelude Opcodes Transaction Compact Script Interpreter InterpreterSafe Spends Compressor.

Open Scope Z_scope.

Inductive txnouttype : Set :=
  | TX_NONSTANDARD | TX_PUBKEY | TX_PUBKEYHASH | TX_SCRIPTHASH | TX_MULTISIG | TX_NULL_DATA
  | TX_WITNESS_V0_SCRIPTHASH | TX_WITNESS_V0_KEYHASH | TX_ASSET (a : asset_type) | TX_RESTRICTED_ASSET_DATA.

#[export] Instance asset_type_eq_dec : EqDecision asset_type.
Proof. solve_decision. Defined.
#[export] Instance txnouttype_eq_dec : EqDecision txnouttype.
Proof. solve_decision. Defined.

Inductive CTxDestination : Set :=
  | CNoDestination
  | CKeyID (h : valtype)
  | CScriptID (h : valtype).

(** ** [Solver] *)

(** The templates, in the order of the multimap. *)
Definition mTemplates : list (txnouttype * CScript) :=
  [(TX_PUBKEY, [OP_PUBKEY; OP_CHECKSIG]);
   (TX_PUBKEYHASH, [OP_DUP; OP_HASH160; OP_PUBKEYHASH; OP_EQUALVERIFY; OP_CHECKSIG]);
   (TX_MULTISIG, [OP_SMALLINTEGER; OP_PUBKEYS; OP_SMALLINTEGER; OP_CHECKMULTISIG])].

(** [while (vch1.size() >= 33 && vch1.size() <= 65) ...]: the keys are collected;
    what comes back is the next instruction. When there is none, [GetOp] leaves an invalid opcode
    and no operand. *)
Fixpoint pubkeys_loop (fuel : nat) (opcode1 : Z) (vch1 : valtype) (pc1 : CScript) (vSolutions : list valtype)
  : Z * valtype * CScript * list valtype :=
  match fuel with
  | O => (opcode1, vch1, pc1, vSolutions)
  | S fuel' =>
      if (33 <=? size vch1) && (size vch1 <=? 65) then
        match GetOp2 pc1 with
        | None => (OP_INVALIDOPCODE, [], [], vSolutions ++ [vch1])
        | Some (opcode1', vch1', pc1') => pubkeys_loop fuel' opcode1' vch1' pc1' (vSolutions ++ [vch1])
        end
      else (opcode1, vch1, pc1, vSolutions)
  end.

(** One instruction of the script against one of the template: the solutions
    so far, or [None] for the [break]. *)
Definition match_op (opcode1 : Z) (vch1 : valtype) (opcode2 : Z) (vch2 : valtype) (vSolutions : list valtype)
  : option (list valtype) :=
  if opcode2 =? OP_PUBKEY then
    if (size vch1 <? 33) || (65 <? size vch1) then None else Some (vSolutions ++ [vch1])
  else if opcode2 =? OP_PUBKEYHASH then
    if negb (size vch1 =? 20) then None else Some (vSolutions ++ [vch1])
  else if opcode2 =? OP_SMALLINTEGER then
    if (opcode1 =? OP_0) || ((OP_1 <=? opcode1) && (opcode1 <=? OP_16))
    then n ← DecodeOP_N opcode1; Some (vSolutions ++ [[u8 n]]) else None
  else if negb (opcode1 =? opcode2) || negb (bool_decide (vch1 = vch2)) then None
  else Some vSolutions.

(** The comparison with one template; the fuel is the length of the script, whose
    instructions are consumed. *)
Fixpoint compare_loop (fuel : nat) (pc1 pc2 : CScript) (vSolutions : list valtype) : option (list valtype) :=
  match pc1, pc2 with
  | [], [] => Some vSolutions
  | _, _ =>
      match fuel with
      | O => None
      | S fuel' =>
          '(opcode1, vch1, pc1) ← GetOp2 pc1;
          '(opcode2, vch2, pc2) ← GetOp2 pc2;
          if opcode2 =? OP_PUBKEYS then
            let '(opcode1, vch1, pc1, vSolutions) := pubkeys_loop (S (length pc1)) opcode1 vch1 pc1 vSolutions in
            '(opcode2, vch2, pc2) ← GetOp2 pc2;
            s ← match_op opcode1 vch1 opcode2 vch2 vSolutions;
            compare_loop fuel' pc1 pc2 s
          else
            s ← match_op opcode1 vch1 opcode2 vch2 vSolutions;
            compare_loop fuel' pc1 pc2 s
      end
  end.

(** The result of [Solver]: its value, the type it stores ([None]: it stores none) and the solutions. *)
Record solved := mkSolved { sv_ret : bool; sv_type : option txnouttype; sv_solutions : list valtype }.

(** Additional checks for [TX_MULTISIG]. *)
Definition multisig_ok (vSolutions : list valtype) : bool :=
  let m := aget (default [] (head vSolutions)) 0 in
  let n := aget (default [] (last vSolutions)) 0 in
  negb ((m <? 1) || (n <? 1) || (n <? m) || negb (size vSolutions - 2 =? n)).

Fixpoint scan_templates (templates : list (txnouttype * CScript)) (script1 : CScript) : solved :=
  match templates with
  | [] => mkSolved false (Some TX_NONSTANDARD) []
  | (t, script2) :: rest =>
      match compare_loop (length script1) script1 script2 [] with
      | Some vSolutions =>
          if bool_decide (t = TX_MULTISIG) && negb (multisig_ok vSolutions)
          then mkSolved false (Some t) vSolutions
          else mkSolved true (Some t) vSolutions
      | None => scan_templates rest script1
      end
  end.

Definition Solver (scriptPubKey : CScript) : solved :=
  if IsPayToScriptHash scriptPubKey then
    mkSolved true (Some TX_SCRIPTHASH) [take 20 (drop 2 scriptPubKey)]
  else
  match IsAssetScript scriptPubKey with
  | Some (nType, _, _) => mkSolved true (Some (TX_ASSET nType)) [take 20 (drop 3 scriptPubKey)]
  | None =>
  match IsWitnessProgram scriptPubKey with
  | Some (witnessversion, witnessprogram) =>
      if (witnessversion =? 0) && (size witnessprogram =? 20) then
        mkSolved true (Some TX_WITNESS_V0_KEYHASH) [witnessprogram]
      else if (witnessversion =? 0) && (size witnessprogram =? 32) then
        mkSolved true (Some TX_WITNESS_V0_SCRIPTHASH) [witnessprogram]
      else mkSolved false None []
  | None =>
  if (1 <=? size scriptPubKey) && (aget scriptPubKey 0 =? OP_RETURN) && IsPushOnly (drop 1 scriptPubKey) then
    mkSolved true (Some TX_NULL_DATA) []
  else if (1 <=? size scriptPubKey) && (aget scriptPubKey 0 =? OP_RVH_ASSET) && IsPushOnly (drop 1 scriptPubKey) then
    mkSolved true (Some TX_RESTRICTED_ASSET_DATA)
      (if (23 <=? size scriptPubKey) && negb (aget scriptPubKey 1 =? OP_RESERVED)
       then [take 20 (drop 2 scriptPubKey)] else [])
  else scan_templates mTemplates scriptPubKey
  end end.

(** ** Destinations *)

Section Destinations.
Context `{CryptoHashes}.

(** [CPubKey::GetID] *)
Definition GetID (key : valtype) : valtype := CHash160 key.

Definition first_solution (s : solved) : valtype := default [] (head (sv_solutions s)).

Definition ExtractDestination (scriptPubKey : CScript) : option CTxDestination :=
  let s := Solver scriptPubKey in
  if negb (sv_ret s) then None
  else
    match sv_type s with
    | Some TX_PUBKEY =>
        let pubKey := PubKey_Set (first_solution s) in
        if negb (PubKey_IsValid pubKey) then None else Some (CKeyID (GetID pubKey))
    | Some TX_PUBKEYHASH => Some (CKeyID (first_solution s))
    | Some TX_SCRIPTHASH => Some (CScriptID (first_solution s))
    | Some (TX_ASSET _) => Some (CKeyID (first_solution s))
    | Some TX_RESTRICTED_ASSET_DATA =>
        match sv_solutions s with [] => None | h :: _ => Some (CKeyID h) end
    | _ => None
    end.

(** The keys of a multisig script, between the two numbers. *)
Definition multisig_keys (vSolutions : list valtype) : list valtype := take (length vSolutions - 2) (drop 1 vSolutions).

(** [ExtractDestinations]: the type, the addresses and how many are required. *)
Definition ExtractDestinations (scriptPubKey : CScript) : option (txnouttype * list CTxDestination * Z) :=
  let s := Solver scriptPubKey in
  let typeRet := default TX_NONSTANDARD (sv_type s) in
  if negb (sv_ret s) then None
  else
    match typeRet with
    | TX_NULL_DATA => None
    | TX_MULTISIG =>
        let nRequiredRet := aget (first_solution s) 0 in
        let keys := filter (fun k => PubKey_IsValid k) (map PubKey_Set (multisig_keys (sv_solutions s))) in
        match map (fun k => CKeyID (GetID k)) keys with
        | [] => None
        | addressRet => Some (typeRet, addressRet, nRequiredRet)
        end
    | _ => address ← ExtractDestination scriptPubKey; Some (typeRet, [address], 1)
    end.

(** ** Building scripts *)

(** [CScriptVisitor] *)
Definition GetScriptForDestination (dest : CTxDestination) : CScript :=
  match dest with
  | CNoDestination => []
  | CKeyID keyID => [OP_DUP; OP_HASH160] ++ push_data keyID ++ [OP_EQUALVERIFY; OP_CHECKSIG]
  | CScriptID scriptID => [OP_HASH160] ++ push_data scriptID ++ [OP_EQUAL]
  end.

(** [CScriptFutureVisitor]; a script hash converts to a key hash on the way in. *)
Definition GetFutureScriptForDestination (dest : CTxDestination) (height : Z) : CScript :=
  match dest with
  | CNoDestination => []
  | CKeyID h | CScriptID h => push_int64 height ++ [OP_CHECKSEQUENCEVERIFY; OP_DROP] ++ push_data h ++ [OP_CHECKSIG]
  end.

(** [CNullAssetScriptVisitor] *)
Definition GetScriptForNullAssetDataDestination (dest : CTxDestination) : CScript :=
  match dest with
  | CNoDestination => []
  | CKeyID h | CScriptID h => [OP_RVH_ASSET] ++ push_data h
  end.

Definition GetScriptForRawPubKey (pubKey : valtype) : CScript := push_data pubKey ++ [OP_CHECKSIG].

(** [None]: an assertion of [EncodeOP_N] fails. *)
Definition GetScriptForMultisig (nRequired : Z) (keys : list valtype) : option CScript :=
  m ← EncodeOP_N nRequired;
  n ← EncodeOP_N (size keys);
  Some ([m] ++ concat (map push_data keys) ++ [n; OP_CHECKMULTISIG]).

Definition GetScriptForWitness (redeemscript : CScript) : CScript :=
  let s := Solver redeemscript in
  let script_hash := [OP_0] ++ push_data (SHA256 redeemscript) in
  if sv_ret s then
    match sv_type s with
    | Some TX_PUBKEY => [OP_0] ++ push_data (CHash160 (first_solution s))
    | Some TX_PUBKEYHASH => [OP_0] ++ push_data (first_solution s)
    | _ => script_hash
    end
  else script_hash.

Definition IsValidDestination (dest : CTxDestination) : bool :=
  match dest with CNoDestination => false | _ => true end.
End Destinations.

(** ** The scripts that are built are recognised *)

Lemma Solver_keyhash h : length h = 20%nat ->
  Solver (GetScriptForDestination (CKeyID h)) = mkSolved true (Some TX_PUBKEYHASH) [h].
Proof.
  intros Hh. do 20 (destruct h as [|? h]; [done|]). destruct h; [|done]. reflexivity.
Qed.

Lemma Solver_scripthash h : length h = 20%nat ->
  Solver (GetScriptForDestination (CScriptID h)) = mkSolved true (Some TX_SCRIPTHASH) [h].
Proof.
  intros Hh. do 20 (destruct h as [|? h]; [done|]). destruct h; [|done]. reflexivity.
Qed.

(** The sizes of the keys [Solver] takes. *)
Definition key_size (k : valtype) : Prop := 33 <= size k <= 65.

Lemma key_push k : key_size k -> push_data k = size k :: k.
Proof. unfold key_size. intros H. apply push_data_plain. unfold plain_push. lia. Qed.

Lemma key_GetOp2 k rest : key_size k -> GetOp2 (push_data k ++ rest) = Some (size k, k, rest).
Proof.
  intros H. rewrite GetOp2_push_data by (unfold key_size in H; lia).
  unfold push_opcode, OP_PUSHDATA1. unfold key_size in H. by rewrite (proj2 (Z.ltb_lt (size k) 0x4c)) by lia.
Qed.

Lemma aget_head b s : aget (b :: s) 0 = b.
Proof. done. Qed.

Lemma compare_loop_step fuel pc1 pc2 sols opcode1 vch1 pc1' opcode2 vch2 pc2' :
  GetOp2 pc1 = Some (opcode1, vch1, pc1') -> GetOp2 pc2 = Some (opcode2, vch2, pc2') -> opcode2 <> OP_PUBKEYS ->
  compare_loop (S fuel) pc1 pc2 sols =
    match_op opcode1 vch1 opcode2 vch2 sols ≫= compare_loop fuel pc1' pc2'.
Proof.
  intros H1 H2 Hne. destruct pc1; [done|]. cbn [compare_loop]. rewrite H1, H2. cbn [mbind option_bind].
  by rewrite (proj2 (Z.eqb_neq opcode2 OP_PUBKEYS)).
Qed.

Lemma compare_loop_pubkeys fuel pc1 pc2 sols opcode1 vch1 pc1' o v p sols' opcode2 vch2 pc2' :
  GetOp2 pc1 = Some (opcode1, vch1, pc1') ->
  pubkeys_loop (S (length pc1')) opcode1 vch1 pc1' sols = (o, v, p, sols') ->
  GetOp2 pc2 = Some (opcode2, vch2, pc2') ->
  compare_loop (S fuel) pc1 (OP_PUBKEYS :: pc2) sols = match_op o v opcode2 vch2 sols' ≫= compare_loop fuel p pc2'.
Proof.
  intros H1 H2 H3. destruct pc1; [done|]. cbn [compare_loop]. rewrite H1.
  change (GetOp2 (OP_PUBKEYS :: pc2)) with (Some (OP_PUBKEYS, [] : valtype, pc2)). cbn [mbind option_bind].
  change (OP_PUBKEYS =? OP_PUBKEYS) with true. cbv iota. by rewrite H2, H3.
Qed.

Lemma compare_loop_done fuel sols : compare_loop fuel [] [] sols = Some sols.
Proof. by destruct fuel. Qed.

(** A script that starts with the push of a key is none of the special forms. *)
Lemma key_first_shape k rest : key_size k ->
  IsPayToScriptHash (push_data k ++ rest) = false /\ IsWitnessProgram (push_data k ++ rest) = None /\
  aget (push_data k ++ rest) 0 = size k.
Proof.
  intros H. rewrite key_push by done. cbn [app]. unfold key_size in H. split_and!; [| |done].
  - unfold IsPayToScriptHash. rewrite aget_head, (proj2 (Z.eqb_neq (size k) OP_HASH160)) by (unfold OP_HASH160; lia).
    by rewrite andb_false_r.
  - unfold IsWitnessProgram. destruct (_ || _); [done|]. rewrite aget_head.
    rewrite (proj2 (Z.eqb_neq (size k) OP_0)), (proj2 (Z.ltb_lt (size k) OP_1)) by (unfold OP_0, OP_1; lia). done.
Qed.

Lemma Solver_rawpubkey k : key_size k -> IsAssetScript (GetScriptForRawPubKey k) = None ->
  Solver (GetScriptForRawPubKey k) = mkSolved true (Some TX_PUBKEY) [k].
Proof.
  intros H Ha. unfold Solver. rewrite Ha. unfold GetScriptForRawPubKey.
  destruct (key_first_shape k [OP_CHECKSIG] H) as (-> & -> & ->).
  assert (Hk := H). unfold key_size in Hk.
  rewrite (proj2 (Z.eqb_neq (size k) OP_RETURN)), (proj2 (Z.eqb_neq (size k) OP_RVH_ASSET))
    by (unfold OP_RETURN, OP_RVH_ASSET; lia).
  rewrite !andb_false_r. cbn [andb]. unfold mTemplates. cbn [scan_templates].
  assert (Hlen : exists f, length (push_data k ++ [OP_CHECKSIG]) = S (S f)).
  { rewrite key_push, length_app by done. cbn [length]. exists (length k). lia. }
  destruct Hlen as [f ->].
  rewrite (compare_loop_step _ _ _ _ _ _ _ OP_PUBKEY [] [OP_CHECKSIG] (key_GetOp2 k [OP_CHECKSIG] H)) by done.
  unfold match_op at 1. change (OP_PUBKEY =? OP_PUBKEY) with true. cbv iota.
  rewrite (proj2 (Z.ltb_ge (size k) 33)), (proj2 (Z.ltb_ge 65 (size k))) by lia.
  cbn [orb mbind option_bind app].
  rewrite (compare_loop_step _ _ _ _ OP_CHECKSIG [] [] OP_CHECKSIG [] []) by done.
  change (match_op OP_CHECKSIG [] OP_CHECKSIG [] [k]) with (Some [k]). cbn [mbind option_bind].
  by rewrite compare_loop_done.
Qed.

(** Small integers as opcodes. *)
Definition small_op (n : Z) : Z := OP_1 + n - 1.

Lemma small_op_GetOp2 n rest : 1 <= n <= 16 -> GetOp2 (small_op n :: rest) = Some (small_op n, [], rest).
Proof.
  intros H. unfold GetOp2, small_op. unfold OP_1.
  rewrite (proj2 (Z.leb_gt (0x51 + n - 1) OP_PUSHDATA4)), (proj2 (Z.eqb_neq (0x51 + n - 1) OP_RVH_ASSET))
    by (unfold OP_PUSHDATA4, OP_RVH_ASSET; lia). done.
Qed.

Lemma match_small n sols : 1 <= n <= 16 ->
  match_op (small_op n) [] OP_SMALLINTEGER [] sols = Some (sols ++ [[n]]).
Proof.
  intros H. unfold match_op. change (OP_SMALLINTEGER =? OP_PUBKEY) with false.
  change (OP_SMALLINTEGER =? OP_PUBKEYHASH) with false. change (OP_SMALLINTEGER =? OP_SMALLINTEGER) with true.
  cbv iota. unfold small_op, DecodeOP_N.
  rewrite (proj2 (Z.leb_le OP_1 (OP_1 + n - 1))), (proj2 (Z.leb_le (OP_1 + n - 1) OP_16)),
    (proj2 (Z.eqb_neq (OP_1 + n - 1) OP_0)) by (unfold OP_0, OP_1, OP_16; lia).
  cbn [orb andb mbind option_bind]. replace (OP_1 + n - 1 - (OP_1 - 1)) with n by lia. by rewrite u8_id by (unfold is_u8; lia).
Qed.

(** The keys are collected up to the next small integer. *)
Lemma pubkeys_loop_keys ks : forall fuel k n rest sols,
  Forall key_size (k :: ks) -> 1 <= n <= 16 -> (length ks < fuel)%nat ->
  pubkeys_loop (S fuel) (size k) k (concat (map push_data ks) ++ small_op n :: rest) sols =
    (small_op n, [], rest, sols ++ k :: ks).
Proof.
  induction ks as [|k' ks IH]; intros fuel k n rest sols Hk Hn Hf; apply Forall_cons in Hk as [Hk Hks].
  - cbn [map concat app pubkeys_loop]. unfold key_size in Hk.
    rewrite (proj2 (Z.leb_le 33 (size k))), (proj2 (Z.leb_le (size k) 65)) by lia. cbn [andb].
    rewrite small_op_GetOp2 by done. destruct fuel; [lia|]. reflexivity.
  - destruct fuel as [|fuel]; [simpl in Hf; lia|].
    cbn [map concat]. rewrite <- app_assoc. cbn [pubkeys_loop]. unfold key_size in Hk.
    rewrite (proj2 (Z.leb_le 33 (size k))), (proj2 (Z.leb_le (size k) 65)) by lia. cbn [andb].
    rewrite key_GetOp2 by (by apply Forall_cons in Hks as [? _]).
    change (pubkeys_loop (S fuel) (size k') k' (concat (map push_data ks) ++ small_op n :: rest) (sols ++ [k]) =
      (small_op n, [], rest, sols ++ k :: k' :: ks)).
    rewrite IH by (done || (simpl in Hf; lia)). by rewrite <- app_assoc.
Qed.

Lemma length_keys_script ks : Forall key_size ks -> (length ks <= length (concat (map push_data ks)))%nat.
Proof.
  induction 1 as [|k ks Hk _ IH]; [done|]. cbn [map concat]. rewrite length_app, key_push by done. simpl. lia.
Qed.

Lemma compare_multisig m k ks n : 1 <= m <= 16 -> 1 <= n <= 16 -> Forall key_size (k :: ks) ->
  let script := small_op m :: concat (map push_data (k :: ks)) ++ [small_op n; OP_CHECKMULTISIG] in
  compare_loop (length script) script [OP_SMALLINTEGER; OP_PUBKEYS; OP_SMALLINTEGER; OP_CHECKMULTISIG] [] =
    Some ([m] :: (k :: ks) ++ [[n]]).
Proof.
  intros Hm Hn Hks. cbv zeta. pose proof (length_keys_script _ Hks) as Hl.
  apply Forall_cons in Hks as Hks'. destruct Hks' as [Hk _].
  assert (Hlen : exists f, length (small_op m :: concat (map push_data (k :: ks)) ++ [small_op n; OP_CHECKMULTISIG])
                           = S (S (S f))).
  { cbn [length]. rewrite length_app. cbn [length]. exists (length (concat (map push_data (k :: ks)))). lia. }
  destruct Hlen as [f ->].
  rewrite (compare_loop_step _ _ _ _ _ _ _ OP_SMALLINTEGER [] [OP_PUBKEYS; OP_SMALLINTEGER; OP_CHECKMULTISIG]
    (small_op_GetOp2 m _ Hm)) by done.
  rewrite match_small by done. cbn [app mbind option_bind map concat].
  rewrite <- app_assoc.
  assert (Hloop : pubkeys_loop (S (length (concat (map push_data ks) ++ [small_op n; OP_CHECKMULTISIG]))) (size k) k
            (concat (map push_data ks) ++ [small_op n; OP_CHECKMULTISIG]) [[m]] =
          (small_op n, [], [OP_CHECKMULTISIG], [m] :: k :: ks)).
  { apply (pubkeys_loop_keys ks _ k n [OP_CHECKMULTISIG] [[m]]); [done|done|].
    apply Forall_cons in Hks as [_ Hks]. pose proof (length_keys_script _ Hks). rewrite length_app. simpl. lia. }
  rewrite (compare_loop_pubkeys _ _ _ _ _ _ _ _ _ _ _ OP_SMALLINTEGER [] [OP_CHECKMULTISIG] (key_GetOp2 k _ Hk) Hloop)
    by done.
  rewrite match_small by done. cbn [mbind option_bind app].
  rewrite (compare_loop_step _ _ _ _ OP_CHECKMULTISIG [] [] OP_CHECKMULTISIG [] []) by done.
  change (match_op OP_CHECKMULTISIG [] OP_CHECKMULTISIG [] ?s) with (Some s). cbn [mbind option_bind].
  by rewrite compare_loop_done.
Qed.

Lemma small_first_shape m k rest : 1 <= m <= 16 -> key_size k -> 2 <= size rest ->
  let s := small_op m :: push_data k ++ rest in
  IsPayToScriptHash s = false /\ IsWitnessProgram s = None /\ aget s 0 = small_op m /\
  (aget s 0 =? OP_RETURN) = false /\ (aget s 0 =? OP_RVH_ASSET) = false.
Proof.
  intros Hm Hk Hr. cbv zeta. rewrite key_push by done. cbn [app]. unfold key_size in Hk.
  assert (Hs : OP_1 <= small_op m <= OP_16) by (unfold small_op, OP_1, OP_16; lia).
  unfold OP_1, OP_16 in Hs. rewrite !aget_head. split_and!; [| |done|apply Z.eqb_neq|apply Z.eqb_neq];
    [..|unfold OP_RETURN; lia|unfold OP_RVH_ASSET; lia].
  - unfold IsPayToScriptHash. rewrite aget_head, (proj2 (Z.eqb_neq (small_op m) OP_HASH160)) by (unfold OP_HASH160; lia).
    by rewrite andb_false_r.
  - unfold IsWitnessProgram. destruct (_ || _); [done|]. rewrite !aget_head.
    rewrite (proj2 (Z.ltb_ge (small_op m) OP_1)), (proj2 (Z.ltb_ge OP_16 (small_op m))), andb_false_r
      by (unfold OP_1, OP_16; lia).
    change (aget (small_op m :: size k :: k ++ rest) 1) with (size k).
    rewrite (proj2 (Z.eqb_neq _ _)); [done|]. cbn [length]. rewrite length_app. lia.
Qed.

(** A script that starts with a small integer is compared with the last template. *)
Lemma other_templates m rest : 1 <= m <= 16 ->
  scan_templates mTemplates (small_op m :: rest) =
  scan_templates [(TX_MULTISIG, [OP_SMALLINTEGER; OP_PUBKEYS; OP_SMALLINTEGER; OP_CHECKMULTISIG])] (small_op m :: rest).
Proof.
  intros Hm. unfold mTemplates. cbn [scan_templates length].
  rewrite (compare_loop_step _ _ _ _ _ _ _ OP_PUBKEY [] [OP_CHECKSIG] (small_op_GetOp2 m rest Hm)) by done.
  change (match_op (small_op m) [] OP_PUBKEY [] []) with (@None (list valtype)). cbn [mbind option_bind].
  rewrite (compare_loop_step _ _ _ _ _ _ _ OP_DUP [] [OP_HASH160; OP_PUBKEYHASH; OP_EQUALVERIFY; OP_CHECKSIG]
    (small_op_GetOp2 m rest Hm)) by done.
  assert (Hno : match_op (small_op m) [] OP_DUP [] [] = None); [|by rewrite Hno].
  unfold match_op. change (OP_DUP =? OP_PUBKEY) with false. change (OP_DUP =? OP_PUBKEYHASH) with false.
  change (OP_DUP =? OP_SMALLINTEGER) with false. cbv iota.
  by rewrite (proj2 (Z.eqb_neq (small_op m) OP_DUP)) by (unfold small_op, OP_1, OP_DUP; lia).
Qed.

Lemma Solver_multisig m keys script : 1 <= m <= size keys -> size keys <= 16 -> Forall key_size keys ->
  GetScriptForMultisig m keys = Some script -> IsAssetScript script = None ->
  Solver script = mkSolved true (Some TX_MULTISIG) ([m] :: keys ++ [[size keys]]).
Proof.
  intros Hm Hn Hk Hs Ha. destruct keys as [|k ks]; [simpl in *; lia|].
  assert (Hscript : script = small_op m :: concat (map push_data (k :: ks)) ++ [small_op (size (k :: ks)); OP_CHECKMULTISIG]).
  { revert Hs. unfold GetScriptForMultisig, EncodeOP_N.
    rewrite (proj2 (Z.leb_le 0 m)), (proj2 (Z.leb_le m 16)), (proj2 (Z.eqb_neq m 0)) by lia.
    rewrite (proj2 (Z.leb_le 0 (size (k :: ks)))), (proj2 (Z.leb_le (size (k :: ks)) 16)), (proj2 (Z.eqb_neq (size (k :: ks)) 0)) by lia.
    cbn [andb mbind option_bind]. by intros [= <-]. }
  set (n := size (k :: ks)) in *. assert (Hn1 : 1 <= n <= 16) by (subst n; simpl in *; lia).
  apply Forall_cons in Hk as Hk'. destruct Hk' as [Hk1 _].
  pose proof (small_first_shape m k (concat (map push_data ks) ++ [small_op n; OP_CHECKMULTISIG]) ltac:(lia) Hk1) as Hshape.
  cbn [map concat] in Hscript. rewrite <- app_assoc in Hscript. cbv zeta in Hshape. rewrite <- Hscript in Hshape.
  destruct Hshape as (Hsh & Hwit & _ & Hret & Hrvh); [rewrite length_app; simpl; lia|].
  unfold Solver. rewrite Hsh, Ha, Hwit, Hret, Hrvh, !andb_false_r. cbn [andb].
  pose proof (compare_multisig m k ks n ltac:(lia) Hn1 Hk) as Hcmp. cbv zeta in Hcmp.
  cbn [map concat] in Hcmp. rewrite <- app_assoc, <- Hscript in Hcmp.
  rewrite Hscript in Hcmp |- *. cbn [length] in Hcmp |- *.
  rewrite (other_templates m _ ltac:(lia)). cbn [scan_templates length]. rewrite Hcmp.
  assert (Hok : multisig_ok ([m] :: (k :: ks) ++ [[n]]) = true).
  { unfold multisig_ok. rewrite app_comm_cons, last_snoc.
    change (aget (default [] (head (([m] :: k :: ks) ++ [[n]]))) 0) with m.
    change (aget (default [] (Some [n])) 0) with n. cbn [app length].
    rewrite length_app. cbn [length]. subst n. cbn [length] in *.
    rewrite !(proj2 (Z.ltb_ge _ _)) by lia. rewrite (proj2 (Z.eqb_eq _ _)) by lia. done. }
  by rewrite Hok.
Qed.

(** ** What is recognised has the form it says *)

Lemma GetOp2_plain_inv pc op v rest : GetOp2 pc = Some (op, v, rest) -> OP_PUSHDATA4 < op -> op <> OP_RVH_ASSET ->
  pc = op :: rest /\ v = [].
Proof.
  intros H Hop Hr. destruct pc as [|o pc]; [done|]. unfold GetOp2 in H.
  destruct (Z.leb_spec o OP_PUSHDATA4).
  - assert (o = op) by (repeat case_match; simplify_eq; done). lia.
  - destruct (Z.eqb_spec o OP_RVH_ASSET); simplify_eq; done.
Qed.

Lemma compare_loop_inv fuel pc1 op2 pc2 sols r :
  GetOp2 (op2 :: pc2) = Some (op2, [], pc2) -> op2 <> OP_PUBKEYS ->
  compare_loop fuel pc1 (op2 :: pc2) sols = Some r ->
  exists fuel' o v p s, GetOp2 pc1 = Some (o, v, p) /\ match_op o v op2 [] sols = Some s /\
    compare_loop fuel' p pc2 s = Some r.
Proof.
  intros Hop Hne H. destruct fuel as [|fuel]; [by destruct pc1|].
  destruct (GetOp2 pc1) as [[[o v] p]|] eqn:E.
  - rewrite (compare_loop_step _ _ _ _ _ _ _ _ _ _ E Hop Hne) in H.
    destruct (match_op o v op2 [] sols) as [s|] eqn:Em; [|done].
    exists fuel, o, v, p, s. done.
  - exfalso. cbn [compare_loop] in H. rewrite E in H. by destruct pc1.
Qed.

(** An opcode of the template other than the place holders. *)
Lemma match_op_exact o v op2 sols s :
  op2 <> OP_PUBKEY -> op2 <> OP_PUBKEYHASH -> op2 <> OP_SMALLINTEGER ->
  match_op o v op2 [] sols = Some s -> o = op2 /\ v = [] /\ s = sols.
Proof.
  intros H1 H2 H3. unfold match_op.
  rewrite (proj2 (Z.eqb_neq op2 _) H1), (proj2 (Z.eqb_neq op2 _) H2), (proj2 (Z.eqb_neq op2 _) H3).
  destruct (Z.eqb_spec o op2) as [->|]; cbn [negb orb]; [|by intros].
  destruct (decide (v = [])) as [->|Hv]; [|by rewrite bool_decide_eq_false_2].
  rewrite bool_decide_eq_true_2 by done. by intros [= <-].
Qed.

Lemma compare_loop_exact fuel pc1 op2 pc2 sols r :
  OP_PUSHDATA4 < op2 < OP_RVH_ASSET -> compare_loop fuel pc1 (op2 :: pc2) sols = Some r ->
  exists fuel' p, pc1 = op2 :: p /\ compare_loop fuel' p pc2 sols = Some r.
Proof.
  unfold OP_PUSHDATA4, OP_RVH_ASSET. intros Hop H.
  apply compare_loop_inv in H as (f & o & v & p & s & Hg & Hm & Hc).
  - apply match_op_exact in Hm as (-> & -> & ->); try (unfold OP_PUBKEY, OP_PUBKEYHASH, OP_SMALLINTEGER; lia).
    apply GetOp2_plain_inv in Hg as [-> _]; try (unfold OP_PUSHDATA4, OP_RVH_ASSET; lia). eauto.
  - unfold GetOp2. rewrite (proj2 (Z.leb_gt op2 OP_PUSHDATA4)), (proj2 (Z.eqb_neq op2 OP_RVH_ASSET)); [done|..];
      unfold OP_PUSHDATA4, OP_RVH_ASSET; lia.
  - unfold OP_PUBKEYS. lia.
Qed.

Lemma compare_loop_end fuel pc1 sols r : compare_loop fuel pc1 [] sols = Some r -> pc1 = [] /\ r = sols.
Proof.
  destruct fuel as [|fuel], pc1 as [|o pc1]; try done; [by intros [= <-]|by intros [= <-]|].
  cbn [compare_loop]. by destruct (GetOp2 (o :: pc1)) as [[[? ?] ?]|].
Qed.

Lemma compare_pubkeyhash script sols :
  compare_loop (length script) script [OP_DUP; OP_HASH160; OP_PUBKEYHASH; OP_EQUALVERIFY; OP_CHECKSIG] [] = Some sols ->
  exists h op push, sols = [h] /\ length h = 20%nat /\
    script = [OP_DUP; OP_HASH160] ++ push /\ GetOp2 push = Some (op, h, [OP_EQUALVERIFY; OP_CHECKSIG]).
Proof.
  intros H. apply compare_loop_exact in H as (f1 & p1 & -> & H); [|done].
  apply compare_loop_exact in H as (f2 & p2 & -> & H); [|done].
  apply compare_loop_inv in H as (f3 & o & h & p & s & Hg & Hm & H); [|done|done].
  unfold match_op in Hm. change (OP_PUBKEYHASH =? OP_PUBKEY) with false in Hm.
  change (OP_PUBKEYHASH =? OP_PUBKEYHASH) with true in Hm. cbv iota in Hm.
  destruct (Z.eqb_spec (size h) 20) as [Hsz|]; [|done]. injection Hm as <-.
  apply compare_loop_exact in H as (f4 & p4 & -> & H); [|done].
  apply compare_loop_exact in H as (f5 & p5 & -> & H); [|done].
  apply compare_loop_end in H as [-> ->].
  exists h, o, p2. split_and!; [done|lia|done|done].
Qed.

Lemma Solver_pubkeyhash_inv script sols : Solver script = mkSolved true (Some TX_PUBKEYHASH) sols ->
  exists h op push, sols = [h] /\ length h = 20%nat /\
    script = [OP_DUP; OP_HASH160] ++ push /\ GetOp2 push = Some (op, h, [OP_EQUALVERIFY; OP_CHECKSIG]).
Proof.
  unfold Solver. destruct (IsPayToScriptHash script); [done|].
  destruct (IsAssetScript script) as [[[? ?] ?]|]; [done|].
  destruct (IsWitnessProgram script) as [[? ?]|]; [repeat case_match; done|].
  destruct (_ && _); [done|]. destruct (_ && _); [done|].
  unfold mTemplates. cbn [scan_templates].
  destruct (compare_loop _ _ [OP_PUBKEY; OP_CHECKSIG] _); [done|].
  destruct (compare_loop _ _ [OP_DUP; OP_HASH160; OP_PUBKEYHASH; OP_EQUALVERIFY; OP_CHECKSIG] _) eqn:E.
  - cbn. intros [= <-]. by apply compare_pubkeyhash.
  - clear E. destruct (compare_loop _ _ _ _) as [l|]; [|by intros [=]]. destruct (_ && _); by intros [=].
Qed.

Lemma Solver_scripthash_inv script sols : Solver script = mkSolved true (Some TX_SCRIPTHASH) sols ->
  exists h, sols = [h] /\ length h = 20%nat /\ script = GetScriptForDestination (CScriptID h).
Proof.
  unfold Solver. destruct (IsPayToScriptHash script) eqn:E.
  - intros [= <-]. unfold IsPayToScriptHash in E. rewrite !andb_true_iff, !Z.eqb_eq in E. destruct E as [[[Hsz H0] H1] H22].
    destruct script as [|a [|b rest]]; [done..|]. assert (a = OP_HASH160) as -> by exact H0. assert (b = 20) as -> by exact H1. clear H0 H1. cbn [drop].
    destruct (rest) as [|x rest' _] eqn:Er using rev_ind; [done|]. subst rest.
    assert (length rest' = 20%nat) as Hl by (cbn [length] in Hsz; rewrite length_app in Hsz; cbn [length] in Hsz; lia).
    exists rest'. split_and!; [|done|].
    { cbn [drop]. f_equal. rewrite <- Hl at 1. apply take_app_length. } cbn [GetScriptForDestination]. unfold push_data. rewrite Hl.
    assert (x = OP_EQUAL) as ->; [|done].
    assert ((OP_HASH160 :: 20 :: rest' ++ [x]) !! 22%nat = Some x) as E.
    { change (([OP_HASH160; 20] ++ rest' ++ [x]) !! 22%nat = Some x). rewrite app_assoc, lookup_app_r; rewrite length_app, Hl; done. }
    unfold aget in H22. change (Z.to_nat 22) with 22%nat in H22. by rewrite E in H22.
  - destruct (IsAssetScript script) as [[[? ?] ?]|]; [done|].
    destruct (IsWitnessProgram script) as [[? ?]|]; [repeat case_match; done|].
    destruct (_ && _); [done|]. destruct (_ && _); [done|]. unfold mTemplates. cbn [scan_templates].
    repeat (destruct (compare_loop _ _ _ _) as [?|]; [by destruct (_ && _)|]). done.
Qed.

(** C37. The standard scripts are recognised as what they were built for: the
    destination of the script made for a 20-byte key hash or script hash is that
    destination; the script for a raw public key, and an m-of-n multisig script of at most
    16 keys, give back their keys and their numbers, provided [IsAssetScript] does not take the
    bytes of the keys for an asset marker.  Conversely what [Solver]
    calls pay-to-script-hash is the script built for that hash, and what it calls
    pay-to-public-key-hash has the instructions of the script built for that 20-byte hash, though
    the hash may be pushed with a longer encoding than the one the constructor uses. *)
Theorem Solver_inverts_constructors `{CryptoHashes} : forall h key m keys multisig script sols,
  length h = 20%nat -> key_size key ->
  1 <= m <= size keys -> size keys <= 16 -> Forall key_size keys -> GetScriptForMultisig m keys = Some multisig ->
  IsAssetScript (GetScriptForRawPubKey key) = None -> IsAssetScript multisig = None ->
  ExtractDestination (GetScriptForDestination (CKeyID h)) = Some (CKeyID h) /\
  ExtractDestination (GetScriptForDestination (CScriptID h)) = Some (CScriptID h) /\
  Solver (GetScriptForRawPubKey key) = mkSolved true (Some TX_PUBKEY) [key] /\
  Solver multisig = mkSolved true (Some TX_MULTISIG) ([m] :: keys ++ [[size keys]]) /\
  (Solver script = mkSolved true (Some TX_PUBKEYHASH) sols ->
   exists h op push, sols = [h] /\ length h = 20%nat /\
     script = [OP_DUP; OP_HASH160] ++ push /\ GetOp2 push = Some (op, h, [OP_EQUALVERIFY; OP_CHECKSIG])) /\
  (Solver script = mkSolved true (Some TX_SCRIPTHASH) sols ->
   exists h, sols = [h] /\ length h = 20%nat /\ script = GetScriptForDestination (CScriptID h)).
Proof.
  intros h key m keys multisig script sols Hh Hkey Hm Hn Hkeys Hms Ha1 Ha2. split_and!.
  - unfold ExtractDestination. by rewrite Solver_keyhash.
  - unfold ExtractDestination. by rewrite Solver_scripthash.
  - by apply Solver_rawpubkey.
  - by apply Solver_multisig.
  - apply Solver_pubkeyhash_inv.
  - apply Solver_scripthash_inv.
Qed.

Lemma Solver_inverts_constructors_witness :
  Solver (match GetScriptForMultisig 1 [2 :: replicate 32 7; 3 :: replicate 32 9] with Some s => s | None => [] end) =
    mkSolved true (Some TX_MULTISIG) [[1]; 2 :: replicate 32 7; 3 :: replicate 32 9; [2]].
Proof.
  refine (proj1 (proj2 (proj2 (proj2 (Solver_inverts_constructors (H := toy_hashes) (replicate 20 5) (2 :: replicate 32 7) 1
    [2 :: replicate 32 7; 3 :: replicate 32 9] _ [] [] _ _ _ _ _ _ _ _))))); try done.
  all: repeat constructor; done.
Defined.

(** ** Time-locked outputs *)

(** What the checker does with a 20-byte public key: [CPubKey] has no such keys. *)
Definition rejects_hashes `{SignatureChecker} : Prop :=
  forall sig key script sv, PubKey_IsValid (PubKey_Set key) = false -> CheckSig sig key script sv = false.

Lemma hash_is_no_key h : length h = 20%nat -> PubKey_IsValid (PubKey_Set h) = false.
Proof.
  intros Hh. destruct h as [|b h]; [done|]. unfold PubKey_Set, GetLen. rewrite Hh.
  destruct (_ || _); [done|]. by destruct (_ || _ || _).
Qed.

Section Future.
Context `{CryptoHashes} `{SignatureChecker}.
Variables (flags : Z) (sigversion : SigVersion).

Lemma fail_if_Ret {A : Type} c e (f : unit -> outcome A) x : fail_if c e ≫= f = Ret x -> f tt = Ret x.
Proof. unfold fail_if. by destruct c. Qed.

(** A step outside conditionals that succeeds. *)
Lemma step_Ret s s2 : step flags sigversion s = Ret s2 -> es_vfExec s = [] ->
  exists opcode v pc, GetOp2 (es_pc s) = Some (opcode, v, pc) /\
    let s1 := mkE (es_stack s) (es_altstack s) [] (if OP_16 <? opcode then es_nOpCount s + 1 else es_nOpCount s)
                  (es_code s) pc in
    if (0 <=? opcode) && (opcode <=? OP_PUSHDATA4) then s2 = set_stack s1 (v :: es_stack s)
    else exec_op flags sigversion opcode true s1 = Ret s2.
Proof.
  intros Hs Hv. unfold step in Hs. rewrite Hv in Hs. cbn [forallb] in Hs.
  destruct (GetOp2 (es_pc s)) as [[[opcode v] pc]|]; [|done]. exists opcode, v, pc. split; [done|]. cbv zeta.
  do 3 apply fail_if_Ret in Hs. cbn [andb orb] in Hs.
  destruct ((0 <=? opcode) && (opcode <=? OP_PUSHDATA4)).
  - unfold fail_if at 1 in Hs. destruct (_ && negb _); [done|]. cbn [mbind outcome_bind] in Hs.
    apply fail_if_Ret in Hs. by injection Hs as <-.
  - destruct (exec_op _ _ _ _ _) as [s3| | |]; try done. cbn [mbind outcome_bind] in Hs.
    apply fail_if_Ret in Hs. by injection Hs as <-.
Qed.

(** The states of a run, by what is on the stack and what is left of the script. *)
Definition at_state (s : estate) (st : list valtype) (pc : CScript) : Prop :=
  es_vfExec s = [] /\ es_stack s = st /\ es_pc s = pc.

Lemma run_step fuel s st b pc s' : at_state s st (b :: pc) -> eval_loop flags sigversion fuel s = Ret s' ->
  exists fuel' s1, step flags sigversion s = Ret s1 /\ eval_loop flags sigversion fuel' s1 = Ret s'.
Proof.
  intros (_ & _ & Hp) H1. destruct fuel as [|fuel]; simpl in H1; rewrite Hp in H1; [done|].
  destruct (step flags sigversion s) as [s1| | |]; try done. by exists fuel, s1.
Qed.

Lemma push_step s st b rest s1 : (length b < 76)%nat -> at_state s st (push_data b ++ rest) ->
  step flags sigversion s = Ret s1 -> at_state s1 (b :: st) rest.
Proof.
  intros Hb (Hv & Hst & Hp) Hs. apply step_Ret in Hs as (o & v & pc & Hg & Hr); [|done].
  rewrite Hp, GetOp2_push_data in Hg by lia. injection Hg as <- <- <-.
  assert (Hop : push_opcode b = size b)
    by (unfold push_opcode, OP_PUSHDATA1; by rewrite (proj2 (Z.ltb_lt (size b) 0x4c)) by lia).
  rewrite Hop, (proj2 (Z.leb_le 0 (size b))), (proj2 (Z.leb_le (size b) OP_PUSHDATA4)) in Hr
    by (unfold OP_PUSHDATA4; lia).
  cbn [andb] in Hr. rewrite Hr. split_and!; cbn; congruence.
Qed.

Lemma number_step s st n rest s1 : (length (serialize n) < 76)%nat -> -1 <= n -> at_state s st (push_int64 n ++ rest) ->
  step flags sigversion s = Ret s1 -> exists v, at_state s1 (v :: st) rest.
Proof.
  intros Hl Hn Hat Hs. unfold push_int64 in Hat.
  destruct (_ || _) eqn:Esmall; [|destruct (Z.eqb_spec n 0) as [->|]].
  - destruct Hat as (Hv & Hst & Hp). apply step_Ret in Hs as (o & v & pc & Hg & Hr); [|done].
    assert (Hrange : n = -1 \/ 1 <= n <= 16)
      by (apply orb_true_iff in Esmall as [E|E]; [left; by apply Z.eqb_eq in E|right; apply andb_true_iff in E as [E1 E2]; lia]).
    rewrite Hp in Hg. cbn [app GetOp2] in Hg. unfold OP_1 in Hg.
    rewrite (proj2 (Z.leb_gt (n + (0x51 - 1)) OP_PUSHDATA4)), (proj2 (Z.eqb_neq (n + (0x51 - 1)) OP_RVH_ASSET)) in Hg
      by (unfold OP_PUSHDATA4, OP_RVH_ASSET; lia).
    injection Hg as <- <- <-.
    rewrite (proj2 (Z.leb_gt (n + (0x51 - 1)) OP_PUSHDATA4)), andb_false_r in Hr by (unfold OP_PUSHDATA4; lia).
    assert (Hex : ((n + (0x51 - 1) =? OP_1NEGATE) || ((OP_1 <=? n + (0x51 - 1)) && (n + (0x51 - 1) <=? OP_16))) = true).
    { unfold OP_1NEGATE, OP_1, OP_16. destruct Hrange as [->|]; [done|].
      rewrite (proj2 (Z.leb_le _ _)), (proj2 (Z.leb_le _ _)) by lia. by rewrite orb_true_r. }
    unfold exec_op in Hr. rewrite Hex in Hr. injection Hr as <-. eexists. split_and!; cbn; [done|by rewrite Hst|done].
  - exists []. apply (push_step s st [] rest); [simpl; lia|done|done].
  - exists (serialize n). by apply (push_step s st).
Qed.

Lemma op_step s st op rest s1 : OP_PUSHDATA4 < op -> op <> OP_RVH_ASSET -> at_state s st (op :: rest) ->
  step flags sigversion s = Ret s1 ->
  exists s0, at_state s0 st rest /\ exec_op flags sigversion op true s0 = Ret s1.
Proof.
  intros Hop Hr (Hv & Hst & Hp) Hs. apply step_Ret in Hs as (o & v & pc & Hg & He); [|done].
  rewrite Hp in Hg. unfold GetOp2 in Hg.
  rewrite (proj2 (Z.leb_gt op OP_PUSHDATA4)), (proj2 (Z.eqb_neq op OP_RVH_ASSET)) in Hg by done. injection Hg as <- <- <-.
  rewrite (proj2 (Z.leb_gt op OP_PUSHDATA4)), andb_false_r in He by done. eexists. split; [|exact He].
  split_and!; cbn; congruence.
Qed.

Lemma csv_step s st rest s1 : at_state s st (OP_CHECKSEQUENCEVERIFY :: rest) ->
  step flags sigversion s = Ret s1 -> at_state s1 st rest.
Proof.
  intros Hat Hs. apply (op_step s st OP_CHECKSEQUENCEVERIFY rest) in Hs as (s0 & Hs0 & He); [|done..].
  change (exec_op flags sigversion OP_CHECKSEQUENCEVERIFY true s0) with (op_checksequenceverify flags s0) in He.
  unfold op_checksequenceverify, op_upgradable_nop in He. destruct (negb (has_flag _ _)).
  - apply fail_if_Ret in He. by injection He as <-.
  - destruct (es_stack s0) as [|top r]; [done|]. destruct (num5 flags top) as [n| | |]; try done.
    cbn [mbind outcome_bind] in He. apply fail_if_Ret in He. destruct (negb (_ =? 0)); [by injection He as <-|].
    apply fail_if_Ret in He. by injection He as <-.
Qed.

Lemma drop_step s st rest s1 : at_state s st (OP_DROP :: rest) ->
  step flags sigversion s = Ret s1 -> at_state s1 (tail st) rest.
Proof.
  intros Hat Hs. apply (op_step s st OP_DROP rest) in Hs as (s0 & (Hv & Hst & Hp) & He); [|done..].
  change (exec_op flags sigversion OP_DROP true s0) with (on_stack st_drop s0) in He.
  unfold on_stack, st_drop in He. destruct (es_stack s0) as [|top r]; [done|]. injection He as <-.
  split_and!; cbn; by subst.
Qed.

Lemma checksig_step s st rest s1 h : rejects_hashes -> length h = 20%nat -> at_state s (h :: st) (OP_CHECKSIG :: rest) ->
  step flags sigversion s = Ret s1 -> exists r, at_state s1 (vch_of_bool false :: r) rest.
Proof.
  intros Hrej Hh Hat Hs. apply (op_step s (h :: st) OP_CHECKSIG rest) in Hs as (s0 & (Hv & Hst & Hp) & He); [|done..].
  change (exec_op flags sigversion OP_CHECKSIG true s0) with (op_checksig flags sigversion OP_CHECKSIG s0) in He.
  unfold op_checksig in He. rewrite Hst in He. destruct st as [|sig r]; [done|].
  destruct (check_encodings _ _ _ _); try done. cbn [mbind outcome_bind] in He.
  rewrite Hrej in He by (by apply hash_is_no_key). apply fail_if_Ret in He.
  change (OP_CHECKSIG =? OP_CHECKSIGVERIFY) with false in He. cbv iota in He. injection He as <-.
  exists r. by split_and!.
Qed.
End Future.

Lemma serialize_short n : Z.abs n < 2 ^ 55 -> (length (serialize n) < 76)%nat.
Proof.
  intros Hn. destruct (decide (n = 0)) as [->|Hne]; [simpl; lia|].
  destruct (serialize_shape n Hn Hne) as (l & t & _ & _ & _ & _ & Hl & _ & ->).
  destruct (128 <=? t); rewrite length_app; simpl; lia.
Qed.

Lemma push_nonempty_int n rest : exists b r, push_int64 n ++ rest = b :: r.
Proof.
  unfold push_int64. destruct (_ || _); [by eexists _, _|]. destruct (n =? 0); [by eexists _, _|].
  apply push_data_nonempty.
Qed.

(** An output made by [GetFutureScriptForDestination] cannot be spent. The
    script checks the signature against the key hash itself as if it were the
    public key; whatever the scriptSig left on the stack, under any flags, its
    execution ends in an error or with false on top, because a checker that
    refuses byte strings that are no public keys never accepts there. *)
Theorem future_output_unspendable `{CryptoHashes} `{SignatureChecker} : forall flags sigversion stack h height,
  rejects_hashes -> length h = 20%nat -> 0 <= height < 2 ^ 31 ->
  (EvalScript flags sigversion stack (GetFutureScriptForDestination (CKeyID h) height) ≫= check_true) <> Ret tt.
Proof.
  intros flags sigversion stack h height Hrej Hh Hheight. unfold EvalScript, GetFutureScriptForDestination.
  set (script := push_int64 height ++ _). destruct (fail_if _ _) as [[]| | |]; try done. cbn [mbind outcome_bind].
  destruct (eval_loop _ _ _ _) as [s| | |] eqn:E; try done. cbn [mbind outcome_bind].
  assert (Hat : at_state (mkE stack [] [] 0 script script) stack script) by done.
  destruct (push_nonempty_int height ([OP_CHECKSEQUENCEVERIFY; OP_DROP] ++ push_data h ++ [OP_CHECKSIG])) as (b & r & Hb).
  assert (Hat' := Hat). unfold script at 3 in Hat'. rewrite Hb in Hat'.
  destruct (run_step _ _ _ _ _ _ _ _ Hat' E) as (f1 & s1 & Hs1 & E1).
  destruct (number_step _ _ _ _ _ _ _ (serialize_short height ltac:(lia)) ltac:(lia) Hat Hs1) as [v Hat1].
  destruct (run_step _ _ _ _ _ _ _ _ Hat1 E1) as (f2 & s2 & Hs2 & E2). apply (csv_step _ _ _ _ _ _ Hat1) in Hs2.
  destruct (run_step _ _ _ _ _ _ _ _ Hs2 E2) as (f3 & s3 & Hs3 & E3). apply (drop_step _ _ _ _ _ _ Hs2) in Hs3.
  assert (Hp : push_data h = 20 :: h) by (rewrite push_data_plain; [by rewrite Hh|unfold plain_push; lia]).
  assert (Hat3 := Hs3). rewrite Hp in Hat3. cbn [app tail] in Hat3.
  destruct (run_step _ _ _ _ _ _ _ _ Hat3 E3) as (f4 & s4 & Hs4 & E4).
  apply (push_step _ _ _ _ h _ _ ltac:(rewrite Hh; lia) Hs3) in Hs4.
  destruct (run_step _ _ _ _ _ _ _ _ Hs4 E4) as (f5 & s5 & Hs5 & E5).
  apply (checksig_step _ _ _ _ _ _ _ Hrej Hh Hs4) in Hs5 as (r5 & Hv5 & Hst5 & Hp5).
  assert (s5 = s) as <- by (destruct f5; simpl in E5; rewrite Hp5 in E5; by injection E5).
  rewrite Hv5. cbn [mbind outcome_bind fail_if negb]. rewrite Hst5. by unfold check_true.
Qed.

(** A checker that accepts every signature for every key it can parse. *)
Definition lenient_checker : SignatureChecker := {|
  CheckSig _ key _ _ := PubKey_IsValid (PubKey_Set key);
  CheckLockTime _ := true; CheckSequence _ := true; CheckLowS _ := true
|}.

Lemma future_output_unspendable_witness :
  (@EvalScript toy_hashes lenient_checker 0 SIGVERSION_BASE [[0x30; 1]]
    (GetFutureScriptForDestination (CKeyID (replicate 20 9)) 500) ≫= check_true) <> Ret tt.
Proof.
  apply (@future_output_unspendable toy_hashes lenient_checker 0 SIGVERSION_BASE [[0x30; 1]] (replicate 20 9) 500);
    [by intros sig key script sv Hk|done|lia].
Defined.
