(* ===== verification/ProTx.v ===== *)
(** The payloads of the special transactions ([evo/providertx.h], [llmq/quorums_commitment.h]) and the
    reading of them out of a transaction ([GetTxPayload] of [evo/specialtx.h]). *)

From stdpp Require Import prelude countable.
From Stdlib Require Import ZArith Lia.
From S2P Require Import Prelude Transaction.

Open Scope Z_scope.

(** ** Transaction types *)

Definition TRANSACTION_NORMAL : Z := 0.
Definition TRANSACTION_PROVIDER_REGISTER : Z := 1.
Definition TRANSACTION_PROVIDER_UPDATE_SERVICE : Z := 2.
Definition TRANSACTION_PROVIDER_UPDATE_REGISTRAR : Z := 3.
Definition TRANSACTION_PROVIDER_UPDATE_REVOKE : Z := 4.
Definition TRANSACTION_COINBASE : Z := 5.
Definition TRANSACTION_QUORUM_COMMITMENT : Z := 6.

(** ** Keys and addresses

    A key id is its twenty bytes. A network service is one number, its sixteen bytes and its
    port read in network order, and a BLS public key is a number, with [0] for the
    default-constructed one, which for a key is the only invalid one: a key that does not
    parse is replaced by it. *)
Abbreviation keyid := (list Z) (only parsing).
Definition keyid_null : keyid := replicate 20 0.
Abbreviation CService := Z (only parsing).
Definition CService_null : CService := 0.
Abbreviation CBLSPublicKey := Z (only parsing).
Definition CBLSPublicKey_null : CBLSPublicKey := 0.
Definition BLS_IsValid (k : CBLSPublicKey) : bool := negb (k =? CBLSPublicKey_null).

(** A BLS signature is its bytes; one that does not parse is invalid. *)
Abbreviation CBLSSignature := (option (list Z)) (only parsing).
Definition BLSSig_IsValid (s : CBLSSignature) : bool := match s with Some _ => true | None => false end.

(** ** Payloads *)

Record CProRegTx := mkProReg {
  reg_nVersion : Z;
  reg_nType : Z;
  reg_nMode : Z;
  reg_collateralOutpoint : COutPoint;
  reg_addr : CService;
  reg_keyIDOwner : keyid;
  reg_pubKeyOperator : CBLSPublicKey;
  reg_keyIDVoting : keyid;
  reg_nOperatorReward : Z;
  reg_scriptPayout : CScript;
  reg_inputsHash : Z;
  reg_vchSig : list Z
}.

Record CProUpServTx := mkProUpServ {
  serv_nVersion : Z;
  serv_proTxHash : Z;
  serv_addr : CService;
  serv_scriptOperatorPayout : CScript;
  serv_inputsHash : Z;
  serv_sig : CBLSSignature
}.

Record CProUpRegTx := mkProUpReg {
  upreg_nVersion : Z;
  upreg_proTxHash : Z;
  upreg_nMode : Z;
  upreg_pubKeyOperator : CBLSPublicKey;
  upreg_keyIDVoting : keyid;
  upreg_scriptPayout : CScript;
  upreg_inputsHash : Z;
  upreg_vchSig : list Z
}.

Definition REASON_NOT_SPECIFIED : Z := 0.
Definition REASON_LAST : Z := 3.
Record CProUpRevTx := mkProUpRev {
  rev_nVersion : Z;
  rev_proTxHash : Z;
  rev_nReason : Z;
  rev_inputsHash : Z;
  rev_sig : CBLSSignature
}.
Definition CURRENT_VERSION : Z := 1.

(** The final commitment of a quorum and the payload that carries it. *)
Record CFinalCommitment := mkFinalCommitment {
  fc_nVersion : Z;
  fc_llmqType : Z;
  fc_quorumHash : Z;
  fc_signers : list bool;
  fc_validMembers : list bool;
  fc_quorumPublicKey : CBLSPublicKey;
  fc_quorumVvecHash : Z;
  fc_quorumSig : CBLSSignature;
  fc_membersSig : CBLSSignature
}.
Definition CountSigners (c : CFinalCommitment) : Z := Z.of_nat (length (filter (fun b => b = true) (fc_signers c))).
Definition CountValidMembers (c : CFinalCommitment) : Z := Z.of_nat (length (filter (fun b => b = true) (fc_validMembers c))).
Definition Commitment_IsNull (c : CFinalCommitment) : bool :=
  if negb (CountSigners c =? 0) || negb (CountValidMembers c =? 0) then false
  else negb (BLS_IsValid (fc_quorumPublicKey c) || negb (fc_quorumVvecHash c =? 0) || BLSSig_IsValid (fc_membersSig c) || BLSSig_IsValid (fc_quorumSig c)).
Record CFinalCommitmentTxPayload := mkCommitment {
  qc_nVersion : Z;
  qc_nHeight : Z;
  commitment : CFinalCommitment
}.

(** [GetTxPayload] at each payload type; [None] when the bytes do not parse as one. *)
Class SpecialTxs := {
  GetProRegTx : CTransaction -> option CProRegTx;
  GetProUpServTx : CTransaction -> option CProUpServTx;
  GetProUpRegTx : CTransaction -> option CProUpRegTx;
  GetProUpRevTx : CTransaction -> option CProUpRevTx;
  GetQuorumCommitment : CTransaction -> option CFinalCommitmentTxPayload
}.
