(* ===== verification/Bloom.v ===== *)
(** [CBloomFilter] ([bloom.cpp]), the filter a light client loads into a peer, and the
    messages of [net_processing.cpp] that set it. *)

From stdpp Require Import prelude.
From Stdlib Require Import ZArith Lia.
From S2P Require Import Prelude Opcodes Transaction Compact Script Interpreter Serialize SipHash Standard ProTx.

Open Scope Z_scope.

(** ** [CBloomFilter] *)

Definition MAX_BLOOM_FILTER_SIZE : Z := 36000.
Definition MAX_HASH_FUNCS : Z := 50.
Definition BLOOM_UPDATE_NONE : Z := 0.
Definition BLOOM_UPDATE_ALL : Z := 1.
Definition BLOOM_UPDATE_P2PUBKEY_ONLY : Z := 2.
Definition BLOOM_UPDATE_MASK : Z := 3.

Record CBloomFilter := mkBloom {
  vData : list Z;
  isFull : bool;
  isEmpty : bool;
  nHashFuncs : Z;
  nTweak : Z;
  nFlags : Z
}.

(** The default constructor, which matches everything. *)
Definition Bloom_default : CBloomFilter := mkBloom [] true false 0 0 0.
(** The constructor from a number of elements and a rate: the size in bits and the
    number of hash functions come out of floating-point formulas and are cut to the limits. *)
Definition Bloom_new (ideal_bits ideal_funcs nTweakIn nFlagsIn : Z) : CBloomFilter :=
  mkBloom (replicate (Z.to_nat (Z.min ideal_bits (MAX_BLOOM_FILTER_SIZE * 8) / 8)) 0) false true
    (Z.min ideal_funcs MAX_HASH_FUNCS) nTweakIn nFlagsIn.

(** [Hash]: a bit of the filter; [None] is the remainder of a division by zero. *)
Definition Bloom_Hash (f : CBloomFilter) (nHashNum : Z) (vDataToHash : valtype) : option Z :=
  if size (vData f) =? 0 then None
  else Some (MurmurHash3 (u32 (nHashNum * 0xfba4c795 + nTweak f)) vDataToHash mod (size (vData f) * 8)).

(** [vData[nIndex >> 3] |= (1 << (7 & nIndex))], for each hash function. *)
Fixpoint insert_loop (f : CBloomFilter) (n : nat) (i : Z) (data : list Z) (vKey : valtype) : option (list Z) :=
  match n with
  | O => Some data
  | S n' =>
      nIndex ← Bloom_Hash f i vKey;
      insert_loop f n' (i + 1) (aor data (Z.shiftr nIndex 3) (Z.shiftl 1 (Z.land 7 nIndex))) vKey
  end.
Definition Bloom_insert (f : CBloomFilter) (vKey : valtype) : option CBloomFilter :=
  if isFull f then Some f
  else
    data ← insert_loop f (Z.to_nat (nHashFuncs f)) 0 (vData f) vKey;
    Some (mkBloom data (isFull f) false (nHashFuncs f) (nTweak f) (nFlags f)).

Fixpoint contains_loop (f : CBloomFilter) (n : nat) (i : Z) (vKey : valtype) : option bool :=
  match n with
  | O => Some true
  | S n' =>
      nIndex ← Bloom_Hash f i vKey;
      if Z.land (aget (vData f) (Z.shiftr nIndex 3)) (Z.shiftl 1 (Z.land 7 nIndex)) =? 0 then Some false
      else contains_loop f n' (i + 1) vKey
  end.
Definition Bloom_contains (f : CBloomFilter) (vKey : valtype) : option bool :=
  if isFull f then Some true
  else if isEmpty f then Some false
  else contains_loop f (Z.to_nat (nHashFuncs f)) 0 vKey.

(** The overloads: an outpoint is serialized, a hash is its bytes. *)
Definition outpoint_bytes (o : COutPoint) : valtype := Serialize.le_bytes 32 o.1 ++ Serialize.le_bytes 4 o.2.
Definition hash_bytes (h : Z) : valtype := Serialize.le_bytes 32 h.
Definition insert_outpoint (f : CBloomFilter) (o : COutPoint) : option CBloomFilter := Bloom_insert f (outpoint_bytes o).
Definition contains_outpoint (f : CBloomFilter) (o : COutPoint) : option bool := Bloom_contains f (outpoint_bytes o).
Definition insert_hash (f : CBloomFilter) (h : Z) : option CBloomFilter := Bloom_insert f (hash_bytes h).
Definition contains_hash (f : CBloomFilter) (h : Z) : option bool := Bloom_contains f (hash_bytes h).

Definition Bloom_clear (f : CBloomFilter) : CBloomFilter :=
  mkBloom (replicate (length (vData f)) 0) false true (nHashFuncs f) (nTweak f) (nFlags f).
Definition Bloom_reset (f : CBloomFilter) (nNewTweak : Z) : CBloomFilter :=
  let f := Bloom_clear f in mkBloom (vData f) (isFull f) (isEmpty f) (nHashFuncs f) nNewTweak (nFlags f).
Definition IsWithinSizeConstraints (f : CBloomFilter) : bool :=
  (size (vData f) <=? MAX_BLOOM_FILTER_SIZE) && (nHashFuncs f <=? MAX_HASH_FUNCS).
Definition UpdateEmptyFull (f : CBloomFilter) : CBloomFilter :=
  let full := forallb (fun b => b =? 0xff) (vData f) in
  let empty := forallb (fun b => b =? 0) (vData f) in
  mkBloom (vData f) full empty (nHashFuncs f) (nTweak f) (nFlags f).

(** [CheckScript]: does any data element of the script match? *)
Fixpoint check_script_loop (fuel : nat) (f : CBloomFilter) (pc : CScript) : option bool :=
  match fuel with
  | O => Some false
  | S fuel' =>
      match GetOp2 pc with
      | None => Some false
      | Some (_, data, pc') =>
          if negb (size data =? 0) then
            found ← Bloom_contains f data;
            if (found : bool) then Some true else check_script_loop fuel' f pc'
          else check_script_loop fuel' f pc'
      end
  end.
Definition CheckScript (f : CBloomFilter) (script : CScript) : option bool :=
  check_script_loop (length script) f script.

Section Relevant.
Context `{SpecialTxs}.

(** [a || b || ...], evaluated from the left. *)
Fixpoint any_of (tests : list (option bool)) : option bool :=
  match tests with
  | [] => Some false
  | t :: rest => b ← t; if (b : bool) then Some true else any_of rest
  end.
Definition update_all (f : CBloomFilter) : bool := Z.land (nFlags f) BLOOM_UPDATE_MASK =? BLOOM_UPDATE_ALL.
(** A special transaction matched: with [BLOOM_UPDATE_ALL] its registration hash is added. *)
Definition special_matched (f : CBloomFilter) (hash : Z) : option (bool * CBloomFilter) :=
  if update_all f then f ← insert_hash f hash; Some (true, f) else Some (true, f).

Definition CheckSpecialTransactionMatchesAndUpdate (f : CBloomFilter) (tx : CTransaction) : option (bool * CBloomFilter) :=
  if negb (tx_nVersion tx =? 3) || (tx_nType tx =? TRANSACTION_NORMAL) then Some (false, f)
  else
    let nType := tx_nType tx in
    if nType =? TRANSACTION_PROVIDER_REGISTER then
      match GetProRegTx tx with
      | Some p =>
          found ← any_of [contains_outpoint f (reg_collateralOutpoint p); Bloom_contains f (reg_keyIDOwner p);
                          Bloom_contains f (reg_keyIDVoting p); CheckScript f (reg_scriptPayout p)];
          if (found : bool) then special_matched f (txid tx) else Some (false, f)
      | None => Some (false, f)
      end
    else if nType =? TRANSACTION_PROVIDER_UPDATE_SERVICE then
      match GetProUpServTx tx with
      | Some p =>
          found ← contains_hash f (serv_proTxHash p);
          if (found : bool) then Some (true, f)
          else
            found ← CheckScript f (serv_scriptOperatorPayout p);
            if (found : bool) then special_matched f (serv_proTxHash p) else Some (false, f)
      | None => Some (false, f)
      end
    else if nType =? TRANSACTION_PROVIDER_UPDATE_REGISTRAR then
      match GetProUpRegTx tx with
      | Some p =>
          found ← contains_hash f (upreg_proTxHash p);
          if (found : bool) then Some (true, f)
          else
            found ← any_of [Bloom_contains f (upreg_keyIDVoting p); CheckScript f (upreg_scriptPayout p)];
            if (found : bool) then special_matched f (upreg_proTxHash p) else Some (false, f)
      | None => Some (false, f)
      end
    else if nType =? TRANSACTION_PROVIDER_UPDATE_REVOKE then
      match GetProUpRevTx tx with
      | Some p => found ← contains_hash f (rev_proTxHash p); Some (found, f)
      | None => Some (false, f)
      end
    else Some (false, f).

(** What a matching output adds to the filter. *)
Definition add_output (f : CBloomFilter) (hash i : Z) (txout : CTxOut) : option CBloomFilter :=
  if update_all f then insert_outpoint f (hash, i)
  else if Z.land (nFlags f) BLOOM_UPDATE_MASK =? BLOOM_UPDATE_P2PUBKEY_ONLY then
    let s := Solver (scriptPubKey txout) in
    if sv_ret s && (bool_decide (sv_type s = Some TX_PUBKEY) || bool_decide (sv_type s = Some TX_MULTISIG))
    then insert_outpoint f (hash, i) else Some f
  else Some f.

(** The loop over the outputs: whether one matched, and the updated filter. *)
Fixpoint outputs_loop (f : CBloomFilter) (hash : Z) (i : Z) (outs : list CTxOut) (fFound : bool) : option (bool * CBloomFilter) :=
  match outs with
  | [] => Some (fFound, f)
  | txout :: rest =>
      found ← CheckScript f (scriptPubKey txout);
      if (found : bool) then
        f' ← add_output f hash i txout;
        outputs_loop f' hash (i + 1) rest true
      else outputs_loop f hash (i + 1) rest fFound
  end.

Fixpoint inputs_loop (f : CBloomFilter) (ins : list CTxIn) : option bool :=
  match ins with
  | [] => Some false
  | txin :: rest =>
      found ← contains_outpoint f (prevout txin);
      if (found : bool) then Some true
      else
        found ← CheckScript f (scriptSig txin);
        if (found : bool) then Some true else inputs_loop f rest
  end.

Definition IsRelevantAndUpdate (f : CBloomFilter) (tx : CTransaction) : option (bool * CBloomFilter) :=
  if isFull f then Some (true, f)
  else if isEmpty f then Some (false, f)
  else
    let hash := txid tx in
    found ← contains_hash f hash;
    '(fFound, f) ← (if (found : bool) then Some (true, f) else CheckSpecialTransactionMatchesAndUpdate f tx);
    '(fFound, f) ← outputs_loop f hash 0 (vout tx) fFound;
    if (fFound : bool) then Some (true, f)
    else found ← inputs_loop f (vin tx); Some (found, f).

(** *** A peer's filter: the [filterload], [filteradd] and [filterclear] messages of
    [ProcessMessage], and the test of [SendMessages] before a transaction is announced. *)
Record peer_filter := { pfilter : option CBloomFilter; fRelayTxes : bool; misbehaviour : Z }.
(** The state of a [CNode] when it connects. *)
Definition peer_new : peer_filter := {| pfilter := Some Bloom_default; fRelayTxes := false; misbehaviour := 0 |}.
Inductive filter_msg :=
  | FilterLoad (data : list Z) (funcs tweak flags : Z)
  | FilterAdd (data : valtype)
  | FilterClear
  | RelayTx (tx : CTransaction).

Definition Misbehaving (p : peer_filter) (howmuch : Z) : peer_filter :=
  {| pfilter := pfilter p; fRelayTxes := fRelayTxes p; misbehaviour := misbehaviour p + howmuch |}.
(** Deserialization reads four of the six fields into a default filter. *)
Definition process_filterload (p : peer_filter) (data : list Z) (funcs tweak flags : Z) : peer_filter :=
  let filter := mkBloom data (isFull Bloom_default) (isEmpty Bloom_default) funcs tweak flags in
  if negb (IsWithinSizeConstraints filter) then Misbehaving p 100
  else {| pfilter := Some (UpdateEmptyFull filter); fRelayTxes := true; misbehaviour := misbehaviour p |}.
Definition process_filteradd (p : peer_filter) (data : valtype) : option peer_filter :=
  if MAX_SCRIPT_ELEMENT_SIZE <? size data then Some (Misbehaving p 100)
  else match pfilter p with
       | Some f =>
           f ← Bloom_insert f data;
           Some {| pfilter := Some f; fRelayTxes := fRelayTxes p; misbehaviour := misbehaviour p |}
       | None => Some (Misbehaving p 100)
       end.
Definition process_filterclear (node_bloom : bool) (p : peer_filter) : peer_filter :=
  {| pfilter := if node_bloom then Some Bloom_default else pfilter p; fRelayTxes := true; misbehaviour := misbehaviour p |}.
(** Is the transaction announced to the peer? *)
Definition relay_tx (p : peer_filter) (tx : CTransaction) : option (bool * peer_filter) :=
  match pfilter p with
  | Some f =>
      '(relevant, f) ← IsRelevantAndUpdate f tx;
      Some (relevant, {| pfilter := Some f; fRelayTxes := fRelayTxes p; misbehaviour := misbehaviour p |})
  | None => Some (true, p)
  end.
(** [node_bloom]: is the service offered? When it is not, a peer that sends filters is punished; one older
    than [NO_BLOOM_VERSION] is disconnected instead, which ends the conversation. *)
Definition filter_step (node_bloom : bool) (p : peer_filter) (m : filter_msg) : option (bool * peer_filter) :=
  match m with
  | FilterLoad data funcs tweak flags =>
      Some (false, if node_bloom then process_filterload p data funcs tweak flags else Misbehaving p 100)
  | FilterAdd data =>
      if node_bloom then p ← process_filteradd p data; Some (false, p) else Some (false, Misbehaving p 100)
  | FilterClear => Some (false, process_filterclear node_bloom p)
  | RelayTx tx => relay_tx p tx
  end.
(** A conversation: the answers, one per event, and the final state. *)
Fixpoint filter_run (node_bloom : bool) (p : peer_filter) (ms : list filter_msg) : option (list bool * peer_filter) :=
  match ms with
  | [] => Some ([], p)
  | m :: ms =>
      '(b, p) ← filter_step node_bloom p m;
      '(bs, p) ← filter_run node_bloom p ms;
      Some (b :: bs, p)
  end.
End Relevant.

(** ** Bits of the filter *)

Definition bit_at (data : list Z) (p : Z) : bool := Z.testbit (aget data (p / 8)) (p mod 8).

Lemma land_single x k : 0 <= k -> (Z.land x (Z.shiftl 1 k) =? 0) = negb (Z.testbit x k).
Proof.
  intros Hk. destruct (Z.testbit x k) eqn:E; simpl.
  - apply Z.eqb_neq. intros H. apply (f_equal (fun y => Z.testbit y k)) in H.
    rewrite Z.land_spec, E, Z.shiftl_spec, Z.sub_diag, Z.bits_0 in H by lia. done.
  - apply Z.eqb_eq. apply Z.bits_inj'. intros i Hi. rewrite Z.land_spec, Z.bits_0, Z.shiftl_spec by lia.
    destruct (decide (i = k)) as [->|Hne]; [by rewrite E|].
    destruct (Z.ltb_spec i k); [rewrite (Z.testbit_neg_r 1) by lia; apply andb_false_r|].
    replace (Z.testbit 1 (i - k)) with false; [apply andb_false_r|].
    symmetry. apply (testbit_high 1 1); lia.
Qed.

Lemma index_split n : Z.shiftr n 3 = n / 8 /\ Z.land 7 n = n mod 8.
Proof.
  split; [by rewrite Z.shiftr_div_pow2|]. rewrite Z.land_comm. change 7 with (Z.ones 3). by rewrite Z.land_ones.
Qed.

Lemma bit_at_aor data p q : 0 <= p -> 0 <= q < 8 * size data ->
  bit_at (aor data (p / 8) (Z.shiftl 1 (p mod 8))) q = bit_at data q || (p =? q).
Proof.
  intros Hp Hq. unfold bit_at.
  assert (0 <= q / 8 < size data) by (split; [apply Z.div_pos; lia|apply Z.div_lt_upper_bound; lia]).
  pose proof (Z.mod_pos_bound q 8). pose proof (Z.mod_pos_bound p 8).
  pose proof (Z.div_mod p 8). pose proof (Z.div_mod q 8). pose proof (Z.div_pos p 8).
  rewrite aget_aor, Z.lor_spec by lia. f_equal.
  destruct (Z.eqb_spec (p / 8) (q / 8)) as [Hd|Hd].
  - rewrite Z.shiftl_spec by lia. destruct (Z.eqb_spec p q) as [->|Hne]; [by rewrite Z.sub_diag|].
    destruct (Z.ltb_spec (q mod 8) (p mod 8)); [apply Z.testbit_neg_r; lia|]. apply (testbit_high 1 1); lia.
  - rewrite Z.bits_0. symmetry. apply Z.eqb_neq. intros ->. done.
Qed.

(** The index of the [i]-th hash function. *)
Definition index (f : CBloomFilter) (i : Z) (key : valtype) : Z :=
  MurmurHash3 (u32 (i * 0xfba4c795 + nTweak f)) key mod (size (vData f) * 8).

Lemma Bloom_Hash_index f i key : vData f <> [] ->
  Bloom_Hash f i key = Some (index f i key) /\ 0 <= index f i key < 8 * size (vData f).
Proof.
  intros H. assert (0 < size (vData f)) by (destruct (vData f); [done|simpl; lia]).
  unfold Bloom_Hash, index. rewrite (proj2 (Z.eqb_neq _ 0)) by lia. split; [done|].
  rewrite (Z.mul_comm 8). apply Z.mod_pos_bound. lia.
Qed.

Lemma insert_loop_spec f key n : vData f <> [] -> forall i data, length data = length (vData f) ->
  exists data', insert_loop f n i data key = Some data' /\ length data' = length (vData f) /\
    (forall q, 0 <= q < 8 * size (vData f) -> bit_at data q = true -> bit_at data' q = true) /\
    (forall j, i <= j < i + Z.of_nat n -> bit_at data' (index f j key) = true).
Proof.
  intros Hne. induction n as [|n IH]; intros i data Hl.
  - exists data. split_and!; [done|done|done|intros; lia].
  - destruct (Bloom_Hash_index f i key Hne) as [Hh Hr]. cbn [insert_loop]. rewrite Hh. cbn [mbind option_bind].
    destruct (index_split (index f i key)) as [-> ->].
    set (data1 := aor data _ _). assert (Hl1 : length data1 = length (vData f)) by (subst data1; by rewrite length_aor).
    assert (Hb1 : forall q, 0 <= q < 8 * size (vData f) -> bit_at data1 q = bit_at data q || (index f i key =? q)).
    { intros q Hq. subst data1. apply bit_at_aor; [lia|by rewrite Hl]. }
    destruct (IH (i + 1) data1 Hl1) as (data' & -> & Hl' & Hmono & Hset). exists data'. split_and!; [done|done| |].
    + intros q Hq Hb. apply Hmono; [done|]. by rewrite Hb1, Hb.
    + intros j Hj. destruct (decide (j = i)) as [->|]; [|apply Hset; lia].
      apply Hmono; [done|]. rewrite Hb1, Z.eqb_refl by done. apply orb_true_r.
Qed.

Lemma contains_loop_spec f key n : vData f <> [] -> forall i,
  exists b, contains_loop f n i key = Some b /\
    (b = true <-> forall j, i <= j < i + Z.of_nat n -> bit_at (vData f) (index f j key) = true).
Proof.
  intros Hne. induction n as [|n IH]; intros i.
  - exists true. split; [done|]. split; [intros _ j Hj; lia|done].
  - destruct (Bloom_Hash_index f i key Hne) as [Hh Hr]. cbn [contains_loop]. rewrite Hh. cbn [mbind option_bind].
    destruct (index_split (index f i key)) as [-> ->]. rewrite land_single by (apply Z.mod_pos_bound; lia).
    fold (bit_at (vData f) (index f i key)). destruct (bit_at _ _) eqn:Eb; cbn [negb].
    + destruct (IH (i + 1)) as (b & -> & Hb). exists b. split; [done|]. rewrite Hb. split; intros Hall j Hj.
      * destruct (decide (j = i)) as [->|]; [done|]. apply Hall. lia.
      * apply Hall. lia.
    + exists false. split; [done|]. split; [done|]. intros Hall. rewrite Hall in Eb by lia. done.
Qed.

(** ** Filters only gain *)

(** Full filters are never hashed into; the others have bits. *)
Definition filter_ok (f : CBloomFilter) : Prop := isFull f = true \/ vData f <> [].

Record filter_le (f g : CBloomFilter) : Prop := {
  le_length : length (vData f) = length (vData g);
  le_funcs : nHashFuncs f = nHashFuncs g;
  le_tweak : nTweak f = nTweak g;
  le_flags : nFlags f = nFlags g;
  le_full : isFull f = isFull g;
  le_empty : isEmpty f = false -> isEmpty g = false;
  le_bits : forall q, 0 <= q < 8 * size (vData f) -> bit_at (vData f) q = true -> bit_at (vData g) q = true
}.

#[export] Instance filter_le_preorder : PreOrder filter_le.
Proof.
  split; [by intros f; split|]. intros f g h Hfg Hgh. pose proof (le_length _ _ Hfg) as Hl.
  split; try (destruct Hfg, Hgh; congruence).
  - intros He. by apply (le_empty _ _ Hgh), (le_empty _ _ Hfg).
  - intros q Hq Hb. apply (le_bits _ _ Hgh); [by rewrite <- Hl|]. by apply (le_bits _ _ Hfg).
Qed.

Lemma filter_le_ok f g : filter_le f g -> filter_ok f -> filter_ok g.
Proof.
  intros Hle [Hf|Hv]; [left; by rewrite <- (le_full _ _ Hle)|right]. intros E. apply Hv.
  apply length_zero_iff_nil. by rewrite (le_length _ _ Hle), E.
Qed.

Lemma contains_total f key : filter_ok f -> exists b, Bloom_contains f key = Some b.
Proof.
  intros Hok. unfold Bloom_contains. destruct (isFull f) eqn:Ef; [by eexists|]. destruct (isEmpty f); [by eexists|].
  destruct Hok as [|Hv]; [congruence|]. destruct (contains_loop_spec f key (Z.to_nat (nHashFuncs f)) Hv 0) as (b & -> & _). eauto.
Qed.

Lemma contains_mono f g key : filter_le f g -> Bloom_contains f key = Some true -> Bloom_contains g key = Some true.
Proof.
  intros Hle. unfold Bloom_contains. rewrite <- (le_full _ _ Hle). destruct (isFull f); [done|].
  destruct (isEmpty f) eqn:Ee; [done|]. rewrite (le_empty _ _ Hle Ee), <- (le_funcs _ _ Hle).
  destruct (decide (vData f = [])) as [Hv|Hv].
  - destruct (Z.to_nat (nHashFuncs f)); [done|]. cbn [contains_loop]. unfold Bloom_Hash at 1. by rewrite Hv.
  - assert (Hv' : vData g <> []) by (intros E; apply Hv, length_zero_iff_nil; by rewrite (le_length _ _ Hle), E).
    destruct (contains_loop_spec f key (Z.to_nat (nHashFuncs f)) Hv 0) as (b & -> & Hb). intros [= ->].
    destruct (contains_loop_spec g key (Z.to_nat (nHashFuncs f)) Hv' 0) as (b' & -> & Hb'). f_equal. apply Hb'.
    intros j Hj. destruct (Bloom_Hash_index f j key Hv) as [_ Hr].
    assert (Hi : index g j key = index f j key) by (unfold index; by rewrite (le_tweak _ _ Hle), (le_length _ _ Hle)).
    rewrite Hi. apply (le_bits _ _ Hle); [done|]. by apply Hb.
Qed.

Lemma insert_gains f key : filter_ok f ->
  exists g, Bloom_insert f key = Some g /\ filter_le f g /\ Bloom_contains g key = Some true.
Proof.
  intros Hok. unfold Bloom_insert. destruct (isFull f) eqn:Ef.
  - exists f. split_and!; [done|done|]. unfold Bloom_contains. by rewrite Ef.
  - destruct Hok as [|Hv]; [congruence|].
    destruct (insert_loop_spec f key (Z.to_nat (nHashFuncs f)) Hv 0 (vData f) eq_refl) as (data & -> & Hl & Hm & Hs).
    cbn [mbind option_bind]. eexists. split; [done|]. set (g := mkBloom _ _ _ _ _ _).
    assert (Hle : filter_le f g) by (split; try done; subst g; simpl; congruence). split; [done|].
    unfold Bloom_contains. cbn [isFull isEmpty g nHashFuncs].
    assert (Hv' : vData g <> []) by (intros E; apply Hv, length_zero_iff_nil; rewrite <- Hl; cbn in E; by rewrite E).
    destruct (contains_loop_spec g key (Z.to_nat (nHashFuncs f)) Hv' 0) as (b & -> & Hb). f_equal. apply Hb.
    intros j Hj. assert (Hi : index g j key = index f j key) by (unfold index; subst g; cbn; by rewrite Hl).
    rewrite Hi. by apply Hs.
Qed.

Lemma check_script_total fuel f pc : filter_ok f -> exists b, check_script_loop fuel f pc = Some b.
Proof.
  intros Hok. revert pc. induction fuel as [|fuel IH]; intros pc; cbn [check_script_loop]; [by eexists|].
  destruct (GetOp2 pc) as [[[op data] pc']|]; [|by eexists]. destruct (negb _); [|apply IH].
  destruct (contains_total f data Hok) as [b ->]. cbn [mbind option_bind]. destruct b; [by eexists|apply IH].
Qed.

Lemma check_script_mono fuel f g pc : filter_ok f -> filter_le f g ->
  check_script_loop fuel f pc = Some true -> check_script_loop fuel g pc = Some true.
Proof.
  intros Hok Hle. revert pc. induction fuel as [|fuel IH]; intros pc; cbn [check_script_loop]; [done|].
  destruct (GetOp2 pc) as [[[op data] pc']|]; [|done]. destruct (negb _); [|apply IH].
  destruct (contains_total f data Hok) as [b Hb]. rewrite Hb. cbn [mbind option_bind].
  destruct b; [by rewrite (contains_mono f g data Hle Hb)|]. intros H.
  destruct (contains_total g data (filter_le_ok f g Hle Hok)) as [b' ->]. cbn [mbind option_bind].
  destruct b'; [done|]. by apply IH.
Qed.

Lemma check_script_empty fuel f pc : isFull f = false -> isEmpty f = true -> check_script_loop fuel f pc = Some false.
Proof.
  intros Hf He. revert pc. induction fuel as [|fuel IH]; intros pc; cbn [check_script_loop]; [done|].
  destruct (GetOp2 pc) as [[[op data] pc']|]; [|done]. destruct (negb _); [|apply IH].
  unfold Bloom_contains. rewrite Hf, He. apply IH.
Qed.

Section Relevance.
Context `{SpecialTxs}.

(** An operation that succeeds and leaves a filter that has gained. *)
Definition gains (f : CBloomFilter) (r : option (bool * CBloomFilter)) : Prop :=
  exists b g, r = Some (b, g) /\ filter_le f g.

Lemma gains_id f b : gains f (Some (b, f)).
Proof. by exists b, f. Qed.

Lemma gains_matched f hash : filter_ok f -> gains f (special_matched f hash).
Proof.
  intros Hok. unfold special_matched. destruct (update_all f); [|apply gains_id].
  destruct (insert_gains f (hash_bytes hash) Hok) as (g & Hg & Hle & _). unfold insert_hash. rewrite Hg. by exists true, g.
Qed.

Lemma any_of_total l : Forall (fun t => exists b : bool, t = Some b) l -> exists b, any_of l = Some b.
Proof.
  induction 1 as [|t l [b ->] _ IH]; cbn [any_of mbind option_bind]; [by eexists|]. destruct b; [by eexists|done].
Qed.

Lemma gains_case f (t : option bool) r1 r2 :
  (exists b, t = Some b) -> gains f r1 -> gains f r2 -> gains f (b ← t; if (b : bool) then r1 else r2).
Proof. by intros [[] ->]. Qed.

Lemma special_gains f tx : filter_ok f -> gains f (CheckSpecialTransactionMatchesAndUpdate f tx).
Proof.
  intros Hok. unfold CheckSpecialTransactionMatchesAndUpdate.
  pose proof (fun k => contains_total f k Hok : exists b, Bloom_contains f k = Some b) as Hc.
  pose proof (fun s => check_script_total (length s) f s Hok : exists b, CheckScript f s = Some b) as Hs.
  pose proof (fun k => contains_total f (outpoint_bytes k) Hok : exists b, contains_outpoint f k = Some b) as Ho.
  pose proof (fun k => contains_total f (hash_bytes k) Hok : exists b, contains_hash f k = Some b) as Hh.
  pose proof (gains_id f) as Hid. pose proof (fun h => gains_matched f h Hok) as Hm.
  destruct (_ || _); [done|]. cbv zeta. repeat case_match; try done;
    repeat first [apply gains_case; [try done; apply any_of_total; by repeat constructor|try done..]].
  destruct (Hh (rev_proTxHash c)) as [b ->]. apply Hid.
Qed.

(** The update of the filter for a matching output. *)
Lemma output_update f hash i txout : filter_ok f ->
  exists g, add_output f hash i txout = Some g /\ filter_le f g /\
            (update_all f = true -> contains_outpoint g (hash, i) = Some true).
Proof.
  intros Hok. unfold add_output, insert_outpoint, contains_outpoint.
  destruct (insert_gains f (outpoint_bytes (hash, i)) Hok) as (g & Hg & Hle & Hc).
  destruct (update_all f); [by exists g|]. destruct (_ =? _); [|by exists f].
  cbv zeta. destruct (_ && _); [by exists g|by exists f].
Qed.

Lemma update_all_le f g : filter_le f g -> update_all g = update_all f.
Proof. intros Hle. unfold update_all. by rewrite (le_flags _ _ Hle). Qed.

(** What the loop over the outputs does: it gains, it keeps what was found, and with
    [BLOOM_UPDATE_ALL] every output that matched is in the filter afterwards. *)
Lemma outputs_loop_spec hash outs : forall f i fFound, filter_ok f ->
  exists b g, outputs_loop f hash i outs fFound = Some (b, g) /\ filter_le f g /\ (fFound = true -> b = true) /\
    forall k out, outs !! k = Some out -> CheckScript f (scriptPubKey out) = Some true ->
      b = true /\ (update_all f = true -> contains_outpoint g (hash, i + Z.of_nat k) = Some true).
Proof.
  induction outs as [|txout outs IH]; intros f i fFound Hok; cbn [outputs_loop]; [by exists fFound, f|].
  destruct (check_script_total (length (scriptPubKey txout)) f (scriptPubKey txout) Hok) as [b Hb].
  assert (Hb' : CheckScript f (scriptPubKey txout) = Some b) by done. rewrite Hb'. cbn [mbind option_bind].
  destruct b.
  - destruct (output_update f hash i txout Hok) as (f1 & -> & Hle & Hc). cbn [mbind option_bind].
    pose proof (filter_le_ok _ _ Hle Hok) as Hok1.
    destruct (IH f1 (i + 1) true Hok1) as (b & g & -> & Hle' & Hb1 & Hk). exists b, g.
    split_and!; [done|by transitivity f1|by intros _; apply Hb1|].
    intros [|k] out Hout Hm.
    + split; [by apply Hb1|]. intros Hu. rewrite Z.add_0_r. eapply contains_mono; [exact Hle'|]. by apply Hc.
    + destruct (Hk k out Hout) as [Hb2 Hc2]; [by apply (check_script_mono _ f)|]. split; [done|].
      intros Hu. replace (i + Z.of_nat (S k)) with (i + 1 + Z.of_nat k) by lia. apply Hc2. by rewrite (update_all_le f).
  - destruct (IH f (i + 1) fFound Hok) as (b & g & -> & Hle' & Hb1 & Hk). exists b, g. split_and!; [done|done|done|].
    intros [|k] out Hout Hm; [injection Hout as <-; congruence|].
    destruct (Hk k out Hout Hm) as [Hb2 Hc2]. split; [done|].
    replace (i + Z.of_nat (S k)) with (i + 1 + Z.of_nat k) by lia. done.
Qed.

Lemma inputs_loop_spec f ins : filter_ok f ->
  exists b, inputs_loop f ins = Some b /\
    forall txin, txin ∈ ins -> contains_outpoint f (prevout txin) = Some true -> b = true.
Proof.
  intros Hok. induction ins as [|txin ins (b & Hb & Hin)]; cbn [inputs_loop].
  - exists false. split; [done|]. by intros txin ?%elem_of_nil.
  - destruct (contains_total f (outpoint_bytes (prevout txin)) Hok) as [c Hc].
    assert (Hc' : contains_outpoint f (prevout txin) = Some c) by done. rewrite Hc'. cbn [mbind option_bind].
    destruct c; [by exists true|].
    destruct (check_script_total (length (scriptSig txin)) f (scriptSig txin) Hok) as [d Hd].
    assert (Hd' : CheckScript f (scriptSig txin) = Some d) by done. rewrite Hd'. cbn [mbind option_bind].
    destruct d; [by exists true|]. exists b. split; [done|].
    intros txin' [->|Hi]%elem_of_cons Hp; [congruence|]. eauto.
Qed.

Lemma IsRelevant_spec f tx : filter_ok f ->
  exists b g, IsRelevantAndUpdate f tx = Some (b, g) /\ filter_le f g /\
    (forall k out, vout tx !! k = Some out -> CheckScript f (scriptPubKey out) = Some true ->
      b = true /\ (update_all f = true -> contains_outpoint g (txid tx, Z.of_nat k) = Some true)) /\
    (forall txin, txin ∈ vin tx -> contains_outpoint f (prevout txin) = Some true -> b = true).
Proof.
  intros Hok. unfold IsRelevantAndUpdate. destruct (isFull f) eqn:Ef.
  { exists true, f. split_and!; [done|done| |done]. intros k out _ _. split; [done|]. intros _.
    unfold contains_outpoint, Bloom_contains. by rewrite Ef. }
  destruct (isEmpty f) eqn:Ee.
  { exists false, f. split_and!; [done|done| |].
    { intros k out _ Hm. unfold CheckScript in Hm. by rewrite check_script_empty in Hm. }
    intros txin _ Hc. unfold contains_outpoint, Bloom_contains in Hc.
    by rewrite Ef, Ee in Hc. }
  destruct (contains_total f (hash_bytes (txid tx)) Hok) as [c Hc].
  assert (Hc' : contains_hash f (txid tx) = Some c) by done. rewrite Hc'. cbn [mbind option_bind].
  assert (Hsp : gains f (if c then Some (true, f) else CheckSpecialTransactionMatchesAndUpdate f tx))
    by (destruct c; [apply gains_id|by apply special_gains]).
  destruct Hsp as (b1 & f1 & -> & Hle1). cbn [mbind option_bind]. pose proof (filter_le_ok _ _ Hle1 Hok) as Hok1.
  destruct (outputs_loop_spec (txid tx) (vout tx) f1 0 b1 Hok1) as (b2 & f2 & -> & Hle2 & _ & Hout).
  cbn [mbind option_bind]. assert (Hle : filter_le f f2) by (by transitivity f1).
  pose proof (filter_le_ok _ _ Hle Hok) as Hok2.
  destruct (inputs_loop_spec f2 (vin tx) Hok2) as (b3 & Hb3 & Hin).
  assert (Hres : exists b, (if b2 then Some (true, f2) else b ← inputs_loop f2 (vin tx); Some (b, f2)) = Some (b, f2) /\
                   (b2 = true -> b = true) /\ (b3 = true -> b = true)).
  { destruct b2; [by exists true|]. rewrite Hb3. by exists b3. }
  destruct Hres as (b & -> & Hbb2 & Hbb3). exists b, f2. split_and!; [done|done| |].
  - intros k out Hk Hm. destruct (Hout k out Hk) as [Hb2 Hu]; [by apply (check_script_mono _ f)|].
    split; [by apply Hbb2|]. intros Hup. apply Hu. by rewrite (update_all_le f).
  - intros txin Hi Hp. apply Hbb3, (Hin txin Hi). by eapply contains_mono.
Qed.
(** ** Conversations with a peer *)

Definition peer_ok (p : peer_filter) : Prop := from_option filter_ok True (pfilter p).

Lemma UpdateEmptyFull_ok f : filter_ok (UpdateEmptyFull f).
Proof. unfold filter_ok, UpdateEmptyFull. simpl. destruct (vData f); [by left|by right]. Qed.

(** A peer whose filter is [g]. *)
Definition with_filter (p : peer_filter) (g : CBloomFilter) : peer_filter :=
  {| pfilter := Some g; fRelayTxes := fRelayTxes p; misbehaviour := misbehaviour p |}.

Lemma filteradd_gains p f data : pfilter p = Some f -> filter_ok f ->
  exists p' g, process_filteradd p data = Some p' /\ pfilter p' = Some g /\ filter_le f g.
Proof.
  intros Hp Hok. unfold process_filteradd. destruct (_ <? _); [by exists (Misbehaving p 100), f|].
  rewrite Hp. destruct (insert_gains f data Hok) as (g & -> & Hle & _). by exists (with_filter p g), g.
Qed.

Lemma relay_spec p f tx : pfilter p = Some f -> filter_ok f ->
  exists b p' g, relay_tx p tx = Some (b, p') /\ IsRelevantAndUpdate f tx = Some (b, g) /\
    pfilter p' = Some g /\ filter_le f g.
Proof.
  intros Hp Hok. unfold relay_tx. rewrite Hp. destruct (IsRelevant_spec f tx Hok) as (b & g & Hr & Hle & _).
  rewrite Hr. by exists b, (with_filter p g), g.
Qed.

Lemma filter_step_ok nb p m : peer_ok p -> exists b p', filter_step nb p m = Some (b, p') /\ peer_ok p'.
Proof.
  unfold peer_ok. intros Hok. destruct m as [data funcs tweak flags|data| |tx]; cbn [filter_step].
  - eexists _, _. split; [done|]. destruct nb; [|done]. unfold process_filterload. destruct (negb _); [done|].
    apply UpdateEmptyFull_ok.
  - destruct nb; [|by eexists _, _]. destruct (pfilter p) as [f|] eqn:Ef.
    + destruct (filteradd_gains p f data Ef Hok) as (p' & g & -> & Hg & Hle). eexists _, p'. split; [done|].
      rewrite Hg. by apply (filter_le_ok f).
    + unfold process_filteradd. rewrite Ef. destruct (_ <? _); eexists _, _; (split; [done|]); cbn; by rewrite Ef.
  - eexists _, _. split; [done|]. destruct nb; [by left|done].
  - destruct (pfilter p) as [f|] eqn:Ef.
    + destruct (relay_spec p f tx Ef Hok) as (b & p' & g & -> & _ & Hg & Hle). eexists b, p'. split; [done|].
      rewrite Hg. by apply (filter_le_ok f).
    + unfold relay_tx. rewrite Ef. eexists _, p. split; [done|]. by rewrite Ef.
Qed.

Lemma filter_run_ok nb ms : forall p, peer_ok p ->
  exists bs p', filter_run nb p ms = Some (bs, p') /\ length bs = length ms /\ peer_ok p'.
Proof.
  induction ms as [|m ms IH]; intros p Hok; cbn [filter_run]; [by exists [], p|].
  destruct (filter_step_ok nb p m Hok) as (b & p1 & -> & Hok1). cbn [mbind option_bind].
  destruct (IH p1 Hok1) as (bs & p2 & -> & Hl & Hok2). exists (b :: bs), p2. split_and!; [done|by cbn; rewrite Hl|done].
Qed.

(** Whatever [filterload], [filteradd] and [filterclear] messages a peer sends, in
    whatever order, mixed with whatever transactions are tested for it, no operation on its
    filter takes a remainder modulo zero: every conversation runs to its end and answers every
    event. (A filter of no bytes arrives full, because [UpdateEmptyFull] follows its
    deserialization, and full filters are never hashed into.) *)
Theorem filter_messages_safe nb ms :
  exists bs p, filter_run nb peer_new ms = Some (bs, p) /\ length bs = length ms.
Proof. destruct (filter_run_ok nb ms peer_new) as (bs & p & ? & ? & _); [by left|eauto]. Qed.

(** ** Following the coins *)

(** Events that leave the peer's filter in place. *)
Definition keeps_filter (m : filter_msg) : bool :=
  match m with FilterAdd _ | RelayTx _ => true | _ => false end.

Lemma keeps_filter_step p f m : keeps_filter m = true -> pfilter p = Some f -> filter_ok f ->
  exists b p' g, filter_step true p m = Some (b, p') /\ pfilter p' = Some g /\ filter_le f g.
Proof.
  intros Hk Hp Hok. destruct m as [|data| |tx]; try done; cbn [filter_step].
  - destruct (filteradd_gains p f data Hp Hok) as (p' & g & -> & Hg & Hle). by eexists _, p', g.
  - destruct (relay_spec p f tx Hp Hok) as (b & p' & g & -> & _ & Hg & Hle). by exists b, p', g.
Qed.

(** The step at position [i] of a conversation. *)
Lemma filter_run_at ms : forall p f bs q i m, Forall (fun m => keeps_filter m = true) ms ->
  pfilter p = Some f -> filter_ok f -> filter_run true p ms = Some (bs, q) -> ms !! i = Some m ->
  exists b p1 f1 p2 f2, pfilter p1 = Some f1 /\ filter_le f f1 /\ filter_step true p1 m = Some (b, p2) /\
    bs !! i = Some b /\ pfilter p2 = Some f2 /\ filter_le f1 f2 /\
    filter_run true p2 (drop (S i) ms) = Some (drop (S i) bs, q).
Proof.
  induction ms as [|m0 ms IH]; intros p f bs q i m Hall Hp Hok Hrun Hi; [done|].
  apply Forall_cons in Hall as [Hm0 Hall]. cbn [filter_run] in Hrun.
  destruct (keeps_filter_step p f m0 Hm0 Hp Hok) as (b & p' & g & Hs & Hg & Hle).
  rewrite Hs in Hrun. cbn [mbind option_bind] in Hrun.
  destruct (filter_run true p' ms) as [[bs' q']|] eqn:Er; cbn [mbind option_bind] in Hrun; [|done].
  injection Hrun as <- ->. destruct i as [|i].
  - injection Hi as ->. by exists b, p, f, p', g.
  - destruct (IH p' g bs' q i m Hall Hg (filter_le_ok _ _ Hle Hok) Er Hi) as (b1 & p1 & f1 & p2 & f2 & H1 & H2 & H3).
    exists b1, p1, f1, p2, f2. split_and!; try apply H3; [done|by transitivity g].
Qed.

Lemma relay_matches p f tx b p' : pfilter p = Some f -> filter_ok f -> filter_step true p (RelayTx tx) = Some (b, p') ->
  exists g, pfilter p' = Some g /\
    (forall k out, vout tx !! k = Some out -> CheckScript f (scriptPubKey out) = Some true ->
      b = true /\ (update_all f = true -> contains_outpoint g (txid tx, Z.of_nat k) = Some true)) /\
    (forall txin, txin ∈ vin tx -> contains_outpoint f (prevout txin) = Some true -> b = true).
Proof.
  intros Hp Hok Hs. cbn [filter_step] in Hs. destruct (relay_spec p f tx Hp Hok) as (b1 & p1 & g & Hr & Hi & Hg & _).
  destruct (IsRelevant_spec f tx Hok) as (b2 & g2 & Hi2 & _ & Hout & Hin).
  assert (b = b1 /\ p' = p1) as [-> ->] by (split; congruence). assert (b2 = b1 /\ g2 = g) as [-> ->] by (split; congruence).
  by exists g.
Qed.

(** The filter a [filterload] message installs. *)
Definition loaded (data : list Z) (funcs tweak flags : Z) : CBloomFilter :=
  UpdateEmptyFull (mkBloom data true false funcs tweak flags).

(** A client that loads a filter with [BLOOM_UPDATE_ALL] and afterwards only adds
    elements learns of its coins and of their spends: every transaction with an output whose
    script matches the filter is announced, and so is every later transaction that spends
    such an output, although the client has not told the node about that output. *)
Theorem filter_follows_coins data funcs tweak flags rest bs p i tx1 k out :
  size data <= MAX_BLOOM_FILTER_SIZE -> funcs <= MAX_HASH_FUNCS ->
  Z.land flags BLOOM_UPDATE_MASK = BLOOM_UPDATE_ALL ->
  Forall (fun m => keeps_filter m = true) rest ->
  filter_run true peer_new (FilterLoad data funcs tweak flags :: rest) = Some (false :: bs, p) ->
  rest !! i = Some (RelayTx tx1) -> vout tx1 !! k = Some out ->
  CheckScript (loaded data funcs tweak flags) (scriptPubKey out) = Some true ->
  bs !! i = Some true /\
  forall j tx2 txin, (i < j)%nat -> rest !! j = Some (RelayTx tx2) -> txin ∈ vin tx2 ->
    prevout txin = (txid tx1, Z.of_nat k) -> bs !! j = Some true.
Proof.
  intros Hsize Hfuncs Hflags Hall Hrun Hi Hk Hm. set (f := loaded data funcs tweak flags).
  assert (Hok : filter_ok f) by apply UpdateEmptyFull_ok.
  cbn [filter_run filter_step mbind option_bind] in Hrun. unfold process_filterload in Hrun.
  replace (IsWithinSizeConstraints _) with true in Hrun
    by (symmetry; unfold IsWithinSizeConstraints; cbn; apply andb_true_intro; split; by apply Z.leb_le).
  cbn [negb] in Hrun. set (p0 := {| pfilter := _ |}) in Hrun.
  destruct (filter_run true p0 rest) as [[bs' q]|] eqn:Er; cbn [mbind option_bind] in Hrun; [|done].
  injection Hrun as -> ->.
  destruct (filter_run_at rest p0 f bs p i _ Hall eq_refl Hok Er Hi) as (b & p1 & f1 & p2 & f2 & Hp1 & Hle1 & Hs & Hb & Hp2 & Hle2 & Hr2).
  pose proof (filter_le_ok _ _ Hle1 Hok) as Hok1. pose proof (filter_le_ok _ _ Hle2 Hok1) as Hok2.
  destruct (relay_matches p1 f1 tx1 b p2 Hp1 Hok1 Hs) as (g & Hg & Hout & _).
  assert (g = f2) as -> by congruence.
  destruct (Hout k out Hk) as [-> Hu]; [by apply (check_script_mono _ f)|]. split; [done|].
  intros j tx2 txin Hij Hj Hin Hprev.
  assert (Hc : contains_outpoint f2 (txid tx1, Z.of_nat k) = Some true).
  { apply Hu. rewrite (update_all_le f f1 Hle1). unfold update_all. by apply Z.eqb_eq. }
  assert (Hj' : drop (S i) rest !! (j - S i)%nat = Some (RelayTx tx2)) by (rewrite lookup_drop, <- Hj; f_equal; lia).
  destruct (filter_run_at (drop (S i) rest) p2 f2 (drop (S i) bs) p (j - S i) _ (Forall_drop _ _ _ Hall) Hp2 Hok2 Hr2 Hj')
    as (b & p3 & f3 & p4 & f4 & Hp3 & Hle3 & Hs3 & Hb3 & _).
  destruct (relay_matches p3 f3 tx2 b p4 Hp3 (filter_le_ok _ _ Hle3 Hok2) Hs3) as (g & _ & _ & Hinp).
  rewrite lookup_drop in Hb3. replace (S i + (j - S i))%nat with j in Hb3 by lia. rewrite Hb3. f_equal.
  apply (Hinp txin Hin). rewrite Hprev. by apply (contains_mono f2).
Qed.
End Relevance.

(** A client that watches one key hash, a payment to it, and the spend of that payment. *)
Definition no_special : SpecialTxs :=
  {| GetProRegTx := fun _ => None; GetProUpServTx := fun _ => None; GetProUpRegTx := fun _ => None; GetProUpRevTx := fun _ => None;
     GetQuorumCommitment := fun _ => None |}.
Definition watched : valtype := map Z.of_nat (seq 1 20).
Definition client_data : list Z := from_option vData [] (Bloom_insert (Bloom_new 128 5 7 BLOOM_UPDATE_ALL) watched).
Definition payment : CTransaction :=
  mkTx 77 1 0 [] [mkTxOut 5 [OP_RETURN] 0; mkTxOut 9 (GetScriptForDestination (CKeyID watched)) 0] 0 [].
Definition spend : CTransaction := mkTx 78 1 0 [mkTxIn (77, 1) [] 0 []] [] 0 [].

Lemma filter_follows_coins_witness :
  match filter_run (H := no_special) true peer_new
          [FilterLoad client_data 5 7 BLOOM_UPDATE_ALL; RelayTx spend; RelayTx payment; RelayTx spend] with
  | Some (bs, _) => bs = [false; false; true; true]
  | None => False
  end /\ [false; true; true] !! 2%nat = Some true.
Proof.
  split; [vm_compute; reflexivity|].
  destruct (filter_run (H := no_special) true peer_new
          [FilterLoad client_data 5 7 BLOOM_UPDATE_ALL; RelayTx spend; RelayTx payment; RelayTx spend]) as [[bs p]|] eqn:E;
    [|exfalso; vm_compute in E; discriminate E].
  assert (Hb : bs = [false; false; true; true]) by (vm_compute in E; congruence). subst bs.
  refine (proj2 (filter_follows_coins (H := no_special) client_data 5 7 BLOOM_UPDATE_ALL [RelayTx spend; RelayTx payment; RelayTx spend]
    [false; true; true] p 1 payment 1 (mkTxOut 9 (GetScriptForDestination (CKeyID watched)) 0) _ _ eq_refl _ E eq_refl eq_refl _)
    2%nat spend (mkTxIn (77, 1) [] 0 []) _ eq_refl _ eq_refl);
    [vm_compute; discriminate|vm_compute; discriminate|by repeat constructor|vm_compute; reflexivity|lia|by apply list_elem_of_singleton].
Defined.
