(* ===== verification/RollingBloom.v ===== *)
(** [CRollingBloomFilter] ([bloom.cpp]): a filter of the most recent items, with two bits per
    cell for the generation that set it. *)

From stdpp Require Import prelude.
From Stdlib Require Import ZArith Lia.
From S2P Require Import Prelude Transaction Script Serialize SipHash.

Open Scope Z_scope.

(** ** [CRollingBloomFilter] *)

Record CRollingBloomFilter := mkRolling {
  nEntriesPerGeneration : Z;
  nEntriesThisGeneration : Z;
  nGeneration : Z;
  rb_data : list Z;
  rb_nTweak : Z;
  rb_nHashFuncs : Z
}.

Definition RollingBloomHash (nHashNum nTweak : Z) (vDataToHash : valtype) : Z :=
  MurmurHash3 (u32 (nHashNum * 0xfba4c795 + nTweak)) vDataToHash.
Definition FastMod (x n : Z) : Z := Z.shiftr (u64 (x * n)) 32.

(** [reset]; the tweak comes from the random number generator. *)
Definition Rolling_reset (f : CRollingBloomFilter) (rand : Z) : CRollingBloomFilter :=
  mkRolling (nEntriesPerGeneration f) 0 1 (replicate (length (rb_data f)) 0) rand (rb_nHashFuncs f).
(** The constructor; the number of hash functions and of bits come out of floating-point formulas. *)
Definition Rolling_new (nElements funcs nFilterBits rand : Z) : CRollingBloomFilter :=
  Rolling_reset (mkRolling ((nElements + 1) / 2) 0 0 (replicate (Z.to_nat (Z.shiftl ((nFilterBits + 63) / 64) 1)) 0) 0
    (Z.max 1 (Z.min funcs 50))) rand.

(** Wipe the entries that used this generation number. *)
Definition wipe_pair (gen p1 p2 : Z) : Z * Z :=
  let nGenerationMask1 := u64 (0 - Z.land gen 1) in
  let nGenerationMask2 := u64 (0 - Z.shiftr gen 1) in
  let mask := Z.lor (Z.lxor p1 nGenerationMask1) (Z.lxor p2 nGenerationMask2) in
  (Z.land p1 mask, Z.land p2 mask).
Fixpoint wipe (gen : Z) (data : list Z) : list Z :=
  match data with
  | p1 :: p2 :: rest => let '(q1, q2) := wipe_pair gen p1 p2 in q1 :: q2 :: wipe gen rest
  | _ => data
  end.

(** [(word & ~(1 << bit)) | (value << bit)] on 64 bits *)
Definition put_bit (word bit value : Z) : Z :=
  Z.lor (Z.land word (Z.lxor (Z.shiftl 1 bit) (2 ^ 64 - 1))) (u64 (Z.shiftl value bit)).

Fixpoint rolling_insert_loop (n : nat) (i tweak gen : Z) (data : list Z) (vKey : valtype) : list Z :=
  match n with
  | O => data
  | S n' =>
      let h := RollingBloomHash i tweak vKey in
      let bit := Z.land h 0x3f in
      let pos := FastMod h (size data) in
      let even := Z.land pos (2 ^ 32 - 2) in
      let odd := Z.lor pos 1 in
      let data := aset data even (put_bit (aget data even) bit (Z.land gen 1)) in
      let data := aset data odd (put_bit (aget data odd) bit (Z.shiftr gen 1)) in
      rolling_insert_loop n' (i + 1) tweak gen data vKey
  end.

Definition Rolling_insert (f : CRollingBloomFilter) (vKey : valtype) : CRollingBloomFilter :=
  let '(entries, gen, data) :=
    if nEntriesThisGeneration f =? nEntriesPerGeneration f then
      let gen := if nGeneration f + 1 =? 4 then 1 else nGeneration f + 1 in
      (0, gen, wipe gen (rb_data f))
    else (nEntriesThisGeneration f, nGeneration f, rb_data f) in
  mkRolling (nEntriesPerGeneration f) (entries + 1) gen
    (rolling_insert_loop (Z.to_nat (rb_nHashFuncs f)) 0 (rb_nTweak f) gen data vKey) (rb_nTweak f) (rb_nHashFuncs f).

Fixpoint rolling_contains_loop (n : nat) (i tweak : Z) (data : list Z) (vKey : valtype) : bool :=
  match n with
  | O => true
  | S n' =>
      let h := RollingBloomHash i tweak vKey in
      let bit := Z.land h 0x3f in
      let pos := FastMod h (size data) in
      if Z.land (Z.shiftr (Z.lor (aget data (Z.land pos (2 ^ 32 - 2))) (aget data (Z.lor pos 1))) bit) 1 =? 0 then false
      else rolling_contains_loop n' (i + 1) tweak data vKey
  end.
Definition Rolling_contains (f : CRollingBloomFilter) (vKey : valtype) : bool :=
  rolling_contains_loop (Z.to_nat (rb_nHashFuncs f)) 0 (rb_nTweak f) (rb_data f) vKey.

(** ** Cells

    Cell [(w, b)] is the two bits [b] of the words [2w] and [2w + 1]: [0] when it is unset,
    else the generation that set it. *)
Definition cell (data : list Z) (w b : Z) : Z :=
  Z.b2z (Z.testbit (aget data (2 * w)) b) + 2 * Z.b2z (Z.testbit (aget data (2 * w + 1)) b).

Definition is_gen (g : Z) : Prop := g = 1 \/ g = 2 \/ g = 3.

(** An even number of 64-bit words, fewer than [2^32]. *)
Record words_ok (data : list Z) : Prop := {
  words_u64 : Forall is_u64 data;
  words_even : size data mod 2 = 0;
  words_size : 0 < size data < 2 ^ 32
}.

Lemma word_u64 data i : words_ok data -> is_u64 (aget data i).
Proof. intros H. apply aget_Forall; [unfold is_u64; lia|apply H]. Qed.

Lemma testbit_ones64 b : 0 <= b < 64 -> Z.testbit (2 ^ 64 - 1) b = true.
Proof. intros Hb. change (2 ^ 64 - 1) with (Z.ones 64). apply Z.ones_spec_low. lia. Qed.

Lemma land_u64 x y : is_u64 x -> is_u64 (Z.land x y).
Proof.
  unfold is_u64. intros Hx. assert (0 <= Z.land x y) by (apply Z.land_nonneg; lia). split; [done|].
  apply bits_bound; [done|lia|]. intros i Hi. by rewrite Z.land_spec, (testbit_high x 64) by lia.
Qed.

Lemma wipe_pair_bits gen p1 p2 b : is_gen gen -> 0 <= b < 64 ->
  let '(q1, q2) := wipe_pair gen p1 p2 in
  Z.b2z (Z.testbit q1 b) + 2 * Z.b2z (Z.testbit q2 b) =
    let v := Z.b2z (Z.testbit p1 b) + 2 * Z.b2z (Z.testbit p2 b) in if v =? gen then 0 else v.
Proof.
  intros Hg Hb. unfold wipe_pair. cbv zeta. rewrite !Z.land_spec, !Z.lor_spec, !Z.lxor_spec.
  destruct Hg as [->|[->| ->]];
    [change (u64 (0 - Z.land 1 1)) with (2 ^ 64 - 1); change (u64 (0 - Z.shiftr 1 1)) with 0
    |change (u64 (0 - Z.land 2 1)) with 0; change (u64 (0 - Z.shiftr 2 1)) with (2 ^ 64 - 1)
    |change (u64 (0 - Z.land 3 1)) with (2 ^ 64 - 1); change (u64 (0 - Z.shiftr 3 1)) with (2 ^ 64 - 1)];
    rewrite ?testbit_ones64, ?Z.bits_0 by done; by destruct (Z.testbit p1 b), (Z.testbit p2 b).
Qed.

Lemma wipe_aget gen m : forall data w, length data = (2 * m)%nat -> 0 <= w < Z.of_nat m ->
  (aget (wipe gen data) (2 * w), aget (wipe gen data) (2 * w + 1)) = wipe_pair gen (aget data (2 * w)) (aget data (2 * w + 1)).
Proof.
  induction m as [|m IH]; intros data w Hl Hw; [lia|].
  destruct data as [|p1 [|p2 data]]; cbn [length] in Hl; [lia|lia|]. cbn [wipe].
  destruct (wipe_pair gen p1 p2) as [q1 q2] eqn:E. destruct (decide (w = 0)) as [->|Hne]; [done|].
  rewrite !(aget_cons_S _ _ (2 * w)), !(aget_cons_S _ _ (2 * w + 1)), !(aget_cons_S _ _ (2 * w - 1)),
    !(aget_cons_S _ _ (2 * w + 1 - 1)) by lia.
  replace (2 * w - 1 - 1) with (2 * (w - 1)) by lia. replace (2 * w + 1 - 1 - 1) with (2 * (w - 1) + 1) by lia.
  apply IH; lia.
Qed.

Lemma wipe_cell gen data w b : is_gen gen -> words_ok data -> 0 <= 2 * w < size data -> 0 <= b < 64 ->
  cell (wipe gen data) w b = if cell data w b =? gen then 0 else cell data w b.
Proof.
  intros Hg Hok Hw Hb. pose proof (words_even _ Hok) as He.
  assert (Hl : length data = (2 * Z.to_nat (size data / 2))%nat) by (Z.div_mod_to_equations; lia).
  pose proof (wipe_aget gen _ data w Hl) as Ha. pose proof (wipe_pair_bits gen (aget data (2 * w)) (aget data (2 * w + 1)) b Hg Hb) as Hp.
  rewrite <- Ha in Hp by (Z.div_mod_to_equations; lia). exact Hp.
Qed.

Lemma length_wipe gen n : forall data, (length data <= n)%nat -> length (wipe gen data) = length data.
Proof.
  induction n as [|n IH]; intros [|p1 [|p2 data]] Hl; cbn [length wipe] in *; try done; try lia.
  destruct (wipe_pair gen p1 p2). cbn [length]. rewrite IH by lia. done.
Qed.

Lemma wipe_u64 gen n : forall data, (length data <= n)%nat -> Forall is_u64 data -> Forall is_u64 (wipe gen data).
Proof.
  induction n as [|n IH]; intros [|p1 [|p2 data]] Hl Hu; cbn [length wipe] in *; try done; try lia.
  apply Forall_cons in Hu as [H1 [H2 Hu]%Forall_cons]. unfold wipe_pair. cbv zeta.
  repeat constructor; try (by apply land_u64). apply IH; [lia|done].
Qed.

Lemma wipe_ok gen data : words_ok data -> words_ok (wipe gen data).
Proof.
  intros [Hu He Hs]. pose proof (length_wipe gen _ data (le_n _)) as Hl.
  split; [by eapply wipe_u64|by rewrite Hl|by rewrite Hl].
Qed.

(** ** Setting a cell *)

Lemma put_bit_spec word bit value i : is_u64 word -> 0 <= bit < 64 -> value = 0 \/ value = 1 -> 0 <= i ->
  Z.testbit (put_bit word bit value) i = if i =? bit then value =? 1 else Z.testbit word i.
Proof.
  intros Hw Hb Hv Hi. unfold put_bit.
  assert (Hs : u64 (Z.shiftl value bit) = Z.shiftl value bit).
  { apply u64_id. unfold is_u64. rewrite Z.shiftl_mul_pow2 by lia.
    assert (2 ^ bit <= 2 ^ 63) by (apply Z.pow_le_mono_r; lia). pose proof (Z.pow_pos_nonneg 2 bit). lia. }
  assert (Hx : forall v j, v = 0 \/ v = 1 -> Z.testbit v j = (j =? 0) && (v =? 1)).
  { intros v j [-> | ->]; [by rewrite Z.bits_0, andb_false_r|]. rewrite andb_true_r.
    destruct (Z.eqb_spec j 0) as [->|]; [done|].
    destruct (Z.lt_ge_cases j 0); [by apply Z.testbit_neg_r|apply (testbit_high 1 1); lia]. }
  rewrite Hs, Z.lor_spec, Z.land_spec, Z.lxor_spec, !Z.shiftl_spec, (Hx 1), (Hx value) by auto.
  destruct (Z.eqb_spec i bit) as [->|Hne].
  - rewrite Z.sub_diag, testbit_ones64 by lia. simpl. by rewrite andb_false_r.
  - rewrite (proj2 (Z.eqb_neq (i - bit) 0)) by lia. simpl. rewrite orb_false_r.
    destruct (Z.ltb_spec i 64); [rewrite testbit_ones64 by lia; apply andb_true_r|].
    by rewrite (testbit_high word 64) by (unfold is_u64 in Hw; lia).
Qed.

Lemma put_bit_u64 word bit value : is_u64 word -> 0 <= bit < 64 -> value = 0 \/ value = 1 -> is_u64 (put_bit word bit value).
Proof.
  intros Hw Hb Hv. assert (0 <= put_bit word bit value).
  { unfold put_bit. apply Z.lor_nonneg. split; [apply Z.land_nonneg; left; apply Hw|apply u64_range]. }
  split; [done|]. apply bits_bound; [done|lia|]. intros i Hi. rewrite put_bit_spec by (done || lia).
  rewrite (proj2 (Z.eqb_neq i bit)) by lia. apply (testbit_high word 64); [apply Hw|lia|done].
Qed.

(** The two stores of one round of [insert]. *)
Definition set_cell (data : list Z) (w bit gen : Z) : list Z :=
  let data := aset data (2 * w) (put_bit (aget data (2 * w)) bit (Z.land gen 1)) in
  aset data (2 * w + 1) (put_bit (aget data (2 * w + 1)) bit (Z.shiftr gen 1)).

Lemma set_cell_ok data w bit gen : is_gen gen -> words_ok data -> 0 <= bit < 64 -> words_ok (set_cell data w bit gen).
Proof.
  intros Hg Hok Hb. assert (Hv : (Z.land gen 1 = 0 \/ Z.land gen 1 = 1) /\ (Z.shiftr gen 1 = 0 \/ Z.shiftr gen 1 = 1))
    by (destruct Hg as [->|[->| ->]]; cbv; auto).
  destruct Hv as [Hv1 Hv2]. unfold set_cell. cbv zeta. destruct Hok as [Hu He Hs].
  assert (H1 : forall l i x, Forall is_u64 l -> is_u64 x -> Forall is_u64 (aset l i x)) by (intros; by apply Forall_insert).
  assert (H2 : forall l i, Forall is_u64 l -> is_u64 (aget l i)) by (intros; apply aget_Forall; [unfold is_u64; lia|done]).
  split; [|by rewrite !length_aset|by rewrite !length_aset].
  apply H1; [|apply put_bit_u64; auto]; [apply H1; [done|apply put_bit_u64; auto]|].
  apply H2, H1; [done|apply put_bit_u64; auto].
Qed.

Lemma set_cell_spec data w bit gen w' b : is_gen gen -> words_ok data -> 0 <= 2 * w < size data -> 0 <= bit < 64 ->
  0 <= 2 * w' < size data -> 0 <= b < 64 ->
  cell (set_cell data w bit gen) w' b = if (w =? w') && (bit =? b) then gen else cell data w' b.
Proof.
  intros Hg Hok Hw Hbit Hw' Hb. pose proof (words_even _ Hok) as He. unfold cell, set_cell. cbv zeta.
  assert (2 * w + 1 < size data /\ 2 * w' + 1 < size data) as [Ho Ho'] by (Z.div_mod_to_equations; lia).
  assert (Hv : (Z.land gen 1 = 0 \/ Z.land gen 1 = 1) /\ (Z.shiftr gen 1 = 0 \/ Z.shiftr gen 1 = 1) /\
     Z.b2z (Z.land gen 1 =? 1) + 2 * Z.b2z (Z.shiftr gen 1 =? 1) = gen) by (destruct Hg as [->|[->| ->]]; cbv; auto).
  destruct Hv as (Hv1 & Hv2 & Hv3).
  rewrite !aget_aset by (rewrite ?length_aset; lia).
  rewrite (proj2 (Z.eqb_neq (2 * w + 1) (2 * w'))), (proj2 (Z.eqb_neq (2 * w) (2 * w' + 1))), (proj2 (Z.eqb_neq (2 * w) (2 * w + 1))) by lia.
  destruct (Z.eqb_spec w w') as [->|Hne]; cbn [andb].
  - rewrite !Z.eqb_refl, !put_bit_spec by (done || lia || by apply word_u64).
    rewrite (Z.eqb_sym bit b). by destruct (b =? bit).
  - by rewrite (proj2 (Z.eqb_neq (2 * w) (2 * w'))), (proj2 (Z.eqb_neq (2 * w + 1) (2 * w' + 1))) by lia.
Qed.

(** ** The cells of a key *)

Lemma lxor_shiftr_u32 x k : is_u32 x -> 0 <= k -> is_u32 (Z.lxor x (Z.shiftr x k)).
Proof.
  unfold is_u32. intros Hx Hk. assert (0 <= Z.lxor x (Z.shiftr x k)).
  { apply Z.lxor_nonneg. rewrite Z.shiftr_nonneg. lia. }
  split; [done|]. apply bits_bound; [done|lia|]. intros i Hi.
  by rewrite Z.lxor_spec, Z.shiftr_spec, !(testbit_high x 32) by lia.
Qed.

Lemma MurmurHash3_u32 seed data : is_u32 (MurmurHash3 seed data).
Proof.
  unfold MurmurHash3. destruct (murmur_body _ _ _). unfold murmur_final. cbv zeta.
  apply lxor_shiftr_u32; [apply u32_range|lia].
Qed.

(** The cell of the [i]-th hash function, for a filter of [n] words. *)
Definition key_pos (tweak n i : Z) (key : valtype) : Z := FastMod (RollingBloomHash i tweak key) n.
Definition key_bit (tweak i : Z) (key : valtype) : Z := Z.land (RollingBloomHash i tweak key) 0x3f.
Definition key_cell (data : list Z) (tweak i : Z) (key : valtype) : Z :=
  cell data (key_pos tweak (size data) i key / 2) (key_bit tweak i key).

Lemma FastMod_range x n : is_u32 x -> 0 < n < 2 ^ 32 -> 0 <= FastMod x n < n.
Proof.
  unfold is_u32. intros Hx Hn. unfold FastMod. rewrite u64_id by (unfold is_u64; nia). rewrite shiftr32.
  split; [apply Z.div_pos; nia|apply Z.div_lt_upper_bound; nia].
Qed.

Lemma key_bit_range tweak i key : 0 <= key_bit tweak i key < 64.
Proof. unfold key_bit. change 0x3f with (Z.ones 6). rewrite Z.land_ones by lia. apply Z.mod_pos_bound. lia. Qed.

Lemma key_pos_range tweak data i key : words_ok data -> 0 <= key_pos tweak (size data) i key < size data.
Proof. intros Hok. apply FastMod_range; [apply MurmurHash3_u32|apply Hok]. Qed.

Lemma even_part pos : 0 <= pos < 2 ^ 32 -> Z.land pos (2 ^ 32 - 2) = 2 * (pos / 2).
Proof.
  intros Hp. change (2 ^ 32 - 2) with (Z.shiftl (Z.ones 31) 1).
  assert (Hd : pos = Z.lor (Z.b2z (Z.odd pos)) (Z.shiftl (pos / 2) 1)).
  { rewrite lor_shiftl_add by (destruct (Z.odd pos); simpl; lia). 
    pose proof (Z.div_mod pos 2). pose proof (Zmod_odd pos). destruct (Z.odd pos); simpl; lia. }
  rewrite Hd at 1. rewrite Z.land_lor_distr_l, <- Z.shiftl_land, Z.land_ones by lia.
  rewrite Z.mod_small by (split; [apply Z.div_pos; lia|apply Z.div_lt_upper_bound; lia]).
  replace (Z.land (Z.b2z (Z.odd pos)) _) with 0 by (by destruct (Z.odd pos)). rewrite Z.lor_0_l, Z.shiftl_mul_pow2 by lia. lia.
Qed.

Lemma odd_part pos : 0 <= pos -> Z.lor pos 1 = 2 * (pos / 2) + 1.
Proof.
  intros Hp. apply Z.bits_inj'. intros i Hi. rewrite Z.lor_spec. destruct (decide (i = 0)) as [->|Hne].
  - rewrite orb_true_r. symmetry. rewrite Z.bit0_odd, Z.odd_add, Z.odd_mul. done.
  - rewrite (testbit_high 1 1 i), orb_false_r by lia. replace i with (Z.succ (i - 1)) by lia.
    rewrite Z.testbit_odd_succ by lia. rewrite Z.div2_bits by lia. done.
Qed.

(** One round of [insert] sets the key's cell. *)
Lemma insert_round n i tweak gen data key : words_ok data ->
  rolling_insert_loop (S n) i tweak gen data key =
  rolling_insert_loop n (i + 1) tweak gen
    (set_cell data (key_pos tweak (size data) i key / 2) (key_bit tweak i key) gen) key.
Proof.
  intros Hok. pose proof (key_pos_range tweak data i key Hok) as Hr. pose proof (words_size _ Hok).
  cbn [rolling_insert_loop]. fold (key_pos tweak (size data) i key). fold (key_bit tweak i key).
  rewrite even_part, odd_part by lia. done.
Qed.

Lemma insert_cells n tweak gen key : is_gen gen -> forall i data, words_ok data ->
  let data' := rolling_insert_loop n i tweak gen data key in
  words_ok data' /\ length data' = length data /\
  (forall w b, 0 <= 2 * w < size data -> 0 <= b < 64 -> cell data' w b = gen \/ cell data' w b = cell data w b) /\
  (forall j, i <= j < i + Z.of_nat n -> key_cell data' tweak j key = gen).
Proof.
  intros Hg. induction n as [|n IH]; intros i data Hok; [split_and!; [done|done|by right|lia]|].
  rewrite insert_round by done. pose proof (key_pos_range tweak data i key Hok) as Hr. pose proof (key_bit_range tweak i key) as Hb.
  set (w0 := key_pos tweak (size data) i key / 2) in *. set (data1 := set_cell data w0 _ gen).
  assert (Hw0 : 0 <= 2 * w0 < size data) by (subst w0; Z.div_mod_to_equations; lia).
  assert (Hok1 : words_ok data1) by (by apply set_cell_ok).
  assert (Hl1 : length data1 = length data) by (subst data1; unfold set_cell; by rewrite !length_aset).
  destruct (IH (i + 1) data1 Hok1) as (Hok2 & Hl2 & Hc & Hk). rewrite Hl1 in Hl2, Hc.
  split_and!; [done|done| |].
  - intros w b Hw Hbb. destruct (Hc w b Hw Hbb) as [->| ->]; [by left|]. subst data1. rewrite set_cell_spec by done.
    destruct (_ && _); [by left|by right].
  - intros j Hj. destruct (decide (j = i)) as [->|]; [|apply Hk; lia].
    unfold key_cell. rewrite Hl2. fold w0. destruct (Hc w0 (key_bit tweak i key) Hw0 Hb) as [->| ->]; [done|].
    subst data1. rewrite set_cell_spec by done. by rewrite !Z.eqb_refl.
Qed.

Lemma contains_cells n tweak data key : words_ok data -> forall i,
  (forall j, i <= j < i + Z.of_nat n -> key_cell data tweak j key <> 0) -> rolling_contains_loop n i tweak data key = true.
Proof.
  intros Hok. induction n as [|n IH]; intros i Hc; [done|]. cbn [rolling_contains_loop].
  pose proof (key_pos_range tweak data i key Hok) as Hr. pose proof (words_size _ Hok). pose proof (key_bit_range tweak i key) as Hb.
  fold (key_pos tweak (size data) i key). fold (key_bit tweak i key). rewrite even_part, odd_part by lia.
  assert (Hne : key_cell data tweak i key <> 0) by (apply Hc; lia). unfold key_cell, cell in Hne.
  set (x := aget data _) in *. set (y := aget data (_ + 1)) in *.
  replace (Z.land (Z.shiftr (Z.lor x y) (key_bit tweak i key)) 1) with 1; [apply IH; intros j Hj; apply Hc; lia|].
  symmetry. change 1 with (Z.ones 1) at 1. rewrite Z.land_ones, Zmod_odd, <- Z.bit0_odd, Z.shiftr_spec, Z.lor_spec, Z.add_0_l by lia.
  destruct (Z.testbit x _), (Z.testbit y _); done.
Qed.

(** ** Generations *)

(** How many generations ago a cell was set, when the current generation is [g]. *)
Definition age (g v : Z) : Z := (g - v) mod 3.
(** Set, and at most [a] generations ago. *)
Definition fresh (g a v : Z) : Prop := is_gen v /\ age g v <= a.

Record rolling_ok (f : CRollingBloomFilter) : Prop := {
  rolling_words : words_ok (rb_data f);
  rolling_gen : is_gen (nGeneration f);
  rolling_entries : 0 <= nEntriesThisGeneration f <= nEntriesPerGeneration f;
  rolling_per : 1 <= nEntriesPerGeneration f
}.

(** The key at position [i] of the history, most recent first, is in cells that are at most
    as old as its generation. *)
Definition remembers (f : CRollingBloomFilter) (hist : list valtype) : Prop :=
  forall i key a, hist !! i = Some key -> 0 <= a <= 2 ->
    Z.of_nat i < nEntriesThisGeneration f + a * nEntriesPerGeneration f ->
    forall n, 0 <= n < rb_nHashFuncs f -> fresh (nGeneration f) a (key_cell (rb_data f) (rb_nTweak f) n key).

Lemma age_next g v : is_gen g -> is_gen v -> let g' := if g + 1 =? 4 then 1 else g + 1 in
  is_gen g' /\ (v <> g' -> age g' v = age g v + 1) /\ (age g v <= 1 -> v <> g').
Proof. unfold is_gen, age. by intros [->|[->| ->]] [->|[->| ->]]; cbv; split_and!; auto; intros. Qed.

Lemma age_self g a : is_gen g -> 0 <= a -> fresh g a g.
Proof. intros Hg Ha. split; [done|]. unfold age. rewrite Z.sub_diag. by rewrite Z.mod_0_l. Qed.

(** The start of a new generation. *)
Definition next_generation (f : CRollingBloomFilter) : CRollingBloomFilter :=
  let gen := if nGeneration f + 1 =? 4 then 1 else nGeneration f + 1 in
  mkRolling (nEntriesPerGeneration f) 0 gen (wipe gen (rb_data f)) (rb_nTweak f) (rb_nHashFuncs f).

Lemma key_place f n key : rolling_ok f ->
  0 <= 2 * (key_pos (rb_nTweak f) (size (rb_data f)) n key / 2) < size (rb_data f) /\ 0 <= key_bit (rb_nTweak f) n key < 64.
Proof.
  intros Hok. pose proof (key_pos_range (rb_nTweak f) (rb_data f) n key (rolling_words _ Hok)).
  split; [Z.div_mod_to_equations; lia|apply key_bit_range].
Qed.

Lemma next_generation_spec f hist : rolling_ok f -> remembers f hist ->
  nEntriesThisGeneration f = nEntriesPerGeneration f ->
  rolling_ok (next_generation f) /\ remembers (next_generation f) hist.
Proof.
  intros Hok Hr He. pose proof (rolling_gen _ Hok) as Hg. pose proof (rolling_per _ Hok) as Hp.
  destruct (age_next _ _ Hg Hg) as (Hg' & _). split.
  { split; cbn; [by apply wipe_ok, Hok|done|lia|lia]. }
  intros i key a Hi Ha Hlt n Hn. cbn [next_generation nEntriesThisGeneration nEntriesPerGeneration rb_nHashFuncs] in Hlt, Hn.
  assert (Ha1 : 1 <= a) by (destruct (decide (a = 0)) as [->|]; lia).
  destruct (Hr i key (a - 1) Hi ltac:(lia) ltac:(nia) n Hn) as [Hv Hage].
  destruct (key_place f n key Hok) as [Hw Hb]. unfold next_generation, key_cell. cbn [rb_data nGeneration rb_nTweak].
  rewrite (length_wipe _ _ _ (le_n _)), (wipe_cell _ _ _ _ Hg' (rolling_words _ Hok) Hw Hb). fold (key_cell (rb_data f) (rb_nTweak f) n key).
  destruct (age_next _ _ Hg Hv) as (_ & Hnext & Hkeep). specialize (Hkeep ltac:(lia)).
  rewrite (proj2 (Z.eqb_neq _ _) Hkeep). split; [done|]. rewrite (Hnext Hkeep). lia.
Qed.

(** Adding a key to the current generation. *)
Definition add_entry (f : CRollingBloomFilter) (key : valtype) : CRollingBloomFilter :=
  mkRolling (nEntriesPerGeneration f) (nEntriesThisGeneration f + 1) (nGeneration f)
    (rolling_insert_loop (Z.to_nat (rb_nHashFuncs f)) 0 (rb_nTweak f) (nGeneration f) (rb_data f) key) (rb_nTweak f) (rb_nHashFuncs f).

Lemma add_entry_spec f hist key : rolling_ok f -> remembers f hist ->
  nEntriesThisGeneration f < nEntriesPerGeneration f ->
  rolling_ok (add_entry f key) /\ remembers (add_entry f key) (key :: hist).
Proof.
  intros Hok Hr He. pose proof (rolling_gen _ Hok) as Hg. pose proof (rolling_per _ Hok) as Hp. pose proof (rolling_entries _ Hok).
  destruct (insert_cells (Z.to_nat (rb_nHashFuncs f)) (rb_nTweak f) _ key Hg 0 (rb_data f) (rolling_words _ Hok)) as (Hok' & Hl & Hc & Hk).
  split; [split; cbn; [done|done|lia|lia]|].
  intros [|i] key' a Hi Ha Hlt n Hn; cbn [add_entry rb_nHashFuncs] in Hn.
  - injection Hi as <-. unfold add_entry. cbn [rb_data rb_nTweak nGeneration]. rewrite Hk by lia. apply age_self; [done|lia].
  - cbn [add_entry nEntriesThisGeneration nEntriesPerGeneration] in Hlt.
    pose proof (Hr i key' a Hi Ha ltac:(lia) n Hn) as Hf. destruct (key_place f n key' Hok) as [Hw Hb].
    unfold add_entry, key_cell. cbn [rb_data rb_nTweak nGeneration]. rewrite Hl.
    destruct (Hc _ _ Hw Hb) as [->| ->]; [apply age_self; [done|lia]|done].
Qed.

Lemma Rolling_insert_eq f key :
  Rolling_insert f key = add_entry (if nEntriesThisGeneration f =? nEntriesPerGeneration f then next_generation f else f) key.
Proof. unfold Rolling_insert. by destruct (_ =? _). Qed.

Lemma Rolling_insert_spec f hist key : rolling_ok f -> remembers f hist ->
  rolling_ok (Rolling_insert f key) /\ remembers (Rolling_insert f key) (key :: hist) /\
  nEntriesPerGeneration (Rolling_insert f key) = nEntriesPerGeneration f.
Proof.
  intros Hok Hr. rewrite Rolling_insert_eq. pose proof (rolling_entries _ Hok). pose proof (rolling_per _ Hok).
  destruct (Z.eqb_spec (nEntriesThisGeneration f) (nEntriesPerGeneration f)) as [He|He].
  - destruct (next_generation_spec f hist Hok Hr He) as [Hok' Hr'].
    destruct (add_entry_spec _ hist key Hok' Hr') as [? ?]; [cbn; lia|]. done.
  - destruct (add_entry_spec f hist key Hok Hr) as [? ?]; [lia|]. done.
Qed.

Lemma Rolling_inserts_spec keys : forall f hist, rolling_ok f -> remembers f hist ->
  let g := foldl Rolling_insert f keys in
  rolling_ok g /\ remembers g (reverse keys ++ hist) /\ nEntriesPerGeneration g = nEntriesPerGeneration f.
Proof.
  induction keys as [|key keys IH]; intros f hist Hok Hr; [done|]. cbn [foldl].
  destruct (Rolling_insert_spec f hist key Hok Hr) as (Hok' & Hr' & He).
  destruct (IH _ _ Hok' Hr') as (Hok2 & Hr2 & He2). rewrite reverse_cons, <- app_assoc. split_and!; [done|done|by rewrite He2].
Qed.

Lemma Rolling_new_ok nElements funcs nFilterBits rand :
  0 < nElements -> 0 < nFilterBits < 2 ^ 32 - 63 -> rolling_ok (Rolling_new nElements funcs nFilterBits rand).
Proof.
  intros Hn Hb. unfold Rolling_new, Rolling_reset. cbn. rewrite length_replicate. rewrite Z.shiftl_mul_pow2 by lia.
  assert (0 < (nFilterBits + 63) / 64 < 2 ^ 31) by (Z.div_mod_to_equations; lia).
  split; cbn; [|by left|Z.div_mod_to_equations; lia|Z.div_mod_to_equations; lia].
  split; rewrite ?length_replicate; [apply Forall_replicate; unfold is_u64; lia| |lia].
  rewrite Z2Nat.id by lia. by rewrite Z.mod_mul.
Qed.

(** A rolling filter made for [nElements] items remembers at least that many: it
    contains every one of the last two generations and of the current one, which are between
    [nElements] and one and a half times [nElements] of the most recent insertions. *)
Theorem rolling_remembers nElements funcs nFilterBits rand keys i key :
  0 < nElements -> 0 < nFilterBits < 2 ^ 32 - 63 ->
  let f := foldl Rolling_insert (Rolling_new nElements funcs nFilterBits rand) keys in
  reverse keys !! i = Some key ->
  Z.of_nat i < nEntriesThisGeneration f + 2 * nEntriesPerGeneration f ->
  nElements <= 2 * nEntriesPerGeneration f /\ Rolling_contains f key = true.
Proof.
  intros Hn Hb f Hi Hlt. pose proof (Rolling_new_ok nElements funcs nFilterBits rand Hn Hb) as Hok.
  destruct (Rolling_inserts_spec keys _ [] Hok) as (Hok' & Hr & He); [intros j k a Hj; by rewrite lookup_nil in Hj|].
  fold f in Hok', Hr, He. rewrite app_nil_r in Hr. split; [rewrite He; cbn; Z.div_mod_to_equations; lia|].
  apply contains_cells; [apply Hok'|]. intros n Hn'.
  destruct (Hr i key 2 Hi ltac:(lia) ltac:(lia) n ltac:(lia)) as [Hv _]. unfold is_gen in Hv. lia.
Qed.

Lemma rolling_remembers_witness :
  let keys := map (fun k => [Z.of_nat k]) (seq 0 10) in
  let f := foldl Rolling_insert (Rolling_new 4 3 200 12345) keys in
  Rolling_contains f [4] = true /\ Rolling_contains f [3] = false.
Proof.
  intros keys f. split; [|vm_compute; reflexivity].
  apply (rolling_remembers 4 3 200 12345 keys 5 [4]); [lia|lia|reflexivity|vm_compute; reflexivity].
Defined.
