(* ===== verification/SmartnodeList.v ===== *)
(** The deterministic smartnode list ([CDeterministicMNState], [CDeterministicMN] and
    [CDeterministicMNList] of [evo/deterministicmns.h] and [.cpp]) and the collateral schedule
    ([smartnode/smartnode-collaterals.cpp]): the nodes by registration hash, their internal ids, and
    the index of properties no two nodes may share. *)

From stdpp Require Import prelude gmap countable sorting.
From Stdlib Require Import ZArith Lia.
From S2P Require Import Prelude Transaction Serialize Hasher Sha256 ProTx.

Open Scope Z_scope.

(** ** [SmartnodeCollaterals] *)

Record SmartnodeCollaterals := mkCollaterals {
  collaterals : list (Z * Z);        (* height, amount *)
  rewardPercentages : list (Z * Z);  (* height, percentage *)
  collateralsHeightMap : gmap Z Z    (* amount to height *)
}.

(** The first step of a schedule that reaches the height. *)
Fixpoint schedule_at (steps : list (Z * Z)) (height : Z) : Z :=
  match steps with
  | [] => 0
  | (h, v) :: rest => if (h =? INT_MAX) || (height <=? h) then v else schedule_at rest height
  end.
(** [insert] keeps the entry that is there. *)
Definition collaterals_new (cs ps : list (Z * Z)) : SmartnodeCollaterals :=
  mkCollaterals cs ps
    (foldl (fun m '(h, amount) => match m !! amount with Some _ => m | None => <[amount := h]> m end) ∅ cs).
Definition getCollateral (c : SmartnodeCollaterals) (height : Z) : Z := schedule_at (collaterals c) height.
Definition getRewardPercentage (c : SmartnodeCollaterals) (height : Z) : Z := schedule_at (rewardPercentages c) height.
Definition isValidCollateral (c : SmartnodeCollaterals) (amount : Z) : bool :=
  bool_decide (is_Some (collateralsHeightMap c !! amount)).
Definition isPayableCollateral (c : SmartnodeCollaterals) (height amount : Z) : bool :=
  match collateralsHeightMap c !! amount with
  | None => false
  | Some endHeight => (endHeight =? INT_MAX) || (height <=? endHeight)
  end.

(** ** [CDeterministicMNState] *)

Record CDeterministicMNState := mkState {
  nRegisteredHeight : Z;
  nLastPaidHeight : Z;
  nPoSePenalty : Z;
  nPoSeRevivedHeight : Z;
  nPoSeBanHeight : Z;
  nRevocationReason : Z;
  confirmedHash : Z;
  confirmedHashWithProRegTxHash : Z;
  keyIDOwner : keyid;
  pubKeyOperator : CBLSPublicKey;
  keyIDVoting : keyid;
  addr : CService;
  scriptPayout : CScript;
  scriptOperatorPayout : CScript;
  nCollateralAmount : Z
}.

(** The default constructor leaves [nCollateralAmount] unset; [amount] stands for what is there. *)
Definition state_default (amount : Z) : CDeterministicMNState :=
  mkState (-1) 0 0 (-1) (-1) REASON_NOT_SPECIFIED 0 0 keyid_null CBLSPublicKey_null keyid_null CService_null [] [] amount.

(** Assignment to a field. *)
Definition set_nRegisteredHeight (s : CDeterministicMNState) v := let '(mkState _ b c d e f g h i j k l m n o) := s in mkState v b c d e f g h i j k l m n o.
Definition set_nLastPaidHeight (s : CDeterministicMNState) v := let '(mkState a _ c d e f g h i j k l m n o) := s in mkState a v c d e f g h i j k l m n o.
Definition set_nPoSePenalty (s : CDeterministicMNState) v := let '(mkState a b _ d e f g h i j k l m n o) := s in mkState a b v d e f g h i j k l m n o.
Definition set_nPoSeRevivedHeight (s : CDeterministicMNState) v := let '(mkState a b c _ e f g h i j k l m n o) := s in mkState a b c v e f g h i j k l m n o.
Definition set_nPoSeBanHeight (s : CDeterministicMNState) v := let '(mkState a b c d _ f g h i j k l m n o) := s in mkState a b c d v f g h i j k l m n o.
Definition set_nRevocationReason (s : CDeterministicMNState) v := let '(mkState a b c d e _ g h i j k l m n o) := s in mkState a b c d e v g h i j k l m n o.
Definition set_confirmedHash (s : CDeterministicMNState) v := let '(mkState a b c d e f _ h i j k l m n o) := s in mkState a b c d e f v h i j k l m n o.
Definition set_confirmedHashWithProRegTxHash (s : CDeterministicMNState) v := let '(mkState a b c d e f g _ i j k l m n o) := s in mkState a b c d e f g v i j k l m n o.
Definition set_keyIDOwner (s : CDeterministicMNState) v := let '(mkState a b c d e f g h _ j k l m n o) := s in mkState a b c d e f g h v j k l m n o.
Definition set_pubKeyOperator (s : CDeterministicMNState) v := let '(mkState a b c d e f g h i _ k l m n o) := s in mkState a b c d e f g h i v k l m n o.
Definition set_keyIDVoting (s : CDeterministicMNState) v := let '(mkState a b c d e f g h i j _ l m n o) := s in mkState a b c d e f g h i j v l m n o.
Definition set_addr (s : CDeterministicMNState) v := let '(mkState a b c d e f g h i j k _ m n o) := s in mkState a b c d e f g h i j k v m n o.
Definition set_scriptPayout (s : CDeterministicMNState) v := let '(mkState a b c d e f g h i j k l _ n o) := s in mkState a b c d e f g h i j k l v n o.
Definition set_scriptOperatorPayout (s : CDeterministicMNState) v := let '(mkState a b c d e f g h i j k l m _ o) := s in mkState a b c d e f g h i j k l m v o.
Definition set_nCollateralAmount (s : CDeterministicMNState) v := let '(mkState a b c d e f g h i j k l m n _) := s in mkState a b c d e f g h i j k l m n v.

Definition state_of_ProRegTx (amount : Z) (p : CProRegTx) : CDeterministicMNState :=
  let s := state_default amount in
  let s := set_keyIDOwner s (reg_keyIDOwner p) in
  let s := set_pubKeyOperator s (reg_pubKeyOperator p) in
  let s := set_keyIDVoting s (reg_keyIDVoting p) in
  let s := set_addr s (reg_addr p) in
  set_scriptPayout s (reg_scriptPayout p).
Definition ResetOperatorFields (s : CDeterministicMNState) : CDeterministicMNState :=
  let s := set_pubKeyOperator s CBLSPublicKey_null in
  let s := set_addr s CService_null in
  let s := set_scriptOperatorPayout s [] in
  set_nRevocationReason s REASON_NOT_SPECIFIED.
Definition BanIfNotBanned (s : CDeterministicMNState) (height : Z) : CDeterministicMNState :=
  if nPoSeBanHeight s =? -1 then set_nPoSeBanHeight s height else s.
(** [sha256(proTxHash, confirmedHash)], a single hash. *)
Definition UpdateConfirmedHash (s : CDeterministicMNState) (junk : stream) (proTxHash hash : Z) : CDeterministicMNState :=
  let s := set_confirmedHash s hash in
  let h := SHA256.new junk in
  let h := SHA256.Write h (le_bytes 32 proTxHash) in
  let h := SHA256.Write h (le_bytes 32 hash) in
  set_confirmedHashWithProRegTxHash s (le_value (SHA256.Finalize h)).

(** ** [CDeterministicMNStateDiff] *)

(** A line of [DMN_STATE_DIFF_ALL_FIELDS]: how a field is read and written, and its bit. *)
Record field := Field {
  fty : Set;
  feq : EqDecision fty;
  fget : CDeterministicMNState -> fty;
  fset : CDeterministicMNState -> fty -> CDeterministicMNState;
  fbit : Z
}.
Definition DMN_STATE_DIFF_ALL_FIELDS : list field :=
  [Field Z _ nRegisteredHeight set_nRegisteredHeight 0x0001;
   Field Z _ nLastPaidHeight set_nLastPaidHeight 0x0002;
   Field Z _ nPoSePenalty set_nPoSePenalty 0x0004;
   Field Z _ nPoSeRevivedHeight set_nPoSeRevivedHeight 0x0008;
   Field Z _ nPoSeBanHeight set_nPoSeBanHeight 0x0010;
   Field Z _ nRevocationReason set_nRevocationReason 0x0020;
   Field Z _ confirmedHash set_confirmedHash 0x0040;
   Field Z _ confirmedHashWithProRegTxHash set_confirmedHashWithProRegTxHash 0x0080;
   Field (list Z) _ keyIDOwner set_keyIDOwner 0x0100;
   Field Z _ pubKeyOperator set_pubKeyOperator 0x0200;
   Field (list Z) _ keyIDVoting set_keyIDVoting 0x0400;
   Field Z _ addr set_addr 0x0800;
   Field (list Z) _ scriptPayout set_scriptPayout 0x1000;
   Field (list Z) _ scriptOperatorPayout set_scriptOperatorPayout 0x2000;
   Field Z _ nCollateralAmount set_nCollateralAmount 0x4000].

Record CDeterministicMNStateDiff := mkStateDiff { diff_fields : Z; diff_state : CDeterministicMNState }.

(** [if (a.f != b.f) { state.f = b.f; fields |= Field_##f; }] for every field. *)
Definition diff_line (a b : CDeterministicMNState) (d : CDeterministicMNStateDiff) (f : field) : CDeterministicMNStateDiff :=
  if @decide (fget f a = fget f b) (feq f _ _) then d
  else mkStateDiff (Z.lor (diff_fields d) (fbit f)) (fset f (diff_state d) (fget f b)).
Definition StateDiff (amount : Z) (a b : CDeterministicMNState) : CDeterministicMNStateDiff :=
  foldl (diff_line a b) (mkStateDiff 0 (state_default amount)) DMN_STATE_DIFF_ALL_FIELDS.
(** [if (fields & Field_##f) target.f = state.f;] for every field. *)
Definition apply_line (d : CDeterministicMNStateDiff) (target : CDeterministicMNState) (f : field) : CDeterministicMNState :=
  if Z.land (diff_fields d) (fbit f) =? 0 then target else fset f target (fget f (diff_state d)).
Definition ApplyToState (d : CDeterministicMNStateDiff) (target : CDeterministicMNState) : CDeterministicMNState :=
  foldl (apply_line d) target DMN_STATE_DIFF_ALL_FIELDS.

(** ** [CDeterministicMN] and [CDeterministicMNList] *)

Record CDeterministicMN := mkMN {
  proTxHash : Z;
  internalId : Z;
  collateralOutpoint : COutPoint;
  nOperatorReward : Z;
  pdmnState : CDeterministicMNState
}.
Definition set_pdmnState (d : CDeterministicMN) (s : CDeterministicMNState) : CDeterministicMN :=
  mkMN (proTxHash d) (internalId d) (collateralOutpoint d) (nOperatorReward d) s.

Record CDeterministicMNList := mkMNList {
  blockHash : Z;
  list_nHeight : Z;
  nTotalRegisteredCount : Z;
  mnMap : gmap Z CDeterministicMN;
  mnInternalIdMap : gmap Z Z;
  mnUniquePropertyMap : gmap Z (Z * Z)
}.
Definition list_new (hash height total : Z) : CDeterministicMNList := mkMNList hash height total ∅ ∅ ∅.
Definition SetBlockHash (l : CDeterministicMNList) (hash : Z) : CDeterministicMNList :=
  mkMNList hash (list_nHeight l) (nTotalRegisteredCount l) (mnMap l) (mnInternalIdMap l) (mnUniquePropertyMap l).
Definition SetHeight (l : CDeterministicMNList) (height : Z) : CDeterministicMNList :=
  mkMNList (blockHash l) height (nTotalRegisteredCount l) (mnMap l) (mnInternalIdMap l) (mnUniquePropertyMap l).
Definition SetTotalRegisteredCount (l : CDeterministicMNList) (count : Z) : CDeterministicMNList :=
  mkMNList (blockHash l) (list_nHeight l) count (mnMap l) (mnInternalIdMap l) (mnUniquePropertyMap l).
Definition set_mnMap (l : CDeterministicMNList) (m : gmap Z CDeterministicMN) : CDeterministicMNList :=
  mkMNList (blockHash l) (list_nHeight l) (nTotalRegisteredCount l) m (mnInternalIdMap l) (mnUniquePropertyMap l).
Definition set_mnInternalIdMap (l : CDeterministicMNList) (m : gmap Z Z) : CDeterministicMNList :=
  mkMNList (blockHash l) (list_nHeight l) (nTotalRegisteredCount l) (mnMap l) m (mnUniquePropertyMap l).
Definition set_mnUniquePropertyMap (l : CDeterministicMNList) (m : gmap Z (Z * Z)) : CDeterministicMNList :=
  mkMNList (blockHash l) (list_nHeight l) (nTotalRegisteredCount l) (mnMap l) (mnInternalIdMap l) m.

(** The values kept unique, and the hash they are indexed by: the code relies on no two
    of them sharing a hash. *)
Inductive uprop :=
  | UOutPoint (o : COutPoint) | UService (a : CService) | UKeyID (k : keyid) | UBLS (k : CBLSPublicKey).
#[export] Instance uprop_eq : EqDecision uprop.
Proof. solve_decision. Defined.
Class PropertyHash := SerializeHash : uprop -> Z.
Class PropertyHashSpec `{PropertyHash} := SerializeHash_inj : Inj (=) (=) SerializeHash.

(** [v == nullValue] at the value's type *)
Definition uprop_null (v : uprop) : bool :=
  match v with
  | UOutPoint o => OutPoint_IsNull o
  | UService a => bool_decide (a = CService_null)
  | UKeyID k => bool_decide (k = keyid_null)
  | UBLS k => bool_decide (k = CBLSPublicKey_null)
  end.

(** The order of [uint256], which compares the bytes in memory. *)
Definition uint256_lt (a b : Z) : bool := memcmp_lt (le_bytes 32 a) (le_bytes 32 b).

(** [assert] *)
Definition check (b : bool) : option unit := if b then Some tt else None.

Section List_.
Context `{PropertyHash}.
Variable nCollaterals : SmartnodeCollaterals.

(** *** Lookups *)
Definition GetMN (l : CDeterministicMNList) (h : Z) : option CDeterministicMN := mnMap l !! h.
Definition HasMN (l : CDeterministicMNList) (h : Z) : bool := bool_decide (is_Some (GetMN l h)).
Definition GetMNByInternalId (l : CDeterministicMNList) (id : Z) : option CDeterministicMN :=
  h ← mnInternalIdMap l !! id; GetMN l h.
Definition HasUniqueProperty (l : CDeterministicMNList) (v : uprop) : bool :=
  bool_decide (is_Some (mnUniquePropertyMap l !! SerializeHash v)).
Definition GetUniquePropertyMN (l : CDeterministicMNList) (v : uprop) : option CDeterministicMN :=
  p ← mnUniquePropertyMap l !! SerializeHash v; GetMN l p.1.
Definition GetMNByCollateral (l : CDeterministicMNList) (o : COutPoint) : option CDeterministicMN :=
  GetUniquePropertyMN l (UOutPoint o).
Definition GetMNByService (l : CDeterministicMNList) (a : CService) : option CDeterministicMN :=
  GetUniquePropertyMN l (UService a).
Definition GetAllMNsCount (l : CDeterministicMNList) : Z := Z.of_nat (size (mnMap l)).

(** *** Validity: the parameter [height] of the overload is not used, the list's own height is. *)
Definition IsMNPoSeBanned (d : CDeterministicMN) : bool := negb (nPoSeBanHeight (pdmnState d) =? -1).
Definition IsMNValid (l : CDeterministicMNList) (d : CDeterministicMN) : bool :=
  negb (IsMNPoSeBanned d) && isPayableCollateral nCollaterals (list_nHeight l) (nCollateralAmount (pdmnState d)).
Definition GetValidMN (l : CDeterministicMNList) (h : Z) : option CDeterministicMN :=
  d ← GetMN l h; if IsMNValid l d then Some d else None.
Definition GetValidMNByCollateral (l : CDeterministicMNList) (o : COutPoint) : option CDeterministicMN :=
  d ← GetMNByCollateral l o; if IsMNValid l d then Some d else None.
(** [ForEachMN]: the nodes it visits, in the order of the map. *)
Definition ForEachMN (l : CDeterministicMNList) (onlyValid : bool) : list CDeterministicMN :=
  filter (fun d => negb onlyValid || IsMNValid l d) (map_to_list (mnMap l)).*2.
Definition GetValidMNsCount (l : CDeterministicMNList) : Z := Z.of_nat (length (ForEachMN l true)).

(** *** Unique properties *)
Definition AddUniqueProperty (l : CDeterministicMNList) (d : CDeterministicMN) (v : uprop) : option CDeterministicMNList :=
  _ ← check (negb (uprop_null v));
  let hash := SerializeHash v in
  match mnUniquePropertyMap l !! hash with
  | Some (owner, n) =>
      _ ← check (owner =? proTxHash d);
      Some (set_mnUniquePropertyMap l (<[hash := (proTxHash d, u32 (n + 1))]> (mnUniquePropertyMap l)))
  | None => Some (set_mnUniquePropertyMap l (<[hash := (proTxHash d, 1)]> (mnUniquePropertyMap l)))
  end.
Definition DeleteUniqueProperty (l : CDeterministicMNList) (d : CDeterministicMN) (v : uprop) : option CDeterministicMNList :=
  _ ← check (negb (uprop_null v));
  let hash := SerializeHash v in
  '(owner, n) ← mnUniquePropertyMap l !! hash;
  _ ← check (owner =? proTxHash d);
  Some (set_mnUniquePropertyMap l
    (if n =? 1 then delete hash (mnUniquePropertyMap l)
     else <[hash := (proTxHash d, u32 (n - 1))]> (mnUniquePropertyMap l))).
Definition UpdateUniqueProperty (l : CDeterministicMNList) (d : CDeterministicMN) (old new : uprop) : option CDeterministicMNList :=
  if bool_decide (old = new) then Some l
  else
    l ← (if uprop_null old then Some l else DeleteUniqueProperty l d old);
    if uprop_null new then Some l else AddUniqueProperty l d new.

(** *** Changing the list; [None] is a failed assertion *)
Definition AddMN (l : CDeterministicMNList) (d : CDeterministicMN) : option CDeterministicMNList :=
  let s := pdmnState d in
  _ ← check (negb (bool_decide (is_Some (mnMap l !! proTxHash d))));
  let l := set_mnMap l (<[proTxHash d := d]> (mnMap l)) in
  let l := set_mnInternalIdMap l (<[internalId d := proTxHash d]> (mnInternalIdMap l)) in
  l ← AddUniqueProperty l d (UOutPoint (collateralOutpoint d));
  l ← (if bool_decide (addr s = CService_null) then Some l else AddUniqueProperty l d (UService (addr s)));
  l ← AddUniqueProperty l d (UKeyID (keyIDOwner s));
  if BLS_IsValid (pubKeyOperator s) then AddUniqueProperty l d (UBLS (pubKeyOperator s)) else Some l.

Definition UpdateMN_dmn (l : CDeterministicMNList) (old : CDeterministicMN) (s : CDeterministicMNState) : option CDeterministicMNList :=
  let d := set_pdmnState old s in
  let oldState := pdmnState old in
  let l := set_mnMap l (<[proTxHash old := d]> (mnMap l)) in
  l ← UpdateUniqueProperty l d (UService (addr oldState)) (UService (addr s));
  l ← UpdateUniqueProperty l d (UKeyID (keyIDOwner oldState)) (UKeyID (keyIDOwner s));
  UpdateUniqueProperty l d (UBLS (pubKeyOperator oldState)) (UBLS (pubKeyOperator s)).
Definition UpdateMN (l : CDeterministicMNList) (h : Z) (s : CDeterministicMNState) : option CDeterministicMNList :=
  old ← mnMap l !! h; UpdateMN_dmn l old s.
Definition UpdateMN_diff (l : CDeterministicMNList) (old : option CDeterministicMN) (sd : CDeterministicMNStateDiff) : option CDeterministicMNList :=
  old ← old; UpdateMN_dmn l old (ApplyToState sd (pdmnState old)).

Definition RemoveMN (l : CDeterministicMNList) (h : Z) : option CDeterministicMNList :=
  d ← GetMN l h;
  let s := pdmnState d in
  l ← DeleteUniqueProperty l d (UOutPoint (collateralOutpoint d));
  l ← (if bool_decide (addr s = CService_null) then Some l else DeleteUniqueProperty l d (UService (addr s)));
  l ← DeleteUniqueProperty l d (UKeyID (keyIDOwner s));
  l ← (if BLS_IsValid (pubKeyOperator s) then DeleteUniqueProperty l d (UBLS (pubKeyOperator s)) else Some l);
  let l := set_mnMap l (delete h (mnMap l)) in
  Some (set_mnInternalIdMap l (delete (internalId d) (mnInternalIdMap l))).

(** *** Who is paid next *)
Definition CompareByLastPaid_GetHeight (d : CDeterministicMN) : Z :=
  let s := pdmnState d in
  let height := nLastPaidHeight s in
  if negb (nPoSeRevivedHeight s =? -1) && (height <? nPoSeRevivedHeight s) then nPoSeRevivedHeight s
  else if height =? 0 then nRegisteredHeight s
  else height.
Definition CompareByLastPaid (a b : CDeterministicMN) : bool :=
  let ah := CompareByLastPaid_GetHeight a in
  let bh := CompareByLastPaid_GetHeight b in
  if ah =? bh then uint256_lt (proTxHash a) (proTxHash b) else ah <? bh.
Definition GetMNPayee (l : CDeterministicMNList) : option CDeterministicMN :=
  if Z.of_nat (size (mnMap l)) <=? 1 then None
  else
    foldl (fun best d => match best with
                         | None => Some d
                         | Some b => if CompareByLastPaid d b then Some d else Some b
                         end) None (ForEachMN l true).

(** *** Proof-of-service penalties *)
Definition CalcMaxPoSePenalty (l : CDeterministicMNList) : Z := Z.max 100 (GetAllMNsCount l).
Definition CalcPenalty (l : CDeterministicMNList) (percent : Z) : option Z :=
  _ ← check (0 <? percent); Some (CalcMaxPoSePenalty l * percent / 100).
Definition PoSePunish (l : CDeterministicMNList) (h penalty : Z) : option CDeterministicMNList :=
  _ ← check (0 <? penalty);
  d ← GetMN l h;
  let maxPenalty := CalcMaxPoSePenalty l in
  let s := pdmnState d in
  let s := set_nPoSePenalty s (Z.min maxPenalty (nPoSePenalty s + penalty)) in
  let s := if (maxPenalty <=? nPoSePenalty s) && (nPoSeBanHeight s =? -1) then set_nPoSeBanHeight s (list_nHeight l) else s in
  UpdateMN l h s.
Definition PoSeDecrease (l : CDeterministicMNList) (h : Z) : option CDeterministicMNList :=
  d ← GetMN l h;
  let s := pdmnState d in
  _ ← check ((0 <? nPoSePenalty s) && (nPoSeBanHeight s =? -1));
  UpdateMN l h (set_nPoSePenalty s (nPoSePenalty s - 1)).
End List_.

(** ** The list invariant *)

(** The value of [d] of the same kind as [u]. *)
Definition slot (d : CDeterministicMN) (u : uprop) : uprop :=
  match u with
  | UOutPoint _ => UOutPoint (collateralOutpoint d)
  | UService _ => UService (addr (pdmnState d))
  | UKeyID _ => UKeyID (keyIDOwner (pdmnState d))
  | UBLS _ => UBLS (pubKeyOperator (pdmnState d))
  end.
Definition has_prop (d : CDeterministicMN) (u : uprop) : Prop := slot d u = u /\ uprop_null u = false.

(** A collateral and an owner key are set. *)
Definition mn_ok (d : CDeterministicMN) : Prop :=
  uprop_null (UOutPoint (collateralOutpoint d)) = false /\ uprop_null (UKeyID (keyIDOwner (pdmnState d))) = false.

Section Invariant.
Context `{PropertyHashSpec}.

(** The index [m] holds exactly the pairs of an owner and a property that [P] relates. *)
Definition index_ok (m : gmap Z (Z * Z)) (P : Z -> uprop -> Prop) : Prop :=
  forall x e, m !! x = Some e <-> exists u h, x = SerializeHash u /\ e = (h, 1) /\ P h u.

Definition holds (mns : gmap Z CDeterministicMN) (h : Z) (u : uprop) : Prop :=
  exists d, mns !! h = Some d /\ has_prop d u.

Record list_ok (l : CDeterministicMNList) : Prop := {
  ok_key : forall h d, mnMap l !! h = Some d -> proTxHash d = h /\ mn_ok d;
  ok_ids : forall id h, mnInternalIdMap l !! id = Some h <-> exists d, mnMap l !! h = Some d /\ internalId d = id;
  ok_unique : index_ok (mnUniquePropertyMap l) (holds (mnMap l))
}.

Lemma index_lookup m P u h : index_ok m P -> P h u -> m !! SerializeHash u = Some (h, 1).
Proof. intros Hm HP. apply Hm. eauto. Qed.

Lemma index_None m P u : index_ok m P -> (forall h, ~ P h u) -> m !! SerializeHash u = None.
Proof.
  intros Hm HP. apply eq_None_not_Some. intros [e He]. apply Hm in He as (u' & h & Hu & _ & Hh).
  apply SerializeHash_inj in Hu as <-. by apply (HP h).
Qed.

Lemma index_Some m P u h n : index_ok m P -> m !! SerializeHash u = Some (h, n) -> n = 1 /\ P h u.
Proof. intros Hm He. apply Hm in He as (u' & h' & Hu & [= -> ->] & Hh). by apply SerializeHash_inj in Hu as <-. Qed.

Lemma index_functional m P u h h' : index_ok m P -> P h u -> P h' u -> h = h'.
Proof. intros Hm H1 H2. pose proof (index_lookup _ _ _ _ Hm H1). pose proof (index_lookup _ _ _ _ Hm H2). congruence. Qed.

Lemma index_ext m P Q : (forall h u, P h u <-> Q h u) -> index_ok m P -> index_ok m Q.
Proof. intros HPQ Hm x e. rewrite (Hm x e). by setoid_rewrite HPQ. Qed.

Lemma index_add m P u h : index_ok m P -> (forall h', ~ P h' u) ->
  index_ok (<[SerializeHash u := (h, 1)]> m) (fun h' u' => P h' u' \/ (h' = h /\ u' = u)).
Proof.
  intros Hm HP x e. destruct (decide (x = SerializeHash u)) as [->|Hne].
  - rewrite lookup_insert_eq. split.
    + intros [= <-]. exists u, h. auto.
    + intros (u' & h' & Hu & -> & [HP'|[-> ->]]); [|done]. apply SerializeHash_inj in Hu as <-. by destruct (HP h').
  - rewrite lookup_insert_ne by done. rewrite (Hm x e). split.
    + intros (u' & h' & -> & -> & HP'). exists u', h'. auto.
    + intros (u' & h' & -> & -> & [HP'|[-> ->]]); [|done]. exists u', h'. auto.
Qed.

Lemma index_delete m P u : index_ok m P ->
  index_ok (delete (SerializeHash u) m) (fun h' u' => P h' u' /\ u' <> u).
Proof.
  intros Hm x e. destruct (decide (x = SerializeHash u)) as [->|Hne].
  - rewrite lookup_delete_eq. split; [done|]. intros (u' & h' & Hu & -> & HP' & Hne). by apply SerializeHash_inj in Hu as <-.
  - rewrite lookup_delete_ne by done. rewrite (Hm x e). split.
    + intros (u' & h' & -> & -> & HP'). exists u', h'. split_and!; try done. by intros ->.
    + intros (u' & h' & -> & -> & HP' & _). eauto.
Qed.

(** *** One property *)

Lemma set_unique_id l : set_mnUniquePropertyMap l (mnUniquePropertyMap l) = l.
Proof. by destruct l. Qed.

Lemma AddUniqueProperty_spec l d u P : index_ok (mnUniquePropertyMap l) P -> ~ P (proTxHash d) u ->
  (forall l', AddUniqueProperty l d u = Some l' <->
    uprop_null u = false /\ (forall h, ~ P h u) /\
    l' = set_mnUniquePropertyMap l (<[SerializeHash u := (proTxHash d, 1)]> (mnUniquePropertyMap l))).
Proof.
  intros Hm Hown l'. unfold AddUniqueProperty. destruct (uprop_null u) eqn:En; cbn [negb check mbind option_bind].
  { split; [done|]. by intros [? _]. }
  destruct (mnUniquePropertyMap l !! SerializeHash u) as [[h n]|] eqn:E.
  - destruct (index_Some _ _ _ _ _ Hm E) as [-> HP]. destruct (Z.eqb_spec h (proTxHash d)) as [->|Hne]; cbn [check mbind option_bind].
    + done.
    + split; [done|]. intros (_ & Hno & _). by destruct (Hno h).
  - split; [|by intros (_ & _ & ->)]. intros [= <-]. split_and!; try done. intros h HP.
    by rewrite (index_lookup _ _ _ _ Hm HP) in E.
Qed.

Lemma DeleteUniqueProperty_spec l d u P : index_ok (mnUniquePropertyMap l) P -> P (proTxHash d) u -> uprop_null u = false ->
  DeleteUniqueProperty l d u = Some (set_mnUniquePropertyMap l (delete (SerializeHash u) (mnUniquePropertyMap l))).
Proof.
  intros Hm HP Hn. unfold DeleteUniqueProperty. rewrite Hn. cbn [negb check mbind option_bind].
  rewrite (index_lookup _ _ _ _ Hm HP). cbn [mbind option_bind]. by rewrite !Z.eqb_refl.
Qed.
(** *** All the properties of a node *)

Definition props (d : CDeterministicMN) : list uprop :=
  let s := pdmnState d in
  UOutPoint (collateralOutpoint d) ::
  (if bool_decide (addr s = CService_null) then [] else [UService (addr s)]) ++
  UKeyID (keyIDOwner s) :: (if BLS_IsValid (pubKeyOperator s) then [UBLS (pubKeyOperator s)] else []).

Lemma BLS_IsValid_null k : BLS_IsValid k = negb (uprop_null (UBLS k)).
Proof. unfold BLS_IsValid, uprop_null, CBLSPublicKey_null. by destruct (Z.eqb_spec k 0), (bool_decide_reflect (k = 0)). Qed.

Lemma elem_of_props d u : mn_ok d -> u ∈ props d <-> has_prop d u.
Proof.
  intros [Hc Ho]. split.
  - assert (Hall : Forall (has_prop d) (props d)).
    { unfold props. cbv zeta. rewrite BLS_IsValid_null. apply Forall_cons; split; [done|]. apply Forall_app; split.
      - destruct (bool_decide (addr _ = _)) eqn:E; [apply Forall_nil_2|]. by apply Forall_singleton.
      - apply Forall_cons; split; [done|]. destruct (uprop_null (UBLS _)) eqn:E; [apply Forall_nil_2|]. by apply Forall_singleton. }
    intros Hu. by apply (proj1 (Forall_forall _ _) Hall u Hu).
  - intros [<- Hn]. unfold props. cbv zeta. destruct u as [o|x|k|k]; cbn [slot] in *.
    + left.
    + right. apply elem_of_app. left. cbn in Hn. rewrite Hn. left.
    + right. apply elem_of_app. right. left.
    + right. apply elem_of_app. right. right. rewrite BLS_IsValid_null, Hn. left.
Qed.

Lemma props_slot d u : u ∈ props d -> slot d u = u.
Proof.
  assert (Hall : Forall (fun u => slot d u = u) (props d)).
  { unfold props. cbv zeta. destruct (bool_decide _), (BLS_IsValid _); repeat (apply Forall_cons; split; [done|]); apply Forall_nil_2. }
  intros Hu. by apply (proj1 (Forall_forall _ _) Hall u Hu).
Qed.

Lemma NoDup_props d : NoDup (props d).
Proof.
  unfold props. cbv zeta. destruct (bool_decide _), (BLS_IsValid _); simpl;
    repeat (apply NoDup_cons_2; [rewrite !not_elem_of_cons; split_and!; try done; apply not_elem_of_nil|]);
    (apply NoDup_cons_2; [apply not_elem_of_nil|apply NoDup_nil_2]).
Qed.

(** Adding and deleting properties one after the other. *)
Fixpoint add_all (l : CDeterministicMNList) (d : CDeterministicMN) (us : list uprop) : option CDeterministicMNList :=
  match us with [] => Some l | u :: us => l ← AddUniqueProperty l d u; add_all l d us end.
Fixpoint delete_all (l : CDeterministicMNList) (d : CDeterministicMN) (us : list uprop) : option CDeterministicMNList :=
  match us with [] => Some l | u :: us => l ← DeleteUniqueProperty l d u; delete_all l d us end.

Lemma option_bind_id {A} (m : option A) : (m ≫= fun x => Some x) = m.
Proof. by destruct m. Qed.

Lemma AddMN_eq l d : AddMN l d =
  (_ ← check (negb (bool_decide (is_Some (mnMap l !! proTxHash d))));
   add_all (set_mnInternalIdMap (set_mnMap l (<[proTxHash d := d]> (mnMap l))) (<[internalId d := proTxHash d]> (mnInternalIdMap l)))
     d (props d)).
Proof.
  unfold AddMN, props. cbv zeta. destruct (check _); [|done]. cbn [mbind option_bind add_all app].
  destruct (AddUniqueProperty _ d (UOutPoint _)) as [l1|]; [|done]. cbn [mbind option_bind].
  destruct (bool_decide _); cbn [mbind option_bind add_all app].
  - destruct (AddUniqueProperty l1 d (UKeyID _)) as [l2|]; [|done]. cbn [mbind option_bind].
    destruct (BLS_IsValid _); [|done]. cbn [add_all]. by rewrite option_bind_id.
  - destruct (AddUniqueProperty l1 d (UService _)) as [l2|]; [|done]. cbn [mbind option_bind].
    destruct (AddUniqueProperty l2 d (UKeyID _)) as [l3|]; [|done]. cbn [mbind option_bind].
    destruct (BLS_IsValid _); [|done]. cbn [add_all]. by rewrite option_bind_id.
Qed.

Lemma RemoveMN_eq l h : RemoveMN l h =
  (d ← GetMN l h; l ← delete_all l d (props d);
   Some (set_mnInternalIdMap (set_mnMap l (delete h (mnMap l))) (delete (internalId d) (mnInternalIdMap l)))).
Proof.
  unfold RemoveMN, props. destruct (GetMN l h) as [d|]; [|done]. cbv zeta. cbn [mbind option_bind delete_all app].
  destruct (DeleteUniqueProperty l d (UOutPoint _)) as [l1|]; [|done]. cbn [mbind option_bind].
  destruct (bool_decide _); cbn [mbind option_bind delete_all app].
  - destruct (DeleteUniqueProperty l1 d (UKeyID _)) as [l2|]; [|done]. cbn [mbind option_bind].
    destruct (BLS_IsValid _); [|done]. cbn [delete_all]. by destruct (DeleteUniqueProperty l2 d _).
  - destruct (DeleteUniqueProperty l1 d (UService _)) as [l2|]; [|done]. cbn [mbind option_bind].
    destruct (DeleteUniqueProperty l2 d (UKeyID _)) as [l3|]; [|done]. cbn [mbind option_bind].
    destruct (BLS_IsValid _); [|done]. cbn [delete_all]. by destruct (DeleteUniqueProperty l3 d _).
Qed.

Lemma add_all_spec d us : forall l P l', index_ok (mnUniquePropertyMap l) P -> NoDup us ->
  (forall u, u ∈ us -> ~ P (proTxHash d) u) -> add_all l d us = Some l' ->
  (forall u, u ∈ us -> uprop_null u = false /\ forall h, ~ P h u) /\
  exists m, l' = set_mnUniquePropertyMap l m /\ index_ok m (fun h u => P h u \/ (h = proTxHash d /\ u ∈ us)).
Proof.
  induction us as [|u us IH]; intros l P l' Hm Hnd Hown Hl.
  - injection Hl as <-. split; [by intros u ?%elem_of_nil|]. exists (mnUniquePropertyMap l). rewrite set_unique_id. split; [done|].
    eapply index_ext; [|exact Hm]. intros h u. split; [by left|]. by intros [|[_ ?%elem_of_nil]].
  - apply NoDup_cons in Hnd as [Hnin Hnd]. cbn [add_all] in Hl.
    destruct (AddUniqueProperty l d u) as [l1|] eqn:E1; [|done]. cbn [mbind option_bind] in Hl.
    apply (AddUniqueProperty_spec l d u P Hm) in E1 as (Hn & Hno & ->); [|by apply Hown; left].
    destruct (IH (set_mnUniquePropertyMap l (<[SerializeHash u := (proTxHash d, 1)]> (mnUniquePropertyMap l)))
      (fun h' u' => P h' u' \/ (h' = proTxHash d /\ u' = u)) l' (index_add _ _ _ _ Hm Hno) Hnd) as (Hall & m & -> & Hm'); [|done|].
    { intros u' Hu' [HP|[_ ->]]; [|done]. by apply (Hown u'); [right|]. }
    split.
    { intros u' [->|Hu']%elem_of_cons; [done|]. destruct (Hall u' Hu') as [? Hno']. split; [done|]. intros h HP. apply (Hno' h). by left. }
    exists m. split; [done|]. eapply index_ext; [|exact Hm']. intros h u'. rewrite elem_of_cons. clear; tauto.
Qed.

Lemma add_all_total d us : forall l P, index_ok (mnUniquePropertyMap l) P -> NoDup us ->
  (forall u, u ∈ us -> uprop_null u = false /\ forall h, ~ P h u) -> is_Some (add_all l d us).
Proof.
  induction us as [|u us IH]; intros l P Hm Hnd Hall; [by eexists|].
  apply NoDup_cons in Hnd as [Hnin Hnd]. destruct (Hall u) as [Hn Hno]; [by left|]. cbn [add_all].
  rewrite (proj2 (AddUniqueProperty_spec l d u P Hm (Hno _) _) (conj Hn (conj Hno eq_refl))). cbn [mbind option_bind].
  apply (IH _ (fun h' u' => P h' u' \/ (h' = proTxHash d /\ u' = u))); [by apply index_add|done|].
  intros u' Hu'. destruct (Hall u') as [? Hno']; [by right|]. split; [done|]. intros h [HP|[_ ->]]; [by apply (Hno' h)|done].
Qed.

Lemma delete_all_spec d us : forall l P, index_ok (mnUniquePropertyMap l) P -> NoDup us ->
  (forall u, u ∈ us -> uprop_null u = false /\ P (proTxHash d) u) ->
  exists m, delete_all l d us = Some (set_mnUniquePropertyMap l m) /\ index_ok m (fun h u => P h u /\ u ∉ us).
Proof.
  induction us as [|u us IH]; intros l P Hm Hnd Hall.
  - exists (mnUniquePropertyMap l). rewrite set_unique_id. split; [done|]. eapply index_ext; [|exact Hm].
    intros h u. split; [|by intros []]. split; [done|]. apply not_elem_of_nil.
  - apply NoDup_cons in Hnd as [Hnin Hnd]. destruct (Hall u) as [Hn HP]; [by left|]. cbn [delete_all].
    rewrite (DeleteUniqueProperty_spec l d u P Hm HP Hn). cbn [mbind option_bind].
    destruct (IH (set_mnUniquePropertyMap l (delete (SerializeHash u) (mnUniquePropertyMap l)))
      (fun h' u' => P h' u' /\ u' <> u) (index_delete _ _ _ Hm) Hnd) as (m & -> & Hm').
    { intros u' Hu'. destruct (Hall u') as [? ?]; [by right|]. split_and!; [done|done|]. by intros ->. }
    exists m. split; [done|]. eapply index_ext; [|exact Hm']. intros h u'. rewrite not_elem_of_cons. clear; tauto.
Qed.

(** *** Adding and removing a node *)

(** The header of the list, which the map operations keep. *)
Definition same_header (l l' : CDeterministicMNList) : Prop :=
  blockHash l' = blockHash l /\ list_nHeight l' = list_nHeight l /\ nTotalRegisteredCount l' = nTotalRegisteredCount l.

(** No node of the list has a property of [d]. *)
Definition no_conflict (l : CDeterministicMNList) (d : CDeterministicMN) : Prop :=
  forall h u, has_prop d u -> ~ holds (mnMap l) h u.

Lemma holds_insert mns h d h' u : mns !! h = None ->
  holds (<[h := d]> mns) h' u <-> holds mns h' u \/ (h' = h /\ has_prop d u).
Proof.
  intros Hn. unfold holds. destruct (decide (h' = h)) as [->|Hne].
  - rewrite lookup_insert_eq. split.
    + intros (d' & [= <-] & Hp). by right.
    + intros [(d' & Hd & _)|[_ Hp]]; [congruence|eauto].
  - rewrite lookup_insert_ne by done. split; [by left|]. by intros [|[-> _]].
Qed.

Lemma AddMN_ok l d l' : list_ok l -> mnInternalIdMap l !! internalId d = None -> AddMN l d = Some l' ->
  mnMap l !! proTxHash d = None /\ mn_ok d /\ no_conflict l d /\
  list_ok l' /\ mnMap l' = <[proTxHash d := d]> (mnMap l) /\ same_header l l'.
Proof.
  intros [Hk Hi Hu] Hid. rewrite AddMN_eq. intros Hadd.
  destruct (bool_decide_reflect (is_Some (mnMap l !! proTxHash d))) as [|Hn]; [done|]. apply eq_None_not_Some in Hn.
  cbn [negb check mbind option_bind] in Hadd.
  assert (Hnone : forall u, ~ holds (mnMap l) (proTxHash d) u) by (intros u (d' & Hd & _); congruence).
  match type of Hadd with add_all ?l1 _ _ = _ =>
    apply (add_all_spec d (props d) l1 (holds (mnMap l)) l' Hu (NoDup_props d)) in Hadd as (Hall & m & -> & Hm); [|done] end.
  assert (Hmn : mn_ok d) by (split; apply Hall; unfold props; cbv zeta;
    [left|right; apply elem_of_app; right; left]).
  split_and!; [done|done| | |done|done].
  { intros h u Hp. apply Hall. by apply elem_of_props. }
  split.
  - intros h d' Hd. cbn in Hd. destruct (decide (h = proTxHash d)) as [->|Hne].
    + rewrite lookup_insert_eq in Hd. by injection Hd as <-.
    + rewrite lookup_insert_ne in Hd by done. by apply Hk.
  - intros id h. cbn. destruct (decide (id = internalId d)) as [->|Hne].
    + rewrite lookup_insert_eq. split.
      * intros [= <-]. exists d. by rewrite lookup_insert_eq.
      * intros (d' & Hd & Hid'). destruct (decide (h = proTxHash d)) as [->|Hne]; [done|]. rewrite lookup_insert_ne in Hd by done.
        assert (mnInternalIdMap l !! internalId d = Some h) by (apply Hi; eauto). congruence.
    + rewrite lookup_insert_ne, (Hi id h) by done. destruct (decide (h = proTxHash d)) as [->|Hne'].
      * rewrite lookup_insert_eq, Hn. split; [by intros (? & ? & ?)|]. intros (d' & [= <-] & Hid'). done.
      * by rewrite lookup_insert_ne by done.
  - eapply index_ext; [|exact Hm]. intros h u. cbn. rewrite holds_insert by done. by rewrite elem_of_props.
Qed.

Lemma AddMN_total l d : list_ok l -> mnMap l !! proTxHash d = None -> mn_ok d -> no_conflict l d -> is_Some (AddMN l d).
Proof.
  intros [Hk Hi Hu] Hn Hmn Hno. rewrite AddMN_eq, Hn. cbn [negb check mbind option_bind].
  rewrite bool_decide_eq_false_2 by (by intros [? ?]). cbn [negb check mbind option_bind].
  apply (add_all_total d (props d)) with (P := holds (mnMap l)); [exact Hu|apply NoDup_props|].
  intros u Hp%elem_of_props; [|done].
  split; [apply Hp|]. intros h. by apply Hno.
Qed.

Lemma RemoveMN_ok l h d : list_ok l -> mnMap l !! h = Some d ->
  exists l', RemoveMN l h = Some l' /\ list_ok l' /\ mnMap l' = delete h (mnMap l) /\ same_header l l'.
Proof.
  intros [Hk Hi Hu] Hd. destruct (Hk h d Hd) as [Hh Hmn]. rewrite RemoveMN_eq. unfold GetMN. rewrite Hd. cbn [mbind option_bind].
  destruct (delete_all_spec d (props d) l _ Hu (NoDup_props d)) as (m & -> & Hm).
  { intros u Hp%elem_of_props; [|done]. split; [apply Hp|]. exists d. by rewrite Hh. }
  cbn [mbind option_bind]. eexists. split; [done|]. split; [|done]. split.
  - intros h' d' Hd'. cbn in Hd'. apply lookup_delete_Some in Hd' as [_ Hd']. by apply Hk.
  - intros id h'. cbn. split.
    + intros [Hne Hid]%lookup_delete_Some. apply Hi in Hid as (d' & Hd' & <-). exists d'.
      rewrite lookup_delete_ne; [done|]. intros <-. congruence.
    + intros (d' & [Hne Hd']%lookup_delete_Some & <-). apply lookup_delete_Some. split; [|apply Hi; eauto].
      intros Heq. assert (H1 : mnInternalIdMap l !! internalId d' = Some h') by (apply Hi; eauto).
      assert (H2 : mnInternalIdMap l !! internalId d' = Some h) by (apply Hi; eauto). congruence.
  - eapply index_ext; [|exact Hm]. intros h' u. cbn. unfold holds. split.
    + intros [(d' & Hd' & Hp) Hnin]. exists d'. split; [|done]. rewrite lookup_delete_ne; [done|].
      intros <-. assert (d' = d) as -> by congruence. by apply Hnin, elem_of_props.
    + intros (d' & [Hne Hd']%lookup_delete_Some & Hp). split; [eauto|]. intros Hin%elem_of_props; [|done].
      apply Hne. eapply (index_functional _ _ u _ _ Hu); unfold holds; eauto.
Qed.

(** *** Updating a node *)

Lemma holds_at mns h d u : holds (<[h := d]> mns) h u <-> has_prop d u.
Proof. unfold holds. rewrite lookup_insert_eq. split; [by intros (? & [= <-] & ?)|eauto]. Qed.

Lemma holds_other mns h d h' u : h' <> h -> holds (<[h := d]> mns) h' u <-> holds mns h' u.
Proof. intros Hne. unfold holds. by rewrite lookup_insert_ne. Qed.

(** One changed property: [d1] has the [old] value, [d2] the [new] one, and they agree on the others. *)
Record changes (d1 d2 : CDeterministicMN) (old new : uprop) : Prop := {
  ch_old : slot d1 old = old;
  ch_old_new : slot d1 new = old;
  ch_new : slot d2 new = new;
  ch_rest : forall u, slot d1 u = slot d2 u \/ (slot d1 u = old /\ slot d2 u = new)
}.

Lemma changes_prop d1 d2 old new u : changes d1 d2 old new -> old <> new ->
  has_prop d2 u <-> (has_prop d1 u /\ u <> old) \/ (u = new /\ uprop_null new = false).
Proof.
  intros [Ho Hon Hn Hr] Hne. unfold has_prop. split.
  - intros [Hs Hnull]. destruct (Hr u) as [E|[E1 E2]].
    + left. split_and!; [by rewrite E|done|]. intros ->. destruct (Hr new) as [E3|[_ E3]]; [congruence|].
      assert (slot d2 old = slot d2 new) by (destruct old, new; try done; simpl in *; congruence). congruence.
    + right. split; congruence.
  - intros [[[Hs Hnull] Hu]|[-> Hnull]]; [|done]. split; [|done]. destruct (Hr u) as [E|[E1 E2]]; congruence.
Qed.

Section Step.
Variables (l : CDeterministicMNList) (mns : gmap Z CDeterministicMN) (d d1 d2 : CDeterministicMN) (h : Z) (old new : uprop).
Hypotheses (Hu : index_ok (mnUniquePropertyMap l) (holds (<[h := d1]> mns))) (Hh : proTxHash d = h) (Hch : changes d1 d2 old new).

Lemma step_deleted : old <> new ->
  exists m, (if uprop_null old then Some l else DeleteUniqueProperty l d old) = Some (set_mnUniquePropertyMap l m) /\
    index_ok m (fun h' u => holds (<[h := d1]> mns) h' u /\ u <> old).
Proof.
  intros Hne. destruct (uprop_null old) eqn:En.
  - exists (mnUniquePropertyMap l). rewrite set_unique_id. split; [done|]. eapply index_ext; [|exact Hu].
    intros h' u. split; [|by intros []]. intros Hp. split; [done|]. destruct Hp as (? & _ & _ & Hn). intros ->. congruence.
  - exists (delete (SerializeHash old) (mnUniquePropertyMap l)). split; [|by apply index_delete].
    eapply DeleteUniqueProperty_spec; [exact Hu| |done]. rewrite Hh. apply holds_at. split; [apply Hch|done].
Qed.

Lemma step_index m : old <> new -> (uprop_null new = false -> forall h', h' <> h -> ~ holds mns h' new) ->
  index_ok m (fun h' u => (holds (<[h := d1]> mns) h' u /\ u <> old) \/ (h' = h /\ u = new /\ uprop_null new = false)) ->
  index_ok m (holds (<[h := d2]> mns)).
Proof.
  intros Hne Hno. apply index_ext. intros h' u. destruct (decide (h' = h)) as [->|Hnh].
  - rewrite !holds_at, (changes_prop d1 d2 old new u Hch Hne). clear. tauto.
  - rewrite !holds_other by done. split; [|]; [intros [[? _]|[-> _]]; done|]. intros Hp. left. split; [done|].
    intros ->. apply Hnh. eapply (index_functional _ _ old _ _ Hu); [by apply holds_other|]. apply holds_at.
    split; [apply Hch|]. by destruct Hp as (? & _ & _ & ?).
Qed.

Lemma UpdateUniqueProperty_ok l' : UpdateUniqueProperty l d old new = Some l' ->
  (forall h', h' <> h -> ~ holds mns h' new) /\
  exists m, l' = set_mnUniquePropertyMap l m /\ index_ok m (holds (<[h := d2]> mns)).
Proof.
  unfold UpdateUniqueProperty. case_bool_decide as E.
  - intros [= <-]. split.
    + intros h' Hne Hp. apply Hne. eapply (index_functional _ _ new _ _ Hu); [by apply holds_other|]. apply holds_at.
      split; [rewrite <- E; apply Hch|]. by destruct Hp as (? & _ & _ & ?).
    + exists (mnUniquePropertyMap l). rewrite set_unique_id. split; [done|]. eapply index_ext; [|exact Hu]. intros h' u.
      destruct (decide (h' = h)) as [->|]; [|by rewrite !holds_other]. rewrite !holds_at. unfold has_prop.
      destruct (ch_rest _ _ _ _ Hch u) as [->|[-> ->]]; [done|]. by rewrite E.
  - destruct (step_deleted E) as (m & -> & Hm). cbn [mbind option_bind]. destruct (uprop_null new) eqn:En.
    + intros [= <-]. split; [intros h' _ (? & _ & _ & ?); congruence|]. exists m. split; [done|].
      apply step_index; [done|congruence|]. eapply index_ext; [|exact Hm]. intros h' u. split; [by left|]. intros [|(_ & _ & ?)]; [done|congruence].
    + assert (Hown : ~ (holds (<[h := d1]> mns) (proTxHash d) new /\ new <> old)).
      { rewrite Hh, holds_at. intros [[Hs _] _]. rewrite (ch_old_new _ _ _ _ Hch) in Hs. done. }
      intros Hadd. apply (AddUniqueProperty_spec (set_mnUniquePropertyMap l m) d new _ Hm Hown) in Hadd as (_ & Hno & ->).
      assert (Hno' : forall h', h' <> h -> ~ holds mns h' new).
      { intros h' Hne Hp. apply (Hno h'). split; [by apply holds_other|done]. }
      split; [done|]. eexists. split; [done|]. apply step_index; [done|done|].
      eapply index_ext; [|apply (index_add m _ new (proTxHash d) Hm Hno)]. intros h' u. cbn beta. rewrite Hh, En. clear. tauto.
Qed.

Lemma UpdateUniqueProperty_total : (forall h', h' <> h -> ~ holds mns h' new) -> is_Some (UpdateUniqueProperty l d old new).
Proof.
  intros Hno. unfold UpdateUniqueProperty. case_bool_decide as E; [by eexists|].
  destruct (step_deleted E) as (m & -> & Hm). cbn [mbind option_bind]. destruct (uprop_null new) eqn:En; [by eexists|].
  assert (Hnone : forall h', ~ (holds (<[h := d1]> mns) h' new /\ new <> old)).
  { intros h'. destruct (decide (h' = h)) as [->|Hne].
    - rewrite holds_at. intros [[Hs _] _]. rewrite (ch_old_new _ _ _ _ Hch) in Hs. done.
    - rewrite holds_other by done. intros [Hp _]. by apply (Hno h'). }
  eexists. apply (AddUniqueProperty_spec (set_mnUniquePropertyMap l m) d new _ Hm (Hnone _)). done.
Qed.
End Step.

Lemma changes_addr d a : changes d (set_pdmnState d (set_addr (pdmnState d) a)) (UService (addr (pdmnState d))) (UService a).
Proof. destruct d as [? ? ? ? []]. split; try done. intros []; auto. Qed.

Lemma changes_owner d k : changes d (set_pdmnState d (set_keyIDOwner (pdmnState d) k)) (UKeyID (keyIDOwner (pdmnState d))) (UKeyID k).
Proof. destruct d as [? ? ? ? []]. split; try done. intros []; auto. Qed.

Lemma changes_operator d k : changes d (set_pdmnState d (set_pubKeyOperator (pdmnState d) k)) (UBLS (pubKeyOperator (pdmnState d))) (UBLS k).
Proof. destruct d as [? ? ? ? []]. split; try done. intros []; auto. Qed.

(** The state after the first one, two and three property updates. *)
Section Update.
Variables (l : CDeterministicMNList) (h : Z) (old : CDeterministicMN) (s : CDeterministicMNState).
Hypotheses (Hl : list_ok l) (Hold : mnMap l !! h = Some old).

Let d1 := set_pdmnState old (set_addr (pdmnState old) (addr s)).
Let d2 := set_pdmnState d1 (set_keyIDOwner (pdmnState d1) (keyIDOwner s)).
Let d3 := set_pdmnState d2 (set_pubKeyOperator (pdmnState d2) (pubKeyOperator s)).
Let l0 := set_mnMap l (<[proTxHash old := set_pdmnState old s]> (mnMap l)).

Lemma update_fields : addr (pdmnState d1) = addr s /\ keyIDOwner (pdmnState d1) = keyIDOwner (pdmnState old) /\
  pubKeyOperator (pdmnState d2) = pubKeyOperator (pdmnState old) /\ forall u, slot d3 u = slot (set_pdmnState old s) u.
Proof. destruct old as [? ? ? ? []]. split_and!; try done. Qed.

Lemma update_hash : proTxHash (set_pdmnState old s) = h.
Proof. apply (ok_key _ Hl) in Hold. apply Hold. Qed.

Lemma update_index0 : index_ok (mnUniquePropertyMap l0) (holds (<[h := old]> (mnMap l))).
Proof. rewrite insert_id by done. apply Hl. Qed.

(** No other node has a property the new state has. *)
Definition update_free : Prop := forall h' u, h' <> h -> has_prop (set_pdmnState old s) u -> ~ holds (mnMap l) h' u.

Lemma update_final m : index_ok m (holds (<[h := d3]> (mnMap l))) -> index_ok m (holds (<[h := set_pdmnState old s]> (mnMap l))).
Proof.
  apply index_ext. intros h' u. destruct (decide (h' = h)) as [->|]; [|by rewrite !holds_other].
  rewrite !holds_at. unfold has_prop. by rewrite (proj2 (proj2 (proj2 update_fields)) u).
Qed.

Lemma UpdateMN_free l' : UpdateMN_dmn l old s = Some l' ->
  update_free /\ exists m, l' = set_mnUniquePropertyMap l0 m /\ index_ok m (holds (<[h := set_pdmnState old s]> (mnMap l))).
Proof.
  unfold UpdateMN_dmn. cbv zeta. fold l0. destruct update_fields as (Ha & Ho & Hp & Hs). intros Hup.
  destruct (UpdateUniqueProperty l0 _ _ _) as [l1|] eqn:E1; [|done]. cbn [mbind option_bind] in Hup.
  destruct (UpdateUniqueProperty_ok _ _ _ old d1 h _ _ update_index0 update_hash (changes_addr old (addr s)) _ E1) as (H1 & m1 & -> & Hm1).
  destruct (UpdateUniqueProperty (set_mnUniquePropertyMap l0 m1) _ _ _) as [l2|] eqn:E2; [|done]. cbn [mbind option_bind] in Hup.
  rewrite <- Ho in E2.
  destruct (UpdateUniqueProperty_ok (set_mnUniquePropertyMap l0 m1) _ _ d1 d2 h _ _ Hm1 update_hash (changes_owner d1 (keyIDOwner s)) _ E2) as (H2 & m2 & -> & Hm2).
  rewrite <- Hp in Hup.
  destruct (UpdateUniqueProperty_ok (set_mnUniquePropertyMap l0 m2) _ _ d2 d3 h _ _ Hm2 update_hash (changes_operator d2 (pubKeyOperator s)) _ Hup) as (H3 & m3 & -> & Hm3).
  split; [|exists m3; split; [done|by apply update_final]].
  intros h' u Hne [Hsl Hn]. rewrite <- Hsl. destruct u; cbn [slot set_pdmnState]; [|by apply H1|by apply H2|by apply H3].
  intros Hh'. apply Hne. apply (index_functional _ _ _ _ _ (ok_unique _ Hl) Hh'). exists old. split; [done|].
  split; [done|]. apply (ok_key _ Hl) in Hold. apply Hold.
Qed.

Lemma UpdateMN_total : update_free -> is_Some (UpdateMN_dmn l old s).
Proof.
  intros Hfree. unfold UpdateMN_dmn. cbv zeta. fold l0. destruct update_fields as (Ha & Ho & Hp & Hs).
  assert (Hno : forall u, slot (set_pdmnState old s) u = u -> forall h', h' <> h -> ~ holds (mnMap l) h' u).
  { intros u Hu h' Hne Hh'. apply (Hfree h' u Hne); [|done]. split; [done|]. by destruct Hh' as (? & _ & _ & ?). }
  destruct (UpdateUniqueProperty_total _ _ _ old d1 h _ _ update_index0 update_hash (changes_addr old (addr s)) (Hno (UService _) eq_refl)) as [l1 E1].
  rewrite E1. cbn [mbind option_bind].
  destruct (UpdateUniqueProperty_ok _ _ _ old d1 h _ _ update_index0 update_hash (changes_addr old (addr s)) _ E1) as (_ & m1 & -> & Hm1).
  rewrite <- Ho.
  destruct (UpdateUniqueProperty_total (set_mnUniquePropertyMap l0 m1) _ _ d1 d2 h _ _ Hm1 update_hash (changes_owner d1 (keyIDOwner s)) (Hno (UKeyID _) eq_refl)) as [l2 E2].
  rewrite E2. cbn [mbind option_bind].
  destruct (UpdateUniqueProperty_ok (set_mnUniquePropertyMap l0 m1) _ _ d1 d2 h _ _ Hm1 update_hash (changes_owner d1 (keyIDOwner s)) _ E2) as (_ & m2 & -> & Hm2).
  rewrite <- Hp.
  apply (UpdateUniqueProperty_total (set_mnUniquePropertyMap l0 m2) _ _ d2 d3 h _ _ Hm2 update_hash (changes_operator d2 (pubKeyOperator s)) (Hno (UBLS _) eq_refl)).
Qed.

Lemma UpdateMN_ok l' : UpdateMN_dmn l old s = Some l' -> uprop_null (UKeyID (keyIDOwner s)) = false ->
  list_ok l' /\ mnMap l' = <[h := set_pdmnState old s]> (mnMap l) /\ same_header l l'.
Proof.
  intros Hup Hown. destruct (UpdateMN_free l' Hup) as (_ & m & -> & Hm). pose proof update_hash as Hh.
  assert (Hmap : mnMap (set_mnUniquePropertyMap l0 m) = <[h := set_pdmnState old s]> (mnMap l)) by (cbn; by rewrite <- Hh).
  split_and!; [|done|done..]. destruct Hl as [Hk Hi Hu]. split; rewrite Hmap.
  - intros h' d' Hd. destruct (decide (h' = h)) as [->|Hne].
    + rewrite lookup_insert_eq in Hd. injection Hd as <-. split; [done|]. split; [|done]. apply (Hk h old Hold).
    + rewrite lookup_insert_ne in Hd by done. by apply Hk.
  - intros id h'. cbn. rewrite (Hi id h'). destruct (decide (h' = h)) as [->|Hne].
    + rewrite lookup_insert_eq, Hold. split; intros (d' & [= <-] & <-); eauto.
    + by rewrite lookup_insert_ne.
  - exact Hm.
Qed.
End Update.
End Invariant.

(** ** A list to try things on *)

Definition sum_of_uprop (u : uprop) : COutPoint + (Z + (list Z + Z)) :=
  match u with UOutPoint o => inl o | UService a => inr (inl a) | UKeyID k => inr (inr (inl k)) | UBLS k => inr (inr (inr k)) end.
Definition uprop_of_sum (s : COutPoint + (Z + (list Z + Z))) : uprop :=
  match s with inl o => UOutPoint o | inr (inl a) => UService a | inr (inr (inl k)) => UKeyID k | inr (inr (inr k)) => UBLS k end.
#[export] Instance uprop_countable : Countable uprop.
Proof. refine (inj_countable' sum_of_uprop uprop_of_sum _). by intros []. Defined.

Module Sample.
Definition add `{PropertyHash} (ds : list CDeterministicMN) (l : CDeterministicMNList) : option CDeterministicMNList :=
  foldl (fun l d => l ← l; AddMN l d) (Some l) ds.
#[export] Instance hash : PropertyHash := fun u => Zpos (encode u).
#[export] Instance hash_spec : PropertyHashSpec.
Proof. intros u v E. apply (inj encode). unfold SerializeHash, hash in E. congruence. Qed.

(** A node registered at height [r], with everything made of its number. *)
Definition node (h id r : Z) : CDeterministicMN :=
  mkMN h id (h, 0) 0 (mkState r 0 0 (-1) (-1) 0 0 0 [h] h [h] h [] [] (65000 * 100000000)).
(** The collaterals of the main network. *)
Definition nodes_collaterals : SmartnodeCollaterals := collaterals_new [(INT_MAX, 65000 * 100000000)] [(125, 0); (INT_MAX, 65)].

(** Three nodes at height 1000 *)
Definition three : option CDeterministicMNList := add [node 7 0 500; node 5 1 500; node 9 2 400] (list_new 1 1000 3).
End Sample.

Lemma list_new_ok `{PropertyHashSpec} hash height total : list_ok (list_new hash height total).
Proof.
  split; [done| |].
  - intros id h. split; [done|]. by intros (d & Hd & _).
  - intros x e. split; [done|]. intros (u & h & _ & _ & d & Hd & _). done.
Qed.

(** Nodes with ids of their own that add up to a list add up to a good one, with these nodes. *)
Lemma add_spec `{PropertyHashSpec} ds : forall l l', list_ok l -> NoDup (internalId <$> ds) ->
  (forall d, d ∈ ds -> mnInternalIdMap l !! internalId d = None) ->
  Sample.add ds l = Some l' -> list_ok l' /\ mnMap l' = foldl (fun m d => <[proTxHash d := d]> m) (mnMap l) ds /\ same_header l l'.
Proof.
  unfold Sample.add. induction ds as [|d ds IH]; intros l l' Hl Hnd Hid Hadd; cbn [foldl] in Hadd |- *; [by injection Hadd as <-|].
  cbn [mbind option_bind] in Hadd. destruct (AddMN l d) as [l1|] eqn:E.
  2: { exfalso. clear -Hadd. induction ds; [done|]. by apply IHds. }
  destruct (AddMN_ok l d l1 Hl (Hid d ltac:(by left)) E) as (Hn & _ & _ & Hl1 & Hmap & Hh). rewrite fmap_cons in Hnd. apply NoDup_cons in Hnd as [Hd Hnd].
  destruct (IH l1 l' Hl1 Hnd) as (Hok & Hm & Hh'); [|done|split_and!; [done|by rewrite Hm, Hmap|unfold same_header in *; intuition congruence]].
  intros d' Hd'. apply eq_None_not_Some. intros [h (d1 & Hd1 & Hid1)%(ok_ids _ Hl1)].
  rewrite Hmap in Hd1. apply lookup_insert_Some in Hd1 as [[_ <-]|[_ Hd1]].
  - apply Hd. rewrite Hid1. by apply list_elem_of_fmap_2.
  - assert (Hsome : mnInternalIdMap l !! internalId d' = Some h) by (apply (ok_ids _ Hl); eauto).
    by rewrite (Hid d' ltac:(by right)) in Hsome.
Qed.

Lemma inserted_nodes (ds : list CDeterministicMN) h d : forall m : gmap Z CDeterministicMN,
  foldl (fun m d => <[proTxHash d := d]> m) m ds !! h = Some d -> m !! h = Some d \/ d ∈ ds /\ proTxHash d = h.
Proof.
  induction ds as [|d0 ds IH]; intros m Hd; cbn in Hd; [by left|]. apply IH in Hd as [Hd|[Hd Hh]]; [|right; split; [by right|done]].
  apply lookup_insert_Some in Hd as [[Hh ->]|[_ Hd]]; [right; split; [by left|done]|by left].
Qed.

(** The list that some nodes add up to. *)
Lemma add_new_spec `{PropertyHashSpec} ds hash height total l' : NoDup (internalId <$> ds) ->
  Sample.add ds (list_new hash height total) = Some l' ->
  list_ok l' /\ nTotalRegisteredCount l' = total /\ list_nHeight l' = height /\
  forall h d, mnMap l' !! h = Some d -> d ∈ ds /\ proTxHash d = h.
Proof.
  intros Hnd Hadd. destruct (add_spec ds _ l' (list_new_ok hash height total) Hnd ltac:(done) Hadd) as (Hok & Hm & (_ & Hh & Ht)).
  split_and!; [done|done|done|]. intros h d Hd. rewrite Hm in Hd. by apply inserted_nodes in Hd as [Hd|Hd].
Qed.
