(* ===== verification/SmartnodeDiff.v ===== *)
(** Differences between smartnode lists ([CDeterministicMNListDiff], [BuildDiff] and [ApplyDiff] of
    [evo/deterministicmns.cpp]): what the node keeps on disk for every block, and that replaying it gives
    the list back. *)

From stdpp Require Import prelude gmap sorting list_numbers.
From Stdlib Require Import ZArith Lia.
From S2P Require Import Prelude Transaction ProTx SmartnodeList.

Open Scope Z_scope.

Record CDeterministicMNListDiff := mkDiff {
  addedMNs : list CDeterministicMN;
  updatedMNs : gmap Z CDeterministicMNStateDiff;
  removedMns : gset Z
}.
Definition HasChanges (d : CDeterministicMNListDiff) : bool :=
  negb (bool_decide (addedMNs d = []) && bool_decide (updatedMNs d = ∅) && bool_decide (removedMns d = ∅)).

(** [emplace] keeps the entry that is there. *)
Definition emplace {V} (m : gmap Z V) (k : Z) (v : V) : gmap Z V :=
  match m !! k with Some _ => m | None => <[k := v]> m end.

Definition by_internalId (a b : CDeterministicMN) : Prop := internalId a <= internalId b.
#[export] Instance by_internalId_dec a b : Decision (by_internalId a b).
Proof. unfold by_internalId. apply _. Defined.

Section Diff.
Context `{PropertyHash}.
Variable nCollaterals : SmartnodeCollaterals.
(** what is in the unset field of a default state *)
Variable amount : Z.

(** One node of the new list. Equal pointers have no difference, so that comparing them
    first only saves the comparison. *)
Definition diff_to (from : CDeterministicMNList) (acc : list CDeterministicMN * gmap Z CDeterministicMNStateDiff)
    (toPtr : CDeterministicMN) : list CDeterministicMN * gmap Z CDeterministicMNStateDiff :=
  match GetMN from (proTxHash toPtr) with
  | None => (acc.1 ++ [toPtr], acc.2)
  | Some fromPtr =>
      let stateDiff := StateDiff amount (pdmnState fromPtr) (pdmnState toPtr) in
      if diff_fields stateDiff =? 0 then acc else (acc.1, emplace acc.2 (internalId toPtr) stateDiff)
  end.
Definition diff_from (to : CDeterministicMNList) (removed : gset Z) (fromPtr : CDeterministicMN) : gset Z :=
  match GetMN to (proTxHash fromPtr) with
  | None => {[ internalId fromPtr ]} ∪ removed
  | Some _ => removed
  end.
Definition BuildDiff (from to : CDeterministicMNList) : CDeterministicMNListDiff :=
  let '(added, updated) := foldl (diff_to from) ([], ∅) (ForEachMN nCollaterals to false) in
  let removed := foldl (diff_from to) ∅ (ForEachMN nCollaterals from false) in
  mkDiff (merge_sort by_internalId added) updated removed.

(** The three loops of [ApplyDiff]; sets and maps are iterated in increasing order. *)
Fixpoint apply_removed (l : CDeterministicMNList) (ids : list Z) : option CDeterministicMNList :=
  match ids with
  | [] => Some l
  | id :: ids => d ← GetMNByInternalId l id; l ← RemoveMN l (proTxHash d); apply_removed l ids
  end.
Fixpoint apply_added (l : CDeterministicMNList) (ds : list CDeterministicMN) : option CDeterministicMNList :=
  match ds with
  | [] => Some l
  | d :: ds =>
      _ ← check (internalId d =? nTotalRegisteredCount l);
      l ← AddMN l d;
      apply_added (SetTotalRegisteredCount l (u32 (nTotalRegisteredCount l + 1))) ds
  end.
Fixpoint apply_updated (l : CDeterministicMNList) (ups : list (Z * CDeterministicMNStateDiff)) : option CDeterministicMNList :=
  match ups with
  | [] => Some l
  | (id, sd) :: ups => l ← UpdateMN_diff l (GetMNByInternalId l id) sd; apply_updated l ups
  end.
Definition by_key {V} (a b : Z * V) : Prop := a.1 <= b.1.
#[export] Instance by_key_dec {V} (a b : Z * V) : Decision (by_key a b).
Proof. unfold by_key. apply _. Defined.
Definition ApplyDiff (l : CDeterministicMNList) (hash height : Z) (diff : CDeterministicMNListDiff) : option CDeterministicMNList :=
  let result := SetHeight (SetBlockHash l hash) height in
  result ← apply_removed result (merge_sort Z.le (elements (removedMns diff)));
  result ← apply_added result (addedMNs diff);
  apply_updated result (merge_sort by_key (map_to_list (updatedMNs diff))).
End Diff.

(** ** Differences of states *)

(** Fields that can be read and written independently, each with a bit of its own. *)
Fixpoint independent (fs : list field) : Prop :=
  match fs with
  | [] => True
  | f :: fs =>
      (forall s v, fget f (fset f s v) = v) /\ fbit f <> 0 /\
      Forall (fun g => (forall s v, fget f (fset g s v) = fget f s) /\ (forall s v, fget g (fset f s v) = fget g s) /\
                       Z.land (fbit f) (fbit g) = 0) fs /\
      independent fs
  end.

Lemma all_fields_independent : independent DMN_STATE_DIFF_ALL_FIELDS.
Proof.
  unfold DMN_STATE_DIFF_ALL_FIELDS. cbn [independent].
  repeat (split; [by intros []|split; [done|split; [repeat (apply Forall_cons; split; [by split_and!; [intros []|intros []|]|]); apply Forall_nil_2|]]]).
  done.
Qed.

Lemma states_equal a b : Forall (fun f => fget f a = fget f b) DMN_STATE_DIFF_ALL_FIELDS -> a = b.
Proof.
  intros Hf. unfold DMN_STATE_DIFF_ALL_FIELDS in Hf. repeat (apply Forall_cons in Hf as [? Hf]; cbn in *).
  destruct a, b. simpl in *. by subst.
Qed.

(** Lines about other fields leave a field alone. *)
Lemma diff_others a b g fs : forall d,
  Forall (fun f => (forall s v, fget g (fset f s v) = fget g s) /\ Z.land (fbit g) (fbit f) = 0) fs ->
  Z.land (diff_fields (foldl (diff_line a b) d fs)) (fbit g) = Z.land (diff_fields d) (fbit g) /\
  fget g (diff_state (foldl (diff_line a b) d fs)) = fget g (diff_state d).
Proof.
  induction fs as [|f fs IH]; intros d Hf; [done|]. apply Forall_cons in Hf as [[Hg Hb] Hf]. cbn [foldl].
  destruct (IH (diff_line a b d f) Hf) as [-> ->]. unfold diff_line. destruct (decide _); [done|]. cbn [diff_fields diff_state].
  by rewrite Hg, Z.land_lor_distr_l, (Z.land_comm (fbit f)), Hb, Z.lor_0_r.
Qed.

Lemma diff_all a b fs : independent fs -> forall d, (forall f, f ∈ fs -> Z.land (diff_fields d) (fbit f) = 0) ->
  Forall (fun f => if @decide (fget f a = fget f b) (feq f _ _) then Z.land (diff_fields (foldl (diff_line a b) d fs)) (fbit f) = 0
     else Z.land (diff_fields (foldl (diff_line a b) d fs)) (fbit f) <> 0 /\ fget f (diff_state (foldl (diff_line a b) d fs)) = fget f b) fs.
Proof.
  induction fs as [|f fs IH]; intros Hi d Hd; [apply Forall_nil_2|]. destruct Hi as (Hget & Hbit & Hf & Hi).
  cbn [foldl]. apply Forall_cons. split.
  - destruct (diff_others a b f fs (diff_line a b d f)) as [-> ->].
    { eapply Forall_impl; [exact Hf|]. intros g (H1 & H2 & H3). done. }
    unfold diff_line. destruct (decide _); [by apply Hd; left|]. cbn [diff_fields diff_state].
    rewrite Z.land_lor_distr_l, (Hd f), Z.land_diag, Z.lor_0_l by left. split; [done|apply Hget].
  - apply IH; [done|]. intros g Hg. destruct (proj1 (Forall_forall _ _) Hf g Hg) as (_ & _ & Hb).
    unfold diff_line. destruct (decide _); [by apply Hd; right|]. cbn [diff_fields].
    by rewrite Z.land_lor_distr_l, (Hd g), Hb by (by right).
Qed.

Lemma apply_others d g fs : forall t,
  Forall (fun f => forall s v, fget g (fset f s v) = fget g s) fs -> fget g (foldl (apply_line d) t fs) = fget g t.
Proof.
  induction fs as [|f fs IH]; intros t Hf; [done|]. apply Forall_cons in Hf as [Hg Hf]. cbn [foldl].
  rewrite (IH _ Hf). unfold apply_line. destruct (_ =? _); [done|apply Hg].
Qed.

Lemma apply_all d fs : independent fs -> forall t,
  Forall (fun f => fget f (foldl (apply_line d) t fs) = if Z.land (diff_fields d) (fbit f) =? 0 then fget f t else fget f (diff_state d)) fs.
Proof.
  induction fs as [|f fs IH]; intros Hi t; [apply Forall_nil_2|]. destruct Hi as (Hget & Hbit & Hf & Hi).
  cbn [foldl]. apply Forall_cons. split.
  - rewrite apply_others by (eapply Forall_impl; [exact Hf|]; by intros g (H1 & _ & _)).
    unfold apply_line. destruct (_ =? _); [done|apply Hget].
  - apply Forall_forall. intros g Hg. rewrite (proj1 (Forall_forall _ _) (IH Hi (apply_line d t f)) g Hg).
    destruct (proj1 (Forall_forall _ _) Hf g Hg) as (_ & Hgf & _).
    destruct (Z.land (diff_fields d) (fbit g) =? 0); [|done]. unfold apply_line. destruct (_ =? _); [done|apply Hgf].
Qed.

Lemma StateDiff_fields amount a b f : f ∈ DMN_STATE_DIFF_ALL_FIELDS ->
  (fget f a = fget f b /\ Z.land (diff_fields (StateDiff amount a b)) (fbit f) = 0) \/
  (Z.land (diff_fields (StateDiff amount a b)) (fbit f) <> 0 /\ fget f (diff_state (StateDiff amount a b)) = fget f b).
Proof.
  unfold StateDiff. pose proof all_fields_independent as Hi. revert Hi. generalize DMN_STATE_DIFF_ALL_FIELDS as fs. intros fs Hi Hf.
  pose proof (diff_all a b fs Hi (mkStateDiff 0 (state_default amount)) (fun f _ => Z.land_0_l _)) as Hd.
  apply (proj1 (Forall_forall _ _)) with (x := f) in Hd; [|done]. cbv beta in Hd. destruct (decide _); [by left|by right].
Qed.

Lemma ApplyToState_StateDiff amount a b : ApplyToState (StateDiff amount a b) a = b.
Proof.
  apply states_equal. apply Forall_forall. intros f Hf. pose proof (StateDiff_fields amount a b f Hf) as Hd.
  revert Hd. generalize (StateDiff amount a b) as d. intros d Hd. unfold ApplyToState.
  rewrite (proj1 (Forall_forall _ _) (apply_all d _ all_fields_independent a) f Hf).
  destruct Hd as [[Heq ->]|[Hn Hs]]; [done|]. by rewrite (proj2 (Z.eqb_neq _ 0) Hn).
Qed.

Lemma StateDiff_none amount a b : diff_fields (StateDiff amount a b) = 0 -> a = b.
Proof.
  pose proof (ApplyToState_StateDiff amount a b) as Hab. revert Hab. generalize (StateDiff amount a b) as d. intros d <- Hd.
  unfold ApplyToState. generalize DMN_STATE_DIFF_ALL_FIELDS as fs. intros fs.
  induction fs as [|f fs IH]; [done|]. cbn [foldl]. unfold apply_line at 2. by rewrite Hd, Z.land_0_l.
Qed.

(** ** What [BuildDiff] collects *)

Section RoundTrip.
Context `{PropertyHashSpec}.
Variable nCollaterals : SmartnodeCollaterals.
Variable amount : Z.

Lemma elem_of_ForEachMN l d : d ∈ ForEachMN nCollaterals l false <-> exists h, mnMap l !! h = Some d.
Proof.
  unfold ForEachMN. rewrite list_elem_of_filter, list_elem_of_fmap. split.
  - intros (_ & [h d'] & -> & Hd%elem_of_map_to_list). eauto.
  - intros [h Hd]. split; [done|]. exists (h, d). split; [done|]. by apply elem_of_map_to_list.
Qed.

Lemma same_id l h h' d d' : list_ok l -> mnMap l !! h = Some d -> mnMap l !! h' = Some d' -> internalId d = internalId d' -> h = h' /\ d = d'.
Proof.
  intros Hl H1 H2 Hid. assert (E1 : mnInternalIdMap l !! internalId d = Some h) by (apply (ok_ids _ Hl); eauto).
  assert (E2 : mnInternalIdMap l !! internalId d = Some h') by (apply (ok_ids _ Hl); eauto). split; congruence.
Qed.

Lemma NoDup_ids l : list_ok l -> NoDup (internalId <$> ForEachMN nCollaterals l false).
Proof.
  intros Hl. apply NoDup_fmap_2_strong.
  - intros d d' [h Hd]%elem_of_ForEachMN [h' Hd']%elem_of_ForEachMN Hid. by apply (same_id l h h').
  - unfold ForEachMN. apply NoDup_filter. apply NoDup_fmap_2_strong; [|apply NoDup_map_to_list].
    intros [h d] [h' d'] Hd%elem_of_map_to_list Hd'%elem_of_map_to_list. cbn. intros <-.
    apply (ok_key _ Hl) in Hd as [<- _]. by apply (ok_key _ Hl) in Hd' as [<- _].
Qed.

Lemma diff_to_spec from ds : forall acc, NoDup (internalId <$> ds) -> (forall d, d ∈ ds -> acc.2 !! internalId d = None) ->
  let r := foldl (diff_to amount from) acc ds in
  r.1 = acc.1 ++ filter (fun d => mnMap from !! proTxHash d = None) ds /\
  forall id sd, r.2 !! id = Some sd <-> acc.2 !! id = Some sd \/
    exists d f, d ∈ ds /\ mnMap from !! proTxHash d = Some f /\ id = internalId d /\
      sd = StateDiff amount (pdmnState f) (pdmnState d) /\ diff_fields sd <> 0.
Proof.
  induction ds as [|d ds IH]; intros acc Hnd Hacc r.
  { split; [by rewrite app_nil_r|]. intros id sd. split; [by left|]. by intros [|(? & ? & ?%elem_of_nil & _)]. }
  cbn in Hnd. apply NoDup_cons in Hnd as [Hnin Hnd]. subst r. cbn [foldl].
  set (acc1 := diff_to amount from acc d).
  assert (Hacc1 : forall d', d' ∈ ds -> acc1.2 !! internalId d' = None).
  { intros d' Hd'. assert (Hne : internalId d <> internalId d') by (intros E; apply Hnin; rewrite E; by apply list_elem_of_fmap_2).
    subst acc1. unfold diff_to, GetMN. destruct (mnMap from !! proTxHash d); [|by apply Hacc; right].
    cbv zeta. destruct (_ =? _); [by apply Hacc; right|]. unfold emplace. cbn [snd]. rewrite (Hacc d) by left.
    rewrite lookup_insert_ne by done. by apply Hacc; right. }
  destruct (IH acc1 Hnd Hacc1) as [H1 H2]. split.
  - rewrite H1. subst acc1. unfold diff_to, GetMN. rewrite filter_cons. destruct (mnMap from !! proTxHash d) eqn:E.
    + rewrite decide_False by congruence. cbv zeta. by destruct (_ =? _).
    + rewrite decide_True by done. cbn [fst]. by rewrite <- app_assoc.
  - intros id sd. rewrite H2. clear H1 H2 IH. setoid_rewrite elem_of_cons.
    assert (Hhead : acc1.2 !! id = Some sd <-> acc.2 !! id = Some sd \/
      exists f, mnMap from !! proTxHash d = Some f /\ id = internalId d /\ sd = StateDiff amount (pdmnState f) (pdmnState d) /\ diff_fields sd <> 0).
    { subst acc1. unfold diff_to, GetMN. destruct (mnMap from !! proTxHash d) as [f|] eqn:E; [|split; [by left|by intros [|(? & ? & _)]]].
      cbv zeta. destruct (Z.eqb_spec (diff_fields (StateDiff amount (pdmnState f) (pdmnState d))) 0) as [E0|E0].
      - split; [by left|]. intros [|(f' & [= <-] & -> & -> & ?)]; done.
      - unfold emplace. cbn [snd]. rewrite (Hacc d) by left. destruct (decide (id = internalId d)) as [->|Hne].
        + rewrite lookup_insert_eq, (Hacc d) by left. split; [intros [= <-]; right; eauto|]. intros [|(f' & [= <-] & _ & -> & _)]; done.
        + rewrite lookup_insert_ne by done. split; [by left|]. intros [|(f' & _ & -> & _)]; done. }
    rewrite Hhead. clear. split.
    + intros [[?|(f & ?)]|(d' & f & ? & ?)]; [by left|right; exists d, f; by split; [left|]|right; exists d', f; by split; [right|]].
    + intros [?|(d' & f & [->|?] & ?)]; [left; by left|left; right; by exists f|right; by exists d', f].
Qed.

Lemma diff_from_spec to ds id : forall acc,
  id ∈ foldl (diff_from to) acc ds <-> id ∈ acc \/ exists d, d ∈ ds /\ mnMap to !! proTxHash d = None /\ internalId d = id.
Proof.
  induction ds as [|d ds IH]; intros acc; cbn [foldl].
  { split; [by left|]. by intros [|(? & ?%elem_of_nil & _)]. }
  rewrite IH. setoid_rewrite elem_of_cons. unfold diff_from, GetMN. destruct (mnMap to !! proTxHash d) eqn:E.
  - split; [intros [?|(d' & ? & ?)]; [by left|right; exists d'; by split; [right|]]|].
    intros [?|(d' & [->|?] & ? & ?)]; [by left|congruence|right; by exists d'].
  - rewrite elem_of_union, elem_of_singleton. split.
    + intros [[->|?]|(d' & ? & ?)]; [right; exists d; by split_and!; [left| |]|by left|right; exists d'; by split; [right|]].
    + intros [?|(d' & [->|?] & ? & <-)]; [left; by right|left; by left|right; by exists d'].
Qed.

(** ** Replaying a difference *)

(** A property that [r] and [to] both have belongs to the same node in both. *)
Definition compatible (r to : CDeterministicMNList) : Prop :=
  forall u h h', holds (mnMap r) h u -> holds (mnMap to) h' u -> h = h'.

Lemma same_header_trans l1 l2 l3 : same_header l1 l2 -> same_header l2 l3 -> same_header l1 l3.
Proof. unfold same_header. intuition congruence. Qed.

Lemma GetMNByInternalId_spec l h d : list_ok l -> mnMap l !! h = Some d -> GetMNByInternalId l (internalId d) = Some d.
Proof.
  intros Hl Hd. unfold GetMNByInternalId, GetMN.
  by rewrite (proj2 (ok_ids _ Hl (internalId d) h) (ex_intro _ d (conj Hd eq_refl))).
Qed.

Lemma apply_removed_spec ids : forall r, list_ok r -> NoDup ids ->
  (forall id, id ∈ ids -> exists h d, mnMap r !! h = Some d /\ internalId d = id) ->
  exists r', apply_removed r ids = Some r' /\ list_ok r' /\ same_header r r' /\
    forall h d, mnMap r' !! h = Some d <-> mnMap r !! h = Some d /\ internalId d ∉ ids.
Proof.
  induction ids as [|id ids IH]; intros r Hr Hnd Hall.
  { exists r. split_and!; try done. intros h d. split; [|by intros []]. split; [done|apply not_elem_of_nil]. }
  apply NoDup_cons in Hnd as [Hnin Hnd]. destruct (Hall id) as (h0 & d0 & Hd0 & Hid0); [by left|]. cbn [apply_removed].
  rewrite <- Hid0, (GetMNByInternalId_spec r h0 d0 Hr Hd0). cbn [mbind option_bind]. rewrite (proj1 (ok_key _ Hr _ _ Hd0)).
  destruct (RemoveMN_ok r h0 d0 Hr Hd0) as (r1 & -> & Hr1 & Hmap & Hh1). cbn [mbind option_bind].
  destruct (IH r1 Hr1 Hnd) as (r2 & -> & Hr2 & Hh2 & Hmap2).
  { intros id' Hin. destruct (Hall id') as (h' & d' & Hd' & Hid'); [by right|]. exists h', d'. split; [|done].
    rewrite Hmap, lookup_delete_ne; [done|]. intros <-. assert (d' = d0) by congruence. congruence. }
  exists r2. split_and!; [done|done|by apply (same_header_trans _ r1)| ..]. 
  intros h d. rewrite Hmap2, Hmap, not_elem_of_cons. split.
  - intros [[Hne Hd]%lookup_delete_Some Hni]. split_and!; [done| |done]. intros E.
    apply Hne. by destruct (same_id r h0 h d0 d Hr Hd0 Hd) as [-> _].
  - intros (Hd & Hne & Hni). split; [|done]. apply lookup_delete_Some. split; [|done]. intros <-. congruence.
Qed.

Lemma compatible_step r r' to h d : list_ok to -> mnMap to !! h = Some d -> mnMap r' = <[h := d]> (mnMap r) ->
  compatible r to -> compatible r' to.
Proof.
  intros Hto Hd Hmap Hc u h1 h2. rewrite Hmap. destruct (decide (h1 = h)) as [->|Hne].
  - rewrite holds_at. intros Hp Hh2. apply (index_functional _ _ u _ _ (ok_unique _ Hto)); [by exists d|done].
  - rewrite holds_other by done. apply Hc.
Qed.

Definition ids_below (l : CDeterministicMNList) (n : Z) : Prop :=
  forall h d, mnMap l !! h = Some d -> 0 <= internalId d < n.

Lemma apply_added_spec to ds : list_ok to -> forall r, list_ok r -> compatible r to -> ids_below r (nTotalRegisteredCount r) ->
  0 <= nTotalRegisteredCount r -> nTotalRegisteredCount r + Z.of_nat (length ds) < 2 ^ 32 ->
  internalId <$> ds = seqZ (nTotalRegisteredCount r) (Z.of_nat (length ds)) ->
  (forall d, d ∈ ds -> mnMap to !! proTxHash d = Some d /\ mnMap r !! proTxHash d = None) ->
  exists r', apply_added r ds = Some r' /\ list_ok r' /\ compatible r' to /\
    blockHash r' = blockHash r /\ list_nHeight r' = list_nHeight r /\
    nTotalRegisteredCount r' = nTotalRegisteredCount r + Z.of_nat (length ds) /\
    forall h d, mnMap r' !! h = Some d <-> mnMap r !! h = Some d \/ (d ∈ ds /\ h = proTxHash d).
Proof.
  intros Hto. induction ds as [|d ds IH]; intros r Hr Hc Hb Hpos Hlt Hids Hall.
  { exists r. cbn [length]. rewrite Z.add_0_r. split_and!; try done. intros h d. split; [by left|]. by intros [|[?%elem_of_nil _]]. }
  cbn [length] in Hlt, Hids. rewrite fmap_cons, seqZ_cons in Hids by lia. injection Hids as Hid Hids.
  destruct (Hall d) as [Hd Hn]; [by left|]. cbn [apply_added]. rewrite Hid, Z.eqb_refl. cbn [check mbind option_bind].
  assert (Hfree : mnInternalIdMap r !! internalId d = None).
  { apply eq_None_not_Some. intros [h (d' & Hd' & Heq)%(ok_ids _ Hr)]. apply Hb in Hd'. lia. }
  destruct (AddMN_total r d Hr Hn) as [r1 Hadd]; [apply (ok_key _ Hto _ _ Hd)| |].
  { intros h u Hp Hh. assert (h = proTxHash d) as -> by (apply (Hc u); [done|by exists d]). destruct Hh as (? & ? & _). congruence. }
  destruct (AddMN_ok r d r1 Hr Hfree Hadd) as (_ & _ & _ & Hr1 & Hmap & Hh1 & Hh2 & Hh3). rewrite Hadd. cbn [mbind option_bind].
  rewrite Hh3, u32_id by (unfold is_u32; lia). set (r2 := SetTotalRegisteredCount r1 (nTotalRegisteredCount r + 1)).
  assert (Hr2 : list_ok r2) by (destruct Hr1; by split).
  destruct (IH r2 Hr2) as (r' & -> & Hr' & Hc' & E1 & E2 & E3 & Hmap').
  - by apply (compatible_step r r2 to (proTxHash d) d).
  - intros h d' Hd'. cbn in Hd' |- *. rewrite Hmap in Hd'. destruct (decide (h = proTxHash d)) as [->|Hne].
    + rewrite lookup_insert_eq in Hd'. injection Hd' as <-. lia.
    + rewrite lookup_insert_ne in Hd' by done. apply Hb in Hd'. lia.
  - cbn. lia.
  - cbn. lia.
  - cbn. rewrite Hids. f_equal; lia.
  - intros d' Hd'. destruct (Hall d') as [Ht Hn']; [by right|]. split; [done|]. cbn. rewrite Hmap.
    rewrite lookup_insert_ne; [done|]. intros E. rewrite E in Hd. assert (d' = d) as -> by congruence.
    assert (internalId d ∈ (internalId <$> ds)) as Hin by (by apply list_elem_of_fmap_2). rewrite Hids in Hin. apply elem_of_seqZ in Hin. lia.
  - exists r'. split_and!; [done|done|done|by rewrite E1|by rewrite E2|rewrite E3; cbn; lia|].
    intros h d'. rewrite Hmap'. cbn. rewrite Hmap, elem_of_cons. destruct (decide (h = proTxHash d)) as [->|Hne].
    + rewrite lookup_insert_eq. split; [intros [[= <-]|[? ?]]; [right; split; [by left|done]|right; split; [by right|done]]|].
      intros [?|[[->|?] ?]]; [congruence|by left|by right].
    + rewrite lookup_insert_ne by done. split; [intros [?|[? ?]]; [by left|right; split; [by right|done]]|].
      intros [?|[[->|?] ?]]; [by left|done|by right].
Qed.

Lemma apply_updated_spec to ups : list_ok to -> forall r, list_ok r -> compatible r to -> NoDup ups.*1 ->
  (forall id sd, (id, sd) ∈ ups -> exists h old d, mnMap r !! h = Some old /\ mnMap to !! h = Some d /\ internalId old = id /\
     sd = StateDiff amount (pdmnState old) (pdmnState d) /\ set_pdmnState old (pdmnState d) = d) ->
  exists r', apply_updated r ups = Some r' /\ list_ok r' /\ same_header r r' /\
    (forall h, mnMap r !! h = None -> mnMap r' !! h = None) /\
    forall h old, mnMap r !! h = Some old -> mnMap r' !! h = if decide (internalId old ∈ ups.*1) then mnMap to !! h else Some old.
Proof.
  intros Hto. induction ups as [|[id sd] ups IH]; intros r Hr Hc Hnd Hall.
  { by exists r. }
  rewrite fmap_cons in Hnd. apply NoDup_cons in Hnd as [Hnin Hnd]. destruct (Hall id sd) as (h & old & d & Hold & Hd & Hid & Hsd & Heq); [by left|].
  cbn [apply_updated]. rewrite <- Hid, (GetMNByInternalId_spec r h old Hr Hold). unfold UpdateMN_diff. cbn [mbind option_bind].
  rewrite Hsd, ApplyToState_StateDiff.
  assert (Hfree : update_free r h old (pdmnState d)).
  { intros h' u Hne Hp Hh'. apply Hne. apply (Hc u); [done|]. rewrite Heq in Hp. by exists d. }
  destruct (UpdateMN_total r h old (pdmnState d) Hr Hold Hfree) as [r1 Hup].
  assert (Hown : uprop_null (UKeyID (keyIDOwner (pdmnState d))) = false) by (apply (ok_key _ Hto _ _ Hd)).
  destruct (UpdateMN_ok r h old (pdmnState d) Hr Hold r1 Hup Hown) as (Hr1 & Hmap & Hh1). rewrite Heq in Hmap.
  rewrite Hup. cbn [mbind option_bind].
  destruct (IH r1 Hr1) as (r' & -> & Hr' & Hh' & Hnone & Hmap').
  - by apply (compatible_step r r1 to h d).
  - done.
  - intros id' sd' Hin. destruct (Hall id' sd') as (h' & old' & d' & Hold' & Hrest); [by right|]. exists h', old', d'. split; [|done].
    rewrite Hmap, lookup_insert_ne; [done|]. intros <-. assert (old' = old) as -> by congruence. destruct Hrest as (_ & Hid' & _).
    apply Hnin. rewrite <- Hid, Hid'. by apply (list_elem_of_fmap_2 fst _ (id', sd')).
  - exists r'. split_and!; [done|done|by apply (same_header_trans _ r1)| |].
    { intros h' Hn. apply Hnone. rewrite Hmap, lookup_insert_ne; [done|]. intros <-. congruence. }
    intros h' old' Hold'. rewrite fmap_cons. cbn [fst]. destruct (decide (h' = h)) as [->|Hne].
    + assert (old' = old) as -> by congruence. assert (Hd1 : mnMap r1 !! h = Some d) by (by rewrite Hmap, lookup_insert_eq).
      rewrite (Hmap' h d Hd1), Hd. case_decide as Hin; case_decide as Hin'; try done; destruct Hin'; rewrite Hid; left.
    + rewrite (Hmap' h' old') by (by rewrite Hmap, lookup_insert_ne).
      assert (internalId old' <> id) by (intros E; apply Hne; by destruct (same_id r h' h old' old Hr Hold' Hold) as [-> _]; [congruence|]).
      case_decide as Hin; case_decide as Hin'; try done; [destruct Hin'; by right|]. apply elem_of_cons in Hin' as [E|E]; [congruence|done].
Qed.

(** ** The round trip *)

(** Two lists with the same nodes have the same indexes. *)
Lemma list_determined l1 l2 : list_ok l1 -> list_ok l2 -> mnMap l1 = mnMap l2 -> blockHash l1 = blockHash l2 ->
  list_nHeight l1 = list_nHeight l2 -> nTotalRegisteredCount l1 = nTotalRegisteredCount l2 -> l1 = l2.
Proof.
  intros [_ Hi1 Hu1] [_ Hi2 Hu2] Hm Hb Hh Ht.
  assert (Hids : mnInternalIdMap l1 = mnInternalIdMap l2).
  { apply map_eq. intros id. apply option_eq. intros h. by rewrite (Hi1 id h), (Hi2 id h), Hm. }
  assert (Hun : mnUniquePropertyMap l1 = mnUniquePropertyMap l2).
  { apply map_eq. intros x. apply option_eq. intros e. by rewrite (Hu1 x e), (Hu2 x e), Hm. }
  destruct l1, l2. simpl in *. by subst.
Qed.

(** How the list of a block follows the list of the block before it. *)
Record successor (from to : CDeterministicMNList) : Prop := {
  su_from : list_ok from;
  su_to : list_ok to;
  (* what a registration fixes stays *)
  su_fixed : forall h d d', mnMap from !! h = Some d -> mnMap to !! h = Some d' -> d' = set_pdmnState d (pdmnState d');
  (* the new nodes have the next ids, without a gap *)
  su_below : ids_below from (nTotalRegisteredCount from);
  su_new : forall id, nTotalRegisteredCount from <= id < nTotalRegisteredCount to <->
    exists h d, mnMap to !! h = Some d /\ mnMap from !! h = None /\ internalId d = id;
  su_count : 0 <= nTotalRegisteredCount from <= nTotalRegisteredCount to /\ nTotalRegisteredCount to < 2 ^ 32;
  (* a property only moves away from a node that left *)
  su_moves : forall u h h', holds (mnMap from) h u -> holds (mnMap to) h' u -> h = h' \/ mnMap to !! h = None
}.

Lemma BuildDiff_spec from to : list_ok from -> list_ok to ->
  let diff := BuildDiff nCollaterals amount from to in
  (forall d, d ∈ addedMNs diff <-> exists h, mnMap to !! h = Some d /\ mnMap from !! h = None) /\
  NoDup (internalId <$> addedMNs diff) /\ Sorted by_internalId (addedMNs diff) /\
  (forall id sd, updatedMNs diff !! id = Some sd <-> exists h d f, mnMap to !! h = Some d /\ mnMap from !! h = Some f /\
     id = internalId d /\ sd = StateDiff amount (pdmnState f) (pdmnState d) /\ diff_fields sd <> 0) /\
  (forall id, id ∈ removedMns diff <-> exists h d, mnMap from !! h = Some d /\ mnMap to !! h = None /\ internalId d = id).
Proof.
  intros Hf Ht diff. subst diff. unfold BuildDiff.
  pose proof (diff_to_spec from (ForEachMN nCollaterals to false) ([], ∅) (NoDup_ids to Ht) (fun d _ => lookup_empty _)) as [H1 H2].
  destruct (foldl (diff_to amount from) ([], ∅) (ForEachMN nCollaterals to false)) as [added updated]. cbn [fst snd app] in H1, H2.
  cbn [addedMNs updatedMNs removedMns]. pose proof (merge_sort_Permutation by_internalId added) as Hp.
  split_and!.
  - intros d. rewrite Hp, H1, list_elem_of_filter, elem_of_ForEachMN. split.
    + intros (Hn & h & Hd). exists h. split; [done|]. by rewrite (proj1 (ok_key _ Ht _ _ Hd)) in Hn.
    + intros (h & Hd & Hn). rewrite (proj1 (ok_key _ Ht _ _ Hd)). eauto.
  - rewrite Hp, H1. eapply sublist_NoDup; [apply (NoDup_ids to Ht)|]. apply fmap_sublist, sublist_filter.
  - apply Sorted_merge_sort. intros a b. unfold by_internalId. lia.
  - intros id sd. rewrite H2, lookup_empty. split.
    + intros [|(d & f & [h Hd]%elem_of_ForEachMN & Hff & Hrest)]; [done|]. exists h, d, f. split; [done|].
      by rewrite (proj1 (ok_key _ Ht _ _ Hd)) in Hff.
    + intros (h & d & f & Hd & Hff & Hrest). right. exists d, f. split_and!; try apply Hrest; [apply elem_of_ForEachMN; eauto|].
      by rewrite (proj1 (ok_key _ Ht _ _ Hd)).
  - intros id. rewrite diff_from_spec, elem_of_empty. split.
    + intros [|(d & [h Hd]%elem_of_ForEachMN & Hn & Hid)]; [done|]. exists h, d. split; [done|].
      by rewrite (proj1 (ok_key _ Hf _ _ Hd)) in Hn.
    + intros (h & d & Hd & Hn & Hid). right. exists d. split_and!; [apply elem_of_ForEachMN; eauto| |done].
      by rewrite (proj1 (ok_key _ Hf _ _ Hd)).
Qed.

Lemma Sorted_seqZ n : forall m, Sorted Z.le (seqZ m (Z.of_nat n)).
Proof.
  induction n as [|n IH]; intros m; [constructor|]. rewrite seqZ_cons by lia.
  replace (Z.pred (Z.of_nat (S n))) with (Z.of_nat n) by lia. constructor; [apply IH|].
  destruct n; [constructor|]. rewrite seqZ_cons by lia. constructor. lia.
Qed.

(** The ids of the added nodes, in the order they are added. *)
Lemma added_ids from to : successor from to ->
  let added := addedMNs (BuildDiff nCollaterals amount from to) in
  internalId <$> added = seqZ (nTotalRegisteredCount from) (Z.of_nat (length added)) /\
  Z.of_nat (length added) = nTotalRegisteredCount to - nTotalRegisteredCount from.
Proof.
  intros Hs added. destruct (BuildDiff_spec from to (su_from _ _ Hs) (su_to _ _ Hs)) as (Hadd & Hnd & Hsort & _). fold added in Hadd, Hnd, Hsort.
  pose proof (su_count _ _ Hs) as Hc. set (n := Z.to_nat (nTotalRegisteredCount to - nTotalRegisteredCount from)).
  assert (Hids : internalId <$> added = seqZ (nTotalRegisteredCount from) (Z.of_nat n)).
  { apply (Sorted_unique Z.le); [|apply Sorted_seqZ|].
    - by apply (Sorted_fmap internalId by_internalId).
    - apply NoDup_Permutation; [done|apply NoDup_seqZ|]. intros id. rewrite elem_of_seqZ, list_elem_of_fmap.
      replace (nTotalRegisteredCount from + Z.of_nat n) with (nTotalRegisteredCount to) by lia. rewrite (su_new _ _ Hs id). split.
      + intros (d & -> & (h & ? & ?)%Hadd). eauto.
      + intros (h & d & ? & ? & <-). exists d. split; [done|]. apply Hadd. eauto. }
  assert (Hlen : length added = n) by (rewrite <- (length_fmap internalId), Hids, length_seqZ; lia).
  rewrite Hlen. split; [done|lia].
Qed.

(** After the removals, what is left is compatible with the new list. *)
Lemma removed_compatible from to r : successor from to ->
  (forall h d, mnMap r !! h = Some d <-> mnMap from !! h = Some d /\ mnMap to !! h <> None) -> compatible r to.
Proof.
  intros Hs Hr u h h' (d & Hd & Hp) Hh'. apply Hr in Hd as [Hd Hto].
  destruct (su_moves _ _ Hs u h h') as [|Hn]; [by exists d|done|done|]. by rewrite Hn in Hto.
Qed.

Lemma removed_spec from to hash height : successor from to ->
  exists r, apply_removed (SetHeight (SetBlockHash from hash) height)
      (merge_sort Z.le (elements (removedMns (BuildDiff nCollaterals amount from to)))) = Some r /\
    list_ok r /\ same_header (SetHeight (SetBlockHash from hash) height) r /\
    forall h d, mnMap r !! h = Some d <-> mnMap from !! h = Some d /\ mnMap to !! h <> None.
Proof.
  intros Hs. destruct (BuildDiff_spec from to (su_from _ _ Hs) (su_to _ _ Hs)) as (_ & _ & _ & _ & Hrem).
  set (ids := elements _) in *. pose proof (merge_sort_Permutation Z.le ids) as Hp.
  assert (Hf : list_ok (SetHeight (SetBlockHash from hash) height)) by (destruct (su_from _ _ Hs); by split).
  destruct (apply_removed_spec (merge_sort Z.le ids) _ Hf) as (r & Hr & Hok & Hh & Hmap).
  - rewrite Hp. apply NoDup_elements.
  - intros id. rewrite Hp. unfold ids. rewrite elem_of_elements, Hrem. intros (h & d & ? & _ & ?). eauto.
  - exists r. split_and!; [done|done|done|]. intros h d. rewrite Hmap. cbn. rewrite Hp. subst ids. rewrite elem_of_elements, Hrem.
    split; intros [Hd Hn]; (split; [done|]).
    + intros Hto. apply Hn. eauto.
    + intros (h' & d' & Hd' & Hto & Hid). destruct (same_id from h' h d' d (su_from _ _ Hs) Hd' Hd Hid) as [-> _]. done.
Qed.

(** Replaying the stored difference of a block on the smartnode list of the block
    before it gives back exactly the list of the block: nodes, id index, property index,
    registration count and header, with no assertion failing on the way. *)
Theorem ApplyDiff_BuildDiff from to : successor from to ->
  ApplyDiff from (blockHash to) (list_nHeight to) (BuildDiff nCollaterals amount from to) = Some to.
Proof.
  intros Hs. pose proof (su_from _ _ Hs) as Hf. pose proof (su_to _ _ Hs) as Ht. pose proof (su_count _ _ Hs) as Hcount.
  destruct (BuildDiff_spec from to Hf Ht) as (Hadd & _ & _ & Hupd & _). destruct (added_ids from to Hs) as [Hids Hlen].
  destruct (removed_spec from to (blockHash to) (list_nHeight to) Hs) as (r1 & Hr1 & Hok1 & (Hb1 & Hn1 & Ht1) & Hmap1).
  unfold ApplyDiff. cbv zeta. rewrite Hr1. cbn [mbind option_bind]. cbn in Hb1, Hn1, Ht1. set (diff := BuildDiff _ _ _ _) in *.
  destruct (apply_added_spec to (addedMNs diff) Ht r1 Hok1) as (r2 & -> & Hok2 & Hc2 & Hb2 & Hn2 & Ht2 & Hmap2).
  { by apply (removed_compatible from). }
  { intros h d [Hd _]%Hmap1. rewrite Ht1. by apply (su_below _ _ Hs h). }
  { lia. } { lia. } { by rewrite Ht1. }
  { intros d (h & Hd & Hn)%Hadd. rewrite (proj1 (ok_key _ Ht _ _ Hd)). split; [done|].
    apply eq_None_not_Some. intros [d' [Hd' _]%Hmap1]. congruence. }
  cbn [mbind option_bind]. set (ups := merge_sort by_key _). pose proof (merge_sort_Permutation by_key (map_to_list (updatedMNs diff))) as Hp. fold ups in Hp.
  assert (Hups : forall id sd, (id, sd) ∈ ups <-> updatedMNs diff !! id = Some sd) by (intros; by rewrite Hp, elem_of_map_to_list).
  destruct (apply_updated_spec to ups Ht r2 Hok2 Hc2) as (r3 & -> & Hok3 & (Hb3 & Hn3 & Ht3) & Hnone3 & Hmap3).
  { rewrite Hp. apply NoDup_fst_map_to_list. }
  { intros id sd (h & d & f & Hd & Hf' & -> & -> & _)%Hups%Hupd. pose proof (su_fixed _ _ Hs h f d Hf' Hd) as Hfix.
    exists h, f, d. split_and!; [|done|by rewrite Hfix|done|done]. apply Hmap2. left. apply Hmap1. split; [done|congruence]. }
  f_equal. apply list_determined; [done|done| |congruence|congruence|lia].
  apply map_eq. intros h. destruct (mnMap to !! h) as [d|] eqn:Ed.
  - destruct (mnMap from !! h) as [f|] eqn:Ef.
    + assert (H2 : mnMap r2 !! h = Some f) by (apply Hmap2; left; apply Hmap1; split; [done|congruence]).
      rewrite (Hmap3 h f H2), Ed. case_decide as Hin; [done|]. pose proof (su_fixed _ _ Hs h f d Ef Ed) as Hfix.
      assert (E : pdmnState f = pdmnState d); [|f_equal; rewrite Hfix, <- E; by destruct f].
      apply (StateDiff_none amount). destruct (decide (diff_fields (StateDiff amount (pdmnState f) (pdmnState d)) = 0)) as [|Hne]; [done|].
      destruct Hin. apply (list_elem_of_fmap_2' fst ups (internalId d, StateDiff amount (pdmnState f) (pdmnState d))); [|by rewrite Hfix].
      apply Hups, Hupd. by exists h, d, f.
    + assert (H2 : mnMap r2 !! h = Some d) by (apply Hmap2; right; split; [apply Hadd; eauto|by rewrite (proj1 (ok_key _ Ht _ _ Ed))]).
      rewrite (Hmap3 h d H2), Ed. by case_decide.
  - apply Hnone3, eq_None_not_Some. intros [d Hd]. apply Hmap2 in Hd as [[_ Hd]%Hmap1|[(h' & Hd & _)%Hadd ->]]; [done|].
    rewrite (proj1 (ok_key _ Ht _ _ Hd)) in Ed. congruence.
Qed.
End RoundTrip.

(** *** Three nodes: one leaves, one changes its address, one arrives *)
#[local] Existing Instance Sample.hash.
#[local] Existing Instance Sample.hash_spec.
Module DiffSample.
Definition from : CDeterministicMNList := default (list_new 0 0 0) Sample.three.
Definition moved : CDeterministicMN :=
  let d := Sample.node 5 1 500 in set_pdmnState d (set_addr (set_nLastPaidHeight (pdmnState d) 1001) 55).
Definition to : CDeterministicMNList :=
  default (list_new 0 0 0) (Sample.add [Sample.node 7 0 500; moved; Sample.node 11 3 1001] (list_new 2 1001 4)).
End DiffSample.

Ltac nodes_of Hl H :=
  apply Hl in H as [H <-]; repeat (apply elem_of_cons in H as [->|H]; [|]); [..|by apply elem_of_nil in H].

Lemma sample_successor : successor DiffSample.from DiffSample.to.
Proof.
  destruct (add_new_spec [Sample.node 7 0 500; Sample.node 5 1 500; Sample.node 9 2 400] 1 1000 3 DiffSample.from) as (Hf & Nf & _ & Mf);
    [by apply (bool_decide_unpack _); vm_compute|by vm_compute|].
  destruct (add_new_spec [Sample.node 7 0 500; DiffSample.moved; Sample.node 11 3 1001] 2 1001 4 DiffSample.to) as (Ht & Nt & _ & Mt);
    [by apply (bool_decide_unpack _); vm_compute|by vm_compute|].
  assert (H7 : mnMap DiffSample.from !! 7 <> None /\ mnMap DiffSample.from !! 5 <> None /\ mnMap DiffSample.from !! 11 = None)
    by (clear; split_and!; vm_compute; [discriminate|discriminate|reflexivity]).
  assert (H9 : mnMap DiffSample.to !! 9 = None /\ mnMap DiffSample.to !! 11 = Some (Sample.node 11 3 1001)) by (clear; split; vm_compute; reflexivity).
  revert Hf Nf Mf H7 Ht Nt Mt H9. generalize DiffSample.from as from, DiffSample.to as to.
  intros from to Hf Nf Mf (H7 & H5 & H11) Ht Nt Mt (H9 & H11').
  split; [exact Hf|exact Ht| | | | |]; rewrite ?Nf, ?Nt.
  - intros h d d' Hd Hd'. nodes_of Mf Hd; apply Mt in Hd' as [Hd' Hh]; repeat (apply elem_of_cons in Hd' as [->|Hd']; [try done|]); by apply elem_of_nil in Hd'.
  - intros h d Hd. nodes_of Mf Hd; cbn; lia.
  - intros id. split.
    + intros Hid. exists 11, (Sample.node 11 3 1001). split_and!; [done|done|cbn; lia].
    + intros (h & d & Hd & Hn & <-). nodes_of Mt Hd; [done|done|cbn; lia].
  - lia.
  - intros u h h' (d & Hd & Hs & Hn) (d' & Hd' & Hs' & _). nodes_of Mf Hd; nodes_of Mt Hd'; try (by left); try (by right);
      destruct u; cbn in Hs, Hs'; rewrite <- Hs in Hs'; discriminate.
Qed.

Lemma ApplyDiff_BuildDiff_witness :
  removedMns (BuildDiff Sample.nodes_collaterals 0 DiffSample.from DiffSample.to) = {[2]} /\
  ApplyDiff DiffSample.from 2 1001 (BuildDiff Sample.nodes_collaterals 0 DiffSample.from DiffSample.to) = Some DiffSample.to.
Proof.
  split; [by vm_compute|]. exact (ApplyDiff_BuildDiff Sample.nodes_collaterals 0 DiffSample.from DiffSample.to sample_successor).
Defined.
