(* ===== verification/SmartnodeBlock.v ===== *)
(** How a block changes the smartnode list: [BuildNewListFromBlock], [HandleQuorumCommitment] and
    [DecreasePoSePenalties] of [evo/deterministicmns.cpp]. *)

From stdpp Require Import prelude gmap sorting.
From Stdlib Require Import ZArith Lia.
From S2P Require Import Prelude Transaction Serialize ProTx SmartnodeList SmartnodeDiff.

Open Scope Z_scope.

(** The reasons a block is refused. *)
Inductive dmn_reject :=
  | bad_protx_collateral | bad_protx_dup_addr | bad_protx_dup_key | bad_protx_hash | bad_qc_quorum_hash | failed_dmn_block.

(** [None] is a failed assertion or an access out of bounds; [Some (Err r)] refuses the block. *)
Abbreviation dmn A := (option (result dmn_reject A)) (only parsing).
Definition dret {E A} (a : A) : option (result E A) := Some (Ok a).
Definition dfail {E A} (r : E) : option (result E A) := Some (Err r).
Definition dassert {E A} (o : option A) : option (result E A) := option_map Ok o.
Definition dbind {E A B} (m : option (result E A)) (k : A -> option (result E B)) : option (result E B) :=
  match m with Some (Ok a) => k a | Some (Err r) => Some (Err r) | None => None end.
Declare Scope dmn_scope.
Delimit Scope dmn_scope with dmn.
Notation "'do' x <- m ; k" := (dbind m (fun x => k)) (at level 100, x name, m at level 99, k at level 200, right associativity) : dmn_scope.
Open Scope dmn_scope.

(** What the code reads of the chain and the consensus parameters. *)
Class BlockContext := {
  nCollaterals : SmartnodeCollaterals;
  nSmartnodeMinimumConfirmations : Z;
  SPORK_21_active : bool;
  GetUTXOCoin : COutPoint -> option Z;                (* the value of the coin *)
  llmqs : Z -> option Z;                              (* the [dkgInterval] of a quorum type *)
  GetAncestor : Z -> option Z;                        (* the block hash of an ancestor of [pindexPrev] *)
  GetAllQuorumMembers : Z -> Z -> list Z;             (* of a type and a quorum hash *)
  sha_junk : stream;                                  (* the unset buffer of a hasher *)
  unset_amount : Z                                    (* the unset field of a state *)
}.

Section Block.
Context `{PropertyHash} `{BlockContext}.

(** *** Nodes that get their confirmed hash *)
Definition confirm_one (prevHeight prevHash : Z) (l : CDeterministicMNList) (d : CDeterministicMN) : option CDeterministicMNList :=
  if negb (confirmedHash (pdmnState d) =? 0) then Some l
  else if nSmartnodeMinimumConfirmations <=? prevHeight - nRegisteredHeight (pdmnState d) then
    UpdateMN l (proTxHash d) (UpdateConfirmedHash (pdmnState d) sha_junk (proTxHash d) prevHash)
  else Some l.
Fixpoint confirm_loop (prevHeight prevHash : Z) (l : CDeterministicMNList) (ds : list CDeterministicMN) : option CDeterministicMNList :=
  match ds with
  | [] => Some l
  | d :: ds => l ← confirm_one prevHeight prevHash l d; confirm_loop prevHeight prevHash l ds
  end.

(** *** Penalties *)
Fixpoint decrease_loop (l : CDeterministicMNList) (hs : list Z) : option CDeterministicMNList :=
  match hs with [] => Some l | h :: hs => l ← PoSeDecrease l h; decrease_loop l hs end.
Definition DecreasePoSePenalties (l : CDeterministicMNList) : option CDeterministicMNList :=
  decrease_loop l (proTxHash <$> filter (fun d => (0 <? nPoSePenalty (pdmnState d)) && (nPoSeBanHeight (pdmnState d) =? -1))
                                   (ForEachMN nCollaterals l true)).
Fixpoint punish_loop (l : CDeterministicMNList) (members : list Z) (validMembers : list bool) : option CDeterministicMNList :=
  match members with
  | [] => Some l
  | h :: members =>
      let rest := tail validMembers in
      if negb (HasMN l h) then punish_loop l members rest
      else
        valid ← head validMembers;
        if (valid : bool) then punish_loop l members rest
        else penalty ← CalcPenalty l 66; l ← PoSePunish l h penalty; punish_loop l members rest
  end.
Definition HandleQuorumCommitment (l : CDeterministicMNList) (qc : CFinalCommitment) : option CDeterministicMNList :=
  punish_loop l (GetAllQuorumMembers (fc_llmqType qc) (fc_quorumHash qc)) (fc_validMembers qc).

(** *** The special transactions *)
Definition register (nHeight : Z) (l : CDeterministicMNList) (tx : CTransaction) (p : CProRegTx) : dmn CDeterministicMNList :=
  let id := nTotalRegisteredCount l in
  let l := SetTotalRegisteredCount l (u32 (nTotalRegisteredCount l + 1)) in
  let internal := fst (reg_collateralOutpoint p) =? 0 in
  let outpoint := if internal then (txid tx, snd (reg_collateralOutpoint p)) else reg_collateralOutpoint p in
  let coin := GetUTXOCoin outpoint in
  if negb internal && negb (from_option (isValidCollateral nCollaterals) false coin) then dfail bad_protx_collateral
  else
    do l <- dassert (match GetMNByCollateral l outpoint with Some replaced => RemoveMN l (proTxHash replaced) | None => Some l end);
    if HasUniqueProperty l (UService (reg_addr p)) then dfail bad_protx_dup_addr
    else if HasUniqueProperty l (UKeyID (reg_keyIDOwner p)) || HasUniqueProperty l (UBLS (reg_pubKeyOperator p)) then dfail bad_protx_dup_key
    else
      let s := state_of_ProRegTx unset_amount p in
      let s := set_nRegisteredHeight s nHeight in
      do amount <- dassert (if internal then nValue <$> vout tx !! Z.to_nat (snd (reg_collateralOutpoint p)) else coin);
      let s := set_nCollateralAmount s amount in
      let s := if bool_decide (reg_addr p = CService_null) then set_nPoSeBanHeight s nHeight else s in
      dassert (AddMN l (mkMN (txid tx) id outpoint (reg_nOperatorReward p) s)).

Definition update_service (nHeight : Z) (l : CDeterministicMNList) (p : CProUpServTx) : dmn CDeterministicMNList :=
  do duplicate <- (if HasUniqueProperty l (UService (serv_addr p))
                   then dassert ((fun d => negb (proTxHash d =? serv_proTxHash p)) <$> GetUniquePropertyMN l (UService (serv_addr p)))
                   else dret false);
  if (duplicate : bool) then dfail bad_protx_dup_addr
  else match GetMN l (serv_proTxHash p) with
       | None => dfail bad_protx_hash
       | Some d =>
           let s := pdmnState d in
           let s := set_addr s (serv_addr p) in
           let s := set_scriptOperatorPayout s (serv_scriptOperatorPayout p) in
           let s :=
             if negb (nPoSeBanHeight s =? -1) then
               if BLS_IsValid (pubKeyOperator s) && negb (uprop_null (UKeyID (keyIDVoting s))) && negb (uprop_null (UKeyID (keyIDOwner s))) then
                 let s := set_nPoSePenalty s 0 in
                 let s := set_nPoSeBanHeight s (-1) in
                 set_nPoSeRevivedHeight s nHeight
               else s
             else s in
           dassert (UpdateMN l (serv_proTxHash p) s)
       end.

Definition update_registrar (nHeight : Z) (l : CDeterministicMNList) (p : CProUpRegTx) : dmn CDeterministicMNList :=
  match GetMN l (upreg_proTxHash p) with
  | None => dfail bad_protx_hash
  | Some d =>
      let s := pdmnState d in
      let s := if negb (pubKeyOperator s =? upreg_pubKeyOperator p) then BanIfNotBanned (ResetOperatorFields s) nHeight else s in
      let s := set_pubKeyOperator s (upreg_pubKeyOperator p) in
      let s := set_keyIDVoting s (upreg_keyIDVoting p) in
      let s := set_scriptPayout s (upreg_scriptPayout p) in
      dassert (UpdateMN l (upreg_proTxHash p) s)
  end.

Definition revoke (nHeight : Z) (l : CDeterministicMNList) (p : CProUpRevTx) : dmn CDeterministicMNList :=
  match GetMN l (rev_proTxHash p) with
  | None => dfail bad_protx_hash
  | Some d =>
      let s := BanIfNotBanned (ResetOperatorFields (pdmnState d)) nHeight in
      dassert (UpdateMN l (rev_proTxHash p) (set_nRevocationReason s (rev_nReason p)))
  end.

Definition commit_quorum (l : CDeterministicMNList) (qc : CFinalCommitmentTxPayload) : dmn CDeterministicMNList :=
  if Commitment_IsNull (commitment qc) then dret l
  else match llmqs (fc_llmqType (commitment qc)) with
       | None => dfail failed_dmn_block
       | Some dkgInterval =>
           let quorumHeight := qc_nHeight qc - qc_nHeight qc mod dkgInterval in
           if bool_decide (GetAncestor quorumHeight = Some (fc_quorumHash (commitment qc))) then dassert (HandleQuorumCommitment l (commitment qc))
           else dfail bad_qc_quorum_hash
       end.

Section Transactions.
Context `{SpecialTxs}.

Definition special_tx (nHeight : Z) (l : CDeterministicMNList) (tx : CTransaction) : dmn CDeterministicMNList :=
  if negb (tx_nVersion tx =? 3) then dret l
  else if tx_nType tx =? TRANSACTION_PROVIDER_REGISTER then do p <- dassert (GetProRegTx tx); register nHeight l tx p
  else if tx_nType tx =? TRANSACTION_PROVIDER_UPDATE_SERVICE then do p <- dassert (GetProUpServTx tx); update_service nHeight l p
  else if tx_nType tx =? TRANSACTION_PROVIDER_UPDATE_REGISTRAR then do p <- dassert (GetProUpRegTx tx); update_registrar nHeight l p
  else if tx_nType tx =? TRANSACTION_PROVIDER_UPDATE_REVOKE then do p <- dassert (GetProUpRevTx tx); revoke nHeight l p
  else if tx_nType tx =? TRANSACTION_QUORUM_COMMITMENT then do qc <- dassert (GetQuorumCommitment tx); commit_quorum l qc
  else dret l.
Fixpoint special_txs (nHeight : Z) (l : CDeterministicMNList) (txs : list CTransaction) : dmn CDeterministicMNList :=
  match txs with
  | [] => dret l
  | tx :: txs => do l <- special_tx nHeight l tx; special_txs nHeight l txs
  end.

(** *** Collaterals that are spent *)
Definition spend_one (l : CDeterministicMNList) (txin : CTxIn) : option CDeterministicMNList :=
  match GetMNByCollateral l (prevout txin) with
  | Some d => if bool_decide (collateralOutpoint d = prevout txin) then RemoveMN l (proTxHash d) else Some l
  | None => Some l
  end.
Fixpoint spend_loop (l : CDeterministicMNList) (ins : list CTxIn) : option CDeterministicMNList :=
  match ins with [] => Some l | txin :: ins => l ← spend_one l txin; spend_loop l ins end.

(** *** The payee of the block *)
Definition pay (nHeight : Z) (l : CDeterministicMNList) (payee : option CDeterministicMN) : option CDeterministicMNList :=
  match payee with
  | Some p => match GetMN l (proTxHash p) with
              | Some d => UpdateMN l (proTxHash p) (set_nLastPaidHeight (pdmnState d) nHeight)
              | None => Some l
              end
  | None => Some l
  end.

Definition isDecrease (nHeight : Z) : bool := if SPORK_21_active then nHeight mod 30 =? 0 else nHeight mod 2 =? 0.

(** The list after a block with these transactions (the first is the coinbase) on top of a
    block with this height, hash and list. *)
Definition BuildNewListFromBlock (vtx : list CTransaction) (prevHeight prevHash : Z) (oldList : CDeterministicMNList) : dmn CDeterministicMNList :=
  let nHeight := prevHeight + 1 in
  let newList := SetHeight (SetBlockHash oldList 0) nHeight in
  let payee := GetMNPayee nCollaterals oldList in
  do newList <- dassert (confirm_loop prevHeight prevHash newList (ForEachMN nCollaterals oldList false));
  do newList <- dassert (if isDecrease nHeight then DecreasePoSePenalties newList else Some newList);
  do newList <- special_txs nHeight newList (tail vtx);
  do newList <- dassert (spend_loop newList (concat (vin <$> tail vtx)));
  dassert (pay nHeight newList payee).
End Transactions.
End Block.

(** ** The invariant of the list across a block *)

Section Preserved.
Context `{PropertyHashSpec} `{BlockContext} `{SpecialTxs}.

(** The index invariant, and ids below the registration count. *)
Record list_inv (l : CDeterministicMNList) : Prop := {
  inv_ok : list_ok l;
  inv_below : forall h d, mnMap l !! h = Some d -> 0 <= internalId d < nTotalRegisteredCount l;
  inv_count : 0 <= nTotalRegisteredCount l
}.

(** A node of the later list was in the earlier one, up to its state, or has a new id. *)
Definition kept (l l' : CDeterministicMNList) : Prop := forall h d', mnMap l' !! h = Some d' ->
  (exists d, mnMap l !! h = Some d /\ d' = set_pdmnState d (pdmnState d')) \/ nTotalRegisteredCount l <= internalId d'.

Lemma kept_refl l : kept l l.
Proof. intros h d Hd. left. exists d. by destruct d. Qed.

Lemma kept_trans l1 l2 l3 : nTotalRegisteredCount l1 <= nTotalRegisteredCount l2 -> kept l1 l2 -> kept l2 l3 -> kept l1 l3.
Proof.
  intros Hn H12 H23 h d3 Hd3. destruct (H23 h d3 Hd3) as [(d2 & Hd2 & E2)|]; [|right; lia].
  destruct (H12 h d2 Hd2) as [(d1 & Hd1 & E1)|Hid]; [|right; by rewrite E2].
  left. exists d1. split; [done|]. rewrite E1 in E2. by destruct d1, d3.
Qed.

(** From one list to a later one of the same block. *)
Record advance (l l' : CDeterministicMNList) : Prop := {
  adv_inv : list_inv l';
  adv_hash : blockHash l' = blockHash l;
  adv_height : list_nHeight l' = list_nHeight l;
  adv_count : nTotalRegisteredCount l <= nTotalRegisteredCount l' <= nTotalRegisteredCount l + 1;
  adv_kept : kept l l'
}.

(** A step that registers nobody. *)
Definition advance0 (l l' : CDeterministicMNList) : Prop := list_inv l' /\ same_header l l' /\ kept l l'.

Lemma advance0_refl l : list_inv l -> advance0 l l.
Proof. split; [done|]. split; [done|apply kept_refl]. Qed.

Lemma advance0_trans l1 l2 l3 : advance0 l1 l2 -> advance0 l2 l3 -> advance0 l1 l3.
Proof.
  intros (_ & (? & ? & Ht) & Hk) (? & (? & ? & ?) & Hk'). split; [done|]. split; [by split_and!; congruence|].
  apply (kept_trans _ l2); [lia|done|done].
Qed.

Lemma UpdateMN_inv l h s l' : list_inv l -> UpdateMN l h s = Some l' -> uprop_null (UKeyID (keyIDOwner s)) = false -> advance0 l l'.
Proof.
  intros [Hok Hb Hc]. unfold UpdateMN. destruct (mnMap l !! h) as [old|] eqn:E; [|done]. cbn [mbind option_bind]. intros Hup Hown.
  destruct (UpdateMN_ok l h old s Hok E l' Hup Hown) as (Hok' & Hmap & Hh). split; [|split; [done|]].
  - destruct Hh as (_ & _ & Ht). split; [done| |lia]. intros h' d' Hd. rewrite Ht. rewrite Hmap in Hd. destruct (decide (h' = h)) as [->|Hne].
    + rewrite lookup_insert_eq in Hd. injection Hd as <-. apply (Hb h old E).
    + rewrite lookup_insert_ne in Hd by done. by apply (Hb h').
  - intros h' d' Hd. left. rewrite Hmap in Hd. apply lookup_insert_Some in Hd as [[<- <-]|[_ Hd]]; [by exists old|]. exists d'. by destruct d'.
Qed.

Lemma RemoveMN_inv l h l' : list_inv l -> RemoveMN l h = Some l' -> advance0 l l'.
Proof.
  intros [Hok Hb Hc] Hr. destruct (mnMap l !! h) as [d|] eqn:E; [|unfold RemoveMN, GetMN in Hr; by rewrite E in Hr].
  destruct (RemoveMN_ok l h d Hok E) as (l1 & Hr' & Hok' & Hmap & Hh). assert (l1 = l') as -> by congruence. split; [|split; [done|]].
  - destruct Hh as (_ & _ & Ht). split; [done| |lia]. intros h' d' Hd. rewrite Ht. rewrite Hmap in Hd.
    apply lookup_delete_Some in Hd as [_ Hd]. by apply (Hb h').
  - intros h' d' Hd. left. rewrite Hmap in Hd. apply lookup_delete_Some in Hd as [_ Hd]. exists d'. by destruct d'.
Qed.

(** A node of the list has an owner key. *)
Lemma GetMN_owner l h d : list_inv l -> GetMN l h = Some d -> uprop_null (UKeyID (keyIDOwner (pdmnState d))) = false.
Proof. intros [Hok _ _] Hd. apply (ok_key _ Hok) in Hd. apply Hd. Qed.

(** Every assignment the block makes keeps the owner key. *)
Ltac keep_owner :=
  unfold ResetOperatorFields, BanIfNotBanned, UpdateConfirmedHash; cbv zeta; repeat case_match;
  match goal with |- context [pdmnState ?d] => destruct (pdmnState d); done end.

Lemma confirm_loop_inv ph phash ds : Forall (fun d => uprop_null (UKeyID (keyIDOwner (pdmnState d))) = false) ds ->
  forall l l', list_inv l -> confirm_loop ph phash l ds = Some l' -> advance0 l l'.
Proof.
  induction 1 as [|d ds Hd _ IH]; intros l l' Hl Hc; cbn [confirm_loop] in Hc.
  { injection Hc as <-. by apply advance0_refl. }
  destruct (confirm_one ph phash l d) as [l1|] eqn:E; [|done]. cbn [mbind option_bind] in Hc.
  assert (Hl1 : advance0 l l1).
  { unfold confirm_one in E. destruct (negb _); [injection E as <-; by apply advance0_refl|].
    destruct (_ <=? _); [|injection E as <-; by apply advance0_refl].
    eapply UpdateMN_inv; [done|exact E|]. rewrite <- Hd. f_equal. f_equal. keep_owner. }
  apply (advance0_trans _ l1); [done|]. apply IH; [apply Hl1|done].
Qed.

(** The owner key of a node of the list, through the assignments of a step. *)
Ltac owner_of Hl E := pose proof (GetMN_owner _ _ _ Hl E) as Hown; rewrite <- Hown; f_equal; f_equal; keep_owner.

Lemma PoSeDecrease_inv l h l' : list_inv l -> PoSeDecrease l h = Some l' -> advance0 l l'.
Proof.
  intros Hl. unfold PoSeDecrease. destruct (GetMN l h) as [d|] eqn:E; [|done]. cbn [mbind option_bind]. cbv zeta.
  destruct (check _); [|done]. cbn [mbind option_bind]. intros Hup. eapply UpdateMN_inv; [done|exact Hup|]. owner_of Hl E.
Qed.

Lemma PoSePunish_inv l h n l' : list_inv l -> PoSePunish l h n = Some l' -> advance0 l l'.
Proof.
  intros Hl. unfold PoSePunish. destruct (check _); [|done]. cbn [mbind option_bind].
  destruct (GetMN l h) as [d|] eqn:E; [|done]. cbn [mbind option_bind]. cbv zeta.
  intros Hup. eapply UpdateMN_inv; [done|exact Hup|]. owner_of Hl E.
Qed.

Lemma decrease_loop_inv hs : forall l l', list_inv l -> decrease_loop l hs = Some l' -> advance0 l l'.
Proof.
  induction hs as [|h hs IH]; intros l l' Hl Hd; cbn [decrease_loop] in Hd; [injection Hd as <-; by apply advance0_refl|].
  destruct (PoSeDecrease l h) as [l1|] eqn:E; [|done]. cbn [mbind option_bind] in Hd.
  pose proof (PoSeDecrease_inv l h l1 Hl E) as Hl1. apply (advance0_trans _ l1); [done|]. apply IH; [apply Hl1|done].
Qed.

Lemma punish_loop_inv ms : forall vs l l', list_inv l -> punish_loop l ms vs = Some l' -> advance0 l l'.
Proof.
  induction ms as [|h ms IH]; intros vs l l' Hl Hd; cbn [punish_loop] in Hd; [injection Hd as <-; by apply advance0_refl|].
  cbv zeta in Hd. destruct (negb _); [by apply (IH _ _ _ Hl Hd)|].
  destruct (head vs) as [[]|]; cbn [mbind option_bind] in Hd; [by apply (IH _ _ _ Hl Hd)| |done].
  destruct (CalcPenalty l 66) as [n|]; [|done]. cbn [mbind option_bind] in Hd.
  destruct (PoSePunish l h n) as [l1|] eqn:E; [|done]. cbn [mbind option_bind] in Hd.
  pose proof (PoSePunish_inv l h n l1 Hl E) as Hl1. apply (advance0_trans _ l1); [done|]. apply (IH _ _ _ (proj1 Hl1) Hd).
Qed.

Lemma spend_loop_inv ins : forall l l', list_inv l -> spend_loop l ins = Some l' -> advance0 l l'.
Proof.
  induction ins as [|i ins IH]; intros l l' Hl Hd; cbn [spend_loop] in Hd; [injection Hd as <-; by apply advance0_refl|].
  destruct (spend_one l i) as [l1|] eqn:E; [|done]. cbn [mbind option_bind] in Hd.
  assert (Hl1 : advance0 l l1).
  { unfold spend_one in E. destruct (GetMNByCollateral _ _) as [d|]; [|injection E as <-; by apply advance0_refl].
    destruct (bool_decide _); [by eapply RemoveMN_inv|injection E as <-; by apply advance0_refl]. }
  apply (advance0_trans _ l1); [done|]. apply IH; [apply Hl1|done].
Qed.

Lemma pay_inv n l p l' : list_inv l -> pay n l p = Some l' -> advance0 l l'.
Proof.
  intros Hl. unfold pay. destruct p as [d|]; [|intros [= <-]; by apply advance0_refl].
  destruct (GetMN l (proTxHash d)) as [d'|] eqn:E; [|intros [= <-]; by apply advance0_refl].
  intros Hup. eapply UpdateMN_inv; [done|exact Hup|]. owner_of Hl E.
Qed.

Lemma advance0_advance l l' : advance0 l l' -> advance l l'.
Proof. intros [Hi [(? & ? & ?) ?]]. split; [done|done|done|lia|done]. Qed.

Lemma register_inv n l tx p l' : list_inv l -> nTotalRegisteredCount l + 1 < 2 ^ 32 -> register n l tx p = Some (Ok l') -> advance l l'.
Proof.
  intros Hl Hlt. pose proof (inv_count _ Hl) as Hc. unfold register. cbv zeta. rewrite u32_id by (unfold is_u32; lia).
  set (l1 := SetTotalRegisteredCount l _).
  assert (Hl1 : list_inv l1).
  { destruct Hl as [[Hk Hi Hu] Hb _]. split; [by split| |cbn; lia]. intros h d Hd. cbn. apply Hb in Hd. lia. }
  destruct (_ && _); [done|].
  destruct (match GetMNByCollateral l1 _ with Some r => RemoveMN l1 (proTxHash r) | None => Some l1 end) as [l2|] eqn:E; [|done].
  cbn [dassert option_map dbind].
  assert (Hl2 : advance0 l1 l2) by (destruct (GetMNByCollateral _ _); [by eapply RemoveMN_inv|injection E as <-; by apply advance0_refl]).
  destruct (HasUniqueProperty l2 (UService _)); [done|]. destruct (_ || _); [done|].
  match goal with |- context [dassert ?o] => destruct o as [amount|] end; [|done]. cbn [dassert option_map dbind].
  match goal with |- context [AddMN l2 ?d] => destruct (AddMN l2 d) as [l3|] eqn:E3 end; [|done]. cbn [dassert option_map].
  intros [= <-]. destruct Hl2 as [Hl2 [(Hh1 & Hh2 & Hh3) Hkept]].
  assert (Hfree : mnInternalIdMap l2 !! nTotalRegisteredCount l = None).
  { apply eq_None_not_Some. intros [h (d & Hd & Hid)%(ok_ids _ (inv_ok _ Hl2))].
    assert (Hd' : mnMap l !! h = Some d).
    { destruct (GetMNByCollateral l1 _) as [r|]; [|by injection E as <-]. destruct (mnMap l1 !! proTxHash r) as [dr|] eqn:Er.
      - destruct (RemoveMN_ok l1 _ dr (inv_ok _ Hl1) Er) as (l2' & Hr & _ & Hmap & _). assert (l2' = l2) as -> by congruence.
        rewrite Hmap in Hd. by apply lookup_delete_Some in Hd as [_ Hd].
      - unfold RemoveMN, GetMN in E. by rewrite Er in E. }
    apply (inv_below _ Hl) in Hd'. lia. }
  match type of E3 with AddMN _ ?d = _ => destruct (AddMN_ok l2 d l3 (inv_ok _ Hl2) Hfree E3) as (_ & _ & _ & Hok3 & Hmap3 & (Ha & Hb & Hd)) end.
  cbn in Hh1, Hh2, Hh3, Ha, Hb, Hd. split; [|congruence|congruence|lia|].
  2: { intros h d Hlk. rewrite Hmap3 in Hlk. apply lookup_insert_Some in Hlk as [[_ <-]|[_ Hlk]]; [right; cbn; lia|].
    destruct (Hkept h d Hlk) as [Hd0|Hid]; [by left|right; cbn in Hid; lia]. }
  split; [done| |lia]. intros h d Hlk. rewrite Hmap3 in Hlk. rewrite Hd, Hh3. apply lookup_insert_Some in Hlk as [[_ <-]|[_ Hlk]]; [cbn; lia|].
  apply (inv_below _ Hl2) in Hlk. lia.
Qed.

Lemma update_service_inv n l p l' : list_inv l -> update_service n l p = Some (Ok l') -> advance0 l l'.
Proof.
  intros Hl. unfold update_service. match goal with |- context [dbind ?m _] => destruct m as [[[]|]|] end; try done. cbn [dbind].
  destruct (GetMN l (serv_proTxHash p)) as [d|] eqn:E; [|done]. cbv zeta.
  match goal with |- context [UpdateMN l _ ?s] => destruct (UpdateMN l (serv_proTxHash p) s) as [l1|] eqn:Hup end; [|done].
  intros [= <-]. eapply UpdateMN_inv; [done|exact Hup|]. owner_of Hl E.
Qed.

Lemma update_registrar_inv n l p l' : list_inv l -> update_registrar n l p = Some (Ok l') -> advance0 l l'.
Proof.
  intros Hl. unfold update_registrar. destruct (GetMN l (upreg_proTxHash p)) as [d|] eqn:E; [|done]. cbv zeta.
  match goal with |- context [UpdateMN l _ ?s] => destruct (UpdateMN l (upreg_proTxHash p) s) as [l1|] eqn:Hup end; [|done].
  intros [= <-]. eapply UpdateMN_inv; [done|exact Hup|]. owner_of Hl E.
Qed.

Lemma revoke_inv n l p l' : list_inv l -> revoke n l p = Some (Ok l') -> advance0 l l'.
Proof.
  intros Hl. unfold revoke. destruct (GetMN l (rev_proTxHash p)) as [d|] eqn:E; [|done]. cbv zeta.
  match goal with |- context [UpdateMN l _ ?s] => destruct (UpdateMN l (rev_proTxHash p) s) as [l1|] eqn:Hup end; [|done].
  intros [= <-]. eapply UpdateMN_inv; [done|exact Hup|]. owner_of Hl E.
Qed.

Lemma commit_quorum_inv l qc l' : list_inv l -> commit_quorum l qc = Some (Ok l') -> advance0 l l'.
Proof.
  intros Hl. unfold commit_quorum. destruct (Commitment_IsNull _); [intros [= <-]; by apply advance0_refl|].
  destruct (llmqs _); [|done]. cbv zeta. destruct (bool_decide _); [|done]. unfold HandleQuorumCommitment.
  destruct (punish_loop _ _ _) as [l1|] eqn:E; [|done]. intros [= <-]. by eapply punish_loop_inv.
Qed.

Lemma special_tx_inv n l tx l' : list_inv l -> nTotalRegisteredCount l + 1 < 2 ^ 32 -> special_tx n l tx = Some (Ok l') -> advance l l'.
Proof.
  intros Hl Hlt. unfold special_tx. destruct (negb _); [intros [= <-]; by apply advance0_advance, advance0_refl|].
  destruct (_ =? _); [destruct (GetProRegTx tx) as [p|]; [by apply register_inv|done]|].
  destruct (_ =? _); [destruct (GetProUpServTx tx) as [p|]; [intros Hs; exact (advance0_advance _ _ (update_service_inv _ _ _ _ Hl Hs))|done]|].
  destruct (_ =? _); [destruct (GetProUpRegTx tx) as [p|]; [intros Hs; exact (advance0_advance _ _ (update_registrar_inv _ _ _ _ Hl Hs))|done]|].
  destruct (_ =? _); [destruct (GetProUpRevTx tx) as [p|]; [intros Hs; exact (advance0_advance _ _ (revoke_inv _ _ _ _ Hl Hs))|done]|].
  destruct (_ =? _); [destruct (GetQuorumCommitment tx) as [p|]; [intros Hs; exact (advance0_advance _ _ (commit_quorum_inv _ _ _ Hl Hs))|done]|].
  intros [= <-]. by apply advance0_advance, advance0_refl.
Qed.

Lemma special_txs_inv n txs : forall l l', list_inv l -> nTotalRegisteredCount l + Z.of_nat (length txs) < 2 ^ 32 ->
  special_txs n l txs = Some (Ok l') ->
  list_inv l' /\ blockHash l' = blockHash l /\ list_nHeight l' = list_nHeight l /\ nTotalRegisteredCount l <= nTotalRegisteredCount l' /\ kept l l'.
Proof.
  induction txs as [|tx txs IH]; intros l l' Hl Hlt Hs; cbn [special_txs] in Hs; [injection Hs as <-; split_and!; [done..|lia|apply kept_refl]|].
  cbn [length] in Hlt. destruct (special_tx n l tx) as [[l1|]|] eqn:E; [|done|done]. cbn [dbind] in Hs.
  destruct (special_tx_inv n l tx l1 Hl ltac:(lia) E) as [Hl1 Hb Hh Hc Hk].
  destruct (IH l1 l' Hl1 ltac:(lia) Hs) as (Hl' & Hb' & Hh' & Hn' & Hk'). split_and!; [done|congruence|congruence|lia|].
  apply (kept_trans _ l1); [lia|done|done].
Qed.

Lemma GetUniquePropertyMN_spec l u d : list_ok l -> GetUniquePropertyMN l u = Some d <-> exists h, mnMap l !! h = Some d /\ has_prop d u.
Proof.
  intros Hl. unfold GetUniquePropertyMN, GetMN. split.
  - destruct (mnUniquePropertyMap l !! SerializeHash u) as [[h n]|] eqn:E; [|done]. cbn [mbind option_bind fst]. intros Hd.
    destruct (index_Some _ _ _ _ _ (ok_unique _ Hl) E) as [_ (d' & Hd' & Hp)]. assert (d' = d) as -> by congruence. eauto.
  - intros (h & Hd & Hp). rewrite (index_lookup _ _ u h (ok_unique _ Hl)) by (by exists d). done.
Qed.

(** The list a block leaves. *)
Lemma BuildNewListFromBlock_kept vtx prevHeight prevHash old new : list_inv old ->
  nTotalRegisteredCount old + Z.of_nat (length vtx) < 2 ^ 32 ->
  BuildNewListFromBlock vtx prevHeight prevHash old = Some (Ok new) ->
  list_inv new /\ list_nHeight new = prevHeight + 1 /\ nTotalRegisteredCount old <= nTotalRegisteredCount new /\ kept old new.
Proof.
  intros Hold Hlt. unfold BuildNewListFromBlock. cbv zeta. set (l0 := SetHeight _ _).
  assert (Hl0 : list_inv l0) by (destruct Hold as [[] ? ?]; split; [by split|done|done]).
  assert (Hlt0 : nTotalRegisteredCount l0 + Z.of_nat (length (tail vtx)) < 2 ^ 32) by (destruct vtx; cbn in *; lia).
  destruct (confirm_loop _ _ l0 _) as [l1|] eqn:E1; [|done]. cbn [dassert option_map dbind].
  assert (Hl1 : advance0 l0 l1).
  { apply (confirm_loop_inv _ _ _) in E1; [done| |done]. apply Forall_forall. intros d Hd.
    unfold ForEachMN in Hd. apply list_elem_of_filter in Hd as [_ ([h d'] & -> & Hd%elem_of_map_to_list)%list_elem_of_fmap].
    by apply (GetMN_owner old h). }
  match goal with |- context [dassert ?o] => destruct o as [l2|] eqn:E2 end; [|done]. cbn [dassert option_map dbind].
  assert (Hl2 : advance0 l1 l2).
  { destruct (isDecrease _); [by apply decrease_loop_inv in E2; [|apply Hl1]|]. injection E2 as <-. apply advance0_refl, Hl1. }
  destruct (advance0_trans _ _ _ Hl1 Hl2) as (Hi2 & (Hb2 & Hh2 & Ht2) & Hk2).
  destruct (special_txs _ l2 _) as [[l3|]|] eqn:E3; [|done|done]. cbn [dbind].
  destruct (special_txs_inv (prevHeight + 1) (tail vtx) l2 l3 Hi2) as (Hi3 & Hb3 & Hh3 & Hn3 & Hk3); [by rewrite Ht2|exact E3|].
  destruct (spend_loop l3 _) as [l4|] eqn:E4; [|done]. cbn [dassert option_map dbind].
  pose proof (spend_loop_inv _ _ _ Hi3 E4) as Hl4. destruct (pay _ l4 _) as [l5|] eqn:E5; [|done]. cbn [dassert option_map].
  intros [= <-]. destruct (advance0_trans _ _ _ Hl4 (pay_inv _ _ _ _ (proj1 Hl4) E5)) as (Hi5 & (Hb5 & Hh5 & Ht5) & Hk5).
  cbn in Hh2, Ht2. split_and!; [done|congruence|lia|].
  apply (kept_trans _ l2); [lia|exact Hk2|]. apply (kept_trans _ l3); [lia|done|done].
Qed.

(** C2. Whatever the transactions of a block, when the block is not refused the new
    smartnode list is well formed if the old one was: every node is indexed by exactly its own
    id and properties, so that no two nodes share a collateral, an address, an owner key or an
    operator key, and a lookup by a property finds the node that has it. *)
Theorem BuildNewListFromBlock_inv vtx prevHeight prevHash old new : list_inv old ->
  nTotalRegisteredCount old + Z.of_nat (length vtx) < 2 ^ 32 ->
  BuildNewListFromBlock vtx prevHeight prevHash old = Some (Ok new) ->
  list_inv new /\ list_nHeight new = prevHeight + 1 /\
  (forall u h1 h2 d1 d2, mnMap new !! h1 = Some d1 -> mnMap new !! h2 = Some d2 -> has_prop d1 u -> has_prop d2 u -> h1 = h2) /\
  (forall u d, GetUniquePropertyMN new u = Some d <-> exists h, mnMap new !! h = Some d /\ has_prop d u).
Proof.
  intros Hold Hlt Hb. destruct (BuildNewListFromBlock_kept vtx prevHeight prevHash old new Hold Hlt Hb) as (Hi5 & Hh & _ & _).
  split; [done|]. split; [done|]. split.
  - intros u h1 h2 d1 d2 H1' H2' P1 P2. apply (index_functional _ _ u _ _ (ok_unique _ (inv_ok _ Hi5))); [by exists d1|by exists d2].
  - intros u d. apply GetUniquePropertyMN_spec, Hi5.
Qed.

(** Two registrars give the same operator key to two nodes in one block: the second transaction
    runs into the assertion of [AddUniqueProperty], whatever else the transactions say. *)
Theorem duplicate_operator_key_aborts n l tx1 tx2 p1 p2 l1 : list_inv l ->
  tx_nVersion tx1 = 3 -> tx_nType tx1 = TRANSACTION_PROVIDER_UPDATE_REGISTRAR -> GetProUpRegTx tx1 = Some p1 ->
  tx_nVersion tx2 = 3 -> tx_nType tx2 = TRANSACTION_PROVIDER_UPDATE_REGISTRAR -> GetProUpRegTx tx2 = Some p2 ->
  upreg_proTxHash p1 <> upreg_proTxHash p2 -> upreg_pubKeyOperator p1 = upreg_pubKeyOperator p2 ->
  BLS_IsValid (upreg_pubKeyOperator p1) = true -> is_Some (GetMN l (upreg_proTxHash p2)) ->
  special_tx n l tx1 = Some (Ok l1) -> special_txs n l [tx1; tx2] = None.
Proof.
  intros Hl V1 T1 G1 V2 T2 G2 Hne Hkey Hvalid [d2 Hd2] Htx1. cbn [special_txs]. rewrite Htx1. cbn [dbind].
  unfold special_tx in Htx1. rewrite V1, T1, G1 in Htx1. cbn in Htx1. unfold special_tx. rewrite V2, T2, G2. cbn.
  unfold update_registrar in *. destruct (GetMN l (upreg_proTxHash p1)) as [d1|] eqn:E1; [|done]. cbv zeta in Htx1.
  unfold GetMN in *.
  match type of Htx1 with context [UpdateMN l _ ?s] => set (s1 := s) in * end. unfold UpdateMN in Htx1. rewrite E1 in Htx1. cbn [mbind option_bind] in Htx1.
  destruct (UpdateMN_dmn l d1 s1) as [l1'|] eqn:Hup; [|done]. injection Htx1 as ->.
  assert (Hown : uprop_null (UKeyID (keyIDOwner s1)) = false) by (subst s1; owner_of Hl E1).
  destruct (UpdateMN_ok l _ d1 s1 (inv_ok _ Hl) E1 l1 Hup Hown) as (Hok1 & Hmap1 & _).
  assert (Hd2' : mnMap l1 !! upreg_proTxHash p2 = Some d2) by (by rewrite Hmap1, lookup_insert_ne).
  rewrite Hd2'. cbv zeta. unfold UpdateMN. rewrite Hd2'. cbn [mbind option_bind].
  match goal with |- context [UpdateMN_dmn l1 d2 ?s] => set (s2 := s) in *; destruct (UpdateMN_dmn l1 d2 s2) as [l2|] eqn:Hup2 end; [|done]. exfalso.
  destruct (UpdateMN_free l1 _ d2 s2 Hok1 Hd2' l2 Hup2) as [Hfree _].
  assert (Hn : uprop_null (UBLS (upreg_pubKeyOperator p1)) = false) by (rewrite BLS_IsValid_null in Hvalid; by destruct (uprop_null _)).
  assert (K1 : pubKeyOperator s1 = upreg_pubKeyOperator p1) by (subst s1; keep_owner).
  assert (K2 : pubKeyOperator s2 = upreg_pubKeyOperator p1) by (rewrite Hkey; subst s2; keep_owner).
  apply (Hfree (upreg_proTxHash p1) (UBLS (upreg_pubKeyOperator p1)) Hne).
  - split; [cbn; by rewrite K2|done].
  - rewrite Hmap1. apply holds_at. split; [cbn; by rewrite K1|done].
Qed.
End Preserved.

(** *** A block with a registration and a spent collateral, and one that shows a gap in the ids *)

#[local] Existing Instance Sample.hash.
#[local] Existing Instance Sample.hash_spec.
Module BlockSample.
#[export] Instance ctx : BlockContext := {|
  nCollaterals := Sample.nodes_collaterals;
  nSmartnodeMinimumConfirmations := 15;
  SPORK_21_active := false;
  GetUTXOCoin := fun o => if bool_decide (o = (77, 1)) then Some (65000 * 100000000) else None;
  llmqs := fun _ => None;
  GetAncestor := fun _ => None;
  GetAllQuorumMembers := fun _ _ => [];
  sha_junk := replicate 64 0;
  unset_amount := 0
|}.
(** A registration pays to, and takes its keys from, the bytes of the payload: the collateral and the number of the keys. *)
Definition registration (payload : list Z) : option CProRegTx :=
  match payload with
  | [h; n; key] => Some (mkProReg 1 0 0 (h, n) key [key] key [key] 0 [] 0 [])
  | _ => None
  end.
#[export] Instance txs : SpecialTxs := {|
  GetProRegTx := fun tx => registration (vExtraPayload tx);
  GetProUpServTx := fun _ => None; GetProUpRegTx := fun _ => None;
  GetProUpRevTx := fun _ => None; GetQuorumCommitment := fun _ => None
|}.
Definition three : CDeterministicMNList := default (list_new 0 0 0) Sample.three.
Definition coinbase : CTransaction := mkTx 1 1 0 [] [] 0 [].
Definition reg (h : Z) (payload : list Z) : CTransaction :=
  mkTx h 3 TRANSACTION_PROVIDER_REGISTER [] [mkTxOut (65000 * 100000000) [] 0] 0 payload.
Definition spend (h : Z) (o : COutPoint) : CTransaction := mkTx h 1 0 [mkTxIn o [] 0 []] [] 0 [].

(** Node 11 arrives with the collateral in its own transaction, node 9 leaves. *)
Definition vtx : list CTransaction := [coinbase; reg 11 [0; 0; 11]; spend 12 (9, 0)].
Definition after : dmn CDeterministicMNList := BuildNewListFromBlock vtx 1000 1 three.
Definition new : CDeterministicMNList := match after with Some (Ok l) => l | _ => list_new 0 0 0 end.

(** Nodes 21 and 22 are registered on the same collateral: the second replaces the first. *)
Definition gap_vtx : list CTransaction := [coinbase; reg 21 [77; 1; 21]; reg 22 [77; 1; 22]].
Definition gap : CDeterministicMNList :=
  match BuildNewListFromBlock gap_vtx 1000 1 three with Some (Ok l) => l | _ => list_new 0 0 0 end.
End BlockSample.

Lemma sample_inv : list_inv BlockSample.three.
Proof.
  destruct (add_new_spec [Sample.node 7 0 500; Sample.node 5 1 500; Sample.node 9 2 400] 1 1000 3 BlockSample.three) as (Hf & Nf & _ & Mf);
    [by apply (bool_decide_unpack _); vm_compute|by vm_compute|].
  revert Hf Nf Mf. generalize BlockSample.three as l. intros l Hf Nf Mf. split; [done| |lia].
  intros h d [Hd _]%Mf. rewrite Nf. repeat (apply elem_of_cons in Hd as [->|Hd]; [cbn; lia|]). by apply elem_of_nil in Hd.
Qed.

Lemma BuildNewListFromBlock_inv_witness :
  dom (mnMap BlockSample.new) = ({[5; 7; 11]} : gset Z) /\ list_inv BlockSample.new /\ list_nHeight BlockSample.new = 1001.
Proof.
  split; [by vm_compute|].
  destruct (@BuildNewListFromBlock_inv _ _ BlockSample.ctx BlockSample.txs BlockSample.vtx 1000 1 BlockSample.three BlockSample.new sample_inv) as (? & ? & _);
    [by vm_compute|by vm_compute|split; assumption].
Defined.

(** Two registrations with one collateral in a block: the block is accepted, the second node replaces the first,
    and the id of the first is skipped. The difference that is stored then cannot be applied: the assertion on the
    ids in [ApplyDiff] fails. *)
Theorem replaced_registration_breaks_diff :
  @BuildNewListFromBlock _ BlockSample.ctx BlockSample.txs BlockSample.gap_vtx 1000 1 BlockSample.three = Some (Ok BlockSample.gap) /\
  internalId <$> mnMap BlockSample.gap !! 22 = Some 4 /\ nTotalRegisteredCount BlockSample.three = 3 /\
  ApplyDiff BlockSample.three 2 1001 (BuildDiff Sample.nodes_collaterals 0 BlockSample.three BlockSample.gap) = None.
Proof. split_and!; vm_compute; reflexivity. Qed.
