(* ===== verification/SmartnodePayee.v ===== *)
(** Which smartnode a block pays ([CompareByLastPaid] and [GetMNPayee] of [evo/deterministicmns.cpp]): the
    choice does not depend on the order of the map, and in a quiet chain every valid node is paid within
    one round. *)

From stdpp Require Import prelude gmap sorting.
From Stdlib Require Import ZArith Lia.
From S2P Require Import Prelude Transaction Serialize ProTx SmartnodeList SmartnodeDiff SmartnodeBlock.

Open Scope Z_scope.

(** ** The order of the payment queue *)

(** The height and then the bytes of the hash. *)
Definition sort_key (d : CDeterministicMN) : list Z := CompareByLastPaid_GetHeight d :: le_bytes 32 (proTxHash d).

Lemma CompareByLastPaid_key a b : CompareByLastPaid a b = memcmp_lt (sort_key a) (sort_key b).
Proof. done. Qed.

Lemma length_sort_key d : length (sort_key d) = 33%nat.
Proof. unfold sort_key. cbn [length]. by rewrite length_le_bytes. Qed.

Lemma compare_trans a b c : CompareByLastPaid a b = true -> CompareByLastPaid b c = true -> CompareByLastPaid a c = true.
Proof. rewrite !CompareByLastPaid_key. apply memcmp_lt_trans. Qed.

Lemma compare_cases a b c : CompareByLastPaid a c = true -> CompareByLastPaid a b = true \/ CompareByLastPaid b c = true.
Proof.
  rewrite !CompareByLastPaid_key. intros Hac.
  destruct (memcmp_lt_total (sort_key a) (sort_key b)) as [E|[?|Hba]]; [by rewrite !length_sort_key|right; by rewrite <- E|by left|].
  right. by apply (memcmp_lt_trans _ (sort_key a)).
Qed.

Definition best_of : option CDeterministicMN -> CDeterministicMN -> option CDeterministicMN :=
  fun best d => match best with None => Some d | Some b => if CompareByLastPaid d b then Some d else Some b end.

Lemma best_fold ds : forall b0, exists b, foldl best_of (Some b0) ds = Some b /\ (b = b0 \/ b ∈ ds) /\
  forall d, d = b0 \/ d ∈ ds -> CompareByLastPaid d b = false.
Proof.
  induction ds as [|d ds IH]; intros b0; cbn [foldl].
  { exists b0. split_and!; [done|by left|]. intros d [->|?%elem_of_nil]; [|done]. rewrite CompareByLastPaid_key. apply memcmp_lt_irrefl. }
  cbn [best_of]. destruct (CompareByLastPaid d b0) eqn:E.
  - destruct (IH d) as (b & -> & Hb & Hmin). exists b. split_and!; [done|right; destruct Hb as [->|]; [by left|by right]|].
    intros d' [->|[->|Hd']%elem_of_cons]; [|apply Hmin; by left|apply Hmin; by right].
    destruct (CompareByLastPaid b0 b) eqn:E'; [|done]. assert (CompareByLastPaid d b = true) as Hdb by (by apply (compare_trans _ b0)).
    rewrite (Hmin d) in Hdb; [done|by left].
  - destruct (IH b0) as (b & -> & Hb & Hmin). exists b. split_and!; [done|destruct Hb as [->|]; [by left|right; by right]|].
    intros d' [->|[->|Hd']%elem_of_cons]; [apply Hmin; by left| |apply Hmin; by right].
    destruct (CompareByLastPaid d b) eqn:E'; [|done]. destruct (compare_cases d b0 b E') as [|H2]; [congruence|].
    rewrite (Hmin b0) in H2; [done|by left].
Qed.

(** ** The payee *)

Section Payee.
Context `{PropertyHashSpec} `{BlockContext} `{SpecialTxs}.

(** Registration hashes are 256-bit numbers. *)
Definition hashes_ok (l : CDeterministicMNList) : Prop := forall h d, mnMap l !! h = Some d -> 0 <= h < 2 ^ 256.

Lemma elem_of_valid l d : d ∈ ForEachMN nCollaterals l true <-> (exists h, mnMap l !! h = Some d) /\ IsMNValid nCollaterals l d = true.
Proof.
  unfold ForEachMN. rewrite list_elem_of_filter, list_elem_of_fmap. cbn [negb orb]. split.
  - intros (Hv & [h d'] & -> & Hd%elem_of_map_to_list). split; [eauto|by apply Is_true_true].
  - intros [[h Hd] Hv]. split; [by apply Is_true_true|]. exists (h, d). split; [done|]. by apply elem_of_map_to_list.
Qed.

Lemma compare_distinct l h h' d d' : list_ok l -> hashes_ok l -> mnMap l !! h = Some d -> mnMap l !! h' = Some d' -> h <> h' ->
  CompareByLastPaid d' d = false -> CompareByLastPaid d d' = true.
Proof.
  intros Hl Hr Hd Hd' Hne Hc. rewrite !CompareByLastPaid_key in *.
  destruct (memcmp_lt_total (sort_key d) (sort_key d')) as [E|[?|?]]; [by rewrite !length_sort_key| |done|congruence].
  exfalso. apply Hne. apply (f_equal (fun k => le_value (tail k))) in E. unfold sort_key in E. cbn [tail] in E.
  rewrite (proj1 (ok_key _ Hl _ _ Hd)), (proj1 (ok_key _ Hl _ _ Hd')), !le_value_bytes in E; [done|by apply (Hr _ _ Hd')|by apply (Hr _ _ Hd)].
Qed.

(** The payee comes first in the queue of the valid nodes. *)
Lemma GetMNPayee_first l p : list_ok l -> hashes_ok l -> GetMNPayee nCollaterals l = Some p ->
  mnMap l !! proTxHash p = Some p /\ IsMNValid nCollaterals l p = true /\
  forall h d, mnMap l !! h = Some d -> IsMNValid nCollaterals l d = true -> h <> proTxHash p -> CompareByLastPaid p d = true.
Proof.
  intros Hl Hr. unfold GetMNPayee. destruct (_ <=? _); [done|]. fold best_of.
  destruct (ForEachMN nCollaterals l true) as [|d0 ds] eqn:E; [done|]. cbn [foldl best_of].
  destruct (best_fold ds d0) as (b & -> & Hb & Hmin). intros [= <-].
  assert (Hin : b ∈ ForEachMN nCollaterals l true) by (rewrite E; destruct Hb as [->|]; [by left|by right]).
  apply elem_of_valid in Hin as [[h Hd] Hv]. pose proof (proj1 (ok_key _ Hl _ _ Hd)) as Hh. rewrite Hh. split_and!; [done|done|].
  intros h' d' Hd' Hv' Hne. apply (compare_distinct l h h'); try done. apply Hmin.
  assert (Hin : d' ∈ ForEachMN nCollaterals l true) by (apply elem_of_valid; eauto). rewrite E in Hin. by apply elem_of_cons in Hin.
Qed.

Lemma GetMNPayee_exists l h d : 1 < Z.of_nat (size (mnMap l)) -> mnMap l !! h = Some d -> IsMNValid nCollaterals l d = true ->
  is_Some (GetMNPayee nCollaterals l).
Proof.
  intros Hs Hd Hv. unfold GetMNPayee. rewrite (proj2 (Z.leb_gt _ 1)) by lia. fold best_of.
  assert (Hin : d ∈ ForEachMN nCollaterals l true) by (apply elem_of_valid; eauto).
  destruct (ForEachMN nCollaterals l true) as [|d0 ds]; [by apply elem_of_nil in Hin|]. cbn [foldl best_of].
  destruct (best_fold ds d0) as (b & -> & _). by eexists.
Qed.

(** ** What a quiet block leaves alone *)

(** A node without its confirmed hash and its penalty, which blocks change by themselves. *)
Definition erase_state (s : CDeterministicMNState) : CDeterministicMNState :=
  set_nPoSePenalty (set_confirmedHashWithProRegTxHash (set_confirmedHash s 0) 0) 0.
Definition erase (d : CDeterministicMN) : CDeterministicMN := set_pdmnState d (erase_state (pdmnState d)).

(** Same nodes up to those fields, same indexes, same header. *)
Record calm (l l' : CDeterministicMNList) : Prop := {
  calm_nodes : erase <$> mnMap l' = erase <$> mnMap l;
  calm_header : same_header l l';
  calm_indexes : mnInternalIdMap l' = mnInternalIdMap l /\ mnUniquePropertyMap l' = mnUniquePropertyMap l
}.

Lemma calm_refl l : calm l l.
Proof. by split. Qed.

Lemma calm_trans l1 l2 l3 : calm l1 l2 -> calm l2 l3 -> calm l1 l3.
Proof. intros [? ? [? ?]] [? ? [? ?]]. split; [congruence|by apply (same_header_trans _ l2)|split; congruence]. Qed.

Lemma calm_sym l1 l2 : calm l1 l2 -> calm l2 l1.
Proof. intros [? (? & ? & ?) [? ?]]. split; [done|by split_and!|done]. Qed.

Lemma calm_lookup l l' h d : calm l l' -> mnMap l !! h = Some d -> exists d', mnMap l' !! h = Some d' /\ erase d' = erase d.
Proof.
  intros Hc Hd. pose proof (f_equal (fun m => m !! h) (calm_nodes _ _ Hc)) as E. cbv beta in E. rewrite !lookup_fmap, Hd in E.
  destruct (mnMap l' !! h) as [d'|]; [|done]. apply (inj Some) in E. eauto.
Qed.

(** An update that keeps the properties touches the node alone. *)
Lemma UpdateMN_same l h d s : mnMap l !! h = Some d -> proTxHash d = h -> addr s = addr (pdmnState d) ->
  keyIDOwner s = keyIDOwner (pdmnState d) -> pubKeyOperator s = pubKeyOperator (pdmnState d) ->
  UpdateMN l h s = Some (set_mnMap l (<[h := set_pdmnState d s]> (mnMap l))).
Proof.
  intros Hd Hh Ha Ho Hp. unfold UpdateMN. rewrite Hd. cbn [mbind option_bind]. unfold UpdateMN_dmn, UpdateUniqueProperty. cbv zeta.
  rewrite Ha, Ho, Hp, Hh. rewrite !bool_decide_eq_true_2 by done. done.
Qed.

Lemma calm_update l h d s : mnMap l !! h = Some d -> erase (set_pdmnState d s) = erase d ->
  calm l (set_mnMap l (<[h := set_pdmnState d s]> (mnMap l))).
Proof.
  intros Hd He. split; [|done|done]. cbn. rewrite fmap_insert, He. apply insert_id. by rewrite lookup_fmap, Hd.
Qed.

Lemma erase_fields d : proTxHash (erase d) = proTxHash d /\ collateralOutpoint (erase d) = collateralOutpoint d /\
  addr (pdmnState (erase d)) = addr (pdmnState d) /\ keyIDOwner (pdmnState (erase d)) = keyIDOwner (pdmnState d) /\
  pubKeyOperator (pdmnState (erase d)) = pubKeyOperator (pdmnState d) /\
  CompareByLastPaid_GetHeight (erase d) = CompareByLastPaid_GetHeight d /\
  nPoSeBanHeight (pdmnState (erase d)) = nPoSeBanHeight (pdmnState d) /\
  nCollateralAmount (pdmnState (erase d)) = nCollateralAmount (pdmnState d).
Proof. by destruct d as [? ? ? ? []]. Qed.

Lemma erase_eq d d' : erase d' = erase d -> proTxHash d' = proTxHash d /\ collateralOutpoint d' = collateralOutpoint d /\
  addr (pdmnState d') = addr (pdmnState d) /\ keyIDOwner (pdmnState d') = keyIDOwner (pdmnState d) /\
  pubKeyOperator (pdmnState d') = pubKeyOperator (pdmnState d).
Proof.
  intros E. destruct (erase_fields d) as (? & ? & ? & ? & ? & _), (erase_fields d') as (? & ? & ? & ? & ? & _).
  rewrite E in *. split_and!; congruence.
Qed.

Lemma erase_set d s : erase_state s = erase_state (pdmnState d) -> erase (set_pdmnState d s) = erase d.
Proof. intros E. unfold erase. destruct d as [? ? ? ? st]. cbn [pdmnState] in E. cbn. by rewrite E. Qed.

Lemma erase_confirmed s junk p hash : erase_state (UpdateConfirmedHash s junk p hash) = erase_state s.
Proof. by destruct s. Qed.

Lemma confirm_calm ph phash ds : forall l,
  (forall d, d ∈ ds -> exists d', mnMap l !! proTxHash d = Some d' /\ erase d' = erase d) ->
  exists l', confirm_loop ph phash l ds = Some l' /\ calm l l'.
Proof.
  induction ds as [|d ds IH]; intros l Hds; cbn [confirm_loop]; [exists l; split; [done|apply calm_refl]|].
  assert (Hone : exists l1, confirm_one ph phash l d = Some l1 /\ calm l l1).
  { unfold confirm_one. destruct (negb _); [exists l; split; [done|apply calm_refl]|].
    destruct (_ <=? _); [|exists l; split; [done|apply calm_refl]].
    destruct (Hds d) as (d' & Hd' & He); [by left|]. destruct (erase_eq d d' He) as (Hh & _ & Ha & Ho & Hp).
    rewrite (UpdateMN_same l _ d'); [|done|done|..]; [|rewrite ?Ha, ?Ho, ?Hp; by destruct (pdmnState d)..].
    eexists. split; [done|]. apply calm_update; [done|]. apply erase_set. rewrite erase_confirmed. apply (f_equal pdmnState) in He. symmetry. exact He. }
  destruct Hone as (l1 & -> & Hc1). cbn [mbind option_bind]. destruct (IH l1) as (l' & -> & Hc').
  { intros d1 Hd1. destruct (Hds d1) as (d2 & Hd2 & He2); [by right|]. destruct (calm_lookup l l1 _ d2 Hc1 Hd2) as (d3 & ? & ?). exists d3. split; [done|congruence]. }
  exists l'. split; [done|]. by apply (calm_trans _ l1).
Qed.

Lemma decrease_calm hs : NoDup hs -> forall l, list_ok l ->
  (forall h, h ∈ hs -> exists d, mnMap l !! h = Some d /\ 0 < nPoSePenalty (pdmnState d) /\ nPoSeBanHeight (pdmnState d) = -1) ->
  exists l', decrease_loop l hs = Some l' /\ calm l l'.
Proof.
  induction 1 as [|h hs Hnin _ IH]; intros l Hl Hhs; cbn [decrease_loop]; [exists l; split; [done|apply calm_refl]|].
  destruct (Hhs h) as (d & Hd & Hpen & Hban); [by left|]. pose proof (ok_key _ Hl _ _ Hd) as [Hh Hmn].
  assert (Hone : PoSeDecrease l h = Some (set_mnMap l (<[h := set_pdmnState d (set_nPoSePenalty (pdmnState d) (nPoSePenalty (pdmnState d) - 1))]> (mnMap l)))).
  { unfold PoSeDecrease, GetMN. rewrite Hd. cbn [mbind option_bind]. rewrite Hban, (proj2 (Z.ltb_lt _ _) Hpen). cbn [check mbind option_bind andb].
    apply UpdateMN_same; try done; by destruct (pdmnState d). }
  set (s := set_nPoSePenalty _ _) in Hone. set (l1 := set_mnMap _ _) in Hone. rewrite Hone. cbn [mbind option_bind].
  assert (Hc1 : calm l l1) by (apply calm_update; [done|]; subst s; by destruct d as [? ? ? ? []]).
  destruct (IH l1) as (l' & -> & Hc').
  - assert (Hup : UpdateMN_dmn l d s = Some l1).
    { pose proof (UpdateMN_same l h d s Hd Hh) as Hu. unfold UpdateMN in Hu. rewrite Hd in Hu. apply Hu; subst s; by destruct (pdmnState d). }
    apply (UpdateMN_ok l h d s Hl Hd l1 Hup). subst s. destruct Hmn as [_ Hmn]. by destruct (pdmnState d).
  - intros h' Hh'. destruct (Hhs h') as (d' & Hd' & ?); [by right|]. exists d'. split; [|done]. cbn. rewrite lookup_insert_ne; [done|]. by intros <-.
  - exists l'. split; [done|]. by apply (calm_trans _ l1).
Qed.

(** A transaction that is not special and spends no collateral. *)
Definition quiet_tx (l : CDeterministicMNList) (tx : CTransaction) : Prop :=
  tx_nVersion tx <> 3 /\ forall txin h d, txin ∈ vin tx -> mnMap l !! h = Some d -> collateralOutpoint d <> prevout txin.

Lemma special_txs_quiet n l txs : Forall (fun tx => tx_nVersion tx <> 3) txs -> special_txs n l txs = Some (Ok l).
Proof.
  induction 1 as [|tx txs Htx _ IH]; [done|]. cbn [special_txs]. unfold special_tx. by rewrite (proj2 (Z.eqb_neq _ _) Htx).
Qed.

Lemma spend_quiet l ins : list_ok l -> (forall txin h d, txin ∈ ins -> mnMap l !! h = Some d -> collateralOutpoint d <> prevout txin) ->
  spend_loop l ins = Some l.
Proof.
  intros Hl. induction ins as [|i ins IH]; intros Hins; [done|]. cbn [spend_loop]. unfold spend_one, GetMNByCollateral.
  destruct (GetUniquePropertyMN l (UOutPoint (prevout i))) as [d|] eqn:E.
  - apply GetUniquePropertyMN_spec in E as (h & Hd & Hp & _); [|done]. injection Hp as Hp. exfalso. by apply (Hins i h d); [left| |].
  - cbn [mbind option_bind]. apply IH. intros txin h d Hi. apply Hins. by right.
Qed.

(** What the queue reads of a node after a block that may have paid it. *)
Definition paid (n : Z) (payee : option CDeterministicMN) (h : Z) (d : CDeterministicMN) : CDeterministicMN :=
  if bool_decide (proTxHash <$> payee = Some h) then set_pdmnState d (set_nLastPaidHeight (pdmnState d) n) else d.

Lemma erase_paid n p h d d' : erase d' = erase d -> erase (paid n p h d') = erase (paid n p h d).
Proof.
  intros E. unfold paid. case_bool_decide; [|done]. unfold erase in *. destruct d as [? ? ? ? []], d' as [? ? ? ? []].
  cbn in *. apply (f_equal (fun x => set_pdmnState x (set_nLastPaidHeight (pdmnState x) n))) in E. exact E.
Qed.

Lemma NoDup_hashes l : list_ok l -> NoDup (proTxHash <$> (map_to_list (mnMap l)).*2).
Proof.
  intros Hl. assert (E : proTxHash <$> (map_to_list (mnMap l)).*2 = (map_to_list (mnMap l)).*1).
  { rewrite <- list_fmap_compose. apply list_fmap_ext. intros i [h d] Hi%list_elem_of_lookup_2%elem_of_map_to_list.
    apply (ok_key _ Hl _ _ Hi). }
  rewrite E. apply NoDup_fst_map_to_list.
Qed.

Lemma NoDup_valid c l : list_ok l -> NoDup (proTxHash <$> ForEachMN c l true).
Proof. intros Hl. eapply sublist_NoDup; [by apply NoDup_hashes|]. apply fmap_sublist, sublist_filter. Qed.

Lemma decrease_all_calm l : list_ok l -> exists l', DecreasePoSePenalties l = Some l' /\ calm l l'.
Proof.
  intros Hl. unfold DecreasePoSePenalties. apply decrease_calm; [|done|].
  - eapply sublist_NoDup; [by apply (NoDup_valid nCollaterals l)|]. apply fmap_sublist, sublist_filter.
  - intros h (d & -> & [Hc Hd]%list_elem_of_filter)%list_elem_of_fmap. apply elem_of_valid in Hd as [[h Hd] _].
    apply Is_true_true, andb_true_iff in Hc as [?%Z.ltb_lt ?%Z.eqb_eq]. exists d. by rewrite (proj1 (ok_key _ Hl _ _ Hd)).
Qed.

Lemma pay_calm n l p : list_ok l -> exists l', pay n l p = Some l' /\ same_header l l' /\
  forall h, mnMap l' !! h = paid n p h <$> mnMap l !! h.
Proof.
  intros Hl. unfold pay, paid. destruct p as [p|]; cbn [fmap option_fmap option_map].
  2: { exists l. split_and!; [done|done|]. intros h. by destruct (mnMap l !! h). }
  unfold GetMN. destruct (mnMap l !! proTxHash p) as [d|] eqn:E.
  - rewrite (UpdateMN_same l _ d) by first [done|apply (ok_key _ Hl _ _ E)|by destruct (pdmnState d)]. eexists. split_and!; [done|done|].
    intros h. cbn [mnMap set_mnMap]. destruct (decide (h = proTxHash p)) as [->|Hne].
    + rewrite lookup_insert_eq, E. cbn. by rewrite bool_decide_eq_true_2.
    + rewrite lookup_insert_ne by done. destruct (mnMap l !! h); [|done]. cbn. by rewrite bool_decide_eq_false_2 by congruence.
  - exists l. split_and!; [done|done|]. intros h. destruct (mnMap l !! h) as [d|] eqn:Eh; [|done]. cbn.
    rewrite bool_decide_eq_false_2; [done|]. congruence.
Qed.

(** A block whose transactions leave the smartnodes alone is accepted; it pays the payee and changes
    nothing else that the queue reads. *)
Lemma quiet_block vtx ph phash l : list_inv l -> Forall (quiet_tx l) (tail vtx) ->
  exists new, BuildNewListFromBlock vtx ph phash l = Some (Ok new) /\ list_inv new /\ list_nHeight new = ph + 1 /\
    forall h, erase <$> mnMap new !! h = (fun d => erase (paid (ph + 1) (GetMNPayee nCollaterals l) h d)) <$> mnMap l !! h.
Proof.
  intros Hinv Hq. pose proof (inv_ok _ Hinv) as Hl. unfold BuildNewListFromBlock. cbv zeta. set (l0 := SetHeight _ _).
  assert (Hi0 : list_inv l0) by (destruct Hinv as [[] ? ?]; split; [by split|done|done]).
  destruct (confirm_calm ph phash (ForEachMN nCollaterals l false) l0) as (l1 & E1 & Hc1).
  { intros d Hd. apply list_elem_of_filter in Hd as [_ ([h d'] & -> & Hd%elem_of_map_to_list)%list_elem_of_fmap].
    exists d'. cbn [snd]. by rewrite (proj1 (ok_key _ Hl _ _ Hd)). }
  assert (Hi1 : list_inv l1).
  { destruct (confirm_loop_inv ph phash (ForEachMN nCollaterals l false)) with l0 l1 as [? _]; [|done|done|done].
    apply Forall_forall. intros d Hd. apply list_elem_of_filter in Hd as [_ ([h d'] & -> & Hd%elem_of_map_to_list)%list_elem_of_fmap].
    by apply (GetMN_owner l h). }
  rewrite E1. cbn [dassert option_map dbind].
  assert (Hdec : exists l2, (if isDecrease (ph + 1) then DecreasePoSePenalties l1 else Some l1) = Some l2 /\ calm l1 l2 /\ list_inv l2).
  { destruct (isDecrease _); [|exists l1; split_and!; [done|apply calm_refl|done]]. destruct (decrease_all_calm l1 (inv_ok _ Hi1)) as (l2 & E2 & Hc2).
    exists l2. split_and!; [done|done|]. by apply (decrease_loop_inv _ _ _ Hi1 E2). }
  destruct Hdec as (l2 & -> & Hc2 & Hi2). cbn [dassert option_map dbind].
  rewrite special_txs_quiet by (eapply Forall_impl; [exact Hq|]; by intros tx [? _]). cbn [dbind].
  pose proof (calm_trans _ _ _ Hc1 Hc2) as Hc. rewrite spend_quiet; [|by apply inv_ok|].
  2: { intros txin h d Hin Hd Hcol. destruct (calm_lookup l2 l0 h d (calm_sym _ _ Hc) Hd) as (d0 & Hd0 & He).
    apply list_elem_of_In, in_concat in Hin as (ins & Hins & Hin). apply list_elem_of_In, list_elem_of_fmap in Hins as (tx & -> & Htx).
    rewrite Forall_forall in Hq. apply (proj2 (Hq tx Htx) txin h d0); [by apply list_elem_of_In|done|].
    rewrite <- Hcol. by apply (erase_eq d d0). }
  cbn [dassert option_map dbind]. destruct (pay_calm (ph + 1) l2 (GetMNPayee nCollaterals l) (inv_ok _ Hi2)) as (new & Enew & Hh & Hmap).
  rewrite Enew. cbn [dassert option_map]. exists new. split_and!; [done|by apply (pay_inv _ _ _ _ Hi2 Enew)| |].
  - destruct Hh as (_ & -> & _). destruct (calm_header _ _ Hc) as (_ & -> & _). done.
  - intros h. rewrite Hmap. destruct (mnMap l !! h) as [d|] eqn:Ed.
    + destruct (calm_lookup l0 l2 h d Hc Ed) as (d2 & -> & He). cbn. f_equal. by apply erase_paid.
    + destruct (mnMap l2 !! h) as [d2|] eqn:E2; [|done]. destruct (calm_lookup l2 l0 h d2 (calm_sym _ _ Hc) E2) as (d0 & Hd0 & _).
      change (mnMap l !! h = Some d0) in Hd0. congruence.
Qed.
End Payee.

(** ** The queue moves *)

Section Queue.
Context `{PropertyHashSpec} `{SpecialTxs}.
(** What the chain tells the block at each height, and the collaterals that stay payable from height [n0]. *)
Variable ctx : Z -> BlockContext.
Variable c : SmartnodeCollaterals.
Variable n0 : Z.
Hypothesis ctx_collaterals : forall n, @nCollaterals (ctx n) = c.
Hypothesis steady : forall n amount, n0 <= n -> isPayableCollateral c n amount = isPayableCollateral c n0 amount.

(** The blocks of a chain on top of a list, each with its transactions and its hash; the payees are collected.
    [ProcessBlock] sets the hash of the block in the list. *)
Fixpoint connect (n : Z) (l : CDeterministicMNList) (blocks : list (list CTransaction * Z)) : dmn (list (option Z)) :=
  match blocks with
  | [] => dret []
  | (vtx, hash) :: blocks =>
      do new <- @BuildNewListFromBlock _ (ctx (n + 1)) _ vtx n (blockHash l) l;
      do payees <- connect (n + 1) (SetBlockHash new hash) blocks;
      dret ((proTxHash <$> GetMNPayee c l) :: payees)
  end.

(** A list at height [n] in which nothing happened later than that. *)
Record waiting (n : Z) (l : CDeterministicMNList) : Prop := {
  wait_inv : list_inv l;
  wait_hashes : hashes_ok l;
  wait_height : list_nHeight l = n /\ n0 <= n /\ 0 <= n;
  wait_past : forall h d, mnMap l !! h = Some d -> CompareByLastPaid_GetHeight d <= n /\ nPoSeRevivedHeight (pdmnState d) <= n;
  wait_two : 1 < Z.of_nat (size (mnMap l))
}.

Definition quiet_chain (l : CDeterministicMNList) (blocks : list (list CTransaction * Z)) : Prop :=
  Forall (fun b => Forall (quiet_tx l) (tail b.1)) blocks.

(** The valid nodes that come before [t]. *)
Definition ahead (l : CDeterministicMNList) (t : CDeterministicMN) : gset Z :=
  dom (filter (fun p => IsMNValid c l p.2 && CompareByLastPaid p.2 t) (mnMap l)).

Lemma elem_of_ahead l t h : h ∈ ahead l t <-> exists d, mnMap l !! h = Some d /\ IsMNValid c l d = true /\ CompareByLastPaid d t = true.
Proof.
  unfold ahead. rewrite elem_of_dom. split.
  - intros [d [Hd Hv]%map_lookup_filter_Some]. exists d. split; [done|]. by apply andb_true_iff, Is_true_true.
  - intros (d & Hd & Hv). exists d. apply map_lookup_filter_Some. split; [done|]. by apply Is_true_true, andb_true_iff.
Qed.

(** One block on a waiting list: the new list waits, and a node reads as before unless it was paid. *)
Record next (n : Z) (l l' : CDeterministicMNList) : Prop := {
  next_waiting : waiting (n + 1) l';
  next_node : forall h, erase <$> mnMap l' !! h = (fun d => erase (paid (n + 1) (GetMNPayee c l) h d)) <$> mnMap l !! h
}.

Lemma paid_past n p h d : nPoSeRevivedHeight (pdmnState d) <= n -> 0 <= n -> CompareByLastPaid_GetHeight d <= n ->
  let d' := paid (n + 1) p h d in
  nPoSeRevivedHeight (pdmnState d') <= n + 1 /\ CompareByLastPaid_GetHeight d' <= n + 1 /\
  (proTxHash <$> p = Some h -> CompareByLastPaid_GetHeight d' = n + 1).
Proof.
  intros Hr Hn Hc. unfold paid. case_bool_decide as E; cbv zeta; [|split_and!; [lia|lia|done]].
  destruct d as [? ? ? ? []]. unfold CompareByLastPaid_GetHeight in *. cbn in *.
  rewrite (proj2 (Z.ltb_ge (n + 1) _)), andb_false_r, (proj2 (Z.eqb_neq (n + 1) 0)) by lia. lia.
Qed.

(** What validity and the queue read is in the erased node. *)
Lemma erase_queue d d' : erase d' = erase d ->
  CompareByLastPaid_GetHeight d' = CompareByLastPaid_GetHeight d /\ nPoSeRevivedHeight (pdmnState d') = nPoSeRevivedHeight (pdmnState d) /\
  sort_key d' = sort_key d /\ forall l, IsMNValid c l d' = IsMNValid c l d.
Proof.
  intros E. assert (Hk : forall x, CompareByLastPaid_GetHeight (erase x) = CompareByLastPaid_GetHeight x /\
    nPoSeRevivedHeight (pdmnState (erase x)) = nPoSeRevivedHeight (pdmnState x) /\ sort_key (erase x) = sort_key x /\
    forall l, IsMNValid c l (erase x) = IsMNValid c l x) by (by intros [? ? ? ? []]).
  destruct (Hk d) as (A1 & A2 & A3 & A4), (Hk d') as (B1 & B2 & B3 & B4). rewrite E in *. split_and!; congruence.
Qed.

Lemma paid_same n p h d : proTxHash (paid n p h d) = proTxHash d /\ collateralOutpoint (paid n p h d) = collateralOutpoint d /\
  forall l, IsMNValid c l (paid n p h d) = IsMNValid c l d.
Proof. unfold paid. by destruct (bool_decide _), d as [? ? ? ? []]. Qed.

Lemma next_lookup n l l' h d : next n l l' -> mnMap l !! h = Some d ->
  exists d', mnMap l' !! h = Some d' /\ erase d' = erase (paid (n + 1) (GetMNPayee c l) h d).
Proof.
  intros Hn Hd. pose proof (next_node _ _ _ Hn h) as E. rewrite Hd in E. destruct (mnMap l' !! h) as [d'|]; [|done].
  apply (inj Some) in E. eauto.
Qed.

Lemma next_back n l l' h d' : next n l l' -> mnMap l' !! h = Some d' ->
  exists d, mnMap l !! h = Some d /\ erase d' = erase (paid (n + 1) (GetMNPayee c l) h d).
Proof.
  intros Hn Hd. pose proof (next_node _ _ _ Hn h) as E. rewrite Hd in E. destruct (mnMap l !! h) as [d|]; [|done].
  apply (inj Some) in E. eauto.
Qed.

Lemma next_block n l vtx hash : waiting n l -> Forall (quiet_tx l) (tail vtx) ->
  exists new, @BuildNewListFromBlock _ (ctx (n + 1)) _ vtx n (blockHash l) l = Some (Ok new) /\ next n l (SetBlockHash new hash).
Proof.
  intros Hw Hq. destruct (@quiet_block _ _ (ctx (n + 1)) _ vtx n (blockHash l) l (wait_inv _ _ Hw) Hq) as (new & Hb & Hi & Hh & Hmap).
  rewrite ctx_collaterals in Hmap. exists new. split; [done|]. split; [|done].
  assert (Hback : forall h d', mnMap new !! h = Some d' -> exists d, mnMap l !! h = Some d /\ erase d' = erase (paid (n + 1) (GetMNPayee c l) h d)).
  { intros h d' Hd. specialize (Hmap h). rewrite Hd in Hmap. destruct (mnMap l !! h) as [d|]; [|done]. apply (inj Some) in Hmap. eauto. }
  destruct Hw as [Hinv Hr (Hn & Hn0 & Hpos) Hpast Htwo]. split.
  - destruct Hi as [[] ? ?]. split; [by split|done|done].
  - intros h d' Hd. destruct (Hback h d' Hd) as (d & Hd0 & _). by apply (Hr h d).
  - cbn. lia.
  - intros h d' Hd. destruct (Hback h d' Hd) as (d & Hd0 & He). destruct (Hpast h d Hd0).
    destruct (paid_past n (GetMNPayee c l) h d) as (? & ? & _); [done|done|done|]. destruct (erase_queue _ _ He) as (-> & -> & _). lia.
  - cbn [mnMap SetBlockHash]. replace (size (mnMap new)) with (size (mnMap l)); [done|].
    rewrite <- !size_dom. f_equal. apply set_eq. intros h. rewrite !elem_of_dom. specialize (Hmap h).
    destruct (mnMap new !! h), (mnMap l !! h); try done; split; by intros [].
Qed.

Lemma next_quiet n l l' tx : next n l l' -> quiet_tx l tx -> quiet_tx l' tx.
Proof.
  intros Hn [Hv Hc]. split; [done|]. intros i h d' Hi Hd. destruct (next_back n l l' h d' Hn Hd) as (d & Hd0 & He).
  destruct (erase_eq _ _ He) as (_ & -> & _). destruct (paid_same (n + 1) (GetMNPayee c l) h d) as (_ & -> & _). by apply (Hc i h).
Qed.

Lemma next_quiet_chain n l l' blocks : next n l l' -> quiet_chain l blocks -> quiet_chain l' blocks.
Proof. intros Hn Hq. eapply Forall_impl; [exact Hq|]. intros b Hb. eapply Forall_impl; [exact Hb|]. intros tx. by apply (next_quiet n l). Qed.

Lemma valid_steady l l' d : n0 <= list_nHeight l -> n0 <= list_nHeight l' -> IsMNValid c l' d = IsMNValid c l d.
Proof. intros Hl Hl'. unfold IsMNValid. by rewrite (steady (list_nHeight l)), (steady (list_nHeight l')). Qed.

Lemma next_valid n l l' h d d' : waiting n l -> next n l l' -> erase d' = erase (paid (n + 1) (GetMNPayee c l) h d) ->
  IsMNValid c l' d' = IsMNValid c l d.
Proof.
  intros Hw Hn He. destruct (erase_queue _ _ He) as (_ & _ & _ & ->), (paid_same (n + 1) (GetMNPayee c l) h d) as (_ & _ & ->).
  apply valid_steady; [by destruct (wait_height _ _ Hw) as (-> & ? & _)|by destruct (wait_height _ _ (next_waiting _ _ _ Hn)) as (-> & ? & _)].
Qed.

Lemma connect_total blocks : forall n l, waiting n l -> quiet_chain l blocks ->
  exists payees, connect n l blocks = Some (Ok payees) /\ length payees = length blocks.
Proof.
  induction blocks as [|[vtx hash] blocks IH]; intros n l Hw Hq; [by exists []|]. apply Forall_cons in Hq as [Hq Hqs].
  destruct (next_block n l vtx hash Hw Hq) as (new & Hb & Hn). cbn [connect]. rewrite Hb. cbn [dbind].
  destruct (IH (n + 1) (SetBlockHash new hash) (next_waiting _ _ _ Hn) (next_quiet_chain _ _ _ _ Hn Hqs)) as (ps & -> & Hps).
  eexists. split; [done|]. cbn. lia.
Qed.

(** The payee leaves the nodes ahead of [t], and nobody joins them. *)
Lemma ahead_shrinks n l l' h t t' p : waiting n l -> next n l l' -> GetMNPayee c l = Some p -> proTxHash p <> h ->
  mnMap l !! h = Some t -> IsMNValid c l t = true -> erase t' = erase (paid (n + 1) (GetMNPayee c l) h t) -> ahead l' t' ⊂ ahead l t.
Proof.
  intros Hw Hn Hp Hne Ht Hv He. destruct (@GetMNPayee_first _ (ctx n) l p) as (Hpl & Hpv & Hfirst);
    [apply (inv_ok _ (wait_inv _ _ Hw))|apply (wait_hashes _ _ Hw)|by rewrite ctx_collaterals|]. rewrite ctx_collaterals in *.
  assert (Hpaid : paid (n + 1) (GetMNPayee c l) h t = t) by (unfold paid; rewrite Hp, bool_decide_eq_false_2; [done|cbn; congruence]).
  rewrite Hpaid in He. destruct (erase_queue _ _ He) as (Hht & _ & Hkt & _). destruct (wait_height _ _ Hw) as (Hnl & _ & Hpos). split.
  - intros x (d' & Hd' & Hv' & Hc')%elem_of_ahead. destruct (next_back _ _ _ _ _ Hn Hd') as (d & Hd & Hed).
    rewrite (next_valid n l l' x d d' Hw Hn Hed) in Hv'. apply elem_of_ahead. exists d. split_and!; [done|done|].
    destruct (wait_past _ _ Hw x d Hd) as [Hpd Hrd], (wait_past _ _ Hw h t Ht) as [Hpt _].
    destruct (erase_queue _ _ Hed) as (Hhd & _ & Hkd & _). rewrite CompareByLastPaid_key in *. rewrite Hkt, Hkd in Hc'.
    unfold paid in *. case_bool_decide as Ex; [|done]. exfalso. destruct (paid_past n (GetMNPayee c l) x d Hrd Hpos Hpd) as (_ & _ & Hnew).
    specialize (Hnew Ex). unfold paid in Hnew. rewrite bool_decide_eq_true_2 in Hnew by done. unfold sort_key in Hc'. rewrite Hnew in Hc'.
    cbn [memcmp_lt] in Hc'. rewrite (proj2 (Z.eqb_neq _ _)) in Hc' by lia. apply Z.ltb_lt in Hc'. lia.
  - intros Hsub. assert (Hin : proTxHash p ∈ ahead l' t').
    { apply Hsub, elem_of_ahead. exists p. split_and!; [done|done|]. by apply (Hfirst h). }
    apply elem_of_ahead in Hin as (p' & Hp' & _ & Hc'). destruct (next_back _ _ _ _ _ Hn Hp') as (p0 & Hp0 & Hep). assert (p0 = p) as -> by congruence.
    destruct (wait_past _ _ Hw _ p Hpl) as [Hpp Hrp], (wait_past _ _ Hw h t Ht) as [Hpt _].
    destruct (paid_past n (GetMNPayee c l) (proTxHash p) p Hrp Hpos Hpp) as (_ & _ & Hnew). destruct (erase_queue _ _ Hep) as (Hhp & _ & _ & _).
    rewrite Hnew in Hhp by (by rewrite Hp). rewrite CompareByLastPaid_key in Hc'. unfold sort_key in Hc'. rewrite Hhp, Hht in Hc'.
    cbn [memcmp_lt] in Hc'. rewrite (proj2 (Z.eqb_neq _ _)) in Hc' by lia. apply Z.ltb_lt in Hc'. lia.
Qed.

Lemma paid_in_turn blocks : forall n l h t, waiting n l -> quiet_chain l blocks -> mnMap l !! h = Some t -> IsMNValid c l t = true ->
  (size (ahead l t) < length blocks)%nat ->
  exists payees i, connect n l blocks = Some (Ok payees) /\ length payees = length blocks /\
    (i <= size (ahead l t))%nat /\ payees !! i = Some (Some h).
Proof.
  induction blocks as [|[vtx hash] blocks IH]; intros n l h t Hw Hq Ht Hv Hlt; [cbn in Hlt; lia|].
  apply Forall_cons in Hq as [Hq Hqs]. destruct (next_block n l vtx hash Hw Hq) as (new & Hb & Hn). cbn [connect]. rewrite Hb. cbn [dbind].
  set (l' := SetBlockHash new hash) in *. pose proof (next_quiet_chain _ _ _ _ Hn Hqs) as Hqs'.
  destruct (@GetMNPayee_exists (ctx n) l h t (wait_two _ _ Hw) Ht) as [p Hp]; [by rewrite ctx_collaterals|]. rewrite ctx_collaterals in Hp.
  destruct (decide (proTxHash p = h)) as [Heq|Hne].
  - destruct (connect_total blocks (n + 1) l' (next_waiting _ _ _ Hn) Hqs') as (ps & -> & Hps). cbn [dbind].
    eexists _, O. split_and!; [done|cbn; lia|lia|]. rewrite Hp. cbn. by rewrite Heq.
  - destruct (next_lookup n l l' h t Hn Ht) as (t' & Ht' & He).
    pose proof (subset_size _ _ (ahead_shrinks n l l' h t t' p Hw Hn Hp Hne Ht Hv He)) as Hs.
    destruct (IH (n + 1) l' h t') as (ps & i & -> & Hps & Hi & Hpi);
      [apply Hn|done|done|by rewrite (next_valid n l l' h t t' Hw Hn He)|cbn in Hlt; lia|].
    cbn [dbind]. eexists _, (S i). split_and!; [done|cbn; lia|lia|done].
Qed.

Lemma ahead_bound l h t : list_ok l -> mnMap l !! h = Some t -> IsMNValid c l t = true ->
  Z.of_nat (size (ahead l t)) < GetValidMNsCount c l.
Proof.
  intros Hl Ht Hv. unfold GetValidMNsCount. rewrite <- (length_fmap proTxHash).
  assert (Hin : forall x d, mnMap l !! x = Some d -> IsMNValid c l d = true -> x ∈ proTxHash <$> ForEachMN c l true).
  { intros x d Hd Hvd. apply list_elem_of_fmap. exists d. split; [by rewrite (proj1 (ok_key _ Hl _ _ Hd))|].
    unfold ForEachMN. apply list_elem_of_filter. split; [by apply Is_true_true|]. apply list_elem_of_fmap. exists (x, d). by rewrite elem_of_map_to_list. }
  rewrite <- (size_list_to_set (C := gset Z)) by (apply NoDup_valid; done). apply inj_lt, subset_size. split.
  - intros x (d & Hd & Hvd & _)%elem_of_ahead. apply elem_of_list_to_set. by apply (Hin x d).
  - intros Hsub. assert (Hh : h ∈ ahead l t) by (apply Hsub, elem_of_list_to_set; by apply (Hin h t)).
    apply elem_of_ahead in Hh as (d & Hd & _ & Hc). assert (d = t) as -> by congruence. rewrite CompareByLastPaid_key, memcmp_lt_irrefl in Hc. done.
Qed.

(** C8. Every valid smartnode is paid within one round, when more than one smartnode is registered (a single one is
    never paid), no collateral stops or starts being payable meanwhile ([steady]), and the transactions leave the smartnodes
    alone (no special transaction, no collateral spent: [quiet_chain]): whatever the penalties and the confirmations do, every block is accepted and a valid node
    is the payee of one of the first blocks, as many as there are valid nodes. *)
Theorem valid_node_paid_within_round n l blocks h t : waiting n l -> quiet_chain l blocks ->
  mnMap l !! h = Some t -> IsMNValid c l t = true -> GetValidMNsCount c l <= Z.of_nat (length blocks) ->
  exists payees i, connect n l blocks = Some (Ok payees) /\ length payees = length blocks /\
    Z.of_nat i < GetValidMNsCount c l /\ payees !! i = Some (Some h).
Proof.
  intros Hw Hq Ht Hv Hlen. pose proof (ahead_bound l h t (inv_ok _ (wait_inv _ _ Hw)) Ht Hv) as Hb.
  destruct (paid_in_turn blocks n l h t Hw Hq Ht Hv) as (ps & i & ? & ? & ? & ?); [lia|]. exists ps, i. split_and!; [done|done|lia|done].
Qed.
End Queue.

(** *** Three nodes and a round of three blocks *)

#[local] Existing Instance Sample.hash.
#[local] Existing Instance Sample.hash_spec.
#[local] Existing Instance BlockSample.txs.
Definition sample_round : list (list CTransaction * Z) :=
  [([BlockSample.coinbase], 2); ([BlockSample.coinbase; BlockSample.spend 12 (77, 1)], 3); ([BlockSample.coinbase], 4)].

(** The collaterals of the main network never expire. *)
Lemma sample_steady n m amount : isPayableCollateral Sample.nodes_collaterals n amount = isPayableCollateral Sample.nodes_collaterals m amount.
Proof.
  unfold isPayableCollateral. change (collateralsHeightMap Sample.nodes_collaterals) with (<[65000 * 100000000 := INT_MAX]> (∅ : gmap Z Z)).
  destruct (decide (amount = 65000 * 100000000)) as [->|Hne]; [by rewrite lookup_insert_eq|by rewrite lookup_insert_ne].
Qed.

Lemma sample_waiting : waiting 0 1000 BlockSample.three /\ quiet_chain BlockSample.three sample_round.
Proof.
  pose proof sample_inv as Hinv.
  destruct (add_new_spec [Sample.node 7 0 500; Sample.node 5 1 500; Sample.node 9 2 400] 1 1000 3 BlockSample.three) as (Hf & Nf & Hh & Mf);
    [by apply (bool_decide_unpack _); vm_compute|by vm_compute|].
  assert (Hs : 1 < Z.of_nat (size (mnMap BlockSample.three))) by (clear; vm_compute; reflexivity).
  revert Hinv Hf Nf Hh Mf Hs. generalize BlockSample.three as l. intros l Hinv Hf Nf Hh Mf Hs.
  assert (Hn : forall h d, mnMap l !! h = Some d -> 0 <= h < 2 ^ 256 /\ CompareByLastPaid_GetHeight d <= 1000 /\
    nPoSeRevivedHeight (pdmnState d) <= 1000 /\ collateralOutpoint d <> (77, 1)).
  { intros h d [Hd <-]%Mf. repeat (apply elem_of_cons in Hd as [->|Hd]; [split_and!; [cbn; lia..|discriminate]|]). by apply elem_of_nil in Hd. }
  split.
  - split; [done|intros h d Hd; apply (Hn h d Hd)|lia|intros h d Hd; destruct (Hn h d Hd) as (_ & ? & ? & _); done|done].
  - repeat constructor; cbn; [discriminate|]. intros txin h d ->%list_elem_of_singleton Hd. apply (Hn h d Hd).
Qed.

Lemma valid_node_paid_within_round_witness :
  GetValidMNsCount Sample.nodes_collaterals BlockSample.three = 3 /\
  exists payees i, connect (fun _ => BlockSample.ctx) Sample.nodes_collaterals 1000 BlockSample.three sample_round = Some (Ok payees) /\
    Z.of_nat i < 3 /\ payees !! i = Some (Some 5).
Proof.
  split; [by vm_compute|]. destruct sample_waiting as [Hw Hq].
  destruct (@valid_node_paid_within_round _ _ BlockSample.txs (fun _ => BlockSample.ctx) Sample.nodes_collaterals 0 (fun _ => eq_refl)
    (fun n a _ => sample_steady n 0 a) 1000 BlockSample.three sample_round 5 (Sample.node 5 1 500) Hw Hq) as (ps & i & Hc & _ & Hi & Hp);
    [by vm_compute|by vm_compute|by vm_compute|]. exists ps, i. split_and!; [exact Hc|exact Hi|exact Hp].
Defined.
