(* ===== verification/Llmq.v ===== *)
(** The parameters of the quorums ([LLMQParams] of [consensus/params.h]) and how they follow the number of
    smartnodes ([UpdateLLMQParams] of [chainparams.cpp]). *)

From stdpp Require Import prelude gmap.
From Stdlib Require Import ZArith Lia.
From S2P Require Import Prelude.

Open Scope Z_scope.

Definition LLMQ_50_60 : Z := 1.
Definition LLMQ_400_60 : Z := 2.
Definition LLMQ_400_85 : Z := 3.

(** [name], only for logs and the user interface, is left out. *)
Record LLMQParams := mkLLMQ {
  llmq_type : Z;
  llmq_size : Z;
  llmq_minSize : Z;
  llmq_threshold : Z;
  dkgInterval : Z;
  dkgPhaseBlocks : Z;
  dkgMiningWindowStart : Z;
  dkgMiningWindowEnd : Z;
  dkgBadVotesThreshold : Z;
  signingActiveQuorumCount : Z;
  keepOldConnections : Z
}.
Definition llmq200_2 : LLMQParams := mkLLMQ LLMQ_50_60 200 2 2 30 2 10 18 8 2 3.
Definition llmq3_60 : LLMQParams := mkLLMQ LLMQ_50_60 3 2 2 30 2 10 18 8 2 3.
Definition llmq5_60 : LLMQParams := mkLLMQ LLMQ_400_60 5 4 3 (30 * 12) 4 20 28 30 4 5.
Definition llmq5_85 : LLMQParams := mkLLMQ LLMQ_400_85 5 4 3 (30 * 24) 4 20 48 30 4 5.
Definition llmq20_60 : LLMQParams := mkLLMQ LLMQ_400_60 20 15 12 (30 * 12) 4 20 28 30 4 5.
Definition llmq20_85 : LLMQParams := mkLLMQ LLMQ_400_85 20 18 17 (30 * 24) 4 20 48 30 4 5.
Definition llmq10_60 : LLMQParams := mkLLMQ LLMQ_50_60 10 8 7 30 2 10 18 8 6 7.
Definition llmq40_60 : LLMQParams := mkLLMQ LLMQ_400_60 40 30 24 (30 * 12) 4 20 28 30 4 5.
Definition llmq40_85 : LLMQParams := mkLLMQ LLMQ_400_85 40 35 34 (30 * 24) 4 20 48 30 4 5.
Definition llmq50_60 : LLMQParams := mkLLMQ LLMQ_50_60 50 40 30 30 2 10 18 40 24 25.
Definition llmq400_60 : LLMQParams := mkLLMQ LLMQ_400_60 400 300 240 (30 * 12) 4 20 28 300 4 5.
Definition llmq400_85 : LLMQParams := mkLLMQ LLMQ_400_85 400 350 340 (30 * 24) 4 20 48 300 4 5.

(** [consensus.llmqs] and the static variables of [chainparams.cpp]. *)
Record llmq_state := mkLlmqState {
  consensus_llmqs : gmap Z LLMQParams;
  lastCheckMnCount : Z;
  lastCheckHeight : Z;
  lastCheckedLowLLMQParams : bool
}.

(** [%] of C++ truncates. *)
Definition IsMiningPhase (params : LLMQParams) (height : Z) : bool :=
  let phaseIndex := Z.rem height (dkgInterval params) in
  (dkgMiningWindowStart params <=? phaseIndex) && (phaseIndex <=? dkgMiningWindowEnd params).
Definition IsLLMQsMiningPhase (s : llmq_state) (height : Z) : bool :=
  existsb (fun it => IsMiningPhase it.2 height) (map_to_list (consensus_llmqs s)).

Definition set_llmqs (l : gmap Z LLMQParams) (a b c : LLMQParams) : gmap Z LLMQParams :=
  <[LLMQ_400_85 := c]> (<[LLMQ_400_60 := b]> (<[LLMQ_50_60 := a]> l)).
(** As the constructors of the main, test and regression test networks leave them. *)
Definition llmq_main : llmq_state := mkLlmqState (set_llmqs ∅ llmq3_60 llmq20_60 llmq20_85) 0 0 false.
Definition UpdateLLMQParams (test : bool) (s : llmq_state) (totalMnCount height : Z) (lowLLMQParams : bool) : llmq_state :=
  if (lastCheckHeight s <? height)
     && (negb (lastCheckMnCount s =? totalMnCount) || negb (eqb (lastCheckedLowLLMQParams s) lowLLMQParams))
     && (negb (IsLLMQsMiningPhase s height) || (lastCheckHeight s =? 0))
  then
    let l := consensus_llmqs s in
    let l :=
      if totalMnCount <? 5 then
        if test then set_llmqs l llmq3_60 llmq5_60 llmq5_85 else set_llmqs l llmq3_60 llmq20_60 llmq20_85
      else if totalMnCount <? 100 then set_llmqs l llmq10_60 llmq20_60 llmq20_85
      else if totalMnCount <? 600 then set_llmqs l llmq50_60 llmq40_60 llmq40_85
      else set_llmqs l llmq50_60 llmq400_60 llmq400_85 in
    let l := if lowLLMQParams then <[LLMQ_50_60 := llmq200_2]> l else l in
    mkLlmqState l totalMnCount height lowLLMQParams
  else s.

(** ** What every set of parameters has in common *)

(** The interval and the mining window depend on the type alone; a quorum that reaches its
    minimal size can sign. *)
Definition schedule (t : Z) : option (Z * Z * Z) :=
  if t =? LLMQ_50_60 then Some (30, 10, 18)
  else if t =? LLMQ_400_60 then Some (360, 20, 28)
  else if t =? LLMQ_400_85 then Some (720, 20, 48) else None.
Definition params_okb (t : Z) (p : LLMQParams) : bool :=
  (llmq_type p =? t) && bool_decide (schedule t = Some (dkgInterval p, dkgMiningWindowStart p, dkgMiningWindowEnd p))
  && (llmq_threshold p <=? llmq_minSize p) && (llmq_minSize p <=? llmq_size p)
  && (5 * dkgPhaseBlocks p <=? dkgMiningWindowStart p) && (signingActiveQuorumCount p <? keepOldConnections p).
Record llmq_ok (s : llmq_state) : Prop := {
  llmq_each : forall t p, consensus_llmqs s !! t = Some p -> params_okb t p = true;
  llmq_dom : forall t, is_Some (consensus_llmqs s !! t) <-> t ∈ [LLMQ_50_60; LLMQ_400_60; LLMQ_400_85]
}.

Lemma llmq_ok_set l a b c n h low :
  (forall t p, l !! t = Some p -> params_okb t p = true) ->
  params_okb LLMQ_50_60 a = true -> params_okb LLMQ_400_60 b = true -> params_okb LLMQ_400_85 c = true ->
  (forall t, is_Some (l !! t) -> t ∈ [LLMQ_50_60; LLMQ_400_60; LLMQ_400_85]) ->
  llmq_ok (mkLlmqState (set_llmqs l a b c) n h low).
Proof.
  intros Hl Ha Hb Hc Hd. unfold set_llmqs. split; cbn.
  - intros t p. rewrite !lookup_insert_Some.
    intros [[<- <-]|[_ [[<- <-]|[_ [[<- <-]|[_ Hp]]]]]]; [done..|by apply Hl].
  - intros t. rewrite !lookup_insert_is_Some, !list_elem_of_In. cbn. split.
    + intros [<-|[_ [<-|[_ [<-|[_ Ht]]]]]]; [tauto..|]. specialize (Hd t Ht). rewrite list_elem_of_In in Hd. exact Hd.
    + intros Ht. destruct (decide (LLMQ_400_85 = t)); [by left|]. right. split; [done|].
      destruct (decide (LLMQ_400_60 = t)); [by left|]. right. split; [done|]. left.
      destruct Ht as [Ht|[Ht|[Ht|[]]]]; congruence.
Qed.

Lemma llmq_ok_low s : llmq_ok s ->
  llmq_ok (mkLlmqState (<[LLMQ_50_60 := llmq200_2]> (consensus_llmqs s)) (lastCheckMnCount s) (lastCheckHeight s) true).
Proof.
  intros [He Hd]. split; cbn.
  - intros t p. rewrite lookup_insert_Some. intros [[<- <-]|[_ Hp]]; [done|by apply He].
  - intros t. rewrite lookup_insert_is_Some. rewrite <- Hd. split.
    + intros [<-|[_ Ht]]; [|done]. apply Hd. by left.
    + intros Ht. destruct (decide (LLMQ_50_60 = t)); [by left|by right].
Qed.

(** The initial parameters are well formed, and every update keeps them so. *)
Lemma UpdateLLMQParams_ok test s n h low : llmq_ok s -> llmq_ok (UpdateLLMQParams test s n h low).
Proof.
  intros Hs. unfold UpdateLLMQParams. destruct (_ && _ && _); [|done]. cbv zeta.
  match goal with |- llmq_ok (mkLlmqState (if low then <[_ := _]> ?l else _) _ _ _) => assert (Hl : llmq_ok (mkLlmqState l n h low)) end.
  { pose proof (fun t => proj1 (llmq_dom _ Hs t)). pose proof (llmq_each _ Hs).
    repeat case_match; by apply llmq_ok_set. }
  destruct low; [|done]. exact (llmq_ok_low _ Hl).
Qed.

Lemma llmq_main_ok : llmq_ok llmq_main.
Proof. by apply (llmq_ok_set ∅ llmq3_60 llmq20_60 llmq20_85); [intros t p; rewrite lookup_empty| | | |intros t; rewrite lookup_empty; intros []]. Qed.

(** The mining phases do not depend on the parameters in force, but on the height alone. *)
Definition mining_phase (height : Z) : bool :=
  let in_window (interval lo hi : Z) := (lo <=? Z.rem height interval) && (Z.rem height interval <=? hi) in
  in_window 30 10 18 || in_window 360 20 28 || in_window 720 20 48.

Lemma IsMiningPhase_schedule t p h : params_okb t p = true ->
  exists i lo hi, schedule t = Some (i, lo, hi) /\ IsMiningPhase p h = (lo <=? Z.rem h i) && (Z.rem h i <=? hi).
Proof.
  unfold params_okb. rewrite !andb_true_iff, bool_decide_eq_true. intros [[[[[_ E] _] _] _] _]. eexists _, _, _. by split; [exact E|].
Qed.

Lemma IsLLMQsMiningPhase_height s h : llmq_ok s -> IsLLMQsMiningPhase s h = mining_phase h.
Proof.
  intros Hs. apply eq_true_iff_eq. unfold IsLLMQsMiningPhase. rewrite existsb_exists. unfold mining_phase. rewrite !orb_true_iff. split.
  - intros ([t p] & Hin & Hp). apply list_elem_of_In, elem_of_map_to_list in Hin.
    destruct (IsMiningPhase_schedule t p h (llmq_each _ Hs t p Hin)) as (i & lo & hi & E & Ep). cbn in Hp. rewrite Ep in Hp.
    unfold schedule in E. repeat case_match; simplify_eq; auto.
  - intros Hw. assert (forall t i lo hi, schedule t = Some (i, lo, hi) -> (lo <=? Z.rem h i) && (Z.rem h i <=? hi) = true ->
      exists x, In x (map_to_list (consensus_llmqs s)) /\ IsMiningPhase x.2 h = true) as Hex.
    { intros t i lo hi Et Hb. destruct (proj2 (llmq_dom _ Hs t)) as [p Hp].
      { unfold schedule in Et. rewrite !list_elem_of_In. cbn. repeat case_match; try done; (repeat match goal with Hq : (_ =? _) = true |- _ => apply Z.eqb_eq in Hq end); subst; auto. }
      exists (t, p). split; [by apply list_elem_of_In, elem_of_map_to_list|].
      destruct (IsMiningPhase_schedule t p h (llmq_each _ Hs t p Hp)) as (i' & lo' & hi' & E & Ep). cbn. rewrite Ep. congruence. }
    destruct Hw as [[Hw|Hw]|Hw]; [by apply (Hex LLMQ_50_60 30 10 18)|by apply (Hex LLMQ_400_60 360 20 28)|by apply (Hex LLMQ_400_85 720 20 48)].
Qed.

(** The parameters change only for a count or a spork that changed, outside the mining phases,
    apart from the first change after a start. *)
Theorem UpdateLLMQParams_changes test s n h low : llmq_ok s -> consensus_llmqs (UpdateLLMQParams test s n h low) <> consensus_llmqs s ->
  lastCheckHeight s < h /\ (lastCheckMnCount s <> n \/ lastCheckedLowLLMQParams s <> low) /\ (mining_phase h = false \/ lastCheckHeight s = 0).
Proof.
  intros Hs. unfold UpdateLLMQParams. rewrite (IsLLMQsMiningPhase_height s h Hs).
  destruct (_ && _ && _) eqn:E; [|done]. intros _. rewrite !andb_true_iff, !orb_true_iff, !negb_true_iff in E.
  destruct E as [[E1 E2] E3]. split; [lia|]. split.
  - destruct E2 as [E2|E2]; [left; lia|right]. by apply eqb_false_iff.
  - destruct E3; [by left|right; lia].
Qed.

(** The parameters depend on the history, not on the chain alone: of two nodes at height 121 of a
    chain with 3 smartnodes, one that has seen a branch with 5 smartnodes at height 122 keeps the
    parameters of that branch, since it has checked a later height. *)
Theorem quorum_parameters_depend_on_history :
  let straight := UpdateLLMQParams false (UpdateLLMQParams false llmq_main 4 100 false) 3 121 false in
  let reorganised := UpdateLLMQParams false (UpdateLLMQParams false (UpdateLLMQParams false llmq_main 4 100 false) 5 122 false) 3 121 false in
  consensus_llmqs straight !! LLMQ_50_60 = Some llmq3_60 /\ consensus_llmqs reorganised !! LLMQ_50_60 = Some llmq10_60.
Proof. by vm_compute. Qed.
