(* ===== verification/SmartnodeManager.v ===== *)
(** The store of smartnode lists ([CDeterministicMNManager] of [evo/deterministicmns.cpp]): per block a
    difference on disk, a full list now and then, and two caches. The list of any processed block is rebuilt
    from the nearest list and the differences above it; it is always the list that processing the block
    computed. *)

From stdpp Require Import prelude gmap sorting.
From Stdlib Require Import ZArith Lia.
From S2P Require Import Prelude Chain Transaction Serialize ProTx Llmq SmartnodeList SmartnodeDiff SmartnodeBlock.

Open Scope Z_scope.

Definition DISK_SNAPSHOT_PERIOD : Z := 576.
Definition DISK_SNAPSHOTS : Z := 3.
Definition LIST_DIFFS_CACHE_SIZE : Z := DISK_SNAPSHOT_PERIOD * DISK_SNAPSHOTS.
Definition CACHE_CLEANUP_BLOCKS : Z := 40.

(** ** What is written to disk *)

(** [CDeterministicMNList::Serialize] writes the header and the nodes; the two indexes are not written. *)
Record list_record := mkListRecord {
  rec_blockHash : Z;
  rec_nHeight : Z;
  rec_total : Z;
  rec_mns : list CDeterministicMN
}.
Definition list_Serialize (l : CDeterministicMNList) : list_record :=
  mkListRecord (blockHash l) (list_nHeight l) (nTotalRegisteredCount l) (map_to_list (mnMap l)).*2.

(** [CDeterministicMNStateDiff] is written with the fields whose bits are set; reading starts from the default state. *)
Definition StateDiff_reread (amount : Z) (sd : CDeterministicMNStateDiff) : CDeterministicMNStateDiff :=
  mkStateDiff (diff_fields sd) (ApplyToState sd (state_default amount)).
Definition ListDiff_reread (amount : Z) (d : CDeterministicMNListDiff) : CDeterministicMNListDiff :=
  mkDiff (addedMNs d) (StateDiff_reread amount <$> updatedMNs d) (removedMns d).

Section Read.
Context `{PropertyHash}.
(** [CDeterministicMNList::Unserialize] adds the nodes one by one. *)
Definition list_Unserialize (r : list_record) : option CDeterministicMNList :=
  foldl (fun l d => l ← l; AddMN l d) (Some (list_new (rec_blockHash r) (rec_nHeight r) (rec_total r))) (rec_mns r).
End Read.

(** ** Reading back what was written *)

(** A field whose bit is not set was not written. *)
Lemma diff_unset a b fs : independent fs -> forall d f, f ∈ fs -> Z.land (diff_fields (foldl (diff_line a b) d fs)) (fbit f) = 0 ->
  fget f (diff_state (foldl (diff_line a b) d fs)) = fget f (diff_state d).
Proof.
  induction fs as [|g fs IH]; intros Hi d f Hf; [by apply elem_of_nil in Hf|]. destruct Hi as (Hget & Hbit & Hg & Hi). cbn [foldl].
  apply elem_of_cons in Hf as [->|Hf].
  - destruct (diff_others a b g fs (diff_line a b d g)) as [-> ->].
    { eapply Forall_impl; [exact Hg|]. by intros f (H1 & _ & H3). }
    unfold diff_line. destruct (decide _); [done|]. cbn [diff_fields diff_state].
    rewrite Z.land_lor_distr_l, Z.land_diag. intros [_ E]%Z.lor_eq_0_iff. done.
  - intros Hz. rewrite (IH Hi _ f Hf Hz). destruct (proj1 (Forall_forall _ _) Hg f Hf) as (_ & Hgf & _).
    unfold diff_line. destruct (decide _); [done|apply Hgf].
Qed.

(** A difference of states only has the fields it says it has. *)
Lemma StateDiff_reread_id amount a b : StateDiff_reread amount (StateDiff amount a b) = StateDiff amount a b.
Proof.
  assert (E : ApplyToState (StateDiff amount a b) (state_default amount) = diff_state (StateDiff amount a b)).
  { apply states_equal, Forall_forall. intros f Hf. unfold ApplyToState.
    rewrite (proj1 (Forall_forall _ _) (apply_all (StateDiff amount a b) _ all_fields_independent (state_default amount)) f Hf).
    destruct (Z.eqb_spec (Z.land (diff_fields (StateDiff amount a b)) (fbit f)) 0) as [Hz|]; [|done].
    symmetry. revert Hf Hz. unfold StateDiff. generalize all_fields_independent. generalize DMN_STATE_DIFF_ALL_FIELDS as fs.
    intros fs Hi Hf Hz. exact (diff_unset a b fs Hi (mkStateDiff 0 (state_default amount)) f Hf Hz). }
  unfold StateDiff_reread. rewrite E. by destruct (StateDiff amount a b).
Qed.

Section Reread.
Context `{PropertyHashSpec}.

Lemma ListDiff_reread_id c amount from to : list_ok from -> list_ok to ->
  ListDiff_reread amount (BuildDiff c amount from to) = BuildDiff c amount from to.
Proof.
  intros Hf Ht. destruct (BuildDiff_spec c amount from to Hf Ht) as (_ & _ & _ & Hupd & _).
  unfold ListDiff_reread. destruct (BuildDiff c amount from to) as [added updated removed]. cbn [addedMNs updatedMNs removedMns] in *. f_equal.
  apply map_eq. intros id. rewrite lookup_fmap. destruct (updated !! id) as [sd|] eqn:E; [|done]. apply (f_equal Some).
  apply Hupd in E as (h & d & f & _ & _ & _ & -> & _). exact (StateDiff_reread_id amount (pdmnState f) (pdmnState d)).
Qed.

(** Nodes of a good list can be added to a part of it. *)
Lemma readd_spec l ds : list_ok l -> forall r, list_ok r -> (forall h d, mnMap r !! h = Some d -> mnMap l !! h = Some d) ->
  NoDup ds -> (forall d, d ∈ ds -> mnMap l !! proTxHash d = Some d /\ mnMap r !! proTxHash d = None) ->
  exists r', foldl (fun l d => l ← l; AddMN l d) (Some r) ds = Some r' /\ list_ok r' /\ same_header r r' /\
    forall h d, mnMap r' !! h = Some d <-> mnMap r !! h = Some d \/ (d ∈ ds /\ proTxHash d = h).
Proof.
  intros Hl. induction ds as [|d ds IH]; intros r Hr Hsub Hnd Hds; cbn [foldl].
  { exists r. split_and!; [done|done|done|]. intros h d. split; [by left|]. by intros [|[[]%elem_of_nil _]]. }
  apply NoDup_cons in Hnd as [Hnin Hnd]. destruct (Hds d ltac:(by left)) as [Hd Hrd].
  assert (Hid : mnInternalIdMap r !! internalId d = None).
  { apply eq_None_not_Some. intros [h (d1 & Hd1 & Hid1)%(ok_ids _ Hr)].
    destruct (same_id l h (proTxHash d) d1 d Hl (Hsub _ _ Hd1) Hd Hid1) as [-> _]. congruence. }
  destruct (AddMN_total r d Hr Hrd (proj2 (ok_key _ Hl _ _ Hd))) as [r1 E1].
  { intros h u Hu (d1 & Hd1 & Hu1). apply Hsub in Hd1 as Hl1.
    assert (h = proTxHash d) as -> by (apply (index_functional _ _ u _ _ (ok_unique _ Hl)); [by exists d1|by exists d]). congruence. }
  destruct (AddMN_ok r d r1 Hr Hid E1) as (_ & _ & _ & Hr1 & Hm1 & Hh1).
  destruct (IH r1 Hr1) as (r' & E & Hr' & Hh & Hm); [|done| |].
  { intros h d'. rewrite Hm1, lookup_insert_Some. intros [[<- <-]|[_ ?]]; [done|by apply Hsub]. }
  { intros d' Hd'. destruct (Hds d' ltac:(by right)) as [Hl' Hr2]. split; [done|]. rewrite Hm1, lookup_insert_ne; [done|].
    intros Heq. rewrite <- Heq in Hl'. congruence. }
  exists r'. cbn [mbind option_bind]. rewrite E1. split_and!; [done|done|by apply (same_header_trans _ r1)|].
  intros h d'. rewrite Hm, Hm1, lookup_insert_Some, elem_of_cons. split.
  - intros [[[<- <-]|[_ Hd']]|[Hd' <-]]; [right; split; [by left|done]|by left|right; split; [by right|done]].
  - intros [Hd'|[[->|Hd'] <-]]; [|by left; left|by right].
    left. destruct (decide (proTxHash d = h)) as [<-|]; [congruence|by right].
Qed.

(** A list that is written to disk is read back with its indexes. *)
Lemma list_roundtrip l : list_ok l -> list_Unserialize (list_Serialize l) = Some l.
Proof.
  intros Hl. unfold list_Unserialize, list_Serialize. cbn [rec_blockHash rec_nHeight rec_total rec_mns].
  destruct (readd_spec l (map_to_list (mnMap l)).*2 Hl _ (list_new_ok (blockHash l) (list_nHeight l) (nTotalRegisteredCount l)))
    as (r' & -> & Hr' & (Hb & Hh & Ht) & Hm).
  { intros h d. cbn. by rewrite lookup_empty. }
  { apply NoDup_fmap_2_strong; [|apply NoDup_map_to_list]. intros [h d] [h' d'] Hd%elem_of_map_to_list Hd'%elem_of_map_to_list.
    cbn. intros <-. apply (ok_key _ Hl) in Hd as [<- _]. by apply (ok_key _ Hl) in Hd' as [<- _]. }
  { intros d ([h d'] & -> & Hd%elem_of_map_to_list)%list_elem_of_fmap. cbn. by rewrite (proj1 (ok_key _ Hl _ _ Hd)). }
  f_equal. apply list_determined; [done|done| |by rewrite Hb|by rewrite Hh|by rewrite Ht].
  apply map_eq. intros h. apply option_eq. intros d. rewrite Hm. cbn. rewrite lookup_empty. split.
  - intros [|[([h' d'] & -> & Hd%elem_of_map_to_list)%list_elem_of_fmap Hp]]; [done|]. cbn in *. by rewrite (proj1 (ok_key _ Hl _ _ Hd)) in Hp; subst.
  - intros Hd. right. split; [|apply (ok_key _ Hl _ _ Hd)]. apply (list_elem_of_fmap_2' snd _ (h, d)); [by apply elem_of_map_to_list|done].
Qed.

Lemma HasChanges_none l hash height d : HasChanges d = false -> ApplyDiff l hash height d = Some (SetHeight (SetBlockHash l hash) height).
Proof.
  unfold HasChanges. rewrite negb_false_iff, !andb_true_iff, !bool_decide_eq_true. intros [[Ha Hu] Hr].
  unfold ApplyDiff. cbv zeta. by rewrite Ha, Hu, Hr, elements_empty, map_to_list_empty.
Qed.
End Reread.

(** ** The manager *)

Record CDeterministicMNManager := mkManager {
  db_diffs : gmap Z CDeterministicMNListDiff;               (* [DB_LIST_DIFF] of [evoDb] *)
  db_snapshots : gmap Z list_record;                        (* [DB_LIST_SNAPSHOT] of [evoDb] *)
  mnListsCache : gmap Z CDeterministicMNList;
  mnListDiffsCache : gmap Z (CDeterministicMNListDiff * Z); (* with its [nHeight], which is not written *)
  tipIndex : option ptr;
  lastCleanupHeight : Z;                                    (* the static variable of [CleanupCache] *)
  quorums : llmq_state                                      (* [consensus.llmqs] and when it was updated *)
}.
Definition manager_new (q : llmq_state) : CDeterministicMNManager := mkManager ∅ ∅ ∅ ∅ None 0 q.
Definition with_caches (m : CDeterministicMNManager) lists diffs : CDeterministicMNManager :=
  mkManager (db_diffs m) (db_snapshots m) lists diffs (tipIndex m) (lastCleanupHeight m) (quorums m).
Definition cache_list (m : CDeterministicMNManager) (hash : Z) (l : CDeterministicMNList) : CDeterministicMNManager :=
  with_caches m (emplace (mnListsCache m) hash l) (mnListDiffsCache m).
Definition cache_diff (m : CDeterministicMNManager) (hash : Z) (d : CDeterministicMNListDiff) (height : Z) : CDeterministicMNManager :=
  with_caches m (mnListsCache m) (emplace (mnListDiffsCache m) hash (d, height)).
Definition write_diff (m : CDeterministicMNManager) (hash : Z) (d : CDeterministicMNListDiff) : CDeterministicMNManager :=
  mkManager (<[hash := d]> (db_diffs m)) (db_snapshots m) (mnListsCache m) (mnListDiffsCache m) (tipIndex m) (lastCleanupHeight m) (quorums m).
Definition write_snapshot (m : CDeterministicMNManager) (hash : Z) (r : list_record) : CDeterministicMNManager :=
  mkManager (db_diffs m) (<[hash := r]> (db_snapshots m)) (mnListsCache m) (mnListDiffsCache m) (tipIndex m) (lastCleanupHeight m) (quorums m).

Definition update_quorums (test : bool) (m : CDeterministicMNManager) (l : CDeterministicMNList) (height : Z) (low : bool) : CDeterministicMNManager :=
  mkManager (db_diffs m) (db_snapshots m) (mnListsCache m) (mnListDiffsCache m) (tipIndex m) (lastCleanupHeight m)
    (UpdateLLMQParams test (quorums m) (GetAllMNsCount l) height low).

Section Manager.
Context `{PH : PropertyHash} `{ST : SpecialTxs}.
(** The block index; the transactions of each block; what a block reads of the chain, the sporks and the consensus
    parameters, whenever it is processed; the activation height; the unset field of a state; the test network. *)
Variable H : heap.
Variable vtx : ptr -> list CTransaction.
Variable ctx : ptr -> BlockContext.
Variable c : SmartnodeCollaterals.
Variable DIP0003Height : Z.
Variable amount : Z.
Variable test : bool.

Definition isDIP0003Active (height : Z) : bool := DIP0003Height <=? height.

(** The loop of [GetListForBlock]: the list it starts from, and the blocks above it in ascending order.
    A step goes to the parent, so that the height bounds the steps. *)
Fixpoint find_snapshot (fuel : nat) (m : CDeterministicMNManager) (p : ptr) (listDiffIndexes : list ptr)
    : option (CDeterministicMNList * list ptr * CDeterministicMNManager) :=
  match fuel with
  | O => None
  | S fuel =>
      b ← H !! p;
      match mnListsCache m !! phashBlock b with
      | Some snapshot => Some (snapshot, listDiffIndexes, m)
      | None =>
      match db_snapshots m !! phashBlock b with
      | Some r => snapshot ← list_Unserialize r; Some (snapshot, listDiffIndexes, cache_list m (phashBlock b) snapshot)
      | None =>
      match mnListDiffsCache m !! phashBlock b with
      | Some _ => q ← pprev b; find_snapshot fuel m q (p :: listDiffIndexes)
      | None =>
      match db_diffs m !! phashBlock b with
      | None =>
          let snapshot := list_new (phashBlock b) (-1) 0 in
          Some (snapshot, listDiffIndexes, cache_list m (phashBlock b) snapshot)
      | Some d =>
          q ← pprev b;
          find_snapshot fuel (cache_diff m (phashBlock b) (ListDiff_reread amount d) (nHeight b)) q (p :: listDiffIndexes)
      end end end end
  end.
Fixpoint apply_diffs (m : CDeterministicMNManager) (snapshot : CDeterministicMNList) (listDiffIndexes : list ptr) : option CDeterministicMNList :=
  match listDiffIndexes with
  | [] => Some snapshot
  | p :: rest =>
      b ← H !! p;
      '(d, _) ← mnListDiffsCache m !! phashBlock b;
      snapshot ← (if HasChanges d then ApplyDiff snapshot (phashBlock b) (nHeight b) d
                  else Some (SetHeight (SetBlockHash snapshot (phashBlock b)) (nHeight b)));
      apply_diffs m snapshot rest
  end.
(** The list is used by a quorum that is alive at [height]. *)
Definition alive_quorum (s : llmq_state) (l : CDeterministicMNList) (height : Z) : bool :=
  existsb (fun it => (Z.rem (list_nHeight l) (dkgInterval it.2) =? 0) &&
    (height <=? list_nHeight l + dkgInterval it.2 * (keepOldConnections it.2 + 1))) (map_to_list (consensus_llmqs s)).
Definition any_quorum (s : llmq_state) (l : CDeterministicMNList) : bool :=
  existsb (fun it => Z.rem (list_nHeight l) (dkgInterval it.2) =? 0) (map_to_list (consensus_llmqs s)).
Definition keep_snapshot (m : CDeterministicMNManager) (snapshot : CDeterministicMNList) : option CDeterministicMNManager :=
  match tipIndex m with
  | None => Some m
  | Some t =>
      tip ← H !! t;
      Some (if (blockHash snapshot =? phashBlock tip) || alive_quorum (quorums m) snapshot (nHeight tip)
            then cache_list m (blockHash snapshot) snapshot else m)
  end.
Definition GetListForBlock (low : bool) (m : CDeterministicMNManager) (p : ptr) : option (CDeterministicMNList * CDeterministicMNManager) :=
  b ← H !! p;
  '(snapshot, listDiffIndexes, m) ← find_snapshot (S (Z.to_nat (nHeight b))) m p [];
  snapshot ← apply_diffs m snapshot listDiffIndexes;
  m ← keep_snapshot m snapshot;
  Some (snapshot, update_quorums test m snapshot (list_nHeight snapshot) low).

Definition delete_list (m : CDeterministicMNManager) (height : Z) (hash : Z) (l : CDeterministicMNList) : bool :=
  if list_nHeight l + LIST_DIFFS_CACHE_SIZE <? height then true
  else if alive_quorum (quorums m) l height then false
  else
    match t ← tipIndex m; tip ← H !! t; q ← pprev tip; phashBlock <$> H !! q with
    | Some prevHash =>
        if hash =? prevHash then true else any_quorum (quorums m) l
    | None => any_quorum (quorums m) l
    end.
Definition CleanupCache (m : CDeterministicMNManager) (height : Z) : CDeterministicMNManager :=
  if height - lastCleanupHeight m <? CACHE_CLEANUP_BLOCKS then m
  else
    mkManager (db_diffs m) (db_snapshots m)
      (filter (fun p => negb (delete_list m height p.1 p.2)) (mnListsCache m))
      (filter (fun p => negb (p.2.2 + LIST_DIFFS_CACHE_SIZE <? height)) (mnListDiffsCache m))
      (tipIndex m) height (quorums m).

(** What [NotifySmartnodeListChanged] is called with, if it is called. *)
Definition notification (l : CDeterministicMNList) (changed : bool) (diff : CDeterministicMNListDiff) : option (CDeterministicMNList * CDeterministicMNListDiff) :=
  if changed then Some (l, diff) else None.

(** [None] is a failed assertion. *)
Definition ProcessBlock (m : CDeterministicMNManager) (p : ptr) (fJustCheck : bool)
    : option (result dmn_reject (option (CDeterministicMNList * CDeterministicMNListDiff)) * CDeterministicMNManager) :=
  let low := @SPORK_21_active (ctx p) in
  b ← H !! p;
  if negb (isDIP0003Active (nHeight b)) then Some (Ok None, m)
  else
    q ← pprev b;
    prev ← H !! q;
    '(oldList, m) ← GetListForBlock low m q;
    r ← @BuildNewListFromBlock _ (ctx p) _ (vtx p) (nHeight prev) (phashBlock prev) oldList;
    match r with
    | Err e => Some (Err e, m)
    | Ok newList =>
        let m := update_quorums test m newList (nHeight prev + 1) low in
        if fJustCheck then Some (Ok None, m)
        else
          let newList := if list_nHeight newList =? -1 then SetHeight newList (nHeight b) else newList in
          let newList := SetBlockHash newList (phashBlock b) in
          '(oldList, m) ← GetListForBlock low m q;
          let diff := BuildDiff c amount oldList newList in
          let m := write_diff m (blockHash newList) diff in
          let m := if (Z.rem (nHeight b) DISK_SNAPSHOT_PERIOD =? 0) || (list_nHeight oldList =? -1)
                   then cache_list (write_snapshot m (blockHash newList) (list_Serialize newList)) (blockHash newList) newList
                   else m in
          let m := cache_diff m (phashBlock b) diff (nHeight b) in
          Some (Ok (notification oldList (HasChanges diff) diff), CleanupCache m (nHeight b))
    end.

(** The notification: the list of the block and the difference back to its parent. *)
Definition UndoBlock (low : bool) (m : CDeterministicMNManager) (p : ptr)
    : option (option (CDeterministicMNList * CDeterministicMNListDiff) * CDeterministicMNManager) :=
  b ← H !! p;
  let diff := match db_diffs m !! phashBlock b with Some d => ListDiff_reread amount d | None => mkDiff [] ∅ ∅ end in
  '(note, m) ← (if HasChanges diff then
                  '(curList, m) ← GetListForBlock low m p;
                  q ← pprev b;
                  '(prevList, m) ← GetListForBlock low m q;
                  Some (Some (curList, BuildDiff c amount curList prevList), m)
                else Some (None, m));
  Some (note, with_caches m (delete (phashBlock b) (mnListsCache m)) (delete (phashBlock b) (mnListDiffsCache m))).

Definition UpdatedBlockTip (m : CDeterministicMNManager) (p : option ptr) : CDeterministicMNManager :=
  mkManager (db_diffs m) (db_snapshots m) (mnListsCache m) (mnListDiffsCache m) p (lastCleanupHeight m) (quorums m).
Definition GetListAtChainTip (low : bool) (m : CDeterministicMNManager) : option (CDeterministicMNList * CDeterministicMNManager) :=
  match tipIndex m with
  | None => Some (list_new 0 (-1) 0, m)
  | Some t => GetListForBlock low m t
  end.

(** The rest of the interface. *)
Definition IsProTxWithCollateral (tx : CTransaction) (n : Z) : bool :=
  if negb (tx_nVersion tx =? 3) || negb (tx_nType tx =? TRANSACTION_PROVIDER_REGISTER) then false
  else
    match GetProRegTx tx with
    | None => false
    | Some proTx =>
        let o := reg_collateralOutpoint proTx in
        if negb (o.1 =? 0) then false
        else if (Z.of_nat (length (vout tx)) <=? o.2) || negb (o.2 =? n) then false
        else match vout tx !! Z.to_nat n with Some out => isValidCollateral c (nValue out) | None => false end
    end.
(** [None] dereferences a null tip. *)
Definition IsDIP3Enforced (m : CDeterministicMNManager) (height : Z) : option bool :=
  height ← (if height =? -1 then t ← tipIndex m; nHeight <$> H !! t else Some height);
  Some (DIP0003Height <=? height).

(** ** The list of a block, computed from the beginning *)

Fixpoint list_at (fuel : nat) (p : ptr) : dmn CDeterministicMNList :=
  match H !! p with
  | None => None
  | Some b =>
      if negb (isDIP0003Active (nHeight b)) then dret (list_new (phashBlock b) (-1) 0)
      else
        match fuel, pprev b ≫= fun q => (q,.) <$> H !! q with
        | S fuel, Some (q, prev) =>
            do old <- list_at fuel q;
            do new <- @BuildNewListFromBlock _ (ctx p) _ (vtx p) (nHeight prev) (phashBlock prev) old;
            dret (SetBlockHash new (phashBlock b))
        | _, _ => None
        end
  end.
Definition list_of (p : ptr) : dmn CDeterministicMNList :=
  match H !! p with Some b => list_at (S (Z.to_nat (nHeight b))) p | None => None end.

(** ** Sequences of operations *)

Inductive operation :=
  | OpProcess (p : ptr) (fJustCheck : bool)
  | OpUndo (p : ptr) (low : bool)
  | OpTip (p : option ptr)
  | OpGet (p : ptr) (low : bool)
  | OpGetTip (low : bool).
Inductive answer :=
  | AnsProcess (r : result dmn_reject (option (CDeterministicMNList * CDeterministicMNListDiff)))
  | AnsUndo (note : option (CDeterministicMNList * CDeterministicMNListDiff))
  | AnsTip
  | AnsList (l : CDeterministicMNList).
Definition exec (m : CDeterministicMNManager) (o : operation) : option (answer * CDeterministicMNManager) :=
  match o with
  | OpProcess p just => '(r, m) ← ProcessBlock m p just; Some (AnsProcess r, m)
  | OpUndo p low => '(n, m) ← UndoBlock low m p; Some (AnsUndo n, m)
  | OpTip p => Some (AnsTip, UpdatedBlockTip m p)
  | OpGet p low => '(l, m) ← GetListForBlock low m p; Some (AnsList l, m)
  | OpGetTip low => '(l, m) ← GetListAtChainTip low m; Some (AnsList l, m)
  end.
Fixpoint run (m : CDeterministicMNManager) (os : list operation) : option (list answer) :=
  match os with
  | [] => Some []
  | o :: os => '(a, m) ← exec m o; (a ::.) <$> run m os
  end.

(** The specification: the state is the set of processed blocks and the tip; an answer is a function of the block. An operation
    is about a block whose list is known: the block is older than the smartnodes, or has been processed. *)
Abbreviation spec_state := (gset ptr * option ptr)%type (only parsing).
Definition known (S : gset ptr) (p : ptr) : bool :=
  match H !! p with Some b => negb (isDIP0003Active (nHeight b)) || bool_decide (p ∈ S) | None => false end.
Definition spec_list (S : gset ptr) (p : ptr) : option CDeterministicMNList :=
  if known S p then match list_of p with Some (Ok l) => Some l | _ => None end else None.
Definition spec_process (s : spec_state) (p : ptr) (just : bool) : option (answer * spec_state) :=
  b ← H !! p;
  if negb (isDIP0003Active (nHeight b)) then Some (AnsProcess (Ok None), s)
  else
    q ← pprev b;
    old ← spec_list s.1 q;
    r ← list_of p;
    match r with
    | Err e => Some (AnsProcess (Err e), s)
    | Ok new =>
        if just then Some (AnsProcess (Ok None), s)
        else let diff := BuildDiff c amount old new in Some (AnsProcess (Ok (notification old (HasChanges diff) diff)), ({[p]} ∪ s.1, s.2))
    end.
Definition spec_undo (s : spec_state) (p : ptr) : option (answer * spec_state) :=
  b ← H !! p;
  if negb (isDIP0003Active (nHeight b)) then Some (AnsUndo None, s)
  else
    q ← pprev b;
    new ← spec_list s.1 p;
    old ← spec_list s.1 q;
    Some (AnsUndo (notification new (HasChanges (BuildDiff c amount old new)) (BuildDiff c amount new old)), s).
Definition spec_exec (s : spec_state) (o : operation) : option (answer * spec_state) :=
  match o with
  | OpProcess p just => spec_process s p just
  | OpUndo p _ => spec_undo s p
  | OpTip p => match p with Some t => _ ← H !! t; Some (AnsTip, (s.1, p)) | None => Some (AnsTip, (s.1, p)) end
  | OpGet p _ => l ← spec_list s.1 p; Some (AnsList l, s)
  | OpGetTip _ => match s.2 with Some t => l ← spec_list s.1 t; Some (AnsList l, s) | None => Some (AnsList (list_new 0 (-1) 0), s) end
  end.
Fixpoint spec_run (s : spec_state) (os : list operation) : option (list answer) :=
  match os with
  | [] => Some []
  | o :: os => '(a, s) ← spec_exec s o; (a ::.) <$> spec_run s os
  end.

(** ** The manager against its specification *)

Context `{PHS : !PropertyHashSpec}.
Hypothesis Hwf : wf_heap H.
Hypothesis Hhash : forall p p' b b', H !! p = Some b -> H !! p' = Some b' -> phashBlock b = phashBlock b' -> p = p'.

(** What [ApplyDiff] needs beyond the invariant of the list: the registered nodes keep the ids they are given, and a key or an address
    does not pass from a node that stays to another. *)
Record regular (old new : CDeterministicMNList) : Prop := {
  re_new : forall id, nTotalRegisteredCount old <= id < nTotalRegisteredCount new <->
    exists h d, mnMap new !! h = Some d /\ mnMap old !! h = None /\ internalId d = id;
  re_moves : forall u h h', holds (mnMap old) h u -> holds (mnMap new) h' u -> h = h' \/ mnMap new !! h = None
}.
Hypothesis Hregular : forall p b q prev old new, H !! p = Some b -> isDIP0003Active (nHeight b) = true -> pprev b = Some q -> H !! q = Some prev ->
  list_of q = Some (Ok old) -> @BuildNewListFromBlock _ (ctx p) _ (vtx p) (nHeight prev) (phashBlock prev) old = Some (Ok new) ->
  nTotalRegisteredCount old + Z.of_nat (length (vtx p)) < 2 ^ 32 /\ nTotalRegisteredCount new < 2 ^ 32 /\ regular old new.

Lemma kept_successor old new : list_inv old -> list_inv new -> kept old new -> nTotalRegisteredCount old <= nTotalRegisteredCount new ->
  nTotalRegisteredCount new < 2 ^ 32 -> regular old new -> successor old new.
Proof.
  intros Ho Hn Hk Hle Hlt [Hnew Hmoves]. split; [apply Ho|apply Hn| | |done|pose proof (inv_count _ Ho); lia|done].
  - intros h d d' Hd Hd'. destruct (Hk h d' Hd') as [(d0 & Hd0 & E)|Hid]; [congruence|].
    destruct (proj1 (Hnew (internalId d'))) as (h2 & d2 & Hd2 & Hnone & E2); [pose proof (inv_below _ Hn _ _ Hd'); lia|].
    destruct (same_id new h2 h d2 d' (inv_ok _ Hn) Hd2 Hd' E2) as [-> _]. congruence.
  - intros h d Hd. pose proof (inv_below _ Ho _ _ Hd). lia.
Qed.

(** The parent of a block. *)
Lemma parent_of p b q : H !! p = Some b -> pprev b = Some q -> exists prev, H !! q = Some prev /\ nHeight b = nHeight prev + 1 /\ 0 <= nHeight prev.
Proof.
  intros Hp Hq. destruct (Hwf p b Hp) as (_ & Hpp & _). rewrite Hq in Hpp. destruct Hpp as (prev & Hprev & Hh).
  exists prev. split_and!; [done|done|]. apply (Hwf q prev Hprev).
Qed.

Lemma list_at_fuel n : forall m p b, H !! p = Some b -> (Z.to_nat (nHeight b) < n)%nat -> (Z.to_nat (nHeight b) < m)%nat -> list_at n p = list_at m p.
Proof.
  induction n as [|n IH]; intros m p b Hp Hn Hm; [lia|]. destruct m as [|m]; [lia|]. cbn [list_at]. rewrite Hp.
  destruct (negb _); [done|]. destruct (pprev b) as [q|] eqn:Eq; [|done]. cbn [mbind option_bind].
  destruct (parent_of p b q Hp Eq) as (prev & Hprev & Hh & H0). rewrite Hprev. cbn [fmap option_fmap option_map].
  by rewrite (IH m q prev Hprev) by lia.
Qed.

Lemma list_of_initial p b : H !! p = Some b -> isDIP0003Active (nHeight b) = false -> list_of p = Some (Ok (list_new (phashBlock b) (-1) 0)).
Proof. intros Hp Ha. unfold list_of. rewrite Hp. cbn [list_at]. by rewrite Hp, Ha. Qed.

Lemma list_of_block p b q prev : H !! p = Some b -> isDIP0003Active (nHeight b) = true -> pprev b = Some q -> H !! q = Some prev ->
  list_of p = (do old <- list_of q; do new <- @BuildNewListFromBlock _ (ctx p) _ (vtx p) (nHeight prev) (phashBlock prev) old; dret (SetBlockHash new (phashBlock b))).
Proof.
  intros Hp Ha Hq Hprev. destruct (parent_of p b q Hp Hq) as (prev' & Hprev' & Hh & H0). rewrite Hprev in Hprev'. injection Hprev' as <-.
  unfold list_of at 1. rewrite Hp. cbn [list_at]. rewrite Hp, Ha, Hq. cbn [negb mbind option_bind]. rewrite Hprev. cbn [fmap option_fmap option_map].
  unfold list_of. rewrite Hprev. by rewrite (list_at_fuel _ (S (Z.to_nat (nHeight prev))) q prev Hprev) by lia.
Qed.

(** Every list is well formed and carries the hash of its block. *)
Lemma list_of_inv n : forall p b l, H !! p = Some b -> (Z.to_nat (nHeight b) < n)%nat -> list_of p = Some (Ok l) ->
  list_inv l /\ blockHash l = phashBlock b /\ (isDIP0003Active (nHeight b) = true -> list_nHeight l = nHeight b).
Proof.
  induction n as [|n IH]; intros p b l Hp Hn; [lia|]. destruct (isDIP0003Active (nHeight b)) eqn:Ha.
  2: { rewrite (list_of_initial p b Hp Ha). intros [= <-]. split_and!; [|done|done]. split; [apply list_new_ok|done|cbn; lia]. }
  destruct (pprev b) as [q|] eqn:Eq.
  2: { unfold list_of. rewrite Hp. cbn [list_at]. by rewrite Hp, Ha, Eq. }
  destruct (parent_of p b q Hp Eq) as (prev & Hprev & Hh & H0). rewrite (list_of_block p b q prev Hp Ha Eq Hprev).
  destruct (list_of q) as [[old|]|] eqn:Eold; [|done..]. cbn [dbind].
  destruct (BuildNewListFromBlock _ _ _ old) as [[new|]|] eqn:Enew; [|done..]. cbn [dbind]. intros [= <-].
  destruct (IH q prev old Hprev ltac:(lia) Eold) as (Hold & _ & _).
  destruct (Hregular p b q prev old new Hp Ha Eq Hprev Eold Enew) as (Hlt & _ & _).
  destruct (@BuildNewListFromBlock_kept _ _ (ctx p) _ (vtx p) _ _ old new Hold Hlt Enew) as (Hnew & Hnh & _ & _).
  split_and!; [|done|intros _; cbn; lia]. destruct Hnew as [[] ? ?]. split; [by split|done|done].
Qed.

(** The list of a block follows the list of its parent. *)
Lemma list_of_successor p b q prev old new : H !! p = Some b -> isDIP0003Active (nHeight b) = true -> pprev b = Some q -> H !! q = Some prev ->
  list_of q = Some (Ok old) -> list_of p = Some (Ok new) -> successor old new.
Proof.
  intros Hp Ha Eq Hprev Eold Enew. destruct (list_of_inv _ q prev old Hprev (Nat.lt_succ_diag_r _) Eold) as (Hold & _ & _).
  rewrite (list_of_block p b q prev Hp Ha Eq Hprev), Eold in Enew. cbn [dbind] in Enew.
  destruct (BuildNewListFromBlock _ _ _ old) as [[new0|]|] eqn:E; [|done..]. cbn [dbind] in Enew. injection Enew as <-.
  destruct (Hregular p b q prev old new0 Hp Ha Eq Hprev Eold E) as (Hlt & Hlt' & Hreg).
  destruct (@BuildNewListFromBlock_kept _ _ (ctx p) _ (vtx p) _ _ old new0 Hold Hlt E) as (Hnew & _ & Hle & Hk).
  destruct (kept_successor old new0 Hold Hnew Hk Hle Hlt' Hreg) as [? [] ? ? ? ? ?]. by split.
Qed.

(** What is stored for a block: the difference of its list to the list of its parent. *)
Definition diff_of (p : ptr) (d : CDeterministicMNListDiff) : Prop :=
  exists b q prev old new, H !! p = Some b /\ isDIP0003Active (nHeight b) = true /\ pprev b = Some q /\ H !! q = Some prev /\
    list_of q = Some (Ok old) /\ list_of p = Some (Ok new) /\ d = BuildDiff c amount old new.

(** The relation between the specification and the manager. *)
Record sim (S : gset ptr) (m : CDeterministicMNManager) : Prop := {
  sim_closed : forall p b q, p ∈ S -> H !! p = Some b -> pprev b = Some q -> known S q = true;
  sim_stored : forall p b, H !! p = Some b -> p ∈ S -> exists d, db_diffs m !! phashBlock b = Some d /\ diff_of p d;
  sim_unknown : forall p b, H !! p = Some b -> p ∉ S -> db_diffs m !! phashBlock b = None;
  sim_snapshots : forall p b r, H !! p = Some b -> db_snapshots m !! phashBlock b = Some r -> exists l, list_of p = Some (Ok l) /\ r = list_Serialize l;
  sim_lists : forall p b l, H !! p = Some b -> mnListsCache m !! phashBlock b = Some l -> list_of p = Some (Ok l);
  sim_diffs : forall p b x, H !! p = Some b -> mnListDiffsCache m !! phashBlock b = Some x -> p ∈ S /\ diff_of p x.1
}.

Lemma emplace_Some {V} (m : gmap Z V) k v k' v' : emplace m k v !! k' = Some v' -> m !! k' = Some v' \/ (k' = k /\ v' = v).
Proof.
  unfold emplace. destruct (m !! k) eqn:E; [by left|]. rewrite lookup_insert_Some. intros [[-> ->]|[_ ?]]; [by right|by left].
Qed.

Lemma emplace_subseteq {V} (m : gmap Z V) k v : m ⊆ emplace m k v.
Proof. unfold emplace. destruct (m !! k) eqn:E; [done|]. by apply insert_subseteq. Qed.

Lemma sim_cache_list S m p b l : sim S m -> H !! p = Some b -> list_of p = Some (Ok l) -> sim S (cache_list m (phashBlock b) l).
Proof.
  intros [] Hp Hl. split; [done..| |done]. intros p' b' l' Hp' [Hl'|[E ->]]%emplace_Some; [eauto|].
  by rewrite (Hhash p' p b' b Hp' Hp E).
Qed.

Lemma sim_cache_diff S m p b d h : sim S m -> H !! p = Some b -> p ∈ S -> diff_of p d -> sim S (cache_diff m (phashBlock b) d h).
Proof.
  intros [] Hp HS Hd. split; [done..|]. intros p' b' x Hp' [Hx|[E ->]]%emplace_Some; [eauto|].
  by rewrite (Hhash p' p b' b Hp' Hp E).
Qed.

(** Caches may lose entries at any time. *)
Lemma sim_shrink S m lists diffs t n q : sim S m -> lists ⊆ mnListsCache m -> diffs ⊆ mnListDiffsCache m ->
  sim S (mkManager (db_diffs m) (db_snapshots m) lists diffs t n q).
Proof.
  intros [] Hl Hd. split; cbn; [done..| |].
  - intros p b l Hp E. eapply sim_lists0; [done|]. by eapply lookup_weaken.
  - intros p b x Hp E. eapply sim_diffs0; [done|]. by eapply lookup_weaken.
Qed.

Lemma known_heap S p : known S p = true -> exists b, H !! p = Some b /\ (isDIP0003Active (nHeight b) = false \/ p ∈ S).
Proof.
  unfold known. destruct (H !! p) as [b|]; [|done]. rewrite orb_true_iff, negb_true_iff, bool_decide_eq_true. eauto.
Qed.

Lemma diff_of_fun p d d' : diff_of p d -> diff_of p d' -> d = d'.
Proof. intros (b & q & prev & old & new & ? & ? & ? & ? & ? & ? & ->) (b' & q' & prev' & old' & new' & ? & ? & ? & ? & ? & ? & ->). congruence. Qed.

Lemma diff_of_reread p d : diff_of p d -> ListDiff_reread amount d = d.
Proof.
  intros (b & q & prev & old & new & Hp & Ha & Hq & Hprev & Hold & Hnew & ->). apply ListDiff_reread_id.
  - by apply (list_of_inv _ q prev old Hprev (Nat.lt_succ_diag_r _)).
  - by apply (list_of_inv _ p b new Hp (Nat.lt_succ_diag_r _)).
Qed.

(** One step of [apply_diffs]. *)
Definition apply_one (b : CBlockIndex) (d : CDeterministicMNListDiff) (l : CDeterministicMNList) : option CDeterministicMNList :=
  if HasChanges d then ApplyDiff l (phashBlock b) (nHeight b) d else Some (SetHeight (SetBlockHash l (phashBlock b)) (nHeight b)).

Lemma apply_one_spec p b q d old : diff_of p d -> H !! p = Some b -> pprev b = Some q -> list_of q = Some (Ok old) ->
  exists new, list_of p = Some (Ok new) /\ apply_one b d old = Some new.
Proof.
  intros (b' & q' & prev & old' & new & Hp & Ha & Hq & Hprev & Hold & Hnew & ->) Hp' Hq' Hold'.
  rewrite Hp in Hp'. injection Hp' as <-. rewrite Hq in Hq'. injection Hq' as <-. rewrite Hold in Hold'. injection Hold' as <-.
  exists new. split; [done|]. destruct (list_of_inv _ p b' new Hp (Nat.lt_succ_diag_r _) Hnew) as (_ & Hb & Hh).
  pose proof (ApplyDiff_BuildDiff c amount old' new (list_of_successor p b' q' prev old' new Hp Ha Hq Hprev Hold Hnew)) as E.
  rewrite Hb, (Hh Ha) in E. unfold apply_one. destruct (HasChanges _) eqn:Ec; [exact E|]. by rewrite HasChanges_none in E.
Qed.

Lemma apply_diffs_cons m l p ps : apply_diffs m l (p :: ps) =
  b ← H !! p; x ← mnListDiffsCache m !! phashBlock b; l ← apply_one b x.1 l; apply_diffs m l ps.
Proof. cbn [apply_diffs]. destruct (H !! p) as [b|]; [|done]. cbn. by destruct (mnListDiffsCache m !! phashBlock b) as [[d n]|]. Qed.

Lemma apply_diffs_app m ps1 ps2 : forall l, apply_diffs m l (ps1 ++ ps2) = l ← apply_diffs m l ps1; apply_diffs m l ps2.
Proof.
  induction ps1 as [|p ps1 IH]; intros l; [done|]. rewrite <- app_comm_cons, !apply_diffs_cons.
  destruct (H !! p) as [b|]; [|done]. cbn. destruct (mnListDiffsCache m !! phashBlock b) as [x|]; [|done]. cbn.
  destruct (apply_one b x.1 l) as [l1|]; [|done]. apply IH.
Qed.

(** The walk from a block with a cached difference. *)
Lemma walk_step S m p b q x l0 idx lq : sim S m -> H !! p = Some b -> pprev b = Some q -> mnListDiffsCache m !! phashBlock b = Some x ->
  list_of q = Some (Ok lq) -> apply_diffs m l0 idx = Some lq ->
  exists l, list_of p = Some (Ok l) /\ apply_diffs m l0 (idx ++ [p]) = Some l.
Proof.
  intros Hs Hp Hq Hx Hlq Happ. destruct (apply_one_spec p b q x.1 lq) as (new & Hnew & E); [by apply (sim_diffs _ _ Hs p b x)|done..|].
  exists new. split; [done|]. rewrite apply_diffs_app, Happ. cbn [mbind option_bind]. rewrite apply_diffs_cons, Hp. cbn [mbind option_bind].
  by rewrite Hx; cbn [mbind option_bind]; rewrite E.
Qed.

Lemma find_snapshot_spec S fuel : forall p b m acc, H !! p = Some b -> (Z.to_nat (nHeight b) < fuel)%nat -> sim S m -> known S p = true ->
  exists l0 idx m' l, find_snapshot fuel m p acc = Some (l0, idx ++ acc, m') /\ sim S m' /\ mnListDiffsCache m ⊆ mnListDiffsCache m' /\
    tipIndex m' = tipIndex m /\ list_of p = Some (Ok l) /\ apply_diffs m' l0 idx = Some l.
Proof.
  induction fuel as [|fuel IH]; intros p b m acc Hp Hfuel Hs Hk; [lia|]. cbn [find_snapshot]. rewrite Hp. cbn [mbind option_bind].
  destruct (mnListsCache m !! phashBlock b) as [l|] eqn:El.
  { exists l, [], m, l. split_and!; try done. by apply (sim_lists _ _ Hs p b). }
  destruct (db_snapshots m !! phashBlock b) as [r|] eqn:Er.
  { destruct (sim_snapshots _ _ Hs p b r Hp Er) as (l & Hl & ->).
    rewrite list_roundtrip by (by apply (list_of_inv _ p b l Hp (Nat.lt_succ_diag_r _))). cbn [mbind option_bind].
    exists l, [], (cache_list m (phashBlock b) l), l. split_and!; try done. by apply (sim_cache_list _ _ p). }
  assert (Hgo : forall m1 x, sim S m1 -> mnListDiffsCache m1 !! phashBlock b = Some x -> mnListDiffsCache m ⊆ mnListDiffsCache m1 -> tipIndex m1 = tipIndex m ->
    exists l0 idx m' l, (q ← pprev b; find_snapshot fuel m1 q (p :: acc)) = Some (l0, idx ++ acc, m') /\ sim S m' /\
      mnListDiffsCache m ⊆ mnListDiffsCache m' /\ tipIndex m' = tipIndex m /\ list_of p = Some (Ok l) /\ apply_diffs m' l0 idx = Some l).
  { intros m1 x Hs1 Hx Hsub Ht. destruct (sim_diffs _ _ Hs1 p b x Hp Hx) as [HS (b' & q & prev & ? & ? & Hp' & Ha & Hq & Hprev & _)].
    rewrite Hp in Hp'. injection Hp' as <-. rewrite Hq. cbn [mbind option_bind]. destruct (parent_of p b q Hp Hq) as (prev' & Hprev' & Hh & H0).
    rewrite Hprev in Hprev'. injection Hprev' as <-.
    destruct (IH q prev m1 (p :: acc) Hprev ltac:(lia) Hs1 (sim_closed _ _ Hs1 p b q HS Hp Hq)) as (l0 & idx & m' & lq & -> & Hs' & Hsub' & Ht' & Hlq & Happ).
    destruct (walk_step S m' p b q x l0 idx lq Hs' Hp Hq) as (l & Hl & E); [by eapply lookup_weaken|done..|].
    exists l0, (idx ++ [p]), m', l. rewrite <- app_assoc. split_and!; [done|done|by etrans|congruence|done|done]. }
  destruct (mnListDiffsCache m !! phashBlock b) as [x|] eqn:Ex; [by apply (Hgo m x)|].
  destruct (db_diffs m !! phashBlock b) as [d|] eqn:Ed.
  - destruct (decide (p ∈ S)) as [HS|HS]; [|by rewrite (sim_unknown _ _ Hs p b Hp HS) in Ed].
    destruct (sim_stored _ _ Hs p b Hp HS) as (d' & Ed' & Hd). rewrite Ed in Ed'. injection Ed' as <-. rewrite (diff_of_reread p d Hd).
    apply (Hgo _ (d, nHeight b)); [by apply (sim_cache_diff _ _ p)| |apply emplace_subseteq|done].
    cbn. unfold emplace. rewrite Ex. apply lookup_insert_eq.
  - destruct (known_heap S p Hk) as (b' & Hp' & Hin). rewrite Hp in Hp'. injection Hp' as <-.
    destruct Hin as [Ha|HS]; [|destruct (sim_stored _ _ Hs p b Hp HS) as (d & Ed' & _); congruence].
    pose proof (list_of_initial p b Hp Ha) as Hl. exists (list_new (phashBlock b) (-1) 0), [], (cache_list m (phashBlock b) (list_new (phashBlock b) (-1) 0)), (list_new (phashBlock b) (-1) 0).
    split_and!; try done. by apply (sim_cache_list _ _ p).
Qed.

Definition tip_ok (m : CDeterministicMNManager) : Prop := forall t, tipIndex m = Some t -> is_Some (H !! t).

Lemma keep_snapshot_spec S m p b l : sim S m -> tip_ok m -> H !! p = Some b -> list_of p = Some (Ok l) ->
  exists m', keep_snapshot m l = Some m' /\ sim S m' /\ tipIndex m' = tipIndex m.
Proof.
  intros Hs Ht Hp Hl. unfold keep_snapshot. destruct (tipIndex m) as [t|] eqn:Et; [|by exists m].
  destruct (Ht t Et) as [tip ->]. cbn [mbind option_bind]. destruct (_ || _); [|by exists m].
  rewrite (proj1 (proj2 (list_of_inv _ p b l Hp (Nat.lt_succ_diag_r _) Hl))). eexists. split; [done|]. split; [|done].
  by apply (sim_cache_list _ _ p).
Qed.

Lemma GetListForBlock_spec S m p low : sim S m -> tip_ok m -> known S p = true ->
  exists l m', GetListForBlock low m p = Some (l, m') /\ list_of p = Some (Ok l) /\ sim S m' /\ tipIndex m' = tipIndex m.
Proof.
  intros Hs Ht Hk. destruct (known_heap S p Hk) as (b & Hp & _). unfold GetListForBlock. rewrite Hp. cbn [mbind option_bind].
  destruct (find_snapshot_spec S _ p b m [] Hp (Nat.lt_succ_diag_r _) Hs Hk) as (l0 & idx & m1 & l & -> & Hs1 & _ & Ht1 & Hl & Happ).
  cbn [mbind option_bind]. rewrite app_nil_r, Happ. cbn [mbind option_bind].
  destruct (keep_snapshot_spec S m1 p b l Hs1) as (m2 & -> & Hs2 & Ht2); [intros t; rewrite Ht1; apply Ht|done|done|].
  cbn [mbind option_bind]. eexists _, _. split; [done|]. split; [done|]. split; [|cbn; congruence]. by apply sim_shrink.
Qed.

Lemma known_mono S p q : known S q = true -> known ({[p]} ∪ S) q = true.
Proof.
  unfold known. destruct (H !! q); [|done]. rewrite !orb_true_iff, !bool_decide_eq_true, elem_of_union. tauto.
Qed.

Lemma sim_store S m p b q d : sim S m -> H !! p = Some b -> pprev b = Some q -> known S q = true -> diff_of p d ->
  sim ({[p]} ∪ S) (write_diff m (phashBlock b) d).
Proof.
  intros [Hc Hst Hun Hsn Hli Hdi] Hp Hq Hk Hd. split; cbn.
  - intros p' b' q' [->%elem_of_singleton|HS]%elem_of_union Hp' Hq'; apply known_mono; [congruence|by apply (Hc p' b')].
  - intros p' b' Hp' HS. destruct (decide (p' = p)) as [->|Hne].
    + rewrite Hp in Hp'. injection Hp' as <-. exists d. by rewrite lookup_insert_eq.
    + destruct (Hst p' b' Hp') as (d' & E & Hd'); [by apply elem_of_union in HS as [?%elem_of_singleton|?]|]; exists d'. split; [|done].
      rewrite lookup_insert_ne; [done|]. intros E'. by destruct (Hne (Hhash p' p b' b Hp' Hp (eq_sym E'))).
  - intros p' b' Hp' HS. rewrite lookup_insert_ne; [apply (Hun p'); [done|clear -HS; set_solver]|]. intros E'.
    rewrite (Hhash p' p b' b Hp' Hp (eq_sym E')) in HS. clear -HS. set_solver.
  - exact Hsn.
  - exact Hli.
  - intros p' b' x Hp' Hx. destruct (Hdi p' b' x Hp' Hx). split; [by apply elem_of_union_r|done].
Qed.

Lemma sim_snapshot S m p b l : sim S m -> H !! p = Some b -> list_of p = Some (Ok l) -> sim S (write_snapshot m (phashBlock b) (list_Serialize l)).
Proof.
  intros [] Hp Hl. split; cbn; [done..| |done|done]. intros p' b' r Hp'. rewrite lookup_insert_Some. intros [[E <-]|[_ Hr]]; [|eauto].
  rewrite (Hhash p' p b' b Hp' Hp (eq_sym E)). eauto.
Qed.

Lemma CleanupCache_spec S m h : sim S m -> sim S (CleanupCache m h) /\ tipIndex (CleanupCache m h) = tipIndex m.
Proof.
  intros Hs. unfold CleanupCache. destruct (_ <? _); [done|]. split; [|done]. apply sim_shrink; [done|apply map_filter_subseteq..].
Qed.

(** What [ProcessBlock] does once the block is accepted. *)
Lemma store_block_spec S m p b q d l (cond : bool) : sim S m -> H !! p = Some b -> pprev b = Some q -> known S q = true -> diff_of p d ->
  list_of p = Some (Ok l) ->
  let m1 := write_diff m (phashBlock b) d in
  let m2 := if cond then cache_list (write_snapshot m1 (phashBlock b) (list_Serialize l)) (phashBlock b) l else m1 in
  let m3 := CleanupCache (cache_diff m2 (phashBlock b) d (nHeight b)) (nHeight b) in
  sim ({[p]} ∪ S) m3 /\ tipIndex m3 = tipIndex m.
Proof.
  intros Hs Hp Hq Hk Hd Hl m1 m2 m3. pose proof (sim_store S m p b q d Hs Hp Hq Hk Hd) as Hs1. fold m1 in Hs1.
  assert (Hs2 : sim ({[p]} ∪ S) m2).
  { unfold m2. destruct cond; [|done]. apply (sim_cache_list _ _ p); [|done|done]. by apply (sim_snapshot _ _ p). }
  destruct (CleanupCache_spec ({[p]} ∪ S) (cache_diff m2 (phashBlock b) d (nHeight b)) (nHeight b)) as [Hs3 Ht].
  { apply (sim_cache_diff _ _ p); [done|done|by apply elem_of_union_l, elem_of_singleton|done]. }
  split; [done|]. unfold m3. rewrite Ht. unfold m2. by destruct cond.
Qed.

Lemma spec_list_known S p l : spec_list S p = Some l -> known S p = true /\ list_of p = Some (Ok l).
Proof. unfold spec_list. destruct (known S p); [|done]. destruct (list_of p) as [[?|]|]; [|done..]. by intros [= ->]. Qed.

Lemma ProcessBlock_spec S t m p just a s' : sim S m -> tip_ok m -> spec_process (S, t) p just = Some (a, s') ->
  exists r m', ProcessBlock m p just = Some (r, m') /\ a = AnsProcess r /\ sim s'.1 m' /\ tipIndex m' = tipIndex m /\ s'.2 = t.
Proof.
  intros Hs Ht. unfold spec_process, ProcessBlock. destruct (H !! p) as [b|] eqn:Hp; [|done]. cbn [mbind option_bind].
  destruct (isDIP0003Active (nHeight b)) eqn:Ha; cbn [negb]; [|intros [= <- <-]; by exists (Ok None), m].
  destruct (pprev b) as [q|] eqn:Hq; [|done]. cbn [mbind option_bind fst]. destruct (spec_list S q) as [old|] eqn:Eold; [|done]. cbn [mbind option_bind].
  apply spec_list_known in Eold as [Hk Hold]. destruct (parent_of p b q Hp Hq) as (prev & Hprev & Hh & H0). rewrite Hprev. cbn [mbind option_bind].
  destruct (GetListForBlock_spec S m q (@SPORK_21_active (ctx p)) Hs Ht Hk) as (old' & m1 & -> & Hold' & Hs1 & Ht1). rewrite Hold in Hold'. injection Hold' as <-.
  cbn [mbind option_bind]. pose proof (list_of_block p b q prev Hp Ha Hq Hprev) as Hl. rewrite Hold in Hl. cbn [dbind] in Hl.
  destruct (BuildNewListFromBlock _ _ _ old) as [[new|e]|] eqn:Enew; cbn [dbind] in Hl; rewrite Hl; [| |done]; cbn [mbind option_bind dret].
  2: { intros [= <- <-]. by exists (Err e), m1. }
  destruct just; [intros [= <- <-]; by eexists (Ok None), _; split_and!; [done|done|by apply sim_shrink|done|done]|]. cbv zeta. intros [= <- <-].
  destruct (list_of_inv _ p b _ Hp (Nat.lt_succ_diag_r _) Hl) as (_ & _ & Hnh). specialize (Hnh Ha). cbn in Hnh.
  rewrite (proj2 (Z.eqb_neq (list_nHeight new) (-1))) by lia.
  set (m2 := update_quorums _ _ _ _ _).
  destruct (GetListForBlock_spec S m2 q (@SPORK_21_active (ctx p))) as (old' & m3 & -> & Hold' & Hs3 & Ht3);
    [by apply sim_shrink|by intros t'; cbn; rewrite Ht1; apply Ht|done|].
  rewrite Hold in Hold'. injection Hold' as <-. cbn [mbind option_bind].
  change (blockHash (SetBlockHash new (phashBlock b))) with (phashBlock b).
  destruct (store_block_spec S m3 p b q (BuildDiff c amount old (SetBlockHash new (phashBlock b))) (SetBlockHash new (phashBlock b))
    ((Z.rem (nHeight b) DISK_SNAPSHOT_PERIOD =? 0) || (list_nHeight old =? -1)) Hs3 Hp Hq Hk) as [Hs4 Ht4]; [|done|].
  { by exists b, q, prev, old, (SetBlockHash new (phashBlock b)). }
  eexists _, _. split_and!; [done|done|exact Hs4|by rewrite Ht4, Ht3|done].
Qed.

Lemma UndoBlock_spec S t m p low a s' : sim S m -> tip_ok m -> spec_undo (S, t) p = Some (a, s') ->
  exists r m', UndoBlock low m p = Some (r, m') /\ a = AnsUndo r /\ sim s'.1 m' /\ tipIndex m' = tipIndex m /\ s'.2 = t.
Proof.
  intros Hs Ht. unfold spec_undo, UndoBlock. destruct (H !! p) as [b|] eqn:Hp; [|done]. cbn [mbind option_bind].
  assert (Hend : forall m', sim S m' -> sim S (with_caches m' (delete (phashBlock b) (mnListsCache m')) (delete (phashBlock b) (mnListDiffsCache m')))).
  { intros m' Hs'. apply sim_shrink; [done|apply delete_subseteq..]. }
  destruct (isDIP0003Active (nHeight b)) eqn:Ha; cbn [negb].
  2: { intros [= <- <-]. rewrite (sim_unknown _ _ Hs p b Hp).
       - eexists None, _. split_and!; [done|done|by apply Hend|done|done].
       - intros HS. destruct (sim_stored _ _ Hs p b Hp HS) as (? & _ & b' & ? & ? & ? & ? & Hp' & Ha' & _). congruence. }
  destruct (pprev b) as [q|] eqn:Hq; [|done]. cbn [mbind option_bind fst].
  destruct (spec_list S p) as [new|] eqn:Enew; [|done]. destruct (spec_list S q) as [old|] eqn:Eold; [|done]. cbn [mbind option_bind].
  apply spec_list_known in Enew as [Hkp Hnew]. apply spec_list_known in Eold as [Hkq Hold]. intros [= <- <-].
  assert (HS : p ∈ S) by (destruct (known_heap S p Hkp) as (b' & Hp' & [?|?]); congruence).
  destruct (sim_stored _ _ Hs p b Hp HS) as (d & -> & Hd). rewrite (diff_of_reread p d Hd).
  destruct Hd as (b' & q' & prev & old' & new' & Hp' & _ & Hq' & _ & Hold' & Hnew' & ->).
  rewrite Hp in Hp'. injection Hp' as <-. rewrite Hq in Hq'. injection Hq' as <-. rewrite Hold in Hold'. injection Hold' as <-. rewrite Hnew in Hnew'. injection Hnew' as <-.
  destruct (HasChanges _); cbn [mbind option_bind]; [|eexists None, _; split_and!; [done|done|by apply Hend|done|done]].
  destruct (GetListForBlock_spec S m p low Hs Ht Hkp) as (l1 & m1 & -> & Hl1 & Hs1 & Ht1). cbn [mbind option_bind].
  destruct (GetListForBlock_spec S m1 q low Hs1) as (l2 & m2 & -> & Hl2 & Hs2 & Ht2); [by intros t'; rewrite Ht1; apply Ht|done|].
  cbn [mbind option_bind]. rewrite Hnew in Hl1. injection Hl1 as <-. rewrite Hold in Hl2. injection Hl2 as <-. eexists _, _. split_and!; [done|done|by apply Hend|by rewrite <- Ht1, <- Ht2|done].
Qed.

Lemma exec_spec s m o a s' : sim s.1 m -> tipIndex m = s.2 -> tip_ok m -> spec_exec s o = Some (a, s') ->
  exists m', exec m o = Some (a, m') /\ sim s'.1 m' /\ tipIndex m' = s'.2 /\ tip_ok m'.
Proof.
  destruct s as [S t]. cbn [fst snd]. intros Hs Et Ht.
  assert (Hfin : forall m', tipIndex m' = tipIndex m -> tip_ok m') by (intros m' E t' Et'; apply Ht; congruence).
  destruct o as [p just|p low|p|p low|low]; cbn [spec_exec exec fst snd].
  - intros (r & m' & -> & -> & Hs' & Et' & E2)%(ProcessBlock_spec S t m p just a s' Hs Ht). exists m'. split_and!; [done|done|congruence|by apply Hfin].
  - intros (r & m' & -> & -> & Hs' & Et' & E2)%(UndoBlock_spec S t m p low a s' Hs Ht). exists m'. split_and!; [done|done|congruence|by apply Hfin].
  - intros Hx. exists (UpdatedBlockTip m p). destruct p as [t'|]; [destruct (H !! t') eqn:E; [|done]|]; injection Hx as <- <-;
      (split_and!; [done|by apply sim_shrink|done|]); intros t2; cbn; [intros [= <-]; by eexists|done].
  - destruct (spec_list S p) as [l|] eqn:El; [|done]. apply spec_list_known in El as [Hk Hl]. intros [= <- <-].
    destruct (GetListForBlock_spec S m p low Hs Ht Hk) as (l' & m' & -> & Hl' & Hs' & Et'). rewrite Hl in Hl'. injection Hl' as <-.
    exists m'. split_and!; [done|done|cbn; congruence|by apply Hfin].
  - unfold GetListAtChainTip. rewrite Et. destruct t as [t|]; [|intros [= <- <-]; by exists m].
    destruct (spec_list S t) as [l|] eqn:El; [|done]. apply spec_list_known in El as [Hk Hl]. intros [= <- <-].
    destruct (GetListForBlock_spec S m t low Hs Ht Hk) as (l' & m' & -> & Hl' & Hs' & Et'). rewrite Hl in Hl'. injection Hl' as <-.
    exists m'. split_and!; [done|done|cbn; congruence|by apply Hfin].
Qed.

Lemma run_spec os : forall answers s m, sim s.1 m -> tipIndex m = s.2 -> tip_ok m -> spec_run s os = Some answers -> run m os = Some answers.
Proof.
  induction os as [|o os IH]; intros answers s m Hs E Ht; cbn [spec_run run]; [done|].
  destruct (spec_exec s o) as [[a s']|] eqn:Ex; [|done]. cbn [mbind option_bind].
  destruct (exec_spec s m o a s' Hs E Ht Ex) as (m' & -> & Hs' & E' & Ht'). cbn [mbind option_bind].
  destruct (spec_run s' os) as [as'|] eqn:Er; [|done]. intros [= <-]. by rewrite (IH as' s' m').
Qed.

(** C9. In a well-formed block tree whose blocks have different hashes and change the lists in a [regular] way (no key and no
    address passes from a node that stays to another one, every id given in a block is still that of a node after it, and the counts
    stay below [2^32]), and through any sequence of connected and disconnected blocks, tips and questions about
    processed blocks that the specification defines ([spec_run]: an operation is about a block whose list is known), the
    manager answers as if the list of every block were computed from the first block
    on: whatever is cached, evicted or only on disk as a difference, no assertion fails, the list of a block is the one
    that processing the block computed, and a block is refused for the same reason. *)
Theorem manager_refines_lists quorums0 os answers :
  spec_run (∅, None) os = Some answers -> run (manager_new quorums0) os = Some answers.
Proof.
  apply run_spec; [|done|done]. split; cbn; try (intros *; rewrite lookup_empty; done); intros *; rewrite elem_of_empty; done.
Qed.
End Manager.

(** ** A check of [regular] *)

Section Check.
Definition same_slot (d d' : CDeterministicMN) : bool :=
  existsb (fun u => bool_decide (slot d' u = u) && negb (uprop_null u))
    [UOutPoint (collateralOutpoint d); UService (addr (pdmnState d)); UKeyID (keyIDOwner (pdmnState d)); UBLS (pubKeyOperator (pdmnState d))].
Definition regularb (old new : CDeterministicMNList) : bool :=
  let added := filter (fun x => mnMap old !! x.1 = None) (map_to_list (mnMap new)) in
  bool_decide ((fun x => internalId x.2) <$> added ≡ₚ seqZ (nTotalRegisteredCount old) (nTotalRegisteredCount new - nTotalRegisteredCount old)) &&
  forallb (fun x => forallb (fun y => negb (same_slot x.2 y.2) || (x.1 =? y.1) || bool_decide (mnMap new !! x.1 = None))
    (map_to_list (mnMap new))) (map_to_list (mnMap old)).

Lemma same_slot_true d d' u : has_prop d u -> has_prop d' u -> same_slot d d' = true.
Proof.
  intros [Hs Hn] [Hs' _]. unfold same_slot. apply existsb_exists. exists u. rewrite bool_decide_eq_true_2, Hn by done.
  split; [|done]. destruct u; cbn in Hs; rewrite <- Hs; cbn; tauto.
Qed.

Lemma regularb_spec old new : regularb old new = true -> regular old new.
Proof.
  unfold regularb. rewrite andb_true_iff, bool_decide_eq_true, forallb_forall. intros [Hids Hslots]. split.
  - intros id. transitivity (id ∈ seqZ (nTotalRegisteredCount old) (nTotalRegisteredCount new - nTotalRegisteredCount old)); [rewrite elem_of_seqZ; lia|].
    rewrite <- Hids, list_elem_of_fmap. split.
    + intros ([h d] & -> & [Hn Hd%elem_of_map_to_list]%list_elem_of_filter). by exists h, d.
    + intros (h & d & Hd & Hn & <-). exists (h, d). split; [done|]. apply list_elem_of_filter. by rewrite elem_of_map_to_list.
  - intros u h h' (d & Hd & Hu) (d' & Hd' & Hu'). specialize (Hslots (h, d)). rewrite <- list_elem_of_In, elem_of_map_to_list in Hslots.
    specialize (Hslots Hd). rewrite forallb_forall in Hslots. specialize (Hslots (h', d')). rewrite <- list_elem_of_In, elem_of_map_to_list in Hslots.
    specialize (Hslots Hd'). cbn [fst snd] in Hslots. rewrite (same_slot_true d d' u Hu Hu') in Hslots. cbn [negb orb] in Hslots.
    rewrite orb_true_iff, bool_decide_eq_true in Hslots. destruct Hslots; [left; lia|by right].
Qed.
End Check.

(** *** Two branches of three blocks *)

#[local] Existing Instance Sample.hash.
#[local] Existing Instance Sample.hash_spec.
#[local] Existing Instance BlockSample.txs.
Module ManagerSample.
Definition block (hash : Z) (prev : option ptr) (height : Z) : CBlockIndex := mkBlockIndex hash prev None height [] 0 1 0 0 0.
(** Block 0 is older than the smartnodes; blocks 2 and 3 both follow block 1. *)
Definition index : heap := list_to_map [(0, block 100 None 0); (1, block 101 (Some 0) 1); (2, block 102 (Some 1) 2); (3, block 103 (Some 1) 2)].
(** Nodes 11 and 12 are registered; in one branch 11 leaves and 13 arrives, in the other 14 has the keys of 12. *)
Definition txs_of (p : ptr) : list CTransaction :=
  if p =? 1 then [BlockSample.coinbase; BlockSample.reg 11 [0; 0; 11]; BlockSample.reg 12 [0; 0; 12]]
  else if p =? 2 then [BlockSample.coinbase; BlockSample.spend 30 (11, 0); BlockSample.reg 13 [0; 0; 13]]
  else [BlockSample.coinbase; BlockSample.reg 14 [0; 0; 12]].
Definition ctx_of (p : ptr) : BlockContext := BlockSample.ctx.
Definition list_after (p : ptr) : dmn CDeterministicMNList := list_of index txs_of ctx_of 1 p.

Definition block_regular (p : ptr) : bool :=
  match index !! p with
  | Some b =>
      match pprev b ≫= fun q => (q,.) <$> index !! q with
      | Some (q, prev) =>
          match list_after q with
          | Some (Ok old) =>
              match @BuildNewListFromBlock _ (ctx_of p) _ (txs_of p) (nHeight prev) (phashBlock prev) old with
              | Some (Ok new) => (nTotalRegisteredCount old + Z.of_nat (length (txs_of p)) <? 2 ^ 32) && (nTotalRegisteredCount new <? 2 ^ 32) && regularb old new
              | _ => true
              end
          | _ => true
          end
      | None => true
      end
  | None => true
  end.

(** Block 1 is checked and processed, then block 2, which is undone for block 3; block 3 is refused and block 2 is processed again. *)
Definition operations : list operation :=
  [OpProcess 0 false; OpProcess 1 true; OpProcess 1 false; OpTip (Some 1); OpProcess 2 false; OpTip (Some 2); OpGetTip false;
   OpUndo 2 false; OpTip (Some 1); OpGetTip false; OpProcess 3 false; OpProcess 2 false; OpTip (Some 2); OpGet 1 false; OpGet 2 false].
Definition answers : list answer := default [] (spec_run index txs_of ctx_of Sample.nodes_collaterals 1 0 (∅, None) operations).
Definition nodes (a : answer) : list Z := match a with AnsList l => (map_to_list (mnMap l)).*1 | _ => [] end.
End ManagerSample.

Lemma sample_blocks p b : ManagerSample.index !! p = Some b ->
  (p = 0 /\ b = ManagerSample.block 100 None 0) \/ (p = 1 /\ b = ManagerSample.block 101 (Some 0) 1) \/
  (p = 2 /\ b = ManagerSample.block 102 (Some 1) 2) \/ (p = 3 /\ b = ManagerSample.block 103 (Some 1) 2).
Proof.
  unfold ManagerSample.index. cbn. rewrite !lookup_insert_Some, lookup_empty. intuition congruence.
Qed.

Lemma sample_heap : wf_heap ManagerSample.index.
Proof.
  intros p b Hp. destruct (sample_blocks p b Hp) as [[-> ->]|[[-> ->]|[[-> ->]|[-> ->]]]]; (split; [cbn; lia|split; [|done]]); [done|..]; cbn.
  - exists (ManagerSample.block 100 None 0). split; [by vm_compute|done].
  - exists (ManagerSample.block 101 (Some 0) 1). split; [by vm_compute|done].
  - exists (ManagerSample.block 101 (Some 0) 1). split; [by vm_compute|done].
Qed.

Lemma sample_regular p b q prev old new : ManagerSample.index !! p = Some b -> pprev b = Some q -> ManagerSample.index !! q = Some prev ->
  ManagerSample.list_after q = Some (Ok old) ->
  @BuildNewListFromBlock _ (ManagerSample.ctx_of p) _ (ManagerSample.txs_of p) (nHeight prev) (phashBlock prev) old = Some (Ok new) ->
  nTotalRegisteredCount old + Z.of_nat (length (ManagerSample.txs_of p)) < 2 ^ 32 /\ nTotalRegisteredCount new < 2 ^ 32 /\ regular old new.
Proof.
  intros Hp Hq Hprev Hold Hnew.
  assert (E : ManagerSample.block_regular p = true).
  { destruct (sample_blocks p b Hp) as [[-> _]|[[-> _]|[[-> _]|[-> _]]]]; clear; vm_compute; reflexivity. }
  unfold ManagerSample.block_regular in E. rewrite Hp, Hq in E. cbn [mbind option_bind] in E. rewrite Hprev in E. cbn [fmap option_fmap option_map] in E.
  rewrite Hold, Hnew in E. rewrite !andb_true_iff, !Z.ltb_lt in E. destruct E as [[E1 E2] E3%regularb_spec]. done.
Qed.

Lemma manager_refines_lists_witness :
  ManagerSample.nodes <$> ManagerSample.answers !! 6%nat = Some [13; 12] /\ ManagerSample.answers !! 10%nat = Some (AnsProcess (Err bad_protx_dup_addr)) /\
  run ManagerSample.index ManagerSample.txs_of ManagerSample.ctx_of Sample.nodes_collaterals 1 0 false (manager_new llmq_main) ManagerSample.operations
    = Some ManagerSample.answers.
Proof.
  split; [by vm_compute|]. split; [by vm_compute|].
  apply manager_refines_lists; [apply _|exact sample_heap| | |].
  - intros p p' b b' Hp Hp'. destruct (sample_blocks p b Hp) as [[-> ->]|[[-> ->]|[[-> ->]|[-> ->]]]];
      destruct (sample_blocks p' b' Hp') as [[-> ->]|[[-> ->]|[[-> ->]|[-> ->]]]]; cbn; lia.
  - intros p b q prev old new Hp _. by apply sample_regular.
  - by vm_compute.
Defined.

(** A question about a block that is not processed yet caches an empty list for it, and [emplace] keeps that list when
    the block is processed: the two nodes that block 1 registers are missing afterwards. *)
Theorem early_question_hides_list :
  option_map (fun r => match r with Ok l => ManagerSample.nodes (AnsList l) | Err _ => [] end) (ManagerSample.list_after 1) = Some [11; 12] /\
  option_map (map ManagerSample.nodes) (run ManagerSample.index ManagerSample.txs_of ManagerSample.ctx_of Sample.nodes_collaterals 1 0 false
    (manager_new llmq_main) [OpGet 1 false; OpProcess 1 false; OpTip (Some 1); OpGet 1 false]) = Some [[]; []; []; []].
Proof. split; vm_compute; reflexivity. Qed.
