(* ===== verification/Base58.v ===== *)
(** Base58 ([base58.cpp]): the conversion of radix in place, the checksum, and the addresses and keys that
    are shown to users. Characters and bytes are their codes; a C string ends at the end of the list. *)

From stdpp Require Import prelude.
From Stdlib Require Import ZArith Lia.
From S2P Require Import Prelude Serialize Hasher Fips180 Sha256 Hashes Script Standard.

Open Scope Z_scope.

(** ** The code *)

(** ["123456789ABCDEFGHJKLMNPQRSTUVWXYZabcdefghijkmnopqrstuvwxyz"] *)
Definition pszBase58 : list Z :=
  seqZ 49 9 ++ seqZ 65 8 ++ seqZ 74 5 ++ seqZ 80 11 ++ seqZ 97 11 ++ seqZ 109 14.
Definition char58 (d : Z) : Z := nth (Z.to_nat d) pszBase58 0.
(** [isspace] in the C locale. *)
Definition isspace (c : Z) : bool := (c =? 32) || ((9 <=? c) && (c <=? 13)).
Fixpoint drop_while (f : Z -> bool) (s : list Z) : list Z :=
  match s with c :: s' => if f c then drop_while f s' else s | [] => [] end.
(** The leading elements with a property, counted, and the rest. *)
Fixpoint count_while (f : Z -> bool) (s : list Z) : nat * list Z :=
  match s with
  | c :: s' => if f c then let '(n, r) := count_while f s' in (S n, r) else (O, s)
  | [] => (O, [])
  end.
(** [strchr], for a character that is not the end of the string. *)
Fixpoint strchr (s : list Z) (c : Z) : option Z :=
  match s with
  | [] => None
  | c' :: s' => if c' =? c then Some 0 else option_map Z.succ (strchr s' c)
  end.

(** The inner loop of both functions, from [rbegin]: the vector is its elements from the last one on.
    It gives the vector, the carry and [i]. *)
Fixpoint mul_add (base mul : Z) (ds : list Z) (carry : Z) (i length : nat) : list Z * Z * nat :=
  match ds with
  | [] => ([], carry, i)
  | d :: ds' =>
      if negb (carry =? 0) || (i <? length)%nat then
        let carry := carry + mul * d in
        let '(r, carry', i') := mul_add base mul ds' (carry / base) (S i) length in
        (carry mod base :: r, carry', i')
      else (ds, carry, i)
  end.
(** One digit; [None] is the failed assertion. *)
Definition add_digit (base mul : Z) (st : list Z * nat) (d : Z) : option (list Z * nat) :=
  let '(v, length) := st in
  let '(v, carry, i) := mul_add base mul v d 0 length in
  if carry =? 0 then Some (v, i) else None.
Fixpoint add_digits (base mul : Z) (st : list Z * nat) (ds : list Z) : option (list Z * nat) :=
  match ds with [] => Some st | d :: ds => st ← add_digit base mul st d; add_digits base mul st ds end.
(** [std::vector<unsigned char> v(size)] throws when the [int] is negative. *)
Definition new_vector (size : Z) : option (list Z) :=
  if s32 size <? 0 then None else Some (replicate (Z.to_nat (s32 size)) 0).
(** From [begin() + (size - length)] on, without leading zeroes. *)
Definition significant (st : list Z * nat) : list Z :=
  drop_while (Z.eqb 0) (drop (length st.1 - st.2)%nat (reverse st.1)).

Definition EncodeBase58 (pbegin : list Z) : option (list Z) :=
  let '(zeroes, p) := count_while (Z.eqb 0) pbegin in
  b58 ← new_vector (Z.of_nat (length p) * 138 / 100 + 1);
  st ← add_digits 58 256 (b58, O) p;
  Some (replicate zeroes 49 ++ map char58 (significant st)).

(** The digits of the leading characters, up to a space; the flag is set when a character is not in the alphabet. *)
Fixpoint digits_of (psz : list Z) : list Z * bool * list Z :=
  match psz with
  | [] => ([], false, [])
  | c :: rest =>
      if isspace c then ([], false, psz)
      else match strchr pszBase58 c with
           | None => ([], true, psz)
           | Some d => let '(ds, bad, r) := digits_of rest in (d :: ds, bad, r)
           end
  end.
(** The outer [None] is a failed assertion, the inner one the result [false]. *)
Definition DecodeBase58 (psz : list Z) : option (option (list Z)) :=
  let psz := drop_while isspace psz in
  let '(zeroes, psz) := count_while (Z.eqb 49) psz in
  b256 ← new_vector (Z.of_nat (length psz) * 733 / 1000 + 1);
  let '(ds, bad, rest) := digits_of psz in
  st ← add_digits 256 58 (b256, O) ds;
  Some (if bad then None
        else match drop_while isspace rest with
             | [] => Some (replicate zeroes 0 ++ significant st)
             | _ => None
             end).

(** ** Numbers and their digits *)

Section Radix.
Variable base : Z.
Hypothesis Hbase : 1 < base.

Definition digit (d : Z) : Prop := 0 <= d < base.
(** The least significant digit first. *)
Fixpoint le_val (ds : list Z) : Z := match ds with [] => 0 | d :: ds => d + base * le_val ds end.
(** The most significant digit first. *)
Definition be_val (ds : list Z) : Z := foldl (fun v d => v * base + d) 0 ds.

Lemma be_val_reverse ds : be_val ds = le_val (reverse ds).
Proof.
  unfold be_val. rewrite <- (reverse_involutive ds) at 1. generalize (reverse ds) as es. clear ds. intros es.
  induction es as [|e es IH]; [done|]. rewrite reverse_cons, foldl_app, IH. cbn. lia.
Qed.

Lemma le_val_bound ds : Forall digit ds -> 0 <= le_val ds < base ^ Z.of_nat (length ds).
Proof.
  induction 1 as [|d ds [? ?] _ IH]; [cbn; lia|]. cbn [le_val length]. rewrite Nat2Z.inj_succ, Z.pow_succ_r by lia. nia.
Qed.

Lemma le_val_all_zero ds : Forall (eq 0) ds -> le_val ds = 0.
Proof. induction 1 as [|x xs <- _ IH]; [done|]. cbn [le_val]. rewrite IH. lia. Qed.

(** Without zeroes at the end, a list of digits is determined by its value. *)
Fixpoint norm (ds : list Z) : list Z :=
  match ds with [] => [] | d :: ds => match d, norm ds with 0, [] => [] | _, r => d :: r end end.

Lemma norm_cons d ds : norm (d :: ds) = if (d =? 0) && bool_decide (norm ds = []) then [] else d :: norm ds.
Proof. cbn. destruct d; cbn; [|done|done]. by destruct (norm ds). Qed.

Lemma norm_zero ds : Forall digit ds -> le_val ds = 0 -> norm ds = [].
Proof.
  induction 1 as [|d ds [? ?] Hds IH]; [done|]. cbn [le_val]. pose proof (le_val_bound ds Hds). intros E.
  rewrite norm_cons, IH by nia. assert (d = 0) as -> by nia. done.
Qed.

Lemma norm_nonzero ds : norm ds = [] -> le_val ds = 0.
Proof.
  induction ds as [|d ds IH]; [done|]. rewrite norm_cons. cbn [le_val]. destruct (Z.eqb_spec d 0) as [->|]; [|done].
  case_bool_decide as E; [|done]. intros _. rewrite (IH E). lia.
Qed.

Lemma norm_inj ds : Forall digit ds -> forall es, Forall digit es -> le_val ds = le_val es -> norm ds = norm es.
Proof.
  induction 1 as [|d ds Hd Hds IH]; intros es Hes E; [by rewrite (norm_zero es)|].
  destruct Hes as [|e es He Hes]; [by apply norm_zero; [constructor|]|]. cbn [le_val] in E. destruct Hd, He.
  assert (d = e) as -> by (apply (f_equal (fun x => x mod base)) in E; rewrite !(Z.mul_comm base), !Z_mod_plus_full, !Z.mod_small in E by lia; done).
  rewrite !norm_cons, (IH es Hes) by nia. done.
Qed.

(** The inner loop multiplies and adds; above [length] all digits are zero. *)
Lemma mul_add_spec mul ds : 0 <= mul -> Forall (digit) ds -> forall carry i len, 0 <= carry -> Forall (eq 0) (drop (len - i) ds) ->
  let '(r, carry', i') := mul_add base mul ds carry i len in
  length r = length ds /\ Forall (digit) r /\ 0 <= carry' /\ le_val r + base ^ Z.of_nat (length ds) * carry' = mul * le_val ds + carry /\
  (i <= i')%nat /\ Forall (eq 0) (drop (i' - i) r).
Proof.
  intros Hmul. induction 1 as [|d ds Hd Hds IH]; intros carry i len Hc Hz; cbn [mul_add].
  { split_and!; [done|done|done|cbn; lia|lia|by rewrite drop_nil]. }
  destruct (negb (carry =? 0) || (i <? len)%nat) eqn:E.
  - specialize (IH ((carry + mul * d) / base) (S i) len). destruct Hd.
    assert (Hc' : 0 <= (carry + mul * d) / base) by (apply Z.div_pos; nia).
    assert (Hz' : Forall (eq 0) (drop (len - S i) ds)).
    { destruct (len - i)%nat as [|k] eqn:Ek.
      - replace (len - S i)%nat with O by lia. rewrite drop_0 in Hz. rewrite drop_0. by inversion Hz.
      - replace (len - S i)%nat with k by lia. exact Hz. }
    specialize (IH Hc' Hz'). destruct (mul_add base mul ds ((carry + mul * d) / base) (S i) len) as [[r carry'] i'].
    destruct IH as (Hlen & Hr & Hcarry & Hval & Hi & Hzr).
    pose proof (Z.div_mod (carry + mul * d) base ltac:(lia)). pose proof (Z.mod_pos_bound (carry + mul * d) base ltac:(lia)).
    split_and!; [cbn; lia|by constructor|done| |lia|].
    + cbn [le_val length]. rewrite Nat2Z.inj_succ, Z.pow_succ_r by lia. nia.
    + by replace (i' - i)%nat with (S (i' - S i)) by lia.
  - apply orb_false_iff in E as [E1 E2]. rewrite negb_false_iff, Z.eqb_eq in E1. subst carry.
    replace (len - i)%nat with O in Hz by (apply Nat.ltb_ge in E2; lia).
    rewrite drop_0 in Hz. pose proof (le_val_all_zero _ Hz) as Hzero.
    rewrite Hzero. split_and!; [done|by constructor|done|lia|lia|by rewrite Nat.sub_diag].
Qed.

(** A vector with its [length]. *)
Record vector_ok (st : list Z * nat) : Prop := {
  v_digits : Forall digit st.1;
  v_zero : Forall (eq 0) (drop st.2 st.1)
}.

Lemma add_digit_spec mul st d : 0 <= mul -> vector_ok st -> 0 <= d -> mul * le_val st.1 + d < base ^ Z.of_nat (length st.1) ->
  exists st', add_digit base mul st d = Some st' /\ vector_ok st' /\ length st'.1 = length st.1 /\ le_val st'.1 = mul * le_val st.1 + d.
Proof.
  destruct st as [v len]. intros Hmul [Hv Hz] Hd Hlt. cbn [fst snd] in *. unfold add_digit.
  pose proof (mul_add_spec mul v Hmul Hv d O len Hd) as Hspec. rewrite Nat.sub_0_r in Hspec. specialize (Hspec Hz).
  destruct (mul_add base mul v d 0 len) as [[r carry] i]. destruct Hspec as (Hlen & Hr & Hc & Hval & _ & Hzr).
  pose proof (le_val_bound r Hr) as Hb. rewrite Hlen in Hb. assert (carry = 0) as -> by nia.
  exists (r, i). rewrite Nat.sub_0_r in Hzr. split_and!; [done|by split|done|cbn; lia].
Qed.

Lemma add_digits_spec mul ds : 0 <= mul -> Forall (fun d => 0 <= d < mul) ds -> forall st, vector_ok st ->
  (le_val st.1 + 1) * mul ^ Z.of_nat (length ds) <= base ^ Z.of_nat (length st.1) ->
  exists st', add_digits base mul st ds = Some st' /\ vector_ok st' /\ length st'.1 = length st.1 /\
    le_val st'.1 = foldl (fun v d => v * mul + d) (le_val st.1) ds.
Proof.
  intros Hmul. induction 1 as [|d ds [? ?] Hds IH]; intros st Hst Hlt; cbn [add_digits foldl]; [by exists st|].
  pose proof (le_val_bound _ (v_digits _ Hst)) as Hb. cbn [length] in Hlt. rewrite Nat2Z.inj_succ, Z.pow_succ_r in Hlt by lia.
  assert (Hp : 0 < mul ^ Z.of_nat (length ds)) by (apply Z.pow_pos_nonneg; lia).
  destruct (add_digit_spec mul st d) as (st1 & E1 & Hst1 & Hlen1 & Hval1); [done|done|done|nia|]. rewrite E1. cbn [mbind option_bind].
  destruct (IH st1 Hst1) as (st' & E & Hst' & Hlen & Hval); [rewrite Hval1, Hlen1; nia|].
  exists st'. split_and!; [done|done|congruence|]. rewrite Hval, Hval1. f_equal. lia.
Qed.

(** What is left of the vector are the digits of its value. *)
Lemma drop_while_zeros n ds : drop_while (Z.eqb 0) (replicate n 0 ++ ds) = drop_while (Z.eqb 0) ds.
Proof. induction n; [done|exact IHn]. Qed.

Lemma drop_while_reverse ds : drop_while (Z.eqb 0) (reverse ds) = reverse (norm ds).
Proof.
  induction ds as [|d ds IH]; [done|]. rewrite reverse_cons, norm_cons.
  assert (Happ : forall es, drop_while (Z.eqb 0) (es ++ [d]) =
    match drop_while (Z.eqb 0) es with [] => if d =? 0 then [] else [d] | r => r ++ [d] end).
  { induction es as [|e es IHes]; [cbn; by destruct d|]. cbn [drop_while app]. destruct (0 =? e); [exact IHes|done]. }
  rewrite Happ, IH. case_bool_decide as E.
  - rewrite E. cbn. by destruct (Z.eqb_spec d 0).
  - rewrite andb_false_r, reverse_cons. destruct (reverse (norm ds)) as [|x xs] eqn:Er; [|done].
    exfalso. apply E. by apply (f_equal reverse) in Er; rewrite reverse_involutive in Er.
Qed.

Lemma significant_spec st : vector_ok st -> significant st = reverse (norm st.1).
Proof.
  destruct st as [v len]. intros [_ Hz]. cbn [fst snd] in *. unfold significant. cbn [fst snd]. rewrite <- drop_while_reverse.
  rewrite <- (take_drop len v) at 2 3. rewrite reverse_app. destruct (decide (len <= length v)%nat) as [Hle|Hgt].
  - assert (E : reverse (drop len v) = replicate (length v - len) 0).
    { rewrite <- (reverse_replicate (length v - len) 0). f_equal. rewrite <- length_drop. symmetry. by apply replicate_as_Forall. }
    rewrite E, drop_while_zeros. f_equal. rewrite drop_app_ge by (rewrite length_replicate; lia). rewrite length_replicate, Nat.sub_diag. done.
  - rewrite (drop_ge v len) by lia. replace (length v - len)%nat with O by lia. done.
Qed.

(** No leading zero. *)
Definition canonical (ds : list Z) : Prop := Forall digit ds /\ drop_while (Z.eqb 0) ds = ds.

Lemma canonical_inj ds es : canonical ds -> canonical es -> be_val ds = be_val es -> ds = es.
Proof.
  intros [Hd Ed] [He Ee] E. rewrite !be_val_reverse in E. rewrite <- Ed, <- Ee, <- (reverse_involutive ds), <- (reverse_involutive es), !drop_while_reverse.
  f_equal. apply norm_inj; [by apply Forall_reverse..|done].
Qed.

Lemma norm_spec ds : Forall digit ds -> Forall digit (norm ds) /\ le_val (norm ds) = le_val ds /\ (length (norm ds) <= length ds)%nat.
Proof.
  induction 1 as [|d ds Hd Hds (IH1 & IH2 & IH3)]; [done|]. rewrite norm_cons. cbn [length].
  destruct (Z.eqb_spec d 0) as [->|]; [case_bool_decide as E|]; cbn [andb]; [|split_and!; [by constructor|cbn [le_val]; lia|cbn; lia]..].
  split_and!; [done| |cbn; lia]. cbn [le_val]. rewrite <- IH2, E. cbn. lia.
Qed.

(** The whole conversion from digits in base [mul]. *)
Lemma convert_spec mul ds size : 1 < mul -> Forall (fun d => 0 <= d < mul) ds -> mul ^ Z.of_nat (length ds) <= base ^ Z.of_nat size ->
  exists st, add_digits base mul (replicate size 0, O) ds = Some st /\ canonical (significant st) /\
    be_val (significant st) = foldl (fun v d => v * mul + d) 0 ds /\ (length (significant st) <= size)%nat.
Proof.
  intros Hmul Hds Hle. assert (Hz : Forall (eq 0) (replicate size 0)) by by apply Forall_replicate.
  destruct (add_digits_spec mul ds ltac:(lia) Hds (replicate size 0, O)) as (st & E & Hst & Hlen & Hval).
  { split; cbn [fst snd]; [apply Forall_replicate; unfold digit; lia|by rewrite drop_0]. }
  { cbn [fst]. rewrite (le_val_all_zero _ Hz), length_replicate. lia. }
  exists st. destruct (norm_spec _ (v_digits _ Hst)) as (Hn1 & Hn2 & Hn3). rewrite (significant_spec st Hst). split; [done|].
  cbn [fst] in Hlen, Hval. rewrite length_replicate in Hlen. rewrite (le_val_all_zero _ Hz) in Hval. split_and!.
  - split; [by apply Forall_reverse|]. rewrite <- drop_while_reverse. generalize (reverse st.1) as l. intros l.
    induction l as [|x l IH]; [done|]. cbn [drop_while]. destruct (0 =? x) eqn:Ex; [done|]. cbn [drop_while]. by rewrite Ex.
  - rewrite be_val_reverse, reverse_involutive, Hn2. exact Hval.
  - rewrite length_reverse. lia.
Qed.
End Radix.

Arguments canonical_inj {base}.

(** Enough room for the digits in the other base. *)
Lemma room B1 P B2 Q n : 1 < B1 -> 1 < B2 -> 0 < P -> 0 < Q -> B1 ^ P < B2 ^ Q -> 0 <= n -> B1 ^ n <= B2 ^ (n * Q / P + 1).
Proof.
  intros HB1 HB2 HP HQ Hlt Hn. apply Z.nlt_ge. intros Hgt.
  assert (Hk : n * Q < (n * Q / P + 1) * P) by (pose proof (Z.mul_succ_div_gt (n * Q) P HP); lia).
  assert (0 <= n * Q / P + 1) by (pose proof (Z.div_pos (n * Q) P ltac:(nia) HP); lia).
  assert (H1 : (B2 ^ (n * Q / P + 1)) ^ P < (B1 ^ n) ^ P) by (apply Z.pow_lt_mono_l; [lia|split; [apply Z.pow_nonneg; lia|done]]).
  rewrite <- !Z.pow_mul_r in H1 by lia.
  assert (H2 : B1 ^ (n * P) <= B2 ^ (n * Q)).
  { rewrite (Z.mul_comm n P), (Z.mul_comm n Q), !Z.pow_mul_r by lia. apply Z.pow_le_mono_l. split; [apply Z.pow_nonneg; lia|lia]. }
  assert (H3 : B2 ^ (n * Q) < B2 ^ ((n * Q / P + 1) * P)) by (apply Z.pow_lt_mono_r; lia). lia.
Qed.

Lemma room_encode n : 0 <= n -> 256 ^ n <= 58 ^ (n * 138 / 100 + 1).
Proof. apply room; by vm_compute. Qed.

Lemma room_decode n : 0 <= n -> 58 ^ n <= 256 ^ (n * 733 / 1000 + 1).
Proof. apply room; by vm_compute. Qed.

Lemma new_vector_spec size : 0 <= size < 2 ^ 31 -> new_vector size = Some (replicate (Z.to_nat size) 0).
Proof. intros Hs. unfold new_vector. rewrite s32_id by (unfold is_s32; lia). by rewrite (proj2 (Z.ltb_ge size 0)) by lia. Qed.

(** ** The alphabet *)

Lemma alphabet d : 0 <= d < 58 -> strchr pszBase58 (char58 d) = Some d /\
  isspace (char58 d) = false /\ (char58 d = 49 <-> d = 0).
Proof.
  intros Hd. assert (Hall : forallb (fun d => bool_decide (strchr pszBase58 (char58 d) = Some d) &&
    negb (isspace (char58 d)) && eqb (char58 d =? 49) (d =? 0)) (seqZ 0 58) = true) by (vm_compute; reflexivity).
  rewrite forallb_forall in Hall. specialize (Hall d). rewrite <- list_elem_of_In, elem_of_seqZ in Hall. specialize (Hall ltac:(lia)).
  rewrite !andb_true_iff, bool_decide_eq_true, negb_true_iff, eqb_true_iff in Hall. destruct Hall as [[H1 H2] H3]. split_and!; [done|done|lia].
Qed.

Lemma strchr_spec s c d : strchr s c = Some d -> 0 <= d < Z.of_nat (length s) /\ nth (Z.to_nat d) s 0 = c.
Proof.
  revert d. induction s as [|c' s IH]; intros d; cbn [strchr]; [done|]. destruct (Z.eqb_spec c' c) as [->|].
  - intros [= <-]. cbn [length]. split; [lia|done].
  - destruct (strchr s c) as [d'|]; [|done]. intros [= <-]. destruct (IH d' eq_refl) as [? ?]. cbn [length]. split; [lia|].
    by rewrite Z2Nat.inj_succ by lia.
Qed.

Lemma drop_while_length f s : (length (drop_while f s) <= length s)%nat.
Proof. induction s as [|c s IH]; [done|]. cbn [drop_while length]. destruct (f c); cbn [length]; lia. Qed.

Lemma count_while_spec f s n r : count_while f s = (n, r) -> exists l, s = l ++ r /\ length l = n /\ Forall (fun c => f c = true) l /\ drop_while f r = r.
Proof.
  revert n r. induction s as [|c s IH]; intros n r; cbn [count_while]; [by intros [= <- <-]; exists []|].
  destruct (f c) eqn:E; [|intros [= <- <-]; exists []; split_and!; [done|done|done|cbn; by rewrite E]].
  destruct (count_while f s) as [n' r'] eqn:Ec. intros [= <- <-]. destruct (IH n' r' eq_refl) as (l & -> & <- & Hl & Hr).
  exists (c :: l). split_and!; [done|done|by constructor|done].
Qed.

Lemma count_while_replicate f c n r : f c = true -> drop_while f r = r -> count_while f (replicate n c ++ r) = (n, r).
Proof.
  intros Hc Hr. induction n as [|n IH]; cbn [replicate app count_while]; [|by rewrite Hc, IH].
  destruct r as [|x r]; [done|]. cbn [drop_while count_while] in *. destruct (f x) eqn:E; [|done].
  exfalso. apply (f_equal length) in Hr. cbn in Hr. pose proof (drop_while_length f r). lia.
Qed.

Lemma drop_while_none f s : Forall (fun c => f c = false) s -> drop_while f s = s.
Proof. by destruct 1 as [|c s E _]; [|cbn; rewrite E]. Qed.

Lemma digits_of_chars ds : Forall (fun d => 0 <= d < 58) ds -> digits_of (map char58 ds) = (ds, false, []).
Proof.
  induction 1 as [|d ds Hd _ IH]; [done|]. cbn [map digits_of]. destruct (alphabet d Hd) as (Hs & Hsp & _).
  by rewrite Hsp, Hs, IH.
Qed.

Lemma chars_not_one ds : canonical 58 ds -> drop_while (Z.eqb 49) (map char58 ds) = map char58 ds.
Proof.
  intros [Hd E]. destruct Hd as [|d ds Hd _]; [done|]. cbn [map drop_while] in *. destruct (Z.eqb_spec 49 (char58 d)) as [E1|]; [|done].
  symmetry in E1. apply (alphabet d Hd) in E1 as ->. cbn in E. exfalso. apply (f_equal length) in E. cbn in E.
  pose proof (drop_while_length (Z.eqb 0) ds). lia.
Qed.

(** A length that fits the arithmetic of [int]. *)
Definition short (s : list Z) : Prop := Z.of_nat (length s) <= 10 ^ 9.

(** Both directions of the conversion, in a vector of the size that the code computes from a string of [n] characters. *)
Lemma convert_sized base mul num den n p : 1 < base -> 1 < mul -> 0 < num < 2 * den ->
  (forall n, 0 <= n -> mul ^ n <= base ^ (n * num / den + 1)) -> Forall (fun d => 0 <= d < mul) p -> Z.of_nat (length p) <= n -> n * num / den + 1 < 2 ^ 31 ->
  exists v st, new_vector (n * num / den + 1) = Some v /\ add_digits base mul (v, O) p = Some st /\ canonical base (significant st) /\
    be_val base (significant st) = be_val mul p /\ Z.of_nat (length (significant st)) <= n * num / den + 1.
Proof.
  intros Hb Hm Hnum Hroom Hp Hn Hs. assert (H0 : 0 <= n * num / den) by (apply Z.div_pos; nia).
  destruct (convert_spec base Hb mul p (Z.to_nat (n * num / den + 1)) Hm Hp) as (st & E & Hc & Hv & Hl).
  { rewrite Z2Nat.id by lia. transitivity (mul ^ n); [apply Z.pow_le_mono_r; lia|apply Hroom; lia]. }
  rewrite new_vector_spec by lia. eexists _, st. split_and!; [done|exact E|exact Hc|exact Hv|lia].
Qed.

Lemma EncodeBase58_spec b : Forall is_u8 b -> short b -> exists z p es, b = replicate z 0 ++ p /\ canonical 256 p /\
  canonical 58 es /\ be_val 58 es = be_val 256 p /\ Z.of_nat (length es) <= Z.of_nat (length p) * 138 / 100 + 1 /\
  EncodeBase58 b = Some (replicate z 49 ++ map char58 es).
Proof.
  intros Hb Hs. unfold EncodeBase58. destruct (count_while (Z.eqb 0) b) as [z p] eqn:E.
  destruct (count_while_spec _ _ _ _ E) as (l & -> & <- & Hl & Hp). apply Forall_app in Hb as [_ Hb]. unfold short in Hs. rewrite length_app in Hs.
  assert (Hp8 : Forall (fun d => 0 <= d < 256) p) by exact Hb.
  destruct (convert_sized 58 256 138 100 (Z.of_nat (length p)) p) as (v & st & -> & Est & Hc & Hv & Hlen);
    [lia|lia|lia|exact room_encode|exact Hp8|lia|apply (Z.le_lt_trans _ (10 ^ 9 * 138 / 100 + 1)); [apply Z.add_le_mono_r, Z.div_le_mono; lia|done]|].
  cbn [mbind option_bind]. rewrite Est. cbn [mbind option_bind]. exists (length l), p, (significant st).
  split_and!; [|by split|done|done|done|done]. f_equal. symmetry. apply replicate_as_Forall. split; [done|].
  eapply Forall_impl; [exact Hl|]. intros c Hc'. by apply Z.eqb_eq in Hc'.
Qed.

Lemma digits_of_spec s : forall ds bad rest, digits_of s = (ds, bad, rest) -> s = map char58 ds ++ rest /\ Forall (fun d => 0 <= d < 58) ds /\
  (bad = false -> match rest with [] => True | c :: _ => isspace c = true end).
Proof.
  induction s as [|c s IH]; intros ds bad rest; cbn [digits_of]; [by intros [= <- <- <-]|].
  destruct (isspace c) eqn:Ec; [by intros [= <- <- <-]|]. destruct (strchr pszBase58 c) as [d|] eqn:Ed; [|by intros [= <- <- <-]].
  destruct (digits_of s) as [[ds' bad'] rest'] eqn:E. intros [= <- <- <-]. destruct (IH ds' bad' rest' eq_refl) as (-> & Hds & Hr).
  destruct (strchr_spec _ _ _ Ed) as [Hd Hc]. split_and!; [cbn; by rewrite <- Hc|by constructor|done].
Qed.

(** No input makes the decoder fail an assertion. *)
Lemma decode_number s zeroes psz ds bad rest : short s -> count_while (Z.eqb 49) s = (zeroes, psz) -> digits_of psz = (ds, bad, rest) ->
  exists v st, new_vector (Z.of_nat (length psz) * 733 / 1000 + 1) = Some v /\ add_digits 256 58 (v, O) ds = Some st /\
    canonical 256 (significant st) /\ be_val 256 (significant st) = be_val 58 ds /\ Z.of_nat (length (significant st)) <= Z.of_nat (length psz) * 733 / 1000 + 1.
Proof.
  intros Hs E1 E2. destruct (count_while_spec _ _ _ _ E1) as (l & -> & _ & _ & _). destruct (digits_of_spec _ _ _ _ E2) as (-> & Hds & _).
  unfold short in Hs. rewrite !length_app, length_map in *.
  destruct (convert_sized 256 58 733 1000 (Z.of_nat (length ds + length rest)) ds) as (v & st & Ev & Est & Hc & Hv & Hl);
    [lia|lia|lia|exact room_decode|exact Hds|lia|apply (Z.le_lt_trans _ (10 ^ 9 * 733 / 1000 + 1)); [apply Z.add_le_mono_r, Z.div_le_mono; lia|done]|].
  by exists v, st.
Qed.

Lemma DecodeBase58_total s : short s -> is_Some (DecodeBase58 s).
Proof.
  intros Hs. unfold DecodeBase58. assert (Hs' : short (drop_while isspace s)) by (unfold short in *; pose proof (drop_while_length isspace s); lia).
  destruct (count_while _ _) as [zeroes psz] eqn:E1. destruct (digits_of psz) as [[ds bad] rest] eqn:E2.
  destruct (decode_number _ _ _ _ _ _ Hs' E1 E2) as (v & st & -> & Est & _). cbn [mbind option_bind]. rewrite Est. by eexists.
Qed.

Lemma DecodeBase58_chars z es : canonical 58 es -> short (replicate z 49 ++ map char58 es) ->
  exists p, canonical 256 p /\ be_val 256 p = be_val 58 es /\ Z.of_nat (length p) <= Z.of_nat (length es) + 1 /\ DecodeBase58 (replicate z 49 ++ map char58 es) = Some (Some (replicate z 0 ++ p)).
Proof.
  intros Hes Hs. assert (Hd : Forall (fun d => 0 <= d < 58) es) by apply Hes.
  assert (Hsp : drop_while isspace (replicate z 49 ++ map char58 es) = replicate z 49 ++ map char58 es).
  { apply drop_while_none, Forall_app. split; [by apply Forall_replicate|]. apply Forall_map.
    eapply Forall_impl; [exact Hd|]. intros d Hdd. by apply alphabet. }
  pose proof (count_while_replicate (Z.eqb 49) 49 z (map char58 es) eq_refl (chars_not_one es Hes)) as E1.
  destruct (decode_number _ _ _ _ _ _ Hs E1 (digits_of_chars es Hd)) as (v & st & Ev & Est & Hc & Hv & Hl).
  unfold DecodeBase58. rewrite Hsp, E1, Ev, (digits_of_chars es Hd). cbn [mbind option_bind]. rewrite Est. cbn [mbind option_bind drop_while].
  exists (significant st). split_and!; [done|done| |done]. rewrite length_map in Hl.
  pose proof (Z.mul_div_le (Z.of_nat (length es) * 733) 1000). lia.
Qed.

Lemma zeros_inj z z' p p' : canonical 256 p -> canonical 256 p' -> replicate z 0 ++ p = replicate z' 0 ++ p' -> z = z' /\ p = p'.
Proof.
  intros [_ Hp] [_ Hp'] E. apply (f_equal (count_while (Z.eqb 0))) in E. rewrite !count_while_replicate in E by done. by injection E.
Qed.

Lemma DecodeBase58_EncodeBase58 b : Forall is_u8 b -> Z.of_nat (length b) <= 5 * 10 ^ 8 ->
  exists s, EncodeBase58 b = Some s /\ DecodeBase58 s = Some (Some b).
Proof.
  intros Hb Hs. destruct (EncodeBase58_spec b Hb) as (z & p & es & -> & Hp & Hes & Hv & Hlen & E); [unfold short; lia|].
  rewrite length_app, length_replicate in Hs. eexists. split; [exact E|].
  destruct (DecodeBase58_chars z es Hes) as (p' & Hp' & Hv' & _ & ->).
  { unfold short. rewrite length_app, length_replicate, length_map. pose proof (Z.mul_div_le (Z.of_nat (length p) * 138) 100). lia. }
  by rewrite (canonical_inj (base := 256) eq_refl p' p Hp' Hp ltac:(congruence)).
Qed.

(** Only one string without spaces decodes to given bytes. *)
Lemma EncodeBase58_DecodeBase58 s b : Forall (fun c => isspace c = false) s -> Z.of_nat (length s) <= 5 * 10 ^ 8 ->
  DecodeBase58 s = Some (Some b) -> EncodeBase58 b = Some s.
Proof.
  intros Hsp Hs. destruct (count_while (Z.eqb 49) s) as [z psz] eqn:E1. destruct (digits_of psz) as [[ds bad] rest] eqn:E2.
  destruct (count_while_spec _ _ _ _ E1) as (l & Es & Hz & Hl & Hpsz). destruct (digits_of_spec _ _ _ _ E2) as (Ep & Hds & Hr).
  destruct (decode_number s z psz ds bad rest) as (v & st & Ev & Est & _); [unfold short; lia|done|done|].
  intros Hdec. assert (bad = false) as ->.
  { revert Hdec. unfold DecodeBase58. rewrite (drop_while_none isspace s Hsp), E1, Ev, E2. cbn [mbind option_bind]. rewrite Est. by destruct bad. }
  assert (rest = []) as ->.
  { subst s psz. rewrite !Forall_app in Hsp. destruct Hsp as (_ & _ & Hsp). specialize (Hr eq_refl). destruct Hsp; [done|congruence]. }
  rewrite app_nil_r in Ep. assert (Hc : canonical 58 ds).
  { split; [done|]. subst psz. destruct ds as [|d ds]; [done|]. cbn [map drop_while] in Hpsz |- *. destruct (Z.eqb_spec 0 d) as [<-|]; [|done].
    exfalso. change (49 =? char58 0) with true in Hpsz. apply (f_equal length) in Hpsz. pose proof (drop_while_length (Z.eqb 49) (map char58 ds)). cbn in Hpsz. lia. }
  assert (Hl' : l = replicate z 49). { symmetry. apply replicate_as_Forall. split; [done|]. eapply Forall_impl; [exact Hl|]. intros c Hc'. by apply Z.eqb_eq in Hc'. }
  subst l psz. rewrite Es in Hdec, Hs |- *. rewrite length_app, length_map, length_replicate in Hs.
  destruct (DecodeBase58_chars z ds Hc) as (p & Hp & Hv & Hlp & E); [unfold short; rewrite length_app, length_map, length_replicate; lia|].
  rewrite E in Hdec. injection Hdec as <-.
  destruct (EncodeBase58_spec (replicate z 0 ++ p)) as (z' & p' & es & Eb & Hp' & Hes & Hv' & _ & ->).
  { apply Forall_app. split; [apply Forall_replicate; by unfold is_u8|apply Hp]. }
  { unfold short. rewrite length_app, length_replicate. lia. }
  destruct (zeros_inj z z' p p' Hp Hp' Eb) as [<- <-]. by rewrite (canonical_inj (base := 58) eq_refl es ds Hes Hc ltac:(congruence)).
Qed.
