(* ===== verification/Address.v ===== *)
(** What users see ([base58.cpp], [base58.h]): strings with a checksum, addresses and private keys. *)

From stdpp Require Import prelude.
From Stdlib Require Import ZArith Lia.
From S2P Require Import Prelude Serialize Hasher Fips180 Sha256 Hashes Script Standard Base58.

Open Scope Z_scope.

(** ** The code *)

Section Code.
(** What the unset buffer of a hash object holds; the prefixes of the network ([Params().Base58Prefix]). *)
Variable junk : stream.
Record Prefixes := mkPrefixes { PUBKEY_ADDRESS : list Z; SCRIPT_ADDRESS : list Z; SECRET_KEY : list Z }.
Variable params : Prefixes.

Definition EncodeBase58Check (vchIn : list Z) : option (list Z) :=
  let hash := Hash junk [vchIn] in
  EncodeBase58 (vchIn ++ take 4 hash).
(** The outer [None] is a failed assertion, the inner one the result [false]. *)
Definition DecodeBase58Check (psz : list Z) : option (option (list Z)) :=
  r ← DecodeBase58 psz;
  Some (match r with
        | None => None
        | Some vchRet =>
            if (length vchRet <? 4)%nat then None
            else
              let n := (length vchRet - 4)%nat in
              let hash := Hash junk [take n vchRet] in
              if negb (bool_decide (take 4 hash = drop n vchRet)) then None else Some (take n vchRet)
        end).

Record CBase58Data := mkBase58Data { vchVersion : list Z; vchData : list Z }.
Definition Base58Data_new : CBase58Data := mkBase58Data [] [].
Definition SetString (psz : list Z) (nVersionBytes : nat) : option (bool * CBase58Data) :=
  rc58 ← DecodeBase58Check psz;
  Some (match rc58 with
        | None => (false, Base58Data_new)
        | Some vchTemp =>
            if (length vchTemp <? nVersionBytes)%nat then (false, Base58Data_new)
            else (true, mkBase58Data (take nVersionBytes vchTemp) (drop nVersionBytes vchTemp))
        end).
Definition ToString (d : CBase58Data) : option (list Z) := EncodeBase58Check (vchVersion d ++ vchData d).

(** [CBitcoinAddress] *)
Definition Address_Set (dest : CTxDestination) : bool * CBase58Data :=
  match dest with
  | CKeyID id => (true, mkBase58Data (PUBKEY_ADDRESS params) (take 20 id))
  | CScriptID id => (true, mkBase58Data (SCRIPT_ADDRESS params) (take 20 id))
  | CNoDestination => (false, Base58Data_new)
  end.
Definition Address_IsValid (d : CBase58Data) : bool :=
  let fCorrectSize := (length (vchData d) =? 20)%nat in
  let fKnownVersion := bool_decide (vchVersion d = PUBKEY_ADDRESS params) || bool_decide (vchVersion d = SCRIPT_ADDRESS params) in
  fCorrectSize && fKnownVersion.
Definition Address_Get (d : CBase58Data) : CTxDestination :=
  if negb (Address_IsValid d) then CNoDestination
  else
    let id := take 20 (vchData d) in
    if bool_decide (vchVersion d = PUBKEY_ADDRESS params) then CKeyID id
    else if bool_decide (vchVersion d = SCRIPT_ADDRESS params) then CScriptID id
    else CNoDestination.
Definition GetIndexKey (d : CBase58Data) : option (list Z * Z) :=
  if negb (Address_IsValid d) then None
  else if bool_decide (vchVersion d = PUBKEY_ADDRESS params) then Some (take 20 (vchData d), 1)
  else if bool_decide (vchVersion d = SCRIPT_ADDRESS params) then Some (take 20 (vchData d), 2)
  else None.
Definition GetKeyID (d : CBase58Data) : option (list Z) :=
  if negb (Address_IsValid d) || negb (bool_decide (vchVersion d = PUBKEY_ADDRESS params)) then None else Some (take 20 (vchData d)).
Definition IsScript (d : CBase58Data) : bool := Address_IsValid d && bool_decide (vchVersion d = SCRIPT_ADDRESS params).

(** [str.c_str()], as it is read: up to the first NUL. *)
Fixpoint c_str (str : list Z) : list Z :=
  match str with
  | [] => []
  | c :: str => if c =? 0 then [] else c :: c_str str
  end.
(** [SetString(const std::string&)] *)
Definition SetString_str (str : list Z) (nVersionBytes : nat) : option (bool * CBase58Data) := SetString (c_str str) nVersionBytes.

Definition EncodeDestination (dest : CTxDestination) : option (list Z) :=
  let addr := (Address_Set dest).2 in
  if negb (Address_IsValid addr) then Some [] else ToString addr.
Definition DecodeDestination (str : list Z) : option CTxDestination :=
  '(_, addr) ← SetString_str str 1;
  Some (Address_Get addr).
Definition IsValidDestinationString (str : list Z) : option bool :=
  '(_, addr) ← SetString_str str 1;
  Some (Address_IsValid addr).

(** [CKey], as far as [CBitcoinSecret] uses it; [Check] calls [secp256k1_ec_seckey_verify]. *)
Variable seckey_verify : list Z -> bool.
Record CKey := mkKey { fValid : bool; fCompressed : bool; keydata : list Z }.
Definition Key_new : CKey := mkKey false false (replicate 32 0).
Definition Key_Set (k : CKey) (p : list Z) (fCompressedIn : bool) : CKey :=
  if negb (length p =? length (keydata k))%nat then mkKey false (fCompressed k) (keydata k)
  else if seckey_verify p then mkKey true fCompressedIn p
  else mkKey false (fCompressed k) (keydata k).
(** [CBitcoinSecret]; [None] is a failed assertion. *)
Definition Secret_SetKey (vchSecret : CKey) : option CBase58Data :=
  if negb (fValid vchSecret) then None
  else Some (mkBase58Data (SECRET_KEY params) (keydata vchSecret ++ if fCompressed vchSecret then [1] else [])).
Definition Secret_GetKey (d : CBase58Data) : option CKey :=
  if (length (vchData d) <? 32)%nat then None
  else Some (Key_Set Key_new (take 32 (vchData d)) (((32 <? length (vchData d))%nat && bool_decide (vchData d !! 32%nat = Some 1)))).
Definition Secret_IsValid (d : CBase58Data) : bool :=
  let fExpectedFormat := (length (vchData d) =? 32)%nat || ((length (vchData d) =? 33)%nat && bool_decide (vchData d !! 32%nat = Some 1)) in
  let fCorrectVersion := bool_decide (vchVersion d = SECRET_KEY params) in
  fExpectedFormat && fCorrectVersion.
Definition Secret_SetString (psz : list Z) : option (bool * CBase58Data) :=
  '(ok, d) ← SetString psz 1;
  Some (ok && Secret_IsValid d, d).
(** [SetString(const std::string&)] *)
Definition Secret_SetString_str (strSecret : list Z) : option (bool * CBase58Data) := Secret_SetString (c_str strSecret).

(** ** The theorems *)

(** The prefixes of the networks are single bytes, and differ. *)
Record prefixes_ok : Prop := {
  pre_pubkey : length (PUBKEY_ADDRESS params) = 1%nat /\ Forall is_u8 (PUBKEY_ADDRESS params);
  pre_script : length (SCRIPT_ADDRESS params) = 1%nat /\ Forall is_u8 (SCRIPT_ADDRESS params);
  pre_secret : length (SECRET_KEY params) = 1%nat /\ Forall is_u8 (SECRET_KEY params);
  pre_differ : PUBKEY_ADDRESS params <> SCRIPT_ADDRESS params
}.
Context (Hparams : prefixes_ok).

Definition printable (s : list Z) : Prop := Forall (fun c => isspace c = false) s /\ Z.of_nat (length s) <= 5 * 10 ^ 8.

Lemma Hash_bytes m : Forall is_u8 (Hash junk m) /\ length (Hash junk m) = 32%nat.
Proof. apply SHA256_output. Qed.

Lemma Base58Check_roundtrip v : Forall is_u8 v -> Z.of_nat (length v) <= 10 ^ 8 ->
  exists s, EncodeBase58Check v = Some s /\ DecodeBase58Check s = Some (Some v).
Proof.
  intros Hv Hl. destruct (Hash_bytes [v]) as [Hh Hlen]. set (chk := take 4 (Hash junk [v])).
  assert (H4 : length chk = 4%nat) by (unfold chk; rewrite length_take; lia).
  destruct (DecodeBase58_EncodeBase58 (v ++ chk)) as (s & E & D).
  { apply Forall_app. split; [done|by apply Forall_take]. } { rewrite length_app. lia. }
  exists s. split; [exact E|]. unfold DecodeBase58Check. rewrite D. cbn [mbind option_bind]. f_equal.
  rewrite length_app, H4, (proj2 (Nat.ltb_ge _ _)) by lia. cbv zeta. replace (length v + 4 - 4)%nat with (length v) by lia.
  rewrite take_app_length, drop_app_length. by rewrite bool_decide_eq_true_2.
Qed.

Lemma Base58Check_unique s v : printable s -> DecodeBase58Check s = Some (Some v) -> EncodeBase58Check v = Some s.
Proof.
  intros [Hsp Hl]. unfold DecodeBase58Check. destruct (DecodeBase58 s) as [[b|]|] eqn:D; [|done..]. cbn [mbind option_bind].
  destruct (Nat.ltb_spec (length b) 4) as [|H4]; [done|]. cbv zeta. case_bool_decide as Ec; [|done]. intros [= <-].
  unfold EncodeBase58Check. rewrite Ec, take_drop. by apply EncodeBase58_DecodeBase58.
Qed.

Lemma SetString_spec s n d : printable s -> SetString s n = Some (true, d) <->
  DecodeBase58Check s = Some (Some (vchVersion d ++ vchData d)) /\ length (vchVersion d) = n.
Proof.
  intros _. unfold SetString. destruct (DecodeBase58Check s) as [[v|]|]; cbn [mbind option_bind]; [|by split; [|intros [? ?]]..].
  destruct (Nat.ltb_spec (length v) n) as [Hlt|Hge]; split.
  - done.
  - intros [[= ->] Hn]. rewrite length_app in Hlt. lia.
  - intros [= <-]. cbn. rewrite take_drop, length_take. split; [done|lia].
  - intros [[= ->] <-]. rewrite take_app_length, drop_app_length. by destruct d.
Qed.

(** A destination with a hash of 20 bytes. *)
Definition dest_ok (d : CTxDestination) : Prop :=
  match d with CNoDestination => False | CKeyID h | CScriptID h => length h = 20%nat /\ Forall is_u8 h end.

Lemma Address_Get_eq a : Address_Get a =
  if decide (length (vchData a) = 20%nat) then
    if decide (vchVersion a = PUBKEY_ADDRESS params) then CKeyID (vchData a)
    else if decide (vchVersion a = SCRIPT_ADDRESS params) then CScriptID (vchData a) else CNoDestination
  else CNoDestination.
Proof.
  unfold Address_Get, Address_IsValid. destruct (Nat.eqb_spec (length (vchData a)) 20) as [E|E]; cbn [andb negb]; [|by rewrite decide_False].
  rewrite (decide_True _ _ E), take_ge by lia. repeat case_bool_decide; by rewrite ?decide_True, ?decide_False, ?decide_True by done.
Qed.

Lemma Address_IsValid_Get a : Address_IsValid a = match Address_Get a with CNoDestination => false | _ => true end.
Proof.
  rewrite Address_Get_eq. unfold Address_IsValid. destruct (Nat.eqb_spec (length (vchData a)) 20) as [E|E]; [|by rewrite decide_False].
  rewrite (decide_True _ _ E). cbn [andb]. repeat case_bool_decide; repeat case_decide; done.
Qed.

(** Reading the data of an address is the inverse of setting it. *)
Lemma Address_Get_Set d a : dest_ok d -> Address_Get a = d <-> a = (Address_Set d).2.
Proof.
  destruct Hparams as [_ _ _ Hne]. intros Hd. rewrite Address_Get_eq. destruct d as [|h|h]; [done|..]; destruct Hd as [Hh _]; cbn [Address_Set snd];
    rewrite take_ge by lia; split.
  - intros E. repeat case_decide; try done. injection E as <-. destruct a; cbn in *. by subst.
  - intros ->. cbn. by rewrite !decide_True.
  - intros E. repeat case_decide; try done. injection E as <-. destruct a; cbn in *. by subst.
  - intros ->. cbn. by rewrite decide_True, decide_False, decide_True.
Qed.

Lemma Address_data d : dest_ok d -> let a := (Address_Set d).2 in
  length (vchVersion a) = 1%nat /\ Forall is_u8 (vchVersion a ++ vchData a) /\ length (vchVersion a ++ vchData a) = 21%nat.
Proof.
  destruct Hparams as [[Hp1 Hp8] [Hs1 Hs8] _ _]. destruct d as [|h|h]; [done|..]; intros [Hh H8]; cbn; rewrite take_ge by lia;
    rewrite length_app, Hh, ?Hp1, ?Hs1; (split_and!; [done|by apply Forall_app|done]).
Qed.

Lemma c_str_spec s : ~ 0 ∈ c_str s /\ (~ 0 ∈ s -> c_str s = s).
Proof.
  induction s as [|c s [IH1 IH2]]; cbn [c_str]; [split; [apply not_elem_of_nil|done]|].
  destruct (Z.eqb_spec c 0) as [->|Hc].
  - split; [apply not_elem_of_nil|]. intros Hn. destruct Hn. left.
  - split.
    + intros [?|?]%elem_of_cons; [by subst|done].
    + intros Hn. rewrite IH2; [done|]. intros Hin. apply Hn. by right.
Qed.

(** C24. An address is one way to write one destination.  A string is read up to its first NUL.  Of a string whose part up to there has no
    spaces, and a destination with a 20-byte hash, the destination is what the string decodes to exactly when that part is what
    the destination is written as; so a string without NUL decodes to the destination exactly when it is what the destination is written
    as.  Every such destination can be written. *)
Theorem address_is_destination s d : printable (c_str s) -> dest_ok d ->
  (DecodeDestination s = Some d <-> EncodeDestination d = Some (c_str s)) /\
  (~ 0 ∈ s -> DecodeDestination s = Some d <-> EncodeDestination d = Some s) /\ is_Some (EncodeDestination d).
Proof.
  intros Hs Hd. cut ((DecodeDestination s = Some d <-> EncodeDestination d = Some (c_str s)) /\ is_Some (EncodeDestination d)).
  { intros [Hiff Hsome]. split_and!; [done| |done]. intros Hn. by rewrite (proj2 (c_str_spec s) Hn) in Hiff. } destruct (Address_data d Hd) as (Hv & H8 & H21). pose proof (proj2 (Address_Get_Set d _ Hd) eq_refl) as Hget.
  assert (Henc : EncodeDestination d = EncodeBase58Check (vchVersion (Address_Set d).2 ++ vchData (Address_Set d).2)).
  { unfold EncodeDestination. rewrite Address_IsValid_Get, Hget. destruct d; [destruct Hd|reflexivity|reflexivity]. }
  destruct (Base58Check_roundtrip _ H8 ltac:(lia)) as (s' & Es & Ds). rewrite Henc. split; [|by rewrite Es].
  unfold DecodeDestination, SetString_str. revert Hs. generalize (c_str s) as s0. clear s. intros s Hs. split.
  - destruct (SetString s 1) as [[ok a]|] eqn:E; [|done]. cbn [mbind option_bind]. intros [= Ha].
    apply (Address_Get_Set d a Hd) in Ha as ->. assert (ok = true) as ->.
    { revert E. unfold SetString. destruct (DecodeBase58Check s) as [[v|]|]; cbn [mbind option_bind]; [|..|done].
      - destruct (length v <? 1)%nat; [|by intros [= <- _]]. intros [= _ E]. by rewrite <- E in Hv.
      - intros [= _ E]. by rewrite <- E in Hv. }
    apply (SetString_spec s 1 _ Hs) in E as [E _]. by apply Base58Check_unique.
  - intros E. rewrite Es in E. injection E as ->. rewrite (proj2 (SetString_spec s 1 _ Hs) (conj Ds Hv)). cbn. by rewrite Hget.
Qed.

(** What follows a NUL is ignored: two strings then decode to the same destination. *)
Theorem address_ignores_after_nul s t : DecodeDestination (s ++ 0 :: t) = DecodeDestination (s ++ [0]).
Proof.
  unfold DecodeDestination, SetString_str. assert (c_str (s ++ 0 :: t) = c_str (s ++ [0])) as ->; [|done].
  induction s as [|c s IH]; [done|]. cbn [app c_str]. by rewrite IH.
Qed.

(** A private key can be written and read back, with the flag of compression. *)
Lemma secret_roundtrip k : fValid k = true -> seckey_verify (keydata k) = true -> length (keydata k) = 32%nat -> Forall is_u8 (keydata k) ->
  exists s d, (d ← Secret_SetKey k; ToString d) = Some s /\ (printable s -> Secret_SetString s = Some (true, d) /\ Secret_GetKey d = Some k).
Proof.
  intros Hk Hc Hl H8. destruct Hparams as [_ _ [Hp1 Hp8] _].
  set (d := mkBase58Data (SECRET_KEY params) (keydata k ++ if fCompressed k then [1] else [])).
  destruct (Base58Check_roundtrip (vchVersion d ++ vchData d)) as (s & Es & Ds).
  { cbn. rewrite !Forall_app. split_and!; [done|done|]. destruct (fCompressed k); [|done]. by repeat constructor. }
  { cbn. rewrite !length_app, Hp1, Hl. destruct (fCompressed k); cbn; lia. }
  exists s, d. unfold Secret_SetKey. rewrite Hk. cbn [negb mbind option_bind]. split; [exact Es|]. intros Hs.
  unfold Secret_SetString. rewrite (proj2 (SetString_spec s 1 d Hs) (conj Ds Hp1)). cbn [mbind option_bind andb].
  assert (Hlen : length (vchData d) = if fCompressed k then 33%nat else 32%nat) by (cbn; rewrite length_app, Hl; by destruct (fCompressed k)).
  assert (H32 : take 32 (vchData d) = keydata k) by (cbn; rewrite <- Hl; apply take_app_length).
  assert (Hlast : vchData d !! 32%nat = if fCompressed k then Some 1 else None).
  { cbn. rewrite lookup_app_r by lia. rewrite Hl. by destruct (fCompressed k). }
  split.
  - unfold Secret_IsValid. rewrite Hlen, Hlast, (bool_decide_eq_true_2 (vchVersion d = _)) by done. by destruct (fCompressed k).
  - unfold Secret_GetKey, Key_Set. rewrite Hlen, Hlast, H32, Hl, Hc. destruct k as [v [] kd]; cbn in *; by subst v.
Qed.
End Code.

(** *** The main network *)

Module AddressSample.
Definition main : Prefixes := mkPrefixes [60] [122] [118].
Definition junk : stream := replicate 64 0.
Definition key : CTxDestination := CKeyID (seqZ 1 20).
Definition text : list Z := default [] (EncodeDestination junk main key).
End AddressSample.

(** The address, and the address followed by a NUL and more. *)
Lemma address_is_destination_witness :
  length AddressSample.text = 34%nat /\ DecodeDestination AddressSample.junk AddressSample.main AddressSample.text = Some AddressSample.key /\
  DecodeDestination AddressSample.junk AddressSample.main (AddressSample.text ++ [0; 88]) = Some AddressSample.key.
Proof.
  split; [by vm_compute|].
  assert (Hp : prefixes_ok AddressSample.main) by (split; [by repeat constructor..|done]).
  assert (Hs : forall s, s = AddressSample.text \/ s = AddressSample.text ++ [0; 88] -> printable (c_str s)).
  { intros s [-> | ->]; (split; [apply (bool_decide_unpack _); vm_compute; exact I|vm_compute; discriminate]). }
  assert (Hd : dest_ok AddressSample.key) by (split; [done|apply (bool_decide_unpack _); vm_compute; exact I]).
  split.
  - apply (proj1 (address_is_destination AddressSample.junk AddressSample.main Hp AddressSample.text AddressSample.key (Hs _ (or_introl eq_refl)) Hd)).
    vm_compute. reflexivity.
  - apply (proj1 (address_is_destination AddressSample.junk AddressSample.main Hp (AddressSample.text ++ [0; 88]) AddressSample.key (Hs _ (or_intror eq_refl)) Hd)).
    vm_compute. reflexivity.
Defined.
