(* ===== verification/StrEncodings.v ===== *)
(** Text encodings ([utilstrencodings.h], [utilstrencodings.cpp]): hexadecimal, base 64 and base 32. Characters and bytes are their
    codes; a C string ends at the end of the list, where a zero is read. *)

From stdpp Require Import prelude.
From Stdlib Require Import ZArith Lia.
From S2P Require Import Prelude Base58.

Open Scope Z_scope.

(** [p[i]] in a C string. *)
Definition at_char (p : list Z) (i : nat) : Z := nth i p 0.

(** ** Hexadecimal *)

Definition p_util_hexdigit : list Z :=
  replicate 48 (-1) ++ seqZ 0 10 ++ replicate 7 (-1) ++ seqZ 10 6 ++ replicate 26 (-1) ++ seqZ 10 6 ++ replicate 153 (-1).
Definition HexDigit (c : Z) : Z := nth (Z.to_nat c) p_util_hexdigit (-1).
Definition IsHex (str : list Z) : bool :=
  forallb (fun c => negb (HexDigit c <? 0)) str && (0 <? length str)%nat && (Nat.even (length str)).
Definition IsHexNumber (str : list Z) : bool :=
  let starting_location :=
    if (2 <? length str)%nat && (at_char str 0 =? 48) && (at_char str 1 =? 120) then 2%nat else 0%nat in
  forallb (fun c => negb (HexDigit c <? 0)) (drop starting_location str) && (starting_location <? length str)%nat.
Fixpoint ParseHex (psz : list Z) : list Z :=
  match psz with
  | [] => []
  | c :: psz' =>
      if isspace c then ParseHex psz'
      else if HexDigit c =? -1 then []
      else match psz' with
           | [] => []
           | c' :: psz'' => if HexDigit c' =? -1 then [] else Z.lor (u8 (Z.shiftl (HexDigit c) 4)) (HexDigit c') :: ParseHex psz''
           end
  end.
Definition hexmap : list Z := seqZ 48 10 ++ seqZ 97 6.
Definition hex_byte (val : Z) : list Z := [nth (Z.to_nat (Z.shiftr val 4)) hexmap 0; nth (Z.to_nat (Z.land val 15)) hexmap 0].
Definition HexStr (vch : list Z) (fSpaces : bool) : list Z :=
  match vch with
  | [] => []
  | val :: vch => hex_byte val ++ concat (map (fun val => (if fSpaces then [32] else []) ++ hex_byte val) vch)
  end.

(** ** Base 64 *)

Definition pbase64 : list Z := seqZ 65 26 ++ seqZ 97 26 ++ seqZ 48 10 ++ [43; 47].
Definition char64 (i : Z) : Z := nth (Z.to_nat i) pbase64 0.
(** The loop and the padding after it: what is appended to the string from a state on. *)
Fixpoint encode64_loop (mode bits : Z) (pch : list Z) : list Z :=
  match pch with
  | [] => if mode =? 0 then [] else char64 bits :: 61 :: if mode =? 1 then [61] else []
  | enc :: pch =>
      match mode with
      | 0 => char64 (Z.shiftr enc 2) :: encode64_loop 1 (Z.shiftl (Z.land enc 3) 4) pch
      | 1 => char64 (Z.lor bits (Z.shiftr enc 4)) :: encode64_loop 2 (Z.shiftl (Z.land enc 15) 2) pch
      | _ => char64 (Z.lor bits (Z.shiftr enc 6)) :: char64 (Z.land enc 63) :: encode64_loop 0 bits pch
      end
  end.
Definition EncodeBase64 (pch : list Z) : list Z := encode64_loop 0 0 pch.

Definition decode64_table : list Z :=
  replicate 43 (-1) ++ [62] ++ replicate 3 (-1) ++ [63] ++ seqZ 52 10 ++ replicate 7 (-1) ++ seqZ 0 26 ++ replicate 6 (-1) ++ seqZ 26 26 ++ replicate 133 (-1).
Definition dec64 (c : Z) : Z := nth (Z.to_nat c) decode64_table (-1).
(** The bytes from a state on, the last state, and the rest of the string. *)
Fixpoint decode64_loop (mode bits : Z) (p : list Z) : list Z * (Z * Z * list Z) :=
  match p with
  | [] => ([], (mode, bits, p))
  | c :: p' =>
      let dec := dec64 c in
      if dec =? -1 then ([], (mode, bits, p))
      else
        match mode with
        | 0 => decode64_loop 1 dec p'
        | 1 => let '(r, st) := decode64_loop 2 (Z.land dec 15) p' in (u8 (Z.lor (Z.shiftl bits 2) (Z.shiftr dec 4)) :: r, st)
        | 2 => let '(r, st) := decode64_loop 3 (Z.land dec 3) p' in (u8 (Z.lor (Z.shiftl bits 4) (Z.shiftr dec 2)) :: r, st)
        | _ => let '(r, st) := decode64_loop 0 bits p' in (u8 (Z.lor (Z.shiftl bits 6) dec) :: r, st)
        end
  end.
Definition invalid64 (st : Z * Z * list Z) : bool :=
  let '(mode, bits, p) := st in
  match mode with
  | 0 => false
  | 1 => true
  | 2 => negb (bits =? 0) || negb (at_char p 0 =? 61) || negb (at_char p 1 =? 61) || negb (dec64 (at_char p 2) =? -1)
  | _ => negb (bits =? 0) || negb (at_char p 0 =? 61) || negb (dec64 (at_char p 1) =? -1)
  end.
(** The bytes and [*pfInvalid]. *)
Definition DecodeBase64 (p : list Z) : list Z * bool :=
  let '(vchRet, st) := decode64_loop 0 0 p in (vchRet, invalid64 st).

(** ** Base 32 *)

Definition pbase32 : list Z := seqZ 97 26 ++ seqZ 50 6.
Definition char32 (i : Z) : Z := nth (Z.to_nat i) pbase32 0.
Definition nPadding (mode : Z) : nat := nth (Z.to_nat mode) [0; 6; 4; 3; 1]%nat 0%nat.
Fixpoint encode32_loop (mode bits : Z) (pch : list Z) : list Z :=
  match pch with
  | [] => if mode =? 0 then [] else char32 bits :: replicate (nPadding mode) 61
  | enc :: pch =>
      match mode with
      | 0 => char32 (Z.shiftr enc 3) :: encode32_loop 1 (Z.shiftl (Z.land enc 7) 2) pch
      | 1 => char32 (Z.lor bits (Z.shiftr enc 6)) :: char32 (Z.land (Z.shiftr enc 1) 31) :: encode32_loop 2 (Z.shiftl (Z.land enc 1) 4) pch
      | 2 => char32 (Z.lor bits (Z.shiftr enc 4)) :: encode32_loop 3 (Z.shiftl (Z.land enc 15) 1) pch
      | 3 => char32 (Z.lor bits (Z.shiftr enc 7)) :: char32 (Z.land (Z.shiftr enc 2) 31) :: encode32_loop 4 (Z.shiftl (Z.land enc 3) 3) pch
      | _ => char32 (Z.lor bits (Z.shiftr enc 5)) :: char32 (Z.land enc 31) :: encode32_loop 0 bits pch
      end
  end.
Definition EncodeBase32 (pch : list Z) : list Z := encode32_loop 0 0 pch.

Definition decode32_table : list Z :=
  replicate 50 (-1) ++ seqZ 26 6 ++ replicate 9 (-1) ++ seqZ 0 26 ++ replicate 6 (-1) ++ seqZ 0 26 ++ replicate 133 (-1).
Definition dec32 (c : Z) : Z := nth (Z.to_nat c) decode32_table (-1).
Fixpoint decode32_loop (mode bits : Z) (p : list Z) : list Z * (Z * Z * list Z) :=
  match p with
  | [] => ([], (mode, bits, p))
  | c :: p' =>
      let dec := dec32 c in
      if dec =? -1 then ([], (mode, bits, p))
      else
        match mode with
        | 0 => decode32_loop 1 dec p'
        | 1 => let '(r, st) := decode32_loop 2 (Z.land dec 3) p' in (u8 (Z.lor (Z.shiftl bits 3) (Z.shiftr dec 2)) :: r, st)
        | 2 => decode32_loop 3 (Z.lor (Z.shiftl bits 5) dec) p'
        | 3 => let '(r, st) := decode32_loop 4 (Z.land dec 15) p' in (u8 (Z.lor (Z.shiftl bits 1) (Z.shiftr dec 4)) :: r, st)
        | 4 => let '(r, st) := decode32_loop 5 (Z.land dec 1) p' in (u8 (Z.lor (Z.shiftl bits 4) (Z.shiftr dec 1)) :: r, st)
        | 5 => decode32_loop 6 (Z.lor (Z.shiftl bits 5) dec) p'
        | 6 => let '(r, st) := decode32_loop 7 (Z.land dec 7) p' in (u8 (Z.lor (Z.shiftl bits 2) (Z.shiftr dec 3)) :: r, st)
        | _ => let '(r, st) := decode32_loop 0 bits p' in (u8 (Z.lor (Z.shiftl bits 5) dec) :: r, st)
        end
  end.
(** [n] signs are required, and then no character of the alphabet. *)
Definition padding32 (n : nat) (bits : Z) (p : list Z) : bool :=
  negb (bits =? 0) || existsb (fun i => negb (at_char p i =? 61)) (seq 0 n) || negb (dec32 (at_char p n) =? -1).
Definition invalid32 (st : Z * Z * list Z) : bool :=
  let '(mode, bits, p) := st in
  match mode with
  | 0 => false
  | 1 | 3 | 6 => true
  | 2 => padding32 6 bits p
  | 4 => padding32 4 bits p
  | 5 => padding32 3 bits p
  | _ => padding32 1 bits p
  end.
Definition DecodeBase32 (p : list Z) : list Z * bool :=
  let '(vchRet, st) := decode32_loop 0 0 p in (vchRet, invalid32 st).

(** ** Filtering and comparing *)

Definition CHARS_ALPHA_NUM : list Z := seqZ 97 26 ++ seqZ 65 26 ++ seqZ 48 10.
(** [" .,;-_/:?@()"], [" .,;-_?@"] and [".-_"] are added. *)
Definition SAFE_CHARS (rule : nat) : list Z :=
  CHARS_ALPHA_NUM ++ nth rule [[32; 46; 44; 59; 45; 95; 47; 58; 63; 64; 40; 41]; [32; 46; 44; 59; 45; 95; 63; 64]; [46; 45; 95]] [].
Definition SanitizeString (str : list Z) (rule : nat) : list Z := List.filter (fun c => existsb (Z.eqb c) (SAFE_CHARS rule)) str.

Definition TimingResistantEqual (a b : list Z) : bool :=
  if (length b =? 0)%nat then (length a =? 0)%nat
  else
    let accumulator := Z.lxor (Z.of_nat (length a)) (Z.of_nat (length b)) in
    foldl (fun acc i => Z.lor acc (Z.lxor (at_char a i) (at_char b (i mod length b)))) accumulator (seq 0 (length a)) =? 0.

(** ** Round trips *)

(** Facts about bytes, or pairs of bytes, are checked on all of them. *)
Lemma all_bytes_b (f : Z -> bool) : forallb f (seqZ 0 256) = true -> forall e, is_u8 e -> f e = true.
Proof. intros Hf e He. rewrite forallb_forall in Hf. apply Hf, list_elem_of_In, elem_of_seqZ. unfold is_u8 in He. lia. Qed.

Lemma all_pairs_b (f : Z -> Z -> bool) : forallb (fun e => forallb (f e) (seqZ 0 256)) (seqZ 0 256) = true -> forall e x, is_u8 e -> is_u8 x -> f e x = true.
Proof. intros Hf e x He Hx. apply (all_bytes_b (f e)); [|done]. by apply (all_bytes_b (fun e => forallb (f e) (seqZ 0 256))). Qed.

Lemma hex_byte_parse e rest : is_u8 e -> ParseHex (hex_byte e ++ rest) = e :: ParseHex rest.
Proof.
  intros He.
  assert (Hc : (let c := nth (Z.to_nat (Z.shiftr e 4)) hexmap 0 in let c' := nth (Z.to_nat (Z.land e 15)) hexmap 0 in
    negb (isspace c) && negb (HexDigit c =? -1) && negb (HexDigit c' =? -1) && (Z.lor (u8 (Z.shiftl (HexDigit c) 4)) (HexDigit c') =? e)) = true)
    by (revert e He; apply all_bytes_b; vm_compute; reflexivity).
  cbv zeta in Hc. rewrite !andb_true_iff, !negb_true_iff, Z.eqb_eq in Hc. destruct Hc as [[[H1 H2] H3] H4].
  unfold hex_byte. cbn [app ParseHex]. by rewrite H1, H2, H3, H4.
Qed.

Lemma ParseHex_HexStr l sp : Forall is_u8 l -> ParseHex (HexStr l sp) = l.
Proof.
  destruct 1 as [|e l He Hl]; [done|]. unfold HexStr. rewrite hex_byte_parse by done. f_equal.
  assert (Hsp : forall r, ParseHex ((if sp then [32] else []) ++ r) = ParseHex r) by (by destruct sp).
  induction Hl as [|x l Hx _ IH]; [done|]. cbn [map concat]. by rewrite <- app_assoc, Hsp, hex_byte_parse, IH.
Qed.

(** Every character of the alphabet stands for its index. *)
Lemma dec64_char i : 0 <= i < 64 -> dec64 (char64 i) = i.
Proof.
  intros Hi. assert (Hall : forallb (fun i => dec64 (char64 i) =? i) (seqZ 0 64) = true) by (vm_compute; reflexivity).
  rewrite forallb_forall in Hall. apply Z.eqb_eq, Hall, list_elem_of_In, elem_of_seqZ. lia.
Qed.

Lemma dec32_char i : 0 <= i < 32 -> dec32 (char32 i) = i.
Proof.
  intros Hi. assert (Hall : forallb (fun i => dec32 (char32 i) =? i) (seqZ 0 32) = true) by (vm_compute; reflexivity).
  rewrite forallb_forall in Hall. apply Z.eqb_eq, Hall, list_elem_of_In, elem_of_seqZ. lia.
Qed.

(** A number in two pieces. *)
Lemma two_pieces x k : 0 <= k -> Z.lor (Z.shiftl (Z.shiftr x k) k) (Z.land x (Z.ones k)) = x.
Proof.
  intros Hk. rewrite Z.lor_comm, Z.land_ones, lor_shiftl_add, Z.shiftr_div_pow2 by (try apply Z.mod_pos_bound; lia).
  pose proof (Z.div_mod x (2 ^ k)). lia.
Qed.

(** A character between two bytes: [k] bits of the first and [m] bits of the second. *)
Lemma shared k m e x v : 0 <= k -> 0 <= m <= 8 -> is_u8 e -> is_u8 x -> v = Z.lor (Z.shiftl (Z.land e (Z.ones k)) m) (Z.shiftr x (8 - m)) ->
  0 <= v < 2 ^ (k + m) /\ u8 (Z.lor (Z.shiftl (Z.shiftr e k) k) (Z.shiftr v m)) = e /\ Z.land v (Z.ones m) = Z.shiftr x (8 - m).
Proof.
  intros Hk Hm He Hx ->. assert (Hx' : 0 <= Z.shiftr x (8 - m) < 2 ^ m).
  { rewrite Z.shiftr_div_pow2 by lia. unfold is_u8 in Hx. split; [apply Z.div_pos; lia|]. apply Z.div_lt_upper_bound; [lia|].
    rewrite <- Z.pow_add_r by lia. replace (8 - m + m) with 8 by lia. lia. }
  rewrite Z.lor_comm, lor_shiftl_add by lia. assert (0 <= Z.land e (Z.ones k) < 2 ^ k) by (rewrite Z.land_ones by lia; apply Z.mod_pos_bound; lia).
  assert (0 < 2 ^ m) by lia. rewrite Z.pow_add_r by lia. split_and!; [nia|nia| |].
  - rewrite (Z.shiftr_div_pow2 (_ + _) m), (Z.mul_comm (2 ^ m) (Z.land e _)), Z.div_add, (Z.div_small (Z.shiftr x (8 - m))), Z.add_0_l, two_pieces by lia.
    by rewrite u8_id.
  - by rewrite (Z.land_ones (_ + _) m), (Z.mul_comm (2 ^ m) (Z.land e _)), Z.mod_add, Z.mod_small by lia.
Qed.

(** A decoder in the state that the encoder has left it in, at the end of the bytes and at every byte. *)
Lemma decode64_step mode bits c p : dec64 c <> -1 -> decode64_loop mode bits (c :: p) =
  match mode with
  | 0 => decode64_loop 1 (dec64 c) p
  | 1 => let '(r, st) := decode64_loop 2 (Z.land (dec64 c) 15) p in (u8 (Z.lor (Z.shiftl bits 2) (Z.shiftr (dec64 c) 4)) :: r, st)
  | 2 => let '(r, st) := decode64_loop 3 (Z.land (dec64 c) 3) p in (u8 (Z.lor (Z.shiftl bits 4) (Z.shiftr (dec64 c) 2)) :: r, st)
  | _ => let '(r, st) := decode64_loop 0 bits p in (u8 (Z.lor (Z.shiftl bits 6) (dec64 c)) :: r, st)
  end.
Proof. intros Hc. cbn [decode64_loop]. by rewrite (proj2 (Z.eqb_neq _ _) Hc). Qed.

Definition decoded64 (x : list Z * (Z * Z * list Z)) : list Z * bool := (x.1, invalid64 x.2).

Lemma decoded64_cons e x : decoded64 (let '(r, st) := x in (e :: r, st)) = (e :: (decoded64 x).1, (decoded64 x).2).
Proof. by destruct x. Qed.

(** The character between two bytes is decoded to the rest of the first and the beginning of the second. *)
Lemma between (dec char : Z -> Z) w k m e x : (forall i, 0 <= i < 2 ^ w -> dec (char i) = i) -> 0 <= k -> 0 <= m <= 8 -> k + m = w -> is_u8 e -> is_u8 x ->
  let v := Z.lor (Z.shiftl (Z.land e (Z.ones k)) m) (Z.shiftr x (8 - m)) in
  dec (char v) = v /\ v <> -1 /\ u8 (Z.lor (Z.shiftl (Z.shiftr e k) k) (Z.shiftr v m)) = e /\ Z.land v (Z.ones m) = Z.shiftr x (8 - m).
Proof.
  intros Hdec Hk Hm <- He Hx v. destruct (shared k m e x v) as (Hv & H1 & H2); [done..|]. split_and!; [by apply Hdec|lia|done|done].
Qed.

(** The last character has no second byte. *)
Lemma last_char (dec char : Z -> Z) w k m e : (forall i, 0 <= i < 2 ^ w -> dec (char i) = i) -> 0 <= k -> 0 <= m <= 8 -> k + m = w -> is_u8 e ->
  let v := Z.shiftl (Z.land e (Z.ones k)) m in
  dec (char v) = v /\ v <> -1 /\ u8 (Z.lor (Z.shiftl (Z.shiftr e k) k) (Z.shiftr v m)) = e /\ Z.land v (Z.ones m) = 0.
Proof.
  intros Hdec Hk Hm Hw He v. pose proof (between dec char w k m e 0 Hdec Hk Hm Hw He ltac:(unfold is_u8; lia)) as Hb. cbv zeta in Hb.
  by rewrite Z.shiftr_0_l, Z.lor_0_r in Hb.
Qed.

Lemma top_bits x k : 0 <= k <= 8 -> is_u8 x -> 0 <= Z.shiftr x k < 2 ^ (8 - k).
Proof.
  unfold is_u8. intros Hk Hx. rewrite Z.shiftr_div_pow2 by lia. split; [apply Z.div_pos; lia|]. apply Z.div_lt_upper_bound; [lia|].
  rewrite <- Z.pow_add_r by lia. replace (k + (8 - k)) with 8 by lia. lia.
Qed.

Lemma low_bits x k : 0 <= k -> 0 <= Z.land x (Z.ones k) < 2 ^ k.
Proof. intros Hk. rewrite Z.land_ones by lia. apply Z.mod_pos_bound. lia. Qed.

Lemma roundtrip64 l : Forall is_u8 l ->
  (forall b b', decoded64 (decode64_loop 0 b (encode64_loop 0 b' l)) = (l, false)) /\
  (forall e, is_u8 e -> decoded64 (decode64_loop 1 (Z.shiftr e 2) (encode64_loop 1 (Z.shiftl (Z.land e 3) 4) l)) = (e :: l, false)) /\
  (forall e, is_u8 e -> decoded64 (decode64_loop 2 (Z.shiftr e 4) (encode64_loop 2 (Z.shiftl (Z.land e 15) 2) l)) = (e :: l, false)).
Proof.
  induction 1 as [|x l Hx _ (IH0 & IH1 & IH2)]; split_and!; [done|..].
  - intros e He. destruct (last_char dec64 char64 6 2 4 e dec64_char) as (Hd & Hn & H1 & H2); [lia..|done|].
    cbn [encode64_loop Z.eqb Pos.eqb]. change (Z.ones 2) with 3 in *. change (Z.ones 4) with 15 in *.
    rewrite decode64_step, Hd by (by rewrite Hd). by rewrite decoded64_cons, H1, H2.
  - intros e He. destruct (last_char dec64 char64 6 4 2 e dec64_char) as (Hd & Hn & H1 & H2); [lia..|done|].
    cbn [encode64_loop Z.eqb Pos.eqb]. change (Z.ones 2) with 3 in *. change (Z.ones 4) with 15 in *.
    rewrite decode64_step, Hd by (by rewrite Hd). by rewrite decoded64_cons, H1, H2.
  - intros b b'. cbn [encode64_loop]. pose proof (dec64_char _ (top_bits x 2 ltac:(lia) Hx)) as Hd. pose proof (top_bits x 2 ltac:(lia) Hx).
    rewrite decode64_step, Hd by (rewrite Hd; lia). by apply IH1.
  - intros e He. destruct (between dec64 char64 6 2 4 e x dec64_char) as (Hd & Hn & H1 & H2); [lia..|done|done|].
    cbn [encode64_loop]. change (Z.ones 2) with 3 in *. change (Z.ones 4) with 15 in *. change (8 - 4) with 4 in *.
    rewrite decode64_step, Hd by (by rewrite Hd). by rewrite decoded64_cons, H1, H2, IH2.
  - intros e He. destruct (between dec64 char64 6 4 2 e x dec64_char) as (Hd & Hn & H1 & H2); [lia..|done|done|].
    cbn [encode64_loop]. change (Z.ones 2) with 3 in *. change (Z.ones 4) with 15 in *. change (8 - 2) with 6 in *.
    rewrite decode64_step, Hd by (by rewrite Hd). rewrite decoded64_cons, H1, H2.
    pose proof (low_bits x 6 ltac:(lia)) as Hl. pose proof (dec64_char _ Hl) as Hd'. change 63 with (Z.ones 6).
    rewrite decode64_step, Hd', decoded64_cons, two_pieces, u8_id, IH0 by (try rewrite Hd'; unfold is_u8 in *; lia). done.
Qed.

(** *** Base 32 *)

Lemma decode32_step mode bits c p : dec32 c <> -1 -> decode32_loop mode bits (c :: p) =
  match mode with
  | 0 => decode32_loop 1 (dec32 c) p
  | 1 => let '(r, st) := decode32_loop 2 (Z.land (dec32 c) 3) p in (u8 (Z.lor (Z.shiftl bits 3) (Z.shiftr (dec32 c) 2)) :: r, st)
  | 2 => decode32_loop 3 (Z.lor (Z.shiftl bits 5) (dec32 c)) p
  | 3 => let '(r, st) := decode32_loop 4 (Z.land (dec32 c) 15) p in (u8 (Z.lor (Z.shiftl bits 1) (Z.shiftr (dec32 c) 4)) :: r, st)
  | 4 => let '(r, st) := decode32_loop 5 (Z.land (dec32 c) 1) p in (u8 (Z.lor (Z.shiftl bits 4) (Z.shiftr (dec32 c) 1)) :: r, st)
  | 5 => decode32_loop 6 (Z.lor (Z.shiftl bits 5) (dec32 c)) p
  | 6 => let '(r, st) := decode32_loop 7 (Z.land (dec32 c) 7) p in (u8 (Z.lor (Z.shiftl bits 2) (Z.shiftr (dec32 c) 3)) :: r, st)
  | _ => let '(r, st) := decode32_loop 0 bits p in (u8 (Z.lor (Z.shiftl bits 5) (dec32 c)) :: r, st)
  end.
Proof. intros Hc. cbn [decode32_loop]. by rewrite (proj2 (Z.eqb_neq _ _) Hc). Qed.

Definition decoded32 (x : list Z * (Z * Z * list Z)) : list Z * bool := (x.1, invalid32 x.2).

Lemma decoded32_cons e x : decoded32 (let '(r, st) := x in (e :: r, st)) = (e :: (decoded32 x).1, (decoded32 x).2).
Proof. by destruct x. Qed.

Ltac ones32 := change (Z.ones 1) with 1 in *; change (Z.ones 2) with 3 in *; change (Z.ones 3) with 7 in *; change (Z.ones 4) with 15 in *;
  change (8 - 2) with 6 in *; change (8 - 4) with 4 in *; change (8 - 1) with 7 in *; change (8 - 3) with 5 in *.
(** The last character of the string, and the character between two bytes. *)
Ltac end32 k m :=
  let e := fresh "e" in let He := fresh "He" in intros e He;
  destruct (last_char dec32 char32 5 k m e dec32_char) as (Hd & Hn & H1 & H2); [lia..|done|];
  cbn [encode32_loop Z.eqb Pos.eqb]; ones32; rewrite decode32_step, Hd by (by rewrite Hd); by rewrite decoded32_cons, H1, H2.
Ltac next32 k m x :=
  let e := fresh "e" in let He := fresh "He" in intros e He;
  destruct (between dec32 char32 5 k m e x dec32_char) as (Hd & Hn & H1 & H2); [lia..|done|done|];
  cbn [encode32_loop]; ones32; rewrite decode32_step, Hd by (by rewrite Hd); rewrite decoded32_cons, H1, H2.

(** A character within a byte. *)
Lemma within32 x k : 0 <= k -> dec32 (char32 (Z.land (Z.shiftr x k) 31)) = Z.land (Z.shiftr x k) 31 /\ Z.land (Z.shiftr x k) 31 <> -1 /\
  Z.lor (Z.shiftl (Z.shiftr x (k + 5)) 5) (Z.land (Z.shiftr x k) 31) = Z.shiftr x k.
Proof.
  intros Hk. pose proof (low_bits (Z.shiftr x k) 5 ltac:(lia)) as Hl. change 31 with (Z.ones 5). split_and!; [by apply dec32_char|lia|].
  by rewrite <- Z.shiftr_shiftr, two_pieces by lia.
Qed.

Lemma roundtrip32 l : Forall is_u8 l ->
  (forall b b', decoded32 (decode32_loop 0 b (encode32_loop 0 b' l)) = (l, false)) /\
  (forall e, is_u8 e -> decoded32 (decode32_loop 1 (Z.shiftr e 3) (encode32_loop 1 (Z.shiftl (Z.land e 7) 2) l)) = (e :: l, false)) /\
  (forall e, is_u8 e -> decoded32 (decode32_loop 3 (Z.shiftr e 1) (encode32_loop 2 (Z.shiftl (Z.land e 1) 4) l)) = (e :: l, false)) /\
  (forall e, is_u8 e -> decoded32 (decode32_loop 4 (Z.shiftr e 4) (encode32_loop 3 (Z.shiftl (Z.land e 15) 1) l)) = (e :: l, false)) /\
  (forall e, is_u8 e -> decoded32 (decode32_loop 6 (Z.shiftr e 2) (encode32_loop 4 (Z.shiftl (Z.land e 3) 3) l)) = (e :: l, false)).
Proof.
  induction 1 as [|x l Hx _ (IH0 & IH1 & IH2 & IH3 & IH4)]; split_and!; [done|end32 3 2|end32 1 4|end32 4 1|end32 2 3|..].
  - intros b b'. cbn [encode32_loop]. pose proof (dec32_char _ (top_bits x 3 ltac:(lia) Hx)) as Hd. pose proof (top_bits x 3 ltac:(lia) Hx).
    rewrite decode32_step, Hd by (rewrite Hd; lia). by apply IH1.
  - next32 3 2 x. destruct (within32 x 1) as (Hd1 & Hn1 & Hw); [lia|]. rewrite decode32_step, Hd1 by (by rewrite Hd1).
    change (1 + 5) with 6 in Hw. rewrite Hw. by rewrite IH2.
  - next32 1 4 x. by rewrite IH3.
  - next32 4 1 x. destruct (within32 x 2) as (Hd1 & Hn1 & Hw); [lia|]. rewrite decode32_step, Hd1 by (by rewrite Hd1).
    change (2 + 5) with 7 in Hw. rewrite Hw. by rewrite IH4.
  - next32 2 3 x. destruct (within32 x 0) as (Hd1 & Hn1 & Hw); [lia|]. rewrite Z.shiftr_0_r in Hd1, Hn1, Hw. change (0 + 5) with 5 in Hw.
    rewrite decode32_step, Hd1 by (by rewrite Hd1). by rewrite decoded32_cons, Hw, u8_id, IH0.
Qed.

(** Every byte string survives being written as hexadecimal text, with or without spaces, in base 64 and in base 32, and the decoders
    accept the padding of the encoders. *)
Theorem text_encodings_roundtrip l sp : Forall is_u8 l ->
  ParseHex (HexStr l sp) = l /\ DecodeBase64 (EncodeBase64 l) = (l, false) /\ DecodeBase32 (EncodeBase32 l) = (l, false).
Proof.
  intros Hl. split_and!; [by apply ParseHex_HexStr| |].
  - pose proof (proj1 (roundtrip64 l Hl) 0 0) as E. unfold DecodeBase64, EncodeBase64. by destruct (decode64_loop 0 0 (encode64_loop 0 0 l)).
  - pose proof (proj1 (roundtrip32 l Hl) 0 0) as E. unfold DecodeBase32, EncodeBase32. by destruct (decode32_loop 0 0 (encode32_loop 0 0 l)).
Qed.

Lemma text_encodings_roundtrip_witness : HexStr [222; 173] true = [100; 101; 32; 97; 100] /\ EncodeBase64 [222; 173] = [51; 113; 48; 61] /\
  DecodeBase64 (EncodeBase64 [222; 173]) = ([222; 173], false).
Proof.
  split; [by vm_compute|]. split; [by vm_compute|].
  apply (text_encodings_roundtrip [222; 173] true). by repeat constructor; unfold is_u8.
Defined.

(** The comparison that looks at every character is equality. *)
Lemma TimingResistantEqual_spec a b : TimingResistantEqual a b = bool_decide (a = b).
Proof.
  unfold TimingResistantEqual. destruct (Nat.eqb_spec (length b) 0) as [Hb|Hb].
  { destruct b; [|done]. by destruct a. }
  assert (Hf : forall (f : nat -> Z) js acc, foldl (fun acc i => Z.lor acc (f i)) acc js = 0 <-> acc = 0 /\ forall i, In i js -> f i = 0).
  { intros f js. induction js as [|i js IH]; intros acc; cbn [foldl In]; [by split; [intros ->|intros [-> _]]|]. rewrite IH, Z.lor_eq_0_iff. split.
    - intros [[? ?] ?]. split; [done|]. intros j [<-|Hj]; [done|auto].
    - intros [? Hall]. split; [split; [done|apply Hall; by left]|]. intros j Hj. apply Hall. by right. }
  apply eq_true_iff_eq. rewrite Z.eqb_eq, bool_decide_eq_true, Hf, Z.lxor_eq_0_iff. split.
  - intros [Hl Hall]. apply (nth_ext _ _ 0 0); [lia|]. intros i Hi. specialize (Hall i ltac:(apply in_seq; lia)). apply Z.lxor_eq in Hall.
    rewrite Nat.mod_small in Hall by lia. exact Hall.
  - intros ->. split; [done|]. intros i Hi%in_seq. rewrite Nat.mod_small by lia. apply Z.lxor_nilpotent.
Qed.
