(* ===== verification/Numbers.v ===== *)
(** Numbers as text ([utilstrencodings.cpp], [utilmoneystr.cpp]): integers, amounts of money and fixed-point numbers. Characters are their
    codes; a C string ends at the end of the list, where a zero is read. *)

From stdpp Require Import prelude.
From Stdlib Require Import ZArith Lia.
From S2P Require Import Prelude Transaction Base58 StrEncodings.

Open Scope Z_scope.

Definition isdigit (c : Z) : bool := (48 <=? c) && (c <=? 57).

(** The rest of a string after a character. *)
Definition eat (ch : Z) (s : list Z) : option (list Z) := match s with c :: s' => if c =? ch then Some s' else None | [] => None end.

(** ** The C library *)

(** The leading digits with their value, and the rest. *)
Fixpoint read_digits (v : Z) (s : list Z) : Z * nat * list Z :=
  match s with
  | c :: s' => if isdigit c then let '(r, n, rest) := read_digits (v * 10 + (c - 48)) s' in (r, S n, rest) else (v, O, s)
  | [] => (v, O, [])
  end.
(** [strtol], [strtoll], [strtoul] and [strtoull] in base 10, with 64 bits: the value, the rest of the string and whether [errno] is set. A minus
    sign of an unsigned number is not looked at, since the callers refuse it before. *)
Definition strto (lo hi : Z) (s : list Z) : Z * list Z * bool :=
  let t := drop_while isspace s in
  let '(neg, t) := match eat 45 t, eat 43 t with Some t', _ => (true, t') | _, Some t' => (false, t') | _, _ => (false, t) end in
  let '(v, n, rest) := read_digits 0 t in
  if (n =? 0)%nat then (0, s, false)
  else
    let v := if neg : bool then - v else v in
    if v <? lo then (lo, rest, true) else if hi <? v then (hi, rest, true) else (v, rest, false).
Definition strtoll (s : list Z) : Z * list Z * bool := strto (- 2 ^ 63) (2 ^ 63 - 1) s.
Definition strtoull (s : list Z) : Z * list Z * bool := strto 0 (2 ^ 64 - 1) s.

(** [printf] of ["%d"] for a number that is not negative; the fuel is enough for 64 bits. *)
Fixpoint decimal_digits (fuel : nat) (n : Z) : list Z :=
  match fuel with
  | O => []
  | S fuel => if n <? 10 then [n] else decimal_digits fuel (n / 10) ++ [n mod 10]
  end.
Definition decimal (n : Z) : list Z := map (Z.add 48) (decimal_digits 20 n).

(** ** Integers *)

Definition i64tostr (n : Z) : list Z := if n <? 0 then 45 :: decimal (- n) else decimal n.

Definition ParsePrechecks (str : list Z) : bool :=
  match str with
  | [] => false
  | c :: _ => negb (isspace c || isspace (List.last str 0)) && forallb (fun c => negb (c =? 0)) str
  end.
(** [None] is the result [false]. *)
Definition ParseInt32 (str : list Z) : option Z :=
  if negb (ParsePrechecks str) then None
  else
    let '(n, endp, errno) := strtoll str in
    if bool_decide (endp = []) && negb errno && (- 2 ^ 31 <=? n) && (n <=? 2 ^ 31 - 1) then Some n else None.
Definition ParseInt64 (str : list Z) : option Z :=
  if negb (ParsePrechecks str) then None
  else
    let '(n, endp, errno) := strtoll str in
    if bool_decide (endp = []) && negb errno && (- 2 ^ 63 <=? n) && (n <=? 2 ^ 63 - 1) then Some n else None.
Definition ParseUInt32 (str : list Z) : option Z :=
  if negb (ParsePrechecks str) then None
  else if at_char str 0 =? 45 then None
  else
    let '(n, endp, errno) := strtoull str in
    if bool_decide (endp = []) && negb errno && (n <=? 2 ^ 32 - 1) then Some n else None.
Definition ParseUInt64 (str : list Z) : option Z :=
  if negb (ParsePrechecks str) then None
  else if at_char str 0 =? 45 then None
  else
    let '(n, endp, errno) := strtoull str in
    if bool_decide (endp = []) && negb errno && (n <=? 2 ^ 64 - 1) then Some n else None.
Definition atoi64 (str : list Z) : Z := (strtoll str).1.1.

(** ** Amounts *)

Definition CENT : Z := 1000000.

(** The number of zeroes to trim, of the reversed string. *)
Fixpoint trailing_zeros (r : list Z) : nat :=
  match r with
  | c :: r' => if (c =? 48) && isdigit (at_char r' 1) then S (trailing_zeros r') else O
  | [] => O
  end.
(** ["%d.%08d"] *)
Definition money_string (quotient remainder : Z) : list Z :=
  let d := decimal remainder in
  decimal quotient ++ 46 :: replicate (8 - length d) 48 ++ d.
(** [None] is the signed overflow of [-n]. *)
Definition FormatMoney (n : Z) : option (list Z) :=
  if n =? - 2 ^ 63 then None
  else
    let n_abs := if 0 <? n then n else - n in
    let quotient := n_abs / COIN in
    let remainder := n_abs mod COIN in
    let str := money_string quotient remainder in
    let nTrim := trailing_zeros (reverse str) in
    let str := take (length str - nTrim) str in
    Some (if n <? 0 then 45 :: str else str).

(** The digits after the point, with the multiplier: [nUnits] and the rest. *)
Fixpoint fraction (nUnits nMult : Z) (p : list Z) : Z * list Z :=
  match p with
  | c :: p' => if isdigit c && (0 <? nMult) then fraction (nUnits + nMult * (c - 48)) (nMult / 10) p' else (nUnits, p)
  | [] => (nUnits, [])
  end.
(** The first loop: [strWhole], [nUnits] and the rest; [None] is [return false]. *)
Fixpoint whole_loop (p : list Z) : option (list Z * Z * list Z) :=
  match p with
  | [] => Some ([], 0, [])
  | c :: p' =>
      if c =? 46 then let '(nUnits, rest) := fraction 0 (CENT * 10) p' in Some ([], nUnits, rest)
      else if isspace c then Some ([], 0, p)
      else if negb (isdigit c) then None
      else '(strWhole, nUnits, rest) ← whole_loop p'; Some (c :: strWhole, nUnits, rest)
  end.
Definition ParseMoney (pszIn : list Z) : option Z :=
  '(strWhole, nUnits, rest) ← whole_loop (drop_while isspace pszIn);
  if negb (forallb isspace rest) then None
  else if (10 <? length strWhole)%nat then None
  else if (nUnits <? 0) || (COIN <? nUnits) then None
  else
    let nWhole := atoi64 strWhole in
    Some (nWhole * COIN + nUnits).

(** ** Fixed-point numbers *)

Definition UPPER_BOUND : Z := 10 ^ 18 - 1.
(** [mantissa *= 10], [n] times; [None] is the overflow. *)
Fixpoint scale_up (n : nat) (mantissa : Z) : option Z :=
  match n with
  | O => Some mantissa
  | S n => if UPPER_BOUND / 10 <? mantissa then None else scale_up n (mantissa * 10)
  end.
Definition ProcessMantissaDigit (ch : Z) (mantissa : Z) (mantissa_tzeros : nat) : option (Z * nat) :=
  if ch =? 48 then Some (mantissa, S mantissa_tzeros)
  else m ← scale_up (S mantissa_tzeros) mantissa; Some (m + (ch - 48), O).
(** The loop over digits: the mantissa, its zeroes, how many digits, and the rest. *)
Fixpoint mantissa_loop (val : list Z) (mantissa : Z) (tzeros : nat) (point_ofs : Z) : option (Z * nat * Z * list Z) :=
  match val with
  | c :: rest =>
      if isdigit c then '(m, z) ← ProcessMantissaDigit c mantissa tzeros; mantissa_loop rest m z (point_ofs + 1)
      else Some (mantissa, tzeros, point_ofs, val)
  | [] => Some (mantissa, tzeros, point_ofs, [])
  end.
Fixpoint exponent_loop (val : list Z) (exponent : Z) : option (Z * list Z) :=
  match val with
  | c :: rest =>
      if isdigit c then if UPPER_BOUND / 10 <? exponent then None else exponent_loop rest (exponent * 10 + (c - 48))
      else Some (exponent, val)
  | [] => Some (exponent, [])
  end.
Definition starts_digit (val : list Z) : bool := match val with c :: _ => isdigit c | [] => false end.
(** The last scaling tests both signs. *)
Fixpoint scale_last (n : nat) (mantissa : Z) : option Z :=
  match n with
  | O => Some mantissa
  | S n => if (UPPER_BOUND / 10 <? mantissa) || (mantissa <? - (UPPER_BOUND / 10)) then None else scale_last n (mantissa * 10)
  end.
(** The parts of [ParseFixedPoint]: the integer part, the fraction, the exponent, and the scaling. *)
Definition parse_integer (val : list Z) : option (Z * nat * list Z) :=
  match val with
  | [] => None
  | c :: rest =>
      if c =? 48 then Some (0, O, rest)
      else if (49 <=? c) && (c <=? 57) then '(m, z, _, rest) ← mantissa_loop val 0 O 0; Some (m, z, rest)
      else None
  end.
Definition parse_fraction (mantissa : Z) (tzeros : nat) (val : list Z) : option (Z * nat * Z * list Z) :=
  match eat 46 val with
  | Some rest => if starts_digit rest then mantissa_loop rest mantissa tzeros 0 else None
  | None => Some (mantissa, tzeros, 0, val)
  end.
Definition parse_exponent (val : list Z) : option (Z * list Z) :=
  match val with
  | c :: rest =>
      if (c =? 101) || (c =? 69) then
        let '(exponent_sign, rest) := match eat 43 rest, eat 45 rest with Some r, _ => (false, r) | _, Some r => (true, r) | _, _ => (false, rest) end in
        if starts_digit rest then '(e, rest) ← exponent_loop rest 0; Some (if exponent_sign : bool then - e else e, rest) else None
      else Some (0, val)
  | [] => Some (0, val)
  end.
Definition finish (mantissa exponent : Z) : option Z :=
  if exponent <? 0 then None
  else if 18 <=? exponent then None
  else
    mantissa ← scale_last (Z.to_nat exponent) mantissa;
    if (UPPER_BOUND <? mantissa) || (mantissa <? - UPPER_BOUND) then None else Some mantissa.
Definition ParseFixedPoint (val : list Z) (decimals : Z) : option Z :=
  let '(mantissa_sign, val) := match eat 45 val with Some val' => (true, val') | None => (false, val) end in
  '(mantissa, tzeros, val) ← parse_integer val;
  '(mantissa, tzeros, point_ofs, val) ← parse_fraction mantissa tzeros val;
  '(exponent, val) ← parse_exponent val;
  if negb (bool_decide (val = [])) then None
  else
    let exponent := exponent - point_ofs + Z.of_nat tzeros in
    let mantissa := if mantissa_sign : bool then - mantissa else mantissa in
    let exponent := exponent + decimals in
    finish mantissa exponent.

(** ** Printing and reading integers *)

Definition chars (ds : list Z) : list Z := map (Z.add 48) ds.
Definition is_digit (d : Z) : Prop := 0 <= d < 10.

Lemma isdigit_char d : is_digit d -> isdigit (48 + d) = true /\ 48 + d - 48 = d /\ isspace (48 + d) = false.
Proof. unfold is_digit, isdigit, isspace. intros Hd. split_and!; [lia|lia|]. apply not_true_iff_false. intros E. lia. Qed.

Lemma decimal_digits_spec fuel : forall n, 0 <= n < 10 ^ Z.of_nat fuel -> (0 < fuel)%nat ->
  be_val 10 (decimal_digits fuel n) = n /\ Forall is_digit (decimal_digits fuel n) /\ decimal_digits fuel n <> [] /\
  (forall k, (0 < k)%nat -> n < 10 ^ Z.of_nat k -> (length (decimal_digits fuel n) <= k)%nat).
Proof.
  induction fuel as [|fuel IH]; intros n Hn Hf; [lia|]. cbn [decimal_digits]. destruct (Z.ltb_spec n 10).
  - unfold be_val. cbn. split_and!; [lia|apply Forall_singleton; unfold is_digit; lia|done|lia].
  - destruct fuel as [|fuel]; [cbn in Hn; lia|]. rewrite Nat2Z.inj_succ, Z.pow_succ_r in Hn by lia.
    destruct (IH (n / 10)) as (Hv & Hd & Hne & Hl); [|lia|].
    { split; [apply Z.div_pos; lia|apply Z.div_lt_upper_bound; lia]. }
    pose proof (Z.div_mod n 10). pose proof (Z.mod_pos_bound n 10). split_and!.
    + unfold be_val in *. rewrite foldl_app, Hv. cbn. lia.
    + apply Forall_app. split; [done|]. apply Forall_singleton. unfold is_digit. lia.
    + by intros [_ ?]%app_nil.
    + intros k Hk Hlt. destruct k as [|k]; [lia|]. rewrite length_app. cbn [length]. destruct k as [|k].
      { cbn in Hlt. lia. }
      assert (length (decimal_digits (S fuel) (n / 10)) <= S k)%nat; [|lia]. apply Hl; [lia|].
      rewrite Nat2Z.inj_succ, Z.pow_succ_r in Hlt by lia. apply Z.div_lt_upper_bound; lia.
Qed.

Lemma read_digits_chars ds rest : Forall is_digit ds -> starts_digit rest = false -> forall v,
  read_digits v (chars ds ++ rest) = (foldl (fun v d => v * 10 + d) v ds, length ds, rest).
Proof.
  intros Hds Hr. induction Hds as [|d ds Hd _ IH]; intros v; cbn [chars map app read_digits foldl].
  - destruct rest as [|c rest]; [done|]. cbn in *. by rewrite Hr.
  - destruct (isdigit_char d Hd) as (-> & -> & _). fold (chars ds). by rewrite IH.
Qed.

Lemma eat_chars ch ds rest : Forall is_digit ds -> ds <> [] -> ~ (48 <= ch <= 57) -> eat ch (chars ds ++ rest) = None.
Proof. destruct 1 as [|d ds Hd _]; [done|]. intros _ Hch. cbn. unfold is_digit in Hd. by destruct (Z.eqb_spec (48 + d) ch); [lia|]. Qed.

Lemma drop_spaces_chars ds rest : Forall is_digit ds -> ds <> [] -> drop_while isspace (chars ds ++ rest) = chars ds ++ rest.
Proof. destruct 1 as [|d ds Hd _]; [done|]. intros _. cbn [chars map app drop_while]. by rewrite (proj2 (proj2 (isdigit_char d Hd))). Qed.

(** A sign and digits. *)
Definition signed (neg : bool) (ds : list Z) : Z := if neg then - be_val 10 ds else be_val 10 ds.
Definition sign_chars (neg : bool) : list Z := if neg then [45] else [].

Lemma strto_chars lo hi neg ds : Forall is_digit ds -> ds <> [] -> lo <= signed neg ds <= hi ->
  strto lo hi (sign_chars neg ++ chars ds) = (signed neg ds, [], false).
Proof.
  intros Hds Hne Hv. unfold strto. pose proof (read_digits_chars ds [] Hds eq_refl 0) as E. rewrite app_nil_r in E.
  assert (Hlen : (length ds =? 0)%nat = false) by (by destruct ds).
  assert (Hgo : forall v, v = signed neg ds -> (if v <? lo then (lo, [], true) else if hi <? v then (hi, [], true) else (v, [], false)) = (signed neg ds, [] : list Z, false)).
  { intros v ->. rewrite (proj2 (Z.ltb_ge _ _)), (proj2 (Z.ltb_ge _ _)) by lia. done. }
  destruct neg; cbn [sign_chars app].
  - cbn [drop_while]. change (isspace 45) with false. cbn [eat]. change (45 =? 45) with true. cbv iota. rewrite E, Hlen. by apply Hgo.
  - rewrite <- (app_nil_r (chars ds)), drop_spaces_chars, !eat_chars, app_nil_r, E, Hlen by (done || lia). by apply Hgo.
Qed.

Lemma decimal_spec n : 0 <= n < 10 ^ 20 -> exists ds, decimal n = chars ds /\ be_val 10 ds = n /\ Forall is_digit ds /\ ds <> [] /\
  (forall k, (0 < k)%nat -> n < 10 ^ Z.of_nat k -> (length ds <= k)%nat).
Proof. intros Hn. exists (decimal_digits 20 n). split; [done|]. apply decimal_digits_spec; [done|lia]. Qed.

Lemma ParsePrechecks_chars neg ds : Forall is_digit ds -> ds <> [] -> ParsePrechecks (sign_chars neg ++ chars ds) = true.
Proof.
  intros Hds Hne. assert (Hall : Forall (fun c => isspace c = false /\ c <> 0) (sign_chars neg ++ chars ds)).
  { apply Forall_app. split; [destruct neg; [by apply Forall_singleton|constructor]|]. apply Forall_map. eapply Forall_impl; [exact Hds|].
    intros d Hd. destruct (isdigit_char d Hd) as (_ & _ & ?). unfold is_digit in Hd. split; [done|cbn; lia]. }
  assert (Hnil : sign_chars neg ++ chars ds <> []) by (destruct neg; [done|by destruct ds]).
  unfold ParsePrechecks. destruct (sign_chars neg ++ chars ds) as [|c s] eqn:E; [done|]. rewrite andb_true_iff, negb_true_iff, orb_false_iff, forallb_forall.
  pose proof (List.Forall_forall (fun c => isspace c = false /\ c <> 0) (c :: s)) as [Hf _]. specialize (Hf Hall). split; [split|].
  - by apply (Hf c); left.
  - apply Hf. destruct (exists_last (l := c :: s) ltac:(done)) as (l' & a & ->). rewrite last_last. apply in_or_app. right. by left.
  - intros x Hx. apply negb_true_iff, Z.eqb_neq, Hf, Hx.
Qed.

(** Integers are read back as they were printed. *)
Lemma ParseInt64_i64tostr n : is_s64 n -> ParseInt64 (i64tostr n) = Some n.
Proof.
  unfold is_s64. intros Hn. destruct (decimal_spec (Z.abs n)) as (ds & Ed & Hv & Hds & Hne & _); [lia|].
  assert (Es : i64tostr n = sign_chars (n <? 0) ++ chars ds).
  { unfold i64tostr. destruct (Z.ltb_spec n 0); rewrite <- Ed; [by rewrite Z.abs_neq by lia|by rewrite Z.abs_eq by lia]. }
  assert (Hs : signed (n <? 0) ds = n) by (unfold signed; rewrite Hv; destruct (Z.ltb_spec n 0); lia).
  unfold ParseInt64. rewrite Es, ParsePrechecks_chars by done. cbn [negb]. unfold strtoll. rewrite strto_chars, Hs by (try rewrite Hs; done || lia).
  rewrite bool_decide_eq_true_2 by done. cbn [andb negb]. by rewrite !(proj2 (Z.leb_le _ _)) by lia.
Qed.

(** ** Amounts *)

Lemma be_val_app ds es : be_val 10 (ds ++ es) = be_val 10 ds * 10 ^ Z.of_nat (length es) + be_val 10 es.
Proof.
  unfold be_val. rewrite foldl_app. generalize (foldl (fun v d => v * 10 + d) 0 ds) as v. intros v. revert v.
  assert (Hg : forall es v, foldl (fun v d => v * 10 + d) v es = v * 10 ^ Z.of_nat (length es) + foldl (fun v d => v * 10 + d) 0 es).
  { clear. induction es as [|e es IH]; intros v; cbn [foldl length]; [cbn; lia|]. rewrite IH, (IH (0 * 10 + e)), Nat2Z.inj_succ, Z.pow_succ_r by lia. lia. }
  intros v. apply Hg.
Qed.

Lemma be_val_zeros t : be_val 10 (replicate t 0) = 0.
Proof. induction t as [|t IH]; [done|]. change (replicate (S t) 0) with ([0] ++ replicate t 0). rewrite be_val_app, IH. done. Qed.

Lemma chars_app ds es : chars (ds ++ es) = chars ds ++ chars es.
Proof. apply map_app. Qed.

Lemma trailing_zeros_spec gs rest : Forall is_digit gs -> exists gs', gs = replicate (trailing_zeros (chars gs ++ 46 :: rest)) 0 ++ gs'.
Proof.
  induction 1 as [|g gs Hg _ (gs' & IH)]; [by exists []|]. cbn [chars map app trailing_zeros].
  destruct (Z.eqb_spec (48 + g) 48) as [E|E]; cbn [andb]; [|by eexists]. destruct (isdigit _); [|by eexists].
  exists gs'. fold (chars gs). rewrite IH at 1. cbn. f_equal. lia.
Qed.

(** What [FormatMoney] writes: two to eight decimals, the rest being zeroes. *)
Lemma FormatMoney_spec n : 0 <= n < 10 ^ 18 -> exists ds fs t, FormatMoney n = Some (chars ds ++ 46 :: chars fs) /\
  Forall is_digit ds /\ ds <> [] /\ (length ds <= 10)%nat /\ be_val 10 ds = n / COIN /\
  Forall is_digit fs /\ (length fs + t = 8)%nat /\ be_val 10 fs * 10 ^ Z.of_nat t = n mod COIN.
Proof.
  intros Hn. unfold FormatMoney. destruct (Z.eqb_spec n (- 2 ^ 63)); [lia|]. cbv zeta.
  replace (if 0 <? n then n else - n) with n by (destruct (Z.ltb_spec 0 n); lia). rewrite (proj2 (Z.ltb_ge n 0)) by lia.
  assert (Hq : 0 <= n / COIN < 10 ^ 10) by (unfold COIN; split; [apply Z.div_pos; lia|apply Z.div_lt_upper_bound; lia]).
  pose proof (Z.mod_pos_bound n COIN ltac:(done)) as Hr. change COIN with (10 ^ 8) in Hr at 3.
  destruct (decimal_spec (n / COIN)) as (ds & Ed & Hv & Hds & Hne & Hl); [lia|]. specialize (Hl 10%nat ltac:(lia) ltac:(lia)).
  destruct (decimal_spec (n mod COIN)) as (rs & Er & Hrv & Hrs & _ & Hrl); [lia|]. specialize (Hrl 8%nat ltac:(lia) ltac:(lia)).
  set (gs := replicate (8 - length rs) 0 ++ rs). assert (Hgs : Forall is_digit gs) by (apply Forall_app; split; [by apply Forall_replicate|done]).
  assert (Em : money_string (n / COIN) (n mod COIN) = chars ds ++ 46 :: chars gs).
  { unfold money_string, gs. rewrite Ed, Er, chars_app. unfold chars. rewrite length_map. do 3 f_equal. symmetry. apply (fmap_replicate (Z.add 48)). }
  rewrite Em. set (t := trailing_zeros _).
  destruct (trailing_zeros_spec (reverse gs) (reverse (chars ds))) as (gs' & Eg); [by apply Forall_reverse|].
  assert (Et : trailing_zeros (chars (reverse gs) ++ 46 :: reverse (chars ds)) = t).
  { unfold t. f_equal. rewrite reverse_app, reverse_cons, <- app_assoc. f_equal. unfold chars. apply (fmap_reverse (Z.add 48)). }
  rewrite Et in Eg. apply (f_equal reverse) in Eg. rewrite reverse_involutive, reverse_app, reverse_replicate in Eg. clearbody t.
  exists ds, (reverse gs'), t. assert (Hg8 : length gs = 8%nat) by (unfold gs; rewrite length_app, length_replicate; lia).
  rewrite Eg, length_app, length_replicate in Hg8. split_and!; [|done|done|done|done| |done|].
  - f_equal. rewrite Eg, chars_app. change (46 :: chars (reverse gs') ++ chars (replicate t 0)) with ((46 :: chars (reverse gs')) ++ chars (replicate t 0)).
    rewrite app_assoc. rewrite take_app_length'; [done|]. rewrite !length_app. unfold chars. rewrite !length_map, length_replicate. lia.
  - rewrite Eg in Hgs. by apply Forall_app in Hgs as [? _].
  - rewrite <- Hrv. transitivity (be_val 10 gs); [|unfold gs; by rewrite be_val_app, be_val_zeros].
    rewrite Eg, be_val_app, be_val_zeros, length_replicate. lia.
Qed.

Lemma fraction_spec fs : Forall is_digit fs -> forall u k, (length fs <= k)%nat ->
  fraction u (10 ^ Z.of_nat k / 10) (chars fs) = (u + be_val 10 fs * 10 ^ Z.of_nat (k - length fs), []).
Proof.
  induction 1 as [|d fs Hd _ IH]; intros u k Hk; cbn [chars map fraction]; [f_equal; cbn; lia|].
  destruct k as [|k]; cbn [length] in Hk; [lia|]. destruct (isdigit_char d Hd) as (-> & -> & _).
  assert (Hm : 10 ^ Z.of_nat (S k) / 10 = 10 ^ Z.of_nat k) by (rewrite Nat2Z.inj_succ, Z.pow_succ_r, Z.mul_comm, Z.div_mul by lia; done).
  rewrite Hm, (proj2 (Z.ltb_lt _ _)) by lia. cbn [andb]. fold (chars fs). rewrite IH by lia. f_equal.
  change (d :: fs) with ([d] ++ fs). rewrite be_val_app. unfold be_val at 2. cbn [foldl]. cbn [length Nat.sub app].
  rewrite Z.mul_add_distr_r, <- Z.mul_assoc, <- Z.pow_add_r by lia. replace (Z.of_nat (length fs) + Z.of_nat (k - length fs)) with (Z.of_nat k) by lia. lia.
Qed.

Lemma whole_loop_spec ds fs : Forall is_digit ds -> whole_loop (chars ds ++ 46 :: chars fs) =
  let '(u, rest) := fraction 0 (CENT * 10) (chars fs) in Some (chars ds, u, rest).
Proof.
  induction 1 as [|d ds Hd _ IH]; cbn [chars map app whole_loop]; [done|]. unfold is_digit in Hd.
  rewrite (proj2 (Z.eqb_neq _ _)) by lia. destruct (isdigit_char d Hd) as (-> & _ & ->). cbn [negb]. fold (chars ds). fold (chars fs). rewrite IH.
  by destruct (fraction _ _ _).
Qed.

(** Every amount below ten billion coins is printed in a form that is read back as the same amount, and a negative amount is printed in a form
    that is refused. *)
Theorem money_roundtrip n : - 10 ^ 18 < n < 10 ^ 18 ->
  exists s, FormatMoney n = Some s /\ ParseMoney s = if 0 <=? n then Some n else None.
Proof.
  intros Hn. destruct (FormatMoney_spec (Z.abs n)) as (ds & fs & t & Ef & Hds & Hne & Hl & Hv & Hfs & Ht & Hu); [lia|].
  destruct (Z.leb_spec 0 n) as [Hpos|Hneg].
  - rewrite Z.abs_eq in * by lia. eexists. split; [exact Ef|]. unfold ParseMoney. rewrite drop_spaces_chars, whole_loop_spec by done.
    change (CENT * 10) with (10 ^ Z.of_nat 8 / 10). rewrite fraction_spec by (done || lia).
    replace (8 - length fs)%nat with t by lia. rewrite Hu. cbn [mbind option_bind forallb negb]. pose proof (Z.mod_pos_bound n COIN ltac:(done)).
    unfold chars at 1. rewrite length_map, (proj2 (Nat.ltb_ge _ _)) by lia. rewrite !(proj2 (Z.ltb_ge _ _)) by lia. cbn [orb].
    assert (Hat : atoi64 (chars ds) = n / COIN).
    { unfold atoi64, strtoll. change (chars ds) with (sign_chars false ++ chars ds). rewrite strto_chars; [done|done|done|]. cbn [signed]. rewrite Hv.
      assert (0 <= n / COIN < 10 ^ 10) by (unfold COIN; split; [apply Z.div_pos; lia|apply Z.div_lt_upper_bound; lia]). lia. }
    rewrite Hat. f_equal. pose proof (Z.div_mod n COIN ltac:(done)). lia.
  - exists (45 :: chars ds ++ 46 :: chars fs). split; [|done]. rewrite Z.abs_neq in Ef by lia. revert Ef. unfold FormatMoney.
    rewrite !(proj2 (Z.eqb_neq _ _)) by lia. cbv zeta. rewrite (proj2 (Z.ltb_lt 0 (- n))), (proj2 (Z.ltb_ge 0 n)), (proj2 (Z.ltb_ge (- n) 0)), (proj2 (Z.ltb_lt n 0)) by lia.
    intros [= E]. by rewrite E.
Qed.

(** ** Fixed-point numbers *)

(** The numbers of JSON: a sign, digits without a leading zero, a fraction, and an exponent with its letter and sign. *)
Record exponent_part := mkExponent { exp_letter : Z; exp_sign : option bool; exp_digits : list Z }.
Record number := mkNumber { num_neg : bool; num_int : list Z; num_frac : list Z; num_exp : option exponent_part }.
Definition exponent_text (x : exponent_part) : list Z :=
  exp_letter x :: match exp_sign x with Some true => [45] | Some false => [43] | None => [] end ++ chars (exp_digits x).
Definition text (n : number) : list Z :=
  sign_chars (num_neg n) ++ chars (num_int n) ++ match num_frac n with [] => [] | fs => 46 :: chars fs end ++
  match num_exp n with Some x => exponent_text x | None => [] end.
Record number_ok (n : number) : Prop := {
  int_ok : Forall is_digit (num_int n) /\ num_int n <> [] /\ (num_int n = [0] \/ head (num_int n) <> Some 0);
  frac_ok : Forall is_digit (num_frac n);
  exp_ok : forall x, num_exp n = Some x -> (exp_letter x = 101 \/ exp_letter x = 69) /\ Forall is_digit (exp_digits x) /\ exp_digits x <> []
}.
(** Its value is [num_mantissa * 10 ^ num_exponent]. *)
Definition num_mantissa (n : number) : Z := signed (num_neg n) (num_int n ++ num_frac n).
Definition exponent_value (x : exponent_part) : Z := signed (bool_decide (exp_sign x = Some true)) (exp_digits x).
Definition num_exponent (n : number) : Z := match num_exp n with Some x => exponent_value x | None => 0 end - Z.of_nat (length (num_frac n)).

(** Digits as a mantissa without zeroes at its end, and the zeroes. *)
Definition sig_step (st : Z * nat) (d : Z) : Z * nat := if d =? 0 then (st.1, S st.2) else (st.1 * 10 ^ Z.of_nat (S st.2) + d, O).

Lemma scale_up_spec z : forall m, 0 <= m -> scale_up (S z) m = if m * 10 ^ Z.of_nat z <=? UPPER_BOUND / 10 then Some (m * 10 ^ Z.of_nat (S z)) else None.
Proof.
  induction z as [|z IH]; intros m Hm.
  - cbn [scale_up]. rewrite Z.ltb_antisym. change (10 ^ Z.of_nat 0) with 1. change (10 ^ Z.of_nat 1) with 10. rewrite Z.mul_1_r. by destruct (_ <=? _).
  - change (scale_up (S (S z)) m) with (if UPPER_BOUND / 10 <? m then None else scale_up (S z) (m * 10)). rewrite IH by lia.
    rewrite (Nat2Z.inj_succ (S z)), (Z.pow_succ_r _ (Z.of_nat (S z))) by lia. rewrite (Nat2Z.inj_succ z), (Z.pow_succ_r _ (Z.of_nat z)) by lia.
    assert (Hp : 0 < 10 ^ Z.of_nat z) by lia. revert Hp. generalize (10 ^ Z.of_nat z) as p. intros p Hp. generalize (UPPER_BOUND / 10) as u. intros u.
    replace (m * 10 * p) with (m * (10 * p)) by lia. replace (m * 10 * (10 * p)) with (m * (10 * (10 * p))) by lia.
    destruct (Z.ltb_spec u m); [|done]. rewrite (proj2 (Z.leb_gt _ _)) by nia. done.
Qed.

Lemma sig_step_bounds st d : 0 <= st.1 -> is_digit d -> 0 <= (sig_step st d).1 /\ st.1 <= (sig_step st d).1.
Proof.
  unfold is_digit, sig_step. intros Hm Hd. destruct (d =? 0); cbn [fst]; [lia|].
  assert (1 <= 10 ^ Z.of_nat (S st.2)) by (pose proof (Z.pow_pos_nonneg 10 (Z.of_nat (S st.2))); lia). nia.
Qed.

Lemma sig_bounds ds : Forall is_digit ds -> forall st, 0 <= st.1 -> st.1 <= (foldl sig_step st ds).1.
Proof.
  induction 1 as [|d ds Hd _ IH]; intros st Hm; cbn [foldl]; [lia|]. destruct (sig_step_bounds st d Hm Hd). etrans; [|apply IH]; lia.
Qed.

Lemma ProcessMantissaDigit_spec d m z : 0 <= m -> is_digit d ->
  ProcessMantissaDigit (48 + d) m z = if ((sig_step (m, z) d).1 <=? UPPER_BOUND) || (d =? 0) then Some (sig_step (m, z) d) else None.
Proof.
  intros Hm Hd. unfold ProcessMantissaDigit, sig_step. cbn [fst snd]. destruct (Z.eqb_spec d 0) as [->|Hne]; [by rewrite orb_true_r|].
  rewrite (proj2 (Z.eqb_neq (48 + d) 48)), scale_up_spec, orb_false_r by lia. cbn [fst]. unfold is_digit in Hd. rewrite Nat2Z.inj_succ, Z.pow_succ_r by lia.
  replace (48 + d - 48) with d by lia. change (UPPER_BOUND / 10) with 99999999999999999. change UPPER_BOUND with 999999999999999999. generalize (10 ^ Z.of_nat z) as p. intros p.
  destruct (Z.leb_spec (m * p) 99999999999999999); cbn [mbind option_bind].
  - rewrite (proj2 (Z.leb_le _ _)) by lia. done.
  - rewrite (proj2 (Z.leb_gt _ _)) by lia. done.
Qed.

Lemma mantissa_loop_spec ds rest : Forall is_digit ds -> starts_digit rest = false -> forall m z k, 0 <= m <= UPPER_BOUND ->
  mantissa_loop (chars ds ++ rest) m z k =
    if (foldl sig_step (m, z) ds).1 <=? UPPER_BOUND then Some ((foldl sig_step (m, z) ds).1, (foldl sig_step (m, z) ds).2, k + Z.of_nat (length ds), rest) else None.
Proof.
  intros Hds Hr. induction Hds as [|d ds Hd Hds IH]; intros m z k Hm; cbn [chars map app mantissa_loop foldl].
  - cbn [fst snd]. rewrite (proj2 (Z.leb_le _ _)) by lia. destruct rest as [|c rest]; cbn in *; rewrite ?Hr; f_equal; f_equal; f_equal; lia.
  - destruct (isdigit_char d Hd) as (-> & _ & _). rewrite ProcessMantissaDigit_spec by (done || lia).
    destruct (sig_step_bounds (m, z) d ltac:(cbn; lia) Hd) as [H0 H1]. pose proof (sig_bounds ds Hds (sig_step (m, z) d) H0) as Hb. cbn [fst] in H1.
    assert (Hd0 : d = 0 -> (sig_step (m, z) d).1 = m) by (intros ->; done).
    destruct (sig_step (m, z) d) as [m1 z1]. cbn [fst snd] in *. fold (chars ds).
    destruct (Z.leb_spec m1 UPPER_BOUND) as [Hle|Hgt]; cbn [orb].
    + cbn [mbind option_bind]. rewrite IH by lia. cbn [length]. destruct (_ <=? _); [|done]. do 3 f_equal. lia.
    + destruct (Z.eqb_spec d 0); [lia|]. by rewrite (proj2 (Z.leb_gt _ _)) by lia.
Qed.

Lemma exponent_loop_spec ds rest : Forall is_digit ds -> starts_digit rest = false -> forall e, 0 <= e <= UPPER_BOUND ->
  exponent_loop (chars ds ++ rest) e =
    if foldl (fun v d => v * 10 + d) e ds <=? UPPER_BOUND then Some (foldl (fun v d => v * 10 + d) e ds, rest) else None.
Proof.
  intros Hds Hr. induction Hds as [|d ds Hd Hds IH]; intros e He; cbn [chars map app exponent_loop foldl].
  - rewrite (proj2 (Z.leb_le _ _)) by lia. destruct rest as [|c rest]; cbn in *; by rewrite ?Hr.
  - destruct (isdigit_char d Hd) as (-> & -> & _). fold (chars ds). unfold is_digit in Hd.
    change (UPPER_BOUND / 10) with 99999999999999999. change UPPER_BOUND with 999999999999999999 in *. destruct (Z.ltb_spec 99999999999999999 e).
    + assert (Hm : forall v, 0 <= v -> v <= foldl (fun v d => v * 10 + d) v ds).
      { clear -Hds. induction Hds as [|d ds Hd _ IH]; intros v Hv; cbn; [lia|]. unfold is_digit in Hd. etrans; [|apply IH]; lia. }
      specialize (Hm (e * 10 + d) ltac:(lia)). by rewrite (proj2 (Z.leb_gt _ _)) by lia.
    + apply IH. lia.
Qed.

Lemma scale_last_spec n : forall m, (0 < n)%nat ->
  scale_last n m = if Z.abs m * 10 ^ Z.of_nat (n - 1) <=? UPPER_BOUND / 10 then Some (m * 10 ^ Z.of_nat n) else None.
Proof.
  assert (Hu : 0 <= UPPER_BOUND / 10) by (vm_compute; discriminate). revert Hu.
  induction n as [|n IH]; intros Hu m Hn; [lia|]. cbn [scale_last]. assert (Hor : (UPPER_BOUND / 10 <? m) || (m <? - (UPPER_BOUND / 10)) = negb (Z.abs m <=? UPPER_BOUND / 10)).
  { revert Hu. generalize (UPPER_BOUND / 10) as u. intros u Hu. apply eq_true_iff_eq. rewrite orb_true_iff, negb_true_iff. lia. }
  rewrite Hor. destruct n as [|n].
  - cbn [scale_last Nat.sub]. change (10 ^ Z.of_nat 0) with 1. change (10 ^ Z.of_nat 1) with 10. rewrite Z.mul_1_r. by destruct (_ <=? _).
  - rewrite (IH Hu (m * 10) (Nat.lt_0_succ n)). clear IH Hor Hn. replace (S n - 1)%nat with n by lia. replace (S (S n) - 1)%nat with (S n) by lia.
    rewrite (Nat2Z.inj_succ (S n)), (Z.pow_succ_r _ (Z.of_nat (S n))) by lia. rewrite (Nat2Z.inj_succ n), (Z.pow_succ_r _ (Z.of_nat n)) by lia.
    assert (Hp : 0 < 10 ^ Z.of_nat n) by lia. revert Hp Hu. generalize (10 ^ Z.of_nat n) as p. intros p Hp. generalize (UPPER_BOUND / 10) as u. intros u Hu.
    rewrite Z.abs_mul. change (Z.abs 10) with 10. replace (Z.abs m * 10 * p) with (Z.abs m * (10 * p)) by lia.
    replace (m * 10 * (10 * p)) with (m * (10 * (10 * p))) by lia. destruct (Z.leb_spec (Z.abs m) u); [done|]. cbn [negb].
    rewrite (proj2 (Z.leb_gt _ _)) by nia. done.
Qed.

Lemma finish_spec m e : finish m e = if (0 <=? e) && (e <? 18) && (Z.abs m * 10 ^ e <=? UPPER_BOUND) then Some (m * 10 ^ e) else None.
Proof.
  unfold finish. destruct (Z.ltb_spec e 0), (Z.leb_spec 0 e); try lia; [done|]. rewrite (Z.ltb_antisym 18 e). destruct (18 <=? e) eqn:E; [done|]. cbn [negb andb].
  assert (Hor : forall m, (UPPER_BOUND <? m) || (m <? - UPPER_BOUND) = negb (Z.abs m <=? UPPER_BOUND)).
  { intros x. change UPPER_BOUND with 999999999999999999. apply eq_true_iff_eq. rewrite orb_true_iff, negb_true_iff. lia. }
  destruct (decide (e = 0)) as [->|Hne].
  { change (scale_last (Z.to_nat 0) m) with (Some m). cbn [mbind option_bind]. rewrite Hor. change (10 ^ 0) with 1. rewrite !Z.mul_1_r. destruct (Z.abs m <=? UPPER_BOUND); reflexivity. }
  rewrite scale_last_spec by lia. rewrite Z2Nat.id by lia. replace (Z.of_nat (Z.to_nat e - 1)) with (e - 1) by lia.
  assert (Hp : 10 ^ e = 10 * 10 ^ (e - 1)) by (rewrite <- Z.pow_succ_r by lia; f_equal; lia). assert (Hp0 : 0 < 10 ^ (e - 1)) by lia.
  rewrite Hp. revert Hp0. generalize (10 ^ (e - 1)) as p. intros p Hp0. change (UPPER_BOUND / 10) with 99999999999999999.
  destruct (Z.leb_spec (Z.abs m * p) 99999999999999999); cbn [mbind option_bind]; rewrite ?Hor; change UPPER_BOUND with 999999999999999999.
  - rewrite Z.abs_mul, (Z.abs_eq (10 * p)) by lia. destruct (Z.abs m * (10 * p) <=? 999999999999999999); reflexivity.
  - rewrite (proj2 (Z.leb_gt _ _)) by lia. done.
Qed.

(** The digits that the mantissa is made of: a single zero before the point is skipped. *)
Definition mantissa_digits (n : number) : list Z := if decide (num_int n = [0]) then num_frac n else num_int n ++ num_frac n.
Definition exponent_end (n : number) : list Z := match num_exp n with Some x => exponent_text x | None => [] end.
Definition fraction_end (n : number) : list Z := match num_frac n with [] => [] | fs => 46 :: chars fs end ++ exponent_end n.

Lemma exponent_end_not n c : number_ok n -> c = 45 \/ c = 46 \/ 48 <= c <= 57 -> eat c (exponent_end n) = None /\ starts_digit (exponent_end n) = false.
Proof.
  intros Hn Hc. unfold exponent_end. destruct (num_exp n) as [x|] eqn:E; [|done]. destruct (exp_ok _ Hn x E) as (Hl & _ & _).
  cbn [exponent_text eat starts_digit app]. unfold isdigit. destruct (Z.eqb_spec (exp_letter x) c); [lia|]. split; [done|]. destruct Hl as [-> | ->]; done.
Qed.

Lemma fraction_end_not n : number_ok n -> starts_digit (fraction_end n) = false.
Proof. intros Hn. unfold fraction_end. destruct (num_frac n); [|done]. by apply (exponent_end_not n 45); [|left]. Qed.

Lemma parse_integer_spec n : number_ok n -> let st := foldl sig_step (0, O) (if decide (num_int n = [0]) then [] else num_int n) in
  parse_integer (chars (num_int n) ++ fraction_end n) = if st.1 <=? UPPER_BOUND then Some (st.1, st.2, fraction_end n) else None.
Proof.
  intros Hn st. subst st. destruct (int_ok _ Hn) as (Hd & Hne & Hz). destruct (decide (num_int n = [0])) as [->|Hn0]; [done|].
  destruct Hz as [|Hz]; [done|]. pose proof (mantissa_loop_spec (num_int n) (fraction_end n) Hd (fraction_end_not n Hn) 0 O 0 ltac:(vm_compute; split; discriminate)) as Hl.
  destruct (num_int n) as [|d ds]; [done|]. apply Forall_cons in Hd as [Hd _]. unfold is_digit in Hd. assert (d <> 0) by (intros ->; done).
  cbn [chars map app parse_integer] in *. rewrite (proj2 (Z.eqb_neq _ _)), !(proj2 (Z.leb_le _ _)) by lia. cbn [andb]. rewrite Hl.
  by destruct (_ <=? _).
Qed.

Lemma parse_fraction_spec n m z : number_ok n -> 0 <= m <= UPPER_BOUND -> let st := foldl sig_step (m, z) (num_frac n) in
  parse_fraction m z (fraction_end n) = if st.1 <=? UPPER_BOUND then Some (st.1, st.2, Z.of_nat (length (num_frac n)), exponent_end n) else None.
Proof.
  intros Hn Hm st. subst st. unfold parse_fraction, fraction_end. pose proof (frac_ok _ Hn) as Hf. destruct (num_frac n) as [|f fs].
  - cbn [app foldl fst snd length]. rewrite (proj1 (exponent_end_not n 46 Hn ltac:(by right; left))), (proj2 (Z.leb_le _ _)) by lia. done.
  - cbn [app eat]. change (46 =? 46) with true. cbv iota. rewrite mantissa_loop_spec by (done || by apply (exponent_end_not n 45); [|left]).
    replace (starts_digit (chars (f :: fs) ++ exponent_end n)) with true; [done|]. apply Forall_cons in Hf as [Hf _]. by destruct (isdigit_char f Hf) as (E & _ & _).
Qed.

Lemma parse_exponent_spec n : number_ok n -> let e := match num_exp n with Some x => be_val 10 (exp_digits x) | None => 0 end in
  parse_exponent (exponent_end n) = if e <=? UPPER_BOUND then Some (num_exponent n + Z.of_nat (length (num_frac n)), []) else None.
Proof.
  intros Hn e. subst e. unfold exponent_end, num_exponent. destruct (num_exp n) as [x|] eqn:E; [|cbn; f_equal; f_equal; lia].
  destruct (exp_ok _ Hn x E) as (Hl & Hd & Hne). unfold exponent_text, parse_exponent.
  replace ((exp_letter x =? 101) || (exp_letter x =? 69)) with true by (destruct Hl as [-> | ->]; done).
  pose proof (exponent_loop_spec (exp_digits x) [] Hd eq_refl 0 ltac:(vm_compute; split; discriminate)) as Hloop. rewrite app_nil_r in Hloop. fold (be_val 10 (exp_digits x)) in Hloop.
  assert (Hs : starts_digit (chars (exp_digits x)) = true) by (destruct Hd as [|d ds Hd _]; [done|]; by destruct (isdigit_char d Hd)).
  pose proof (fun c => eat_chars c (exp_digits x) [] Hd Hne) as Heat. rewrite app_nil_r in Heat.
  unfold exponent_value. destruct (exp_sign x) as [[]|]; cbn [app].
  - change (eat 43 (45 :: chars (exp_digits x))) with (@None (list Z)). change (eat 45 (45 :: chars (exp_digits x))) with (Some (chars (exp_digits x))).
    cbv iota beta zeta. rewrite Hs, Hloop, bool_decide_eq_true_2 by done. destruct (_ <=? _); [|done]. cbn [mbind option_bind signed]. do 2 f_equal. lia.
  - change (eat 43 (43 :: chars (exp_digits x))) with (Some (chars (exp_digits x))). cbv iota beta zeta.
    rewrite Hs, Hloop, bool_decide_eq_false_2 by done. destruct (_ <=? _); [|done]. cbn [mbind option_bind signed]. do 2 f_equal. lia.
  - rewrite !Heat by lia. rewrite Hs, Hloop, bool_decide_eq_false_2 by done. destruct (_ <=? _); [|done]. cbn [mbind option_bind signed]. do 2 f_equal. lia.
Qed.

Lemma ParseFixedPoint_text n dec : number_ok n -> let st := foldl sig_step (0, O) (mantissa_digits n) in
  let e := match num_exp n with Some x => be_val 10 (exp_digits x) | None => 0 end in
  ParseFixedPoint (text n) dec =
    if (st.1 <=? UPPER_BOUND) && (e <=? UPPER_BOUND)
    then finish (if num_neg n then - st.1 else st.1) (num_exponent n + Z.of_nat st.2 + dec) else None.
Proof.
  intros Hn st e. destruct (int_ok _ Hn) as (Hd & Hne & _). pose proof (parse_integer_spec n Hn) as Hint. cbv zeta in Hint.
  assert (Hst : st = foldl sig_step (foldl sig_step (0, O) (if decide (num_int n = [0]) then [] else num_int n)) (num_frac n)).
  { unfold st, mantissa_digits. destruct (decide _); [done|]. by rewrite foldl_app. }
  assert (Ht : text n = sign_chars (num_neg n) ++ chars (num_int n) ++ fraction_end n) by (unfold text, fraction_end; by rewrite !app_assoc).
  assert (Hsign : match eat 45 (text n) with Some v => (true, v) | None => (false, text n) end = (num_neg n, chars (num_int n) ++ fraction_end n)).
  { rewrite Ht. destruct (num_neg n); [done|]. cbn [sign_chars app]. by rewrite eat_chars by (done || lia). }
  unfold ParseFixedPoint. rewrite Hsign, Hint. clear Hsign Ht Hint. revert Hst.
  pose proof (sig_bounds (if decide (num_int n = [0]) then [] else num_int n) ltac:(by destruct (decide _)) (0, O) ltac:(done)) as H0.
  destruct (foldl sig_step (0, O) (if decide (num_int n = [0]) then [] else num_int n)) as [m z]. cbn [fst snd] in *. intros ->.
  pose proof (sig_bounds (num_frac n) (frac_ok _ Hn) (m, z) H0) as H1. cbn [fst] in H1.
  destruct (Z.leb_spec m UPPER_BOUND) as [Hm|Hm]; [|by rewrite (proj2 (Z.leb_gt _ _)) by lia]. cbn [mbind option_bind].
  rewrite (parse_fraction_spec n m z Hn ltac:(lia)). cbv zeta. destruct (_ <=? UPPER_BOUND); [|done]. cbn [mbind option_bind].
  rewrite (parse_exponent_spec n Hn). cbv zeta. destruct (_ <=? UPPER_BOUND); [|done]. cbn [mbind option_bind andb].
  rewrite bool_decide_eq_true_2 by done. cbn [negb]. f_equal. lia.
Qed.

Lemma sig_spec ds : Forall is_digit ds -> forall m z, 0 <= m -> (m = 0 \/ m mod 10 <> 0) -> let st := foldl sig_step (m, z) ds in
  st.1 * 10 ^ Z.of_nat st.2 = m * 10 ^ Z.of_nat z * 10 ^ Z.of_nat (length ds) + be_val 10 ds /\ 0 <= st.1 /\ (st.1 = 0 \/ st.1 mod 10 <> 0).
Proof.
  induction 1 as [|d ds Hd Hds IH]; intros m z Hm H10; cbn [foldl].
  { cbn [fst snd length]. split_and!; [|done|done]. change (be_val 10 []) with 0. change (10 ^ Z.of_nat 0) with 1. lia. }
  change (d :: ds) with ([d] ++ ds). rewrite be_val_app. change (be_val 10 [d]) with (0 * 10 + d). rewrite length_app, Nat2Z.inj_add.
  cbn [length]. rewrite Z.pow_add_r by lia. change (10 ^ Z.of_nat 1) with 10. unfold is_digit in Hd.
  destruct (Z.eqb_spec d 0) as [->|Hne].
  - change (sig_step (m, z) 0) with (m, S z). destruct (IH m (S z) Hm H10) as (E & H1 & H2). split_and!; [|done|done]. rewrite E, Nat2Z.inj_succ, Z.pow_succ_r by lia. lia.
  - assert (Es : sig_step (m, z) d = (m * (10 * 10 ^ Z.of_nat z) + d, O)).
    { unfold sig_step. by rewrite (proj2 (Z.eqb_neq d 0) Hne), Nat2Z.inj_succ, Z.pow_succ_r by lia. }
    rewrite Es. assert (0 < 10 ^ Z.of_nat z) by lia. destruct (IH (m * (10 * 10 ^ Z.of_nat z) + d) O) as (E & H1 & H2); [nia| |].
    + right. replace (m * (10 * 10 ^ Z.of_nat z) + d) with (d + m * 10 ^ Z.of_nat z * 10) by lia. rewrite Z.mod_add, Z.mod_small by lia. done.
    + split_and!; [|done|done]. rewrite E. change (10 ^ Z.of_nat 0) with 1. lia.
Qed.

(** The amount [a] is the number, in units of [10 ^ - dec]. *)
Definition denotes (n : number) (dec a : Z) : Prop :=
  if 0 <=? num_exponent n + dec then a = num_mantissa n * 10 ^ (num_exponent n + dec)
  else (a * 10 ^ (- (num_exponent n + dec)))%Z = num_mantissa n.

Lemma cancel_tens m z x a : 0 < m -> m mod 10 <> 0 -> 0 <= z -> (if 0 <=? x then a = m * 10 ^ z * 10 ^ x else (a * 10 ^ (- x))%Z = m * 10 ^ z) <->
  0 <= x + z /\ a = m * 10 ^ (x + z).
Proof.
  intros Hm H10 Hz. destruct (Z.leb_spec 0 x).
  - rewrite (Z.add_comm x z), Z.pow_add_r, Z.mul_assoc by lia. split; [intros ->; split; [lia|done]|by intros [_ ->]].
  - split.
    + intros E. assert (Hxz : 0 <= x + z).
      { apply Z.nlt_ge. intros Hlt. apply H10. assert (E2 : m = a * 10 ^ (- x - z)).
        { apply (Z.mul_reg_r _ _ (10 ^ z)); [lia|]. rewrite <- E, <- Z.mul_assoc, <- Z.pow_add_r by lia. f_equal. f_equal. lia. }
        rewrite E2. replace (- x - z) with (Z.succ (- x - z - 1)) by lia. rewrite Z.pow_succ_r by lia.
        replace (a * (10 * 10 ^ (- x - z - 1))) with (a * 10 ^ (- x - z - 1) * 10) by lia. apply Z.mod_mul. lia. }
      split; [done|]. apply (Z.mul_reg_r _ _ (10 ^ (- x))); [lia|]. rewrite E, <- Z.mul_assoc, <- Z.pow_add_r by lia. do 2 f_equal. lia.
    + intros [Hxz ->]. rewrite <- Z.mul_assoc, <- Z.pow_add_r by lia. do 2 f_equal. lia.
Qed.

Lemma mantissa_digits_ok n : number_ok n -> Forall is_digit (mantissa_digits n) /\ be_val 10 (mantissa_digits n) = be_val 10 (num_int n ++ num_frac n).
Proof.
  intros Hn. destruct (int_ok _ Hn) as (Hd & _ & _). pose proof (frac_ok _ Hn) as Hf. unfold mantissa_digits. destruct (decide _) as [->|].
  - split; [done|]. rewrite be_val_app. change (be_val 10 [0]) with 0. lia.
  - split; [by apply Forall_app|done].
Qed.

Lemma ParseFixedPoint_exact n dec a : number_ok n -> num_mantissa n <> 0 ->
  match num_exp n with Some x => be_val 10 (exp_digits x) | None => 0 end <= UPPER_BOUND ->
  ParseFixedPoint (text n) dec = Some a <-> denotes n dec a /\ Z.abs a <= UPPER_BOUND.
Proof.
  intros Hn Hnz He. rewrite (ParseFixedPoint_text n dec Hn). cbv zeta. rewrite (proj2 (Z.leb_le _ UPPER_BOUND) He), andb_true_r. clear He.
  destruct (mantissa_digits_ok n Hn) as [Hd Hv]. destruct (sig_spec (mantissa_digits n) Hd 0 O ltac:(lia) ltac:(by left)) as (E & H0 & H10).
  destruct (foldl sig_step (0, O) (mantissa_digits n)) as [m z]. cbn [fst snd] in *. rewrite Hv, !Z.mul_0_l, Z.add_0_l in E.
  assert (Hm : 0 < m). { destruct (decide (m = 0)) as [->|]; [|lia]. exfalso. apply Hnz. unfold num_mantissa, signed. rewrite <- E. by destruct (num_neg n). }
  destruct H10 as [|H10]; [lia|]. set (x := num_exponent n + dec). replace (num_exponent n + Z.of_nat z + dec) with (x + Z.of_nat z) by lia.
  set (b := if num_neg n then - a else a).
  assert (Hden : denotes n dec a <-> 0 <= x + Z.of_nat z /\ b = m * 10 ^ (x + Z.of_nat z)).
  { rewrite <- (cancel_tens m (Z.of_nat z) x b Hm H10) by lia. unfold denotes, num_mantissa, signed. fold x. rewrite <- E. unfold b.
    destruct (0 <=? x), (num_neg n); try done; split; lia. }
  assert (Hab : Z.abs a = Z.abs b) by (unfold b; destruct (num_neg n); lia). rewrite Hden, Hab.
  assert (Hfin : finish (if num_neg n then - m else m) (x + Z.of_nat z) = Some a <-> finish m (x + Z.of_nat z) = Some b).
  { rewrite !finish_spec. replace (Z.abs (if num_neg n then - m else m)) with (Z.abs m) by (destruct (num_neg n); lia).
    destruct (_ && _); [|done]. unfold b. destruct (num_neg n); [|done]. split; intros [= E1]; f_equal; lia. }
  generalize (x + Z.of_nat z) as e, Hfin. intros e Hfin'. clear -Hm Hfin'. rewrite (finish_spec m), (Z.abs_eq m) in Hfin' by lia. change UPPER_BOUND with 999999999999999999 in *.
  split.
  - destruct (Z.leb_spec m 999999999999999999); [|done]. intros Hf%Hfin'.
    destruct (Z.leb_spec 0 e), (Z.ltb_spec e 18), (Z.leb_spec (m * 10 ^ e) 999999999999999999); try done. injection Hf as <-. split; [done|]. rewrite Z.abs_eq; nia.
  - intros [[He ->] Hle]. assert (Hp : 1 <= 10 ^ e) by (pose proof (Z.pow_pos_nonneg 10 e); lia). rewrite Z.abs_eq in Hle by nia.
    assert (e < 18). { apply Z.nle_gt. intros H18. assert (10 ^ 18 <= 10 ^ e) by (apply Z.pow_le_mono_r; lia). nia. }
    rewrite (proj2 (Z.leb_le m _)) by nia. apply Hfin'. rewrite !(proj2 (Z.leb_le _ _)), (proj2 (Z.ltb_lt _ _)) by lia. done.
Qed.

(** Only numbers are accepted. *)
Lemma split_digits s : exists ds rest, s = chars ds ++ rest /\ Forall is_digit ds /\ starts_digit rest = false.
Proof.
  induction s as [|c s (ds & rest & -> & Hds & Hr)]; [by exists [], []|]. destruct (isdigit c) eqn:E.
  - exists (c - 48 :: ds), rest. split_and!; [cbn; f_equal; lia| |done]. constructor; [|done]. unfold isdigit in E. unfold is_digit. lia.
  - by exists [], (c :: chars ds ++ rest).
Qed.

Lemma eat_Some c s r : eat c s = Some r -> s = c :: r.
Proof. destruct s as [|c' s]; [done|]. cbn. destruct (Z.eqb_spec c' c); [|done]. by intros [= ->]; subst. Qed.

Lemma parse_integer_accepts val m z rest : parse_integer val = Some (m, z, rest) -> exists ds, Forall is_digit ds /\ ds <> [] /\ (ds = [0] \/ head ds <> Some 0) /\
  val = chars ds ++ rest /\ (ds = [0] \/ starts_digit rest = false) /\ 0 <= m <= UPPER_BOUND.
Proof.
  destruct val as [|c val]; [done|]. unfold parse_integer. destruct (Z.eqb_spec c 48) as [->|Hne].
  { intros [= <- <- <-]. exists [0]. split_and!; [by apply Forall_singleton|done|by left|done|by left|done|done]. }
  destruct ((49 <=? c) && (c <=? 57)) eqn:Ec; [|done]. destruct (split_digits (c :: val)) as (ds & r & E & Hds & Hr). rewrite E.
  rewrite mantissa_loop_spec by (done || vm_compute; split; discriminate). destruct (Z.leb_spec (foldl sig_step (0, O) ds).1 UPPER_BOUND); [|done].
  cbn [mbind option_bind]. intros [= <- <- <-]. pose proof (sig_bounds ds Hds (0, O) ltac:(done)) as Hb. cbn [fst] in Hb.
  exists ds. destruct ds as [|d ds]; [cbn in E; subst r; cbn in Hr; unfold isdigit in Hr; lia|].
  cbn in E. injection E as -> ->. split_and!; [done|done| |done|by right|done|done]. right. cbn. intros [= ->]. lia.
Qed.

Lemma parse_fraction_accepts val m z m' z' k rest : starts_digit val = false -> 0 <= m <= UPPER_BOUND -> parse_fraction m z val = Some (m', z', k, rest) ->
  exists fs, Forall is_digit fs /\ val = match fs with [] => [] | fs => 46 :: chars fs end ++ rest /\ starts_digit rest = false.
Proof.
  intros Hv Hm. unfold parse_fraction. destruct (eat 46 val) as [r|] eqn:E; [|intros [= <- <- <- <-]; by exists []].
  apply eat_Some in E as ->. destruct (starts_digit r) eqn:Es; [|done]. destruct (split_digits r) as (fs & r' & -> & Hfs & Hr').
  rewrite mantissa_loop_spec by done. destruct (_ <=? _); [|done]. intros [= <- <- <- <-]. exists fs. split_and!; [done| |done].
  destruct fs; [cbn in Es; congruence|done].
Qed.

Lemma parse_exponent_accepts val e : starts_digit val = false -> parse_exponent val = Some (e, []) ->
  val = [] \/ exists x, (exp_letter x = 101 \/ exp_letter x = 69) /\ Forall is_digit (exp_digits x) /\ exp_digits x <> [] /\ val = exponent_text x.
Proof.
  intros Hv. destruct val as [|c val]; [by left|]. unfold parse_exponent. destruct ((c =? 101) || (c =? 69)) eqn:Ec; [|done]. intros Hp. right.
  assert (Hgo : forall r, starts_digit r = true -> (exists x, exponent_loop r 0 = Some (x, [])) -> exists ds, Forall is_digit ds /\ ds <> [] /\ r = chars ds).
  { intros r Hr (x & Hx). destruct (split_digits r) as (ds & r' & -> & Hds & Hr'). rewrite exponent_loop_spec in Hx by (done || vm_compute; split; discriminate).
    destruct (_ <=? _); [|done]. injection Hx as _ ->. rewrite app_nil_r in *. exists ds. split_and!; [done| |done]. by intros ->. }
  assert (Hc : c = 101 \/ c = 69) by lia. clear Ec.
  assert (Hex : exists sg r, val = match sg with Some true => [45] | Some false => [43] | None => [] end ++ r /\ starts_digit r = true /\ (exists x, exponent_loop r 0 = Some (x, []))).
  { destruct (eat 43 val) as [r|] eqn:E43; [apply eat_Some in E43 as ->; exists (Some false), r|destruct (eat 45 val) as [r|] eqn:E45;
      [apply eat_Some in E45 as ->; exists (Some true), r|exists None, val]]; (split; [done|]);
      match goal with |- context [starts_digit ?r] => destruct (starts_digit r); [|done]; split; [done|];
        destruct (exponent_loop r 0) as [[x r']|]; [|done]; cbn in Hp; injection Hp as _ ->; by exists x end. }
  destruct Hex as (sg & r & -> & Hr & Hx). destruct (Hgo r Hr Hx) as (ds & Hds & Hne & ->). by exists (mkExponent c sg ds).
Qed.

Lemma ParseFixedPoint_accepts val dec a : ParseFixedPoint val dec = Some a -> exists n, number_ok n /\ val = text n.
Proof.
  unfold ParseFixedPoint. intros Hp.
  assert (Hs : exists neg val', val = sign_chars neg ++ val' /\ match eat 45 val with Some v => (true, v) | None => (false, val) end = (neg, val')).
  { destruct (eat 45 val) as [v|] eqn:E; [apply eat_Some in E as ->; by exists true, v|by exists false, val]. }
  destruct Hs as (neg & v1 & -> & Es). rewrite Es in Hp. clear Es.
  destruct (parse_integer v1) as [[[m z] v2]|] eqn:E1; [|done]. cbn [mbind option_bind] in Hp.
  destruct (parse_integer_accepts _ _ _ _ E1) as (ds & Hds & Hne & Hz & -> & Hr2 & Hm).
  destruct (parse_fraction m z v2) as [[[[m' z'] k] v3]|] eqn:E2; [|done]. cbn [mbind option_bind] in Hp.
  destruct (parse_exponent v3) as [[e v4]|] eqn:E3; [|done]. cbn [mbind option_bind] in Hp. case_bool_decide; [subst v4|done]. clear Hp.
  assert (Hv2 : starts_digit v2 = false).
  { destruct (starts_digit v2) eqn:Ed; [|done]. exfalso. destruct v2 as [|c v2]; [done|]. cbn in Ed. unfold isdigit in Ed. unfold parse_fraction in E2.
    cbn [eat] in E2. rewrite (proj2 (Z.eqb_neq c 46)) in E2 by lia. injection E2 as <- <- <- <-. unfold parse_exponent in E3.
    rewrite !(proj2 (Z.eqb_neq c _)) in E3 by lia. done. }
  destruct (parse_fraction_accepts _ _ _ _ _ _ _ Hv2 Hm E2) as (fs & Hfs & -> & Hv3).
  destruct (parse_exponent_accepts _ _ Hv3 E3) as [->|(x & Hx1 & Hx2 & Hx3 & ->)].
  - exists (mkNumber neg ds fs None). split; [by split|by destruct fs].
  - exists (mkNumber neg ds fs (Some x)). split; [split; [done|done|by intros y [= <-]]|by destruct fs].
Qed.

(** C26. [ParseFixedPoint] accepts nothing but the numbers of JSON, and it is exact: a number that is not zero is read as the amount [a] precisely when [a], in
    units of [10 ^ - dec], is its value and has at most eighteen digits, so that nothing is ever rounded. *)
Theorem fixed_point_exact dec :
  (forall val a, ParseFixedPoint val dec = Some a -> exists n, number_ok n /\ val = text n) /\
  (forall n a, number_ok n -> num_mantissa n <> 0 -> match num_exp n with Some x => be_val 10 (exp_digits x) | None => 0 end <= UPPER_BOUND ->
     ParseFixedPoint (text n) dec = Some a <-> denotes n dec a /\ Z.abs a <= UPPER_BOUND).
Proof. split; [intros val a; apply ParseFixedPoint_accepts|intros n a; apply ParseFixedPoint_exact]. Qed.

(** A zero with an exponent of at least ten is refused, though its value is in range. *)
Theorem zero_with_exponent_refused : ParseFixedPoint [48; 101; 49; 48] 8 = None /\ ParseFixedPoint [48; 101; 57] 8 = Some 0.
Proof. by vm_compute. Qed.

Lemma money_roundtrip_witness : FormatMoney 123400000 = Some [49; 46; 50; 51; 52] /\
  exists s, FormatMoney 123400000 = Some s /\ ParseMoney s = Some 123400000.
Proof. split; [by vm_compute|]. exact (money_roundtrip 123400000 (conj eq_refl eq_refl)). Defined.

(** ["-1.50e-1"] with eight decimals. *)
Lemma fixed_point_exact_witness : text (mkNumber true [1] [5; 0] (Some (mkExponent 101 (Some true) [1]))) = [45; 49; 46; 53; 48; 101; 45; 49] /\
  ParseFixedPoint [45; 49; 46; 53; 48; 101; 45; 49] 8 = Some (- 15000000).
Proof.
  split; [by vm_compute|].
  apply (proj2 (fixed_point_exact 8) (mkNumber true [1] [5; 0] (Some (mkExponent 101 (Some true) [1]))) (- 15000000)).
  - split; cbn; [split_and!; [by apply Forall_singleton|done|by right]|by repeat constructor|]. intros x [= <-]. cbn. split_and!; [by left|by apply Forall_singleton|done].
  - by vm_compute.
  - by vm_compute.
  - split; [by vm_compute|by vm_compute].
Defined.
