(* ===== verification/NetAddress.v ===== *)
(** Network addresses, services and subnets ([netaddress.h], [netaddress.cpp]): the classes of addresses, their groups, how reachable one is from another, netmasks
    and the text of addresses. *)

From stdpp Require Import prelude.
From Stdlib Require Import ZArith Lia.
From S2P Require Import Prelude Serialize Sha256 Hashes StrEncodings Numbers.

Open Scope Z_scope.

(** ** Addresses *)

Inductive Network := NET_UNROUTABLE | NET_IPV4 | NET_IPV6 | NET_TOR | NET_INTERNAL.
Definition network_number (n : Network) : Z :=
  match n with NET_UNROUTABLE => 0 | NET_IPV4 => 1 | NET_IPV6 => 2 | NET_TOR => 3 | NET_INTERNAL => 4 end.
Definition NET_MAX : Z := 5.

(** [ip] are the sixteen bytes in network order. *)
Record CNetAddr := mkNetAddr { ip : list Z; scopeId : Z }.
Definition addr_ok (a : CNetAddr) : Prop := length (ip a) = 16%nat /\ Forall is_u8 (ip a).

Definition pchIPv4 : list Z := [0; 0; 0; 0; 0; 0; 0; 0; 0; 0; 0xff; 0xff].
Definition pchOnionCat : list Z := [0xFD; 0x87; 0xD8; 0x7E; 0xEB; 0x43].
Definition g_internal_prefix : list Z := [0xFD; 0x6B; 0x88; 0xC0; 0x87; 0x24].

(** [memcmp(ip, prefix, sizeof(prefix)) == 0] *)
Definition starts (prefix l : list Z) : bool := bool_decide (take (length prefix) l = prefix).

Definition NetAddr_new : CNetAddr := mkNetAddr (replicate 16 0) 0.
Definition SetIP (a ipIn : CNetAddr) : CNetAddr := mkNetAddr (ip ipIn) (scopeId a).
(** [None] is the failed assertion. *)
Definition SetRaw (a : CNetAddr) (network : Network) (ip_in : list Z) : option CNetAddr :=
  match network with
  | NET_IPV4 => Some (mkNetAddr (pchIPv4 ++ take 4 ip_in) (scopeId a))
  | NET_IPV6 => Some (mkNetAddr (take 16 ip_in) (scopeId a))
  | _ => None
  end.
(** [junk] is what the unset buffer of the hasher holds. *)
Definition SetInternal (junk : stream) (a : CNetAddr) (name : list Z) : CNetAddr * bool :=
  if bool_decide (name = []) then (a, false)
  else (mkNetAddr (g_internal_prefix ++ take 10 (SHA256.Finalize (SHA256.Write (SHA256.new junk) name))) (scopeId a), true).
(** [".onion"] *)
Definition dot_onion : list Z := [46; 111; 110; 105; 111; 110].
Definition SetSpecial (a : CNetAddr) (strName : list Z) : CNetAddr * bool :=
  let n := (length strName - 6)%nat in
  if (6 <? length strName)%nat && bool_decide (drop n strName = dot_onion) then
    let vchAddr := (DecodeBase32 (take n strName)).1 in
    if negb (length vchAddr =? 10)%nat then (a, false) else (mkNetAddr (pchOnionCat ++ vchAddr) (scopeId a), true)
  else (a, false).

Definition GetByte (a : CNetAddr) (n : Z) : Z := aget (ip a) (15 - n).

Definition IsIPv4 (a : CNetAddr) : bool := starts pchIPv4 (ip a).
Definition IsTor (a : CNetAddr) : bool := starts pchOnionCat (ip a).
Definition IsInternal (a : CNetAddr) : bool := starts g_internal_prefix (ip a).
Definition IsIPv6 (a : CNetAddr) : bool := negb (IsIPv4 a) && negb (IsTor a) && negb (IsInternal a).
Definition IsRFC1918 (a : CNetAddr) : bool :=
  IsIPv4 a && ((GetByte a 3 =? 10) || ((GetByte a 3 =? 192) && (GetByte a 2 =? 168)) ||
               ((GetByte a 3 =? 172) && ((16 <=? GetByte a 2) && (GetByte a 2 <=? 31)))).
Definition IsRFC2544 (a : CNetAddr) : bool := IsIPv4 a && (GetByte a 3 =? 198) && ((GetByte a 2 =? 18) || (GetByte a 2 =? 19)).
Definition IsRFC3927 (a : CNetAddr) : bool := IsIPv4 a && ((GetByte a 3 =? 169) && (GetByte a 2 =? 254)).
Definition IsRFC6598 (a : CNetAddr) : bool := IsIPv4 a && (GetByte a 3 =? 100) && (64 <=? GetByte a 2) && (GetByte a 2 <=? 127).
Definition IsRFC5737 (a : CNetAddr) : bool :=
  IsIPv4 a && (((GetByte a 3 =? 192) && (GetByte a 2 =? 0) && (GetByte a 1 =? 2)) ||
               ((GetByte a 3 =? 198) && (GetByte a 2 =? 51) && (GetByte a 1 =? 100)) ||
               ((GetByte a 3 =? 203) && (GetByte a 2 =? 0) && (GetByte a 1 =? 113))).
Definition IsRFC3849 (a : CNetAddr) : bool := (GetByte a 15 =? 0x20) && (GetByte a 14 =? 0x01) && (GetByte a 13 =? 0x0D) && (GetByte a 12 =? 0xB8).
Definition IsRFC3964 (a : CNetAddr) : bool := (GetByte a 15 =? 0x20) && (GetByte a 14 =? 0x02).
Definition pchRFC6052 : list Z := [0; 0x64; 0xFF; 0x9B; 0; 0; 0; 0; 0; 0; 0; 0].
Definition IsRFC6052 (a : CNetAddr) : bool := starts pchRFC6052 (ip a).
Definition IsRFC4380 (a : CNetAddr) : bool := (GetByte a 15 =? 0x20) && (GetByte a 14 =? 0x01) && (GetByte a 13 =? 0) && (GetByte a 12 =? 0).
Definition IsRFC4862 (a : CNetAddr) : bool := starts [0xFE; 0x80; 0; 0; 0; 0; 0; 0] (ip a).
Definition IsRFC4193 (a : CNetAddr) : bool := Z.land (GetByte a 15) 0xFE =? 0xFC.
Definition pchRFC6145 : list Z := [0; 0; 0; 0; 0; 0; 0; 0; 0xFF; 0xFF; 0; 0].
Definition IsRFC6145 (a : CNetAddr) : bool := starts pchRFC6145 (ip a).
Definition IsRFC4843 (a : CNetAddr) : bool :=
  (GetByte a 15 =? 0x20) && (GetByte a 14 =? 0x01) && (GetByte a 13 =? 0x00) && (Z.land (GetByte a 12) 0xF0 =? 0x10).
Definition IsLocal (a : CNetAddr) : bool :=
  if IsIPv4 a && ((GetByte a 3 =? 127) || (GetByte a 3 =? 0)) then true
  else if starts [0; 0; 0; 0; 0; 0; 0; 0; 0; 0; 0; 0; 0; 0; 0; 1] (ip a) then true
  else false.
Definition IsValid (a : CNetAddr) : bool :=
  if starts (drop 3 pchIPv4) (ip a) then false
  else if starts (replicate 16 0) (ip a) then false
  else if IsRFC3849 a then false
  else if IsInternal a then false
  else if IsIPv4 a then
    if starts [0xff; 0xff; 0xff; 0xff] (drop 12 (ip a)) then false
    else if starts [0; 0; 0; 0] (drop 12 (ip a)) then false
    else true
  else true.

(** The flag [fAllowPrivateNet] is set on the command line. *)
Definition IsRoutable (fAllowPrivateNet : bool) (a : CNetAddr) : bool :=
  if negb (IsValid a) then false
  else if negb fAllowPrivateNet && IsRFC1918 a then false
  else negb (IsRFC2544 a || IsRFC3927 a || IsRFC4862 a || IsRFC6598 a || IsRFC5737 a || (IsRFC4193 a && negb (IsTor a)) || IsRFC4843 a || IsLocal a || IsInternal a).
Definition GetNetwork (fAllowPrivateNet : bool) (a : CNetAddr) : Network :=
  if IsInternal a then NET_INTERNAL
  else if negb (IsRoutable fAllowPrivateNet a) then NET_UNROUTABLE
  else if IsIPv4 a then NET_IPV4
  else if IsTor a then NET_TOR
  else NET_IPV6.

(** The orders compare the bytes only. *)
Definition NetAddr_eq (a b : CNetAddr) : bool := bool_decide (ip a = ip b).
Definition NetAddr_lt (a b : CNetAddr) : bool := memcmp_lt (ip a) (ip b).

Definition GetInAddr (a : CNetAddr) : option (list Z) := if negb (IsIPv4 a) then None else Some (drop 12 (ip a)).
Definition GetIn6Addr (a : CNetAddr) : option (list Z) := Some (ip a).

(** *** Groups *)

(** The loop over whole bytes; [nBits] is at most 128. *)
Fixpoint group_bytes (fuel : nat) (a : CNetAddr) (nStartByte nBits : Z) : list Z :=
  match fuel with
  | O => []
  | S fuel =>
      if 8 <=? nBits then GetByte a (15 - nStartByte) :: group_bytes fuel a (nStartByte + 1) (nBits - 8)
      else if 0 <? nBits then [Z.lor (GetByte a (15 - nStartByte)) (Z.shiftl 1 (8 - nBits) - 1)]
      else []
  end.
Definition group_of (a : CNetAddr) (nClass nStartByte nBits : Z) : list Z := nClass :: group_bytes 17 a nStartByte nBits.
Definition GetGroup (fAllowPrivateNet : bool) (a : CNetAddr) : list Z :=
  let '(nClass, nBits) := if IsLocal a then (255, 0) else (network_number NET_IPV6, 16) in
  if IsInternal a then group_of a (network_number NET_INTERNAL) 6 80
  else if negb (IsRoutable fAllowPrivateNet a) then group_of a (network_number NET_UNROUTABLE) 0 0
  else if IsIPv4 a || IsRFC6145 a || IsRFC6052 a then group_of a (network_number NET_IPV4) 12 nBits
  else if IsRFC3964 a then group_of a (network_number NET_IPV4) 2 nBits
  else if IsRFC4380 a then [network_number NET_IPV4; Z.lxor (GetByte a 3) 0xFF; Z.lxor (GetByte a 2) 0xFF]
  else if IsTor a then group_of a (network_number NET_TOR) 6 4
  else if (GetByte a 15 =? 0x20) && (GetByte a 14 =? 0x01) && (GetByte a 13 =? 0x04) && (GetByte a 12 =? 0x70) then group_of a nClass 0 36
  else group_of a nClass 0 32.
Definition NetAddr_GetHash (junk : stream) (a : CNetAddr) : Z := le_value (take 8 (Hash junk [ip a])).

(** *** Reachability *)

Definition NET_UNKNOWN : Z := NET_MAX + 0.
Definition NET_TEREDO : Z := NET_MAX + 1.
Definition GetExtNetwork (fAllowPrivateNet : bool) (addr : option CNetAddr) : Z :=
  match addr with
  | None => NET_UNKNOWN
  | Some a => if IsRFC4380 a then NET_TEREDO else network_number (GetNetwork fAllowPrivateNet a)
  end.
Inductive Reachability := REACH_UNREACHABLE | REACH_DEFAULT | REACH_TEREDO | REACH_IPV6_WEAK | REACH_IPV4 | REACH_IPV6_STRONG | REACH_PRIVATE.
Definition reach_number (r : Reachability) : Z :=
  match r with
  | REACH_UNREACHABLE => 0 | REACH_DEFAULT => 1 | REACH_TEREDO => 2 | REACH_IPV6_WEAK => 3 | REACH_IPV4 => 4 | REACH_IPV6_STRONG => 5 | REACH_PRIVATE => 6
  end.
Definition GetReachabilityFrom (fAllowPrivateNet : bool) (a : CNetAddr) (paddrPartner : option CNetAddr) : Reachability :=
  if negb (IsRoutable fAllowPrivateNet a) || IsInternal a then REACH_UNREACHABLE
  else
    let ourNet := GetExtNetwork fAllowPrivateNet (Some a) in
    let theirNet := GetExtNetwork fAllowPrivateNet paddrPartner in
    let fTunnel := IsRFC3964 a || IsRFC6052 a || IsRFC6145 a in
    if theirNet =? network_number NET_IPV4 then
      if ourNet =? network_number NET_IPV4 then REACH_IPV4 else REACH_DEFAULT
    else if theirNet =? network_number NET_IPV6 then
      if ourNet =? NET_TEREDO then REACH_TEREDO
      else if ourNet =? network_number NET_IPV4 then REACH_IPV4
      else if ourNet =? network_number NET_IPV6 then if fTunnel then REACH_IPV6_WEAK else REACH_IPV6_STRONG
      else REACH_DEFAULT
    else if theirNet =? network_number NET_TOR then
      if ourNet =? network_number NET_IPV4 then REACH_IPV4 else if ourNet =? network_number NET_TOR then REACH_PRIVATE else REACH_DEFAULT
    else if theirNet =? NET_TEREDO then
      if ourNet =? NET_TEREDO then REACH_TEREDO
      else if ourNet =? network_number NET_IPV6 then REACH_IPV6_WEAK
      else if ourNet =? network_number NET_IPV4 then REACH_IPV4
      else REACH_DEFAULT
    else
      if ourNet =? NET_TEREDO then REACH_TEREDO
      else if ourNet =? network_number NET_IPV6 then REACH_IPV6_WEAK
      else if ourNet =? network_number NET_IPV4 then REACH_IPV4
      else if ourNet =? network_number NET_TOR then REACH_PRIVATE
      else REACH_DEFAULT.

(** ** Services *)

Record CService := mkService { netaddr : CNetAddr; port : Z }.
Definition service_ok (s : CService) : Prop := addr_ok (netaddr s) /\ 0 <= port s < 2 ^ 16.
Definition Service_new : CService := mkService NetAddr_new 0.
Definition SetPort (s : CService) (portIn : Z) : CService := mkService (netaddr s) portIn.
Definition Service_eq (a b : CService) : bool := NetAddr_eq (netaddr a) (netaddr b) && (port a =? port b).
Definition Service_ne (a b : CService) : bool := negb (NetAddr_eq (netaddr a) (netaddr b)) || negb (port a =? port b).
Definition Service_lt (a b : CService) : bool :=
  NetAddr_lt (netaddr a) (netaddr b) || (NetAddr_eq (netaddr a) (netaddr b) && (port a <? port b)).
Definition GetKey (s : CService) : list Z := ip (netaddr s) ++ [port s / 0x100; Z.land (port s) 0xFF].

(** [htons] and [ntohs] of a little-endian machine. *)
Definition htons (x : Z) : Z := Z.lor (Z.land (Z.shiftl x 8) 0xff00) (Z.shiftr x 8).
Inductive sockaddr :=
  | sockaddr_in (sin_addr : list Z) (sin_port : Z)
  | sockaddr_in6 (sin6_addr : list Z) (sin6_port sin6_scope_id : Z)
  | sockaddr_other (sa_family : Z).
Definition sizeof_sockaddr_in : Z := 16.
Definition sizeof_sockaddr_in6 : Z := 28.
(** [None] is the result [false]. *)
Definition GetSockAddr (s : CService) (addrlen : Z) : option (sockaddr * Z) :=
  if IsIPv4 (netaddr s) then
    if addrlen <? sizeof_sockaddr_in then None
    else v4 ← GetInAddr (netaddr s); Some (sockaddr_in v4 (htons (port s)), sizeof_sockaddr_in)
  else if IsIPv6 (netaddr s) then
    if addrlen <? sizeof_sockaddr_in6 then None
    else v6 ← GetIn6Addr (netaddr s); Some (sockaddr_in6 v6 (htons (port s)) (scopeId (netaddr s)), sizeof_sockaddr_in6)
  else None.
(** The constructor for IPv4 leaves [scopeId] unset. *)
Definition SetSockAddr (unset : Z) (s : CService) (paddr : sockaddr) : CService * bool :=
  match paddr with
  | sockaddr_in v4 p => (mkService (mkNetAddr (pchIPv4 ++ take 4 v4) unset) (htons p), true)
  | sockaddr_in6 v6 p scope => (mkService (mkNetAddr (take 16 v6) scope) (htons p), true)
  | sockaddr_other _ => (s, false)
  end.

(** [FLATDATA(ip)] and the bytes of [portN] in memory. *)
Definition NetAddr_Serialize (a : CNetAddr) : stream := ip a.
Definition NetAddr_Unserialize (scope : Z) : reader CNetAddr := fun s => '(bs, s) ← read_bytes 16 s; Some (mkNetAddr bs scope, s).
Definition Service_Serialize (v : CService) : stream := ip (netaddr v) ++ ser_writedata 2 (htons (port v)).
Definition Service_Unserialize (scope : Z) : reader CService := fun s =>
  '(bs, s) ← read_bytes 16 s; '(portN, s) ← ser_readdata 2 s; Some (mkService (mkNetAddr bs scope) (htons portN), s).

(** ** Text *)

(** [strprintf("%x")] of a 16-bit number. *)
Definition hex_char (d : Z) : Z := if d <? 10 then 48 + d else 87 + d.
Fixpoint hex_digits (fuel : nat) (n : Z) : list Z :=
  match fuel with
  | O => []
  | S fuel => if n <? 16 then [hex_char n] else hex_digits fuel (n / 16) ++ [hex_char (n mod 16)]
  end.
Definition hexadecimal (n : Z) : list Z := hex_digits 4 n.
Fixpoint joined (sep : Z) (l : list (list Z)) : list Z :=
  match l with
  | [] => []
  | [x] => x
  | x :: l => x ++ [sep] ++ joined sep l
  end.
Definition dotted (bs : list Z) : list Z := joined 46 (map decimal bs).
Definition colons (bs : list Z) : list Z :=
  joined 58 (map (fun k => hexadecimal (Z.lor (Z.shiftl (aget bs (2 * k)) 8) (aget bs (2 * k + 1)))) (seqZ 0 8)).

Section Text.
(** The resolver of the system, asked for the number of the host. *)
Variable getnameinfo : sockaddr -> option (list Z).
(** [".internal"] *)
Definition dot_internal : list Z := [46; 105; 110; 116; 101; 114; 110; 97; 108].
Definition sizeof_sockaddr_storage : Z := 128.
Definition ToStringIP (a : CNetAddr) (fUseGetnameinfo : bool) : list Z :=
  if IsTor a then EncodeBase32 (drop 6 (ip a)) ++ dot_onion
  else if IsInternal a then EncodeBase32 (drop 6 (ip a)) ++ dot_internal
  else
    let name := if fUseGetnameinfo then '(sa, _) ← GetSockAddr (mkService a 0) sizeof_sockaddr_storage; getnameinfo sa else None in
    match name with
    | Some name => name
    | None => if IsIPv4 a then dotted (drop 12 (ip a)) else colons (ip a)
    end.
Definition ToStringPort (s : CService) : list Z := decimal (port s).
Definition ToStringIPPort (s : CService) (fUseGetnameinfo : bool) : list Z :=
  let a := netaddr s in
  if IsIPv4 a || IsTor a || IsInternal a then ToStringIP a fUseGetnameinfo ++ [58] ++ ToStringPort s
  else [91] ++ ToStringIP a fUseGetnameinfo ++ [93; 58] ++ ToStringPort s.

(** ** Subnets *)

Record CSubNet := mkSubNet { network : CNetAddr; netmask : list Z; valid : bool }.
Definition SubNet_new : CSubNet := mkSubNet NetAddr_new (replicate 16 0) false.
Definition astartofs (a : CNetAddr) : Z := if IsIPv4 a then 12 else 0.
Definition clear_bit (netmask : list Z) (n : Z) : list Z :=
  aset netmask (Z.shiftr n 3) (u8 (Z.land (aget netmask (Z.shiftr n 3)) (Z.lnot (Z.shiftl 1 (7 - Z.land n 7))))).
Definition clear_from (n : Z) : list Z := foldl clear_bit (replicate 16 255) (seqZ n (128 - n)).
Definition normalized (a : CNetAddr) (netmask : list Z) : CNetAddr := mkNetAddr (zip_with Z.land (ip a) netmask) (scopeId a).
Definition SubNet_bits (addr : CNetAddr) (mask : Z) : CSubNet :=
  let ofs := astartofs addr in
  if (0 <=? mask) && (mask <=? 128 - ofs * 8) then
    let netmask := clear_from (mask + ofs * 8) in mkSubNet (normalized addr netmask) netmask true
  else mkSubNet (normalized addr (replicate 16 255)) (replicate 16 255) false.
Definition SubNet_mask (addr mask : CNetAddr) : CSubNet :=
  let ofs := Z.to_nat (astartofs addr) in
  let netmask := replicate ofs 255 ++ drop ofs (ip mask) in mkSubNet (normalized addr netmask) netmask true.
Definition SubNet_single (addr : CNetAddr) : CSubNet := mkSubNet addr (replicate 16 255) (IsValid addr).
Definition Match (s : CSubNet) (addr : CNetAddr) : bool :=
  if negb (valid s) || negb (IsValid addr) then false
  else forallb (fun x => Z.land (aget (ip addr) x) (aget (netmask s) x) =? aget (ip (network s)) x) (seqZ 0 16).

Definition NetmaskBits (x : Z) : Z :=
  match x with
  | 0x00 => 0 | 0x80 => 1 | 0xc0 => 2 | 0xe0 => 3 | 0xf0 => 4 | 0xf8 => 5 | 0xfc => 6 | 0xfe => 7 | 0xff => 8 | _ => -1
  end.
(** The bytes of the mask from [n] on; [None] when it is not a prefix. *)
Fixpoint cidr_of (bytes : list Z) (cidr : Z) : option Z :=
  match bytes with
  | [] => Some cidr
  | b :: bytes =>
      if b =? 0xff then cidr_of bytes (cidr + 8)
      else
        let bits := NetmaskBits b in
        if bits <? 0 then None else if forallb (fun x => x =? 0) bytes then Some (cidr + bits) else None
  end.
Definition SubNet_ToString (s : CSubNet) : list Z :=
  let strNetmask :=
    match cidr_of (drop (Z.to_nat (astartofs (network s))) (netmask s)) 0 with
    | Some cidr => decimal cidr
    | None => if IsIPv4 (network s) then dotted (drop 12 (netmask s)) else colons (netmask s)
    end in
  ToStringIP (network s) true ++ [47] ++ strNetmask.
Definition SubNet_eq (a b : CSubNet) : bool :=
  Bool.eqb (valid a) (valid b) && NetAddr_eq (network a) (network b) && bool_decide (netmask a = netmask b).
Definition SubNet_lt (a b : CSubNet) : bool :=
  NetAddr_lt (network a) (network b) || (NetAddr_eq (network a) (network b) && memcmp_lt (netmask a) (netmask b)).
End Text.

(** ** Netmasks are prefixes *)

(** Bit [i] of an address or a mask, from the most significant one on. *)
Definition bit_of (l : list Z) (i : Z) : bool := Z.testbit (aget l (i / 8)) (7 - i mod 8).

Lemma forall_below (P : Z -> bool) n : forallb P (seqZ 0 n) = true -> forall i, 0 <= i < n -> P i = true.
Proof. intros H i Hi. rewrite forallb_forall in H. apply H, list_elem_of_In, elem_of_seqZ. lia. Qed.
Definition prefix_mask (n : Z) (l : list Z) : bool :=
  (length l =? 16)%nat && forallb (fun x => (0 <=? x) && (x <? 256)) l && forallb (fun i => Bool.eqb (bit_of l i) (i <? n)) (seqZ 0 128).
Lemma clear_from_prefix n : 0 <= n <= 128 -> prefix_mask n (clear_from n) = true.
Proof. intros Hn. apply (forall_below (fun n => prefix_mask n (clear_from n)) 129); [vm_compute; reflexivity|lia]. Qed.
Lemma clear_from_bits n : 0 <= n <= 128 ->
  length (clear_from n) = 16%nat /\ Forall is_u8 (clear_from n) /\ forall i, 0 <= i < 128 -> bit_of (clear_from n) i = (i <? n).
Proof.
  intros Hn. pose proof (clear_from_prefix n Hn) as H. unfold prefix_mask in H. rewrite !andb_true_iff in H. destruct H as [[H1 H2] H3]. split_and!.
  - by apply Nat.eqb_eq in H1.
  - rewrite forallb_forall in H2. apply Forall_forall. intros x Hx. apply list_elem_of_In, H2 in Hx. unfold is_u8. rewrite andb_true_iff, Z.leb_le, Z.ltb_lt in Hx. lia.
  - intros i Hi. apply eqb_prop, (forall_below _ 128 H3 i Hi).
Qed.
Lemma testbit_byte_high x k : is_u8 x -> 8 <= k -> Z.testbit x k = false.
Proof. intros Hx Hk. by apply (testbit_high x 8). Qed.
Lemma land_eq_bits a b m : is_u8 a -> is_u8 b ->
  Z.land a m = Z.land b m <-> forall k, 0 <= k < 8 -> Z.testbit m k = true -> Z.testbit a k = Z.testbit b k.
Proof.
  intros Ha Hb. split.
  - intros E k Hk Hm. apply (f_equal (fun z => Z.testbit z k)) in E. by rewrite !Z.land_spec, Hm, !andb_true_r in E.
  - intros E. apply Z.bits_inj'. intros k Hk. rewrite !Z.land_spec. destruct (Z.testbit m k) eqn:Hm; [|by rewrite !andb_false_r]. rewrite !andb_true_r.
    destruct (decide (k < 8)); [apply E; done || lia|by rewrite !testbit_byte_high by (done || lia)].
Qed.
Lemma aget_u8 l x : Forall is_u8 l -> is_u8 (aget l x).
Proof. apply aget_Forall. unfold is_u8. lia. Qed.
Lemma aget_zip l k x : length l = length k -> aget (zip_with Z.land l k) x = Z.land (aget l x) (aget k x).
Proof.
  intros Hl. unfold aget. rewrite lookup_zip_with. destruct (l !! Z.to_nat x) eqn:E1; cbn; [|by rewrite Z.land_0_l].
  destruct (lookup_lt_is_Some_2 k (Z.to_nat x)) as [y Ey]; [rewrite <- Hl; by eapply lookup_lt_Some|]. by rewrite Ey.
Qed.

(** A subnet given by a number of bits contains exactly the valid addresses that agree with its address on so many leading bits, after the twelve bytes in front of IPv4
    addresses; its text ends in that number. A number of bits outside the range gives an invalid subnet, which contains nothing. *)
Theorem subnet_is_prefix addr mask a : addr_ok addr -> addr_ok a ->
  let n := astartofs addr * 8 + mask in
  (Match (SubNet_bits addr mask) a = true <->
   astartofs addr * 8 <= n <= 128 /\ IsValid a = true /\ forall i, 0 <= i < n -> bit_of (ip a) i = bit_of (ip addr) i) /\
  (astartofs addr * 8 <= n <= 128 -> cidr_of (drop (Z.to_nat (astartofs addr)) (netmask (SubNet_bits addr mask))) 0 = Some mask).
Proof.
  intros [Hl Hb] [Hl' Hb'] n. assert (Hofs : astartofs addr = 0 \/ astartofs addr = 12) by (unfold astartofs; destruct (IsIPv4 addr); lia).
  unfold SubNet_bits, Match. destruct (Z.leb_spec 0 mask), (Z.leb_spec mask (128 - astartofs addr * 8)); cbn [andb valid negb orb]; try (split; [split; [done|lia]|lia]).
  replace (mask + astartofs addr * 8) with n by lia. destruct (clear_from_bits n) as (Hm1 & Hm2 & Hm3); [lia|]. cbn [netmask network normalized ip]. split.
  - destruct (IsValid a); cbn [negb]; [|by split; [|intros (_ & ? & _)]]. rewrite forallb_forall. split.
    + intros Hall. split_and!; [lia|lia|done|]. intros i Hi. specialize (Hall (i / 8)). rewrite Z.eqb_eq, aget_zip, land_eq_bits in Hall by (done || by apply aget_u8 || congruence).
      unfold bit_of. pose proof (Z.mod_pos_bound i 8). apply Hall; [apply list_elem_of_In, elem_of_seqZ; split; [apply Z.div_pos; lia|apply Z.div_lt_upper_bound; lia]|lia|].
      pose proof (Hm3 i ltac:(lia)) as E. unfold bit_of in E. rewrite E. apply Z.ltb_lt. lia.
    + intros (_ & _ & Hbits) x Hx%list_elem_of_In%elem_of_seqZ. rewrite Z.eqb_eq, aget_zip, land_eq_bits by (done || by apply aget_u8 || congruence).
      intros k Hk Ek. pose proof (Hbits (8 * x + (7 - k))) as E. pose proof (Hm3 (8 * x + (7 - k)) ltac:(lia)) as Em. unfold bit_of in E, Em.
      replace ((8 * x + (7 - k)) / 8) with x in * by (apply (Z.div_unique _ 8 x (7 - k)); lia).
      replace ((8 * x + (7 - k)) mod 8) with (7 - k) in * by (apply (Z.mod_unique _ 8 x (7 - k)); lia). replace (7 - (7 - k)) with k in * by lia.
      rewrite Ek in Em. symmetry in Em. apply Z.ltb_lt in Em. apply E. lia.
  - intros Hn. assert (Hc : forallb (fun m => bool_decide (cidr_of (clear_from m) 0 = Some m)) (seqZ 0 129) && forallb (fun m => bool_decide (cidr_of (drop 12 (clear_from (96 + m))) 0 = Some m)) (seqZ 0 33) = true) by (vm_compute; reflexivity).
    apply andb_true_iff in Hc as [Hc1 Hc2]. unfold n in *. destruct Hofs as [E|E]; rewrite E in *.
    + pose proof (forall_below _ _ Hc1 mask ltac:(lia)) as Hc. by apply bool_decide_eq_true in Hc.
    + pose proof (forall_below _ _ Hc2 mask ltac:(lia)) as Hc. by apply bool_decide_eq_true in Hc.
Qed.
(** [Forall is_u8] of a list of numbers. *)
Ltac octets := cbn; repeat (apply Forall_cons; split; [unfold is_u8; lia|]); by apply Forall_nil.
Lemma subnet_is_prefix_witness :
  let home := mkNetAddr (pchIPv4 ++ [192; 168; 77; 5]) 0 in
  Match (SubNet_bits home 18) (mkNetAddr (pchIPv4 ++ [192; 168; 99; 1]) 0) = true /\ Match (SubNet_bits home 19) (mkNetAddr (pchIPv4 ++ [192; 168; 99; 1]) 0) = false /\
  cidr_of (drop 12 (netmask (SubNet_bits home 18))) 0 = Some 18.
Proof.
  intros home. split_and!; [reflexivity|reflexivity|]. assert (Hok : addr_ok home) by (split; [done|octets]). apply (subnet_is_prefix home 18 home Hok Hok). change (astartofs home) with 12. lia.
Defined.

(** ** Groups *)

(** The IPv6 addresses that lead to the IPv4 address [a.b.c.d], by tunnel or translation; [rest] are the other bits of the tunnel. *)
Inductive carries (a b c d : Z) : list Z -> Prop :=
  | carries_6to4 rest : length rest = 10%nat -> carries a b c d ([0x20; 0x02; a; b; c; d] ++ rest)
  | carries_teredo rest : length rest = 8%nat -> carries a b c d ([0x20; 0x01; 0; 0] ++ rest ++ map (fun x => Z.lxor x 0xFF) [a; b; c; d])
  | carries_rfc6052 : carries a b c d (pchRFC6052 ++ [a; b; c; d])
  | carries_rfc6145 : carries a b c d (pchRFC6145 ++ [a; b; c; d]).
Lemma lxor_twice x : Z.lxor (Z.lxor x 0xFF) 0xFF = x.
Proof. by rewrite Z.lxor_assoc, Z.lxor_nilpotent, Z.lxor_0_r. Qed.
Ltac explicit_list rest := repeat (destruct rest as [|? rest]; try done).

(** Every address that leads to an IPv4 address through a tunnel or a translation is in the group of the IPv4 addresses with the same sixteen leading bits. *)
Theorem tunnels_share_group priv a b c d l scope : carries a b c d l ->
  IsRoutable priv (mkNetAddr l scope) = true /\ GetGroup priv (mkNetAddr l scope) = [network_number NET_IPV4; a; b] /\
  (IsRoutable priv (mkNetAddr (pchIPv4 ++ [a; b; c; d]) 0) = true -> GetGroup priv (mkNetAddr (pchIPv4 ++ [a; b; c; d]) 0) = GetGroup priv (mkNetAddr l scope)).
Proof.
  intros Hc. assert (Hv4 : IsRoutable priv (mkNetAddr (pchIPv4 ++ [a; b; c; d]) 0) = true -> GetGroup priv (mkNetAddr (pchIPv4 ++ [a; b; c; d]) 0) = [network_number NET_IPV4; a; b]).
  { intros Hr. unfold GetGroup. rewrite Hr. replace (IsLocal (mkNetAddr (pchIPv4 ++ [a; b; c; d]) 0)) with false; [reflexivity|].
    unfold IsRoutable in Hr. destruct (IsLocal _); [|done]. rewrite !orb_true_r in Hr. by repeat case_match. }
  assert (Hg : IsRoutable priv (mkNetAddr l scope) = true /\ GetGroup priv (mkNetAddr l scope) = [network_number NET_IPV4; a; b]).
  { destruct Hc as [rest Hl|rest Hl| |]; [explicit_list rest|explicit_list rest| |]; destruct priv; split; try reflexivity; exact (f_equal2 (fun x y => [1; x; y]) (lxor_twice a) (lxor_twice b)). }
  destruct Hg as [Hr Hg]. split_and!; [done|done|]. intros Hr'. by rewrite Hg, Hv4.
Qed.

(** The class of local addresses is overwritten, as they are not routable: they are in the group of all unroutable addresses, and no address is in a group of class 255. *)
Theorem local_addresses_unroutable priv a : IsLocal a = true -> IsInternal a = false -> GetGroup priv a = [network_number NET_UNROUTABLE].
Proof.
  intros Hl Hi. unfold GetGroup. rewrite Hl, Hi. assert (Hr : IsRoutable priv a = false); [|by rewrite Hr]. unfold IsRoutable. rewrite Hl, !orb_true_r. by repeat case_match.
Qed.
Theorem no_group_of_class_255 priv a : head (GetGroup priv a) <> Some 255.
Proof.
  unfold GetGroup. destruct (IsLocal a) eqn:Hl.
  - destruct (IsInternal a); [done|]. replace (IsRoutable priv a) with false; [done|]. unfold IsRoutable. rewrite Hl, !orb_true_r. by repeat case_match.
  - by repeat case_match.
Qed.

Lemma starts_app prefix l : starts prefix l = true -> l = prefix ++ drop (length prefix) l.
Proof. unfold starts. intros E%bool_decide_eq_true. rewrite <- E at 1. symmetry. apply take_drop. Qed.
(** An address is of one network only. *)
Theorem networks_exclusive a :
  (IsIPv4 a, IsTor a, IsInternal a, IsIPv6 a) ∈ [(true, false, false, false); (false, true, false, false); (false, false, true, false); (false, false, false, true)].
Proof.
  unfold IsIPv6. destruct (IsIPv4 a) eqn:E1, (IsTor a) eqn:E2, (IsInternal a) eqn:E3; cbn; try (apply starts_app in E1; unfold IsTor, IsInternal in *; rewrite E1 in *; done);
    try (apply starts_app in E2; unfold IsInternal in *; rewrite E2 in *; done); set_solver.
Qed.

(** ** Round trips and orders *)

Lemma htons_eq p : 0 <= p < 2 ^ 16 -> htons p = p / 2 ^ 8 + 2 ^ 8 * (p mod 2 ^ 8).
Proof.
  intros Hp. unfold htons. assert (Hm : Z.land (Z.shiftl p 8) 0xff00 = Z.shiftl (p mod 2 ^ 8) 8).
  { apply Z.bits_inj'. intros i Hi. rewrite Z.land_spec. destruct (decide (i < 8)); [by rewrite !Z.shiftl_spec_low by lia|]. change 0xff00 with (Z.shiftl (Z.ones 8) 8). rewrite !Z.shiftl_spec by lia.
    destruct (decide (i - 8 < 8)); [rewrite Z.ones_spec_low, andb_true_r, Z.mod_pow2_bits_low by lia; done|rewrite Z.ones_spec_high, andb_false_r, Z.mod_pow2_bits_high by lia; done]. }
  rewrite Hm, Z.lor_comm, Z.shiftr_div_pow2 by lia. apply lor_shiftl_add; [|lia]. split; [apply Z.div_pos; lia|apply Z.div_lt_upper_bound; lia].
Qed.
Lemma high_byte p : 0 <= p < 2 ^ 16 -> 0 <= p / 2 ^ 8 < 2 ^ 8.
Proof. intros Hp. split; [apply Z.div_pos; lia|apply Z.div_lt_upper_bound; lia]. Qed.
Lemma htons_range p : 0 <= p < 2 ^ 16 -> 0 <= htons p < 2 ^ 16.
Proof. intros Hp. rewrite htons_eq by done. pose proof (Z.mod_pos_bound p (2 ^ 8) ltac:(lia)). pose proof (high_byte p Hp). lia. Qed.
Lemma htons_htons p : 0 <= p < 2 ^ 16 -> htons (htons p) = p.
Proof.
  intros Hp. pose proof (htons_range p Hp). rewrite (htons_eq (htons p)), (htons_eq p) by done. pose proof (high_byte p Hp).
  rewrite (Z.mul_comm (2 ^ 8) (p mod _)), Z.div_add, Z.mod_add by lia. rewrite (Z.div_small (p / _)), (Z.mod_small (p / _)) by lia. pose proof (Z.div_mod p (2 ^ 8) ltac:(lia)). lia.
Qed.

(** Services and addresses survive the stream and the socket structures of the system; the stream does not carry the scope of an address. *)
Theorem service_roundtrips s scope unset rest : service_ok s ->
  Service_Unserialize scope (Service_Serialize s ++ rest) = Some (mkService (mkNetAddr (ip (netaddr s)) scope) (port s), rest) /\
  (IsIPv4 (netaddr s) = false -> IsIPv6 (netaddr s) = true ->
     exists sa, GetSockAddr s sizeof_sockaddr_storage = Some (sa, sizeof_sockaddr_in6) /\ (SetSockAddr unset Service_new sa).1 = s) /\
  (IsIPv4 (netaddr s) = true ->
     exists sa, GetSockAddr s sizeof_sockaddr_storage = Some (sa, sizeof_sockaddr_in) /\ (SetSockAddr unset Service_new sa).1 = mkService (mkNetAddr (ip (netaddr s)) unset) (port s)).
Proof.
  destruct s as [[l sc] p]. unfold service_ok, addr_ok. cbn [netaddr port ip]. intros [[Hl _] Hp]. split_and!.
  - unfold Service_Unserialize, Service_Serialize. cbn [netaddr port ip]. rewrite <- app_assoc, <- Hl, read_bytes_app. cbn [mbind option_bind].
    rewrite ser_read_write by (apply htons_range; lia). cbn [mbind option_bind]. by rewrite htons_htons.
  - intros E4 E6. unfold GetSockAddr. cbn [netaddr]. rewrite E4, E6. eexists. split; [reflexivity|]. cbn [SetSockAddr fst netaddr port ip scopeId GetIn6Addr]. rewrite htons_htons by lia. by rewrite take_ge by lia.
  - intros E4. unfold GetSockAddr, GetInAddr. cbn [netaddr]. rewrite E4. eexists. split; [reflexivity|]. cbn [SetSockAddr fst netaddr port ip scopeId]. rewrite htons_htons by lia.
    do 2 f_equal. apply starts_app in E4. cbn [ip] in E4. rewrite take_ge; [by symmetry|]. rewrite length_drop, Hl. cbn. lia.
Qed.
(** The text of an onion address names that address. *)
Theorem onion_roundtrip g a useinfo : addr_ok a -> IsTor a = true -> SetSpecial NetAddr_new (ToStringIP g a useinfo) = (mkNetAddr (ip a) 0, true).
Proof.
  intros [Hl Hb] Ht. unfold ToStringIP. rewrite Ht. set (enc := EncodeBase32 (drop 6 (ip a))).
  assert (Hd : DecodeBase32 enc = (drop 6 (ip a), false)) by (apply (text_encodings_roundtrip _ false); by apply Forall_drop).
  assert (Henc : (1 <= length enc)%nat). { destruct enc eqn:E; [|cbn; lia]. assert (drop 6 (ip a) = []) as F; [cbn in Hd; congruence|]. apply (f_equal length) in F. rewrite length_drop, Hl in F. done. }
  unfold SetSpecial. rewrite length_app. change (length dot_onion) with 6%nat. replace (length enc + 6 - 6)%nat with (length enc) by lia.
  rewrite drop_app_length, take_app_length, bool_decide_true by done. rewrite (proj2 (Nat.ltb_lt _ _)) by lia. cbn [andb]. rewrite Hd. cbn [fst]. rewrite length_drop, Hl. cbn [negb Nat.sub Nat.eqb].
  do 2 f_equal. apply starts_app in Ht. cbn [length pchOnionCat] in Ht. by symmetry.
Qed.

(** The order of services is strict and total on the addresses and ports, so that the maps keyed by services tell them apart. *)
Theorem Service_lt_strict_order :
  (forall s, Service_lt s s = false) /\
  (forall s t u, Service_lt s t = true -> Service_lt t u = true -> Service_lt s u = true) /\
  (forall s t, addr_ok (netaddr s) -> addr_ok (netaddr t) -> Service_eq s t = true \/ Service_lt s t = true \/ Service_lt t s = true).
Proof.
  unfold Service_lt, Service_eq, NetAddr_lt, NetAddr_eq. split_and!.
  - intros s. by rewrite memcmp_lt_irrefl, Z.ltb_irrefl, andb_false_r.
  - intros s t u. rewrite !orb_true_iff, !andb_true_iff, !bool_decide_eq_true, !Z.ltb_lt. intros [H1|[H1 H1']] [H2|[H2 H2']].
    + left. by eapply memcmp_lt_trans.
    + left. by rewrite <- H2.
    + left. by rewrite H1.
    + right. split; [congruence|lia].
  - intros s t [Hs _] [Ht _]. rewrite !orb_true_iff, !andb_true_iff, !bool_decide_eq_true, !Z.ltb_lt, Z.eqb_eq.
    destruct (memcmp_lt_total (ip (netaddr s)) (ip (netaddr t))) as [E|[|]]; [congruence| |tauto..]. rewrite E. destruct (Z.lt_trichotomy (port s) (port t)) as [|[|]]; tauto.
Qed.
(** An address that can be reached at all is reached at least by default, and only those of the node's own kind of network are private or strong. *)
Theorem reachability_classes priv a partner :
  (GetReachabilityFrom priv a partner = REACH_UNREACHABLE <-> IsRoutable priv a = false \/ IsInternal a = true) /\
  (GetReachabilityFrom priv a partner = REACH_PRIVATE -> IsTor a = true) /\
  (GetReachabilityFrom priv a partner = REACH_IPV6_STRONG -> GetNetwork priv a = NET_IPV6 /\ IsRFC3964 a = false /\ IsRFC4380 a = false).
Proof.
  unfold GetReachabilityFrom. destruct (IsRoutable priv a) eqn:Er, (IsInternal a) eqn:Ei; cbn [negb orb]; try (split_and!; [tauto|done|done]).
  set (ours := GetExtNetwork priv (Some a)). set (theirs := GetExtNetwork priv partner).
  assert (Hours : ours = NET_TEREDO /\ IsRFC4380 a = true \/ ours = network_number (GetNetwork priv a) /\ IsRFC4380 a = false) by (unfold ours, GetExtNetwork; destruct (IsRFC4380 a); auto).
  assert (Ht : ours = 3 -> IsTor a = true).
  { destruct Hours as [[-> _]|[-> _]]; [done|]. unfold GetNetwork. rewrite Ei, Er. cbn [negb]. by destruct (IsIPv4 a), (IsTor a). }
  assert (H6 : ours = 2 -> GetNetwork priv a = NET_IPV6 /\ IsRFC4380 a = false) by (destruct Hours as [[-> _]|[-> ?]]; [done|]; by destruct (GetNetwork priv a)).
  clearbody ours theirs. clear Hours. cbn [network_number]. split_and!.
  - split; [by repeat case_match|intros [|]; done].
  - repeat case_match; try done; intros _; apply Ht; by apply Z.eqb_eq.
  - repeat case_match; try done; intros _. destruct (IsRFC3964 a); [done|]. destruct H6; [by apply Z.eqb_eq|]. done.
Qed.
