(* ===== verification/TxFormat.v ===== *)
(** The serialized form of transactions ([primitives/transaction.h], [primitives/transaction.cpp]): inputs, outputs, witnesses, the payload of special
    transactions, and the hashes of a transaction. *)

From stdpp Require Import prelude.
From Stdlib Require Import ZArith Lia.
From S2P Require Import Prelude Serialize Hashes Transaction ProTx.

Open Scope Z_scope.

(** ** Vectors of bytes and of objects *)

Definition vch_Serialize (v : list Z) : stream := WriteCompactSize (Z.of_nat (length v)) ++ v.
Definition vch_Unserialize : reader (list Z) := read_vector (ser_readdata 1).
Definition vector_Serialize {A : Type} (w : A -> stream) (l : list A) : stream := WriteCompactSize (Z.of_nat (length l)) ++ concat (map w l).

(** ** Inputs and outputs *)

Definition outpoint_Serialize (o : COutPoint) : stream := le_bytes 32 o.1 ++ ser_writedata 4 o.2.
Definition outpoint_Unserialize : reader COutPoint := fun s =>
  '(hash, s) ← ser_readdata 32 s; '(n, s) ← ser_readdata 4 s; Some ((hash, n), s).
Definition TxIn_Serialize (i : CTxIn) : stream := outpoint_Serialize (prevout i) ++ vch_Serialize (scriptSig i) ++ ser_writedata 4 (nSequence i).
Definition TxIn_Unserialize : reader CTxIn := fun s =>
  '(prevout, s) ← outpoint_Unserialize s; '(scriptSig, s) ← vch_Unserialize s; '(nSequence, s) ← ser_readdata 4 s;
  Some (mkTxIn prevout scriptSig nSequence [], s).
Definition TxOut_Serialize (o : CTxOut) : stream := ser_writedata 8 (nValue o) ++ vch_Serialize (scriptPubKey o).
Definition TxOut_Unserialize : reader CTxOut := fun s =>
  '(nValue, s) ← ser_readdata 8 s; '(scriptPubKey, s) ← vch_Unserialize s; Some (mkTxOut (s64 nValue) scriptPubKey (-10), s).

(** ** Transactions *)

Definition s16 (x : Z) : Z := swrap 16 x.

Record CMutableTransaction := mkMutable {
  m_nVersion : Z;
  m_nType : Z;
  m_vin : list CTxIn;
  m_vout : list CTxOut;
  m_nLockTime : Z;
  m_vExtraPayload : list Z
}.
Definition Mutable_of (tx : CTransaction) : CMutableTransaction :=
  mkMutable (tx_nVersion tx) (tx_nType tx) (vin tx) (vout tx) (nLockTime tx) (vExtraPayload tx).

Definition HasWitness (ins : list CTxIn) : bool := existsb (fun i => negb (bool_decide (scriptWitness i = []))) ins.
Definition n32bitVersion (m : CMutableTransaction) : Z := s32 (Z.lor (m_nVersion m) (Z.shiftl (m_nType m) 16)).
Definition has_payload (nVersion nType : Z) : bool := (nVersion =? 3) && negb (nType =? TRANSACTION_NORMAL).

Definition SerializeTransaction (fAllowWitness : bool) (m : CMutableTransaction) : stream :=
  let flags := fAllowWitness && HasWitness (m_vin m) in
  ser_writedata 4 (n32bitVersion m) ++
  (if flags then vector_Serialize TxIn_Serialize [] ++ ser_writedata 1 1 else []) ++
  vector_Serialize TxIn_Serialize (m_vin m) ++ vector_Serialize TxOut_Serialize (m_vout m) ++
  (if flags then concat (map (fun i => vector_Serialize vch_Serialize (scriptWitness i)) (m_vin m)) else []) ++
  ser_writedata 4 (m_nLockTime m) ++
  (if has_payload (m_nVersion m) (m_nType m) then vch_Serialize (m_vExtraPayload m) else []).

Definition set_witness (i : CTxIn) (stack : list (list Z)) : CTxIn := mkTxIn (prevout i) (scriptSig i) (nSequence i) stack.
Fixpoint read_witnesses (ins : list CTxIn) : reader (list CTxIn) := fun s =>
  match ins with
  | [] => Some ([], s)
  | i :: ins => '(stack, s) ← read_vector vch_Unserialize s; '(ins, s) ← read_witnesses ins s; Some (set_witness i stack :: ins, s)
  end.
(** The inputs, the outputs and the flags. *)
Definition read_inputs_outputs (fAllowWitness : bool) : reader (list CTxIn * list CTxOut * Z) := fun s =>
  '(vin, s) ← read_vector TxIn_Unserialize s;
  if (length vin =? 0)%nat && fAllowWitness then
    '(flags, s) ← ser_readdata 1 s;
    if negb (flags =? 0) then
      '(vin, s) ← read_vector TxIn_Unserialize s; '(vout, s) ← read_vector TxOut_Unserialize s; Some ((vin, vout, flags), s)
    else Some (([], [], flags), s)
  else '(vout, s) ← read_vector TxOut_Unserialize s; Some ((vin, vout, 0), s).
Definition UnserializeTransaction (fAllowWitness : bool) : reader CMutableTransaction := fun s =>
  '(n32bitVersion, s) ← ser_readdata 4 s;
  let nVersion := s16 (Z.land n32bitVersion 0xffff) in
  let nType := s16 (Z.land (Z.shiftr (s32 n32bitVersion) 16) 0xffff) in
  '(vin, vout, flags, s) ← read_inputs_outputs fAllowWitness s;
  '(vin, flags, s) ←
    (if Z.testbit flags 0 && fAllowWitness then '(vin, s) ← read_witnesses vin s; Some (vin, Z.lxor flags 1, s) else Some (vin, flags, s));
  if negb (flags =? 0) then None
  else
    '(nLockTime, s) ← ser_readdata 4 s;
    '(vExtraPayload, s) ← (if has_payload nVersion nType then vch_Unserialize s else Some ([], s));
    Some (mkMutable nVersion nType vin vout nLockTime vExtraPayload, s).

(** The hashes; [junk] is what the unset buffer of the hasher holds. *)
Definition Mutable_GetHash (junk : stream) (m : CMutableTransaction) : Z := le_value (Hash junk [SerializeTransaction false m]).
Definition Transaction_new (junk : stream) (m : CMutableTransaction) : CTransaction :=
  mkTx (Mutable_GetHash junk m) (m_nVersion m) (m_nType m) (m_vin m) (m_vout m) (m_nLockTime m) (m_vExtraPayload m).
Definition GetWitnessHash (junk : stream) (tx : CTransaction) : Z :=
  if negb (HasWitness (vin tx)) then txid tx else le_value (Hash junk [SerializeTransaction true (Mutable_of tx)]).
Definition GetTotalSize (tx : CTransaction) : Z := Z.of_nat (length (SerializeTransaction true (Mutable_of tx))).

(** ** Reading what was written *)

Definition bytes_ok (v : list Z) : Prop := Forall is_u8 v /\ Z.of_nat (length v) <= MAX_SIZE.
Definition txin_ok (i : CTxIn) : Prop :=
  0 <= (prevout i).1 < 2 ^ 256 /\ is_u32 (prevout i).2 /\ bytes_ok (scriptSig i) /\ is_u32 (nSequence i) /\
  Forall bytes_ok (scriptWitness i) /\ Z.of_nat (length (scriptWitness i)) <= MAX_SIZE.
Definition txout_ok (o : CTxOut) : Prop := is_s64 (nValue o) /\ bytes_ok (scriptPubKey o) /\ nRounds o = -10.
Record tx_ok (m : CMutableTransaction) : Prop := {
  txok_version : 0 <= m_nVersion m < 2 ^ 15;
  txok_type : - 2 ^ 15 <= m_nType m < 2 ^ 15;
  txok_vin : Forall txin_ok (m_vin m) /\ Z.of_nat (length (m_vin m)) <= MAX_SIZE;
  txok_vout : Forall txout_ok (m_vout m) /\ Z.of_nat (length (m_vout m)) <= MAX_SIZE;
  txok_locktime : is_u32 (m_nLockTime m);
  txok_payload : if has_payload (m_nVersion m) (m_nType m) then bytes_ok (m_vExtraPayload m) else m_vExtraPayload m = []
}.
Definition strip (i : CTxIn) : CTxIn := set_witness i [].
Definition strip_tx (m : CMutableTransaction) : CMutableTransaction :=
  mkMutable (m_nVersion m) (m_nType m) (map strip (m_vin m)) (m_vout m) (m_nLockTime m) (m_vExtraPayload m).

(** [w] is read back by [r], as [f] of what was written. *)
Definition reads {A B : Type} (P : A -> Prop) (w : A -> stream) (r : reader B) (f : A -> B) : Prop :=
  forall x rest, P x -> r (w x ++ rest) = Some (f x, rest).
Lemma reads_vector {A B : Type} (P : A -> Prop) (w : A -> stream) (r : reader B) (f : A -> B) :
  reads P w r f -> reads (fun l => Forall P l /\ Z.of_nat (length l) <= MAX_SIZE) (vector_Serialize w) (read_vector r) (map f).
Proof.
  intros Hr l rest [Hl Hn]. unfold read_vector, vector_Serialize. rewrite <- app_assoc, compact_size_roundtrip by lia. cbn [mbind option_bind].
  rewrite Nat2Z.id. clear Hn. induction Hl as [|x l Hx Hl IH]; [done|]. cbn [length read_n map concat]. rewrite <- app_assoc, Hr by done.
  cbn [mbind option_bind]. by rewrite IH.
Qed.
Lemma reads_vch : reads bytes_ok vch_Serialize vch_Unserialize id.
Proof.
  intros v rest Hv. assert (E : vch_Serialize v = vector_Serialize (ser_writedata 1) v).
  { unfold vch_Serialize, vector_Serialize. f_equal. destruct Hv as [Hf _]. induction Hf as [|x v Hx Hf IH]; [done|]. cbn [map concat]. rewrite <- IH.
    unfold ser_writedata. cbn [le_bytes app]. by rewrite Z.mod_small by (unfold is_u8 in Hx; lia). }
  rewrite E. unfold vch_Unserialize. rewrite (reads_vector is_u8 (ser_writedata 1) (ser_readdata 1) id); [by rewrite map_id| |exact Hv].
  intros x r Hx. unfold is_u8 in Hx. by rewrite ser_read_write by (simpl; lia).
Qed.
Definition outpoint_ok (o : COutPoint) : Prop := 0 <= o.1 < 2 ^ 256 /\ is_u32 o.2.
Lemma reads_outpoint : reads outpoint_ok outpoint_Serialize outpoint_Unserialize id.
Proof.
  intros o rest [H1 H2]. unfold outpoint_Unserialize, outpoint_Serialize, is_u32 in *. rewrite <- app_assoc. fold (ser_writedata 32%nat o.1).
  rewrite ser_read_write by (simpl; lia). cbn [mbind option_bind]. rewrite ser_read_write by (simpl; lia). by destruct o.
Qed.
Lemma reads_txin : reads txin_ok TxIn_Serialize TxIn_Unserialize strip.
Proof.
  intros i rest (H1 & H2 & H3 & H4 & _). unfold TxIn_Unserialize, TxIn_Serialize, outpoint_Unserialize, outpoint_Serialize. rewrite <- !app_assoc.
  change (le_bytes 32 (prevout i).1) with (ser_writedata 32 (prevout i).1). rewrite ser_read_write by (simpl; lia). cbn [mbind option_bind].
  unfold is_u32 in *. rewrite ser_read_write by (simpl; lia). cbn [mbind option_bind]. rewrite (reads_vch _ _ H3). cbn [mbind option_bind].
  rewrite ser_read_write by (simpl; lia). cbn [mbind option_bind]. unfold strip, set_witness. by destruct i as [[] ? ? ?].
Qed.
Lemma le_value_mod k x : le_value (le_bytes k x) = x mod 2 ^ (8 * Z.of_nat k).
Proof.
  revert x. induction k as [|k IH]; intros x; cbn [le_bytes le_value]; [by rewrite Z.mod_1_r|]. rewrite IH.
  replace (2 ^ (8 * Z.of_nat (S k))) with (256 * 2 ^ (8 * Z.of_nat k)) by (rewrite <- (Z.pow_add_r 2 8) by lia; f_equal; lia).
  pose proof (Z.pow_pos_nonneg 2 (8 * Z.of_nat k) ltac:(lia) ltac:(lia)). rewrite Z.rem_mul_r by lia. done.
Qed.
Lemma ser_read_mod k x rest : ser_readdata k (ser_writedata k x ++ rest) = Some (x mod 2 ^ (8 * Z.of_nat k), rest).
Proof.
  unfold ser_readdata, ser_writedata. rewrite <- (length_le_bytes k x) at 1. rewrite read_bytes_app. cbn [mbind option_bind]. by rewrite le_value_mod.
Qed.
Lemma swrap_mod w x : 0 < w -> - 2 ^ (w - 1) <= x < 2 ^ (w - 1) -> swrap w (x mod 2 ^ w) = x.
Proof.
  intros Hw Hx. unfold swrap. rewrite Zplus_mod_idemp_l. fold (swrap w x). by apply swrap_id.
Qed.
Lemma reads_txout : reads txout_ok TxOut_Serialize TxOut_Unserialize id.
Proof.
  intros o rest (H1 & H2 & H3). unfold TxOut_Unserialize, TxOut_Serialize. rewrite <- app_assoc, ser_read_mod. cbn [mbind option_bind].
  rewrite (reads_vch _ _ H2). cbn [mbind option_bind]. unfold s64. rewrite (swrap_mod 64) by (unfold is_s64 in H1; lia). destruct o; cbn in *. by subst.
Qed.

(** *** The first number holds the version and the type *)

Lemma version_parts v t : 0 <= v < 2 ^ 15 -> - 2 ^ 15 <= t < 2 ^ 15 ->
  let n := s32 (Z.lor v (Z.shiftl t 16)) mod 2 ^ 32 in s16 (Z.land n 0xffff) = v /\ s16 (Z.land (Z.shiftr (s32 n) 16) 0xffff) = t.
Proof.
  intros Hv Ht n. assert (E : Z.lor v (Z.shiftl t 16) = v + t * 2 ^ 16).
  { rewrite <- Z.shiftl_mul_pow2 by lia. assert (Hd : Z.land v (Z.shiftl t 16) = 0).
    { apply Z.bits_inj'. intros i Hi. rewrite Z.land_spec, Z.bits_0. destruct (decide (i < 16)); [rewrite Z.shiftl_spec_low by lia; apply andb_false_r|].
      rewrite (Z.bits_above_log2 v); [done|lia|]. destruct (decide (v = 0)) as [->|]; [cbn; lia|]. pose proof (proj1 (Z.log2_lt_pow2 v 15 ltac:(lia))). lia. }
    rewrite <- Z.lxor_lor by done. symmetry. by apply Z.add_nocarry_lxor. }
  assert (Es : s32 (Z.lor v (Z.shiftl t 16)) = v + t * 2 ^ 16) by (rewrite E; apply s32_id; unfold is_s32; lia).
  assert (En : n = (v + t * 2 ^ 16) mod 2 ^ 32) by (unfold n; by rewrite Es). rewrite En. clear n En Es E. split.
  - change 0xffff with (Z.ones 16). rewrite Z.land_ones by lia.
    rewrite Z.mod_mod_divide by (exists (2 ^ 16); done). rewrite Z_mod_plus_full. unfold s16. rewrite Z.mod_small by lia. apply swrap_id; lia.
  - unfold s32. rewrite (swrap_mod 32) by lia. rewrite Z.shiftr_div_pow2 by lia. rewrite Z_div_plus_full, Z.div_small, Z.add_0_l by lia.
    change 0xffff with (Z.ones 16). rewrite Z.land_ones by lia. unfold s16. by rewrite (swrap_mod 16) by lia.
Qed.

(** *** Transactions *)

Lemma strip_all ins : HasWitness ins = false -> map strip ins = ins.
Proof.
  induction ins as [|i ins IH]; [done|]. cbn [HasWitness existsb map]. rewrite orb_false_iff. intros [Hi Hins]. rewrite IH by done. f_equal.
  apply negb_false_iff, bool_decide_eq_true in Hi. unfold strip, set_witness. destruct i; cbn in *; by subst.
Qed.
Lemma reads_witnesses ins rest : Forall txin_ok ins ->
  read_witnesses (map strip ins) (concat (map (fun i => vector_Serialize vch_Serialize (scriptWitness i)) ins) ++ rest) = Some (ins, rest).
Proof.
  induction 1 as [|i ins Hi _ IH]; [done|]. cbn [map concat read_witnesses]. destruct Hi as (_ & _ & _ & _ & Hw).
  rewrite <- app_assoc, (reads_vector _ _ _ _ reads_vch _ _ Hw). cbn [mbind option_bind]. rewrite IH. cbn [mbind option_bind]. rewrite map_id.
  unfold strip, set_witness. by destruct i.
Qed.
Lemma reads_inputs_outputs allow ins outs rest :
  Forall txin_ok ins -> Z.of_nat (length ins) <= MAX_SIZE -> Forall txout_ok outs -> Z.of_nat (length outs) <= MAX_SIZE ->
  (ins <> [] \/ outs = [] \/ allow = false) ->
  read_inputs_outputs allow ((if allow && HasWitness ins then vector_Serialize TxIn_Serialize [] ++ ser_writedata 1 1 else []) ++
    vector_Serialize TxIn_Serialize ins ++ vector_Serialize TxOut_Serialize outs ++ rest) =
  Some ((map strip ins, outs, if allow && HasWitness ins then 1 else 0), rest).
Proof.
  intros Hi Hni Ho Hno Hne. unfold read_inputs_outputs. pose proof (reads_vector _ _ _ _ reads_txin) as Rin. pose proof (reads_vector _ _ _ _ reads_txout) as Rout.
  assert (Hm : forall o : list CTxOut, map id o = o) by (intros o; apply map_id). destruct (allow && HasWitness ins) eqn:Ew.
  - apply andb_true_iff in Ew as [-> Ew]. rewrite <- app_assoc, (Rin []) by (split; [constructor|done]). cbn [mbind option_bind map length Nat.eqb andb].
    rewrite ser_read_write by (simpl; lia). cbn [mbind option_bind Z.eqb negb]. rewrite Rin by done. cbn [mbind option_bind]. rewrite Rout by done. cbn [mbind option_bind]. by rewrite Hm.
  - rewrite app_nil_l, Rin by done. cbn [mbind option_bind]. rewrite length_map. destruct ins as [|i ins].
    + cbn [length Nat.eqb map]. destruct allow; cbn [andb].
      * destruct Hne as [|[->|]]; [done| |done]. unfold vector_Serialize. cbn [length map concat]. rewrite app_nil_r.
        change (WriteCompactSize (Z.of_nat 0)) with (ser_writedata 1 0). rewrite ser_read_write by (simpl; lia). done.
      * rewrite Rout by done. cbn [mbind option_bind]. by rewrite Hm.
    + cbn [length Nat.eqb andb]. rewrite Rout by done. cbn [mbind option_bind]. by rewrite Hm.
Qed.
Lemma reads_payload v t payload rest : (if has_payload v t then bytes_ok payload else payload = []) ->
  (if has_payload v t then vch_Unserialize ((if has_payload v t then vch_Serialize payload else []) ++ rest)
   else Some ([], (if has_payload v t then vch_Serialize payload else []) ++ rest)) = Some (payload, rest).
Proof. destruct (has_payload v t); intros Hp; [by apply reads_vch|by subst]. Qed.

Lemma transaction_reads allow m rest : tx_ok m -> (m_vin m <> [] \/ m_vout m = [] \/ allow = false) ->
  UnserializeTransaction allow (SerializeTransaction allow m ++ rest) = Some (if allow then m else strip_tx m, rest).
Proof.
  intros [Hv Ht [Hi Hni] [Ho Hno] Hl Hp] Hne. unfold UnserializeTransaction, SerializeTransaction, n32bitVersion. rewrite <- !app_assoc.
  rewrite ser_read_mod. cbn [mbind option_bind]. change (8 * Z.of_nat 4) with 32. destruct (version_parts _ _ Hv Ht) as [-> ->]. cbv zeta.
  rewrite reads_inputs_outputs by done. cbn [mbind option_bind].
  assert (Htail : forall ins rest', ('(nLockTime, s) ← ser_readdata 4 (ser_writedata 4 (m_nLockTime m) ++ (if has_payload (m_nVersion m) (m_nType m) then vch_Serialize (m_vExtraPayload m) else []) ++ rest');
    '(vExtraPayload, s) ← (if has_payload (m_nVersion m) (m_nType m) then vch_Unserialize s else Some ([], s));
    Some (mkMutable (m_nVersion m) (m_nType m) ins (m_vout m) nLockTime vExtraPayload, s)) = Some (mkMutable (m_nVersion m) (m_nType m) ins (m_vout m) (m_nLockTime m) (m_vExtraPayload m), rest')).
  { intros ins rest'. rewrite ser_read_write by (unfold is_u32 in Hl; simpl; lia). cbn [mbind option_bind]. by rewrite reads_payload. }
  destruct (allow && HasWitness (m_vin m)) eqn:Ew; cbn [Z.testbit Pos.testbit andb].
  - apply andb_true_iff in Ew as [-> Ew]. rewrite reads_witnesses by done. cbn [mbind option_bind]. change (Z.lxor 1 1) with 0. cbn [Z.eqb negb]. etransitivity; [exact (Htail _ _)|]. by destruct m.
  - cbn [mbind option_bind Z.eqb negb]. rewrite app_nil_l. etransitivity; [exact (Htail _ _)|]. destruct allow; [|done]. cbn [andb] in Ew. rewrite strip_all by done. by destruct m.
Qed.

(** C21. A transaction is read back from its serialized form exactly, with its witnesses where they are allowed and without them where they are not, and
    the reader stops at its end. The exceptions are negative versions and, where witnesses are allowed, transactions with outputs but no inputs. *)
Theorem transaction_roundtrip allow m rest : tx_ok m -> (m_vin m <> [] \/ m_vout m = [] \/ allow = false) ->
  UnserializeTransaction allow (SerializeTransaction allow m ++ rest) = Some (if allow then m else strip_tx m, rest).
Proof. apply transaction_reads. Qed.

(** Equal serialized forms without witnesses are equal transactions, up to the witnesses. *)
Lemma SerializeTransaction_inj m m' : tx_ok m -> tx_ok m' -> SerializeTransaction false m = SerializeTransaction false m' -> strip_tx m = strip_tx m'.
Proof.
  intros Hm Hm' E. pose proof (transaction_reads false m [] Hm ltac:(by right; right)) as R. rewrite E, (transaction_reads false m' [] Hm') in R by (by right; right).
  apply (inj Some) in R. by apply (f_equal fst) in R.
Qed.

(** The type of a transaction with a negative version gets lost: the bits of the sign cover it. *)
Theorem negative_version_hides_type v t t' ins outs lock payload : - 2 ^ 15 <= v < 0 -> - 2 ^ 15 <= t < 2 ^ 15 -> - 2 ^ 15 <= t' < 2 ^ 15 ->
  SerializeTransaction false (mkMutable v t ins outs lock payload) = SerializeTransaction false (mkMutable v t' ins outs lock payload).
Proof.
  intros Hv Ht Ht'. unfold SerializeTransaction, n32bitVersion, has_payload. cbn [m_nVersion m_nType m_vin m_vout m_nLockTime m_vExtraPayload andb].
  rewrite (proj2 (Z.eqb_neq v 3)) by lia. assert (E : forall u, - 2 ^ 15 <= u < 2 ^ 15 -> s32 (Z.lor v (Z.shiftl u 16)) = v); [|by rewrite !E by done].
  intros u Hu. assert (El : Z.lor v (Z.shiftl u 16) = v); [|rewrite El; apply s32_id; unfold is_s32; lia].
  apply Z.bits_inj'. intros i Hi. rewrite Z.lor_spec. destruct (decide (i < 16)); [rewrite Z.shiftl_spec_low by lia; apply orb_false_r|].
  assert (Z.testbit v i = true) as ->; [|done]. rewrite Z.bits_above_log2_neg; [done|lia|].
  assert (Z.log2 (Z.pred (- v)) < 15); [|lia]. destruct (decide (Z.pred (- v) = 0)) as [->|]; [cbn; lia|]. apply Z.log2_lt_pow2; lia.
Qed.

(** A payment with a witness, and a special transaction with a payload. *)
Module TxSample.
Definition spend : CMutableTransaction :=
  mkMutable 2 0 [mkTxIn (17, 1) [81] 0xfffffffe [[1; 2]; []]; mkTxIn (19, 0) [] 5 []] [mkTxOut 1000 [118; 169] (-10)] 77 [].
Definition special : CMutableTransaction := mkMutable 3 1 [mkTxIn (17, 1) [81] 0xffffffff []] [] 0 [9; 9; 9].
End TxSample.
Lemma sample_spend_ok : tx_ok TxSample.spend.
Proof. split; cbn; repeat (constructor || done); unfold is_u8, is_u32, is_s64, MAX_SIZE; cbn; lia || done. Qed.
Lemma sample_special_ok : tx_ok TxSample.special.
Proof. split; cbn; repeat (constructor || done); unfold is_u8, is_u32, is_s64, MAX_SIZE; cbn; lia || done. Qed.
Lemma transaction_roundtrip_witness :
  UnserializeTransaction true (SerializeTransaction true TxSample.spend ++ [7]) = Some (TxSample.spend, [7]) /\
  UnserializeTransaction false (SerializeTransaction false TxSample.special) = Some (TxSample.special, []) /\ length (SerializeTransaction false TxSample.special) = 56%nat.
Proof.
  split_and!.
  - exact (transaction_roundtrip true TxSample.spend [7] sample_spend_ok ltac:(by left)).
  - rewrite <- (app_nil_r (SerializeTransaction false TxSample.special)).
    exact (transaction_roundtrip false TxSample.special [] sample_special_ok ltac:(by left)).
  - reflexivity.
Defined.
