(* ===== verification/ProTxFormat.v ===== *)
(** The payloads of special transactions as bytes ([evo/providertx.h], [evo/cbtx.h], [llmq/quorums_commitment.h], the bit sets of [serialize.h], the wrapper of
    [bls/bls.h]): [GetTxPayload], [SetTxPayload] and the hashes that are signed. *)

From stdpp Require Import prelude.
From Stdlib Require Import ZArith Lia.
From S2P Require Import Prelude Serialize Hasher Sha256 Hashes NetAddress Transaction ProTx TxFormat.

Open Scope Z_scope.

(** ** Services as numbers *)

Definition service_of (a : CService) : NetAddress.CService := mkService (mkNetAddr (be_bytes 16 (a / 2 ^ 16)) 0) (a mod 2 ^ 16).
Definition number_of (s : NetAddress.CService) : CService := be_value (ip (netaddr s)) * 2 ^ 16 + port s.
Definition addr_Serialize (a : CService) : stream := Service_Serialize (service_of a).
Definition addr_Unserialize : reader CService := fun s => '(v, s) ← Service_Unserialize 0 s; Some (number_of v, s).

(** ** Keys and signatures of the BLS library *)

(** [InternalSetBuf] and [InternalGetBuf] of keys and signatures, which call the library. A signature is given by the bytes the library writes for it. *)
Class BLSLibrary := {
  key_InternalSetBuf : list Z -> option CBLSPublicKey;
  key_InternalGetBuf : CBLSPublicKey -> list Z;
  sig_InternalSetBuf : list Z -> option (list Z)
}.
(** What the library yields can be written and is read back; no object is written as zeros. *)
Class BLSLibrarySpec `{BLSLibrary} := {
  key_written : forall buf k, key_InternalSetBuf buf = Some k ->
    BLS_IsValid k = true /\ length (key_InternalGetBuf k) = 48%nat /\ key_InternalGetBuf k <> replicate 48 0 /\ key_InternalSetBuf (key_InternalGetBuf k) = Some k;
  sig_written : forall buf g, sig_InternalSetBuf buf = Some g -> length g = 96%nat /\ g <> replicate 96 0 /\ sig_InternalSetBuf g = Some g
}.

Section Formats.
Context `{BLSLibrary}.

Definition Key_GetBuf (k : CBLSPublicKey) : list Z := if negb (BLS_IsValid k) then replicate 48 0 else key_InternalGetBuf k.
Definition Key_SetBuf (buf : list Z) : CBLSPublicKey :=
  if bool_decide (buf = replicate 48 0) then CBLSPublicKey_null else default CBLSPublicKey_null (key_InternalSetBuf buf).
Definition Key_Unserialize : reader CBLSPublicKey := fun s =>
  '(buf, s) ← read_bytes 48 s;
  let k := Key_SetBuf buf in
  if negb (bool_decide (buf = Key_GetBuf k)) then None else Some (k, s).
Definition Sig_GetBuf (g : CBLSSignature) : list Z := default (replicate 96 0) g.
Definition Sig_SetBuf (buf : list Z) : CBLSSignature := if bool_decide (buf = replicate 96 0) then None else sig_InternalSetBuf buf.
Definition Sig_Unserialize : reader CBLSSignature := fun s =>
  '(buf, s) ← read_bytes 96 s;
  let g := Sig_SetBuf buf in
  if negb (bool_decide (buf = Sig_GetBuf g)) then None else Some (g, s).

(** ** Bit sets *)

(** A byte from its bits, the lowest first; there are at most eight. *)
Definition byte_of (bs : list bool) : Z := foldr (fun b v => Z.b2z b + 2 * v) 0 bs.
Definition bitset_bytes (n : nat) : nat := ((n + 7) / 8)%nat.
Definition FixedBitSet_Serialize (vec : list bool) : stream := map (fun j => byte_of (take 8 (drop (8 * j) vec))) (seq 0 (bitset_bytes (length vec))).
Definition FixedBitSet_Unserialize (size : nat) : reader (list bool) := fun s =>
  '(vBytes, s) ← read_bytes (bitset_bytes size) s;
  let vec := map (fun p => Z.testbit (nth (p / 8) vBytes 0) (Z.of_nat (p mod 8))) (seq 0 size) in
  if negb (length vBytes * 8 =? size)%nat then
    let rem := Z.of_nat (length vBytes * 8 - size) in
    let m := 255 - Z.shiftr 0xff rem in
    if negb (Z.land (List.last vBytes 0) m =? 0) then None else Some (vec, s)
  else Some (vec, s).
Definition DynamicBitSet_Serialize (vec : list bool) : stream := WriteCompactSize (Z.of_nat (length vec)) ++ FixedBitSet_Serialize vec.
Definition DynamicBitSet_Unserialize : reader (list bool) := fun s =>
  '(n, s) ← ReadCompactSize s; FixedBitSet_Unserialize (Z.to_nat n) s.

(** ** Payloads *)

Definition ProRegTx_fields (p : CProRegTx) : stream :=
  ser_writedata 2 (reg_nVersion p) ++ ser_writedata 2 (reg_nType p) ++ ser_writedata 2 (reg_nMode p) ++ outpoint_Serialize (reg_collateralOutpoint p) ++
  addr_Serialize (reg_addr p) ++ reg_keyIDOwner p ++ Key_GetBuf (reg_pubKeyOperator p) ++ reg_keyIDVoting p ++ ser_writedata 2 (reg_nOperatorReward p) ++
  vch_Serialize (reg_scriptPayout p) ++ le_bytes 32 (reg_inputsHash p).
Definition ProRegTx_Serialize (p : CProRegTx) : stream := ProRegTx_fields p ++ vch_Serialize (reg_vchSig p).
Definition ProRegTx_Unserialize : reader CProRegTx := fun s =>
  '(nVersion, s) ← ser_readdata 2 s; '(nType, s) ← ser_readdata 2 s; '(nMode, s) ← ser_readdata 2 s; '(collateralOutpoint, s) ← outpoint_Unserialize s;
  '(addr, s) ← addr_Unserialize s; '(keyIDOwner, s) ← read_bytes 20 s; '(pubKeyOperator, s) ← Key_Unserialize s; '(keyIDVoting, s) ← read_bytes 20 s;
  '(nOperatorReward, s) ← ser_readdata 2 s; '(scriptPayout, s) ← vch_Unserialize s; '(inputsHash, s) ← ser_readdata 32 s; '(vchSig, s) ← vch_Unserialize s;
  Some (mkProReg nVersion nType nMode collateralOutpoint addr keyIDOwner pubKeyOperator keyIDVoting nOperatorReward scriptPayout inputsHash vchSig, s).

Definition ProUpServTx_fields (p : CProUpServTx) : stream :=
  ser_writedata 2 (serv_nVersion p) ++ le_bytes 32 (serv_proTxHash p) ++ addr_Serialize (serv_addr p) ++ vch_Serialize (serv_scriptOperatorPayout p) ++
  le_bytes 32 (serv_inputsHash p).
Definition ProUpServTx_Serialize (p : CProUpServTx) : stream := ProUpServTx_fields p ++ Sig_GetBuf (serv_sig p).
Definition ProUpServTx_Unserialize : reader CProUpServTx := fun s =>
  '(nVersion, s) ← ser_readdata 2 s; '(proTxHash, s) ← ser_readdata 32 s; '(addr, s) ← addr_Unserialize s; '(scriptOperatorPayout, s) ← vch_Unserialize s;
  '(inputsHash, s) ← ser_readdata 32 s; '(sig, s) ← Sig_Unserialize s;
  Some (mkProUpServ nVersion proTxHash addr scriptOperatorPayout inputsHash sig, s).

Definition ProUpRegTx_fields (p : CProUpRegTx) : stream :=
  ser_writedata 2 (upreg_nVersion p) ++ le_bytes 32 (upreg_proTxHash p) ++ ser_writedata 2 (upreg_nMode p) ++ Key_GetBuf (upreg_pubKeyOperator p) ++
  upreg_keyIDVoting p ++ vch_Serialize (upreg_scriptPayout p) ++ le_bytes 32 (upreg_inputsHash p).
Definition ProUpRegTx_Serialize (p : CProUpRegTx) : stream := ProUpRegTx_fields p ++ vch_Serialize (upreg_vchSig p).
Definition ProUpRegTx_Unserialize : reader CProUpRegTx := fun s =>
  '(nVersion, s) ← ser_readdata 2 s; '(proTxHash, s) ← ser_readdata 32 s; '(nMode, s) ← ser_readdata 2 s; '(pubKeyOperator, s) ← Key_Unserialize s;
  '(keyIDVoting, s) ← read_bytes 20 s; '(scriptPayout, s) ← vch_Unserialize s; '(inputsHash, s) ← ser_readdata 32 s; '(vchSig, s) ← vch_Unserialize s;
  Some (mkProUpReg nVersion proTxHash nMode pubKeyOperator keyIDVoting scriptPayout inputsHash vchSig, s).

Definition ProUpRevTx_fields (p : CProUpRevTx) : stream :=
  ser_writedata 2 (rev_nVersion p) ++ le_bytes 32 (rev_proTxHash p) ++ ser_writedata 2 (rev_nReason p) ++ le_bytes 32 (rev_inputsHash p).
Definition ProUpRevTx_Serialize (p : CProUpRevTx) : stream := ProUpRevTx_fields p ++ Sig_GetBuf (rev_sig p).
Definition ProUpRevTx_Unserialize : reader CProUpRevTx := fun s =>
  '(nVersion, s) ← ser_readdata 2 s; '(proTxHash, s) ← ser_readdata 32 s; '(nReason, s) ← ser_readdata 2 s; '(inputsHash, s) ← ser_readdata 32 s;
  '(sig, s) ← Sig_Unserialize s; Some (mkProUpRev nVersion proTxHash nReason inputsHash sig, s).

Definition FinalCommitment_Serialize (c : CFinalCommitment) : stream :=
  ser_writedata 2 (fc_nVersion c) ++ ser_writedata 1 (fc_llmqType c) ++ le_bytes 32 (fc_quorumHash c) ++ DynamicBitSet_Serialize (fc_signers c) ++
  DynamicBitSet_Serialize (fc_validMembers c) ++ Key_GetBuf (fc_quorumPublicKey c) ++ le_bytes 32 (fc_quorumVvecHash c) ++ Sig_GetBuf (fc_quorumSig c) ++
  Sig_GetBuf (fc_membersSig c).
Definition FinalCommitment_Unserialize : reader CFinalCommitment := fun s =>
  '(nVersion, s) ← ser_readdata 2 s; '(llmqType, s) ← ser_readdata 1 s; '(quorumHash, s) ← ser_readdata 32 s; '(signers, s) ← DynamicBitSet_Unserialize s;
  '(validMembers, s) ← DynamicBitSet_Unserialize s; '(quorumPublicKey, s) ← Key_Unserialize s; '(quorumVvecHash, s) ← ser_readdata 32 s;
  '(quorumSig, s) ← Sig_Unserialize s; '(membersSig, s) ← Sig_Unserialize s;
  Some (mkFinalCommitment nVersion llmqType quorumHash signers validMembers quorumPublicKey quorumVvecHash quorumSig membersSig, s).
Definition CommitmentPayload_Serialize (p : CFinalCommitmentTxPayload) : stream :=
  ser_writedata 2 (qc_nVersion p) ++ ser_writedata 4 (qc_nHeight p) ++ FinalCommitment_Serialize (commitment p).
Definition CommitmentPayload_Unserialize : reader CFinalCommitmentTxPayload := fun s =>
  '(nVersion, s) ← ser_readdata 2 s; '(nHeight, s) ← ser_readdata 4 s; '(c, s) ← FinalCommitment_Unserialize s; Some (mkCommitment nVersion nHeight c, s).

(** The payload of a coinbase. The root of the quorums is left as it is, null, in the first version. *)
Record CCbTx := mkCbTx { cb_nVersion : Z; cb_nHeight : Z; merkleRootMNList : Z; merkleRootQuorums : Z }.
Definition CbTx_Serialize (c : CCbTx) : stream :=
  ser_writedata 2 (cb_nVersion c) ++ ser_writedata 4 (cb_nHeight c) ++ le_bytes 32 (merkleRootMNList c) ++
  (if 2 <=? cb_nVersion c then le_bytes 32 (merkleRootQuorums c) else []).
Definition CbTx_Unserialize : reader CCbTx := fun s =>
  '(nVersion, s) ← ser_readdata 2 s; '(nHeight, s) ← ser_readdata 4 s; '(mnlist, s) ← ser_readdata 32 s;
  '(quorums, s) ← (if 2 <=? nVersion then ser_readdata 32 s else Some (0, s)); Some (mkCbTx nVersion (s32 nHeight) mnlist quorums, s).

(** ** [GetTxPayload] *)

Definition GetTxPayload {A : Type} (r : reader A) (payload : list Z) : option A :=
  match r payload with Some (obj, []) => Some obj | _ => None end.
Definition SetTxPayload {A : Type} (w : A -> stream) (tx : CMutableTransaction) (obj : A) : CMutableTransaction :=
  mkMutable (m_nVersion tx) (m_nType tx) (m_vin tx) (m_vout tx) (m_nLockTime tx) (w obj).
#[export] Instance payloads : SpecialTxs := {|
  GetProRegTx := fun tx => GetTxPayload ProRegTx_Unserialize (vExtraPayload tx);
  GetProUpServTx := fun tx => GetTxPayload ProUpServTx_Unserialize (vExtraPayload tx);
  GetProUpRegTx := fun tx => GetTxPayload ProUpRegTx_Unserialize (vExtraPayload tx);
  GetProUpRevTx := fun tx => GetTxPayload ProUpRevTx_Unserialize (vExtraPayload tx);
  GetQuorumCommitment := fun tx => GetTxPayload CommitmentPayload_Unserialize (vExtraPayload tx)
|}.
Definition GetCbTx (tx : CTransaction) : option CCbTx := GetTxPayload CbTx_Unserialize (vExtraPayload tx).

(** The hash of the inputs; [junk] is what the unset buffer of the hasher holds. *)
Definition CalcTxInputsHash (junk : stream) (tx : CTransaction) : Z := le_value (Hash junk (map (fun i => outpoint_Serialize (prevout i)) (vin tx))).
End Formats.

(** ** Reading what was written *)

Section Reading.
Context `{BLSLibrarySpec}.

Definition key_ok (k : CBLSPublicKey) : Prop := k = CBLSPublicKey_null \/ exists buf, key_InternalSetBuf buf = Some k.
Definition sig_ok (g : CBLSSignature) : Prop := match g with None => True | Some b => exists buf, sig_InternalSetBuf buf = Some b end.
Definition bits_ok (vec : list bool) : Prop := Z.of_nat (length vec) <= MAX_SIZE.
Definition is_u16 (x : Z) : Prop := 0 <= x < 2 ^ 16.
Definition is_u256 (x : Z) : Prop := 0 <= x < 2 ^ 256.
Definition addr_num_ok (a : CService) : Prop := 0 <= a < 2 ^ 144.
Definition keyid_ok (k : keyid) : Prop := length k = 20%nat.

Lemma reads_u16 : reads is_u16 (ser_writedata 2) (ser_readdata 2) id.
Proof. intros x rest Hx. by rewrite ser_read_write by (unfold is_u16 in Hx; simpl; lia). Qed.
Lemma reads_u8 : reads is_u8 (ser_writedata 1) (ser_readdata 1) id.
Proof. intros x rest Hx. by rewrite ser_read_write by (unfold is_u8 in Hx; simpl; lia). Qed.
Lemma reads_u32 : reads is_u32 (ser_writedata 4) (ser_readdata 4) id.
Proof. intros x rest Hx. by rewrite ser_read_write by (unfold is_u32 in Hx; simpl; lia). Qed.
Lemma reads_u256 : reads is_u256 (le_bytes 32) (ser_readdata 32) id.
Proof. intros x rest Hx. change (le_bytes 32 x) with (ser_writedata 32 x). by rewrite ser_read_write by (unfold is_u256 in Hx; simpl; lia). Qed.
Lemma reads_raw n v rest : length v = n -> read_bytes n (v ++ rest) = Some (v, rest).
Proof. intros <-. apply read_bytes_app. Qed.

Lemma addr_parts a : addr_num_ok a -> 0 <= a / 2 ^ 16 < 2 ^ 128 /\ 0 <= a mod 2 ^ 16 < 2 ^ 16.
Proof.
  unfold addr_num_ok. intros Ha. pose proof (Z.mod_pos_bound a (2 ^ 16) ltac:(lia)). split; [|lia].
  split; [apply Z.div_pos; lia|]. apply Z.div_lt_upper_bound; [lia|]. change (2 ^ 16 * 2 ^ 128) with (2 ^ 144). lia.
Qed.
Lemma number_of_service a : addr_num_ok a -> number_of (service_of a) = a.
Proof.
  intros Ha. destruct (addr_parts a Ha) as [H1 H2]. unfold number_of, service_of. cbn [netaddr ip port]. rewrite SHA256.be_value_bytes by exact H1.
  pose proof (Z.div_mod a (2 ^ 16) ltac:(lia)). lia.
Qed.
Lemma reads_addr : reads addr_num_ok addr_Serialize addr_Unserialize id.
Proof.
  intros a rest Ha. destruct (addr_parts a Ha) as [H1 H2]. unfold addr_Unserialize, addr_Serialize, Service_Unserialize, Service_Serialize, service_of. cbn [netaddr ip port].
  rewrite <- app_assoc, (reads_raw 16) by (unfold be_bytes; by rewrite length_rev, length_le_bytes). cbn [mbind option_bind].
  rewrite ser_read_write by (apply htons_range; lia). cbn [mbind option_bind]. rewrite htons_htons by lia. cbn [mbind option_bind]. f_equal. f_equal. by apply number_of_service.
Qed.

Lemma Key_SetBuf_GetBuf k : key_ok k -> length (Key_GetBuf k) = 48%nat /\ Key_SetBuf (Key_GetBuf k) = k.
Proof.
  intros [->|[buf Hk]]; [split; [done|]; unfold Key_GetBuf; cbn [BLS_IsValid negb Z.eqb]; unfold Key_SetBuf; by rewrite bool_decide_eq_true_2|].
  destruct (key_written buf k Hk) as (Hv & Hlen & Hne & Hset). unfold Key_GetBuf. rewrite Hv. cbn [negb]. split; [done|].
  unfold Key_SetBuf. rewrite bool_decide_eq_false_2 by done. by rewrite Hset.
Qed.
Lemma reads_key : reads key_ok Key_GetBuf Key_Unserialize id.
Proof.
  intros k rest Hk. destruct (Key_SetBuf_GetBuf k Hk) as [Hl Hs]. unfold Key_Unserialize. rewrite (reads_raw 48 _ _ Hl). cbn [mbind option_bind]. unfold id. rewrite Hs.
  by rewrite bool_decide_eq_true_2.
Qed.
Lemma reads_sig : reads sig_ok Sig_GetBuf Sig_Unserialize id.
Proof.
  intros g rest Hg. assert (Hl : length (Sig_GetBuf g) = 96%nat /\ Sig_SetBuf (Sig_GetBuf g) = g).
  { destruct g as [b|]; [|split; [done|]; unfold Sig_SetBuf; by rewrite bool_decide_eq_true_2]. destruct Hg as [buf Hg]. destruct (sig_written buf b Hg) as (Hl & Hne & Hset).
    split; [done|]. unfold Sig_SetBuf. cbn [Sig_GetBuf default from_option]. by rewrite bool_decide_eq_false_2. }
  destruct Hl as [Hl Hs]. unfold Sig_Unserialize. rewrite (reads_raw 96 _ _ Hl). cbn [mbind option_bind]. unfold id. rewrite Hs. by rewrite bool_decide_eq_true_2.
Qed.

(** *** Bit sets *)

Lemma byte_of_bit bs i : Z.testbit (byte_of bs) (Z.of_nat i) = nth i bs false.
Proof.
  revert i. induction bs as [|b bs IH]; intros i; [destruct i; apply Z.bits_0|]. cbn [byte_of foldr]. destruct i as [|i].
  - change (Z.of_nat 0) with 0. rewrite Z.bit0_odd, Z.odd_add, Z.odd_mul. cbn. by destruct b.
  - rewrite Nat2Z.inj_succ, Z.add_comm.  cbn [nth]. rewrite <- IH.
    destruct b; cbn [Z.b2z]; [apply Z.testbit_odd_succ; lia|rewrite Z.add_0_r; apply Z.testbit_even_succ; lia].
Qed.
Lemma byte_of_range bs : 0 <= byte_of bs < 2 ^ Z.of_nat (length bs).
Proof.
  induction bs as [|b bs IH]; [cbn; lia|]. cbn [byte_of foldr length]. rewrite Nat2Z.inj_succ, Z.pow_succ_r by lia. fold (byte_of bs). destruct b; cbn [Z.b2z]; lia.
Qed.
Lemma bitset_bytes_spec n : (n <= 8 * bitset_bytes n < n + 8)%nat.
Proof. unfold bitset_bytes. pose proof (Nat.div_mod (n + 7) 8 ltac:(lia)). pose proof (Nat.mod_upper_bound (n + 7) 8 ltac:(lia)). lia. Qed.
Lemma bitset_bit vec p : (p < length vec)%nat -> Z.testbit (nth (p / 8) (FixedBitSet_Serialize vec) 0) (Z.of_nat (p mod 8)) = nth p vec false.
Proof.
  intros Hp. pose proof (bitset_bytes_spec (length vec)) as Hb. pose proof (Nat.div_mod p 8 ltac:(lia)) as Hd. pose proof (Nat.mod_upper_bound p 8 ltac:(lia)) as Hm.
  unfold FixedBitSet_Serialize. rewrite nth_indep with (d' := byte_of (take 8 (drop (8 * 0) vec))) by (rewrite length_map, length_seq; lia).
  rewrite (map_nth (fun j => byte_of (take 8 (drop (8 * j) vec)))), seq_nth by lia. rewrite Nat.add_0_l, byte_of_bit.
  rewrite !nth_lookup, lookup_take_lt, lookup_drop by lia. do 2 f_equal. lia.
Qed.
Lemma length_FixedBitSet vec : length (FixedBitSet_Serialize vec) = bitset_bytes (length vec).
Proof. unfold FixedBitSet_Serialize. by rewrite length_map, length_seq. Qed.
Lemma bitset_last vec : (bitset_bytes (length vec) * 8 =? length vec)%nat = false ->
  Z.land (List.last (FixedBitSet_Serialize vec) 0) (255 - Z.shiftr 0xff (Z.of_nat (bitset_bytes (length vec) * 8 - length vec))) = 0.
Proof.
  intros Hne%Nat.eqb_neq. pose proof (bitset_bytes_spec (length vec)) as Hb. set (n := length vec) in *. set (k := bitset_bytes n) in *.
  assert (Hk : k = S (k - 1)) by lia. unfold FixedBitSet_Serialize. fold n k. rewrite Hk, seq_S, map_app. cbn [map]. rewrite last_last, Nat.add_0_l.
  set (bs := take 8 _). assert (Hlen : length bs = (n - 8 * (k - 1))%nat) by (unfold bs; rewrite length_take, length_drop; fold n; lia).
  assert (Hr : exists r, (r = n - 8 * (k - 1) /\ 0 < r < 8)%nat) by (exists (n - 8 * (k - 1))%nat; lia). destruct Hr as (r & Hr & Hr8).
  rewrite <- Hr in Hlen. replace (Z.of_nat (S (k - 1) * 8 - n)) with (8 - Z.of_nat r) by lia.
  pose proof (byte_of_range bs) as Hrange. rewrite Hlen in Hrange. clearbody bs. clear -Hr8 Hrange.
  assert (E : 255 - Z.shiftr 255 (8 - Z.of_nat r) = Z.shiftl (Z.ones (8 - Z.of_nat r)) (Z.of_nat r)).
  { clear Hrange. do 8 (destruct r as [|r]; [try lia; reflexivity|]). lia. }
  rewrite E. apply Z.bits_inj'. intros i Hi. rewrite Z.land_spec, Z.bits_0. destruct (decide (i < Z.of_nat r)).
  - rewrite Z.shiftl_spec_low by lia. apply andb_false_r.
  - rewrite (Z.bits_above_log2 (byte_of bs)); [done|lia|]. destruct (decide (byte_of bs = 0)) as [->|]; [cbn; lia|].
    assert (Z.log2 (byte_of bs) < Z.of_nat r) by (apply Z.log2_lt_pow2; lia). lia.
Qed.
Lemma reads_bitset : reads bits_ok DynamicBitSet_Serialize DynamicBitSet_Unserialize id.
Proof.
  intros vec rest Hv. unfold DynamicBitSet_Unserialize, DynamicBitSet_Serialize. rewrite <- app_assoc, compact_size_roundtrip by (unfold bits_ok in Hv; lia).
  cbn [mbind option_bind]. rewrite Nat2Z.id. unfold FixedBitSet_Unserialize. rewrite reads_raw by apply length_FixedBitSet. cbn [mbind option_bind].
  assert (E : map (fun p => Z.testbit (nth (p / 8) (FixedBitSet_Serialize vec) 0) (Z.of_nat (p mod 8))) (seq 0 (length vec)) = vec).
  { apply list_eq. intros p. change (map ?f ?l) with (f <$> l). rewrite list_lookup_fmap. destruct (decide (p < length vec)%nat) as [Hp|Hp].
    - rewrite (lookup_seq_lt 0 (length vec) p Hp). cbn [fmap option_fmap option_map Nat.add]. rewrite bitset_bit by done. destruct (lookup_lt_is_Some_2 vec p Hp) as [b Hb].
      by rewrite nth_lookup, Hb.
    - rewrite lookup_seq_ge by lia. by rewrite lookup_ge_None_2 by lia. }
  rewrite E, length_FixedBitSet. cbv zeta. destruct (_ =? _)%nat eqn:En; [done|]. cbn [negb]. by rewrite bitset_last.
Qed.

(** *** Payloads *)

Record proreg_ok (p : CProRegTx) : Prop := {
  regok_numbers : is_u16 (reg_nVersion p) /\ is_u16 (reg_nType p) /\ is_u16 (reg_nMode p) /\ is_u16 (reg_nOperatorReward p) /\ is_u256 (reg_inputsHash p);
  regok_collateral : outpoint_ok (reg_collateralOutpoint p);
  regok_addr : addr_num_ok (reg_addr p);
  regok_keys : keyid_ok (reg_keyIDOwner p) /\ key_ok (reg_pubKeyOperator p) /\ keyid_ok (reg_keyIDVoting p);
  regok_bytes : bytes_ok (reg_scriptPayout p) /\ bytes_ok (reg_vchSig p)
}.
Definition proupserv_ok (p : CProUpServTx) : Prop :=
  is_u16 (serv_nVersion p) /\ is_u256 (serv_proTxHash p) /\ addr_num_ok (serv_addr p) /\ bytes_ok (serv_scriptOperatorPayout p) /\ is_u256 (serv_inputsHash p) /\ sig_ok (serv_sig p).
Definition proupreg_ok (p : CProUpRegTx) : Prop :=
  is_u16 (upreg_nVersion p) /\ is_u256 (upreg_proTxHash p) /\ is_u16 (upreg_nMode p) /\ key_ok (upreg_pubKeyOperator p) /\ keyid_ok (upreg_keyIDVoting p) /\
  bytes_ok (upreg_scriptPayout p) /\ is_u256 (upreg_inputsHash p) /\ bytes_ok (upreg_vchSig p).
Definition prouprev_ok (p : CProUpRevTx) : Prop :=
  is_u16 (rev_nVersion p) /\ is_u256 (rev_proTxHash p) /\ is_u16 (rev_nReason p) /\ is_u256 (rev_inputsHash p) /\ sig_ok (rev_sig p).
Definition commitment_ok (p : CFinalCommitmentTxPayload) : Prop :=
  let c := commitment p in
  is_u16 (qc_nVersion p) /\ is_u32 (qc_nHeight p) /\ is_u16 (fc_nVersion c) /\ is_u8 (fc_llmqType c) /\ is_u256 (fc_quorumHash c) /\ bits_ok (fc_signers c) /\
  bits_ok (fc_validMembers c) /\ key_ok (fc_quorumPublicKey c) /\ is_u256 (fc_quorumVvecHash c) /\ sig_ok (fc_quorumSig c) /\ sig_ok (fc_membersSig c).
Definition cbtx_ok (c : CCbTx) : Prop :=
  is_u16 (cb_nVersion c) /\ is_s32 (cb_nHeight c) /\ is_u256 (merkleRootMNList c) /\ is_u256 (merkleRootQuorums c) /\ (cb_nVersion c < 2 -> merkleRootQuorums c = 0).

(** Reads the next field. *)
Ltac read_field :=
  first [rewrite reads_u16 by done | rewrite reads_u256 by done | rewrite reads_u32 by done | rewrite reads_u8 by done | rewrite reads_outpoint by done |
         rewrite reads_addr by done | rewrite reads_key by done | rewrite reads_sig by done | rewrite reads_bitset by done | rewrite reads_vch by done |
         rewrite (reads_raw 20) by done]; cbn [mbind option_bind].

Lemma reads_proreg : reads proreg_ok ProRegTx_Serialize ProRegTx_Unserialize id.
Proof.
  intros p rest [(? & ? & ? & ? & ?) ? ? (? & ? & ?) (? & ?)]. unfold ProRegTx_Unserialize, ProRegTx_Serialize, ProRegTx_fields. rewrite <- !app_assoc.
  repeat read_field. by destruct p.
Qed.
Lemma reads_proupserv : reads proupserv_ok ProUpServTx_Serialize ProUpServTx_Unserialize id.
Proof.
  intros p rest (? & ? & ? & ? & ? & ?). unfold ProUpServTx_Unserialize, ProUpServTx_Serialize, ProUpServTx_fields. rewrite <- !app_assoc. repeat read_field. by destruct p.
Qed.
Lemma reads_proupreg : reads proupreg_ok ProUpRegTx_Serialize ProUpRegTx_Unserialize id.
Proof.
  intros p rest (? & ? & ? & ? & ? & ? & ? & ?). unfold ProUpRegTx_Unserialize, ProUpRegTx_Serialize, ProUpRegTx_fields. rewrite <- !app_assoc. repeat read_field. by destruct p.
Qed.
Lemma reads_prouprev : reads prouprev_ok ProUpRevTx_Serialize ProUpRevTx_Unserialize id.
Proof.
  intros p rest (? & ? & ? & ? & ?). unfold ProUpRevTx_Unserialize, ProUpRevTx_Serialize, ProUpRevTx_fields. rewrite <- !app_assoc. repeat read_field. by destruct p.
Qed.
Lemma reads_commitment : reads commitment_ok CommitmentPayload_Serialize CommitmentPayload_Unserialize id.
Proof.
  intros p rest (? & ? & ? & ? & ? & ? & ? & ? & ? & ? & ?). unfold CommitmentPayload_Unserialize, CommitmentPayload_Serialize, FinalCommitment_Unserialize, FinalCommitment_Serialize.
  rewrite <- !app_assoc. repeat read_field. unfold id. by destruct p as [? ? []].
Qed.
Lemma reads_cbtx : reads cbtx_ok CbTx_Serialize CbTx_Unserialize id.
Proof.
  intros c rest (? & Hh & ? & ? & Hnull). unfold CbTx_Unserialize, CbTx_Serialize. rewrite <- !app_assoc. read_field. rewrite ser_read_mod. cbn [mbind option_bind]. read_field.
  unfold id, s32. rewrite (swrap_mod 32) by (unfold is_s32 in Hh; lia). destruct (Z.leb_spec 2 (cb_nVersion c)); [read_field; by destruct c|].
  cbn [mbind option_bind app]. rewrite <- (Hnull ltac:(lia)). by destruct c.
Qed.

Lemma GetTxPayload_reads {A} (P : A -> Prop) w (r : reader A) x : reads P w r id -> P x -> GetTxPayload r (w x) = Some x.
Proof. intros Hr Hx. unfold GetTxPayload. rewrite <- (app_nil_r (w x)), Hr by done. done. Qed.

(** Every payload that is stored in a transaction is read back from it, whichever of the six kinds it is. *)
Theorem payload_roundtrip tx :
  (forall p, proreg_ok p -> vExtraPayload tx = ProRegTx_Serialize p -> GetProRegTx tx = Some p) /\
  (forall p, proupserv_ok p -> vExtraPayload tx = ProUpServTx_Serialize p -> GetProUpServTx tx = Some p) /\
  (forall p, proupreg_ok p -> vExtraPayload tx = ProUpRegTx_Serialize p -> GetProUpRegTx tx = Some p) /\
  (forall p, prouprev_ok p -> vExtraPayload tx = ProUpRevTx_Serialize p -> GetProUpRevTx tx = Some p) /\
  (forall p, commitment_ok p -> vExtraPayload tx = CommitmentPayload_Serialize p -> GetQuorumCommitment tx = Some p) /\
  (forall c, cbtx_ok c -> vExtraPayload tx = CbTx_Serialize c -> GetCbTx tx = Some c).
Proof.
  split_and!; intros p Hp E; (unfold GetCbTx || cbn [payloads GetProRegTx GetProUpServTx GetProUpRegTx GetProUpRevTx GetQuorumCommitment]); rewrite E.
  - by apply (GetTxPayload_reads _ _ _ _ reads_proreg).
  - by apply (GetTxPayload_reads _ _ _ _ reads_proupserv).
  - by apply (GetTxPayload_reads _ _ _ _ reads_proupreg).
  - by apply (GetTxPayload_reads _ _ _ _ reads_prouprev).
  - by apply (GetTxPayload_reads _ _ _ _ reads_commitment).
  - by apply (GetTxPayload_reads _ _ _ _ reads_cbtx).
Qed.

(** The payloads without their signatures. *)
Definition unsigned_reg (p : CProRegTx) : CProRegTx :=
  mkProReg (reg_nVersion p) (reg_nType p) (reg_nMode p) (reg_collateralOutpoint p) (reg_addr p) (reg_keyIDOwner p) (reg_pubKeyOperator p) (reg_keyIDVoting p)
    (reg_nOperatorReward p) (reg_scriptPayout p) (reg_inputsHash p) [].
Definition unsigned_upreg (p : CProUpRegTx) : CProUpRegTx :=
  mkProUpReg (upreg_nVersion p) (upreg_proTxHash p) (upreg_nMode p) (upreg_pubKeyOperator p) (upreg_keyIDVoting p) (upreg_scriptPayout p) (upreg_inputsHash p) [].
Definition unsigned_serv (p : CProUpServTx) : CProUpServTx :=
  mkProUpServ (serv_nVersion p) (serv_proTxHash p) (serv_addr p) (serv_scriptOperatorPayout p) (serv_inputsHash p) None.
Definition unsigned_rev (p : CProUpRevTx) : CProUpRevTx := mkProUpRev (rev_nVersion p) (rev_proTxHash p) (rev_nReason p) (rev_inputsHash p) None.

Lemma reads_inj {A} (P : A -> Prop) w (r : reader A) x y : reads P w r id -> P x -> P y -> w x = w y -> x = y.
Proof. intros Hr Hx Hy E. pose proof (Hr x [] Hx) as E1. rewrite E, (Hr y [] Hy) in E1. unfold id in E1. congruence. Qed.

(** The bytes that are hashed for a signature determine every field but the signature. *)
Theorem signed_fields_determine_payload :
  (forall p q, proreg_ok p -> proreg_ok q -> ProRegTx_fields p = ProRegTx_fields q -> unsigned_reg p = unsigned_reg q) /\
  (forall p q, proupserv_ok p -> proupserv_ok q -> ProUpServTx_fields p = ProUpServTx_fields q -> unsigned_serv p = unsigned_serv q) /\
  (forall p q, proupreg_ok p -> proupreg_ok q -> ProUpRegTx_fields p = ProUpRegTx_fields q -> unsigned_upreg p = unsigned_upreg q) /\
  (forall p q, prouprev_ok p -> prouprev_ok q -> ProUpRevTx_fields p = ProUpRevTx_fields q -> unsigned_rev p = unsigned_rev q).
Proof.
  assert (Hnil : bytes_ok []) by (split; [constructor|done]). split_and!; intros p q.
  - intros [? ? ? ? [? _]] [? ? ? ? [? _]] E. apply (reads_inj _ _ _ _ _ reads_proreg); [by split..|]. unfold ProRegTx_Serialize. f_equal. exact E.
  - intros (? & ? & ? & ? & ? & _) (? & ? & ? & ? & ? & _) E. apply (reads_inj _ _ _ _ _ reads_proupserv); [by split_and!..|]. unfold ProUpServTx_Serialize. f_equal. exact E.
  - intros (? & ? & ? & ? & ? & ? & ? & _) (? & ? & ? & ? & ? & ? & ? & _) E. apply (reads_inj _ _ _ _ _ reads_proupreg); [by split_and!..|]. unfold ProUpRegTx_Serialize. f_equal. exact E.
  - intros (? & ? & ? & ? & _) (? & ? & ? & ? & _) E. apply (reads_inj _ _ _ _ _ reads_prouprev); [by split_and!..|]. unfold ProUpRevTx_Serialize. f_equal. exact E.
Qed.
End Reading.
