(* ===== verification/SigHash.v ===== *)
(** What a signature in a script signs ([SignatureHash] and [TransactionSignatureChecker] of [script/interpreter.cpp]), with the older, direct way to compute it that the
    tests of the repository keep as reference ([SignatureHashOld] of [test/sighash_tests.cpp]). *)

From stdpp Require Import prelude.
From Stdlib Require Import ZArith Lia.
From S2P Require Import Prelude Opcodes Serialize Hashes Transaction ProTx Compact Script Interpreter Compressor TxFormat.

Open Scope Z_scope.

(** ** The script code without code separators *)

(** Where [GetOp] leaves the iterator when it fails: after the opcode and the size it could read. *)
Definition failed_pc (pc : CScript) : CScript :=
  match pc with
  | [] => []
  | opcode :: pc1 =>
      if opcode <? OP_PUSHDATA1 then pc1
      else if opcode =? OP_PUSHDATA1 then if size pc1 <? 1 then pc1 else drop 1 pc1
      else if opcode =? OP_PUSHDATA2 then if size pc1 <? 2 then pc1 else drop 2 pc1
      else if size pc1 <? 4 then pc1 else drop 4 pc1
  end.
Fixpoint count_separators (fuel : nat) (it : CScript) : Z :=
  match GetOp2 it, fuel with
  | Some (opcode, _, it'), S fuel => (if opcode =? OP_CODESEPARATOR then 1 else 0) + count_separators fuel it'
  | _, _ => 0
  end.
(** An iterator is the rest of the script from there on; [write_range a b] are the bytes from [a] up to [b]. *)
Definition write_range (a b : CScript) : stream := take (length a - length b) a.
Fixpoint write_segments (fuel : nat) (itBegin it : CScript) : stream :=
  match GetOp2 it, fuel with
  | Some (opcode, _, it'), S fuel =>
      if opcode =? OP_CODESEPARATOR then take (length itBegin - length it' - 1) itBegin ++ write_segments fuel it' it'
      else write_segments fuel itBegin it'
  | _, _ => if bool_decide (itBegin = []) then [] else write_range itBegin (failed_pc it)
  end.
Definition SerializeScriptCode (scriptCode : CScript) : stream :=
  WriteCompactSize (Z.of_nat (length scriptCode) - count_separators (length scriptCode) scriptCode) ++ write_segments (length scriptCode) scriptCode scriptCode.

(** ** [CTransactionSignatureSerializer] *)

Definition fAnyoneCanPay (nHashType : Z) : bool := negb (Z.land nHashType SIGHASH_ANYONECANPAY =? 0).
Definition fHashSingle (nHashType : Z) : bool := Z.land nHashType 0x1f =? SIGHASH_SINGLE.
Definition fHashNone (nHashType : Z) : bool := Z.land nHashType 0x1f =? SIGHASH_NONE.

(** [None] is an access out of range. *)
Definition SerializeInput (txTo : CTransaction) (scriptCode : CScript) (nIn : nat) (nHashType : Z) (nInput : nat) : option stream :=
  let nInput := if fAnyoneCanPay nHashType then nIn else nInput in
  let other := negb (nInput =? nIn)%nat in
  txin ← vin txTo !! nInput;
  Some (outpoint_Serialize (prevout txin) ++ (if other then vch_Serialize [] else SerializeScriptCode scriptCode) ++
        (if other && (fHashSingle nHashType || fHashNone nHashType) then ser_writedata 4 0 else ser_writedata 4 (nSequence txin))).
Definition SerializeOutput (txTo : CTransaction) (nIn : nat) (nHashType : Z) (nOutput : nat) : option stream :=
  if fHashSingle nHashType && negb (nOutput =? nIn)%nat then Some (TxOut_Serialize TxOut_SetNull)
  else o ← vout txTo !! nOutput; Some (TxOut_Serialize o).
Definition sig_Serialize (txTo : CTransaction) (scriptCode : CScript) (nIn : nat) (nHashType : Z) : option stream :=
  let nInputs := if fAnyoneCanPay nHashType then 1%nat else length (vin txTo) in
  ins ← mapM (SerializeInput txTo scriptCode nIn nHashType) (seq 0 nInputs);
  let nOutputs := if fHashNone nHashType then 0%nat else if fHashSingle nHashType then S nIn else length (vout txTo) in
  outs ← mapM (SerializeOutput txTo nIn nHashType) (seq 0 nOutputs);
  Some (ser_writedata 4 (n32bitVersion (Mutable_of txTo)) ++ WriteCompactSize (Z.of_nat nInputs) ++ concat ins ++
        WriteCompactSize (Z.of_nat nOutputs) ++ concat outs ++ ser_writedata 4 (Transaction.nLockTime txTo) ++
        (if has_payload (tx_nVersion txTo) (tx_nType txTo) then vch_Serialize (vExtraPayload txTo) else [])).

(** ** [SignatureHash] *)

Section Hashing.
(** What the unset buffer of the hasher holds. *)
Variable junk : stream.

Definition GetPrevoutHash (txTo : CTransaction) : stream := Hash junk (map (fun i => outpoint_Serialize (prevout i)) (vin txTo)).
Definition GetSequenceHash (txTo : CTransaction) : stream := Hash junk (map (fun i => ser_writedata 4 (nSequence i)) (vin txTo)).
Definition GetOutputsHash (txTo : CTransaction) : stream := Hash junk (map TxOut_Serialize (vout txTo)).

Record PrecomputedTransactionData := mkPrecomputed { hashPrevouts : stream; hashSequence : stream; hashOutputs : stream; ready : bool }.
Definition uint256_zero : stream := replicate 32 0.
Definition Precomputed_new (txTo : CTransaction) : PrecomputedTransactionData :=
  if HasWitness (vin txTo) then mkPrecomputed (GetPrevoutHash txTo) (GetSequenceHash txTo) (GetOutputsHash txTo) true
  else mkPrecomputed uint256_zero uint256_zero uint256_zero false.

Definition uint256_one : stream := 1 :: replicate 31 0.
(** The pieces that are hashed for version 0 of witness programs. *)
Definition witness_pieces (scriptCode : CScript) (txTo : CTransaction) (nIn : nat) (txin : CTxIn) (nHashType amount : Z) (cache : option PrecomputedTransactionData) : list stream :=
  let cacheready := match cache with Some c => if ready c then Some c else None | None => None end in
  let single_or_none := fHashSingle nHashType || fHashNone nHashType in
  let prevouts := if fAnyoneCanPay nHashType then uint256_zero else match cacheready with Some c => hashPrevouts c | None => GetPrevoutHash txTo end in
  let sequence := if fAnyoneCanPay nHashType || single_or_none then uint256_zero else match cacheready with Some c => hashSequence c | None => GetSequenceHash txTo end in
  let outputs :=
    if negb single_or_none then match cacheready with Some c => hashOutputs c | None => GetOutputsHash txTo end
    else match vout txTo !! nIn with
         | Some o => if fHashSingle nHashType then Hash junk [TxOut_Serialize o] else uint256_zero
         | None => uint256_zero
         end in
  [ser_writedata 2 (tx_nVersion txTo); prevouts; sequence; outpoint_Serialize (prevout txin); vch_Serialize scriptCode; ser_writedata 8 amount;
   ser_writedata 4 (nSequence txin); outputs; ser_writedata 4 (Transaction.nLockTime txTo); ser_writedata 4 nHashType].
(** [None] is the failed assertion. *)
Definition SignatureHash (scriptCode : CScript) (txTo : CTransaction) (nIn : nat) (nHashType amount : Z) (sigversion : SigVersion)
    (cache : option PrecomputedTransactionData) : option stream :=
  txin ← vin txTo !! nIn;
  match sigversion with
  | SIGVERSION_WITNESS_V0 => Some (Hash junk (witness_pieces scriptCode txTo nIn txin nHashType amount cache))
  | SIGVERSION_BASE =>
      if fHashSingle nHashType && (length (vout txTo) <=? nIn)%nat then Some uint256_one
      else txTmp ← sig_Serialize txTo scriptCode nIn nHashType; Some (Hash junk [txTmp; ser_writedata 4 nHashType])
  end.

(** [TransactionSignatureChecker]; [Verify] is the curve library's check of a signature by a key. *)
Variable Verify : valtype -> stream -> valtype -> bool.
Definition tx_CheckSig (txTo : CTransaction) (nIn : nat) (amount : Z) (txdata : option PrecomputedTransactionData) (vchSigIn vchPubKey : valtype)
    (scriptCode : CScript) (sigversion : SigVersion) : option bool :=
  let pubkey := PubKey_Set vchPubKey in
  if negb (PubKey_IsValid pubkey) then Some false
  else match last vchSigIn with
       | None => Some false
       | Some nHashType =>
           sighash ← SignatureHash scriptCode txTo nIn nHashType amount sigversion txdata;
           Some (Verify pubkey sighash (removelast vchSigIn))
       end.

(** ** The reference *)

(** The copy of the transaction that is changed; [None] where the outputs do not reach as far as the inputs. *)
Definition blank_others (nIn : nat) (scriptCode : CScript) (i : nat) (txin : CTxIn) : CTxIn :=
  mkTxIn (prevout txin) (if (i =? nIn)%nat then scriptCode else []) (nSequence txin) (scriptWitness txin).
Definition free_others (nIn : nat) (i : nat) (txin : CTxIn) : CTxIn :=
  if (i =? nIn)%nat then txin else mkTxIn (prevout txin) (scriptSig txin) 0 (scriptWitness txin).
Definition reference_copy (scriptCode : CScript) (txTo : CMutableTransaction) (nIn : nat) (nHashType : Z) : option CMutableTransaction :=
  let scriptCode := FindAndDelete scriptCode [OP_CODESEPARATOR] in
  let ins := imap (blank_others nIn scriptCode) (m_vin txTo) in
  '(ins, outs) ←
    (if fHashNone nHashType then Some (imap (free_others nIn) ins, [])
     else if fHashSingle nHashType then
       if (length (m_vout txTo) <=? nIn)%nat then None
       else Some (imap (free_others nIn) ins, imap (fun i o => if (i <? nIn)%nat then TxOut_SetNull else o) (take (S nIn) (m_vout txTo)))
     else Some (ins, m_vout txTo));
  ins ← (if fAnyoneCanPay nHashType then txin ← ins !! nIn; Some [txin] else Some ins);
  Some (mkMutable (m_nVersion txTo) (m_nType txTo) ins outs (m_nLockTime txTo) (m_vExtraPayload txTo)).
Definition SignatureHashOld (scriptCode : CScript) (txTo : CMutableTransaction) (nIn : nat) (nHashType : Z) : stream :=
  if (length (m_vin txTo) <=? nIn)%nat then uint256_one
  else match reference_copy scriptCode txTo nIn nHashType with
       | None => uint256_one
       | Some txTmp => Hash junk [SerializeTransaction true txTmp; ser_writedata 4 nHashType]
       end.
End Hashing.

(** ** Scripts without their separators *)

(** Every instruction can be read. *)
Inductive parses : CScript -> Prop :=
  | parses_nil : parses []
  | parses_op pc op data pc' : GetOp2 pc = Some (op, data, pc') -> parses pc' -> parses pc.

Fixpoint drop_separators (fuel : nat) (pc : CScript) : CScript :=
  match GetOp2 pc, fuel with
  | Some (op, _, pc'), S fuel => (if op =? OP_CODESEPARATOR then [] else write_range pc pc') ++ drop_separators fuel pc'
  | _, _ => []
  end.
Definition without_separators (pc : CScript) : CScript := drop_separators (length pc) pc.

Lemma drop_separators_fuel f : forall f' pc, (length pc <= f)%nat -> (length pc <= f')%nat -> drop_separators f pc = drop_separators f' pc /\ count_separators f pc = count_separators f' pc.
Proof.
  induction f as [|f IH]; intros f' pc Hf Hf'; [destruct pc; [by destruct f'|cbn in Hf; lia]|]. cbn [drop_separators count_separators].
  destruct (GetOp2 pc) as [[[op d] pc']|] eqn:E; [|by destruct f'; cbn; rewrite E]. pose proof (GetOp2_length _ _ _ _ E).
  destruct f' as [|f']; [lia|]. cbn [drop_separators count_separators]. rewrite E. destruct (IH f' pc') as [-> ->]; [lia..|done].
Qed.
Lemma without_op pc op d pc' : GetOp2 pc = Some (op, d, pc') ->
  without_separators pc = (if op =? OP_CODESEPARATOR then [] else write_range pc pc') ++ without_separators pc' /\
  count_separators (length pc) pc = (if op =? OP_CODESEPARATOR then 1 else 0) + count_separators (length pc') pc'.
Proof.
  intros E. pose proof (GetOp2_length _ _ _ _ E). unfold without_separators. destruct (length pc) as [|n] eqn:En; [lia|]. cbn [drop_separators count_separators]. rewrite E.
  destruct (drop_separators_fuel n (length pc') pc') as [-> ->]; [lia..|done].
Qed.
Lemma read_instruction pc op d pc' : GetOp2 pc = Some (op, d, pc') -> pc = write_range pc pc' ++ pc' /\ (op = OP_CODESEPARATOR -> pc = OP_CODESEPARATOR :: pc').
Proof.
  intros E. destruct (GetOp2_suffix _ _ _ _ E) as [pre Epc]. split.
  - unfold write_range. rewrite Epc. change (op :: pre ++ pc') with ((op :: pre) ++ pc'). rewrite length_app. replace (length (op :: pre) + length pc' - length pc')%nat with (length (op :: pre)) by lia.
    by rewrite take_app_length.
  - intros ->. unfold GetOp2 in E. rewrite Epc in E. cbn in E. by injection E as _ <-.
Qed.
Lemma without_length pc : parses pc -> Z.of_nat (length (without_separators pc)) = Z.of_nat (length pc) - count_separators (length pc) pc /\
  0 <= count_separators (length pc) pc /\ (count_separators (length pc) pc = 0 -> without_separators pc = pc).
Proof.
  induction 1 as [|pc op d pc' E _ (IH1 & IH2 & IH3)]; [done|]. destruct (without_op _ _ _ _ E) as [Ew Ec]. destruct (read_instruction _ _ _ _ E) as [Er Esep].
  pose proof (f_equal length Er) as El. rewrite length_app in El. rewrite Ew, Ec. destruct (Z.eqb_spec op OP_CODESEPARATOR) as [->|].
  - specialize (Esep eq_refl). rewrite app_nil_l. split_and!; [|lia|lia]. rewrite Esep. cbn [length]. lia.
  - rewrite length_app. split_and!; [lia|lia|]. intros E0. rewrite IH3 by lia. by symmetry.
Qed.
Lemma write_segments_eq pc : parses pc -> forall fuel pre, (length pc <= fuel)%nat -> write_segments fuel (pre ++ pc) pc = pre ++ without_separators pc.
Proof.
  induction 1 as [|pc op d pc' E _ IH]; intros fuel pre Hf.
  - assert (Hn : forall f, write_segments f pre [] = pre); [|by rewrite !app_nil_r].
    intros f. destruct f; cbn; (destruct (bool_decide_reflect (pre = [])) as [->|]; [done|]); unfold write_range; cbn; rewrite Nat.sub_0_r; apply take_ge; done.
  - pose proof (GetOp2_length _ _ _ _ E). destruct fuel as [|fuel]; [lia|]. cbn [write_segments]. rewrite E. destruct (without_op _ _ _ _ E) as [-> _].
    destruct (read_instruction _ _ _ _ E) as [Er Esep]. destruct (Z.eqb_spec op OP_CODESEPARATOR) as [->|].
    + rewrite (Esep eq_refl). rewrite length_app. cbn [length]. replace (length pre + S (length pc') - length pc' - 1)%nat with (length pre) by lia.
      rewrite take_app_length. f_equal. exact (IH fuel [] ltac:(lia)).
    + rewrite Er at 1. rewrite app_assoc, IH by lia. by rewrite <- app_assoc.
Qed.
(** The script code is written as the vector of its bytes without the separators. *)
Lemma SerializeScriptCode_eq sc : parses sc -> SerializeScriptCode sc = vch_Serialize (without_separators sc).
Proof.
  intros Hp. unfold SerializeScriptCode, vch_Serialize. destruct (without_length sc Hp) as (-> & _). f_equal. exact (write_segments_eq sc Hp (length sc) [] ltac:(lia)).
Qed.

Lemma skip_separators k : forall pc, parses pc -> (length pc <= k)%nat -> exists pc2, skip_copies k [OP_CODESEPARATOR] pc = (pc2, count_separators (length pc) pc - count_separators (length pc2) pc2) /\
  parses pc2 /\ without_separators pc = without_separators pc2 /\ (length pc2 <= length pc)%nat /\ head pc2 <> Some OP_CODESEPARATOR.
Proof.
  induction k as [|k IH]; intros pc Hp Hk.
  - exists pc. destruct pc; [|cbn in Hk; lia]. by split_and!.
  - cbn [skip_copies length]. case_bool_decide as Ed.
    + destruct Hp as [|pc op d pc' E Hp]; [done|]. destruct (without_op _ _ _ _ E) as [Ew Ec]. destruct (GetOp2_suffix _ _ _ _ E) as [pre Epc].
      assert (op = OP_CODESEPARATOR) as -> by (rewrite Epc in Ed; by injection Ed). destruct (read_instruction _ _ _ _ E) as [_ Esep]. specialize (Esep eq_refl).
      pose proof (f_equal length Esep) as El. cbn [length] in El. replace (drop 1 pc) with pc' by (by rewrite Esep). destruct (IH pc' Hp ltac:(lia)) as (pc2 & -> & H2 & H3 & H4 & H5). exists pc2.
      change (OP_CODESEPARATOR =? OP_CODESEPARATOR) with true in Ew, Ec. cbv iota in Ew, Ec. split_and!; [f_equal; lia|done|by rewrite Ew|lia|done].
    + exists pc. split_and!; [f_equal; lia|done|done|done|]. destruct pc as [|x pc]; [done|]. cbn in Ed |- *. intros [= ->]. by apply Ed; rewrite take_0.
Qed.
Lemma find_and_delete_separators fuel : forall pc result n, parses pc -> (length pc <= fuel)%nat ->
  find_and_delete_loop fuel [OP_CODESEPARATOR] pc result n = (result ++ without_separators pc, n + count_separators (length pc) pc).
Proof.
  induction fuel as [|fuel IH]; intros pc result n Hp Hf; cbn [find_and_delete_loop]; destruct (skip_separators (length pc) pc Hp ltac:(lia)) as (pc2 & -> & H2 & -> & H4 & H5).
  - destruct pc2; [|cbn in *; lia]. cbn [GetOp2]. f_equal. cbn. lia.
  - destruct H2 as [|pc2 op d pc' E Hp']; [cbn [GetOp2]; f_equal; cbn; lia|]. rewrite E. pose proof (GetOp2_length _ _ _ _ E). rewrite IH by (done || lia).
    destruct (without_op _ _ _ _ E) as [-> ->]. destruct (GetOp2_suffix _ _ _ _ E) as [pre Epc]. rewrite (proj2 (Z.eqb_neq op OP_CODESEPARATOR)).
    + rewrite <- app_assoc. f_equal. lia.
    + intros ->. apply H5. by rewrite Epc.
Qed.
Lemma FindAndDelete_separators sc : parses sc -> FindAndDelete sc [OP_CODESEPARATOR] = without_separators sc.
Proof.
  intros Hp. unfold FindAndDelete. rewrite find_and_delete_separators by (done || lia). cbn [app]. destruct (without_length sc Hp) as (_ & H0 & Hz).
  destruct (Z.ltb_spec 0 (0 + count_separators (length sc) sc)); [done|]. symmetry. apply Hz. lia.
Qed.

(** ** The serializer in place writes the changed copy *)

Lemma mapM_lookup {A B : Type} (f : nat -> option B) (w : A -> B) (l : list A) : (forall i x, l !! i = Some x -> f i = Some (w x)) -> mapM f (seq 0 (length l)) = Some (map w l).
Proof.
  intros H. apply mapM_Some, Forall2_same_length_lookup. split; [by rewrite length_seq, length_map|]. intros i j y Hj Hy.
  apply lookup_seq in Hj as [-> Hi]. change (map w l) with (w <$> l) in Hy. rewrite list_lookup_fmap in Hy. destruct (l !! i) as [x|] eqn:E; [|done].
  injection Hy as <-. by apply H.
Qed.
Definition copy_input (scriptCode : CScript) (nIn : nat) (nHashType : Z) (i : nat) (txin : CTxIn) : CTxIn :=
  mkTxIn (prevout txin) (if (i =? nIn)%nat then without_separators scriptCode else [])
    (if negb (i =? nIn)%nat && (fHashSingle nHashType || fHashNone nHashType) then 0 else nSequence txin) (scriptWitness txin).
Lemma SerializeInput_eq txTo sc nIn t i txin : parses sc -> vin txTo !! (if fAnyoneCanPay t then nIn else i) = Some txin ->
  SerializeInput txTo sc nIn t i = Some (TxIn_Serialize (copy_input sc nIn t (if fAnyoneCanPay t then nIn else i) txin)).
Proof.
  intros Hp E. unfold SerializeInput. set (j := if fAnyoneCanPay t then nIn else i) in *. rewrite E. cbn [mbind option_bind]. unfold TxIn_Serialize, copy_input.
  cbn [prevout scriptSig nSequence]. destruct (j =? nIn)%nat; cbn [negb andb]; [by rewrite SerializeScriptCode_eq|]. by destruct (_ || _).
Qed.
(** What the copy of the reference is. *)
Definition copied (sc : CScript) (m : CMutableTransaction) (nIn : nat) (t : Z) : CMutableTransaction :=
  mkMutable (m_nVersion m) (m_nType m)
    (if fAnyoneCanPay t then match m_vin m !! nIn with Some txin => [copy_input sc nIn t nIn txin] | None => [] end else imap (copy_input sc nIn t) (m_vin m))
    (if fHashNone t then [] else if fHashSingle t then imap (fun i o => if (i <? nIn)%nat then TxOut_SetNull else o) (take (S nIn) (m_vout m)) else m_vout m)
    (m_nLockTime m) (m_vExtraPayload m).
Lemma none_not_single t : fHashNone t = true -> fHashSingle t = false.
Proof. unfold fHashNone, fHashSingle. rewrite Z.eqb_eq, Z.eqb_neq. by intros ->. Qed.
Lemma reference_copy_eq sc m nIn t txin : parses sc -> m_vin m !! nIn = Some txin ->
  reference_copy sc m nIn t = if fHashSingle t && (length (m_vout m) <=? nIn)%nat then None else Some (copied sc m nIn t).
Proof.
  intros Hp Ei. unfold reference_copy, copied. rewrite FindAndDelete_separators by done. rewrite Ei.
  assert (Eins : imap (free_others nIn) (imap (blank_others nIn (without_separators sc)) (m_vin m)) = imap (fun i x => mkTxIn (prevout x) (if (i =? nIn)%nat then without_separators sc else [])
     (if (i =? nIn)%nat then nSequence x else 0) (scriptWitness x)) (m_vin m)).
  { apply list_eq. intros i. rewrite !list_lookup_imap. destruct (m_vin m !! i) as [x|]; [|done]. cbn. f_equal. unfold free_others, blank_others. by destruct (i =? nIn)%nat. }
  assert (Hl : forall f : nat -> CTxIn -> CTxIn, imap f (m_vin m) !! nIn = Some (f nIn txin)) by (intros f; by rewrite list_lookup_imap, Ei).
  assert (Hext : forall f g : nat -> CTxIn -> CTxIn, (forall i x, f i x = g i x) -> imap f (m_vin m) = imap g (m_vin m)) by (intros f g Hfg; by apply imap_ext).
  destruct (fHashNone t) eqn:En; [pose proof (none_not_single t En) as Es; rewrite Es|destruct (fHashSingle t) eqn:Es]; cbn [andb mbind option_bind].
  - rewrite Eins. destruct (fAnyoneCanPay t); [rewrite Hl; cbn [mbind option_bind]|cbn [mbind option_bind]]; do 2 f_equal.
    + unfold copy_input. by rewrite Nat.eqb_refl.
    + apply Hext. intros i x. unfold copy_input. rewrite Es, En, orb_true_r, andb_true_r. by destruct (i =? nIn)%nat.
  - destruct (length (m_vout m) <=? nIn)%nat; [done|]. rewrite Eins. cbn [mbind option_bind]. destruct (fAnyoneCanPay t); [rewrite Hl; cbn [mbind option_bind]|cbn [mbind option_bind]]; do 2 f_equal.
    + unfold copy_input. by rewrite Nat.eqb_refl.
    + apply Hext. intros i x. unfold copy_input. rewrite Es, andb_true_r. by destruct (i =? nIn)%nat.
  - destruct (fAnyoneCanPay t); [rewrite Hl; cbn [mbind option_bind]|cbn [mbind option_bind]]; do 2 f_equal.
    + unfold copy_input, blank_others. by rewrite Nat.eqb_refl.
    + apply Hext. intros i x. unfold copy_input, blank_others. by rewrite En, Es, andb_false_r.
Qed.
Lemma length_copied_ins sc m nIn t txin : m_vin m !! nIn = Some txin -> length (m_vin (copied sc m nIn t)) = if fAnyoneCanPay t then 1%nat else length (m_vin m).
Proof. intros E. cbn [copied m_vin]. rewrite E. destruct (fAnyoneCanPay t); [done|]. by rewrite length_imap. Qed.
Lemma length_copied_outs sc m nIn t : (fHashSingle t = true -> (nIn < length (m_vout m))%nat) ->
  length (m_vout (copied sc m nIn t)) = if fHashNone t then 0%nat else if fHashSingle t then S nIn else length (m_vout m).
Proof. intros Hs. cbn [copied m_vout]. destruct (fHashNone t); [done|]. destruct (fHashSingle t); [|done]. rewrite length_imap, length_take. specialize (Hs eq_refl). lia. Qed.
Lemma sig_Serialize_eq txTo sc nIn t txin : parses sc -> vin txTo !! nIn = Some txin -> (fHashSingle t = true -> (nIn < length (vout txTo))%nat) ->
  sig_Serialize txTo sc nIn t = Some (SerializeTransaction false (copied sc (Mutable_of txTo) nIn t)).
Proof.
  intros Hp Ei Hs. unfold sig_Serialize. set (m := Mutable_of txTo). assert (Em : m_vin m !! nIn = Some txin) by done.
  change (vin txTo) with (m_vin m). change (vout txTo) with (m_vout m). rewrite <- (length_copied_ins sc m nIn t txin Em), <- (length_copied_outs sc m nIn t Hs). rewrite (mapM_lookup _ TxIn_Serialize (m_vin (copied sc m nIn t))).
  2:{ intros i x Hx. cbn [copied m_vin] in Hx. rewrite Em in Hx. destruct (fAnyoneCanPay t) eqn:Ea.
      - apply list_lookup_singleton_Some in Hx as [-> <-]. rewrite (SerializeInput_eq _ _ _ _ _ txin) by (by rewrite ?Ea). by rewrite Ea.
      - rewrite list_lookup_imap in Hx. destruct (m_vin m !! i) as [y|] eqn:Ey; [|done]. injection Hx as <-. rewrite (SerializeInput_eq _ _ _ _ _ y) by (by rewrite ?Ea). by rewrite Ea. }
  rewrite (mapM_lookup _ TxOut_Serialize (m_vout (copied sc m nIn t))).
  2:{ intros i x Hx. cbn [copied m_vout] in Hx. unfold SerializeOutput. destruct (fHashNone t) eqn:En; [done|]. destruct (fHashSingle t) eqn:Es; cbn [andb].
      - rewrite list_lookup_imap in Hx. destruct (take (S nIn) (m_vout m) !! i) as [y|] eqn:Ey; [|done]. injection Hx as <-.
        apply lookup_take_Some in Ey as [Ey Hlt]. destruct (Nat.eqb_spec i nIn) as [->|]; cbn [negb]; [rewrite (proj2 (Nat.ltb_ge _ _)) by lia; cbn in Ey; by rewrite Ey|].
        by rewrite (proj2 (Nat.ltb_lt _ _)) by lia.
      - cbn in Hx. by rewrite Hx. }
  cbn [mbind option_bind]. unfold SerializeTransaction, vector_Serialize. cbn [andb]. rewrite !app_nil_l, <- !app_assoc. done.
Qed.

Lemma strip_copied sc m nIn t : copied sc (strip_tx m) nIn t = strip_tx (copied sc m nIn t).
Proof.
  unfold copied, strip_tx. cbn [m_nVersion m_nType m_vin m_vout m_nLockTime m_vExtraPayload]. f_equal. change (map strip (m_vin m)) with (strip <$> m_vin m). rewrite list_lookup_fmap.
  destruct (fAnyoneCanPay t); [by destruct (m_vin m !! nIn)|]. change (map strip ?l) with (strip <$> l). apply list_eq. intros i.
  rewrite list_lookup_imap, !list_lookup_fmap, list_lookup_imap. by destruct (m_vin m !! i).
Qed.
Lemma HasWitness_strip ins : HasWitness (map strip ins) = false.
Proof. induction ins; [done|]. cbn. done. Qed.
Lemma Serialize_strip m : SerializeTransaction true (strip_tx m) = SerializeTransaction false m.
Proof.
  unfold SerializeTransaction, strip_tx. cbn [m_nVersion m_nType m_vin m_vout m_nLockTime m_vExtraPayload andb]. rewrite HasWitness_strip. cbn [andb].
  do 3 f_equal. unfold vector_Serialize. rewrite length_map, map_map. done.
Qed.
(** C19. For a script whose instructions can all be read, and an input of the transaction, the hash that signatures of scripts without witness sign, which is computed
    without copying the transaction, is what the reference computes from the transaction without its witnesses: the separators deleted from the script, the
    scripts of the other inputs blanked, and inputs and outputs left out according to the type.  The reference writes the witnesses of its copy, the serializer does not; so for
    a transaction none of whose inputs has a witness, the hash is that of the reference on the transaction itself. *)
Theorem signature_hash_is_reference junk scriptCode txTo nIn nHashType amount cache :
  parses scriptCode -> (nIn < length (vin txTo))%nat ->
  let hash := SignatureHash junk scriptCode txTo nIn nHashType amount SIGVERSION_BASE cache in
  hash = Some (SignatureHashOld junk scriptCode (strip_tx (Mutable_of txTo)) nIn nHashType) /\
  (HasWitness (vin txTo) = false -> hash = Some (SignatureHashOld junk scriptCode (Mutable_of txTo) nIn nHashType)).
Proof.
  intros Hp Hn. cbv zeta. cut (SignatureHash junk scriptCode txTo nIn nHashType amount SIGVERSION_BASE cache = Some (SignatureHashOld junk scriptCode (strip_tx (Mutable_of txTo)) nIn nHashType)).
  { intros E. split; [exact E|]. intros Hw. rewrite E. unfold strip_tx. cbn [Mutable_of m_nVersion m_nType m_vin m_vout m_nLockTime m_vExtraPayload].
    by rewrite (strip_all _ Hw). }
  destruct (lookup_lt_is_Some_2 _ _ Hn) as [txin Ei]. unfold SignatureHash, SignatureHashOld. rewrite Ei. cbn [mbind option_bind].
  assert (Es : m_vin (strip_tx (Mutable_of txTo)) !! nIn = Some (strip txin)). { cbn. change (map strip (vin txTo)) with (strip <$> vin txTo). by rewrite list_lookup_fmap, Ei. }
  rewrite (proj2 (Nat.leb_gt (length (m_vin (strip_tx (Mutable_of txTo)))) nIn)) by (cbn [strip_tx m_vin Mutable_of]; rewrite length_map; done). rewrite (reference_copy_eq _ _ _ _ _ Hp Es). cbn [strip_tx m_vout Mutable_of].
  destruct (fHashSingle nHashType && (length (vout txTo) <=? nIn)%nat) eqn:Eo; [done|]. rewrite strip_copied, Serialize_strip.
  rewrite (sig_Serialize_eq txTo scriptCode nIn nHashType txin); [done..|]. intros Hs. rewrite Hs in Eo. by apply Nat.leb_gt.
Qed.

(** ** What is signed *)

Lemma length_hash junk ds : length (Hash junk ds) = 32%nat.
Proof. apply SHA256_output. Qed.
#[local] Opaque Hash SerializeTransaction.

(** Two different messages with one hash. *)
Definition collides (junk : stream) (ds ds' : list stream) : Prop := concat ds <> concat ds' /\ Hash junk ds = Hash junk ds'.
Lemma hash_binds junk ds ds' : Hash junk ds = Hash junk ds' -> collides junk ds ds' \/ concat ds = concat ds'.
Proof. intros E. destruct (decide (concat ds = concat ds')) as [|Hne]; [by right|]. left. by split. Qed.
Lemma imap_prefix {A B C : Type} (f : nat -> A -> B) (g : B -> C) (h : A -> C) (l : list A) : (forall i x, g (f i x) = h x) -> map g (imap f l) = map h l.
Proof.
  intros H. change (g <$> imap f l = h <$> l). apply list_eq. intros i. rewrite !list_lookup_fmap, list_lookup_imap. destruct (l !! i); [|done]. cbn. by rewrite H.
Qed.
Lemma copied_ok sc m nIn t : fHashNone t = false -> fHashSingle t = false -> fAnyoneCanPay t = false -> tx_ok m -> bytes_ok (without_separators sc) -> tx_ok (copied sc m nIn t).
Proof.
  intros En Es Ea [Hv Ht [Hi Hni] Ho Hl Hp] Hsc. split; cbn [copied m_nVersion m_nType m_vin m_vout m_nLockTime m_vExtraPayload]; rewrite ?En, ?Es, ?Ea; try done.
  rewrite length_imap. split; [|done]. rewrite Forall_lookup in Hi |- *. intros i x Hx. rewrite list_lookup_imap in Hx. destruct (m_vin m !! i) as [y|] eqn:Ey; [|done].
  injection Hx as <-. destruct (Hi i y Ey) as (H1 & H2 & H3 & H4 & H5). unfold txin_ok, copy_input. cbn [prevout scriptSig nSequence scriptWitness]. rewrite En, Es, andb_false_r.
  destruct (i =? nIn)%nat; [done|]. assert (bytes_ok []) by (split; [constructor|done]). done.
Qed.
(** A signature without witness of the usual type is for one transaction, one of its inputs and one script only, unless the two messages that are signed collide. *)
Theorem signature_commits junk sc sc' tx tx' nIn nIn' t amount amount' cache cache' h :
  fHashNone t = false -> fHashSingle t = false -> fAnyoneCanPay t = false -> tx_ok (Mutable_of tx) -> tx_ok (Mutable_of tx') ->
  parses sc -> parses sc' -> bytes_ok (without_separators sc) -> bytes_ok (without_separators sc') ->
  SignatureHash junk sc tx nIn t amount SIGVERSION_BASE cache = Some h -> SignatureHash junk sc' tx' nIn' t amount' SIGVERSION_BASE cache' = Some h ->
  (exists msg msg', sig_Serialize tx sc nIn t = Some msg /\ sig_Serialize tx' sc' nIn' t = Some msg' /\ collides junk [msg; ser_writedata 4 t] [msg'; ser_writedata 4 t]) \/
  (tx_nVersion tx = tx_nVersion tx' /\ tx_nType tx = tx_nType tx' /\ map prevout (vin tx) = map prevout (vin tx') /\ map nSequence (vin tx) = map nSequence (vin tx') /\
   vout tx = vout tx' /\ Transaction.nLockTime tx = Transaction.nLockTime tx' /\ vExtraPayload tx = vExtraPayload tx' /\
   without_separators sc = without_separators sc' /\ (without_separators sc <> [] -> nIn = nIn')).
Proof.
  intros En Es Ea Hm Hm' Hp Hp' Hb Hb'. unfold SignatureHash. rewrite Es. cbn [andb].
  destruct (vin tx !! nIn) as [i|] eqn:Ei; [|done]. destruct (vin tx' !! nIn') as [i'|] eqn:Ei'; [|done]. cbn [mbind option_bind].
  rewrite (sig_Serialize_eq tx sc nIn t i), (sig_Serialize_eq tx' sc' nIn' t i') by (done || by rewrite Es). cbn [mbind option_bind]. intros E1 E2. rewrite <- E2 in E1. clear E2 h. apply (inj Some) in E1.
  destruct (hash_binds _ _ _ E1) as [Hc|E]; [left; eauto|]. right. cbn [concat] in E. rewrite !app_nil_r in E. clear E1.
  pose proof (copied_ok sc _ nIn t En Es Ea Hm Hb) as Hk. pose proof (copied_ok sc' _ nIn' t En Es Ea Hm' Hb') as Hk'.
  pose proof (transaction_reads false _ (ser_writedata 4 t) Hk ltac:(by right; right)) as R. rewrite E, (transaction_reads false _ (ser_writedata 4 t) Hk') in R by (by right; right).
  apply (inj Some), (f_equal fst) in R. cbn [fst] in R. clear E Hk Hk'. unfold strip_tx, copied in R. cbn [m_nVersion m_nType m_vin m_vout m_nLockTime m_vExtraPayload Mutable_of] in R.
  rewrite En, Es, Ea in R. injection R as E1 E2 E3 E4 E5 E6.
  assert (Hat : forall j, (fun x => scriptSig (copy_input sc' nIn' t j x)) <$> vin tx' !! j = (fun x => scriptSig (copy_input sc nIn t j x)) <$> vin tx !! j).
  { intros j. apply (f_equal (fun l => scriptSig <$> l !! j)) in E3. change (map strip ?l) with (strip <$> l) in E3. rewrite !list_lookup_fmap, !list_lookup_imap in E3.
    destruct (vin tx' !! j), (vin tx !! j); cbn in *; done. }
  pose proof (Hat nIn) as HatI. pose proof (Hat nIn') as HatI'. rewrite Ei in HatI. rewrite Ei' in HatI'. cbn in HatI, HatI'. rewrite Nat.eqb_refl in HatI, HatI'.
  apply (f_equal (map prevout)) in E3 as Epre. apply (f_equal (map nSequence)) in E3 as Eseq. rewrite !map_map in Epre, Eseq.
  rewrite !(imap_prefix _ _ prevout) in Epre by done. rewrite !(imap_prefix _ _ nSequence) in Eseq by (intros; cbn; rewrite ?En, ?Es, ?andb_false_r; done).
  assert (Hsc : without_separators sc = without_separators sc' /\ (without_separators sc <> [] -> nIn = nIn')).
  { destruct (decide (nIn = nIn')) as [->|Hne].
    - rewrite Ei' in HatI. cbn in HatI. rewrite Nat.eqb_refl in HatI. by injection HatI as ->.
    - rewrite (proj2 (Nat.eqb_neq nIn nIn') Hne) in HatI. rewrite (proj2 (Nat.eqb_neq nIn' nIn)) in HatI' by done.
      destruct (vin tx' !! nIn); [|done]. destruct (vin tx !! nIn'); [|done]. cbn in HatI, HatI'. injection HatI as HI. injection HatI' as HI'. by rewrite <- HI, HI'. }
  split_and!; try done; apply Hsc.
Qed.

(** *** With a witness *)

Lemma concat_reads_inj {A B : Type} (P : A -> Prop) (w : A -> stream) (r : reader B) (f : A -> B) l : forall l', reads P w r f -> (forall x, w x <> []) -> Forall P l -> Forall P l' ->
  concat (map w l) = concat (map w l') -> map f l = map f l'.
Proof.
  induction l as [|x l IH]; intros [|x' l'] Hr Hne Hl Hl' E; cbn [map concat] in E; [done|by destruct (w x') eqn:Ew; [apply Hne in Ew|]|by destruct (w x) eqn:Ew; [apply Hne in Ew|]|].
  apply Forall_cons in Hl as [Hx Hl], Hl' as [Hx' Hl']. pose proof (Hr x (concat (map w l)) Hx) as R. rewrite E, (Hr x' _ Hx') in R. apply (inj Some) in R.
  injection R as Ef Et. cbn [map]. rewrite (IH l') by done. by rewrite Ef.
Qed.
Lemma ser_inj k x y : 0 <= x < 2 ^ (8 * Z.of_nat k) -> 0 <= y < 2 ^ (8 * Z.of_nat k) -> ser_writedata k x = ser_writedata k y -> x = y.
Proof. intros Hx Hy E. rewrite <- (le_value_bytes k x Hx), <- (le_value_bytes k y Hy). unfold ser_writedata in E. by rewrite E. Qed.
Lemma length_ser k x : length (ser_writedata k x) = k.
Proof. apply length_le_bytes. Qed.
Lemma length_outpoint o : length (outpoint_Serialize o) = 36%nat.
Proof. unfold outpoint_Serialize. by rewrite length_app, length_le_bytes, length_ser. Qed.

Record signs_same (sc sc' : CScript) (tx tx' : CTransaction) (txin txin' : CTxIn) (amount amount' : Z) : Prop := {
  same_version : tx_nVersion tx = tx_nVersion tx';
  same_prevouts : map prevout (vin tx) = map prevout (vin tx');
  same_sequences : map nSequence (vin tx) = map nSequence (vin tx');
  same_input : prevout txin = prevout txin' /\ nSequence txin = nSequence txin';
  same_code : sc = sc';
  same_amount : amount = amount';
  same_outputs : vout tx = vout tx';
  same_locktime : Transaction.nLockTime tx = Transaction.nLockTime tx'
}.
Lemma witness_pieces_same junk sc sc' tx tx' nIn nIn' txin txin' t amount amount' :
  fHashNone t = false -> fHashSingle t = false -> signs_same sc sc' tx tx' txin txin' amount amount' ->
  witness_pieces junk sc tx nIn txin t amount None = witness_pieces junk sc' tx' nIn' txin' t amount' None.
Proof.
  intros En Es [H1 H2 H3 [H4 H5] H6 H7 H8 H9]. unfold witness_pieces, GetPrevoutHash, GetSequenceHash, GetOutputsHash. rewrite En, Es. cbn [orb negb].
  assert (Ep : map (fun i => outpoint_Serialize (prevout i)) (vin tx) = map (fun i => outpoint_Serialize (prevout i)) (vin tx')).
  { rewrite <- !(map_map prevout outpoint_Serialize). by rewrite H2. }
  assert (Eq : map (fun i => ser_writedata 4 (nSequence i)) (vin tx) = map (fun i => ser_writedata 4 (nSequence i)) (vin tx')).
  { rewrite <- !(map_map nSequence (ser_writedata 4)). by rewrite H3. }
  by rewrite H1, Ep, Eq, H4, H5, H6, H7, H8, H9.
Qed.
Definition witness_collides (junk : stream) (tx tx' : CTransaction) : Prop :=
  collides junk (map (fun i => outpoint_Serialize (prevout i)) (vin tx)) (map (fun i => outpoint_Serialize (prevout i)) (vin tx')) \/
  collides junk (map (fun i => ser_writedata 4 (nSequence i)) (vin tx)) (map (fun i => ser_writedata 4 (nSequence i)) (vin tx')) \/
  collides junk (map TxOut_Serialize (vout tx)) (map TxOut_Serialize (vout tx')).
Lemma witness_pieces_binds junk sc sc' tx tx' nIn nIn' txin txin' t amount amount' :
  fHashNone t = false -> fHashSingle t = false -> fAnyoneCanPay t = false -> tx_ok (Mutable_of tx) -> tx_ok (Mutable_of tx') -> txin_ok txin -> txin_ok txin' ->
  bytes_ok sc -> bytes_ok sc' -> is_s64 amount -> is_s64 amount' ->
  concat (witness_pieces junk sc tx nIn txin t amount None) = concat (witness_pieces junk sc' tx' nIn' txin' t amount' None) ->
  witness_collides junk tx tx' \/ signs_same sc sc' tx tx' txin txin' amount amount'.
Proof.
  intros En Es Ea [Hv _ [Hi _] [Ho _] Hl _] [Hv' _ [Hi' _] [Ho' _] Hl' _] (P1 & P2 & _ & Q & _) (P1' & P2' & _ & Q' & _) Hsc Hsc' Ha Ha'. cbn [Mutable_of m_nVersion m_vin m_vout m_nLockTime] in *.
  unfold witness_pieces. rewrite En, Es, Ea. cbn [orb negb concat]. intros E.
  apply app_inj_1 in E as [Ever E]; [|by rewrite !length_ser]. apply app_inj_1 in E as [Epre E]; [|by unfold GetPrevoutHash; rewrite !length_hash].
  apply app_inj_1 in E as [Eseq E]; [|by unfold GetSequenceHash; rewrite !length_hash]. apply app_inj_1 in E as [Eout E]; [|by rewrite !length_outpoint].
  match type of E with vch_Serialize sc ++ ?a = vch_Serialize sc' ++ ?b => pose proof (reads_vch sc a Hsc) as R; rewrite E, (reads_vch sc' b Hsc') in R end.
  apply (inj Some) in R. clear E. pose proof (f_equal fst R) as Esc. pose proof (eq_sym (f_equal snd R)) as E. cbn [fst snd id] in Esc, E. clear R.
  apply app_inj_1 in E as [Eam E]; [|by rewrite !length_ser]. apply app_inj_1 in E as [Eq E]; [|by rewrite !length_ser].
  apply app_inj_1 in E as [Eouts E]; [|by unfold GetOutputsHash; rewrite !length_hash]. apply app_inj_1 in E as [Elock _]; [|by rewrite !length_ser].
  destruct (hash_binds _ _ _ Epre) as [|Epre']; [by left; left|]. destruct (hash_binds _ _ _ Eseq) as [|Eseq']; [by left; right; left|]. destruct (hash_binds _ _ _ Eouts) as [|Eouts']; [by left; right; right|]. right.
  unfold is_u32 in *. split.
  - apply (ser_inj 2); [simpl; lia..|done].
  - rewrite <- !(map_map prevout outpoint_Serialize) in Epre'. rewrite <- (map_id (map prevout (vin tx))), <- (map_id (map prevout (vin tx'))).
    apply (concat_reads_inj outpoint_ok _ _ _ _ _ reads_outpoint); [intros x Hx; apply (f_equal length) in Hx; rewrite length_outpoint in Hx; done| | |done]; apply Forall_map; (eapply Forall_impl; [eassumption|]); intros x (A & B & _); by split.
  - rewrite <- !(map_map nSequence (ser_writedata 4)) in Eseq'. rewrite <- (map_id (map nSequence (vin tx))), <- (map_id (map nSequence (vin tx'))).
    apply (concat_reads_inj is_u32 (ser_writedata 4) (ser_readdata 4) id); [intros x rest Hx; unfold is_u32 in Hx; rewrite ser_read_write by (simpl; lia); done|done| | |done];
      apply Forall_map; (eapply Forall_impl; [eassumption|]); intros x (_ & _ & _ & B & _); exact B.
  - pose proof (reads_outpoint (prevout txin) [] ltac:(by split)) as R. rewrite Eout, (reads_outpoint (prevout txin') [] ltac:(by split)) in R. apply (inj Some), (f_equal fst) in R. cbn in R.
    split; [done|]. apply (ser_inj 4); [simpl; lia..|done].
  - done.
  - apply (f_equal (fun b => swrap 64 (le_value b))) in Eam. unfold ser_writedata in Eam. rewrite !le_value_mod in Eam. change (8 * Z.of_nat 8) with 64 in Eam.
    unfold is_s64 in Ha, Ha'. rewrite !(swrap_mod 64) in Eam by lia. done.
  - rewrite <- (map_id (vout tx)), <- (map_id (vout tx')). apply (concat_reads_inj txout_ok _ _ _ _ _ reads_txout); [|done..]. intros x Hx. apply (f_equal length) in Hx. unfold TxOut_Serialize in Hx. rewrite length_app, length_ser in Hx. cbn in Hx. lia.
  - apply (ser_inj 4); [simpl; lia..|done].
Qed.

(** C20. What a signature of version 0 and of the usual type signs: the hashes of two spends are equal exactly when the spends agree on [signs_same], or else messages that
    were hashed on the way collide.  The type and the payload of a special transaction are not among what is signed: spends that differ in them alone have one hash. *)
Theorem witness_signature_scope junk sc sc' tx tx' nIn nIn' txin txin' t amount amount' :
  fHashNone t = false -> fHashSingle t = false -> fAnyoneCanPay t = false -> tx_ok (Mutable_of tx) -> tx_ok (Mutable_of tx') ->
  bytes_ok sc -> bytes_ok sc' -> is_s64 amount -> is_s64 amount' -> vin tx !! nIn = Some txin -> vin tx' !! nIn' = Some txin' ->
  let h := SignatureHash junk sc tx nIn t amount SIGVERSION_WITNESS_V0 None in
  let h' := SignatureHash junk sc' tx' nIn' t amount' SIGVERSION_WITNESS_V0 None in
  (signs_same sc sc' tx tx' txin txin' amount amount' -> h = h') /\
  (h = h' -> signs_same sc sc' tx tx' txin txin' amount amount' \/ witness_collides junk tx tx' \/
     collides junk (witness_pieces junk sc tx nIn txin t amount None) (witness_pieces junk sc' tx' nIn' txin' t amount' None)).
Proof.
  intros En Es Ea Hm Hm' Hsc Hsc' Ha Ha' Ei Ei'. cbv zeta. unfold SignatureHash. rewrite Ei, Ei'. cbn [mbind option_bind]. split.
  - intros Hsame. by rewrite (witness_pieces_same junk sc sc' tx tx' nIn nIn' txin txin' t amount amount' En Es Hsame).
  - intros E. apply (inj Some) in E. destruct (hash_binds _ _ _ E) as [|Ec]; [by right; right|].
    assert (Hi : forall m j x, tx_ok m -> m_vin m !! j = Some x -> txin_ok x). { intros m j x [_ _ [Hins _] _ _ _] Hx. rewrite Forall_lookup in Hins. by apply (Hins j). }
    destruct (witness_pieces_binds _ _ _ _ _ _ _ _ _ _ _ _ En Es Ea Hm Hm' (Hi _ _ _ Hm Ei) (Hi _ _ _ Hm' Ei') Hsc Hsc' Ha Ha' Ec); [by right; left|by left].
Qed.

(** The cached hashes of a transaction are those that are computed without them. *)
Lemma witness_pieces_cached junk sc tx nIn txin t amount :
  witness_pieces junk sc tx nIn txin t amount (Some (Precomputed_new junk tx)) = witness_pieces junk sc tx nIn txin t amount None.
Proof. unfold witness_pieces, Precomputed_new. by destruct (HasWitness (vin tx)). Qed.
Theorem precomputed_hash_same junk sc tx nIn t amount v :
  SignatureHash junk sc tx nIn t amount v (Some (Precomputed_new junk tx)) = SignatureHash junk sc tx nIn t amount v None.
Proof. unfold SignatureHash. destruct (vin tx !! nIn) as [txin|]; cbn [mbind option_bind]; [|exact eq_refl]. rewrite witness_pieces_cached. exact eq_refl. Qed.

(** A payment of two inputs signed for its first, with a code separator in the script, and a registration whose payload is changed after its witness input is signed. *)
Module SigSample.
Definition code : CScript := [118; OP_CODESEPARATOR; 169; 1; 7; OP_CODESEPARATOR].
Definition tx (nType : Z) (payload : list Z) : CTransaction :=
  mkTx 5 3 nType [mkTxIn (17, 1) [] 0xffffffff []; mkTxIn (19, 0) [81] 5 []] [mkTxOut 1000 [118; 169] (-10)] 77 payload.
End SigSample.
Lemma sample_code_parses : parses SigSample.code.
Proof. repeat (eapply parses_op; [reflexivity|]). constructor. Qed.
Lemma signature_hash_is_reference_witness :
  SignatureHash [] SigSample.code (SigSample.tx 0 []) 0 1 0 SIGVERSION_BASE None = Some (SignatureHashOld [] SigSample.code (Mutable_of (SigSample.tx 0 [])) 0 1).
Proof. apply (proj2 (signature_hash_is_reference [] SigSample.code (SigSample.tx 0 []) 0 1 0 None sample_code_parses ltac:(cbn; lia))). reflexivity. Defined.
Lemma sample_tx_ok payload : bytes_ok payload -> tx_ok (Mutable_of (SigSample.tx 1 payload)).
Proof. intros Hp. split; try done; cbn; (split; [|done]); repeat constructor; cbn; unfold is_u8, is_u32, MAX_SIZE; lia. Qed.
(** The payloads of the two registrations differ; their inputs have the same hash to sign. *)
Lemma witness_signature_scope_witness :
  vExtraPayload (SigSample.tx 1 [1]) <> vExtraPayload (SigSample.tx 1 [2]) /\
  SignatureHash [] [] (SigSample.tx 1 [1]) 0 1 50 SIGVERSION_WITNESS_V0 None = SignatureHash [] [] (SigSample.tx 1 [2]) 0 1 50 SIGVERSION_WITNESS_V0 None.
Proof.
  split; [done|]. assert (Hb : forall x, is_u8 x -> bytes_ok [x]) by (intros x Hx; split; [by apply Forall_singleton|done]). assert (Hn : bytes_ok []) by (split; [constructor|done]).
  refine (proj1 (witness_signature_scope [] [] [] (SigSample.tx 1 [1]) (SigSample.tx 1 [2]) 0 0 _ _ 1 50 50 eq_refl eq_refl eq_refl _ _ Hn Hn _ _ eq_refl eq_refl) _);
    [apply sample_tx_ok, Hb; unfold is_u8; lia|apply sample_tx_ok, Hb; unfold is_u8; lia|unfold is_s64; lia|unfold is_s64; lia|by split].
Defined.
