(* ===== verification/AddrMan.v ===== *)
(** The address manager ([addrman.h], [addrman.cpp]): the addresses of peers that the node knows, in buckets for those not tried yet and those that worked.
    References into [mapInfo] are identifiers; a failed assertion is [None].  Random numbers are arguments, and so is the time. *)

From stdpp Require Import prelude gmap sorting.
From Stdlib Require Import ZArith Lia.
From S2P Require Import Prelude Serialize Hashes NetAddress TxFormat.

Open Scope Z_scope.

(** ** Entries *)

Record CAddress := mkAddress { service : CService; nServices : Z; nTime : Z }.
Definition Address_new : CAddress := mkAddress Service_new 0 100000000.
(** On disk: the version of the client and the time are written. *)
Definition Address_Serialize (nVersion : Z) (a : CAddress) : stream :=
  ser_writedata 4 nVersion ++ ser_writedata 4 (nTime a) ++ ser_writedata 8 (nServices a) ++ Service_Serialize (service a).
Definition Address_Unserialize : reader CAddress := fun s =>
  '(_, s) ← ser_readdata 4 s; '(nTime, s) ← ser_readdata 4 s; '(nServices, s) ← ser_readdata 8 s; '(service, s) ← Service_Unserialize 0 s;
  Some (mkAddress service nServices nTime, s).

Record CAddrInfo := mkInfo {
  address : CAddress;
  nLastTry : Z;
  nLastCountAttempt : Z;
  source : CNetAddr;
  nLastSuccess : Z;
  nAttempts : Z;
  nRefCount : Z;
  fInTried : bool;
  nRandomPos : Z
}.
Definition Info_new (addrIn : CAddress) (addrSource : CNetAddr) : CAddrInfo := mkInfo addrIn 0 0 addrSource 0 0 0 false (-1).
Definition Info_empty : CAddrInfo := Info_new Address_new NetAddr_new.
Definition Info_Serialize (nVersion : Z) (i : CAddrInfo) : stream :=
  Address_Serialize nVersion (address i) ++ NetAddr_Serialize (source i) ++ ser_writedata 8 (nLastSuccess i) ++ ser_writedata 4 (nAttempts i).
Definition Info_Unserialize : reader CAddrInfo := fun s =>
  '(address, s) ← Address_Unserialize s; '(source, s) ← NetAddr_Unserialize 0 s; '(nLastSuccess, s) ← ser_readdata 8 s; '(nAttempts, s) ← ser_readdata 4 s;
  Some (mkInfo address 0 0 source (s64 nLastSuccess) (s32 nAttempts) 0 false (-1), s).

Definition set_address (i : CAddrInfo) (a : CAddress) : CAddrInfo :=
  mkInfo a (nLastTry i) (nLastCountAttempt i) (source i) (nLastSuccess i) (nAttempts i) (nRefCount i) (fInTried i) (nRandomPos i).
Definition set_nTime (i : CAddrInfo) (t : Z) : CAddrInfo := set_address i (mkAddress (service (address i)) (nServices (address i)) t).
Definition set_nServices (i : CAddrInfo) (n : Z) : CAddrInfo := set_address i (mkAddress (service (address i)) n (nTime (address i))).
Definition set_nRefCount (i : CAddrInfo) (n : Z) : CAddrInfo :=
  mkInfo (address i) (nLastTry i) (nLastCountAttempt i) (source i) (nLastSuccess i) (nAttempts i) n (fInTried i) (nRandomPos i).
Definition set_fInTried (i : CAddrInfo) (b : bool) : CAddrInfo :=
  mkInfo (address i) (nLastTry i) (nLastCountAttempt i) (source i) (nLastSuccess i) (nAttempts i) (nRefCount i) b (nRandomPos i).
Definition set_nRandomPos (i : CAddrInfo) (p : Z) : CAddrInfo :=
  mkInfo (address i) (nLastTry i) (nLastCountAttempt i) (source i) (nLastSuccess i) (nAttempts i) (nRefCount i) (fInTried i) p.

Definition ADDRMAN_TRIED_BUCKET_COUNT : Z := 2 ^ 8.
Definition ADDRMAN_NEW_BUCKET_COUNT : Z := 2 ^ 10.
Definition ADDRMAN_BUCKET_SIZE : Z := 2 ^ 6.
Definition ADDRMAN_TRIED_BUCKETS_PER_GROUP : Z := 8.
Definition ADDRMAN_NEW_BUCKETS_PER_SOURCE_GROUP : Z := 64.
Definition ADDRMAN_NEW_BUCKETS_PER_ADDRESS : Z := 8.
Definition ADDRMAN_HORIZON_DAYS : Z := 30.
Definition ADDRMAN_RETRIES : Z := 3.
Definition ADDRMAN_MAX_FAILURES : Z := 10.
Definition ADDRMAN_MIN_FAIL_DAYS : Z := 7.
Definition ADDRMAN_GETADDR_MAX_PCT : Z := 23.
Definition ADDRMAN_GETADDR_MAX : Z := 2500.

Definition IsTerrible (i : CAddrInfo) (nNow : Z) : bool :=
  let t := nTime (address i) in
  if negb (nLastTry i =? 0) && (nNow - 60 <=? nLastTry i) then false
  else if nNow + 10 * 60 <? t then true
  else if (t =? 0) || (ADDRMAN_HORIZON_DAYS * 24 * 60 * 60 <? nNow - t) then true
  else if (nLastSuccess i =? 0) && (ADDRMAN_RETRIES <=? nAttempts i) then true
  else if (ADDRMAN_MIN_FAIL_DAYS * 24 * 60 * 60 <? nNow - nLastSuccess i) && (ADDRMAN_MAX_FAILURES <=? nAttempts i) then true
  else false.

(** ** The manager *)

(** [mapAddr] is ordered by the bytes and the port of a service.  A bucket that is not in the table holds -1. *)
Record CAddrMan := mkAddrMan {
  nIdCount : Z;
  mapInfo : gmap Z CAddrInfo;
  mapAddr : gmap (list Z * Z) Z;
  vRandom : list Z;
  nTried : Z;
  vvTried : gmap (Z * Z) Z;
  nNew : Z;
  vvNew : gmap (Z * Z) Z;
  nLastGood : Z;
  discriminatePorts : bool;
  nKey : stream
}.
Definition slot (vv : gmap (Z * Z) Z) (bucket pos : Z) : Z := default (-1) (vv !! (bucket, pos)).
Definition set_slot (vv : gmap (Z * Z) Z) (bucket pos id : Z) : gmap (Z * Z) Z := <[(bucket, pos) := id]> vv.

Definition set_mapInfo (m : CAddrMan) (x : gmap Z CAddrInfo) : CAddrMan :=
  mkAddrMan (nIdCount m) x (mapAddr m) (vRandom m) (nTried m) (vvTried m) (nNew m) (vvNew m) (nLastGood m) (discriminatePorts m) (nKey m).
Definition set_info (m : CAddrMan) (nId : Z) (i : CAddrInfo) : CAddrMan := set_mapInfo m (<[nId := i]> (mapInfo m)).
Definition set_nNew (m : CAddrMan) (n : Z) : CAddrMan :=
  mkAddrMan (nIdCount m) (mapInfo m) (mapAddr m) (vRandom m) (nTried m) (vvTried m) n (vvNew m) (nLastGood m) (discriminatePorts m) (nKey m).
Definition set_nTried (m : CAddrMan) (n : Z) : CAddrMan :=
  mkAddrMan (nIdCount m) (mapInfo m) (mapAddr m) (vRandom m) n (vvTried m) (nNew m) (vvNew m) (nLastGood m) (discriminatePorts m) (nKey m).
Definition set_vvNew (m : CAddrMan) (x : gmap (Z * Z) Z) : CAddrMan :=
  mkAddrMan (nIdCount m) (mapInfo m) (mapAddr m) (vRandom m) (nTried m) (vvTried m) (nNew m) x (nLastGood m) (discriminatePorts m) (nKey m).
Definition set_vvTried (m : CAddrMan) (x : gmap (Z * Z) Z) : CAddrMan :=
  mkAddrMan (nIdCount m) (mapInfo m) (mapAddr m) (vRandom m) (nTried m) x (nNew m) (vvNew m) (nLastGood m) (discriminatePorts m) (nKey m).
Definition set_nLastGood (m : CAddrMan) (t : Z) : CAddrMan :=
  mkAddrMan (nIdCount m) (mapInfo m) (mapAddr m) (vRandom m) (nTried m) (vvTried m) (nNew m) (vvNew m) t (discriminatePorts m) (nKey m).
(** [mapInfo[nId]], which adds an empty entry where there is none. *)
Definition at_info (m : CAddrMan) (nId : Z) : CAddrMan * CAddrInfo :=
  match mapInfo m !! nId with
  | Some i => (m, i)
  | None => (set_info m nId Info_empty, Info_empty)
  end.

(** [nKeyIn] is [GetRandHash()]. *)
Definition Clear (m : CAddrMan) (nKeyIn : stream) : CAddrMan := mkAddrMan 0 ∅ ∅ [] 0 ∅ 0 ∅ 1 (discriminatePorts m) nKeyIn.
Definition AddrMan_new (discriminatePorts : bool) (nKeyIn : stream) : CAddrMan :=
  Clear (mkAddrMan 0 ∅ ∅ [] 0 ∅ 0 ∅ 0 discriminatePorts []) nKeyIn.
Definition AddrMan_size (m : CAddrMan) : Z := Z.of_nat (length (vRandom m)).

(** The key of a service in [mapAddr]. *)
Definition full_key (s : CService) : list Z * Z := (ip (netaddr s), port s).
Definition addr_key (m : CAddrMan) (s : CService) : list Z * Z := full_key (if negb (discriminatePorts m) then SetPort s 0 else s).

Definition Find (m : CAddrMan) (addr : CService) : option (Z * CAddrInfo) :=
  nId ← mapAddr m !! addr_key m addr; info ← mapInfo m !! nId; Some (nId, info).
(** The identifiers are of type [int]; the last one is not handed out. *)
Definition Create (m : CAddrMan) (addr : CAddress) (addrSource : CNetAddr) : option (CAddrMan * Z) :=
  let nId := nIdCount m in
  if 2 ^ 31 - 1 <=? nId then None
  else
    let info := set_nRandomPos (Info_new addr addrSource) (AddrMan_size m) in
    Some (mkAddrMan (nId + 1) (<[nId := info]> (mapInfo m)) (<[addr_key m (service addr) := nId]> (mapAddr m)) (vRandom m ++ [nId]) (nTried m) (vvTried m) (nNew m) (vvNew m)
            (nLastGood m) (discriminatePorts m) (nKey m), nId).
(** The positions are of type [unsigned int]. *)
Definition SwapRandom (m : CAddrMan) (nRndPos1 nRndPos2 : Z) : option CAddrMan :=
  if nRndPos1 =? nRndPos2 then Some m
  else
    nId1 ← vRandom m !! Z.to_nat nRndPos1;
    nId2 ← vRandom m !! Z.to_nat nRndPos2;
    info1 ← mapInfo m !! nId1;
    _ ← mapInfo m !! nId2;
    let m := set_info m nId1 (set_nRandomPos info1 nRndPos2) in
    info2 ← mapInfo m !! nId2;
    let m := set_info m nId2 (set_nRandomPos info2 nRndPos1) in
    Some (mkAddrMan (nIdCount m) (mapInfo m) (mapAddr m) (<[Z.to_nat nRndPos2 := nId1]> (<[Z.to_nat nRndPos1 := nId2]> (vRandom m))) (nTried m) (vvTried m) (nNew m) (vvNew m)
            (nLastGood m) (discriminatePorts m) (nKey m)).
Definition Delete (m : CAddrMan) (nId : Z) : option CAddrMan :=
  info ← mapInfo m !! nId;
  if fInTried info || negb (nRefCount info =? 0) then None
  else
    let addr := addr_key m (service (address info)) in
    m ← SwapRandom m (u32 (nRandomPos info)) (u32 (AddrMan_size m - 1));
    if AddrMan_size m =? 0 then None
    else Some (mkAddrMan (nIdCount m) (delete nId (mapInfo m)) (delete addr (mapAddr m)) (removelast (vRandom m)) (nTried m) (vvTried m) (nNew m - 1) (vvNew m)
                 (nLastGood m) (discriminatePorts m) (nKey m)).
Definition ClearNew (m : CAddrMan) (nUBucket nUBucketPos : Z) : option CAddrMan :=
  let nIdDelete := slot (vvNew m) nUBucket nUBucketPos in
  if nIdDelete =? -1 then Some m
  else
    let '(m, infoDelete) := at_info m nIdDelete in
    if negb (0 <? nRefCount infoDelete) then None
    else
      let infoDelete := set_nRefCount infoDelete (nRefCount infoDelete - 1) in
      let m := set_vvNew (set_info m nIdDelete infoDelete) (set_slot (vvNew m) nUBucket nUBucketPos (-1)) in
      if nRefCount infoDelete =? 0 then Delete m nIdDelete else Some m.

(** *** Where an entry belongs *)

(** What the tables ask of an entry: its bucket in the table of tried addresses, its bucket in the other table for a source, and its position in a bucket. *)
Class BucketChoice := {
  GetTriedBucket : CAddrInfo -> stream -> Z;
  GetNewBucket : CAddrInfo -> stream -> CNetAddr -> Z;
  GetBucketPosition : CAddrInfo -> stream -> bool -> Z -> Z
}.
(** The answers are in range and depend on the service of the entry only. *)
Class BucketChoiceSpec (B : BucketChoice) : Prop := {
  tried_bucket_range : forall i key, 0 <= GetTriedBucket i key < ADDRMAN_TRIED_BUCKET_COUNT;
  new_bucket_range : forall i key src, 0 <= GetNewBucket i key src < ADDRMAN_NEW_BUCKET_COUNT;
  position_range : forall i key fNew b, 0 <= GetBucketPosition i key fNew b < ADDRMAN_BUCKET_SIZE;
  tried_bucket_ext : forall i j key, service (address i) = service (address j) -> GetTriedBucket i key = GetTriedBucket j key;
  position_ext : forall i j key fNew b, service (address i) = service (address j) -> GetBucketPosition i key fNew b = GetBucketPosition j key fNew b
}.

(** The choice of the program, by a keyed hash.  [junk] is what the unset buffer of the hasher holds; private networks are allowed or not. *)
Section Hashed.
Variables (junk : stream) (fAllowPrivateNet : bool).
Definition GetCheapHash (pieces : list stream) : Z := le_value (take 8 (Hash junk pieces)).
Definition Info_GetKey (i : CAddrInfo) : list Z := GetKey (service (address i)).
Definition Info_GetGroup (i : CAddrInfo) : list Z := GetGroup fAllowPrivateNet (netaddr (service (address i))).
Definition hashed_TriedBucket (i : CAddrInfo) (nKey : stream) : Z :=
  let hash1 := GetCheapHash [nKey; vch_Serialize (Info_GetKey i)] in
  let hash2 := GetCheapHash [nKey; vch_Serialize (Info_GetGroup i); ser_writedata 8 (hash1 mod ADDRMAN_TRIED_BUCKETS_PER_GROUP)] in
  hash2 mod ADDRMAN_TRIED_BUCKET_COUNT.
Definition hashed_NewBucket (i : CAddrInfo) (nKey : stream) (src : CNetAddr) : Z :=
  let vchSourceGroupKey := GetGroup fAllowPrivateNet src in
  let hash1 := GetCheapHash [nKey; vch_Serialize (Info_GetGroup i); vch_Serialize vchSourceGroupKey] in
  let hash2 := GetCheapHash [nKey; vch_Serialize vchSourceGroupKey; ser_writedata 8 (hash1 mod ADDRMAN_NEW_BUCKETS_PER_SOURCE_GROUP)] in
  hash2 mod ADDRMAN_NEW_BUCKET_COUNT.
(** ['N'] and ['K'] *)
Definition hashed_Position (i : CAddrInfo) (nKey : stream) (fNew : bool) (nBucket : Z) : Z :=
  let hash1 := GetCheapHash [nKey; [if fNew then 78 else 75]; ser_writedata 4 nBucket; vch_Serialize (Info_GetKey i)] in
  hash1 mod ADDRMAN_BUCKET_SIZE.
#[local] Opaque Hash.
Definition hashed : BucketChoice := {| GetTriedBucket := hashed_TriedBucket; GetNewBucket := hashed_NewBucket; GetBucketPosition := hashed_Position |}.
#[export] Instance hashed_spec : BucketChoiceSpec hashed.
Proof.
  split; intros; try (apply Z.mod_pos_bound; done); cbn [hashed GetTriedBucket GetBucketPosition]; unfold hashed_TriedBucket, hashed_Position, Info_GetKey, Info_GetGroup; congruence.
Qed.
End Hashed.

Section Operations.
Context `{B : BucketChoice}.
(** Whether private networks are allowed. *)
Variable fAllowPrivateNet : bool.

(** ** Moving between the tables *)

(** One step of the loop over the buckets: [nId] leaves its place in the bucket. *)
Definition leave_bucket (nId : Z) (m : CAddrMan) (bucket : Z) : option CAddrMan :=
  info ← mapInfo m !! nId;
  let pos := GetBucketPosition info (nKey m) true bucket in
  if slot (vvNew m) bucket pos =? nId then
    Some (set_vvNew (set_info m nId (set_nRefCount info (nRefCount info - 1))) (set_slot (vvNew m) bucket pos (-1)))
  else Some m.
Definition foldM {S A : Type} (f : S -> A -> option S) : S -> list A -> option S :=
  fix go s l := match l with [] => Some s | x :: l => s ← f s x; go s l end.
(** The entry of the tried table at that place goes back to the new table. *)
Definition evict (m : CAddrMan) (nKBucket nKBucketPos : Z) : option CAddrMan :=
  let nIdEvict := slot (vvTried m) nKBucket nKBucketPos in
  if nIdEvict =? -1 then Some m
  else
    infoOld ← mapInfo m !! nIdEvict;
    let m := set_info m nIdEvict (set_fInTried infoOld false) in
    let m := set_nTried (set_vvTried m (set_slot (vvTried m) nKBucket nKBucketPos (-1))) (nTried m - 1) in
    let nUBucket := GetNewBucket infoOld (nKey m) (source infoOld) in
    let nUBucketPos := GetBucketPosition infoOld (nKey m) true nUBucket in
    m ← ClearNew m nUBucket nUBucketPos;
    if negb (slot (vvNew m) nUBucket nUBucketPos =? -1) then None
    else
      infoOld ← mapInfo m !! nIdEvict;
      let m := set_info m nIdEvict (set_nRefCount infoOld 1) in
      Some (set_nNew (set_vvNew m (set_slot (vvNew m) nUBucket nUBucketPos nIdEvict)) (nNew m + 1)).
Definition MakeTried (m : CAddrMan) (nId : Z) : option CAddrMan :=
  m ← foldM (leave_bucket nId) m (seqZ 0 ADDRMAN_NEW_BUCKET_COUNT);
  let m := set_nNew m (nNew m - 1) in
  info ← mapInfo m !! nId;
  if negb (nRefCount info =? 0) then None
  else
    let nKBucket := GetTriedBucket info (nKey m) in
    let nKBucketPos := GetBucketPosition info (nKey m) false nKBucket in
    m ← evict m nKBucket nKBucketPos;
    if negb (slot (vvTried m) nKBucket nKBucketPos =? -1) then None
    else
      let m := set_nTried (set_vvTried m (set_slot (vvTried m) nKBucket nKBucketPos nId)) (nTried m + 1) in
      info ← mapInfo m !! nId;
      Some (set_info m nId (set_fInTried info true)).

(** ** Operations *)

(** The search for a bucket that holds the entry, from a random one on. *)
Definition find_bucket (m : CAddrMan) (nId : Z) (info : CAddrInfo) (nRnd : Z) : option Z :=
  head (filter (fun nB => slot (vvNew m) nB (GetBucketPosition info (nKey m) true nB) = nId)
               (map (fun n => (n + nRnd) mod ADDRMAN_NEW_BUCKET_COUNT) (seqZ 0 ADDRMAN_NEW_BUCKET_COUNT))).
Definition Good_ (m : CAddrMan) (addr : CService) (nTimeIn nRnd : Z) : option CAddrMan :=
  let m := set_nLastGood m nTimeIn in
  match Find m addr with
  | None => Some m
  | Some (nId, info) =>
      if Service_ne (service (address info)) addr then Some m
      else
        let info := mkInfo (address info) nTimeIn (nLastCountAttempt info) (source info) nTimeIn 0 (nRefCount info) (fInTried info) (nRandomPos info) in
        let m := set_info m nId info in
        if fInTried info then Some m
        else
          match find_bucket m nId info nRnd with
          | None => Some m
          | Some _ => MakeTried m nId
          end
  end.

(** The entry that was found takes over time and services. *)
Definition updated_entry (info : CAddrInfo) (addr : CAddress) (nTimePenalty nNow : Z) : CAddrInfo :=
  let fCurrentlyOnline := nNow - nTime addr <? 24 * 60 * 60 in
  let nUpdateInterval := if fCurrentlyOnline then 60 * 60 else 24 * 60 * 60 in
  let t := nTime (address info) in
  let info :=
    if negb (nTime addr =? 0) && ((t =? 0) || (t <? nTime addr - nUpdateInterval - nTimePenalty)) then set_nTime info (u32 (Z.max 0 (nTime addr - nTimePenalty)))
    else info in
  set_nServices info (Z.lor (nServices (address info)) (nServices addr)).
Definition may_add_reference (info : CAddrInfo) (addr : CAddress) (nRnd : Z) : bool :=
  if (nTime addr =? 0) || (negb (nTime (address info) =? 0) && (nTime addr <=? nTime (address info))) then false
  else if fInTried info then false
  else if nRefCount info =? ADDRMAN_NEW_BUCKETS_PER_ADDRESS then false
  else
    let nFactor := 2 ^ nRefCount info in
    if (1 <? nFactor) && negb (nRnd =? 0) then false else true.
(** The entry gets a place in the bucket of the source, if the place is free or its entry is worth less. *)
Definition place (m : CAddrMan) (nId : Z) (src : CNetAddr) (nNow : Z) : option CAddrMan :=
  info ← mapInfo m !! nId;
  let nUBucket := GetNewBucket info (nKey m) src in
  let nUBucketPos := GetBucketPosition info (nKey m) true nUBucket in
  let nIdExisting := slot (vvNew m) nUBucket nUBucketPos in
  if nIdExisting =? nId then Some m
  else
    let '(m, fInsert) :=
      if nIdExisting =? -1 then (m, true)
      else let '(m, infoExisting) := at_info m nIdExisting in (m, IsTerrible infoExisting nNow || ((1 <? nRefCount infoExisting) && (nRefCount info =? 0))) in
    if fInsert then
      m ← ClearNew m nUBucket nUBucketPos;
      info ← mapInfo m !! nId;
      Some (set_vvNew (set_info m nId (set_nRefCount info (nRefCount info + 1))) (set_slot (vvNew m) nUBucket nUBucketPos nId))
    else if nRefCount info =? 0 then Delete m nId
    else Some m.
Definition Add_ (m : CAddrMan) (addr : CAddress) (src : CNetAddr) (nTimePenalty nNow nRnd : Z) : option (CAddrMan * bool) :=
  if negb (IsRoutable fAllowPrivateNet (netaddr (service addr))) then Some (m, false)
  else
    let nTimePenalty := if NetAddr_eq (netaddr (service addr)) src then 0 else nTimePenalty in
    match Find m (service addr) with
    | Some (nId, info) =>
        let info := updated_entry info addr nTimePenalty nNow in
        let m := set_info m nId info in
        if negb (may_add_reference info addr nRnd) then Some (m, false)
        else m ← place m nId src nNow; Some (m, false)
    | None =>
        '(m, nId) ← Create m addr src;
        info ← mapInfo m !! nId;
        let m := set_info m nId (set_nTime info (u32 (Z.max 0 (nTime (address info) - nTimePenalty)))) in
        let m := set_nNew m (nNew m + 1) in
        m ← place m nId src nNow; Some (m, true)
    end.
(** [Add] of several addresses; every one draws its own random number. *)
Definition Add_all (m : CAddrMan) (vAddr : list (CAddress * Z)) (src : CNetAddr) (nTimePenalty nNow : Z) : option (CAddrMan * bool) :=
  '(m, nAdd) ← foldM (fun '(m, nAdd) '(addr, nRnd) => '(m, fNew) ← Add_ m addr src nTimePenalty nNow nRnd; Some (m, nAdd + if fNew : bool then 1 else 0)) (m, 0) vAddr;
  Some (m, 0 <? nAdd).

(** The entry of exactly this service is changed by [f]. *)
Definition with_entry (m : CAddrMan) (addr : CService) (f : CAddrInfo -> CAddrInfo) : CAddrMan :=
  match Find m addr with
  | None => m
  | Some (nId, info) => if Service_ne (service (address info)) addr then m else set_info m nId (f info)
  end.
Definition Attempt_ (m : CAddrMan) (addr : CService) (fCountFailure : bool) (nTimeIn : Z) : CAddrMan :=
  with_entry m addr (fun info =>
    let counted := fCountFailure && (nLastCountAttempt info <? nLastGood m) in
    mkInfo (address info) nTimeIn (if counted then nTimeIn else nLastCountAttempt info) (source info) (nLastSuccess info)
           (if counted then nAttempts info + 1 else nAttempts info) (nRefCount info) (fInTried info) (nRandomPos info)).
Definition Connected_ (m : CAddrMan) (addr : CService) (nTimeIn : Z) : CAddrMan :=
  with_entry m addr (fun info => if 20 * 60 <? nTimeIn - nTime (address info) then set_nTime info (u32 nTimeIn) else info).
Definition SetServices_ (m : CAddrMan) (addr : CService) (nServicesIn : Z) : CAddrMan :=
  with_entry m addr (fun info => set_nServices info nServicesIn).
Definition GetAddressInfo_ (m : CAddrMan) (addr : CService) : CAddrInfo :=
  match Find m addr with
  | None => Info_empty
  | Some (_, info) => if Service_ne (service (address info)) addr then Info_empty else info
  end.

(** ** Selection *)

(** [rnd n] is the number drawn in round [n]. *)
Fixpoint getaddr_loop (fuel : nat) (n : Z) (m : CAddrMan) (nNodes nNow : Z) (rnd : Z -> Z) (vAddr : list CAddress) : option (CAddrMan * list CAddress) :=
  match fuel with
  | O => Some (m, vAddr)
  | S fuel =>
      if nNodes <=? Z.of_nat (length vAddr) then Some (m, vAddr)
      else
        m ← SwapRandom m n (u32 (rnd n + n));
        nId ← vRandom m !! Z.to_nat n;
        ai ← mapInfo m !! nId;
        getaddr_loop fuel (n + 1) m nNodes nNow rnd (if negb (IsTerrible ai nNow) then vAddr ++ [address ai] else vAddr)
  end.
Definition GetAddr_ (m : CAddrMan) (nNow : Z) (rnd : Z -> Z) : option (CAddrMan * list CAddress) :=
  let nNodes := ADDRMAN_GETADDR_MAX_PCT * AddrMan_size m / 100 in
  let nNodes := if ADDRMAN_GETADDR_MAX <? nNodes then ADDRMAN_GETADDR_MAX else nNodes in
  getaddr_loop (length (vRandom m)) 0 m nNodes nNow rnd [].

(** The comparison of a random number with the chance of the entry in floating-point arithmetic, in the given round. *)
Variable accepts : nat -> CAddrInfo -> Z -> bool.
Inductive selection := Selected (info : CAddrInfo) | Searching | Failed.
(** The walk to a place that is taken; the numbers drawn are [steps]. *)
Fixpoint probe (vv : gmap (Z * Z) Z) (buckets bucket pos : Z) (steps : list (Z * Z)) : option Z :=
  let nId := slot vv bucket pos in
  if negb (nId =? -1) then Some nId
  else match steps with
       | [] => None
       | (r, r') :: steps => probe vv buckets ((bucket + r) mod buckets) ((pos + r') mod ADDRMAN_BUCKET_SIZE) steps
       end.
(** A round draws a bucket, a position, the steps of the walk and the number that is compared; [Searching] when the numbers run out. *)
Fixpoint select_from (m : CAddrMan) (vv : gmap (Z * Z) Z) (buckets : Z) (k : nat) (rounds : list (Z * Z * list (Z * Z) * Z)) : selection :=
  match rounds with
  | [] => Searching
  | (bucket, pos, steps, r) :: rounds =>
      match probe vv buckets bucket pos steps with
      | None => Searching
      | Some nId =>
          match mapInfo m !! nId with
          | None => Failed
          | Some info => if accepts k info r then Selected info else select_from m vv buckets (S k) rounds
          end
      end
  end.
Definition Select_ (m : CAddrMan) (newOnly : bool) (coin : Z) (rounds : list (Z * Z * list (Z * Z) * Z)) : selection :=
  if AddrMan_size m =? 0 then Selected Info_empty
  else if newOnly && (nNew m =? 0) then Selected Info_empty
  else if negb newOnly && ((0 <? nTried m) && ((nNew m =? 0) || (coin =? 0))) then select_from m (vvTried m) ADDRMAN_TRIED_BUCKET_COUNT 0 rounds
  else select_from m (vvNew m) ADDRMAN_NEW_BUCKET_COUNT 0 rounds.

(** ** The file of addresses *)

Definition by_id (a b : Z * CAddrInfo) : Prop := a.1 <= b.1.
#[export] Instance by_id_dec a b : Decision (by_id a b).
Proof. unfold by_id. apply _. Defined.
Definition in_order (x : gmap Z CAddrInfo) : list (Z * CAddrInfo) := merge_sort by_id (map_to_list x).

(** The entries of the new table with the numbers they get in the file. *)
Fixpoint write_new (nVersion nNew : Z) (l : list (Z * CAddrInfo)) (nIds : Z) (mapUnkIds : gmap Z Z) : option (stream * gmap Z Z) :=
  match l with
  | [] => Some ([], mapUnkIds)
  | (id, info) :: l =>
      let mapUnkIds := <[id := nIds]> mapUnkIds in
      if nRefCount info =? 0 then write_new nVersion nNew l nIds mapUnkIds
      else if nIds =? nNew then None
      else '(bytes, mapUnkIds) ← write_new nVersion nNew l (nIds + 1) mapUnkIds; Some (Info_Serialize nVersion info ++ bytes, mapUnkIds)
  end.
Fixpoint write_tried (nVersion nTried : Z) (l : list (Z * CAddrInfo)) (nIds : Z) : option stream :=
  match l with
  | [] => Some []
  | (_, info) :: l =>
      if negb (fInTried info) then write_tried nVersion nTried l nIds
      else if nIds =? nTried then None
      else bytes ← write_tried nVersion nTried l (nIds + 1); Some (Info_Serialize nVersion info ++ bytes)
  end.
(** [mapUnkIds[nId]] is 0 for an identifier that is not in the map. *)
Definition write_bucket (vv : gmap (Z * Z) Z) (mapUnkIds : gmap Z Z) (bucket : Z) : stream :=
  let taken := filter (fun id => id <> -1) (map (slot vv bucket) (seqZ 0 ADDRMAN_BUCKET_SIZE)) in
  ser_writedata 4 (Z.of_nat (length taken)) ++ concat (map (fun id => ser_writedata 4 (default 0 (mapUnkIds !! id))) taken).
Definition AddrMan_Serialize (nVersion : Z) (m : CAddrMan) : option stream :=
  '(new, mapUnkIds) ← write_new nVersion (nNew m) (in_order (mapInfo m)) 0 ∅;
  tried ← write_tried nVersion (nTried m) (in_order (mapInfo m)) 0;
  Some ([1; 32] ++ nKey m ++ ser_writedata 4 (nNew m) ++ ser_writedata 4 (nTried m) ++ ser_writedata 4 (Z.lxor ADDRMAN_NEW_BUCKET_COUNT (2 ^ 30)) ++
        new ++ tried ++ concat (map (write_bucket (vvNew m) mapUnkIds) (seqZ 0 ADDRMAN_NEW_BUCKET_COUNT))).

Definition read_new (usable : bool) (m : CAddrMan) (n : Z) : reader CAddrMan := fun s =>
  '(info, s) ← Info_Unserialize s;
  let info := set_nRandomPos info (AddrMan_size m) in
  let nUBucket := GetNewBucket info (nKey m) (source info) in
  let nUBucketPos := GetBucketPosition info (nKey m) true nUBucket in
  let refer := negb usable && (slot (vvNew m) nUBucket nUBucketPos =? -1) in
  Some (mkAddrMan (nIdCount m) (<[n := if refer then set_nRefCount info (nRefCount info + 1) else info]> (mapInfo m)) (<[full_key (service (address info)) := n]> (mapAddr m))
          (vRandom m ++ [n]) (nTried m) (vvTried m) (nNew m) (if refer then set_slot (vvNew m) nUBucket nUBucketPos n else vvNew m) (nLastGood m) (discriminatePorts m) (nKey m), s).
(** Entries that find their place taken are counted in [nLost]. *)
Definition read_tried (m : CAddrMan) (nLost : Z) : reader (CAddrMan * Z) := fun s =>
  '(info, s) ← Info_Unserialize s;
  let nKBucket := GetTriedBucket info (nKey m) in
  let nKBucketPos := GetBucketPosition info (nKey m) false nKBucket in
  if slot (vvTried m) nKBucket nKBucketPos =? -1 then
    let info := set_fInTried (set_nRandomPos info (AddrMan_size m)) true in
    let id := nIdCount m in
    Some (mkAddrMan (id + 1) (<[id := info]> (mapInfo m)) (<[full_key (service (address info)) := id]> (mapAddr m)) (vRandom m ++ [id]) (nTried m)
            (set_slot (vvTried m) nKBucket nKBucketPos id) (nNew m) (vvNew m) (nLastGood m) (discriminatePorts m) (nKey m), nLost, s)
  else Some (m, nLost + 1, s).
Definition read_place (usable : bool) (bucket : Z) (m : CAddrMan) : reader CAddrMan := fun s =>
  '(nIndex, s) ← ser_readdata 4 s;
  let nIndex := s32 nIndex in
  if (0 <=? nIndex) && (nIndex <? nNew m) then
    let '(m, info) := at_info m nIndex in
    let nUBucketPos := GetBucketPosition info (nKey m) true bucket in
    if usable && (slot (vvNew m) bucket nUBucketPos =? -1) && (nRefCount info <? ADDRMAN_NEW_BUCKETS_PER_ADDRESS) then
      Some (set_vvNew (set_info m nIndex (set_nRefCount info (nRefCount info + 1))) (set_slot (vvNew m) bucket nUBucketPos nIndex), s)
    else Some (m, s)
  else Some (m, s).
(** A loop that reads. *)
Definition read_loop {S A : Type} (f : S -> A -> reader S) : S -> list A -> reader S :=
  fix go st l s := match l with [] => Some (st, s) | x :: l => '(st, s) ← f st x s; go st l s end.
Definition read_bucket (usable : bool) (m : CAddrMan) (bucket : Z) : reader CAddrMan := fun s =>
  '(nSize, s) ← ser_readdata 4 s; read_loop (fun m _ => read_place usable bucket m) m (seqZ 0 (s32 nSize)) s.
Definition prune (m : CAddrMan) (id : Z) : option CAddrMan :=
  match mapInfo m !! id with
  | Some info => if negb (fInTried info) && (nRefCount info =? 0) then Delete m id else Some m
  | None => Some m
  end.
(** [None] is an exception or a failed assertion. *)
Definition AddrMan_Unserialize (m : CAddrMan) (nKeyIn : stream) : reader CAddrMan := fun s =>
  let m := Clear m nKeyIn in
  '(nVersion, s) ← ser_readdata 1 s;
  '(nKeySize, s) ← ser_readdata 1 s;
  if negb (nKeySize =? 32) then None
  else
    '(key, s) ← read_bytes 32 s;
    '(new, s) ← ser_readdata 4 s;
    '(tried, s) ← ser_readdata 4 s;
    '(nUBuckets, s) ← ser_readdata 4 s;
    let '(new, tried) := (s32 new, s32 tried) in
    let nUBuckets := s32 (if negb (nVersion =? 0) then Z.lxor nUBuckets (2 ^ 30) else nUBuckets) in
    if ADDRMAN_NEW_BUCKET_COUNT * ADDRMAN_BUCKET_SIZE <? new then None
    else if ADDRMAN_TRIED_BUCKET_COUNT * ADDRMAN_BUCKET_SIZE <? tried then None
    else
      let usable := (nVersion =? 1) && (nUBuckets =? ADDRMAN_NEW_BUCKET_COUNT) in
      let m := mkAddrMan (nIdCount m) (mapInfo m) (mapAddr m) (vRandom m) tried (vvTried m) new (vvNew m) (nLastGood m) (discriminatePorts m) key in
      '(m, s) ← read_loop (read_new usable) m (seqZ 0 new) s;
      let m := mkAddrMan new (mapInfo m) (mapAddr m) (vRandom m) (nTried m) (vvTried m) (nNew m) (vvNew m) (nLastGood m) (discriminatePorts m) (nKey m) in
      '(m, nLost, s) ← read_loop (fun '(m, nLost) _ => read_tried m nLost) (m, 0) (seqZ 0 tried) s;
      let m := set_nTried m (nTried m - nLost) in
      '(m, s) ← read_loop (read_bucket usable) m (seqZ 0 nUBuckets) s;
      m ← foldM prune m (map fst (in_order (mapInfo m)));
      Some (m, s).

(** ** The consistency check *)

Record check_state := mkCheck { setTried : gset Z; mapNew : gmap Z Z; ck_mapAddr : gmap (list Z * Z) Z }.
(** [mapAddr[info]] adds a 0 where there is no identifier. *)
Definition check_entry (m : CAddrMan) (st : check_state) (x : Z * CAddrInfo) : Z + check_state :=
  let '(n, info) := x in
  let after (st : check_state) :=
    let key := full_key (service (address info)) in
    let id := default 0 (ck_mapAddr st !! key) in
    if negb (id =? n) then inl (-5)
    else if (nRandomPos info <? 0) || (AddrMan_size m <=? nRandomPos info) || negb (bool_decide (vRandom m !! Z.to_nat (nRandomPos info) = Some n)) then inl (-14)
    else if nLastTry info <? 0 then inl (-6)
    else if nLastSuccess info <? 0 then inl (-8)
    else inr (mkCheck (setTried st) (mapNew st) (<[key := id]> (ck_mapAddr st))) in
  if fInTried info then
    if nLastSuccess info =? 0 then inl (-1)
    else if negb (nRefCount info =? 0) then inl (-2)
    else after (mkCheck ({[n]} ∪ setTried st) (mapNew st) (ck_mapAddr st))
  else if (nRefCount info <? 0) || (ADDRMAN_NEW_BUCKETS_PER_ADDRESS <? nRefCount info) then inl (-3)
  else if nRefCount info =? 0 then inl (-4)
  else after (mkCheck (setTried st) (<[n := nRefCount info]> (mapNew st)) (ck_mapAddr st)).
Definition fold_check {S A : Type} (f : S -> A -> Z + S) : S -> list A -> Z + S :=
  fix go s l := match l with [] => inr s | x :: l => match f s x with inl e => inl e | inr s => go s l end end.
Definition places (buckets : Z) : list (Z * Z) := b ← seqZ 0 buckets; p ← seqZ 0 ADDRMAN_BUCKET_SIZE; [(b, p)].
Definition check_tried (m : CAddrMan) (st : gset Z) (x : Z * Z) : Z + gset Z :=
  let '(n, i) := x in
  let id := slot (vvTried m) n i in
  if id =? -1 then inr st
  else if negb (bool_decide (id ∈ st)) then inl (-11)
  else
    let info := default Info_empty (mapInfo m !! id) in
    if negb (GetTriedBucket info (nKey m) =? n) then inl (-17)
    else if negb (GetBucketPosition info (nKey m) false n =? i) then inl (-18)
    else inr (st ∖ {[id]}).
Definition check_new (m : CAddrMan) (st : gmap Z Z) (x : Z * Z) : Z + gmap Z Z :=
  let '(n, i) := x in
  let id := slot (vvNew m) n i in
  if id =? -1 then inr st
  else match st !! id with
       | None => inl (-12)
       | Some count =>
           let info := default Info_empty (mapInfo m !! id) in
           if negb (GetBucketPosition info (nKey m) true n =? i) then inl (-19)
           else inr (if count - 1 =? 0 then delete id st else <[id := count - 1]> st)
       end.
(** The error, or 0. *)
Definition Check_ (m : CAddrMan) : Z :=
  if negb (AddrMan_size m =? nTried m + nNew m) then -7
  else match fold_check (check_entry m) (mkCheck ∅ ∅ (mapAddr m)) (in_order (mapInfo m)) with
  | inl e => e
  | inr st =>
      if negb (Z.of_nat (base.size (setTried st)) =? nTried m) then -9
      else if negb (Z.of_nat (base.size (mapNew st)) =? nNew m) then -10
      else match fold_check (check_tried m) (setTried st) (places ADDRMAN_TRIED_BUCKET_COUNT) with
      | inl e => e
      | inr left_tried =>
          match fold_check (check_new m) (mapNew st) (places ADDRMAN_NEW_BUCKET_COUNT) with
          | inl e => e
          | inr left_new =>
              if negb (Z.of_nat (base.size left_tried) =? 0) then -13
              else if negb (Z.of_nat (base.size left_new) =? 0) then -15
              else if bool_decide (nKey m = replicate 32 0) then -16
              else 0
          end
      end
  end.
End Operations.
