(* ===== verification/AddrManInv.v ===== *)
(** The consistency of the address manager: the maps, the random order, the buckets and the counters agree whatever operations are called, no assertion fails, and
    the manager's own consistency check passes. *)

From stdpp Require Import prelude gmap sorting.
From Stdlib Require Import ZArith Lia.
From S2P Require Import Prelude Serialize Hashes NetAddress TxFormat AddrMan.

Open Scope Z_scope.

(** ** Counting *)

Definition countb {A : Type} (f : A -> bool) (l : list A) : Z := Z.of_nat (length (List.filter f l)).
Lemma countb_nonneg {A : Type} (f : A -> bool) l : 0 <= countb f l.
Proof. unfold countb. lia. Qed.
Lemma countb_ext {A : Type} (f g : A -> bool) l : (forall x, x ∈ l -> f x = g x) -> countb f l = countb g l.
Proof.
  unfold countb. induction l as [|x l IH]; intros H; [done|]. cbn. apply Forall_forall, Forall_cons in H as [Hx H]. rewrite Hx. rewrite Forall_forall in H. specialize (IH H). destruct (g x); cbn; lia.
Qed.
Lemma countb_zero {A : Type} (f : A -> bool) l : countb f l = 0 <-> forall x, x ∈ l -> f x = false.
Proof.
  unfold countb. rewrite <- Forall_forall. induction l as [|x l IH]; [done|]. rewrite Forall_cons, <- IH. cbn. destruct (f x); cbn; [|tauto]. split; [lia|by intros [? _]].
Qed.
(** One more element satisfies [g]. *)
Lemma countb_flip {A : Type} (f g : A -> bool) l y : NoDup l -> y ∈ l -> f y = false -> g y = true -> (forall x, x <> y -> f x = g x) -> countb g l = countb f l + 1.
Proof.
  intros Hnd Hy Hf Hg Hfg. induction Hnd as [|x l Hx Hnd IH]; [set_solver|]. unfold countb in *. cbn. apply elem_of_cons in Hy as [->|Hy].
  - rewrite Hf, Hg. cbn [length]. pose proof (countb_ext f g l) as E. unfold countb in E. rewrite E; [lia|]. intros z Hz. apply Hfg. set_solver.
  - specialize (IH Hy). rewrite (Hfg x) by set_solver. destruct (g x); cbn [length]; lia.
Qed.

(** How many entries of a map have the value. *)
Definition counts (b : bool) (M : gmap Z bool) : Z := Z.of_nat (base.size (filter (fun x => x.2 = b) M)).
Lemma counts_insert b M id c : M !! id = None -> counts b (<[id := c]> M) = counts b M + if Bool.eqb c b then 1 else 0.
Proof.
  intros H. unfold counts. destruct (Bool.eqb c b) eqn:E.
  - apply eqb_prop in E as ->. rewrite map_filter_insert_True by done. rewrite map_size_insert_None; [lia|]. apply map_lookup_filter_None. by left.
  - apply eqb_false_iff in E. rewrite map_filter_insert_False by (cbn; congruence). rewrite delete_id by done. lia.
Qed.
Lemma counts_delete b M id c : M !! id = Some c -> counts b (delete id M) = counts b M - if Bool.eqb c b then 1 else 0.
Proof. intros H. rewrite <- (insert_delete_id M id c H) at 2. rewrite counts_insert by apply lookup_delete_eq. lia. Qed.
Lemma counts_total M : counts true M + counts false M = Z.of_nat (base.size M).
Proof.
  induction M as [|id c M Hid IH] using map_ind; [done|]. rewrite !counts_insert, map_size_insert_None by done. destruct c; cbn [Bool.eqb]; lia.
Qed.

Section Invariant.
Context `{HB : BucketChoiceSpec}.
Notation position i key b := (GetBucketPosition i key true b).
Notation tried_bucket i key := (GetTriedBucket i key).
Notation tried_position i key := (GetBucketPosition i key false (GetTriedBucket i key)).
Definition same_service (i j : CAddrInfo) : Prop := service (address i) = service (address j).

Lemma slot_set vv b p id b' p' : slot (set_slot vv b p id) b' p' = if decide ((b, p) = (b', p')) then id else slot vv b' p'.
Proof. unfold slot, set_slot. destruct (decide ((b, p) = (b', p'))) as [->|Hne]; [by rewrite lookup_insert_eq|by rewrite lookup_insert_ne]. Qed.

(** ** The buckets *)

(** In how many buckets the entry is. *)
Definition refs (key : stream) (N : gmap (Z * Z) Z) (id : Z) (i : CAddrInfo) : Z :=
  countb (fun b => slot N b (position i key b) =? id) (seqZ 0 ADDRMAN_NEW_BUCKET_COUNT).
Definition entry_ok (key : stream) (N T : gmap (Z * Z) Z) (id : Z) (i : CAddrInfo) : Prop :=
  if fInTried i then nRefCount i = 0 /\ slot T (tried_bucket i key) (tried_position i key) = id
  else nRefCount i = refs key N id i /\ nRefCount i <= ADDRMAN_NEW_BUCKETS_PER_ADDRESS.
Record tables_ok (key : stream) (M : gmap Z CAddrInfo) (N T : gmap (Z * Z) Z) : Prop := {
  t_ids : forall id i, M !! id = Some i -> 0 <= id;
  t_new : forall b p, slot N b p <> -1 -> 0 <= b < ADDRMAN_NEW_BUCKET_COUNT /\ exists i, M !! slot N b p = Some i /\ fInTried i = false /\ p = position i key b;
  t_tried : forall b p, slot T b p <> -1 -> exists i, M !! slot T b p = Some i /\ fInTried i = true /\ b = tried_bucket i key /\ p = tried_position i key;
  t_entry : forall id i, M !! id = Some i -> entry_ok key N T id i
}.

Lemma refs_nonneg key N id i : 0 <= refs key N id i.
Proof. apply countb_nonneg. Qed.
Lemma refs_ext key N id i j : same_service i j -> refs key N id i = refs key N id j.
Proof. intros H. apply countb_ext. intros b _. by rewrite (position_ext i j). Qed.
Lemma refs_other key N b p x y id i : slot N b p = x -> x <> id -> y <> id -> refs key (set_slot N b p y) id i = refs key N id i.
Proof.
  intros Hx Hxi Hyi. apply countb_ext. intros b' _. rewrite slot_set. destruct (decide _) as [E|]; [|done]. pose proof (f_equal fst E) as E1. pose proof (f_equal snd E) as E2. cbn [fst snd] in E1, E2. rewrite <- E2, <- E1.
  rewrite Hx, !(proj2 (Z.eqb_neq _ _)) by done. done.
Qed.
Lemma in_buckets b : 0 <= b < ADDRMAN_NEW_BUCKET_COUNT -> b ∈ seqZ 0 ADDRMAN_NEW_BUCKET_COUNT.
Proof. intros Hb. apply elem_of_seqZ. lia. Qed.
Lemma refs_take key N b id i : 0 <= b < ADDRMAN_NEW_BUCKET_COUNT -> slot N b (position i key b) = -1 -> 0 <= id ->
  refs key (set_slot N b (position i key b) id) id i = refs key N id i + 1.
Proof.
  intros Hb He Hid. apply (countb_flip _ _ _ b); [apply NoDup_seqZ|by apply in_buckets| | |].
  - rewrite He. apply Z.eqb_neq. lia.
  - rewrite slot_set, decide_True by done. apply Z.eqb_refl.
  - intros x Hx. rewrite slot_set, decide_False; [done|]. intros E%(f_equal fst). by apply Hx.
Qed.
Lemma refs_leave key N b id i : 0 <= b < ADDRMAN_NEW_BUCKET_COUNT -> slot N b (position i key b) = id -> 0 <= id ->
  refs key (set_slot N b (position i key b) (-1)) id i = refs key N id i - 1.
Proof.
  intros Hb He Hid. assert (E : refs key N id i = refs key (set_slot N b (position i key b) (-1)) id i + 1); [|lia].
  apply (countb_flip _ _ _ b); [apply NoDup_seqZ|by apply in_buckets| | |].
  - rewrite slot_set, decide_True by done. apply Z.eqb_neq. lia.
  - rewrite He. apply Z.eqb_refl.
  - intros x Hx. rewrite slot_set, decide_False; [done|]. intros E%(f_equal fst). by apply Hx.
Qed.
Lemma refs_zero key N id i : refs key N id i = 0 -> forall b, 0 <= b < ADDRMAN_NEW_BUCKET_COUNT -> slot N b (position i key b) <> id.
Proof. unfold refs. rewrite countb_zero. intros Hz b Hb. apply Z.eqb_neq, Hz. by apply in_buckets. Qed.
(** An entry without references is in no bucket. *)
Lemma no_slot key M N T id : tables_ok key M N T -> 0 <= id -> (forall j, M !! id = Some j -> fInTried j = false -> nRefCount j = 0) -> forall b p, slot N b p <> id.
Proof.
  intros [Hids Hnew Htr He] Hid Hj b p E. destruct (Hnew b p) as (Hb & j & Ej & Ef & ->); [lia|]. rewrite E in Ej.
  pose proof (He id j Ej) as Hok. unfold entry_ok in Hok. rewrite Ef, (Hj j Ej Ef) in Hok. destruct Hok as [Hz _]. by apply (refs_zero key N id j (eq_sym Hz) b Hb).
Qed.
Lemma entry_ok_ext key N T id i j : same_service i j -> fInTried i = fInTried j -> nRefCount i = nRefCount j -> entry_ok key N T id i -> entry_ok key N T id j.
Proof.
  intros Hs Hf Hr. unfold entry_ok. rewrite <- Hf, <- Hr, <- (refs_ext key N id i j Hs), <- (tried_bucket_ext i j key Hs), <- (position_ext i j _ _ _ Hs). done.
Qed.

(** A change of an entry keeps the tables if the buckets and its own line are right. *)
Lemma tables_update key M N T N' T' id i i' : tables_ok key M N T -> M !! id = Some i -> same_service i i' ->
  (forall b p, slot N' b p <> -1 -> slot N' b p = slot N b p /\ slot N b p <> id \/ slot N' b p = id /\ 0 <= b < ADDRMAN_NEW_BUCKET_COUNT /\ fInTried i' = false /\ p = position i key b) ->
  (forall b p, slot T' b p <> -1 -> slot T' b p = slot T b p /\ slot T b p <> id \/ slot T' b p = id /\ fInTried i' = true /\ b = tried_bucket i key /\ p = tried_position i key) ->
  (forall j k, j <> id -> M !! j = Some k -> entry_ok key N T j k -> entry_ok key N' T' j k) -> entry_ok key N' T' id i' -> tables_ok key (<[id := i']> M) N' T'.
Proof.
  intros [Hids Hnew Htr He] Hi Hs HN HT Hothers Hself. split.
  - intros j k. rewrite lookup_insert_Some. intros [[<- _]|[_ Hj]]; eauto.
  - intros b p Hne. destruct (HN b p Hne) as [[E Hd]|(E & Hb & Hf & ->)]; rewrite E in *.
    + destruct (Hnew b p Hne) as (Hb & k & Hk & Hf & Hp). split; [done|]. exists k. rewrite lookup_insert_ne by congruence. done.
    + split; [done|]. exists i'. rewrite lookup_insert_eq. split_and!; [done..|]. by apply position_ext.
  - intros b p Hne. destruct (HT b p Hne) as [[E Hd]|(E & Hf & -> & ->)]; rewrite E in *.
    + destruct (Htr b p Hne) as (k & Hk & Hf & Hb & Hp). exists k. rewrite lookup_insert_ne by congruence. done.
    + exists i'. rewrite lookup_insert_eq, (tried_bucket_ext i i' key Hs), (position_ext i i' _ _ _ Hs). done.
  - intros j k. rewrite lookup_insert_Some. intros [[<- <-]|[Hj Hk]]; [done|]. eauto.
Qed.
Lemma new_slot_of key M N T id i b p : tables_ok key M N T -> M !! id = Some i -> slot N b p = id -> 0 <= b < ADDRMAN_NEW_BUCKET_COUNT /\ fInTried i = false /\ p = position i key b.
Proof.
  intros [Hids Hnew Htr He] Hi E. pose proof (Hids id i Hi). destruct (Hnew b p) as (Hb & j & Ej & Ef & Hp); [lia|]. rewrite E, Hi in Ej. apply (inj Some) in Ej as <-. done.
Qed.
Lemma tried_slot_of key M N T id i b p : tables_ok key M N T -> M !! id = Some i -> slot T b p = id -> fInTried i = true /\ b = tried_bucket i key /\ p = tried_position i key.
Proof.
  intros [Hids Hnew Htr He] Hi E. pose proof (Hids id i Hi). destruct (Htr b p) as (j & Ej & Ef & Hp); [lia|]. rewrite E, Hi in Ej. apply (inj Some) in Ej as <-. done.
Qed.
(** The same tables satisfy the conditions of [tables_update] when the entry stays where it is. *)
Lemma new_unchanged key M N T id i i' : tables_ok key M N T -> M !! id = Some i -> fInTried i' = fInTried i ->
  forall b p, slot N b p <> -1 -> slot N b p = slot N b p /\ slot N b p <> id \/ slot N b p = id /\ 0 <= b < ADDRMAN_NEW_BUCKET_COUNT /\ fInTried i' = false /\ p = position i key b.
Proof.
  intros Ht Hi Hf b p _. destruct (decide (slot N b p = id)) as [E|]; [|by left]. right. rewrite Hf. split; [done|]. by apply (new_slot_of key M N T id).
Qed.
Lemma tried_unchanged key M N T id i i' : tables_ok key M N T -> M !! id = Some i -> fInTried i' = fInTried i ->
  forall b p, slot T b p <> -1 -> slot T b p = slot T b p /\ slot T b p <> id \/ slot T b p = id /\ fInTried i' = true /\ b = tried_bucket i key /\ p = tried_position i key.
Proof.
  intros Ht Hi Hf b p _. destruct (decide (slot T b p = id)) as [E|]; [|by left]. right. rewrite Hf. split; [done|]. by apply (tried_slot_of key M N T id).
Qed.

Lemma tables_stats key M N T id i i' : tables_ok key M N T -> M !! id = Some i -> same_service i i' -> fInTried i' = fInTried i -> nRefCount i' = nRefCount i ->
  tables_ok key (<[id := i']> M) N T.
Proof.
  intros Ht Hi Hs Hf Hr. apply (tables_update key M N T _ _ id i i' Ht Hi Hs); [by apply (new_unchanged key M N T)|by apply (tried_unchanged key M N T)|done|].
  apply (entry_ok_ext _ _ _ _ i); [done..|]. by apply (t_entry _ _ _ _ Ht).
Qed.
Lemma tables_take key M N T id i b : tables_ok key M N T -> M !! id = Some i -> fInTried i = false -> nRefCount i < ADDRMAN_NEW_BUCKETS_PER_ADDRESS ->
  0 <= b < ADDRMAN_NEW_BUCKET_COUNT -> slot N b (position i key b) = -1 ->
  tables_ok key (<[id := set_nRefCount i (nRefCount i + 1)]> M) (set_slot N b (position i key b) id) T.
Proof.
  intros Ht Hi Hf Hr Hb He. pose proof (t_ids _ _ _ _ Ht id i Hi) as Hid. apply (tables_update key M N T _ _ id i _ Ht Hi); [done| |by apply (tried_unchanged key M N T)| |].
  - intros b' p'. rewrite slot_set. destruct (decide _) as [E|]; [|by apply (new_unchanged key M N T)]. intros _. right.
    pose proof (f_equal fst E) as E1. pose proof (f_equal snd E) as E2. cbn [fst snd] in E1, E2. rewrite <- E2, <- E1. done.
  - intros j k Hj Hk. unfold entry_ok. destruct (fInTried k); [done|]. pose proof (t_ids _ _ _ _ Ht j k Hk). rewrite (refs_other key N _ _ (-1) id j k He) by lia. done.
  - pose proof (t_entry _ _ _ _ Ht id i Hi) as Hok. unfold entry_ok in *. cbn [set_nRefCount fInTried nRefCount]. rewrite Hf in *. split; [|lia].
    rewrite (refs_ext key _ id (set_nRefCount i (nRefCount i + 1)) i) by done. rewrite refs_take by done. lia.
Qed.
Lemma tables_leave key M N T id i b : tables_ok key M N T -> M !! id = Some i -> slot N b (position i key b) = id ->
  tables_ok key (<[id := set_nRefCount i (nRefCount i - 1)]> M) (set_slot N b (position i key b) (-1)) T.
Proof.
  intros Ht Hi He. pose proof (t_ids _ _ _ _ Ht id i Hi) as Hid. destruct (new_slot_of _ _ _ _ _ _ _ _ Ht Hi He) as (Hb & Hf & _).
  apply (tables_update key M N T _ _ id i _ Ht Hi); [done| |by apply (tried_unchanged key M N T)| |].
  - intros b' p'. rewrite slot_set. destruct (decide _); [done|]. by apply (new_unchanged key M N T).
  - intros j k Hj Hk. unfold entry_ok. destruct (fInTried k); [done|]. pose proof (t_ids _ _ _ _ Ht j k Hk). rewrite (refs_other key N _ _ id (-1) j k He) by lia. done.
  - pose proof (t_entry _ _ _ _ Ht id i Hi) as Hok. unfold entry_ok in *. cbn [set_nRefCount fInTried nRefCount]. rewrite Hf in *. split; [|lia].
    rewrite (refs_ext key _ id (set_nRefCount i (nRefCount i - 1)) i) by done. rewrite refs_leave by done. lia.
Qed.
Lemma tables_promote key M N T id i : tables_ok key M N T -> M !! id = Some i -> fInTried i = false -> nRefCount i = 0 -> slot T (tried_bucket i key) (tried_position i key) = -1 ->
  tables_ok key (<[id := set_fInTried i true]> M) N (set_slot T (tried_bucket i key) (tried_position i key) id).
Proof.
  intros Ht Hi Hf Hr He. pose proof (t_ids _ _ _ _ Ht id i Hi) as Hid.
  assert (Hno : forall b p, slot N b p <> id). { apply (no_slot key M N T); [done..|]. intros j Hj. rewrite Hi in Hj. by apply (inj Some) in Hj as <-. }
  apply (tables_update key M N T _ _ id i _ Ht Hi); [done| | | |].
  - intros b p _. left. auto.
  - intros b p. rewrite slot_set. destruct (decide _) as [E|].
    + intros _. right. pose proof (f_equal fst E) as E1. pose proof (f_equal snd E) as E2. cbn [fst snd] in E1, E2. by rewrite <- E2, <- E1.
    + intros _. left. split; [done|]. intros E. destruct (tried_slot_of _ _ _ _ _ _ _ _ Ht Hi E). congruence.
  - intros j k Hj Hk. unfold entry_ok. destruct (fInTried k); [|done]. intros [-> Hs]. split; [done|]. rewrite slot_set, decide_False; [done|].
    intros E. pose proof (f_equal fst E) as E1. pose proof (f_equal snd E) as E2. cbn [fst snd] in E1, E2. rewrite <- E2, <- E1, He in Hs. pose proof (t_ids _ _ _ _ Ht j k Hk). lia.
  - unfold entry_ok. cbn [set_fInTried fInTried nRefCount]. split; [done|].
    rewrite (tried_bucket_ext (set_fInTried i true) i), (position_ext (set_fInTried i true) i), slot_set, decide_True by done. done.
Qed.
Lemma tables_demote key M N T id i : tables_ok key M N T -> M !! id = Some i -> fInTried i = true ->
  tables_ok key (<[id := set_fInTried i false]> M) N (set_slot T (tried_bucket i key) (tried_position i key) (-1)).
Proof.
  intros Ht Hi Hf. pose proof (t_ids _ _ _ _ Ht id i Hi) as Hid. pose proof (t_entry _ _ _ _ Ht id i Hi) as Hok. unfold entry_ok in Hok. rewrite Hf in Hok. destruct Hok as [Hr Hs].
  assert (Hno : forall b p, slot N b p <> id). { apply (no_slot key M N T); [done..|]. intros j Hj. rewrite Hi in Hj. by apply (inj Some) in Hj as <-. }
  apply (tables_update key M N T _ _ id i _ Ht Hi); [done| | | |].
  - intros b p _. left. auto.
  - intros b p. rewrite slot_set. destruct (decide _) as [|Hne]; [done|]. intros _. left. split; [done|]. intros E. destruct (tried_slot_of _ _ _ _ _ _ _ _ Ht Hi E) as (_ & -> & ->). done.
  - intros j k Hj Hk. unfold entry_ok. destruct (fInTried k); [|done]. intros [-> Hs']. split; [done|]. rewrite slot_set, decide_False; [done|].
    intros E. pose proof (f_equal fst E) as E1. pose proof (f_equal snd E) as E2. cbn [fst snd] in E1, E2. rewrite <- E2, <- E1, Hs in Hs'. done.
  - unfold entry_ok. cbn [set_fInTried fInTried nRefCount]. rewrite Hr. split; [|done]. symmetry. unfold refs. apply countb_zero. intros b _. by apply Z.eqb_neq.
Qed.
Lemma tables_add key M N T id i : tables_ok key M N T -> M !! id = None -> 0 <= id -> fInTried i = false -> nRefCount i = 0 -> tables_ok key (<[id := i]> M) N T.
Proof.
  intros Ht Hi Hid Hf Hr. assert (Hno : forall b p, slot N b p <> id) by (apply (no_slot key M N T); [done..|]; intros j Hj; congruence).
  destruct Ht as [Hids Hnew Htr He]. split.
  - intros j k. rewrite lookup_insert_Some. intros [[<- _]|[_ Hj]]; eauto.
  - intros b p Hne. destruct (Hnew b p Hne) as (Hb & k & Hk & Hp). split; [done|]. exists k. rewrite lookup_insert_ne by congruence. done.
  - intros b p Hne. destruct (Htr b p Hne) as (k & Hk & Hp). exists k. rewrite lookup_insert_ne by congruence. done.
  - intros j k. rewrite lookup_insert_Some. intros [[<- <-]|[_ Hj]]; [|eauto]. unfold entry_ok. rewrite Hf, Hr. split; [|done]. symmetry. unfold refs. apply countb_zero. intros b _. by apply Z.eqb_neq.
Qed.
Lemma tables_delete key M N T id i : tables_ok key M N T -> M !! id = Some i -> fInTried i = false -> nRefCount i = 0 -> tables_ok key (delete id M) N T.
Proof.
  intros Ht Hi Hf Hr. pose proof (t_ids _ _ _ _ Ht id i Hi) as Hid.
  assert (Hno : forall b p, slot N b p <> id). { apply (no_slot key M N T); [done..|]. intros j Hj. rewrite Hi in Hj. by apply (inj Some) in Hj as <-. }
  assert (Hno' : forall b p, slot T b p <> id). { intros b p E. destruct (tried_slot_of _ _ _ _ _ _ _ _ Ht Hi E). congruence. }
  destruct Ht as [Hids Hnew Htr He]. split.
  - intros j k. rewrite lookup_delete_Some. intros [_ Hj]. eauto.
  - intros b p Hne. destruct (Hnew b p Hne) as (Hb & k & Hk & Hp). split; [done|]. exists k. rewrite lookup_delete_ne by (intros E; by apply (Hno b p)). done.
  - intros b p Hne. destruct (Htr b p Hne) as (k & Hk & Hp). exists k. rewrite lookup_delete_ne by (intros E; by apply (Hno' b p)). done.
  - intros j k. rewrite lookup_delete_Some. intros [_ Hj]. eauto.
Qed.

(** What the tables know of an entry. *)
Definition in_tables (i : CAddrInfo) : CService * bool * Z := (service (address i), fInTried i, nRefCount i).
Lemma in_tables_eq i j : in_tables i = in_tables j -> same_service i j /\ fInTried i = fInTried j /\ nRefCount i = nRefCount j.
Proof. intros [= ? ? ?]. done. Qed.
Lemma tables_ext key M M' N T : (forall id, in_tables <$> M' !! id = in_tables <$> M !! id) -> tables_ok key M N T -> tables_ok key M' N T.
Proof.
  intros Hext [Hids Hnew Htr He].
  assert (Hto : forall id i, M !! id = Some i -> exists i', M' !! id = Some i' /\ in_tables i' = in_tables i).
  { intros id i Hi. specialize (Hext id). rewrite Hi in Hext. destruct (M' !! id) as [i'|]; [|done]. exists i'. split; [done|]. by apply (inj Some) in Hext. }
  assert (Hfrom : forall id i', M' !! id = Some i' -> exists i, M !! id = Some i /\ in_tables i' = in_tables i).
  { intros id i' Hi. specialize (Hext id). rewrite Hi in Hext. destruct (M !! id) as [i|]; [|done]. exists i. split; [done|]. by apply (inj Some) in Hext. }
  split.
  - intros id i' (i & Hi & _)%Hfrom. eauto.
  - intros b p Hne. destruct (Hnew b p Hne) as (Hb & i & (i' & Hi' & (Hs & Hf & Hr)%in_tables_eq)%Hto & Ef & Ep). split; [done|]. exists i'. rewrite Hf, (position_ext i' i) by done. done.
  - intros b p Hne. destruct (Htr b p Hne) as (i & (i' & Hi' & (Hs & Hf & Hr)%in_tables_eq)%Hto & Ef & Ep). exists i'. rewrite Hf, (tried_bucket_ext i' i), (position_ext i' i) by done. done.
  - intros id i' (i & Hi & (Hs & Hf & Hr)%in_tables_eq)%Hfrom. apply (entry_ok_ext _ _ _ _ i); [done..|]. eauto.
Qed.

(** ** The indexes *)

Record index_ok (d : bool) (cnt : Z) (M : gmap Z CAddrInfo) (A : gmap (list Z * Z) Z) (R : list Z) : Prop := {
  x_count : 0 <= cnt < 2 ^ 31;
  x_ids : forall id i, M !! id = Some i -> 0 <= id < cnt;
  x_pos : forall id i, M !! id = Some i -> 0 <= nRandomPos i;
  x_random : forall k id, R !! k = Some id <-> exists i, M !! id = Some i /\ nRandomPos i = Z.of_nat k;
  x_addr : forall key id, A !! key = Some id <-> exists i, M !! id = Some i /\ full_key (if negb d then SetPort (service (address i)) 0 else service (address i)) = key
}.
Definition in_index (i : CAddrInfo) : CService * Z := (service (address i), nRandomPos i).
Lemma addr_index_ext d cnt M M' A R : (forall id, in_index <$> M' !! id = in_index <$> M !! id) -> index_ok d cnt M A R -> index_ok d cnt M' A R.
Proof.
  intros Hext [Hc Hids Hpos Hr Ha].
  assert (Hiff : forall (P : CAddrInfo -> Prop) (Q : CService * Z -> Prop), (forall i, P i <-> Q (in_index i)) -> forall id, (exists i, M' !! id = Some i /\ P i) <-> exists i, M !! id = Some i /\ P i).
  { intros P Q HPQ id. specialize (Hext id). destruct (M' !! id) as [i'|], (M !! id) as [i|]; try done. apply (inj Some) in Hext.
    split; intros (j & [= <-] & Hj); eexists; (split; [done|]); apply HPQ; apply HPQ in Hj; congruence. }
  split; [done| | | |].
  - intros id i' Hi. specialize (Hext id). rewrite Hi in Hext. destruct (M !! id) as [i|] eqn:E; [|done]. eauto.
  - intros id i' Hi. specialize (Hext id). rewrite Hi in Hext. destruct (M !! id) as [i|] eqn:E; [|done]. apply (inj Some), (f_equal snd) in Hext. cbn in Hext. rewrite Hext. eauto.
  - intros k id. rewrite Hr. symmetry. by apply (Hiff _ (fun x => x.2 = Z.of_nat k)).
  - intros key id. rewrite Ha. symmetry. by apply (Hiff _ (fun x => full_key (if negb d then SetPort x.1 0 else x.1) = key)).
Qed.
(** The order has every entry once. *)
Lemma random_bound d cnt M A R : index_ok d cnt M A R -> NoDup R /\ Z.of_nat (length R) <= cnt.
Proof.
  intros [Hc Hids _ Hr _]. assert (Hnd : NoDup R).
  { apply NoDup_alt. intros j k id (i & Hi & Hj)%Hr (i' & Hi' & Hk)%Hr. assert (i' = i) as -> by congruence. lia. }
  split; [done|]. assert (Hs : R ⊆+ seqZ 0 cnt).
  { apply NoDup_submseteq; [done|]. intros id [k Hk]%list_elem_of_lookup. apply Hr in Hk as (i & Hi & _). apply elem_of_seqZ. pose proof (Hids id i Hi). lia. }
  apply submseteq_length in Hs. rewrite length_seqZ in Hs. lia.
Qed.
Lemma index_position d cnt M A R id i : index_ok d cnt M A R -> M !! id = Some i -> R !! Z.to_nat (nRandomPos i) = Some id /\ 0 <= nRandomPos i < Z.of_nat (length R).
Proof.
  intros [_ _ Hpos Hr _] Hi. pose proof (Hpos id i Hi). assert (E : R !! Z.to_nat (nRandomPos i) = Some id) by (apply Hr; exists i; split; [done|lia]).
  split; [done|]. apply lookup_lt_Some in E. lia.
Qed.
Lemma index_size d cnt M A R : index_ok d cnt M A R -> length R = base.size M.
Proof.
  intros Hx. pose proof (random_bound _ _ _ _ _ Hx) as [Hnd _].
  rewrite <- (size_list_to_set (C := gset Z) R Hnd), <- (size_dom (D := gset Z)). f_equal. apply set_eq. intros id. rewrite elem_of_list_to_set, elem_of_dom. split.
  - intros [k Hk]%list_elem_of_lookup. apply (x_random _ _ _ _ _ Hx) in Hk as (i & Hi & _). by exists i.
  - intros [i Hi]. eapply list_elem_of_lookup_2, (index_position _ _ _ _ _ _ _ Hx Hi).
Qed.
Lemma index_create d cnt M A R i key : index_ok d cnt M A R -> cnt < 2 ^ 31 - 1 -> nRandomPos i = Z.of_nat (length R) ->
  key = full_key (if negb d then SetPort (service (address i)) 0 else service (address i)) -> A !! key = None ->
  index_ok d (cnt + 1) (<[cnt := i]> M) (<[key := cnt]> A) (R ++ [cnt]).
Proof.
  intros Hx Hc Hp Hkey HA. assert (Hfresh : M !! cnt = None). { destruct (M !! cnt) eqn:E; [|done]. apply (x_ids _ _ _ _ _ Hx) in E. lia. }
  pose proof (x_count _ _ _ _ _ Hx). split; [lia| | | |].
  - intros id j. rewrite lookup_insert_Some. intros [[<- _]|[_ Hj%(x_ids _ _ _ _ _ Hx)]]; lia.
  - intros id j. rewrite lookup_insert_Some. intros [[_ <-]|[_ Hj%(x_pos _ _ _ _ _ Hx)]]; lia.
  - intros k id. split.
    + intros [Hk|[Hk E]]%lookup_app_Some.
      * apply (x_random _ _ _ _ _ Hx) in Hk as (j & Hj & Hjp). exists j. rewrite lookup_insert_ne by congruence. done.
      * apply list_lookup_singleton_Some in E as [Ek <-]. exists i. rewrite lookup_insert_eq. split; [done|lia].
    + intros (j & Hj & Hjp). rewrite lookup_insert_Some in Hj. destruct Hj as [[<- <-]|[Hne Hj]].
      * rewrite Hp in Hjp. apply Nat2Z.inj in Hjp as <-. by rewrite list_lookup_middle.
      * apply lookup_app_l_Some, (x_random _ _ _ _ _ Hx). eauto.
  - intros k id. rewrite lookup_insert_Some. split.
    + intros [[<- <-]|[Hne Hk]]; [exists i; by rewrite lookup_insert_eq|]. apply (x_addr _ _ _ _ _ Hx) in Hk as (j & Hj & Hjk). exists j. rewrite lookup_insert_ne by congruence. done.
    + intros (j & Hj & Hjk). rewrite lookup_insert_Some in Hj. destruct Hj as [[<- <-]|[Hne Hj]]; [left; by rewrite Hkey|]. right. assert (Hk : A !! k = Some id) by (apply (x_addr _ _ _ _ _ Hx); eauto).
      split; [congruence|done].
Qed.
(** The last entry of the order goes. *)
Lemma addr_index_delete d cnt M A R id i : index_ok d cnt M A R -> M !! id = Some i -> nRandomPos i = Z.of_nat (length R) - 1 ->
  index_ok d cnt (delete id M) (delete (full_key (if negb d then SetPort (service (address i)) 0 else service (address i))) A) (removelast R).
Proof.
  intros Hx Hi Hp. destruct (index_position _ _ _ _ _ _ _ Hx Hi) as [HR Hlt]. pose proof (random_bound _ _ _ _ _ Hx) as [Hnd _].
  assert (ER : R = removelast R ++ [id]).
  { destruct (exists_last (l := R)) as (R' & x & E); [by destruct R|]. rewrite E in *. rewrite removelast_last. rewrite length_app in Hp. cbn in Hp. rewrite Hp in HR.
    replace (Z.to_nat _) with (length R') in HR by lia. rewrite list_lookup_middle in HR by done. congruence. }
  split; [apply Hx| | | |].
  - intros j k. rewrite lookup_delete_Some. intros [_ Hj]. by apply (x_ids _ _ _ _ _ Hx j k).
  - intros j k. rewrite lookup_delete_Some. intros [_ Hj]. by apply (x_pos _ _ _ _ _ Hx j k).
  - intros k j. split.
    + intros Hk. assert (Hk' : R !! k = Some j) by (rewrite ER; by apply lookup_app_l_Some). pose proof (proj1 (x_random _ _ _ _ _ Hx k j) Hk') as (i' & Hi' & Hp'). exists i'. rewrite lookup_delete_ne; [done|].
      intros <-. assert (i' = i) as -> by congruence. apply lookup_lt_Some in Hk. rewrite ER, length_app in Hp. cbn in Hp. lia.
    + intros (i' & Hi' & Hp'). rewrite lookup_delete_Some in Hi'. destruct Hi' as [Hne Hi']. assert (Hk' : R !! k = Some j) by (apply (x_random _ _ _ _ _ Hx); eauto). rewrite ER in Hk'.
      apply lookup_app_Some in Hk' as [|[_ [_ <-]%list_lookup_singleton_Some]]; done.
  - intros key j. rewrite lookup_delete_Some. split.
    + intros [Hne Hk]. apply (x_addr _ _ _ _ _ Hx) in Hk as (i' & Hi' & Hk'). exists i'. rewrite lookup_delete_ne; [done|]. intros <-. assert (i' = i) as -> by congruence. congruence.
    + intros (i' & Hi' & Hk'). rewrite lookup_delete_Some in Hi'. destruct Hi' as [Hne Hi']. assert (Hk : A !! key = Some j) by (apply (x_addr _ _ _ _ _ Hx); eauto). split; [|done].
      intros <-. assert (Hk2 : A !! full_key (if negb d then SetPort (service (address i)) 0 else service (address i)) = Some id) by (apply (x_addr _ _ _ _ _ Hx); eauto). congruence.
Qed.

(** ** The steps of the operations *)

Definition index (m : CAddrMan) : Prop := index_ok (discriminatePorts m) (nIdCount m) (mapInfo m) (mapAddr m) (vRandom m).
Definition tables (m : CAddrMan) : Prop := tables_ok (nKey m) (mapInfo m) (vvNew m) (vvTried m).
(** Everything agrees, the counters up to a difference within an operation; entries without references are allowed. *)
Record winv (dn dt : Z) (m : CAddrMan) : Prop := {
  w_index : index m;
  w_tables : tables m;
  w_new : nNew m = counts false (fInTried <$> mapInfo m) + dn;
  w_tried : nTried m = counts true (fInTried <$> mapInfo m) + dt
}.

(** The entry without its place in the order. *)
Definition still (i : CAddrInfo) : CAddrInfo := set_nRandomPos i 0.
Lemma still_eq i j : still i = still j -> in_tables i = in_tables j /\ fInTried i = fInTried j.
Proof. intros E. split; [exact (f_equal in_tables E)|exact (f_equal fInTried E)]. Qed.
(** Only the order changes. *)
Record reordered (m m' : CAddrMan) : Prop := {
  o_info : forall id, still <$> mapInfo m' !! id = still <$> mapInfo m !! id;
  o_frame : m' = mkAddrMan (nIdCount m) (mapInfo m') (mapAddr m) (vRandom m') (nTried m) (vvTried m) (nNew m) (vvNew m) (nLastGood m) (discriminatePorts m) (nKey m)
}.
Lemma fmap_ext_through {A C D : Type} (f : A -> C) (g : A -> D) (M M' : gmap Z A) :
  (forall i j, f i = f j -> g i = g j) -> (forall id : Z, f <$> M' !! id = f <$> M !! id) -> forall id : Z, g <$> M' !! id = g <$> M !! id.
Proof. intros Hfg Hext id. specialize (Hext id). destruct (M' !! id), (M !! id); try done. apply (inj Some) in Hext. cbn. by rewrite (Hfg _ _ Hext). Qed.
Lemma fmap_map_ext {A D : Type} (g : A -> D) (M M' : gmap Z A) : (forall id : Z, g <$> M' !! id = g <$> M !! id) -> g <$> M' = g <$> M.
Proof. intros H. apply map_eq. intros id. by rewrite !lookup_fmap. Qed.
Lemma reordered_tables m m' : reordered m m' -> tables m -> tables m'.
Proof.
  intros [Ho ->] Ht. unfold tables in *. cbn [mapInfo nKey vvNew vvTried] in *. apply (tables_ext _ (mapInfo m)); [|done]. apply (fmap_ext_through still); [|done]. intros i j E. by apply still_eq.
Qed.
Lemma reordered_counts m m' : reordered m m' -> (fInTried <$> mapInfo m') = (fInTried <$> mapInfo m).
Proof. intros [Ho _]. apply fmap_map_ext, (fmap_ext_through still); [|done]. intros i j E. by apply still_eq. Qed.
Lemma reordered_refl m : reordered m m.
Proof. split; [done|by destruct m]. Qed.

Lemma index_swap d cnt M A R p1 p2 id1 id2 i1 i2 : index_ok d cnt M A R -> p1 <> p2 -> R !! p1 = Some id1 -> R !! p2 = Some id2 -> M !! id1 = Some i1 -> M !! id2 = Some i2 ->
  id1 <> id2 /\ index_ok d cnt (<[id2 := set_nRandomPos i2 (Z.of_nat p1)]> (<[id1 := set_nRandomPos i1 (Z.of_nat p2)]> M)) A (<[p2 := id1]> (<[p1 := id2]> R)).
Proof.
  intros Hx Hp H1 H2 Hi1 Hi2. pose proof (random_bound _ _ _ _ _ Hx) as [Hnd _].
  assert (Hne : id1 <> id2) by (intros <-; apply Hp; by apply (NoDup_lookup R p1 p2 id1)). split; [done|].
  assert (HM : forall id i, <[id2 := set_nRandomPos i2 (Z.of_nat p1)]> (<[id1 := set_nRandomPos i1 (Z.of_nat p2)]> M) !! id = Some i <->
            (id = id2 /\ i = set_nRandomPos i2 (Z.of_nat p1)) \/ (id = id1 /\ i = set_nRandomPos i1 (Z.of_nat p2)) \/ (id <> id1 /\ id <> id2 /\ M !! id = Some i)).
  { intros id i. rewrite lookup_insert_Some, lookup_insert_Some. naive_solver. }
  pose proof (lookup_lt_Some _ _ _ H1). pose proof (lookup_lt_Some _ _ _ H2). split; [apply Hx| | | |].
  - intros id i [[-> _]|[[-> _]|(_ & _ & Hi)]]%HM; by eapply (x_ids _ _ _ _ _ Hx).
  - intros id i [[_ ->]|[[_ ->]|(_ & _ & Hi)]]%HM; cbn [set_nRandomPos nRandomPos]; [lia..|]. by eapply (x_pos _ _ _ _ _ Hx).
  - intros k id. assert (HR : <[p2 := id1]> (<[p1 := id2]> R) !! k = Some id <-> (k = p2 /\ id = id1) \/ (k = p1 /\ id = id2) \/ (k <> p1 /\ k <> p2 /\ R !! k = Some id)).
    { rewrite list_lookup_insert_Some, list_lookup_insert_Some, length_insert. naive_solver. }
    rewrite HR. split.
    + intros [[-> ->]|[[-> ->]|(Hk1 & Hk2 & Hk)]]; [eexists; rewrite HM; naive_solver..|]. pose proof (proj1 (x_random _ _ _ _ _ Hx k id) Hk) as (i & Hi & Hpi). exists i. split; [|done]. apply HM. right. right.
      split_and!; [|intros ->|done]; [intros ->; apply Hk1; by apply (NoDup_lookup R k p1 id1)|apply Hk2; by apply (NoDup_lookup R k p2 id2)].
    + intros (i & [[-> ->]|[[-> ->]|(N1 & N2 & Hi)]]%HM & Hpi); cbn [set_nRandomPos nRandomPos] in Hpi; [apply Nat2Z.inj in Hpi as ->; auto..|]. right. right.
      assert (Hk : R !! k = Some id) by (apply (x_random _ _ _ _ _ Hx); eauto). split_and!; [congruence..|done].
  - intros key id. rewrite (x_addr _ _ _ _ _ Hx). split.
    + intros (i & Hi & Hk). destruct (decide (id = id1)) as [->|]; [exists (set_nRandomPos i1 (Z.of_nat p2)); rewrite HM; assert (i = i1) as -> by congruence; naive_solver|].
      destruct (decide (id = id2)) as [->|]; [exists (set_nRandomPos i2 (Z.of_nat p1)); rewrite HM; assert (i = i2) as -> by congruence; naive_solver|]. exists i. rewrite HM. naive_solver.
    + intros (i & [[-> ->]|[[-> ->]|(N1 & N2 & Hi)]]%HM & Hk); eauto.
Qed.
Lemma SwapRandom_spec m p1 p2 : index m -> 0 <= p1 < AddrMan_size m -> 0 <= p2 < AddrMan_size m ->
  exists m', SwapRandom m p1 p2 = Some m' /\ index m' /\ reordered m m' /\ AddrMan_size m' = AddrMan_size m /\ vRandom m' !! Z.to_nat p2 = vRandom m !! Z.to_nat p1.
Proof.
  intros Hx H1 H2. unfold SwapRandom, AddrMan_size in *. destruct (Z.eqb_spec p1 p2) as [->|Hne]; [exists m; split_and!; try done; apply reordered_refl|].
  destruct (lookup_lt_is_Some_2 (vRandom m) (Z.to_nat p1)) as [id1 E1]; [lia|]. destruct (lookup_lt_is_Some_2 (vRandom m) (Z.to_nat p2)) as [id2 E2]; [lia|].
  rewrite E1, E2. cbn [mbind option_bind]. pose proof (proj1 (x_random _ _ _ _ _ Hx _ _) E1) as (i1 & Hi1 & _). pose proof (proj1 (x_random _ _ _ _ _ Hx _ _) E2) as (i2 & Hi2 & _).
  destruct (index_swap _ _ _ _ _ (Z.to_nat p1) (Z.to_nat p2) _ _ _ _ Hx ltac:(lia) E1 E2 Hi1 Hi2) as [Hd Hx']. rewrite !Z2Nat.id in Hx' by lia.
  rewrite Hi1, Hi2. cbn [mbind option_bind]. assert (E3 : mapInfo (set_info m id1 (set_nRandomPos i1 p2)) !! id2 = Some i2) by (cbn [set_info set_mapInfo mapInfo]; by rewrite lookup_insert_ne). rewrite E3. cbn [mbind option_bind].
  eexists. split; [reflexivity|]. unfold index, set_info, set_mapInfo. cbn [discriminatePorts nIdCount mapInfo mapAddr vRandom]. split_and!; [exact Hx'| | |].
  - split; [|done]. cbn [mapInfo]. intros id. destruct (decide (id = id2)) as [->|]; [by rewrite lookup_insert_eq, Hi2|]. rewrite lookup_insert_ne by done.
    destruct (decide (id = id1)) as [->|]; [by rewrite lookup_insert_eq, Hi1|]. by rewrite lookup_insert_ne.
  - by rewrite !length_insert.
  - by rewrite list_lookup_insert_eq by (rewrite length_insert; lia).
Qed.

(** An entry that stays: its place in the order and its references may change, but it keeps at least one of them. *)
Definition kin (i i' : CAddrInfo) : Prop := set_nRefCount (still i') (nRefCount i) = still i /\ (nRefCount i' = nRefCount i \/ 1 <= nRefCount i').
Lemma kin_still i i' : still i' = still i -> kin i i'.
Proof. intros E. split; [rewrite E; by destruct i|left; exact (f_equal nRefCount E)]. Qed.
Lemma kin_fields i i' : kin i i' -> address i' = address i /\ source i' = source i /\ fInTried i' = fInTried i /\ nLastTry i' = nLastTry i /\ nLastSuccess i' = nLastSuccess i.
Proof.
  intros [E _]. split_and!; [exact (f_equal address E)|exact (f_equal source E)|exact (f_equal fInTried E)|exact (f_equal nLastTry E)|exact (f_equal nLastSuccess E)].
Qed.
(** Every entry but [id] was there before. *)
Definition kept (m m' : CAddrMan) : Prop := forall id i', mapInfo m' !! id = Some i' -> exists i, mapInfo m !! id = Some i /\ kin i i'.
Definition same_setting (m m' : CAddrMan) : Prop :=
  nKey m' = nKey m /\ discriminatePorts m' = discriminatePorts m /\ nIdCount m' = nIdCount m /\ nLastGood m' = nLastGood m /\ vvTried m' = vvTried m.

Lemma fmap_delete_eq {A D : Type} (g : A -> D) (M : gmap Z A) id : g <$> delete id M = delete id (g <$> M).
Proof. apply fmap_delete. Qed.
Lemma still_lookup m m' id i : reordered m m' -> mapInfo m !! id = Some i -> exists i', mapInfo m' !! id = Some i' /\ still i' = still i.
Proof. intros [Ho _] Hi. specialize (Ho id). rewrite Hi in Ho. destruct (mapInfo m' !! id) as [i'|]; [|done]. exists i'. split; [done|]. by apply (inj Some) in Ho. Qed.
Lemma still_lookup_back m m' id i' : reordered m m' -> mapInfo m' !! id = Some i' -> exists i, mapInfo m !! id = Some i /\ still i' = still i.
Proof. intros [Ho _] Hi. specialize (Ho id). rewrite Hi in Ho. destruct (mapInfo m !! id) as [i|]; [|done]. exists i. split; [done|]. by apply (inj Some) in Ho. Qed.

Lemma u32_small x : 0 <= x < 2 ^ 31 -> u32 x = x.
Proof. intros Hx. apply u32_id. unfold is_u32. lia. Qed.
Lemma Delete_spec dn dt m id i : winv dn dt m -> mapInfo m !! id = Some i -> fInTried i = false -> nRefCount i = 0 ->
  exists m', Delete m id = Some m' /\ winv dn dt m' /\ same_setting m m' /\ vvNew m' = vvNew m /\ mapInfo m' !! id = None /\
    (forall j, j <> id -> still <$> mapInfo m' !! j = still <$> mapInfo m !! j).
Proof.
  intros [Hx Ht Hn Htr] Hi Hf Hr. unfold Delete. rewrite Hi. cbn [mbind option_bind]. rewrite Hf, Hr. cbn [orb negb Z.eqb].
  destruct (index_position _ _ _ _ _ _ _ Hx Hi) as [HR Hp]. pose proof (random_bound _ _ _ _ _ Hx) as [_ Hb]. pose proof (x_count _ _ _ _ _ Hx). unfold AddrMan_size.
  rewrite !u32_small by lia. destruct (SwapRandom_spec m (nRandomPos i) (Z.of_nat (length (vRandom m)) - 1) Hx) as (m1 & -> & Hx1 & Hm1 & Hs1 & HR1); [unfold AddrMan_size; lia..|].
  cbn [mbind option_bind]. unfold AddrMan_size in *. rewrite (proj2 (Z.eqb_neq _ _)) by lia.
  destruct (still_lookup _ _ _ _ Hm1 Hi) as (i1 & Hi1 & Ei1). rewrite HR in HR1.
  assert (Hp1 : nRandomPos i1 = Z.of_nat (length (vRandom m1)) - 1). { apply (x_random _ _ _ _ _ Hx1) in HR1 as (j & Hj & Ej). assert (j = i1) as -> by congruence. lia. }
  pose proof (addr_index_delete _ _ _ _ _ _ _ Hx1 Hi1 Hp1) as Hx2. pose proof (reordered_tables _ _ Hm1 Ht) as Ht1. pose proof (reordered_counts _ _ Hm1) as Hc1.
  assert (Eaddr : address i1 = address i) by exact (f_equal address Ei1). assert (Ef1 : fInTried i1 = false) by (rewrite <- Hf; exact (f_equal fInTried Ei1)).
  assert (Er1 : nRefCount i1 = 0) by (rewrite <- Hr; exact (f_equal nRefCount Ei1)). pose proof (tables_delete _ _ _ _ _ _ Ht1 Hi1 Ef1 Er1) as Ht2. rewrite Eaddr in Hx2.
  pose proof (o_frame _ _ Hm1) as Hfr. pose proof (o_info _ _ Hm1) as Ho. destruct m1 as [c1 M1 A1 R1 t1 T1 n1 N1 g1 d1 k1]. cbn in Hfr. injection Hfr as -> -> -> -> -> -> -> -> ->.
  cbn [nIdCount mapInfo mapAddr vRandom nTried vvTried nNew vvNew nLastGood discriminatePorts nKey] in *.
  eexists. split; [reflexivity|]. split_and!; [|done|done|apply lookup_delete_eq|].
  - split; cbn [nIdCount mapInfo mapAddr vRandom nTried vvTried nNew vvNew nLastGood discriminatePorts nKey]; [exact Hx2|exact Ht2| |].
    + rewrite fmap_delete, (counts_delete false _ id false) by (by rewrite lookup_fmap, Hi1, <- Ef1). rewrite Hc1. cbn [Bool.eqb]. lia.
    + rewrite fmap_delete, (counts_delete true _ id false) by (by rewrite lookup_fmap, Hi1, <- Ef1). rewrite Hc1. cbn [Bool.eqb]. lia.
  - intros j Hj. cbn [mapInfo]. by rewrite lookup_delete_ne.
Qed.

Lemma fmap_insert_same {A D : Type} (g : A -> D) (M : gmap Z A) id i i' : M !! id = Some i -> g i' = g i -> forall j, g <$> <[id := i']> M !! j = g <$> M !! j.
Proof. intros Hi E j. destruct (decide (j = id)) as [->|]; [by rewrite lookup_insert_eq, Hi; cbn; rewrite E|by rewrite lookup_insert_ne]. Qed.
(** An entry and the buckets change together. *)
Lemma winv_change dn dt m id i i' N' : winv dn dt m -> mapInfo m !! id = Some i -> in_index i' = in_index i -> fInTried i' = fInTried i ->
  tables_ok (nKey m) (<[id := i']> (mapInfo m)) N' (vvTried m) -> winv dn dt (set_vvNew (set_info m id i') N').
Proof.
  intros [Hx Ht Hn Htr] Hi Hin Hf Ht'. unfold set_vvNew, set_info, set_mapInfo. split; unfold index, tables; cbn [nIdCount mapInfo mapAddr vRandom nTried vvTried nNew vvNew nLastGood discriminatePorts nKey].
  - apply (addr_index_ext _ _ (mapInfo m)); [|done]. by apply (fmap_insert_same _ _ _ i).
  - done.
  - rewrite (fmap_map_ext fInTried (mapInfo m)); [done|]. by apply (fmap_insert_same _ _ _ i).
  - rewrite (fmap_map_ext fInTried (mapInfo m)); [done|]. by apply (fmap_insert_same _ _ _ i).
Qed.
Lemma winv_stats dn dt m id i i' : winv dn dt m -> mapInfo m !! id = Some i -> in_index i' = in_index i -> fInTried i' = fInTried i -> nRefCount i' = nRefCount i -> winv dn dt (set_info m id i').
Proof.
  intros Hw Hi Hin Hf Hr. pose proof (winv_change dn dt m id i i' (vvNew m) Hw Hi Hin Hf) as H. unfold set_vvNew, set_info, set_mapInfo in *. apply H.
  apply (tables_stats _ _ _ _ _ i); [apply Hw|done|symmetry; exact (f_equal fst Hin)|done|done].
Qed.

Lemma ClearNew_spec dn dt m b p : winv dn dt m ->
  exists m', ClearNew m b p = Some m' /\ winv dn dt m' /\ same_setting m m' /\ slot (vvNew m') b p = -1 /\ kept m m' /\
    (forall j i, mapInfo m !! j = Some i -> j <> slot (vvNew m) b p -> exists i', mapInfo m' !! j = Some i' /\ still i' = still i).
Proof.
  intros Hw. unfold ClearNew. destruct (Z.eqb_spec (slot (vvNew m) b p) (-1)) as [E|Hne].
  { exists m. split_and!; try done; [intros id i' Hi; exists i'; split; [done|by apply kin_still]|eauto]. }
  set (id := slot (vvNew m) b p) in *. destruct (t_new _ _ _ _ (w_tables _ _ _ Hw) b p Hne) as (Hb & i & Hi & Hf & Hp). fold id in Hi. unfold at_info. rewrite Hi.
  assert (He : slot (vvNew m) b (position i (nKey m) b) = id) by by rewrite <- Hp. pose proof (tables_leave _ _ _ _ _ _ _ (w_tables _ _ _ Hw) Hi He) as Ht'. rewrite <- Hp in Ht'.
  assert (Hpos : 0 < nRefCount i).
  { pose proof (t_entry _ _ _ _ Ht' id _ (lookup_insert_eq _ _ _)) as Hok. unfold entry_ok in Hok. cbn [set_nRefCount fInTried nRefCount] in Hok. rewrite Hf in Hok. destruct Hok as [Hok _].
    match type of Hok with _ = ?r => assert (0 <= r) by apply refs_nonneg end. lia. }
  rewrite (proj2 (Z.ltb_lt _ _) Hpos). cbn [negb]. pose proof (winv_change dn dt m id i (set_nRefCount i (nRefCount i - 1)) _ Hw Hi eq_refl eq_refl Ht') as Hw1.
  set (m1 := set_vvNew (set_info m id (set_nRefCount i (nRefCount i - 1))) (set_slot (vvNew m) b p (-1))) in *.
  assert (Hi1 : mapInfo m1 !! id = Some (set_nRefCount i (nRefCount i - 1))) by apply lookup_insert_eq.
  assert (Hother : forall j, j <> id -> mapInfo m1 !! j = mapInfo m !! j) by (intros j Hj; by apply lookup_insert_ne).
  assert (Hslot : slot (vvNew m1) b p = -1) by (cbn [m1 set_vvNew vvNew]; by rewrite slot_set, decide_True).
  cbn [set_nRefCount nRefCount]. destruct (Z.eqb_spec (nRefCount i - 1) 0) as [Hz|Hnz].
  - destruct (Delete_spec dn dt m1 id _ Hw1 Hi1 Hf Hz) as (m2 & -> & Hw2 & Hs2 & HN2 & Hd2 & Ho2). exists m2. split_and!; [done|done|done|by rewrite HN2| |].
    + intros j i' Hj. assert (Hjd : j <> id) by congruence. specialize (Ho2 j Hjd). rewrite Hj, (Hother j Hjd) in Ho2. destruct (mapInfo m !! j) as [i0|]; [|done]. exists i0. split; [done|].
      apply kin_still. by apply (inj Some) in Ho2.
    + intros j i0 Hj Hjd. specialize (Ho2 j Hjd). rewrite (Hother j Hjd), Hj in Ho2. destruct (mapInfo m2 !! j) as [i'|]; [|done]. exists i'. split; [done|]. by apply (inj Some) in Ho2.
  - exists m1. split_and!; [done|done|done|done| |].
    + intros j i' Hj. destruct (decide (j = id)) as [->|Hjd].
      * rewrite Hi1 in Hj. apply (inj Some) in Hj as <-. exists i. split; [done|]. split; [by destruct i|right; cbn; lia].
      * rewrite Hother in Hj by done. exists i'. split; [done|by apply kin_still].
    + intros j i0 Hj Hjd. exists i0. rewrite Hother by done. done.
Qed.

(** ** Between operations *)

(** An entry as the consistency check wants it. *)
Definition live (i : CAddrInfo) : Prop :=
  0 <= nLastTry i /\ 0 <= nLastSuccess i /\ if fInTried i then nLastSuccess i <> 0 else 1 <= nRefCount i.
Definition alive (m m' : CAddrMan) : Prop := forall id i', mapInfo m' !! id = Some i' -> exists i, mapInfo m !! id = Some i /\ (live i -> live i').
Lemma kin_live i i' : kin i i' -> live i -> live i'.
Proof.
  intros Hk. pose proof (kin_fields i i' Hk) as (_ & _ & E1 & E2 & E3). destruct Hk as [_ Hr]. unfold live. rewrite E1, E2, E3. intros (H1 & H2 & H3). split_and!; [done..|].
  destruct (fInTried i); [done|]. lia.
Qed.
Lemma kept_alive m m' : kept m m' -> alive m m'.
Proof. intros H id i' (i & Hi & Hk)%H. exists i. split; [done|]. by apply kin_live. Qed.
Definition inv (m : CAddrMan) : Prop := winv 0 0 m /\ forall id i, mapInfo m !! id = Some i -> live i.

Lemma leave_bucket_spec dn dt m id i b : winv dn dt m -> mapInfo m !! id = Some i ->
  exists m' i', leave_bucket id m b = Some m' /\ winv dn dt m' /\ same_setting m m' /\ mapInfo m' !! id = Some i' /\ set_nRefCount i' (nRefCount i) = i /\
    (forall j, j <> id -> mapInfo m' !! j = mapInfo m !! j) /\ slot (vvNew m') b (position i (nKey m) b) <> id /\
    (forall b' p', slot (vvNew m) b' p' <> id -> slot (vvNew m') b' p' <> id).
Proof.
  intros Hw Hi. pose proof (t_ids _ _ _ _ (w_tables _ _ _ Hw) id i Hi) as Hid. unfold leave_bucket. rewrite Hi. cbn [mbind option_bind]. destruct (Z.eqb_spec (slot (vvNew m) b (position i (nKey m) b)) id) as [E|Hne].
  - pose proof (tables_leave _ _ _ _ _ _ _ (w_tables _ _ _ Hw) Hi E) as Ht'. pose proof (winv_change dn dt m id i (set_nRefCount i (nRefCount i - 1)) _ Hw Hi eq_refl eq_refl Ht') as Hw1.
    eexists _, (set_nRefCount i (nRefCount i - 1)). split_and!; [reflexivity|done|done|apply lookup_insert_eq|by destruct i|intros j Hj; by apply lookup_insert_ne| |]; cbn [set_vvNew vvNew].
    + rewrite slot_set, decide_True by done. lia.
    + intros b' p' H. rewrite slot_set. destruct (decide _); [lia|done].
  - exists m, i. split_and!; try done. by destruct i.
Qed.
Lemma leave_all_spec l : forall dn dt m id i, winv dn dt m -> mapInfo m !! id = Some i ->
  exists m' i', foldM (leave_bucket id) m l = Some m' /\ winv dn dt m' /\ same_setting m m' /\ mapInfo m' !! id = Some i' /\ set_nRefCount i' (nRefCount i) = i /\
    (forall j, j <> id -> mapInfo m' !! j = mapInfo m !! j) /\ (forall b, b ∈ l -> slot (vvNew m') b (position i (nKey m) b) <> id) /\
    (forall b' p', slot (vvNew m) b' p' <> id -> slot (vvNew m') b' p' <> id).
Proof.
  induction l as [|b l IH]; intros dn dt m id i Hw Hi; cbn [foldM].
  - exists m, i. split_and!; try done; [by destruct i|intros b Hb; by apply elem_of_nil in Hb].
  - destruct (leave_bucket_spec dn dt m id i b Hw Hi) as (m1 & i1 & -> & Hw1 & Hs1 & Hi1 & Ei1 & Ho1 & Hb1 & Hk1). cbn [mbind option_bind].
    destruct (IH dn dt m1 id i1 Hw1 Hi1) as (m2 & i2 & -> & Hw2 & Hs2 & Hi2 & Ei2 & Ho2 & Hb2 & Hk2). exists m2, i2.
    assert (Hser : service (address i1) = service (address i)) by (rewrite <- Ei1; done). assert (Hkey : nKey m1 = nKey m) by apply Hs1. split_and!; try done.
    + destruct Hs1 as (? & ? & ? & ? & ?), Hs2 as (? & ? & ? & ? & ?). unfold same_setting. split_and!; congruence.
    + rewrite <- Ei1 at 2. rewrite <- Ei2 at 1. by destruct i2, i1, i.
    + intros j Hj. by rewrite Ho2, Ho1.
    + intros b' [->|Hb']%elem_of_cons; [by apply Hk2|]. rewrite <- Hkey, <- (position_ext i1 i) by done. by apply Hb2.
    + auto.
Qed.

Lemma counts_update b M id c c' : M !! id = Some c -> counts b (<[id := c']> M) = counts b M - (if Bool.eqb c b then 1 else 0) + if Bool.eqb c' b then 1 else 0.
Proof. intros H. rewrite <- insert_delete_eq, counts_insert by apply lookup_delete_eq. by rewrite (counts_delete b M id c). Qed.
Lemma winv_set_nNew dn dt m n : winv dn dt m -> winv (dn + (n - nNew m)) dt (set_nNew m n).
Proof. intros [Hx Ht Hn Htr]. split; [exact Hx|exact Ht| |exact Htr]. cbn [set_nNew nNew mapInfo]. lia. Qed.
(** An entry goes from one table to the other. *)
Lemma winv_flip dn dt m id i T' n : winv dn dt m -> mapInfo m !! id = Some i -> tables_ok (nKey m) (<[id := set_fInTried i (negb (fInTried i))]> (mapInfo m)) (vvNew m) T' ->
  n = nTried m + (if fInTried i then -1 else 1) ->
  winv (dn + if fInTried i then -1 else 1) dt (set_info (set_nTried (set_vvTried m T') n) id (set_fInTried i (negb (fInTried i)))).
Proof.
  intros [Hx Ht Hn Htr] Hi Ht' ->. split.
  - apply (addr_index_ext _ _ (mapInfo m)); [|exact Hx]. by apply (fmap_insert_same _ _ _ i).
  - exact Ht'.
  - cbn [set_info set_mapInfo set_nTried set_vvTried nNew mapInfo]. rewrite fmap_insert, (counts_update false _ id (fInTried i)) by (by rewrite lookup_fmap, Hi). cbn [set_fInTried fInTried].
    destruct (fInTried i); cbn [Bool.eqb negb]; lia.
  - cbn [set_info set_mapInfo set_nTried set_vvTried nTried mapInfo]. rewrite fmap_insert, (counts_update true _ id (fInTried i)) by (by rewrite lookup_fmap, Hi). cbn [set_fInTried fInTried].
    destruct (fInTried i); cbn [Bool.eqb negb]; lia.
Qed.
Definition same_options (m m' : CAddrMan) : Prop :=
  nKey m' = nKey m /\ discriminatePorts m' = discriminatePorts m /\ nIdCount m' = nIdCount m /\ nLastGood m' = nLastGood m.

Lemma evict_spec dn dt m b p : winv dn dt m ->
  exists m', evict m b p = Some m' /\ winv dn dt m' /\ same_options m m' /\ slot (vvTried m') b p = -1 /\ alive m m' /\
    (forall j i, mapInfo m !! j = Some i -> fInTried i = false -> (forall b p, slot (vvNew m) b p <> j) -> exists i', mapInfo m' !! j = Some i' /\ still i' = still i).
Proof.
  intros Hw. unfold evict. destruct (Z.eqb_spec (slot (vvTried m) b p) (-1)) as [E|Hne]; [exists m; split_and!; try done; [intros id i' Hi; eauto|eauto]|].
  set (id := slot (vvTried m) b p) in *. destruct (t_tried _ _ _ _ (w_tables _ _ _ Hw) b p Hne) as (i & Hi & Hf & Hb & Hp). fold id in Hi. rewrite Hi. cbn [mbind option_bind].
  pose proof (tables_demote _ _ _ _ _ _ (w_tables _ _ _ Hw) Hi Hf) as Ht1. rewrite <- Hp, <- Hb in Ht1.
  pose proof (winv_flip dn dt m id i (set_slot (vvTried m) b p (-1)) (nTried m - 1) Hw Hi) as Hw1. rewrite Hf in Hw1. specialize (Hw1 Ht1 eq_refl). cbn [negb] in Hw1.
  set (m1 := set_info (set_nTried (set_vvTried m (set_slot (vvTried m) b p (-1))) (nTried m - 1)) id (set_fInTried i false)) in *.
  change (set_nTried (set_vvTried (set_info m id (set_fInTried i false)) _) _) with m1. change (nKey m1) with (nKey m).
  set (ub := GetNewBucket i (nKey m) (source i)). set (up := GetBucketPosition i (nKey m) true ub).
  destruct (ClearNew_spec _ _ m1 ub up Hw1) as (m2 & -> & Hw2 & Hs2 & Hsl2 & Hk2 & Ho2). cbn [mbind option_bind]. rewrite Hsl2. cbn [negb Z.eqb Pos.eqb].
  pose proof (t_entry _ _ _ _ (w_tables _ _ _ Hw) id i Hi) as Hok. unfold entry_ok in Hok. rewrite Hf in Hok. destruct Hok as [Hr _].
  assert (Hno : forall b p, slot (vvNew m) b p <> id) by (intros b' p' E; destruct (new_slot_of _ _ _ _ _ _ _ _ (w_tables _ _ _ Hw) Hi E) as (_ & ? & _); congruence).
  assert (Hi1 : mapInfo m1 !! id = Some (set_fInTried i false)) by apply lookup_insert_eq.
  destruct (Ho2 id _ Hi1) as (i2 & Hi2 & Ei2); [intros E; by apply (Hno ub up)|]. rewrite Hi2. cbn [mbind option_bind].
  assert (Hkey2 : nKey m2 = nKey m) by apply Hs2. assert (Hser2 : service (address i2) = service (address i)) by exact (f_equal (fun x => service (address x)) Ei2).
  assert (Hf2 : fInTried i2 = false) by exact (f_equal fInTried Ei2). assert (Hr2 : nRefCount i2 = 0) by (rewrite <- Hr; exact (f_equal nRefCount Ei2)).
  assert (Hup : GetBucketPosition i2 (nKey m2) true ub = up) by (rewrite Hkey2; by apply position_ext).
  pose proof (tables_take _ _ _ _ id i2 ub (w_tables _ _ _ Hw2) Hi2 Hf2) as Ht3. rewrite Hup, Hr2 in Ht3. specialize (Ht3 ltac:(done) (new_bucket_range _ _ _) Hsl2). change (0 + 1) with 1 in Ht3.
  pose proof (winv_change _ _ m2 id i2 (set_nRefCount i2 1) _ Hw2 Hi2 eq_refl eq_refl Ht3) as Hw3. eexists. split; [reflexivity|]. split_and!.
  - pose proof (winv_set_nNew _ _ _ (nNew m2 + 1) Hw3) as Hw4. cbn [set_vvNew set_info set_mapInfo nNew] in Hw4. replace (dn + -1 + (nNew m2 + 1 - nNew m2)) with dn in Hw4 by lia. exact Hw4.
  - destruct Hs2 as (? & ? & ? & ? & _). done.
  - cbn [set_nNew set_vvNew set_info set_mapInfo vvTried]. destruct Hs2 as (_ & _ & _ & _ & ->). cbn [m1 set_info set_mapInfo set_nTried set_vvTried vvTried]. by rewrite slot_set, decide_True.
  - intros j i'. cbn [set_nNew set_vvNew set_info set_mapInfo mapInfo]. rewrite lookup_insert_Some. intros [[<- <-]|[Hj Hi']].
    + exists i. split; [done|]. intros (H1 & H2 & H3). assert (E : nLastTry i2 = nLastTry i) by exact (f_equal nLastTry Ei2). assert (E' : nLastSuccess i2 = nLastSuccess i) by exact (f_equal nLastSuccess Ei2).
      unfold live. cbn [set_nRefCount nLastTry nLastSuccess fInTried nRefCount]. rewrite Hf2, E, E'. done.
    + apply Hk2 in Hi' as (i1 & Hi1' & Hk). cbn [m1 set_info set_mapInfo mapInfo] in Hi1'. rewrite lookup_insert_ne in Hi1' by done. exists i1. split; [done|]. by apply kin_live.
  - intros j i0 Hj Hjf Hjn. assert (Hjd : j <> id) by congruence. destruct (Ho2 j i0) as (i' & Hi' & Ei'); [cbn [m1 set_info set_mapInfo mapInfo]; by rewrite lookup_insert_ne|intros E; by apply (Hjn ub up)|].
    exists i'. cbn [set_nNew set_vvNew set_info set_mapInfo mapInfo]. by rewrite lookup_insert_ne.
Qed.

Lemma MakeTried_spec m id i : winv 0 0 m -> mapInfo m !! id = Some i -> fInTried i = false -> 0 <= nLastTry i -> 0 < nLastSuccess i ->
  (forall j k, j <> id -> mapInfo m !! j = Some k -> live k) ->
  exists m' i', MakeTried m id = Some m' /\ inv m' /\ same_options m m' /\ mapInfo m' !! id = Some i' /\ fInTried i' = true /\ address i' = address i.
Proof.
  intros Hw Hi Hf Htry Hsucc Hlive. unfold MakeTried. destruct (leave_all_spec (seqZ 0 ADDRMAN_NEW_BUCKET_COUNT) 0 0 m id i Hw Hi) as (m1 & i1 & -> & Hw1 & Hs1 & Hi1 & Ei1 & Ho1 & Hb1 & _).
  cbn [mbind option_bind]. pose proof (winv_set_nNew _ _ m1 (nNew m1 - 1) Hw1) as Hw2. replace (0 + (nNew m1 - 1 - nNew m1)) with (-1) in Hw2 by lia. set (m2 := set_nNew m1 (nNew m1 - 1)) in *.
  change (mapInfo m2) with (mapInfo m1). rewrite Hi1. cbn [mbind option_bind].
  assert (Haddr : address i1 = address i) by exact (f_equal address Ei1). assert (Hf1 : fInTried i1 = false) by (rewrite <- Hf; exact (f_equal fInTried Ei1)).
  assert (Hkey1 : nKey m1 = nKey m) by apply Hs1. pose proof (t_ids _ _ _ _ (w_tables _ _ _ Hw) id i Hi) as Hid.
  assert (Hr1 : nRefCount i1 = 0).
  { pose proof (t_entry _ _ _ _ (w_tables _ _ _ Hw1) id i1 Hi1) as Hok. unfold entry_ok in Hok. rewrite Hf1 in Hok. destruct Hok as [-> _]. unfold refs. apply countb_zero. intros b Hb. apply Z.eqb_neq.
    rewrite Hkey1, (position_ext i1 i) by (by rewrite Haddr). by apply Hb1. }
  rewrite Hr1. cbn [negb Z.eqb]. change (nKey m2) with (nKey m1). set (kb := GetTriedBucket i1 (nKey m1)). set (kp := GetBucketPosition i1 (nKey m1) false kb).
  destruct (evict_spec _ _ m2 kb kp Hw2) as (m3 & -> & Hw3 & Hs3 & Hsl3 & Hal3 & Ho3). cbn [mbind option_bind]. rewrite Hsl3. cbn [negb Z.eqb Pos.eqb].
  assert (Hno : forall b p, slot (vvNew m1) b p <> id). { apply (no_slot (nKey m1) (mapInfo m1) _ (vvTried m1)); [apply Hw1|done|]. intros j Hj. rewrite Hi1 in Hj. by apply (inj Some) in Hj as <-. }
  destruct (Ho3 id i1 Hi1 Hf1 Hno) as (i3 & Hi3 & Ei3).
  assert (Haddr3 : address i3 = address i1) by exact (f_equal address Ei3). assert (Hf3 : fInTried i3 = false) by (rewrite <- Hf1; exact (f_equal fInTried Ei3)).
  assert (Hr3 : nRefCount i3 = 0) by (rewrite <- Hr1; exact (f_equal nRefCount Ei3)). assert (Hkey3 : nKey m3 = nKey m1) by apply Hs3.
  assert (Hkb : GetTriedBucket i3 (nKey m3) = kb) by (rewrite Hkey3; apply tried_bucket_ext; by rewrite Haddr3).
  assert (Hkp : GetBucketPosition i3 (nKey m3) false kb = kp) by (rewrite Hkey3; apply position_ext; by rewrite Haddr3).
  pose proof (tables_promote _ _ _ _ id i3 (w_tables _ _ _ Hw3) Hi3 Hf3 Hr3) as Ht4. rewrite Hkb, Hkp in Ht4. specialize (Ht4 Hsl3).
  pose proof (winv_flip _ _ m3 id i3 (set_slot (vvTried m3) kb kp id) (nTried m3 + 1) Hw3 Hi3) as Hw4. rewrite Hf3 in Hw4. specialize (Hw4 Ht4 eq_refl). cbn [negb] in Hw4. change (-1 + 1) with 0 in Hw4.
  change (mapInfo (set_nTried (set_vvTried m3 (set_slot (vvTried m3) kb kp id)) (nTried m3 + 1))) with (mapInfo m3). rewrite Hi3. cbn [mbind option_bind].
  eexists _, (set_fInTried i3 true). split; [reflexivity|]. split_and!.
  - split; [exact Hw4|]. intros j k. cbn [set_info set_mapInfo set_nTried set_vvTried mapInfo]. rewrite lookup_insert_Some. intros [[<- <-]|[Hj Hk]].
    + assert (E : nLastTry i3 = nLastTry i) by (etransitivity; [exact (f_equal nLastTry Ei3)|exact (f_equal nLastTry Ei1)]).
      assert (E' : nLastSuccess i3 = nLastSuccess i) by (etransitivity; [exact (f_equal nLastSuccess Ei3)|exact (f_equal nLastSuccess Ei1)]).
      unfold live. cbn [set_fInTried nLastTry nLastSuccess fInTried]. lia.
    + apply Hal3 in Hk as (k1 & Hk1 & Himp). apply Himp. apply (Hlive j); [done|]. change (mapInfo m2) with (mapInfo m1) in Hk1. by rewrite Ho1 in Hk1.
  - unfold same_options in Hs3. cbn [m2 set_nNew nKey discriminatePorts nIdCount nLastGood] in Hs3. destruct Hs1 as (? & ? & ? & ? & _), Hs3 as (? & ? & ? & ?). unfold same_options. cbn [set_info set_mapInfo set_nTried set_vvTried nKey discriminatePorts nIdCount nLastGood]. split_and!; congruence.
  - apply lookup_insert_eq.
  - done.
  - cbn [set_fInTried address]. congruence.
Qed.

Lemma Find_spec m s id i : index m -> Find m s = Some (id, i) -> mapInfo m !! id = Some i /\ addr_key m (service (address i)) = addr_key m s.
Proof.
  intros Hx. unfold Find. destruct (mapAddr m !! addr_key m s) as [id'|] eqn:E; [|done]. cbn [mbind option_bind]. destruct (mapInfo m !! id') as [i'|] eqn:Ei; [|done]. cbn [mbind option_bind].
  intros [= <- <-]. split; [done|]. apply (x_addr _ _ _ _ _ Hx) in E as (j & Hj & Ej). assert (j = i') as -> by congruence. exact Ej.
Qed.
Lemma Find_None m s : index m -> Find m s = None -> mapAddr m !! addr_key m s = None.
Proof.
  intros Hx. unfold Find. destruct (mapAddr m !! addr_key m s) as [id'|] eqn:E; [|done]. cbn [mbind option_bind]. apply (x_addr _ _ _ _ _ Hx) in E as (j & Hj & Ej). by rewrite Hj.
Qed.

Lemma Service_ne_key s t : Service_ne s t = false -> full_key s = full_key t.
Proof.
  unfold Service_ne, NetAddr_eq, full_key. intros [H1 H2]%orb_false_iff. apply negb_false_iff in H1, H2. apply bool_decide_eq_true in H1. apply Z.eqb_eq in H2. by rewrite H1, H2.
Qed.
Lemma countb_pos {A : Type} (f : A -> bool) l : 1 <= countb f l -> exists x, x ∈ l /\ f x = true.
Proof.
  intros H. destruct (decide (Exists (fun x => f x = true) l)) as [He|Hn]; [by apply Exists_exists in He|]. assert (E : countb f l = 0); [|lia]. apply countb_zero. intros x Hx.
  destruct (f x) eqn:Ef; [|done]. destruct Hn. apply Exists_exists. eauto.
Qed.
Lemma refs_pos key N id i : 1 <= refs key N id i -> exists b, 0 <= b < ADDRMAN_NEW_BUCKET_COUNT /\ slot N b (position i key b) = id.
Proof. unfold refs. intros (b & Hb & Es)%countb_pos. apply elem_of_seqZ in Hb. apply Z.eqb_eq in Es. exists b. split; [lia|done]. Qed.
Lemma find_bucket_spec m id i rnd : tables m -> mapInfo m !! id = Some i -> fInTried i = false -> 1 <= nRefCount i -> exists b, find_bucket m id i rnd = Some b.
Proof.
  intros Ht Hi Hf Hr. pose proof (t_entry _ _ _ _ Ht id i Hi) as Hok. unfold entry_ok in Hok. rewrite Hf in Hok. destruct Hok as [Er _]. rewrite Er in Hr. apply refs_pos in Hr as (b & Hb & Es).
  unfold find_bucket. destruct (filter _ _) as [|x l] eqn:E; [|by exists x]. exfalso. apply (not_elem_of_nil b). rewrite <- E. apply list_elem_of_filter. split; [done|].
  apply list_elem_of_fmap. exists ((b - rnd) mod ADDRMAN_NEW_BUCKET_COUNT). pose proof (Z.mod_pos_bound (b - rnd) ADDRMAN_NEW_BUCKET_COUNT ltac:(done)). split; [|apply elem_of_seqZ; lia].
  rewrite Zplus_mod_idemp_l. replace (b - rnd + rnd) with b by lia. symmetry. apply Z.mod_small. lia.
Qed.
Lemma inv_set_nLastGood m t : inv m -> inv (set_nLastGood m t).
Proof. intros [[Hx Ht Hn Htr] Hl]. split; [|exact Hl]. split; [exact Hx|exact Ht|exact Hn|exact Htr]. Qed.

(** After [Good_] the address, if it is known with this port, is among the tried ones. *)
Lemma Good_spec m s t rnd : inv m -> 0 < t ->
  exists m', Good_ m s t rnd = Some m' /\ inv m' /\ nKey m' = nKey m /\ discriminatePorts m' = discriminatePorts m /\ nIdCount m' = nIdCount m /\
    (forall id i, Find m s = Some (id, i) -> Service_ne (service (address i)) s = false -> exists i', mapInfo m' !! id = Some i' /\ fInTried i' = true /\ address i' = address i).
Proof.
  intros Hinv Ht. unfold Good_. change (Find (set_nLastGood m t) s) with (Find m s). pose proof (inv_set_nLastGood m t Hinv) as Hinv1. set (m1 := set_nLastGood m t) in *.
  destruct (Find m s) as [[id i]|] eqn:EF; [|exists m1; split_and!; done].
  destruct (Find_spec _ _ _ _ (w_index _ _ _ (proj1 Hinv)) EF) as [Hi _]. destruct (Service_ne _ _) eqn:En; [exists m1; split_and!; try done; intros ? ? [= <- <-]; congruence|].
  set (i1 := mkInfo _ _ _ _ _ _ _ _ _). destruct (proj2 Hinv id i Hi) as (H1 & H2 & H3). assert (Ef1 : fInTried i1 = fInTried i) by done.
  assert (Hw1 : winv 0 0 (set_info m1 id i1)) by (by apply (winv_stats 0 0 m1 id i); [apply Hinv1|..]).
  assert (Hlive : forall j k, j <> id -> mapInfo (set_info m1 id i1) !! j = Some k -> live k). { intros j k Hj. cbn [set_info set_mapInfo mapInfo]. rewrite lookup_insert_ne by done. apply Hinv. }
  assert (Hi1 : mapInfo (set_info m1 id i1) !! id = Some i1) by apply lookup_insert_eq.
  rewrite <- Ef1 in H3. destruct (fInTried i1) eqn:Ef.
  - exists (set_info m1 id i1). split_and!; try done; [split; [done|]|].
    + intros j k Hk. destruct (decide (j = id)) as [->|Hj]; [|by apply (Hlive j)]. rewrite Hi1 in Hk. apply (inj Some) in Hk as <-. unfold live. rewrite Ef. cbn [i1 nLastTry nLastSuccess]. lia.
    + intros id' i' [= <- <-] _. exists i1. done.
  - destruct (find_bucket_spec (set_info m1 id i1) id i1 rnd (w_tables _ _ _ Hw1) Hi1 Ef H3) as [b ->].
    destruct (MakeTried_spec (set_info m1 id i1) id i1 Hw1 Hi1 Ef) as (m2 & i2 & -> & Hinv2 & (Hk & Hd & Hc & _) & Hi2 & Hf2 & Ha2); [cbn; lia..|done|].
    exists m2. split_and!; try done. intros id' i' [= <- <-] _. exists i2. done.
Qed.

Lemma place_spec m id i src now : winv 0 0 m -> mapInfo m !! id = Some i -> fInTried i = false -> nRefCount i < ADDRMAN_NEW_BUCKETS_PER_ADDRESS -> 0 <= nLastTry i -> 0 <= nLastSuccess i ->
  (forall j k, j <> id -> mapInfo m !! j = Some k -> live k) -> exists m', place m id src now = Some m' /\ inv m' /\ same_options m m'.
Proof.
  intros Hw Hi Hf Hr H1 H2 Hlive. unfold place. rewrite Hi. cbn [mbind option_bind]. set (b := GetNewBucket i (nKey m) src). set (p := GetBucketPosition i (nKey m) true b).
  pose proof (t_entry _ _ _ _ (w_tables _ _ _ Hw) id i Hi) as Hok. unfold entry_ok in Hok. rewrite Hf in Hok. destruct Hok as [Er _]. pose proof (refs_nonneg (nKey m) (vvNew m) id i) as Hrn.
  assert (Hself : 1 <= nRefCount i -> inv m).
  { intros Hr1. split; [done|]. intros j k Hk. destruct (decide (j = id)) as [->|Hj]; [|by apply (Hlive j)]. assert (k = i) as -> by congruence. unfold live. by rewrite Hf. }
  destruct (Z.eqb_spec (slot (vvNew m) b p) id) as [E|Hne].
  { exists m. split_and!; try done. apply Hself. destruct (decide (nRefCount i = 0)) as [Ez|]; [|lia]. exfalso.
    apply (no_slot _ _ _ _ id (w_tables _ _ _ Hw)) with (b := b) (p := p); [by apply (t_ids _ _ _ _ (w_tables _ _ _ Hw) id i)|intros j Hj _; congruence|done]. }
  assert (Hat : exists fInsert, (if slot (vvNew m) b p =? -1 then (m, true) else let '(m, infoExisting) := at_info m (slot (vvNew m) b p) in
    (m, IsTerrible infoExisting now || ((1 <? nRefCount infoExisting) && (nRefCount i =? 0)))) = (m, fInsert)).
  { destruct (Z.eqb_spec (slot (vvNew m) b p) (-1)) as [|Hn1]; [eauto|]. destruct (t_new _ _ _ _ (w_tables _ _ _ Hw) b p Hn1) as (_ & k & Hk & _). unfold at_info. rewrite Hk. eauto. }
  destruct Hat as [fInsert ->]. destruct fInsert.
  - destruct (ClearNew_spec _ _ m b p Hw) as (m1 & -> & Hw1 & Hs1 & Hsl1 & Hk1 & Ho1). cbn [mbind option_bind]. destruct (Ho1 id i Hi ltac:(congruence)) as (i1 & Hi1 & Ei1). rewrite Hi1. cbn [mbind option_bind].
    assert (Hf1 : fInTried i1 = false) by (rewrite <- Hf; exact (f_equal fInTried Ei1)). assert (Hr1 : nRefCount i1 = nRefCount i) by exact (f_equal nRefCount Ei1).
    assert (Hp1 : GetBucketPosition i1 (nKey m1) true b = p) by (rewrite (proj1 Hs1); apply position_ext; exact (f_equal (fun x => service (address x)) Ei1)).
    pose proof (tables_take _ _ _ _ id i1 b (w_tables _ _ _ Hw1) Hi1 Hf1 ltac:(lia) (new_bucket_range _ _ _)) as Ht2. rewrite Hp1 in Ht2. specialize (Ht2 Hsl1).
    pose proof (winv_change _ _ m1 id i1 (set_nRefCount i1 (nRefCount i1 + 1)) _ Hw1 Hi1 eq_refl eq_refl Ht2) as Hw2. eexists. split; [reflexivity|]. split; [split; [exact Hw2|]|destruct Hs1 as (? & ? & ? & ? & _); done].
    intros j k. cbn [set_vvNew set_info set_mapInfo mapInfo]. rewrite lookup_insert_Some. intros [[<- <-]|[Hj Hk]].
    + unfold live. cbn [set_nRefCount nLastTry nLastSuccess fInTried nRefCount]. rewrite Hf1. assert (nLastTry i1 = nLastTry i) by exact (f_equal nLastTry Ei1). assert (nLastSuccess i1 = nLastSuccess i) by exact (f_equal nLastSuccess Ei1). lia.
    + apply Hk1 in Hk as (k0 & Hk0 & Hkin). apply (kin_live k0); [done|]. by apply (Hlive j).
  - destruct (Z.eqb_spec (nRefCount i) 0) as [Ez|Hnz]; [|exists m; split_and!; try done; apply Hself; lia].
    destruct (Delete_spec 0 0 m id i Hw Hi Hf Ez) as (m1 & -> & Hw1 & Hs1 & _ & Hd1 & Ho1). exists m1. split; [done|]. split; [split; [done|]|destruct Hs1 as (? & ? & ? & ? & _); done].
    intros j k Hk. assert (Hj : j <> id) by congruence. specialize (Ho1 j Hj). rewrite Hk in Ho1. destruct (mapInfo m !! j) as [k0|] eqn:Ek0; [|done]. apply (inj Some) in Ho1. apply (kin_live k0); [by apply kin_still|]. by apply (Hlive j).
Qed.

Lemma updated_entry_fields i addr pen now : let i' := updated_entry i addr pen now in
  in_index i' = in_index i /\ fInTried i' = fInTried i /\ nRefCount i' = nRefCount i /\ nLastTry i' = nLastTry i /\ nLastSuccess i' = nLastSuccess i.
Proof. unfold updated_entry. destruct (negb _ && _); done. Qed.
Lemma inv_stats m id i i' : inv m -> mapInfo m !! id = Some i -> in_index i' = in_index i -> fInTried i' = fInTried i -> nRefCount i' = nRefCount i -> live i' -> inv (set_info m id i').
Proof.
  intros [Hw Hl] Hi H1 H2 H3 Hlive. split; [by apply (winv_stats _ _ m id i)|]. intros j k. cbn [set_info set_mapInfo mapInfo]. rewrite lookup_insert_Some. intros [[<- <-]|[_ Hk]]; [done|by apply (Hl j)].
Qed.
Lemma may_add_reference_spec i addr rnd : may_add_reference i addr rnd = true -> fInTried i = false /\ nRefCount i <> ADDRMAN_NEW_BUCKETS_PER_ADDRESS.
Proof. unfold may_add_reference. destruct (_ || _); [done|]. destruct (fInTried i); [done|]. by destruct (Z.eqb_spec (nRefCount i) ADDRMAN_NEW_BUCKETS_PER_ADDRESS). Qed.

Lemma Create_spec m addr src : inv m -> nIdCount m < 2 ^ 31 - 1 -> mapAddr m !! addr_key m (service addr) = None ->
  exists m' i, Create m addr src = Some (m', nIdCount m) /\ winv (-1) 0 m' /\ mapInfo m' = <[nIdCount m := i]> (mapInfo m) /\ i = set_nRandomPos (Info_new addr src) (AddrMan_size m) /\
    nKey m' = nKey m /\ discriminatePorts m' = discriminatePorts m /\ nIdCount m' = nIdCount m + 1.
Proof.
  intros [[Hx Ht Hn Htr] Hl] Hc Ha. unfold Create. rewrite (proj2 (Z.leb_gt _ _)) by done. set (i := set_nRandomPos (Info_new addr src) (AddrMan_size m)).
  assert (Hfresh : mapInfo m !! nIdCount m = None). { destruct (mapInfo m !! nIdCount m) eqn:E; [|done]. apply (x_ids _ _ _ _ _ Hx) in E. lia. }
  pose proof (x_count _ _ _ _ _ Hx) as Hcnt. eexists _, i. split; [reflexivity|]. split_and!; try done.
  split; unfold index, tables; cbn [nIdCount mapInfo mapAddr vRandom nTried vvTried nNew vvNew nLastGood discriminatePorts nKey].
  - apply (index_create _ _ _ _ _ i (addr_key m (service addr))); done.
  - apply tables_add; [done..|lia|done|done].
  - rewrite fmap_insert, counts_insert by (by rewrite lookup_fmap, Hfresh). cbn [i set_nRandomPos Info_new fInTried Bool.eqb]. lia.
  - rewrite fmap_insert, counts_insert by (by rewrite lookup_fmap, Hfresh). cbn [i set_nRandomPos Info_new fInTried Bool.eqb]. lia.
Qed.
(** The address is new exactly if it is routable and not known. *)
Lemma Add_spec priv m addr src pen now rnd : inv m -> nIdCount m < 2 ^ 31 - 1 ->
  exists m' fNew, Add_ priv m addr src pen now rnd = Some (m', fNew) /\ inv m' /\ nKey m' = nKey m /\ discriminatePorts m' = discriminatePorts m /\ nIdCount m' <= nIdCount m + 1 /\
    (fNew = true <-> IsRoutable priv (netaddr (service addr)) = true /\ Find m (service addr) = None).
Proof.
  intros Hinv Hc. unfold Add_. destruct (IsRoutable priv (netaddr (service addr))); cbn [negb]; [|exists m, false; split_and!; try done; lia].
  set (pen' := if NetAddr_eq _ _ then _ else _). destruct (Find m (service addr)) as [[id i]|] eqn:EF.
  - destruct (Find_spec _ _ _ _ (w_index _ _ _ (proj1 Hinv)) EF) as [Hi _]. pose proof (updated_entry_fields i addr pen' now) as (U1 & U2 & U3 & U4 & U5). set (i1 := updated_entry i addr pen' now) in *. cbv zeta in *.
    pose proof (proj2 Hinv id i Hi) as Hlive. assert (Hlive1 : live i1) by (unfold live in *; by rewrite U2, U3, U4, U5).
    pose proof (inv_stats m id i i1 Hinv Hi U1 U2 U3 Hlive1) as Hinv1. destruct (may_add_reference i1 addr rnd) eqn:Em; cbn [negb]; [|eexists _, false; split_and!; try done; [cbn [set_info set_mapInfo nIdCount]; lia|split; [done|by intros [_ ?]]]].
    apply may_add_reference_spec in Em as [Hf1 Hr1]. assert (Hi1 : mapInfo (set_info m id i1) !! id = Some i1) by apply lookup_insert_eq.
    pose proof (t_entry _ _ _ _ (w_tables _ _ _ (proj1 Hinv1)) id i1 Hi1) as Hok. unfold entry_ok in Hok. rewrite Hf1 in Hok. destruct Hok as [_ Hle]. destruct Hlive1 as (L1 & L2 & _).
    destruct (place_spec (set_info m id i1) id i1 src now (proj1 Hinv1) Hi1 Hf1) as (m2 & -> & Hinv2 & (E1 & E2 & E3 & _)); [lia|done|done|intros j k _; apply Hinv1|].
    cbn [mbind option_bind]. exists m2, false. cbn [set_info set_mapInfo nKey discriminatePorts nIdCount] in *. split_and!; try done; [lia|split; [done|by intros [_ ?]]].
  - pose proof (Find_None _ _ (w_index _ _ _ (proj1 Hinv)) EF) as Ha. destruct (Create_spec m addr src Hinv Hc Ha) as (m1 & i & -> & Hw1 & EM1 & Ei & K1 & D1 & C1). cbn [mbind option_bind]. rewrite EM1, lookup_insert_eq. cbn [mbind option_bind].
    set (id := nIdCount m) in *. assert (Hi1 : mapInfo m1 !! id = Some i) by (rewrite EM1; apply lookup_insert_eq).
    set (i2 := set_nTime _ _). assert (Hi2 : in_index i2 = in_index i /\ fInTried i2 = fInTried i /\ nRefCount i2 = nRefCount i) by done. destruct Hi2 as (I1 & I2 & I3).
    pose proof (winv_stats _ _ m1 id i i2 Hw1 Hi1 I1 I2 I3) as Hw2. pose proof (winv_set_nNew _ _ _ (nNew (set_info m1 id i2) + 1) Hw2) as Hw3. replace (-1 + _) with 0 in Hw3 by lia.
    destruct (place_spec _ id i2 src now Hw3) as (m4 & -> & Hinv4 & (E1 & E2 & E3 & _)); [apply lookup_insert_eq|by rewrite I2, Ei|by rewrite I3, Ei|cbn [i2 set_nTime set_address nLastTry]; by rewrite Ei|cbn [i2 set_nTime set_address nLastSuccess]; by rewrite Ei| |].
    { intros j k Hj. cbn [set_nNew set_info set_mapInfo mapInfo]. rewrite lookup_insert_ne, EM1, lookup_insert_ne by done. apply Hinv. }
    cbn [mbind option_bind]. exists m4, true. cbn [set_nNew set_info set_mapInfo nKey discriminatePorts nIdCount] in *. split_and!; try congruence; try done; lia.
Qed.
Lemma with_entry_spec m s f : inv m -> (forall i, live i -> in_index (f i) = in_index i /\ fInTried (f i) = fInTried i /\ nRefCount (f i) = nRefCount i /\ live (f i)) ->
  inv (with_entry m s f) /\ nKey (with_entry m s f) = nKey m /\ discriminatePorts (with_entry m s f) = discriminatePorts m /\ nIdCount (with_entry m s f) = nIdCount m.
Proof.
  intros Hinv Hf. unfold with_entry. destruct (Find m s) as [[id i]|] eqn:EF; [|done]. destruct (Service_ne _ _); [done|]. destruct (Find_spec _ _ _ _ (w_index _ _ _ (proj1 Hinv)) EF) as [Hi _].
  destruct (Hf i (proj2 Hinv id i Hi)) as (F1 & F2 & F3 & F4). split_and!; try done. by apply (inv_stats m id i).
Qed.

Lemma inv_reordered m m' : inv m -> reordered m m' -> index m' -> inv m'.
Proof.
  intros [Hw Hl] Hr Hx. pose proof (reordered_counts _ _ Hr) as Hc. split; [split; [done|by apply (reordered_tables m); [|apply Hw]| |]|].
  - rewrite Hc. destruct Hr as [_ ->]. apply Hw.
  - rewrite Hc. destruct Hr as [_ ->]. apply Hw.
  - intros id i' Hi'. destruct (still_lookup_back _ _ _ _ Hr Hi') as (i & Hi & E). apply (kin_live i); [by apply kin_still|by apply (Hl id)].
Qed.
Lemma reordered_trans m1 m2 m3 : reordered m1 m2 -> reordered m2 m3 -> reordered m1 m3.
Proof. intros [H1 E1] [H2 E2]. split; [intros id; by rewrite H2|]. rewrite E2. rewrite E1. done. Qed.
Lemma getaddr_loop_spec fuel : forall n m nodes now rnd l, inv m -> 0 <= n -> n + Z.of_nat fuel = AddrMan_size m -> (forall k, n <= k < AddrMan_size m -> 0 <= rnd k < AddrMan_size m - k) ->
  exists m' l', getaddr_loop fuel n m nodes now rnd l = Some (m', l') /\ inv m' /\ reordered m m' /\ Z.of_nat (length l') <= Z.max (Z.of_nat (length l)) nodes /\
    forall a, a ∈ l' -> a ∈ l \/ exists id i, mapInfo m !! id = Some i /\ a = address i /\ IsTerrible i now = false.
Proof.
  induction fuel as [|fuel IH]; intros n m nodes now rnd l Hinv Hn Hf Hr; cbn [getaddr_loop].
  { exists m, l. split_and!; try done; [apply reordered_refl|lia|auto]. }
  destruct (Z.leb_spec nodes (Z.of_nat (length l))); [exists m, l; split_and!; try done; [apply reordered_refl|lia|auto]|].
  pose proof (Hr n ltac:(lia)) as Hrn. pose proof (random_bound _ _ _ _ _ (w_index _ _ _ (proj1 Hinv))) as [_ Hb]. pose proof (x_count _ _ _ _ _ (w_index _ _ _ (proj1 Hinv))).
  rewrite u32_small by (unfold AddrMan_size in *; lia). destruct (SwapRandom_spec m n (rnd n + n) (w_index _ _ _ (proj1 Hinv))) as (m1 & -> & Hx1 & Ho1 & Hs1 & _); [lia..|]. cbn [mbind option_bind].
  pose proof (inv_reordered _ _ Hinv Ho1 Hx1) as Hinv1. destruct (lookup_lt_is_Some_2 (vRandom m1) (Z.to_nat n)) as [id Hid]; [unfold AddrMan_size in *; lia|]. rewrite Hid. cbn [mbind option_bind].
  pose proof (proj1 (x_random _ _ _ _ _ Hx1 _ _) Hid) as (i1 & Hi1 & _). rewrite Hi1. cbn [mbind option_bind]. destruct (still_lookup_back _ _ _ _ Ho1 Hi1) as (i & Hi & Ei).
  set (l1 := if negb (IsTerrible i1 now) then l ++ [address i1] else l).
  destruct (IH (n + 1) m1 nodes now rnd l1 Hinv1) as (m2 & l2 & -> & Hinv2 & Ho2 & Hlen2 & Hin2); [lia|lia|rewrite Hs1; intros k Hk; apply Hr; lia|]. exists m2, l2.
  assert (Eterr : IsTerrible i1 now = IsTerrible i now) by exact (f_equal (fun x => IsTerrible x now) Ei). split_and!; try done.
  - by apply (reordered_trans m m1).
  - unfold l1 in Hlen2. destruct (negb _); rewrite ?length_app in Hlen2; cbn [length] in Hlen2; lia.
  - intros a Ha. destruct (Hin2 a Ha) as [Hl|(id' & i' & Hi' & -> & Ht')].
    + unfold l1 in Hl. destruct (IsTerrible i1 now) eqn:Et; cbn [negb] in Hl; [by left|]. apply elem_of_app in Hl as [|Hl]; [by left|]. apply list_elem_of_singleton in Hl as ->. right. exists id, i. split_and!; [done|exact (f_equal address Ei)|congruence].
    + right. destruct (still_lookup_back _ _ _ _ Ho1 Hi') as (i0 & Hi0 & E0). exists id', i0. split_and!; [done|exact (f_equal address E0)|]. rewrite <- Ht'. symmetry. exact (f_equal (fun x => IsTerrible x now) E0).
Qed.
(** At most 2500 addresses and at most 23 of a hundred, all known and none terrible. *)
Lemma GetAddr_spec m now rnd : inv m -> (forall k, 0 <= k < AddrMan_size m -> 0 <= rnd k < AddrMan_size m - k) ->
  exists m' l, GetAddr_ m now rnd = Some (m', l) /\ inv m' /\ reordered m m' /\ Z.of_nat (length l) <= ADDRMAN_GETADDR_MAX /\ 100 * Z.of_nat (length l) <= ADDRMAN_GETADDR_MAX_PCT * AddrMan_size m /\
    forall a, a ∈ l -> exists id i, mapInfo m !! id = Some i /\ a = address i /\ IsTerrible i now = false.
Proof.
  intros Hinv Hr. unfold GetAddr_. set (nodes := if ADDRMAN_GETADDR_MAX <? _ then _ else _).
  destruct (getaddr_loop_spec (length (vRandom m)) 0 m nodes now rnd [] Hinv) as (m' & l & -> & Hinv' & Ho & Hlen & Hin); [lia|done|done|]. exists m', l. cbn [length] in Hlen.
  assert (Hnodes : 0 <= nodes <= ADDRMAN_GETADDR_MAX /\ 100 * nodes <= ADDRMAN_GETADDR_MAX_PCT * AddrMan_size m).
  { unfold nodes. pose proof (Z.mul_div_le (ADDRMAN_GETADDR_MAX_PCT * AddrMan_size m) 100 ltac:(lia)). assert (0 <= AddrMan_size m) by (unfold AddrMan_size; lia).
    assert (0 <= ADDRMAN_GETADDR_MAX_PCT * AddrMan_size m / 100) by (apply Z.div_pos; unfold ADDRMAN_GETADDR_MAX_PCT; lia). unfold ADDRMAN_GETADDR_MAX. destruct (Z.ltb_spec 2500 (ADDRMAN_GETADDR_MAX_PCT * AddrMan_size m / 100)); lia. }
  split_and!; try done; [lia..|]. intros a Ha. destruct (Hin a Ha) as [Hn|]; [by apply elem_of_nil in Hn|done].
Qed.

(** ** The consistency check passes *)

Lemma in_order_perm x : in_order x ≡ₚ map_to_list x.
Proof. apply merge_sort_Permutation. Qed.
Lemma elem_of_in_order x id i : (id, i) ∈ in_order x <-> x !! id = Some i.
Proof. rewrite in_order_perm. apply elem_of_map_to_list. Qed.
Lemma NoDup_in_order x : NoDup (map fst (in_order x)).
Proof. rewrite (in_order_perm x). apply NoDup_fst_map_to_list. Qed.

Lemma check_entry_spec m st n i : index m -> discriminatePorts m = true -> mapInfo m !! n = Some i -> live i -> nRefCount i <= ADDRMAN_NEW_BUCKETS_PER_ADDRESS -> (fInTried i = true -> nRefCount i = 0) ->
  ck_mapAddr st = mapAddr m ->
  check_entry m st (n, i) = inr (if fInTried i then mkCheck ({[n]} ∪ setTried st) (mapNew st) (mapAddr m) else mkCheck (setTried st) (<[n := nRefCount i]> (mapNew st)) (mapAddr m)).
Proof.
  intros Hx Hd Hi (H1 & H2 & H3) Hr Hz Ha. unfold check_entry.
  assert (HA : mapAddr m !! full_key (service (address i)) = Some n). { apply (x_addr _ _ _ _ _ Hx). exists i. by rewrite Hd. }
  assert (Hins : <[full_key (service (address i)) := n]> (mapAddr m) = mapAddr m) by by apply insert_id.
  destruct (index_position _ _ _ _ _ _ _ Hx Hi) as [HR Hp].
  assert (Hpos : (nRandomPos i <? 0) || (AddrMan_size m <=? nRandomPos i) || negb (bool_decide (vRandom m !! Z.to_nat (nRandomPos i) = Some n)) = false).
  { rewrite HR, bool_decide_true by done. rewrite (proj2 (Z.ltb_ge _ _)), (proj2 (Z.leb_gt _ _)) by (unfold AddrMan_size; lia). done. }
  destruct (fInTried i) eqn:Ef.
  - rewrite (proj2 (Z.eqb_neq _ _) H3), Hz by done. cbn [negb Z.eqb ck_mapAddr setTried mapNew]. rewrite Ha, HA. cbn [default from_option]. unfold Datatypes.id. rewrite Z.eqb_refl, Hpos, !(proj2 (Z.ltb_ge _ _)), Hins by lia. done.
  - rewrite (proj2 (Z.ltb_ge (nRefCount i) 0)), (proj2 (Z.ltb_ge ADDRMAN_NEW_BUCKETS_PER_ADDRESS _)) by lia. rewrite (proj2 (Z.eqb_neq (nRefCount i) 0)) by lia. cbn [orb ck_mapAddr setTried mapNew]. rewrite Ha, HA.
    cbn [default from_option]. unfold Datatypes.id. rewrite Z.eqb_refl, Hpos, !(proj2 (Z.ltb_ge _ _)), Hins by lia. done.
Qed.
Definition entries_fine (m : CAddrMan) (l : list (Z * CAddrInfo)) : Prop :=
  forall n i, (n, i) ∈ l -> mapInfo m !! n = Some i /\ live i /\ nRefCount i <= ADDRMAN_NEW_BUCKETS_PER_ADDRESS /\ (fInTried i = true -> nRefCount i = 0).
Lemma check_entries_spec m l : index m -> discriminatePorts m = true -> forall st, entries_fine m l -> ck_mapAddr st = mapAddr m -> NoDup (map fst l) ->
  exists st', fold_check (check_entry m) st l = inr st' /\
    (forall id, id ∈ setTried st' <-> id ∈ setTried st \/ exists i, (id, i) ∈ l /\ fInTried i = true) /\
    (forall id c, (forall i, (id, i) ∉ l) \/ mapNew st !! id = None -> mapNew st' !! id = Some c <-> mapNew st !! id = Some c \/ exists i, (id, i) ∈ l /\ fInTried i = false /\ c = nRefCount i).
Proof.
  intros Hx Hd. induction l as [|[n i] l IH]; intros st Hfine Ha Hnd.
  { exists st. split_and!; [done|set_solver|]. intros id c _. split; [by left|]. intros [?|(i & Hi & _)]; [done|by apply elem_of_nil in Hi]. }
  cbn [fold_check map fst] in *. apply NoDup_cons in Hnd as [Hn Hnd]. destruct (Hfine n i ltac:(left)) as (Hi & Hl & Hr & Hz). rewrite check_entry_spec by done.
  assert (Hfine' : entries_fine m l) by (intros n' i' Hin; apply Hfine; by right).
  assert (Hnot : forall i', (n, i') ∉ l) by (intros i' Hin; apply Hn; apply list_elem_of_fmap; by exists (n, i')).
  destruct (fInTried i) eqn:Ef.
  - destruct (IH (mkCheck ({[n]} ∪ setTried st) (mapNew st) (mapAddr m)) Hfine' eq_refl Hnd) as (st' & E & Ht & Hm). exists st'. split_and!; [exact E| |].
    + intros id. rewrite Ht. cbn [setTried]. rewrite elem_of_union, elem_of_singleton. split.
      * intros [[->|?]|(k & Hk & ?)]; [right; exists i; split; [left|done]|by left|right; exists k; split; [by right|done]].
      * intros [?|(k & [[= -> ->]|Hk]%elem_of_cons & ?)]; [auto|auto|eauto].
    + intros id c Hc. rewrite Hm by (cbn [mapNew]; destruct Hc as [Hc|]; [left; intros k Hk; apply (Hc k); by right|by right]). cbn [mapNew]. split.
      * intros [?|(k & Hk & ?)]; [by left|right; exists k; split; [by right|done]].
      * intros [?|(k & [[= -> ->]|Hk]%elem_of_cons & Hf & ?)]; [by left|congruence|eauto].
  - destruct (IH (mkCheck (setTried st) (<[n := nRefCount i]> (mapNew st)) (mapAddr m)) Hfine' eq_refl Hnd) as (st' & E & Ht & Hm). exists st'. split_and!; [exact E| |].
    + intros id. rewrite Ht. cbn [setTried]. split.
      * intros [?|(k & Hk & ?)]; [by left|right; exists k; split; [by right|done]].
      * intros [?|(k & [[= -> ->]|Hk]%elem_of_cons & ?)]; [by left|congruence|eauto].
    + intros id c Hc. destruct (decide (id = n)) as [->|Hne].
      * rewrite Hm by (by left). cbn [mapNew]. rewrite lookup_insert_eq. split.
        -- intros [[= <-]|(k & Hk & _)]; [right; exists i; split_and!; [left|done|done]|by apply Hnot in Hk].
        -- intros [Hs|(k & [[= ->]|Hk]%elem_of_cons & _ & ->)]; [|by left|by apply Hnot in Hk]. destruct Hc as [Hc|Hc]; [destruct (Hc i); by left|congruence].
      * rewrite Hm by (cbn [mapNew]; rewrite lookup_insert_ne by done; destruct Hc as [Hc|]; [left; intros k Hk; apply (Hc k); by right|by right]). cbn [mapNew]. rewrite lookup_insert_ne by done. split.
        -- intros [?|(k & Hk & ?)]; [by left|right; exists k; split; [by right|done]].
        -- intros [?|(k & [[= -> ->]|Hk]%elem_of_cons & ?)]; [by left|done|eauto].
Qed.

Lemma check_tried_spec m rest : tables m -> NoDup rest -> forall st,
  (forall id, id ∈ st <-> exists i, mapInfo m !! id = Some i /\ fInTried i = true /\ (tried_bucket i (nKey m), tried_position i (nKey m)) ∈ rest) ->
  fold_check (check_tried m) st rest = inr ∅.
Proof.
  intros Ht. induction rest as [|[n p] rest IH]; intros Hnd st Hst; cbn [fold_check].
  { f_equal. apply set_eq. intros id. rewrite Hst. split; [|by intros ?%not_elem_of_empty]. intros (i & _ & _ & Hin). by apply elem_of_nil in Hin. }
  apply NoDup_cons in Hnd as [Hn Hnd]. unfold check_tried at 1. destruct (Z.eqb_spec (slot (vvTried m) n p) (-1)) as [E|Hne].
  - apply IH; [done|]. intros id. rewrite Hst. split; intros (i & Hi & Hf & Hin); exists i; split_and!; try done; [|by right]. apply elem_of_cons in Hin as [Eq|]; [|done]. exfalso.
    pose proof (t_entry _ _ _ _ Ht id i Hi) as Hok. unfold entry_ok in Hok. rewrite Hf in Hok. destruct Hok as [_ Hs]. pose proof (t_ids _ _ _ _ Ht id i Hi).
    pose proof (f_equal fst Eq) as E1. pose proof (f_equal snd Eq) as E2. cbn [fst snd] in E1, E2. rewrite E2, E1, E in Hs. lia.
  - destruct (t_tried _ _ _ _ Ht n p Hne) as (i & Hi & Hf & Hb & Hp). set (id := slot (vvTried m) n p) in *.
    assert (Hin : id ∈ st) by (apply Hst; exists i; split_and!; [done..|rewrite <- Hp, <- Hb; left]). rewrite bool_decide_true by done. rewrite Hi. cbn [negb default from_option]. unfold Datatypes.id.
    rewrite Hp, Hb, !Z.eqb_refl. cbn [negb]. apply IH; [done|]. intros j. rewrite elem_of_difference, elem_of_singleton, Hst. split.
    + intros [(k & Hk & Hkf & [Eq|Hkin]%elem_of_cons) Hj]; [|eauto]. exfalso. apply Hj. pose proof (t_entry _ _ _ _ Ht j k Hk) as Hok. unfold entry_ok in Hok. rewrite Hkf in Hok. destruct Hok as [_ Hs].
      pose proof (f_equal fst Eq) as E1. pose proof (f_equal snd Eq) as E2. cbn [fst snd] in E1, E2. by rewrite E2, E1 in Hs.
    + intros (k & Hk & Hkf & Hkin). split; [exists k; split_and!; [done..|by right]|]. intros ->. assert (k = i) as -> by congruence. apply Hn. by rewrite Hp, Hb.
Qed.
Lemma countb_cons {A : Type} (f : A -> bool) x l : countb f (x :: l) = (if f x then 1 else 0) + countb f l.
Proof. unfold countb. cbn. destruct (f x); cbn [length]; lia. Qed.
Lemma countb_app {A : Type} (f : A -> bool) l k : countb f (l ++ k) = countb f l + countb f k.
Proof. unfold countb. rewrite List.filter_app, length_app. lia. Qed.
Definition holds (N : gmap (Z * Z) Z) (id : Z) (x : Z * Z) : bool := slot N x.1 x.2 =? id.
Lemma check_new_spec m rest : tables m -> forall st,
  (forall id c, st !! id = Some c <-> (exists i, mapInfo m !! id = Some i /\ fInTried i = false) /\ c = countb (holds (vvNew m) id) rest /\ 1 <= c) ->
  fold_check (check_new m) st rest = inr ∅.
Proof.
  intros Ht. induction rest as [|[n p] rest IH]; intros st Hst; cbn [fold_check].
  { f_equal. apply map_eq. intros id. rewrite lookup_empty. destruct (st !! id) as [c|] eqn:E; [|done]. apply Hst in E as (_ & -> & H). done. }
  unfold check_new at 1. destruct (Z.eqb_spec (slot (vvNew m) n p) (-1)) as [E|Hne].
  - assert (Hh : forall id i, mapInfo m !! id = Some i -> countb (holds (vvNew m) id) ((n, p) :: rest) = countb (holds (vvNew m) id) rest).
    { intros id i Hi. pose proof (t_ids _ _ _ _ Ht id i Hi). rewrite countb_cons. replace (holds (vvNew m) id (n, p)) with false; [lia|]. symmetry. apply Z.eqb_neq. cbn [fst snd]. lia. }
    apply IH. intros id c. rewrite Hst. split; intros [(i & Hi & Hf) Hc]; (split; [by exists i|]); pose proof (Hh id i Hi); lia.
  - destruct (t_new _ _ _ _ Ht n p Hne) as (Hb & i & Hi & Hf & Hp). set (id := slot (vvNew m) n p) in *.
    assert (Hself : holds (vvNew m) id (n, p) = true) by apply Z.eqb_refl. assert (Hoth : forall j, j <> id -> holds (vvNew m) j (n, p) = false) by (intros j Hj; apply Z.eqb_neq; intros E; apply Hj; by rewrite <- E).
    pose proof (countb_nonneg (holds (vvNew m) id) rest) as Hnn. assert (Hc : st !! id = Some (1 + countb (holds (vvNew m) id) rest)) by (apply Hst; split; [by exists i|]; rewrite countb_cons, Hself; lia).
    rewrite Hc, Hi. cbn [default from_option]. unfold Datatypes.id. rewrite Hp, Z.eqb_refl. cbn [negb]. replace (1 + countb (holds (vvNew m) id) rest - 1) with (countb (holds (vvNew m) id) rest) by lia. apply IH.
    intros j c. destruct (decide (j = id)) as [->|Hj].
    + destruct (Z.eqb_spec (countb (holds (vvNew m) id) rest) 0) as [Ez|Hnz].
      * rewrite lookup_delete_eq. split; [done|]. intros (_ & -> & ?). lia.
      * rewrite lookup_insert_eq. split; [intros [= <-]; split; [by exists i|lia]|by intros (_ & -> & _)].
    + assert (El : (if countb (holds (vvNew m) id) rest =? 0 then delete id st else <[id := countb (holds (vvNew m) id) rest]> st) !! j = st !! j) by (destruct (_ =? 0); [by rewrite lookup_delete_ne|by rewrite lookup_insert_ne]).
      rewrite El, Hst, countb_cons, (Hoth j Hj). rewrite Z.add_0_l. done.
Qed.
(** Each bucket has the entry at most once. *)
Lemma count_positions N id q ps : NoDup ps -> q ∈ ps -> forall b, (forall p, slot N b p = id -> p = q) ->
  countb (holds N id) (p ← ps; [(b, p)]) = if slot N b q =? id then 1 else 0.
Proof.
  intros Hnd Hq b Hu. assert (Hz : forall ps, q ∉ ps -> countb (holds N id) (p ← ps; [(b, p)]) = 0).
  { intros l Hl. apply countb_zero. intros x (p & Hx & Hp)%list_elem_of_bind. apply list_elem_of_singleton in Hx as ->. apply Z.eqb_neq. cbn. intros E%Hu. congruence. }
  induction Hnd as [|p ps Hp Hnd IH]; [by apply elem_of_nil in Hq|]. cbn [mbind list_bind]. rewrite countb_app, countb_cons. change (countb (holds N id) []) with 0. unfold holds at 1. cbn [fst snd].
  apply elem_of_cons in Hq as [<-|Hq].
  - rewrite (Hz ps Hp). lia.
  - rewrite (IH Hq). destruct (Z.eqb_spec (slot N b p) id) as [E|]; [|lia]. apply Hu in E as ->. done.
Qed.
Lemma count_places N id q ps bs : NoDup ps -> (forall b, q b ∈ ps) -> (forall b p, slot N b p = id -> p = q b) ->
  countb (holds N id) (b ← bs; p ← ps; [(b, p)]) = countb (fun b => slot N b (q b) =? id) bs.
Proof.
  intros Hnd Hq Hu. induction bs as [|b bs IH]; [done|]. cbn [mbind list_bind] in *. rewrite countb_app, countb_cons, IH, (count_positions N id (q b) ps Hnd (Hq b) b (Hu b)). done.
Qed.

Lemma counts_set b (M : gmap Z CAddrInfo) (S : gset Z) : (forall id, id ∈ S <-> exists i, M !! id = Some i /\ fInTried i = b) -> Z.of_nat (base.size S) = counts b (fInTried <$> M).
Proof.
  intros HS. unfold counts. rewrite <- (size_dom (D := gset Z)). do 2 f_equal. apply set_eq. intros id. rewrite HS, elem_of_dom. unfold is_Some. setoid_rewrite map_lookup_filter_Some. setoid_rewrite lookup_fmap_Some. cbn. naive_solver.
Qed.
Lemma places_spec buckets : NoDup (places buckets) /\ forall b p, (b, p) ∈ places buckets <-> 0 <= b < buckets /\ 0 <= p < ADDRMAN_BUCKET_SIZE.
Proof.
  unfold places. split.
  - apply NoDup_bind; [|intros b _; apply NoDup_bind; [|intros; apply NoDup_singleton|apply NoDup_seqZ]|apply NoDup_seqZ].
    + intros b b' x _ _ (p & Hx & _)%list_elem_of_bind (p' & Hx' & _)%list_elem_of_bind. apply list_elem_of_singleton in Hx, Hx'. congruence.
    + intros p p' x _ _ Hx Hx'. apply list_elem_of_singleton in Hx, Hx'. congruence.
  - intros b p. rewrite list_elem_of_bind. split.
    + intros (b0 & (p0 & E & Hp)%list_elem_of_bind & Hb). apply list_elem_of_singleton in E. apply elem_of_seqZ in Hp, Hb. injection E as -> ->. lia.
    + intros [Hb Hp]. exists b. rewrite list_elem_of_bind. split; [exists p; split; [by apply list_elem_of_singleton|]|]; apply elem_of_seqZ; lia.
Qed.
Lemma Check_passes m : inv m -> discriminatePorts m = true -> nKey m <> replicate 32 0 -> Check_ m = 0.
Proof.
  intros [Hw Hl] Hd Hk. pose proof (w_index _ _ _ Hw) as Hx. pose proof (w_tables _ _ _ Hw) as Ht. unfold Check_.
  pose proof (index_size _ _ _ _ _ Hx) as Hsize. pose proof (counts_total (fInTried <$> mapInfo m)) as Htot. rewrite map_size_fmap in Htot. pose proof (w_new _ _ _ Hw) as Hnew. pose proof (w_tried _ _ _ Hw) as Htr.
  rewrite (proj2 (Z.eqb_eq (AddrMan_size m) (nTried m + nNew m))) by (unfold AddrMan_size; lia). cbn [negb].
  assert (Hfine : entries_fine m (in_order (mapInfo m))).
  { intros n i Hi%elem_of_in_order. pose proof (t_entry _ _ _ _ Ht n i Hi) as Hok. unfold entry_ok, ADDRMAN_NEW_BUCKETS_PER_ADDRESS in *. split_and!; [done|by apply (Hl n)|destruct (fInTried i); lia|intros Ef; rewrite Ef in Hok; apply Hok]. }
  destruct (check_entries_spec m (in_order (mapInfo m)) Hx Hd (mkCheck ∅ ∅ (mapAddr m)) Hfine eq_refl (NoDup_in_order _)) as (st & -> & Hst & Hsn). cbn [setTried mapNew] in Hst, Hsn.
  assert (Hst' : forall id, id ∈ setTried st <-> exists i, mapInfo m !! id = Some i /\ fInTried i = true).
  { intros id. rewrite Hst. setoid_rewrite elem_of_in_order. split; [intros [?%not_elem_of_empty|]; done|by right]. }
  assert (Hsn' : forall id c, mapNew st !! id = Some c <-> exists i, mapInfo m !! id = Some i /\ fInTried i = false /\ c = nRefCount i).
  { intros id c. rewrite Hsn by (right; apply lookup_empty). rewrite lookup_empty. setoid_rewrite elem_of_in_order. split; [by intros [|]|by right]. }
  rewrite (counts_set true (mapInfo m)) by done. rewrite (proj2 (Z.eqb_eq _ _)) by lia. cbn [negb].
  rewrite <- (size_dom (D := gset Z) (mapNew st)), (counts_set false (mapInfo m)) by (intros id; rewrite elem_of_dom; unfold is_Some; setoid_rewrite Hsn'; naive_solver).
  rewrite (proj2 (Z.eqb_eq _ _)) by lia. cbn [negb].
  rewrite (check_tried_spec m (places ADDRMAN_TRIED_BUCKET_COUNT) Ht (proj1 (places_spec _))).
  2:{ intros id. rewrite Hst'. setoid_rewrite (proj2 (places_spec _)). pose proof tried_bucket_range. pose proof position_range. naive_solver. }
  rewrite (check_new_spec m (places ADDRMAN_NEW_BUCKET_COUNT) Ht).
  2:{ intros id c. rewrite Hsn'. split.
      - intros (i & Hi & Hf & ->). split; [by exists i|]. pose proof (Hl id i Hi) as (_ & _ & Hr). rewrite Hf in Hr. split; [|done]. pose proof (t_entry _ _ _ _ Ht id i Hi) as Hok. unfold entry_ok in Hok. rewrite Hf in Hok.
        destruct Hok as [-> _]. unfold places, refs. symmetry. apply count_places; [apply NoDup_seqZ|intros b; apply elem_of_seqZ; pose proof (position_range i (nKey m) true b); lia|].
        intros b p E. by apply (new_slot_of _ _ _ _ _ _ _ _ Ht Hi E).
      - intros ((i & Hi & Hf) & -> & _). exists i. split_and!; [done..|]. pose proof (t_entry _ _ _ _ Ht id i Hi) as Hok. unfold entry_ok in Hok. rewrite Hf in Hok.
        destruct Hok as [-> _]. unfold places, refs. apply count_places; [apply NoDup_seqZ|intros b; apply elem_of_seqZ; pose proof (position_range i (nKey m) true b); lia|].
        intros b p E. by apply (new_slot_of _ _ _ _ _ _ _ _ Ht Hi E). }
  rewrite size_empty, map_size_empty. cbn [negb Z.of_nat Z.eqb]. by rewrite bool_decide_false.
Qed.

(** ** Whatever is called *)

Inductive operation :=
  | OpAdd (addr : CAddress) (src : CNetAddr) (nTimePenalty nNow nRnd : Z)
  | OpGood (addr : CService) (nTimeIn nRnd : Z)
  | OpAttempt (addr : CService) (fCountFailure : bool) (nTimeIn : Z)
  | OpConnected (addr : CService) (nTimeIn : Z)
  | OpSetServices (addr : CService) (nServicesIn : Z)
  | OpGetAddr (nNow : Z) (rnd : Z -> Z).
Definition apply_op (priv : bool) (m : CAddrMan) (op : operation) : option CAddrMan :=
  match op with
  | OpAdd addr src pen now rnd => fst <$> Add_ priv m addr src pen now rnd
  | OpGood s t rnd => Good_ m s t rnd
  | OpAttempt s f t => Some (Attempt_ m s f t)
  | OpConnected s t => Some (Connected_ m s t)
  | OpSetServices s n => Some (SetServices_ m s n)
  | OpGetAddr now rnd => fst <$> GetAddr_ m now rnd
  end.
(** There are identifiers left, the clock is past 1970, and random numbers are below their bounds. *)
Definition valid_op (m : CAddrMan) (op : operation) : Prop :=
  match op with
  | OpAdd _ _ _ _ _ => nIdCount m < 2 ^ 31 - 1
  | OpGood _ t _ => 0 < t
  | OpAttempt _ _ t => 0 <= t
  | OpGetAddr _ rnd => forall k, 0 <= k < AddrMan_size m -> 0 <= rnd k < AddrMan_size m - k
  | _ => True
  end.
Inductive reachable (priv : bool) : CAddrMan -> Prop :=
  | reachable_new d key : reachable priv (AddrMan_new d key)
  | reachable_op m op m' : reachable priv m -> valid_op m op -> apply_op priv m op = Some m' -> reachable priv m'.

Lemma inv_new d key : inv (AddrMan_new d key).
Proof.
  split; [|intros id i Hi; cbn in Hi; by rewrite lookup_empty in Hi]. unfold AddrMan_new, Clear. split; cbn [nIdCount mapInfo mapAddr vRandom nTried vvTried nNew vvNew nLastGood discriminatePorts nKey].
  - split; cbn [nIdCount mapInfo mapAddr vRandom discriminatePorts]; [lia|intros id i Hi; by rewrite lookup_empty in Hi..| |].
    + intros k id. rewrite lookup_nil. split; [done|]. intros (i & Hi & _). by rewrite lookup_empty in Hi.
    + intros k id. rewrite lookup_empty. split; [done|]. intros (i & Hi & _). by rewrite lookup_empty in Hi.
  - split; cbn [nKey mapInfo vvNew vvTried]; [intros id i Hi; by rewrite lookup_empty in Hi|intros b p Hs; by destruct Hs|intros b p Hs; by destruct Hs|intros id i Hi; by rewrite lookup_empty in Hi].
  - by rewrite fmap_empty.
  - by rewrite fmap_empty.
Qed.
Lemma apply_op_spec priv m op : inv m -> valid_op m op -> exists m', apply_op priv m op = Some m' /\ inv m'.
Proof.
  intros Hinv Hv. destruct op as [addr src pen now rnd|s t rnd|s f t|s t|s n|now rnd]; cbn [apply_op valid_op] in *.
  - destruct (Add_spec priv m addr src pen now rnd Hinv Hv) as (m' & b & -> & Hinv' & _). by exists m'.
  - destruct (Good_spec m s t rnd Hinv Hv) as (m' & -> & Hinv' & _). by exists m'.
  - eexists. split; [done|]. apply with_entry_spec; [done|]. intros i (H1 & H2 & H3). split_and!; [done..|]. unfold live. cbn [nLastTry nLastSuccess fInTried nRefCount]. done.
  - eexists. split; [done|]. apply with_entry_spec; [done|]. intros i Hl. by destruct (_ <? _).
  - eexists. split; [done|]. apply with_entry_spec; [done|]. intros i Hl. done.
  - destruct (GetAddr_spec m now rnd Hinv Hv) as (m' & l & -> & Hinv' & _). by exists m'.
Qed.
Lemma reachable_inv priv m : reachable priv m -> inv m.
Proof. induction 1 as [d key|m op m' _ IH Hv E]; [apply inv_new|]. destruct (apply_op_spec priv m op IH Hv) as (m2 & E2 & Hinv). congruence. Qed.

(** C16. From an empty manager, whatever valid calls are made (the clock past 1970, identifiers left), no assertion of the address manager fails, every entry is found under
    its address, and, where ports are told apart and the key is not null, the manager's own consistency check finds nothing: the maps, the order, the buckets, the reference
    counts and the counters agree. *)
Theorem addrman_consistent priv m : reachable priv m ->
  (forall op, valid_op m op -> exists m', apply_op priv m op = Some m') /\
  (forall id i, mapInfo m !! id = Some i -> Find m (service (address i)) = Some (id, i)) /\
  (discriminatePorts m = true -> nKey m <> replicate 32 0 -> Check_ m = 0).
Proof.
  intros Hr%reachable_inv. split_and!.
  - intros op Hv. destruct (apply_op_spec priv m op Hr Hv) as (m' & E & _). eauto.
  - intros id i Hi. unfold Find. assert (E : mapAddr m !! addr_key m (service (address i)) = Some id) by (apply (x_addr _ _ _ _ _ (w_index _ _ _ (proj1 Hr))); by exists i). rewrite E. cbn [mbind option_bind]. by rewrite Hi.
  - by apply Check_passes.
Qed.

(** An address that is known and with which a connection succeeded is among the tried ones, whatever bucket the search starts from. *)
Theorem good_address_is_tried priv m s t rnd id i : reachable priv m -> 0 < t -> Find m s = Some (id, i) -> full_key (service (address i)) = full_key s ->
  exists m' i', Good_ m s t rnd = Some m' /\ mapInfo m' !! id = Some i' /\ fInTried i' = true /\ Find m' s = Some (id, i').
Proof.
  intros Hr%reachable_inv Ht EF Ek. destruct (Good_spec m s t rnd Hr Ht) as (m' & E & Hinv' & _ & Hd & _ & H). destruct (H id i EF) as (i' & Hi' & Hf' & Ha').
  { unfold Service_ne, NetAddr_eq. unfold full_key in Ek. rewrite (f_equal fst Ek : ip _ = ip _), (f_equal snd Ek : port _ = port _). by rewrite bool_decide_true, Z.eqb_refl. }
  exists m', i'. split_and!; [done..|]. unfold Find. assert (E' : mapAddr m' !! addr_key m' s = Some id).
  { apply (x_addr _ _ _ _ _ (w_index _ _ _ (proj1 Hinv'))). exists i'. split; [done|]. rewrite Ha'. unfold addr_key. unfold full_key in *. destruct (discriminatePorts m'); cbn [negb]; [done|]. cbn [SetPort netaddr port]. by rewrite (f_equal fst Ek : ip _ = ip _). }
  rewrite E'. cbn [mbind option_bind]. by rewrite Hi'.
Qed.

(** *** The check and the ports *)

Lemma fold_check_entry m st x st' : check_entry m st x = inr st' ->
  default 0 (ck_mapAddr st !! full_key (service (address x.2))) = x.1 /\ ck_mapAddr st' = <[full_key (service (address x.2)) := x.1]> (ck_mapAddr st).
Proof.
  destruct x as [n i]. unfold check_entry. cbn [fst snd]. repeat (case_match; try done); intros [= <-]; cbn [ck_mapAddr] in *; (split; [by apply Z.eqb_eq, negb_false_iff|f_equal; by apply Z.eqb_eq, negb_false_iff]).
Qed.
Lemma check_entries_ports m l : forall st st', fold_check (check_entry m) st l = inr st' -> (forall key id, ck_mapAddr st !! key = Some id -> id <> 0 -> key.2 = 0) ->
  forall n i, (n, i) ∈ l -> n = 0 \/ port (service (address i)) = 0.
Proof.
  induction l as [|x l IH]; intros st st' E Hst n i Hin; [by apply elem_of_nil in Hin|]. cbn [fold_check] in E. destruct (check_entry m st x) as [|st1] eqn:E1; [done|]. apply fold_check_entry in E1 as [Hx Hm].
  assert (Hk : x.1 = 0 \/ port (service (address x.2)) = 0).
  { destruct (decide (x.1 = 0)) as [|Hne]; [by left|]. right. destruct (ck_mapAddr st !! _) as [id|] eqn:Ek; cbn in Hx; [|congruence]. subst id. by apply Hst in Ek. }
  apply elem_of_cons in Hin as [<-|Hin]; [done|]. apply (IH st1 st' E); [|done]. intros key id. rewrite Hm, lookup_insert_Some. intros [[<- <-]|[_ Hk']]; [by destruct Hk|by apply Hst].
Qed.
(** Where ports are not told apart, the check looks for the entries under their ports although they are stored without, and fails as soon as an entry but the first has one. *)
Theorem check_fails_without_ports priv m id i : reachable priv m -> discriminatePorts m = false -> mapInfo m !! id = Some i -> id <> 0 -> port (service (address i)) <> 0 -> Check_ m <> 0.
Proof.
  intros Hr%reachable_inv Hd Hi Hid Hp. unfold Check_. destruct (negb _); [done|]. destruct (fold_check _ _ _) as [e|st] eqn:E.
  - clear Hi. intros ->. revert E. generalize (mkCheck ∅ ∅ (mapAddr m)). induction (in_order (mapInfo m)) as [|[n k] l IH]; intros st; cbn [fold_check]; [done|].
    destruct (check_entry m st (n, k)) as [e|st'] eqn:E1; [|apply IH]. intros [= ->]. unfold check_entry in E1. by repeat case_match.
  - exfalso. destruct (check_entries_ports m _ _ _ E) with (n := id) (i := i) as [|]; [|by apply elem_of_in_order|done|done]. cbn [ck_mapAddr]. intros key n Hk _.
    apply (x_addr _ _ _ _ _ (w_index _ _ _ (proj1 Hr))) in Hk as (j & _ & <-). by rewrite Hd.
Qed.

(** *** Selection *)

(** A selection never fails; what it yields is an entry of the table asked for. *)
Theorem selection_is_known priv accepts m newOnly coin rounds : reachable priv m ->
  match Select_ accepts m newOnly coin rounds with
  | Selected info => info = Info_empty /\ (AddrMan_size m = 0 \/ newOnly = true /\ nNew m = 0) \/ exists id, mapInfo m !! id = Some info /\ (newOnly = true -> fInTried info = false)
  | Searching => True
  | Failed => False
  end.
Proof.
  intros Hr%reachable_inv. unfold Select_. destruct (Z.eqb_spec (AddrMan_size m) 0); [auto|]. destruct (newOnly && (nNew m =? 0)) eqn:En.
  { apply andb_true_iff in En as [-> ?%Z.eqb_eq]. auto. }
  pose proof (w_tables _ _ _ (proj1 Hr)) as Ht.
  assert (Hprobe : forall vv buckets steps b p id, probe vv buckets b p steps = Some id -> exists b p, slot vv b p = id /\ id <> -1).
  { intros vv buckets steps. induction steps as [|[r r'] steps IH]; intros b p id; cbn [probe]; destruct (Z.eqb_spec (slot vv b p) (-1)); cbn [negb]; try done; [intros [= <-]; eauto|apply IH|intros [= <-]; eauto]. }
  assert (Hsel : forall vv buckets (P : CAddrInfo -> Prop), (forall b p, slot vv b p <> -1 -> exists i, mapInfo m !! slot vv b p = Some i /\ P i) -> forall rounds k,
    match select_from accepts m vv buckets k rounds with Selected info => exists id, mapInfo m !! id = Some info /\ P info | Searching => True | Failed => False end).
  { intros vv buckets P HP rs. induction rs as [|[[[b p] steps] r] rs IH]; intros k; cbn [select_from]; [done|]. destruct (probe vv buckets b p steps) as [id|] eqn:Ep; [|done].
    apply Hprobe in Ep as (b' & p' & E & Hne). destruct (HP b' p' ltac:(congruence)) as (i & Hi & HPi). rewrite E in Hi. rewrite Hi. destruct (accepts k i r); [by exists id|apply IH]. }
  destruct (negb newOnly && _) eqn:Eb.
  - pose proof (Hsel (vvTried m) ADDRMAN_TRIED_BUCKET_COUNT (fun _ => True)) as H. specialize (H ltac:(intros b p Hne; destruct (t_tried _ _ _ _ Ht b p Hne) as (i & Hi & _); eauto) rounds O).
    destruct (select_from _ _ _ _ _ _); try done. destruct H as (id & Hi & _). right. exists id. split; [done|]. apply andb_true_iff in Eb as [Eb _]. by destruct newOnly.
  - pose proof (Hsel (vvNew m) ADDRMAN_NEW_BUCKET_COUNT (fun i => fInTried i = false)) as H. specialize (H ltac:(intros b p Hne; destruct (t_new _ _ _ _ Ht b p Hne) as (_ & i & Hi & Hf & _); eauto) rounds O).
    destruct (select_from _ _ _ _ _ _); try done. destruct H as (id & Hi & Hf). right. by exists id.
Qed.
Lemma counts_pos b (M : gmap Z CAddrInfo) : counts b (fInTried <$> M) <> 0 -> exists id i, M !! id = Some i /\ fInTried i = b.
Proof.
  unfold counts. intros H. destruct (map_choose (filter (fun x => x.2 = b) (fInTried <$> M))) as (id & c & Hc); [intros E; rewrite E, map_size_empty in H; done|].
  apply map_lookup_filter_Some in Hc as [Hc Eb]. cbn in Eb. subst c. rewrite lookup_fmap in Hc. destruct (M !! id) as [i|] eqn:E; [|done]. apply (inj Some) in Hc. eauto.
Qed.
(** As long as there is an entry to select, some draw selects one at once, if every entry has a chance. *)
Theorem selection_can_succeed priv accepts m newOnly : reachable priv m -> (forall i, exists r, accepts O i r = true) -> AddrMan_size m <> 0 -> (newOnly = true -> nNew m <> 0) ->
  exists coin bucket pos r info, Select_ accepts m newOnly coin [(bucket, pos, [], r)] = Selected info /\ exists id, mapInfo m !! id = Some info.
Proof.
  intros Hr%reachable_inv Hacc Hs Hn. pose proof (w_tables _ _ _ (proj1 Hr)) as Ht. pose proof (index_size _ _ _ _ _ (w_index _ _ _ (proj1 Hr))) as Hsize.
  pose proof (counts_total (fInTried <$> mapInfo m)) as Htot. rewrite map_size_fmap in Htot. pose proof (w_new _ _ _ (proj1 Hr)) as Hnew. pose proof (w_tried _ _ _ (proj1 Hr)) as Htr. unfold Select_. rewrite (proj2 (Z.eqb_neq _ _) Hs).
  assert (Hfrom : forall vv buckets b p id i, slot vv b p = id -> mapInfo m !! id = Some i -> exists r, select_from accepts m vv buckets 0 [(b, p, [], r)] = Selected i).
  { intros vv buckets b p id i E Hi. destruct (Hacc i) as [r Hr']. exists r. cbn [select_from probe]. pose proof (t_ids _ _ _ _ Ht id i Hi). rewrite E, (proj2 (Z.eqb_neq _ _)) by lia. cbn [negb]. by rewrite Hi, Hr'. }
  destruct (decide (nNew m = 0)) as [Ez|Hnz].
  - destruct newOnly; [by destruct Hn|]. destruct (counts_pos true (mapInfo m)) as (id & i & Hi & Hf); [unfold AddrMan_size in Hs; lia|]. pose proof (t_entry _ _ _ _ Ht id i Hi) as Hok. unfold entry_ok in Hok. rewrite Hf in Hok. destruct Hok as [_ Hsl].
    destruct (Hfrom _ ADDRMAN_TRIED_BUCKET_COUNT _ _ _ _ Hsl Hi) as [r Er]. eexists 0, _, _, r, i. cbn [andb negb]. rewrite Ez, (proj2 (Z.ltb_lt _ _)) by (unfold AddrMan_size in Hs; lia). cbn [andb orb Z.eqb]. split; [exact Er|eauto].
  - destruct (counts_pos false (mapInfo m)) as (id & i & Hi & Hf); [lia|]. pose proof (t_entry _ _ _ _ Ht id i Hi) as Hok. unfold entry_ok in Hok. rewrite Hf in Hok. destruct Hok as [Er _].
    pose proof (proj2 Hr id i Hi) as (_ & _ & Hr1). rewrite Hf, Er in Hr1. apply refs_pos in Hr1 as (b & _ & Hsl). destruct (Hfrom _ ADDRMAN_NEW_BUCKET_COUNT _ _ _ _ Hsl Hi) as [r Esel].
    eexists 1, _, _, r, i. rewrite (proj2 (Z.eqb_neq _ _) Hnz), andb_false_r. cbn [orb Z.eqb Pos.eqb]. rewrite !andb_false_r. split; [exact Esel|eauto].
Qed.
End Invariant.

(** ** The file loses the addresses *)

Section File.
Context `{B : BucketChoice}.
(** An identifier in [mapAddr] leads to an entry of exactly that service. *)
Definition stored_by_port (m : CAddrMan) : Prop := forall key id i, mapAddr m !! key = Some id -> mapInfo m !! id = Some i -> full_key (service (address i)) = key.
Definition ids_below (n : Z) (m : CAddrMan) : Prop := forall key id, mapAddr m !! key = Some id -> id < n.
Definition new_present (m : CAddrMan) : Prop := forall id, 0 <= id < nNew m -> exists i, mapInfo m !! id = Some i.

Lemma read_loop_inv {S A : Type} (I : S -> list A -> Prop) (f : S -> A -> reader S) :
  (forall st x l s st' s', I st (x :: l) -> f st x s = Some (st', s') -> I st' l) -> forall l st s st' s', I st l -> read_loop f st l s = Some (st', s') -> I st' [].
Proof.
  intros Hstep l. induction l as [|x l IH]; intros st s st' s' HI; cbn [read_loop]; [by intros [= <- <-]|]. destruct (f st x s) as [[st1 s1]|] eqn:E; [|done]. cbn [mbind option_bind]. apply IH. by apply (Hstep st x l s st1 s1).
Qed.
Lemma stored_insert m key id i n : stored_by_port m -> ids_below n m -> n <= id -> full_key (service (address i)) = key ->
  forall k x j, <[key := id]> (mapAddr m) !! k = Some x -> <[id := i]> (mapInfo m) !! x = Some j -> full_key (service (address j)) = k.
Proof.
  intros Hst Hb Hn Hk k x j. rewrite lookup_insert_Some. intros [[<- <-]|[Hne HA]].
  - rewrite lookup_insert_eq. intros E. by apply (inj Some) in E as <-.
  - rewrite lookup_insert_ne by (apply Hb in HA; lia). by apply (Hst k x).
Qed.
Lemma ids_below_insert m key id : ids_below id m -> forall k x, <[key := id]> (mapAddr m) !! k = Some x -> x < id + 1.
Proof. intros Hb k x. rewrite lookup_insert_Some. intros [[_ <-]|[_ HA%Hb]]; lia. Qed.
Lemma read_new_spec usable m n s m' s' : stored_by_port m -> ids_below n m -> read_new usable m n s = Some (m', s') ->
  stored_by_port m' /\ ids_below (n + 1) m' /\ nNew m' = nNew m /\ discriminatePorts m' = discriminatePorts m /\ exists i, mapInfo m' = <[n := i]> (mapInfo m).
Proof.
  intros Hst Hb. unfold read_new. destruct (Info_Unserialize s) as [[i s1]|]; [|done]. cbn [mbind option_bind]. intros E. apply (inj Some) in E. pose proof (f_equal fst E) as E1. clear E. cbn [fst] in E1. subst m'.
  split_and!; [|intros k x; by apply ids_below_insert|done|done|eexists; reflexivity].
  intros k x j. cbn [mapAddr mapInfo]. apply (stored_insert m _ _ _ n Hst Hb); [lia|]. by destruct (negb usable && _).
Qed.
Lemma read_tried_spec m nLost s m' nLost' s' : stored_by_port m -> ids_below (nIdCount m) m -> new_present m -> read_tried m nLost s = Some (m', nLost', s') ->
  stored_by_port m' /\ ids_below (nIdCount m') m' /\ new_present m' /\ discriminatePorts m' = discriminatePorts m.
Proof.
  intros Hst Hb Hp. unfold read_tried. destruct (Info_Unserialize s) as [[i s1]|]; [|done]. cbn [mbind option_bind]. destruct (_ =? -1); intros E; apply (inj Some) in E; pose proof (f_equal (fun x => x.1.1) E) as E1; clear E; cbn [fst] in E1; subst m'; [|done].
  split_and!; [|intros k x; by apply ids_below_insert| |done].
  - intros k x j. cbn [mapAddr mapInfo]. by apply (stored_insert m _ _ _ (nIdCount m) Hst Hb).
  - intros id Hid. cbn [mapInfo nNew] in *. destruct (decide (id = nIdCount m)) as [->|]; [rewrite lookup_insert_eq; eauto|]. rewrite lookup_insert_ne by done. by apply Hp.
Qed.
Lemma stored_same_address m m' : stored_by_port m -> mapAddr m' ⊆ mapAddr m -> (forall id i', mapInfo m' !! id = Some i' -> exists i, mapInfo m !! id = Some i /\ address i' = address i) -> stored_by_port m'.
Proof. intros Hst HA HM key id i' Hk (i & Hi & ->)%HM. apply (Hst key id); [|done]. by apply (lookup_weaken _ _ _ _ Hk). Qed.
Lemma read_place_spec usable b m s m' s' : stored_by_port m -> new_present m -> read_place usable b m s = Some (m', s') ->
  stored_by_port m' /\ new_present m' /\ discriminatePorts m' = discriminatePorts m.
Proof.
  intros Hst Hp. unfold read_place. destruct (ser_readdata 4 s) as [[x s1]|]; [|done]. cbn [mbind option_bind]. set (idx := s32 x).
  destruct ((0 <=? idx) && (idx <? nNew m)) eqn:Er; [|intros E; apply (inj Some), (f_equal fst) in E; cbn [fst] in E; by subst m'].
  apply andb_true_iff in Er as [H1%Z.leb_le H2%Z.ltb_lt]. destruct (Hp idx ltac:(lia)) as [i Hi]. unfold at_info. rewrite Hi.
  destruct (usable && _ && _); intros E; apply (inj Some), (f_equal fst) in E; cbn [fst] in E; subst m'; [|done]. split_and!; [| |done].
  - apply (stored_same_address m); [done|done|]. intros id i'. cbn [set_vvNew set_info set_mapInfo mapInfo]. rewrite lookup_insert_Some. intros [[<- <-]|[_ Hi']]; eauto.
  - intros id Hid. cbn [set_vvNew set_info set_mapInfo mapInfo nNew] in *. destruct (decide (id = idx)) as [->|]; [rewrite lookup_insert_eq; eauto|]. rewrite lookup_insert_ne by done. by apply Hp.
Qed.
Lemma SwapRandom_address m p1 p2 m' : SwapRandom m p1 p2 = Some m' ->
  mapAddr m' = mapAddr m /\ discriminatePorts m' = discriminatePorts m /\ forall id i', mapInfo m' !! id = Some i' -> exists i, mapInfo m !! id = Some i /\ address i' = address i.
Proof.
  unfold SwapRandom. destruct (p1 =? p2); [intros [= <-]; eauto|]. destruct (vRandom m !! Z.to_nat p1) as [id1|]; [|done]. cbn [mbind option_bind]. destruct (vRandom m !! Z.to_nat p2) as [id2|]; [|done]. cbn [mbind option_bind].
  destruct (mapInfo m !! id1) as [i1|] eqn:E1; [|done]. cbn [mbind option_bind]. destruct (mapInfo m !! id2) as [i2|] eqn:E2; [|done]. cbn [mbind option_bind set_info set_mapInfo mapInfo].
  destruct (<[id1 := _]> (mapInfo m) !! id2) as [i3|] eqn:E3; [|done]. cbn [mbind option_bind]. intros [= <-]. cbn [mapAddr discriminatePorts mapInfo]. split_and!; [done..|]. intros id i'. rewrite !lookup_insert_Some. rewrite lookup_insert_Some in E3.
  intros [[<- <-]|[_ [[<- <-]|[_ Hi]]]]; [destruct E3 as [[<- <-]|[_ E3]]; eauto|eauto..].
Qed.
Lemma Delete_address m id m' : Delete m id = Some m' -> mapAddr m' ⊆ mapAddr m /\ discriminatePorts m' = discriminatePorts m /\ forall id i', mapInfo m' !! id = Some i' -> exists i, mapInfo m !! id = Some i /\ address i' = address i.
Proof.
  unfold Delete. destruct (mapInfo m !! id) as [i|]; [|done]. cbn [mbind option_bind]. destruct (_ || _); [done|]. destruct (SwapRandom m _ _) as [m1|] eqn:Es; [|done]. cbn [mbind option_bind]. destruct (_ =? 0); [done|].
  intros [= <-]. cbn [mapAddr discriminatePorts mapInfo]. apply SwapRandom_address in Es as (-> & -> & HM). split_and!; [apply delete_subseteq|done|]. intros j i'. rewrite lookup_delete_Some. intros [_ Hi']. by apply HM.
Qed.
Lemma prune_spec l : forall m m', stored_by_port m -> foldM prune m l = Some m' -> stored_by_port m' /\ discriminatePorts m' = discriminatePorts m.
Proof.
  induction l as [|id l IH]; intros m m' Hst; cbn [foldM]; [by intros [= <-]|]. destruct (prune m id) as [m1|] eqn:E; [|done]. cbn [mbind option_bind].
  assert (H1 : stored_by_port m1 /\ discriminatePorts m1 = discriminatePorts m).
  { unfold prune in E. destruct (mapInfo m !! id) as [i|]; [|by injection E as <-]. destruct (_ && _); [|by injection E as <-]. apply Delete_address in E as (HA & Hd & HM). split; [|done]. by apply (stored_same_address m). }
  destruct H1 as [Hst1 <-]. by apply IH.
Qed.
Lemma read_all_new usable m new s m' s' : stored_by_port m -> mapAddr m = ∅ -> nNew m = new -> read_loop (read_new usable) m (seqZ 0 new) s = Some (m', s') ->
  stored_by_port m' /\ ids_below new m' /\ new_present m' /\ discriminatePorts m' = discriminatePorts m.
Proof.
  intros Hst HA Hn E.
  set (I := fun (x : CAddrMan) (l : list Z) => exists n, l = seqZ n (new - n) /\ 0 <= n <= Z.max 0 new /\ stored_by_port x /\ ids_below n x /\ (forall key id, mapAddr x !! key = Some id -> 0 <= id) /\ nNew x = new /\
              discriminatePorts x = discriminatePorts m /\ forall id, 0 <= id < n -> exists i, mapInfo x !! id = Some i).
  assert (HI : I m' []).
  { apply (read_loop_inv I (read_new usable)) with (l := seqZ 0 new) (st := m) (s := s) (s' := s'); [|exists 0; rewrite Z.sub_0_r; split_and!; try done; [lia|intros k id; by rewrite HA, lookup_empty|intros k id; by rewrite HA, lookup_empty|intros; lia]|done].
    intros st x l s1 st' s2 (n & El & Hr & H1 & H2 & H3 & H4 & H5 & H6) E1. destruct (decide (0 < new - n)) as [Hpos|]; [|rewrite (seqZ_nil n (new - n)) in El by lia; done]. rewrite seqZ_cons in El by lia. injection El as -> ->.
    destruct (read_new_spec _ _ _ _ _ _ H1 H2 E1) as (G1 & G2 & G3 & G4 & i & G5). exists (n + 1). split_and!; try done; try lia; try congruence.
    - f_equal; lia.
    - intros key id. assert (Hk : exists key', mapAddr st' = <[key' := n]> (mapAddr st)).
      { unfold read_new in E1. destruct (Info_Unserialize s1) as [[j s3]|]; [|done]. cbn [mbind option_bind] in E1. apply (inj Some), (f_equal fst) in E1. cbn [fst] in E1. subst st'. eexists. reflexivity. }
      destruct Hk as [key' ->]. rewrite lookup_insert_Some. intros [[_ <-]|[_ HA']]; [lia|by apply (H3 key)].
    - intros id Hid. rewrite G5. destruct (decide (id = n)) as [->|]; [rewrite lookup_insert_eq; eauto|]. rewrite lookup_insert_ne by done. apply H6. lia. }
  destruct HI as (n & El & Hr & H1 & H2 & H3 & H4 & H5 & H6). symmetry in El. assert (new <= n) by (destruct (decide (0 < new - n)); [rewrite seqZ_cons in El by lia; done|lia]). split_and!; [done| | |done].
  - intros key id Hk. pose proof (H2 key id Hk). pose proof (H3 key id Hk). lia.
  - intros id Hid. apply H6. lia.
Qed.
(** Where ports are not told apart, reading the file stores the addresses under their ports all the same, where [Find] does not look: if all of them have a port, none is found,
    so that it can never be marked as good, and is added a second time when it is heard of. *)
Theorem reloaded_addresses_not_found m key s m' s' : discriminatePorts m = false -> AddrMan_Unserialize m key s = Some (m', s') ->
  (forall id i, mapInfo m' !! id = Some i -> port (service (address i)) <> 0) -> forall addr, Find m' addr = None.
Proof.
  intros Hd E Hports addr. assert (HQ : stored_by_port m' /\ discriminatePorts m' = false).
  { unfold AddrMan_Unserialize in E. destruct (ser_readdata 1 s) as [[v s1]|]; [|done]. cbn [mbind option_bind] in E. destruct (ser_readdata 1 s1) as [[ks s2]|]; [|done]. cbn [mbind option_bind] in E. destruct (negb _); [done|].
    destruct (read_bytes 32 s2) as [[k s3]|]; [|done]. cbn [mbind option_bind] in E. destruct (ser_readdata 4 s3) as [[new s4]|]; [|done]. cbn [mbind option_bind] in E. destruct (ser_readdata 4 s4) as [[tried s5]|]; [|done]. cbn [mbind option_bind] in E.
    destruct (ser_readdata 4 s5) as [[ub s6]|]; [|done]. cbn [mbind option_bind] in E. set (nub := s32 (if negb (v =? 0) then _ else _)) in E. destruct (_ <? s32 new); [done|]. destruct (_ <? s32 tried); [done|]. set (us := (v =? 1) && _) in E.
    destruct (read_loop (read_new us) _ _ s6) as [[m1 s7]|] eqn:E1; [|done]. cbn [mbind option_bind] in E.
    apply read_all_new in E1 as (H1 & H2 & H3 & H4); [|intros a b c Hk; cbn [Clear mapAddr] in Hk; by rewrite lookup_empty in Hk|done|done].
    set (m1' := mkAddrMan (s32 new) _ _ _ _ _ _ _ _ _ _) in E. destruct (read_loop _ (m1', 0) _ s7) as [[[m2 lost] s8]|] eqn:E2; [|done]. cbn [mbind option_bind] in E.
    pose proof (read_loop_inv (fun (x : CAddrMan * Z) (_ : list Z) => stored_by_port x.1 /\ ids_below (nIdCount x.1) x.1 /\ new_present x.1 /\ discriminatePorts x.1 = false)) as L2. eapply L2 in E2; clear L2.
    2:{ intros [x lost1] z l t [x' lost2] t' (G1 & G2 & G3 & G4) Ez. cbn [fst] in *. destruct (read_tried_spec _ _ _ _ _ _ G1 G2 G3 Ez) as (? & ? & ? & ->). done. }
    2:{ cbn [fst m1' nIdCount discriminatePorts]. split_and!; [done|done|done|by rewrite H4]. }
    cbn [fst] in E2. destruct E2 as (J1 & J2 & J3 & J4). destruct (read_loop (read_bucket us) _ _ s8) as [[m3 s9]|] eqn:E3; [|done]. cbn [mbind option_bind] in E.
    pose proof (read_loop_inv (fun (x : CAddrMan) (_ : list Z) => stored_by_port x /\ new_present x /\ discriminatePorts x = false)) as L3. eapply L3 in E3.
    2:{ intros x z l t x' t' G Ez. unfold read_bucket in Ez. destruct (ser_readdata 4 t) as [[sz t1]|]; [|done]. cbn [mbind option_bind] in Ez. eapply L3 in Ez; [exact Ez| |exact G].
        intros y w l' u y' u' (G1 & G2 & G3) Ew. destruct (read_place_spec _ _ _ _ _ _ G1 G2 Ew) as (? & ? & ->). done. }
    2:{ split_and!; done. }
    destruct E3 as (K1 & _ & K3). destruct (foldM prune m3 _) as [m4|] eqn:E4; [|done]. cbn [mbind option_bind] in E. injection E as <- <-. apply prune_spec in E4 as [? ->]; done. }
  destruct HQ as [Hst Hd']. unfold Find. destruct (mapAddr m' !! addr_key m' addr) as [id|] eqn:Ek; [|done]. cbn [mbind option_bind]. destruct (mapInfo m' !! id) as [i|] eqn:Ei; [|done]. exfalso. apply (Hports id i Ei).
  pose proof (Hst _ _ _ Ek Ei) as E'. unfold addr_key in E'. rewrite Hd' in E'. exact (f_equal snd E').
Qed.
End File.

(** ** An example *)

(** The node hears of one address, on a network where ports are not told apart or are. *)
Module AddrSample.
Definition buckets : BucketChoice := hashed [] false.
(** A choice that is quick to compute. *)
Definition plain : BucketChoice := {| GetTriedBucket _ _ := 5; GetNewBucket _ _ _ := 3; GetBucketPosition _ _ _ b := b mod 64 |}.
Definition peer : CService := mkService (mkNetAddr (pchIPv4 ++ [9; 8; 7; 6]) 0) 8767.
Definition src : CNetAddr := mkNetAddr (pchIPv4 ++ [5; 5; 5; 5]) 0.
Definition heard : operation := OpAdd (mkAddress peer 1 1600000000) src 0 1600000600 0.
Definition fresh (d : bool) : CAddrMan := AddrMan_new d (replicate 32 7).
Definition knows (B : BucketChoice) (d : bool) : CAddrMan := default (fresh d) (apply_op false (fresh d) heard).
Definition reloaded (d : bool) : option CAddrMan :=
  bytes ← AddrMan_Serialize 1 (knows plain d); fst <$> AddrMan_Unserialize (B := plain) (fresh d) [] bytes.
End AddrSample.
#[export] Instance plain_spec : BucketChoiceSpec AddrSample.plain.
Proof. split; intros; cbn; try done. by apply Z.mod_pos_bound. Qed.
Lemma sample_heard : apply_op (B := AddrSample.buckets) false (AddrSample.fresh true) AddrSample.heard = Some (AddrSample.knows AddrSample.buckets true) /\
  AddrMan_size (AddrSample.knows AddrSample.buckets true) = 1 /\ discriminatePorts (AddrSample.knows AddrSample.buckets true) = true /\ nKey (AddrSample.knows AddrSample.buckets true) = replicate 32 7.
Proof.
  unfold AddrSample.knows. destruct (apply_op (B := AddrSample.buckets) false (AddrSample.fresh true) AddrSample.heard) as [m|] eqn:E.
  - split; [done|]. cbn [default from_option]. unfold Datatypes.id.
    assert (Ht : (fun m => (AddrMan_size m, discriminatePorts m, nKey m)) <$> apply_op (B := AddrSample.buckets) false (AddrSample.fresh true) AddrSample.heard = Some (1, true, replicate 32 7)) by (vm_compute; reflexivity).
    rewrite E in Ht. cbn in Ht. injection Ht as -> -> ->. done.
  - exfalso. destruct (apply_op_spec (B := AddrSample.buckets) false (AddrSample.fresh true) AddrSample.heard) as (m & E' & _); [apply inv_new|reflexivity|]. rewrite E in E'. done.
Qed.
Lemma addrman_consistent_witness : AddrMan_size (AddrSample.knows AddrSample.buckets true) = 1 /\ Check_ (B := AddrSample.buckets) (AddrSample.knows AddrSample.buckets true) = 0.
Proof.
  destruct sample_heard as (E & Hs & Hd & Hk). split; [done|]. refine (proj2 (proj2 (addrman_consistent (B := AddrSample.buckets) false _ _)) Hd _).
  - refine (reachable_op (B := AddrSample.buckets) false (AddrSample.fresh true) AddrSample.heard _ (reachable_new false true _) _ E). reflexivity.
  - rewrite Hk. discriminate.
Defined.
(** The address is known, and after the file is written and read back it is still there but not found. *)
Example reload_loses_address :
  (fst <$> Find (AddrSample.knows AddrSample.plain false) AddrSample.peer) = Some 0 /\ (AddrMan_size <$> AddrSample.reloaded false) = Some 1 /\ (m ← AddrSample.reloaded false; Find m AddrSample.peer) = None /\
  (m ← AddrSample.reloaded true; fst <$> Find m AddrSample.peer) = Some 0.
Proof. vm_compute. done. Qed.
