(* ===== verification/Spork.v ===== *)
(** [spork.cpp], [spork.h], with [messagesigner.cpp]: network switches set by messages that a majority of configured keys signs. *)

From stdpp Require Import prelude gmap fin_maps fin_sets.
From Stdlib Require Import ZArith Lia.
From S2P Require Import Prelude Serialize Hashes Numbers Address.

Open Scope Z_scope.

(** ** Definitions of the switches *)

Definition SPORK_2_INSTANTSEND_ENABLED : Z := 10001.
Definition SPORK_3_INSTANTSEND_BLOCK_FILTERING : Z := 10002.
Definition SPORK_6_NEW_SIGS : Z := 10005.
Definition SPORK_9_SUPERBLOCKS_ENABLED : Z := 10008.
Definition SPORK_16_INSTANTSEND_AUTOLOCKS : Z := 10015.
Definition SPORK_17_QUORUM_DKG_ENABLED : Z := 10016.
Definition SPORK_19_CHAINLOCKS_ENABLED : Z := 10018.
Definition SPORK_21_LOW_LLMQ_PARAMS : Z := 10020.
Definition SPORK_22_ENABLE_IPV6 : Z := 10023.

Record CSporkDef := mkSporkDef { sporkId : Z; defaultValue : Z }.
Definition sporkDefs : list CSporkDef := [
  mkSporkDef SPORK_2_INSTANTSEND_ENABLED 4070908800;
  mkSporkDef SPORK_3_INSTANTSEND_BLOCK_FILTERING 4070908800;
  mkSporkDef SPORK_6_NEW_SIGS 4070908800;
  mkSporkDef SPORK_9_SUPERBLOCKS_ENABLED 4070908800;
  mkSporkDef SPORK_16_INSTANTSEND_AUTOLOCKS 4070908800;
  mkSporkDef SPORK_17_QUORUM_DKG_ENABLED 4070908800;
  mkSporkDef SPORK_19_CHAINLOCKS_ENABLED 4070908800;
  mkSporkDef SPORK_21_LOW_LLMQ_PARAMS 4070908800;
  mkSporkDef SPORK_22_ENABLE_IPV6 1].
(** [sporkDefsById], which the constructor fills with [emplace]. *)
Definition sporkDefsById : gmap Z CSporkDef :=
  foldl (fun m d => match m !! sporkId d with Some _ => m | None => <[sporkId d := d]> m end) ∅ sporkDefs.

Definition MAX_FUTURE_BLOCK_TIME : Z := 15 * 60.
(** The characters of "RavenCash Signed Message:", and a line feed. *)
Definition strMessageMagic : list Z :=
  [82; 97; 118; 101; 110; 67; 97; 115; 104; 32; 83; 105; 103; 110; 101; 100; 32; 77; 101; 115; 115; 97; 103; 101; 58; 10].

(** ** Messages *)

Record CSporkMessage := mkSpork { nSporkID : Z; nValue : Z; nTimeSigned : Z; vchSig : list Z }.

#[export] Instance CSporkMessage_eq_dec : EqDecision CSporkMessage.
Proof. solve_decision. Defined.

Definition string_Serialize (s : list Z) : stream := WriteCompactSize (Z.of_nat (length s)) ++ s.
Definition Spork_Serialize (m : CSporkMessage) : stream :=
  ser_writedata 4 (nSporkID m) ++ ser_writedata 8 (nValue m) ++ ser_writedata 8 (nTimeSigned m) ++ string_Serialize (vchSig m).
Definition Spork_Unserialize : reader CSporkMessage := fun s =>
  '(id, s) ← ser_readdata 4 s;
  '(value, s) ← ser_readdata 8 s;
  '(time, s) ← ser_readdata 8 s;
  '(sig, s) ← read_vector (ser_readdata 1) s;
  Some (mkSpork (s32 id) (s64 value) (s64 time) sig, s).

Section Signers.
(** What the unset buffers of hash objects hold, and the calls into [secp256k1]: key recovery and signing. *)
Variables junk junk' : stream.
Variable ecdsa_recover : Z -> bool -> list Z -> stream -> option (list Z).
Variable sign_recoverable : list Z -> stream -> Z * list Z.
Variable public_key : list Z -> bool -> list Z.
Variable seckey_verify : list Z -> bool.
Variable params : Prefixes.

Definition PubKey_GetID (vch : list Z) : list Z := Hash160 junk junk' vch.
Definition RecoverCompact (hash : stream) (sig : list Z) : option (list Z) :=
  match sig with
  | head :: rest =>
      if negb (length sig =? 65)%nat then None
      else
        let recid := Z.land (head - 27) 3 in
        let fComp := negb (Z.land (head - 27) 4 =? 0) in
        ecdsa_recover recid fComp rest hash
  | [] => None
  end.

(** [CHashSigner], [CMessageSigner] *)
Definition VerifyHash (hash : stream) (keyID : list Z) (sig : list Z) : bool :=
  match RecoverCompact hash sig with
  | None => false
  | Some pubkeyFromSig => bool_decide (PubKey_GetID pubkeyFromSig = keyID)
  end.
Definition message_hash (strMessage : list Z) : stream :=
  Hash junk [string_Serialize strMessageMagic; string_Serialize strMessage].
Definition VerifyMessage (keyID : list Z) (sig strMessage : list Z) : bool := VerifyHash (message_hash strMessage) keyID sig.
Definition SignHash (hash : stream) (key : CKey) : option (list Z) :=
  if negb (fValid key) then None
  else
    let '(rec, sig) := sign_recoverable (keydata key) hash in
    Some (27 + rec + (if fCompressed key then 4 else 0) :: sig).
Definition SignMessage (strMessage : list Z) (key : CKey) : option (list Z) := SignHash (message_hash strMessage) key.
Definition GetPubKey (key : CKey) : list Z := public_key (keydata key) (fCompressed key).
(** The outer [None] is a failed assertion. *)
Definition GetKeysFromSecret (strSecret : list Z) : option (option (CKey * list Z)) :=
  '(ok, vchSecret) ← Secret_SetString_str junk params strSecret;
  if negb ok then Some None
  else key ← Secret_GetKey seckey_verify vchSecret; Some (Some (key, GetPubKey key)).

(** [CSporkMessage] *)
Definition Spork_GetHash (m : CSporkMessage) : stream := Hash junk [Spork_Serialize m].
Definition Spork_GetSignatureHash (m : CSporkMessage) : stream :=
  Hash junk [ser_writedata 4 (nSporkID m); ser_writedata 8 (nValue m); ser_writedata 8 (nTimeSigned m)].
Definition Spork_strMessage (m : CSporkMessage) : list Z := i64tostr (nSporkID m) ++ i64tostr (nValue m) ++ i64tostr (nTimeSigned m).
Definition set_vchSig (m : CSporkMessage) (sig : list Z) : CSporkMessage := mkSpork (nSporkID m) (nValue m) (nTimeSigned m) sig.

Definition Spork_Sign (m : CSporkMessage) (key : CKey) (fSporkSixActive : bool) : option CSporkMessage :=
  if negb (fValid key) then None
  else
    let pubKeyId := PubKey_GetID (GetPubKey key) in
    if fSporkSixActive then
      let hash := Spork_GetSignatureHash m in
      sig ← SignHash hash key;
      if negb (VerifyHash hash pubKeyId sig) then None else Some (set_vchSig m sig)
    else
      let strMessage := Spork_strMessage m in
      sig ← SignMessage strMessage key;
      if negb (VerifyMessage pubKeyId sig strMessage) then None else Some (set_vchSig m sig).
Definition Spork_CheckSignature (m : CSporkMessage) (pubKeyId : list Z) (fSporkSixActive : bool) : bool :=
  if fSporkSixActive then VerifyHash (Spork_GetSignatureHash m) pubKeyId (vchSig m)
  else if negb (VerifyMessage pubKeyId (vchSig m) (Spork_strMessage m)) then
    VerifyHash (Spork_GetSignatureHash m) pubKeyId (vchSig m)
  else true.
Definition GetSignerKeyID (m : CSporkMessage) (fSporkSixActive : bool) : option (list Z) :=
  pubkeyFromSig ← (if fSporkSixActive then RecoverCompact (Spork_GetSignatureHash m) (vchSig m)
                   else RecoverCompact (message_hash (Spork_strMessage m)) (vchSig m));
  Some (PubKey_GetID pubkeyFromSig).

(** ** The manager *)

Record CSporkManager := mkSporkManager {
  mapSporksByHash : gmap stream CSporkMessage;
  mapSporksActive : gmap Z (gmap (list Z) CSporkMessage);
  setSporkPubKeyIDs : gset (list Z);
  nMinSporkKeys : Z;
  sporkPrivKey : CKey
}.
(** [nMinSporkKeys] is not initialised. *)
Definition SporkManager_new (min : Z) : CSporkManager := mkSporkManager ∅ ∅ ∅ min Key_new.
Definition set_sporks (m : CSporkManager) byHash active : CSporkManager :=
  mkSporkManager byHash active (setSporkPubKeyIDs m) (nMinSporkKeys m) (sporkPrivKey m).
Definition store_spork (m : CSporkManager) (keyIDSigner : list Z) (spork : CSporkMessage) : CSporkManager :=
  set_sporks m (<[Spork_GetHash spork := spork]> (mapSporksByHash m))
    (<[nSporkID spork := <[keyIDSigner := spork]> (default ∅ (mapSporksActive m !! nSporkID spork))]> (mapSporksActive m)).

(** The loop of [SporkValueIsActive] over the signers of one switch, with [mapValueCounts]. *)
Fixpoint count_values (min : Z) (counts : gmap Z Z) (signers : list (list Z * CSporkMessage)) : option Z :=
  match signers with
  | [] => None
  | (_, spork) :: rest =>
      let n := default 0 (counts !! nValue spork) + 1 in
      if min <=? n then Some (nValue spork) else count_values min (<[nValue spork := n]> counts) rest
  end.
Definition SporkValueIsActive (m : CSporkManager) (id : Z) : option Z :=
  match mapSporksActive m !! id with
  | None => None
  | Some signers => count_values (nMinSporkKeys m) ∅ (map_to_list signers)
  end.
Definition GetSporkValue (m : CSporkManager) (id : Z) : Z :=
  match SporkValueIsActive m id with
  | Some nSporkValue => nSporkValue
  | None => match sporkDefsById !! id with Some d => defaultValue d | None => -1 end
  end.
Definition IsSporkActive (m : CSporkManager) (now : Z) (id : Z) : bool := GetSporkValue m id <? now.
Definition GetSporkByHash (m : CSporkManager) (hash : stream) : option CSporkMessage := mapSporksByHash m !! hash.

(** [None] is a failed assertion, the flag the result. *)
Definition SetSporkAddress (m : CSporkManager) (strAddress : list Z) : option (bool * CSporkManager) :=
  '(_, address) ← SetString junk strAddress 1;
  Some (if negb (Address_IsValid params address) then (false, m)
        else match GetKeyID params address with
             | None => (false, m)
             | Some keyid => (true, mkSporkManager (mapSporksByHash m) (mapSporksActive m) ({[keyid]} ∪ setSporkPubKeyIDs m)
                                      (nMinSporkKeys m) (sporkPrivKey m))
             end).
Definition SetMinSporkKeys (m : CSporkManager) (minSporkKeys : Z) : bool * CSporkManager :=
  let maxKeysNumber := Z.of_nat (size (setSporkPubKeyIDs m)) in
  if (minSporkKeys <=? Z.quot maxKeysNumber 2) || (maxKeysNumber <? minSporkKeys) then (false, m)
  else (true, mkSporkManager (mapSporksByHash m) (mapSporksActive m) (setSporkPubKeyIDs m) minSporkKeys (sporkPrivKey m)).
Definition SetPrivKey (m : CSporkManager) (now : Z) (strPrivKey : list Z) : option (bool * CSporkManager) :=
  r ← GetKeysFromSecret strPrivKey;
  Some (match r with
        | None => (false, m)
        | Some (key, pubKey) =>
            if bool_decide (PubKey_GetID pubKey ∉ setSporkPubKeyIDs m) then (false, m)
            else match Spork_Sign (mkSpork 0 0 0 []) key (IsSporkActive m now SPORK_6_NEW_SIGS) with
                 | None => (false, m)
                 | Some _ => (true, mkSporkManager (mapSporksByHash m) (mapSporksActive m) (setSporkPubKeyIDs m) (nMinSporkKeys m) key)
                 end
        end).

Definition Clear (m : CSporkManager) : CSporkManager := set_sporks m ∅ ∅.

(** What the handlers send or report. *)
Inductive spork_event :=
| RemoveAskFor (hash : stream)
| Misbehaving (howmuch : Z)
| RelayInv (hash : stream)
| PushMessage (spork : CSporkMessage).

Definition UpdateSpork (m : CSporkManager) (now id value : Z) : bool * list spork_event * CSporkManager :=
  let fSpork6IsActive := IsSporkActive m now SPORK_6_NEW_SIGS in
  match Spork_Sign (mkSpork id value now []) (sporkPrivKey m) fSpork6IsActive with
  | None => (false, [], m)
  | Some spork =>
      match GetSignerKeyID spork fSpork6IsActive with
      | None => (false, [], m)
      | Some keyIDSigner =>
          if bool_decide (keyIDSigner ∉ setSporkPubKeyIDs m) then (false, [], m)
          else (true, [RelayInv (Spork_GetHash spork)], store_spork m keyIDSigner spork)
      end
  end.

(** The signer of a message, tried in the format that [SPORK_6_NEW_SIGS] asks for, then in the other one. *)
Definition known_signer (m : CSporkManager) (spork : CSporkMessage) (fSporkSixActive : bool) : option (list Z) :=
  keyIDSigner ← GetSignerKeyID spork fSporkSixActive;
  if bool_decide (keyIDSigner ∈ setSporkPubKeyIDs m) then Some keyIDSigner else None.
(** Is a message of this signer, at least as new, already there? *)
Definition seen (m : CSporkManager) (spork : CSporkMessage) (keyIDSigner : list Z) : bool :=
  match mapSporksActive m !! nSporkID spork with
  | None => false
  | Some signers =>
      match signers !! keyIDSigner with
      | None => false
      | Some old => nTimeSigned spork <=? nTimeSigned old
      end
  end.

Inductive command := SPORK | GETSPORKS | OTHER.

(** [None] is the exception of an incomplete message. *)
Definition ProcessSpork (fLiteMode tip : bool) (now : Z) (strCommand : command) (vRecv : stream) (m : CSporkManager)
  : option (list spork_event * CSporkManager) :=
  if fLiteMode then Some ([], m)
  else
    match strCommand with
    | SPORK =>
        '(spork, _) ← Spork_Unserialize vRecv;
        let hash := Spork_GetHash spork in
        let asked := [RemoveAskFor hash] in
        Some (
          if negb tip then (asked, m)
          else if now + MAX_FUTURE_BLOCK_TIME <? nTimeSigned spork then (asked ++ [Misbehaving 100], m)
          else
            let fSpork6IsActive := IsSporkActive m now SPORK_6_NEW_SIGS in
            match (match known_signer m spork fSpork6IsActive with
                   | Some keyIDSigner => Some keyIDSigner
                   | None => known_signer m spork (negb fSpork6IsActive)
                   end) with
            | None => (asked ++ [Misbehaving 100], m)
            | Some keyIDSigner =>
                if seen m spork keyIDSigner then (asked, m)
                else (asked ++ [RelayInv hash], store_spork m keyIDSigner spork)
            end)
    | GETSPORKS =>
        Some (concat (map (fun p => map (fun q => PushMessage q.2) (map_to_list p.2)) (map_to_list (mapSporksActive m))), m)
    | OTHER => Some ([], m)
    end.

(** [CheckAndRemove]: the iterator over the signers of one switch. It stays where it is for a signer that is not configured. *)
Fixpoint check_signers (fuel : nat) (keys : gset (list Z)) (it : list (list Z * CSporkMessage))
  (signers : gmap (list Z) CSporkMessage) (byHash : gmap stream CSporkMessage)
  : option (gmap (list Z) CSporkMessage * gmap stream CSporkMessage) :=
  match fuel with
  | O => None
  | S fuel =>
      match it with
      | [] => Some (signers, byHash)
      | (k, spork) :: next =>
          if bool_decide (k ∉ keys) then check_signers fuel keys it signers (delete (Spork_GetHash spork) byHash)
          else if negb (Spork_CheckSignature spork k false) && negb (Spork_CheckSignature spork k true) then
            check_signers fuel keys next (delete k signers) (delete (Spork_GetHash spork) byHash)
          else check_signers fuel keys next signers byHash
      end
  end.
Fixpoint check_active (fuel : nat) (keys : gset (list Z)) (it : list (Z * gmap (list Z) CSporkMessage))
  (active : gmap Z (gmap (list Z) CSporkMessage)) (byHash : gmap stream CSporkMessage)
  : option (gmap Z (gmap (list Z) CSporkMessage) * gmap stream CSporkMessage) :=
  match it with
  | [] => Some (active, byHash)
  | (id, signers) :: next =>
      '(signers, byHash) ← check_signers fuel keys (map_to_list signers) signers byHash;
      let active := if bool_decide (signers = ∅) then delete id active else <[id := signers]> active in
      check_active fuel keys next active byHash
  end.
Definition signed_by_any (keys : gset (list Z)) (spork : CSporkMessage) : bool :=
  existsb (fun signer => Spork_CheckSignature spork signer false || Spork_CheckSignature spork signer true) (elements keys).
(** [None] is a failed assertion, or a loop that has not ended within the fuel. *)
Definition CheckAndRemove (fuel : nat) (m : CSporkManager) : option CSporkManager :=
  if bool_decide (setSporkPubKeyIDs m = ∅) then None
  else
    '(active, byHash) ← check_active fuel (setSporkPubKeyIDs m) (map_to_list (mapSporksActive m)) (mapSporksActive m) (mapSporksByHash m);
    Some (set_sporks m (filter (fun p => signed_by_any (setSporkPubKeyIDs m) p.2 = true) byHash) active).

(** ** Counting *)

(** How many of the signers ask for a value. *)
Definition votes (v : Z) (l : list (list Z * CSporkMessage)) : Z := Z.of_nat (length (filter (fun p => nValue p.2 = v) l)).

Lemma votes_cons v k spork l : votes v ((k, spork) :: l) = votes v l + (if decide (nValue spork = v) then 1 else 0).
Proof. unfold votes. rewrite filter_cons. cbn [snd]. destruct (decide _); cbn [length]; lia. Qed.
Lemma votes_perm v l l' : l ≡ₚ l' -> votes v l = votes v l'.
Proof. intros Hl. unfold votes. by rewrite Hl. Qed.
Lemma votes_disjoint v w l : v <> w -> votes v l + votes w l <= Z.of_nat (length l).
Proof.
  intros Hvw. induction l as [|[k spork] l IH]; [done|]. rewrite !votes_cons. cbn [length].
  destruct (decide (nValue spork = v)), (decide (nValue spork = w)); lia.
Qed.

Lemma count_step counts (x v : Z) (n : Z) : n = default 0 (counts !! x) + 1 ->
  default 0 ((<[x := n]> counts : gmap Z Z) !! v) = default 0 (counts !! v) + (if decide (x = v) then 1 else 0).
Proof. intros ->. destruct (decide (x = v)) as [->|Hne]; [by rewrite lookup_insert_eq|]. rewrite lookup_insert_ne by done. lia. Qed.

Lemma count_values_sound min l : forall counts v, count_values min counts l = Some v -> min <= default 0 (counts !! v) + votes v l.
Proof.
  induction l as [|[k spork] l IH]; intros counts v; cbn [count_values]; [done|]. rewrite votes_cons.
  destruct (Z.leb_spec min (default 0 (counts !! nValue spork) + 1)) as [Hle|Hlt].
  - intros [= <-]. rewrite decide_True by done. unfold votes. lia.
  - intros E. apply IH in E. erewrite count_step in E by done. lia.
Qed.
Lemma count_values_complete min l : forall counts, (forall v, default 0 (counts !! v) < min) -> count_values min counts l = None ->
  forall v, default 0 (counts !! v) + votes v l < min.
Proof.
  induction l as [|[k spork] l IH]; intros counts Hc; cbn [count_values].
  - intros _ v. specialize (Hc v). unfold votes. cbn. lia.
  - destruct (Z.leb_spec min (default 0 (counts !! nValue spork) + 1)) as [|Hlt]; [done|]. intros E v.
    specialize (IH _ ltac:(intros w; rewrite (count_step counts (nValue spork) w _ eq_refl); specialize (Hc w);
      destruct (decide (nValue spork = w)) as [<-|]; lia) E v).
    rewrite (count_step counts (nValue spork) v _ eq_refl) in IH. rewrite votes_cons. lia.
Qed.

(** With a threshold above the half, at most one value reaches it, whatever the order of the signers. *)
Lemma count_values_iff min l v : 0 < min -> Z.of_nat (length l) < 2 * min -> count_values min ∅ l = Some v <-> min <= votes v l.
Proof.
  intros Hmin Hl. split.
  - intros E. apply count_values_sound in E. by rewrite lookup_empty in E.
  - intros Hv. destruct (count_values min ∅ l) as [w|] eqn:E.
    + apply count_values_sound in E. rewrite lookup_empty in E. cbn in E.
      destruct (decide (v = w)) as [->|Hne]; [done|]. pose proof (votes_disjoint v w l Hne). lia.
    + apply (count_values_complete _ _ ∅) with (v := v) in E; [|intros w; by rewrite lookup_empty]. rewrite lookup_empty in E. cbn in E. lia.
Qed.

(** ** The invariant *)

Definition signed_by (spork : CSporkMessage) (k : list Z) : Prop := exists six, GetSignerKeyID spork six = Some k.
(** What a configured key says about a switch at present. *)
Definition current (m : CSporkManager) (id : Z) (k : list Z) : option CSporkMessage := mapSporksActive m !! id ≫= (.!! k).

Record spork_ok (m : CSporkManager) : Prop := {
  ok_majority : Z.of_nat (size (setSporkPubKeyIDs m)) < 2 * nMinSporkKeys m;
  ok_current : forall id k spork, current m id k = Some spork ->
    k ∈ setSporkPubKeyIDs m /\ nSporkID spork = id /\ signed_by spork k /\ is_Some (mapSporksByHash m !! Spork_GetHash spork);
  ok_byHash : forall h spork, mapSporksByHash m !! h = Some spork -> Spork_GetHash spork = h
}.

Lemma current_store m k spork id k' : current (store_spork m k spork) id k' =
  if decide (id = nSporkID spork /\ k' = k) then Some spork else current m id k'.
Proof.
  unfold current, store_spork. cbn [set_sporks mapSporksActive]. destruct (decide (id = nSporkID spork)) as [->|Hid].
  - rewrite lookup_insert_eq. cbn [mbind option_bind]. destruct (decide (k' = k)) as [->|Hk].
    + rewrite decide_True by done. by rewrite lookup_insert_eq.
    + rewrite decide_False by tauto. rewrite lookup_insert_ne by done. by destruct (mapSporksActive m !! nSporkID spork).
  - rewrite lookup_insert_ne by done. rewrite decide_False by tauto. done.
Qed.

Lemma store_spork_ok m k spork : spork_ok m -> k ∈ setSporkPubKeyIDs m -> signed_by spork k -> spork_ok (store_spork m k spork).
Proof.
  intros [Hmaj Hcur Hhash] Hk Hs. split; [exact Hmaj| |].
  - intros id k' spork'. rewrite current_store. cbn [store_spork set_sporks mapSporksByHash setSporkPubKeyIDs].
    destruct (decide _) as [[-> ->]|_].
    + intros [= <-]. rewrite lookup_insert_eq. eauto.
    + intros E. destruct (Hcur _ _ _ E) as (? & ? & ? & Hin). split_and!; [done..|]. by apply lookup_insert_is_Some'; right.
  - intros h spork'. cbn [store_spork set_sporks mapSporksByHash]. destruct (decide (h = Spork_GetHash spork)) as [->|Hne].
    + rewrite lookup_insert_eq. by intros [= <-].
    + rewrite lookup_insert_ne by done. apply Hhash.
Qed.

(** The signers of a switch are configured keys, so that there are not too many of them. *)
Lemma signers_bound m id signers : spork_ok m -> mapSporksActive m !! id = Some signers ->
  (size signers <= size (setSporkPubKeyIDs m))%nat.
Proof.
  intros Hok E. rewrite <- size_dom. apply subseteq_size. intros k [spork Hk]%elem_of_dom.
  apply (ok_current _ Hok id k spork). unfold current. by rewrite E.
Qed.

(** The keys whose message asks for [v]. *)
Definition supporters (m : CSporkManager) (id v : Z) : gset (list Z) :=
  dom (filter (fun p => nValue p.2 = v) (default ∅ (mapSporksActive m !! id))).
Lemma elem_of_supporters m id v k : k ∈ supporters m id v <-> exists spork, current m id k = Some spork /\ nValue spork = v.
Proof.
  unfold supporters, current. rewrite elem_of_dom. unfold is_Some. setoid_rewrite map_lookup_filter_Some. cbn [snd].
  by destruct (mapSporksActive m !! id).
Qed.
Lemma votes_supporters m id v : votes v (map_to_list (default ∅ (mapSporksActive m !! id))) = Z.of_nat (size (supporters m id v)).
Proof.
  unfold votes, supporters. rewrite size_dom. f_equal. rewrite <- length_map_to_list. symmetry. apply Permutation_length.
  apply NoDup_Permutation; [apply NoDup_map_to_list|apply NoDup_filter, NoDup_map_to_list|].
  intros [k spork]. rewrite list_elem_of_filter, !elem_of_map_to_list, map_lookup_filter_Some. tauto.
Qed.

Lemma SporkValueIsActive_iff m id v : spork_ok m -> SporkValueIsActive m id = Some v <-> nMinSporkKeys m <= Z.of_nat (size (supporters m id v)).
Proof.
  intros Hok. pose proof (ok_majority _ Hok) as Hmaj. rewrite <- votes_supporters. unfold SporkValueIsActive.
  destruct (mapSporksActive m !! id) as [signers|] eqn:E; cbn [default from_option]; unfold Datatypes.id.
  - apply count_values_iff; [lia|]. rewrite length_map_to_list. pose proof (signers_bound m id signers Hok E). lia.
  - rewrite map_to_list_empty. unfold votes. cbn. split; [done|intros; exfalso; lia].
Qed.

(** *** Every operation keeps the invariant *)

Inductive operation :=
| OpProcessSpork (fLiteMode tip : bool) (now : Z) (strCommand : command) (vRecv : stream)
| OpUpdateSpork (now id value : Z)
| OpSetPrivKey (now : Z) (strPrivKey : list Z)
| OpSetMinSporkKeys (n : Z)
| OpClear.
(** [None] is an exception or a failed assertion: the manager is as before. *)
Definition exec (m : CSporkManager) (o : operation) : CSporkManager :=
  match o with
  | OpProcessSpork lite tip now cmd vRecv => match ProcessSpork lite tip now cmd vRecv m with Some (_, m) => m | None => m end
  | OpUpdateSpork now id value => (UpdateSpork m now id value).2
  | OpSetPrivKey now str => match SetPrivKey m now str with Some (_, m) => m | None => m end
  | OpSetMinSporkKeys n => (SetMinSporkKeys m n).2
  | OpClear => Clear m
  end.

Lemma known_signer_spec m spork six k : known_signer m spork six = Some k -> k ∈ setSporkPubKeyIDs m /\ signed_by spork k.
Proof.
  unfold known_signer. destruct (GetSignerKeyID spork six) as [k'|] eqn:E; [|done]. cbn [mbind option_bind].
  case_bool_decide; [|done]. intros [= ->]. split; [done|by exists six].
Qed.

(** A message changes nothing, or is stored under its signer, who has not said anything as new before. *)
Lemma ProcessSpork_cases lite tip now cmd vRecv m ev m' : ProcessSpork lite tip now cmd vRecv m = Some (ev, m') ->
  m' = m \/ exists spork k, k ∈ setSporkPubKeyIDs m /\ signed_by spork k /\ nTimeSigned spork <= now + MAX_FUTURE_BLOCK_TIME /\
    (forall old, current m (nSporkID spork) k = Some old -> nTimeSigned old < nTimeSigned spork) /\ m' = store_spork m k spork.
Proof.
  unfold ProcessSpork. destruct lite; [intros [= _ <-]; by left|]. destruct cmd; [|intros [= _ <-]; by left..].
  destruct (Spork_Unserialize vRecv) as [[spork rest]|]; [|done]. cbn [mbind option_bind]. intros [= E]. revert E.
  destruct tip; cbn [negb]; [|intros [= _ <-]; by left].
  destruct (Z.ltb_spec (now + MAX_FUTURE_BLOCK_TIME) (nTimeSigned spork)); [intros [= _ <-]; by left|].
  destruct (match known_signer m spork _ with Some k => Some k | None => _ end) as [k|] eqn:Ek; [|intros [= _ <-]; by left].
  assert (k ∈ setSporkPubKeyIDs m /\ signed_by spork k) as [Hk Hs].
  { destruct (known_signer m spork (IsSporkActive m now SPORK_6_NEW_SIGS)) eqn:E1; [injection Ek as ->|]; by eapply known_signer_spec. }
  destruct (seen m spork k) eqn:Eseen; [intros [= _ <-]; by left|]. intros [= _ <-]. right. exists spork, k. split_and!; [done..| |done].
  intros old Hold. unfold current in Hold. unfold seen in Eseen. destruct (mapSporksActive m !! nSporkID spork) as [signers|]; [|done].
  cbn [mbind option_bind] in Hold. rewrite Hold in Eseen. by apply Z.leb_gt in Eseen.
Qed.
Lemma UpdateSpork_cases m now id value : (UpdateSpork m now id value).2 = m \/
  exists spork k, k ∈ setSporkPubKeyIDs m /\ signed_by spork k /\ (UpdateSpork m now id value).2 = store_spork m k spork.
Proof.
  unfold UpdateSpork. cbv zeta. destruct (Spork_Sign _ _ _) as [spork|]; [|by left].
  destruct (GetSignerKeyID spork _) as [k|] eqn:Ek; [|by left]. case_bool_decide as Hk; [by left|].
  right. exists spork, k. split_and!; [by destruct (decide (k ∈ setSporkPubKeyIDs m))|by eexists|done].
Qed.

Lemma exec_keys m o : setSporkPubKeyIDs (exec m o) = setSporkPubKeyIDs m.
Proof.
  destruct o as [lite tip now cmd vRecv|now id value|now str|n|]; cbn [exec]; [| | | |done].
  - destruct (ProcessSpork lite tip now cmd vRecv m) as [[ev m']|] eqn:E; [|done].
    by destruct (ProcessSpork_cases _ _ _ _ _ _ _ _ E) as [->|(? & ? & _ & _ & _ & _ & ->)].
  - by destruct (UpdateSpork_cases m now id value) as [->|(? & ? & _ & _ & ->)].
  - unfold SetPrivKey. destruct (GetKeysFromSecret str) as [[[key pub]|]|]; [|done..]. cbn [mbind option_bind].
    case_bool_decide; [done|]. by destruct (Spork_Sign _ _ _).
  - unfold SetMinSporkKeys. by destruct (_ || _).
Qed.

Lemma exec_ok m o : spork_ok m -> spork_ok (exec m o).
Proof.
  intros Hok. destruct o as [lite tip now cmd vRecv|now id value|now str|n|]; cbn [exec].
  - destruct (ProcessSpork lite tip now cmd vRecv m) as [[ev m']|] eqn:E; [|done].
    destruct (ProcessSpork_cases _ _ _ _ _ _ _ _ E) as [->|(? & ? & Hk & Hs & _ & _ & ->)]; [done|by apply store_spork_ok].
  - destruct (UpdateSpork_cases m now id value) as [->|(? & ? & Hk & Hs & ->)]; [done|by apply store_spork_ok].
  - unfold SetPrivKey. destruct (GetKeysFromSecret str) as [[[key pub]|]|]; [|done..]. cbn [mbind option_bind].
    case_bool_decide; [done|]. destruct (Spork_Sign _ _ _); [|done]. destruct Hok. by split.
  - unfold SetMinSporkKeys. destruct (Z.leb_spec n (Z.quot (Z.of_nat (size (setSporkPubKeyIDs m))) 2)) as [|Hq]; [done|].
    destruct (Z.ltb_spec (Z.of_nat (size (setSporkPubKeyIDs m))) n); [done|]. cbn [orb snd]. destruct Hok. split; [|done..].
    cbn [setSporkPubKeyIDs nMinSporkKeys]. rewrite Z.quot_div_nonneg in Hq by lia. pose proof (Z.mod_pos_bound (Z.of_nat (size (setSporkPubKeyIDs m))) 2 ltac:(lia)).
    pose proof (Z.div_mod (Z.of_nat (size (setSporkPubKeyIDs m))) 2). lia.
  - destruct Hok as [? _ _]. split; [done|intros id k spork; unfold current, Clear|intros h spork; unfold Clear]; cbn [set_sporks mapSporksActive mapSporksByHash];
      by rewrite lookup_empty.
Qed.

Lemma run_ok ops : forall m, spork_ok m -> spork_ok (foldl exec m ops).
Proof. induction ops as [|o ops IH]; intros m Hm; [done|]. apply IH, exec_ok, Hm. Qed.

Lemma run_keys ops : forall m, setSporkPubKeyIDs (foldl exec m ops) = setSporkPubKeyIDs m.
Proof. induction ops as [|o ops IH]; intros m; [done|]. cbn [foldl]. by rewrite IH, exec_keys. Qed.

(** A manager that [SetMinSporkKeys] has accepted, before any message. *)
Lemma configured_ok m n : mapSporksActive m = ∅ -> mapSporksByHash m = ∅ -> (SetMinSporkKeys m n).1 = true -> spork_ok (SetMinSporkKeys m n).2.
Proof.
  intros Ha Hh. unfold SetMinSporkKeys. destruct (Z.leb_spec n (Z.quot (Z.of_nat (size (setSporkPubKeyIDs m))) 2)) as [|Hq]; [done|].
  destruct (Z.ltb_spec (Z.of_nat (size (setSporkPubKeyIDs m))) n); [done|]. intros _. cbn [orb snd]. split; unfold current; cbn.
  - rewrite Z.quot_div_nonneg in Hq by lia. pose proof (Z.mod_pos_bound (Z.of_nat (size (setSporkPubKeyIDs m))) 2 ltac:(lia)).
    pose proof (Z.div_mod (Z.of_nat (size (setSporkPubKeyIDs m))) 2). lia.
  - intros id k spork. rewrite Ha, lookup_empty. done.
  - intros h spork. rewrite Hh, lookup_empty. done.
Qed.

(** C17. Network switches are set by majorities. Once [SetMinSporkKeys] has accepted a threshold, and whatever messages, updates, keys and
    thresholds come after that, a value is in force for a switch exactly when so many of the configured keys as the threshold says, which
    are more than half of them, ask for it in the last message accepted from them, each with a signature of its own. *)
Theorem sporks_need_majority m n ops id v :
  mapSporksActive m = ∅ -> mapSporksByHash m = ∅ -> (SetMinSporkKeys m n).1 = true ->
  let m1 := foldl exec (SetMinSporkKeys m n).2 ops in
  SporkValueIsActive m1 id = Some v <->
  exists keys : gset (list Z), keys ⊆ setSporkPubKeyIDs m /\ nMinSporkKeys m1 <= Z.of_nat (size keys) /\
    Z.of_nat (size (setSporkPubKeyIDs m)) < 2 * nMinSporkKeys m1 /\
    forall k, k ∈ keys -> exists spork, current m1 id k = Some spork /\ nSporkID spork = id /\ nValue spork = v /\ signed_by spork k.
Proof.
  intros Ha Hh Hn m1. assert (Hok : spork_ok m1) by (by apply run_ok, configured_ok).
  assert (Hkeys : setSporkPubKeyIDs m1 = setSporkPubKeyIDs m).
  { unfold m1. transitivity (setSporkPubKeyIDs (SetMinSporkKeys m n).2); [|unfold SetMinSporkKeys; by destruct (_ || _)].
    apply run_keys. }
  rewrite SporkValueIsActive_iff by done. pose proof (ok_majority _ Hok) as Hmaj. rewrite Hkeys in Hmaj. split.
  - intros Hv. exists (supporters m1 id v). split_and!; [|done..|].
    + intros k Hk. apply elem_of_supporters in Hk as (spork & E & _). rewrite <- Hkeys. apply (ok_current _ Hok _ _ _ E).
    + intros k Hk. apply elem_of_supporters in Hk as (spork & E & Ev). destruct (ok_current _ Hok _ _ _ E) as (_ & ? & ? & _). by exists spork.
  - intros (keys & _ & Hsize & _ & Hall). etrans; [exact Hsize|]. apply Nat2Z.inj_le, subseteq_size. intros k Hk.
    apply elem_of_supporters. destruct (Hall k Hk) as (spork & ? & _ & ? & _). by exists spork.
Qed.

(** What a key says is only ever replaced by something newer, as long as messages come from the network. *)
Theorem ProcessSpork_newer lite tip now cmd vRecv m ev m' id k old :
  ProcessSpork lite tip now cmd vRecv m = Some (ev, m') -> current m id k = Some old ->
  exists new, current m' id k = Some new /\ (new = old \/ nTimeSigned old < nTimeSigned new).
Proof.
  intros E Hold. destruct (ProcessSpork_cases _ _ _ _ _ _ _ _ E) as [->|(spork & k' & _ & _ & _ & Hnew & ->)]; [eauto|].
  rewrite current_store. destruct (decide _) as [[-> ->]|_]; [|eauto]. exists spork. split; [done|]. right. by apply Hnew.
Qed.

(** ** [CheckAndRemove] *)

Definition well_signed (spork : CSporkMessage) (k : list Z) : bool := Spork_CheckSignature spork k false || Spork_CheckSignature spork k true.

Lemma check_signers_stuck fuel keys : forall it signers byHash k spork, (k, spork) ∈ it -> k ∉ keys -> check_signers fuel keys it signers byHash = None.
Proof.
  induction fuel as [|fuel IH]; intros it signers byHash k spork Hin Hk; [done|]. cbn [check_signers].
  destruct it as [|[k' spork'] next]; [by apply elem_of_nil in Hin|]. case_bool_decide as Hk'; [by eapply IH|].
  apply elem_of_cons in Hin as [[= -> ->]|Hin]; [done|]. destruct (_ && _); by eapply IH.
Qed.
Lemma check_signers_done keys : forall it fuel signers byHash, (length it < fuel)%nat -> Forall (fun p => p.1 ∈ keys) it ->
  exists byHash', check_signers fuel keys it signers byHash =
    Some (foldl (fun s p => if well_signed p.2 p.1 then s else delete p.1 s) signers it, byHash').
Proof.
  induction it as [|[k spork] it IH]; intros [|fuel] signers byHash Hf Hall; cbn [length] in Hf; [lia|by eexists|lia|].
  inversion_clear Hall as [|? ? Hk Hall']. cbn [check_signers foldl fst snd] in *. rewrite bool_decide_eq_false_2 by tauto.
  destruct (well_signed spork k) eqn:Ew; unfold well_signed in Ew;
    destruct (Spork_CheckSignature spork k false), (Spork_CheckSignature spork k true); try discriminate Ew; apply IH; (done || lia).
Qed.

(** The signers that are left are those whose message they signed. *)
Lemma remove_unsigned_lookup it : forall (signers : gmap (list Z) CSporkMessage) k, NoDup it.*1 ->
  (forall p, p ∈ it -> signers !! p.1 = Some p.2) -> (forall spork, signers !! k = Some spork -> (k, spork) ∈ it \/ well_signed spork k = true) ->
  foldl (fun s p => if well_signed p.2 p.1 then s else delete p.1 s) signers it !! k =
  signers !! k ≫= fun spork => if well_signed spork k then Some spork else None.
Proof.
  induction it as [|[k' spork'] it IH]; intros signers k Hnd Hin Hk; cbn [foldl fst snd].
  - destruct (signers !! k) as [spork|] eqn:E; [|done]. cbn [mbind option_bind]. destruct (Hk _ eq_refl) as [H%elem_of_nil|H]; [done|by rewrite H].
  - apply NoDup_cons in Hnd as [Hk' Hnd]. cbn [fst] in *. pose proof (Hin (k', spork') ltac:(left)) as E'. cbn [fst snd] in E'.
    destruct (well_signed spork' k') eqn:Ew.
    + apply IH; [done|by intros p Hp; apply Hin; right|]. intros spork E. destruct (Hk _ E) as [[[= -> ->]|H]%elem_of_cons|H]; tauto.
    + rewrite IH; [|done| |].
      * destruct (decide (k = k')) as [->|Hne]; [|by rewrite lookup_delete_ne]. rewrite lookup_delete_eq, E'. cbn. by rewrite Ew.
      * intros p Hp. rewrite lookup_delete_ne; [apply Hin; by right|]. intros ->. apply Hk'. by apply list_elem_of_fmap_2.
      * intros spork E. destruct (decide (k = k')) as [->|Hne]; [by rewrite lookup_delete_eq in E|]. rewrite lookup_delete_ne in E by done.
        destruct (Hk _ E) as [[[= -> ->]|H]%elem_of_cons|H]; tauto.
Qed.

Lemma check_active_stuck fuel keys : forall it active byHash id signers k spork, (id, signers) ∈ it -> signers !! k = Some spork -> k ∉ keys ->
  check_active fuel keys it active byHash = None.
Proof.
  induction it as [|[id' signers'] it IH]; intros active byHash id signers k spork Hin Hs Hk; [by apply elem_of_nil in Hin|]. cbn [check_active].
  apply elem_of_cons in Hin as [[= -> ->]|Hin].
  - erewrite check_signers_stuck; [done| |exact Hk]. by apply elem_of_map_to_list.
  - destruct (check_signers fuel keys _ signers' byHash) as [[? ?]|]; [|done]. cbn [mbind option_bind]. by eapply IH.
Qed.

(** What is kept of the messages of one switch. *)
Definition keep_signed (signers : gmap (list Z) CSporkMessage) : gmap (list Z) CSporkMessage :=
  filter (fun p => well_signed p.2 p.1 = true) signers.
Lemma check_signers_keep fuel keys signers byHash : (size signers < fuel)%nat -> (forall k, is_Some (signers !! k) -> k ∈ keys) ->
  exists byHash', check_signers fuel keys (map_to_list signers) signers byHash = Some (keep_signed signers, byHash').
Proof.
  intros Hf Hk. destruct (check_signers_done keys (map_to_list signers) fuel signers byHash) as [byHash' E].
  - by rewrite length_map_to_list.
  - apply Forall_forall. intros [k spork] Hin%elem_of_map_to_list. apply Hk. by exists spork.
  - exists byHash'. rewrite E. do 2 f_equal. apply map_eq. intros k. rewrite remove_unsigned_lookup.
    + unfold keep_signed. rewrite map_lookup_filter. destruct (signers !! k) as [spork|]; [|done]. cbn.
      destruct (well_signed spork k); [by rewrite option_guard_True|by rewrite option_guard_False].
    + apply NoDup_fst_map_to_list.
    + by intros [k' spork] Hin%elem_of_map_to_list.
    + intros spork Hs. left. by apply elem_of_map_to_list.
Qed.

Definition keep_switch (signers : gmap (list Z) CSporkMessage) : option (gmap (list Z) CSporkMessage) :=
  if bool_decide (keep_signed signers = ∅) then None else Some (keep_signed signers).
Lemma check_active_done fuel keys : forall it active byHash, NoDup it.*1 ->
  (forall p, p ∈ it -> (size p.2 < fuel)%nat /\ (forall k, is_Some (p.2 !! k) -> k ∈ keys) /\ active !! p.1 = Some p.2) ->
  exists active' byHash', check_active fuel keys it active byHash = Some (active', byHash') /\
    (forall id, id ∉ it.*1 -> active' !! id = active !! id) /\ (forall p, p ∈ it -> active' !! p.1 = keep_switch p.2).
Proof.
  induction it as [|[id signers] it IH]; intros active byHash Hnd Hin; cbn [check_active].
  { exists active, byHash. split_and!; [done..|]. by intros p H%elem_of_nil. }
  apply NoDup_cons in Hnd as [Hid Hnd]. destruct (Hin (id, signers) ltac:(left)) as (Hf & Hk & Ea). cbn [fst snd] in *.
  destruct (check_signers_keep fuel keys signers byHash Hf Hk) as [byHash' ->]. cbn [mbind option_bind].
  set (active1 := if bool_decide _ then _ else _).
  assert (H1 : active1 !! id = keep_switch signers).
  { unfold active1, keep_switch. case_bool_decide; [apply lookup_delete_eq|apply lookup_insert_eq]. }
  assert (H2 : forall id', id' <> id -> active1 !! id' = active !! id').
  { intros id' Hne. unfold active1. case_bool_decide; [by rewrite lookup_delete_ne|by rewrite lookup_insert_ne]. }
  destruct (IH active1 byHash' Hnd) as (active' & byHash'' & -> & Hout & Hkeep).
  { intros p Hp. destruct (Hin p ltac:(by right)) as (? & ? & ?). split_and!; [done..|]. rewrite H2; [done|].
    intros E. apply Hid. rewrite <- E. by apply list_elem_of_fmap_2. }
  exists active', byHash''. split_and!; [done| |].
  - intros id'. rewrite fmap_cons, not_elem_of_cons. cbn [fst]. intros [Hne Hnot]. by rewrite Hout, H2.
  - intros p [->|Hp]%elem_of_cons; [|by apply Hkeep]. cbn [fst snd]. by rewrite Hout.
Qed.

Lemma current_keep m m' id k : (forall id, mapSporksActive m' !! id = mapSporksActive m !! id ≫= keep_switch) ->
  current m' id k = current m id k ≫= fun spork => if well_signed spork k then Some spork else None.
Proof.
  intros H. unfold current. rewrite H. destruct (mapSporksActive m !! id) as [signers|]; [|done]. cbn [mbind option_bind].
  assert (keep_switch signers ≫= (.!! k) = keep_signed signers !! k) as ->.
  { unfold keep_switch. case_bool_decide as E; [by rewrite E, lookup_empty|done]. }
  unfold keep_signed. rewrite map_lookup_filter. destruct (signers !! k) as [spork|]; [|done]. cbn.
  destruct (well_signed spork k); [by rewrite option_guard_True|by rewrite option_guard_False].
Qed.

(** C38. The check of the switches read from disk: with every signer configured, the loop ends within one pass, and keeps exactly the
    messages their signers signed. With a signer that is configured no more, it never ends. *)
Theorem CheckAndRemove_terminates_or_loops m : setSporkPubKeyIDs m <> ∅ ->
  ((forall id k, is_Some (current m id k) -> k ∈ setSporkPubKeyIDs m) ->
     exists m', CheckAndRemove (S (size (setSporkPubKeyIDs m))) m = Some m' /\
       forall id k, current m' id k = current m id k ≫= fun spork => if well_signed spork k then Some spork else None) /\
  (forall id k, is_Some (current m id k) -> k ∉ setSporkPubKeyIDs m -> forall fuel, CheckAndRemove fuel m = None).
Proof.
  intros Hne. unfold CheckAndRemove. rewrite bool_decide_eq_false_2 by done. split.
  - intros Hall. destruct (check_active_done (S (size (setSporkPubKeyIDs m))) (setSporkPubKeyIDs m) (map_to_list (mapSporksActive m))
      (mapSporksActive m) (mapSporksByHash m)) as (active' & byHash' & -> & Hout & Hkeep).
    + apply NoDup_fst_map_to_list.
    + intros [id signers] E%elem_of_map_to_list. cbn [fst snd]. assert (Hk : forall k, is_Some (signers !! k) -> k ∈ setSporkPubKeyIDs m).
      { intros k [spork Hs]. apply (Hall id). exists spork. unfold current. by rewrite E. }
      split_and!; [|done..]. apply Nat.lt_succ_r. rewrite <- size_dom. apply subseteq_size. intros k Hd%elem_of_dom. by apply Hk.
    + eexists. split; [done|]. intros id k. apply current_keep. clear id k. intros id. cbn [set_sporks mapSporksActive].
      destruct (mapSporksActive m !! id) as [signers|] eqn:E; cbn [mbind option_bind].
      * apply (Hkeep (id, signers)). by apply elem_of_map_to_list.
      * rewrite Hout; [done|]. rewrite list_elem_of_fmap. intros ([id' signers] & -> & Hin%elem_of_map_to_list). cbn [fst] in E. by rewrite E in Hin.
  - intros id k [spork Hs] Hk fuel. unfold current in Hs. destruct (mapSporksActive m !! id) as [signers|] eqn:E; [|done].
    erewrite check_active_stuck; [done| |exact Hs|exact Hk]. by apply elem_of_map_to_list.
Qed.

(** ** The text that is signed does not separate its numbers *)

Lemma old_format_shared m1 m2 : Spork_strMessage m1 = Spork_strMessage m2 -> vchSig m1 = vchSig m2 ->
  GetSignerKeyID m1 false = GetSignerKeyID m2 false.
Proof. intros Ht Hs. unfold GetSignerKeyID. by rewrite Ht, Hs. Qed.

(** The signature under one message is the signature under another, with a different value, signed at a different time. *)
Theorem spork_signature_replayed sig k : let m1 := mkSpork SPORK_9_SUPERBLOCKS_ENABLED 1 1605000000 sig in
  let m2 := mkSpork SPORK_9_SUPERBLOCKS_ENABLED 11 605000000 sig in
  GetSignerKeyID m1 false = Some k <-> GetSignerKeyID m2 false = Some k.
Proof. intros m1 m2. by rewrite (old_format_shared m1 m2). Qed.
End Signers.

(** ** A sample *)

Module SporkSample.
Definition junk : stream := replicate 64 0.
(** A library whose signatures are the public keys. *)
Definition recover (recid : Z) (fComp : bool) (sig hash : list Z) : option (list Z) := Some sig.
Definition sign (key hash : list Z) : Z * list Z := (0, key).
Definition public (key : list Z) (fComp : bool) : list Z := key.
Definition prefixes : Prefixes := mkPrefixes [60] [122] [128].
Definition sig (x : Z) : list Z := 27 :: replicate 64 x.
Definition keyed (xs : list Z) : CSporkManager := mkSporkManager ∅ ∅ (list_to_set (map (fun x => PubKey_GetID junk junk (replicate 64 x)) xs)) 0 Key_new.
Definition message (x value time : Z) : stream := Spork_Serialize (mkSpork SPORK_9_SUPERBLOCKS_ENABLED value time (sig x)).
(** Three keys; the first changes its mind; a message that is too old and one of an unknown key are refused. *)
Definition operations : list operation :=
  map (OpProcessSpork false true 2000 SPORK)
    [message 1 7 1000; message 2 5 1000; message 1 5 1500; message 1 7 1200; message 9 7 1000].
Definition configured : CSporkManager := keyed [1; 2; 3].
Abbreviation after := (foldl (exec junk junk recover sign public (fun _ => true) prefixes) (SetMinSporkKeys configured 2).2 operations).
(** A message on disk whose signer is configured no more. *)
Definition stale : CSporkManager := set_sporks (keyed [1]) ∅ {[ SPORK_9_SUPERBLOCKS_ENABLED := {[ [9] := mkSpork SPORK_9_SUPERBLOCKS_ENABLED 7 1000 (sig 9) ]} ]}.
End SporkSample.

Lemma sample_accepted : (SetMinSporkKeys SporkSample.configured 2).1 = true.
Proof. vm_compute. reflexivity. Qed.
Lemma sample_value : SporkValueIsActive SporkSample.after SPORK_9_SUPERBLOCKS_ENABLED = Some 5.
Proof. vm_compute. reflexivity. Qed.

Lemma sporks_need_majority_witness : SporkValueIsActive SporkSample.after SPORK_9_SUPERBLOCKS_ENABLED = Some 5 /\
  exists keys : gset (list Z), keys ⊆ setSporkPubKeyIDs SporkSample.configured /\ nMinSporkKeys SporkSample.after <= Z.of_nat (size keys) /\
    Z.of_nat (size (setSporkPubKeyIDs SporkSample.configured)) < 2 * nMinSporkKeys SporkSample.after /\
    forall k, k ∈ keys -> exists spork, current SporkSample.after SPORK_9_SUPERBLOCKS_ENABLED k = Some spork /\
      nSporkID spork = SPORK_9_SUPERBLOCKS_ENABLED /\ nValue spork = 5 /\ signed_by SporkSample.junk SporkSample.junk SporkSample.recover spork k.
Proof.
  split; [exact sample_value|].
  exact (proj1 (sporks_need_majority SporkSample.junk SporkSample.junk SporkSample.recover SporkSample.sign SporkSample.public (fun _ => true)
    SporkSample.prefixes SporkSample.configured 2 SporkSample.operations SPORK_9_SUPERBLOCKS_ENABLED 5 eq_refl eq_refl sample_accepted) sample_value).
Defined.

Lemma CheckAndRemove_terminates_or_loops_witness : setSporkPubKeyIDs SporkSample.stale <> ∅ /\
  forall fuel, CheckAndRemove SporkSample.junk SporkSample.junk SporkSample.recover fuel SporkSample.stale = None.
Proof.
  split; [vm_compute; discriminate|].
  apply (CheckAndRemove_terminates_or_loops SporkSample.junk SporkSample.junk SporkSample.recover SporkSample.sign SporkSample.public (fun _ => true)
    SporkSample.stale) with SPORK_9_SUPERBLOCKS_ENABLED [9].
  - vm_compute. discriminate.
  - vm_compute. by eexists.
  - vm_compute. discriminate.
Defined.
