(* ===== verification/CacheMap.v ===== *)
(** [cachemap.h], [cachemultimap.h]: maps that keep the items added last, as a list in order of age and an index of iterators into it. *)

From stdpp Require Import prelude gmap fin_maps.
From Stdlib Require Import ZArith Lia.
From S2P Require Import Prelude.

Open Scope Z_scope.

(** A node of a [std::list]: its address, which is what an iterator holds, and the item. *)
Record CacheItem (K V : Type) := mkItem { node_it : nat; key : K; value : V }.
Arguments mkItem {K V} _ _ _.
Arguments node_it {K V} _.
Arguments key {K V} _.
Arguments value {K V} _.

Definition list_erase {K V : Type} (it : nat) (l : list (CacheItem K V)) : list (CacheItem K V) := filter (fun n => node_it n <> it) l.
(** [None]: the iterator does not point into the list. *)
Definition deref {K V : Type} (it : nat) (l : list (CacheItem K V)) : option (CacheItem K V) := List.find (fun n => (node_it n =? it)%nat) l.

(** ** [CacheMap] *)

Section Map.
Context {K V : Type} `{Countable K}.

(** [next] is the address of the next node. *)
Record CacheMap := mkCacheMap { nMaxSize : Z; listItems : list (CacheItem K V); mapIndex : gmap K nat; next : nat }.

Definition CacheMap_new (max : Z) : CacheMap := mkCacheMap max [] ∅ 0.
Definition Clear (m : CacheMap) : CacheMap := mkCacheMap (nMaxSize m) [] ∅ (next m).
Definition SetMaxSize (m : CacheMap) (max : Z) : CacheMap := mkCacheMap max (listItems m) (mapIndex m) (next m).
(** [size_type] is [uint32_t]. *)
Definition GetMaxSize (m : CacheMap) : Z := nMaxSize m.
Definition GetSize (m : CacheMap) : Z := u32 (Z.of_nat (length (listItems m))).

Definition PruneLast (m : CacheMap) : CacheMap :=
  match last (listItems m) with
  | None => m
  | Some item => mkCacheMap (nMaxSize m) (removelast (listItems m)) (delete (key item) (mapIndex m)) (next m)
  end.
Definition Insert (m : CacheMap) (k : K) (v : V) : bool * CacheMap :=
  match mapIndex m !! k with
  | Some _ => (false, m)
  | None =>
      let m := if Z.of_nat (length (listItems m)) =? nMaxSize m then PruneLast m else m in
      let it := next m in
      (true, mkCacheMap (nMaxSize m) (mkItem it k v :: listItems m)
               (match mapIndex m !! k with Some _ => mapIndex m | None => <[k := it]> (mapIndex m) end) (S it))
  end.
Definition HasKey (m : CacheMap) (k : K) : bool := bool_decide (is_Some (mapIndex m !! k)).
(** The outer [None] is an iterator that points nowhere. *)
Definition Get (m : CacheMap) (k : K) : option (option V) :=
  match mapIndex m !! k with
  | None => Some None
  | Some it => item ← deref it (listItems m); Some (Some (value item))
  end.
Definition Erase (m : CacheMap) (k : K) : CacheMap :=
  match mapIndex m !! k with
  | None => m
  | Some it => mkCacheMap (nMaxSize m) (list_erase it (listItems m)) (delete k (mapIndex m)) (next m)
  end.
(** [emplace] keeps the first node of a key. *)
Definition RebuildIndex (m : CacheMap) : CacheMap :=
  mkCacheMap (nMaxSize m) (listItems m)
    (foldl (fun idx n => match idx !! key n with Some _ => idx | None => <[key n := node_it n]> idx end) ∅ (listItems m)) (next m).

(** The items of the list, written and read again: the nodes are new. *)
Fixpoint renumber (it : nat) (l : list (K * V)) : list (CacheItem K V) :=
  match l with [] => [] | (k, v) :: l => mkItem it k v :: renumber (S it) l end.
Definition items (m : CacheMap) : list (K * V) := map (fun n => (key n, value n)) (listItems m).
Definition Unserialize (max : Z) (l : list (K * V)) : CacheMap := RebuildIndex (mkCacheMap max (renumber 0 l) ∅ (length l)).
(** The copy constructor and [operator=]. *)
Definition copy (other : CacheMap) : CacheMap := Unserialize (nMaxSize other) (items other).

(** ** What the map promises: a list of the items added, newest first *)

Record cache_ok (m : CacheMap) : Prop := {
  ok_nodes : NoDup (node_it <$> listItems m);
  ok_next : Forall (fun n => (node_it n < next m)%nat) (listItems m);
  ok_index : forall k it, mapIndex m !! k = Some it <-> exists n, n ∈ listItems m /\ node_it n = it /\ key n = k
}.

Definition spec_has (l : list (K * V)) (k : K) : bool := existsb (fun p => bool_decide (p.1 = k)) l.
Definition spec_get (l : list (K * V)) (k : K) : option V := snd <$> List.find (fun p => bool_decide (p.1 = k)) l.
Definition spec_insert (max : Z) (l : list (K * V)) (k : K) (v : V) : list (K * V) :=
  if spec_has l k then l else (k, v) :: (if Z.of_nat (length l) =? max then removelast l else l).
Definition spec_erase (l : list (K * V)) (k : K) : list (K * V) := filter (fun p => p.1 <> k) l.

Lemma nodes_inj (l : list (CacheItem K V)) n n' : NoDup (node_it <$> l) -> n ∈ l -> n' ∈ l -> node_it n = node_it n' -> n = n'.
Proof.
  induction l as [|x l IH]; intros Hnd Hn Hn' E; [by apply elem_of_nil in Hn|]. apply NoDup_cons in Hnd as [Hx Hnd].
  apply elem_of_cons in Hn as [->|Hn], Hn' as [->|Hn']; [done| | |by apply IH].
  - exfalso. apply Hx. rewrite E. by apply list_elem_of_fmap_2.
  - exfalso. apply Hx. rewrite <- E. by apply list_elem_of_fmap_2.
Qed.
Lemma keys_inj m n n' : cache_ok m -> n ∈ listItems m -> n' ∈ listItems m -> key n = key n' -> n = n'.
Proof.
  intros Hm Hn Hn' E. apply (nodes_inj (listItems m)); [apply Hm|done..|].
  assert (mapIndex m !! key n = Some (node_it n)) as E1 by (apply Hm; eauto).
  assert (mapIndex m !! key n = Some (node_it n')) as E2 by (apply Hm; eauto). congruence.
Qed.
Lemma deref_node l n : NoDup (node_it <$> l) -> n ∈ l -> deref (K := K) (V := V) (node_it n) l = Some n.
Proof.
  intros Hnd Hn. unfold deref. destruct (List.find _ l) as [n'|] eqn:E.
  - apply List.find_some in E as [Hn'%list_elem_of_In E%Nat.eqb_eq]. f_equal. by apply (nodes_inj l).
  - apply List.find_none with (x := n) in E; [by rewrite Nat.eqb_refl in E|by apply list_elem_of_In].
Qed.
Lemma spec_has_iff l k : spec_has l k = true <-> exists v, (k, v) ∈ l.
Proof.
  unfold spec_has. rewrite existsb_exists. split.
  - intros ([k' v] & Hin%list_elem_of_In & E%bool_decide_eq_true). cbn in E. subst. eauto.
  - intros [v Hin]. exists (k, v). rewrite <- list_elem_of_In. split; [done|]. by apply bool_decide_eq_true.
Qed.

Lemma index_items m k : cache_ok m -> is_Some (mapIndex m !! k) <-> exists v, (k, v) ∈ items m.
Proof.
  intros Hm. unfold items. setoid_rewrite list_elem_of_In. setoid_rewrite in_map_iff. split.
  - intros [it (n & Hn & _ & <-)%(ok_index _ Hm)]. exists (value n), n. by rewrite <- list_elem_of_In.
  - intros (v & n & [= <- <-] & Hn). exists (node_it n). apply (ok_index _ Hm). exists n. by rewrite list_elem_of_In.
Qed.
Lemma HasKey_spec m k : cache_ok m -> HasKey m k = spec_has (items m) k.
Proof.
  intros Hm. unfold HasKey. apply Bool.eq_iff_eq_true. by rewrite bool_decide_eq_true, spec_has_iff, index_items.
Qed.
Lemma find_item (l : list (CacheItem K V)) n : n ∈ l -> (forall n', n' ∈ l -> key n' = key n -> n' = n) ->
  List.find (fun p => bool_decide (p.1 = key n)) (map (fun n => (key n, value n)) l) = Some (key n, value n).
Proof.
  induction l as [|x l IH]; intros Hn Hu; [by apply elem_of_nil in Hn|]. cbn [map List.find fst]. case_bool_decide as E.
  - by rewrite (Hu x ltac:(left) E).
  - apply elem_of_cons in Hn as [->|Hn]; [done|]. apply IH; [done|]. intros n' Hn' En. apply Hu; [by right|done].
Qed.
Lemma Get_spec m k : cache_ok m -> Get m k = Some (spec_get (items m) k).
Proof.
  intros Hm. unfold Get. destruct (mapIndex m !! k) as [it|] eqn:E.
  - apply (ok_index _ Hm) in E as (n & Hn & <- & <-). rewrite deref_node; [|apply Hm|done]. cbn [mbind option_bind]. unfold spec_get, items.
    rewrite find_item; [done..|]. intros n' Hn' Ek. by apply (keys_inj m).
  - unfold spec_get. destruct (List.find _ (items m)) as [[k' v]|] eqn:F; [|done].
    apply List.find_some in F as [Hin%list_elem_of_In Ek%bool_decide_eq_true]. cbn in Ek. subst k'.
    assert (is_Some (mapIndex m !! k)) as [it E'] by (apply index_items; eauto). by rewrite E' in E.
Qed.

Lemma PruneLast_ok m : cache_ok m -> cache_ok (PruneLast m) /\ items (PruneLast m) = removelast (items m) /\ nMaxSize (PruneLast m) = nMaxSize m /\
  (forall k, is_Some (mapIndex (PruneLast m) !! k) -> is_Some (mapIndex m !! k)).
Proof.
  intros Hm. destruct (listItems m) as [|x l _] eqn:El using rev_ind; [unfold PruneLast, items; rewrite El; cbn; rewrite El; split_and!; [done..|tauto]|].
  assert (Hx : x ∈ listItems m) by (rewrite El; apply elem_of_app; right; left).
  assert (Hnd : NoDup (node_it <$> listItems m)) by apply Hm. pose proof (ok_next _ Hm) as Hnext.
  unfold PruneLast. rewrite El, last_snoc, removelast_last. rewrite El in Hnd, Hnext. rewrite fmap_app in Hnd.
  apply NoDup_app in Hnd as (Hnd & Hxl & _). apply Forall_app in Hnext as [Hnext _]. split_and!.
  - split; [done|done|]. intros k it. cbn [mapIndex listItems]. rewrite lookup_delete_Some, (ok_index _ Hm). split.
    + intros (Hk & n & Hn & <- & <-). rewrite El, elem_of_app, elem_of_cons, elem_of_nil in Hn. exists n. destruct Hn as [Hn|[->|[]]]; done.
    + intros (n & Hn & <- & <-). assert (Hnm : n ∈ listItems m) by (rewrite El; apply elem_of_app; by left). split.
      * intros Ek. assert (x = n) as -> by (by apply (keys_inj m)). apply (Hxl (node_it n)); [by apply list_elem_of_fmap_2|by left].
      * eauto.
  - unfold items. cbn [listItems]. rewrite El, map_app. cbn [map]. by rewrite removelast_last.
  - done.
  - intros k. cbn [mapIndex]. intros [it [_ E]%lookup_delete_Some]. by exists it.
Qed.

Lemma Insert_ok m k v : cache_ok m -> cache_ok (Insert m k v).2 /\ items (Insert m k v).2 = spec_insert (nMaxSize m) (items m) k v /\
  nMaxSize (Insert m k v).2 = nMaxSize m /\ (Insert m k v).1 = negb (spec_has (items m) k).
Proof.
  intros Hm. unfold Insert, spec_insert. rewrite <- HasKey_spec by done. unfold HasKey.
  destruct (mapIndex m !! k) as [it|] eqn:E; [by rewrite bool_decide_eq_true_2|].
  rewrite bool_decide_eq_false_2 by (by intros [? ?]). cbn [fst snd negb].
  set (m1 := if Z.of_nat (length (listItems m)) =? nMaxSize m then PruneLast m else m).
  assert (cache_ok m1 /\ items m1 = (if Z.of_nat (length (items m)) =? nMaxSize m then removelast (items m) else items m) /\
    nMaxSize m1 = nMaxSize m /\ mapIndex m1 !! k = None) as (Hm1 & Ei & Emax & Ek).
  { unfold m1, items at 2 4. rewrite length_map. destruct (_ =? _); [|done]. destruct (PruneLast_ok m Hm) as (? & ? & ? & Hsome). split_and!; [done..|].
    apply eq_None_not_Some. intros Hs%Hsome. rewrite E in Hs. by destruct Hs. }
  rewrite Ek. split_and!; [|by unfold items in *; cbn [listItems map key value]; rewrite <- Ei|done..].
  destruct Hm1 as [Hnd Hnext Hidx]. split; cbn [listItems mapIndex next].
  - rewrite fmap_cons. apply NoDup_cons. split; [|done]. cbn [node_it]. rewrite list_elem_of_fmap. intros (n & En & Hn).
    rewrite Forall_forall in Hnext. specialize (Hnext n Hn). lia.
  - constructor; [cbn; lia|]. eapply Forall_impl; [exact Hnext|]. cbn. lia.
  - intros k' it. destruct (decide (k = k')) as [<-|Hne].
    + rewrite lookup_insert_eq. split; [intros [= <-]; eexists; split_and!; [by left|done..]|].
      intros (n & [->|Hn]%elem_of_cons & <- & Ekn); [done|]. exfalso. assert (mapIndex m1 !! k = Some (node_it n)) as E2 by (apply Hidx; eauto). by rewrite Ek in E2.
    + rewrite lookup_insert_ne, Hidx by done. setoid_rewrite elem_of_cons. split.
      * intros (n & Hn & ? & ?). eauto.
      * intros (n & [->|Hn] & ? & ?); [done|eauto].
Qed.

Lemma map_filter_agree {A B} (f : A -> B) (P : B -> Prop) (Q : A -> Prop) `{forall x, Decision (P x)} `{forall x, Decision (Q x)} (l : list A) :
  (forall x, x ∈ l -> Q x <-> P (f x)) -> map f (filter Q l) = filter P (map f l).
Proof.
  intros Hl. induction l as [|x l IH]; [done|]. cbn [map]. rewrite !filter_cons. pose proof (Hl x ltac:(left)) as Hx.
  assert (IH' : map f (filter Q l) = filter P (map f l)) by (apply IH; intros y Hy; apply Hl; by right).
  destruct (decide (Q x)), (decide (P (f x))); cbn [map]; rewrite ?IH'; tauto.
Qed.
Lemma list_filter_all {A} (P : A -> Prop) `{forall x, Decision (P x)} (l : list A) : (forall x, x ∈ l -> P x) -> filter P l = l.
Proof.
  intros Hl. induction l as [|x l IH]; [done|]. rewrite filter_cons, decide_True by (apply Hl; left). f_equal. apply IH. intros y Hy. apply Hl. by right.
Qed.
Lemma Erase_ok m k : cache_ok m -> cache_ok (Erase m k) /\ items (Erase m k) = spec_erase (items m) k /\ nMaxSize (Erase m k) = nMaxSize m.
Proof.
  intros Hm. unfold Erase. destruct (mapIndex m !! k) as [it|] eqn:E.
  - apply (ok_index _ Hm) in E as (n & Hn & <- & <-). assert (Hsame : forall x, x ∈ listItems m -> node_it x = node_it n <-> key x = key n).
    { intros x Hx. split; [intros Ex; by rewrite (nodes_inj _ x n (ok_nodes _ Hm) Hx Hn Ex)|intros Ex; by rewrite (keys_inj m x n Hm Hx Hn Ex)]. }
    split_and!; [|unfold items, list_erase, spec_erase; cbn [listItems]|done].
    + destruct Hm as [Hnd Hnext Hidx]. unfold list_erase. split; cbn [listItems mapIndex next].
      * eapply sublist_NoDup; [exact Hnd|]. apply fmap_sublist, sublist_filter.
      * rewrite Forall_forall in *. intros x [_ Hx]%list_elem_of_filter. by apply Hnext.
      * intros k' it. rewrite lookup_delete_Some, Hidx. setoid_rewrite list_elem_of_filter. split.
        -- intros (Hk & x & Hx & <- & <-). exists x. split_and!; [|done..]. rewrite Hsame by done. congruence.
        -- intros (x & [Hne Hx] & <- & <-). rewrite Hsame in Hne by done. split; [congruence|eauto].
    + apply map_filter_agree. intros x Hx. cbn [fst]. by rewrite Hsame.
  - split_and!; [done| |done]. unfold spec_erase. symmetry. apply list_filter_all. intros [k' v] Hin Ek. cbn in Ek. subst k'.
    assert (is_Some (mapIndex m !! k)) as [it E'] by (apply index_items; eauto). by rewrite E' in E.
Qed.

Lemma CacheMap_new_ok max : cache_ok (CacheMap_new max).
Proof. split; cbn; [constructor..|]. intros k it. rewrite lookup_empty. split; [done|]. by intros (n & Hn%elem_of_nil & _). Qed.

(** Reading back what was written. *)
Lemma renumber_spec it l : map (fun n => (key n, value n)) (renumber it l) = l /\
  Forall (fun n => (it <= node_it n < it + length l)%nat) (renumber it l) /\ NoDup (node_it <$> renumber it l).
Proof.
  revert it. induction l as [|[k v] l IH]; intros it; [split_and!; constructor|]. destruct (IH (S it)) as (E & Hf & Hnd). cbn [renumber map length]. rewrite E.
  split_and!; [done|constructor; [cbn; lia|eapply Forall_impl; [exact Hf|cbn; lia]]|]. rewrite fmap_cons. apply NoDup_cons. split; [|done].
  cbn [node_it]. rewrite list_elem_of_fmap. intros (n & En & Hn). rewrite Forall_forall in Hf. specialize (Hf n Hn). lia.
Qed.
Lemma rebuild_index l : forall idx : gmap K nat, NoDup (key <$> l) -> (forall n : CacheItem K V, n ∈ l -> idx !! key n = None) ->
  forall k it, foldl (fun idx n => match idx !! key n with Some _ => idx | None => <[key n := node_it n]> idx end) idx l !! k = Some it <->
    idx !! k = Some it \/ exists n, n ∈ l /\ node_it n = it /\ key n = k.
Proof.
  induction l as [|x l IH]; intros idx Hnd Hnone k it; cbn [foldl].
  { split; [by left|]. intros [?|(n & Hn%elem_of_nil & _)]; done. }
  rewrite fmap_cons, NoDup_cons in Hnd. destruct Hnd as [Hx Hnd]. rewrite (Hnone x) by left. rewrite IH; [|done|].
  - rewrite lookup_insert_Some. setoid_rewrite elem_of_cons. split.
    + intros [[[<- <-]|[_ ?]]|(n & ? & ? & ?)]; [right; exists x; auto|by left|right; exists n; auto].
    + intros [E|(n & [->|Hn] & <- & <-)]; [|by left; left|right; eauto]. left. right. split; [|done]. intros <-. by rewrite (Hnone x ltac:(left)) in E.
  - intros n Hn. rewrite lookup_insert_ne; [apply Hnone; by right|]. intros E. apply Hx. rewrite E. by apply list_elem_of_fmap_2.
Qed.
Lemma Unserialize_ok max l : NoDup l.*1 -> cache_ok (Unserialize max l) /\ items (Unserialize max l) = l /\ nMaxSize (Unserialize max l) = max.
Proof.
  intros Hnd. destruct (renumber_spec 0 l) as (E & Hf & Hn). split_and!; [|exact E|done]. split; cbn [Unserialize RebuildIndex listItems mapIndex next nMaxSize]; [done| |].
  - eapply Forall_impl; [exact Hf|]. cbn. lia.
  - intros k it. rewrite rebuild_index.
    + rewrite lookup_empty. split; [by intros [?|?]|by right].
    + assert (key <$> renumber 0 l = l.*1) as ->; [|done]. rewrite <- E at 2. by rewrite <- list_fmap_compose.
    + intros n _. apply lookup_empty.
Qed.

(** *** Sequences of calls *)

Inductive operation := OInsert (k : K) (v : V) | OGet (k : K) | OHasKey (k : K) | OErase (k : K) | OGetSize | OGetMaxSize | OSetMaxSize (max : Z) | OClear | OReload.
Inductive answer := AnsBool (b : bool) | AnsValue (o : option V) | AnsSize (n : Z) | AnsNone.

Definition exec (m : CacheMap) (o : operation) : option (answer * CacheMap) :=
  match o with
  | OInsert k v => let '(b, m) := Insert m k v in Some (AnsBool b, m)
  | OGet k => r ← Get m k; Some (AnsValue r, m)
  | OHasKey k => Some (AnsBool (HasKey m k), m)
  | OErase k => Some (AnsNone, Erase m k)
  | OGetSize => Some (AnsSize (GetSize m), m)
  | OGetMaxSize => Some (AnsSize (GetMaxSize m), m)
  | OSetMaxSize max => Some (AnsNone, SetMaxSize m max)
  | OClear => Some (AnsNone, Clear m)
  | OReload => Some (AnsNone, Unserialize (nMaxSize m) (items m))
  end.
(** The state of the specification: the maximal number of items, and the items. *)
Abbreviation spec_state := (Z * list (K * V))%type.
Definition spec_exec (s : spec_state) (o : operation) : answer * spec_state :=
  let '(max, l) := s in
  match o with
  | OInsert k v => (AnsBool (negb (spec_has l k)), (max, spec_insert max l k v))
  | OGet k => (AnsValue (spec_get l k), s)
  | OHasKey k => (AnsBool (spec_has l k), s)
  | OErase k => (AnsNone, (max, spec_erase l k))
  | OGetSize => (AnsSize (u32 (Z.of_nat (length l))), s)
  | OGetMaxSize => (AnsSize max, s)
  | OSetMaxSize max => (AnsNone, (max, l))
  | OClear => (AnsNone, (max, []))
  | OReload => (AnsNone, s)
  end.
Fixpoint run (m : CacheMap) (ops : list operation) : option (list answer * CacheMap) :=
  match ops with
  | [] => Some ([], m)
  | o :: ops => '(a, m) ← exec m o; '(as_, m) ← run m ops; Some (a :: as_, m)
  end.
Fixpoint spec_run (s : spec_state) (ops : list operation) : list answer * spec_state :=
  match ops with
  | [] => ([], s)
  | o :: ops => let '(a, s) := spec_exec s o in let '(as_, s) := spec_run s ops in (a :: as_, s)
  end.
(** The maximum is positive at first, and never set to zero or below the number of items there are. *)
Definition max_fits (s : spec_state) : bool := (0 <? s.1) && (Z.of_nat (length s.2) <=? s.1).
Fixpoint keeps_max (s : spec_state) (ops : list operation) : bool :=
  max_fits s && match ops with [] => true | o :: ops => match o with OSetMaxSize max => max_fits (max, s.2) | _ => true end && keeps_max (spec_exec s o).2 ops end.

Lemma items_keys m : cache_ok m -> NoDup (items m).*1.
Proof.
  intros Hm. unfold items. rewrite <- list_fmap_compose. apply NoDup_fmap_2_strong; [|apply NoDup_fmap_1 with node_it, Hm].
  intros x y Hx Hy E. by apply (keys_inj m).
Qed.

Definition spec_of (m : CacheMap) : spec_state := (nMaxSize m, items m).
Lemma exec_refines m o : cache_ok m -> exists a m', exec m o = Some (a, m') /\ cache_ok m' /\ spec_exec (spec_of m) o = (a, spec_of m').
Proof.
  intros Hm. destruct o as [k v|k|k|k| | |max| |]; cbn [exec spec_exec spec_of].
  - destruct (Insert_ok m k v Hm) as (? & Ei & Em & Eb). destruct (Insert m k v) as [b m']. cbn [fst snd] in *. exists (AnsBool b), m'. unfold spec_of. by rewrite Em, Ei, Eb.
  - rewrite Get_spec by done. cbn [mbind option_bind]. eauto 10.
  - rewrite HasKey_spec by done. eauto 10.
  - destruct (Erase_ok m k Hm) as (? & Ei & Em). exists AnsNone, (Erase m k). unfold spec_of. by rewrite Em, Ei.
  - unfold GetSize. rewrite <- (length_map (fun n => (key n, value n))). fold (items m). eauto 10.
  - eauto 10.
  - exists AnsNone, (SetMaxSize m max). split_and!; [done| |done]. by destruct Hm.
  - exists AnsNone, (Clear m). split_and!; [done| |done..]. split; cbn; [constructor..|]. intros k it. rewrite lookup_empty. split; [done|]. by intros (n & Hn%elem_of_nil & _).
  - destruct (Unserialize_ok (nMaxSize m) (items m)) as (? & Ei & Em); [by apply items_keys|]. eexists _, _. split_and!; [done..|]. unfold spec_of. by rewrite Ei, Em.
Qed.

Lemma run_refines ops : forall m, cache_ok m -> exists as_ m', run m ops = Some (as_, m') /\ spec_run (spec_of m) ops = (as_, spec_of m').
Proof.
  induction ops as [|o ops IH]; intros m Hm; cbn [run spec_run]; [eauto|].
  destruct (exec_refines m o Hm) as (a & m1 & -> & Hm1 & ->). cbn [mbind option_bind]. destruct (IH m1 Hm1) as (as_ & m' & -> & ->). cbn [mbind option_bind]. eauto.
Qed.

Lemma spec_insert_length max l k v : 0 < max -> Z.of_nat (length l) <= max -> Z.of_nat (length (spec_insert max l k v)) <= max.
Proof.
  intros Hmax Hl. unfold spec_insert. destruct (spec_has l k); [done|]. cbn [length]. destruct (Z.eqb_spec (Z.of_nat (length l)) max) as [E|]; [|lia].
  destruct l as [|y l _] using rev_ind; [cbn in E; lia|]. rewrite removelast_last. rewrite length_app in E. cbn in E. lia.
Qed.
Lemma keeps_max_fits s ops : keeps_max s ops = true -> max_fits (spec_run s ops).2 = true.
Proof.
  revert s. induction ops as [|o ops IH]; intros s; cbn [keeps_max spec_run]; [by intros [? _]%andb_true_iff|].
  intros [_ [_ Hk]%andb_true_iff]%andb_true_iff. apply IH in Hk. destruct (spec_exec s o) as [a s1]. cbn [snd] in Hk. by destruct (spec_run s1 ops).
Qed.

(** C40. Whatever calls are made, [SetMaxSize] included, the map answers as a list of items, newest first, from which the oldest is dropped when an item is added to
    exactly as many as the maximum.  As long as the maximum is positive and is never set below the number of items there are, there are never more items than
    the maximum. *)
Theorem cache_map_keeps_newest max ops : exists answers m, run (CacheMap_new max) ops = Some (answers, m) /\
  spec_run (max, []) ops = (answers, (nMaxSize m, items m)) /\
  (keeps_max (max, []) ops = true -> 0 < nMaxSize m /\ Z.of_nat (length (items m)) <= nMaxSize m).
Proof.
  destruct (run_refines ops (CacheMap_new max) (CacheMap_new_ok max)) as (as_ & m & E & Es). exists as_, m. split_and!; [done..|].
  intros Hk%keeps_max_fits. change (spec_of (CacheMap_new max)) with (max, @nil (K * V)) in Es. rewrite Es in Hk. unfold max_fits in Hk. cbn [fst snd spec_of] in Hk. lia.
Qed.

(** Calls that never touch the maximum keep it. *)
Lemma keeps_max_run max ops : 0 < max -> Forall (fun o => match o with OSetMaxSize _ => False | _ => True end) ops ->
  forall l, Z.of_nat (length l) <= max -> keeps_max (max, l) ops = true.
Proof.
  intros Hmax Hops. induction Hops as [|o ops Ho _ IH]; intros l Hl; cbn [keeps_max]; unfold max_fits; cbn [fst snd]; rewrite (proj2 (Z.ltb_lt 0 max)), (proj2 (Z.leb_le _ max)) by done; [done|].
  cbn [andb]. destruct o; cbn [spec_exec snd] in *; try done; try (by apply IH); apply IH; [by apply spec_insert_length| |cbn; lia].
  unfold spec_erase. pose proof (length_filter (fun p : K * V => p.1 <> k) l). lia.
Qed.

(** A map with the maximum 0, as the default constructor makes it, and every map with more items than its maximum, grows with every new key. *)
Theorem cache_map_unbounded m k v : cache_ok m -> HasKey m k = false -> nMaxSize m = 0 \/ nMaxSize m < Z.of_nat (length (items m)) ->
  items (Insert m k v).2 = (k, v) :: items m /\ nMaxSize (Insert m k v).2 = nMaxSize m.
Proof.
  intros Hm Hk Hmax. destruct (Insert_ok m k v Hm) as (_ & -> & -> & _). rewrite HasKey_spec in Hk by done. unfold spec_insert. rewrite Hk. split; [|done].
  destruct (Z.eqb_spec (Z.of_nat (length (items m))) (nMaxSize m)) as [E|]; [|done]. destruct (items m) eqn:Ei; [done|]. cbn [length] in *. lia.
Qed.
End Map.
Arguments CacheMap _ _ {_ _}.
Arguments operation _ _ : clear implicits.

Lemma cache_map_keeps_newest_witness : exists answers m,
  run (CacheMap_new 2) [OInsert 1 10; OInsert 2 20; OInsert 1 11; OInsert 3 30; OHasKey 1; OGet 2; OSetMaxSize 3; OInsert 4 40; OGetSize] = Some (answers, m) /\
  answers = [AnsBool true; AnsBool true; AnsBool false; AnsBool true; AnsBool false; AnsValue (Some 20); AnsNone; AnsBool true; AnsSize 3] /\
  Z.of_nat (length (items m)) <= nMaxSize m.
Proof.
  destruct (cache_map_keeps_newest 2 [OInsert 1 10; OInsert 2 20; OInsert 1 11; OInsert 3 30; OHasKey 1; OGet 2; OSetMaxSize 3; OInsert 4 40; OGetSize]) as (answers & m & E & Es & Hs).
  exists answers, m. split_and!; [exact E| |apply Hs; vm_compute; reflexivity]. vm_compute in Es. injection Es as <- _. reflexivity.
Defined.

(** A map of two items whose maximum is set to one holds three items after one more is added. *)
Lemma cache_map_shrunk_example :
  (fun r => (items r.2, nMaxSize r.2)) <$> run (CacheMap_new 2) [OInsert 1 10; OInsert 2 20; OSetMaxSize 1; OInsert 3 30] = Some ([(3, 30); (2, 20); (1, 10)], 1).
Proof. vm_compute. reflexivity. Qed.

(** ** [CacheMultiMap] *)

Section Multi.
Context {K V : Type} `{Countable K}.
(** The order of the values, [operator<]. *)
Variable lt : V -> V -> bool.

(** [std::map<V, list_it>]: sorted by [lt]; two values are the same key when neither is less. *)
Abbreviation it_map := (list (V * nat)).
Fixpoint im_find (v : V) (m : it_map) : option nat :=
  match m with
  | [] => None
  | (w, it) :: m => if lt w v then im_find v m else if lt v w then None else Some it
  end.
Fixpoint im_emplace (v : V) (it : nat) (m : it_map) : it_map :=
  match m with
  | [] => [(v, it)]
  | (w, it') :: m' => if lt w v then (w, it') :: im_emplace v it m' else if lt v w then (v, it) :: m else m
  end.
Fixpoint im_erase (v : V) (m : it_map) : it_map :=
  match m with
  | [] => []
  | (w, it) :: m' => if lt w v then (w, it) :: im_erase v m' else if lt v w then m else m'
  end.

Record CacheMultiMap := mkMultiMap { mm_nMaxSize : Z; mm_listItems : list (CacheItem K V); mm_mapIndex : gmap K it_map; mm_next : nat }.
Definition MultiMap_new (max : Z) : CacheMultiMap := mkMultiMap max [] ∅ 0.
Definition mm_Clear (m : CacheMultiMap) : CacheMultiMap := mkMultiMap (mm_nMaxSize m) [] ∅ (mm_next m).
Definition mm_SetMaxSize (m : CacheMultiMap) (max : Z) : CacheMultiMap := mkMultiMap max (mm_listItems m) (mm_mapIndex m) (mm_next m).
Definition mm_GetSize (m : CacheMultiMap) : Z := Z.of_nat (length (mm_listItems m)).
(** [erase] of a value of a key, and of the key when it has no values left. *)
Definition index_erase (k : K) (v : V) (index : gmap K it_map) : gmap K it_map :=
  match index !! k with
  | None => index
  | Some mapIt => match im_erase v mapIt with [] => delete k index | mapIt => <[k := mapIt]> index end
  end.
Definition mm_PruneLast (m : CacheMultiMap) : CacheMultiMap :=
  match last (mm_listItems m) with
  | None => m
  | Some item => mkMultiMap (mm_nMaxSize m) (removelast (mm_listItems m)) (index_erase (key item) (value item) (mm_mapIndex m)) (mm_next m)
  end.
(** [None]: [mapIt] refers to a map that [PruneLast] has destroyed. *)
Definition mm_Insert (m : CacheMultiMap) (k : K) (v : V) : option (bool * CacheMultiMap) :=
  let index := match mm_mapIndex m !! k with None => <[k := []]> (mm_mapIndex m) | Some _ => mm_mapIndex m end in
  let m := mkMultiMap (mm_nMaxSize m) (mm_listItems m) index (mm_next m) in
  match im_find v (default [] (index !! k)) with
  | Some _ => Some (false, m)
  | None =>
      let m := if Z.of_nat (length (mm_listItems m)) =? mm_nMaxSize m then mm_PruneLast m else m in
      let it := mm_next m in
      mapIt ← mm_mapIndex m !! k;
      Some (true, mkMultiMap (mm_nMaxSize m) (mkItem it k v :: mm_listItems m) (<[k := im_emplace v it mapIt]> (mm_mapIndex m)) (S it))
  end.
Definition mm_HasKey (m : CacheMultiMap) (k : K) : bool := bool_decide (is_Some (mm_mapIndex m !! k)).
(** The outer [None] is an iterator that points nowhere: a key without values, or a node that is gone. *)
Definition mm_Get (m : CacheMultiMap) (k : K) : option (option V) :=
  match mm_mapIndex m !! k with
  | None => Some None
  | Some mapIt => '(_, it) ← head mapIt; item ← deref it (mm_listItems m); Some (Some (value item))
  end.
Fixpoint deref_all (its : it_map) (l : list (CacheItem K V)) : option (list V) :=
  match its with
  | [] => Some []
  | (_, it) :: its => item ← deref it l; vs ← deref_all its l; Some (value item :: vs)
  end.
(** The vector that [GetAll] fills; it is left empty when it returns [false]. *)
Definition mm_GetAll (m : CacheMultiMap) (k : K) : option (list V) :=
  match mm_mapIndex m !! k with None => Some [] | Some mapIt => deref_all mapIt (mm_listItems m) end.
Definition mm_GetKeys (m : CacheMultiMap) : list K := (map_to_list (mm_mapIndex m)).*1.
Definition mm_Erase_key (m : CacheMultiMap) (k : K) : CacheMultiMap :=
  match mm_mapIndex m !! k with
  | None => m
  | Some mapIt => mkMultiMap (mm_nMaxSize m) (foldl (fun l p => list_erase p.2 l) (mm_listItems m) mapIt) (delete k (mm_mapIndex m)) (mm_next m)
  end.
Definition mm_Erase (m : CacheMultiMap) (k : K) (v : V) : CacheMultiMap :=
  match mm_mapIndex m !! k with
  | None => m
  | Some mapIt =>
      match im_find v mapIt with
      | None => m
      | Some it => mkMultiMap (mm_nMaxSize m) (list_erase it (mm_listItems m)) (index_erase k v (mm_mapIndex m)) (mm_next m)
      end
  end.
Definition mm_RebuildIndex (m : CacheMultiMap) : CacheMultiMap :=
  mkMultiMap (mm_nMaxSize m) (mm_listItems m)
    (foldl (fun idx n => <[key n := im_emplace (value n) (node_it n) (default [] (idx !! key n))]> idx) ∅ (mm_listItems m)) (mm_next m).
(** The copy operations, and what is written and read again: the nodes are new. *)
Definition mm_copy (other : CacheMultiMap) : CacheMultiMap :=
  let items := map (fun n => (key n, value n)) (mm_listItems other) in
  mm_RebuildIndex (mkMultiMap (mm_nMaxSize other) (renumber 0 items) ∅ (length items)).

(** When a full map drops the only other value of the key that is added, the reference to the values of that key dangles. *)
Lemma mm_Insert_dangling m k v item mapIt :
  Z.of_nat (length (mm_listItems m)) = mm_nMaxSize m -> last (mm_listItems m) = Some item -> key item = k ->
  mm_mapIndex m !! k = Some mapIt -> im_erase (value item) mapIt = [] -> im_find v mapIt = None -> mm_Insert m k v = None.
Proof.
  intros Hsize Hlast Hk Hidx Her Hf. unfold mm_Insert. rewrite Hidx. cbn [mm_mapIndex mm_listItems mm_nMaxSize]. rewrite Hidx. cbn [default from_option]. unfold Datatypes.id.
  rewrite Hf, (proj2 (Z.eqb_eq _ _) Hsize). unfold mm_PruneLast. cbn [mm_mapIndex mm_listItems mm_nMaxSize]. rewrite Hlast. cbn [mm_mapIndex]. subst k.
  unfold index_erase. rewrite Hidx, Her, lookup_delete_eq. done.
Qed.

(** Where no value is less than another, a key never has more than one value. *)
Lemma mm_Insert_one_class m k v v' mapIt : (forall a b, lt a b = false) -> mm_mapIndex m !! k = Some ((v', mapIt) :: []) ->
  mm_Insert m k v = Some (false, m).
Proof.
  intros Hlt Hidx. unfold mm_Insert. rewrite Hidx, Hidx. cbn [default from_option Datatypes.id im_find]. rewrite !Hlt. by destruct m.
Qed.
End Multi.
Arguments CacheMultiMap _ _ {_ _}.
