(* ===== verification/GovernanceObject.v ===== *)
(** Votes of smartnodes on governance objects ([governance/governance-vote.h], [governance/governance-votedb.cpp],
    [governance/governance-object.cpp]): the votes, the file of votes an object keeps, the tally and the flags computed from it. *)

From stdpp Require Import prelude gmap fin_maps sorting.
From Stdlib Require Import ZArith Lia.
From S2P Require Import Prelude Serialize Chain ActiveChain Hashes Opcodes Transaction Script Numbers StrEncodings ProTx SmartnodeList Spork TxFormat.

Open Scope Z_scope.

(** ** Votes *)

Definition VOTE_OUTCOME_NONE : Z := 0.
Definition VOTE_OUTCOME_YES : Z := 1.
Definition VOTE_OUTCOME_NO : Z := 2.
Definition VOTE_OUTCOME_ABSTAIN : Z := 3.
Definition VOTE_SIGNAL_NONE : Z := 0.
Definition VOTE_SIGNAL_FUNDING : Z := 1.
Definition VOTE_SIGNAL_VALID : Z := 2.
Definition VOTE_SIGNAL_DELETE : Z := 3.
Definition VOTE_SIGNAL_ENDORSED : Z := 4.
Definition MAX_SUPPORTED_VOTE_SIGNAL : Z := VOTE_SIGNAL_ENDORSED.

Record CGovernanceVote := mkVote {
  nVoteSignal : Z;
  smartnodeOutpoint : COutPoint;
  nParentHash : Z;
  nVoteOutcome : Z;
  vote_nTime : Z;
  vote_vchSig : list Z
}.
#[export] Instance CGovernanceVote_eq_dec : EqDecision CGovernanceVote.
Proof. solve_decision. Defined.

(** The enumerations have no negative values: they are stored as [unsigned int]. *)
Definition GetSignal (v : CGovernanceVote) : Z := u32 (nVoteSignal v).
Definition GetOutcome (v : CGovernanceVote) : Z := u32 (nVoteOutcome v).
Definition SetTime (v : CGovernanceVote) (nTimeIn : Z) : CGovernanceVote :=
  mkVote (nVoteSignal v) (smartnodeOutpoint v) (nParentHash v) (nVoteOutcome v) nTimeIn (vote_vchSig v).

(** [hash.ToString()], and [ToStringShort] of an outpoint. *)
Definition uint256_ToString (h : Z) : list Z := HexStr (rev (le_bytes 32 h)) false.
Definition ToStringShort (o : COutPoint) : list Z := take 64 (uint256_ToString o.1) ++ [45] ++ decimal o.2.

(** [operator<] of votes: each further comparison asks for equality where the one before asked for the opposite. *)
Definition outpoint_lt (a b : COutPoint) : bool := uint256_lt a.1 b.1 || (bool_decide (a.1 = b.1) && (a.2 <? b.2)).
Definition vote_lt (vote1 vote2 : CGovernanceVote) : bool :=
  let fResult := outpoint_lt (smartnodeOutpoint vote1) (smartnodeOutpoint vote2) in
  if negb fResult then false
  else
    let fResult := bool_decide (smartnodeOutpoint vote1 = smartnodeOutpoint vote2) in
    let fResult := fResult && uint256_lt (nParentHash vote1) (nParentHash vote2) in
    if negb fResult then false
    else
      let fResult := fResult && bool_decide (nParentHash vote1 = nParentHash vote2) in
      let fResult := fResult && (nVoteOutcome vote1 <? nVoteOutcome vote2) in
      if negb fResult then false
      else
        let fResult := fResult && bool_decide (nVoteOutcome vote1 = nVoteOutcome vote2) in
        let fResult := fResult && bool_decide (nVoteSignal vote1 = nVoteSignal vote2) in
        if negb fResult then false
        else
          let fResult := fResult && bool_decide (nVoteSignal vote1 = nVoteSignal vote2) in
          fResult && (vote_nTime vote1 <? vote_nTime vote2).

Lemma outpoint_lt_irrefl o : outpoint_lt o o = false.
Proof. unfold outpoint_lt, uint256_lt. rewrite memcmp_lt_irrefl, Z.ltb_irrefl. apply andb_false_r. Qed.

(** No vote is less than another one. *)
Theorem vote_lt_false v w : vote_lt v w = false.
Proof.
  unfold vote_lt. destruct (outpoint_lt (smartnodeOutpoint v) (smartnodeOutpoint w)) eqn:E; [|done]. cbn [negb].
  rewrite bool_decide_eq_false_2; [done|]. intros Eo. rewrite Eo, outpoint_lt_irrefl in E. done.
Qed.

(** The manager of local data about the smartnodes ([smartnode/smartnode-meta.cpp]). *)
Record CSmartnodeMetaInfo := mkMetaInfo { nLastDsq : Z; nMixingTxCount : Z; mapGovernanceObjectsVotedOn : gmap Z Z }.
Record CSmartnodeMetaMan := mkMetaMan { metaInfos : gmap Z CSmartnodeMetaInfo; vecDirtyGovernanceObjectHashes : list Z; nDsqCount : Z }.
Definition MetaInfo_new : CSmartnodeMetaInfo := mkMetaInfo 0 0 ∅.
Definition MetaMan_new : CSmartnodeMetaMan := mkMetaMan ∅ [] 0.
(** [GetMetaInfo] creates what is not there; [f] is what the caller does with the object it points to. *)
Definition with_meta (m : CSmartnodeMetaMan) (proTxHash : Z) (f : CSmartnodeMetaInfo -> CSmartnodeMetaInfo) : CSmartnodeMetaMan :=
  mkMetaMan (<[proTxHash := f (default MetaInfo_new (metaInfos m !! proTxHash))]> (metaInfos m)) (vecDirtyGovernanceObjectHashes m) (nDsqCount m).
Definition AllowMixing (m : CSmartnodeMetaMan) (proTxHash : Z) : CSmartnodeMetaMan :=
  let count := s64 (nDsqCount m + 1) in
  let m := with_meta m proTxHash (fun i => mkMetaInfo count 0 (mapGovernanceObjectsVotedOn i)) in
  mkMetaMan (metaInfos m) (vecDirtyGovernanceObjectHashes m) count.
Definition DisallowMixing (m : CSmartnodeMetaMan) (proTxHash : Z) : CSmartnodeMetaMan :=
  with_meta m proTxHash (fun i => mkMetaInfo (nLastDsq i) (s32 (nMixingTxCount i + 1)) (mapGovernanceObjectsVotedOn i)).
Definition AddGovernanceVote (m : CSmartnodeMetaMan) (proTxHash hash : Z) : bool * CSmartnodeMetaMan :=
  (true, with_meta m proTxHash (fun i =>
     mkMetaInfo (nLastDsq i) (nMixingTxCount i)
       (<[hash := s32 (default 0 (mapGovernanceObjectsVotedOn i !! hash) + 1)]> (mapGovernanceObjectsVotedOn i)))).
Definition RemoveGovernanceObject (m : CSmartnodeMetaMan) (hash : Z) : CSmartnodeMetaMan :=
  mkMetaMan (fmap (fun i => mkMetaInfo (nLastDsq i) (nMixingTxCount i) (delete hash (mapGovernanceObjectsVotedOn i))) (metaInfos m))
    (vecDirtyGovernanceObjectHashes m) (nDsqCount m).
Definition GetAndClearDirtyGovernanceObjectHashes (m : CSmartnodeMetaMan) : list Z * CSmartnodeMetaMan :=
  (vecDirtyGovernanceObjectHashes m, mkMetaMan (metaInfos m) [] (nDsqCount m)).
Definition MetaMan_Clear (m : CSmartnodeMetaMan) : CSmartnodeMetaMan := mkMetaMan ∅ [] (nDsqCount m).

(** What happened to a request ([CGovernanceException]); the text is left out. *)
Inductive exception_type :=
| GOVERNANCE_EXCEPTION_NONE | GOVERNANCE_EXCEPTION_WARNING | GOVERNANCE_EXCEPTION_PERMANENT_ERROR | GOVERNANCE_EXCEPTION_TEMPORARY_ERROR.
Record CGovernanceException := mkException { eType : exception_type; nNodePenalty : Z }.
Definition Exception_new : CGovernanceException := mkException GOVERNANCE_EXCEPTION_NONE 0.

(** ** The file of votes of an object *)

(** Nodes of the list, with their addresses. *)
Abbreviation vote_node := (nat * CGovernanceVote)%type.
Record CGovernanceObjectVoteFile := mkVoteFile {
  nMemoryVotes : Z;
  listVotes : list vote_node;
  mapVoteIndex : gmap Z nat;
  next_node : nat
}.
Definition VoteFile_new : CGovernanceObjectVoteFile := mkVoteFile 0 [] ∅ 0.

Record vote_instance_t := mkInstance { eOutcome : Z; inst_nTime : Z; nCreationTime : Z }.
Definition instance_default : vote_instance_t := mkInstance VOTE_OUTCOME_NONE 0 0.

Definition GOVERNANCE_OBJECT_UNKNOWN : Z := 0.
Definition GOVERNANCE_OBJECT_PROPOSAL : Z := 1.
Definition GOVERNANCE_OBJECT_TRIGGER : Z := 2.
Definition GOVERNANCE_PROPOSAL_FEE_TX : Z := 5 * COIN.
Definition GOVERNANCE_FEE_CONFIRMATIONS : Z := 6.
Definition GOVERNANCE_MIN_RELAY_FEE_CONFIRMATIONS : Z := 1.
Definition GOVERNANCE_UPDATE_MIN : Z := 60 * 60.
Definition GOVERNANCE_DELETION_DELAY : Z := 10 * 60.
Definition GOVERNANCE_ORPHAN_EXPIRATION_TIME : Z := 10 * 60.

Record CGovernanceObject := mkObject {
  nObjectType : Z;
  nHashParent : Z;
  nRevision : Z;
  obj_nTime : Z;
  nDeletionTime : Z;
  nCollateralHash : Z;
  vchData : list Z;
  obj_smartnodeOutpoint : COutPoint;
  obj_vchSig : list Z;
  fCachedLocalValidity : bool;
  fCachedFunding : bool;
  fCachedValid : bool;
  fCachedDelete : bool;
  fCachedEndorsed : bool;
  fDirtyCache : bool;
  fExpired : bool;
  fUnparsable : bool;
  mapCurrentMNVotes : gmap COutPoint (gmap Z vote_instance_t);
  fileVotes : CGovernanceObjectVoteFile
}.

Definition set_votes (o : CGovernanceObject) (votes : gmap COutPoint (gmap Z vote_instance_t)) (file : CGovernanceObjectVoteFile) (dirty : bool) : CGovernanceObject :=
  let '(mkObject a b c d e f g h i j k l m n _ p q _ _) := o in mkObject a b c d e f g h i j k l m n dirty p q votes file.
Definition set_sentinel (o : CGovernanceObject) (deletion : Z) (funding valid delete endorsed dirty : bool) : CGovernanceObject :=
  let '(mkObject a b c d _ f g h i j _ _ _ _ _ p q r s) := o in mkObject a b c d deletion f g h i j funding valid delete endorsed dirty p q r s.
Definition set_local_validity (o : CGovernanceObject) (v : bool) : CGovernanceObject :=
  let '(mkObject a b c d e f g h i _ k l m n o p q r s) := o in mkObject a b c d e f g h i v k l m n o p q r s.
Definition set_type (o : CGovernanceObject) (t : Z) (unparsable : bool) : CGovernanceObject :=
  let '(mkObject _ b c d e f g h i j k l m n o p _ r s) := o in mkObject t b c d e f g h i j k l m n o p unparsable r s.
Definition SetExpired (o : CGovernanceObject) : CGovernanceObject :=
  let '(mkObject a b c d e f g h i j k l m n o _ q r s) := o in mkObject a b c d e f g h i j k l m n o true q r s.
Definition PrepareDeletion (o : CGovernanceObject) (nDeletionTime_ : Z) : CGovernanceObject :=
  set_sentinel o (if nDeletionTime o =? 0 then nDeletionTime_ else nDeletionTime o) (fCachedFunding o) (fCachedValid o) true (fCachedEndorsed o) (fDirtyCache o).

Section Votes.
(** What the unset buffers of hash objects hold, the calls into the signature libraries, and the parameters of the network. *)
Variables junk junk' : stream.
Variable ecdsa_recover : Z -> bool -> list Z -> stream -> option (list Z).
Variable bls_verify : CBLSPublicKey -> stream -> list Z -> bool.
Context `{PH : PropertyHash}.
Variable nCollaterals : SmartnodeCollaterals.
Variable nGovernanceMinQuorum : Z.

(** The list of smartnodes at the tip, [GetAdjustedTime()], and whether [SPORK_6_NEW_SIGS] is active. *)
Record vote_env := mkEnv { mnList : CDeterministicMNList; adjusted_time : Z; new_sigs : bool }.

Definition Vote_GetHash (v : CGovernanceVote) : Z :=
  le_value (Hash junk [outpoint_Serialize (smartnodeOutpoint v); [0]; ser_writedata 4 0xffffffff; le_bytes 32 (nParentHash v);
                       ser_writedata 4 (nVoteSignal v); ser_writedata 4 (nVoteOutcome v); ser_writedata 8 (vote_nTime v)]).
Definition Vote_GetSignatureHash (v : CGovernanceVote) : stream :=
  Hash junk [outpoint_Serialize (smartnodeOutpoint v); le_bytes 32 (nParentHash v); ser_writedata 4 (nVoteOutcome v);
             ser_writedata 4 (nVoteSignal v); ser_writedata 8 (vote_nTime v)].
Definition Vote_strMessage (v : CGovernanceVote) : list Z :=
  ToStringShort (smartnodeOutpoint v) ++ [124] ++ uint256_ToString (nParentHash v) ++ [124] ++ i64tostr (nVoteSignal v) ++ [124] ++
  i64tostr (nVoteOutcome v) ++ [124] ++ i64tostr (vote_nTime v).
Definition Vote_CheckSignature_keyID (e : vote_env) (v : CGovernanceVote) (keyID : keyid) : bool :=
  if new_sigs e then
    VerifyHash junk junk' ecdsa_recover (Vote_GetSignatureHash v) keyID (vote_vchSig v)
    || VerifyMessage junk junk' ecdsa_recover keyID (vote_vchSig v) (Vote_strMessage v)
  else VerifyMessage junk junk' ecdsa_recover keyID (vote_vchSig v) (Vote_strMessage v).
Definition Vote_CheckSignature_BLS (v : CGovernanceVote) (pubKey : CBLSPublicKey) : bool :=
  bls_verify pubKey (Vote_GetSignatureHash v) (vote_vchSig v).
Definition Vote_IsValid (e : vote_env) (v : CGovernanceVote) (useVotingKey : bool) : bool :=
  if adjusted_time e + 60 * 60 <? vote_nTime v then false
  else if MAX_SUPPORTED_VOTE_SIGNAL <? nVoteSignal v then false
  else if 3 <? nVoteOutcome v then false
  else
    match GetMNByCollateral (mnList e) (smartnodeOutpoint v) with
    | None => false
    | Some dmn =>
        if useVotingKey then Vote_CheckSignature_keyID e v (keyIDVoting (pdmnState dmn))
        else Vote_CheckSignature_BLS v (pubKeyOperator (pdmnState dmn))
    end.

(** *** [CGovernanceObjectVoteFile] *)
Definition HasVote (f : CGovernanceObjectVoteFile) (nHash : Z) : bool := bool_decide (is_Some (mapVoteIndex f !! nHash)).
Definition GetVotes (f : CGovernanceObjectVoteFile) : list CGovernanceVote := (listVotes f).*2.
(** [SerializeVoteToStream]: the vote it writes; the outer [None] is an iterator that points nowhere. *)
Definition FindVote (f : CGovernanceObjectVoteFile) (nHash : Z) : option (option CGovernanceVote) :=
  match mapVoteIndex f !! nHash with
  | None => Some None
  | Some it => n ← List.find (fun n => (n.1 =? it)%nat) (listVotes f); Some (Some n.2)
  end.
Definition erase_node (f : CGovernanceObjectVoteFile) (n : vote_node) : CGovernanceObjectVoteFile :=
  mkVoteFile (nMemoryVotes f - 1) (filter (fun x => x.1 <> n.1) (listVotes f)) (delete (Vote_GetHash n.2) (mapVoteIndex f)) (next_node f).
(** The loop over the list that erases the votes of which [P] holds. *)
Definition remove_if (P : CGovernanceVote -> bool) (f : CGovernanceObjectVoteFile) : CGovernanceObjectVoteFile :=
  foldl (fun f n => if P n.2 then erase_node f n else f) f (listVotes f).
Definition older_vote (vote v : CGovernanceVote) : bool :=
  bool_decide (smartnodeOutpoint v = smartnodeOutpoint vote) && (nParentHash v =? nParentHash vote) && (GetSignal v =? GetSignal vote) &&
  (vote_nTime v <? vote_nTime vote).
Definition RemoveOldVotes (f : CGovernanceObjectVoteFile) (vote : CGovernanceVote) : CGovernanceObjectVoteFile := remove_if (older_vote vote) f.
Definition AddVote (f : CGovernanceObjectVoteFile) (vote : CGovernanceVote) : CGovernanceObjectVoteFile :=
  let nHash := Vote_GetHash vote in
  if HasVote f nHash then f
  else
    let it := next_node f in
    RemoveOldVotes (mkVoteFile (nMemoryVotes f + 1) ((it, vote) :: listVotes f)
      (match mapVoteIndex f !! nHash with Some _ => mapVoteIndex f | None => <[nHash := it]> (mapVoteIndex f) end) (S it)) vote.
Definition RemoveVotesFromSmartnode (f : CGovernanceObjectVoteFile) (o : COutPoint) : CGovernanceObjectVoteFile :=
  remove_if (fun v => bool_decide (smartnodeOutpoint v = o)) f.
Definition invalid_vote (e : vote_env) (o : COutPoint) (fProposal : bool) (v : CGovernanceVote) : bool :=
  bool_decide (smartnodeOutpoint v = o) && negb (Vote_IsValid e v (fProposal && (GetSignal v =? VOTE_SIGNAL_FUNDING))).
Definition File_RemoveInvalidVotes (e : vote_env) (f : CGovernanceObjectVoteFile) (o : COutPoint) (fProposal : bool)
  : gset Z * CGovernanceObjectVoteFile :=
  (list_to_set (map Vote_GetHash (filter (fun v => invalid_vote e o fProposal v = true) (GetVotes f))), remove_if (invalid_vote e o fProposal) f).
(** The loop of [RebuildIndex]: a vote that is there already is dropped. *)
Definition rebuild_step (f : CGovernanceObjectVoteFile) (n : vote_node) : CGovernanceObjectVoteFile :=
  match mapVoteIndex f !! Vote_GetHash n.2 with
  | None => mkVoteFile (nMemoryVotes f + 1) (listVotes f) (<[Vote_GetHash n.2 := n.1]> (mapVoteIndex f)) (next_node f)
  | Some _ => mkVoteFile (nMemoryVotes f) (filter (fun x => x.1 <> n.1) (listVotes f)) (mapVoteIndex f) (next_node f)
  end.
Definition File_RebuildIndex (f : CGovernanceObjectVoteFile) : CGovernanceObjectVoteFile :=
  foldl rebuild_step (mkVoteFile 0 (listVotes f) ∅ (next_node f)) (listVotes f).

(** *** [CGovernanceObject] *)

Definition Object_GetHash (o : CGovernanceObject) : Z :=
  le_value (Hash junk [le_bytes 32 (nHashParent o); ser_writedata 4 (nRevision o); ser_writedata 8 (obj_nTime o);
                       string_Serialize (HexStr (vchData o) false); outpoint_Serialize (obj_smartnodeOutpoint o); [0]; ser_writedata 4 0xffffffff;
                       string_Serialize (obj_vchSig o)]).
Definition Object_GetSignatureHash (o : CGovernanceObject) : stream :=
  Hash junk [le_bytes 32 (nHashParent o); ser_writedata 4 (nRevision o); ser_writedata 8 (obj_nTime o); le_bytes 32 (nCollateralHash o);
             string_Serialize (vchData o); ser_writedata 4 (nObjectType o); outpoint_Serialize (obj_smartnodeOutpoint o)].

(** [ProcessVote]: the result, what goes wrong, whether the vote is remembered as an invalid one ([AddInvalidVote]), the object, the local data. *)
Record vote_result := mkVoteResult { vr_ok : bool; vr_exception : CGovernanceException; vr_invalid : bool }.
Definition reject (t : exception_type) (penalty : Z) : vote_result := mkVoteResult false (mkException t penalty) false.

(** The instance of a smartnode's vote on a signal, which [emplace] creates where there is none. *)
Definition emplace_instance (r : gmap Z vote_instance_t) (signal : Z) : gmap Z vote_instance_t :=
  match r !! signal with Some _ => r | None => <[signal := instance_default]> r end.
Definition Object_ProcessVote (e : vote_env) (fRateChecksEnabled : bool) (o : CGovernanceObject) (meta : CSmartnodeMetaMan) (vote : CGovernanceVote)
  : vote_result * CGovernanceObject * CSmartnodeMetaMan :=
  if HasVote (fileVotes o) (Vote_GetHash vote) then (reject GOVERNANCE_EXCEPTION_NONE 0, o, meta)
  else
    match GetMNByCollateral (mnList e) (smartnodeOutpoint vote) with
    | None => (reject GOVERNANCE_EXCEPTION_PERMANENT_ERROR 20, o, meta)
    | Some dmn =>
        let op := smartnodeOutpoint vote in
        let rec := default ∅ (mapCurrentMNVotes o !! op) in
        let store (r : gmap Z vote_instance_t) := set_votes o (<[op := r]> (mapCurrentMNVotes o)) (fileVotes o) (fDirtyCache o) in
        let eSignal := GetSignal vote in
        if eSignal =? VOTE_SIGNAL_NONE then (reject GOVERNANCE_EXCEPTION_WARNING 0, store rec, meta)
        else if MAX_SUPPORTED_VOTE_SIGNAL <? eSignal then (reject GOVERNANCE_EXCEPTION_PERMANENT_ERROR 20, store rec, meta)
        else
          let rec := emplace_instance rec eSignal in
          let o1 := store rec in
          let inst := default instance_default (rec !! eSignal) in
          if vote_nTime vote <? nCreationTime inst then (reject GOVERNANCE_EXCEPTION_NONE 0, o1, meta)
          else if (vote_nTime vote =? nCreationTime inst) && (GetOutcome vote <? eOutcome inst) then (reject GOVERNANCE_EXCEPTION_NONE 0, o1, meta)
          else
            let nNow := adjusted_time e in
            if fRateChecksEnabled && (nNow - inst_nTime inst <? GOVERNANCE_UPDATE_MIN) then (reject GOVERNANCE_EXCEPTION_TEMPORARY_ERROR 0, o1, meta)
            else
              let nVoteTimeUpdate := if fRateChecksEnabled then nNow else inst_nTime inst in
              let onlyVotingKeyAllowed := (nObjectType o =? GOVERNANCE_OBJECT_PROPOSAL) && (GetSignal vote =? VOTE_SIGNAL_FUNDING) in
              if negb (Vote_IsValid e vote onlyVotingKeyAllowed) then
                (mkVoteResult false (mkException GOVERNANCE_EXCEPTION_PERMANENT_ERROR 20) true, o1, meta)
              else
                let '(added, meta) := AddGovernanceVote meta (proTxHash dmn) (nParentHash vote) in
                if negb added then (reject GOVERNANCE_EXCEPTION_PERMANENT_ERROR 0, o1, meta)
                else
                  (mkVoteResult true Exception_new false,
                   set_votes o1 (<[op := <[eSignal := mkInstance (GetOutcome vote) nVoteTimeUpdate (vote_nTime vote)]> rec]> (mapCurrentMNVotes o1))
                     (AddVote (fileVotes o1) vote) true, meta)
    end.

Definition HasMNByCollateral (l : CDeterministicMNList) (op : COutPoint) : bool := bool_decide (is_Some (GetMNByCollateral l op)).
Definition ClearSmartnodeVotes (e : vote_env) (o : CGovernanceObject) : CGovernanceObject :=
  foldl (fun o p => if negb (HasMNByCollateral (mnList e) p.1)
                    then set_votes o (delete p.1 (mapCurrentMNVotes o)) (RemoveVotesFromSmartnode (fileVotes o) p.1) true
                    else o) o (map_to_list (mapCurrentMNVotes o)).

(** A vote of the tally, written out to compute its hash. *)
Definition instance_hash (o : CGovernanceObject) (op : COutPoint) (signal : Z) (i : vote_instance_t) : Z :=
  Vote_GetHash (mkVote (s32 signal) op (Object_GetHash o) (s32 (eOutcome i)) (nCreationTime i) []).
Definition Object_RemoveInvalidVotes (e : vote_env) (o : CGovernanceObject) (op : COutPoint) : gset Z * CGovernanceObject :=
  match mapCurrentMNVotes o !! op with
  | None => (∅, o)
  | Some rec =>
      let '(removed, file) := File_RemoveInvalidVotes e (fileVotes o) op (nObjectType o =? GOVERNANCE_OBJECT_PROPOSAL) in
      if bool_decide (removed = ∅) then (∅, set_votes o (mapCurrentMNVotes o) file (fDirtyCache o))
      else
        let rec := filter (fun p => instance_hash o op p.1 p.2 ∉ removed) rec in
        (removed, set_votes o (if bool_decide (rec = ∅) then delete op (mapCurrentMNVotes o) else <[op := rec]> (mapCurrentMNVotes o)) file true)
  end.

Definition matching (signal outcome : Z) (r : gmap Z vote_instance_t) : bool :=
  match r !! signal with Some i => eOutcome i =? outcome | None => false end.
Definition CountMatchingVotes (o : CGovernanceObject) (signal outcome : Z) : Z :=
  Z.of_nat (length (filter (fun p => matching signal outcome p.2 = true) (map_to_list (mapCurrentMNVotes o)))).
Definition GetYesCount (o : CGovernanceObject) (signal : Z) : Z := CountMatchingVotes o signal VOTE_OUTCOME_YES.
Definition GetNoCount (o : CGovernanceObject) (signal : Z) : Z := CountMatchingVotes o signal VOTE_OUTCOME_NO.
Definition GetAbstainCount (o : CGovernanceObject) (signal : Z) : Z := CountMatchingVotes o signal VOTE_OUTCOME_ABSTAIN.
Definition GetAbsoluteYesCount (o : CGovernanceObject) (signal : Z) : Z := GetYesCount o signal - GetNoCount o signal.
Definition GetAbsoluteNoCount (o : CGovernanceObject) (signal : Z) : Z := GetNoCount o signal - GetYesCount o signal.
Definition GetCurrentMNVotes (o : CGovernanceObject) (op : COutPoint) : option (gmap Z vote_instance_t) := mapCurrentMNVotes o !! op.

Definition UpdateSentinelVariables (e : vote_env) (o : CGovernanceObject) : CGovernanceObject :=
  let nMnCount := GetValidMNsCount nCollaterals (mnList e) in
  if nMnCount =? 0 then o
  else
    let nAbsVoteReq := Z.max nGovernanceMinQuorum (Z.quot nMnCount 10) in
    let nAbsDeleteReq := Z.max nGovernanceMinQuorum (Z.quot (2 * nMnCount) 3) in
    let funding := nAbsVoteReq <=? GetAbsoluteYesCount o VOTE_SIGNAL_FUNDING in
    let now_deleted := (nAbsDeleteReq <=? GetAbsoluteYesCount o VOTE_SIGNAL_DELETE) && negb (fCachedDelete o) in
    set_sentinel o (if now_deleted && (nDeletionTime o =? 0) then adjusted_time e else nDeletionTime o)
      funding (negb (nAbsVoteReq <=? GetAbsoluteNoCount o VOTE_SIGNAL_VALID)) (now_deleted || fCachedDelete o)
      (nAbsVoteReq <=? GetAbsoluteYesCount o VOTE_SIGNAL_ENDORSED) false.

(** ** The file of votes is a list with an index *)

#[local] Opaque Vote_GetHash Object_GetHash.

Record file_ok (f : CGovernanceObjectVoteFile) : Prop := {
  fok_count : nMemoryVotes f = Z.of_nat (length (listVotes f));
  fok_nodes : NoDup (listVotes f).*1;
  fok_next : Forall (fun n => (n.1 < next_node f)%nat) (listVotes f);
  fok_index : forall h it, mapVoteIndex f !! h = Some it <-> exists v, (it, v) ∈ listVotes f /\ Vote_GetHash v = h
}.
Lemma VoteFile_new_ok : file_ok VoteFile_new.
Proof. split; cbn; [done|constructor..|]. intros h it. rewrite lookup_empty. split; [done|]. by intros (v & H%elem_of_nil & _). Qed.
Lemma node_inj (l : list vote_node) n n' : NoDup l.*1 -> n ∈ l -> n' ∈ l -> n.1 = n'.1 -> n = n'.
Proof.
  intros Hnd Hn Hn' E. destruct n as [i v], n' as [i' v']. cbn in E. subst i'. f_equal.
  revert Hn Hn'. induction l as [|x l IH]; intros Hn Hn'; [by apply elem_of_nil in Hn|]. apply NoDup_cons in Hnd as [Hx Hnd].
  apply elem_of_cons in Hn as [<-|Hn], Hn' as [E'|Hn']; [by injection E'| | |by apply IH]; exfalso; apply Hx.
  - apply (list_elem_of_fmap_2' fst _ (i, v')); done.
  - rewrite <- E'. by apply (list_elem_of_fmap_2' fst _ (i, v)).
Qed.
Lemma HasVote_iff f h : file_ok f -> HasVote f h = true <-> exists v, v ∈ GetVotes f /\ Vote_GetHash v = h.
Proof.
  intros Hf. unfold HasVote, GetVotes. rewrite bool_decide_eq_true. split.
  - intros [it (v & Hin & Eh)%(fok_index _ Hf)]. exists v. split; [|done]. by apply (list_elem_of_fmap_2' snd _ (it, v)).
  - intros (v & ([it v'] & -> & Hin)%list_elem_of_fmap & Eh). exists it. apply (fok_index _ Hf). eauto.
Qed.

Lemma filter_one (l : list vote_node) n : NoDup l.*1 -> n ∈ l -> S (length (filter (fun x => x.1 <> n.1) l)) = length l.
Proof.
  induction l as [|x l IH]; intros Hnd Hn; [by apply elem_of_nil in Hn|]. rewrite fmap_cons, NoDup_cons in Hnd. destruct Hnd as [Hx Hnd]. rewrite filter_cons.
  apply elem_of_cons in Hn as [<-|Hn].
  - rewrite decide_False by tauto. cbn [length]. f_equal. assert (filter (fun x => x.1 <> n.1) l = l) as ->; [|done].
    clear IH Hnd. induction l as [|y l IH]; [done|]. rewrite fmap_cons, not_elem_of_cons in Hx. destruct Hx as [Hy Hx].
    rewrite filter_cons, decide_True by congruence. f_equal. by apply IH.
  - rewrite decide_True; [cbn [length]; by rewrite IH|]. intros E. apply Hx. rewrite E. by apply list_elem_of_fmap_2.
Qed.
Lemma erase_node_ok f n : file_ok f -> n ∈ listVotes f -> file_ok (erase_node f n).
Proof.
  intros [Hc Hnd Hnext Hidx] Hn. split; unfold erase_node; cbn [nMemoryVotes listVotes mapVoteIndex next_node].
  - pose proof (filter_one _ n Hnd Hn). lia.
  - eapply sublist_NoDup; [exact Hnd|]. apply fmap_sublist, sublist_filter.
  - rewrite Forall_forall in *. intros x [_ Hx]%list_elem_of_filter. by apply Hnext.
  - intros h it. rewrite lookup_delete_Some, Hidx. setoid_rewrite list_elem_of_filter. cbn [fst]. destruct n as [i v]. cbn [fst snd] in *. split.
    + intros (Hh & w & Hw & <-). exists w. split; [|done]. split; [|done]. intros ->. apply Hh.
      by injection (node_inj _ (i, w) (i, v) Hnd Hw Hn eq_refl) as ->.
    + intros (w & [Hne Hw] & <-). split; [|eauto]. intros Eh. apply Hne.
      assert (mapVoteIndex f !! Vote_GetHash v = Some i) as E1 by (apply Hidx; eauto). assert (mapVoteIndex f !! Vote_GetHash v = Some it) as E2 by (apply Hidx; eauto). congruence.
Qed.

Lemma remove_loop_ok (P : CGovernanceVote -> bool) (l : list vote_node) : forall f, file_ok f -> NoDup l.*1 -> (forall n, n ∈ l -> n ∈ listVotes f) ->
  let f' := foldl (fun f n => if P n.2 then erase_node f n else f) f l in
  file_ok f' /\ forall n, n ∈ listVotes f' <-> n ∈ listVotes f /\ ~ (n ∈ l /\ P n.2 = true).
Proof.
  induction l as [|x l IH]; intros f Hf Hnd Hin; cbn [foldl].
  { split; [done|]. intros n. setoid_rewrite elem_of_nil. tauto. }
  apply NoDup_cons in Hnd as [Hx Hnd]. pose proof (Hin x ltac:(left)) as Hxf. assert (Hl : forall n, n ∈ l -> n.1 <> x.1).
  { intros n Hn E. apply Hx. rewrite <- E. by apply list_elem_of_fmap_2. }
  destruct (P x.2) eqn:EP.
  - destruct (IH (erase_node f x) (erase_node_ok f x Hf Hxf) Hnd) as [Hok Hmem].
    { intros n Hn. cbn [erase_node listVotes]. apply list_elem_of_filter. split; [by apply Hl|apply Hin; by right]. }
    split; [exact Hok|]. intros n. rewrite Hmem. cbn [erase_node listVotes]. rewrite list_elem_of_filter. setoid_rewrite elem_of_cons.
    pose proof (node_inj (listVotes f) n x (fok_nodes _ Hf)) as Hinj. split.
    + intros [[Hne Hn] Hnot]. split; [done|]. intros [[->|Hnl] HP]; [done|tauto].
    + intros [Hn Hnot]. split; [split; [|done]|tauto]. intros E. rewrite (Hinj Hn Hxf E) in Hnot. tauto.
  - destruct (IH f Hf Hnd) as [Hok Hmem]; [intros n Hn; apply Hin; by right|]. split; [exact Hok|]. intros n. rewrite Hmem. setoid_rewrite elem_of_cons. split.
    + intros [Hn Hnot]. split; [done|]. intros [[->|Hnl] HP]; [by rewrite EP in HP|tauto].
    + tauto.
Qed.
Lemma remove_if_ok P f : file_ok f -> file_ok (remove_if P f) /\ forall v, v ∈ GetVotes (remove_if P f) <-> v ∈ GetVotes f /\ P v = false.
Proof.
  intros Hf. destruct (remove_loop_ok P (listVotes f) f Hf (fok_nodes _ Hf) (fun n Hn => Hn)) as [Hok Hmem]. split; [exact Hok|]. intros v. unfold GetVotes.
  rewrite !list_elem_of_fmap. fold (remove_if P f) in Hmem. setoid_rewrite Hmem. split.
  - intros ([i w] & -> & Hin & Hnot). cbn [snd] in *. split; [by exists (i, w)|]. destruct (P w) eqn:EP; [|done]. exfalso. by apply Hnot.
  - intros [([i w] & -> & Hin) HP]. exists (i, w). cbn [snd] in *. split_and!; [done..|]. intros [_ HP']. congruence.
Qed.
Lemma AddVote_ok f v : file_ok f -> file_ok (AddVote f v) /\ forall w, w ∈ GetVotes (AddVote f v) -> w = v \/ w ∈ GetVotes f.
Proof.
  intros Hf. unfold AddVote. destruct (HasVote f (Vote_GetHash v)) eqn:Eh; [eauto|].
  assert (mapVoteIndex f !! Vote_GetHash v = None) as En.
  { unfold HasVote in Eh. apply bool_decide_eq_false in Eh. by apply eq_None_not_Some. }
  rewrite En. match goal with |- context [RemoveOldVotes ?f1 v] => assert (file_ok f1) as Hf1 end.
  { destruct Hf as [Hc Hnd Hnext Hidx]. split; cbn [nMemoryVotes listVotes mapVoteIndex next_node].
    - cbn [length]. lia.
    - rewrite fmap_cons. apply NoDup_cons. split; [|done]. cbn [fst]. intros ([i w] & E & Hin)%list_elem_of_fmap. cbn in E. subst i.
      rewrite Forall_forall in Hnext. specialize (Hnext _ Hin). cbn in Hnext. lia.
    - constructor; [cbn; lia|]. eapply Forall_impl; [exact Hnext|]. cbn. lia.
    - intros h it. setoid_rewrite elem_of_cons. rewrite lookup_insert_Some, Hidx. split.
      + intros [[<- <-]|[Hne (w & Hw & <-)]]; eauto.
      + intros (w & [[= -> ->]|Hw] & <-); [by left|]. right. split; [|eauto]. intros E.
        assert (mapVoteIndex f !! Vote_GetHash v = Some it) as E' by (apply Hidx; eauto). by rewrite En in E'. }
  destruct (remove_if_ok (older_vote v) _ Hf1) as [Hok Hmem]. split; [exact Hok|]. intros w Hw. apply Hmem in Hw as [Hw _].
  unfold GetVotes in Hw. cbn [listVotes] in Hw. rewrite fmap_cons in Hw. by apply elem_of_cons in Hw.
Qed.

(** ** The tally does not depend on the order of the votes *)

(** Votes are ranked by time, then by outcome. *)
Abbreviation rank := (Z * Z)%type.
Definition rank_max (a b : rank) : rank := if (a.1 <? b.1) || ((a.1 =? b.1) && (a.2 <=? b.2)) then b else a.
Definition vote_rank (v : CGovernanceVote) : rank := (vote_nTime v, GetOutcome v).
(** The rank of the instance kept for a smartnode and a signal. *)
Definition instance_at (o : CGovernanceObject) (op : COutPoint) (signal : Z) : vote_instance_t :=
  default instance_default (default ∅ (mapCurrentMNVotes o !! op) !! signal).
Definition current_rank (o : CGovernanceObject) (op : COutPoint) (signal : Z) : rank :=
  (nCreationTime (instance_at o op signal), eOutcome (instance_at o op signal)).
(** A vote that counts: from a smartnode of the list, on a signal that is known, with a signature that is right. *)
Definition eligible (e : vote_env) (type : Z) (v : CGovernanceVote) : bool :=
  HasMNByCollateral (mnList e) (smartnodeOutpoint v) && negb (GetSignal v =? VOTE_SIGNAL_NONE) && (GetSignal v <=? MAX_SUPPORTED_VOTE_SIGNAL) &&
  Vote_IsValid e v ((type =? GOVERNANCE_OBJECT_PROPOSAL) && (GetSignal v =? VOTE_SIGNAL_FUNDING)).
Definition concerns (op : COutPoint) (signal : Z) (v : CGovernanceVote) : bool := bool_decide (smartnodeOutpoint v = op) && (GetSignal v =? signal).
(** The highest of the votes that count. *)
Definition best (e : vote_env) (type : Z) (vs : list CGovernanceVote) (op : COutPoint) (signal : Z) : rank :=
  foldr (fun v acc => if eligible e type v && concerns op signal v then rank_max (vote_rank v) acc else acc) (0, VOTE_OUTCOME_NONE) vs.

Definition rank_le (a b : rank) : Prop := a.1 < b.1 \/ (a.1 = b.1 /\ a.2 <= b.2).
Lemma rank_max_spec (a b : rank) : (rank_le a b /\ rank_max a b = b) \/ (~ rank_le a b /\ rank_max a b = a).
Proof.
  unfold rank_max, rank_le. destruct (Z.ltb_spec a.1 b.1); [left; split; [lia|done]|].
  destruct (Z.eqb_spec a.1 b.1), (Z.leb_spec a.2 b.2); cbn [andb orb]; [left|right..]; (split; [lia|done]).
Qed.
Lemma rank_max_comm (a b c : rank) : rank_max a (rank_max b c) = rank_max b (rank_max a c).
Proof.
  destruct a as [a1 a2], b as [b1 b2], c as [c1 c2].
  destruct (rank_max_spec (b1, b2) (c1, c2)) as [[Hbc ->]|[Hbc ->]], (rank_max_spec (a1, a2) (c1, c2)) as [[Hac ->]|[Hac ->]];
    repeat match goal with |- context [rank_max ?x ?y] => destruct (rank_max_spec x y) as [[? ->]|[? ->]] end;
    unfold rank_le in *; cbn [fst snd] in *; f_equal; lia.
Qed.
Lemma rank_max_absorb (a b : rank) : rank_le a b -> rank_max a b = b.
Proof. intros Hab. by destruct (rank_max_spec a b) as [[_ ?]|[? _]]. Qed.
Lemma rank_le_max (a b : rank) : rank_le a (rank_max a b) /\ rank_le b (rank_max a b).
Proof. destruct (rank_max_spec a b) as [[H ->]|[H ->]]; unfold rank_le in *; lia. Qed.
Lemma rank_le_trans (a b c : rank) : rank_le a b -> rank_le b c -> rank_le a c.
Proof. unfold rank_le. lia. Qed.

Lemma best_perm e type op signal vs ws : vs ≡ₚ ws -> best e type vs op signal = best e type ws op signal.
Proof.
  unfold best. induction 1 as [|v vs ws _ IH|v w vs|vs ws us _ IH1 _ IH2]; cbn [foldr]; [done|by rewrite IH| |congruence].
  destruct (_ && _), (_ && _); try done. apply rank_max_comm.
Qed.
Lemma best_ge e type op signal vs v : v ∈ vs -> eligible e type v = true -> concerns op signal v = true -> rank_le (vote_rank v) (best e type vs op signal).
Proof.
  intros Hin He Hc. induction vs as [|w vs IH]; [by apply elem_of_nil in Hin|]. unfold best. cbn [foldr]. fold (best e type vs op signal).
  apply elem_of_cons in Hin as [<-|Hin]; [rewrite He, Hc; apply rank_le_max|]. destruct (_ && _); [|by apply IH].
  eapply rank_le_trans; [by apply IH|apply rank_le_max].
Qed.

(** Two votes with the same content; the signatures may differ. *)
Definition same_vote (v w : CGovernanceVote) : Prop :=
  nVoteSignal v = nVoteSignal w /\ smartnodeOutpoint v = smartnodeOutpoint w /\ nVoteOutcome v = nVoteOutcome w /\ vote_nTime v = vote_nTime w.

(** The object after the votes of [done]. *)
Record tallied (e : vote_env) (o : CGovernanceObject) (done : list CGovernanceVote) : Prop := {
  tal_file : file_ok (fileVotes o);
  tal_votes : forall v, v ∈ GetVotes (fileVotes o) -> v ∈ done /\ eligible e (nObjectType o) v = true;
  tal_rank : forall op signal, current_rank o op signal = best e (nObjectType o) done op signal;
  tal_time : forall op signal, Forall (fun v => concerns op signal v = false) done -> inst_nTime (instance_at o op signal) = 0
}.

Lemma set_votes_type o votes file dirty : nObjectType (set_votes o votes file dirty) = nObjectType o.
Proof. by destruct o. Qed.
Lemma set_votes_votes o votes file dirty : mapCurrentMNVotes (set_votes o votes file dirty) = votes.
Proof. by destruct o. Qed.
Lemma set_votes_twice o votes file dirty votes' file' dirty' : set_votes (set_votes o votes file dirty) votes' file' dirty' = set_votes o votes' file' dirty'.
Proof. by destruct o. Qed.
Lemma set_votes_file o votes file dirty : fileVotes (set_votes o votes file dirty) = file.
Proof. by destruct o. Qed.
Lemma rank_max_ge (a b : rank) : rank_le b a -> rank_max a b = a.
Proof.
  intros H. destruct (rank_max_spec a b) as [[H' ->]|[_ ->]]; [|done]. destruct a, b. unfold rank_le in *. cbn [fst snd] in *. f_equal; lia.
Qed.

(** The instances after the record of one smartnode has been stored. *)
Lemma instance_at_store o op r file dirty op' signal :
  instance_at (set_votes o (<[op := r]> (mapCurrentMNVotes o)) file dirty) op' signal =
  if decide (op' = op) then default instance_default (r !! signal) else instance_at o op' signal.
Proof.
  unfold instance_at. rewrite set_votes_votes. destruct (decide (op' = op)) as [->|Hne]; [by rewrite lookup_insert_eq|by rewrite lookup_insert_ne].
Qed.
Lemma emplace_instance_lookup r signal signal' :
  default instance_default (emplace_instance r signal !! signal') = default instance_default (r !! signal').
Proof.
  unfold emplace_instance. destruct (r !! signal) eqn:E; [done|]. destruct (decide (signal = signal')) as [<-|Hne]; [by rewrite lookup_insert_eq, E|by rewrite lookup_insert_ne].
Qed.

Section Step.
Variables (e : vote_env) (o : CGovernanceObject) (processed : list CGovernanceVote) (vote : CGovernanceVote).
Hypothesis Htal : tallied e o processed.

(** A vote that changes neither the file nor an instance. *)
Lemma tallied_same o1 : nObjectType o1 = nObjectType o -> fileVotes o1 = fileVotes o -> (forall op signal, instance_at o1 op signal = instance_at o op signal) ->
  (eligible e (nObjectType o) vote = true -> rank_le (vote_rank vote) (current_rank o (smartnodeOutpoint vote) (GetSignal vote))) ->
  tallied e o1 (vote :: processed).
Proof.
  intros Et Ef Ei Hle. split; rewrite ?Et, ?Ef.
  - apply Htal.
  - intros v Hv. apply Htal in Hv as [? ?]. split; [by right|done].
  - intros op signal. unfold best. cbn [foldr]. fold (best e (nObjectType o) processed op signal). rewrite <- (tal_rank _ _ _ Htal).
    assert (current_rank o1 op signal = current_rank o op signal) as -> by (unfold current_rank; by rewrite Ei).
    destruct (eligible e (nObjectType o) vote) eqn:Ee; [|done]. unfold concerns. case_bool_decide as Eo; [|done].
    destruct (Z.eqb_spec (GetSignal vote) signal) as [<-|]; [|done]. subst op. cbn [andb]. symmetry. apply rank_max_absorb. by apply Hle.
  - intros op signal [_ Hf]%Forall_cons. rewrite Ei. by apply Htal.
Qed.
Lemma tallied_store r dirty : (forall signal, default instance_default (r !! signal) = default instance_default (default ∅ (mapCurrentMNVotes o !! smartnodeOutpoint vote) !! signal)) ->
  (eligible e (nObjectType o) vote = true -> rank_le (vote_rank vote) (current_rank o (smartnodeOutpoint vote) (GetSignal vote))) ->
  tallied e (set_votes o (<[smartnodeOutpoint vote := r]> (mapCurrentMNVotes o)) (fileVotes o) dirty) (vote :: processed).
Proof.
  intros Hr Hle. apply tallied_same; [apply set_votes_type|apply set_votes_file| |exact Hle].
  intros op signal. rewrite instance_at_store. destruct (decide (op = smartnodeOutpoint vote)) as [->|]; [|done]. apply Hr.
Qed.
(** A vote that is accepted. *)
Lemma tallied_accept r time : let signal := GetSignal vote in eligible e (nObjectType o) vote = true ->
  (forall signal', default instance_default (r !! signal') = default instance_default (default ∅ (mapCurrentMNVotes o !! smartnodeOutpoint vote) !! signal')) ->
  rank_le (current_rank o (smartnodeOutpoint vote) signal) (vote_rank vote) ->
  tallied e (set_votes o (<[smartnodeOutpoint vote := <[signal := mkInstance (GetOutcome vote) time (vote_nTime vote)]> r]> (mapCurrentMNVotes o))
    (AddVote (fileVotes o) vote) true) (vote :: processed).
Proof.
  intros signal He Hr Hle. destruct (AddVote_ok (fileVotes o) vote (tal_file _ _ _ Htal)) as [Hok Hmem]. split; rewrite ?set_votes_type, ?set_votes_file.
  - exact Hok.
  - intros v [->|Hv]%Hmem; [split; [left|done]|]. apply Htal in Hv as [? ?]. split; [by right|done].
  - intros op s. unfold best. cbn [foldr]. fold (best e (nObjectType o) processed op s). rewrite <- (tal_rank _ _ _ Htal), He. unfold current_rank at 1.
    rewrite instance_at_store. unfold concerns. cbn [andb]. destruct (decide (op = smartnodeOutpoint vote)) as [->|Hne].
    + rewrite bool_decide_eq_true_2 by done. cbn [andb]. destruct (Z.eqb_spec (GetSignal vote) s) as [<-|Hs].
      * fold signal. rewrite lookup_insert_eq. cbn [default from_option Datatypes.id nCreationTime eOutcome]. by rewrite rank_max_ge.
      * rewrite lookup_insert_ne by done. unfold current_rank, instance_at. by rewrite Hr.
    + rewrite bool_decide_eq_false_2 by congruence. done.
  - intros op s [Hc Hf]%Forall_cons. rewrite instance_at_store. destruct (decide (op = smartnodeOutpoint vote)) as [->|Hne]; [|by apply Htal].
    unfold concerns in Hc. rewrite bool_decide_eq_true_2 in Hc by done. cbn [andb] in Hc. apply Z.eqb_neq in Hc.
    rewrite lookup_insert_ne by done. rewrite Hr. by apply (tal_time _ _ _ Htal (smartnodeOutpoint vote) s).
Qed.
End Step.

Lemma same_vote_facts v w op signal : same_vote v w -> vote_rank v = vote_rank w /\ concerns op signal v = concerns op signal w.
Proof. intros (Es & Eo & Ec & Et). unfold vote_rank, concerns, GetOutcome, GetSignal. by rewrite Es, Eo, Ec, Et. Qed.

(** The check of rates does not refuse the vote: it is off, or no vote of the smartnode on the signal has been processed. *)
Definition rate_ok (e : vote_env) (fRateChecksEnabled : bool) (processed : list CGovernanceVote) (vote : CGovernanceVote) : Prop :=
  fRateChecksEnabled = true -> GOVERNANCE_UPDATE_MIN <= adjusted_time e /\
    Forall (fun v => concerns (smartnodeOutpoint vote) (GetSignal vote) v = false) processed.
Lemma ProcessVote_tallied e rate o meta processed vote : tallied e o processed -> rate_ok e rate processed vote ->
  (forall w, w ∈ processed -> Vote_GetHash w = Vote_GetHash vote -> same_vote w vote) ->
  let o' := (Object_ProcessVote e rate o meta vote).1.2 in tallied e o' (vote :: processed) /\ nObjectType o' = nObjectType o.
Proof.
  intros Htal Hrate Hsame. unfold Object_ProcessVote. destruct (HasVote (fileVotes o) (Vote_GetHash vote)) eqn:Eh.
  { cbn [fst snd]. split; [|done]. apply (tallied_same e o processed vote Htal o); [done..|]. intros He.
    apply HasVote_iff in Eh as (w & Hw & Ew); [|apply Htal]. apply Htal in Hw as [Hw Hel]. rewrite (tal_rank _ _ _ Htal).
    destruct (same_vote_facts w vote (smartnodeOutpoint vote) (GetSignal vote) (Hsame w Hw Ew)) as [<- Ec].
    apply best_ge; [done..|]. rewrite Ec. unfold concerns. by rewrite bool_decide_eq_true_2, Z.eqb_refl. }
  destruct (GetMNByCollateral (mnList e) (smartnodeOutpoint vote)) as [dmn|] eqn:Ed.
  2: { cbn [fst snd]. split; [|done]. apply (tallied_same e o processed vote Htal o); [done..|]. unfold eligible, HasMNByCollateral. by rewrite Ed. }
  cbv zeta. destruct (Z.eqb_spec (GetSignal vote) VOTE_SIGNAL_NONE) as [Es|Es].
  { cbn [fst snd]. split; [|apply set_votes_type]. apply tallied_store; [done..|]. unfold eligible. rewrite Es. cbn. by rewrite andb_false_r. }
  destruct (Z.ltb_spec MAX_SUPPORTED_VOTE_SIGNAL (GetSignal vote)) as [Hs|Hs].
  { cbn [fst snd]. split; [|apply set_votes_type]. apply tallied_store; [done..|]. unfold eligible. rewrite (proj2 (Z.leb_gt _ _)) by lia. by rewrite andb_false_r. }
  set (r := emplace_instance _ _). assert (Hr : forall s, default instance_default (r !! s) = default instance_default (default ∅ (mapCurrentMNVotes o !! smartnodeOutpoint vote) !! s)).
  { intros s. apply emplace_instance_lookup. }
  rewrite Hr. change (default instance_default (default ∅ (mapCurrentMNVotes o !! smartnodeOutpoint vote) !! GetSignal vote)) with (instance_at o (smartnodeOutpoint vote) (GetSignal vote)).
  set (inst := instance_at o (smartnodeOutpoint vote) (GetSignal vote)).
  assert (Hcur : current_rank o (smartnodeOutpoint vote) (GetSignal vote) = (nCreationTime inst, eOutcome inst)) by done.
  destruct (Z.ltb_spec (vote_nTime vote) (nCreationTime inst)) as [Ht|Ht].
  { cbn [fst snd]. split; [|apply set_votes_type]. apply tallied_store; [done..|]. intros _. rewrite Hcur. left. exact Ht. }
  destruct ((vote_nTime vote =? nCreationTime inst) && (GetOutcome vote <? eOutcome inst)) eqn:Eq.
  { cbn [fst snd]. split; [|apply set_votes_type]. apply tallied_store; [done..|]. intros _. rewrite Hcur. right. cbn [fst snd vote_rank]. lia. }
  assert (rate && (adjusted_time e - inst_nTime inst <? GOVERNANCE_UPDATE_MIN) = false) as ->.
  { destruct rate; [|done]. destruct (Hrate eq_refl) as [Hmin Hf]. unfold inst. rewrite (tal_time _ _ _ Htal) by done. apply Z.ltb_ge. lia. }
  destruct (Vote_IsValid e vote _) eqn:Ev; cbn [negb].
  2: { cbn [fst snd]. split; [|apply set_votes_type]. apply tallied_store; [done..|]. unfold eligible. rewrite Ev. by rewrite andb_false_r. }
  cbn [AddGovernanceVote negb fst snd]. rewrite set_votes_votes, set_votes_file, insert_insert_eq, set_votes_twice. split; [|apply set_votes_type].
  apply tallied_accept; [done| |done|].
  - unfold eligible, HasMNByCollateral. rewrite Ed, Ev, bool_decide_eq_true_2 by done. rewrite (proj2 (Z.eqb_neq _ _)), (proj2 (Z.leb_le _ _)) by done. done.
  - rewrite Hcur. unfold rank_le. cbn [fst snd vote_rank]. lia.
Qed.

(** The smartnodes counted for an outcome. *)
Definition voters (o : CGovernanceObject) (signal outcome : Z) : gset COutPoint :=
  dom (filter (fun p => matching signal outcome p.2 = true) (mapCurrentMNVotes o)).
Lemma CountMatchingVotes_voters o signal outcome : CountMatchingVotes o signal outcome = Z.of_nat (base.size (voters o signal outcome)).
Proof.
  unfold CountMatchingVotes, voters. rewrite size_dom. f_equal. rewrite <- length_map_to_list. symmetry. apply Permutation_length.
  apply NoDup_Permutation; [apply NoDup_map_to_list|apply NoDup_filter, NoDup_map_to_list|].
  intros [k r]. rewrite list_elem_of_filter, !elem_of_map_to_list, map_lookup_filter_Some. tauto.
Qed.
Lemma elem_of_voters o signal outcome op : outcome <> VOTE_OUTCOME_NONE -> op ∈ voters o signal outcome <-> (current_rank o op signal).2 = outcome.
Proof.
  intros Hc. unfold voters. rewrite elem_of_dom. unfold is_Some. setoid_rewrite map_lookup_filter_Some. cbn [snd]. unfold current_rank, instance_at, matching. cbn [snd].
  destruct (mapCurrentMNVotes o !! op) as [r|]; cbn [default from_option]; unfold Datatypes.id.
  - split.
    + intros (r' & [= <-] & E). destruct (r !! signal) as [i|]; [|done]. by apply Z.eqb_eq in E.
    + intros E. exists r. split; [done|]. destruct (r !! signal) as [i|]; [by apply Z.eqb_eq|]. cbn in E. by subst outcome.
  - rewrite lookup_empty. split; [by intros (r' & ? & _)|]. cbn. intros <-. done.
Qed.

(** All the votes of a list, one after the other; [rate] is [fRateChecksEnabled], which is on but for the votes that were kept for an object that was not known
    yet ([CheckOrphanVotes]). *)
Fixpoint process_votes (e : vote_env) (rate : bool) (o : CGovernanceObject) (meta : CSmartnodeMetaMan) (vs : list CGovernanceVote) : CGovernanceObject * CSmartnodeMetaMan :=
  match vs with
  | [] => (o, meta)
  | v :: vs => let '(_, o, meta) := Object_ProcessVote e rate o meta v in process_votes e rate o meta vs
  end.
Abbreviation vote_slot := (fun v : CGovernanceVote => (smartnodeOutpoint v, GetSignal v)).
(** No two of the votes are by one smartnode on one signal. *)
Definition one_each (vs : list CGovernanceVote) : Prop := NoDup (map vote_slot vs).
Lemma one_each_concerns v vs : vote_slot v ∉ map vote_slot vs -> Forall (fun w => concerns (smartnodeOutpoint v) (GetSignal v) w = false) vs.
Proof.
  intros Hn. apply Forall_forall. intros w Hw. unfold concerns. destruct (bool_decide (smartnodeOutpoint w = smartnodeOutpoint v)) eqn:Eo; [|done]. apply bool_decide_eq_true in Eo.
  destruct (Z.eqb_spec (GetSignal w) (GetSignal v)) as [Es|]; [|done]. destruct Hn. apply list_elem_of_fmap. exists w. by rewrite Eo, Es.
Qed.
Lemma process_votes_tallied e rate vs : forall o meta processed, tallied e o processed ->
  (rate = true -> GOVERNANCE_UPDATE_MIN <= adjusted_time e /\ one_each (vs ++ processed)) ->
  (forall v w, v ∈ vs ++ processed -> w ∈ vs ++ processed -> Vote_GetHash v = Vote_GetHash w -> same_vote v w) ->
  tallied e (process_votes e rate o meta vs).1 (rev vs ++ processed) /\ nObjectType (process_votes e rate o meta vs).1 = nObjectType o.
Proof.
  induction vs as [|v vs IH]; intros o meta processed Htal Hrate Hinj; cbn [process_votes rev]; [done|].
  assert (Hmid : forall k : list CGovernanceVote, vs ++ v :: k ≡ₚ v :: vs ++ k) by (intros k; symmetry; apply Permutation_middle).
  destruct (ProcessVote_tallied e rate o meta processed v Htal) as [Htal' Et].
  { intros Hr. destruct (Hrate Hr) as [Hmin Hone]. split; [done|]. unfold one_each in Hone. cbn [app map] in Hone. apply NoDup_cons in Hone as [Hn _].
    apply one_each_concerns. intros Hin. apply Hn. rewrite map_app. apply elem_of_app. by right. }
  { intros w Hw E. apply Hinj; [apply elem_of_app; by right|left|done]. }
  destruct (Object_ProcessVote e rate o meta v) as [[res o'] meta']. cbn [fst snd] in *. rewrite <- app_assoc. cbn [app].
  destruct (IH o' meta' (v :: processed) Htal') as [H1 H2]; [| |split; [exact H1|congruence]].
  - intros Hr. destruct (Hrate Hr) as [Hmin Hone]. split; [done|]. unfold one_each. rewrite Hmid. exact Hone.
  - intros v' w' Hv Hw. apply Hinj; cbn [app]; rewrite elem_of_cons, elem_of_app; rewrite elem_of_app, elem_of_cons in Hv, Hw; tauto.
Qed.
Lemma fresh_tallied e o : mapCurrentMNVotes o = ∅ -> fileVotes o = VoteFile_new -> tallied e o [].
Proof.
  intros Em Ef. split; rewrite ?Ef; [apply VoteFile_new_ok|by intros v H%elem_of_nil| |]; intros op signal; unfold current_rank, instance_at; by rewrite Em, lookup_empty.
Qed.

(** C18. What the smartnodes say about an object does not depend on the order in which their votes arrive, as long as the check of rates refuses none of them: because
    it is off, as it is for the votes that were kept for an object not known yet, or because no two of the votes are by one smartnode on one signal and the clock is past the first hour of 1970.  Then, for
    every smartnode and signal, the vote with the latest time counts, and of those the one with the highest outcome, among the votes of the
    list that are properly signed by a smartnode that exists; so that two nodes that have seen the same votes, of which different ones have different hashes, agree on the
    count of every outcome and, while there is a valid smartnode, on whether the object is funded. *)
Theorem votes_count_in_any_order e rate o meta vs ws :
  mapCurrentMNVotes o = ∅ -> fileVotes o = VoteFile_new ->
  (rate = true -> GOVERNANCE_UPDATE_MIN <= adjusted_time e /\ one_each vs) ->
  (forall v w, v ∈ vs -> w ∈ vs -> Vote_GetHash v = Vote_GetHash w -> same_vote v w) -> vs ≡ₚ ws ->
  let o1 := (process_votes e rate o meta vs).1 in let o2 := (process_votes e rate o meta ws).1 in
  (forall op signal, current_rank o1 op signal = best e (nObjectType o) vs op signal) /\
  (forall signal outcome, outcome <> VOTE_OUTCOME_NONE -> CountMatchingVotes o1 signal outcome = CountMatchingVotes o2 signal outcome) /\
  (GetValidMNsCount nCollaterals (mnList e) <> 0 -> fCachedFunding (UpdateSentinelVariables e o1) = fCachedFunding (UpdateSentinelVariables e o2)).
Proof.
  intros Em Ef Hrate Hinj Hperm o1 o2. pose proof (fresh_tallied e o Em Ef) as Htal.
  destruct (process_votes_tallied e rate vs o meta [] Htal) as [[_ _ H1 _] T1]; [by rewrite app_nil_r|by rewrite app_nil_r|].
  destruct (process_votes_tallied e rate ws o meta [] Htal) as [[_ _ H2 _] T2].
  { rewrite app_nil_r. unfold one_each in *. by rewrite <- Hperm. }
  { rewrite app_nil_r. intros v w. rewrite <- !Hperm. apply Hinj. }
  fold o1 in H1, T1. fold o2 in H2, T2. rewrite app_nil_r, T1 in H1. rewrite app_nil_r, T2 in H2.
  assert (H12 : forall op signal, current_rank o1 op signal = current_rank o2 op signal).
  { intros op signal. rewrite H1, H2. apply best_perm. by rewrite <- !Permutation_rev. }
  assert (Hcount : forall signal outcome, outcome <> VOTE_OUTCOME_NONE -> CountMatchingVotes o1 signal outcome = CountMatchingVotes o2 signal outcome).
  { intros signal outcome Hc. rewrite !CountMatchingVotes_voters. do 2 f_equal. apply set_eq. intros op. by rewrite !elem_of_voters, H12. }
  split_and!; [|exact Hcount|].
  - intros op signal. rewrite H1. apply best_perm. symmetry. apply Permutation_rev.
  - intros Hn. unfold UpdateSentinelVariables. rewrite (proj2 (Z.eqb_neq _ _) Hn). unfold GetAbsoluteYesCount, GetYesCount, GetNoCount.
    rewrite !(Hcount VOTE_SIGNAL_FUNDING) by done. destruct o1, o2. done.
Qed.
End Votes.

(** ** Reading and checking objects *)

Section Checks.
Variable junk : stream.
Variable bls_verify : CBLSPublicKey -> stream -> list Z -> bool.
Context `{PH : PropertyHash} `{AS : AssetScripts}.

(** The reader of the JSON text in [vchData] is a bundled library: what it finds under a name, [None] being an exception. *)
Record object_data := mkData { data_type : option Z; event_block_height : option Z; payment_addresses : option (list Z); payment_amounts : option (list Z) }.
Variable GetJSONObject : list Z -> object_data.
Definition LoadData (o : CGovernanceObject) : CGovernanceObject :=
  match vchData o with
  | [] => o
  | _ => match data_type (GetJSONObject (vchData o)) with
         | Some t => set_type o t (fUnparsable o)
         | None => set_type o (nObjectType o) true
         end
  end.
Definition Object_new (parent revision time collateral : Z) (strDataHex : list Z) : CGovernanceObject :=
  LoadData (mkObject GOVERNANCE_OBJECT_UNKNOWN parent revision time 0 collateral (ParseHex strDataHex) (0, u32 (-1)) []
              false false true false false true false false ∅ VoteFile_new).

Definition GetMinCollateralFee (o : CGovernanceObject) : Z :=
  if nObjectType o =? GOVERNANCE_OBJECT_PROPOSAL then GOVERNANCE_PROPOSAL_FEE_TX
  else if nObjectType o =? GOVERNANCE_OBJECT_TRIGGER then 0
  else MAX_MONEY.

(** What the checks of an object see of the block chain. *)
Record chain_view := mkView {
  GetTransaction : Z -> option (CTransaction * Z);
  mapBlockIndex : gmap Z ptr;
  block_heap : heap;
  chainActive : CChain
}.
(** The outputs of the collateral transaction: [None] is one with a script that is not allowed. *)
Fixpoint find_burn (findScript : CScript) (nMinFee : Z) (outs : list CTxOut) (found : bool) : option bool :=
  match outs with
  | [] => Some found
  | output :: outs =>
      if negb (IsPayToPublicKeyHash (scriptPubKey output)) && negb (IsUnspendable (scriptPubKey output)) then None
      else find_burn findScript nMinFee outs (found || (bool_decide (scriptPubKey output = findScript) && (nMinFee <=? Transaction.nValue output)))
  end.
Definition confirmations (c : chain_view) (nBlockHash : Z) : Z :=
  match mapBlockIndex c !! nBlockHash with
  | Some pindex =>
      match block_heap c !! pindex with
      | Some b => if Contains (block_heap c) (chainActive c) pindex then Height (chainActive c) - nHeight b + 1 else 0
      | None => 0
      end
  | None => 0
  end.
(** The result, and [fMissingConfirmations]. *)
Definition IsCollateralValid (c : chain_view) (o : CGovernanceObject) : bool * bool :=
  match GetTransaction c (nCollateralHash o) with
  | None => (false, false)
  | Some (txCollateral, nBlockHash) =>
      if nBlockHash =? 0 then (false, false)
      else if (length (vout txCollateral) <? 1)%nat then (false, false)
      else
        let findScript := OP_RETURN :: push_data (le_bytes 32 (Object_GetHash junk o)) in
        match find_burn findScript (GetMinCollateralFee o) (vout txCollateral) false with
        | None | Some false => (false, false)
        | Some true =>
            let nConfirmationsIn := confirmations c nBlockHash in
            if nConfirmationsIn <? GOVERNANCE_FEE_CONFIRMATIONS then (false, GOVERNANCE_MIN_RELAY_FEE_CONFIRMATIONS <=? nConfirmationsIn)
            else (true, false)
        end
  end.
(** [CProposalValidator] reads the JSON text too; the flag asks whether the proposal may have ended. *)
Variable proposal_valid : list Z -> bool -> bool.
Definition IsValidLocally (e : vote_env) (c : chain_view) (o : CGovernanceObject) (fCheckCollateral : bool) : bool * bool :=
  if fUnparsable o then (false, false)
  else if nObjectType o =? GOVERNANCE_OBJECT_PROPOSAL then
    if negb (proposal_valid (vchData o) false) then (false, false)
    else if fCheckCollateral then
      let '(ok, missing) := IsCollateralValid c o in
      if negb ok then (false, missing) else (true, missing)
    else (true, false)
  else if nObjectType o =? GOVERNANCE_OBJECT_TRIGGER then
    if negb fCheckCollateral then (true, false)
    else
      match GetMNByCollateral (mnList e) (obj_smartnodeOutpoint o) with
      | None => (false, false)
      | Some dmn => (bls_verify (pubKeyOperator (pdmnState dmn)) (Object_GetSignatureHash junk o) (obj_vchSig o), false)
      end
  else (false, false).
Definition UpdateLocalValidity (e : vote_env) (c : chain_view) (o : CGovernanceObject) : CGovernanceObject :=
  set_local_validity o (IsValidLocally e c o false).1.

Lemma find_burn_spec script fee outs : forall found, find_burn script fee outs found = Some true ->
  (found = true \/ exists burn, burn ∈ outs /\ scriptPubKey burn = script /\ fee <= Transaction.nValue burn) /\
  Forall (fun out => IsPayToPublicKeyHash (scriptPubKey out) = true \/ IsUnspendable (scriptPubKey out) = true) outs.
Proof.
  induction outs as [|out outs IH]; intros found; cbn [find_burn]; [intros [= ->]; split; [by left|constructor]|].
  destruct (IsPayToPublicKeyHash (scriptPubKey out)) eqn:E1, (IsUnspendable (scriptPubKey out)) eqn:E2; cbn [negb andb]; try done;
    (intros [Hf Hall]%IH; split; [|constructor; [tauto|done]]; destruct Hf as [Hf|(burn & ? & ? & ?)]; [|right; exists burn; rewrite elem_of_cons; tauto]);
    (apply orb_true_iff in Hf as [Hf|[Hs Hv]%andb_true_iff]; [by left|]; right; exists out; apply bool_decide_eq_true in Hs; apply Z.leb_le in Hv; rewrite elem_of_cons; tauto).
Qed.

(** The collateral of a proposal burns its fee for the hash of the object, is in the active chain, and has aged. *)
Theorem collateral_is_burnt_fee c o : (IsCollateralValid c o).1 = true ->
  exists tx hash burn, GetTransaction c (nCollateralHash o) = Some (tx, hash) /\ burn ∈ vout tx /\
    scriptPubKey burn = OP_RETURN :: push_data (le_bytes 32 (Object_GetHash junk o)) /\ GetMinCollateralFee o <= Transaction.nValue burn /\
    GOVERNANCE_FEE_CONFIRMATIONS <= confirmations c hash /\
    Forall (fun out => IsPayToPublicKeyHash (scriptPubKey out) = true \/ IsUnspendable (scriptPubKey out) = true) (vout tx).
Proof.
  unfold IsCollateralValid. destruct (GetTransaction c (nCollateralHash o)) as [[tx hash]|]; [|done]. destruct (hash =? 0); [done|].
  destruct (_ <? _)%nat; [done|]. destruct (find_burn _ _ _ _) as [[]|] eqn:Ef; [|done..]. destruct (Z.ltb_spec (confirmations c hash) GOVERNANCE_FEE_CONFIRMATIONS); [done|].
  intros _. destruct (find_burn_spec _ _ _ _ Ef) as [[|(burn & ? & ? & ?)] Hall]; [done|]. by exists tx, hash, burn.
Qed.
End Checks.

(** ** A sample *)

Module VoteSample.
Definition junk : stream := replicate 64 0.
Definition recover (recid : Z) (fComp : bool) (sig hash : list Z) : option (list Z) := Some sig.
(** A signature is right when its first byte is the operator's key. *)
Definition verify (key : Z) (hash : stream) (sig : list Z) : bool := bool_decide (head sig = Some key).
Definition nodes : CDeterministicMNList := default (list_new 1 1000 3) Sample.three.
Definition env : vote_env := mkEnv nodes 5000 false.
Definition trigger : CGovernanceObject :=
  mkObject GOVERNANCE_OBJECT_TRIGGER 0 1 100 0 0 [] (7, 0) [] false false true false false true false false ∅ VoteFile_new.
Definition vote (node outcome time : Z) : CGovernanceVote := mkVote VOTE_SIGNAL_FUNDING (node, 0) 77 outcome time [node].
(** Node 7 changes its mind, node 5 says yes, a forged vote is ignored. *)
Definition votes : list CGovernanceVote := [vote 7 VOTE_OUTCOME_NO 1000; vote 5 VOTE_OUTCOME_YES 1100; vote 7 VOTE_OUTCOME_YES 1200; mkVote VOTE_SIGNAL_FUNDING (9, 0) 77 VOTE_OUTCOME_NO 1000 [8]].
Abbreviation tally vs := (process_votes (PH := Sample.hash) junk junk recover verify env false trigger MetaMan_new vs).1.
End VoteSample.

Lemma fmap_inj_NoDup {A B} (f : A -> B) (l : list A) x y : NoDup (f <$> l) -> x ∈ l -> y ∈ l -> f x = f y -> x = y.
Proof.
  intros Hnd Hx Hy E. apply list_elem_of_lookup in Hx as [i Hi], Hy as [j Hj].
  assert (i = j) as <-; [|congruence]. eapply NoDup_lookup; [exact Hnd|rewrite list_lookup_fmap, Hi; done|rewrite list_lookup_fmap, Hj; cbn; by rewrite E].
Qed.
Lemma sample_hashes : bool_decide (NoDup (Vote_GetHash VoteSample.junk <$> VoteSample.votes)) = true.
Proof. vm_compute. reflexivity. Qed.
Lemma sample_votes_differ v w : v ∈ VoteSample.votes -> w ∈ VoteSample.votes -> Vote_GetHash VoteSample.junk v = Vote_GetHash VoteSample.junk w -> same_vote v w.
Proof.
  intros Hv Hw E. rewrite (fmap_inj_NoDup _ _ v w (proj1 (bool_decide_eq_true _) sample_hashes) Hv Hw E). by split_and!.
Qed.
Lemma sample_yes : GetAbsoluteYesCount (VoteSample.tally VoteSample.votes) VOTE_SIGNAL_FUNDING = 2.
Proof. vm_compute. reflexivity. Qed.

Lemma votes_count_in_any_order_witness : GetAbsoluteYesCount (VoteSample.tally VoteSample.votes) VOTE_SIGNAL_FUNDING = 2 /\
  CountMatchingVotes (VoteSample.tally VoteSample.votes) VOTE_SIGNAL_FUNDING VOTE_OUTCOME_YES =
  CountMatchingVotes (VoteSample.tally (rev VoteSample.votes)) VOTE_SIGNAL_FUNDING VOTE_OUTCOME_YES.
Proof.
  split; [exact sample_yes|].
  destruct (votes_count_in_any_order (PH := Sample.hash) VoteSample.junk VoteSample.junk VoteSample.recover VoteSample.verify Sample.nodes_collaterals 1
    VoteSample.env false VoteSample.trigger MetaMan_new VoteSample.votes (rev VoteSample.votes) eq_refl eq_refl ltac:(discriminate) sample_votes_differ
    (Permutation_rev VoteSample.votes)) as (_ & H & _).
  exact (H VOTE_SIGNAL_FUNDING VOTE_OUTCOME_YES ltac:(discriminate)).
Defined.

(** With the check of rates on, the order matters: of two votes of one smartnode that arrive within an hour the first one stays, even where it is the older one, so that nodes that
    see them in different orders count differently. *)
Abbreviation rated vs := (process_votes (PH := Sample.hash) VoteSample.junk VoteSample.junk VoteSample.recover VoteSample.verify VoteSample.env true VoteSample.trigger MetaMan_new vs).1.
Theorem rate_checks_depend_on_order :
  let old := VoteSample.vote 7 VOTE_OUTCOME_NO 1000 in let new := VoteSample.vote 7 VOTE_OUTCOME_YES 1200 in
  GetAbsoluteYesCount (rated [old; new]) VOTE_SIGNAL_FUNDING = -1 /\ GetAbsoluteYesCount (rated [new; old]) VOTE_SIGNAL_FUNDING = 1.
Proof. split; vm_compute; reflexivity. Qed.
