(* ===== verification/ProTxCheck.v ===== *)
(** The checks a special transaction passes before it changes the smartnode list: [evo/providertx.cpp], [CheckSpecialTx] of [evo/specialtx.cpp], [CheckCbTx] of
    [evo/cbtx.cpp] and [CheckLLMQCommitment] of [llmq/quorums_commitment.cpp]. *)

From stdpp Require Import prelude gmap strings.
From Stdlib Require Import ZArith Lia.
From S2P Require Import Spork GovernanceObject.
From S2P Require Import Prelude Serialize Hashes StrEncodings Numbers Opcodes Transaction Script Interpreter Standard Address NetAddress ProTx TxFormat ProTxFormat Llmq SmartnodeList SmartnodeBlock.

Open Scope Z_scope.
Open Scope dmn_scope.

#[export] Instance CTxDestination_eq_dec : EqDecision CTxDestination.
Proof. solve_decision. Defined.

(** A refusal, with its score and its reason; [None] is a failed assertion or a null pointer that is followed. *)
Abbreviation checked := (option (result (Z * string) unit)) (only parsing).
Definition DoS {A : Type} (level : Z) (reason : string) : option (result (Z * string) A) := dfail (level, reason).

Inductive network := MAIN | TESTNET | DEVNET | REGTEST.
#[export] Instance network_eq_dec : EqDecision network.
Proof. solve_decision. Defined.
(** The default port of the main network. *)
Definition mainnetDefaultPort : Z := 7961.

(** What the checks read of the node: the network, the coins and the chain at the tip, and the signature schemes of the libraries. *)
Class CheckContext := {
  NetworkIDString : network;
  fAllowPrivateNet : bool;
  AreAssetsDeployed : bool;
  spork_22 : Z;                                                 (* [sporkManager.GetSporkValue(SPORK_22_ENABLE_IPV6)] *)
  tip_nHeight : Z;                                              (* [chainActive.Tip()->nHeight] *)
  DIP0003Height : Z;
  DIP0008Enabled : bool;
  TipCoin : COutPoint -> option CTxOut;                         (* an unspent coin of [pcoinsTip] *)
  consensus_params : Z -> option LLMQParams;                    (* [Params().GetConsensus().llmqs] *)
  mapBlockIndex_nHeight : Z -> option Z;                        (* the height of a known block *)
  quorum_nodes : Z -> Z -> list CDeterministicMN;               (* [GetAllQuorumMembers] *)
  prefixes : Prefixes;
  ripemd_junk : stream;
  ecdsa_recover : Z -> bool -> list Z -> stream -> option (list Z);
  bls_Verify : list Z -> stream -> CBLSPublicKey -> bool;
  bls_VerifyAggregated : list Z -> list CBLSPublicKey -> stream -> bool
}.

Section Checks.
Context `{PH : PropertyHash} `{CH : CryptoHashes} `{BL : BLSLibrary} `{BC : BlockContext} `{CX : CheckContext}.

(** ** Signatures and hashes *)

Definition payload_hash (fields : stream) : stream := Hash sha_junk [fields].
Definition VerifyInsecure (sig : CBLSSignature) (pubKey : CBLSPublicKey) (hash : stream) : bool :=
  match sig with
  | None => false
  | Some impl => if negb (BLS_IsValid pubKey) then false else bls_Verify impl hash pubKey
  end.
Definition VerifySecureAggregated (sig : CBLSSignature) (pks : list CBLSPublicKey) (hash : stream) : bool :=
  if bool_decide (pks = []) then false else bls_VerifyAggregated (Sig_GetBuf sig) pks hash.

(** [CheckHashSig] with a key id and with a key of the operator, [CheckStringSig] *)
Definition CheckHashSig (fields : stream) (keyID : keyid) (vchSig : list Z) : checked :=
  if negb (VerifyHash sha_junk ripemd_junk ecdsa_recover (payload_hash fields) keyID vchSig) then DoS 100 "bad-protx-sig" else dret tt.
Definition CheckHashSig_bls (fields : stream) (pubKey : CBLSPublicKey) (sig : CBLSSignature) : checked :=
  if negb (VerifyInsecure sig pubKey (payload_hash fields)) then DoS 100 "bad-protx-sig" else dret tt.
Definition CheckStringSig (strMessage : list Z) (keyID : keyid) (vchSig : list Z) : checked :=
  if negb (VerifyMessage sha_junk ripemd_junk ecdsa_recover keyID vchSig strMessage) then DoS 100 "bad-protx-sig" else dret tt.
Definition CheckInputsHash (tx : CTransaction) (inputsHash : Z) : checked :=
  if negb (CalcTxInputsHash sha_junk tx =? inputsHash) then DoS 100 "bad-protx-inputs-hash" else dret tt.

(** [None] when an address has no text. *)
Definition MakeSignString (p : CProRegTx) : option (list Z) :=
  strPayout ← match ExtractDestination (reg_scriptPayout p) with
              | Some destPayout =>
                  let '(ok, addrPayout) := Address_Set prefixes destPayout in
                  if ok then ToString sha_junk addrPayout else Some (HexStr (reg_scriptPayout p) false)
              | None => Some (HexStr (reg_scriptPayout p) false)
              end;
  owner ← ToString sha_junk (Address_Set prefixes (CKeyID (reg_keyIDOwner p))).2;
  voting ← ToString sha_junk (Address_Set prefixes (CKeyID (reg_keyIDVoting p))).2;
  Some (strPayout ++ [124] ++ i64tostr (reg_nOperatorReward p) ++ [124] ++ owner ++ [124] ++ voting ++ [124] ++ uint256_ToString (le_value (payload_hash (ProRegTx_fields p)))).

(** ** Services *)

Definition CheckService (addr : CService) : checked :=
  let a := netaddr (service_of addr) in
  let GetPort := port (service_of addr) in
  if negb (IsValid a) then DoS 10 "bad-protx-ipaddr"
  else if negb (bool_decide (NetworkIDString = REGTEST)) && negb (IsRoutable fAllowPrivateNet a) then DoS 10 "bad-protx-ipaddr"
  else if (if bool_decide (NetworkIDString = MAIN) then negb (GetPort =? mainnetDefaultPort) else GetPort =? mainnetDefaultPort) then DoS 10 "bad-protx-ipaddr-port"
  else if AreAssetsDeployed && (tip_nHeight <=? spork_22) then
    if negb (IsIPv4 a) && negb (IsIPv6 a) then DoS 10 "bad-protx-ipaddr" else dret tt
  else if negb (IsIPv4 a) then DoS 10 "bad-protx-ipaddr" else dret tt.

(** ** The provider transactions; [pindexPrev] is the height of the previous block and its list *)

(** [IsDIP3Enforced] at the tip of the chain. *)
Definition dip3_enforced (nHeight : Z) : bool := DIP0003Height <=? (if nHeight =? -1 then tip_nHeight else nHeight).
Definition bad_version (nVersion : Z) : bool := (nVersion =? 0) || (CURRENT_VERSION <? nVersion).
Definition standard_payee (script : CScript) : bool := IsPayToPublicKeyHash script || IsPayToScriptHash script.
Definition IsNull_keyid (k : keyid) : bool := bool_decide (k = keyid_null).
Definition reuses (dest : CTxDestination) (owner voting : keyid) : bool := bool_decide (dest = CKeyID owner) || bool_decide (dest = CKeyID voting).

(** The destination of the collateral, the key that has to sign (null if the collateral is an output of the transaction) and the collateral. *)
Definition find_collateral (tx : CTransaction) (p : CProRegTx) : option (result (Z * string) (CTxDestination * keyid * COutPoint)) :=
  if negb (fst (reg_collateralOutpoint p) =? 0) then
    match TipCoin (reg_collateralOutpoint p) with
    | None => DoS 10 "bad-protx-collateral"
    | Some out =>
        if negb (isValidCollateral nCollaterals (nValue out)) then DoS 10 "bad-protx-collateral"
        else
          match ExtractDestination (scriptPubKey out) with
          | None => DoS 10 "bad-protx-collateral-dest"
          | Some collateralTxDest =>
              match GetKeyID prefixes (Address_Set prefixes collateralTxDest).2 with
              | None => DoS 10 "bad-protx-collateral-pkh"
              | Some keyForPayloadSig => dret (collateralTxDest, keyForPayloadSig, reg_collateralOutpoint p)
              end
          end
    end
  else
    match vout tx !! Z.to_nat (snd (reg_collateralOutpoint p)) with
    | None => DoS 10 "bad-protx-collateral-index"
    | Some out =>
        if negb (isValidCollateral nCollaterals (nValue out)) then DoS 10 "bad-protx-collateral"
        else
          match ExtractDestination (scriptPubKey out) with
          | None => DoS 10 "bad-protx-collateral-dest"
          | Some collateralTxDest => dret (collateralTxDest, keyid_null, (txid tx, snd (reg_collateralOutpoint p)))
          end
    end.

(** The properties of the registration are not used by other nodes. *)
Definition check_unique (p : CProRegTx) (collateralOutpoint : COutPoint) (prevHeight : Z) (mnList : CDeterministicMNList) : checked :=
  do dup <- (if HasUniqueProperty mnList (UService (reg_addr p))
             then dassert ((fun d => negb (bool_decide (SmartnodeList.collateralOutpoint d = collateralOutpoint))) <$> GetUniquePropertyMN mnList (UService (reg_addr p)))
             else dret false);
  if (dup : bool) then DoS 10 "bad-protx-dup-addr"
  else if HasUniqueProperty mnList (UKeyID (reg_keyIDOwner p)) || HasUniqueProperty mnList (UBLS (reg_pubKeyOperator p)) then DoS 10 "bad-protx-dup-key"
  else if negb (dip3_enforced prevHeight) && negb (bool_decide (reg_keyIDOwner p = reg_keyIDVoting p)) then DoS 10 "bad-protx-key-not-same"
  else dret tt.

Definition CheckProRegTx (tx : CTransaction) (pindexPrev : option (Z * CDeterministicMNList)) : checked :=
  if negb (tx_nType tx =? TRANSACTION_PROVIDER_REGISTER) then DoS 100 "bad-protx-type"
  else match GetProRegTx tx with
  | None => DoS 100 "bad-protx-payload"
  | Some p =>
      if bad_version (reg_nVersion p) then DoS 100 "bad-protx-version"
      else if negb (reg_nType p =? 0) then DoS 100 "bad-protx-type"
      else if negb (reg_nMode p =? 0) then DoS 100 "bad-protx-mode"
      else if IsNull_keyid (reg_keyIDOwner p) || negb (BLS_IsValid (reg_pubKeyOperator p)) || IsNull_keyid (reg_keyIDVoting p) then DoS 10 "bad-protx-key-null"
      else if negb (standard_payee (reg_scriptPayout p)) then DoS 10 "bad-protx-payee"
      else match ExtractDestination (reg_scriptPayout p) with
      | None => DoS 10 "bad-protx-payee-dest"
      | Some payoutDest =>
          if reuses payoutDest (reg_keyIDOwner p) (reg_keyIDVoting p) then DoS 10 "bad-protx-payee-reuse"
          else
            do _ <- (if negb (reg_addr p =? CService_null) then CheckService (reg_addr p) else dret tt);
            if 10000 <? reg_nOperatorReward p then DoS 10 "bad-protx-operator-reward"
            else
              do c <- find_collateral tx p;
              let '(collateralTxDest, keyForPayloadSig, collateralOutpoint) := c in
              if reuses collateralTxDest (reg_keyIDOwner p) (reg_keyIDVoting p) then DoS 10 "bad-protx-collateral-reuse"
              else
                do _ <- match pindexPrev with Some (prevHeight, mnList) => check_unique p collateralOutpoint prevHeight mnList | None => dret tt end;
                do _ <- CheckInputsHash tx (reg_inputsHash p);
                if negb (IsNull_keyid keyForPayloadSig) then
                  do strMessage <- dassert (MakeSignString p); CheckStringSig strMessage keyForPayloadSig (reg_vchSig p)
                else if negb (bool_decide (reg_vchSig p = [])) then DoS 100 "bad-protx-sig"
                else dret tt
      end
  end.

Definition CheckProUpServTx (tx : CTransaction) (pindexPrev : option (Z * CDeterministicMNList)) : checked :=
  if negb (tx_nType tx =? TRANSACTION_PROVIDER_UPDATE_SERVICE) then DoS 100 "bad-protx-type"
  else match GetProUpServTx tx with
  | None => DoS 100 "bad-protx-payload"
  | Some p =>
      if bad_version (serv_nVersion p) then DoS 100 "bad-protx-version"
      else
        do _ <- CheckService (serv_addr p);
        match pindexPrev with
        | None => dret tt
        | Some (_, mnList) =>
            match GetMN mnList (serv_proTxHash p) with
            | None => DoS 100 "bad-protx-hash"
            | Some mn =>
                do dup <- (if HasUniqueProperty mnList (UService (serv_addr p))
                           then dassert ((fun d => negb (proTxHash d =? serv_proTxHash p)) <$> GetUniquePropertyMN mnList (UService (serv_addr p)))
                           else dret false);
                if (dup : bool) then DoS 10 "bad-protx-dup-addr"
                else if negb (bool_decide (serv_scriptOperatorPayout p = [])) && ((nOperatorReward mn =? 0) || negb (standard_payee (serv_scriptOperatorPayout p)))
                then DoS 10 "bad-protx-operator-payee"
                else
                  do _ <- CheckInputsHash tx (serv_inputsHash p);
                  CheckHashSig_bls (ProUpServTx_fields p) (pubKeyOperator (pdmnState mn)) (serv_sig p)
            end
        end
  end.

(** What depends on the node whose keys and payee are changed. *)
Definition check_registrar (p : CProUpRegTx) (payoutDest : CTxDestination) (prevHeight : Z) (mnList : CDeterministicMNList) (dmn : CDeterministicMN) : checked :=
  let keyIDOwner := keyIDOwner (pdmnState dmn) in
  if reuses payoutDest keyIDOwner (upreg_keyIDVoting p) then DoS 10 "bad-protx-payee-reuse"
  else match TipCoin (collateralOutpoint dmn) with
  | None => DoS 100 "bad-protx-collateral"
  | Some coin =>
      match ExtractDestination (scriptPubKey coin) with
      | None => DoS 100 "bad-protx-collateral-dest"
      | Some collateralTxDest =>
          if reuses collateralTxDest keyIDOwner (upreg_keyIDVoting p) then DoS 10 "bad-protx-collateral-reuse"
          else
            do dup <- (if HasUniqueProperty mnList (UBLS (upreg_pubKeyOperator p))
                       then dassert ((fun d => negb (upreg_proTxHash p =? proTxHash d)) <$> GetUniquePropertyMN mnList (UBLS (upreg_pubKeyOperator p)))
                       else dret false);
            if (dup : bool) then DoS 10 "bad-protx-dup-key"
            else if negb (dip3_enforced prevHeight) && negb (bool_decide (keyIDOwner = upreg_keyIDVoting p)) then DoS 10 "bad-protx-key-not-same"
            else dret tt
      end
  end.
Definition CheckProUpRegTx (tx : CTransaction) (pindexPrev : option (Z * CDeterministicMNList)) : checked :=
  if negb (tx_nType tx =? TRANSACTION_PROVIDER_UPDATE_REGISTRAR) then DoS 100 "bad-protx-type"
  else match GetProUpRegTx tx with
  | None => DoS 100 "bad-protx-payload"
  | Some p =>
      if bad_version (upreg_nVersion p) then DoS 100 "bad-protx-version"
      else if negb (upreg_nMode p =? 0) then DoS 100 "bad-protx-mode"
      else if negb (BLS_IsValid (upreg_pubKeyOperator p)) || IsNull_keyid (upreg_keyIDVoting p) then DoS 10 "bad-protx-key-null"
      else if negb (standard_payee (upreg_scriptPayout p)) then DoS 10 "bad-protx-payee"
      else match ExtractDestination (upreg_scriptPayout p) with
      | None => DoS 10 "bad-protx-payee-dest"
      | Some payoutDest =>
          match pindexPrev with
          | None => dret tt
          | Some (prevHeight, mnList) =>
              match GetMN mnList (upreg_proTxHash p) with
              | None => DoS 100 "bad-protx-hash"
              | Some dmn =>
                  do _ <- check_registrar p payoutDest prevHeight mnList dmn;
                  do _ <- CheckInputsHash tx (upreg_inputsHash p);
                  CheckHashSig (ProUpRegTx_fields p) (keyIDOwner (pdmnState dmn)) (upreg_vchSig p)
              end
          end
      end
  end.

Definition CheckProUpRevTx (tx : CTransaction) (pindexPrev : option (Z * CDeterministicMNList)) : checked :=
  if negb (tx_nType tx =? TRANSACTION_PROVIDER_UPDATE_REVOKE) then DoS 100 "bad-protx-type"
  else match GetProUpRevTx tx with
  | None => DoS 100 "bad-protx-payload"
  | Some p =>
      if bad_version (rev_nVersion p) then DoS 100 "bad-protx-version"
      else if REASON_LAST <? rev_nReason p then DoS 100 "bad-protx-reason"
      else match pindexPrev with
      | None => dret tt
      | Some (_, mnList) =>
          match GetMN mnList (rev_proTxHash p) with
          | None => DoS 100 "bad-protx-hash"
          | Some dmn =>
              do _ <- CheckInputsHash tx (rev_inputsHash p);
              CheckHashSig_bls (ProUpRevTx_fields p) (pubKeyOperator (pdmnState dmn)) (rev_sig p)
          end
      end
  end.

(** ** Quorum commitments *)

Definition VerifySizes (params : LLMQParams) (c : CFinalCommitment) : bool :=
  (Z.of_nat (length (fc_signers c)) =? llmq_size params) && (Z.of_nat (length (fc_validMembers c)) =? llmq_size params).
Definition VerifyNull (c : CFinalCommitment) : bool :=
  match consensus_params (fc_llmqType c) with
  | None => false
  | Some params => Commitment_IsNull c && VerifySizes params c
  end.
Definition BuildCommitmentHash (c : CFinalCommitment) (llmqType : Z) : stream :=
  Hash sha_junk [ser_writedata 1 llmqType; le_bytes 32 (fc_quorumHash c); DynamicBitSet_Serialize (fc_validMembers c); Key_GetBuf (fc_quorumPublicKey c);
                 le_bytes 32 (fc_quorumVvecHash c)].
(** The keys of the members that signed; [None] is an access past the end of the bits. *)
Fixpoint signer_keys (members : list CDeterministicMN) (signers : list bool) : option (list CBLSPublicKey) :=
  match members, signers with
  | [], _ => Some []
  | d :: members, b :: signers => keys ← signer_keys members signers; Some (if (b : bool) then pubKeyOperator (pdmnState d) :: keys else keys)
  | _ :: _, [] => None
  end.
Definition Commitment_Verify (c : CFinalCommitment) (members : list CDeterministicMN) (checkSigs : bool) : option bool :=
  if (fc_nVersion c =? 0) || (CURRENT_VERSION <? fc_nVersion c) then Some false
  else match consensus_params (fc_llmqType c) with
  | None => Some false
  | Some params =>
      if negb (VerifySizes params c) then Some false
      else if CountValidMembers c <? llmq_minSize params then Some false
      else if CountSigners c <? llmq_minSize params then Some false
      else if negb (BLS_IsValid (fc_quorumPublicKey c)) then Some false
      else if fc_quorumVvecHash c =? 0 then Some false
      else if negb (BLSSig_IsValid (fc_membersSig c)) then Some false
      else if negb (BLSSig_IsValid (fc_quorumSig c)) then Some false
      else if negb (forallb negb (drop (length members) (fc_validMembers c)) && forallb negb (drop (length members) (fc_signers c))) then Some false
      else if checkSigs then
        let commitmentHash := BuildCommitmentHash c (llmq_type params) in
        memberPubKeys ← signer_keys members (fc_signers c);
        if negb (VerifySecureAggregated (fc_membersSig c) memberPubKeys commitmentHash) then Some false
        else if negb (VerifyInsecure (fc_quorumSig c) (fc_quorumPublicKey c) commitmentHash) then Some false
        else Some true
      else Some true
  end.
Definition CheckLLMQCommitment (tx : CTransaction) (prevHeight : Z) : checked :=
  match GetQuorumCommitment tx with
  | None => DoS 100 "bad-qc-payload"
  | Some qcTx =>
      let c := commitment qcTx in
      if (qc_nVersion qcTx =? 0) || (CURRENT_VERSION <? qc_nVersion qcTx) then DoS 100 "bad-qc-version"
      else if negb (qc_nHeight qcTx =? u32 (prevHeight + 1)) then DoS 100 "bad-qc-height"
      else match mapBlockIndex_nHeight (fc_quorumHash c) with
      | None => DoS 100 "bad-qc-quorum-hash"
      | Some quorumHeight =>
          if negb (bool_decide (GetAncestor quorumHeight = Some (fc_quorumHash c))) then DoS 100 "bad-qc-quorum-hash"
          else match consensus_params (fc_llmqType c) with
          | None => DoS 100 "bad-qc-type"
          | Some params =>
              if Commitment_IsNull c then
                if negb (VerifyNull c) then DoS 100 "bad-qc-invalid-null" else dret tt
              else
                do ok <- dassert (Commitment_Verify c (quorum_nodes (llmq_type params) (fc_quorumHash c)) false);
                if negb ok then DoS 100 "bad-qc-invalid" else dret tt
          end
      end
  end.

(** ** The coinbase *)

Definition CbTx_CURRENT_VERSION : Z := 2.
Definition CheckCbTx (tx : CTransaction) (pindexPrev : option Z) : checked :=
  if negb (tx_nType tx =? TRANSACTION_COINBASE) then DoS 100 "bad-cbtx-type"
  else if negb (IsCoinBase tx) then DoS 100 "bad-cbtx-invalid"
  else match GetCbTx tx with
  | None => DoS 100 "bad-cbtx-payload"
  | Some cbTx =>
      if (cb_nVersion cbTx =? 0) || (CbTx_CURRENT_VERSION <? cb_nVersion cbTx) then DoS 100 "bad-cbtx-version"
      else match pindexPrev with
      | None => dret tt
      | Some prevHeight =>
          if negb (prevHeight + 1 =? cb_nHeight cbTx) then DoS 100 "bad-cbtx-height"
          else if DIP0008Enabled && (cb_nVersion cbTx <? 2) then DoS 100 "bad-cbtx-version"
          else dret tt
      end
  end.

(** ** Dispatch *)

Definition isDIPDIP0003Active (nHeight : Z) : bool := DIP0003Height <=? (if nHeight =? -1 then tip_nHeight else nHeight).
Definition is_special (tx : CTransaction) : bool := (tx_nVersion tx =? 3) && negb (tx_nType tx =? TRANSACTION_NORMAL).
Definition CheckSpecialTx (tx : CTransaction) (prevHeight : Z) (mnList : CDeterministicMNList) : checked :=
  let pindexPrev := Some (prevHeight, mnList) in
  if negb (is_special tx) then dret tt
  else if negb (isDIPDIP0003Active (prevHeight + 1)) then DoS 10 "bad-tx-type"
  else if tx_nType tx =? TRANSACTION_PROVIDER_REGISTER then CheckProRegTx tx pindexPrev
  else if tx_nType tx =? TRANSACTION_PROVIDER_UPDATE_SERVICE then CheckProUpServTx tx pindexPrev
  else if tx_nType tx =? TRANSACTION_PROVIDER_UPDATE_REGISTRAR then CheckProUpRegTx tx pindexPrev
  else if tx_nType tx =? TRANSACTION_PROVIDER_UPDATE_REVOKE then CheckProUpRevTx tx pindexPrev
  else if tx_nType tx =? TRANSACTION_COINBASE then CheckCbTx tx (Some prevHeight)
  else if tx_nType tx =? TRANSACTION_QUORUM_COMMITMENT then CheckLLMQCommitment tx prevHeight
  else DoS 10 "bad-tx-type-check".
Definition known_type (nType : Z) : bool := (TRANSACTION_PROVIDER_REGISTER <=? nType) && (nType <=? TRANSACTION_QUORUM_COMMITMENT).
Definition ProcessSpecialTx (tx : CTransaction) : checked :=
  if negb (is_special tx) then dret tt else if known_type (tx_nType tx) then dret tt else DoS 100 "bad-tx-type-proc".
Definition UndoSpecialTx (tx : CTransaction) : bool := if negb (is_special tx) then true else known_type (tx_nType tx).
(** The loop of [ProcessSpecialTxsInBlock]. *)
Fixpoint check_block (vtx : list CTransaction) (prevHeight : Z) (mnList : CDeterministicMNList) : checked :=
  match vtx with
  | [] => dret tt
  | tx :: vtx =>
      do _ <- CheckSpecialTx tx prevHeight mnList;
      do _ <- ProcessSpecialTx tx;
      check_block vtx prevHeight mnList
  end.
End Checks.
