(* ===== verification/ProTxBlock.v ===== *)
(** What the checks of special transactions achieve for the smartnode list: a checked block does not run into an assertion, and what changes in a node was signed for. *)

From stdpp Require Import prelude gmap strings.
From Stdlib Require Import ZArith Lia.
From S2P Require Import Prelude Serialize Hashes Transaction Interpreter NetAddress ProTx TxFormat ProTxFormat Llmq SmartnodeList SmartnodeBlock ProTxCheck.

Open Scope Z_scope.

(** ** What an accepted transaction satisfies *)

Lemma dbind_Ok {E A B} (m : option (result E A)) (k : A -> option (result E B)) b : dbind m k = Some (Ok b) <-> exists a, m = Some (Ok a) /\ k a = Some (Ok b).
Proof.
  split; [|by intros (a & -> & Hk)]. destruct m as [[a|e]|]; cbn [dbind]; [|done..]. eauto.
Qed.
Lemma DoS_Ok {A} level reason (a : A) : DoS level reason = Some (Ok a) <-> False.
Proof. done. Qed.

(** Goes down the branches that accept. *)
Ltac accepted H :=
  repeat match type of H with
  | dbind _ _ = Some (Ok _) => let x := fresh "x" in let Hx := fresh "Hx" in apply dbind_Ok in H as (x & Hx & H); try (match type of x with unit => destruct x end)
  | (if ?b then DoS _ _ else _) = Some (Ok _) => let E := fresh "Eb" in destruct b eqn:E; [done|]
  | match ?o with Some _ => _ | None => DoS _ _ end = Some (Ok _) => let E := fresh "Eo" in destruct o eqn:E; [|done]
  | context [let '(_, _) := ?p in _] => destruct p
  end.

Section Accepted.
Context `{PH : PropertyHash} `{CH : CryptoHashes} `{BL : BLSLibrary} `{BC : BlockContext} `{CX : CheckContext}.

Definition is_registration (tx : CTransaction) (p : CProRegTx) : Prop := tx_nVersion tx = 3 /\ tx_nType tx = TRANSACTION_PROVIDER_REGISTER /\ GetProRegTx tx = Some p.
Definition is_service (tx : CTransaction) (p : CProUpServTx) : Prop := tx_nVersion tx = 3 /\ tx_nType tx = TRANSACTION_PROVIDER_UPDATE_SERVICE /\ GetProUpServTx tx = Some p.
Definition is_registrar (tx : CTransaction) (p : CProUpRegTx) : Prop := tx_nVersion tx = 3 /\ tx_nType tx = TRANSACTION_PROVIDER_UPDATE_REGISTRAR /\ GetProUpRegTx tx = Some p.
Definition is_revocation (tx : CTransaction) (p : CProUpRevTx) : Prop := tx_nVersion tx = 3 /\ tx_nType tx = TRANSACTION_PROVIDER_UPDATE_REVOKE /\ GetProUpRevTx tx = Some p.
Definition is_commitment (tx : CTransaction) (p : CFinalCommitmentTxPayload) : Prop := tx_nVersion tx = 3 /\ tx_nType tx = TRANSACTION_QUORUM_COMMITMENT /\ GetQuorumCommitment tx = Some p.

Lemma CheckInputsHash_Ok tx h : CheckInputsHash tx h = Some (Ok tt) -> CalcTxInputsHash sha_junk tx = h.
Proof. unfold CheckInputsHash. destruct (Z.eqb_spec (CalcTxInputsHash sha_junk tx) h); [done|]. by cbn [negb]. Qed.

(** The collateral of a registration: an output of the transaction, or a coin whose key has to sign. *)
Definition collateral_proved (tx : CTransaction) (p : CProRegTx) : Prop :=
  (fst (reg_collateralOutpoint p) = 0 /\ exists out, vout tx !! Z.to_nat (snd (reg_collateralOutpoint p)) = Some out /\ isValidCollateral nCollaterals (nValue out) = true) \/
  (fst (reg_collateralOutpoint p) <> 0 /\ exists out dest keyID, TipCoin (reg_collateralOutpoint p) = Some out /\ isValidCollateral nCollaterals (nValue out) = true /\
     Standard.ExtractDestination (scriptPubKey out) = Some dest /\ Address.GetKeyID prefixes (Address.Address_Set prefixes dest).2 = Some keyID /\
     (keyID = keyid_null \/ exists msg, MakeSignString p = Some msg /\ Spork.VerifyMessage sha_junk ripemd_junk ecdsa_recover keyID (reg_vchSig p) msg = true)).

Lemma find_collateral_Ok tx p dest keyID o : find_collateral tx p = Some (Ok (dest, keyID, o)) ->
  (keyID = keyid_null \/ exists msg, MakeSignString p = Some msg /\ Spork.VerifyMessage sha_junk ripemd_junk ecdsa_recover keyID (reg_vchSig p) msg = true) ->
  collateral_proved tx p.
Proof.
  unfold find_collateral, collateral_proved. intros H Hsig. destruct (Z.eqb_spec (fst (reg_collateralOutpoint p)) 0) as [E|E]; cbn [negb] in H; accepted H.
  - left. split; [done|]. eexists. split; [done|]. by apply negb_false_iff.
  - right. split; [done|]. injection H as -> -> <-. do 3 eexists. split_and!; [done|by apply negb_false_iff|done|done|done].
Qed.
Lemma proreg_accepted tx prev l p : CheckProRegTx tx (Some (prev, l)) = Some (Ok tt) -> GetProRegTx tx = Some p ->
  reg_keyIDOwner p <> keyid_null /\ BLS_IsValid (reg_pubKeyOperator p) = true /\ CalcTxInputsHash sha_junk tx = reg_inputsHash p /\ collateral_proved tx p.
Proof.
  intros H Hp. unfold CheckProRegTx in H. rewrite Hp in H. accepted H. apply orb_false_iff in Eb3 as [Eb3 _]. apply orb_false_iff in Eb3 as [Eown Ebls].
  split_and!; [by apply bool_decide_eq_false in Eown|by apply negb_false_iff in Ebls|eapply CheckInputsHash_Ok; eassumption|].
  eapply find_collateral_Ok; [eassumption|]. unfold IsNull_keyid in H. case_bool_decide; [by left|right]. cbn [negb] in H. accepted H.
  destruct (MakeSignString p) as [msg|]; [|done]. exists msg. split; [done|]. apply (inj Some) in Hx3. injection Hx3 as <-. unfold CheckStringSig in H.
  by destruct (Spork.VerifyMessage _ _ _ _ _ _).
Qed.

(** Signatures over the payloads. *)
Definition owner_signed (p : CProUpRegTx) (owner : keyid) : Prop :=
  Spork.VerifyHash sha_junk ripemd_junk ecdsa_recover (payload_hash (ProUpRegTx_fields p)) owner (upreg_vchSig p) = true.
Definition operator_signed (fields : stream) (sig : CBLSSignature) (operator : CBLSPublicKey) : Prop := VerifyInsecure sig operator (payload_hash fields) = true.

Lemma CheckHashSig_bls_Ok fields key sig : CheckHashSig_bls fields key sig = Some (Ok tt) -> operator_signed fields sig key.
Proof. unfold CheckHashSig_bls, operator_signed. by destruct (VerifyInsecure _ _ _). Qed.
Lemma CheckHashSig_Ok p key : CheckHashSig (ProUpRegTx_fields p) key (upreg_vchSig p) = Some (Ok tt) -> owner_signed p key.
Proof. unfold CheckHashSig, owner_signed. by destruct (Spork.VerifyHash _ _ _ _ _ _). Qed.

Lemma service_accepted tx prev l p : CheckProUpServTx tx (Some (prev, l)) = Some (Ok tt) -> GetProUpServTx tx = Some p ->
  exists d, GetMN l (serv_proTxHash p) = Some d /\ CalcTxInputsHash sha_junk tx = serv_inputsHash p /\ operator_signed (ProUpServTx_fields p) (serv_sig p) (pubKeyOperator (pdmnState d)).
Proof.
  intros H Hp. unfold CheckProUpServTx in H. rewrite Hp in H. accepted H. eexists. split_and!; [done|eapply CheckInputsHash_Ok; eassumption|by apply CheckHashSig_bls_Ok].
Qed.
Lemma registrar_accepted tx prev l p : CheckProUpRegTx tx (Some (prev, l)) = Some (Ok tt) -> GetProUpRegTx tx = Some p ->
  exists d, GetMN l (upreg_proTxHash p) = Some d /\ BLS_IsValid (upreg_pubKeyOperator p) = true /\ CalcTxInputsHash sha_junk tx = upreg_inputsHash p /\
    owner_signed p (keyIDOwner (pdmnState d)) /\
    (HasUniqueProperty l (UBLS (upreg_pubKeyOperator p)) = true -> exists d', GetUniquePropertyMN l (UBLS (upreg_pubKeyOperator p)) = Some d' /\ proTxHash d' = upreg_proTxHash p).
Proof.
  intros H Hp. unfold CheckProUpRegTx in H. rewrite Hp in H. accepted H. apply orb_false_iff in Eb2 as [Ebls%negb_false_iff _].
  eexists. split_and!; [done|done|eapply CheckInputsHash_Ok; eassumption|by apply CheckHashSig_Ok|].
  unfold check_registrar in Hx. cbv zeta in Hx. accepted Hx. intros Hu. rewrite Hu in Hx1. destruct (GetUniquePropertyMN l _) as [d'|]; [|done]. exists d'. split; [done|].
  apply (inj Some) in Hx1. injection Hx1 as Hx1. by apply negb_false_iff, Z.eqb_eq in Hx1.
Qed.
Lemma revocation_accepted tx prev l p : CheckProUpRevTx tx (Some (prev, l)) = Some (Ok tt) -> GetProUpRevTx tx = Some p ->
  exists d, GetMN l (rev_proTxHash p) = Some d /\ CalcTxInputsHash sha_junk tx = rev_inputsHash p /\ operator_signed (ProUpRevTx_fields p) (rev_sig p) (pubKeyOperator (pdmnState d)).
Proof.
  intros H Hp. unfold CheckProUpRevTx in H. rewrite Hp in H. accepted H. eexists. split_and!; [done|eapply CheckInputsHash_Ok; eassumption|by apply CheckHashSig_bls_Ok].
Qed.
Lemma commitment_accepted tx prev p : CheckLLMQCommitment tx prev = Some (Ok tt) -> GetQuorumCommitment tx = Some p ->
  exists params, consensus_params (fc_llmqType (commitment p)) = Some params /\ Z.of_nat (length (fc_validMembers (commitment p))) = llmq_size params.
Proof.
  intros H Hp. unfold CheckLLMQCommitment in H. rewrite Hp in H. cbv zeta in H. accepted H. eexists. split; [done|].
  assert (Hs : VerifySizes l (commitment p) = true -> Z.of_nat (length (fc_validMembers (commitment p))) = llmq_size l) by (by intros [_ ?%Z.eqb_eq]%andb_true_iff).
  apply Hs. destruct (Commitment_IsNull _).
  - accepted H. apply negb_false_iff in Eb2. unfold VerifyNull in Eb2. rewrite Eo0 in Eb2. by apply andb_true_iff in Eb2 as [_ ?].
  - accepted H. unfold Commitment_Verify in Hx. rewrite Eo0 in Hx. destruct (VerifySizes l (commitment p)); [done|]. cbn [negb] in Hx. apply negb_false_iff in Eb2 as ->.
    by destruct ((fc_nVersion (commitment p) =? 0) || _).
Qed.

(** An accepted block is a block of accepted transactions. *)
Lemma check_block_Forall vtx prev l : check_block vtx prev l = Some (Ok tt) -> Forall (fun tx => CheckSpecialTx tx prev l = Some (Ok tt)) vtx.
Proof.
  induction vtx as [|tx vtx IH]; intros H; [constructor|]. cbn [check_block] in H. apply dbind_Ok in H as ([] & Htx & H). apply dbind_Ok in H as ([] & _ & H).
  constructor; [done|by apply IH].
Qed.
(** An accepted transaction of version three is of one of the types, and passed the check of its type. *)
Lemma CheckSpecialTx_type tx prev l : CheckSpecialTx tx prev l = Some (Ok tt) -> tx_nVersion tx = 3 ->
  (tx_nType tx = TRANSACTION_PROVIDER_REGISTER -> CheckProRegTx tx (Some (prev, l)) = Some (Ok tt)) /\
  (tx_nType tx = TRANSACTION_PROVIDER_UPDATE_SERVICE -> CheckProUpServTx tx (Some (prev, l)) = Some (Ok tt)) /\
  (tx_nType tx = TRANSACTION_PROVIDER_UPDATE_REGISTRAR -> CheckProUpRegTx tx (Some (prev, l)) = Some (Ok tt)) /\
  (tx_nType tx = TRANSACTION_PROVIDER_UPDATE_REVOKE -> CheckProUpRevTx tx (Some (prev, l)) = Some (Ok tt)) /\
  (tx_nType tx = TRANSACTION_QUORUM_COMMITMENT -> CheckLLMQCommitment tx prev = Some (Ok tt)).
Proof.
  unfold CheckSpecialTx, is_special. intros H V. rewrite V in H. cbn [Z.eqb Pos.eqb andb] in H.
  split_and!; intros T; rewrite T in H; cbn in H; by destruct (negb (isDIPDIP0003Active _)).
Qed.
(** The payload of an accepted transaction is there. *)
Lemma CheckSpecialTx_payload tx prev l : CheckSpecialTx tx prev l = Some (Ok tt) -> tx_nVersion tx = 3 ->
  (tx_nType tx = TRANSACTION_PROVIDER_REGISTER -> is_Some (GetProRegTx tx)) /\ (tx_nType tx = TRANSACTION_PROVIDER_UPDATE_SERVICE -> is_Some (GetProUpServTx tx)) /\
  (tx_nType tx = TRANSACTION_PROVIDER_UPDATE_REGISTRAR -> is_Some (GetProUpRegTx tx)) /\ (tx_nType tx = TRANSACTION_PROVIDER_UPDATE_REVOKE -> is_Some (GetProUpRevTx tx)) /\
  (tx_nType tx = TRANSACTION_QUORUM_COMMITMENT -> is_Some (GetQuorumCommitment tx)).
Proof.
  intros H V. destruct (CheckSpecialTx_type tx prev l H V) as (H1 & H2 & H3 & H4 & H5). split_and!; intros T.
  - specialize (H1 T). unfold CheckProRegTx in H1. destruct (negb _); [done|]. by destruct (GetProRegTx tx).
  - specialize (H2 T). unfold CheckProUpServTx in H2. destruct (negb _); [done|]. by destruct (GetProUpServTx tx).
  - specialize (H3 T). unfold CheckProUpRegTx in H3. destruct (negb _); [done|]. by destruct (GetProUpRegTx tx).
  - specialize (H4 T). unfold CheckProUpRevTx in H4. destruct (negb _); [done|]. by destruct (GetProUpRevTx tx).
  - specialize (H5 T). unfold CheckLLMQCommitment in H5. by destruct (GetQuorumCommitment tx).
Qed.
End Accepted.

(** ** Steps that leave the keys alone *)

Section Steps.
Context `{PHS : PropertyHashSpec} `{BC : BlockContext}.

(** The fields of a node that transactions set. *)
Definition quiet (s s' : CDeterministicMNState) : Prop :=
  keyIDOwner s' = keyIDOwner s /\ pubKeyOperator s' = pubKeyOperator s /\ keyIDVoting s' = keyIDVoting s /\ addr s' = addr s /\ scriptPayout s' = scriptPayout s /\
  scriptOperatorPayout s' = scriptOperatorPayout s.
Lemma quiet_refl s : quiet s s.
Proof. done. Qed.
Lemma quiet_trans s1 s2 s3 : quiet s1 s2 -> quiet s2 s3 -> quiet s1 s3.
Proof. unfold quiet. intuition congruence. Qed.

(** Every node of [l'] is one of [l], up to its state, and [R] relates the states. *)
Definition evolved (R : Z -> CDeterministicMNState -> CDeterministicMNState -> Prop) (l l' : CDeterministicMNList) : Prop :=
  forall h d', mnMap l' !! h = Some d' -> exists d, mnMap l !! h = Some d /\ d' = set_pdmnState d (pdmnState d') /\ R h (pdmnState d) (pdmnState d').
Abbreviation quietly := (evolved (fun _ => quiet)) (only parsing).
Lemma quietly_refl l : quietly l l.
Proof. intros h d Hd. exists d. split_and!; [done|by destruct d|apply quiet_refl]. Qed.
Lemma quietly_trans l1 l2 l3 : quietly l1 l2 -> quietly l2 l3 -> quietly l1 l3.
Proof.
  intros H12 H23 h d3 Hd3. destruct (H23 h d3 Hd3) as (d2 & Hd2 & E2 & R2). destruct (H12 h d2 Hd2) as (d1 & Hd1 & E1 & R1). exists d1.
  split_and!; [done|rewrite E1 in E2; by destruct d1, d3|by apply (quiet_trans _ (pdmnState d2))].
Qed.

(** No node but [h] has the property. *)
Definition free_at (l : CDeterministicMNList) (h : Z) (u : uprop) : Prop := forall h', h' <> h -> ~ holds (mnMap l) h' u.
Lemma free_null l h u : uprop_null u = true -> free_at l h u.
Proof. intros Hn h' _ (d & _ & _ & Hn'). congruence. Qed.
Lemma free_own l h d u : list_ok l -> mnMap l !! h = Some d -> slot d u = u -> free_at l h u.
Proof.
  intros Hl Hd Hs. destruct (uprop_null u) eqn:En; [by apply free_null|]. intros h' Hne Hh'. apply Hne. apply (index_functional _ _ u _ _ (ok_unique _ Hl) Hh'). exists d. done.
Qed.
Lemma free_unused l h u : list_ok l -> HasUniqueProperty l u = false -> free_at l h u.
Proof.
  intros Hl Hu h' _ Hh'. unfold HasUniqueProperty in Hu. apply bool_decide_eq_false in Hu. apply Hu. rewrite (index_lookup _ _ _ _ (ok_unique _ Hl) Hh'). eauto.
Qed.

Lemma UpdateMN_spec l h d s : list_inv l -> mnMap l !! h = Some d -> keyIDOwner s = keyIDOwner (pdmnState d) ->
  free_at l h (UService (addr s)) -> free_at l h (UBLS (pubKeyOperator s)) ->
  exists l', UpdateMN l h s = Some l' /\ advance0 l l' /\ mnMap l' = <[h := set_pdmnState d s]> (mnMap l).
Proof.
  intros Hl Hd Hown Ha Hb. pose proof (inv_ok _ Hl) as Hok. assert (Hfree : update_free l h d s).
  { intros h' u Hne [Hs _]. rewrite <- Hs. destruct u; cbn [slot set_pdmnState pdmnState collateralOutpoint].
    - by apply (free_own l h d); [..|done|].
    - by apply Ha.
    - rewrite Hown. by apply (free_own l h d).
    - by apply Hb. }
  destruct (UpdateMN_total l h d s Hok Hd Hfree) as [l' E]. exists l'. assert (EU : UpdateMN l h s = Some l') by (unfold UpdateMN; by rewrite Hd).
  assert (Hn : uprop_null (UKeyID (keyIDOwner s)) = false) by (rewrite Hown; by apply (GetMN_owner l h)).
  split_and!; [done|by eapply UpdateMN_inv|apply (UpdateMN_ok l h d s Hok Hd l' E Hn)].
Qed.
Lemma UpdateMN_quiet l h d s : list_inv l -> mnMap l !! h = Some d -> quiet (pdmnState d) s ->
  exists l', UpdateMN l h s = Some l' /\ advance0 l l' /\ quietly l l' /\ mnMap l' = <[h := set_pdmnState d s]> (mnMap l).
Proof.
  intros Hl Hd Hq. pose proof Hq as (Ho & Hk & _ & Ha & _). pose proof (inv_ok _ Hl) as Hok.
  destruct (UpdateMN_spec l h d s Hl Hd Ho) as (l' & E & Hadv & Hmap); [rewrite Ha; by apply (free_own l h d)|rewrite Hk; by apply (free_own l h d)|].
  exists l'. split_and!; [done|done| |done]. intros h' d'. rewrite Hmap. intros [[<- <-]|[_ Hd']]%lookup_insert_Some; [by exists d|]. exists d'. split_and!; [done|by destruct d'|done].
Qed.

(** A step that succeeds, keeps the invariant and leaves alone what transactions set. *)
Definition quiet_step (o : option CDeterministicMNList) (l : CDeterministicMNList) : Prop := exists l', o = Some l' /\ advance0 l l' /\ quietly l l'.
Lemma quiet_step_refl l : list_inv l -> quiet_step (Some l) l.
Proof. intros Hl. exists l. split_and!; [done|by apply advance0_refl|apply quietly_refl]. Qed.
Lemma quiet_step_trans l l1 o : advance0 l l1 -> quietly l l1 -> quiet_step o l1 -> quiet_step o l.
Proof. intros H1 Q1 (l2 & -> & H2 & Q2). exists l2. split_and!; [done|by apply (advance0_trans _ l1)|by apply (quietly_trans _ l1)]. Qed.

Ltac quiet_state := unfold quiet, UpdateConfirmedHash; cbv zeta; repeat case_match; match goal with |- context [pdmnState ?d] => destruct (pdmnState d); split_and!; done end.

Lemma confirm_loop_step ph phash ds : forall l, list_inv l -> NoDup (proTxHash <$> ds) -> (forall d, d ∈ ds -> mnMap l !! proTxHash d = Some d) ->
  quiet_step (confirm_loop ph phash l ds) l.
Proof.
  induction ds as [|d ds IH]; intros l Hl Hnd Hds; [by apply quiet_step_refl|]. cbn [confirm_loop]. rewrite fmap_cons in Hnd. apply NoDup_cons in Hnd as [Hnin Hnd].
  unfold confirm_one. destruct (negb _); [apply IH; [done..|intros d' Hd'; apply Hds; by right]|].
  destruct (_ <=? _); [|apply IH; [done..|intros d' Hd'; apply Hds; by right]].
  destruct (UpdateMN_quiet l (proTxHash d) d (UpdateConfirmedHash (pdmnState d) sha_junk (proTxHash d) phash) Hl (Hds d ltac:(by left))) as (l1 & -> & Hadv & Hq & Hmap); [quiet_state|].
  cbn [mbind option_bind]. apply (quiet_step_trans _ l1); [done|done|]. apply IH; [apply Hadv|done|]. intros d' Hd'. rewrite Hmap, lookup_insert_ne; [apply Hds; by right|].
  intros E. apply Hnin. rewrite E. by apply list_elem_of_fmap_2.
Qed.
Lemma decrease_loop_step hs : forall l, list_inv l -> NoDup hs ->
  (forall h, h ∈ hs -> exists d, mnMap l !! h = Some d /\ 0 < nPoSePenalty (pdmnState d) /\ nPoSeBanHeight (pdmnState d) = -1) -> quiet_step (decrease_loop l hs) l.
Proof.
  induction hs as [|h hs IH]; intros l Hl Hnd Hds; [by apply quiet_step_refl|]. cbn [decrease_loop]. apply NoDup_cons in Hnd as [Hnin Hnd].
  destruct (Hds h ltac:(by left)) as (d & Hd & Hp & Hb). unfold PoSeDecrease, GetMN. rewrite Hd. cbn [mbind option_bind]. cbv zeta.
  rewrite (proj2 (Z.ltb_lt _ _) Hp), (proj2 (Z.eqb_eq _ _) Hb). cbn [andb check mbind option_bind].
  destruct (UpdateMN_quiet l h d (set_nPoSePenalty (pdmnState d) (nPoSePenalty (pdmnState d) - 1)) Hl Hd) as (l1 & -> & Hadv & Hq & Hmap); [quiet_state|].
  cbn [mbind option_bind]. apply (quiet_step_trans _ l1); [done|done|]. apply IH; [apply Hadv|done|]. intros h' Hh'. rewrite Hmap, lookup_insert_ne; [apply Hds; by right|]. by intros ->.
Qed.
Lemma CalcMax_pos l : 100 <= CalcMaxPoSePenalty l.
Proof. unfold CalcMaxPoSePenalty. lia. Qed.
Lemma PoSePunish_step l h d n : list_inv l -> mnMap l !! h = Some d -> 0 < n -> quiet_step (PoSePunish l h n) l.
Proof.
  intros Hl Hd Hn. unfold PoSePunish, GetMN. rewrite (proj2 (Z.ltb_lt 0 n) Hn), Hd. cbn [check mbind option_bind]. cbv zeta.
  match goal with |- context [UpdateMN l h ?s] => destruct (UpdateMN_quiet l h d s Hl Hd) as (l1 & -> & Hadv & Hq & Hmap); [quiet_state|] end. exists l1. done.
Qed.
Lemma punish_loop_step ms : forall vs l, list_inv l -> (length ms <= length vs)%nat -> quiet_step (punish_loop l ms vs) l.
Proof.
  induction ms as [|h ms IH]; intros vs l Hl Hlen; [by apply quiet_step_refl|]. destruct vs as [|v vs]; [cbn in Hlen; lia|]. cbn [punish_loop tail head length] in *. cbv zeta.
  destruct (HasMN l h) eqn:E; cbn [negb]; [|apply IH; [done|lia]]. cbn [mbind option_bind]. destruct v; [apply IH; [done|lia]|].
  unfold CalcPenalty. cbn [Z.ltb check mbind option_bind]. apply bool_decide_eq_true in E as [d Hd]. pose proof (CalcMax_pos l).
  assert (0 < CalcMaxPoSePenalty l * 66 / 100) by (apply Z.div_str_pos; lia).
  destruct (PoSePunish_step l h d (CalcMaxPoSePenalty l * 66 / 100) Hl Hd) as (l1 & E1 & Hadv & Hq); [done|]. change (0 <? 66) with true. cbn [check mbind option_bind]. rewrite E1.
  cbn [mbind option_bind]. apply (quiet_step_trans _ l1); [done|done|]. apply IH; [apply Hadv|lia].
Qed.
Lemma punish_loop_quietly ms : forall vs l l', list_inv l -> punish_loop l ms vs = Some l' -> quietly l l'.
Proof.
  induction ms as [|h ms IH]; intros vs l l' Hl Hp; cbn [punish_loop] in Hp; [injection Hp as <-; apply quietly_refl|]. cbv zeta in Hp.
  destruct (HasMN l h) eqn:E; cbn [negb] in Hp; [|by apply (IH _ _ _ Hl Hp)]. destruct (head vs) as [[]|]; cbn [mbind option_bind] in Hp; [by apply (IH _ _ _ Hl Hp)| |done].
  destruct (CalcPenalty l 66) as [n|]; [|done]. cbn [mbind option_bind] in Hp. destruct (PoSePunish l h n) as [l1|] eqn:E1; [|done]. cbn [mbind option_bind] in Hp.
  apply bool_decide_eq_true in E as [d Hd]. assert (Hn : 0 < n) by (unfold PoSePunish in E1; by destruct (Z.ltb_spec 0 n)).
  destruct (PoSePunish_step l h d n Hl Hd Hn) as (l2 & E2 & Hadv & Hq). assert (l2 = l1) as -> by congruence. apply (quietly_trans _ l1); [done|by apply (IH _ _ _ (proj1 Hadv) Hp)].
Qed.
Lemma RemoveMN_step l h d : list_inv l -> mnMap l !! h = Some d -> exists l', RemoveMN l h = Some l' /\ advance0 l l' /\ quietly l l' /\ mnMap l' = delete h (mnMap l).
Proof.
  intros Hl Hd. destruct (RemoveMN_ok l h d (inv_ok _ Hl) Hd) as (l' & E & _ & Hmap & _). exists l'. split_and!; [done|by eapply RemoveMN_inv| |done].
  intros h' d'. rewrite Hmap. intros [_ Hd']%lookup_delete_Some. exists d'. split_and!; [done|by destruct d'|apply quiet_refl].
Qed.
Lemma GetMNByCollateral_in l o d : list_inv l -> GetMNByCollateral l o = Some d -> mnMap l !! proTxHash d = Some d.
Proof.
  intros Hl Hd. apply (GetUniquePropertyMN_spec l _ _ (inv_ok _ Hl)) in Hd as (h & Hd & _). by rewrite (proj1 (ok_key _ (inv_ok _ Hl) h d Hd)).
Qed.
Lemma spend_loop_step ins : forall l, list_inv l -> quiet_step (spend_loop l ins) l.
Proof.
  induction ins as [|i ins IH]; intros l Hl; [by apply quiet_step_refl|]. cbn [spend_loop]. unfold spend_one. destruct (GetMNByCollateral l (prevout i)) as [d|] eqn:E; [|by apply IH].
  destruct (bool_decide _); [|by apply IH]. destruct (RemoveMN_step l _ d Hl (GetMNByCollateral_in l _ d Hl E)) as (l1 & -> & Hadv & Hq & _).
  cbn [mbind option_bind]. apply (quiet_step_trans _ l1); [done|done|]. apply IH, Hadv.
Qed.
Lemma pay_step n l payee : list_inv l -> quiet_step (pay n l payee) l.
Proof.
  intros Hl. unfold pay. destruct payee as [q|]; [|by apply quiet_step_refl]. destruct (GetMN l (proTxHash q)) as [d|] eqn:Hd; [|by apply quiet_step_refl].
  destruct (UpdateMN_quiet l _ d (set_nLastPaidHeight (pdmnState d) n) Hl Hd) as (l1 & -> & Hadv & Hq & Hmap); [quiet_state|]. exists l1. done.
Qed.
End Steps.

(** The state a step assigns, field by field. *)
Ltac assigned := unfold ResetOperatorFields, BanIfNotBanned; cbv zeta; repeat case_match; match goal with |- context [pdmnState ?d] => destruct (pdmnState d); done end.

(** ** What a special transaction changes *)

Section Changes.
Context `{PHS : PropertyHashSpec} `{BL : BLSLibrary} `{BC : BlockContext}.

Definition by_registrar (txs : list CTransaction) (h : Z) : Prop := exists tx p, tx ∈ txs /\ is_registrar tx p /\ upreg_proTxHash p = h.
Definition by_service (txs : list CTransaction) (h : Z) : Prop := exists tx p, tx ∈ txs /\ is_service tx p /\ serv_proTxHash p = h.
Definition by_revocation (txs : list CTransaction) (h : Z) : Prop := exists tx p, tx ∈ txs /\ is_revocation tx p /\ rev_proTxHash p = h.
(** A change of the state of a node, and the transactions that are needed for it. *)
Record permitted (txs : list CTransaction) (h : Z) (s s' : CDeterministicMNState) : Prop := {
  per_owner : keyIDOwner s' = keyIDOwner s;
  per_registrar : (keyIDVoting s' = keyIDVoting s /\ scriptPayout s' = scriptPayout s) \/ by_registrar txs h;
  per_service : (addr s' = addr s /\ scriptOperatorPayout s' = scriptOperatorPayout s) \/ by_registrar txs h \/ by_service txs h \/ by_revocation txs h;
  per_operator : pubKeyOperator s' = pubKeyOperator s \/ by_registrar txs h \/ by_revocation txs h
}.
(** The transaction gives the node this operator key. *)
Definition sets_operator (tx : CTransaction) (h : Z) (k : CBLSPublicKey) : Prop :=
  (exists p, is_registration tx p /\ txid tx = h /\ reg_pubKeyOperator p = k) \/ (exists p, is_registrar tx p /\ upreg_proTxHash p = h /\ upreg_pubKeyOperator p = k).
Definition changes (tx : CTransaction) (l l' : CDeterministicMNList) : Prop := forall h d', mnMap l' !! h = Some d' ->
  (exists p, is_registration tx p /\ txid tx = h /\ reg_pubKeyOperator p = pubKeyOperator (pdmnState d')) \/
  exists d, mnMap l !! h = Some d /\ d' = set_pdmnState d (pdmnState d') /\ permitted [tx] h (pdmnState d) (pdmnState d') /\
    (pubKeyOperator (pdmnState d') = pubKeyOperator (pdmnState d) \/ pubKeyOperator (pdmnState d') = CBLSPublicKey_null \/ sets_operator tx h (pubKeyOperator (pdmnState d'))).

Lemma quiet_permitted txs h s s' : quiet s s' -> permitted txs h s s'.
Proof. intros (? & ? & ? & ? & ? & ?). split; auto. Qed.
Lemma permitted_mono txs txs' h s s' : txs ⊆ txs' -> permitted txs h s s' -> permitted txs' h s s'.
Proof.
  intros Hs [H1 H2 H3 H4]. assert (Hr : by_registrar txs h -> by_registrar txs' h) by (intros (tx & p & Htx & Hp); exists tx, p; split; [by apply Hs|done]).
  assert (Hv : by_service txs h -> by_service txs' h) by (intros (tx & p & Htx & Hp); exists tx, p; split; [by apply Hs|done]).
  assert (Hk : by_revocation txs h -> by_revocation txs' h) by (intros (tx & p & Htx & Hp); exists tx, p; split; [by apply Hs|done]).
  split; [done|tauto|tauto|tauto].
Qed.
Lemma permitted_trans txs h s1 s2 s3 : permitted txs h s1 s2 -> permitted txs h s2 s3 -> permitted txs h s1 s3.
Proof.
  intros [A1 A2 A3 A4] [B1 B2 B3 B4]. split; [congruence| | |].
  - destruct A2 as [[]|]; [|auto]. destruct B2 as [[]|]; [|auto]. left. split; congruence.
  - destruct A3 as [[]|]; [|auto]. destruct B3 as [[]|]; [|auto]. left. split; congruence.
  - destruct A4 as [|]; [|auto]. destruct B4 as [|]; [|auto]. left. congruence.
Qed.
Lemma quietly_changes tx l l' : evolved (fun _ => quiet) l l' -> changes tx l l'.
Proof.
  intros Hq h d' Hd'. right. destruct (Hq h d' Hd') as (d & Hd & E & HR). exists d. split_and!; [done|done|by apply quiet_permitted|left; apply HR].
Qed.

(** *** The map after each operation *)

Lemma AddMN_map l d l' : AddMN l d = Some l' -> mnMap l' = <[proTxHash d := d]> (mnMap l).
Proof.
  rewrite AddMN_eq. destruct (check _) as [[]|]; [|done]. cbn [mbind option_bind]. generalize (props d) as us. set (l0 := set_mnInternalIdMap _ _).
  assert (E0 : mnMap l0 = <[proTxHash d := d]> (mnMap l)) by done. rewrite <- E0. clearbody l0. clear E0. intros us. revert l0.
  induction us as [|u us IH]; intros l0; cbn [add_all]; [by intros [= <-]|]. destruct (AddUniqueProperty l0 d u) as [l1|] eqn:E; [|done]. cbn [mbind option_bind]. intros Hl'.
  rewrite (IH l1 Hl'). unfold AddUniqueProperty in E. destruct (check _); [|done]. cbn [mbind option_bind] in E. cbv zeta in E.
  destruct (mnUniquePropertyMap l0 !! _) as [[o n]|]; [|by injection E as <-]. destruct (check _); [|done]. by injection E as <-.
Qed.
Lemma UpdateMN_map l h s l' d : list_inv l -> mnMap l !! h = Some d -> keyIDOwner s = keyIDOwner (pdmnState d) -> UpdateMN l h s = Some l' ->
  mnMap l' = <[h := set_pdmnState d s]> (mnMap l).
Proof.
  intros Hl Hd Ho Hup. unfold UpdateMN in Hup. rewrite Hd in Hup. cbn [mbind option_bind] in Hup.
  apply (UpdateMN_ok l h d s (inv_ok _ Hl) Hd l' Hup). rewrite Ho. by apply (GetMN_owner l h).
Qed.
(** An update of one node. *)
Lemma UpdateMN_changes tx l h s l' d : list_inv l -> mnMap l !! h = Some d -> UpdateMN l h s = Some l' -> permitted [tx] h (pdmnState d) s ->
  (pubKeyOperator s = pubKeyOperator (pdmnState d) \/ pubKeyOperator s = CBLSPublicKey_null \/ sets_operator tx h (pubKeyOperator s)) -> changes tx l l'.
Proof.
  intros Hl Hd Hup Hper Hop h' d'. rewrite (UpdateMN_map l h s l' d Hl Hd (per_owner _ _ _ _ Hper) Hup).
  intros [[<- <-]|[_ Hd']]%lookup_insert_Some; right; [by exists d|]. exists d'. split_and!; [done|by destruct d'|by apply quiet_permitted|by left].
Qed.

(** *** The special transactions *)

Lemma register_changes n l tx p l' : list_inv l -> nTotalRegisteredCount l + 1 < 2 ^ 32 -> is_registration tx p -> register n l tx p = Some (Ok l') -> changes tx l l'.
Proof.
  intros Hl Hlt Htx. pose proof (inv_count _ Hl) as Hc. unfold register. cbv zeta. rewrite u32_id by (unfold is_u32; lia).
  set (l1 := SetTotalRegisteredCount l _). destruct (_ && _); [done|].
  assert (Hl1 : list_inv l1).
  { destruct Hl as [[Hk Hi Hu] Hb _]. split; [by split| |cbn; lia]. intros h d Hd. cbn. apply Hb in Hd. lia. }
  destruct (match GetMNByCollateral l1 _ with Some r => RemoveMN l1 (proTxHash r) | None => Some l1 end) as [l2|] eqn:E; [|done]. cbn [dassert option_map dbind].
  assert (Hq : evolved (fun _ => quiet) l l2).
  { destruct (GetMNByCollateral l1 _) as [r|] eqn:Er; [|injection E as <-; exact (quietly_refl l)].
    destruct (RemoveMN_step l1 _ r Hl1 (GetMNByCollateral_in l1 _ r Hl1 Er)) as (l2' & E' & _ & Hq & _). assert (l2' = l2) as -> by congruence. exact Hq. }
  destruct (HasUniqueProperty l2 (UService _)); [done|]. destruct (_ || _); [done|].
  match goal with |- context [dassert ?o] => destruct o as [amount|] end; [|done]. cbn [dassert option_map dbind].
  match goal with |- context [AddMN l2 ?d] => destruct (AddMN l2 d) as [l3|] eqn:E3 end; [|done]. cbn [dassert option_map]. intros [= <-].
  intros h d'. rewrite (AddMN_map _ _ _ E3). intros [[<- <-]|[_ Hd']]%lookup_insert_Some; [|by apply (quietly_changes tx l l2 Hq)].
  left. exists p. split_and!; [done|done|]. cbn [pdmnState]. by destruct (bool_decide _).
Qed.
Lemma update_service_changes n l tx p l' : list_inv l -> is_service tx p -> update_service n l p = Some (Ok l') -> changes tx l l'.
Proof.
  intros Hl Htx. unfold update_service. match goal with |- context [dbind ?m _] => destruct m as [[[]|]|] end; try done. cbn [dbind].
  destruct (GetMN l (serv_proTxHash p)) as [d|] eqn:Hd; [|done]. cbv zeta.
  match goal with |- context [UpdateMN l _ ?s] => set (s' := s); destruct (UpdateMN l (serv_proTxHash p) s') as [l1|] eqn:Hup end; [|done]. intros [= <-].
  assert (Hs : by_service [tx] (serv_proTxHash p)) by (exists tx, p; split; [by left|done]).
  eapply UpdateMN_changes; [done|exact Hd|exact Hup| |left; unfold s'; assigned].
  split; [unfold s'; assigned|left; unfold s'; split; assigned|tauto|left; unfold s'; assigned].
Qed.
Lemma update_registrar_changes n l tx p l' : list_inv l -> is_registrar tx p -> update_registrar n l p = Some (Ok l') -> changes tx l l'.
Proof.
  intros Hl Htx. unfold update_registrar. destruct (GetMN l (upreg_proTxHash p)) as [d|] eqn:Hd; [|done]. cbv zeta.
  match goal with |- context [UpdateMN l _ ?s] => set (s' := s); destruct (UpdateMN l (upreg_proTxHash p) s') as [l1|] eqn:Hup end; [|done]. intros [= <-].
  assert (Hs : by_registrar [tx] (upreg_proTxHash p)) by (exists tx, p; split; [by left|done]).
  assert (Hk : pubKeyOperator s' = upreg_pubKeyOperator p) by (unfold s'; assigned).
  eapply UpdateMN_changes; [done|exact Hd|exact Hup| |do 2 right; right; by exists p]. split; [unfold s'; assigned|tauto..].
Qed.
Lemma revoke_changes n l tx p l' : list_inv l -> is_revocation tx p -> revoke n l p = Some (Ok l') -> changes tx l l'.
Proof.
  intros Hl Htx. unfold revoke. destruct (GetMN l (rev_proTxHash p)) as [d|] eqn:Hd; [|done]. cbv zeta.
  match goal with |- context [UpdateMN l _ ?s] => set (s' := s); destruct (UpdateMN l (rev_proTxHash p) s') as [l1|] eqn:Hup end; [|done]. intros [= <-].
  assert (Hs : by_revocation [tx] (rev_proTxHash p)) by (exists tx, p; split; [by left|done]).
  eapply UpdateMN_changes; [done|exact Hd|exact Hup| |right; left; unfold s'; assigned]. split; [unfold s'; assigned|left; unfold s'; split; assigned|tauto|tauto].
Qed.
Lemma special_tx_changes n l tx l' : list_inv l -> nTotalRegisteredCount l + 1 < 2 ^ 32 -> special_tx n l tx = Some (Ok l') -> changes tx l l'.
Proof.
  intros Hl Hlt. unfold special_tx. destruct (Z.eqb_spec (tx_nVersion tx) 3) as [V|]; cbn [negb]; [|intros [= <-]; apply quietly_changes, quietly_refl].
  destruct (Z.eqb_spec (tx_nType tx) TRANSACTION_PROVIDER_REGISTER) as [T|_]; [destruct (GetProRegTx tx) as [p|] eqn:G; [by apply (register_changes n l tx p)|done]|].
  destruct (Z.eqb_spec (tx_nType tx) TRANSACTION_PROVIDER_UPDATE_SERVICE) as [T|_]; [destruct (GetProUpServTx tx) as [p|] eqn:G; [by apply (update_service_changes n l tx p)|done]|].
  destruct (Z.eqb_spec (tx_nType tx) TRANSACTION_PROVIDER_UPDATE_REGISTRAR) as [T|_]; [destruct (GetProUpRegTx tx) as [p|] eqn:G; [by apply (update_registrar_changes n l tx p)|done]|].
  destruct (Z.eqb_spec (tx_nType tx) TRANSACTION_PROVIDER_UPDATE_REVOKE) as [T|_]; [destruct (GetProUpRevTx tx) as [p|] eqn:G; [by apply (revoke_changes n l tx p)|done]|].
  destruct (_ =? _); [destruct (GetQuorumCommitment tx) as [qc|]; [|done]|intros [= <-]; apply quietly_changes, quietly_refl]. cbn [dassert option_map dbind].
  unfold commit_quorum. destruct (Commitment_IsNull _); [intros [= <-]; apply quietly_changes, quietly_refl|]. destruct (llmqs _); [|done]. cbv zeta. destruct (bool_decide _); [|done].
  unfold HandleQuorumCommitment. destruct (punish_loop _ _ _) as [l1|] eqn:E; [|done]. intros [= <-]. apply quietly_changes. by apply (punish_loop_quietly _ _ _ _ Hl E).
Qed.
End Changes.

(** ** A checked block *)

Section Block.
Context `{PHS : PropertyHashSpec} `{CH : CryptoHashes} `{BL : BLSLibrary} `{BC : BlockContext} `{CX : CheckContext}.

Lemma unused_none l u h : list_inv l -> HasUniqueProperty l u = false -> ~ holds (mnMap l) h u.
Proof. intros Hl Hu. apply (free_unused l (h + 1) u (inv_ok _ Hl) Hu). lia. Qed.

Lemma register_total n l tx p : list_inv l -> nTotalRegisteredCount l + 1 < 2 ^ 32 -> mnMap l !! txid tx = None -> txid tx <> 0 -> reg_keyIDOwner p <> keyid_null ->
  (fst (reg_collateralOutpoint p) = 0 -> is_Some (vout tx !! Z.to_nat (snd (reg_collateralOutpoint p)))) -> is_Some (register n l tx p).
Proof.
  intros Hl Hlt Hnew Hid Hown Hout. pose proof (inv_count _ Hl) as Hc. unfold register. cbv zeta. rewrite u32_id by (unfold is_u32; lia).
  set (l1 := SetTotalRegisteredCount l _). set (o := if fst (reg_collateralOutpoint p) =? 0 then (txid tx, snd (reg_collateralOutpoint p)) else reg_collateralOutpoint p). destruct (_ && _) eqn:Ecoin; [by eexists|].
  assert (Hl1 : list_inv l1).
  { destruct Hl as [[Hk Hi Hu] Hb _]. split; [by split| |cbn; lia]. intros h d Hd. cbn. apply Hb in Hd. lia. }
  assert (H2 : exists l2, (match GetMNByCollateral l1 o with Some r => RemoveMN l1 (proTxHash r) | None => Some l1 end) = Some l2 /\ list_inv l2 /\
    mnMap l2 !! txid tx = None /\ forall h, ~ holds (mnMap l2) h (UOutPoint o)).
  { destruct (GetMNByCollateral l1 o) as [r|] eqn:Er.
    - pose proof (GetMNByCollateral_in l1 o r Hl1 Er) as Hr. destruct (RemoveMN_step l1 _ r Hl1 Hr) as (l2 & E & Hadv & _ & Hmap). exists l2.
      apply (GetUniquePropertyMN_spec l1 _ _ (inv_ok _ Hl1)) in Er as (hr & Hr' & Hp). rewrite (proj1 (ok_key _ (inv_ok _ Hl1) hr r Hr')) in Hmap. split_and!; [done|apply Hadv|by rewrite Hmap, lookup_delete_None; right|].
      intros h (d & Hd & Hpd). rewrite Hmap in Hd. apply lookup_delete_Some in Hd as [Hne Hd]. apply Hne.
      apply (index_functional _ _ (UOutPoint o) _ _ (ok_unique _ (inv_ok _ Hl1))); [by exists r|by exists d].
    - exists l1. split_and!; [done..|]. intros h (d & Hd & Hp). assert (GetMNByCollateral l1 o = Some d); [|congruence]. apply (GetUniquePropertyMN_spec l1 _ _ (inv_ok _ Hl1)). eauto. }
  destruct H2 as (l2 & -> & Hl2 & Hnew2 & Hfree). cbn [dassert option_map dbind]. destruct (HasUniqueProperty l2 (UService _)) eqn:Ea; [by eexists|].
  destruct (_ || _) eqn:Ek; [by eexists|]. apply orb_false_iff in Ek as [Ek Eb].
  assert (Hamount : is_Some (if fst (reg_collateralOutpoint p) =? 0 then nValue <$> vout tx !! Z.to_nat (snd (reg_collateralOutpoint p)) else GetUTXOCoin o)).
  { destruct (Z.eqb_spec (fst (reg_collateralOutpoint p)) 0) as [E|E]; [destruct (Hout E) as [out ->]; by eexists|]. cbn [negb andb] in Ecoin. apply negb_false_iff in Ecoin.
    destruct (GetUTXOCoin o); [by eexists|done]. }
  destruct Hamount as [amount ->]. cbn [dassert option_map dbind].
  match goal with |- context [AddMN l2 ?d] => assert (Hadd : is_Some (AddMN l2 d)); [|destruct Hadd as [l3 ->]; by eexists]; set (dd := d) end.
  assert (Hs : addr (pdmnState dd) = reg_addr p /\ keyIDOwner (pdmnState dd) = reg_keyIDOwner p /\ pubKeyOperator (pdmnState dd) = reg_pubKeyOperator p).
  { unfold dd. cbn [pdmnState]. by destruct (bool_decide _). }
  destruct Hs as (Hsa & Hso & Hsb). apply AddMN_total; [apply Hl2|done| |].
  - split; [|rewrite Hso; by apply bool_decide_eq_false]. unfold dd, o. cbn [collateralOutpoint uprop_null]. unfold OutPoint_IsNull.
    destruct (Z.eqb_spec (fst (reg_collateralOutpoint p)) 0) as [E|E]; cbn [fst]; apply andb_false_iff; left; by apply Z.eqb_neq.
  - intros h u [Hsl _]. rewrite <- Hsl. destruct u; cbn [slot]; [apply Hfree|rewrite Hsa; by apply unused_none|rewrite Hso; by apply unused_none|rewrite Hsb; by apply unused_none].
Qed.

(** The comparison of the owner of a property with a node; a node that is not another one's is free to take the property. *)
Lemma owner_found l u h : list_inv l ->
  exists b : bool, (if HasUniqueProperty l u then dassert (E := dmn_reject) ((fun d => negb (proTxHash d =? h)) <$> GetUniquePropertyMN l u) else dret false) = Some (Ok b) /\
    (b = false -> free_at l h u).
Proof.
  intros Hl. pose proof (inv_ok _ Hl) as Hok. destruct (HasUniqueProperty l u) eqn:E; [|exists false; split; [done|]; intros _; by apply free_unused].
  apply bool_decide_eq_true in E as [[h' k] E]. destruct (index_Some _ _ _ _ _ (ok_unique _ Hok) E) as [_ (d & Hd & Hp)].
  assert (Ed : GetUniquePropertyMN l u = Some d) by (apply (GetUniquePropertyMN_spec l _ _ Hok); eauto). rewrite Ed. eexists. split; [done|].
  intros Eh%negb_false_iff%Z.eqb_eq. rewrite (proj1 (ok_key _ Hok h' d Hd)) in Eh. subst h'. apply (free_own l _ d); [done|done|apply Hp].
Qed.
Lemma update_service_total n l p : list_inv l -> is_Some (update_service n l p).
Proof.
  intros Hl. unfold update_service. destruct (owner_found l (UService (serv_addr p)) (serv_proTxHash p) Hl) as (b & -> & Hb). cbn [dbind]. destruct b; [by eexists|].
  destruct (GetMN l (serv_proTxHash p)) as [d|] eqn:Hd; [|by eexists]. cbv zeta.
  match goal with |- context [UpdateMN l _ ?s] => destruct (UpdateMN_spec l (serv_proTxHash p) d s Hl Hd) as (l1 & -> & _); [..|by eexists] end.
  - assigned.
  - replace (addr _) with (serv_addr p) by assigned. by apply Hb.
  - replace (pubKeyOperator _) with (pubKeyOperator (pdmnState d)) by assigned. by apply (free_own l _ d); [apply Hl|..].
Qed.
Lemma update_registrar_total n l p : list_inv l -> free_at l (upreg_proTxHash p) (UBLS (upreg_pubKeyOperator p)) -> is_Some (update_registrar n l p).
Proof.
  intros Hl Hb. unfold update_registrar. destruct (GetMN l (upreg_proTxHash p)) as [d|] eqn:Hd; [|by eexists]. cbv zeta.
  match goal with |- context [UpdateMN l _ ?s] => set (s' := s); destruct (UpdateMN_spec l (upreg_proTxHash p) d s' Hl Hd) as (l1 & -> & _); [..|by eexists] end.
  - unfold s'. assigned.
  - assert (Ha : addr s' = addr (pdmnState d) \/ addr s' = CService_null) by (unfold s', ResetOperatorFields, BanIfNotBanned; cbv zeta; repeat case_match; destruct (pdmnState d); auto).
    destruct Ha as [->| ->]; [by apply (free_own l _ d); [apply Hl|..]|by apply free_null].
  - replace (pubKeyOperator s') with (upreg_pubKeyOperator p) by (unfold s'; assigned). done.
Qed.
Lemma revoke_total n l p : list_inv l -> is_Some (revoke n l p).
Proof.
  intros Hl. unfold revoke. destruct (GetMN l (rev_proTxHash p)) as [d|] eqn:Hd; [|by eexists]. cbv zeta.
  match goal with |- context [UpdateMN l _ ?s] => destruct (UpdateMN_spec l (rev_proTxHash p) d s Hl Hd) as (l1 & -> & _); [..|by eexists] end.
  - assigned.
  - replace (addr _) with CService_null by assigned. by apply free_null.
  - replace (pubKeyOperator _) with CBLSPublicKey_null by assigned. by apply free_null.
Qed.
Lemma commit_quorum_total l qc : list_inv l -> (length (GetAllQuorumMembers (fc_llmqType (commitment qc)) (fc_quorumHash (commitment qc))) <= length (fc_validMembers (commitment qc)))%nat ->
  is_Some (commit_quorum l qc).
Proof.
  intros Hl Hlen. unfold commit_quorum. destruct (Commitment_IsNull _); [by eexists|]. destruct (llmqs _); [|by eexists]. cbv zeta. destruct (bool_decide _); [|by eexists].
  unfold HandleQuorumCommitment. destruct (punish_loop_step _ _ l Hl Hlen) as (l1 & -> & _). by eexists.
Qed.

(** *** From the list of the previous block *)

Definition registered_by (txs : list CTransaction) (h : Z) : Prop := exists tx p, tx ∈ txs /\ is_registration tx p /\ txid tx = h.
Definition descends (old : CDeterministicMNList) (txs : list CTransaction) (l : CDeterministicMNList) : Prop := forall h d', mnMap l !! h = Some d' ->
  registered_by txs h \/ exists d, mnMap old !! h = Some d /\ d' = set_pdmnState d (pdmnState d') /\ permitted txs h (pdmnState d) (pdmnState d').
Definition keys_from (old : CDeterministicMNList) (txs : list CTransaction) (l : CDeterministicMNList) : Prop := forall h d', mnMap l !! h = Some d' ->
  pubKeyOperator (pdmnState d') = CBLSPublicKey_null \/ (exists d, mnMap old !! h = Some d /\ pubKeyOperator (pdmnState d') = pubKeyOperator (pdmnState d)) \/
  exists tx, tx ∈ txs /\ sets_operator tx h (pubKeyOperator (pdmnState d')).

Lemma elem_of_last {A} (l : list A) x : x ∈ l ++ [x].
Proof. apply elem_of_app. right. by left. Qed.
Lemma elem_of_before {A} (l l' : list A) x : x ∈ l -> x ∈ l ++ l'.
Proof. intros Hx. apply elem_of_app. by left. Qed.
Lemma elem_of_extend {A} (l l' : list A) y x : x ∈ l ++ [y] -> x ∈ l ++ y :: l'.
Proof. rewrite !elem_of_app, list_elem_of_singleton, elem_of_cons. tauto. Qed.

Lemma registered_mono txs txs' h : txs ⊆ txs' -> registered_by txs h -> registered_by txs' h.
Proof. intros Hs (tx & p & Htx & Hp). exists tx, p. split; [by apply Hs|done]. Qed.
Lemma descends_quietly old txs l l' : descends old txs l -> evolved (fun _ => quiet) l l' -> descends old txs l'.
Proof.
  intros Hd Hq h d2 Hd2. destruct (Hq h d2 Hd2) as (d1 & Hd1 & E1 & R1). destruct (Hd h d1 Hd1) as [|(d & Hdd & E & R)]; [by left|right]. exists d.
  split_and!; [done|rewrite E in E1; by destruct d, d2|]. apply (permitted_trans _ _ _ _ _ R), quiet_permitted, R1.
Qed.
Lemma keys_from_quietly old txs l l' : keys_from old txs l -> evolved (fun _ => quiet) l l' -> keys_from old txs l'.
Proof. intros Hk Hq h d2 Hd2. destruct (Hq h d2 Hd2) as (d1 & Hd1 & _ & R1). rewrite (proj1 (proj2 R1)). by apply Hk. Qed.
Lemma quietly_descends old l : evolved (fun _ => quiet) old l -> descends old [] l /\ keys_from old [] l.
Proof.
  intros Hq. split; intros h d' Hd'; destruct (Hq h d' Hd') as (d & Hd & E & R); right; [|left]; exists d; [split_and!; [done|done|by apply quiet_permitted]|]. split; [done|apply R].
Qed.
Lemma descends_tx old txs tx l l' : descends old txs l -> changes tx l l' -> descends old (txs ++ [tx]) l'.
Proof.
  intros Hd Hc h d2 Hd2. assert (S1 : txs ⊆ txs ++ [tx]) by (intros t; apply elem_of_before).
  assert (S2 : [tx] ⊆ txs ++ [tx]) by (intros t ->%list_elem_of_singleton; apply elem_of_last).
  destruct (Hc h d2 Hd2) as [(p & Hp & Ht & _)|(d1 & Hd1 & E1 & R1 & _)]; [left; exists tx, p; split; [apply elem_of_last|done]|].
  destruct (Hd h d1 Hd1) as [Hr|(d & Hdd & E & R)]; [left; by apply (registered_mono txs)|right]. exists d. split_and!; [done|rewrite E in E1; by destruct d, d2|].
  apply (permitted_trans _ _ _ (pdmnState d1)); [by apply (permitted_mono txs)|by apply (permitted_mono [tx])].
Qed.
Lemma keys_from_tx old txs tx l l' : keys_from old txs l -> changes tx l l' -> keys_from old (txs ++ [tx]) l'.
Proof.
  intros Hk Hc h d2 Hd2. destruct (Hc h d2 Hd2) as [(p & Hp & Ht & E)|(d1 & Hd1 & _ & _ & [E|[E|E]])].
  - right. right. exists tx. split; [apply elem_of_last|]. left. by exists p.
  - rewrite E. destruct (Hk h d1 Hd1) as [?|[?|(t & Ht & Hs)]]; [by left|by right; left|right; right]. exists t. split; [by apply elem_of_before|done].
  - by left.
  - right. right. exists tx. split; [apply elem_of_last|done].
Qed.

(** The conditions under which the checks suffice: transactions have hashes of their own, quorums have at most as many members as their parameters say, and no two
    transactions of the block give different nodes the same operator key. *)
Definition fresh_ids (old : CDeterministicMNList) (txs : list CTransaction) : Prop :=
  NoDup (txid <$> txs) /\ forall tx, tx ∈ txs -> txid tx <> 0 /\ mnMap old !! txid tx = None.
Definition quorums_fit : Prop := forall t h params, consensus_params t = Some params -> Z.of_nat (length (GetAllQuorumMembers t h)) <= llmq_size params.
Definition operators_distinct (txs : list CTransaction) : Prop :=
  forall tx1 tx2 h1 h2 k, tx1 ∈ txs -> tx2 ∈ txs -> sets_operator tx1 h1 k -> sets_operator tx2 h2 k -> h1 = h2.

Lemma descends_dom old txs l h : descends old txs l -> is_Some (mnMap l !! h) -> is_Some (mnMap old !! h) \/ h ∈ txid <$> txs.
Proof.
  intros Hd [d' Hd']. destruct (Hd h d' Hd') as [(tx & p & Htx & _ & <-)|(d & Hdd & _)]; [right; by apply list_elem_of_fmap_2|left; eauto].
Qed.
Lemma operator_free prev old txs tx p l : list_inv old -> operators_distinct (txs ++ [tx]) -> keys_from old txs l ->
  CheckProUpRegTx tx (Some (prev, old)) = Some (Ok tt) -> is_registrar tx p -> free_at l (upreg_proTxHash p) (UBLS (upreg_pubKeyOperator p)).
Proof.
  intros Hold Hdist Hk Hc Htx h' Hne (d' & Hd' & Hs & Hn). cbn [slot] in Hs. injection Hs as Hs. destruct (registrar_accepted tx prev old p Hc (proj2 (proj2 Htx))) as (d0 & _ & _ & _ & _ & Huniq).
  destruct (Hk h' d' Hd') as [E|[(d & Hd & E)|(t & Ht & Hset)]]; rewrite Hs in *.
  - rewrite E in Hn. done.
  - assert (Hp : holds (mnMap old) h' (UBLS (upreg_pubKeyOperator p))) by (exists d; split; [done|]; split; [by cbn; rewrite <- E|done]).
    destruct Huniq as (dd & Hdd & Eh).
    { unfold HasUniqueProperty. apply bool_decide_eq_true. rewrite (index_lookup _ _ _ _ (ok_unique _ (inv_ok _ Hold)) Hp). eauto. }
    apply (GetUniquePropertyMN_spec old _ _ (inv_ok _ Hold)) in Hdd as (hh & Hdd & Hpp). rewrite (proj1 (ok_key _ (inv_ok _ Hold) hh dd Hdd)) in Eh. apply Hne. subst hh.
    apply (index_functional _ _ _ _ _ (ok_unique _ (inv_ok _ Hold)) Hp). by exists dd.
  - apply Hne. apply (Hdist t tx h' (upreg_proTxHash p) (upreg_pubKeyOperator p)); [by apply elem_of_before|apply elem_of_last|done|]. right. by exists p.
Qed.

Lemma special_tx_total n prev old txs tx l : list_inv old -> list_inv l -> nTotalRegisteredCount l + 1 < 2 ^ 32 -> quorums_fit -> fresh_ids old (txs ++ [tx]) ->
  operators_distinct (txs ++ [tx]) -> descends old txs l -> keys_from old txs l -> CheckSpecialTx tx prev old = Some (Ok tt) -> is_Some (special_tx n l tx).
Proof.
  intros Hold Hl Hlt Hq [Hnd Hfresh] Hdist Hd Hk Hc. unfold special_tx. destruct (Z.eqb_spec (tx_nVersion tx) 3) as [V|]; cbn [negb]; [|by eexists].
  destruct (CheckSpecialTx_type tx prev old Hc V) as (C1 & C2 & C3 & C4 & C5). destruct (CheckSpecialTx_payload tx prev old Hc V) as (P1 & P2 & P3 & P4 & P5).
  destruct (Z.eqb_spec (tx_nType tx) TRANSACTION_PROVIDER_REGISTER) as [T|_].
  { destruct (P1 T) as [p Hp]. rewrite Hp. cbn [dassert option_map dbind]. destruct (proreg_accepted tx prev old p (C1 T) Hp) as (Hown & _ & _ & Hcol).
    destruct (Hfresh tx (elem_of_last txs tx)) as [Hid Hno]. apply register_total; [done|done| |done|done|].
    - apply eq_None_not_Some. intros Hs. destruct (descends_dom old txs l (txid tx) Hd Hs) as [[? ?]|Hin]; [congruence|]. rewrite fmap_app in Hnd. apply NoDup_app in Hnd as (_ & Hnd & _).
      apply (Hnd _ Hin). by left.
    - intros E. destruct Hcol as [(_ & out & Hout & _)|[? _]]; [by exists out|done]. }
  destruct (Z.eqb_spec (tx_nType tx) TRANSACTION_PROVIDER_UPDATE_SERVICE) as [T|_]; [destruct (P2 T) as [p ->]; by apply update_service_total|].
  destruct (Z.eqb_spec (tx_nType tx) TRANSACTION_PROVIDER_UPDATE_REGISTRAR) as [T|_].
  { destruct (P3 T) as [p Hp]. rewrite Hp. apply update_registrar_total; [done|]. by apply (operator_free prev old txs tx p l Hold Hdist Hk (C3 T)). }
  destruct (Z.eqb_spec (tx_nType tx) TRANSACTION_PROVIDER_UPDATE_REVOKE) as [T|_]; [destruct (P4 T) as [p ->]; by apply revoke_total|].
  destruct (Z.eqb_spec (tx_nType tx) TRANSACTION_QUORUM_COMMITMENT) as [T|_]; [|by eexists]. destruct (P5 T) as [p Hp]. rewrite Hp. apply commit_quorum_total; [done|].
  destruct (commitment_accepted tx prev p (C5 T) Hp) as (params & Hparams & Hlen). pose proof (Hq _ (fc_quorumHash (commitment p)) _ Hparams). lia.
Qed.
Lemma special_txs_total n prev old rest : list_inv old -> quorums_fit -> forall txs l, list_inv l -> nTotalRegisteredCount l + Z.of_nat (length rest) < 2 ^ 32 ->
  fresh_ids old (txs ++ rest) -> operators_distinct (txs ++ rest) -> descends old txs l -> keys_from old txs l ->
  Forall (fun tx => CheckSpecialTx tx prev old = Some (Ok tt)) rest -> is_Some (special_txs n l rest).
Proof.
  intros Hold Hq. induction rest as [|tx rest IH]; intros txs l Hl Hlt Hf Hdist Hd Hk Hc; [by eexists|]. cbn [special_txs length] in *. apply Forall_cons in Hc as [Hc Hcs].
  assert (Hf1 : fresh_ids old (txs ++ [tx])).
  { destruct Hf as [Hnd Hf]. split; [|intros t Ht; by apply Hf, elem_of_extend]. rewrite cons_middle, app_assoc, fmap_app in Hnd. by apply NoDup_app in Hnd as (? & _ & _). }
  assert (Hd1 : operators_distinct (txs ++ [tx])) by (intros t1 t2 h1 h2 k H1 H2; apply (Hdist t1 t2); by apply elem_of_extend).
  destruct (special_tx_total n prev old txs tx l Hold Hl ltac:(lia) Hq Hf1 Hd1 Hd Hk Hc) as [[l1|e] E]; rewrite E; cbn [dbind]; [|by eexists].
  destruct (special_tx_inv n l tx l1 Hl ltac:(lia) E) as [Hl1 _ _ Hcount _]. pose proof (special_tx_changes n l tx l1 Hl ltac:(lia) E) as Hch.
  apply (IH (txs ++ [tx]) l1 Hl1 ltac:(lia)); [by rewrite <- app_assoc..|by apply (descends_tx old txs tx l)|by apply (keys_from_tx old txs tx l)|done].
Qed.
Lemma special_txs_descends n old rest : forall txs l l', list_inv l -> nTotalRegisteredCount l + Z.of_nat (length rest) < 2 ^ 32 -> descends old txs l ->
  special_txs n l rest = Some (Ok l') -> descends old (txs ++ rest) l'.
Proof.
  induction rest as [|tx rest IH]; intros txs l l' Hl Hlt Hd Hs; cbn [special_txs length] in *; [injection Hs as <-; by rewrite app_nil_r|].
  destruct (special_tx n l tx) as [[l1|]|] eqn:E; [|done|done]. cbn [dbind] in Hs. destruct (special_tx_inv n l tx l1 Hl ltac:(lia) E) as [Hl1 _ _ Hcount _].
  rewrite cons_middle, app_assoc. apply (IH (txs ++ [tx]) l1 l' Hl1 ltac:(lia)); [|done]. apply (descends_tx old txs tx l); [done|]. by apply (special_tx_changes n l tx l1 Hl ltac:(lia) E).
Qed.

(** *** The whole block *)

Lemma ForEachMN_in c l b d : list_inv l -> d ∈ ForEachMN c l b -> mnMap l !! proTxHash d = Some d.
Proof.
  intros Hl Hd. unfold ForEachMN in Hd. apply list_elem_of_filter in Hd as [_ ([h d'] & -> & Hd%elem_of_map_to_list)%list_elem_of_fmap]. cbn [snd].
  by rewrite (proj1 (ok_key _ (inv_ok _ Hl) h d' Hd)).
Qed.
Lemma NoDup_nodes c l b : list_inv l -> NoDup (ForEachMN c l b).
Proof.
  intros Hl. unfold ForEachMN. apply NoDup_filter. apply NoDup_fmap_2_strong; [|apply NoDup_map_to_list]. intros [h d] [h' d'] Hd%elem_of_map_to_list Hd'%elem_of_map_to_list.
  cbn. intros <-. apply (ok_key _ (inv_ok _ Hl)) in Hd as [<- _]. by apply (ok_key _ (inv_ok _ Hl)) in Hd' as [<- _].
Qed.
Lemma NoDup_node_hashes l ds : NoDup ds -> (forall d, d ∈ ds -> mnMap l !! proTxHash d = Some d) -> NoDup (proTxHash <$> ds).
Proof. intros Hnd Hin. apply NoDup_fmap_2_strong; [|done]. intros d d' Hd Hd' E. apply Hin in Hd, Hd'. rewrite E in Hd. congruence. Qed.

(** The part of a block before its transactions. *)
Lemma begin_block prevHeight prevHash old : list_inv old -> exists l1 l2,
  confirm_loop prevHeight prevHash (SetHeight (SetBlockHash old 0) (prevHeight + 1)) (ForEachMN nCollaterals old false) = Some l1 /\
  (if isDecrease (prevHeight + 1) then DecreasePoSePenalties l1 else Some l1) = Some l2 /\ list_inv l2 /\ nTotalRegisteredCount l2 = nTotalRegisteredCount old /\
  evolved (fun _ => quiet) old l2.
Proof.
  intros Hold. set (l0 := SetHeight _ _). assert (Hl0 : list_inv l0) by (destruct Hold as [[] ? ?]; split; [by split|done|done]).
  destruct (confirm_loop_step prevHeight prevHash (ForEachMN nCollaterals old false) l0 Hl0) as (l1 & E1 & A1 & Q1).
  { apply (NoDup_node_hashes old); [by apply NoDup_nodes|]. intros d. by apply ForEachMN_in. }
  { intros d. by apply (ForEachMN_in nCollaterals old false). }
  assert (H2 : quiet_step (if isDecrease (prevHeight + 1) then DecreasePoSePenalties l1 else Some l1) l1).
  { destruct (isDecrease _); [|apply quiet_step_refl, A1]. pose proof (proj1 A1) as Hl1. unfold DecreasePoSePenalties. apply decrease_loop_step; [done| |].
    - apply (NoDup_node_hashes l1); [by apply NoDup_filter, NoDup_nodes|]. intros d [_ Hd]%list_elem_of_filter. by apply (ForEachMN_in nCollaterals l1 true).
    - intros h (d & -> & [Hb Hd]%list_elem_of_filter)%list_elem_of_fmap. exists d. split; [by apply (ForEachMN_in nCollaterals l1 true)|].
      apply andb_prop_elim in Hb as [Hp Hban]. apply Is_true_true in Hp, Hban. lia. }
  destruct H2 as (l2 & E2 & A2 & Q2). exists l1, l2. destruct A1 as (_ & (_ & _ & T1) & _), A2 as (I2 & (_ & _ & T2) & _).
  split_and!; [done|done|done|rewrite T2, T1; done|]. apply (quietly_trans _ l1); [exact Q1|exact Q2].
Qed.

Lemma checked_tail vtx prev old : check_block vtx prev old = Some (Ok tt) -> Forall (fun tx => CheckSpecialTx tx prev old = Some (Ok tt)) (tail vtx).
Proof. intros Hc%check_block_Forall. destruct vtx; [done|]. by apply Forall_cons in Hc as [_ ?]. Qed.

(** C10. A block whose special transactions passed their checks against the previous smartnode list never runs into an assertion or reads past an array when the next
    list is built, as long as no two of its transactions give different nodes the same operator key. *)
Theorem checked_block_never_aborts vtx prevHeight prevHash old : list_inv old -> nTotalRegisteredCount old + Z.of_nat (length vtx) < 2 ^ 32 ->
  check_block vtx prevHeight old = Some (Ok tt) -> fresh_ids old (tail vtx) -> quorums_fit -> operators_distinct (tail vtx) ->
  exists r, BuildNewListFromBlock vtx prevHeight prevHash old = Some r.
Proof.
  intros Hold Hlt Hc%checked_tail Hf Hq Hdist. unfold BuildNewListFromBlock. cbv zeta. destruct (begin_block prevHeight prevHash old Hold) as (l1 & l2 & -> & E2 & Hl2 & Ht2 & Q2).
  cbn [dassert option_map dbind]. rewrite E2. cbn [dassert option_map dbind]. destruct (quietly_descends old l2 Q2) as [Hd Hk].
  assert (Hlt2 : nTotalRegisteredCount l2 + Z.of_nat (length (tail vtx)) < 2 ^ 32) by (rewrite Ht2; destruct vtx; cbn in *; lia).
  destruct (special_txs_total (prevHeight + 1) prevHeight old (tail vtx) Hold Hq [] l2 Hl2 Hlt2 Hf Hdist Hd Hk Hc) as [[l3|e] E3]; rewrite E3; cbn [dbind]; [|by eexists].
  destruct (special_txs_inv _ _ l2 l3 Hl2 Hlt2 E3) as (Hl3 & _). destruct (spend_loop_step (concat (vin <$> tail vtx)) l3 Hl3) as (l4 & -> & A4 & _). cbn [dassert option_map dbind].
  destruct (pay_step (prevHeight + 1) l4 (GetMNPayee nCollaterals old) (proj1 A4)) as (l5 & -> & _). by eexists.
Qed.

(** The signatures behind the changes of a node: by the key of its owner, or by the key of its operator. *)
Definition signed_by_owner (txs : list CTransaction) (d : CDeterministicMN) : Prop :=
  exists tx p, tx ∈ txs /\ is_registrar tx p /\ upreg_proTxHash p = proTxHash d /\ upreg_inputsHash p = CalcTxInputsHash sha_junk tx /\ owner_signed p (keyIDOwner (pdmnState d)).
Definition signed_by_operator (txs : list CTransaction) (d : CDeterministicMN) : Prop :=
  (exists tx p, tx ∈ txs /\ is_service tx p /\ serv_proTxHash p = proTxHash d /\ serv_inputsHash p = CalcTxInputsHash sha_junk tx /\
     operator_signed (ProUpServTx_fields p) (serv_sig p) (pubKeyOperator (pdmnState d))) \/
  (exists tx p, tx ∈ txs /\ is_revocation tx p /\ rev_proTxHash p = proTxHash d /\ rev_inputsHash p = CalcTxInputsHash sha_junk tx /\
     operator_signed (ProUpRevTx_fields p) (rev_sig p) (pubKeyOperator (pdmnState d))).

Lemma checked_of txs prev old tx : Forall (fun tx => CheckSpecialTx tx prev old = Some (Ok tt)) txs -> tx ∈ txs -> CheckSpecialTx tx prev old = Some (Ok tt).
Proof. rewrite Forall_forall. auto. Qed.
Lemma registrar_signed txs prev old h d : Forall (fun tx => CheckSpecialTx tx prev old = Some (Ok tt)) txs -> list_inv old -> mnMap old !! h = Some d -> by_registrar txs h -> signed_by_owner txs d.
Proof.
  intros Hc Hl Hd (tx & p & Htx & Hp & Eh). pose proof Hp as (V & T & G). apply (checked_of txs prev old tx Hc) in Htx as Htx'. destruct (CheckSpecialTx_type tx prev old Htx' V) as (_ & _ & C & _).
  destruct (registrar_accepted tx prev old p (C T) G) as (d0 & Hd0 & _ & Hin & Hs & _). unfold GetMN in Hd0. rewrite Eh, Hd in Hd0. injection Hd0 as <-.
  exists tx, p. split_and!; [done|done|by rewrite (proj1 (ok_key _ (inv_ok _ Hl) h d Hd))|done|done].
Qed.
Lemma service_signed txs prev old h d : Forall (fun tx => CheckSpecialTx tx prev old = Some (Ok tt)) txs -> list_inv old -> mnMap old !! h = Some d -> by_service txs h -> signed_by_operator txs d.
Proof.
  intros Hc Hl Hd (tx & p & Htx & Hp & Eh). pose proof Hp as (V & T & G). apply (checked_of txs prev old tx Hc) in Htx as Htx'. destruct (CheckSpecialTx_type tx prev old Htx' V) as (_ & C & _).
  destruct (service_accepted tx prev old p (C T) G) as (d0 & Hd0 & Hin & Hs). unfold GetMN in Hd0. rewrite Eh, Hd in Hd0. injection Hd0 as <-.
  left. exists tx, p. split_and!; [done|done|by rewrite (proj1 (ok_key _ (inv_ok _ Hl) h d Hd))|done|done].
Qed.
Lemma revocation_signed txs prev old h d : Forall (fun tx => CheckSpecialTx tx prev old = Some (Ok tt)) txs -> list_inv old -> mnMap old !! h = Some d -> by_revocation txs h -> signed_by_operator txs d.
Proof.
  intros Hc Hl Hd (tx & p & Htx & Hp & Eh). pose proof Hp as (V & T & G). apply (checked_of txs prev old tx Hc) in Htx as Htx'. destruct (CheckSpecialTx_type tx prev old Htx' V) as (_ & _ & _ & C & _).
  destruct (revocation_accepted tx prev old p (C T) G) as (d0 & Hd0 & Hin & Hs). unfold GetMN in Hd0. rewrite Eh, Hd in Hd0. injection Hd0 as <-.
  right. exists tx, p. split_and!; [done|done|by rewrite (proj1 (ok_key _ (inv_ok _ Hl) h d Hd))|done|done].
Qed.

Lemma checked_block_descends vtx prevHeight prevHash old new : list_inv old -> nTotalRegisteredCount old + Z.of_nat (length vtx) < 2 ^ 32 ->
  BuildNewListFromBlock vtx prevHeight prevHash old = Some (Ok new) -> descends old (tail vtx) new.
Proof.
  intros Hold Hlt. unfold BuildNewListFromBlock. cbv zeta. destruct (begin_block prevHeight prevHash old Hold) as (l1 & l2 & -> & E2 & Hl2 & Ht2 & Q2).
  cbn [dassert option_map dbind]. rewrite E2. cbn [dassert option_map dbind].
  assert (Hlt2 : nTotalRegisteredCount l2 + Z.of_nat (length (tail vtx)) < 2 ^ 32) by (rewrite Ht2; destruct vtx; cbn in *; lia).
  destruct (special_txs _ l2 _) as [[l3|]|] eqn:E3; [|done|done]. cbn [dbind]. destruct (special_txs_inv _ _ l2 l3 Hl2 Hlt2 E3) as (Hl3 & _).
  destruct (spend_loop_step (concat (vin <$> tail vtx)) l3 Hl3) as (l4 & -> & A4 & Q4). cbn [dassert option_map dbind].
  destruct (pay_step (prevHeight + 1) l4 (GetMNPayee nCollaterals old) (proj1 A4)) as (l5 & -> & _ & Q5). intros [= <-].
  apply (descends_quietly old _ l3); [|by apply (quietly_trans _ l4)]. apply (special_txs_descends (prevHeight + 1) old (tail vtx) [] l2 l3 Hl2 Hlt2); [|done]. by apply quietly_descends.
Qed.

(** C11. What a checked block changes in the smartnode list was signed for. Every node of the new list was registered in the block, with a collateral that is an
    output of the transaction or whose key signed (unless that key is null), or was in the old list with the same owner, collateral and share of the operator; its voting
    key and payee changed only by a signature of the owner, its address and its operator's payee and key only by a signature of the owner or the operator. *)
Theorem changes_are_signed vtx prevHeight prevHash old new : list_inv old -> nTotalRegisteredCount old + Z.of_nat (length vtx) < 2 ^ 32 ->
  check_block vtx prevHeight old = Some (Ok tt) -> BuildNewListFromBlock vtx prevHeight prevHash old = Some (Ok new) ->
  forall h d', mnMap new !! h = Some d' ->
  (exists tx p, tx ∈ tail vtx /\ is_registration tx p /\ txid tx = h /\ reg_inputsHash p = CalcTxInputsHash sha_junk tx /\ collateral_proved tx p) \/
  exists d, mnMap old !! h = Some d /\ d' = set_pdmnState d (pdmnState d') /\ keyIDOwner (pdmnState d') = keyIDOwner (pdmnState d) /\
    ((keyIDVoting (pdmnState d') = keyIDVoting (pdmnState d) /\ scriptPayout (pdmnState d') = scriptPayout (pdmnState d)) \/ signed_by_owner (tail vtx) d) /\
    ((addr (pdmnState d') = addr (pdmnState d) /\ scriptOperatorPayout (pdmnState d') = scriptOperatorPayout (pdmnState d) /\
      pubKeyOperator (pdmnState d') = pubKeyOperator (pdmnState d)) \/ signed_by_owner (tail vtx) d \/ signed_by_operator (tail vtx) d).
Proof.
  intros Hold Hlt Hc%checked_tail Hb h d' Hd'. destruct (checked_block_descends vtx prevHeight prevHash old new Hold Hlt Hb h d' Hd') as [(tx & p & Htx & Hp & Eh)|(d & Hd & E & [P1 P2 P3 P4])].
  - left. exists tx, p. pose proof Hp as (V & T & G). destruct (CheckSpecialTx_type tx prevHeight old (checked_of _ _ _ _ Hc Htx) V) as (C & _).
    destruct (proreg_accepted tx prevHeight old p (C T) G) as (_ & _ & ? & ?). done.
  - right. exists d. pose proof (registrar_signed (tail vtx) prevHeight old h d Hc Hold Hd). pose proof (service_signed (tail vtx) prevHeight old h d Hc Hold Hd).
    pose proof (revocation_signed (tail vtx) prevHeight old h d Hc Hold Hd). split_and!; [done|done|done|tauto|]. destruct P3 as [[]|]; destruct P4; tauto.
Qed.
End Block.

(** ** Blocks to try it on *)

#[local] Existing Instance Sample.hash.
#[local] Existing Instance Sample.hash_spec.
#[local] Existing Instance BlockSample.ctx.
Module CheckSample.
Definition junk : stream := replicate 64 0.
#[export] Instance hashes : CryptoHashes := real_hashes junk.
#[export] Instance bls : BLSLibrary := {|
  key_InternalSetBuf := fun buf => Some (le_value buf);
  key_InternalGetBuf := le_bytes 48;
  sig_InternalSetBuf := fun buf => Some buf
|}.
Definition pays_to (h : list Z) : CScript := [118; 169; 20] ++ h ++ [136; 172].
Definition amount : Z := 65000 * 100000000.
(** A signature is the hash and the key that signed; the coin (99, 0) was sent to the null key. *)
#[export] Instance node : CheckContext := {|
  NetworkIDString := MAIN; fAllowPrivateNet := false; AreAssetsDeployed := true; spork_22 := 1; tip_nHeight := 1000; DIP0003Height := 1; DIP0008Enabled := true;
  TipCoin := fun o => if bool_decide (o = (99, 0)) then Some (mkTxOut amount (pays_to keyid_null) 0) else Some (mkTxOut amount (pays_to (replicate 20 9)) 0);
  consensus_params := fun t => if t =? LLMQ_50_60 then Some llmq50_60 else None; mapBlockIndex_nHeight := fun _ => None; quorum_nodes := fun _ _ => [];
  prefixes := Address.mkPrefixes [60] [122] [128]; ripemd_junk := junk;
  ecdsa_recover := fun _ _ sig hash => if bool_decide (take 32 sig = hash) then Some (drop 32 sig) else None;
  bls_Verify := fun sig hash key => bool_decide (sig = hash ++ le_bytes 64 key);
  bls_VerifyAggregated := fun _ _ _ => false
|}.
Definition inputs : list CTxIn := [mkTxIn (500, 0) [] 0 []].
Definition special (id type : Z) (outs : list CTxOut) (payload : list Z) : CTransaction := mkTx id 3 type inputs outs 0 payload.
Definition inputsHash : Z := CalcTxInputsHash junk (special 0 0 [] []).
(** 8.8.8.[n] with the port of the main network. *)
Definition address (n : Z) : Z := (0xffff * 2 ^ 32 + 0x08080800 + n) * 2 ^ 16 + mainnetDefaultPort.

(** Node 11 is registered with an output of the transaction, and node 7 gets another address. *)
Definition registration : CProRegTx :=
  mkProReg 1 0 0 (0, 0) (address 11) (replicate 20 1) 111 (replicate 20 2) 0 (pays_to (replicate 20 3)) inputsHash [].
Definition service : CProUpServTx := mkProUpServ 1 7 (address 7) [] inputsHash None.
Definition signed_service : CProUpServTx := mkProUpServ 1 7 (address 7) [] inputsHash (Some (payload_hash (ProUpServTx_fields service) ++ le_bytes 64 7)).
Definition vtx : list CTransaction :=
  [BlockSample.coinbase; special 11 TRANSACTION_PROVIDER_REGISTER [mkTxOut amount (pays_to (replicate 20 4)) 0] (ProRegTx_Serialize registration);
   special 12 TRANSACTION_PROVIDER_UPDATE_SERVICE [] (ProUpServTx_Serialize signed_service)].
Definition new : CDeterministicMNList := match BuildNewListFromBlock vtx 1000 1 BlockSample.three with Some (Ok l) => l | _ => list_new 0 0 0 end.

(** A coin that was sent to the null key is registered without a signature. *)
Definition burnt : CTransaction :=
  special 13 TRANSACTION_PROVIDER_REGISTER [] (ProRegTx_Serialize (mkProReg 1 0 0 (99, 0) 0 (replicate 20 1) 111 (replicate 20 2) 0 (pays_to (replicate 20 3)) inputsHash [])).

(** Two nodes whose owners give them the same operator key in one block. *)
Definition owner_key (n : Z) : list Z := replicate 32 n.
Definition owned (h id : Z) : CDeterministicMN :=
  mkMN h id (h, 0) 0 (mkState 500 0 0 (-1) (-1) 0 0 0 (Spork.PubKey_GetID junk junk (owner_key h)) h (replicate 20 h) h [] [] amount).
Definition two : CDeterministicMNList := default (list_new 0 0 0) (Sample.add [owned 7 0; owned 5 1] (list_new 1 1000 2)).
Definition unsigned (h : Z) (sig : list Z) : CProUpRegTx := mkProUpReg 1 h 0 222 (replicate 20 2) (pays_to (replicate 20 3)) inputsHash sig.
Definition registrar (id h : Z) : CTransaction :=
  special id TRANSACTION_PROVIDER_UPDATE_REGISTRAR [] (ProUpRegTx_Serialize (unsigned h ([31] ++ payload_hash (ProUpRegTx_fields (unsigned h [])) ++ owner_key h))).
Definition same_key : list CTransaction := [BlockSample.coinbase; registrar 14 7; registrar 15 5].
End CheckSample.
#[local] Existing Instance CheckSample.hashes.
#[local] Existing Instance CheckSample.bls.
#[local] Existing Instance CheckSample.node.

(** A registration whose collateral was paid to the null key is accepted without any signature: the key found in the collateral doubles as the mark for a collateral that is
    part of the transaction. *)
Theorem null_key_collateral_unsigned : CheckSpecialTx CheckSample.burnt 1000 BlockSample.three = Some (Ok tt).
Proof. vm_compute. reflexivity. Qed.
(** Two updates that give two nodes the same operator key both pass the checks, and the block that has both of them runs into an assertion. *)
Theorem same_operator_key_passes_checks :
  check_block CheckSample.same_key 1000 CheckSample.two = Some (Ok tt) /\ BuildNewListFromBlock CheckSample.same_key 1000 1 CheckSample.two = None.
Proof. split; vm_compute; reflexivity. Qed.

Lemma sample_operators : operators_distinct (tail CheckSample.vtx).
Proof.
  assert (H : forall tx h k, tx ∈ tail CheckSample.vtx -> sets_operator tx h k -> h = 11); [|intros tx1 tx2 h1 h2 k H1 H2 S1 S2; by rewrite (H tx1 h1 k H1 S1), (H tx2 h2 k H2 S2)].
  intros tx h k Htx Hs. cbn [CheckSample.vtx tail] in Htx. rewrite !elem_of_cons in Htx. destruct Htx as [->|[->|Htx%elem_of_nil]]; [|..|done].
  - destruct Hs as [(p & _ & <- & _)|(p & (_ & T & _) & _)]; [done|discriminate T].
  - destruct Hs as [(p & (_ & T & _) & _)|(p & (_ & T & _) & _)]; discriminate T.
Qed.
Lemma sample_fresh : fresh_ids BlockSample.three (tail CheckSample.vtx).
Proof.
  split; [by apply (bool_decide_unpack _); vm_compute|]. intros tx Htx. cbn [CheckSample.vtx tail] in Htx. rewrite !elem_of_cons in Htx.
  destruct Htx as [->|[->|Htx%elem_of_nil]]; [split; [done|by vm_compute]..|done].
Qed.
Lemma sample_quorums : quorums_fit.
Proof. intros t h params E. cbn in E. destruct (t =? LLMQ_50_60); [|done]. injection E as <-. cbn. lia. Qed.
Lemma checked_block_never_aborts_witness :
  check_block CheckSample.vtx 1000 BlockSample.three = Some (Ok tt) /\ exists r, BuildNewListFromBlock CheckSample.vtx 1000 1 BlockSample.three = Some r.
Proof.
  assert (Hc : check_block CheckSample.vtx 1000 BlockSample.three = Some (Ok tt)) by (vm_compute; reflexivity). split; [exact Hc|].
  apply checked_block_never_aborts; [exact sample_inv|by vm_compute|exact Hc|exact sample_fresh|exact sample_quorums|exact sample_operators].
Defined.
Lemma changes_are_signed_witness : exists d d', mnMap BlockSample.three !! 7 = Some d /\ mnMap CheckSample.new !! 7 = Some d' /\ addr (pdmnState d') <> addr (pdmnState d) /\
  (signed_by_owner (tail CheckSample.vtx) d \/ signed_by_operator (tail CheckSample.vtx) d).
Proof.
  assert (Hd : exists d, mnMap BlockSample.three !! 7 = Some d /\ addr (pdmnState d) = 7) by (eexists; split; vm_compute; reflexivity). destruct Hd as (d & Hd & Ha).
  assert (Hd' : exists d', mnMap CheckSample.new !! 7 = Some d' /\ addr (pdmnState d') = CheckSample.address 7) by (eexists; split; vm_compute; reflexivity). destruct Hd' as (d' & Hd' & Ha').
  assert (Hne : addr (pdmnState d') <> addr (pdmnState d)) by (rewrite Ha, Ha'; by vm_compute). exists d, d'. split_and!; [exact Hd|exact Hd'|exact Hne|].
  destruct (changes_are_signed CheckSample.vtx 1000 1 BlockSample.three CheckSample.new sample_inv) with (h := 7) (d' := d') as [(tx & p & Htx & _ & Et & _)|(d0 & Hd0 & _ & _ & _ & Hs)];
    [by vm_compute|vm_compute; reflexivity|vm_compute; reflexivity|exact Hd'| |].
  - exfalso. cbn [CheckSample.vtx tail] in Htx. rewrite !elem_of_cons in Htx. destruct Htx as [->|[->|Htx%elem_of_nil]]; [discriminate Et|discriminate Et|done].
  - assert (d0 = d) as -> by congruence. destruct Hs as [[E _]|Hs]; [destruct (Hne E)|exact Hs].
Defined.
