(* ===== verification/Subsidy.v ===== *)
(** The coins a block creates ([GetBlockSubsidy] of [validation.cpp]) and what of them and of the fees goes where
    ([founder_payment.cpp], the shares of [consensus/params.h]), with the floating-point arithmetic the code uses for it. *)

From stdpp Require Import prelude.
From Stdlib Require Import ZArith Lia SpecFloat.
From S2P Require Import Prelude Transaction.

Open Scope Z_scope.

(** ** Floating point

    [double] has 53 bits and [float] 24; every operation rounds to nearest. *)

Definition double_of_Z (x : Z) : spec_float := binary_normalize 53 1024 x 0 false.
Definition double_mul : spec_float -> spec_float -> spec_float := SFmul 53 1024.
(** A literal [num / den] of the source, the closest [double] to it. *)
Definition double_literal (num den : Z) : spec_float := SFdiv 53 1024 (double_of_Z num) (double_of_Z den).
Definition float_of_Z (x : Z) : spec_float := binary_normalize 24 128 x 0 false.
Definition float_mul : spec_float -> spec_float -> spec_float := SFmul 24 128.
(** The conversion of a [double] to a [float]. *)
Definition float_of_double (x : spec_float) : spec_float :=
  match x with S754_finite s m e => binary_round 24 128 s m e | x => x end.
(** The conversion to an integer drops the fraction; it is undefined for what is not a number. *)
Definition to_Z (x : spec_float) : option Z :=
  match x with
  | S754_zero _ => Some 0
  | S754_finite s m e => Some ((if s then -1 else 1) * Z.shiftl (Zpos m) e)
  | _ => None
  end.

(** ** The subsidy of a block, by the height of the block before it *)

Definition nSubsidyBase (nPrevHeight : Z) : spec_float :=
  if nPrevHeight =? 0 then double_of_Z 1000000
  else if nPrevHeight <=? 1000000 then double_of_Z 100
  else if nPrevHeight <=? 2000000 then double_of_Z 50
  else if nPrevHeight <=? 3000000 then double_of_Z 25
  else if nPrevHeight <=? 4000000 then double_literal 125 10
  else if nPrevHeight <=? 5000000 then double_literal 625 100
  else if nPrevHeight <=? 6000000 then double_literal 3125 1000
  else if nPrevHeight <=? 7000000 then double_literal 15625 10000
  else if nPrevHeight <=? 8000000 then double_literal 78125 100000
  else if nPrevHeight <=? 9000000 then double_literal 390625 1000000
  else double_literal 1 100.
Definition GetBlockSubsidy (nPrevBits nPrevHeight : Z) (fSuperblockPartOnly : bool) : option Z :=
  to_Z (double_mul (nSubsidyBase nPrevHeight) (double_of_Z COIN)).

(** The products are exact: whole amounts that halve every million blocks, and a cent in the end. *)
Definition subsidy (h : Z) : Z :=
  if h =? 0 then 1000000 * COIN
  else if h <=? 9000000 then 100 * COIN / 2 ^ ((h - 1) / 1000000)
  else 1000000.

Lemma halving_step h k : 0 <= k -> k * 1000000 < h <= (k + 1) * 1000000 -> (h - 1) / 1000000 = k.
Proof. intros Hk Hh. symmetry. apply (Z.div_unique _ _ k (h - 1 - k * 1000000)); lia. Qed.
Ltac halved H k := let E := fresh in destruct (H k) as [_ E]; [lia..|]; rewrite E; reflexivity.
Lemma GetBlockSubsidy_exact bits h part : 0 <= h -> GetBlockSubsidy bits h part = Some (subsidy h).
Proof.
  intros Hh. unfold GetBlockSubsidy, nSubsidyBase, subsidy. destruct (Z.eqb_spec h 0) as [|Hne]; [reflexivity|].
  assert (forall k, 0 <= k <= 8 -> k * 1000000 < h <= (k + 1) * 1000000 -> h <= 9000000 /\ (h - 1) / 1000000 = k) as Hstep.
  { intros k Hk Hr. split; [lia|]. apply halving_step; lia. }
  repeat match goal with |- context [h <=? ?b] => destruct (Z.leb_spec h b); [|] end; try lia; try reflexivity;
    [halved Hstep 0|halved Hstep 1|halved Hstep 2|halved Hstep 3|halved Hstep 4|halved Hstep 5|halved Hstep 6|halved Hstep 7|halved Hstep 8].
Qed.

(** ** The supply *)

(** What the [n] blocks after the first one of the chain have created together. *)
Fixpoint total_subsidy (n : nat) : Z := match n with O => 0 | S n => total_subsidy n + subsidy (Z.of_nat n) end.

(** Within one of the nine periods the same amount is created in every block. *)
Lemma subsidy_period h k : 0 <= k <= 8 -> k * 1000000 < h <= (k + 1) * 1000000 -> subsidy h = 100 * COIN / 2 ^ k.
Proof.
  intros Hk Hh. unfold subsidy. rewrite (proj2 (Z.eqb_neq _ _)), (proj2 (Z.leb_le _ _)) by lia. by rewrite (halving_step h k) by lia.
Qed.
(** How many of the blocks after [n] are in period [k]. *)
Definition in_period (n k : Z) : Z := Z.max 0 (Z.min 1000000 (n - 1 - k * 1000000)).
Definition supply (n : Z) : Z :=
  1000000 * COIN + 10000000000 * in_period n 0 + 5000000000 * in_period n 1 + 2500000000 * in_period n 2 + 1250000000 * in_period n 3 + 625000000 * in_period n 4
  + 312500000 * in_period n 5 + 156250000 * in_period n 6 + 78125000 * in_period n 7 + 39062500 * in_period n 8 + 1000000 * Z.max 0 (n - 9000001).
Lemma in_period_step n j k : 0 <= j -> k * 1000000 < n <= (k + 1) * 1000000 -> in_period (n + 1) j = in_period n j + (if j =? k then 1 else 0).
Proof. intros Hj Hn. unfold in_period. destruct (Z.eqb_spec j k) as [->|Hne]; [lia|]. assert (j < k \/ k < j) as [?|?] by lia; lia. Qed.
Lemma in_period_over n j : 9000000 < n -> 0 <= j <= 8 -> in_period n j = 1000000.
Proof. intros Hn Hj. unfold in_period. lia. Qed.
Lemma supply_step n : 1 <= n -> supply (n + 1) = supply n + subsidy n.
Proof.
  intros Hn. unfold supply. destruct (Z.leb_spec n 9000000) as [Hle|Hgt].
  - assert (exists k, 0 <= k <= 8 /\ k * 1000000 < n <= (k + 1) * 1000000) as (k & Hk & Hr).
    { exists ((n - 1) / 1000000). pose proof (Z.div_mod (n - 1) 1000000 ltac:(lia)). pose proof (Z.mod_pos_bound (n - 1) 1000000 ltac:(lia)). lia. }
    rewrite (subsidy_period n k Hk Hr), !(fun j H => in_period_step n j k H Hr) by lia.
    replace (Z.max 0 (n + 1 - 9000001)) with 0 by lia. replace (Z.max 0 (n - 9000001)) with 0 by lia.
    generalize (in_period n 0) (in_period n 1) (in_period n 2) (in_period n 3) (in_period n 4) (in_period n 5) (in_period n 6) (in_period n 7) (in_period n 8). clear Hr.
    assert (k = 0 \/ k = 1 \/ k = 2 \/ k = 3 \/ k = 4 \/ k = 5 \/ k = 6 \/ k = 7 \/ k = 8) as Hcases by lia.
    destruct Hcases as [->|[->|[->|[->|[->|[->|[->|[->| ->]]]]]]]];
      (match goal with |- context [100 * COIN / ?d] => let v := eval vm_compute in (100 * COIN / d) in change (100 * COIN / d) with v end; cbn [Z.eqb Pos.eqb]; lia).
  - unfold subsidy. rewrite (proj2 (Z.eqb_neq _ _)), (proj2 (Z.leb_gt _ _)) by lia. rewrite !in_period_over by lia. lia.
Qed.
Lemma total_subsidy_supply n : (1 <= n)%nat -> total_subsidy n = supply (Z.of_nat n).
Proof.
  induction n as [|n IH]; [lia|]. intros _. cbn [total_subsidy]. destruct (decide (n = O)) as [->|Hn]; [reflexivity|].
  rewrite IH, Nat2Z.inj_succ by lia. rewrite <- supply_step by lia. f_equal; lia.
Qed.

(** C39. The subsidies of the blocks add up: exactly to the largest valid amount after nine million and one blocks, never to more before that,
    and to more by a cent of a coin with every block from then on, so that the total is larger than any valid amount. *)
Theorem supply_reaches_and_exceeds_max_money n : (forall h, 0 <= h -> GetBlockSubsidy 1 h false = Some (subsidy h)) /\
  (Z.of_nat n <= 9000001 -> total_subsidy n <= MAX_MONEY) /\ (9000001 <= Z.of_nat n -> total_subsidy n = MAX_MONEY + (Z.of_nat n - 9000001) * 1000000).
Proof.
  split; [intros h Hh; by apply GetBlockSubsidy_exact|]. destruct n as [|n]; [split; [done|lia]|]. rewrite total_subsidy_supply by lia.
  unfold MAX_MONEY. split; intros Hn.
  - change (200609375 * COIN) with (supply 9000001). unfold supply. assert (Hp : forall k, in_period (Z.of_nat (S n)) k <= in_period 9000001 k) by (intros k; unfold in_period; lia).
    pose proof (Hp 0). pose proof (Hp 1). pose proof (Hp 2). pose proof (Hp 3). pose proof (Hp 4). pose proof (Hp 5). pose proof (Hp 6). pose proof (Hp 7). pose proof (Hp 8).
    replace (Z.max 0 (Z.of_nat (S n) - 9000001)) with 0 by lia. change (Z.max 0 (9000001 - 9000001)) with 0. lia.
  - unfold supply. rewrite !in_period_over by lia. unfold COIN. lia.
Qed.

(** ** Shares *)

(** The part of the fees of special transactions that goes to the smartnode: the product is computed as a [float]. *)
Definition SpecialRewardShare (num den : Z) : spec_float := float_of_double (double_literal num den).
Definition special_share (share : spec_float) (specialTxFees : Z) : option Z := to_Z (float_mul (float_of_Z specialTxFees) share).

(** [FounderPayment] *)
Record FounderRewardStructure := mkFounderReward { frs_blockHeight : Z; frs_rewardPercentage : Z }.
Record FounderPayment := mkFounder { startBlock : Z; rewardStructures : list FounderRewardStructure }.
Fixpoint founder_step (steps : list FounderRewardStructure) (blockHeight blockReward : Z) : Z :=
  match steps with
  | [] => 0
  | s :: steps =>
      if (frs_blockHeight s =? INT_MAX) || (blockHeight <=? frs_blockHeight s) then Z.quot (s64 (blockReward * frs_rewardPercentage s)) 100
      else founder_step steps blockHeight blockReward
  end.
Definition getFounderPaymentAmount (f : FounderPayment) (blockHeight blockReward : Z) : Z :=
  if blockHeight <? startBlock f then 0 else founder_step (rewardStructures f) blockHeight blockReward.
