(* ===== verification/Superblock.v ===== *)
(** Superblocks ([governance/governance-classes.cpp]): triggers that smartnodes vote for, the payments they ask for, and the check of a
    coinbase transaction against them. *)

From stdpp Require Import prelude gmap sorting.
From Stdlib Require Import ZArith Lia.
From S2P Require Import Prelude Serialize Opcodes Transaction Script Standard Base58 Address Numbers ProTx SmartnodeList GovernanceObject Subsidy.

Open Scope Z_scope.

(** ** Text *)

(** [boost::split] with [is_any_of]. *)
Fixpoint split (delimit : list Z) (s : list Z) : list (list Z) :=
  match s with
  | [] => [[]]
  | c :: s =>
      match split delimit s with
      | part :: parts => if bool_decide (c ∈ delimit) then [] :: part :: parts else (c :: part) :: parts
      | [] => []
      end
  end.
(** [delimit.find(part) != npos] *)
Definition occurs_in (part delimit : list Z) : bool :=
  existsb (fun i => bool_decide (take (length part) (drop i delimit) = part)) (seq 0 (S (length delimit))).
Definition SplitBy (strCommand strDelimit : list Z) : list (list Z) := filter (fun part => occurs_in part strDelimit = false) (split strDelimit strCommand).

(** The position of the first character that is, or is not, in the set. *)
Definition find_first (P : Z -> bool) (s : list Z) : option nat := fst <$> list_find (fun c => P c = true) s.
(** [None] is an exception. *)
Definition ParsePaymentAmount (strAmount : list Z) : option Z :=
  if bool_decide (strAmount = []) then None
  else if (20 <? length strAmount)%nat then None
  else if bool_decide (is_Some (find_first (fun c => negb (isdigit c || (c =? 46))) strAmount)) then None
  else
    let pos := find_first (Z.eqb 46) strAmount in
    if bool_decide (pos = Some O) then None
    else if (match pos with Some p => bool_decide (is_Some (find_first (Z.eqb 46) (drop (S p) strAmount))) | None => false end) then None
    else
      nAmount ← ParseFixedPoint strAmount 8;
      if negb (MoneyRange nAmount) then None else Some nAmount.

(** ** Superblocks *)

Definition SEEN_OBJECT_IS_VALID : Z := 0.
Definition SEEN_OBJECT_ERROR_INVALID : Z := 1.
Definition SEEN_OBJECT_EXECUTED : Z := 3.
Definition SEEN_OBJECT_UNKNOWN : Z := 4.

Record CGovernancePayment := mkPayment { pay_script : CScript; pay_nAmount : Z }.
Record CSuperblock := mkSuperblock { nGovObjHash : Z; sb_nBlockHeight : Z; nStatus : Z; vecPayments : list CGovernancePayment }.
Definition SetStatus (s : CSuperblock) (status : Z) : CSuperblock := mkSuperblock (nGovObjHash s) (sb_nBlockHeight s) status (vecPayments s).

(** The order of the keys of a [std::map<uint256, ...>]. *)
Definition key_le {A : Type} (p q : Z * A) : Prop := uint256_lt q.1 p.1 = false.
#[export] Instance key_le_dec {A : Type} (p q : Z * A) : Decision (key_le p q).
Proof. unfold key_le. apply _. Defined.
Definition in_key_order {A : Type} (m : gmap Z A) : list (Z * A) := merge_sort key_le (map_to_list m).

Section Superblocks.
Variable junk : stream.
Variable base58 : Prefixes.
Variable GetJSONObject : list Z -> object_data.
Context `{PH : PropertyHash}.
Variable nCollaterals : SmartnodeCollaterals.
Variable nGovernanceMinQuorum : Z.
(** [consensus.nSuperblockStartBlock], [consensus.nSuperblockCycle] *)
Variables nSuperblockStartBlock nSuperblockCycle : Z.

Abbreviation objects := (gmap Z CGovernanceObject).

(** An exception is [Some None], a failed assertion [None]. *)
Definition Payment_new (address : CBase58Data) (nAmount : Z) : CGovernancePayment :=
  mkPayment (GetScriptForDestination (Address_Get base58 address)) nAmount.
Fixpoint parse_payments (addresses amounts : list (list Z)) : option (option (list CGovernancePayment)) :=
  match addresses, amounts with
  | a :: addresses, m :: amounts =>
      '(_, address) ← SetString junk a 1;
      if negb (Address_IsValid base58 address) then Some None
      else if IsScript base58 address then Some None
      else match ParsePaymentAmount m with
           | None => Some None
           | Some nAmount =>
               rest ← parse_payments addresses amounts;
               Some (payments ← rest; Some (Payment_new address nAmount :: payments))
           end
  | _, _ => Some (Some [])
  end.
Definition ParsePaymentSchedule (strPaymentAddresses strPaymentAmounts : list Z) : option (option (list CGovernancePayment)) :=
  let vecParsed1 := SplitBy strPaymentAddresses [124] in
  let vecParsed2 := SplitBy strPaymentAmounts [124] in
  if negb (length vecParsed1 =? length vecParsed2)%nat then Some None
  else if (length vecParsed1 =? 0)%nat then Some None
  else parse_payments vecParsed1 vecParsed2.
Definition Superblock_new (mapObjects : objects) (nHash : Z) : option (option CSuperblock) :=
  match mapObjects !! nHash with
  | None => Some None
  | Some pGovObj =>
      if negb (nObjectType pGovObj =? GOVERNANCE_OBJECT_TRIGGER) then Some None
      else
        let obj := GetJSONObject (vchData pGovObj) in
        match event_block_height obj, payment_addresses obj, payment_amounts obj with
        | Some height, Some strAddresses, Some strAmounts =>
            r ← ParsePaymentSchedule strAddresses strAmounts;
            Some (payments ← r; Some (mkSuperblock nHash height SEEN_OBJECT_UNKNOWN payments))
        | _, _, _ => Some None
        end
  end.

Definition IsValidBlockHeight (nBlockHeight : Z) : bool :=
  (nSuperblockStartBlock <=? nBlockHeight) && (Z.rem nBlockHeight nSuperblockCycle =? 0).
(** The heights of the last superblock and of the next one. *)
Definition GetNearestSuperblocksHeights (nBlockHeight : Z) : Z * Z :=
  let nFirstSuperblockOffset := Z.rem (nSuperblockCycle - Z.rem nSuperblockStartBlock nSuperblockCycle) nSuperblockCycle in
  let nFirstSuperblock := nSuperblockStartBlock + nFirstSuperblockOffset in
  if nBlockHeight <? nFirstSuperblock then (0, nFirstSuperblock)
  else
    let nLastSuperblockRet := nBlockHeight - Z.rem nBlockHeight nSuperblockCycle in
    (nLastSuperblockRet, nLastSuperblockRet + nSuperblockCycle).
(** [nBits] only goes into [GetBlockSubsidy], which does not use it. *)
Definition GetPaymentsLimit (nBits nBlockHeight : Z) : option Z :=
  if negb (IsValidBlockHeight nBlockHeight) then Some 0
  else
    nSuperblockPartOfSubsidy ← GetBlockSubsidy nBits (nBlockHeight - 1) true;
    Some (s64 (nSuperblockPartOfSubsidy * nSuperblockCycle)).
Definition CountPayments (s : CSuperblock) : Z := Z.of_nat (length (vecPayments s)).
Definition GetPayment (s : CSuperblock) (nPaymentIndex : Z) : option CGovernancePayment :=
  if (nPaymentIndex <? 0) || (CountPayments s <=? nPaymentIndex) then None else vecPayments s !! Z.to_nat nPaymentIndex.
Definition GetPaymentsTotalAmount (s : CSuperblock) : Z := foldl (fun total p => s64 (total + pay_nAmount p)) 0 (vecPayments s).

(** The search for a payment in the outputs from [nVoutIndex] on: the index of the output. *)
Definition pays (p : CGovernancePayment) (o : CTxOut) : bool := bool_decide (pay_script p = scriptPubKey o) && (pay_nAmount p =? nValue o).
Definition find_payment (p : CGovernancePayment) (outs : list CTxOut) (nVoutIndex : nat) : option nat :=
  (fun r => (nVoutIndex + r.1)%nat) <$> list_find (fun o => pays p o = true) (drop nVoutIndex outs).
Fixpoint match_payments (payments : list CGovernancePayment) (outs : list CTxOut) (nVoutIndex : nat) : bool :=
  match payments with
  | [] => true
  | p :: payments =>
      match find_payment p outs nVoutIndex with
      | Some j => match_payments payments outs j
      | None => false
      end
  end.
(** [None] is an exception, of [GetValueOut]. *)
Definition Superblock_IsValid (nBits : Z) (s : CSuperblock) (txNew : CTransaction) (nBlockHeight blockReward : Z) : option bool :=
  if negb (IsValidBlockHeight nBlockHeight) then Some false
  else
    let nMinerAndSmartnodePayments := Z.of_nat (length (vout txNew)) - CountPayments s in
    if nMinerAndSmartnodePayments <? 0 then Some false
    else
      let nPaymentsTotalAmount := GetPaymentsTotalAmount s in
      nPaymentsLimit ← GetPaymentsLimit nBits nBlockHeight;
      if nPaymentsLimit <? nPaymentsTotalAmount then Some false
      else
        nBlockValue ← GetValueOut txNew;
        if s64 (blockReward + nPaymentsTotalAmount) <? nBlockValue then Some false
        else Some (match_payments (vecPayments s) (vout txNew) 0).
Definition IsExpired (s : CSuperblock) (nCachedBlockHeight : Z) : bool :=
  let nExpirationBlocks :=
    if nStatus s =? SEEN_OBJECT_EXECUTED then nSuperblockCycle else if nStatus s =? SEEN_OBJECT_IS_VALID then 576 else 24 in
  sb_nBlockHeight s + nExpirationBlocks <? nCachedBlockHeight.

(** ** [CGovernanceTriggerManager] *)

Abbreviation triggers := (gmap Z CSuperblock).

Definition AddNewTrigger (mapObjects : objects) (mapTrigger : triggers) (nHash : Z) : option (bool * triggers) :=
  if bool_decide (is_Some (mapTrigger !! nHash)) then Some (false, mapTrigger)
  else
    r ← Superblock_new mapObjects nHash;
    Some (match r with
          | None => (false, mapTrigger)
          | Some pSuperblock => (true, <[nHash := SetStatus pSuperblock SEEN_OBJECT_IS_VALID]> mapTrigger)
          end).
(** One trigger of [CleanAndRemove], which is kept, or removed and its object marked. *)
Definition clean_trigger (now nCachedBlockHeight : Z) (st : objects * triggers) (p : Z * CSuperblock) : objects * triggers :=
  let '(mapObjects, mapTrigger) := st in
  let pObj := mapObjects !! p.1 in
  let known := match pObj with Some o => nObjectType o =? GOVERNANCE_OBJECT_TRIGGER | None => false end in
  let s := if known then p.2 else SetStatus p.2 SEEN_OBJECT_ERROR_INVALID in
  let mapTrigger := <[p.1 := s]> mapTrigger in
  let expired := ((nStatus s =? SEEN_OBJECT_IS_VALID) || (nStatus s =? SEEN_OBJECT_EXECUTED)) && IsExpired s nCachedBlockHeight in
  let remove := (nStatus s =? SEEN_OBJECT_ERROR_INVALID) || (nStatus s =? SEEN_OBJECT_UNKNOWN) || expired in
  if remove then
    (match pObj with
     | Some o => <[p.1 := PrepareDeletion (if expired then SetExpired o else o) now]> mapObjects
     | None => mapObjects
     end, delete p.1 mapTrigger)
  else (mapObjects, mapTrigger).
Definition CleanAndRemove (now nCachedBlockHeight : Z) (mapObjects : objects) (mapTrigger : triggers) : objects * triggers :=
  foldl (clean_trigger now nCachedBlockHeight) (mapObjects, mapTrigger) (in_key_order mapTrigger).
Definition GetActiveTriggers (mapObjects : objects) (mapTrigger : triggers) : list CSuperblock :=
  (filter (fun p => bool_decide (is_Some (mapObjects !! p.1)) = true) (in_key_order mapTrigger)).*2.

(** ** [CSuperblockManager] *)

Fixpoint triggered (e : vote_env) (nBlockHeight : Z) (vecTriggers : list CSuperblock) (mapObjects : objects) : bool * objects :=
  match vecTriggers with
  | [] => (false, mapObjects)
  | pSuperblock :: rest =>
      match mapObjects !! nGovObjHash pSuperblock with
      | None => triggered e nBlockHeight rest mapObjects
      | Some pObj =>
          if negb (nBlockHeight =? sb_nBlockHeight pSuperblock) then triggered e nBlockHeight rest mapObjects
          else
            let pObj := UpdateSentinelVariables nCollaterals nGovernanceMinQuorum e pObj in
            let mapObjects := <[nGovObjHash pSuperblock := pObj]> mapObjects in
            if fCachedFunding pObj then (true, mapObjects) else triggered e nBlockHeight rest mapObjects
      end
  end.
Definition IsSuperblockTriggered (e : vote_env) (mapObjects : objects) (mapTrigger : triggers) (nBlockHeight : Z) : bool * objects :=
  if negb (IsValidBlockHeight nBlockHeight) then (false, mapObjects)
  else triggered e nBlockHeight (GetActiveTriggers mapObjects mapTrigger) mapObjects.
Definition better (mapObjects : objects) (nBlockHeight : Z) (best : Z * option CSuperblock) (pSuperblock : CSuperblock) : Z * option CSuperblock :=
  if negb (nBlockHeight =? sb_nBlockHeight pSuperblock) then best
  else match mapObjects !! nGovObjHash pSuperblock with
       | None => best
       | Some pObj =>
           let nTempYesCount := GetAbsoluteYesCount pObj VOTE_SIGNAL_FUNDING in
           if best.1 <? nTempYesCount then (nTempYesCount, Some pSuperblock) else best
       end.
Definition GetBestSuperblock (mapObjects : objects) (mapTrigger : triggers) (nBlockHeight : Z) : option CSuperblock :=
  if negb (IsValidBlockHeight nBlockHeight) then None
  else
    let '(nYesCount, pSuperblock) := foldl (better mapObjects nBlockHeight) (0, None) (GetActiveTriggers mapObjects mapTrigger) in
    if 0 <? nYesCount then pSuperblock else None.
(** The outputs; [None] when there is no superblock, and the vector of the caller is left alone. *)
Definition GetSuperblockPayments (mapObjects : objects) (mapTrigger : triggers) (nBlockHeight : Z) : option (list CTxOut) :=
  pSuperblock ← GetBestSuperblock mapObjects mapTrigger nBlockHeight;
  Some (map (fun p => mkTxOut (pay_nAmount p) (pay_script p) (-10)) (vecPayments pSuperblock)).
Definition SuperblockManager_IsValid (nBits : Z) (mapObjects : objects) (mapTrigger : triggers) (txNew : CTransaction) (nBlockHeight blockReward : Z) : option bool :=
  match GetBestSuperblock mapObjects mapTrigger nBlockHeight with
  | Some pSuperblock => Superblock_IsValid nBits pSuperblock txNew nBlockHeight blockReward
  | None => Some false
  end.
Definition ExecuteBestSuperblock (mapObjects : objects) (mapTrigger : triggers) (nBlockHeight : Z) : triggers :=
  match GetBestSuperblock mapObjects mapTrigger nBlockHeight with
  | Some pSuperblock => <[nGovObjHash pSuperblock := SetStatus pSuperblock SEEN_OBJECT_EXECUTED]> mapTrigger
  | None => mapTrigger
  end.

(** ** The theorems *)

Section Heights.
Hypothesis Hstart : 0 <= nSuperblockStartBlock.
Hypothesis Hcycle : 0 < nSuperblockCycle.

Lemma valid_height_iff h : 0 <= h -> IsValidBlockHeight h = true <-> nSuperblockStartBlock <= h /\ (nSuperblockCycle | h).
Proof.
  intros Hh. unfold IsValidBlockHeight. rewrite andb_true_iff, Z.leb_le, Z.eqb_eq, Z.rem_divide by lia. done.
Qed.
Lemma first_superblock : let first := nSuperblockStartBlock + Z.rem (nSuperblockCycle - Z.rem nSuperblockStartBlock nSuperblockCycle) nSuperblockCycle in
  nSuperblockStartBlock <= first < nSuperblockStartBlock + nSuperblockCycle /\ (nSuperblockCycle | first).
Proof.
  intros first. unfold first. pose proof (Z.rem_bound_pos nSuperblockStartBlock nSuperblockCycle Hstart Hcycle) as Hr.
  set (r := Z.rem nSuperblockStartBlock nSuperblockCycle) in *. pose proof (Z.rem_bound_pos (nSuperblockCycle - r) nSuperblockCycle ltac:(lia) Hcycle).
  split; [lia|]. assert (Er : nSuperblockStartBlock = nSuperblockCycle * Z.quot nSuperblockStartBlock nSuperblockCycle + r) by (apply Z.quot_rem'; lia).
  destruct (decide (r = 0)) as [E0|Hne].
  - rewrite E0, Z.sub_0_r, Z.rem_same by lia. exists (Z.quot nSuperblockStartBlock nSuperblockCycle). lia.
  - rewrite (Z.rem_small (nSuperblockCycle - r)) by lia. exists (Z.quot nSuperblockStartBlock nSuperblockCycle + 1). lia.
Qed.
(** The next superblock is the first valid height above this one; the last one is the greatest valid height up to this one, if there is any. *)
Theorem nearest_superblocks h : 0 <= h -> let '(last, next) := GetNearestSuperblocksHeights h in
  IsValidBlockHeight next = true /\ h < next /\ (forall k, h < k < next -> IsValidBlockHeight k = false) /\
  (IsValidBlockHeight last = true /\ last <= h /\ (forall k, last < k <= h -> IsValidBlockHeight k = false) \/
   last = 0 /\ forall k, 0 <= k <= h -> IsValidBlockHeight k = false).
Proof.
  intros Hh. unfold GetNearestSuperblocksHeights. destruct first_superblock as [Hf Hd]. set (first := nSuperblockStartBlock + _) in *.
  assert (Hno : forall k, 0 <= k < first -> IsValidBlockHeight k = false).
  { intros k Hk. apply not_true_iff_false. rewrite valid_height_iff by lia. intros [Hs Hkd]. destruct Hd as [a Ha], Hkd as [b Hb].
    assert (b < a) by nia. assert (b + 1 <= a) by lia. nia. }
  destruct (Z.ltb_spec h first) as [Hlt|Hge].
  { split_and!; [apply valid_height_iff; [lia|split; [lia|done]]|done|intros k Hk; apply Hno; lia|]. right. split; [done|]. intros k Hk. apply Hno. lia. }
  pose proof (Z.rem_bound_pos h nSuperblockCycle ltac:(lia) Hcycle) as Hr. set (r := Z.rem h nSuperblockCycle) in *.
  assert (Eh : h = nSuperblockCycle * Z.quot h nSuperblockCycle + r) by (apply Z.quot_rem'; lia). set (q := Z.quot h nSuperblockCycle) in *.
  assert (Hlast : first <= h - r). { destruct Hd as [a Ha]. assert (a <= q) by nia. nia. }
  assert (Hgap : forall k, h - r < k < h - r + nSuperblockCycle -> IsValidBlockHeight k = false).
  { intros k Hk. apply not_true_iff_false. rewrite valid_height_iff by lia. intros [_ [b Hb]]. assert (q < b) by nia. assert (b < q + 1) by nia. lia. }
  split_and!; [apply valid_height_iff; [lia|split; [lia|exists (q + 1); lia]]|lia|intros k Hk; apply Hgap; lia|].
  left. split_and!; [apply valid_height_iff; [lia|split; [lia|exists q; lia]]|lia|intros k Hk; apply Hgap; lia].
Qed.
End Heights.

(** *** Payments in the outputs *)

Lemma find_payment_found p outs i k o : (i <= k)%nat -> outs !! k = Some o -> pays p o = true -> exists j, find_payment p outs i = Some j /\ (j <= k)%nat.
Proof.
  intros Hik Hk Hp. unfold find_payment. destruct (list_find (fun o => pays p o = true) (drop i outs)) as [[j o']|] eqn:E.
  - exists (i + j)%nat. split; [done|]. apply list_find_Some in E as (_ & _ & Hfirst). destruct (decide (j <= k - i)%nat); [lia|].
    exfalso. apply (Hfirst (k - i)%nat o); [rewrite lookup_drop; replace (i + (k - i))%nat with k by lia; done|lia|done].
  - exfalso. apply list_find_None in E. rewrite Forall_forall in E. apply (E o); [|done]. apply (list_elem_of_lookup_2 _ (k - i)).
    rewrite lookup_drop. by replace (i + (k - i))%nat with k by lia.
Qed.
Definition payment_out (p : CGovernancePayment) : CTxOut := mkTxOut (pay_nAmount p) (pay_script p) (-10).
(** A coinbase with the payments in a row, wherever they are, is accepted. *)
Lemma match_payments_complete payments : forall pre post i, (i <= length pre)%nat -> match_payments payments (pre ++ map payment_out payments ++ post) i = true.
Proof.
  induction payments as [|p payments IH]; intros pre post i Hi; cbn [match_payments map]; [done|].
  destruct (find_payment_found p (pre ++ (payment_out p :: map payment_out payments) ++ post) i (length pre) (payment_out p)) as (j & -> & Hj).
  - done.
  - rewrite lookup_app_r, Nat.sub_diag by lia. done.
  - unfold pays. cbn [payment_out scriptPubKey nValue]. rewrite bool_decide_eq_true_2 by done. apply Z.eqb_refl.
  - cbn [app]. rewrite (cons_middle (payment_out p)), app_assoc. apply IH. rewrite length_app. cbn. lia.
Qed.
Lemma match_payments_sound payments outs : forall i, match_payments payments outs i = true -> Forall (fun p => Exists (fun o => pays p o = true) outs) payments.
Proof.
  induction payments as [|p payments IH]; intros i; cbn [match_payments]; [constructor|]. unfold find_payment.
  destruct (list_find _ (drop i outs)) as [[j o]|] eqn:E; [|done]. cbn [fmap option_fmap option_map]. intros Hm. constructor; [|by eapply IH].
  apply list_find_Some in E as (Hl & Hp & _). apply Exists_exists. exists o. split; [|done]. rewrite lookup_drop in Hl. by eapply list_elem_of_lookup_2.
Qed.
(** One output is enough for two payments that are the same. *)
Theorem one_output_for_equal_payments p payments outs i : match_payments (p :: payments) outs i = true -> match_payments (p :: p :: payments) outs i = true.
Proof.
  cbn [match_payments]. destruct (find_payment p outs i) as [j|] eqn:E; [|done]. intros Hm.
  assert (find_payment p outs j = Some j) as ->; [|done]. unfold find_payment in *.
  destruct (list_find (fun o => pays p o = true) (drop i outs)) as [[k o]|] eqn:El; [|done]. injection E as <-. cbn [fst].
  apply list_find_Some in El as (Hl & Hp & _). rewrite lookup_drop in Hl.
  destruct (drop (i + k) outs) as [|o' rest] eqn:Ed.
  - apply lookup_lt_Some in Hl. apply (f_equal length) in Ed. rewrite length_drop in Ed. cbn in Ed. lia.
  - assert (o' = o) as ->. { pose proof (lookup_drop outs (i + k) 0) as Hd. rewrite Ed, Nat.add_0_r, Hl in Hd. by injection Hd. }
    cbn [list_find]. rewrite decide_True by done. cbn. f_equal. lia.
Qed.

(** *** Which superblock *)

(** The flags of the objects do not matter for the choice. *)
Definition same_votes (objs objs' : objects) : Prop := mapCurrentMNVotes <$> objs = mapCurrentMNVotes <$> objs'.
Lemma same_votes_lookup objs objs' h : same_votes objs objs' -> mapCurrentMNVotes <$> objs !! h = mapCurrentMNVotes <$> objs' !! h.
Proof. unfold same_votes. intros E. by rewrite <- !lookup_fmap, E. Qed.
Lemma UpdateSentinelVariables_votes e o : mapCurrentMNVotes (UpdateSentinelVariables nCollaterals nGovernanceMinQuorum e o) = mapCurrentMNVotes o.
Proof. unfold UpdateSentinelVariables. destruct (_ =? 0); [done|]. by destruct o. Qed.
Lemma count_same o o' signal : mapCurrentMNVotes o = mapCurrentMNVotes o' -> GetAbsoluteYesCount o signal = GetAbsoluteYesCount o' signal.
Proof. intros E. unfold GetAbsoluteYesCount, GetYesCount, GetNoCount, CountMatchingVotes. by rewrite E. Qed.
Lemma GetBestSuperblock_same_votes objs objs' trig h : same_votes objs objs' -> GetBestSuperblock objs trig h = GetBestSuperblock objs' trig h.
Proof.
  intros Hsame. unfold GetBestSuperblock. destruct (negb _); [done|].
  assert (GetActiveTriggers objs trig = GetActiveTriggers objs' trig) as ->.
  { unfold GetActiveTriggers. f_equal. apply list_filter_iff. intros [k s]. cbn [fst]. rewrite !bool_decide_eq_true.
    pose proof (same_votes_lookup objs objs' k Hsame) as E. destruct (objs !! k), (objs' !! k); try done; by rewrite !is_Some_alt. }
  assert (Hb : forall l best, foldl (better objs h) best l = foldl (better objs' h) best l); [|by rewrite Hb].
  induction l as [|s l IH]; intros best; [done|]. cbn [foldl]. rewrite IH. f_equal. unfold better. destruct (negb _); [done|].
  pose proof (same_votes_lookup objs objs' (nGovObjHash s) Hsame) as E. destruct (objs !! nGovObjHash s), (objs' !! nGovObjHash s); try done.
  injection E as E. by rewrite (count_same _ _ _ E).
Qed.

(** The vote that triggers. *)
Lemma funding_set_sentinel o deletion funding valid delete endorsed dirty : fCachedFunding (set_sentinel o deletion funding valid delete endorsed dirty) = funding.
Proof. by destruct o. Qed.
Lemma triggered_same_votes e h l : forall objs b objs', triggered e h l objs = (b, objs') -> same_votes objs objs' /\
  (b = true -> exists s o, s ∈ l /\ sb_nBlockHeight s = h /\ objs !! nGovObjHash s = Some o /\
     (GetValidMNsCount nCollaterals (mnList e) <> 0 -> nGovernanceMinQuorum <= GetAbsoluteYesCount o VOTE_SIGNAL_FUNDING)).
Proof.
  induction l as [|s l IH]; intros objs b objs'; cbn [triggered]; [by intros [= <- <-]|].
  assert (Hskip : forall objs1, same_votes objs objs1 -> triggered e h l objs1 = (b, objs') -> same_votes objs objs' /\ (b = true -> exists s' o, s' ∈ s :: l /\
     sb_nBlockHeight s' = h /\ objs !! nGovObjHash s' = Some o /\ (GetValidMNsCount nCollaterals (mnList e) <> 0 -> nGovernanceMinQuorum <= GetAbsoluteYesCount o VOTE_SIGNAL_FUNDING))).
  { intros objs1 Hsame1 E. destruct (IH _ _ _ E) as [Hsame Hex]. split; [by unfold same_votes in *; congruence|]. intros Hb. destruct (Hex Hb) as (s' & o & Hs' & Eh & Eo & Hq).
    pose proof (same_votes_lookup objs objs1 (nGovObjHash s') Hsame1) as El. rewrite Eo in El. destruct (objs !! nGovObjHash s') as [o'|] eqn:Eo'; [|done].
    injection El as El. exists s', o'. split_and!; [by right|done..|]. intros Hc. rewrite (count_same _ _ _ El). by apply Hq. }
  destruct (objs !! nGovObjHash s) as [o|] eqn:Eo; [|by apply Hskip]. destruct (Z.eqb_spec h (sb_nBlockHeight s)) as [Eh|]; cbn [negb]; [|by apply Hskip].
  assert (Hsame1 : same_votes objs (<[nGovObjHash s := UpdateSentinelVariables nCollaterals nGovernanceMinQuorum e o]> objs)).
  { unfold same_votes. rewrite fmap_insert, UpdateSentinelVariables_votes. symmetry. apply insert_id. by rewrite lookup_fmap, Eo. }
  destruct (fCachedFunding _) eqn:Ef; [|by apply Hskip]. intros [= <- <-]. split; [exact Hsame1|]. intros _. exists s, o. split_and!; [left|done..|].
  intros Hc. unfold UpdateSentinelVariables in Ef. rewrite (proj2 (Z.eqb_neq _ _) Hc) in Ef. cbv zeta in Ef. rewrite funding_set_sentinel in Ef. apply Z.leb_le in Ef. lia.
Qed.

Lemma better_max objs h l : forall best, best.1 <= (foldl (better objs h) best l).1 /\ (0 <= best.1 -> (0 < best.1 -> is_Some best.2) -> 0 < (foldl (better objs h) best l).1 -> is_Some (foldl (better objs h) best l).2) /\
  (forall s o, s ∈ l -> sb_nBlockHeight s = h -> objs !! nGovObjHash s = Some o -> GetAbsoluteYesCount o VOTE_SIGNAL_FUNDING <= (foldl (better objs h) best l).1).
Proof.
  induction l as [|s l IH]; intros best; cbn [foldl]; [split_and!; [done|tauto|by intros s o H%elem_of_nil]|].
  destruct (IH (better objs h best s)) as (H1 & H2 & H3).
  assert (Hb : best.1 <= (better objs h best s).1 /\ (0 <= best.1 -> (0 < best.1 -> is_Some best.2) -> 0 <= (better objs h best s).1 /\ (0 < (better objs h best s).1 -> is_Some (better objs h best s).2)) /\
    forall o, sb_nBlockHeight s = h -> objs !! nGovObjHash s = Some o -> GetAbsoluteYesCount o VOTE_SIGNAL_FUNDING <= (better objs h best s).1).
  { unfold better. destruct (Z.eqb_spec h (sb_nBlockHeight s)) as [Eh|Hne]; cbn [negb]; [|split_and!; [lia|tauto|intros o Eh; lia]].
    destruct (objs !! nGovObjHash s) as [o|]; [|split_and!; [lia|tauto|done]].
    destruct (Z.ltb_spec best.1 (GetAbsoluteYesCount o VOTE_SIGNAL_FUNDING)); cbn [fst snd]; (split_and!; [lia| |intros o' _ [= <-]; lia]); intros H0 Hs; (split; [lia|]); [eauto|done]. }
  destruct Hb as (Hb1 & Hb2 & Hb3). split_and!; [lia|intros H0 Hs; destruct (Hb2 H0 Hs); by apply H2|].
  intros s' o [->|Hs']%elem_of_cons Eh Eo; [specialize (Hb3 o Eh Eo); lia|by apply (H3 s' o)].
Qed.

(** A superblock that is triggered can be paid: there is a best one, the same before and after the flags have been updated, and no other
    trigger of that height has more votes. *)
Theorem triggered_has_best e objs trig h objs' :
  0 < nGovernanceMinQuorum -> GetValidMNsCount nCollaterals (mnList e) <> 0 -> IsSuperblockTriggered e objs trig h = (true, objs') ->
  exists best, GetBestSuperblock objs trig h = Some best /\ GetBestSuperblock objs' trig h = Some best.
Proof.
  intros Hq Hc. unfold IsSuperblockTriggered. destruct (IsValidBlockHeight h) eqn:Eh; cbn [negb]; [|done]. intros E.
  destruct (triggered_same_votes _ _ _ _ _ _ E) as [Hsame Hex]. destruct (Hex eq_refl) as (s & o & Hs & Ehs & Eo & Hyes). specialize (Hyes Hc).
  rewrite <- (GetBestSuperblock_same_votes objs objs' trig h Hsame). unfold GetBestSuperblock. rewrite Eh. cbn [negb].
  destruct (better_max objs h (GetActiveTriggers objs trig) (0, None)) as (_ & H2 & H3). specialize (H3 s o Hs Ehs Eo).
  destruct (foldl (better objs h) (0, None) (GetActiveTriggers objs trig)) as [n best]. cbn [fst snd] in *. rewrite (proj2 (Z.ltb_lt _ _)) by lia.
  destruct H2 as [b ->]; [lia|lia|lia|]. by exists b.
Qed.
End Superblocks.
