(* ===== verification/Rewards.v ===== *)
(** Who is paid by a block: the payments to smartnodes and superblocks ([smartnode/smartnode-payments.cpp]), to the founders
    ([founder_payment.cpp]), the coinbase transaction a miner builds ([miner.cpp]) and the rules that accept or refuse it. *)

From stdpp Require Import prelude gmap sorting.
From Stdlib Require Import ZArith Lia SpecFloat.
From S2P Require Import Prelude Chain ActiveChain Opcodes Transaction Script Interpreter Hashes Standard ProTx SmartnodeList SmartnodeBlock SmartnodePayee GovernanceObject Subsidy Superblock.

Open Scope Z_scope.

(** What the reward rules ask of the smartnode manager: the list after a block, and from which height on the lists bind. *)
Class SmartnodeLists := {
  GetListForBlock : ptr -> CDeterministicMNList;
  IsDIP3Enforced : Z -> bool
}.

Section Rewards.
Context `{SL : SmartnodeLists}.
Context `{PH : PropertyHash} `{CH : CryptoHashes}.

(** Parameters of the network; [founderScript] is the script of the founders' address. *)
Record RewardParams := mkRewardParams {
  nBudgetPaymentsStartBlock : Z;
  nBudgetPaymentsCycleBlocks : Z;
  nBudgetPaymentsWindowBlocks : Z;
  nSuperblockStartBlock : Z;
  nSuperblockCycle : Z;
  smartnodePaymentFixedBlock : Z;
  nCollaterals : SmartnodeCollaterals;
  nSpecialRewardShare_smartnode : spec_float;
  nFounderPayment : FounderPayment;
  founderScript : CScript;
  nGovernanceMinQuorum : Z;
  DIP0003Height : Z;
  nSegwitEnabled : bool
}.
Variable params : RewardParams.

(** The state of the node the rules depend on; [chain] is [chainActive]. *)
Record node_state := mkNode {
  chain : CChain;
  fSynced : bool;
  fLiteMode : bool;
  spork9 : bool;
  governance_env : vote_env;
  mapTrigger : gmap Z CSuperblock
}.
Abbreviation objects := (gmap Z CGovernanceObject).

(** ** Smartnodes *)

Definition GetSmartnodePayment (n : node_state) (nHeight blockValue specialTxFees : Z) : option Z :=
  let mnCount := match Tip (chain n) with None => 0 | Some tip => GetAllMNsCount (GetListForBlock tip) end in
  if 1 <=? mnCount then
    let percentage := getRewardPercentage (nCollaterals params) nHeight in
    specialFeeReward ← special_share (nSpecialRewardShare_smartnode params) specialTxFees;
    Some (s64 (Z.quot (s64 (blockValue * percentage)) 100 + specialFeeReward))
  else Some 0.
(** The outer [None] is a block of the chain that is not there; the inner one the result [false]. *)
Definition GetBlockTxOuts (n : node_state) (nBlockHeight blockReward specialTxFee : Z) : option (option (list CTxOut)) :=
  smartnodeReward ← GetSmartnodePayment n nBlockHeight blockReward specialTxFee;
  if smartnodeReward =? 0 then Some None
  else
    pindex ← at_height (chain n) (nBlockHeight - 1);
    match GetMNPayee (nCollaterals params) (GetListForBlock pindex) with
    | None => Some None
    | Some dmnPayee =>
        let operatorReward :=
          if negb (nOperatorReward dmnPayee =? 0) && negb (bool_decide (scriptOperatorPayout (pdmnState dmnPayee) = []))
          then Z.quot (s64 (smartnodeReward * nOperatorReward dmnPayee)) 10000 else 0 in
        let smartnodeReward := smartnodeReward - operatorReward in
        Some (Some ((if 0 <? smartnodeReward then [mkTxOut smartnodeReward (scriptPayout (pdmnState dmnPayee)) (-10)] else []) ++
                    (if 0 <? operatorReward then [mkTxOut operatorReward (scriptOperatorPayout (pdmnState dmnPayee)) (-10)] else [])))
    end.
(** The vector it fills. *)
Definition GetSmartnodeTxOuts (n : node_state) (nBlockHeight blockReward specialTxFee : Z) : option (list CTxOut) :=
  r ← GetBlockTxOuts n nBlockHeight blockReward specialTxFee; Some (default [] r).
(** The payments searched for among the outputs; [None] is the failed assertion on a payment to no known kind of script. *)
Fixpoint find_payees (payments outs : list CTxOut) : option bool :=
  match payments with
  | [] => Some true
  | txout :: payments =>
      if bool_decide (txout ∈ outs) then find_payees payments outs
      else _ ← ExtractDestination (scriptPubKey txout); Some false
  end.
Definition IsTransactionValid (n : node_state) (txNew : CTransaction) (nBlockHeight blockReward specialTxFee : Z) : option bool :=
  if negb (IsDIP3Enforced nBlockHeight) then Some true
  else
    r ← GetBlockTxOuts n nBlockHeight blockReward specialTxFee;
    match r with
    | None => Some true
    | Some voutSmartnodePayments => find_payees voutSmartnodePayments (vout txNew)
    end.
(** Who will be paid by the next [nCount] blocks; [None] is the exception of [reserve] for a negative number. *)
Definition paid_before (a b : CDeterministicMN) : Prop := CompareByLastPaid b a = false.
#[local] Instance paid_before_dec a b : Decision (paid_before a b) := decide (CompareByLastPaid b a = false).
Definition GetProjectedMNPayees (l : CDeterministicMNList) (nCount : Z) : option (list CDeterministicMN) :=
  let validMnCount := GetValidMNsCount (nCollaterals params) l in
  let nCount := if validMnCount <? 1 then 0 else if validMnCount <? nCount then validMnCount else nCount in
  if nCount <? 0 then None
  else
    let result := merge_sort paid_before (ForEachMN (nCollaterals params) l true) in
    Some (if nCount <? Z.of_nat (length result) then take (Z.to_nat nCount) result else result).
(** [tipList] is the list at the tip. *)
Definition IsScheduled (tipList : CDeterministicMNList) (dmnIn : CDeterministicMN) : option bool :=
  projectedPayees ← GetProjectedMNPayees tipList 8;
  Some (existsb (fun dmn => proTxHash dmn =? proTxHash dmnIn) projectedPayees).

(** ** The rules for the value and the payees *)

(** [block.vtx[0]->GetValueOut() <= blockReward]; [None] is its exception. *)
Definition value_met (tx : CTransaction) (blockReward : Z) : option bool := v ← GetValueOut tx; Some (v <=? blockReward).
Definition IsOldBudgetBlockValueValid (n : node_state) (tx : CTransaction) (nBlockHeight blockReward : Z) : option bool :=
  isBlockRewardValueMet ← value_met tx blockReward;
  if nBlockHeight <? nBudgetPaymentsStartBlock params then Some false
  else if nSuperblockStartBlock params <=? nBlockHeight then Some false
  else
    let nOffset := Z.rem nBlockHeight (nBudgetPaymentsCycleBlocks params) in
    if (nBudgetPaymentsStartBlock params <=? nBlockHeight) && (nOffset <? nBudgetPaymentsWindowBlocks params) then
      if fSynced n then Some isBlockRewardValueMet else Some true
    else Some isBlockRewardValueMet.
Definition SuperblockTriggered (n : node_state) (objs : objects) (nBlockHeight : Z) : bool * objects :=
  IsSuperblockTriggered (nCollaterals params) (nGovernanceMinQuorum params) (nSuperblockStartBlock params) (nSuperblockCycle params)
    (governance_env n) objs (mapTrigger n) nBlockHeight.
Definition SuperblockValid (n : node_state) (objs : objects) (tx : CTransaction) (nBlockHeight blockReward : Z) : option bool :=
  SuperblockManager_IsValid (nSuperblockStartBlock params) (nSuperblockCycle params) 1 objs (mapTrigger n) tx nBlockHeight blockReward.
Definition IsBlockValueValid (n : node_state) (objs : objects) (tx : CTransaction) (nBlockHeight blockReward : Z) : option (bool * objects) :=
  isBlockRewardValueMet ← value_met tx blockReward;
  if nBlockHeight <? nBudgetPaymentsStartBlock params then Some (isBlockRewardValueMet, objs)
  else if nBlockHeight <? nSuperblockStartBlock params then
    b ← IsOldBudgetBlockValueValid n tx nBlockHeight blockReward; Some (b, objs)
  else
    limit ← GetPaymentsLimit (nSuperblockStartBlock params) (nSuperblockCycle params) 1 nBlockHeight;
    isSuperblockMaxValueMet ← value_met tx (s64 (blockReward + limit));
    if negb (IsValidBlockHeight (nSuperblockStartBlock params) (nSuperblockCycle params) nBlockHeight) then Some (isBlockRewardValueMet, objs)
    else if negb isSuperblockMaxValueMet then Some (false, objs)
    else if negb (fSynced n) || fLiteMode n then Some (true, objs)
    else if negb (spork9 n) then Some (isBlockRewardValueMet, objs)
    else
      let '(is_triggered, objs) := SuperblockTriggered n objs nBlockHeight in
      if negb is_triggered then Some (isBlockRewardValueMet, objs)
      else
        ok ← SuperblockValid n objs tx nBlockHeight blockReward;
        Some (ok, objs).
Definition IsBlockPayeeValid (n : node_state) (objs : objects) (txNew : CTransaction) (nBlockHeight blockReward specialTxFees : Z) : option (bool * objects) :=
  if fLiteMode n then Some (true, objs)
  else if (nBlockHeight <? smartnodePaymentFixedBlock params) && (nBlockHeight <? nSuperblockStartBlock params) then Some (true, objs)
  else
    let '(is_triggered, objs) := if spork9 n then SuperblockTriggered n objs nBlockHeight else (false, objs) in
    superblock_ok ← (if is_triggered then SuperblockValid n objs txNew nBlockHeight blockReward else Some true);
    if negb superblock_ok then Some (false, objs)
    else ok ← IsTransactionValid n txNew nBlockHeight blockReward specialTxFees; Some (ok, objs).

(** ** Founders *)

Definition Founder_IsBlockPayeeValid (txNew : CTransaction) (height blockReward : Z) : bool :=
  let founderReward := getFounderPaymentAmount (nFounderPayment params) height blockReward in
  existsb (fun o => bool_decide (scriptPubKey o = founderScript params) && (founderReward <=? nValue o)) (vout txNew).
(** The part of [CheckTransaction] about the founders; [None] reads [vout[1]] out of range. *)
Definition check_founder (tx : CTransaction) (nHeight blockReward : Z) : option bool :=
  let founderReward := getFounderPaymentAmount (nFounderPayment params) nHeight blockReward in
  let founderStartHeight := startBlock (nFounderPayment params) in
  if (founderStartHeight <? nHeight) && negb (founderReward =? 0) && negb (Founder_IsBlockPayeeValid tx nHeight blockReward) then Some false
  else if (founderStartHeight <? nHeight) && negb (DIP0003Height params <=? nHeight) && negb (founderReward =? 0) then
    out ← vout tx !! 1%nat; Some (nValue out =? founderReward)
  else Some true.

(** ** The miner *)

(** [vout[0].nValue -= v]; [None] where there is no output. *)
Definition subtract (outs : list CTxOut) (v : Z) : option (list CTxOut) :=
  match outs with
  | o :: rest => Some (mkTxOut (s64 (nValue o - v)) (scriptPubKey o) (nRounds o) :: rest)
  | [] => None
  end.
Fixpoint subtract_all (outs : list CTxOut) (payments : list CTxOut) : option (list CTxOut) :=
  match payments with
  | [] => Some outs
  | p :: payments => outs ← subtract outs (nValue p); subtract_all outs payments
  end.
Definition FillBlockPayments (n : node_state) (objs : objects) (outs : list CTxOut) (nBlockHeight blockReward specialTxFees : Z) : option (list CTxOut * objects) :=
  let '(is_triggered, objs) := if spork9 n then SuperblockTriggered n objs nBlockHeight else (false, objs) in
  let voutSuperblockPayments :=
    if is_triggered then default [] (GetSuperblockPayments (nSuperblockStartBlock params) (nSuperblockCycle params) objs (mapTrigger n) nBlockHeight) else [] in
  voutSmartnodePayments ← GetSmartnodeTxOuts n nBlockHeight blockReward specialTxFees;
  outs ← subtract_all (outs ++ voutSmartnodePayments ++ voutSuperblockPayments) voutSmartnodePayments;
  Some (outs, objs).
Definition FillFounderPayment (outs : list CTxOut) (nBlockHeight blockReward : Z) : option (list CTxOut) :=
  let founderPayment := getFounderPaymentAmount (nFounderPayment params) nBlockHeight blockReward in
  outs ← subtract outs founderPayment;
  Some (outs ++ [mkTxOut founderPayment (founderScript params) (-10)]).
(** [GetWitnessCommitmentIndex]: the last output that looks like a commitment to the witnesses of the block, -1 if there is none. *)
Definition commitment_header : CScript := [OP_RETURN; 0x24; 0xaa; 0x21; 0xa9; 0xed].
Definition is_commitment (s : CScript) : bool := (38 <=? Z.of_nat (length s)) && bool_decide (take 6 s = commitment_header).
Fixpoint GetWitnessCommitmentIndex (outs : list CTxOut) (o commitpos : Z) : Z :=
  match outs with
  | [] => commitpos
  | out :: outs => GetWitnessCommitmentIndex outs (o + 1) (if is_commitment (scriptPubKey out) then o else commitpos)
  end.
(** [GenerateCoinbaseCommitment] on the outputs; [witnessroot] are the 32 bytes the code computes from the witnesses of the block. *)
Definition GenerateCoinbaseCommitment (outs : list CTxOut) (witnessroot : list Z) : list CTxOut :=
  if nSegwitEnabled params then
    if GetWitnessCommitmentIndex outs 0 (-1) =? -1 then outs ++ [mkTxOut 0 (commitment_header ++ witnessroot) (-10)] else outs
  else outs.
(** The outputs of the coinbase transaction of [CreateNewBlock]. *)
Definition coinbase_outputs (n : node_state) (objs : objects) (scriptPubKeyIn : CScript) (witnessroot : list Z) (nPrevBits nHeight nFees nSpecialTxFees : Z)
  : option (list CTxOut * objects) :=
  blockReward ← GetBlockSubsidy nPrevBits (nHeight - 1) false;
  let blockRewardWithSpecialtx := s64 (blockReward + nFees + nSpecialTxFees) in
  '(outs, objs) ← FillBlockPayments n objs [mkTxOut blockRewardWithSpecialtx scriptPubKeyIn (-10)] nHeight (s64 (blockReward + nFees)) nSpecialTxFees;
  outs ← FillFounderPayment outs (nHeight - 1) blockReward;
  Some (GenerateCoinbaseCommitment outs witnessroot, objs).
(** What [CheckBlock] and [ConnectBlock] ask of the coinbase transaction of a block. *)
Definition accept_coinbase (n : node_state) (objs : objects) (tx : CTransaction) (nPrevBits nHeight nFees specialTxFees : Z) : option (bool * objects) :=
  subsidy ← GetBlockSubsidy 1 (nHeight - 1) false;
  founder_ok ← check_founder tx (nHeight - 1) subsidy;
  if negb founder_ok then Some (false, objs)
  else
    subsidy ← GetBlockSubsidy nPrevBits (nHeight - 1) false;
    let blockReward := s64 (nFees + subsidy) in
    '(value_ok, objs) ← IsBlockValueValid n objs tx nHeight (s64 (blockReward + specialTxFees));
    if negb value_ok then Some (false, objs)
    else IsBlockPayeeValid n objs tx nHeight blockReward specialTxFees.

(** ** The verdict on a trigger is stable

    Asking whether a superblock is triggered updates the flags of the objects it looks at; asking again gives the same answer. *)

Abbreviation update e o := (UpdateSentinelVariables (nCollaterals params) (nGovernanceMinQuorum params) e o).

Definition same_verdict (e : vote_env) (objs objs' : objects) : Prop := forall k,
  option_Forall2 (fun o o' => mapCurrentMNVotes o = mapCurrentMNVotes o' /\ fCachedFunding (update e o) = fCachedFunding (update e o')) (objs !! k) (objs' !! k).

#[local] Instance same_verdict_refl e : Reflexive (same_verdict e).
Proof. intros objs k. destruct (objs !! k); by constructor. Qed.
#[local] Instance same_verdict_trans e : Transitive (same_verdict e).
Proof. intros objs1 objs2 objs3 H12 H23 k. specialize (H12 k). specialize (H23 k). destruct H12 as [x y [E1 E2]|]; inversion H23 as [? z [E3 E4]|]; constructor. split; congruence. Qed.
Lemma same_verdict_votes e objs objs' : same_verdict e objs objs' -> same_votes objs objs'.
Proof. intros Hs. apply map_eq. intros k. rewrite !lookup_fmap. destruct (Hs k) as [o o' [E _]|]; cbn; congruence. Qed.
Lemma update_votes e o : mapCurrentMNVotes (update e o) = mapCurrentMNVotes o.
Proof. apply UpdateSentinelVariables_votes. Qed.
Lemma update_verdict e o o' : mapCurrentMNVotes o = mapCurrentMNVotes o' -> GetValidMNsCount (nCollaterals params) (mnList e) <> 0 ->
  fCachedFunding (update e o) = fCachedFunding (update e o').
Proof.
  intros E Hn. unfold UpdateSentinelVariables. rewrite (proj2 (Z.eqb_neq _ _) Hn). cbv zeta. rewrite !funding_set_sentinel. by rewrite (count_same _ _ _ E).
Qed.
Lemma update_idem e o : fCachedFunding (update e (update e o)) = fCachedFunding (update e o).
Proof.
  destruct (decide (GetValidMNsCount (nCollaterals params) (mnList e) = 0)) as [E|Hn].
  - unfold UpdateSentinelVariables. by rewrite E.
  - apply update_verdict; [apply update_votes|done].
Qed.
Lemma same_verdict_insert e objs1 objs2 k o1 o2 : same_verdict e objs1 objs2 -> mapCurrentMNVotes o1 = mapCurrentMNVotes o2 ->
  fCachedFunding (update e o1) = fCachedFunding (update e o2) -> same_verdict e (<[k := o1]> objs1) (<[k := o2]> objs2).
Proof. intros Hs E1 E2 j. destruct (decide (j = k)) as [->|]; [rewrite !lookup_insert_eq; by constructor|]. rewrite !lookup_insert_ne by done. apply Hs. Qed.
Lemma same_verdict_update e objs k o : objs !! k = Some o -> same_verdict e objs (<[k := update e o]> objs).
Proof.
  intros E. rewrite <- (insert_id objs k o E) at 1. apply same_verdict_insert; [reflexivity|by rewrite update_votes|by rewrite update_idem].
Qed.
Lemma triggered_verdict e h l : forall objs1 objs2, same_verdict e objs1 objs2 ->
  (triggered (nCollaterals params) (nGovernanceMinQuorum params) e h l objs1).1 = (triggered (nCollaterals params) (nGovernanceMinQuorum params) e h l objs2).1 /\
  same_verdict e objs1 (triggered (nCollaterals params) (nGovernanceMinQuorum params) e h l objs2).2.
Proof.
  induction l as [|s l IH]; intros objs1 objs2 Hs; [done|]. cbn [triggered]. pose proof (Hs (nGovObjHash s)) as Hk.
  destruct (objs1 !! nGovObjHash s) as [o1|] eqn:E1, (objs2 !! nGovObjHash s) as [o2|] eqn:E2; inversion Hk as [? ? [Ev Ef]|]; subst; [|by apply IH].
  destruct (negb (h =? sb_nBlockHeight s)); [by apply IH|]. rewrite <- Ef.
  assert (Hi : same_verdict e (<[nGovObjHash s := update e o1]> objs1) (<[nGovObjHash s := update e o2]> objs2)).
  { apply same_verdict_insert; [done|by rewrite !update_votes|by rewrite !update_idem]. }
  pose proof (same_verdict_update e objs1 (nGovObjHash s) o1 E1) as Hu. destruct (fCachedFunding (update e o1)); cbn [fst snd].
  - split; [done|]. by etransitivity.
  - destruct (IH _ _ Hi) as [IH1 IH2]. split; [done|]. by etransitivity.
Qed.
Lemma SuperblockTriggered_stable n objs1 objs2 h : same_verdict (governance_env n) objs1 objs2 ->
  (SuperblockTriggered n objs1 h).1 = (SuperblockTriggered n objs2 h).1 /\ same_verdict (governance_env n) objs1 (SuperblockTriggered n objs2 h).2.
Proof.
  intros Hs. unfold SuperblockTriggered, IsSuperblockTriggered. destruct (negb _); [done|].
  assert (GetActiveTriggers objs1 (mapTrigger n) = GetActiveTriggers objs2 (mapTrigger n)) as ->; [|by apply triggered_verdict].
  unfold GetActiveTriggers. f_equal. apply list_filter_iff. intros [k s]. cbn [fst]. rewrite !bool_decide_eq_true. destruct (Hs k); by rewrite !is_Some_alt.
Qed.

(** ** The amounts *)

Lemma s64_money x : - MAX_MONEY * 100 <= x <= MAX_MONEY * 100 -> s64 x = x.
Proof. intros Hx. apply s64_small. unfold MAX_MONEY, COIN in *. lia. Qed.
Lemma sum_values_app l1 l2 : sum_values (l1 ++ l2) = sum_values l1 + sum_values l2.
Proof. induction l1 as [|o l1 IH]; cbn [app sum_values foldr]; [done|]. fold (sum_values (l1 ++ l2)) (sum_values l1). lia. Qed.
Lemma sum_values_nonneg l : Forall (fun o => 0 <= nValue o) l -> 0 <= sum_values l.
Proof. induction 1; cbn [sum_values foldr]; [lia|]. fold (sum_values l). lia. Qed.
Lemma value_out_in_range outs acc : 0 <= acc -> Forall (fun o => 0 <= nValue o) outs -> acc + sum_values outs <= MAX_MONEY ->
  value_out_loop outs acc = Some (acc + sum_values outs).
Proof.
  intros H0 Hf. revert acc H0. induction Hf as [|o outs Ho Hf IH]; intros acc H0 Hle; cbn [value_out_loop]; [cbn; f_equal; lia|].
  cbn [sum_values foldr] in *. fold (sum_values outs) in *. pose proof (sum_values_nonneg _ Hf). rewrite s64_money by lia.
  rewrite !(proj2 (MoneyRange_spec _)) by lia. cbn [negb orb]. rewrite IH by lia. f_equal. lia.
Qed.
Lemma GetValueOut_in_range tx : Forall (fun o => 0 <= nValue o) (vout tx) -> sum_values (vout tx) <= MAX_MONEY -> GetValueOut tx = Some (sum_values (vout tx)).
Proof. intros Hf Hle. unfold GetValueOut. by rewrite value_out_in_range by (done || lia). Qed.

Lemma subtract_all_eq payments : forall o rest, Forall (fun p => 0 <= nValue p) payments -> sum_values payments <= nValue o <= MAX_MONEY ->
  subtract_all (o :: rest) payments = Some (mkTxOut (nValue o - sum_values payments) (scriptPubKey o) (nRounds o) :: rest).
Proof.
  induction payments as [|p payments IH]; intros o rest Hf Hle; cbn [subtract_all sum_values foldr]; [rewrite Z.sub_0_r; by destruct o|].
  cbn [sum_values foldr] in Hle. fold (sum_values payments) in *. apply Forall_cons in Hf as [Hp Hf]. pose proof (sum_values_nonneg _ Hf).
  cbn [subtract mbind option_bind]. rewrite s64_money by lia. rewrite IH; cbn [nValue scriptPubKey nRounds]; [do 3 f_equal; lia|done|lia].
Qed.

(** A percentage of an amount. *)
Lemma percent_of a p : 0 <= a <= MAX_MONEY -> 0 <= p <= 100 -> 0 <= Z.quot (s64 (a * p)) 100 /\ 100 * Z.quot (s64 (a * p)) 100 <= a * p.
Proof.
  intros Ha Hp. assert (0 <= a * p <= MAX_MONEY * 100) by nia. rewrite s64_money by (unfold MAX_MONEY, COIN in *; lia).
  rewrite Z.quot_div_nonneg by lia. pose proof (Z.div_pos (a * p) 100). pose proof (Z.mul_div_le (a * p) 100). lia.
Qed.
Lemma founder_step_bound steps h a q : 0 <= a <= MAX_MONEY -> 0 <= q <= 100 -> Forall (fun r => 0 <= frs_rewardPercentage r <= q) steps ->
  0 <= founder_step steps h a /\ 100 * founder_step steps h a <= a * q.
Proof.
  intros Ha Hq Hf. induction Hf as [|r steps Hr Hf IH]; cbn [founder_step]; [nia|]. destruct (_ || _); [|done].
  destruct (percent_of a (frs_rewardPercentage r)); [done|lia|]. nia.
Qed.
Lemma founder_amount_bound h a q : 0 <= a <= MAX_MONEY -> 0 <= q <= 100 -> Forall (fun r => 0 <= frs_rewardPercentage r <= q) (rewardStructures (nFounderPayment params)) ->
  0 <= getFounderPaymentAmount (nFounderPayment params) h a /\ 100 * getFounderPaymentAmount (nFounderPayment params) h a <= a * q.
Proof. intros Ha Hq Hf. unfold getFounderPaymentAmount. destruct (_ <? _); [nia|]. by apply founder_step_bound. Qed.

(** ** The coinbase transaction a miner builds is accepted

    The parameters share out at most everything, the fees are those of a valid block, and the superblock that is triggered, if there is one,
    asks for no more than the limit. [payments] are the payments of that superblock. *)

Definition is_superblock (n : node_state) (objs : objects) (h : Z) : bool := spork9 n && (SuperblockTriggered n objs h).1.
Record fair_block (n : node_state) (objs : objects) (h fees special : Z) (payments : list CGovernancePayment) : Prop := {
  fair_height : 1 <= h;
  fair_percentage : 0 <= getRewardPercentage (nCollaterals params) h <= 100;
  fair_founder : Forall (fun r => 0 <= frs_rewardPercentage r <= 100 - getRewardPercentage (nCollaterals params) h) (rewardStructures (nFounderPayment params));
  fair_fees : 0 <= fees /\ 0 <= special /\ (subsidy (h - 1) + fees + special) * 10000 < 2 ^ 63;
  fair_total : subsidy (h - 1) + fees + special + sum_values (map payment_out payments) <= MAX_MONEY;
  fair_share : exists s, special_share (nSpecialRewardShare_smartnode params) special = Some s /\ 0 <= s <= special;
  fair_operator : exists p, at_height (chain n) (h - 1) = Some p /\
    forall d, GetMNPayee (nCollaterals params) (GetListForBlock p) = Some d -> 0 <= nOperatorReward d <= 10000;
  fair_dip3 : DIP0003Height params <= h - 1;
  fair_budget : nBudgetPaymentsStartBlock params <= nSuperblockStartBlock params;
  fair_limit : IsValidBlockHeight (nSuperblockStartBlock params) (nSuperblockCycle params) h = true ->
    0 <= nSuperblockCycle params /\ subsidy (h - 1) * nSuperblockCycle params <= MAX_MONEY * 90;
  fair_superblock :
    if is_superblock n objs h then
      (exists best, GetBestSuperblock (nSuperblockStartBlock params) (nSuperblockCycle params) objs (mapTrigger n) h = Some best /\ payments = vecPayments best) /\
      Forall (fun p => 0 <= pay_nAmount p) payments /\ sum_values (map payment_out payments) <= subsidy (h - 1) * nSuperblockCycle params
    else payments = []
}.

Lemma subsidy_nonneg h : 0 <= h -> 0 <= subsidy h.
Proof.
  intros Hh. unfold subsidy. destruct (Z.eqb_spec h 0) as [|Hne]; [done|]. destruct (_ <=? _); [|done]. apply Z.div_pos; [done|].
  apply Z.pow_pos_nonneg; [done|]. apply Z.div_pos; lia.
Qed.

Section Coinbase.
Variables (n : node_state) (objs : objects) (h fees special : Z) (payments : list CGovernancePayment).
Hypothesis Hfair : fair_block n objs h fees special payments.
Let R := subsidy (h - 1) + fees.
Let pct := getRewardPercentage (nCollaterals params) h.

Lemma payments_nonneg : Forall (fun o => 0 <= nValue o) (map payment_out payments).
Proof.
  pose proof (fair_superblock _ _ _ _ _ _ Hfair) as Hs. destruct (is_superblock n objs h); [destruct Hs as (_ & Hf & _)|rewrite Hs; constructor].
  rewrite Forall_map. by eapply Forall_impl.
Qed.
Lemma reward_range : 0 <= subsidy (h - 1) /\ 0 <= R /\ R + special + sum_values (map payment_out payments) <= MAX_MONEY /\ 0 <= sum_values (map payment_out payments).
Proof.
  destruct Hfair as [Hh _ _ (Hf & Hs & _) Ht _ _ _ _ _ _]. pose proof (subsidy_nonneg (h - 1) ltac:(lia)). pose proof (sum_values_nonneg _ payments_nonneg). unfold R. lia.
Qed.
Lemma subsidy_of bits part : GetBlockSubsidy bits (h - 1) part = Some (subsidy (h - 1)).
Proof. apply GetBlockSubsidy_exact. pose proof (fair_height _ _ _ _ _ _ Hfair). lia. Qed.

(** What is paid to the smartnode and its operator. *)
Lemma smartnode_outs : exists r, GetBlockTxOuts n h R special = Some r /\ Forall (fun o => 0 <= nValue o) (default [] r) /\
  100 * sum_values (default [] r) <= R * pct + 100 * special.
Proof.
  destruct reward_range as (H1 & H2 & H3 & H4). destruct (fair_share _ _ _ _ _ _ Hfair) as (s & Es & Hs). pose proof (fair_percentage _ _ _ _ _ _ Hfair) as Hp. fold pct in Hp.
  destruct (fair_fees _ _ _ _ _ _ Hfair) as (_ & Hsp & Hov). fold R in Hov. destruct (percent_of R pct) as [Hq1 Hq2]; [lia|done|]. assert (Hnone : 100 * sum_values [] <= R * pct + 100 * special) by (cbn; nia).
  assert (exists reward, GetSmartnodePayment n h R special = Some reward /\ 0 <= reward /\ 100 * reward <= R * pct + 100 * special) as (reward & Er & Hr0 & Hr).
  { unfold GetSmartnodePayment. destruct (1 <=? _); [|exists 0; split_and!; [done|done|nia]]. rewrite Es. cbn [mbind option_bind]. fold pct. eexists. split; [done|].
    rewrite (s64_money (Z.quot _ _ + s)) by nia. lia. }
  unfold GetBlockTxOuts. rewrite Er. cbn [mbind option_bind]. destruct (reward =? 0); [exists None; split_and!; [done|constructor|done]|].
  destruct (fair_operator _ _ _ _ _ _ Hfair) as (p & -> & Hop). cbn [mbind option_bind]. destruct (GetMNPayee _ _) as [d|] eqn:Ed; [|exists None; split_and!; [done|constructor|done]].
  specialize (Hop d eq_refl). eexists. split; [done|]. cbn [default from_option]. unfold Datatypes.id. set (op := if _ && _ then _ else 0).
  assert (Hopr : 0 <= op <= reward).
  { unfold op. destruct (_ && _); [|lia]. assert (reward <= R + special) by nia. rewrite s64_small by nia.
    rewrite Z.quot_div_nonneg by nia. split; [apply Z.div_pos; nia|]. apply Z.div_le_upper_bound; nia. }
  clearbody op. split.
  - apply Forall_app. split; [destruct (Z.ltb_spec 0 (reward - op))|destruct (Z.ltb_spec 0 op)]; repeat constructor; cbn; lia.
  - rewrite sum_values_app. destruct (Z.ltb_spec 0 (reward - op)), (Z.ltb_spec 0 op); cbn [sum_values foldr nValue]; lia.
Qed.

(** The objects the rules see differ from the first ones in flags only. *)
Definition ask (objs1 : objects) : bool * objects := if spork9 n then SuperblockTriggered n objs1 h else (false, objs1).
Lemma ask_stable objs1 : same_verdict (governance_env n) objs objs1 -> (ask objs1).1 = is_superblock n objs h /\ same_verdict (governance_env n) objs (ask objs1).2.
Proof.
  intros Hs. unfold ask, is_superblock. destruct (spork9 n); [|done]. destruct (SuperblockTriggered_stable n _ _ h Hs) as [E Hs']. by rewrite E.
Qed.
Lemma superblock_best objs1 : same_verdict (governance_env n) objs objs1 -> is_superblock n objs h = true ->
  exists best, GetBestSuperblock (nSuperblockStartBlock params) (nSuperblockCycle params) objs1 (mapTrigger n) h = Some best /\ payments = vecPayments best.
Proof.
  intros Hs Hb. pose proof (fair_superblock _ _ _ _ _ _ Hfair) as Hf. rewrite Hb in Hf. destruct Hf as [(best & E & Ep) _]. exists best. split; [|done].
  rewrite <- E. symmetry. apply GetBestSuperblock_same_votes. by eapply same_verdict_votes.
Qed.
Lemma superblock_height : is_superblock n objs h = true -> IsValidBlockHeight (nSuperblockStartBlock params) (nSuperblockCycle params) h = true /\
  nSuperblockStartBlock params <= h /\ spork9 n = true.
Proof.
  unfold is_superblock, SuperblockTriggered, IsSuperblockTriggered. rewrite andb_true_iff. intros [Hs Ht].
  destruct (IsValidBlockHeight _ _ h) eqn:E; [|done]. split_and!; [done| |done]. unfold IsValidBlockHeight in E. rewrite andb_true_iff, Z.leb_le in E. lia.
Qed.

(** The outputs of the miner: the rest for itself, the smartnode, the superblock, the founders, and the commitment to the witnesses, which has no value. *)
Let F := getFounderPaymentAmount (nFounderPayment params) (h - 1) (subsidy (h - 1)).
Definition miner_outs (script : CScript) (r commitment : list CTxOut) : list CTxOut :=
  mkTxOut (R + special - sum_values r - F) script (-10) :: r ++ map payment_out payments ++ mkTxOut F (founderScript params) (-10) :: commitment.
Definition no_value (outs : list CTxOut) : Prop := Forall (fun o => nValue o = 0) outs.
Lemma no_value_sum outs : no_value outs -> sum_values outs = 0.
Proof. induction 1 as [|o outs Ho _ IH]; cbn [sum_values foldr]; [done|]. fold (sum_values outs). lia. Qed.
Lemma commitment_appended outs witnessroot : exists commitment, GenerateCoinbaseCommitment outs witnessroot = outs ++ commitment /\ no_value commitment.
Proof.
  unfold GenerateCoinbaseCommitment, no_value. destruct (nSegwitEnabled params); [|exists []; rewrite app_nil_r; by repeat constructor].
  destruct (GetWitnessCommitmentIndex outs 0 (-1) =? -1); [|exists []; rewrite app_nil_r; by repeat constructor]. eexists. split; [done|]. by repeat constructor.
Qed.

Lemma miner_rest r : 100 * sum_values r <= R * pct + 100 * special -> 0 <= F /\ 0 <= R + special - sum_values r - F.
Proof.
  destruct reward_range as (H1 & H2 & H3 & H4). pose proof (fair_percentage _ _ _ _ _ _ Hfair) as Hp. destruct (fair_fees _ _ _ _ _ _ Hfair) as (Hf & Hsp & _).
  destruct (founder_amount_bound (h - 1) (subsidy (h - 1)) (100 - pct)) as [HF0 HF]; [unfold R in *; lia|unfold pct; lia|exact (fair_founder _ _ _ _ _ _ Hfair)|].
  fold F in HF0, HF. fold pct in Hp. intros Hr. split; [done|]. assert (subsidy (h - 1) * (100 - pct) <= R * (100 - pct)) by (unfold R; nia). nia.
Qed.
Lemma coinbase_built script witnessroot bits : exists r commitment objs', GetBlockTxOuts n h R special = Some r /\ no_value commitment /\
  coinbase_outputs n objs script witnessroot bits h fees special = Some (miner_outs script (default [] r) commitment, objs').
Proof.
  destruct smartnode_outs as (r & Er & Hr & Hsum). destruct reward_range as (H1 & H2 & H3 & H4). destruct (miner_rest _ Hsum) as [HF0 HF].
  destruct (ask_stable objs) as [Eb Hv]; [reflexivity|].
  destruct (commitment_appended (mkTxOut (R + special - sum_values (default [] r) - F) script (-10) :: default [] r ++ map payment_out payments ++ [mkTxOut F (founderScript params) (-10)])
    witnessroot) as (commitment & Ec & Hno). exists r, commitment, (ask objs).2. split; [done|]. split; [done|].
  destruct (fair_fees _ _ _ _ _ _ Hfair) as (Hf & Hsp & _). pose proof (sum_values_nonneg _ Hr).
  unfold coinbase_outputs. rewrite subsidy_of. cbn [mbind option_bind]. unfold R in *. rewrite !s64_money by (unfold MAX_MONEY, COIN in *; lia).
  unfold FillBlockPayments. fold (ask objs). rewrite (surjective_pairing (ask objs)), Eb. unfold GetSmartnodeTxOuts. rewrite Er. cbn [mbind option_bind app].
  assert ((if is_superblock n objs h then default [] (GetSuperblockPayments (nSuperblockStartBlock params) (nSuperblockCycle params) (ask objs).2 (mapTrigger n) h) else [])
    = map payment_out payments) as ->.
  { destruct (is_superblock n objs h) eqn:Es; [|pose proof (fair_superblock _ _ _ _ _ _ Hfair) as Hs; rewrite Es in Hs; by rewrite Hs].
    destruct (superblock_best _ Hv Es) as (best & E & ->). unfold GetSuperblockPayments. by rewrite E. }
  rewrite subtract_all_eq by (done || cbn [nValue]; lia). cbn [mbind option_bind nValue scriptPubKey nRounds].
  unfold FillFounderPayment. fold F. cbn [subtract mbind option_bind nValue scriptPubKey nRounds]. rewrite s64_money by (unfold MAX_MONEY, COIN in *; lia).
  cbn [app]. rewrite <- app_assoc. cbn [app]. unfold R in Ec. rewrite Ec. unfold miner_outs. cbn [app]. by rewrite <- !app_assoc.
Qed.

(** The three rules on a transaction with these outputs. *)
Section Rules.
Variables (r : option (list CTxOut)) (script : CScript) (commitment : list CTxOut) (tx : CTransaction).
Hypothesis Hno : no_value commitment.
Hypothesis Er : GetBlockTxOuts n h R special = Some r.
Hypothesis Etx : vout tx = miner_outs script (default [] r) commitment.
Let T := R + special + sum_values (map payment_out payments).

Lemma miner_value : sum_values (vout tx) = T /\ Forall (fun o => 0 <= nValue o) (vout tx) /\ 0 <= T <= MAX_MONEY.
Proof.
  destruct smartnode_outs as (r' & Er' & Hr & Hsum). assert (r' = r) as -> by congruence. destruct (miner_rest _ Hsum) as [HF0 HF].
  destruct reward_range as (H1 & H2 & H3 & H4). destruct (fair_fees _ _ _ _ _ _ Hfair) as (_ & Hsp & _). rewrite Etx. unfold miner_outs. split_and!; [| |unfold T; lia..].
  - cbn [sum_values foldr nValue]. fold (sum_values (default [] r ++ map payment_out payments ++ mkTxOut F (founderScript params) (-10) :: commitment)).
    rewrite !sum_values_app. cbn [sum_values foldr nValue]. fold (sum_values commitment). rewrite (no_value_sum _ Hno). unfold T. lia.
  - constructor; [done|]. rewrite !Forall_app. split_and!; [done|apply payments_nonneg|]. constructor; [done|]. eapply Forall_impl; [exact Hno|]. cbn. lia.
Qed.
Lemma value_met_miner v : value_met tx v = Some (T <=? v).
Proof. destruct miner_value as (E & Hf & Hle). unfold value_met. rewrite GetValueOut_in_range by (done || lia). by rewrite E. Qed.
Lemma check_founder_miner : check_founder tx (h - 1) (subsidy (h - 1)) = Some true.
Proof.
  unfold check_founder. fold F. rewrite (proj2 (Z.leb_le _ _) (fair_dip3 _ _ _ _ _ _ Hfair)), andb_false_r. cbn [andb negb].
  assert (Founder_IsBlockPayeeValid tx (h - 1) (subsidy (h - 1)) = true) as ->; [|by rewrite andb_false_r].
  unfold Founder_IsBlockPayeeValid. fold F. apply existsb_exists. exists (mkTxOut F (founderScript params) (-10)). split.
  - apply list_elem_of_In. rewrite Etx. right. rewrite !elem_of_app. right. right. by left.
  - cbn [scriptPubKey nValue]. by rewrite bool_decide_eq_true_2, Z.leb_refl.
Qed.
Lemma IsTransactionValid_miner : IsTransactionValid n tx h R special = Some true.
Proof.
  unfold IsTransactionValid. destruct (negb _); [done|]. rewrite Er. cbn [mbind option_bind]. destruct r as [outs|]; [|done].
  assert (Hin : forall o, o ∈ outs -> o ∈ vout tx) by (intros o Ho; rewrite Etx; right; apply elem_of_app; by left).
  clear Er Etx. induction outs as [|o outs IH]; cbn [find_payees]; [done|]. rewrite bool_decide_eq_true_2 by (apply Hin; left). apply IH. intros o' Ho'. apply Hin. by right.
Qed.
Lemma limit_of : exists limit, GetPaymentsLimit (nSuperblockStartBlock params) (nSuperblockCycle params) 1 h = Some limit /\ 0 <= limit <= MAX_MONEY * 90 /\
  (IsValidBlockHeight (nSuperblockStartBlock params) (nSuperblockCycle params) h = true -> limit = subsidy (h - 1) * nSuperblockCycle params).
Proof.
  pose proof (fair_limit _ _ _ _ _ _ Hfair) as Hl. destruct reward_range as (H1 & _). unfold GetPaymentsLimit.
  destruct (IsValidBlockHeight _ _ h); cbn [negb]; [|exists 0; split_and!; unfold MAX_MONEY, COIN; done || lia].
  destruct (Hl eq_refl) as [Hc Hle]. rewrite subsidy_of. cbn [mbind option_bind]. eexists. split; [done|]. rewrite s64_money by (unfold MAX_MONEY, COIN in *; nia). split; [nia|done].
Qed.
Lemma total_amount l : Forall (fun o => 0 <= nValue o) (map payment_out l) -> forall acc, 0 <= acc -> acc + sum_values (map payment_out l) <= MAX_MONEY ->
  foldl (fun total p => s64 (total + pay_nAmount p)) acc l = acc + sum_values (map payment_out l).
Proof.
  induction l as [|p l IH]; intros Hf acc Hacc Hle; cbn [foldl map sum_values foldr] in *; [lia|]. fold (sum_values (map payment_out l)) in *.
  apply Forall_cons in Hf as [Hp Hf]. cbn [payment_out nValue] in *. pose proof (sum_values_nonneg _ Hf). rewrite s64_money by (unfold MAX_MONEY, COIN in *; lia).
  rewrite IH; [lia|done|lia|lia].
Qed.
Lemma SuperblockValid_miner objs1 B : same_verdict (governance_env n) objs objs1 -> is_superblock n objs h = true -> 0 <= B <= MAX_MONEY ->
  SuperblockValid n objs1 tx h B = Some (R + special <=? B).
Proof.
  intros Hv Hb HB. destruct (superblock_best _ Hv Hb) as (best & E & Ep). destruct (superblock_height Hb) as (Eh & _). destruct miner_value as (Ev & Hf & HT).
  pose proof (fair_superblock _ _ _ _ _ _ Hfair) as Hs. rewrite Hb in Hs. destruct Hs as (_ & _ & Hlim). destruct limit_of as (limit & El & _ & Elim). rewrite (Elim Eh) in El.
  destruct reward_range as (_ & H2 & H3 & H4). destruct (fair_fees _ _ _ _ _ _ Hfair) as (_ & Hsp & _).
  unfold SuperblockValid, SuperblockManager_IsValid. rewrite E. unfold Superblock_IsValid. rewrite Eh. cbn [negb]. unfold CountPayments, GetPaymentsTotalAmount. rewrite <- Ep.
  rewrite total_amount by (apply payments_nonneg || lia). rewrite Z.add_0_l, El. cbn [mbind option_bind].
  rewrite (proj2 (Z.ltb_ge _ 0)). 2:{ rewrite Etx. unfold miner_outs. cbn [length]. rewrite !length_app, length_map. cbn [length]. lia. }
  rewrite (proj2 (Z.ltb_ge (subsidy (h - 1) * _) _)) by lia. rewrite GetValueOut_in_range by (done || lia). cbn [mbind option_bind].
  rewrite s64_money by (unfold MAX_MONEY, COIN in *; lia). rewrite Ev. unfold T.
  destruct (Z.leb_spec (R + special) B); [rewrite (proj2 (Z.ltb_ge _ _)) by lia|by rewrite (proj2 (Z.ltb_lt _ _)) by lia].
  rewrite Etx. unfold miner_outs. f_equal. set (m := mkTxOut _ script _). change (m :: ?l) with ([m] ++ l).
  apply (match_payments_complete payments (m :: default [] r) (mkTxOut F (founderScript params) (-10) :: commitment) 0). cbn. lia.
Qed.
Lemma IsBlockValueValid_miner : exists objs1, IsBlockValueValid n objs tx h (R + special) = Some (true, objs1) /\ same_verdict (governance_env n) objs objs1.
Proof.
  destruct (ask_stable objs) as [Eb Hv]; [reflexivity|]. destruct limit_of as (limit & El & Hl & Elim). destruct reward_range as (_ & H2 & H3 & H4).
  destruct (fair_fees _ _ _ _ _ _ Hfair) as (_ & Hsp & _). pose proof (fair_superblock _ _ _ _ _ _ Hfair) as Hs.
  pose proof (fair_budget _ _ _ _ _ _ Hfair) as Hbs.
  unfold IsBlockValueValid, IsOldBudgetBlockValueValid. rewrite !value_met_miner, El. cbn [mbind option_bind]. rewrite value_met_miner. cbn [mbind option_bind].
  rewrite (s64_money (R + special + limit)) by (unfold MAX_MONEY, COIN in *; lia).
  destruct (is_superblock n objs h) eqn:Es.
  - destruct (superblock_height Es) as (Eh & Hh & E9). unfold ask in Eb, Hv. rewrite E9 in Eb, Hv. rewrite Eh. cbn [negb]. specialize (Elim Eh).
    rewrite !(proj2 (Z.ltb_ge _ _)) by lia. rewrite (proj2 (Z.leb_le T _)) by (unfold T; lia). cbn [negb].
    destruct (negb (fSynced n) || fLiteMode n); [by exists objs|]. rewrite E9. cbn [negb]. rewrite (surjective_pairing (SuperblockTriggered n objs h)), Eb. cbn [negb].
    rewrite SuperblockValid_miner by (done || lia). cbn [mbind option_bind]. rewrite Z.leb_refl. by eexists.
  - assert ((T <=? R + special) = true) as ->. { apply Z.leb_le. unfold T. rewrite Hs. cbn [map sum_values foldr]. lia. }
    assert ((T <=? R + special + limit) = true) as ->. { apply Z.leb_le. unfold T. rewrite Hs. cbn [map sum_values foldr]. lia. }
    destruct (Z.ltb_spec h (nBudgetPaymentsStartBlock params)); [by exists objs|]. destruct (Z.ltb_spec h (nSuperblockStartBlock params)).
    { rewrite (proj2 (Z.leb_gt _ _)) by lia. exists objs. by destruct (_ && _), (fSynced n). }
    destruct (negb (IsValidBlockHeight _ _ _)); [by exists objs|]. cbn [negb]. destruct (negb (fSynced n) || fLiteMode n); [by exists objs|].
    destruct (spork9 n) eqn:E9; cbn [negb]; [|by exists objs]. unfold ask in Eb, Hv. rewrite E9 in Eb, Hv.
    rewrite (surjective_pairing (SuperblockTriggered n objs h)), Eb. cbn [negb]. by eexists.
Qed.
Lemma IsBlockPayeeValid_miner objs1 : same_verdict (governance_env n) objs objs1 ->
  exists objs2, IsBlockPayeeValid n objs1 tx h R special = Some (negb (is_superblock n objs h && negb (fLiteMode n) && (0 <? special)), objs2).
Proof.
  intros Hv. destruct (ask_stable objs1 Hv) as [Eb Hv']. destruct reward_range as (_ & H2 & H3 & H4). destruct (fair_fees _ _ _ _ _ _ Hfair) as (_ & Hsp & _).
  unfold IsBlockPayeeValid. destruct (fLiteMode n); [rewrite andb_false_r; by exists objs1|]. rewrite andb_true_r.
  destruct (is_superblock n objs h) eqn:Es; cbn [andb].
  - destruct (superblock_height Es) as (_ & Hh & _). rewrite (proj2 (Z.ltb_ge h (nSuperblockStartBlock params))), andb_false_r by lia.
    fold (ask objs1). rewrite (surjective_pairing (ask objs1)), Eb. rewrite SuperblockValid_miner by (done || lia). cbn [mbind option_bind].
    destruct (Z.leb_spec (R + special) R); cbn [negb]; [rewrite IsTransactionValid_miner, (proj2 (Z.ltb_ge 0 _)) by lia|rewrite (proj2 (Z.ltb_lt 0 _)) by lia]; by eexists.
  - destruct (_ && _); [by exists objs1|]. fold (ask objs1). rewrite (surjective_pairing (ask objs1)), Eb. cbn [mbind option_bind negb].
    rewrite IsTransactionValid_miner. by eexists.
Qed.
End Rules.
End Coinbase.


(** ** The projection *)

#[local] Instance paid_before_trans : Transitive paid_before.
Proof. intros a b c Hab Hbc. unfold paid_before in *. destruct (CompareByLastPaid c a) eqn:E; [|done]. destruct (compare_cases c b a E); congruence. Qed.
#[local] Instance paid_before_total : Total paid_before.
Proof.
  intros a b. unfold paid_before. destruct (CompareByLastPaid b a) eqn:E1; [|by left]. destruct (CompareByLastPaid a b) eqn:E2; [|by right].
  pose proof (compare_trans _ _ _ E1 E2) as E. rewrite CompareByLastPaid_key, memcmp_lt_irrefl in E. done.
Qed.
(** The lemmas on the queue are about the collaterals of a block; those of the network here. *)
#[local] Instance queue : BlockContext := Build_BlockContext (nCollaterals params) 0 false (fun _ => None) (fun _ => None) (fun _ => None) (fun _ _ => []) [] 0.
(** The first node that is projected is the one the next block pays, once two nodes are registered; a single node is projected, yet no block pays it. *)
Theorem projection_starts_with_payee l nCount : list_ok l -> hashes_ok l -> 1 <= nCount ->
  exists ps, GetProjectedMNPayees l nCount = Some ps /\ (1 < Z.of_nat (base.size (mnMap l)) -> head ps = GetMNPayee (nCollaterals params) l) /\
    (Z.of_nat (base.size (mnMap l)) <= 1 -> GetMNPayee (nCollaterals params) l = None /\ ps = ForEachMN (nCollaterals params) l true).
Proof.
  intros Hl Hh Hn. unfold GetProjectedMNPayees, GetValidMNsCount. set (valid := ForEachMN (nCollaterals params) l true).
  set (count := if _ <? 1 then 0 else _). assert (0 <= count) by (unfold count; destruct (Z.ltb_spec (Z.of_nat (length valid)) 1), (Z.ltb_spec (Z.of_nat (length valid)) nCount); lia).
  rewrite (proj2 (Z.ltb_ge count 0)) by done. eexists. split; [done|]. pose proof (merge_sort_Permutation paid_before valid) as Hperm. split; intros Hs.
  - assert (Hsort : StronglySorted paid_before (merge_sort paid_before valid)) by (apply StronglySorted_merge_sort; apply _).
    destruct (merge_sort paid_before valid) as [|x ps] eqn:Ems.
    + apply Permutation_nil_l in Hperm. unfold GetMNPayee. fold valid. rewrite <- Hperm, take_nil. rewrite (proj2 (Z.leb_gt _ _)) by lia. by destruct (count <? _).
    + assert (1 <= count). { unfold count. apply Permutation_length in Hperm. cbn [length] in Hperm. destruct (Z.ltb_spec (Z.of_nat (length valid)) 1); [lia|]. destruct (Z.ltb_spec (Z.of_nat (length valid)) nCount); lia. }
      transitivity (Some x). { destruct (count <? _); [|done]. destruct (Z.to_nat count) eqn:E; [lia|done]. }
      assert (Hx : x ∈ valid) by (rewrite <- Hperm; left). pose proof Hx as [[k Hk] Hvx]%(elem_of_valid (H1 := queue)).
      destruct (GetMNPayee_exists (H1 := queue) l k x Hs Hk Hvx) as [p Ep]. cbn [SmartnodeBlock.nCollaterals queue] in Ep. rewrite Ep. f_equal.
      destruct (GetMNPayee_first (H1 := queue) l p Hl Hh Ep) as (Hp & Hvp & Hfirst).
      destruct (decide (k = proTxHash p)) as [->|Hne]; [congruence|]. specialize (Hfirst k x Hk Hvx Hne).
      assert (p ∈ x :: ps) as [->|Hin]%elem_of_cons by (rewrite Hperm; apply (elem_of_valid (H1 := queue)); eauto); [done|].
      apply StronglySorted_inv in Hsort as [_ Hall]. rewrite Forall_forall in Hall. specialize (Hall p Hin). unfold paid_before in Hall. congruence.
  - split; [unfold GetMNPayee; by rewrite (proj2 (Z.leb_le _ _)) by lia|].
    assert (Hlen : (length valid <= 1)%nat). { unfold valid, ForEachMN. etransitivity; [apply length_filter|]. rewrite length_fmap, length_map_to_list. lia. }
    destruct valid as [|x [|y vs]]; [by destruct (count <? _), (Z.to_nat count)| |cbn in Hlen; lia].
    assert (count = 1) as -> by (unfold count; change (Z.of_nat (length [x])) with 1; cbn [Z.ltb Z.compare Pos.compare Pos.compare_cont]; destruct (Z.ltb_spec 1 nCount); lia). done.
Qed.
End Rewards.

(** A network with superblocks every twelve blocks, and block 24 of it, for which two of three nodes have voted a payment. *)
Module RewardSample.
#[local] Existing Instance Sample.hash.
#[export] Instance lists : SmartnodeLists := {| GetListForBlock _ := VoteSample.nodes; IsDIP3Enforced h := 10 <=? h |}.
Definition params : RewardParams :=
  mkRewardParams 5 50 10 12 12 1 (collaterals_new [(INT_MAX, 65000 * 100000000)] [(10, 0); (INT_MAX, 65)]) (SpecialRewardShare 65 100)
    (mkFounder 1 [mkFounderReward INT_MAX 5]) [118; 1] 1 10 true.
Definition root : list Z := replicate 32 9.
Definition payment : CGovernancePayment := mkPayment [118; 2] (40 * COIN).
Definition node (superblocks : bool) : node_state :=
  mkNode (replicate 24 (Some 1)) true false superblocks VoteSample.env {[ 77 := mkSuperblock 77 24 SEEN_OBJECT_IS_VALID [payment] ]}.
Definition objects : gmap Z CGovernanceObject := {[ 77 := VoteSample.tally VoteSample.votes ]}.
End RewardSample.
#[local] Existing Instance RewardSample.lists.
#[local] Existing Instance Sample.hash.
#[local] Instance sample_crypto : CryptoHashes := real_hashes VoteSample.junk.

Lemma sample_superblock : is_superblock RewardSample.params (RewardSample.node true) RewardSample.objects 24 = true.
Proof. vm_compute. reflexivity. Qed.
Lemma sample_best : vecPayments <$> GetBestSuperblock 12 12 RewardSample.objects (mapTrigger (RewardSample.node true)) 24 = Some [RewardSample.payment].
Proof. vm_compute. reflexivity. Qed.
Lemma sample_fair (superblocks : bool) special : special = 0 \/ special = 1000 ->
  fair_block RewardSample.params (RewardSample.node superblocks) RewardSample.objects 24 5000 special (if superblocks then [RewardSample.payment] else []).
Proof.
  intros Hs. split.
  - done.
  - vm_compute. by split.
  - repeat constructor; vm_compute; done.
  - destruct Hs as [-> | ->]; vm_compute; by split_and!.
  - destruct Hs as [-> | ->], superblocks; vm_compute; done.
  - destruct Hs as [-> | ->]; eexists; (split; [vm_compute; reflexivity|lia]).
  - exists 1. split; [done|]. intros d Hd. assert (nOperatorReward <$> GetMNPayee (nCollaterals RewardSample.params) VoteSample.nodes = Some 0) as E by (vm_compute; reflexivity).
    cbn [GetListForBlock RewardSample.lists] in Hd. rewrite Hd in E. injection E as ->. lia.
  - done.
  - done.
  - intros _. vm_compute. by split.
  - destruct superblocks; [|done]. rewrite sample_superblock. pose proof sample_best as Hb. split_and!.
    + cbn [nSuperblockStartBlock nSuperblockCycle RewardSample.params]. destruct (GetBestSuperblock _ _ _ _ _) as [best|]; [|done]. exists best. split; [done|]. by injection Hb as ->.
    + repeat constructor. vm_compute. done.
    + vm_compute. done.
Qed.

